(* ===== verification/_CoqProject ===== *)
-Q . S2P
Prelude.v
Contract.v
RustStr.v
Labels.v
F64.v
Sizes.v
Patterns.v
Triggers.v
Rollout.v
Stores.v
Vars.v
VarCosts.v
PipelineFile.v
FilePublish.v
Lowering.v
PlanRuns.v
PlanShape.v
FileSample.v
RunnerSecrets.v
RunnerPlan.v
Cron.v
Db.v
Incidents.v
Access.v
Builds.v
Runners.v
Monitors.v
Creation.v
Publishing.v
Releases.v
Environments.v
AppStore.v
Rollouts.v
Promotions.v
AppStoreRuns.v
ReleaseSafety.v
AppStoreSafety.v
Wp.v
BuildLogs.v
RunnerLogs.v
RunnerJob.v
Accounts.v
SignIn.v
Setup.v
AccountRuns.v
LogStreams.v
AccountSafety.v
SignInSafety.v
Schedules.v
Reruns.v
Webhooks.v
Deliveries.v
Receipts.v
DeliveryQueue.v
DeliverySafety.v
ManualBuilds.v
Retention.v
Lifecycle.v
Removals.v
Daemon.v
