(* ===== verification/Prelude.v ===== *)
(** * Oore CI: the daemon's core logic, modelled and verified

    Oore is a self-hosted CI for mobile apps.  A daemon ([crates/oored]) keeps
    projects, pipelines, builds and runners in SQLite and serves an HTTP API;
    runners ([crates/oore-runner]) poll it for work; a CLI, web apps and store
    clients surround it; [crates/oore-contract] holds the types they share.
    This library models what decides whether a build runs, where, once, and
    until when, and what becomes of it in the stores: the shared vocabulary,
    trigger and path matching, pipeline files and the plans made of them, cron
    schedules, the build table with every writer of its status (not of the
    columns of commit reports and notifications), runners and claims,
    background monitors, retention, releases with their staged rollouts,
    environments and promotions, the runner's plan, secrets, reports and log of
    a job with the log the daemon keeps and streams of it, and who may do any
    of this: first-run setup, the three ways to sign in, sessions, API tokens,
    users, project members and the access checks in front of every handler.

    ** Files

    - [Prelude]: the [result] type and its monad, shared list lemmas, tactics,
      the hint database [oore].
    - [Contract] ([oore-contract/src/lib.rs]): one module per enumeration with
      its text codec, the interface [Wire] with its laws [WireOk], and the
      transition tables of builds and releases.
    - [RustStr]: the string and integer-parsing operations of Rust's standard
      library the sources use, on byte strings.
    - [F64]: Rust's [f64] by the Standard Library's [SpecFloat], with rounding
      to [i64] and two-decimal printing.
    - [Labels], [Sizes], [Patterns], [Triggers], [Rollout]
      ([oore-contract/src/lib.rs], [artifact_sizes.rs], [runners.rs]): runner
      labels and disk pressure; size budgets and the comparison with a
      baseline; glob and path matching; trigger filters and policies; rollout
      policies and their schedule.
    - [Stores] ([oore-contract/src/lib.rs], [app_store_publish.rs],
      [app_store_connect.rs]): the publish settings of both stores, their
      validation and normal form, what App Store Connect is asked and answers,
      and the monitor's readings of it.
    - Pipeline files ([oore-contract/src/pipeline_config.rs] with the version 1
      parts of [lib.rs]): [Vars] holds the references of a file and the
      resolver with its cache and budget, [VarCosts] what it spends;
      [PipelineFile] the plan of a build, version 1 settings, the data of a
      version 2 file and its checks; [FilePublish] how a file's uploads combine
      with the pipeline's settings; [Lowering] validation and planning, in a
      monad [L] of spending and collected errors, and the version dispatch;
      [PlanRuns] the simulation of planning by validation; [PlanShape] what a
      plan holds; [FileSample] a file on which the theorems are tried.
      Decoding YAML and printing a percentage are parameters.
    - [Cron] ([pipeline_schedules.rs]): parsing into bit sets, matching, the
      minute scan.
    - [Db]: the tables as finite maps and lists in the record [db], statements
      as functions on it, and the handler monad [ME].  A handler runs on a
      [world]: the database, a script of statement failures ([w_faults]) and
      the build events published so far.  Each statement takes the next entry
      of the script, so that a theorem about all worlds is about every pattern
      of database errors.  [transaction_with] rolls back as SQLite does.
    - [Incidents] ([incidents.rs]), [Access] ([project_rbac.rs],
      [session.rs]), [Builds] ([builds.rs]: status changes, creation with its
      retries, cancellation, approvals), [Runners] ([runners.rs]: claims, job
      protocol, signing grants, registration, heartbeats), [Monitors]
      ([background.rs], [scheduler.rs], [operator.rs], [projects.rs],
      [integrations/mod.rs]: the loops and recovery that move builds without a
      request, and the operator's barrier), [Retention] ([retention.rs],
      [background.rs]), [Removals] ([projects.rs], [pipelines.rs],
      [integrations]: projects that get another source, and the deletion of
      projects, pipelines, integrations and repositories).
    - [Creation] ([builds.rs]: what every way of creating a build shares), and
      the ways: [ManualBuilds] (a request), [Webhooks] (a delivery),
      [Schedules] ([pipeline_schedules.rs], due runs), [Reruns]
      ([step_retry.rs] too: reruns and retried uploads).
    - [Publishing] ([pipeline_publish.rs], [app_store_publish.rs],
      [secrets.rs]): the publishing settings and stored uploads these read.
    - [AppStore] ([app_store_publish.rs], [pipeline_publish.rs]): the settings
      endpoints, the report of an upload, the monitor that follows App Store
      releases, the client for App Store controls and promotions, and the
      router that is the daemon's store client.
    - [Releases] ([releases.rs]) and [Environments] ([environments.rs]): the
      operations of releases, environments and promotions over a store that is
      the interface [ReleaseStoreClient], with its laws [ReleaseStoreLaws].
    - [Lifecycle]: the abstract state machine of the build table; [Daemon]: the
      refinement of every handler and monitor to it.
    - [Rollouts]: the abstract state machine of releases, environments and
      promotions; [Promotions]: its invariants and the refinement of the
      operations; [AppStoreRuns]: the same for [AppStore], and the router's
      proof of the laws; [ReleaseSafety], [AppStoreSafety]: what follows.

    - [Accounts] ([session.rs], [api_tokens.rs], [extractors.rs], [rbac.rs],
      [users.rs], [project_members.rs]): sessions, tokens, the identity of a
      request, the policy (the interface [Casbin] is what the enforcer
      promises), users and members.
    - [SignIn] ([auth.rs], [local_recovery.rs], [lib.rs],
      [instance_settings.rs]): the daemon's memory of sign-ins under way
      ([Pending]) and recovery capabilities ([Recovery]), the client's address
      ([Client]), trusted proxies ([Proxy]), and OIDC, local and proxy sign-in.
    - [Setup] ([lib.rs], [store.rs], [operator.rs], [instance_settings.rs]):
      the setup wizard and the access settings of a ready instance.
    - [Wp]: weakest preconditions of handlers, with a rule per construct;
      [AccountRuns]: the abstract changes of accounts and setup and the
      refinement of every handler to them; [AccountSafety], [SignInSafety]:
      what follows.
    - [Deliveries] ([integrations/webhooks.rs]): the receivers of GitHub's and
      GitLab's deliveries with their cache of secrets, the normal form of an
      event, the revision trust policy, the queue with its leases and retries,
      and the worker, which ends in [Webhooks]; [Receipts]: what a receiver
      leaves behind; [DeliveryQueue]: the step relation of the queue, its
      invariant, termination and progress; [DeliverySafety]: what may be built.

    - The runner ([oore-runner/src/lib.rs]): [RunnerSecrets] holds the secret
      references of a plan, the masker and the previews; [RunnerPlan] the plan
      of a job, from the file in the checkout or the settings; [RunnerLogs] the
      numbering and sending of log lines, run against the daemon; [RunnerJob]
      the authority to go on, status reports with their retries and the report
      a job ends with, run against the daemon's handlers.
    - Logs ([logs.rs]): [BuildLogs] the storing, trimming and reading of lines,
      [LogStreams] tokens, admission, authorization and the loop of a stream.

    A definition carries the name of the function it models; the clock, drawn
    identifiers and tokens are arguments.  A request reads the clock once in
    the model where the code may read it a few times.  JSON columns are held
    decoded, with the fields that the modelled code reads.

    ** What the theorems show

    - State machine of builds ([Lifecycle], [Daemon]): [step] is one committed change of the build
      table with arbitrary parameters, since what a handler read before may be
      stale.  Every run of every handler, whatever statements fail, is a
      sequence of steps ([handlers_refine]); steps keep every row consistent
      with its status, the event log replaying to it and build numbers unique,
      and every status change recorded is one of [valid_transitions], a decided
      approval or the failure of a queued build whose credentials were refused,
      which the table does not have ([build_table_invariant]); finished builds
      stay finished ([finished_is_final]); no change takes the builds of a
      pipeline or a runner beyond the limit then in force, so a count exceeds a
      limit only while builds of a higher one finish ([limits_invariant]); a
      pipeline is deleted with all its builds, finished ones only, or not at
      all ([delete_pipeline_spec]).
    - Releases ([Rollout], [ReleaseSafety]): every run of every release,
      environment and promotion handler, whatever fails, is a sequence of
      [rstep]s ([release_handlers_refine]); from there, valid rows whose
      history replays ([release_invariant]), well-formed environments and
      promotions, and what a store is ever asked: no rollout is raised before
      its approval ([store_calls_gated]), and a promotion reaches a store only
      through its gates, from a live release and into an environment without
      the build ([promotions_gated]).  A change is
      sent to the store first and recorded whole or not at all; a due step is
      taken; the schedule of a valid policy ends at the full rollout.
    - App Store ([Stores], [AppStoreSafety]): the router keeps the laws of a
      store client whatever Apple answers, so all of the above holds with it
      ([router_serves]); a reported upload is recorded once; a poll brings the
      release to where Apple has it, a stale poll changes nothing, a day of
      failing polls ends in a failed release; promotions and controls ask Apple
      for no more than they may; settings are stored in one canonical form.
    - Accounts ([AccountSafety], [SignInSafety]): the handlers of accounts,
      sign-in and setup are one transition system whose runs are sequences of
      [change]s, whatever fails.  Setup only moves forward
      ([setup_only_forward]); a ready instance has an active owner
      ([account_invariant]) whom no request can touch ([owner_untouchable]);
      a disabled user's credentials are dead for good ([revocation_is_final]);
      a request acts with at most the user's current role
      ([authenticated_identity]); who manages users and members is gated, and a
      project keeps a maintainer.  A session is opened only with the proof its
      way of signing in asks for ([sign_in_gate]); OIDC starts are limited
      exactly ([oidc_admission_limits]); recovery capabilities are used once;
      the owner is claimed only under the configuration the claim was started
      with; a change of the access policy ends every session; a request is
      local exactly when nothing says otherwise ([loopback_client]).
    - Pipeline files ([VarCosts], [PlanRuns], [PlanShape], [FilePublish]): the
      resolver returns what plain substitution gives, stops at cycles and
      limits only, and always returns ([resolve_expansion]); a file that
      validation accepted within its budget plans for every workflow and every
      selection of its platforms ([validated_file_plans]); a plan has the
      file's steps in order, one build per target and flavor, expanded
      commands and valid artifact patterns ([plan_holds]); what is published
      follows the file, then the settings, field by field ([apply_follows]);
      version 1 settings survive planning, but for platform build arguments,
      which no plan keeps ([v1_round_trip]).
    - Deliveries ([Receipts], [DeliveryQueue], [DeliverySafety]): only a request
      that knows a secret in use is stored, once
      ([authenticated_deliveries]); the queue keeps its invariant in every run
      ([delivery_queue_invariant]), the worker's loop ends
      ([worker_loop_ends]) and every delivery is settled for good
      ([deliveries_settle], [settled_is_final]); only revisions of the
      registered repository itself are built, never a fork's
      ([trusted_revisions_only]).
    - Runner and logs ([RunnerSecrets], [RunnerPlan], [RunnerJob],
      [RunnerLogs], [LogStreams]): commands hold no value of a secret
      ([commands_hold_no_secret]) and masked text shows none
      ([masked_text_hides]); the daemon's log is the promised one of what it
      accepted, the first line of each number, whatever is lost
      ([runner_log_kept]); a runner stops a build
      that is not its own and survives shorter outages ([checks_decide]),
      reports end ([reports_end]) and what is reported is what is stored
      ([job_report_stored]); streams tell lines to those who may read them
      ([log_lines_authorized]), in order and each once ([stream_follows_log]),
      to the end ([stream_catches_up]), under their limits ([stream_limits]).
    - Operations ([Builds], [Runners], [ManualBuilds], [Webhooks], [Reruns]): creation, status change, claim and
      approval are all or nothing and do exactly what they say; of two
      competing changes one wins; a webhook delivery builds once; contention
      is absorbed; the queue is served in order; signing material needs a live
      assignment.  A request, a delivery and a rerun add exactly the builds
      they describe; a delivery whose statements succeed starts every matching
      workflow; an upload is not retried twice at a time.
    - Time ([Monitors], [Schedules], [Retention]): monitors touch only what
      qualifies and move it when nothing fails; the barrier stops claims; a
      schedule fires exactly when due and no minute twice; a started run is not
      repeated; retention spares what is protected, keeps the newest and ends.
    - Decisions (the other files): the matching loops decide their reference
      relations, normalisation is canonical and idempotent, validated paths
      stay inside, effective roles only lower, stored texts round-trip.

    ** Fuel and bounds

    Loops that are not structural carry fuel and are proved to have enough of
    it: the glob loop ([glob_fuel], the product of the lengths), the cron range
    ([range_fuel]) and minute scan, and the passes of a retention run (twice
    the number of builds), and the worker's loop (five turns for each
    delivery), the scans for references of a text (one round more than its
    length) and the resolver (one level more than the vars are many: a chain of
    references never repeats a name), and the retries of a report (one for each
    first delay of the window, and two).  Machine integers are [Z] with their wrap-around
    written out where it is observable: [u32] in the cron parser, [i64] in the
    retention cutoff, in the time of a rollout step and in the count of a log's
    marker.

    ** Parameters

    chrono's calendar ([from_timestamp]), the hash and encoding of tokens, the
    casbin policy ([enforce]), the source host's answers (the commit of a
    branch, the files of a repository, changed paths), serde's decoding of
    stored step results, the signing binding of a workflow, the storage
    backend's deletions ([deletable]), the store client the router sends other
    stores to ([ReleaseStoreClient] with its laws), App Store Connect with
    the decryption of its key ([AppStoreOutside]), the identity provider
    (discovery and the exchange of a code for verified claims), encryption, and
    the parsers of addresses, networks, URLs and header names, and for
    deliveries HMAC, SHA-256, serde's JSON and the texts of errors
    ([WebhookOutside]), serde_yaml for pipeline files, the file system and
    serde's JSON for the runner's plan, the fate of each of the runner's requests
    ([delivery], [network]) and the steps of a build; the answers of
    stores may depend on everything asked before.  Locks that hold one
    call at a time per release, or per build and environment, are modelled by
    running such calls one after the other.  The runs of [AccountSafety] serve
    one handler after the other as well; a handler that waits for the identity
    provider is there by its parts, with others in between.

    ** Not modelled

    HTTP routing, cryptography, listings, the clients of GitHub, GitLab, Apple
    and Google and of the identity provider, notifications, artifact upload and
    download, the decoding of YAML, the import, export and migration of pipeline
    files, what the runner does with processes, virtual machines, caches,
    signing material and uploads, the CLI and the web apps. *)

From stdpp Require Export base tactics option list gmap strings sorting.
From Stdlib Require Export ZArith Lia.

Local Open Scope Z_scope.

(** ** Results

    [Result<T, E>] of the source; [?] is the monadic bind. *)

Inductive result (E A : Type) : Type :=
  | Ok (a : A)
  | Err (e : E).

Arguments Ok {E A} a.
Arguments Err {E A} e.

#[export] Instance result_ret {E} : MRet (result E) := fun A a => Ok a.
#[export] Instance result_bind {E} : MBind (result E) := fun A B f m =>
  match m with
  | Ok a => f a
  | Err e => Err e
  end.
#[export] Instance result_fmap {E} : FMap (result E) := fun A B f m =>
  match m with
  | Ok a => Ok (f a)
  | Err e => Err e
  end.

#[export] Instance result_eq_dec {E A} `{!EqDecision E, !EqDecision A} :
  EqDecision (result E A).
Proof. solve_decision. Defined.

(** [map_err] of the standard library. *)
Definition map_err {E F A} (f : E -> F) (m : result E A) : result F A :=
  match m with
  | Ok a => Ok a
  | Err e => Err (f e)
  end.

(** [Option::ok_or]. *)
Definition ok_or {E A} (e : E) (o : option A) : result E A :=
  match o with
  | Some a => Ok a
  | None => Err e
  end.

(** [Result::ok]. *)
Definition ok {E A} (m : result E A) : option A :=
  match m with
  | Ok a => Some a
  | Err _ => None
  end.

Definition is_ok {E A} (m : result E A) : bool :=
  match m with
  | Ok _ => true
  | Err _ => false
  end.

Lemma bind_Ok {E A B} (f : A -> result E B) (m : result E A) b :
  m ≫= f = Ok b <-> exists a, m = Ok a /\ f a = Ok b.
Proof. destruct m; cbn; naive_solver. Qed.

Lemma bind_Err {E A B} (f : A -> result E B) (m : result E A) e :
  m ≫= f = Err e <-> m = Err e \/ exists a, m = Ok a /\ f a = Err e.
Proof. destruct m; cbn; naive_solver. Qed.

Lemma ok_or_Ok {E A} (e : E) (o : option A) a : ok_or e o = Ok a <-> o = Some a.
Proof. destruct o; cbn; naive_solver. Qed.

(** [collect::<Result<Vec<_>, _>>()]: stop at the first error. *)
Fixpoint collect {E A} (l : list (result E A)) : result E (list A) :=
  match l with
  | [] => Ok []
  | m :: rest => x ← m; xs ← collect rest; Ok (x :: xs)
  end.

Lemma collect_Ok {E A} (l : list (result E A)) xs :
  collect l = Ok xs <-> l = map Ok xs.
Proof.
  revert xs; induction l as [|m l IH]; intros xs; cbn.
  - destruct xs; cbn; naive_solver.
  - rewrite bind_Ok. setoid_rewrite bind_Ok. split.
    + intros (x & -> & ys & Hys & [= <-]). cbn. f_equal. by apply IH.
    + destruct xs as [|x xs]; [done|]. cbn. intros [= -> Hl].
      exists x. split; [done|]. exists xs. split; [by apply IH|done].
Qed.

(** ** Lists *)

(** Filters that agree on the elements of a list agree on it. *)
Lemma list_filter_iff_in {A} (P Q : A -> Prop) `{!forall x, Decision (P x)}
    `{!forall x, Decision (Q x)} (l : list A) :
  (forall x, x ∈ l -> P x <-> Q x) -> filter P l = filter Q l.
Proof.
  induction l as [|x l IH]; intros Hl; [done|].
  assert (IH' : filter P l = filter Q l)
    by (apply IH; intros y Hy; apply Hl; apply elem_of_cons; by right).
  destruct (decide (P x)) as [HP|HP].
  - rewrite !filter_cons_True; [by f_equal|..]; [|done].
    apply Hl; [|done]. apply elem_of_cons; by left.
  - rewrite !filter_cons_False; [done|..]; [|done].
    intros HQ. apply HP. apply Hl; [|done]. apply elem_of_cons; by left.
Qed.

Lemma list_filter_all {A} (P : A -> Prop) `{!forall x, Decision (P x)} (l : list A) :
  Forall P l -> filter P l = l.
Proof. induction 1; [done|]. rewrite filter_cons_True by done. by f_equal. Qed.

Lemma sublist_map {A B} (f : A -> B) l1 l2 : l1 `sublist_of` l2 -> map f l1 `sublist_of` map f l2.
Proof. induction 1; cbn; by constructor. Qed.

Lemma list_filter_none {A} (P : A -> Prop) `{!forall x, Decision (P x)} (l : list A) :
  Forall (fun x => ~ P x) l -> filter P l = [].
Proof. induction 1; [done|]. by rewrite filter_cons_False. Qed.

(** ** Automation *)

Create HintDb oore discriminated.

(** Split every result-monad bind of the hypotheses. *)
Ltac inv_bind :=
  repeat match goal with
  | H : (_ ≫= _) = Ok _ |- _ => apply bind_Ok in H as (? & ? & H)
  | H : ok_or _ _ = Ok _ |- _ => apply ok_or_Ok in H
  | H : Ok _ = Ok _ |- _ => injection H as H
  | H : Err _ = Ok _ |- _ => discriminate H
  | H : Ok _ = Err _ |- _ => discriminate H
  | H : Err _ = Err _ |- _ => injection H as H
  end; simplify_eq.

(** Case on the conditions of every [if] and [match] of the goal. *)
Ltac case_all :=
  repeat first [ progress simplify_eq/= | case_decide | case_match ].

Lemma Forall2_impl_in {A B} (P Q : A -> B -> Prop) l k :
  Forall2 P l k -> (forall x y, x ∈ l -> P x y -> Q x y) -> Forall2 Q l k.
Proof.
  induction 1 as [|x y l k Hxy Hl IH]; intros HPQ; constructor.
  - apply HPQ; [by left|done].
  - apply IH. intros a b Ha. apply HPQ. by right.
Qed.
