(* ===== verification/Contract.v ===== *)
(** * Shared vocabulary of the daemon, the runner and the CLI

    The enumerations of [crates/oore-contract/src/lib.rs], one Module per
    Rust enum with its constructors, its [Display]/[as_str] text, its
    [FromStr] parser and its state-machine helpers.  [Wire] is the interface
    the database layer and the handlers use; [WireOk] its two laws: parsing
    inverts printing, and only printed texts parse. *)

From S2P Require Import Prelude.

Local Open Scope string_scope.

(** ** The text codec interface *)

Class Wire (A : Type) := {
  wire_to : A -> string;
  wire_of : string -> result string A;
}.

Class WireOk (A : Type) `{Wire A} := {
  wire_of_to : forall a : A, wire_of (wire_to a) = Ok a;
  wire_to_of : forall (s : string) (a : A), wire_of s = Ok a -> wire_to a = s;
}.

(** A value prints in one way only, and the text names it. *)
#[global] Instance wire_to_inj `{WireOk A} : Inj (=) (=) (wire_to (A := A)).
Proof.
  intros a b Hab. pose proof (wire_of_to a) as Ha.
  rewrite Hab, wire_of_to in Ha. congruence.
Qed.

Lemma wire_of_iff `{WireOk A} (s : string) (a : A) :
  wire_of s = Ok a <-> s = wire_to a.
Proof.
  split; [intros Ha; symmetry; by apply wire_to_of|intros ->; apply wire_of_to].
Qed.

Ltac wire_laws :=
  split; cbn;
  [ intros []; reflexivity
  | intros s a;
    match goal with |- ?f s = _ -> _ => unfold f end;
    repeat match goal with
    | |- context [String.eqb s ?x] =>
        destruct (String.eqb_spec s x); [intros ?; simplify_eq; reflexivity|]
    end;
    discriminate ].

Module SetupState.

(** [enum SetupState]. *)
Inductive t : Set :=
  | Uninitialized
  | BootstrapPending
  | IdpConfigured
  | OwnerCreated
  | Ready.

#[global] Instance eq_dec : EqDecision t.
Proof. solve_decision. Defined.

(** [SetupState], written out. *)
Definition fmt (s : t) : string :=
  match s with
  | Uninitialized => "uninitialized"
  | BootstrapPending => "bootstrap_pending"
  | IdpConfigured => "idp_configured"
  | OwnerCreated => "owner_created"
  | Ready => "ready"
  end.

(** [FromStr for SetupState]. *)
Definition from_str (s : string) : result string t :=
  if String.eqb s "uninitialized" then Ok Uninitialized
  else if String.eqb s "bootstrap_pending" then Ok BootstrapPending
  else if String.eqb s "idp_configured" then Ok IdpConfigured
  else if String.eqb s "owner_created" then Ok OwnerCreated
  else if String.eqb s "ready" then Ok Ready
  else Err ("unknown setup state: " +:+ s).

(** [SetupState::next]: one step of the first-run wizard. *)
Definition next (s : t) : option t :=
  match s with
  | BootstrapPending => Some IdpConfigured
  | IdpConfigured => Some OwnerCreated
  | OwnerCreated => Some Ready
  | _ => None
  end.

#[global] Instance wire : Wire t := {| wire_to := fmt; wire_of := from_str |}.

#[global] Instance wire_ok : WireOk t.
Proof. wire_laws. Qed.

End SetupState.

Module UserRole.

(** [enum UserRole]. *)
Inductive t : Set :=
  | Owner
  | Admin
  | Developer
  | QaViewer.

#[global] Instance eq_dec : EqDecision t.
Proof. solve_decision. Defined.

(** [UserRole], written out. *)
Definition fmt (s : t) : string :=
  match s with
  | Owner => "owner"
  | Admin => "admin"
  | Developer => "developer"
  | QaViewer => "qa_viewer"
  end.

(** [FromStr for UserRole]. *)
Definition from_str (s : string) : result string t :=
  if String.eqb s "owner" then Ok Owner
  else if String.eqb s "admin" then Ok Admin
  else if String.eqb s "developer" then Ok Developer
  else if String.eqb s "qa_viewer" then Ok QaViewer
  else Err ("unknown user role: " +:+ s).

#[global] Instance wire : Wire t := {| wire_to := fmt; wire_of := from_str |}.

#[global] Instance wire_ok : WireOk t.
Proof. wire_laws. Qed.

End UserRole.

Module ScmProvider.

(** [enum ScmProvider]. *)
Inductive t : Set :=
  | Github
  | Gitlab
  | LocalGit.

#[global] Instance eq_dec : EqDecision t.
Proof. solve_decision. Defined.

(** [ScmProvider], written out. *)
Definition fmt (s : t) : string :=
  match s with
  | Github => "github"
  | Gitlab => "gitlab"
  | LocalGit => "local_git"
  end.

(** [FromStr for ScmProvider]. *)
Definition from_str (s : string) : result string t :=
  if String.eqb s "github" then Ok Github
  else if String.eqb s "gitlab" then Ok Gitlab
  else if String.eqb s "local_git" then Ok LocalGit
  else Err ("unknown SCM provider: " +:+ s).

#[global] Instance wire : Wire t := {| wire_to := fmt; wire_of := from_str |}.

#[global] Instance wire_ok : WireOk t.
Proof. wire_laws. Qed.

End ScmProvider.

Module IntegrationAuthMode.

(** [enum IntegrationAuthMode]. *)
Inductive t : Set :=
  | GithubApp
  | OauthApp
  | PersonalToken
  | LocalPath.

#[global] Instance eq_dec : EqDecision t.
Proof. solve_decision. Defined.

(** [IntegrationAuthMode], written out. *)
Definition fmt (s : t) : string :=
  match s with
  | GithubApp => "github_app"
  | OauthApp => "oauth_app"
  | PersonalToken => "personal_token"
  | LocalPath => "local_path"
  end.

(** [FromStr for IntegrationAuthMode]. *)
Definition from_str (s : string) : result string t :=
  if String.eqb s "github_app" then Ok GithubApp
  else if String.eqb s "oauth_app" then Ok OauthApp
  else if String.eqb s "personal_token" then Ok PersonalToken
  else if String.eqb s "local_path" then Ok LocalPath
  else Err ("unknown integration auth mode: " +:+ s).

#[global] Instance wire : Wire t := {| wire_to := fmt; wire_of := from_str |}.

#[global] Instance wire_ok : WireOk t.
Proof. wire_laws. Qed.

End IntegrationAuthMode.

Module IntegrationStatus.

(** [enum IntegrationStatus]. *)
Inductive t : Set :=
  | Active
  | Inactive
  | Error.

#[global] Instance eq_dec : EqDecision t.
Proof. solve_decision. Defined.

(** [IntegrationStatus], written out. *)
Definition fmt (s : t) : string :=
  match s with
  | Active => "active"
  | Inactive => "inactive"
  | Error => "error"
  end.

(** [FromStr for IntegrationStatus]. *)
Definition from_str (s : string) : result string t :=
  if String.eqb s "active" then Ok Active
  else if String.eqb s "inactive" then Ok Inactive
  else if String.eqb s "error" then Ok Error
  else Err ("unknown integration status: " +:+ s).

#[global] Instance wire : Wire t := {| wire_to := fmt; wire_of := from_str |}.

#[global] Instance wire_ok : WireOk t.
Proof. wire_laws. Qed.

End IntegrationStatus.

Module BuildStatus.

(** [enum BuildStatus]. *)
Inductive t : Set :=
  | Queued
  | Scheduled
  | Assigned
  | Running
  | Succeeded
  | Failed
  | Canceled
  | TimedOut
  | Expired.

#[global] Instance eq_dec : EqDecision t.
Proof. solve_decision. Defined.

(** [BuildStatus], written out. *)
Definition fmt (s : t) : string :=
  match s with
  | Queued => "queued"
  | Scheduled => "scheduled"
  | Assigned => "assigned"
  | Running => "running"
  | Succeeded => "succeeded"
  | Failed => "failed"
  | Canceled => "canceled"
  | TimedOut => "timed_out"
  | Expired => "expired"
  end.

(** [FromStr for BuildStatus]. *)
Definition from_str (s : string) : result string t :=
  if String.eqb s "queued" then Ok Queued
  else if String.eqb s "scheduled" then Ok Scheduled
  else if String.eqb s "assigned" then Ok Assigned
  else if String.eqb s "running" then Ok Running
  else if String.eqb s "succeeded" then Ok Succeeded
  else if String.eqb s "failed" then Ok Failed
  else if String.eqb s "canceled" then Ok Canceled
  else if String.eqb s "timed_out" then Ok TimedOut
  else if String.eqb s "expired" then Ok Expired
  else Err ("unknown build status: " +:+ s).

(** [BuildStatus::is_terminal]. *)
Definition is_terminal (s : t) : bool :=
  match s with
  | Succeeded | Failed | Canceled | TimedOut | Expired => true
  | _ => false
  end.

(** [BuildStatus::valid_transitions]. *)
Definition valid_transitions (s : t) : list t :=
  match s with
  | Queued => [Scheduled; Canceled; Expired]
  | Scheduled => [Assigned; Queued; Canceled; Expired]
  | Assigned => [Running; Queued; Canceled; TimedOut]
  | Running => [Succeeded; Failed; Canceled; TimedOut]
  | Succeeded | Failed | Canceled | TimedOut => [Expired]
  | Expired => []
  end.

(** [BuildStatus::can_transition_to]. *)
Definition can_transition_to (s target : t) : bool :=
  bool_decide (target ∈ valid_transitions s).

#[global] Instance wire : Wire t := {| wire_to := fmt; wire_of := from_str |}.

#[global] Instance wire_ok : WireOk t.
Proof. wire_laws. Qed.

End BuildStatus.

Module TriggerType.

(** [enum TriggerType]. *)
Inductive t : Set :=
  | Manual
  | Api
  | Webhook
  | Schedule.

#[global] Instance eq_dec : EqDecision t.
Proof. solve_decision. Defined.

(** [TriggerType], written out. *)
Definition fmt (s : t) : string :=
  match s with
  | Manual => "manual"
  | Api => "api"
  | Webhook => "webhook"
  | Schedule => "schedule"
  end.

(** [FromStr for TriggerType]. *)
Definition from_str (s : string) : result string t :=
  if String.eqb s "manual" then Ok Manual
  else if String.eqb s "api" then Ok Api
  else if String.eqb s "webhook" then Ok Webhook
  else if String.eqb s "schedule" then Ok Schedule
  else Err ("unknown trigger type: " +:+ s).

#[global] Instance wire : Wire t := {| wire_to := fmt; wire_of := from_str |}.

#[global] Instance wire_ok : WireOk t.
Proof. wire_laws. Qed.

End TriggerType.

Module BuildApprovalState.

(** [enum BuildApprovalState]. *)
Inductive t : Set :=
  | Pending
  | Approved
  | Rejected.

#[global] Instance eq_dec : EqDecision t.
Proof. solve_decision. Defined.

(** [BuildApprovalState], written out. *)
Definition fmt (s : t) : string :=
  match s with
  | Pending => "pending"
  | Approved => "approved"
  | Rejected => "rejected"
  end.

(** [FromStr for BuildApprovalState]. *)
Definition from_str (s : string) : result string t :=
  if String.eqb s "pending" then Ok Pending
  else if String.eqb s "approved" then Ok Approved
  else if String.eqb s "rejected" then Ok Rejected
  else Err ("unknown build approval state: " +:+ s).

#[global] Instance wire : Wire t := {| wire_to := fmt; wire_of := from_str |}.

#[global] Instance wire_ok : WireOk t.
Proof. wire_laws. Qed.

End BuildApprovalState.

Module RunnerStatus.

(** [enum RunnerStatus]. *)
Inductive t : Set :=
  | Online
  | Offline
  | Busy
  | Draining.

#[global] Instance eq_dec : EqDecision t.
Proof. solve_decision. Defined.

(** [RunnerStatus], written out. *)
Definition fmt (s : t) : string :=
  match s with
  | Online => "online"
  | Offline => "offline"
  | Busy => "busy"
  | Draining => "draining"
  end.

(** [FromStr for RunnerStatus]. *)
Definition from_str (s : string) : result string t :=
  if String.eqb s "online" then Ok Online
  else if String.eqb s "offline" then Ok Offline
  else if String.eqb s "busy" then Ok Busy
  else if String.eqb s "draining" then Ok Draining
  else Err ("unknown runner status: " +:+ s).

#[global] Instance wire : Wire t := {| wire_to := fmt; wire_of := from_str |}.

#[global] Instance wire_ok : WireOk t.
Proof. wire_laws. Qed.

End RunnerStatus.

Module ArtifactStorageProvider.

(** [enum ArtifactStorageProvider]. *)
Inductive t : Set :=
  | Disabled
  | Local
  | S3
  | R2.

#[global] Instance eq_dec : EqDecision t.
Proof. solve_decision. Defined.

(** [ArtifactStorageProvider], written out. *)
Definition fmt (s : t) : string :=
  match s with
  | Disabled => "disabled"
  | Local => "local"
  | S3 => "s3"
  | R2 => "r2"
  end.

(** [FromStr for ArtifactStorageProvider]. *)
Definition from_str (s : string) : result string t :=
  if String.eqb s "disabled" then Ok Disabled
  else if String.eqb s "local" then Ok Local
  else if String.eqb s "s3" then Ok S3
  else if String.eqb s "r2" then Ok R2
  else Err ("unknown artifact storage provider: " +:+ s).

#[global] Instance wire : Wire t := {| wire_to := fmt; wire_of := from_str |}.

#[global] Instance wire_ok : WireOk t.
Proof. wire_laws. Qed.

End ArtifactStorageProvider.

Module KeyStorageMode.

(** [enum KeyStorageMode]. *)
Inductive t : Set :=
  | Keychain
  | File.

#[global] Instance eq_dec : EqDecision t.
Proof. solve_decision. Defined.

(** [KeyStorageMode], written out. *)
Definition fmt (s : t) : string :=
  match s with
  | Keychain => "keychain"
  | File => "file"
  end.

(** [FromStr for KeyStorageMode]. *)
Definition from_str (s : string) : result string t :=
  if String.eqb s "keychain" then Ok Keychain
  else if String.eqb s "file" then Ok File
  else Err ("unknown key storage mode: " +:+ s).

#[global] Instance wire : Wire t := {| wire_to := fmt; wire_of := from_str |}.

#[global] Instance wire_ok : WireOk t.
Proof. wire_laws. Qed.

End KeyStorageMode.

Module RuntimeMode.

(** [enum RuntimeMode]. *)
Inductive t : Set :=
  | Local
  | Remote.

#[global] Instance eq_dec : EqDecision t.
Proof. solve_decision. Defined.

(** [RuntimeMode], written out. *)
Definition fmt (s : t) : string :=
  match s with
  | Local => "local"
  | Remote => "remote"
  end.

(** [FromStr for RuntimeMode]. *)
Definition from_str (s : string) : result string t :=
  if String.eqb s "local" then Ok Local
  else if String.eqb s "remote" then Ok Remote
  else Err ("unknown runtime mode: " +:+ s).

#[global] Instance wire : Wire t := {| wire_to := fmt; wire_of := from_str |}.

#[global] Instance wire_ok : WireOk t.
Proof. wire_laws. Qed.

End RuntimeMode.

Module RemoteAuthMode.

(** [enum RemoteAuthMode]. *)
Inductive t : Set :=
  | Oidc
  | TrustedProxy.

#[global] Instance eq_dec : EqDecision t.
Proof. solve_decision. Defined.

(** [RemoteAuthMode], written out. *)
Definition fmt (s : t) : string :=
  match s with
  | Oidc => "oidc"
  | TrustedProxy => "trusted_proxy"
  end.

(** [FromStr for RemoteAuthMode]. *)
Definition from_str (s : string) : result string t :=
  if String.eqb s "oidc" then Ok Oidc
  else if String.eqb s "trusted_proxy" then Ok TrustedProxy
  else Err ("unknown remote auth mode: " +:+ s).

#[global] Instance wire : Wire t := {| wire_to := fmt; wire_of := from_str |}.

#[global] Instance wire_ok : WireOk t.
Proof. wire_laws. Qed.

End RemoteAuthMode.

Module ProjectRole.

(** [enum ProjectRole]. *)
Inductive t : Set :=
  | Maintainer
  | Developer
  | Viewer.

#[global] Instance eq_dec : EqDecision t.
Proof. solve_decision. Defined.

(** [ProjectRole], written out. *)
Definition fmt (s : t) : string :=
  match s with
  | Maintainer => "maintainer"
  | Developer => "developer"
  | Viewer => "viewer"
  end.

(** [FromStr for ProjectRole]. *)
Definition from_str (s : string) : result string t :=
  if String.eqb s "maintainer" then Ok Maintainer
  else if String.eqb s "developer" then Ok Developer
  else if String.eqb s "viewer" then Ok Viewer
  else Err ("unknown project role: " +:+ s).

#[global] Instance wire : Wire t := {| wire_to := fmt; wire_of := from_str |}.

#[global] Instance wire_ok : WireOk t.
Proof. wire_laws. Qed.

End ProjectRole.

Module RetentionCleanupTarget.

(** [enum RetentionCleanupTarget]. *)
Inductive t : Set :=
  | ArtifactsOnly
  | Full.

#[global] Instance eq_dec : EqDecision t.
Proof. solve_decision. Defined.

(** [RetentionCleanupTarget], written out. *)
Definition fmt (s : t) : string :=
  match s with
  | ArtifactsOnly => "artifacts_only"
  | Full => "full"
  end.

(** [FromStr for RetentionCleanupTarget]. *)
Definition from_str (s : string) : result string t :=
  if String.eqb s "artifacts_only" then Ok ArtifactsOnly
  else if String.eqb s "full" then Ok Full
  else Err ("unknown retention cleanup target: " +:+ s).

#[global] Instance wire : Wire t := {| wire_to := fmt; wire_of := from_str |}.

#[global] Instance wire_ok : WireOk t.
Proof. wire_laws. Qed.

End RetentionCleanupTarget.

Module NotificationChannelType.

(** [enum NotificationChannelType]. *)
Inductive t : Set :=
  | Webhook
  | Mattermost
  | Email
  | Slack.

#[global] Instance eq_dec : EqDecision t.
Proof. solve_decision. Defined.

(** [NotificationChannelType], written out. *)
Definition fmt (s : t) : string :=
  match s with
  | Webhook => "webhook"
  | Mattermost => "mattermost"
  | Email => "email"
  | Slack => "slack"
  end.

(** [FromStr for NotificationChannelType]. *)
Definition from_str (s : string) : result string t :=
  if String.eqb s "webhook" then Ok Webhook
  else if String.eqb s "mattermost" then Ok Mattermost
  else if String.eqb s "email" then Ok Email
  else if String.eqb s "slack" then Ok Slack
  else Err ("unknown notification channel type: " +:+ s).

#[global] Instance wire : Wire t := {| wire_to := fmt; wire_of := from_str |}.

#[global] Instance wire_ok : WireOk t.
Proof. wire_laws. Qed.

End NotificationChannelType.

Module ReleaseStore.

(** [enum ReleaseStore]. *)
Inductive t : Set :=
  | GooglePlay
  | AppStore.

#[global] Instance eq_dec : EqDecision t.
Proof. solve_decision. Defined.

(** [ReleaseStore], written out. *)
Definition as_str (s : t) : string :=
  match s with
  | GooglePlay => "google_play"
  | AppStore => "app_store"
  end.

(** [FromStr for ReleaseStore]. *)
Definition from_str (s : string) : result string t :=
  if String.eqb s "google_play" then Ok GooglePlay
  else if String.eqb s "app_store" then Ok AppStore
  else Err ("unknown release store: " +:+ s).

(** [ReleaseStore::platform]. *)
Definition platform (s : t) : string :=
  match s with
  | GooglePlay => "android"
  | AppStore => "ios"
  end.

#[global] Instance wire : Wire t := {| wire_to := as_str; wire_of := from_str |}.

#[global] Instance wire_ok : WireOk t.
Proof. wire_laws. Qed.

End ReleaseStore.

Module ReleaseState.

(** [enum ReleaseState]. *)
Inductive t : Set :=
  | Uploading
  | Processing
  | InReview
  | Rolling
  | Paused
  | Halted
  | Complete
  | Failed.

#[global] Instance eq_dec : EqDecision t.
Proof. solve_decision. Defined.

(** [ReleaseState], written out. *)
Definition as_str (s : t) : string :=
  match s with
  | Uploading => "uploading"
  | Processing => "processing"
  | InReview => "in_review"
  | Rolling => "rolling"
  | Paused => "paused"
  | Halted => "halted"
  | Complete => "complete"
  | Failed => "failed"
  end.

(** [FromStr for ReleaseState]. *)
Definition from_str (s : string) : result string t :=
  if String.eqb s "uploading" then Ok Uploading
  else if String.eqb s "processing" then Ok Processing
  else if String.eqb s "in_review" then Ok InReview
  else if String.eqb s "rolling" then Ok Rolling
  else if String.eqb s "paused" then Ok Paused
  else if String.eqb s "halted" then Ok Halted
  else if String.eqb s "complete" then Ok Complete
  else if String.eqb s "failed" then Ok Failed
  else Err ("unknown release state: " +:+ s).

(** [ReleaseState::is_terminal]. *)
Definition is_terminal (s : t) : bool :=
  match s with
  | Complete | Failed => true
  | _ => false
  end.

(** [ReleaseState::valid_transitions]. *)
Definition valid_transitions (s : t) : list t :=
  match s with
  | Uploading => [Processing; InReview; Rolling; Failed]
  | Processing => [InReview; Rolling; Failed]
  | InReview => [Rolling; Failed]
  | Rolling => [Rolling; Paused; Halted; Complete; Failed]
  | Paused => [Rolling; Halted; Complete; Failed]
  | Halted => [Rolling; Failed]
  | Complete | Failed => []
  end.

(** [ReleaseState::can_transition_to]. *)
Definition can_transition_to (s target : t) : bool :=
  bool_decide (target ∈ valid_transitions s).

#[global] Instance wire : Wire t := {| wire_to := as_str; wire_of := from_str |}.

#[global] Instance wire_ok : WireOk t.
Proof. wire_laws. Qed.

End ReleaseState.

Module ReleaseAction.

(** [enum ReleaseAction]. *)
Inductive t : Set :=
  | Raise
  | Pause
  | Resume
  | Halt
  | Complete
  | Approve.

#[global] Instance eq_dec : EqDecision t.
Proof. solve_decision. Defined.

(** [ReleaseAction], written out. *)
Definition as_str (s : t) : string :=
  match s with
  | Raise => "raise"
  | Pause => "pause"
  | Resume => "resume"
  | Halt => "halt"
  | Complete => "complete"
  | Approve => "approve"
  end.

(** [FromStr for ReleaseAction]. *)
Definition from_str (s : string) : result string t :=
  if String.eqb s "raise" then Ok Raise
  else if String.eqb s "pause" then Ok Pause
  else if String.eqb s "resume" then Ok Resume
  else if String.eqb s "halt" then Ok Halt
  else if String.eqb s "complete" then Ok Complete
  else if String.eqb s "approve" then Ok Approve
  else Err ("unknown release action: " +:+ s).

#[global] Instance wire : Wire t := {| wire_to := as_str; wire_of := from_str |}.

#[global] Instance wire_ok : WireOk t.
Proof. wire_laws. Qed.

End ReleaseAction.

Module ApproverRole.

(** [enum ApproverRole]. *)
Inductive t : Set :=
  | Maintainer
  | Developer.

#[global] Instance eq_dec : EqDecision t.
Proof. solve_decision. Defined.

(** [ApproverRole], written out. *)
Definition as_str (s : t) : string :=
  match s with
  | Maintainer => "maintainer"
  | Developer => "developer"
  end.

(** [FromStr for ApproverRole]. *)
Definition from_str (s : string) : result string t :=
  if String.eqb s "maintainer" then Ok Maintainer
  else if String.eqb s "developer" then Ok Developer
  else Err ("unknown approver role: " +:+ s).

#[global] Instance wire : Wire t := {| wire_to := as_str; wire_of := from_str |}.

#[global] Instance wire_ok : WireOk t.
Proof. wire_laws. Qed.

End ApproverRole.

Module PromotionState.

(** [enum PromotionState]. *)
Inductive t : Set :=
  | Pending
  | Promoting
  | Completed
  | Rejected
  | Failed.

#[global] Instance eq_dec : EqDecision t.
Proof. solve_decision. Defined.

(** [PromotionState], written out. *)
Definition as_str (s : t) : string :=
  match s with
  | Pending => "pending"
  | Promoting => "promoting"
  | Completed => "completed"
  | Rejected => "rejected"
  | Failed => "failed"
  end.

(** [FromStr for PromotionState]. *)
Definition from_str (s : string) : result string t :=
  if String.eqb s "pending" then Ok Pending
  else if String.eqb s "promoting" then Ok Promoting
  else if String.eqb s "completed" then Ok Completed
  else if String.eqb s "rejected" then Ok Rejected
  else if String.eqb s "failed" then Ok Failed
  else Err ("unknown promotion state: " +:+ s).

#[global] Instance wire : Wire t := {| wire_to := as_str; wire_of := from_str |}.

#[global] Instance wire_ok : WireOk t.
Proof. wire_laws. Qed.

End PromotionState.

Module UserStatus.

(** [enum UserStatus]. *)
Inductive t : Set :=
  | Active
  | Disabled
  | Invited.

#[global] Instance eq_dec : EqDecision t.
Proof. solve_decision. Defined.

(** [UserStatus], written out. *)
Definition fmt (s : t) : string :=
  match s with
  | Active => "active"
  | Disabled => "disabled"
  | Invited => "invited"
  end.

End UserStatus.

Module RunnerPolicyBlockReason.

(** [enum RunnerPolicyBlockReason]. *)
Inductive t : Set :=
  | InstancePaused
  | RepositoryUnavailable.

(** [FromStr for RunnerPolicyBlockReason]. *)
Definition from_str (s : string) : result string t :=
  if String.eqb s "instance_paused" then Ok InstancePaused
  else if String.eqb s "repository_unavailable" then Ok RepositoryUnavailable
  else Err ("unknown runner policy block reason: " +:+ s).

End RunnerPolicyBlockReason.

(** ** What the vocabulary promises *)

(** Parsing accepts exactly the printed texts, each as the value printed. *)
Definition round_trips (A : Type) `{Wire A} : Prop :=
  forall (s : string) (a : A), wire_of s = Ok a <-> s = wire_to a.

(** stored texts.  For every enumeration the daemon stores or sends as
    text, parsing inverts printing and accepts nothing else, so what is read
    back is the value that was written. *)
Theorem wire_texts_round_trip :
  round_trips SetupState.t /\ round_trips UserRole.t /\ round_trips ScmProvider.t /\
  round_trips IntegrationAuthMode.t /\ round_trips IntegrationStatus.t /\
  round_trips BuildStatus.t /\ round_trips TriggerType.t /\ round_trips BuildApprovalState.t /\
  round_trips RunnerStatus.t /\ round_trips ArtifactStorageProvider.t /\
  round_trips KeyStorageMode.t /\ round_trips RuntimeMode.t /\ round_trips RemoteAuthMode.t /\
  round_trips ProjectRole.t /\ round_trips RetentionCleanupTarget.t /\
  round_trips NotificationChannelType.t /\ round_trips ReleaseStore.t /\
  round_trips ReleaseState.t /\ round_trips ReleaseAction.t /\ round_trips ApproverRole.t /\
  round_trips PromotionState.t.
Proof. split_and!; intros s a; apply wire_of_iff. Qed.

(** Paths in the two transition tables. *)
Definition build_moves : relation BuildStatus.t :=
  rtc (fun s t => BuildStatus.can_transition_to s t = true).
Definition release_moves : relation ReleaseState.t :=
  rtc (fun s t => ReleaseState.can_transition_to s t = true).

Lemma build_hop s u t :
  BuildStatus.can_transition_to s u = true -> build_moves u t -> build_moves s t.
Proof. intros H1 H2. by eapply rtc_l. Qed.

Lemma release_hop s u t :
  ReleaseState.can_transition_to s u = true -> release_moves u t -> release_moves s t.
Proof. intros H1 H2. by eapply rtc_l. Qed.

Lemma build_queued_to_running : build_moves BuildStatus.Queued BuildStatus.Running.
Proof.
  apply (build_hop _ BuildStatus.Scheduled), (build_hop _ BuildStatus.Assigned), rtc_once; done.
Qed.

Lemma build_terminal_closed s t :
  build_moves s t -> BuildStatus.is_terminal s = true -> t = s \/ t = BuildStatus.Expired.
Proof.
  induction 1 as [|s u t H _ IH]; [by left|]. intros Hs.
  assert (u = BuildStatus.Expired) as -> by (by destruct s, u). destruct IH; auto.
Qed.

(** The transition tables.  A finished build only ever expires and a
    finished release never moves; every build status can be reached from the
    queue and every release state from the upload; and neither table has a
    dead end: an unfinished build can still succeed, an unfinished release
    can still complete. *)
Theorem transition_tables :
  (forall s t, build_moves s t -> BuildStatus.is_terminal s = true ->
     t = s \/ t = BuildStatus.Expired) /\
  (forall t, build_moves BuildStatus.Queued t) /\
  (forall s, BuildStatus.is_terminal s = false -> build_moves s BuildStatus.Succeeded) /\
  (forall s t, release_moves s t -> ReleaseState.is_terminal s = true -> t = s) /\
  (forall t, release_moves ReleaseState.Uploading t) /\
  (forall s, ReleaseState.is_terminal s = false -> release_moves s ReleaseState.Complete).
Proof.
  pose proof build_queued_to_running as Hrun.
  split_and!.
  - exact build_terminal_closed.
  - intros []; first [exact Hrun|reflexivity|by apply rtc_once
      |by apply (build_hop _ BuildStatus.Scheduled), rtc_once
      |by eapply rtc_r; [exact Hrun|]].
  - intros s Hs. transitivity BuildStatus.Running; [|by apply rtc_once].
    destruct s; first [done|exact Hrun|by apply rtc_once
      |by apply (build_hop _ BuildStatus.Queued)].
  - intros s t [->|(u & H & _)]%rtc_inv Hs; [done|]. by destruct s, u.
  - intros []; first [reflexivity|by apply rtc_once
      |by apply (release_hop _ ReleaseState.Rolling), rtc_once].
  - intros s Hs. transitivity ReleaseState.Rolling; [|by apply rtc_once].
    destruct s; first [done|reflexivity|by apply rtc_once].
Qed.
