(* ===== verification/RustStr.v ===== *)
(** * The string operations of the Rust standard library the code uses

    A [&str] is the [string] of its UTF-8 bytes.  Indices and lengths are byte
    counts, as in Rust.  [char::is_whitespace] is Unicode White_Space, given by
    the UTF-8 encodings of its code points; the [is_ascii_*] predicates are
    byte tests, since no byte of a multi-byte character is ASCII. *)

From S2P Require Import Prelude.
From Stdlib Require Import Ascii.

Local Open Scope Z_scope.

#[global] Arguments Ascii.eqb _ _ : simpl never.
#[global] Arguments String.eqb _ _ : simpl never.

(** ** Bytes *)

Abbreviation bytes := String.list_ascii_of_string.
Abbreviation text := String.string_of_list_ascii.

Definition byte_of (n : N) : ascii := ascii_of_N n.
Definition byte_val (c : ascii) : Z := Z.of_N (N_of_ascii c).

Definition str_len (s : string) : Z := Z.of_nat (String.length s).

Lemma text_bytes s : text (bytes s) = s.
Proof. apply String.string_of_list_ascii_of_string. Qed.

Lemma bytes_text l : bytes (text l) = l.
Proof. apply String.list_ascii_of_string_of_list_ascii. Qed.

Lemma length_bytes s : length (bytes s) = String.length s.
Proof. induction s; cbn; congruence. Qed.

Lemma bytes_inj s t : bytes s = bytes t -> s = t.
Proof. intros H. rewrite <- (text_bytes s), <- (text_bytes t). congruence. Qed.

Lemma append_cons c s t : String c s +:+ t = String c (s +:+ t).
Proof. reflexivity. Qed.

Lemma append_nil_l t : "" +:+ t = t.
Proof. reflexivity. Qed.

Lemma bytes_app s t : bytes (s +:+ t) = bytes s ++ bytes t.
Proof.
  induction s as [|a s IH]; [done|]. rewrite append_cons. cbn. congruence.
Qed.

Lemma text_app l k : text (l ++ k) = text l +:+ text k.
Proof. induction l as [|a l IH]; [done|]. cbn. by rewrite append_cons, IH. Qed.

Create Rewrite HintDb oore_str.
#[export] Hint Rewrite text_bytes bytes_text bytes_app text_app : oore_str.

(** ** Character classes *)

Definition byte_in (lo hi : Z) (c : ascii) : bool :=
  (lo <=? byte_val c) && (byte_val c <=? hi).

Definition is_ascii_lowercase (c : ascii) : bool := byte_in 97 122 c.
Definition is_ascii_uppercase (c : ascii) : bool := byte_in 65 90 c.
Definition is_ascii_digit (c : ascii) : bool := byte_in 48 57 c.
Definition is_ascii_alphabetic (c : ascii) : bool :=
  is_ascii_lowercase c || is_ascii_uppercase c.
Definition is_ascii_alphanumeric (c : ascii) : bool :=
  is_ascii_alphabetic c || is_ascii_digit c.
(** A byte that continues a UTF-8 sequence. *)
Definition is_continuation (c : ascii) : bool := byte_in 128 191 c.
Definition is_ascii_byte (c : ascii) : bool := byte_in 0 127 c.

(** [str.chars().all(p)] for an ASCII predicate [p]. *)
Definition all_bytes (p : ascii -> bool) (s : string) : bool := forallb p (bytes s).

(** [str.chars().count()]. *)
Definition char_count (s : string) : Z :=
  Z.of_nat (length (List.filter (fun c => negb (is_continuation c)) (bytes s))).

(** [char::to_ascii_lowercase] and [str::to_ascii_lowercase]. *)
Definition byte_to_lower (c : ascii) : ascii :=
  if is_ascii_uppercase c then ascii_of_N (N_of_ascii c + 32) else c.

Definition to_ascii_lowercase (s : string) : string :=
  text (map byte_to_lower (bytes s)).

(** ** Prefixes and searching *)

(** Remove the prefix [p], on bytes. *)
Fixpoint strip_prefix_l (p l : list ascii) : option (list ascii) :=
  match p, l with
  | [], _ => Some l
  | a :: p', b :: l' => if Ascii.eqb a b then strip_prefix_l p' l' else None
  | _ :: _, [] => None
  end.

(** [str::strip_prefix]. *)
Definition strip_prefix (p s : string) : option string :=
  text <$> strip_prefix_l (bytes p) (bytes s).

Definition starts_with (p s : string) : bool :=
  match strip_prefix p s with Some _ => true | None => false end.

(** [str::ends_with]. *)
Definition ends_with (p s : string) : bool :=
  bool_decide (is_Some (strip_prefix_l (rev (bytes p)) (rev (bytes s)))).

(** [str::strip_suffix] with a one-byte pattern. *)
Definition strip_suffix_char (c : ascii) (s : string) : option string :=
  match rev (bytes s) with
  | d :: r => if Ascii.eqb c d then Some (text (rev r)) else None
  | [] => None
  end.

(** [str::contains] of one byte. *)
Definition contains_char (c : ascii) (s : string) : bool :=
  existsb (Ascii.eqb c) (bytes s).

(** [str::find]: the byte offset of the first occurrence. *)
Fixpoint find_l (p l : list ascii) : option nat :=
  match strip_prefix_l p l with
  | Some _ => Some 0%nat
  | None => match l with [] => None | _ :: l' => S <$> find_l p l' end
  end.

Lemma strip_prefix_l_Some p l r : strip_prefix_l p l = Some r <-> l = p ++ r.
Proof.
  revert l; induction p as [|a p IH]; intros [|b l]; cbn; [naive_solver..|].
  destruct (Ascii.eqb_spec a b) as [->|Hne].
  - rewrite IH. naive_solver.
  - split; [discriminate|congruence].
Qed.

Lemma strip_prefix_l_None p l : strip_prefix_l p l = None <-> forall r, l <> p ++ r.
Proof.
  destruct (strip_prefix_l p l) as [r|] eqn:E.
  - apply strip_prefix_l_Some in E. split; [done|]. intros H. by destruct (H r).
  - split; [|done]. intros _ r Hr. apply strip_prefix_l_Some in Hr. congruence.
Qed.

Lemma strip_prefix_Some p s r : strip_prefix p s = Some r <-> s = p +:+ r.
Proof.
  unfold strip_prefix. rewrite fmap_Some. split.
  - intros (l & Hl%strip_prefix_l_Some & ->). apply bytes_inj. by rewrite bytes_app, bytes_text.
  - intros ->. exists (bytes r). by rewrite strip_prefix_l_Some, bytes_app, text_bytes.
Qed.

(** [find] returns the leftmost occurrence. *)
Lemma find_l_Some p l n :
  find_l p l = Some n <->
  (exists r, drop n l = p ++ r) /\ (n <= length l)%nat /\
  (forall m r, (m < n)%nat -> drop m l <> p ++ r).
Proof.
  revert n; induction l as [|a l IH]; intros n.
  - cbn. destruct (strip_prefix_l p []) as [r|] eqn:E.
    + apply strip_prefix_l_Some in E. split.
      * intros [= <-]. cbn. split_and!; [eauto|lia|intros; lia].
      * intros (_ & Hn & _). f_equal. lia.
    + split; [discriminate|]. intros ((r & Hr) & _ & _).
      rewrite drop_nil in Hr. symmetry in Hr.
      by apply strip_prefix_l_None with (r := r) in E.
  - cbn. destruct (strip_prefix_l p (a :: l)) as [r|] eqn:E.
    + apply strip_prefix_l_Some in E. split.
      * intros [= <-]. split_and!; [eauto|lia|intros; lia].
      * intros (_ & _ & Hmin). destruct n as [|n]; [done|].
        destruct (Hmin 0%nat r); [lia|done].
    + rewrite fmap_Some. split.
      * intros (m & Hm & ->). apply IH in Hm as (Hr & Hle & Hmin).
        split_and!; [done|cbn; lia|].
        intros [|k] r Hk; [by apply strip_prefix_l_None|]. apply Hmin. lia.
      * intros (Hr & Hle & Hmin). destruct n as [|n].
        { destruct Hr as [r Hr]. by apply strip_prefix_l_None with (r := r) in E. }
        exists n. split; [|done]. apply IH. split_and!; [done|cbn in Hle; lia|].
        intros m r Hm. apply (Hmin (S m)). lia.
Qed.

Lemma find_l_None p l :
  find_l p l = None <-> forall n r, (n <= length l)%nat -> drop n l <> p ++ r.
Proof.
  destruct (find_l p l) as [n|] eqn:E.
  - apply find_l_Some in E as ((r & Hr) & Hle & _). split; [done|].
    intros H. by destruct (H n r).
  - split; [|done]. intros _. revert E; induction l as [|a l IH]; cbn.
    + destruct (strip_prefix_l p []) eqn:E; [done|]. intros _ n r _.
      rewrite drop_nil. by apply strip_prefix_l_None.
    + destruct (strip_prefix_l p (a :: l)) eqn:E; [done|].
      intros Hn%fmap_None [|n] r Hle; [by apply strip_prefix_l_None|].
      apply IH; [done|lia].
Qed.

(** ** Whitespace *)

(** UTF-8 encodings of the Unicode White_Space code points: U+0009 to U+000D,
    U+0020, U+0085, U+00A0, U+1680, U+2000 to U+200A, U+2028, U+2029, U+202F,
    U+205F and U+3000. *)
Definition ws_encodings : list (list ascii) :=
  map (map byte_of)
    [ [9]; [10]; [11]; [12]; [13]; [32]; [194; 133]; [194; 160];
      [225; 154; 128];
      [226; 128; 128]; [226; 128; 129]; [226; 128; 130]; [226; 128; 131];
      [226; 128; 132]; [226; 128; 133]; [226; 128; 134]; [226; 128; 135];
      [226; 128; 136]; [226; 128; 137]; [226; 128; 138];
      [226; 128; 168]; [226; 128; 169]; [226; 128; 175];
      [226; 129; 159]; [227; 128; 128] ]%N.

(** Strip one of [encs] off the front. *)
Definition strip_one (encs : list (list ascii)) (l : list ascii) : option (list ascii) :=
  list_find (fun o => is_Some o) (map (fun e => strip_prefix_l e l) encs) ≫= snd.

Fixpoint trim_with (encs : list (list ascii)) (fuel : nat) (l : list ascii) : list ascii :=
  match fuel with
  | O => l
  | S fuel' =>
      match strip_one encs l with
      | Some r => trim_with encs fuel' r
      | None => l
      end
  end.

Definition trim_start_l (l : list ascii) : list ascii :=
  trim_with ws_encodings (length l) l.

Definition trim_end_l (l : list ascii) : list ascii :=
  rev (trim_with (map (@rev ascii) ws_encodings) (length l) (rev l)).

(** [str::trim]. *)
Definition trim (s : string) : string := text (trim_end_l (trim_start_l (bytes s))).

(** None of [encs] is at the front. *)
Definition no_lead (encs : list (list ascii)) (l : list ascii) : Prop :=
  forall e r, e ∈ encs -> l <> e ++ r.

Lemma strip_one_spec encs l :
  match strip_one encs l with
  | Some r => exists e, e ∈ encs /\ l = e ++ r
  | None => no_lead encs l
  end.
Proof.
  unfold strip_one. destruct (list_find _ _) as [[i o]|] eqn:E; cbn.
  - apply list_find_Some in E as (Hi & [r ->] & _). cbn.
    apply list_lookup_fmap_Some in Hi as (e & Hs & He). symmetry in Hs. apply strip_prefix_l_Some in Hs.
    exists e. split; [by eapply list_elem_of_lookup_2|done].
  - apply list_find_None in E. intros e r He ->. rewrite Forall_forall in E.
    destruct (E (strip_prefix_l e (e ++ r))).
    + apply list_elem_of_fmap. by exists e.
    + exists r. by apply strip_prefix_l_Some.
Qed.

Lemma trim_with_suffix encs fuel l : exists p, l = p ++ trim_with encs fuel l.
Proof.
  revert l. induction fuel as [|fuel IH]; intros l; cbn; [by exists []|].
  pose proof (strip_one_spec encs l) as H. destruct (strip_one encs l) as [r|]; [|by exists []].
  destruct H as (e & _ & ->), (IH r) as [p Hp]. exists (e ++ p). by rewrite <- app_assoc, <- Hp.
Qed.

Lemma trim_with_id encs fuel l : no_lead encs l -> trim_with encs fuel l = l.
Proof.
  intros H. destruct fuel; [done|]. cbn. pose proof (strip_one_spec encs l) as Hs.
  destruct (strip_one encs l); [|done]. destruct Hs as (e & He & ->). by destruct (H e l0 He).
Qed.

Lemma trim_with_no_lead encs fuel l :
  Forall (fun e => e <> []) encs -> (length l <= fuel)%nat -> no_lead encs (trim_with encs fuel l).
Proof.
  intros Hne. revert l. induction fuel as [|fuel IH]; intros l Hl; cbn.
  - destruct l; [|cbn in Hl; lia]. intros e r He Hc. rewrite Forall_forall in Hne.
    destruct (Hne e He). by destruct e.
  - pose proof (strip_one_spec encs l) as H. destruct (strip_one encs l) as [r|]; [|done].
    destruct H as (e & He & ->). apply IH. rewrite Forall_forall in Hne. specialize (Hne e He).
    rewrite length_app in Hl. destruct e; [done|]. cbn in Hl. lia.
Qed.

Lemma trim_trim s : trim (trim s) = trim s.
Proof.
  unfold trim. rewrite bytes_text. f_equal. set (a := trim_start_l (bytes s)).
  assert (Ha : no_lead ws_encodings a) by (by apply trim_with_no_lead; [repeat constructor|]).
  assert (Hb : no_lead (map (@rev ascii) ws_encodings) (rev (trim_end_l a))).
  { unfold trim_end_l. rewrite rev_involutive. apply trim_with_no_lead; [repeat constructor; done|].
    by rewrite length_rev. }
  assert (Hs : trim_start_l (trim_end_l a) = trim_end_l a).
  { apply trim_with_id. intros e r He Heq. destruct (trim_with_suffix (map (@rev ascii) ws_encodings) (length a) (rev a)) as [p Hp].
    apply (f_equal (@rev ascii)) in Hp. rewrite rev_involutive, rev_app_distr in Hp.
    fold (trim_end_l a) in Hp. apply (Ha e (r ++ rev p) He). by rewrite Hp, Heq, app_assoc. }
  rewrite Hs. unfold trim_end_l at 1. by rewrite trim_with_id, rev_involutive.
Qed.

Definition is_empty (s : string) : bool := match s with EmptyString => true | _ => false end.

(** ** Splitting *)

(** [slice.split(c)] on bytes. *)
Fixpoint split_l (p : ascii -> bool) (l : list ascii) : list (list ascii) :=
  match l with
  | [] => [[]]
  | a :: l' =>
      if p a then [] :: split_l p l'
      else match split_l p l' with
           | [] => [[a]]
           | w :: ws => (a :: w) :: ws
           end
  end.

(** [str::split] with a one-byte pattern. *)
Definition split_char (c : ascii) (s : string) : list string :=
  map text (split_l (Ascii.eqb c) (bytes s)).

(** [str::split_once] with a one-byte pattern. *)
Fixpoint split_once_l (c : ascii) (l : list ascii) : option (list ascii * list ascii) :=
  match l with
  | [] => None
  | a :: l' =>
      if Ascii.eqb c a then Some ([], l')
      else '(x, y) ← split_once_l c l'; Some (a :: x, y)
  end.

Definition split_once (c : ascii) (s : string) : option (string * string) :=
  '(x, y) ← split_once_l c (bytes s); Some (text x, text y).

(** [str::split_whitespace]: maximal runs between White_Space characters. *)
Fixpoint split_ws_l (fuel : nat) (cur l : list ascii) : list (list ascii) :=
  let flush := match cur with [] => [] | _ => [rev cur] end in
  match fuel with
  | O => flush
  | S fuel' =>
      match strip_one ws_encodings l with
      | Some r => flush ++ split_ws_l fuel' [] r
      | None =>
          match l with
          | [] => flush
          | a :: l' => split_ws_l fuel' (a :: cur) l'
          end
      end
  end.

Definition split_whitespace (s : string) : list string :=
  map text (split_ws_l (S (String.length s)) [] (bytes s)).

(** [\[_\].join(sep)]. *)
Fixpoint join (sep : string) (l : list string) : string :=
  match l with
  | [] => ""
  | [x] => x
  | x :: rest => x +:+ sep +:+ join sep rest
  end.

Lemma split_l_not_nil p l : split_l p l <> [].
Proof. destruct l as [|a l]; cbn; [done|]. destruct (p a); [done|]. by destruct (split_l p l). Qed.

(** A text of [w]s none of which holds [c], joined with [c], splits back. *)
Lemma split_char_join c (ws : list string) :
  ws <> [] -> Forall (fun w => contains_char c w = false) ws ->
  split_char c (join (String c "") ws) = ws.
Proof.
  intros Hne Hall. unfold split_char.
  assert (Hw : forall w k, contains_char c w = false ->
    split_l (Ascii.eqb c) (bytes w ++ k) =
      match split_l (Ascii.eqb c) k with
      | [] => [bytes w]
      | v :: vs => (bytes w ++ v) :: vs
      end).
  { intros w k. unfold contains_char. induction (bytes w) as [|a l IH]; cbn.
    - intros _. destruct (split_l _ k) eqn:E; [by apply split_l_not_nil in E|done].
    - intros [Ha Hl]%orb_false_iff. rewrite Ha, (IH Hl).
      by destruct (split_l (Ascii.eqb c) k). }
  induction ws as [|w ws IH]; [done|]. apply Forall_cons in Hall as [Hc Hall].
  destruct ws as [|w' ws].
  - cbn [join]. rewrite <- (app_nil_r (bytes w)), (Hw w [] Hc). cbn.
    by rewrite app_nil_r, text_bytes.
  - change (join (String c "") (w :: w' :: ws))
      with (w +:+ String c "" +:+ join (String c "") (w' :: ws)).
    rewrite bytes_app, Hw by done. rewrite append_cons, append_nil_l. cbn.
    rewrite Ascii.eqb_refl. cbn [map]. rewrite app_nil_r, text_bytes. f_equal.
    by apply IH.
Qed.

(** Splitting loses nothing: joining the pieces gives the text back. *)
Lemma join_cons sep x y l : join sep (x :: y :: l) = x +:+ sep +:+ join sep (y :: l).
Proof. reflexivity. Qed.

Lemma join_split_char c s : join (String c "") (split_char c s) = s.
Proof.
  unfold split_char. rewrite <- (text_bytes s) at 2.
  induction (bytes s) as [|a l IH]; [done|]. cbn [split_l].
  destruct (Ascii.eqb_spec c a) as [<-|Hne].
  - destruct (split_l (Ascii.eqb c) l) as [|w ws] eqn:E;
      [by apply split_l_not_nil in E|].
    cbn [map] in *. rewrite join_cons, IH. reflexivity.
  - destruct (split_l (Ascii.eqb c) l) as [|w [|w' ws]] eqn:E;
      [by apply split_l_not_nil in E|..]; cbn [map] in *.
    + cbn in *. by rewrite IH.
    + rewrite join_cons in *. cbn. rewrite !append_cons in *. cbn in *.
      by rewrite <- IH.
Qed.

(** The pieces do not hold the separator. *)
Lemma split_char_no_sep c s :
  Forall (fun w => contains_char c w = false) (split_char c s).
Proof.
  unfold split_char. induction (bytes s) as [|a l IH]; cbn.
  - repeat constructor.
  - destruct (Ascii.eqb_spec c a) as [<-|Hne]; cbn; [by constructor|].
    destruct (split_l (Ascii.eqb c) l) as [|w ws]; cbn [map] in *.
    + constructor; [|constructor]. cbn. apply Ascii.eqb_neq in Hne. by rewrite Hne.
    + apply Forall_cons in IH as [Hw IH]. constructor; [|done].
      unfold contains_char in *. rewrite bytes_text in Hw |- *.
      apply Ascii.eqb_neq in Hne. cbn [existsb]. by rewrite Hne, Hw.
Qed.

(** ** Integers *)

Definition u32_max : Z := 2 ^ 32 - 1.
Definition i64_min : Z := - 2 ^ 63.
Definition i64_max : Z := 2 ^ 63 - 1.

Fixpoint parse_digits (max acc : Z) (l : list ascii) : option Z :=
  match l with
  | [] => Some acc
  | c :: l' =>
      if is_ascii_digit c then
        let acc' := acc * 10 + (byte_val c - 48) in
        if acc' <=? max then parse_digits max acc' l' else None
      else None
  end.

(** [str::parse::<u32>]: an optional [+], at least one digit, no overflow. *)
Definition parse_u32 (s : string) : option Z :=
  let l := bytes s in
  let digits := match l with
                | c :: l' => if Ascii.eqb c "+" then l' else l
                | [] => l
                end in
  match digits with
  | [] => None
  | _ => parse_digits u32_max 0 digits
  end.

Lemma parse_digits_bounds max acc l n :
  0 <= acc <= max -> parse_digits max acc l = Some n -> 0 <= n <= max.
Proof.
  revert acc; induction l as [|c l IH]; intros acc Hacc; cbn; [naive_solver|].
  destruct (is_ascii_digit c) eqn:Hd; [|done].
  unfold is_ascii_digit, byte_in in Hd.
  destruct (_ <=? max) eqn:E; [|done]. apply IH. lia.
Qed.

Lemma parse_u32_bounds s n : parse_u32 s = Some n -> 0 <= n <= u32_max.
Proof.
  unfold parse_u32. set (ds := match bytes s with [] => _ | _ => _ end).
  destruct ds; [done|]. apply parse_digits_bounds. unfold u32_max. lia.
Qed.

(** [i64::saturating_add] and [i64::saturating_sub]. *)
Definition clamp_i64 (z : Z) : Z := Z.max i64_min (Z.min i64_max z).
Definition saturating_add (a b : Z) : Z := clamp_i64 (a + b).

(** [i64] addition of a release build: it wraps around. *)
Definition wrap_i64 (z : Z) : Z := (z + 2 ^ 63) mod 2 ^ 64 - 2 ^ 63.

Lemma wrap_i64_id z : i64_min <= z <= i64_max -> wrap_i64 z = z.
Proof. unfold wrap_i64, i64_min, i64_max. intros Hz. rewrite Z.mod_small; lia. Qed.

(** [s.chars().take(n).collect()]. *)
Fixpoint take_chars_l (n : nat) (l : list ascii) : list ascii :=
  match l with
  | [] => []
  | c :: rest =>
      if is_continuation c then c :: take_chars_l n rest
      else match n with O => [] | S n => c :: take_chars_l n rest end
  end.

Definition take_chars (n : nat) (s : string) : string := text (take_chars_l n (bytes s)).

Example trim_ex : trim ("	 a b  " +:+ text (map byte_of [194; 160]%N)) = "a b".
Proof. reflexivity. Qed.
Example split_ws_ex : split_whitespace "  0 */5  * * 1-5 " = ["0"; "*/5"; "*"; "*"; "1-5"].
Proof. reflexivity. Qed.
Example parse_u32_ex : map parse_u32 ["42"; "+7"; "+"; ""; "4294967295"; "4294967296"; "-1"]
  = [Some 42; Some 7; None; None; Some 4294967295; None; None].
Proof. reflexivity. Qed.

(** [str::replace]: the matches from the left, none inside another. *)
Fixpoint replace_l (fuel : nat) (p r l : list ascii) : list ascii :=
  match fuel with
  | O => l
  | S fuel =>
      match find_l p l with
      | Some n => take n l ++ r ++ replace_l fuel p r (drop (n + length p) l)
      | None => l
      end
  end.

(** For a pattern that is not empty, each match shortens the rest. *)
Definition str_replace (p r s : string) : string :=
  text (replace_l (S (String.length s)) (bytes p) (bytes r) (bytes s)).

(** [str::split] with a pattern of several bytes. *)
Fixpoint split_str_l (fuel : nat) (p l : list ascii) : list (list ascii) :=
  match fuel with
  | O => [l]
  | S fuel =>
      match find_l p l with
      | Some n => take n l :: split_str_l fuel p (drop (n + length p) l)
      | None => [l]
      end
  end.

(** For a pattern that is not empty, each match shortens the rest. *)
Definition split_str (p s : string) : list string :=
  map text (split_str_l (S (String.length s)) (bytes p) (bytes s)).

(** [str::parse::<i64>]: an optional sign, at least one digit, no overflow. *)
Definition parse_i64 (s : string) : option Z :=
  match bytes s with
  | [] => None
  | [c] => parse_digits i64_max 0 [c]
  | c :: digits =>
      if Ascii.eqb c "-" then Z.opp <$> parse_digits (2 ^ 63) 0 digits
      else if Ascii.eqb c "+" then parse_digits i64_max 0 digits
      else parse_digits i64_max 0 (c :: digits)
  end.

Example split_str_ex : map (split_str ", ") ["a, b"; "a,b"; ""; "a, , b"] = [["a"; "b"]; ["a,b"]; [""]; ["a"; ""; "b"]].
Proof. reflexivity. Qed.
Example parse_i64_ex : map parse_i64 ["42"; "+7"; "-"; ""; "-9223372036854775808"; "9223372036854775808"; "1.2"]
  = [Some 42; Some 7; None; None; Some (- 2 ^ 63); None; None].
Proof. reflexivity. Qed.

(** ** Constant-time comparison *)

(** The fold of the daemon's comparisons: [acc | (x ^ y)] over the bytes. *)
Definition differing_bits (a b : list ascii) : Z :=
  fold_left (fun acc xy => Z.lor acc (Z.lxor (byte_val xy.1) (byte_val xy.2))) (zip a b) 0.

Lemma byte_val_inj a b : byte_val a = byte_val b -> a = b.
Proof.
  unfold byte_val. intros H%N2Z.inj. by rewrite <- (Ascii.ascii_N_embedding a), <- (Ascii.ascii_N_embedding b), H.
Qed.

Lemma fold_lor_zero {A} (f : A -> Z) l acc :
  fold_left (fun acc x => Z.lor acc (f x)) l acc = 0 <-> acc = 0 /\ Forall (fun x => f x = 0) l.
Proof.
  revert acc. induction l as [|x l IH]; intros acc; cbn.
  - split; [by intros ->|by intros []].
  - rewrite IH, Z.lor_eq_0_iff, Forall_cons. tauto.
Qed.

Lemma differing_bits_zero a b :
  length a = length b -> differing_bits a b = 0 <-> a = b.
Proof.
  intros Hl. unfold differing_bits.
  rewrite (fold_lor_zero (fun xy => Z.lxor (byte_val xy.1) (byte_val xy.2))). split.
  - intros [_ H]. revert b Hl H. induction a as [|x a IH]; intros [|y b] Hl H; [done|done|done|].
    inversion H as [|? ? E H']; subst. apply Z.lxor_eq, byte_val_inj in E. cbn in E. subst.
    f_equal. apply IH; [by injection Hl|done].
  - intros <-. split; [done|]. clear. induction a; constructor; [apply Z.lxor_nilpotent|done].
Qed.
