(* ===== verification/Labels.v ===== *)
(** * Runner labels

    [crates/oore-contract/src/lib.rs]: the labels a runner advertises and a
    pipeline requires.  [Json] holds the values of [serde_json::Value] the
    capabilities of a runner are made of. *)

From S2P Require Import Prelude RustStr.
From Stdlib Require Import Ascii.

Local Open Scope Z_scope.

Module Json.

(** [serde_json::Value]; [Float] keeps the text of a number that is not an
    integer. *)
Inductive Value : Type :=
  | Null
  | Bool (b : bool)
  | Number (n : Z)
  | Float (text : string)
  | Str (s : string)
  | Array (l : list Value)
  | Object (fields : list (string * Value)).

(** [Value::get] with a key. *)
Definition get (key : string) (v : Value) : option Value :=
  match v with
  | Object fields => snd <$> find (fun kv => String.eqb kv.1 key) fields
  | _ => None
  end.

(** [Value::as_str], [Value::as_i64]. *)
Definition as_str (v : Value) : option string := match v with Str s => Some s | _ => None end.
Definition as_i64 (v : Value) : option Z :=
  match v with
  | Number n => if (i64_min <=? n) && (n <=? i64_max) then Some n else None
  | _ => None
  end.

(** [Value::as_u64], [Value::as_bool], [Value::as_array]. *)
Definition as_u64 (v : Value) : option Z :=
  match v with
  | Number n => if (0 <=? n) && (n <? 2 ^ 64) then Some n else None
  | _ => None
  end.
Definition as_bool (v : Value) : option bool := match v with Bool b => Some b | _ => None end.
Definition as_array (v : Value) : option (list Value) := match v with Array l => Some l | _ => None end.

(** [Value::pointer], with the keys of the path; none of the daemon's is an
    array index. *)
Fixpoint pointer (keys : list string) (v : Value) : option Value :=
  match keys with
  | [] => Some v
  | key :: rest => get key v ≫= pointer rest
  end.

(** [value.as_object().is_some_and(|o| !o.is_empty())]. *)
Definition non_empty_object (v : Value) : bool :=
  match v with Object (_ :: _) => true | _ => false end.

End Json.

Definition MAX_RUNNER_CONCURRENT_BUILDS : Z := 8.

(** [enum RunnerDiskPressure]. *)
Inductive RunnerDiskPressure : Set := Warning | Critical.

#[global] Instance RunnerDiskPressure_eq_dec : EqDecision RunnerDiskPressure.
Proof. solve_decision. Defined.

Definition RUNNER_DISK_WARNING_BYTES : Z := 20 * 1024 * 1024 * 1024.
Definition RUNNER_DISK_CRITICAL_BYTES : Z := 10 * 1024 * 1024 * 1024.

(** [runner_disk_pressure]. *)
Definition runner_disk_pressure (disk_free_bytes : Z) : option RunnerDiskPressure :=
  if disk_free_bytes <? RUNNER_DISK_CRITICAL_BYTES then Some Critical
  else if disk_free_bytes <? RUNNER_DISK_WARNING_BYTES then Some Warning
  else None.

Definition MAX_RUNNER_LABELS : Z := 32.
Definition MAX_RUNNER_LABEL_LENGTH : Z := 64.
Definition DEFAULT_RUNS_ON : list string := ["macos"%string].

Definition label_char (c : ascii) : bool :=
  is_ascii_lowercase c || is_ascii_digit c
  || Ascii.eqb c "."%char || Ascii.eqb c "_"%char || Ascii.eqb c "-"%char.

(** [normalize_runner_label]. *)
Definition normalize_runner_label (label : string) : result string string :=
  let label := to_ascii_lowercase (trim label) in
  if is_empty label || (MAX_RUNNER_LABEL_LENGTH <? str_len label)
  then Err "label must be between 1 and 64 characters"%string
  else if negb (all_bytes label_char label)
  then Err ("label '" +:+ label +:+ "' may only contain letters, digits, '.', '_' and '-'")
  else Ok label.

(** [Vec::sort] on strings and [Vec::dedup]. *)
Definition sort (l : list string) : list string := merge_sort String.le l.

Fixpoint dedup (l : list string) : list string :=
  match l with
  | x :: (y :: _) as rest => if String.eqb x y then dedup rest else x :: dedup rest
  | _ => l
  end.

(** [normalize_runner_labels]. *)
Definition normalize_runner_labels (labels : list string) : result string (list string) :=
  if MAX_RUNNER_LABELS <? Z.of_nat (length labels)
  then Err "at most 32 labels are allowed"%string
  else
    normalized ← collect (map normalize_runner_label labels);
    Ok (dedup (sort normalized)).

(** The closures [text] and [major] of [detected_runner_labels]. *)
Definition capability_text (capabilities : Json.Value) (key : string) : option string :=
  match Json.get key capabilities ≫= Json.as_str with
  | Some value => let value := trim value in if is_empty value then None else Some value
  | None => None
  end.

Definition major (version : string) : option string :=
  find (fun part => negb (is_empty part))
    (map text (split_l (fun c => negb (is_ascii_digit c)) (bytes version))).

(** [detected_runner_labels]. *)
Definition detected_runner_labels (capabilities : Json.Value) : list string :=
  let text := capability_text capabilities in
  let os_labels :=
    match text "os"%string ≫= (fun os => ok (normalize_runner_label os)) with
    | Some os =>
        match text "os_version"%string ≫= major with
        | Some version => [os +:+ "-" +:+ version; os]
        | None => [os]
        end
    | None => []
    end in
  let xcode :=
    match text "xcode_version"%string ≫= major with
    | Some version => ["xcode-" +:+ version]
    | None => []
    end in
  let arch :=
    match text "arch"%string with
    | Some a =>
        if String.eqb a "aarch64" || String.eqb a "arm64" then ["arm64"%string]
        else if String.eqb a "x86_64" || String.eqb a "amd64" then ["x86_64"%string]
        else []
    | None => []
    end in
  dedup (sort (os_labels ++ xcode ++ arch)).

(** [effective_runner_labels]. *)
Definition effective_runner_labels (capabilities : Json.Value) (custom_labels : list string)
    : list string :=
  dedup (sort (detected_runner_labels capabilities ++ custom_labels)).

(** [scheduling_labels]. *)
Definition scheduling_labels (runs_on : list string) : list string :=
  match runs_on with [] => DEFAULT_RUNS_ON | _ => runs_on end.

(** [missing_runner_labels]. *)
Definition missing_runner_labels (required available : list string) : list string :=
  List.filter (fun label => negb (existsb (String.eqb label) available)) required.

Example detected_macos :
  detected_runner_labels (Json.Object
    [("os", Json.Str "macOS"); ("os_version", Json.Str "15.1");
     ("xcode_version", Json.Str "16.2"); ("arch", Json.Str "aarch64")])
  = ["arm64"; "macos"; "macos-15"; "xcode-16"]%string.
Proof. vm_compute. reflexivity. Qed.

(** ** Lemmas *)

Lemma dedup_cons x y l :
  dedup (x :: y :: l) = if String.eqb x y then dedup (y :: l) else x :: dedup (y :: l).
Proof. reflexivity. Qed.

Lemma elem_of_dedup x l : x ∈ dedup l <-> x ∈ l.
Proof.
  induction l as [|y [|z l] IH]; [done..|]. rewrite dedup_cons.
  destruct (String.eqb_spec y z) as [->|Hne]; [set_solver|]. set_solver.
Qed.

Lemma elem_of_sort x l : x ∈ sort l <-> x ∈ l.
Proof. unfold sort. by rewrite merge_sort_Permutation. Qed.

Lemma dedup_head x l : exists r, dedup (x :: l) = x :: r.
Proof.
  revert x. induction l as [|y l IH]; intros x; [by eexists|]. rewrite dedup_cons.
  destruct (String.eqb_spec x y) as [->|_]; [apply IH|by eexists].
Qed.

(** Removing adjacent duplicates of a sorted list leaves no duplicates. *)
Lemma dedup_sorted l :
  StronglySorted String.le l -> StronglySorted String.le (dedup l) /\ NoDup (dedup l).
Proof.
  induction l as [|y [|z l] IH]; intros Hs; [split; constructor|split; repeat constructor|].
  { by intros ?%elem_of_nil. }
  apply StronglySorted_inv in Hs as [Hs Hall]. destruct (IH Hs) as [IHs IHn].
  rewrite dedup_cons. destruct (String.eqb_spec y z) as [->|Hne]; [done|].
  assert (Hdall : Forall (String.le y) (dedup (z :: l))).
  { rewrite Forall_forall in *. intros x Hx. apply Hall. by apply elem_of_dedup. }
  split; constructor; [done..| |done].
  rewrite elem_of_dedup, elem_of_cons. intros [?|Hin]; [done|].
  apply Hne. apply (anti_symm String.le).
  - inversion Hall; subst; done.
  - apply StronglySorted_inv in Hs as [_ Hz]. rewrite Forall_forall in Hz. by apply Hz.
Qed.

Lemma dedup_id l : NoDup l -> dedup l = l.
Proof.
  induction l as [|y [|z l] IH]; intros Hn; [done..|]. rewrite dedup_cons.
  apply NoDup_cons in Hn as [Hy Hn]. rewrite IH by done.
  destruct (String.eqb_spec y z) as [->|_]; [set_solver|done].
Qed.

Lemma sort_id l : StronglySorted String.le l -> sort l = l.
Proof.
  intros Hs. unfold sort. apply (StronglySorted_unique String.le); [|done|].
  - apply StronglySorted_merge_sort; apply _.
  - apply merge_sort_Permutation.
Qed.

(** A canonical label list: sorted, without duplicates. *)
Definition canonical (l : list string) : Prop := StronglySorted String.le l /\ NoDup l.

Lemma canonical_dedup_sort l : canonical (dedup (sort l)).
Proof. apply dedup_sorted. apply StronglySorted_merge_sort; apply _. Qed.

#[export] Hint Resolve canonical_dedup_sort : oore.

Lemma dedup_sort_id l : canonical l -> dedup (sort l) = l.
Proof. intros [Hs Hn]. rewrite sort_id by done. by apply dedup_id. Qed.

(** A byte no white-space encoding starts or ends with. *)
Definition solid (c : ascii) : bool :=
  forallb (fun e => match e with [] => false | b :: _ => negb (Ascii.eqb b c) end)
    (ws_encodings ++ map (@rev ascii) ws_encodings).

Lemma label_char_solid c : label_char c = true -> solid c = true /\ byte_to_lower c = c.
Proof. destruct c as [[] [] [] [] [] [] [] []]; vm_compute; auto; discriminate. Qed.

Lemma strip_one_solid encs c l :
  forallb (fun e => match e with [] => false | b :: _ => negb (Ascii.eqb b c) end) encs = true ->
  strip_one encs (c :: l) = None.
Proof.
  unfold strip_one. induction encs as [|e encs IH]; [done|]. cbn. rewrite andb_true_iff.
  intros [He Hencs]. specialize (IH Hencs).
  destruct e as [|b e]; [done|]. cbn. apply negb_true_iff in He. rewrite He. cbn.
  destruct (list_find _ _) as [[n o]|]; cbn in *; done.
Qed.

Lemma trim_with_solid encs fuel c l :
  forallb (fun e => match e with [] => false | b :: _ => negb (Ascii.eqb b c) end) encs = true ->
  trim_with encs fuel (c :: l) = c :: l.
Proof. intros H. destruct fuel; [done|]. cbn [trim_with]. by rewrite strip_one_solid. Qed.

(** Text whose first and last bytes are solid has nothing to trim. *)
Lemma trim_solid s : all_bytes solid s = true -> trim s = s.
Proof.
  unfold all_bytes, trim, trim_start_l, trim_end_l. intros Hs.
  enough (Ht : trim_end_l (trim_start_l (bytes s)) = bytes s)
    by (unfold trim_end_l, trim_start_l in Ht; rewrite Ht; apply text_bytes).
  unfold trim_end_l, trim_start_l.
  destruct (bytes s) as [|c l] eqn:E; [done|].
  assert (Hc : forall x, x ∈ c :: l -> solid x = true).
  { intros x Hx. rewrite forallb_forall in Hs. apply Hs. by apply list_elem_of_In. }
  rewrite trim_with_solid.
  2: { specialize (Hc c). unfold solid in Hc. rewrite forallb_app in Hc.
       apply andb_true_iff in Hc as [? _]; [done|]. apply elem_of_cons; auto. }
  destruct (rev (c :: l)) as [|x r] eqn:Er.
  { apply (f_equal (@rev ascii)) in Er. rewrite rev_involutive in Er. done. }
  rewrite trim_with_solid; [rewrite <- Er; apply rev_involutive|].
  assert (Hx : x ∈ c :: l) by (apply list_elem_of_In, in_rev; rewrite Er; by left).
  apply Hc in Hx. unfold solid in Hx. rewrite forallb_app in Hx. by apply andb_true_iff in Hx as [_ ?].
Qed.

Lemma normalize_label_shape l l' :
  normalize_runner_label l = Ok l' ->
  l' <> ""%string /\ str_len l' <= MAX_RUNNER_LABEL_LENGTH /\ all_bytes label_char l' = true.
Proof.
  unfold normalize_runner_label. set (x := to_ascii_lowercase (trim l)). intros H.
  destruct (is_empty x) eqn:Ee; [done|]. destruct (_ <? _) eqn:El; [done|]. cbn in H.
  destruct (all_bytes label_char x) eqn:Ea; [|done]. injection H as <-.
  split_and!; [by intros ->|lia|done].
Qed.

(** Labels of that shape are fixed points of normalization. *)
Lemma normalize_label_fixed l :
  l <> ""%string -> str_len l <= MAX_RUNNER_LABEL_LENGTH -> all_bytes label_char l = true ->
  normalize_runner_label l = Ok l.
Proof.
  intros Hne Hlen Hall.
  assert (Hb : forall c, c ∈ bytes l -> label_char c = true).
  { intros c Hc. unfold all_bytes in Hall. rewrite forallb_forall in Hall.
    apply Hall. by apply list_elem_of_In. }
  assert (Ht : to_ascii_lowercase (trim l) = l).
  { rewrite trim_solid.
    - unfold to_ascii_lowercase. rewrite <- (text_bytes l) at 2. f_equal.
      rewrite <- (map_id (bytes l)) at 2. apply map_ext_in. intros c Hc.
      apply label_char_solid, Hb. by apply list_elem_of_In.
    - unfold all_bytes. apply forallb_forall. intros c Hc. apply label_char_solid, Hb.
      by apply list_elem_of_In. }
  unfold normalize_runner_label. rewrite Ht, Hall.
  rewrite (proj2 (Z.ltb_ge _ _) Hlen). by destruct l.
Qed.

Lemma length_dedup l : (length (dedup l) <= length l)%nat.
Proof.
  induction l as [|x [|y l] IH]; [done..|]. rewrite dedup_cons.
  destruct (String.eqb x y); cbn [length] in *; lia.
Qed.

(**  Normalizing a label list: on success there were at most 32 labels,
    the result is sorted without duplicates, its members are exactly the
    normalized labels, each of 1 to 64 bytes from [a-z0-9._-], and normalizing
    it again changes nothing. *)
Theorem normalize_runner_labels_spec (labels ls : list string) :
  normalize_runner_labels labels = Ok ls ->
  Z.of_nat (length labels) <= MAX_RUNNER_LABELS /\
  canonical ls /\
  (forall x, x ∈ ls <-> exists l, l ∈ labels /\ normalize_runner_label l = Ok x) /\
  Forall (fun x => x <> ""%string /\ str_len x <= MAX_RUNNER_LABEL_LENGTH /\
                   all_bytes label_char x = true) ls /\
  normalize_runner_labels ls = Ok ls.
Proof.
  unfold normalize_runner_labels at 1. destruct (_ <? _) eqn:El; [done|].
  intros H. inv_bind. apply collect_Ok in H0 as Hc. apply Z.ltb_ge in El.
  assert (Hin : forall y, y ∈ dedup (sort x) <->
    exists l, l ∈ labels /\ normalize_runner_label l = Ok y).
  { intros y. rewrite elem_of_dedup, elem_of_sort. split.
    - intros Hy. apply list_elem_of_In, (in_map (@Ok string string)) in Hy. rewrite <- Hc in Hy.
      apply in_map_iff in Hy as (l & Hl & Hl'). exists l. by rewrite list_elem_of_In.
    - intros (l & Hl & Hn). apply list_elem_of_In, (in_map normalize_runner_label) in Hl.
      rewrite Hc, Hn in Hl. apply in_map_iff in Hl as (z & [= <-] & Hz).
      by apply list_elem_of_In. }
  assert (Hf : Forall (fun x => x <> ""%string /\ str_len x <= MAX_RUNNER_LABEL_LENGTH /\
    all_bytes label_char x = true) (dedup (sort x))).
  { apply Forall_forall. intros y (l & _ & Hn)%Hin. by apply normalize_label_shape in Hn. }
  split_and!; [done|auto with oore|done|done|].
  unfold normalize_runner_labels. rewrite (proj2 (Z.ltb_ge _ _)).
  2: { pose proof (length_dedup (sort x)). unfold sort in H at 2.
       rewrite merge_sort_Permutation in H.
       apply (f_equal (@length _)) in Hc. rewrite !length_map in Hc. lia. }
  assert (Hcol : collect (map normalize_runner_label (dedup (sort x))) = Ok (dedup (sort x))).
  { apply collect_Ok, map_ext_Forall. eapply Forall_impl; [done|]. cbn.
    intros y (? & ? & ?). by apply normalize_label_fixed. }
  rewrite Hcol. cbn. f_equal. apply dedup_sort_id. auto with oore.
Qed.

Lemma normalize_runner_labels_witness :
  normalize_runner_labels [" Xcode-16 "; "macos"; "MACOS"] = Ok ["macos"; "xcode-16"]%string /\
  canonical ["macos"; "xcode-16"]%string.
Proof.
  assert (H : normalize_runner_labels [" Xcode-16 "; "macos"; "MACOS"]
              = Ok ["macos"; "xcode-16"]%string) by (vm_compute; reflexivity).
  split; [exact H|].
  exact (proj1 (proj2 (normalize_runner_labels_spec _ _ H))).
Defined.

(**  A runner advertises exactly its detected and its custom labels,
    sorted and without duplicates, and it lacks none of the labels a build
    requires exactly when every one of them is advertised; a build that names
    none requires [macos]. *)
Theorem runner_labels_match (capabilities : Json.Value) (custom runs_on : list string) :
  let labels := effective_runner_labels capabilities custom in
  canonical labels /\
  (forall x, x ∈ labels <-> x ∈ detected_runner_labels capabilities \/ x ∈ custom) /\
  (missing_runner_labels (scheduling_labels runs_on) labels = [] <->
     forall x, x ∈ scheduling_labels runs_on -> x ∈ labels) /\
  scheduling_labels runs_on <> [].
Proof.
  intros labels. split_and!; [apply canonical_dedup_sort| | |by destruct runs_on].
  - intros x. unfold labels, effective_runner_labels. rewrite elem_of_dedup, elem_of_sort. set_solver.
  - unfold missing_runner_labels. split.
    + intros Hm x Hx. destruct (existsb (String.eqb x) labels) eqn:E.
      { apply existsb_exists in E as (y & Hy & ->%String.eqb_eq). by apply list_elem_of_In. }
      assert (Hin : In x []); [|done]. rewrite <- Hm. apply filter_In.
      rewrite <- list_elem_of_In. by rewrite E.
    + intros Hall. destruct (List.filter _ _) as [|x l] eqn:E; [done|].
      assert (Hx : In x (x :: l)) by (by left). rewrite <- E in Hx.
      apply filter_In in Hx as [Hx%list_elem_of_In%Hall Hn].
      apply negb_true_iff in Hn. rewrite (proj2 (existsb_exists _ _)) in Hn; [done|].
      exists x. rewrite String.eqb_refl, <- list_elem_of_In. done.
Qed.
