(* ===== verification/F64.v ===== *)
(** * [f64]

    The IEEE 754 binary64 numbers of the Standard Library's [SpecFloat], with
    the operations the program uses: comparison, arithmetic, the literals it
    writes, rounding to an integer and printing with two decimals.  The order
    of the numbers is the lexicographic order of a key, which makes [lia]
    decide it. *)

From S2P Require Import Prelude RustStr.
From Stdlib Require Import Ascii Floats.SpecFloat.
From stdpp Require Import pretty.

Local Open Scope Z_scope.

Abbreviation f64 := spec_float.

#[global] Instance f64_eq_dec : EqDecision f64.
Proof. solve_decision. Defined.

(** ** Operations *)

(** [n as f64]. *)
Definition f64_of_Z (n : Z) : f64 := binary_normalize 53 1024 n 0 false.

(** The literal whose binary expansion is [m * 2 ^ e]. *)
Definition f64_lit (m e : Z) : f64 := binary_normalize 53 1024 m e false.

Definition f64_mul : f64 -> f64 -> f64 := SFmul 53 1024.
Definition f64_div : f64 -> f64 -> f64 := SFdiv 53 1024.
Definition f64_add : f64 -> f64 -> f64 := SFadd 53 1024.
Definition f64_sub : f64 -> f64 -> f64 := SFsub 53 1024.
Definition f64_abs : f64 -> f64 := SFabs.
Definition f64_lt : f64 -> f64 -> bool := SFltb.
Definition f64_le : f64 -> f64 -> bool := SFleb.
Definition f64_eq : f64 -> f64 -> bool := SFeqb.

Definition is_finite (x : f64) : bool :=
  match x with S754_zero _ | S754_finite _ _ _ => true | _ => false end.

Definition is_nan (x : f64) : bool := match x with S754_nan => true | _ => false end.

(** [a.max(b)]: a NaN is ignored. *)
Definition f64_max (a b : f64) : f64 :=
  if is_nan a then b else if is_nan b then a else if f64_lt a b then b else a.

(** The quotient [n / d] rounded to the nearest integer, ties away from zero. *)
Definition div_half_up (n d : Z) : Z := (2 * n + d) / (2 * d).

(** [x.round() as i64]. *)
Definition round_to_i64 (x : f64) : Z :=
  match x with
  | S754_zero _ | S754_nan => 0
  | S754_infinity s => if s then i64_min else i64_max
  | S754_finite s m e =>
      let n := if 0 <=? e then Zpos m * 2 ^ e else div_half_up (Zpos m) (2 ^ (- e)) in
      clamp_i64 (if s then - n else n)
  end.

(** The quotient [n / d] rounded to the nearest integer, ties to even. *)
Definition div_half_even (n d : Z) : Z :=
  let q := n / d in
  let r := 2 * (n mod d) in
  if (d <? r) || ((d =? r) && Z.odd q) then q + 1 else q.

(** [format!("{x:.2}")]. *)
Definition fmt_2 (x : f64) : string :=
  let digits (n : Z) : string :=
    (if n <? 10 then "0" else "") +:+ pretty n in
  match x with
  | S754_nan => "NaN"
  | S754_infinity s => if s then "-inf" else "inf"
  | S754_zero s => if s then "-0.00" else "0.00"
  | S754_finite s m e =>
      let n := if 0 <=? e then 100 * (Zpos m * 2 ^ e) else div_half_even (100 * Zpos m) (2 ^ (- e)) in
      (if s then "-" else "") +:+ pretty (n / 100) +:+ "." +:+ digits (n mod 100)
  end.

(** Literals of the source. *)
Definition f_0 : f64 := S754_zero false.
Definition f_1 : f64 := f64_of_Z 1.
Definition f_100 : f64 := f64_of_Z 100.
Definition f_3600 : f64 := f64_of_Z 3600.
Definition f_0_75 : f64 := f64_lit 3 (-2).
Definition f_1em9 : f64 := f64_lit 0x112e0be826d695 (-82).

#[global] Arguments f_1 : simpl never.
#[global] Arguments f_100 : simpl never.
#[global] Arguments f_3600 : simpl never.
#[global] Arguments f_0_75 : simpl never.
#[global] Arguments f_1em9 : simpl never.
#[global] Arguments f64_lit : simpl never.
#[global] Arguments f64_of_Z : simpl never.
#[global] Arguments f64_mul : simpl never.
#[global] Arguments f64_add : simpl never.
#[global] Arguments f64_sub : simpl never.
#[global] Arguments f64_lt : simpl never.
#[global] Arguments f64_le : simpl never.
#[global] Arguments f64_eq : simpl never.

(** ** The order *)

(** Numbers compare by sign, then exponent, then mantissa. *)
Definition key (x : f64) : Z * Z * Z :=
  match x with
  | S754_nan => (3, 0, 0)
  | S754_infinity s => if s then (-2, 0, 0) else (2, 0, 0)
  | S754_zero _ => (0, 0, 0)
  | S754_finite s m e => if s then (-1, - e, - Zpos m) else (1, e, Zpos m)
  end.

Definition lex (a b : Z * Z * Z) : Prop :=
  a.1.1 < b.1.1 \/ a.1.1 = b.1.1 /\ (a.1.2 < b.1.2 \/ a.1.2 = b.1.2 /\ a.2 < b.2).

Lemma compare_key x y :
  is_nan x = false -> is_nan y = false ->
  match SFcompare x y with
  | Some Lt => lex (key x) (key y)
  | Some Eq => key x = key y
  | Some Gt => lex (key y) (key x)
  | None => False
  end.
Proof.
  intros Hx Hy. unfold lex. destruct x as [|[]| |[] m1 e1], y as [|[]| |[] m2 e2]; try done; cbn; try lia.
  all: change (Pos.compare_cont Eq m1 m2) with (Pos.compare m1 m2).
  all: destruct (Z.compare_spec e1 e2); cbn; [subst|lia..].
  all: destruct (Pos.compare_spec m1 m2); subst; cbn; [done|lia..].
Qed.

Lemma f64_lt_key x y :
  f64_lt x y = true <-> is_nan x = false /\ is_nan y = false /\ lex (key x) (key y).
Proof.
  unfold f64_lt, SFltb. destruct (is_nan x) eqn:Hx.
  { destruct x; try done. naive_solver. }
  destruct (is_nan y) eqn:Hy.
  { destruct y; try done. destruct x; naive_solver. }
  pose proof (compare_key x y Hx Hy) as H. destruct (SFcompare x y) as [[]|]; [..|done];
    (split; [intros [=]; by split_and!|intros (_ & _ & L); try done; unfold lex in *; exfalso]).
  - rewrite H in L. lia.
  - lia.
Qed.

Lemma f64_le_key x y :
  f64_le x y = true <->
  is_nan x = false /\ is_nan y = false /\ (lex (key x) (key y) \/ key x = key y).
Proof.
  unfold f64_le, SFleb. destruct (is_nan x) eqn:Hx.
  { destruct x; try done. naive_solver. }
  destruct (is_nan y) eqn:Hy.
  { destruct y; try done. destruct x; naive_solver. }
  pose proof (compare_key x y Hx Hy) as H. destruct (SFcompare x y) as [[]|]; [..|done];
    (split; [try (intros [=]); split_and!; auto|intros (_ & _ & L); try done; unfold lex in *; exfalso]).
  destruct L as [L|L]; [lia|]. rewrite L in H. lia.
Qed.

Lemma f64_eq_key x y :
  f64_eq x y = true <-> is_nan x = false /\ is_nan y = false /\ key x = key y.
Proof.
  unfold f64_eq, SFeqb. destruct (is_nan x) eqn:Hx.
  { destruct x; try done. naive_solver. }
  destruct (is_nan y) eqn:Hy.
  { destruct y; try done. destruct x; naive_solver. }
  pose proof (compare_key x y Hx Hy) as H. destruct (SFcompare x y) as [[]|]; [..|done];
    (split; [try (intros [=]); by split_and!|intros (_ & _ & L); try done; unfold lex in *; exfalso]).
  - rewrite L in H. lia.
  - rewrite L in H. lia.
Qed.

(** Turn comparisons into arithmetic on the keys. *)
Ltac f64_order :=
  repeat match goal with
  | H : f64_lt _ _ = true |- _ => apply f64_lt_key in H as (? & ? & H)
  | H : f64_le _ _ = true |- _ => apply f64_le_key in H as (? & ? & H)
  | H : f64_eq _ _ = true |- _ => apply f64_eq_key in H as (? & ? & H)
  end;
  repeat match goal with
  | H : is_finite ?x = true |- _ =>
      lazymatch goal with
      | _ : is_nan x = false |- _ => fail
      | _ => assert (is_nan x = false) by (destruct x; done)
      end
  end;
  lazymatch goal with
  | |- f64_lt _ _ = true => apply f64_lt_key; split_and!; [assumption|assumption|]
  | |- f64_le _ _ = true => apply f64_le_key; split_and!; [assumption|assumption|]
  | |- f64_lt _ _ = false => apply not_true_iff_false; intros (? & ? & ?)%f64_lt_key
  | |- f64_le _ _ = false => apply not_true_iff_false; intros (? & ? & ?)%f64_le_key
  | |- _ => idtac
  end;
  repeat match goal with H : lex _ _ \/ key _ = key _ |- _ => destruct H end;
  unfold lex in *;
  repeat match goal with
  | H : key ?x = key ?y |- _ => rewrite H in *; clear H
  end;
  lia.

Lemma f64_lt_trans x y z : f64_lt x y = true -> f64_lt y z = true -> f64_lt x z = true.
Proof. intros. f64_order. Qed.

Lemma f64_lt_irrefl x : f64_lt x x = false.
Proof. f64_order. Qed.

Lemma f64_le_lt_trans x y z : f64_le x y = true -> f64_lt y z = true -> f64_lt x z = true.
Proof. intros. f64_order. Qed.

Lemma f64_lt_le_trans x y z : f64_lt x y = true -> f64_le y z = true -> f64_lt x z = true.
Proof. intros. f64_order. Qed.

Lemma f64_lt_le x y : f64_lt x y = true -> f64_le x y = true.
Proof. intros. f64_order. Qed.

Lemma f64_le_refl x : is_nan x = false -> f64_le x x = true.
Proof. intros. apply f64_le_key. auto. Qed.

(** Numbers that are not NaN compare. *)
Lemma f64_not_lt x y : is_nan x = false -> is_nan y = false -> f64_lt x y = false -> f64_le y x = true.
Proof.
  intros Hx Hy H. apply not_true_iff_false in H. rewrite f64_lt_key in H.
  apply f64_le_key. split_and!; [done..|].
  destruct (key x) as [[a b] c] eqn:Ex, (key y) as [[a' b'] c'] eqn:Ey. unfold lex in *. cbn in *.
  destruct (decide ((a', b', c') = (a, b, c))); [by right|]. left.
  assert (a <> a' \/ b <> b' \/ c <> c') by (destruct (decide (a = a')), (decide (b = b')), (decide (c = c')); subst; auto).
  assert (Hn : ~ (a < a' \/ a = a' /\ (b < b' \/ b = b' /\ c < c'))) by naive_solver. lia.
Qed.

Lemma f64_le_trans x y z : f64_le x y = true -> f64_le y z = true -> f64_le x z = true.
Proof.
  intros (? & ? & H1)%f64_le_key (? & ? & H2)%f64_le_key. apply f64_le_key. split_and!; [done..|].
  destruct H1 as [H1|H1]; [|rewrite H1; by destruct H2; [left|right]].
  destruct H2 as [H2|H2]; [|rewrite <- H2; by left]. left. unfold lex in *. lia.
Qed.

(** Literals, evaluated once. *)
Lemma f_consts : f64_lt f_0 f_1 = true /\ is_finite f_0 = true /\ is_finite f_1 = true.
Proof. by vm_compute. Qed.
