(* ===== verification/Sizes.v ===== *)
(** * Artifact sizes and size budgets

    [SizeBudget] of [crates/oore-contract/src/lib.rs], the comparison of a
    build's artifacts with its baseline ([crates/oored/src/artifact_sizes.rs])
    and the budgets a runner may report ([checked_file_size_budgets] of
    [runners.rs]). *)

From S2P Require Import Prelude RustStr F64.
From Stdlib Require Import Ascii Floats.SpecFloat.

Local Open Scope Z_scope.

(** ** Budgets *)

(** [enum SizeBudgetMode]. *)
Inductive SizeBudgetMode : Set := Warn | Fail.

(** [struct SizeBudgetRule]. *)
Record SizeBudgetRule := {
  kind : string;
  max_bytes : option Z;
  max_increase_bytes : option Z;
  max_increase_percent : option f64;
}.

(** [SizeBudgetRule::has_limit]. *)
Definition has_limit (r : SizeBudgetRule) : bool :=
  bool_decide (is_Some (max_bytes r)) || bool_decide (is_Some (max_increase_bytes r))
  || match max_increase_percent r with Some _ => true | None => false end.

(** [struct SizeBudget]. *)
Record SizeBudget := {
  mode : SizeBudgetMode;
  rules : list SizeBudgetRule;
}.

Definition MAX_RULES : Z := 20.
Definition MAX_KIND_CHARS : Z := 16.

Definition valid_kind (k : string) : bool :=
  negb (is_empty k) && (char_count k <=? MAX_KIND_CHARS)
  && all_bytes (fun c => is_ascii_lowercase c || is_ascii_digit c) k.

Definition when (c : bool) (e : string) : list string := if c then [e] else [].

(** The body of the rule loop of [SizeBudget::validate_at]; [seen] holds the
    kinds already met. *)
Fixpoint validate_rules (field : string) (seen : list string) (rs : list SizeBudgetRule)
    : list string :=
  match rs with
  | [] => []
  | rule :: rest =>
      let k := kind rule in
      if negb (valid_kind k) then
        (field +:+ " kind '" +:+ k
           +:+ "' must be a lowercase file extension such as aab, apk or ipa")
        :: validate_rules field seen rest
      else
        when (existsb (String.eqb k) seen)
          (field +:+ " lists kind '" +:+ k +:+ "' more than once")
        ++ when (negb (has_limit rule)) (field +:+ " rule for '" +:+ k +:+ "' needs a limit")
        ++ when (match max_bytes rule with Some b => b <=? 0 | None => false end)
             (field +:+ " max_bytes for '" +:+ k +:+ "' must be greater than 0")
        ++ when (match max_increase_bytes rule with Some b => b <? 0 | None => false end)
             (field +:+ " max_increase_bytes for '" +:+ k +:+ "' must be 0 or more")
        ++ when (match max_increase_percent rule with
                 | Some p => negb (is_finite p) || f64_lt p (f64_of_Z 0)
                 | None => false
                 end)
             (field +:+ " max_increase_percent for '" +:+ k +:+ "' must be 0 or more")
        ++ validate_rules field (k :: seen) rest
  end.

(** [SizeBudget::validate_at]. *)
Definition validate_at (b : SizeBudget) (field : string) : list string :=
  when (MAX_RULES <? Z.of_nat (length (rules b))) (field +:+ " allows at most 20 rules")
  ++ validate_rules field [] (rules b).

(** [enum BuildPlatform]. *)
Inductive BuildPlatform : Set := Android | Ios | Macos.

#[global] Instance BuildPlatform_eq_dec : EqDecision BuildPlatform.
Proof. solve_decision. Defined.

(** [struct TargetSizeBudget]. *)
Record TargetSizeBudget := {
  tsb_platform : BuildPlatform;
  tsb_source : string;
  tsb_budget : SizeBudget;
}.

(** The characters of a UTF-8 text, each a lead byte and its continuations. *)
Fixpoint chars_l (l : list ascii) : list (list ascii) :=
  match l with
  | [] => []
  | c :: rest =>
      match chars_l rest with
      | (d :: ds) :: more =>
          if is_continuation d then (c :: d :: ds) :: more else [c] :: (d :: ds) :: more
      | _ => [[c]]
      end
  end.

(** [char::is_control]: U+0000 to U+001F and U+007F to U+009F. *)
Definition is_control (c : list ascii) : bool :=
  match c with
  | [b] => (byte_val b <? 32) || (byte_val b =? 127)
  | [b; d] => (byte_val b =? 194) && (byte_val d <=? 159)
  | _ => false
  end.

Definition MAX_BUDGET_SOURCE_CHARS : nat := 128.

Definition budget_source (source : string) : string :=
  let s := text (concat (take MAX_BUDGET_SOURCE_CHARS
    (map (fun c => if is_control c then [" "%char] else c) (chars_l (bytes source))))) in
  if is_empty (trim s) then ".oore.yaml"%string else s.

(** [checked_file_size_budgets]: [kept] is the vector built so far. *)
Fixpoint keep_budgets (kept budgets : list TargetSizeBudget) : list TargetSizeBudget :=
  match budgets with
  | [] => kept
  | budget :: rest =>
      let source := budget_source (tsb_source budget) in
      if negb (bool_decide (validate_at (tsb_budget budget) source = [])) then
        keep_budgets kept rest
      else if existsb (fun seen => bool_decide (tsb_platform seen = tsb_platform budget)) kept then
        keep_budgets kept rest
      else keep_budgets (kept ++ [{| tsb_platform := tsb_platform budget;
                                     tsb_source := source;
                                     tsb_budget := tsb_budget budget |}]) rest
  end.

Definition checked_file_size_budgets (budgets : list TargetSizeBudget) : list TargetSizeBudget :=
  keep_budgets [] budgets.

(** ** Comparing sizes *)

(** [struct SizeRow]. *)
Record SizeRow := {
  sr_artifact_id : string;
  sr_name : string;
  sr_artifact_type : string;
  sr_size_bytes : Z;
}.

(** [str::rsplit_once] with a character. *)
Definition rsplit_once (c : ascii) (s : string) : option (string * string) :=
  (fun '(r, l) => (text (rev l), text (rev r))) <$> split_once_l c (rev (bytes s)).

(** [artifact_kind]. *)
Definition artifact_kind (name artifact_type : string) : string :=
  match rsplit_once "."%char name with
  | Some (_, extension) =>
      if is_empty extension then to_ascii_lowercase artifact_type
      else to_ascii_lowercase extension
  | None => to_ascii_lowercase artifact_type
  end.

Definition file_kind (row : SizeRow) : string :=
  artifact_kind (sr_name row) (sr_artifact_type row).

(** [enum BudgetLimit] and [struct BudgetViolation]. *)
Inductive BudgetLimit : Type :=
  | Bytes (max : Z)
  | IncreaseBytes (max : Z)
  | IncreasePercent (max : f64).

Record BudgetViolation := {
  bv_name : string;
  bv_artifact_type : string;
  bv_size_bytes : Z;
  bv_change : option (Z * Z);
  bv_limit : BudgetLimit;
}.

(** [struct ArtifactSizeComparison]. *)
Record ArtifactSizeComparison := {
  asc_artifact_id : string;
  asc_name : string;
  asc_artifact_type : string;
  asc_size_bytes : Z;
  asc_baseline_name : option string;
  asc_baseline_size_bytes : option Z;
  asc_delta_bytes : option Z;
}.

(** [delta as f64 / baseline as f64 * 100.0 > max]. *)
Definition over_percent (delta baseline : Z) (max : f64) : bool :=
  f64_lt max (f64_mul (f64_div (f64_of_Z delta) (f64_of_Z baseline)) (f64_of_Z 100)).

Definition change_of (a : ArtifactSizeComparison) : option (Z * Z) :=
  match asc_delta_bytes a, asc_baseline_size_bytes a with
  | Some d, Some b => Some (d, b)
  | _, _ => None
  end.

(** The limits of one rule an artifact goes over: the body of the loop of
    [check_budget]. *)
Definition rule_violations (rule : SizeBudgetRule) (a : ArtifactSizeComparison)
    : list BudgetLimit :=
  let change := change_of a in
  match max_bytes rule with
  | Some max => if max <? asc_size_bytes a then [Bytes max] else []
  | None => []
  end ++
  match change, max_increase_bytes rule with
  | Some (delta, _), Some max => if max <? delta then [IncreaseBytes max] else []
  | _, _ => []
  end ++
  match change, max_increase_percent rule with
  | Some (delta, baseline), Some max =>
      if (0 <? delta) && ((baseline <=? 0) || over_percent delta baseline max)
      then [IncreasePercent max] else []
  | _, _ => []
  end.

(** [check_budget]. *)
Definition check_budget (artifacts : list ArtifactSizeComparison) (budget : SizeBudget)
    : list BudgetViolation :=
  flat_map (fun a =>
    match find (fun rule => String.eqb (kind rule)
                  (artifact_kind (asc_name a) (asc_artifact_type a))) (rules budget) with
    | None => []
    | Some rule =>
        map (fun limit => {| bv_name := asc_name a; bv_artifact_type := asc_artifact_type a;
                             bv_size_bytes := asc_size_bytes a; bv_change := change_of a;
                             bv_limit := limit |})
          (rule_violations rule a)
    end) artifacts.

(** The first pass of [compare_sizes]: each artifact takes the first unused
    baseline row of its name.  [used] is the vector of flags. *)
Fixpoint match_names (used : list bool) (baseline current : list SizeRow)
    : list bool * list (option nat) :=
  match current with
  | [] => (used, [])
  | artifact :: rest =>
      match list_find (fun ub => negb ub.1 && String.eqb (sr_name ub.2) (sr_name artifact))
              (zip used baseline) with
      | Some (index, _) =>
          let '(used', m) := match_names (<[index := true]> used) baseline rest in
          (used', Some index :: m)
      | None =>
          let '(used', m) := match_names used baseline rest in (used', None :: m)
      end
  end.

(** Indices of the baseline rows of a kind. *)
Definition same_kind_baseline (baseline : list SizeRow) (k : string) : list nat :=
  map fst (List.filter (fun ib => String.eqb (file_kind ib.2) k)
             (imap (fun i b => (i, b)) baseline)).

(** The second pass: an unmatched artifact takes the one baseline row of its
    kind when each side has exactly one. *)
Fixpoint match_kinds (used : list bool) (baseline all current : list SizeRow)
    (matched : list (option nat)) : list (option nat) :=
  match current, matched with
  | artifact :: rest, Some i :: ms => Some i :: match_kinds used baseline all rest ms
  | artifact :: rest, None :: ms =>
      let k := file_kind artifact in
      match same_kind_baseline baseline k,
            List.filter (fun o => String.eqb (file_kind o) k) all with
      | [only], [_] =>
          if negb (default true (used !! only))
          then Some only :: match_kinds (<[only := true]> used) baseline all rest ms
          else None :: match_kinds used baseline all rest ms
      | _, _ => None :: match_kinds used baseline all rest ms
      end
  | _, _ => []
  end.

(** The index vector [matched] at the end of the two passes. *)
Definition matched (current baseline : list SizeRow) : list (option nat) :=
  let '(used, m) := match_names (replicate (length baseline) false) baseline current in
  match_kinds used baseline current current m.

(** [compare_sizes]. *)
Definition compare_sizes (current baseline : list SizeRow) : list ArtifactSizeComparison :=
  zip_with (fun artifact index =>
    let base := index ≫= fun i => baseline !! i in
    {| asc_artifact_id := sr_artifact_id artifact; asc_name := sr_name artifact;
       asc_artifact_type := sr_artifact_type artifact;
       asc_size_bytes := sr_size_bytes artifact;
       asc_baseline_name := sr_name <$> base;
       asc_baseline_size_bytes := sr_size_bytes <$> base;
       asc_delta_bytes := (fun b => sr_size_bytes artifact - sr_size_bytes b) <$> base |})
    current (matched current baseline).

(** ** Properties *)

Lemma match_names_spec used baseline current used' m :
  length used = length baseline ->
  match_names used baseline current = (used', m) ->
  length used' = length baseline /\ length m = length current /\
  (forall j, used !! j = Some true -> used' !! j = Some true) /\
  (forall i j, m !! i = Some (Some j) ->
     used !! j = Some false /\ used' !! j = Some true /\
     exists a b, current !! i = Some a /\ baseline !! j = Some b /\ sr_name a = sr_name b) /\
  (forall i i' j, m !! i = Some (Some j) -> m !! i' = Some (Some j) -> i = i').
Proof.
  revert used used' m. induction current as [|a rest IH]; intros used used' m Hl Hm; cbn in Hm.
  { injection Hm as <- <-. by split_and!. }
  destruct (list_find _ _) as [[idx [u b]]|] eqn:Ef.
  - apply list_find_Some in Ef as (Hz & Hp & _).
    apply lookup_zip_Some in Hz as [Hu Hb].
    apply andb_prop_elim in Hp as [Hp Hn]. destruct u; [done|]. apply Is_true_true, String.eqb_eq in Hn.
    destruct (match_names _ _ _) as [u' m'] eqn:Er. injection Hm as <- <-.
    destruct (IH (<[idx := true]> used) u' m') as (L1 & L2 & Hmono & Hspec & Hinj);
      [by rewrite length_insert|done|].
    assert (Hidx : u' !! idx = Some true).
    { apply Hmono. apply list_lookup_insert_eq. by apply lookup_lt_Some in Hu. }
    assert (Hnot : forall i j, m' !! i = Some (Some j) -> j <> idx /\ used !! j = Some false).
    { intros i j Hij. apply Hspec in Hij as (Hj & _). apply list_lookup_insert_Some in Hj. naive_solver. }
    split_and!; [done|cbn; lia| | |].
    + intros j Hj. apply Hmono. destruct (decide (idx = j)) as [->|].
      * apply list_lookup_insert_eq. by apply lookup_lt_Some in Hj.
      * by rewrite list_lookup_insert_ne.
    + intros [|i] j Hij; cbn in Hij.
      * injection Hij as ->. split_and!; [done..|]. exists a, b. by split_and!.
      * destruct (Hnot _ _ Hij) as [_ Hf]. apply Hspec in Hij as (_ & ? & ?). by split_and!.
    + intros [|i] [|i'] j Hi Hi'; cbn in *; simplify_eq; [done| | |].
      * by destruct (Hnot _ _ Hi') as [? _].
      * by destruct (Hnot _ _ Hi) as [? _].
      * f_equal. by eapply Hinj.
  - destruct (match_names used _ _) as [u' m'] eqn:Er. injection Hm as <- <-.
    destruct (IH used u' m') as (L1 & L2 & Hmono & Hspec & Hinj); [done..|].
    split_and!; [done|cbn; lia|done| |].
    + intros [|i] j Hij; cbn in Hij; [done|]. by apply Hspec.
    + intros [|i] [|i'] j Hi Hi'; cbn in *; simplify_eq. f_equal. by eapply Hinj.
Qed.

Lemma same_kind_baseline_elem baseline k j :
  j ∈ same_kind_baseline baseline k <->
  exists b, baseline !! j = Some b /\ file_kind b = k.
Proof.
  unfold same_kind_baseline. rewrite list_elem_of_In, in_map_iff. split.
  - intros ([i b] & <- & Hin). apply filter_In in Hin as [Hin Hk].
    apply list_elem_of_In, elem_of_lookup_imap in Hin as (i' & b' & [= -> ->] & Hb).
    exists b'. split; [done|]. by apply String.eqb_eq in Hk.
  - intros (b & Hb & Hk). exists (j, b). split; [done|]. apply filter_In. split.
    + apply list_elem_of_In, elem_of_lookup_imap. by exists j, b.
    + cbn. by apply String.eqb_eq.
Qed.

(** A match by kind: the only rows of their kind on both sides. *)
Definition kind_match (current baseline : list SizeRow) (i j : nat) : Prop :=
  exists a b, current !! i = Some a /\ baseline !! j = Some b /\ file_kind a = file_kind b /\
    (forall j' b', baseline !! j' = Some b' -> file_kind b' = file_kind a -> j' = j) /\
    length (List.filter (fun o => String.eqb (file_kind o) (file_kind a)) current) = 1%nat.

Lemma match_kinds_spec used baseline all current m :
  length used = length baseline -> length m = length current ->
  let res := match_kinds used baseline all current m in
  length res = length current /\
  (forall i j, res !! i = Some (Some j) ->
     m !! i = Some (Some j) \/
     (m !! i = Some None /\ used !! j = Some false /\
      exists a b, current !! i = Some a /\ baseline !! j = Some b /\ file_kind a = file_kind b /\
        (forall j' b', baseline !! j' = Some b' -> file_kind b' = file_kind a -> j' = j) /\
        length (List.filter (fun o => String.eqb (file_kind o) (file_kind a)) all) = 1%nat)) /\
  (forall i j, m !! i = Some (Some j) -> res !! i = Some (Some j)) /\
  (forall i i' j, m !! i = Some None -> m !! i' = Some None ->
     res !! i = Some (Some j) -> res !! i' = Some (Some j) -> i = i').
Proof.
  revert used m. induction current as [|a rest IH]; intros used m Hu Hm; cbn.
  { destruct m; [|done]. by split_and!. }
  destruct m as [|[i0|] ms]; [done| |].
  - destruct (IH used ms) as (L & H1 & H2 & H3); [done|cbn in Hm; lia|].
    split_and!; [cbn; lia|intros [|i] j Hij..|]; cbn in *.
    + auto.
    + apply H1 in Hij. naive_solver.
    + done.
    + by apply H2.
    + intros [|i] [|i'] j; cbn; [done..|]. intros ? ? ? ?. f_equal. by eapply H3.
  - assert (Hskip : let res := None :: match_kinds used baseline all rest ms in
      length res = S (length rest) /\
      (forall i j, res !! i = Some (Some j) -> (None :: ms) !! i = Some (Some j) \/
        ((None :: ms) !! i = Some None /\ used !! j = Some false /\
         exists a0 b, (a :: rest) !! i = Some a0 /\ baseline !! j = Some b /\
           file_kind a0 = file_kind b /\
           (forall j' b', baseline !! j' = Some b' -> file_kind b' = file_kind a0 -> j' = j) /\
           length (List.filter (fun o => String.eqb (file_kind o) (file_kind a0)) all) = 1%nat)) /\
      (forall i j, (None :: ms) !! i = Some (Some j) -> res !! i = Some (Some j)) /\
      (forall i i' j, (None :: ms) !! i = Some None -> (None :: ms) !! i' = Some None ->
         res !! i = Some (Some j) -> res !! i' = Some (Some j) -> i = i')).
    { destruct (IH used ms) as (L & H1 & H2 & H3); [done|cbn in Hm; lia|].
      split_and!; [cbn; lia|intros [|i] j Hij..|]; cbn in *; [done|by apply H1 in Hij|done|by apply H2|].
      intros [|i] [|i'] j; cbn; [done..|]. intros ? ? ? ?. f_equal. by eapply H3. }
    destruct (same_kind_baseline baseline (file_kind a)) as [|only [|? ?]] eqn:Ek; [exact Hskip| |exact Hskip].
    destruct (List.filter _ all) as [|x [|? ?]] eqn:Ea; [exact Hskip| |exact Hskip].
    destruct (used !! only) as [[]|] eqn:Eu; cbn; [exact Hskip| |exact Hskip]. clear Hskip.
    assert (Honly : forall j' b', baseline !! j' = Some b' -> file_kind b' = file_kind a -> j' = only).
    { intros j' b' Hb' Hk. assert (Hj : j' ∈ same_kind_baseline baseline (file_kind a))
        by (apply same_kind_baseline_elem; eauto). rewrite Ek in Hj. set_solver. }
    destruct (proj1 (same_kind_baseline_elem baseline (file_kind a) only)) as (b & Hb & Hbk);
      [rewrite Ek; set_solver|].
    destruct (IH (<[only := true]> used) ms) as (L & H1 & H2 & H3);
      [by rewrite length_insert|cbn in Hm; lia|].
    assert (Hnew : forall i j, match_kinds (<[only := true]> used) baseline all rest ms !! i = Some (Some j) ->
      ms !! i = Some None -> j <> only /\ used !! j = Some false).
    { intros i j Hij Hn. apply H1 in Hij as [?|(_ & Hj & _)]; [congruence|].
      apply list_lookup_insert_Some in Hj. naive_solver. }
    split_and!; [cbn; lia|intros [|i] j Hij..|]; cbn in *.
    + injection Hij as <-. right. split_and!; [done..|]. exists a, b. by rewrite Ea.
    + destruct (H1 _ _ Hij) as [?|(Hn & _ & Hx)]; [by left|right].
      split_and!; [done|by apply (Hnew i j)|done].
    + done.
    + by apply H2.
    + intros [|i] [|i'] j; cbn; intros; simplify_eq; [done| | |].
      * by destruct (Hnew i' j) as [? _].
      * by destruct (Hnew i j) as [? _].
      * f_equal. by eapply H3.
Qed.

(**  Comparing a build's artifacts with a baseline: every artifact gets
    one row, in order; no baseline artifact is compared with two; and a pair
    has the same name, or is the only pair of its kind in the two builds. *)
Theorem compare_sizes_pairs (current baseline : list SizeRow) :
  length (compare_sizes current baseline) = length current /\
  (forall i j, matched current baseline !! i = Some (Some j) ->
     (exists a b, current !! i = Some a /\ baseline !! j = Some b /\ sr_name a = sr_name b) \/
     kind_match current baseline i j) /\
  (forall i i' j, matched current baseline !! i = Some (Some j) ->
     matched current baseline !! i' = Some (Some j) -> i = i') /\
  (forall i a c, current !! i = Some a -> compare_sizes current baseline !! i = Some c ->
     asc_delta_bytes c = (fun b => sr_size_bytes a - b) <$> asc_baseline_size_bytes c).
Proof.
  unfold compare_sizes, matched.
  destruct (match_names _ _ _) as [used m] eqn:Em.
  apply match_names_spec in Em as (Lu & Lm & _ & Hspec & Hinj); [|apply length_replicate].
  destruct (match_kinds_spec used baseline current current m) as (L & H1 & H2 & H3); [done..|].
  split_and!.
  - rewrite length_zip_with. lia.
  - intros i j Hij. destruct (H1 _ _ Hij) as [Hm|(_ & _ & Hk)]; [left|by right].
    by apply Hspec in Hm as (_ & _ & ?).
  - intros i i' j Hi Hi'. destruct (H1 _ _ Hi) as [Hm|(Hn & Hf & _)], (H1 _ _ Hi') as [Hm'|(Hn' & Hf' & _)].
    + by eapply Hinj.
    + apply Hspec in Hm as (_ & Ht & _). congruence.
    + apply Hspec in Hm' as (_ & Ht & _). congruence.
    + by eapply H3.
  - intros i a c Ha Hc. apply lookup_zip_with_Some in Hc as (a' & o & -> & Ha' & _).
    simplify_eq. cbn. by destruct (o ≫= _).
Qed.

(** What a budget without validation errors satisfies. *)
Definition rule_ok (r : SizeBudgetRule) : Prop :=
  valid_kind (kind r) = true /\ has_limit r = true /\
  (forall b, max_bytes r = Some b -> 0 < b) /\
  (forall b, max_increase_bytes r = Some b -> 0 <= b) /\
  (forall p, max_increase_percent r = Some p -> is_finite p = true /\ f64_lt p (f64_of_Z 0) = false).

Lemma when_nil c e : when c e = [] <-> c = false.
Proof. by destruct c. Qed.

Lemma validate_rules_nil field seen rs :
  validate_rules field seen rs = [] <->
  Forall rule_ok rs /\ NoDup (map kind rs) /\ (forall r, r ∈ rs -> kind r ∉ seen).
Proof.
  revert seen. induction rs as [|r rs IH]; intros seen; cbn.
  { split; [|done]. intros _. split_and!; [constructor..|set_solver]. }
  destruct (valid_kind (kind r)) eqn:Ek; cbn.
  2: { split; [done|]. intros (Hf & _). apply Forall_cons in Hf as [[? _] _]. congruence. }
  rewrite !app_nil, !when_nil, IH, Forall_cons, NoDup_cons.
  assert (Hs : existsb (String.eqb (kind r)) seen = false <-> kind r ∉ seen).
  { rewrite <- not_true_iff_false, existsb_exists. split.
    - intros Hn Hin. apply Hn. exists (kind r). by rewrite String.eqb_refl, <- list_elem_of_In.
    - intros Hn (x & Hx & Hk%String.eqb_eq). apply Hn. rewrite Hk. by apply list_elem_of_In. }
  assert (Hr : rule_ok r <-> negb (has_limit r) = false /\
    match max_bytes r with Some b => b <=? 0 | None => false end = false /\
    match max_increase_bytes r with Some b => b <? 0 | None => false end = false /\
    match max_increase_percent r with
    | Some p => negb (is_finite p) || f64_lt p (f64_of_Z 0) | None => false end = false).
  { unfold rule_ok. rewrite negb_false_iff.
    destruct (max_bytes r), (max_increase_bytes r), (max_increase_percent r);
      rewrite ?Z.leb_gt, ?Z.ltb_ge, ?orb_false_iff, ?negb_false_iff; naive_solver. }
  rewrite Hs, Hr. split.
  - intros (Hk & ? & ? & ? & ? & Hf & Hn & Hd). split_and!; try done.
    + intros Hin. apply list_elem_of_In, in_map_iff in Hin as (r' & He & Hin').
      apply list_elem_of_In, Hd in Hin'. set_solver.
    + intros r' [->|Hr']%elem_of_cons; [done|]. apply Hd in Hr'. set_solver.
  - intros (((?&?&?&?) & Hf) & [Hni Hn] & Hd). split_and!; try done.
    + apply Hd. set_solver.
    + intros r' Hr'. apply not_elem_of_cons. split; [|apply Hd; set_solver].
      intros He. apply Hni. apply list_elem_of_In, in_map_iff. exists r'.
      by rewrite <- list_elem_of_In.
Qed.

(** The budgets kept, one step at a time. *)
Definition kept_ok (b : TargetSizeBudget) : Prop :=
  validate_at (tsb_budget b) (tsb_source b) = [] /\ trim (tsb_source b) <> ""%string.

Lemma budget_source_not_blank s : trim (budget_source s) <> ""%string.
Proof.
  unfold budget_source. set (x := text _).
  destruct (is_empty (trim x)) eqn:E; [by vm_compute|]. intros H. by rewrite H in E.
Qed.

Lemma keep_budgets_spec kept budgets :
  NoDup (map tsb_platform kept) -> Forall kept_ok kept ->
  let res := keep_budgets kept budgets in
  NoDup (map tsb_platform res) /\ Forall kept_ok res /\
  (forall b, b ∈ res -> b ∈ kept \/ exists b0, b0 ∈ budgets /\ tsb_platform b0 = tsb_platform b /\
     tsb_budget b0 = tsb_budget b /\ tsb_source b = budget_source (tsb_source b0)).
Proof.
  revert kept. induction budgets as [|b0 rest IH]; intros kept Hn Hf; cbn.
  { split_and!; auto. }
  assert (Hskip : let res := keep_budgets kept rest in
    NoDup (map tsb_platform res) /\ Forall kept_ok res /\
    (forall b, b ∈ res -> b ∈ kept \/ exists b1, b1 ∈ b0 :: rest /\ tsb_platform b1 = tsb_platform b /\
       tsb_budget b1 = tsb_budget b /\ tsb_source b = budget_source (tsb_source b1))).
  { destruct (IH kept Hn Hf) as (H1 & H2 & H3). split_and!; [done..|].
    intros b Hb. apply H3 in Hb as [?|(b1 & ? & ?)]; [by left|right]. exists b1. set_solver. }
  case_bool_decide as Hv; cbn; [|exact Hskip].
  destruct (existsb _ kept) eqn:Es; [exact Hskip|]. clear Hskip.
  set (nb := {| tsb_platform := tsb_platform b0; tsb_source := _; tsb_budget := _ |}).
  destruct (IH (kept ++ [nb])) as (H1 & H2 & H3).
  - rewrite map_app. apply NoDup_app. split_and!; [done| |apply NoDup_singleton].
    intros x Hx Hx'. apply list_elem_of_In, in_map_iff in Hx as (b1 & <- & Hb1).
    apply not_true_iff_false in Es. apply Es, existsb_exists. exists b1. split; [done|].
    apply bool_decide_eq_true. set_solver.
  - apply Forall_app. split; [done|]. apply Forall_singleton. split; [done|].
    apply budget_source_not_blank.
  - split_and!; [done..|]. intros b Hb. apply H3 in Hb as [Hb|(b1 & ? & ?)].
    + apply elem_of_app in Hb as [?|Hnb%list_elem_of_singleton]; [by left|right; subst b].
      exists b0. set_solver.
    + right. exists b1. set_solver.
Qed.

(**  The budgets kept of what a runner reports: at most one per platform;
    each with a source that is not blank; each valid, that is with at most
    twenty rules, of distinct well-formed kinds, each with a limit, no limit
    negative, no zero size limit and no percentage that is infinite or not a
    number; and each one the runner sent. *)
Theorem checked_budgets_ok (budgets : list TargetSizeBudget) :
  let kept := checked_file_size_budgets budgets in
  NoDup (map tsb_platform kept) /\
  forall b, b ∈ kept ->
    trim (tsb_source b) <> ""%string /\
    Z.of_nat (length (rules (tsb_budget b))) <= MAX_RULES /\
    Forall rule_ok (rules (tsb_budget b)) /\
    NoDup (map kind (rules (tsb_budget b))) /\
    exists b0, b0 ∈ budgets /\ tsb_platform b0 = tsb_platform b /\ tsb_budget b0 = tsb_budget b.
Proof.
  intros kept. destruct (keep_budgets_spec [] budgets) as (Hn & Hf & Hsrc); [constructor..|].
  split; [done|]. intros b Hb. rewrite Forall_forall in Hf. destruct (Hf b Hb) as [Hv Ht].
  unfold validate_at in Hv. apply app_nil in Hv as [Hl%when_nil Hr%validate_rules_nil].
  apply Z.ltb_ge in Hl. destruct Hr as (? & ? & _). split_and!; [done..|].
  apply Hsrc in Hb as [?%elem_of_nil|(b0 & ? & ? & ? & _)]; [done|]. by exists b0.
Qed.
