(* ===== verification/Patterns.v ===== *)
(** * Glob patterns: trigger filters, artifact patterns, changed paths

    Models the matchers of [crates/oore-contract/src/lib.rs]: the backtracking
    loop of [TriggerConfig::glob_match_inner] and of
    [artifact_pattern_matches::segment_matches], the [**] path matcher, the
    pattern validators, and the trigger decisions built on them.  The loop is
    shown to terminate and to decide the textbook meaning of [*] and [?]. *)

From S2P Require Import Prelude RustStr.
From Stdlib Require Import Ascii.

Local Open Scope nat_scope.

(** ** The backtracking loop *)

Module Glob.

Definition star_byte : ascii := "*".
Definition any_byte : ascii := "?".

(** The loop variables [(pi, vi, star_pi, star_vi)], or [(p, v, star, retry)]
    in [segment_matches].  [None] is [star_pi == usize::MAX]: no index of a
    slice is [usize::MAX]. *)
Record gstate := GState { g_p : nat; g_v : nat; g_star : option nat; g_retry : nat }.

Definition g_init : gstate := GState 0 0 None 0.

(** One iteration of [while vi < value.len()]: the next state, or [None] for
    [return false]. *)
Definition glob_step (pattern value : list ascii) (st : gstate) : option gstate :=
  let pc := pattern !! g_p st in
  let vc := value !! g_v st in
  if bool_decide (pc = Some any_byte) || (bool_decide (is_Some pc) && bool_decide (pc = vc)) then
    Some (GState (S (g_p st)) (S (g_v st)) (g_star st) (g_retry st))
  else if bool_decide (pc = Some star_byte) then
    Some (GState (S (g_p st)) (g_v st) (Some (g_p st)) (g_v st))
  else match g_star st with
       | Some s => Some (GState (S s) (S (g_retry st)) (Some s) (S (g_retry st)))
       | None => None
       end.

(** [while p < pattern.len() && pattern\[p\] == b'*' { p += 1 } p == pattern.len()]. *)
Definition only_stars (pattern : list ascii) : bool :=
  forallb (Ascii.eqb star_byte) pattern.

Fixpoint glob_loop (pattern value : list ascii) (fuel : nat) (st : gstate) : option bool :=
  match fuel with
  | O => None
  | S fuel' =>
      if decide (g_v st < length value) then
        match glob_step pattern value st with
        | Some st' => glob_loop pattern value fuel' st'
        | None => Some false
        end
      else Some (only_stars (drop (g_p st) pattern))
  end.

(** Iterations the loop may take; [glob_loop_total] shows they are enough. *)
Definition glob_fuel (pattern value : list ascii) : nat :=
  S ((length value + 1) * (length value + length pattern + 2)
     + length value + length pattern).

(** [TriggerConfig::glob_match_inner]. *)
Definition glob_match_inner (pattern value : list ascii) : bool :=
  default false (glob_loop pattern value (glob_fuel pattern value) g_init).

(** [TriggerConfig::glob_match]. *)
Definition glob_match (pattern value : string) : bool :=
  glob_match_inner (bytes pattern) (bytes value).

(** [artifact_pattern_matches::segment_matches]: the same loop. *)
Definition segment_matches (pattern value : list ascii) : bool :=
  default false (glob_loop pattern value (glob_fuel pattern value) g_init).

(** ** The meaning of a pattern *)

Fixpoint suffixes (v : list ascii) : list (list ascii) :=
  v :: match v with [] => [] | _ :: v' => suffixes v' end.

(** [*] stands for any bytes, [?] for one byte, any other byte for itself. *)
Fixpoint glob_ref (p v : list ascii) : bool :=
  match p with
  | [] => match v with [] => true | _ => false end
  | c :: p' =>
      if Ascii.eqb c star_byte then existsb (glob_ref p') (suffixes v)
      else match v with
           | [] => false
           | d :: v' => (Ascii.eqb c any_byte || Ascii.eqb c d) && glob_ref p' v'
           end
  end.

Lemma suffixes_spec v w : In w (suffixes v) <-> exists k, k <= length v /\ w = drop k v.
Proof.
  induction v as [|a v IH]; cbn.
  - split; [intros [<-|[]]; by exists 0|intros (k & _ & ->); left; by rewrite drop_nil].
  - rewrite IH. split.
    + intros [<-|(k & Hk & ->)]; [exists 0; split; [lia|done]|].
      exists (S k). split; [lia|done].
    + intros ([|k] & Hk & ->); [by left|right]. exists k. split; [lia|done].
Qed.

Lemma glob_ref_star p v :
  glob_ref (star_byte :: p) v = true <-> exists k, k <= length v /\ glob_ref p (drop k v) = true.
Proof.
  change (existsb (glob_ref p) (suffixes v) = true <->
          exists k, k <= length v /\ glob_ref p (drop k v) = true).
  rewrite existsb_exists. setoid_rewrite suffixes_spec. naive_solver.
Qed.

Lemma glob_ref_cons c p d v :
  c <> star_byte ->
  glob_ref (c :: p) (d :: v) = (Ascii.eqb c any_byte || Ascii.eqb c d) && glob_ref p v.
Proof. intros Hc. cbn [glob_ref]. apply Ascii.eqb_neq in Hc. by rewrite Hc. Qed.

Lemma glob_ref_nil p : glob_ref p [] = only_stars p.
Proof.
  induction p as [|c p IH]; [done|]. cbn [glob_ref only_stars forallb suffixes existsb].
  rewrite (Ascii.eqb_sym star_byte c). destruct (Ascii.eqb c star_byte); [|done].
  cbn. by rewrite orb_false_r.
Qed.

(** A star absorbs any bytes in front of what it matched. *)
Lemma glob_ref_star_drop p v j :
  glob_ref (star_byte :: p) (drop j v) = true -> glob_ref (star_byte :: p) v = true.
Proof.
  rewrite !glob_ref_star. intros (k & Hk & H). rewrite length_drop in Hk.
  destruct (decide (j <= length v)).
  - exists (j + k). rewrite <- drop_drop. split; [lia|done].
  - rewrite drop_drop, (drop_ge v (j + k)) in H by lia.
    exists (length v). by rewrite drop_all.
Qed.

(** A star-free prefix of a pattern consumes exactly its length. *)
Lemma glob_ref_seg seg p v :
  Forall (fun c => c <> star_byte) seg -> glob_ref (seg ++ p) v = true ->
  length seg <= length v /\ glob_ref p (drop (length seg) v) = true.
Proof.
  revert v; induction seg as [|c seg IH]; intros v Hs; cbn [app length].
  - intros H. rewrite drop_0. split; [lia|done].
  - apply Forall_cons in Hs as [Hc Hs]. destruct v as [|d v].
    + cbn [glob_ref]. apply Ascii.eqb_neq in Hc. by rewrite Hc.
    + rewrite glob_ref_cons by done. intros [_ H]%andb_true_iff.
      apply IH in H as [Hl H]; [|done]. cbn. split; [lia|done].
Qed.

(** ** Termination *)

(** The loop never looks outside the value and never loses its star. *)
Definition g_ok (pattern value : list ascii) (st : gstate) : Prop :=
  g_p st <= length pattern /\ g_v st <= length value /\
  match g_star st with
  | Some s => s < g_p st /\ g_retry st <= g_v st
  | None => True
  end.

Definition g_measure (pattern value : list ascii) (st : gstate) : nat :=
  (match g_star st with
   | Some _ => length value - g_retry st
   | None => length value + 1
   end) * (length value + length pattern + 2)
  + (length value - g_v st) + (length pattern - g_p st).

(** The three ways an iteration goes on. *)
Lemma glob_step_inv pattern value st st' :
  g_v st < length value ->
  glob_step pattern value st = Some st' ->
  (exists c d, pattern !! g_p st = Some c /\ value !! g_v st = Some d /\
     (c = any_byte \/ c = d) /\
     st' = GState (S (g_p st)) (S (g_v st)) (g_star st) (g_retry st)) \/
  (pattern !! g_p st = Some star_byte /\
     st' = GState (S (g_p st)) (g_v st) (Some (g_p st)) (g_v st)) \/
  (exists s, g_star st = Some s /\
     (forall c, pattern !! g_p st = Some c ->
        c <> star_byte /\ c <> any_byte /\ value !! g_v st <> Some c) /\
     st' = GState (S s) (S (g_retry st)) (Some s) (S (g_retry st))).
Proof.
  intros Hv. destruct (lookup_lt_is_Some_2 value (g_v st) Hv) as [d Hd].
  unfold glob_step. rewrite Hd.
  destruct (pattern !! g_p st) as [c|] eqn:Hp.
  - destruct (bool_decide (Some c = Some any_byte)) eqn:E1; cbn [orb].
    { apply bool_decide_eq_true in E1. intros [= <-]. left. naive_solver. }
    apply bool_decide_eq_false in E1.
    rewrite (bool_decide_true (is_Some (Some c))) by eauto. cbn [andb].
    destruct (bool_decide (Some c = Some d)) eqn:E2.
    { apply bool_decide_eq_true in E2. intros [= <-]. left. naive_solver. }
    apply bool_decide_eq_false in E2.
    destruct (bool_decide (Some c = Some star_byte)) eqn:E3.
    { apply bool_decide_eq_true in E3. intros [= <-]. right; left. naive_solver. }
    apply bool_decide_eq_false in E3.
    destruct (g_star st) as [s|]; [|done]. intros [= <-]. right; right.
    exists s. split_and!; [done| |done]. intros c' [= <-]. naive_solver.
  - rewrite !bool_decide_false by (by try intros [? ?]). cbn.
    destruct (g_star st) as [s|]; [|done]. intros [= <-]. right; right.
    exists s. split_and!; [done|done|done].
Qed.

Lemma glob_step_ok pattern value st st' :
  g_ok pattern value st -> g_v st < length value ->
  glob_step pattern value st = Some st' ->
  g_ok pattern value st' /\ g_measure pattern value st' < g_measure pattern value st.
Proof.
  intros (Hp & Hv & Hs) Hlt Hstep. unfold g_ok, g_measure.
  apply glob_step_inv in Hstep as
    [(c & d & Hc & Hd & _ & ->)|[(Hc & ->)|(s & Es & _ & ->)]]; [..|done]; cbn.
  - apply lookup_lt_Some in Hc. destruct (g_star st); split_and!; try done; lia.
  - apply lookup_lt_Some in Hc. split_and!; try lia.
    destruct (g_star st) as [s|]; nia.
  - rewrite Es in *. split_and!; try lia. nia.
Qed.

(** Enough fuel for the measure is enough for an answer. *)
Lemma glob_loop_fuel pattern value fuel st :
  g_ok pattern value st -> g_measure pattern value st < fuel ->
  exists b, glob_loop pattern value fuel st = Some b.
Proof.
  revert st; induction fuel as [|fuel IH]; intros st Hok Hm; [lia|]. cbn.
  destruct (decide _) as [Hlt|]; [|eauto].
  destruct (glob_step pattern value st) as [st'|] eqn:E; [|eauto].
  apply glob_step_ok in E as [Hok' Hm']; [|done..]. apply IH; [done|lia].
Qed.

Lemma g_init_ok pattern value : g_ok pattern value g_init.
Proof. unfold g_ok; cbn; split_and!; (lia || done). Qed.

Lemma glob_loop_total pattern value :
  exists b, glob_loop pattern value (glob_fuel pattern value) g_init = Some b.
Proof.
  apply glob_loop_fuel; [apply g_init_ok|]. unfold g_measure, glob_fuel; cbn. lia.
Qed.

(** ** Correctness *)

(** What remains to be decided: the current position, or a later retry of the
    last star. *)
Definition g_alt (pattern value : list ascii) (st : gstate) : Prop :=
  exists s k, g_star st = Some s /\ g_retry st < k <= length value /\
    glob_ref (drop (S s) pattern) (drop k value) = true.

Definition g_inv (pattern value : list ascii) (st : gstate) : Prop :=
  g_ok pattern value st /\
  (forall s, g_star st = Some s ->
     g_p st - S s = g_v st - g_retry st /\
     Forall (fun c => c <> star_byte) (take (g_p st - S s) (drop (S s) pattern))) /\
  (glob_ref pattern value = true <->
     glob_ref (drop (g_p st) pattern) (drop (g_v st) value) = true \/ g_alt pattern value st).

(** The pattern from the star on: the star-free part already matched, then the
    part at the cursor. *)
Lemma g_seg_split (pattern : list ascii) s p :
  S s <= p -> drop (S s) pattern = take (p - S s) (drop (S s) pattern) ++ drop p pattern.
Proof.
  intros Hle. rewrite <- (take_drop (p - S s) (drop (S s) pattern)) at 1. f_equal.
  rewrite drop_drop. f_equal. lia.
Qed.

(** A retry of the last star also matches what is left at the cursor, further
    along in the value. *)
Lemma g_alt_cursor pattern value st :
  g_inv pattern value st -> g_alt pattern value st ->
  exists j, g_v st < j <= length value /\
    glob_ref (drop (g_p st) pattern) (drop j value) = true.
Proof.
  intros ((Hp & Hv & Hok) & Hseg & _) (s & k & Es & Hk & Href).
  rewrite Es in Hok. destruct (Hseg s Es) as [Hlen Hfree].
  rewrite (g_seg_split pattern s (g_p st)) in Href by lia.
  apply glob_ref_seg in Href as [Hle Href]; [|done].
  assert (Hl : length (take (g_p st - S s) (drop (S s) pattern)) = g_p st - S s).
  { rewrite length_take, length_drop. lia. }
  rewrite Hl, drop_drop in *. rewrite length_drop in Hle.
  exists (k + (g_p st - S s)). split; [lia|done].
Qed.

Lemma drop_cons_lookup {A} (l : list A) i x : l !! i = Some x -> drop i l = x :: drop (S i) l.
Proof. intros H. by apply drop_S. Qed.

(** A star is never both a pattern byte and a value byte. *)
Definition no_clash (pattern value : list ascii) : Prop :=
  In star_byte pattern -> In star_byte value -> False.

Lemma g_step_match pattern value st c d :
  no_clash pattern value -> g_inv pattern value st ->
  pattern !! g_p st = Some c -> value !! g_v st = Some d -> c = any_byte \/ c = d ->
  g_inv pattern value (GState (S (g_p st)) (S (g_v st)) (g_star st) (g_retry st)).
Proof.
  intros Hns (Hok & Hseg & Hiff) Hc Hd Hm.
  assert (Hcs : c <> star_byte).
  { destruct Hm as [->| ->]; [done|]. intros ->.
    apply Hns; apply list_elem_of_In; by eapply list_elem_of_lookup_2. }
  pose proof (lookup_lt_Some _ _ _ Hc). pose proof (lookup_lt_Some _ _ _ Hd).
  destruct Hok as (Hp & Hv & Hs). split_and!.
  - unfold g_ok; cbn. destruct (g_star st); split_and!; try done; lia.
  - cbn [g_p g_v g_star g_retry]. intros s Es. destruct (Hseg s Es) as [Hlen Hfree]. rewrite Es in Hs.
    split; [lia|]. replace (S (g_p st) - S s) with (S (g_p st - S s)) by lia.
    erewrite take_S_r; [apply Forall_app; split; [done|by constructor]|].
    rewrite lookup_drop. replace (S s + (g_p st - S s)) with (g_p st) by lia. done.
  - rewrite Hiff. unfold g_alt; cbn [g_p g_v g_star g_retry].
    rewrite (drop_cons_lookup pattern _ _ Hc), (drop_cons_lookup value _ _ Hd).
    rewrite glob_ref_cons by done.
    replace (Ascii.eqb c any_byte || Ascii.eqb c d) with true; [done|].
    destruct Hm as [->| ->]; rewrite Ascii.eqb_refl; [done|]. by rewrite orb_true_r.
Qed.

Lemma g_step_star pattern value st :
  g_inv pattern value st -> pattern !! g_p st = Some star_byte ->
  g_inv pattern value (GState (S (g_p st)) (g_v st) (Some (g_p st)) (g_v st)).
Proof.
  intros Hinv Hc. pose proof (lookup_lt_Some _ _ _ Hc) as Hplt.
  pose proof (g_alt_cursor pattern value st Hinv) as Halt.
  destruct Hinv as ((Hp & Hv & Hs) & Hseg & Hiff). split_and!.
  - unfold g_ok; cbn; lia.
  - cbn [g_p g_v g_star g_retry]. intros s [= <-]. split; [lia|]. by rewrite Nat.sub_diag.
  - rewrite Hiff. unfold g_alt at 2; cbn [g_p g_v g_star g_retry].
    rewrite (drop_cons_lookup pattern _ _ Hc) in Halt |- *.
    rewrite glob_ref_star. split.
    + intros [(k & Hk & H)|H].
      * rewrite length_drop, drop_drop in *. destruct k as [|k].
        { left. by rewrite Nat.add_0_r in H. }
        right. exists (g_p st), (g_v st + S k). split_and!; [done|lia|lia|done].
      * apply Halt in H as (j & Hj & H).
        replace j with (g_v st + (j - g_v st)) in H by lia.
        rewrite <- drop_drop in H. apply glob_ref_star_drop, glob_ref_star in H.
        destruct H as (k & Hk & H). rewrite length_drop, drop_drop in *.
        destruct k as [|k]; [left; by rewrite Nat.add_0_r in H|].
        right. exists (g_p st), (g_v st + S k). split_and!; [done|lia|lia|done].
    + intros [H|(s & k & [= <-] & Hk & H)].
      * left. exists 0. rewrite drop_0. split; [lia|done].
      * left. exists (k - g_v st). rewrite length_drop, drop_drop.
        replace (g_v st + (k - g_v st)) with k by lia. split; [lia|done].
Qed.

Lemma g_step_retry pattern value st s :
  g_inv pattern value st -> g_v st < length value -> g_star st = Some s ->
  (forall c, pattern !! g_p st = Some c ->
     c <> star_byte /\ c <> any_byte /\ value !! g_v st <> Some c) ->
  g_inv pattern value (GState (S s) (S (g_retry st)) (Some s) (S (g_retry st))).
Proof.
  intros ((Hp & Hv & Hs) & Hseg & Hiff) Hlt Es Hmis. rewrite Es in Hs. split_and!.
  - unfold g_ok; cbn; lia.
  - cbn [g_p g_v g_star g_retry]. intros s' [= <-]. split; [lia|]. by rewrite Nat.sub_diag.
  - rewrite Hiff. clear Hiff. destruct (lookup_lt_is_Some_2 value _ Hlt) as [d Hd].
    assert (Hno : glob_ref (drop (g_p st) pattern) (drop (g_v st) value) = false).
    { rewrite (drop_cons_lookup value _ _ Hd).
      destruct (pattern !! g_p st) as [c|] eqn:Hc.
      - rewrite (drop_cons_lookup pattern _ _ Hc).
        destruct (Hmis c eq_refl) as (H1 & H2 & H3). rewrite glob_ref_cons by done.
        apply Ascii.eqb_neq in H2. rewrite H2.
        assert (H4 : Ascii.eqb c d = false) by (apply Ascii.eqb_neq; congruence).
        by rewrite H4.
      - apply lookup_ge_None in Hc. by rewrite drop_ge. }
    rewrite Hno. unfold g_alt. cbn [g_p g_v g_star g_retry]. rewrite Es. split.
    + intros [?|(s' & k & [= <-] & Hk & H)]; [done|].
      destruct (decide (k = S (g_retry st))) as [->|]; [by left|].
      right. exists s, k. split_and!; [done|lia|lia|done].
    + intros [H|(s' & k & [= <-] & Hk & H)]; right.
      * exists s, (S (g_retry st)). split_and!; [done|lia|lia|done].
      * exists s, k. split_and!; [done|lia|lia|done].
Qed.

Lemma g_step_fail pattern value st :
  g_inv pattern value st -> g_v st < length value ->
  glob_step pattern value st = None -> glob_ref pattern value = false.
Proof.
  intros ((Hp & Hv & Hs) & Hseg & Hiff) Hlt Hstep.
  destruct (lookup_lt_is_Some_2 value _ Hlt) as [d Hd].
  apply not_true_iff_false. rewrite Hiff. intros [H|(s & k & Es & _)].
  - unfold glob_step in Hstep. rewrite Hd in Hstep.
    rewrite (drop_cons_lookup value _ _ Hd) in H.
    destruct (pattern !! g_p st) as [c|] eqn:Hc.
    + rewrite (drop_cons_lookup pattern _ _ Hc) in H.
      repeat (case_bool_decide; cbn in Hstep; try done).
      rewrite glob_ref_cons in H by congruence.
      apply andb_true_iff in H as [[H|H]%orb_true_iff _]; apply Ascii.eqb_eq in H;
        subst; naive_solver.
    + apply lookup_ge_None in Hc. by rewrite drop_ge in H.
  - unfold glob_step in Hstep. rewrite Es in Hstep.
    repeat case_match; discriminate.
Qed.

Lemma g_step_end pattern value st :
  g_inv pattern value st -> length value <= g_v st ->
  only_stars (drop (g_p st) pattern) = glob_ref pattern value.
Proof.
  intros Hinv Hge. pose proof (g_alt_cursor pattern value st Hinv) as Halt.
  destruct Hinv as ((Hp & Hv & Hs) & Hseg & Hiff).
  apply eq_true_iff_eq. rewrite Hiff, <- glob_ref_nil.
  rewrite (drop_ge value) by lia. split; [by left|]. intros [H|H]; [done|].
  apply Halt in H as (j & Hj & _). lia.
Qed.

Lemma glob_loop_ref pattern value fuel st b :
  no_clash pattern value -> g_inv pattern value st ->
  glob_loop pattern value fuel st = Some b -> b = glob_ref pattern value.
Proof.
  intros Hns. revert st; induction fuel as [|fuel IH]; intros st Hinv; cbn; [done|].
  destruct (decide _) as [Hlt|Hge].
  - destruct (glob_step pattern value st) as [st'|] eqn:E.
    + apply IH. pose proof E as E'.
      apply glob_step_inv in E' as
        [(c & d & Hc & Hd & Hm & ->)|[(Hc & ->)|(s & Es & Hmis & ->)]]; [..|done].
      * by eapply g_step_match.
      * by apply g_step_star.
      * by apply g_step_retry.
    + intros [= <-]. symmetry. by eapply g_step_fail.
  - intros [= <-]. apply g_step_end; [done|lia].
Qed.

Lemma g_init_inv pattern value : g_inv pattern value g_init.
Proof.
  split_and!; [apply g_init_ok|done|]. cbn. rewrite !drop_0. unfold g_alt; cbn.
  split; [by left|]. intros [?|(s & k & ? & _)]; done.
Qed.

Lemma segment_matches_ref pattern value :
  no_clash pattern value -> segment_matches pattern value = glob_ref pattern value.
Proof.
  intros Hns. unfold segment_matches. destruct (glob_loop_total pattern value) as [b Hb].
  rewrite Hb. cbn. eapply glob_loop_ref; [done|apply g_init_inv|done].
Qed.

Lemma glob_match_inner_segment pattern value :
  glob_match_inner pattern value = segment_matches pattern value.
Proof. reflexivity. Qed.

(** A pattern without wildcards matches itself only. *)
Lemma glob_ref_literal p v :
  ~ In star_byte p -> ~ In any_byte p -> glob_ref p v = true <-> p = v.
Proof.
  revert v; induction p as [|c p IH]; intros v Hs Ha; [by destruct v|].
  destruct v as [|d v].
  - cbn. destruct (Ascii.eqb_spec c star_byte) as [->|]; [|done].
    destruct Hs. by left.
  - rewrite glob_ref_cons by (intros ->; apply Hs; by left).
    destruct (Ascii.eqb_spec c any_byte) as [->|Hne]; [destruct Ha; by left|]. cbn.
    rewrite andb_true_iff, Ascii.eqb_eq, IH by (intros ?; first [by apply Hs; right|by apply Ha; right]).
    naive_solver.
Qed.

(** C39:  Both copies of the glob loop terminate within [glob_fuel] iterations
    and decide the meaning of the pattern ([*] any bytes, [?] one byte), as
    long as the value holds no literal [*] where the pattern has one. *)
Theorem glob_loop_correct pattern value :
  no_clash pattern value ->
  glob_loop pattern value (glob_fuel pattern value) g_init = Some (glob_ref pattern value) /\
  glob_match_inner pattern value = glob_ref pattern value /\
  segment_matches pattern value = glob_ref pattern value.
Proof.
  intros Hns. pose proof (segment_matches_ref pattern value Hns) as Hseg.
  split_and!; [|by rewrite glob_match_inner_segment|done].
  destruct (glob_loop_total pattern value) as [b Hb]. unfold segment_matches in Hseg.
  rewrite Hb in *. cbn in Hseg. by subst.
Qed.

Lemma glob_loop_correct_witness :
  no_clash (bytes "rel*e-?.x") (bytes "release-2.x") /\
  glob_match_inner (bytes "rel*e-?.x") (bytes "release-2.x") = true.
Proof.
  assert (H : no_clash (bytes "rel*e-?.x") (bytes "release-2.x")).
  { intros _. cbn. intuition discriminate. }
  split; [exact H|].
  destruct (glob_loop_correct _ _ H) as (_ & -> & _). vm_compute. reflexivity.
Defined.

End Glob.

(** ** Artifact patterns and changed paths *)

Module Paths.
Import Glob.

Definition slash : ascii := "/".
Definition backslash : ascii := "\".

(** [artifact_pattern_matches::path_matches].  The recursive call on
    [(pattern, &path\[1..\])] of a [**] pattern is the inner loop. *)
Fixpoint path_matches (pattern path : list string) : bool :=
  match pattern with
  | [] => match path with [] => true | _ => false end
  | segment :: rest =>
      if String.eqb segment "**" then
        (fix spans (path : list string) : bool :=
           path_matches rest path ||
           match path with [] => false | _ :: path' => spans path' end) path
      else
        match path with
        | [] => false
        | name :: path' =>
            segment_matches (bytes segment) (bytes name) && path_matches rest path'
        end
  end.

(** [artifact_pattern_matches]. *)
Definition artifact_pattern_matches (pattern relative_path : string) : bool :=
  let pattern := trim pattern in
  if negb (contains_char slash pattern) then
    match last (split_char slash relative_path) with
    | Some name => segment_matches (bytes pattern) (bytes name)
    | None => false
    end
  else path_matches (split_char slash pattern) (split_char slash relative_path).

(** [changed_path_matches]. *)
Definition changed_path_matches (pattern path : string) : bool :=
  let pattern := trim pattern in
  match strip_suffix_char slash pattern with
  | Some directory => artifact_pattern_matches (directory +:+ "/**") path
  | None => artifact_pattern_matches pattern path
  end.

Definition bad_segment (part : string) : bool :=
  is_empty part || String.eqb part "." || String.eqb part "..".

(** [validate_artifact_pattern]. *)
Definition validate_artifact_pattern (pattern : string) : result string unit :=
  let pattern := trim pattern in
  if is_empty pattern then Err "must not be empty"
  else if bool_decide (512 < str_len pattern)%Z then Err "is too long (max 512 chars)"
  else if negb (contains_char star_byte pattern || contains_char any_byte pattern) then
    Err "must contain '*' or '?'"
  else if contains_char backslash pattern || starts_with "/" pattern then
    Err "must be a workspace-relative path using '/' separators"
  else if existsb bad_segment (split_char slash pattern) then
    Err "must not contain empty, '.' or '..' path segments"
  else Ok tt.

(** [validate_repository_config_path]. *)
Definition validate_repository_config_path (path : string) : result string unit :=
  let path := trim path in
  if is_empty path then Err "must not be empty"
  else if bool_decide (512 < str_len path)%Z then Err "is too long (max 512 chars)"
  else if starts_with "/" path then Err "must be a repository-relative path"
  else if contains_char backslash path then Err "must use '/' separators"
  else if existsb bad_segment (split_char slash path) then
    Err "must not contain empty, '.' or '..' path segments"
  else Ok tt.

(** *** [**] *)

Lemma path_matches_spans rest path :
  path_matches ("**" :: rest) path = true <->
  exists k, k <= length path /\ path_matches rest (drop k path) = true.
Proof.
  induction path as [|x path IH].
  - cbn. rewrite orb_false_r. split; [intros H; by exists 0|].
    intros (k & _ & H). by rewrite drop_nil in H.
  - transitivity (path_matches rest (x :: path) = true \/
                  path_matches ("**" :: rest) path = true).
    { cbn [path_matches String.eqb]. rewrite <- orb_true_iff. done. }
    rewrite IH. split.
    + intros [H|(k & Hk & H)]; [exists 0; split; [lia|done]|].
      exists (S k). cbn. split; [lia|done].
    + intros ([|k] & Hk & H); [by left|]. right. exists k. cbn in *. split; [lia|done].
Qed.

(** A path whose segments hold no wildcard is matched by itself only. *)
Definition literal (s : string) : bool :=
  negb (contains_char star_byte s) && negb (contains_char any_byte s).

Lemma contains_char_In c s : contains_char c s = true <-> In c (bytes s).
Proof.
  unfold contains_char. rewrite existsb_exists. split.
  - intros (x & Hx & ->%Ascii.eqb_eq). done.
  - intros H. exists c. split; [done|apply Ascii.eqb_refl].
Qed.

Lemma contains_char_not_In c s : contains_char c s = false <-> ~ In c (bytes s).
Proof. rewrite <- contains_char_In. symmetry. apply not_true_iff_false. Qed.

Lemma segment_matches_literal s name :
  literal s = true -> segment_matches (bytes s) (bytes name) = bool_decide (s = name).
Proof.
  intros [Hs%negb_true_iff Ha%negb_true_iff]%andb_true_iff.
  rewrite contains_char_not_In in Hs, Ha.
  rewrite segment_matches_ref by (intros H; by destruct Hs).
  apply eq_true_iff_eq. rewrite glob_ref_literal by done. rewrite bool_decide_eq_true.
  split; [apply bytes_inj|congruence].
Qed.

(** The pieces of a literal text are literal. *)
Lemma split_char_literal c s :
  literal s = true -> Forall (fun w => literal w = true) (split_char c s).
Proof.
  unfold literal, contains_char, split_char. rewrite andb_true_iff, !negb_true_iff.
  induction (bytes s) as [|a l IH]; cbn; [by repeat constructor|].
  intros [[Ha1 Hl1]%orb_false_iff [Ha2 Hl2]%orb_false_iff].
  destruct (Ascii.eqb c a); cbn; [constructor; [done|by apply IH]|].
  specialize (IH (conj Hl1 Hl2)).
  destruct (split_l (Ascii.eqb c) l) as [|w ws]; cbn [map] in *.
  - constructor; [|done]. cbn. by rewrite Ha1, Ha2.
  - apply Forall_cons in IH as [Hw IH]. constructor; [|done].
    rewrite !bytes_text in Hw |- *. apply andb_true_iff in Hw as [?%negb_true_iff ?%negb_true_iff].
    cbn [existsb]. by rewrite Ha1, Ha2, H, H0.
Qed.

Lemma literal_not_spans s : literal s = true -> String.eqb s "**" = false.
Proof. intros H. apply String.eqb_neq. intros ->. discriminate H. Qed.

(** A literal directory followed by [**] matches exactly the paths whose
    segments start with the directory's. *)
Lemma path_matches_prefix dir path :
  Forall (fun w => literal w = true) dir ->
  path_matches (dir ++ ["**"]) path = true <-> exists rest, path = dir ++ rest.
Proof.
  revert path; induction dir as [|d dir IH]; intros path Hall.
  - cbn [app]. rewrite path_matches_spans. split; [eauto|intros _].
    exists (length path). rewrite drop_all. by split.
  - apply Forall_cons in Hall as [Hd Hall]. cbn [app path_matches].
    rewrite literal_not_spans by done. destruct path as [|x path].
    + split; [done|]. intros [rest Hr]. discriminate.
    + rewrite segment_matches_literal, andb_true_iff, bool_decide_eq_true, IH by done.
      split.
      * intros [<- [rest ->]]. by exists rest.
      * intros [rest [= <- ->]]. split; [done|]. by exists rest.
Qed.

Lemma split_char_app c s t :
  split_char c (s +:+ String c t) = split_char c s ++ split_char c t.
Proof.
  unfold split_char. rewrite bytes_app. cbn [bytes].
  induction (bytes s) as [|a l IH]; cbn [app split_l].
  - by rewrite Ascii.eqb_refl.
  - destruct (Ascii.eqb c a); cbn [map app]; [by rewrite IH|].
    destruct (split_l _ (l ++ _)) as [|w ws] eqn:E1; [by apply split_l_not_nil in E1|].
    destruct (split_l _ l) as [|w' ws'] eqn:E2; [by apply split_l_not_nil in E2|].
    cbn [map app] in *. injection IH as Hw Hws.
    rewrite Hws. f_equal. cbn. f_equal. done.
Qed.

Lemma strip_suffix_char_app c s : strip_suffix_char c (s +:+ String c "") = Some s.
Proof.
  unfold strip_suffix_char. rewrite bytes_app, rev_app_distr. cbn [bytes rev app].
  by rewrite Ascii.eqb_refl, rev_involutive, text_bytes.
Qed.

Lemma contains_slash_app s t : contains_char slash (s +:+ String slash t) = true.
Proof.
  apply contains_char_In. rewrite bytes_app. apply in_or_app. right. by left.
Qed.

(**  A changed-path pattern that ends in [/] and names a literal
    directory matches exactly the paths whose leading segments are the
    directory's: everything below it, and nothing beside it. *)
Theorem changed_path_matches_directory dir path :
  trim (dir +:+ "/") = dir +:+ "/" -> trim (dir +:+ "/**") = dir +:+ "/**" ->
  literal dir = true ->
  changed_path_matches (dir +:+ "/") path = true <->
  exists rest, split_char slash path = split_char slash dir ++ rest.
Proof.
  intros Ht1 Ht2 Hlit. unfold changed_path_matches. rewrite Ht1.
  change "/"%string with (String slash ""). change "/**"%string with (String slash "**") in *.
  rewrite (strip_suffix_char_app slash dir). unfold artifact_pattern_matches.
  rewrite Ht2, (contains_slash_app dir "**"). cbn [negb].
  rewrite (split_char_app slash dir "**").
  apply path_matches_prefix. by apply split_char_literal.
Qed.

Lemma changed_path_matches_directory_witness :
  changed_path_matches "apps/docs/" "apps/docs/a/b.md" = true /\
  changed_path_matches "apps/docs/" "apps/docs2/a.md" = false.
Proof.
  split.
  - apply (changed_path_matches_directory "apps/docs"); [vm_compute; reflexivity..|].
    exists ["a"; "b.md"]. vm_compute. reflexivity.
  - vm_compute. reflexivity.
Defined.

(** *** Accepted paths stay below the root *)

(** Lexical resolution of a relative path against a directory stack: [..]
    leaves a directory, [None] when it would leave the root. *)
Fixpoint resolve (stack : list string) (segments : list string) : option (list string) :=
  match segments with
  | [] => Some stack
  | s :: rest =>
      if String.eqb s ".." then
        match stack with [] => None | _ :: up => resolve up rest end
      else if String.eqb s "." || is_empty s then resolve stack rest
      else resolve (s :: stack) rest
  end.

Lemma resolve_good segments stack :
  existsb bad_segment segments = false ->
  resolve stack segments = Some (rev segments ++ stack).
Proof.
  revert stack; induction segments as [|s segments IH]; intros stack; [done|].
  cbn [existsb rev]. intros [[[He Hd]%orb_false_iff Hdd]%orb_false_iff Hrest]%orb_false_iff.
  cbn [resolve]. rewrite Hdd, Hd, He. cbn. rewrite IH by done. by rewrite <- app_assoc.
Qed.

Lemma validate_config_path_segments path :
  validate_repository_config_path path = Ok tt ->
  existsb bad_segment (split_char slash (trim path)) = false /\
  contains_char backslash (trim path) = false /\ (str_len (trim path) <= 512)%Z.
Proof.
  unfold validate_repository_config_path. intros H.
  repeat case_match; try discriminate. rewrite bool_decide_eq_false in *. split_and!; [done..|lia].
Qed.

Lemma validate_artifact_segments pattern :
  validate_artifact_pattern pattern = Ok tt ->
  existsb bad_segment (split_char slash (trim pattern)) = false /\
  contains_char backslash (trim pattern) = false /\ (str_len (trim pattern) <= 512)%Z.
Proof.
  unfold validate_artifact_pattern. intros H. repeat case_match; try discriminate.
  rewrite bool_decide_eq_false in *. rewrite orb_false_iff in *. naive_solver lia.
Qed.

(**  A configuration path or artifact pattern the validators accept
    resolves, against any directory, to that directory followed by all its
    segments: it never leaves the directory and drops nothing. *)
Theorem validated_path_stays_below path stack :
  validate_repository_config_path path = Ok tt \/ validate_artifact_pattern path = Ok tt ->
  resolve stack (split_char slash (trim path)) =
    Some (rev (split_char slash (trim path)) ++ stack).
Proof.
  intros [H%validate_config_path_segments|H%validate_artifact_segments];
    apply resolve_good, H.
Qed.

Lemma validated_path_stays_below_witness :
  validate_repository_config_path " ci/.oore.yaml " = Ok tt /\
  resolve ["repo"] (split_char slash (trim " ci/.oore.yaml "))
    = Some [".oore.yaml"; "ci"; "repo"].
Proof.
  assert (H : validate_repository_config_path " ci/.oore.yaml " = Ok tt)
    by (vm_compute; reflexivity).
  split; [exact H|].
  rewrite (validated_path_stays_below " ci/.oore.yaml " ["repo"] (or_introl H)).
  vm_compute. reflexivity.
Defined.

End Paths.
