(* ===== verification/Triggers.v ===== *)
(** * Trigger filters and approval policies

    [TriggerConfig], [ScheduleTrigger], [ApprovalPolicy] and [ConcurrencyPolicy]
    of [crates/oore-contract/src/lib.rs]: which webhook events start a build,
    and which builds wait for a maintainer. *)

From S2P Require Import Prelude RustStr Patterns.
From Stdlib Require Import Ascii.
Import Glob Paths.

Local Open Scope Z_scope.

#[local] Arguments glob_match _ _ : simpl never.
#[local] Arguments changed_path_matches _ _ : simpl never.

(** [struct ScheduleTrigger]. *)
Record ScheduleTrigger := {
  sched_cron : string;
  sched_branch : option string;
}.

(** [struct TriggerConfig]. *)
Record TriggerConfig := {
  events : list string;
  branches : list string;
  tags : list string;
  paths : list string;
  paths_ignore : list string;
  schedules : list ScheduleTrigger;
}.

(** [struct ConcurrencyPolicy]. *)
Record ConcurrencyPolicy := {
  cancel_previous : bool;
  max_concurrent : option Z;
}.

(** [struct ApprovalPolicy]. *)
Record ApprovalPolicy := {
  required : bool;
  ap_events : list string;
  expires_after_hours : option Z;
}.

(** [ApprovalPolicy::DEFAULT_EXPIRES_AFTER_HOURS]. *)
Definition DEFAULT_EXPIRES_AFTER_HOURS : Z := 7 * 24.

(** [ApprovalPolicy::applies_to]. *)
Definition applies_to (policy : ApprovalPolicy) (event : string) : bool :=
  required policy &&
  (bool_decide (ap_events policy = []) || existsb (String.eqb event) (ap_events policy)).

(** [TriggerConfig::has_path_filters]. *)
Definition has_path_filters (config : TriggerConfig) : bool :=
  negb (bool_decide (paths config = [])) || negb (bool_decide (paths_ignore config = [])).

Definition matches_any (patterns : list string) (file : string) : bool :=
  existsb (fun pattern => changed_path_matches pattern file) patterns.

(** [TriggerConfig::paths_match]. *)
Definition paths_match (config : TriggerConfig) (changed_files : option (list string)) : bool :=
  if bool_decide (paths config = []) && bool_decide (paths_ignore config = []) then true
  else match changed_files with
       | None => true
       | Some files =>
           existsb (fun file =>
             (bool_decide (paths config = []) || matches_any (paths config) file)
             && negb (matches_any (paths_ignore config) file)) files
       end.

(** ** The [on] of a repository file

    [TriggerSpec], [BranchTrigger] and [TriggerEvent] of
    [crates/oore-contract/src/pipeline_config.rs]. *)

(** [enum BranchTrigger]. *)
Inductive BranchTrigger : Set :=
  | Off
  | AllBranches
  | Branches (patterns : list string).

(** [enum TriggerEvent]. *)
Inductive TriggerEvent : Set :=
  | PushEvent (branch : string)
  | PullRequestEvent (target_branch : option string)
  | TagEvent (tag : string).

(** [struct TriggerSpec]. *)
Record TriggerSpec := {
  on_push : option BranchTrigger;
  on_pull_request : option BranchTrigger;
  on_tag : list string;
  on_paths : list string;
}.

(** [BranchTrigger::matches]. *)
Definition branch_trigger_matches (trigger : BranchTrigger) (branch : option string) : bool :=
  match trigger with
  | Off => false
  | AllBranches => true
  | Branches patterns =>
      match branch with
      | Some branch => existsb (fun pattern => glob_match (trim pattern) branch) patterns
      | None => false
      end
  end.

(** [TriggerSpec::matches_ref]. *)
Definition matches_ref (on : TriggerSpec) (event : TriggerEvent) : bool :=
  match event with
  | PushEvent branch =>
      match on_push on with Some push => branch_trigger_matches push (Some branch) | None => false end
  | PullRequestEvent target_branch =>
      match on_pull_request on with
      | Some pull_request => branch_trigger_matches pull_request target_branch
      | None => false
      end
  | TagEvent tag => existsb (fun pattern => glob_match (trim pattern) tag) (on_tag on)
  end.

(** [TriggerSpec::has_path_filters]. *)
Definition on_has_path_filters (on : TriggerSpec) : bool := negb (bool_decide (on_paths on = [])).

(** [TriggerSpec::paths_match]. *)
Definition on_paths_match (on : TriggerSpec) (changed_files : option (list string)) : bool :=
  if on_has_path_filters on then
    match changed_files with
    | Some files => existsb (matches_any (on_paths on)) files
    | None => true
    end
  else true.

Section should_trigger.
(** [str::to_lowercase]: Unicode lower-casing, ASCII lower-casing on ASCII. *)
Context (to_lowercase : string -> string).

(** [TriggerConfig::normalize_event]. *)
Definition normalize_event (event_type : string) : string :=
  if String.eqb event_type "Push Hook" then "push"
  else if String.eqb event_type "Merge Request Hook" then "pull_request"
  else if String.eqb event_type "Tag Push Hook" then "tag_push"
  else to_lowercase event_type.

(** [TriggerConfig::should_trigger]. *)
Definition should_trigger (config : TriggerConfig) (event_type : string)
    (branch tag : option string) : bool :=
  if negb (bool_decide (events config = [])) &&
     negb (existsb (fun e => String.eqb (normalize_event e) (normalize_event event_type))
             (events config))
  then false
  else if bool_decide (branches config = []) && bool_decide (tags config = []) then true
  else
    let '(patterns, reference) :=
      match tag with
      | Some tag => (tags config, Some tag)
      | None => (branches config, branch)
      end in
    match reference with
    | Some reference => existsb (fun pattern => glob_match pattern reference) patterns
    | None => false
    end.

(** An event passes the event filter. *)
Definition event_passes (config : TriggerConfig) (event_type : string) : Prop :=
  events config = [] \/
  exists e, In e (events config) /\ normalize_event e = normalize_event event_type.

(** A reference passes a filter list. *)
Definition ref_passes (patterns : list string) (reference : option string) : Prop :=
  exists p r, reference = Some r /\ In p patterns /\ glob_ref (bytes p) (bytes r) = true.

Lemma existsb_glob patterns r :
  contains_char star_byte r = false ->
  existsb (fun p => glob_match p r) patterns = true <->
  exists p, In p patterns /\ glob_ref (bytes p) (bytes r) = true.
Proof.
  intros Hr. apply contains_char_not_In in Hr. rewrite existsb_exists.
  unfold glob_match. setoid_rewrite glob_match_inner_segment.
  split; intros (p & Hp & H); exists p; split; try done;
    rewrite segment_matches_ref in * by (intros _; exact Hr); done.
Qed.

(**  A webhook event triggers exactly when its canonical event is listed
    (or none is), and either no ref filter is set or the ref of its own kind,
    tag against [tags] and branch against [branches], matches a pattern.  A
    tag event is never admitted by a branch filter, nor the reverse. *)
Theorem should_trigger_spec config event_type branch tag :
  (forall r, tag = Some r \/ branch = Some r -> contains_char star_byte r = false) ->
  should_trigger config event_type branch tag = true <->
  event_passes config event_type /\
  (branches config = [] /\ tags config = [] \/
   ref_passes (if tag then tags config else branches config) (if tag then tag else branch)).
Proof.
  intros Hns. unfold should_trigger, event_passes, ref_passes.
  set (listed := existsb _ (events config)).
  assert (Hl : listed = true <->
    exists e, In e (events config) /\ normalize_event e = normalize_event event_type).
  { subst listed. rewrite existsb_exists. setoid_rewrite String.eqb_eq. done. }
  assert (Hpass : negb (bool_decide (events config = [])) && negb listed = false <->
    events config = [] \/
    exists e, In e (events config) /\ normalize_event e = normalize_event event_type).
  { rewrite <- Hl. destruct listed; case_bool_decide; cbn; naive_solver. }
  destruct (negb (bool_decide (events config = [])) && negb listed) eqn:E.
  { split; [done|]. intros [H _]. apply Hpass in H. done. }
  assert (Hev : events config = [] \/
    exists e, In e (events config) /\ normalize_event e = normalize_event event_type)
    by (by apply Hpass).
  destruct (bool_decide (branches config = []) && bool_decide (tags config = [])) eqn:Eb.
  { apply andb_true_iff in Eb as [?%bool_decide_eq_true ?%bool_decide_eq_true].
    split; [|done]. intros _. split; [done|]. by left. }
  assert (Hnb : ~ (branches config = [] /\ tags config = [])).
  { intros [H1 H2]. rewrite !bool_decide_true in Eb by done. done. }
  destruct tag as [t|]; [|destruct branch as [b|]]; cbn.
  - rewrite existsb_glob by (apply Hns; by left). naive_solver.
  - rewrite existsb_glob by (apply Hns; by right). naive_solver.
  - naive_solver.
Qed.

End should_trigger.

Lemma should_trigger_spec_witness :
  should_trigger to_ascii_lowercase
    {| events := ["push"]; branches := []; tags := ["v*"]; paths := []; paths_ignore := [];
       schedules := [] |} "Push" (Some "main") (Some "v1.2") = true /\
  should_trigger to_ascii_lowercase
    {| events := ["push"]; branches := []; tags := ["v*"]; paths := []; paths_ignore := [];
       schedules := [] |} "Push" (Some "main") None = false.
Proof.
  split.
  - apply should_trigger_spec.
    + intros r [[= <-]|[= <-]]; vm_compute; reflexivity.
    + split.
      * right. exists "push"%string. split; [by left|vm_compute; reflexivity].
      * right. exists "v*"%string, "v1.2"%string.
        split_and!; [reflexivity|by left|vm_compute; reflexivity].
  - vm_compute. reflexivity.
Defined.

(**  Path filters never suppress a build whose change set is unknown,
    suppress one whose changed files are all ignored, need a listed file when
    [paths] is set, and a larger change set never turns a trigger off. *)
Theorem paths_match_spec config :
  paths_match config None = true /\
  (forall files, has_path_filters config = true ->
     Forall (fun f => matches_any (paths_ignore config) f = true) files ->
     paths_match config (Some files) = false) /\
  (forall files, paths config <> [] ->
     Forall (fun f => matches_any (paths config) f = false) files ->
     paths_match config (Some files) = false) /\
  (forall files more, (forall f, In f files -> In f more) ->
     paths_match config (Some files) = true -> paths_match config (Some more) = true).
Proof.
  unfold paths_match, has_path_filters. split_and!.
  - by destruct (_ && _).
  - intros files Hf Hall. rewrite <- negb_andb in Hf. apply negb_true_iff in Hf. rewrite Hf.
    induction Hall as [|f files Hig _ IH]; [done|]. cbn. by rewrite Hig, andb_false_r.
  - intros files Hne Hall. rewrite (bool_decide_false (paths config = [])) by done.
    cbn [andb orb]. induction Hall as [|f files Hno _ IH]; [done|]. cbn. by rewrite Hno.
  - intros files more Hsub. destruct (_ && _); [done|]. rewrite !existsb_exists.
    intros (f & Hin & Hf). exists f. split; [by apply Hsub|done].
Qed.
