(* ===== verification/Rollout.v ===== *)
(** * Rollout policies and what a store is asked

    [ReleasePolicy] and [ReleaseHealth] of [crates/oore-contract/src/lib.rs],
    the changes and observations of the store seam of
    [crates/oored/src/releases.rs], and the events of [scheduler.rs].  The
    schedule a valid policy describes visits its steps in order and ends at
    the full rollout. *)

From S2P Require Import Prelude Contract RustStr F64.
From Stdlib Require Import Floats.SpecFloat.

Local Open Scope Z_scope.

(** ** Policies *)

(** [enum ReleaseHealth]. *)
Inductive ReleaseHealth : Set := HealthUnknown | Healthy | HealthWarning | Breached.

(** [ReleaseHealth::from_crash_rate]. *)
Definition from_crash_rate (crash_rate threshold : option f64) : ReleaseHealth :=
  match crash_rate, threshold with
  | Some rate, Some limit =>
      if f64_le limit rate then Breached
      else if f64_le (f64_mul limit f_0_75) rate then HealthWarning
      else Healthy
  | _, _ => HealthUnknown
  end.

(** [enum ReleaseApprovalGate]. *)
Inductive ReleaseApprovalGate : Set := NoGate | BeforeUpload | BeforeProduction.

#[global] Instance release_gate_eq_dec : EqDecision ReleaseApprovalGate.
Proof. solve_decision. Defined.

(** [struct ReleasePolicy]. *)
Record ReleasePolicy := {
  steps : list f64;
  interval_hours : f64;
  rp_crash_rate_threshold : option f64;
  approval : ReleaseApprovalGate;
}.

(** [default_release_steps]. *)
Definition default_release_steps : list f64 :=
  [f64_lit 0x147ae147ae147b (-59); f64_lit 0x1999999999999a (-57); f64_lit 0x1999999999999a (-55);
   f64_lit 1 (-1); f_1].

(** [impl Default for ReleasePolicy]. *)
Definition default_release_policy : ReleasePolicy :=
  {| steps := default_release_steps; interval_hours := f64_of_Z 24; rp_crash_rate_threshold := None;
     approval := NoGate |}.

(** [step.windows(2).any(|pair| pair[0] >= pair[1])]. *)
Fixpoint not_ascending (l : list f64) : bool :=
  match l with
  | a :: ((b :: _) as rest) => f64_le b a || not_ascending rest
  | _ => false
  end.

(** Outside (0, 1], or not a number. *)
Definition not_a_fraction (x : f64) : bool :=
  negb (is_finite x) || f64_le x f_0 || f64_lt f_1 x.

(** [ReleasePolicy::validate]. *)
Definition validate (p : ReleasePolicy) : result string unit :=
  if bool_decide (steps p = []) then Err "policy.steps must not be empty"
  else if existsb not_a_fraction (steps p) then Err "policy.steps must be fractions in (0, 1]"
  else if not_ascending (steps p) then Err "policy.steps must be strictly ascending"
  else if negb (match last (steps p) with Some x => f64_eq x f_1 | None => false end)
  then Err "policy.steps must end at 1"
  else if negb (is_finite (interval_hours p)) || f64_le (interval_hours p) f_0
  then Err "policy.interval_hours must be greater than zero"
  else if (match rp_crash_rate_threshold p with Some limit => not_a_fraction limit | None => false end)
  then Err "policy.crash_rate_threshold must be a fraction in (0, 1]"
  else Ok tt.

(** [ReleasePolicy::validate_gate]. *)
Definition validate_gate (p : ReleasePolicy) : result string unit :=
  match approval p with
  | BeforeUpload => Err "policy.approval before_upload is not supported; require build approval on the pipeline or use before_production"
  | NoGate | BeforeProduction => Ok tt
  end.

(** [ReleasePolicy::next_step]. *)
Definition next_step (p : ReleasePolicy) (fraction : f64) : option f64 :=
  find (fun step => f64_lt fraction step) (steps p).

(** [ReleasePolicy::interval_secs]. *)
Definition interval_secs (p : ReleasePolicy) : Z := round_to_i64 (f64_mul (interval_hours p) f_3600).

(** ** The store seam *)

(** [enum StoreChange]. *)
Inductive StoreChange : Set :=
  | StoreRollout (fraction : f64)
  | StorePause
  | StoreResume (fraction : f64)
  | StoreHalt
  | StoreComplete.

(** [enum StoreObservation]. *)
Inductive StoreObservation : Set :=
  | ObsMissing
  | ObsRolling (fraction : f64)
  | ObsHalted
  | ObsCompleted
  | ObsOther.

(** [struct PromotionTarget]. *)
Record PromotionTarget := {
  pt_track : string;
  pt_fraction : option f64;
  pt_phased_release : bool;
  pt_submit_for_review : bool;
}.

(** [enum ReleaseEventKind]. *)
Inductive ReleaseEventKind : Set :=
  | Created | Uploaded | RolloutStepRaised | RolloutPaused | RolloutResumed | RolloutHalted
  | RolloutCompleted | ApprovalNeeded | Approved | ReleaseFailed.

(** [struct ReleaseEvent]. *)
Record ReleaseEvent := {
  re_kind : ReleaseEventKind;
  re_project_id : string;
  re_release_id : string;
  re_build_id : option string;
  re_version_name : option string;
  re_version_code : option Z;
  re_track : option string;
  re_rollout_percent : option f64;
  re_actor : option string;
  re_reason : option string;
  re_timestamp : Z;
}.

(** ** The schedule of a valid policy *)

Definition fraction_ok (x : f64) : Prop :=
  is_finite x = true /\ f64_lt f_0 x = true /\ f64_le x f_1 = true.

Lemma not_a_fraction_false x : not_a_fraction x = false <-> fraction_ok x.
Proof.
  unfold not_a_fraction, fraction_ok. destruct (is_finite x) eqn:Hf; cbn; [|naive_solver].
  assert (Hn : is_nan x = false) by by destruct x.
  destruct (f64_le x f_0) eqn:E0, (f64_lt f_1 x) eqn:E1; cbn.
  all: split; [try done|intros (_ & H0 & H1)].
  - pose proof (f64_le_lt_trans _ _ _ E0 H0). by rewrite f64_lt_irrefl in *.
  - pose proof (f64_le_lt_trans _ _ _ E0 H0). by rewrite f64_lt_irrefl in *.
  - pose proof (f64_lt_le_trans _ _ _ E1 H1). by rewrite f64_lt_irrefl in *.
  - intros _. split_and!; [done| |by apply f64_not_lt].
    destruct (f64_lt f_0 x) eqn:E; [done|]. by rewrite (f64_not_lt f_0 x) in E0.
  - done.
Qed.

(** What a valid policy is. *)
Record policy_ok (p : ReleasePolicy) : Prop := {
  po_fractions : Forall fraction_ok (steps p);
  po_ascending : StronglySorted (fun x y => f64_lt x y = true) (steps p);
  po_last : exists x, last (steps p) = Some x /\ f64_eq x f_1 = true;
  po_interval : is_finite (interval_hours p) = true /\ f64_lt f_0 (interval_hours p) = true;
  po_threshold : forall t, rp_crash_rate_threshold p = Some t -> fraction_ok t;
}.

Lemma ascending_sorted l :
  Forall fraction_ok l -> not_ascending l = false <-> StronglySorted (fun x y => f64_lt x y = true) l.
Proof.
  induction l as [|a [|b l] IH]; intros HF; [by repeat constructor|by repeat constructor|].
  inversion HF as [|?? Ha HF']; subst. inversion HF' as [|?? Hb _]; subst.
  specialize (IH HF'). cbn [not_ascending]. rewrite orb_false_iff, IH. split.
  - intros [E HS]. constructor; [done|]. inversion HS as [|?? HS' HA]; subst.
    assert (Hab : f64_lt a b = true).
    { destruct (f64_lt a b) eqn:Eab; [done|]. rewrite f64_not_lt in E; [done|..|done].
      - destruct Ha as [Hf _]. by destruct a. - destruct Hb as [Hf _]. by destruct b. }
    constructor; [done|]. eapply Forall_impl; [exact HA|]. intros y Hy. by eapply f64_lt_trans.
  - intros HS. inversion HS as [|?? HS' HA]; subst. inversion HA as [|?? Hab HA']; subst.
    split; [|done]. destruct (f64_le b a) eqn:E; [|done].
    pose proof (f64_le_lt_trans _ _ _ E Hab) as Hbb. by rewrite f64_lt_irrefl in Hbb.
Qed.

Lemma validate_ok p : validate p = Ok tt <-> policy_ok p.
Proof.
  unfold validate. case_bool_decide as Hnil.
  { split; [done|]. intros [_ _ (x & Hx & _) _ _]. by rewrite Hnil in Hx. }
  assert (HF : existsb not_a_fraction (steps p) = false <-> Forall fraction_ok (steps p)).
  { rewrite Forall_forall. split.
    - intros H x Hx. apply not_a_fraction_false.
      destruct (not_a_fraction x) eqn:E; [|done]. exfalso.
      assert (existsb not_a_fraction (steps p) = true); [|congruence].
      apply existsb_exists. exists x. by rewrite <- list_elem_of_In.
    - intros H. apply not_true_iff_false. intros (x & Hx & Ex)%existsb_exists.
      rewrite <- list_elem_of_In in Hx. apply H in Hx. apply not_a_fraction_false in Hx. congruence. }
  destruct (existsb not_a_fraction (steps p)) eqn:E1.
  { split; [done|]. intros [H _ _ _ _]. by apply HF in H. }
  destruct HF as [HF _]. specialize (HF eq_refl). pose proof (ascending_sorted _ HF) as HA.
  destruct (not_ascending (steps p)) eqn:E2.
  { split; [done|]. intros [_ H _ _ _]. by apply HA in H. }
  destruct HA as [HA _]. specialize (HA eq_refl).
  destruct (last (steps p)) as [x|] eqn:El; cbn; [|split; [done|intros [_ _ (?&?&?) _ _]; congruence]].
  destruct (f64_eq x f_1) eqn:Ex; cbn; [|split; [done|intros [_ _ (?&?&?) _ _]; congruence]].
  assert (HI : negb (is_finite (interval_hours p)) || f64_le (interval_hours p) f_0 = false <->
    is_finite (interval_hours p) = true /\ f64_lt f_0 (interval_hours p) = true).
  { destruct (is_finite (interval_hours p)) eqn:Hf; cbn; [|naive_solver].
    assert (is_nan (interval_hours p) = false) by by destruct (interval_hours p).
    destruct (f64_le (interval_hours p) f_0) eqn:E0; split; try done.
    - intros [_ H0]. pose proof (f64_le_lt_trans _ _ _ E0 H0). by rewrite f64_lt_irrefl in *.
    - intros _. split; [done|]. destruct (f64_lt f_0 (interval_hours p)) eqn:E; [done|].
      by rewrite (f64_not_lt f_0) in E0. }
  destruct (negb _ || f64_le (interval_hours p) f_0).
  { split; [done|]. intros [_ _ _ H _]. by apply HI in H. }
  destruct HI as [HI _]. specialize (HI eq_refl).
  destruct (rp_crash_rate_threshold p) as [t|] eqn:Et.
  - destruct (not_a_fraction t) eqn:Ef.
    + split; [done|]. intros [_ _ _ _ H]. specialize (H t Et). apply not_a_fraction_false in H. congruence.
    + split; [|done]. intros _. split; eauto. intros t' [= <-]%(eq_trans (eq_sym Et)).
      by apply not_a_fraction_false.
  - split; [|done]. intros _. split; eauto. intros t' ?. congruence.
Qed.

(** The steps the monitor takes from [fraction], at most [n] of them. *)
Fixpoint walk (p : ReleasePolicy) (n : nat) (fraction : f64) : list f64 :=
  match n with
  | O => []
  | S n =>
      match next_step p fraction with
      | Some step => step :: walk p n step
      | None => []
      end
  end.

(** The steps above [fraction]. *)
Definition above (fraction : f64) (l : list f64) : list f64 :=
  filter (fun step => f64_lt fraction step = true) l.

Lemma find_above fraction l : find (fun step => f64_lt fraction step) l = head (above fraction l).
Proof.
  induction l as [|x l IH]; [done|]. cbn [find]. unfold above in *. destruct (f64_lt fraction x) eqn:E.
  - by rewrite filter_cons_True by done.
  - rewrite filter_cons_False by congruence. exact IH.
Qed.

(** In ascending steps, what is above the next step is the rest. *)
Lemma above_next fraction l x rest :
  StronglySorted (fun x y => f64_lt x y = true) l -> above fraction l = x :: rest -> above x l = rest.
Proof.
  induction 1 as [|y l HS IH HA]; [done|]. unfold above.
  destruct (f64_lt fraction y) eqn:E.
  - rewrite filter_cons_True by done. intros [= -> <-].
    rewrite filter_cons_False by (rewrite f64_lt_irrefl; done).
    rewrite !list_filter_all; [done|..].
    + eapply Forall_impl; [exact HA|]. intros z Hz. by eapply f64_lt_trans.
    + exact HA.
  - rewrite filter_cons_False by congruence. intros Hx. specialize (IH Hx).
    rewrite filter_cons_False; [exact IH|]. intros Hxy.
    assert (Hin : x ∈ filter (fun step => f64_lt fraction step = true) l) by (rewrite Hx; by left).
    apply list_elem_of_filter in Hin as [_ Hin]. rewrite Forall_forall in HA.
    pose proof (f64_lt_trans _ _ _ Hxy (HA _ Hin)). by rewrite f64_lt_irrefl in *.
Qed.

Lemma walk_above p n fraction :
  StronglySorted (fun x y => f64_lt x y = true) (steps p) ->
  (length (above fraction (steps p)) <= n)%nat -> walk p n fraction = above fraction (steps p).
Proof.
  intros HS. revert fraction. induction n as [|n IH]; intros fraction Hl; cbn.
  { destruct (above _ _); [done|cbn in Hl; lia]. }
  unfold next_step. rewrite find_above. destruct (above fraction (steps p)) as [|x rest] eqn:E; cbn; [done|].
  f_equal. pose proof (above_next _ _ _ _ HS E) as Hr. rewrite IH; [done|]. rewrite Hr. cbn in Hl. lia.
Qed.

Lemma last_filter {A} (P : A -> Prop) `{!forall x, Decision (P x)} l x :
  last l = Some x -> P x -> last (filter P l) = Some x.
Proof.
  induction l as [|y l IH] using rev_ind; [done|]. rewrite last_snoc. intros [= ->] HP.
  rewrite filter_app. cbn. rewrite decide_True by done. by rewrite last_snoc.
Qed.

(** the schedule of a policy.  Under a valid policy, the steps taken from
    any fraction below the full rollout are exactly the policy's steps above
    it, in order: each raises the fraction, there are at most as many as the
    policy has, the last one is the full rollout, and after it there is no
    step. *)
Theorem rollout_schedule_ends (p : ReleasePolicy) (fraction : f64) (n : nat) :
  validate p = Ok tt -> f64_lt fraction f_1 = true -> (length (steps p) <= n)%nat ->
  walk p n fraction = above fraction (steps p) /\
  StronglySorted (fun x y => f64_lt x y = true) (fraction :: walk p n fraction) /\
  (length (walk p n fraction) <= length (steps p))%nat /\
  exists x, last (walk p n fraction) = Some x /\ f64_eq x f_1 = true /\ next_step p x = None.
Proof.
  intros [HF HS (x & Hx & Ex) _ _]%validate_ok Hlt Hn.
  assert (Hlen : (length (above fraction (steps p)) <= length (steps p))%nat) by apply length_filter.
  rewrite walk_above by (done || lia). split_and!; [done| |done|].
  - constructor; [|apply Forall_forall; intros y Hy; by apply list_elem_of_filter in Hy as [Hy _]].
    clear -HS. unfold above. induction HS as [|y l HS IH HA]; [constructor|].
    rewrite filter_cons. case_decide; [|done]. constructor; [done|].
    apply Forall_forall. intros z [_ Hz]%list_elem_of_filter. rewrite Forall_forall in HA. auto.
  - exists x. assert (Hfx : f64_lt fraction x = true).
    { apply f64_eq_key in Ex as (? & ? & Ex). apply f64_lt_key in Hlt as (? & ? & Hlt).
      apply f64_lt_key. by rewrite Ex. }
    split_and!; [by apply last_filter|done|].
    unfold next_step. rewrite find_above. unfold above. rewrite list_filter_none; [done|].
    apply Forall_forall. intros y Hy Hxy. rewrite Forall_forall in HF. destruct (HF y Hy) as (_ & _ & H1).
    pose proof (f64_lt_le_trans _ _ _ Hxy H1) as Hx1. apply f64_eq_key in Ex as (? & ? & Ex).
    apply f64_lt_key in Hx1 as (_ & _ & Hx1). rewrite Ex in Hx1. unfold lex in Hx1. lia.
Qed.

(** A release at 1% takes the four remaining steps of the default policy. *)
Lemma rollout_schedule_ends_witness :
  let first := f64_lit 0x147ae147ae147b (-59) in
  validate default_release_policy = Ok tt /\
  length (walk default_release_policy 5 first) = 4%nat /\
  exists x, last (walk default_release_policy 5 first) = Some x /\ f64_eq x f_1 = true /\
    next_step default_release_policy x = None.
Proof.
  intros first. split; [vm_compute; reflexivity|]. split; [vm_compute; reflexivity|].
  refine (proj2 (proj2 (proj2 (rollout_schedule_ends default_release_policy first 5 _ _ _))));
    [vm_compute; reflexivity|vm_compute; reflexivity|cbn; lia].
Defined.
