(* ===== verification/Stores.v ===== *)
(** * The settings and the vocabulary of the stores

    Publishing settings and their validation ([GooglePlayPublishConfig],
    [AppStorePublishConfig] and [validate_google_play_publish_config] of
    [crates/oore-contract/src/lib.rs]; [normalize_config] and [uploaded_config]
    of [crates/oored/src/app_store_publish.rs]), what App Store Connect is
    asked and answers ([app_store_connect.rs]), and how its answers read as
    release states ([app_store_publish.rs]).  All of it is pure. *)

From S2P Require Import Prelude Contract RustStr F64 Patterns Rollout.
From Stdlib Require Import Ascii.

Local Open Scope Z_scope.

(** ** Google Play settings *)

(** [enum GooglePlayReleaseNotesSource]. *)
Inductive GooglePlayReleaseNotesSource : Set := NoNotes | Changelog | RepoFiles.

(** [struct GooglePlayPublishConfig], the config of a [google_play] row of
    [pipeline_publish_targets]. *)
Record GooglePlayPublishConfig := {
  gp_enabled : bool;
  gp_service_account_secret : string;
  gp_package_name : option string;
  gp_track : string;
  gp_rollout_percent : option f64;
  gp_draft : bool;
  gp_release_notes : GooglePlayReleaseNotesSource;
  gp_release_notes_locale : string;
  gp_release_notes_dir : option string;
  gp_upload_mapping : bool;
  gp_in_app_update_priority : option Z;
  gp_rollout_policy : option ReleasePolicy;
}.

Definition MAX_SECRET_NAME_LENGTH : Z := 128.

(** [is_valid_pipeline_env_key]. *)
Definition is_valid_pipeline_env_key (key : string) : bool :=
  match key with
  | EmptyString => false
  | String first rest =>
      (Ascii.eqb first "_" || is_ascii_alphabetic first)
      && all_bytes (fun c => Ascii.eqb c "_" || is_ascii_alphanumeric c) rest
  end.

(** [validate_secret_name]. *)
Definition validate_secret_name (name : string) : result string unit :=
  if is_empty name then Err "must not be empty"
  else if MAX_SECRET_NAME_LENGTH <? str_len name then Err "is too long (max 128 chars)"
  else if negb (is_valid_pipeline_env_key name) then Err "must match [A-Za-z_][A-Za-z0-9_]*"
  else Ok tt.

(** [is_valid_play_track]. *)
Definition is_valid_play_track (track : string) : bool :=
  negb (is_empty track) && (str_len track <=? 128)
  && all_bytes (fun c => is_ascii_alphanumeric c || Ascii.eqb c "-" || Ascii.eqb c "_" || Ascii.eqb c ":") track.

(** An Android application id. *)
Definition valid_package (package : string) : bool :=
  let parts := split_char "." package in
  (2 <=? Z.of_nat (length parts))
  && forallb (fun part => match part with
                          | EmptyString => false
                          | String first _ => is_ascii_alphabetic first
                          end
                          && all_bytes (fun c => is_ascii_alphanumeric c || Ascii.eqb c "_") part) parts.

Definition err_if {E A} (label : E -> string) (r : result E A) : list string :=
  match r with Ok _ => [] | Err e => [label e] end.

(** The rollout percentage, on the trimmed track. *)
Definition rollout_percent_errors (config : GooglePlayPublishConfig) (track : string) : list string :=
  match gp_rollout_percent config with
  | Some percent =>
      if negb (f64_lt f_0 percent && f64_le percent f_100) then
        ["rollout_percent must be greater than 0 and at most 100"]
      else if f64_lt percent f_100 && String.eqb track "internal" then
        ["the internal track does not support staged rollouts"]
      else if f64_lt percent f_100 && gp_draft config then ["a draft release cannot have a staged rollout"]
      else []
  | None => []
  end.

(** [validate_google_play_publish_config]. *)
Definition validate_google_play_publish_config (config : GooglePlayPublishConfig) : list string :=
  let track := trim (gp_track config) in
  err_if (fun error => "service_account_secret " +:+ error)
    (validate_secret_name (trim (gp_service_account_secret config)))
  ++ (match gp_package_name config with
      | Some package =>
          if valid_package package then []
          else ["package_name must be an Android application id such as com.example.app"]
      | None => []
      end)
  ++ (if is_valid_play_track track then []
      else ["track must be internal, closed, open, production, or a custom track name"])
  ++ rollout_percent_errors config track
  ++ (match gp_rollout_policy config with
      | Some policy => err_if id (validate policy) ++ err_if id (validate_gate policy)
      | None => []
      end)
  ++ (if is_empty (trim (gp_release_notes_locale config)) || (16 <? str_len (gp_release_notes_locale config))
      then ["release_notes_locale must be a Play language code such as en-US"] else [])
  ++ (match gp_release_notes config with
      | RepoFiles =>
          match gp_release_notes_dir config with
          | Some dir => err_if (fun error => "release_notes_dir " +:+ error)
                          (Paths.validate_repository_config_path dir)
          | None => ["release_notes_dir is required for repo_files release notes"]
          end
      | _ => []
      end)
  ++ (match gp_in_app_update_priority config with
      | Some priority =>
          if 5 <? priority then ["in_app_update_priority must be between 0 and 5"] else []
      | None => []
      end).

(** ** App Store settings *)

Module AppStoreDestination.

(** [enum AppStoreDestination]. *)
Inductive t : Set := Testflight | AppStore.

#[global] Instance eq_dec : EqDecision t.
Proof. solve_decision. Defined.

End AppStoreDestination.

(** [struct AppStoreReleaseNote]. *)
Record AppStoreReleaseNote := { locale : string; whats_new : string }.

(** [struct AppStorePublishConfig]. *)
Record AppStorePublishConfig := {
  as_enabled : bool;
  as_destination : AppStoreDestination.t;
  as_testflight_groups : list string;
  as_release_notes : list AppStoreReleaseNote;
  as_uses_non_exempt_encryption : bool;
  as_submit_for_review : bool;
  as_phased_release : bool;
}.

(** [Default for AppStorePublishConfig]. *)
Definition default_app_store_config : AppStorePublishConfig :=
  {| as_enabled := false; as_destination := AppStoreDestination.Testflight; as_testflight_groups := [];
     as_release_notes := []; as_uses_non_exempt_encryption := false; as_submit_for_review := false;
     as_phased_release := false |}.

Definition MAX_GROUPS : Z := 20.
Definition MAX_GROUP_NAME_LEN : Z := 128.
Definition MAX_NOTES : Z := 40.
Definition MAX_LOCALE_LEN : Z := 16.
Definition MAX_WHATS_NEW_CHARS : Z := 4000.

(** [is_valid_locale]. *)
Definition is_valid_locale (locale : string) : bool :=
  negb (is_empty locale) && (str_len locale <=? MAX_LOCALE_LEN)
  && forallb (fun part => negb (is_empty part) && all_bytes is_ascii_alphanumeric part) (split_char "-" locale).

(** The loop over the groups: those kept and the problems so far. *)
Definition add_group (acc : list string * list string) (group : string) : list string * list string :=
  let '(groups, errors) := acc in
  let group := trim group in
  if is_empty group then acc
  else if MAX_GROUP_NAME_LEN <? char_count group
  then (groups, errors ++ ["TestFlight group '" +:+ group +:+ "' is too long"])
  else if existsb (String.eqb group) groups then acc
  else (groups ++ [group], errors).

(** The loop over the release notes. *)
Definition add_note (acc : list AppStoreReleaseNote * list string) (note : AppStoreReleaseNote)
    : list AppStoreReleaseNote * list string :=
  let '(notes, errors) := acc in
  let l := trim (locale note) in
  let w := trim (whats_new note) in
  if is_empty l && is_empty w then acc
  else if negb (is_valid_locale l)
  then (notes, errors ++ ["'" +:+ l +:+ "' is not an App Store Connect locale such as en-US"])
  else
    let errors := errors ++ (if MAX_WHATS_NEW_CHARS <? char_count w
                             then ["Release notes for " +:+ l +:+ " are longer than 4000 characters"] else []) in
    if existsb (fun existing => String.eqb (locale existing) l) notes
    then (notes, errors ++ ["Release notes for " +:+ l +:+ " are listed twice"])
    else (notes ++ [{| locale := l; whats_new := w |}], errors).

(** [normalize_config]. *)
Definition normalize_config (config : AppStorePublishConfig) : result (list string) AppStorePublishConfig :=
  let '(groups, errors) := fold_left add_group (as_testflight_groups config) ([], []) in
  let errors := errors
    ++ (if MAX_GROUPS <? Z.of_nat (length groups) then ["At most 20 TestFlight groups are allowed"] else [])
    ++ (if as_enabled config && bool_decide (as_destination config = AppStoreDestination.Testflight)
           && bool_decide (groups = [])
        then ["TestFlight publishing needs at least one group"] else []) in
  let '(notes, errors) := fold_left add_note (as_release_notes config) ([], errors) in
  let errors := errors
    ++ (if MAX_NOTES <? Z.of_nat (length notes) then ["At most 40 release note locales are allowed"] else []) in
  let to_testflight := bool_decide (as_destination config = AppStoreDestination.Testflight) in
  if bool_decide (errors = []) then
    Ok {| as_enabled := as_enabled config; as_destination := as_destination config;
          as_testflight_groups := groups; as_release_notes := notes;
          as_uses_non_exempt_encryption := as_uses_non_exempt_encryption config;
          as_submit_for_review := if to_testflight then false else as_submit_for_review config;
          as_phased_release := if to_testflight then false else as_phased_release config |}
  else Err errors.

(** A group name as it is stored. *)
Definition clean_group (g : string) : Prop :=
  trim g = g /\ is_empty g = false /\ char_count g <= MAX_GROUP_NAME_LEN.

(** Release notes as they are stored. *)
Definition clean_note (n : AppStoreReleaseNote) : Prop :=
  trim (locale n) = locale n /\ is_valid_locale (locale n) = true /\
  trim (whats_new n) = whats_new n /\ char_count (whats_new n) <= MAX_WHATS_NEW_CHARS.

(** Settings as they are stored: clean groups and notes, each once, not too
    many, groups to publish to, and no App Store options for TestFlight. *)
Record clean_config (c : AppStorePublishConfig) : Prop := {
  cc_groups : Forall clean_group (as_testflight_groups c) /\ NoDup (as_testflight_groups c) /\
    Z.of_nat (length (as_testflight_groups c)) <= MAX_GROUPS;
  cc_notes : Forall clean_note (as_release_notes c) /\ NoDup (map locale (as_release_notes c)) /\
    Z.of_nat (length (as_release_notes c)) <= MAX_NOTES;
  cc_testflight : as_destination c = AppStoreDestination.Testflight ->
    as_submit_for_review c = false /\ as_phased_release c = false /\
    (as_enabled c = true -> as_testflight_groups c <> []);
}.

Lemma existsb_eqb s l : existsb (String.eqb s) l = bool_decide (s ∈ l).
Proof.
  apply eq_true_iff_eq. rewrite existsb_exists, bool_decide_eq_true, list_elem_of_In. split.
  - by intros (x & Hin & ->%String.eqb_eq).
  - intros Hin. exists s. by rewrite String.eqb_refl.
Qed.

Lemma existsb_locale l notes :
  existsb (fun existing => String.eqb (locale existing) l) notes = bool_decide (l ∈ map locale notes).
Proof.
  rewrite <- existsb_eqb. induction notes as [|n notes IH]; [done|]. cbn. by rewrite IH, String.eqb_sym.
Qed.

(** Problems only accumulate; without any, what is kept is clean. *)
Lemma groups_clean l : forall g e g' e',
  fold_left add_group l (g, e) = (g', e') -> e' = [] -> Forall clean_group g -> NoDup g ->
  e = [] /\ Forall clean_group g' /\ NoDup g'.
Proof.
  induction l as [|x l IH]; intros g e g' e' H He Hc Hn; cbn in H; [naive_solver|].
  destruct (is_empty (trim x)) eqn:E1; [by eapply IH|].
  destruct (MAX_GROUP_NAME_LEN <? char_count (trim x)) eqn:E2.
  - apply IH in H as [H _]; [|done..]. by destruct e.
  - rewrite existsb_eqb in H. case_bool_decide as Hin; [by eapply IH|].
    apply IH in H; [done|done| |].
    + apply Forall_app. split; [done|]. constructor; [|done]. split; [apply trim_trim|]. split; [done|lia].
    + apply NoDup_app. split_and!; [done|set_solver|apply NoDup_singleton].
Qed.

Lemma note_problems l : forall g e g' e', fold_left add_note l (g, e) = (g', e') -> e' = [] -> e = [].
Proof.
  induction l as [|x l IH]; intros g e g' e' H He; cbn in H; [by simplify_eq|].
  destruct (add_note (g, e) x) as [g1 e1] eqn:E. cbn in E, H. rewrite E in H. apply IH in H; [|done]. subst e1.
  unfold add_note in E. repeat case_match; simplify_eq; try done;
    repeat match goal with H : _ ++ _ = [] |- _ => apply app_nil in H as [? ?] end; done.
Qed.

Lemma notes_clean l : forall g g',
  fold_left add_note l (g, []) = (g', []) -> Forall clean_note g -> NoDup (map locale g) ->
  Forall clean_note g' /\ NoDup (map locale g').
Proof.
  induction l as [|x l IH]; intros g g' H Hc Hn; cbn in H; [naive_solver|].
  destruct (is_empty (trim (locale x)) && is_empty (trim (whats_new x))); [by eapply IH|].
  destruct (is_valid_locale (trim (locale x))) eqn:E1; cbn in H; [|by apply note_problems in H].
  rewrite existsb_locale in H.
  destruct (MAX_WHATS_NEW_CHARS <? char_count (trim (whats_new x))) eqn:E2;
    case_bool_decide as Hin; try by apply note_problems in H.
  apply IH in H; [done| |].
  - apply Forall_app. split; [done|]. constructor; [|done]. split_and!; cbn; [apply trim_trim|done|apply trim_trim|lia].
  - rewrite map_app. apply NoDup_app. split_and!; [done|set_solver|apply NoDup_singleton].
Qed.

(** A clean list is kept as it is. *)
Lemma groups_kept l : forall g,
  Forall clean_group l -> NoDup (g ++ l) -> fold_left add_group l (g, []) = (g ++ l, []).
Proof.
  induction l as [|x l IH]; intros g Hc Hn; cbn; [by rewrite app_nil_r|].
  apply Forall_cons in Hc as [(Ht & He & Hl) Hc]. rewrite Ht, He, existsb_eqb.
  replace (MAX_GROUP_NAME_LEN <? char_count x) with false by lia.
  rewrite bool_decide_false by (apply NoDup_app in Hn as (_ & Hd & _); set_solver).
  rewrite IH; [by rewrite <- app_assoc|done|by rewrite <- app_assoc].
Qed.

Lemma valid_locale_not_empty l : is_valid_locale l = true -> is_empty l = false.
Proof. by destruct l. Qed.

Lemma notes_kept l : forall g,
  Forall clean_note l -> NoDup (map locale (g ++ l)) -> fold_left add_note l (g, []) = (g ++ l, []).
Proof.
  induction l as [|x l IH]; intros g Hc Hn; cbn; [by rewrite app_nil_r|].
  apply Forall_cons in Hc as [(Ht & Hv & Hw & Hl) Hc]. rewrite Ht, Hw, Hv, existsb_locale.
  rewrite (valid_locale_not_empty _ Hv). cbn.
  replace (MAX_WHATS_NEW_CHARS <? char_count (whats_new x)) with false by lia.
  rewrite bool_decide_false.
  - destruct x as [loc text]. cbn in *. rewrite IH; [by rewrite <- app_assoc|done|by rewrite <- app_assoc].
  - rewrite map_app in Hn. apply NoDup_app in Hn as (_ & Hd & _). cbn in Hd. set_solver.
Qed.

Lemma normalize_clean config : clean_config config -> normalize_config config = Ok config.
Proof.
  intros [(Hg1 & Hg2 & Hg3) (Hn1 & Hn2 & Hn3) Ht]. unfold normalize_config.
  rewrite groups_kept by done. cbn [app].
  replace (MAX_GROUPS <? Z.of_nat (length (as_testflight_groups config))) with false by lia.
  assert (Hnone : as_enabled config && bool_decide (as_destination config = AppStoreDestination.Testflight)
    && bool_decide (as_testflight_groups config = []) = false).
  { destruct (as_enabled config) eqn:E1; [|done]. case_bool_decide as E2; [|done]. cbn.
    apply bool_decide_eq_false. by apply Ht. }
  rewrite Hnone. cbn [app]. rewrite notes_kept by done.
  replace (MAX_NOTES <? Z.of_nat (length ([] ++ as_release_notes config))) with false by (cbn; lia).
  destruct config as [en dest groups notes enc sub ph]. cbn in *. f_equal.
  case_bool_decide as E; [destruct (Ht E) as (-> & -> & _)|]; done.
Qed.

(** functional.  App Store settings are stored in one canonical form:
    whatever a request asks for, what is stored is clean, and storing it again
    changes nothing; and every clean setting is accepted as it is. *)
Theorem normalize_canonical config config' :
  normalize_config config = Ok config' ->
  clean_config config' /\ normalize_config config' = Ok config' /\
  as_enabled config' = as_enabled config /\ as_destination config' = as_destination config.
Proof.
  intros H.
  assert (Hclean : clean_config config' /\ as_enabled config' = as_enabled config /\
    as_destination config' = as_destination config).
  { unfold normalize_config in H. destruct (fold_left add_group _ _) as [groups e1] eqn:Eg.
    destruct (fold_left add_note _ _) as [notes e2] eqn:En. case_bool_decide as He; [|done].
    injection H as <-. apply app_nil in He as [-> He].
    pose proof (note_problems _ _ _ _ _ En eq_refl) as Hp.
    apply app_nil in Hp as [-> [Hg Ht]%app_nil]. rewrite Hg, Ht in En.
    apply groups_clean in Eg as (_ & ? & ?); [|done|done|constructor].
    apply notes_clean in En as (? & ?); [|done|constructor].
    split; [|done]. split; cbn.
    - split_and!; [done|done|]. destruct (MAX_GROUPS <? _) eqn:E; [done|lia].
    - split_and!; [done|done|]. destruct (MAX_NOTES <? _) eqn:E; [done|lia].
    - intros E. rewrite bool_decide_true by done. split_and!; [done|done|]. intros He' ->.
      by rewrite He', !bool_decide_true in Ht. }
  destruct Hclean as (Hc & He & Hd). split_and!; [done| |done|done].
  by apply normalize_clean.
Qed.

(** Two spellings of one group, and notes. *)
Definition sample_settings : AppStorePublishConfig :=
  {| as_enabled := true; as_destination := AppStoreDestination.Testflight;
     as_testflight_groups := [" QA "%string; "QA"%string]; as_release_notes := [{| locale := "en-US "; whats_new := " Fixes" |}];
     as_uses_non_exempt_encryption := false; as_submit_for_review := true; as_phased_release := false |}.

Lemma normalize_canonical_witness : exists config, normalize_config sample_settings = Ok config /\
  as_testflight_groups config = ["QA"%string] /\ normalize_config config = Ok config.
Proof.
  eexists. split; [vm_compute; reflexivity|]. split; [reflexivity|].
  refine (proj1 (proj2 (normalize_canonical sample_settings _ _))). vm_compute. reflexivity.
Defined.

(** [settings_track]. *)
Definition settings_track (config : AppStorePublishConfig) : string :=
  match as_destination config with
  | AppStoreDestination.Testflight => join ", " (as_testflight_groups config)
  | AppStoreDestination.AppStore => "app_store"
  end.

(** [track_groups], and the groups of [uploaded_config]: trimmed, without the
    blank ones. *)
Definition named_groups (l : list string) : list string :=
  List.filter (fun group => negb (is_empty group)) (map trim l).

Definition track_groups (track : string) : list string := named_groups (split_str ", " track).

(** ** Uploads *)

Module PublishStore.

(** [enum PublishStore]. *)
Inductive t : Set := GooglePlay | AppStore.

End PublishStore.

(** [struct RunnerPublishResult]. *)
Record RunnerPublishResult := {
  pr_store : PublishStore.t;
  pr_track : string;
  pr_package_name : string;
  pr_version_code : Z;
  pr_version_name : option string;
  pr_rollout_fraction : option f64;
  pr_status : string;
  pr_testflight_groups : option (list string);
}.

(** [uploaded_config]. *)
Definition uploaded_config (config : AppStorePublishConfig) (reported : RunnerPublishResult)
    : AppStorePublishConfig :=
  let groups := match pr_testflight_groups reported with
                | Some groups => named_groups groups
                | None =>
                    let track := trim (pr_track reported) in
                    if is_empty track || String.eqb track "app_store" || String.eqb track (settings_track config)
                    then [] else track_groups track
                end in
  match groups with
  | [] => config
  | _ => {| as_enabled := as_enabled config; as_destination := AppStoreDestination.Testflight;
            as_testflight_groups := groups; as_release_notes := as_release_notes config;
            as_uses_non_exempt_encryption := as_uses_non_exempt_encryption config;
            as_submit_for_review := false; as_phased_release := false |}
  end.

(** ** App Store Connect *)

(** [enum BuildProcessing]. *)
Inductive BuildProcessing : Set := Processing | Valid | ProcessingFailed.

(** [struct AscBuild]. *)
Record AscBuild := {
  ab_id : string;
  ab_processing : BuildProcessing;
  ab_uses_non_exempt_encryption : option bool;
}.

(** [struct AscBetaGroup]. *)
Record AscBetaGroup := {
  bg_id : string;
  bg_name : string;
  bg_is_internal : bool;
  bg_has_access_to_all_builds : bool;
}.

(** [struct AscBetaDetail]. *)
Record AscBetaDetail := { bd_internal : option string; bd_external : option string }.

(** [struct AscVersion]. *)
Record AscVersion := {
  av_id : string;
  av_version_string : option string;
  av_state : option string;
}.

(** [struct AscPhasedRelease]. *)
Record AscPhasedRelease := {
  ph_id : string;
  ph_state : string;
  ph_current_day_number : option Z;
}.

(** A call of [AppStoreConnect]: its method and arguments. *)
Inductive AscCall : Type :=
  | FindAppId (bundle_id : string)
  | FindBuild (app_id version build_number : string)
  | SetExportCompliance (build_id : string) (uses_non_exempt_encryption : bool)
  | BetaDetail (build_id : string)
  | SetBetaWhatsNew (build_id locale whats_new : string)
  | ListBetaGroups (app_id : string)
  | AddBuildToGroups (build_id : string) (group_ids : list string)
  | SubmitForBetaReview (build_id : string)
  | FindOrCreateVersion (app_id version : string)
  | FindVersion (app_id version : string)
  | FindEditableVersion (app_id : string)
  | AttachBuildToVersion (version_id build_id : string)
  | SetVersionWhatsNew (version_id locale whats_new : string)
  | EnablePhasedRelease (version_id : string)
  | DisablePhasedRelease (version_id : string)
  | SubmitForReview (app_id version_id : string)
  | VersionState (version_id : string)
  | PhasedRelease (version_id : string)
  | SetPhasedReleaseState (id state : string).

(** [EDITABLE_VERSION_STATES], [version_is_editable]. *)
Definition EDITABLE_VERSION_STATES : string :=
  "PREPARE_FOR_SUBMISSION,DEVELOPER_REJECTED,REJECTED,METADATA_REJECTED,INVALID_BINARY".

Definition version_is_editable (state : string) : bool :=
  existsb (fun editable => String.eqb editable state) (split_char "," EDITABLE_VERSION_STATES).

(** [phased_release_fraction]: Apple's seven days. *)
Definition phased_release_fraction (day : option Z) : f64 :=
  let day := default 1 day in
  if day <=? 1 then f64_lit 0x147ae147ae147b (-59)
  else if day =? 2 then f64_lit 0x147ae147ae147b (-58)
  else if day =? 3 then f64_lit 0x1999999999999a (-57)
  else if day =? 4 then f64_lit 0x1999999999999a (-56)
  else if day =? 5 then f64_lit 0x1999999999999a (-55)
  else if day =? 6 then f64_lit 1 (-1)
  else f_1.

(** ** The monitor's stages and readings *)

Module Stage.

(** [enum Stage]. *)
Inductive t : Set := AwaitingBuild | Distribute | BetaReview | Review | Live | Done.

#[global] Instance eq_dec : EqDecision t.
Proof. solve_decision. Defined.

(** [Stage::as_str]. *)
Definition as_str (s : t) : string :=
  match s with
  | AwaitingBuild => "awaiting_build"
  | Distribute => "distribute"
  | BetaReview => "beta_review"
  | Review => "review"
  | Live => "live"
  | Done => "done"
  end.

(** [Stage::parse]. *)
Definition parse (raw : string) : t :=
  if String.eqb raw "distribute" then Distribute
  else if String.eqb raw "beta_review" then BetaReview
  else if String.eqb raw "review" then Review
  else if String.eqb raw "live" then Live
  else if String.eqb raw "done" then Done
  else AwaitingBuild.

Lemma parse_as_str s : parse (as_str s) = s.
Proof. by destruct s. Qed.

End Stage.

Definition BUILD_DISCOVERY_TIMEOUT_SECS : Z := 3 * 60 * 60.
Definition POLL_PROCESSING_SECS : Z := 60.
Definition POLL_REVIEW_SECS : Z := 5 * 60.
Definition POLL_LIVE_SECS : Z := 15 * 60.
Definition POLL_ERROR_SECS : Z := 5 * 60.
Definition GIVE_UP_AFTER_SECS : Z := 24 * 60 * 60.

Definition one_of (l : list string) (s : string) : bool := existsb (String.eqb s) l.

(** [review_outcome]. *)
Definition review_outcome (version_state : string) : option (ReleaseState.t * string) :=
  if one_of ["READY_FOR_SALE"; "READY_FOR_DISTRIBUTION"] version_state then None
  else if one_of ["PREPARE_FOR_SUBMISSION"; "READY_FOR_REVIEW"] version_state then
    Some (ReleaseState.InReview, "Build attached; submit the version for review in App Store Connect"%string)
  else if one_of ["PENDING_DEVELOPER_RELEASE"] version_state then
    Some (ReleaseState.InReview, "Approved by Apple; release the version in App Store Connect"%string)
  else if one_of ["REJECTED"; "METADATA_REJECTED"; "INVALID_BINARY"] version_state then
    Some (ReleaseState.Failed, "Rejected in App Store review"%string)
  else if one_of ["DEVELOPER_REJECTED"] version_state then
    Some (ReleaseState.Failed, "Withdrawn from review in App Store Connect"%string)
  else if one_of ["REMOVED_FROM_SALE"; "DEVELOPER_REMOVED_FROM_SALE"; "REPLACED_WITH_NEW_VERSION"] version_state then
    Some (ReleaseState.Halted, "Version is no longer on the App Store"%string)
  else Some (ReleaseState.InReview, "In App Store review"%string).

(** [live_outcome]. *)
Definition live_outcome (phased_state : option string) (day : option Z) : ReleaseState.t * f64 * string :=
  let phased s := match phased_state with Some p => String.eqb p s | None => false end in
  if phased "ACTIVE" then (ReleaseState.Rolling, phased_release_fraction day, "Phased release in progress"%string)
  else if phased "PAUSED" then (ReleaseState.Paused, phased_release_fraction day, "Phased release paused"%string)
  else if phased "INACTIVE" then (ReleaseState.Rolling, f_0, "Phased release waiting to start"%string)
  else (ReleaseState.Complete, f_1, "Live for all users on the App Store"%string).

(** [beta_review_outcome]. *)
Definition beta_review_outcome (external_state : option string) : option (ReleaseState.t * string) :=
  match external_state with
  | Some s =>
      if one_of ["BETA_APPROVED"; "IN_BETA_TESTING"] s then
        Some (ReleaseState.Complete, "Available to external TestFlight testers"%string)
      else if one_of ["BETA_REJECTED"] s then
        Some (ReleaseState.Failed, "Rejected in TestFlight beta review"%string)
      else if one_of ["EXPIRED"] s then Some (ReleaseState.Halted, "TestFlight build expired"%string)
      else None
  | None => None
  end.

(** [enum BetaReadiness]. *)
Inductive BetaReadiness : Set := BetaReady | BetaWait | BetaFailed (reason : string).

(** [beta_readiness]. *)
Definition beta_readiness (detail : AscBetaDetail) (waited_secs : Z) : BetaReadiness :=
  match bd_internal detail with
  | Some s =>
      if one_of ["PROCESSING_EXCEPTION"] s then
        BetaFailed "Apple could not prepare the build for TestFlight; check App Store Connect"
      else if one_of ["MISSING_EXPORT_COMPLIANCE"] s && (BUILD_DISCOVERY_TIMEOUT_SECS <? waited_secs) then
        BetaFailed "Apple still needs export compliance for this build; answer it in App Store Connect or set ITSAppUsesNonExemptEncryption in Info.plist"
      else if one_of ["PROCESSING"] s && (BUILD_DISCOVERY_TIMEOUT_SECS <? waited_secs) then
        BetaFailed "Apple did not finish processing the build for TestFlight within three hours"
      else if one_of ["PROCESSING"; "MISSING_EXPORT_COMPLIANCE"] s then BetaWait
      else BetaReady
  | None => BetaReady
  end.

(** [beta_review_already_submitted]. *)
Definition beta_review_already_submitted (external_state : option string) : bool :=
  match external_state with
  | Some s => one_of ["WAITING_FOR_BETA_REVIEW"; "IN_BETA_REVIEW"; "BETA_APPROVED"; "IN_BETA_TESTING"; "BETA_REJECTED"] s
  | None => false
  end.

(** [testflight_expired]. *)
Definition testflight_expired (beta : AscBetaDetail) : bool :=
  bool_decide (bd_internal beta = Some "EXPIRED"%string) || bool_decide (bd_external beta = Some "EXPIRED"%string).

(** [transition_path]. *)
Definition transition_path (from target : ReleaseState.t) : list ReleaseState.t :=
  if ReleaseState.can_transition_to from target then [target]
  else if (bool_decide (target = ReleaseState.Complete) || bool_decide (target = ReleaseState.Paused))
          && ReleaseState.can_transition_to from ReleaseState.Rolling
  then [ReleaseState.Rolling; target]
  else if bool_decide (target = ReleaseState.Halted) && ReleaseState.can_transition_to from ReleaseState.Failed
  then [ReleaseState.Failed]
  else [].

(** [f64::EPSILON]. *)
Definition f_epsilon : f64 := f64_lit 1 (-52).
#[global] Arguments f_epsilon : simpl never.

(** [state_matches]. *)
Definition state_matches (current : ReleaseState.t) (fraction : f64) (next : ReleaseState.t)
    (next_fraction : option f64) : bool :=
  bool_decide (current = next)
  && match next_fraction with
     | Some next_fraction => f64_lt (f64_abs (f64_sub next_fraction fraction)) f_epsilon
     | None => true
     end.

(** [enum StepRefusal]. *)
Inductive StepRefusal : Set := TestflightGroupNotFound.

(** [struct Step]: what one monitor pass decided for a release. *)
Record Step := {
  sp_stage : option Stage.t;
  sp_refusal : option StepRefusal;
  sp_transition : option (ReleaseState.t * option f64 * string);
  sp_next_poll_in : Z;
  sp_asc_app_id : option string;
  sp_asc_build_id : option string;
  sp_asc_version_id : option string;
  sp_store_status : option string;
}.

(** [Step::wait]. *)
Definition step_wait (seconds : Z) : Step :=
  {| sp_stage := None; sp_refusal := None; sp_transition := None; sp_next_poll_in := seconds;
     sp_asc_app_id := None; sp_asc_build_id := None; sp_asc_version_id := None; sp_store_status := None |}.

(** What a call of [AppStoreConnect] answers, when it succeeds. *)
Definition reply (c : AscCall) : Type :=
  match c with
  | FindAppId _ => option string
  | FindBuild _ _ _ => option AscBuild
  | BetaDetail _ => AscBetaDetail
  | ListBetaGroups _ => list AscBetaGroup
  | FindOrCreateVersion _ _ => string
  | FindVersion _ _ | FindEditableVersion _ => option AscVersion
  | VersionState _ => string
  | PhasedRelease _ => option AscPhasedRelease
  | _ => unit
  end.

(** [struct AppleApiCredentials]. *)
Record AppleApiCredentials := {
  ac_key_id : string;
  ac_issuer_id : string;
  ac_private_key_pem : string;
}.

(** A step with one of its fields changed. *)
Definition with_stage (s : Stage.t) (st : Step) : Step :=
  {| sp_stage := Some s; sp_refusal := sp_refusal st; sp_transition := sp_transition st;
     sp_next_poll_in := sp_next_poll_in st; sp_asc_app_id := sp_asc_app_id st;
     sp_asc_build_id := sp_asc_build_id st; sp_asc_version_id := sp_asc_version_id st;
     sp_store_status := sp_store_status st |}.

Definition with_refusal (r : StepRefusal) (st : Step) : Step :=
  {| sp_stage := sp_stage st; sp_refusal := Some r; sp_transition := sp_transition st;
     sp_next_poll_in := sp_next_poll_in st; sp_asc_app_id := sp_asc_app_id st;
     sp_asc_build_id := sp_asc_build_id st; sp_asc_version_id := sp_asc_version_id st;
     sp_store_status := sp_store_status st |}.

Definition with_transition (to : ReleaseState.t) (fraction : option f64) (reason : string) (st : Step) : Step :=
  {| sp_stage := sp_stage st; sp_refusal := sp_refusal st; sp_transition := Some (to, fraction, reason);
     sp_next_poll_in := sp_next_poll_in st; sp_asc_app_id := sp_asc_app_id st;
     sp_asc_build_id := sp_asc_build_id st; sp_asc_version_id := sp_asc_version_id st;
     sp_store_status := sp_store_status st |}.

Definition with_poll (seconds : Z) (st : Step) : Step :=
  {| sp_stage := sp_stage st; sp_refusal := sp_refusal st; sp_transition := sp_transition st;
     sp_next_poll_in := seconds; sp_asc_app_id := sp_asc_app_id st;
     sp_asc_build_id := sp_asc_build_id st; sp_asc_version_id := sp_asc_version_id st;
     sp_store_status := sp_store_status st |}.

Definition with_app_id (id : string) (st : Step) : Step :=
  {| sp_stage := sp_stage st; sp_refusal := sp_refusal st; sp_transition := sp_transition st;
     sp_next_poll_in := sp_next_poll_in st; sp_asc_app_id := Some id;
     sp_asc_build_id := sp_asc_build_id st; sp_asc_version_id := sp_asc_version_id st;
     sp_store_status := sp_store_status st |}.

Definition with_build_id (id : string) (st : Step) : Step :=
  {| sp_stage := sp_stage st; sp_refusal := sp_refusal st; sp_transition := sp_transition st;
     sp_next_poll_in := sp_next_poll_in st; sp_asc_app_id := sp_asc_app_id st;
     sp_asc_build_id := Some id; sp_asc_version_id := sp_asc_version_id st;
     sp_store_status := sp_store_status st |}.

Definition with_version_id (id : string) (st : Step) : Step :=
  {| sp_stage := sp_stage st; sp_refusal := sp_refusal st; sp_transition := sp_transition st;
     sp_next_poll_in := sp_next_poll_in st; sp_asc_app_id := sp_asc_app_id st;
     sp_asc_build_id := sp_asc_build_id st; sp_asc_version_id := Some id;
     sp_store_status := sp_store_status st |}.

Definition with_status (status : option string) (st : Step) : Step :=
  {| sp_stage := sp_stage st; sp_refusal := sp_refusal st; sp_transition := sp_transition st;
     sp_next_poll_in := sp_next_poll_in st; sp_asc_app_id := sp_asc_app_id st;
     sp_asc_build_id := sp_asc_build_id st; sp_asc_version_id := sp_asc_version_id st;
     sp_store_status := status |}.

(** The end of a release the monitor gives up on. *)
Definition with_failure (reason : string) (st : Step) : Step :=
  with_transition ReleaseState.Failed None reason (with_stage Stage.Done st).
