(* ===== verification/Vars.v ===== *)
(** * References in repository pipeline files

    [${{ ... }}] expressions of a [version: 2] file and their expansion:
    [parse_expressions], [FlavorScope], [Budget] and [Resolver] of
    [crates/oore-contract/src/pipeline_config.rs].

    The resolver memoises what each var expands to under each flavor scope,
    counts what it spends, and stops at cycles and at the limits.  [expand] is
    the plain meaning it implements: substitute, with no cache, no counters
    and no cycle check.  The theorems say that the resolver returns what
    [expand] says, that it fails only where [expand] has no answer or a limit
    is met, and that it always returns. *)

From stdpp Require Import pretty.
From S2P Require Import Prelude RustStr Stores.
From Stdlib Require Import Ascii.

Local Open Scope Z_scope.

(** ** Expressions *)

(** [enum Expression]; a var carries the byte range of its name. *)
Inductive Expression : Set :=
  | Secret
  | Var (lo hi : nat)
  | Flavor.

Definition slice (l : list ascii) (lo hi : nat) : list ascii := take (hi - lo) (drop lo l).

Definition open_mark : list ascii := bytes "${{".
Definition close_mark : list ascii := bytes "}}".

Definition unterminated : string := "has an unterminated ${{ expression".
Definition unsupported (body : string) : string :=
  "has unsupported expression '${{ " +:+ body
  +:+ " }}'; use ${{ vars.NAME }}, ${{ secrets.NAME }} or ${{ flavor }}".

(** What the body between the marks says. *)
Definition expression_at (l : list ascii) (body_start close : nat) : result string Expression :=
  let body := trim (text (slice l body_start (body_start + close))) in
  if String.eqb body "flavor" then Ok Flavor
  else if from_option is_valid_pipeline_env_key false (strip_prefix "secrets." body) then Ok Secret
  else match strip_prefix "vars." body with
       | Some name =>
           if is_valid_pipeline_env_key name then
             let name_start := (body_start + default 0 (find_l (bytes "vars.") (drop body_start l)) + 5)%nat in
             Ok (Var name_start (name_start + String.length name))
           else Err (unsupported body)
       | None => Err (unsupported body)
       end.

(** The loop of [parse_expressions]; every round moves the cursor on. *)
Fixpoint scan (fuel : nat) (l : list ascii) (cursor : nat) (found : list (nat * nat * Expression))
    : result string (list (nat * nat * Expression)) :=
  match fuel with
  | O => Ok found
  | S fuel =>
      match find_l open_mark (drop cursor l) with
      | None => Ok found
      | Some offset =>
          let start := (cursor + offset)%nat in
          let body_start := (start + 3)%nat in
          match find_l close_mark (drop body_start l) with
          | None => Err unterminated
          | Some close =>
              let stop := (body_start + close + 2)%nat in
              match expression_at l body_start close with
              | Err e => Err e
              | Ok expression => scan fuel l stop (found ++ [(start, stop, expression)])
              end
          end
      end
  end.

Definition parse_expressions (t : string) : result string (list (nat * nat * Expression)) :=
  scan (S (String.length t)) (bytes t) 0 [].

#[global] Arguments parse_expressions : simpl never.
#[global] Arguments slice : simpl never.

(** ** Flavor scopes *)

(** Where a flavor's text lives: the literal vars are validated with, or an
    entry of the flavors that are built. *)
Inductive FlavorPtr : Set := FlavorLiteral | FlavorEntry (index : nat).

#[global] Instance FlavorPtr_eq_dec : EqDecision FlavorPtr.
Proof. solve_decision. Defined.

(** [enum FlavorScope]. *)
Inductive FlavorScope : Set :=
  | Value (ptr : FlavorPtr) (value : string)
  | NoFlavors
  | Outside.

(** [type ScopeKey]: the kind of scope, the address and the length. *)
Definition ScopeKey : Set := Z * option FlavorPtr * Z.

(** [FlavorScope::cache_key]. *)
Definition cache_key (flavor : FlavorScope) : ScopeKey :=
  match flavor with
  | Value ptr value => (0, Some ptr, str_len value)
  | NoFlavors => (1, None, 0)
  | Outside => (2, None, 0)
  end.

(** ** Limits *)

Definition MAX_EXPANDED_BYTES : Z := 64 * 1024.
Definition MAX_VAR_EXPANSIONS : Z := 250000.
Definition MAX_TOTAL_EXPANDED_BYTES : Z := 4 * 1024 * 1024.

(** [str::contains]. *)
Definition contains (p s : string) : bool := bool_decide (is_Some (find_l (bytes p) (bytes s))).

(** [is_limit_error]. *)
Definition is_limit_error (error : string) : bool :=
  contains " through vars" error || contains " in this file" error.

(** [too_long]. *)
Definition too_long (path : string) : string :=
  path +:+ " expands to more than " +:+ pretty (MAX_EXPANDED_BYTES / 1024) +:+ " KiB through vars".
Definition too_many (path : string) : string :=
  path +:+ ": vars expand more than " +:+ pretty MAX_VAR_EXPANSIONS +:+ " times in this file".
Definition too_much (path : string) : string :=
  path +:+ ": vars expand to more than " +:+ pretty (MAX_TOTAL_EXPANDED_BYTES / (1024 * 1024))
  +:+ " MiB in this file".

(** [struct Budget] and the cache of a [Resolver]: per var, its value for
    each flavor scope seen so far. *)
Record spending := {
  expansions : Z;
  expanded_bytes : Z;
  cache : list (list (ScopeKey * string));
}.

Definition cached (st : spending) (var : nat) (key : ScopeKey) : option string :=
  snd <$> List.find (fun entry => bool_decide (entry.1 = key)) (default [] (cache st !! var)).

Definition count_expansion (st : spending) : spending :=
  {| expansions := expansions st + 1; expanded_bytes := expanded_bytes st; cache := cache st |}.
Definition count_bytes (n : Z) (st : spending) : spending :=
  {| expansions := expansions st; expanded_bytes := expanded_bytes st + n; cache := cache st |}.
Definition store (var : nat) (key : ScopeKey) (resolved : string) (st : spending) : spending :=
  {| expansions := expansions st; expanded_bytes := expanded_bytes st;
     cache := alter (fun entries => entries ++ [(key, resolved)]) var (cache st) |}.

(** [Resolver::new] on what a file has spent so far: an empty cache. *)
Definition fresh_cache (n : nat) (st : spending) : spending :=
  {| expansions := expansions st; expanded_bytes := expanded_bytes st; cache := replicate n [] |}.

Definition no_spending : spending := {| expansions := 0; expanded_bytes := 0; cache := [] |}.

(** ** The resolver *)

(** [Resolver::index]: a later var of the same name replaces an earlier. *)
Fixpoint var_index (vars : list (string * string)) (name : string) : option nat :=
  match vars with
  | [] => None
  | (key, _) :: rest =>
      match var_index rest name with
      | Some i => Some (S i)
      | None => if String.eqb key name then Some 0%nat else None
      end
  end.

Fixpoint position (name : string) (l : list string) : option nat :=
  match l with
  | [] => None
  | x :: rest => if String.eqb x name then Some 0%nat else S <$> position name rest
  end.

(** [min_by_key]: the first least entry. *)
Fixpoint min_index (best : nat) (least : string) (i : nat) (l : list string) : nat :=
  match l with
  | [] => best
  | x :: rest =>
      if String.ltb x least then min_index i x (S i) rest else min_index best least (S i) rest
  end.

Definition rotate_left {A} (n : nat) (l : list A) : list A := drop n l ++ take n l.

Definition var_name (name : string) : string := "vars." +:+ name.

(** The report of a cycle, from its first name by byte order. *)
Definition cycle_error (chain : list string) (at_ : nat) : string :=
  let cycle := drop at_ chain in
  let cycle := match cycle with
               | [] => []
               | x :: rest => rotate_left (min_index 0 x 1 rest) cycle
               end in
  let cycle := cycle ++ take 1 cycle in
  "vars form a cycle: " +:+ join " -> " (map var_name cycle).

Definition through (base : nat) (chain : list string) : string :=
  match drop (Nat.min base (length chain)) chain with
  | [] => ""
  | names => " (through " +:+ join " -> " (map var_name names) +:+ ")"
  end.

(** What a call returns: [None] is a run that was given too little fuel; the
    budget and the cache keep what was spent on errors too. *)
Definition outcome (A : Type) : Type := option (result string A * spending).

Section Resolver.
Context (vars : list (string * string)) (flavor : FlavorScope) (path : string) (base : nat).

Definition account (resolved : string) (st : spending) : outcome string :=
  let st := count_bytes (str_len resolved) st in
  if MAX_TOTAL_EXPANDED_BYTES <? expanded_bytes st then Some (Err (too_much path), st)
  else Some (Ok resolved, st).

(** [Expression::Var]: [rec] is the recursive call on the var's text. *)
Definition resolve_var (rec : string -> list string -> spending -> outcome string)
    (name : string) (chain : list string) (st : spending) : outcome string :=
  match position name chain with
  | Some at_ => Some (Err (cycle_error chain at_), st)
  | None =>
      match var_index vars name with
      | None =>
          Some (Err (path +:+ " refers to vars." +:+ name +:+ through base chain
                     +:+ ", which is not defined"), st)
      | Some var =>
          let st := count_expansion st in
          if MAX_VAR_EXPANSIONS <? expansions st then Some (Err (too_many path), st)
          else
            let key := cache_key flavor in
            match cached st var key with
            | Some resolved => account resolved st
            | None =>
                match rec (default "" (snd <$> vars !! var)) (chain ++ [name]) st with
                | Some (Ok resolved, st) => account resolved (store var key resolved st)
                | other => other
                end
            end
      end
  end.

(** What one expression adds to the output. *)
Definition resolve_expression (rec : string -> list string -> spending -> outcome string)
    (l : list ascii) (found : nat * nat * Expression) (chain : list string) (st : spending)
    : outcome string :=
  let '(start, stop, expression) := found in
  match expression with
  | Secret => Some (Ok (text (slice l start stop)), st)
  | Flavor =>
      match flavor with
      | Value _ value => Some (Ok value, st)
      | NoFlavors =>
          Some (Err (path +:+ " uses ${{ flavor }}" +:+ through base chain
                     +:+ ", but no flavors are configured in app.flavors"), st)
      | Outside =>
          Some (Err (path +:+ " uses ${{ flavor }}" +:+ through base chain
                     +:+ ", which is only available in a target's build and artifacts"), st)
      end
  | Var lo hi => resolve_var rec (text (slice l lo hi)) chain st
  end.

(** Text written out in the file is not capped, only what vars add. *)
Definition over_long (out t : string) : bool :=
  (MAX_EXPANDED_BYTES <? str_len out) && (str_len t <? str_len out).

Fixpoint resolve_loop (rec : string -> list string -> spending -> outcome string) (t : string)
    (expressions : list (nat * nat * Expression)) (chain : list string) (out : string)
    (cursor : nat) (st : spending) : outcome string :=
  match expressions with
  | [] =>
      let out := out +:+ text (drop cursor (bytes t)) in
      if over_long out t then Some (Err (too_long path), st) else Some (Ok out, st)
  | found :: rest =>
      let out := out +:+ text (slice (bytes t) cursor found.1.1) in
      match resolve_expression rec (bytes t) found chain st with
      | Some (Ok added, st) =>
          let out := out +:+ added in
          if over_long out t then Some (Err (too_long path), st)
          else resolve_loop rec t rest chain out found.1.2 st
      | other => other
      end
  end.

Definition parse_error (chain : list string) (error : string) : string :=
  if (base <? length chain)%nat then "vars." +:+ default "" (last chain) +:+ " " +:+ error
  else path +:+ " " +:+ error.

(** [Resolver::resolve_inner]. *)
Fixpoint resolve_inner (fuel : nat) (t : string) (chain : list string) (st : spending)
    : outcome string :=
  match fuel with
  | O => None
  | S fuel =>
      match parse_expressions t with
      | Err e => Some (Err (parse_error chain e), st)
      | Ok expressions => resolve_loop (resolve_inner fuel) t expressions chain "" 0 st
      end
  end.
End Resolver.

(** [Resolver::resolve_from]: the chain never repeats a name, so it is never
    longer than the vars are many. *)
Definition resolve_from (vars : list (string * string)) (t : string) (flavor : FlavorScope)
    (path : string) (chain : list string) (st : spending) : result string string * spending :=
  default (Err "", st) (resolve_inner vars flavor path (length chain) (S (length vars)) t chain st).

(** [Resolver::resolve]. *)
Definition resolve (vars : list (string * string)) (t : string) (flavor : FlavorScope)
    (path : string) (st : spending) : result string string * spending :=
  resolve_from vars t flavor path [] st.

#[global] Arguments resolve_from : simpl never.
#[global] Arguments resolve : simpl never.

(** ** What the expressions of a text are *)

(** The first occurrence of [p] in [l] from [from] on. *)
Definition first_at (p l : list ascii) (from at_ : nat) : Prop :=
  (from <= at_)%nat /\ (exists r, drop at_ l = p ++ r) /\
  (forall m r, (from <= m < at_)%nat -> drop m l <> p ++ r).

(** The expression a body stands for; a var's range holds its name. *)
Definition body_reads (l : list ascii) (body : string) (expression : Expression) : Prop :=
  match expression with
  | Flavor => body = "flavor"%string
  | Secret => exists key, is_valid_pipeline_env_key key = true /\ body = "secrets." +:+ key
  | Var lo hi =>
      is_valid_pipeline_env_key (text (slice l lo hi)) = true
      /\ body = "vars." +:+ text (slice l lo hi)
  end.

(** The expressions of [l] from a cursor on: each [${{] opens one, up to the
    first [}}] after it. *)
Inductive parses (l : list ascii) : nat -> list (nat * nat * Expression) -> Prop :=
  | parses_nil cursor :
      (forall n r, (cursor <= n)%nat -> drop n l <> open_mark ++ r) -> parses l cursor []
  | parses_cons cursor start close expression rest :
      first_at open_mark l cursor start ->
      first_at close_mark l (start + 3) close ->
      body_reads l (trim (text (slice l (start + 3) close))) expression ->
      parses l (close + 2) rest ->
      parses l cursor ((start, (close + 2)%nat, expression) :: rest).

Lemma find_l_first_at p l from n :
  p <> [] -> find_l p (drop from l) = Some n <-> first_at p l from (from + n).
Proof.
  intros Hp. rewrite find_l_Some. unfold first_at. rewrite drop_drop. split.
  - intros (Hr & Hlen & Hmin). split_and!; [lia|done|].
    intros m r Hm. specialize (Hmin (m - from)%nat r). rewrite drop_drop in Hmin.
    replace (from + (m - from))%nat with m in Hmin by lia. apply Hmin. lia.
  - intros (_ & (r & Hr) & Hmin). split_and!; [by eauto| |].
    + rewrite length_drop. destruct (decide (n <= length l - from)%nat) as [|Hn]; [done|].
      rewrite (drop_ge l (from + n)) in Hr by lia. by destruct p.
    + intros m r' Hm. rewrite drop_drop. apply Hmin. lia.
Qed.

Lemma find_l_absent p l from :
  p <> [] -> find_l p (drop from l) = None <-> forall n r, (from <= n)%nat -> drop n l <> p ++ r.
Proof.
  intros Hp. rewrite find_l_None. split.
  - intros H n r Hn Heq. destruct (decide (n <= length l)%nat) as [Hl|Hl].
    + apply (H (n - from)%nat r); [rewrite length_drop; lia|].
      rewrite drop_drop. by replace (from + (n - from))%nat with n by lia.
    + rewrite drop_ge in Heq by lia. by destruct p.
  - intros H n r _. rewrite drop_drop. apply H. lia.
Qed.

Lemma first_at_unique p l from a b : first_at p l from a -> first_at p l from b -> a = b.
Proof.
  intros (Ha & (ra & Hra) & Hma) (Hb & (rb & Hrb) & Hmb).
  destruct (Nat.lt_trichotomy a b) as [H|[H|H]]; [|done|].
  - by destruct (Hmb a ra).
  - by destruct (Hma b rb).
Qed.

(** What [trim] takes off the front is white space, which has no [v]. *)
Definition blank (c : ascii) : Prop := c <> "v"%char.

Lemma trim_with_blank encs fuel l :
  Forall (Forall blank) encs -> exists p, l = p ++ trim_with encs fuel l /\ Forall blank p.
Proof.
  intros Hws. revert l; induction fuel as [|fuel IH]; intros l; cbn; [by exists []|].
  pose proof (strip_one_spec encs l) as H. destruct (strip_one encs l) as [r|]; [|by exists []].
  destruct H as (e & He & ->), (IH r) as (p & Hp & Hb). exists (e ++ p). split.
  - by rewrite <- app_assoc, <- Hp.
  - apply Forall_app. split; [|done]. rewrite Forall_forall in Hws. by apply Hws.
Qed.

Lemma trim_split s : exists p q, bytes s = p ++ bytes (trim s) ++ q /\ Forall blank p.
Proof.
  destruct (trim_with_blank ws_encodings (length (bytes s)) (bytes s)) as (p & Hp & Hb);
    [repeat constructor; done|].
  destruct (trim_with_suffix (map (@rev ascii) ws_encodings) (length (trim_start_l (bytes s)))
              (rev (trim_start_l (bytes s)))) as [q Hq].
  exists p, (rev q). split; [|done]. rewrite Hp at 1. f_equal. unfold trim. rewrite bytes_text.
  apply (f_equal (@rev ascii)) in Hq. by rewrite rev_involutive, rev_app_distr in Hq.
Qed.

(** The first [vars.] of a body is the one its name follows. *)
Lemma find_vars_name p name r :
  Forall blank p -> find_l (bytes "vars.") (p ++ bytes "vars." ++ bytes name ++ r) = Some (length p).
Proof.
  intros Hp. apply find_l_Some. split_and!.
  - rewrite drop_app_length. eauto.
  - rewrite length_app. lia.
  - intros m r' Hm Heq. rewrite drop_app_le in Heq by lia.
    destruct (drop m p) as [|c p'] eqn:E.
    + apply (f_equal length) in E. rewrite length_drop in E. cbn in E. lia.
    + cbn in Heq. injection Heq as -> _.
      apply (f_equal (fun l => Forall blank l)) in E.
      assert (Forall blank (drop m p)) as Hd by (by apply Forall_drop). rewrite E in Hd.
      apply Forall_cons in Hd as [Hc _]. by apply Hc.
Qed.

Lemma slice_full (l : list ascii) lo n : (lo + n <= length l)%nat -> length (slice l lo (lo + n)) = n.
Proof. intros H. unfold slice. rewrite length_take, length_drop. lia. Qed.

Lemma vars_range l b c name :
  (b + c <= length l)%nat ->
  trim (text (slice l b (b + c))) = "vars." +:+ name ->
  let start := (b + default 0 (find_l (bytes "vars.") (drop b l)) + 5)%nat in
  slice l start (start + String.length name) = bytes name.
Proof.
  intros Hbc Ht. destruct (trim_split (text (slice l b (b + c)))) as (p & q & Hs & Hp).
  rewrite bytes_text, Ht, bytes_app in Hs.
  assert (Hd : drop b l = p ++ bytes "vars." ++ bytes name ++ (q ++ drop c (drop b l))).
  { rewrite <- (take_drop c (drop b l)) at 1. unfold slice in Hs.
    replace (b + c - b)%nat with c in Hs by lia. rewrite Hs, <- !app_assoc. done. }
  rewrite Hd, find_vars_name by done. cbn [default id]. unfold slice, id.
  replace (b + length p + 5 + String.length name - (b + length p + 5))%nat with (length (bytes name))
    by (rewrite length_bytes; lia).
  replace (b + length p + 5)%nat with (b + (length p + 5))%nat by lia.
  rewrite <- drop_drop, Hd, <- drop_drop, drop_app_length. cbn [bytes].
  change (take (length (bytes name)) (bytes name ++ (q ++ drop c (drop b l))) = bytes name).
  by rewrite take_app_length.
Qed.

Lemma expression_at_reads l b c :
  (b + c <= length l)%nat ->
  match expression_at l b c with
  | Ok expression => body_reads l (trim (text (slice l b (b + c)))) expression
  | Err _ => forall expression, ~ body_reads l (trim (text (slice l b (b + c)))) expression
  end.
Proof.
  intros Hbc. pose proof (vars_range l b c) as Hrange. unfold expression_at.
  set (body := trim (text (slice l b (b + c)))) in *. clearbody body.
  destruct (String.eqb_spec body "flavor") as [->|Hf]; [done|].
  destruct (strip_prefix "secrets." body) as [key|] eqn:Es; cbn [from_option].
  { apply strip_prefix_Some in Es as ->. destruct (is_valid_pipeline_env_key key) eqn:Hk; [by exists key|].
    intros [|lo hi|]; cbn.
    - intros (k & Hk' & Heq). apply (inj (String.append "secrets.")) in Heq. congruence.
    - intros [_ Heq]. discriminate.
    - done. }
  assert (Hns : forall key, body <> "secrets." +:+ key).
  { intros key Heq. apply strip_prefix_Some in Heq. congruence. }
  destruct (strip_prefix "vars." body) as [name|] eqn:Ev.
  - apply strip_prefix_Some in Ev. destruct (is_valid_pipeline_env_key name) eqn:Hn.
    + specialize (Hrange name Hbc Ev). cbv zeta in Hrange. cbn [body_reads]. by rewrite Hrange, text_bytes.
    + intros [|lo hi|]; cbn.
      * intros (k & _ & Heq). by apply (Hns k).
      * intros [Hv Heq]. rewrite Ev in Heq. apply (inj (String.append "vars.")) in Heq. congruence.
      * done.
  - intros [|lo hi|]; cbn.
    + intros (k & _ & Heq). by apply (Hns k).
    + intros [_ Heq]. apply strip_prefix_Some in Heq. congruence.
    + done.
Qed.

Lemma first_at_bound p l from at_ :
  first_at p l from at_ -> (at_ + length p <= length l)%nat \/ p = [].
Proof.
  intros (_ & (r & Hr) & _). destruct p; [by right|left].
  apply (f_equal length) in Hr. rewrite length_app, length_drop in Hr. cbn in *. lia.
Qed.

Lemma scan_parses fuel l cursor found :
  (length l < fuel + cursor)%nat ->
  match scan fuel l cursor found with
  | Ok es => exists rest, es = found ++ rest /\ parses l cursor rest
  | Err _ => forall rest, ~ parses l cursor rest
  end.
Proof.
  revert cursor found; induction fuel as [|fuel IH]; intros cursor found Hfuel; cbn [scan].
  - exists []. rewrite app_nil_r. split; [done|]. constructor. intros n r Hn Heq.
    rewrite drop_ge in Heq by lia. done.
  - destruct (find_l open_mark (drop cursor l)) as [offset|] eqn:Eo.
    2:{ exists []. rewrite app_nil_r. split; [done|]. constructor. by apply find_l_absent. }
    apply find_l_first_at in Eo; [|done].
    destruct (find_l close_mark (drop (cursor + offset + 3) l)) as [close|] eqn:Ec.
    2:{ intros rest Hp. pose proof (proj1 (find_l_absent close_mark l _ ltac:(done)) Ec) as Hno.
        inversion Hp as [? Hnone|? start close e rest' Hs (Hle & (r & Hr) & _)]; subst.
        - destruct Eo as (Hle & (r & Hr) & _). by apply (Hnone (cursor + offset)%nat r).
        - pose proof (first_at_unique _ _ _ _ _ Hs Eo) as ->. by apply (Hno close r). }
    apply find_l_first_at in Ec as Hc; [|done]. pose proof (first_at_bound _ _ _ _ Hc) as [Hb|]; [|done].
    cbn in Hb. pose proof (expression_at_reads l (cursor + offset + 3) close ltac:(lia)) as Hx.
    destruct (expression_at l (cursor + offset + 3) close) as [expression|e].
    + specialize (IH (cursor + offset + 3 + close + 2)%nat
        (found ++ [((cursor + offset)%nat, (cursor + offset + 3 + close + 2)%nat, expression)]) ltac:(lia)).
      destruct (scan _ _ _ _) as [es|e].
      * destruct IH as (rest & -> & Hrest).
        exists (((cursor + offset)%nat, (cursor + offset + 3 + close + 2)%nat, expression) :: rest).
        split; [by rewrite <- app_assoc|]. by constructor.
      * intros rest Hp. inversion Hp as [? Hnone|? start close' e' rest' Hs Hc' Hx' Hrest]; subst.
        { destruct Eo as (Hle & (r & Hr) & _). by apply (Hnone (cursor + offset)%nat r). }
        pose proof (first_at_unique _ _ _ _ _ Hs Eo) as ->.
        pose proof (first_at_unique _ _ _ _ _ Hc' Hc) as ->. by apply (IH rest').
    + intros rest Hp. inversion Hp as [? Hnone|? start close' e' rest' Hs Hc' Hx' Hrest]; subst.
      { destruct Eo as (Hle & (r & Hr) & _). by apply (Hnone (cursor + offset)%nat r). }
      pose proof (first_at_unique _ _ _ _ _ Hs Eo) as ->.
      pose proof (first_at_unique _ _ _ _ _ Hc' Hc) as ->. by apply (Hx e').
Qed.

(** [parse_expressions] finds exactly the expressions of a text, each where
    it is written, and fails only on texts that have no reading. *)
Theorem parse_expressions_spec (t : string) :
  match parse_expressions t with
  | Ok es => parses (bytes t) 0 es
  | Err _ => forall es, ~ parses (bytes t) 0 es
  end.
Proof.
  pose proof (scan_parses (S (String.length t)) (bytes t) 0 []) as H.
  rewrite length_bytes in H. specialize (H ltac:(lia)). unfold parse_expressions.
  destruct (scan _ _ _ _); [|done]. by destruct H as (rest & -> & Hr).
Qed.

(** ** What a text expands to *)

Inductive piece : Set :=
  | Lit (s : string)
  | SecretRef (raw : string)
  | VarRef (name : string)
  | FlavorRef.

Definition piece_of (l : list ascii) (found : nat * nat * Expression) : piece :=
  let '(start, stop, expression) := found in
  match expression with
  | Secret => SecretRef (text (slice l start stop))
  | Var lo hi => VarRef (text (slice l lo hi))
  | Flavor => FlavorRef
  end.

(** The text between the expressions and the expressions. *)
Fixpoint pieces_from (l : list ascii) (es : list (nat * nat * Expression)) (cursor : nat) : list piece :=
  match es with
  | [] => [Lit (text (drop cursor l))]
  | found :: rest =>
      Lit (text (slice l cursor found.1.1)) :: piece_of l found :: pieces_from l rest found.1.2
  end.

Definition joined (l : list string) : string := foldr String.append "" l.

Definition var_value (vars : list (string * string)) (name : string) : option string :=
  i ← var_index vars name; snd <$> vars !! i.

(** Substitution, to a depth. *)
Definition expand_piece (vars : list (string * string)) (flavor : FlavorScope)
    (rec : string -> option string) (p : piece) : option string :=
  match p with
  | Lit s | SecretRef s => Some s
  | VarRef name => var_value vars name ≫= rec
  | FlavorRef => match flavor with Value _ value => Some value | _ => None end
  end.

Fixpoint expand (vars : list (string * string)) (flavor : FlavorScope) (depth : nat) (t : string)
    : option string :=
  match depth with
  | O => None
  | S depth =>
      match parse_expressions t with
      | Err _ => None
      | Ok es =>
          joined <$> mapM (expand_piece vars flavor (expand vars flavor depth)) (pieces_from (bytes t) es 0)
      end
  end.

(** [t] expands to [s]; [t] has no expansion. *)
Definition expands (vars : list (string * string)) (flavor : FlavorScope) (t s : string) : Prop :=
  exists depth, expand vars flavor depth t = Some s.
Definition unexpandable (vars : list (string * string)) (flavor : FlavorScope) (t : string) : Prop :=
  forall depth, expand vars flavor depth t = None.

Lemma joined_cons s l : joined (s :: l) = s +:+ joined l.
Proof. done. Qed.

Lemma append_nil_r s : s +:+ "" = s.
Proof. induction s as [|c s IH]; [done|]. by rewrite append_cons, IH. Qed.

Lemma append_assoc (a b c : string) : (a +:+ b) +:+ c = a +:+ (b +:+ c).
Proof. induction a as [|x a IH]; [done|]. by rewrite !append_cons, IH. Qed.

Lemma str_len_append a b : str_len (a +:+ b) = str_len a + str_len b.
Proof.
  unfold str_len. rewrite <- !length_bytes, bytes_app, length_app. lia.
Qed.

Section Expand.
Context (vars : list (string * string)) (flavor : FlavorScope).

Abbreviation expand_p := (expand_piece vars flavor).
Abbreviation expand_t := (expand vars flavor).

Lemma expand_piece_mono (f g : string -> option string) p s :
  (forall t x, f t = Some x -> g t = Some x) -> expand_p f p = Some s -> expand_p g p = Some s.
Proof.
  intros Hfg. destruct p as [| |name|]; cbn; [done..| |done].
  destruct (var_value vars name); cbn; [apply Hfg|done].
Qed.

Lemma expand_pieces_mono (f g : string -> option string) ps ss :
  (forall t x, f t = Some x -> g t = Some x) ->
  mapM (expand_p f) ps = Some ss -> mapM (expand_p g) ps = Some ss.
Proof.
  intros Hfg. rewrite !mapM_Some. intros H. eapply Forall2_impl; [exact H|].
  intros p s. by apply expand_piece_mono.
Qed.

Lemma expand_mono n m t s : (n <= m)%nat -> expand_t n t = Some s -> expand_t m t = Some s.
Proof.
  revert m t s; induction n as [|n IH]; intros [|m] t s Hle; cbn; [done|done|lia|].
  destruct (parse_expressions t) as [es|]; [|done].
  intros (ss & Hss & ->)%fmap_Some. apply fmap_Some. exists ss. split; [|done].
  eapply expand_pieces_mono, Hss. intros t' x. apply IH. lia.
Qed.

Lemma expands_det t s s' : expands vars flavor t s -> expands vars flavor t s' -> s = s'.
Proof.
  intros [n Hn] [m Hm]. apply (expand_mono n (n + m)) in Hn; [|lia].
  apply (expand_mono m (n + m)) in Hm; [|lia]. congruence.
Qed.

Lemma expand_var n t es name s :
  parse_expressions t = Ok es -> VarRef name ∈ pieces_from (bytes t) es 0 ->
  expand_t n t = Some s ->
  exists n' value s', n = S n' /\ var_value vars name = Some value /\ expand_t n' value = Some s'.
Proof.
  intros Hes Hin. destruct n as [|n]; [done|]. cbn. rewrite Hes.
  intros (ss & Hss & _)%fmap_Some. apply mapM_Some in Hss.
  apply list_elem_of_lookup in Hin as [i Hi].
  pose proof (Forall2_lookup_l _ _ _ _ _ Hss Hi) as (x & _ & Hx). cbn in Hx.
  apply bind_Some in Hx as (value & Hv & Hx). eauto 6.
Qed.
End Expand.

(** ** The resolver computes expansions *)

(** The flavor texts are where their scopes say, so that a cache key names
    one scope. *)
Definition placed (memory : FlavorPtr -> string) (flavor : FlavorScope) : Prop :=
  match flavor with Value ptr value => memory ptr = value | _ => True end.

Lemma placed_inj memory f g : placed memory f -> placed memory g -> cache_key f = cache_key g -> f = g.
Proof. destruct f, g; cbn; intros; simplify_eq; done. Qed.

(** What is cached for a var is what its text expands to. *)
Definition sound (vars : list (string * string)) (memory : FlavorPtr -> string) (st : spending) : Prop :=
  forall var flavor s, placed memory flavor -> cached st var (cache_key flavor) = Some s ->
  expands vars flavor (default "" (snd <$> vars !! var)) s.

Definition limit_error (path error : string) : Prop :=
  error = too_long path \/ error = too_many path \/ error = too_much path.

Lemma var_index_lookup vars name i : var_index vars name = Some i -> exists value, vars !! i = Some (name, value).
Proof.
  revert i; induction vars as [|[key value] vars IH]; intros i; cbn; [done|].
  destruct (var_index vars name) as [j|].
  - intros [= <-]. by apply IH.
  - destruct (String.eqb_spec key name) as [->|]; [|done]. intros [= <-]. cbn. eauto.
Qed.

Lemma var_index_value vars name i :
  var_index vars name = Some i -> var_value vars name = Some (default "" (snd <$> vars !! i)).
Proof.
  intros H. unfold var_value. rewrite H. cbn. apply var_index_lookup in H as [value ->]. done.
Qed.

Lemma position_None name l : position name l = None <-> name ∉ l.
Proof.
  induction l as [|x l IH]; cbn; [set_solver|]. rewrite not_elem_of_cons, <- IH.
  destruct (String.eqb_spec x name) as [->|Hne]; [naive_solver|].
  rewrite fmap_None. naive_solver.
Qed.

Lemma cached_store st var key s v k :
  cached (store var key s st) v k =
  match cached st v k with
  | Some x => Some x
  | None => if decide (v = var /\ k = key /\ (var < length (cache st))%nat) then Some s else None
  end.
Proof.
  unfold cached, store. cbn. destruct (decide (v = var)) as [->|Hv].
  - rewrite list_lookup_alter_eq. destruct (cache st !! var) as [entries|] eqn:E; cbn.
    + apply lookup_lt_Some in E. induction entries as [|e entries IH]; cbn.
      * case_bool_decide as H; cbn; [rewrite decide_True by done; done|].
        rewrite decide_False; [done|]. intros (_ & -> & _). by apply H.
      * destruct (bool_decide (e.1 = k)); [done|]. apply IH.
    + apply lookup_ge_None in E. rewrite decide_False; [done|]. intros (_ & _ & ?). lia.
  - rewrite list_lookup_alter_ne by done. rewrite decide_False by naive_solver.
    by destruct (snd <$> _).
Qed.

Lemma cached_fresh n st v k : cached (fresh_cache n st) v k = None.
Proof.
  unfold cached, fresh_cache. cbn. destruct (replicate n _ !! v) as [e|] eqn:E; [|done].
  apply lookup_replicate in E as [-> _]. done.
Qed.

Lemma sound_fresh vars memory n st : sound vars memory (fresh_cache n st).
Proof. intros var flavor s _. by rewrite cached_fresh. Qed.

#[export] Hint Resolve sound_fresh : oore.

Section Sound.
Context (vars : list (string * string)) (memory : FlavorPtr -> string) (flavor : FlavorScope)
  (path : string) (base : nat) (Hplaced : placed memory flavor).

(** [chain] leads to [t]: an expansion of a var of the chain contains one of
    [t] that is no deeper. *)
Definition leads_to (chain : list string) (t : string) : Prop :=
  forall name value n s, name ∈ chain -> var_value vars name = Some value ->
  expand vars flavor n value = Some s -> exists m, (m <= n)%nat /\ is_Some (expand vars flavor m t).

Definition rec_ok (rec : string -> list string -> spending -> outcome string) : Prop :=
  forall t chain st r st', sound vars memory st -> rec t chain st = Some (r, st') ->
  sound vars memory st' /\
  match r with
  | Ok s => expands vars flavor t s
  | Err e => limit_error path e \/ (leads_to chain t -> unexpandable vars flavor t)
  end.

(** A piece has no expansion. *)
Definition stuck (p : piece) : Prop := forall n, expand_piece vars flavor (expand vars flavor n) p = None.

Lemma stuck_unexpandable t es p :
  parse_expressions t = Ok es -> p ∈ pieces_from (bytes t) es 0 -> stuck p -> unexpandable vars flavor t.
Proof.
  intros Hes Hin Hp [|n]; cbn; [done|]. rewrite Hes. apply fmap_None.
  destruct (mapM _ _) as [ss|] eqn:E; [|done]. apply mapM_Some in E.
  apply list_elem_of_lookup in Hin as [i Hi].
  pose proof (Forall2_lookup_l _ _ _ _ _ E Hi) as (x & _ & Hx). by rewrite Hp in Hx.
Qed.

Lemma leads_to_app chain t es name value :
  parse_expressions t = Ok es -> VarRef name ∈ pieces_from (bytes t) es 0 ->
  var_value vars name = Some value -> leads_to chain t -> leads_to (chain ++ [name]) value.
Proof.
  intros Hes Hin Hv Hlead c v n s Hc Hcv Hn. apply elem_of_app in Hc as [Hc|Hc%list_elem_of_singleton].
  - destruct (Hlead c v n s Hc Hcv Hn) as (m & Hm & [s' Hs']).
    destruct (expand_var _ _ _ _ _ _ _ Hes Hin Hs') as (m' & value' & s'' & -> & Hv' & Hs'').
    exists m'. split; [lia|]. assert (value' = value) as -> by congruence. eauto.
  - subst c. assert (v = value) as -> by congruence. eauto.
Qed.

(** A cycle has no expansion. *)
Lemma cycle_unexpandable chain t es name :
  parse_expressions t = Ok es -> VarRef name ∈ pieces_from (bytes t) es 0 ->
  name ∈ chain -> leads_to chain t -> unexpandable vars flavor t.
Proof.
  intros Hes Hin Hc Hlead n. destruct (expand vars flavor n t) as [s|] eqn:E; [|done]. exfalso.
  revert s E. induction n as [n IH] using lt_wf_ind. intros s E.
  destruct (expand_var _ _ _ _ _ _ _ Hes Hin E) as (n' & value & s' & -> & Hv & Hs').
  destruct (Hlead name value n' s' Hc Hv Hs') as (m & Hm & [x Hx]). apply (IH m ltac:(lia) x Hx).
Qed.

Lemma sound_counted st st' :
  cache st' = cache st -> sound vars memory st -> sound vars memory st'.
Proof. intros Hc H var f s Hf. unfold cached. rewrite Hc. by apply H. Qed.

Lemma sound_store st var s :
  sound vars memory st -> expands vars flavor (default "" (snd <$> vars !! var)) s ->
  sound vars memory (store var (cache_key flavor) s st).
Proof.
  intros H Hs v f x Hf. rewrite cached_store.
  destruct (cached st v (cache_key f)) as [y|] eqn:E.
  - intros [= ->]. by apply H.
  - case_decide as Hk; [|done]. destruct Hk as (-> & Hk & _). intros [= <-].
    by rewrite (placed_inj memory f flavor Hf Hplaced Hk).
Qed.

Lemma account_ok resolved st r st' :
  account path resolved st = Some (r, st') ->
  cache st' = cache st /\ match r with Ok s => s = resolved | Err e => limit_error path e end.
Proof.
  unfold account. case_match; intros [= <- <-]; split; try done. right. by right.
Qed.

(** What resolving the piece [p] of [t] gives. *)
Definition piece_ok (chain : list string) (t : string) (p : piece) (r : result string string)
    (st' : spending) : Prop :=
  sound vars memory st' /\
  match r with
  | Ok s => exists n, expand_piece vars flavor (expand vars flavor n) p = Some s
  | Err e => limit_error path e \/ (leads_to chain t -> stuck p \/ unexpandable vars flavor t)
  end.

Lemma var_account name var resolved st chain t r st' :
  var_index vars name = Some var -> sound vars memory st ->
  expands vars flavor (default "" (snd <$> vars !! var)) resolved ->
  account path resolved st = Some (r, st') -> piece_ok chain t (VarRef name) r st'.
Proof.
  intros Hi Hst [n Hn] Ha. apply account_ok in Ha as [Hc Hr]. split; [by eapply sound_counted|].
  destruct r as [s|e]; [|by left]. subst s. exists n. cbn. by rewrite (var_index_value _ _ _ Hi).
Qed.

Lemma resolve_var_ok rec name chain t es st r st' :
  rec_ok rec -> sound vars memory st ->
  parse_expressions t = Ok es -> VarRef name ∈ pieces_from (bytes t) es 0 ->
  resolve_var vars flavor path base rec name chain st = Some (r, st') ->
  piece_ok chain t (VarRef name) r st'.
Proof.
  intros Hrec Hst Hes Hin. unfold resolve_var.
  destruct (position name chain) as [at_|] eqn:Ep.
  { intros [= <- <-]. split; [done|]. right. intros Hlead. right.
    destruct (decide (name ∈ chain)) as [Hc|Hc%position_None]; [|congruence].
    by eapply cycle_unexpandable. }
  destruct (var_index vars name) as [var|] eqn:Ei.
  2:{ intros [= <- <-]. split; [done|]. right. intros _. left. intros n. cbn.
      unfold var_value. by rewrite Ei. }
  cbv zeta. set (st1 := count_expansion st).
  assert (Hst1 : sound vars memory st1) by (by eapply sound_counted).
  destruct (MAX_VAR_EXPANSIONS <? expansions st1).
  { intros [= <- <-]. split; [done|]. left. right. by left. }
  destruct (cached st1 var (cache_key flavor)) as [resolved|] eqn:Ec.
  { apply (var_account name var); [done|done|]. by apply Hst1. }
  pose proof (var_index_value _ _ _ Ei) as Hv.
  destruct (rec _ (chain ++ [name]) st1) as [[[resolved|e] st2]|] eqn:Er; [| |done].
  - apply Hrec in Er as [Hst2 Hs]; [|done].
    apply (var_account name var); [done| |done]. by apply sound_store.
  - intros [= <- <-]. apply Hrec in Er as [Hst2 He]; [|done]. split; [done|].
    destruct He as [He|He]; [by left|right]. intros Hlead. left. intros n. cbn. rewrite Hv. cbn.
    apply He. by eapply leads_to_app.
Qed.

Lemma resolve_expression_ok rec found chain t es st r st' :
  rec_ok rec -> sound vars memory st ->
  parse_expressions t = Ok es -> piece_of (bytes t) found ∈ pieces_from (bytes t) es 0 ->
  resolve_expression vars flavor path base rec (bytes t) found chain st = Some (r, st') ->
  piece_ok chain t (piece_of (bytes t) found) r st'.
Proof.
  intros Hrec Hst Hes. destruct found as [[start stop] [|lo hi|]]; cbn.
  - intros _ [= <- <-]. split; [done|]. by exists 0%nat.
  - intros Hin. by eapply resolve_var_ok.
  - intros _ H. unfold piece_ok, stuck. cbn [expand_piece].
    destruct flavor eqn:Ef; injection H as <- <-; (split; [done|]).
    + by exists 0%nat.
    + right. intros _. by left.
    + right. intros _. by left.
Qed.

Lemma resolve_loop_ok rec t es0 chain es out cursor st r st' :
  rec_ok rec -> sound vars memory st -> parse_expressions t = Ok es0 ->
  (forall p, p ∈ pieces_from (bytes t) es cursor -> p ∈ pieces_from (bytes t) es0 0) ->
  resolve_loop vars flavor path base rec t es chain out cursor st = Some (r, st') ->
  sound vars memory st' /\
  match r with
  | Ok s => exists n ss, s = out +:+ joined ss /\
      mapM (expand_piece vars flavor (expand vars flavor n)) (pieces_from (bytes t) es cursor) = Some ss
  | Err e => limit_error path e \/ (leads_to chain t -> unexpandable vars flavor t)
  end.
Proof.
  intros Hrec. revert out cursor st; induction es as [|found es IH]; intros out cursor st Hst Hes Hsub; cbn.
  - destruct (over_long _ _); intros [= <- <-]; (split; [done|]); [left; by left|].
    exists 0%nat, [text (drop cursor (bytes t))]. cbn. by rewrite append_nil_r.
  - destruct (resolve_expression _ _ _ _ _ _ _ _ _) as [[[added|e] st1]|] eqn:Ex; [| |done].
    + apply (resolve_expression_ok _ _ _ _ es0) in Ex as (Hst1 & n & Hn); [|done..|apply Hsub; set_solver].
      destruct (over_long _ _); [intros [= <- <-]; split; [done|left; by left]|].
      intros Hl. apply IH in Hl as [Hst' Hr]; [|done..|intros p Hp; apply Hsub; set_solver].
      split; [done|]. destruct r as [s|e]; [|done]. destruct Hr as (m & ss & -> & Hss).
      exists (n + m)%nat, (text (slice (bytes t) cursor found.1.1) :: added :: ss). split.
      * rewrite !joined_cons, !append_assoc. done.
      * apply (expand_pieces_mono _ _ _ (expand vars flavor (n + m))) in Hss; [|intros t' x; apply (expand_mono _ _ m (n + m)); lia].
        apply (expand_piece_mono _ _ _ (expand vars flavor (n + m))) in Hn; [|intros t' x; apply (expand_mono _ _ n (n + m)); lia].
        cbn. rewrite Hn. cbn. by rewrite Hss.
    + intros [= <- <-]. apply (resolve_expression_ok _ _ _ _ es0) in Ex as (Hst1 & He);
        [|done..|apply Hsub; set_solver].
      split; [done|]. destruct He as [He|He]; [by left|right]. intros Hlead.
      destruct (He Hlead) as [Hstuck|]; [|done].
      eapply stuck_unexpandable; [done| |done]. apply Hsub. set_solver.
Qed.

Lemma resolve_inner_ok fuel : rec_ok (resolve_inner vars flavor path base fuel).
Proof.
  induction fuel as [|fuel IH]; [done|]. intros t chain st r st' Hst. cbn.
  destruct (parse_expressions t) as [es|e] eqn:Hes.
  - intros H. eapply resolve_loop_ok in H as [Hst' Hr]; [|done..].
    split; [done|]. destruct r as [s|]; [|done]. destruct Hr as (n & ss & -> & Hss).
    exists (S n). cbn. by rewrite Hes, Hss.
  - intros [= <- <-]. split; [done|]. right. intros _ [|n]; cbn; [done|]. by rewrite Hes.
Qed.

(** *** The fuel is enough *)

Definition names (l : list (string * string)) : list string := map fst l.

Lemma var_index_name name i : var_index vars name = Some i -> name ∈ names vars.
Proof.
  intros [value Hv]%var_index_lookup. apply list_elem_of_fmap. exists (name, value).
  split; [done|]. by eapply list_elem_of_lookup_2.
Qed.

Definition total_on (fuel : nat) (rec : string -> list string -> spending -> outcome string) : Prop :=
  forall t chain st, NoDup chain -> chain ⊆ names vars ->
  (length vars < fuel + length chain)%nat -> is_Some (rec t chain st).

Lemma resolve_expression_total fuel rec l found chain st :
  total_on fuel rec -> NoDup chain -> chain ⊆ names vars -> (length vars < S fuel + length chain)%nat ->
  is_Some (resolve_expression vars flavor path base rec l found chain st).
Proof.
  intros Hrec Hnd Hsub Hfuel. destruct found as [[start stop] [|lo hi|]]; cbn; [eauto| |by destruct flavor; eauto].
  unfold resolve_var. set (name := text (slice l lo hi)). destruct (position name chain) eqn:Ep; [eauto|].
  destruct (var_index vars name) as [var|] eqn:Ei; [|eauto].
  cbv zeta. destruct (_ <? _); [eauto|].
  assert (Hacc : forall s st, is_Some (account path s st)) by (intros; unfold account; case_match; eauto).
  destruct (cached _ _ _); [by apply Hacc|].
  edestruct (Hrec (default "" (snd <$> vars !! var)) (chain ++ [name]) (count_expansion st)) as [[r st1] ->].
  - apply NoDup_app. split_and!; [done| |apply NoDup_singleton]. apply position_None in Ep. set_solver.
  - apply var_index_name in Ei. set_solver.
  - rewrite length_app. cbn. lia.
  - destruct r; [by apply Hacc|eauto].
Qed.

Lemma resolve_loop_total fuel rec t es chain out cursor st :
  total_on fuel rec -> NoDup chain -> chain ⊆ names vars -> (length vars < S fuel + length chain)%nat ->
  is_Some (resolve_loop vars flavor path base rec t es chain out cursor st).
Proof.
  intros Hrec Hnd Hsub Hfuel. revert out cursor st; induction es as [|found es IH]; intros out cursor st; cbn.
  - case_match; eauto.
  - destruct (resolve_expression_total fuel rec (bytes t) found chain st) as [[r st1] ->]; [done..|].
    destruct r; [|eauto]. case_match; eauto.
Qed.

Lemma resolve_inner_total fuel : total_on fuel (resolve_inner vars flavor path base fuel).
Proof.
  induction fuel as [|fuel IH]; intros t chain st Hnd Hsub Hlen.
  - exfalso. pose proof (submseteq_length _ _ (NoDup_submseteq _ _ Hnd Hsub)) as H. unfold names in H.
    rewrite length_map in H. lia.
  - cbn. destruct (parse_expressions t); [|eauto]. by eapply resolve_loop_total.
Qed.
End Sound.

Section Resolve.
Context (vars : list (string * string)) (memory : FlavorPtr -> string).

(** A chain a text may be resolved from: none, or the var the text is. *)
Definition from_var (t : string) (chain : list string) : Prop :=
  chain = [] \/ exists name, chain = [name] /\ var_value vars name = Some t.

Lemma from_var_leads flavor t chain : from_var t chain -> leads_to vars flavor chain t.
Proof.
  intros [->|(name & -> & Hv)] c value n s Hc; [set_solver|]. apply list_elem_of_singleton in Hc as ->.
  intros Hcv Hn. assert (value = t) as -> by congruence. eauto.
Qed.

(** A call returns, with what [expand] says or an error that [expand] or a
    limit explains. *)
Lemma resolve_from_ok t flavor path chain st :
  placed memory flavor -> sound vars memory st -> from_var t chain ->
  let '(r, st') := resolve_from vars t flavor path chain st in
  sound vars memory st' /\
  match r with
  | Ok s => expands vars flavor t s
  | Err e => limit_error path e \/ unexpandable vars flavor t
  end.
Proof.
  intros Hf Hst Hfrom. unfold resolve_from.
  destruct (resolve_inner_total vars memory flavor path (length chain) Hf (S (length vars)) t chain st) as [[r st'] E].
  - destruct Hfrom as [->|(name & -> & _)]; [apply NoDup_nil_2|apply NoDup_singleton].
  - destruct Hfrom as [->|(name & -> & Hv)]; [set_solver|].
    apply bind_Some in Hv as (i & Hi%var_index_name & _). set_solver.
  - lia.
  - rewrite E. cbn. apply (resolve_inner_ok vars memory flavor path (length chain) Hf) in E as [Hst' Hr]; [|done].
    split; [done|]. destruct r as [s|e]; [done|]. destruct Hr as [He|He]; [by left|right].
    by apply He, from_var_leads.
Qed.
End Resolve.
