(* ===== verification/VarCosts.v ===== *)
(** * What resolving references costs

    The resolver of [Vars] charges every reference it follows to the budget of
    the file, and each var only once per flavor scope.  Here the charge is
    computed: a successful call charges the references of its text and those
    of the vars it caches, no more and no less ([resolve_charges]), and a call
    whose charge the budget covers succeeds ([resolve_affords]).  A file that
    was validated with one budget is therefore planned with a fresh one, for
    all its targets or for some. *)

From stdpp Require Import pretty gmap.
From S2P Require Import Prelude RustStr Stores Vars.
From Stdlib Require Import Ascii.

Local Open Scope Z_scope.

#[global] Instance FlavorPtr_countable : Countable FlavorPtr.
Proof.
  refine (inj_countable' (fun p => match p with FlavorLiteral => None | FlavorEntry i => Some i end)
    (fun o => match o with None => FlavorLiteral | Some i => FlavorEntry i end) _). by intros [].
Defined.

#[global] Instance ScopeKey_eq_dec : EqDecision ScopeKey := _.
#[global] Instance ScopeKey_countable : Countable ScopeKey := _.

(** ** Sums over sets of cached vars *)

Definition total (w : nat * ScopeKey -> Z) (X : gset (nat * ScopeKey)) : Z :=
  set_fold (fun x acc => w x + acc) 0 X.

Lemma total_union w X Y : X ## Y -> total w (X ∪ Y) = total w X + total w Y.
Proof.
  intros H. unfold total. rewrite (set_fold_disj_union_strong (=)); [|solve_proper|intros; lia|done].
  generalize (set_fold (fun x acc => w x + acc) 0 X). intros b.
  unfold set_fold. cbn. induction (elements Y) as [|y l IH]; cbn; [lia|]. rewrite IH. lia.
Qed.

Lemma total_singleton w x : total w {[x]} = w x.
Proof. unfold total. rewrite set_fold_singleton. lia. Qed.

Lemma total_empty w : total w ∅ = 0.
Proof. apply set_fold_empty. Qed.

Lemma total_nonneg w X : (forall x, 0 <= w x) -> 0 <= total w X.
Proof.
  intros Hw. unfold total, set_fold. cbn. induction (elements X) as [|x l IH]; cbn; [done|].
  specialize (Hw x). lia.
Qed.

Lemma total_mono w X Y : (forall x, 0 <= w x) -> X ⊆ Y -> total w X <= total w Y.
Proof.
  intros Hw HXY. assert (HY : Y = X ∪ (Y ∖ X)).
  { apply set_eq. intros x. destruct (decide (x ∈ X)); set_solver. }
  rewrite HY, total_union by set_solver. pose proof (total_nonneg w (Y ∖ X) Hw). lia.
Qed.

(** A smaller set in a larger one. *)
Lemma total_diff w X Y Z' :
  X ⊆ Y -> Y ⊆ Z' -> total w (Z' ∖ X) = total w (Y ∖ X) + total w (Z' ∖ Y).
Proof.
  intros HX HY. rewrite <- total_union by set_solver. f_equal. apply leibniz_equiv.
  intros x. rewrite elem_of_union, !elem_of_difference.
  destruct (decide (x ∈ Y)); set_solver.
Qed.

(** ** The references of a text *)

Section Costs.
Context (vars : list (string * string)) (memory : FlavorPtr -> string).

Definition value_of (v : nat) : string := default "" (snd <$> vars !! v).

Definition piece_ref (p : piece) : option nat :=
  match p with VarRef name => var_index vars name | _ => None end.

(** The vars a text refers to, with repetitions. *)
Definition refs (t : string) : list nat :=
  match parse_expressions t with
  | Ok es => omap piece_ref (pieces_from (bytes t) es 0)
  | Err _ => []
  end.

(** The scope a key is for. *)
Definition scope_of (key : ScopeKey) : FlavorScope :=
  match key with
  | (0, Some ptr, _) => Value ptr (memory ptr)
  | (1, _, _) => NoFlavors
  | _ => Outside
  end.

Lemma scope_of_key flavor : placed memory flavor -> scope_of (cache_key flavor) = flavor.
Proof. by destruct flavor; cbn; [intros ->|..]. Qed.

(** The length of what a var expands to under a scope. *)
Definition var_size (x : nat * ScopeKey) : Z :=
  str_len (default "" (expand vars (scope_of x.2) (S (length vars)) (value_of x.1))).

(** A text's charges: one expansion per reference, and their bytes. *)
Definition sum_of (f : nat -> Z) (l : list nat) : Z := foldr (fun v acc => f v + acc) 0 l.
Definition ref_count (l : list nat) : Z := sum_of (fun _ => 1) l.
Definition ref_bytes (key : ScopeKey) (l : list nat) : Z := sum_of (fun v => var_size (v, key)) l.

Definition var_count (x : nat * ScopeKey) : Z := ref_count (refs (value_of x.1)).
Definition var_bytes (x : nat * ScopeKey) : Z := ref_bytes x.2 (refs (value_of x.1)).

Lemma sum_of_app f l k : sum_of f (l ++ k) = sum_of f l + sum_of f k.
Proof. induction l as [|v l IH]; [done|]. cbn. fold (sum_of f (l ++ k)) (sum_of f l). lia. Qed.

Lemma sum_of_nonneg f l : (forall v, 0 <= f v) -> 0 <= sum_of f l.
Proof. intros Hf. induction l as [|v l IH]; [done|]. cbn. specialize (Hf v). fold (sum_of f l). lia. Qed.

Lemma var_size_nonneg x : 0 <= var_size x.
Proof. unfold var_size, str_len. lia. Qed.

Lemma var_count_nonneg x : 0 <= var_count x.
Proof. apply sum_of_nonneg. lia. Qed.

Lemma var_bytes_nonneg x : 0 <= var_bytes x.
Proof. apply sum_of_nonneg. intros v. apply var_size_nonneg. Qed.

(** Expansions are no deeper than the vars are many. *)
Lemma chain_room chain name :
  NoDup chain -> name ∉ chain -> chain ++ [name] ⊆ names vars -> (length chain < length vars)%nat.
Proof.
  intros Hnd Hnot Hsub. assert (Hnd' : NoDup (chain ++ [name])).
  { apply NoDup_app. split_and!; [done|set_solver|apply NoDup_singleton]. }
  pose proof (submseteq_length _ _ (NoDup_submseteq _ _ Hnd' Hsub)) as H.
  unfold names in H. rewrite length_app, length_map in H. cbn in H. lia.
Qed.

Lemma expand_depth flavor k n t s chain :
  expand vars flavor n t = Some s -> leads_to vars flavor chain t ->
  NoDup chain -> chain ⊆ names vars -> (length vars <= k + length chain)%nat ->
  expand vars flavor (S k) t = Some s.
Proof.
  revert n t s chain; induction k as [k IH] using lt_wf_ind; intros n t s chain Hn Hlead Hnd Hsub Hk.
  destruct n as [|n]; [done|]. pose proof Hn as Hn0. cbn in Hn |- *.
  destruct (parse_expressions t) as [es|] eqn:Hes; [|done].
  apply fmap_Some in Hn as (ss & Hss & ->). apply fmap_Some. exists ss. split; [|done].
  apply mapM_Some in Hss. apply mapM_Some.
  apply (Forall2_impl_in _ _ _ _ Hss). intros p x Hp Hx.
  destruct p as [| |name|]; cbn in Hx |- *; [done..| |done].
  apply bind_Some in Hx as (value & Hv & Hx). rewrite Hv. cbn.
  assert (Hnot : name ∉ chain).
  { intros Hc. pose proof (cycle_unexpandable vars flavor chain t es name Hes Hp Hc Hlead (S n)). congruence. }
  assert (Hin : name ∈ names vars).
  { apply bind_Some in Hv as (i & Hi & _). by eapply var_index_name. }
  pose proof (chain_room chain name Hnd Hnot ltac:(set_solver)) as Hroom.
  destruct k as [|k]; [lia|].
  apply (IH k ltac:(lia) n value x (chain ++ [name])).
  - done.
  - by eapply leads_to_app.
  - apply NoDup_app. split_and!; [done|set_solver|apply NoDup_singleton].
  - set_solver.
  - rewrite length_app. cbn. lia.
Qed.

Lemma expands_depth flavor t s :
  expands vars flavor t s -> expand vars flavor (S (length vars)) t = Some s.
Proof.
  intros [n Hn]. apply (expand_depth flavor _ n t s []); [done|..|lia].
  - intros c. set_solver.
  - apply NoDup_nil_2.
  - set_solver.
Qed.

(** ** What is cached *)

Definition held (st : spending) : gset (nat * ScopeKey) :=
  list_to_set (concat (imap (fun v entries => map (fun e => (v, e.1)) entries) (cache st))).

Lemma elem_of_held st v k : (v, k) ∈ held st <-> is_Some (cached st v k).
Proof.
  unfold held, cached. rewrite elem_of_list_to_set, list_elem_of_In, in_concat. split.
  - intros (l & Hl & Hk). apply list_elem_of_In, list_elem_of_lookup in Hl as [i Hi].
    rewrite list_lookup_imap in Hi. apply fmap_Some in Hi as (entries & He & ->).
    apply in_map_iff in Hk as (e & [= <- <-] & Hin). rewrite He. cbn.
    destruct (List.find _ entries) as [e'|] eqn:E; cbn; [eauto|].
    eapply find_none in E; [|done]. by rewrite bool_decide_eq_false in E.
  - intros [s Hs]. apply fmap_Some in Hs as (e & He & ->).
    destruct (cache st !! v) as [entries|] eqn:E; [|done]. cbn in He.
    apply find_some in He as [Hin Hk]. apply bool_decide_eq_true in Hk.
    exists (map (fun e => (v, e.1)) entries). split.
    + apply list_elem_of_In, list_elem_of_lookup. exists v. rewrite list_lookup_imap, E. done.
    + apply in_map_iff. exists e. split; [by rewrite Hk|done].
Qed.

Lemma not_held st v k : (v, k) ∉ held st <-> cached st v k = None.
Proof. rewrite elem_of_held. by rewrite eq_None_not_Some. Qed.

Lemma held_fresh n st : held (fresh_cache n st) = ∅.
Proof.
  apply set_eq. intros [v k]. rewrite elem_of_held, cached_fresh.
  split; [by intros []|set_solver].
Qed.

Lemma held_store st v k s :
  (v < length (cache st))%nat -> held (store v k s st) = {[(v, k)]} ∪ held st.
Proof.
  intros Hv. apply set_eq. intros [v' k'].
  rewrite elem_of_union, elem_of_singleton, !elem_of_held, cached_store.
  destruct (cached st v' k') as [x|]; [naive_solver|].
  case_decide as H; [naive_solver|]. split; [by intros []|].
  intros [[= -> ->]|[]]; naive_solver.
Qed.

Section Charges.
Context (flavor : FlavorScope) (path : string) (base : nat) (Hplaced : placed memory flavor).

Abbreviation key := (cache_key flavor).

(** What is cached is sound, complete below every var, and within length. *)
Record warm (st : spending) : Prop := {
  w_sound : sound vars memory st;
  w_length : length (cache st) = length vars;
  w_closed : forall v f s, placed memory f -> cached st v (cache_key f) = Some s ->
    (forall j, j ∈ refs (value_of v) -> (j, cache_key f) ∈ held st)
    /\ over_long s (value_of v) = false;
}.

Lemma warm_counted st st' : cache st' = cache st -> warm st -> warm st'.
Proof.
  intros Hc [Hs Hl Hcl]. split.
  - by eapply sound_counted.
  - by rewrite Hc.
  - intros v f s Hf. unfold held, cached. rewrite Hc. by apply Hcl.
Qed.

Lemma held_counted st st' : cache st' = cache st -> held st' = held st.
Proof. intros Hc. unfold held. by rewrite Hc. Qed.

Lemma var_size_expands v s : expands vars flavor (value_of v) s -> var_size (v, key) = str_len s.
Proof. intros H%expands_depth. unfold var_size. cbn [fst snd]. by rewrite scope_of_key, H. Qed.

(** From [st] to [st'] the references [rs] were followed. *)
Record charged (chain : list string) (st st' : spending) (rs : list nat) : Prop := {
  c_warm : warm st';
  c_held : held st ⊆ held st';
  c_refs : forall j, j ∈ rs -> (j, key) ∈ held st';
  c_count : expansions st' = expansions st + ref_count rs + total var_count (held st' ∖ held st);
  c_bytes : expanded_bytes st' = expanded_bytes st + ref_bytes key rs + total var_bytes (held st' ∖ held st);
  c_count_max : expansions st <= MAX_VAR_EXPANSIONS -> expansions st' <= MAX_VAR_EXPANSIONS;
  c_bytes_max : expanded_bytes st <= MAX_TOTAL_EXPANDED_BYTES -> expanded_bytes st' <= MAX_TOTAL_EXPANDED_BYTES;
  c_chain : forall c i, c ∈ chain -> var_index vars c = Some i -> (i, key) ∉ held st -> (i, key) ∉ held st';
}.

Lemma charged_refl chain st : warm st -> charged chain st st [].
Proof.
  intros H. split; try done; [set_solver|..];
    rewrite (difference_diag_L (held st)), total_empty; cbn; lia.
Qed.

Lemma charged_trans chain st st1 st2 r1 r2 :
  charged chain st st1 r1 -> charged chain st1 st2 r2 -> charged chain st st2 (r1 ++ r2).
Proof.
  intros [] []. split; try done; [set_solver| |..].
  - intros j [Hj|Hj]%elem_of_app; [|by eauto]. set_solver.
  - unfold ref_count in *. rewrite sum_of_app, (total_diff _ (held st) (held st1) (held st2)) by done. lia.
  - unfold ref_bytes in *. rewrite sum_of_app, (total_diff _ (held st) (held st1) (held st2)) by done. lia.
  - intros. auto.
  - intros. auto.
  - intros c i Hc Hi Hn. eauto.
Qed.

(** *** Successful calls *)

Definition rec_charges (rec : string -> list string -> spending -> outcome string) : Prop :=
  forall t chain st s st', warm st -> rec t chain st = Some (Ok s, st') ->
  charged chain st st' (refs t) /\ over_long s t = false.

Lemma account_charged chain st st1 r st' v s :
  account path s st1 = Some (Ok r, st') -> expands vars flavor (value_of v) s ->
  warm st1 -> (v, key) ∈ held st1 -> held st ⊆ held st1 ->
  expansions st1 = expansions st + 1 + total var_count (held st1 ∖ held st) ->
  expanded_bytes st1 = expanded_bytes st + total var_bytes (held st1 ∖ held st) ->
  expansions st1 <= MAX_VAR_EXPANSIONS ->
  (forall c i, c ∈ chain -> var_index vars c = Some i -> (i, key) ∉ held st -> (i, key) ∉ held st1) ->
  charged chain st st' [v].
Proof.
  intros Ha Hs Hw Hv Hsub Hcount Hbytes Hmax Hchain. unfold account in Ha. cbv zeta in Ha.
  destruct (Z.ltb_spec MAX_TOTAL_EXPANDED_BYTES (expanded_bytes (count_bytes (str_len s) st1))); [done|].
  injection Ha as <- <-. cbn in *.
  assert (Hh : held (count_bytes (str_len s) st1) = held st1) by (by apply held_counted).
  split; rewrite ?Hh; cbn; try done.
  - by apply (warm_counted st1).
  - intros j ->%list_elem_of_singleton. done.
  - rewrite (var_size_expands v s Hs). lia.
Qed.

Lemma warm_store st v s :
  warm st -> (v < length vars)%nat -> expands vars flavor (value_of v) s ->
  (forall j, j ∈ refs (value_of v) -> (j, key) ∈ held st) -> over_long s (value_of v) = false ->
  warm (store v key s st).
Proof.
  intros [Hs Hl Hc] Hv Hx Hrefs Hlong. split.
  - by apply sound_store.
  - cbn. by rewrite length_alter.
  - intros v' f x Hf. rewrite held_store by lia. rewrite cached_store.
    destruct (cached st v' (cache_key f)) as [y|] eqn:E.
    + intros [= ->]. destruct (Hc v' f x Hf E) as [Hr Ho]. split; [|done]. set_solver.
    + case_decide as Hd; [|done]. destruct Hd as (-> & Hk & _). intros [= <-]. rewrite Hk.
      split; [|done]. set_solver.
Qed.

Lemma var_index_lt name v : var_index vars name = Some v -> (v < length vars)%nat.
Proof. intros [value H]%var_index_lookup. by apply lookup_lt_Some in H. Qed.

Lemma var_index_inj name name' v :
  var_index vars name = Some v -> var_index vars name' = Some v -> name = name'.
Proof. intros [x Hx]%var_index_lookup [y Hy]%var_index_lookup. congruence. Qed.

(** A var that was resolved is paid for once it is stored. *)
Lemma store_charged name v chain st st2 s :
  var_index vars name = Some v -> name ∉ chain -> (v, key) ∉ held st ->
  charged (chain ++ [name]) (count_expansion st) st2 (refs (value_of v)) ->
  expands vars flavor (value_of v) s -> over_long s (value_of v) = false ->
  let st3 := store v key s st2 in
  warm st3 /\ (v, key) ∈ held st3 /\ held st ⊆ held st3
  /\ expansions st3 = expansions st + 1 + total var_count (held st3 ∖ held st)
  /\ expanded_bytes st3 = expanded_bytes st + total var_bytes (held st3 ∖ held st)
  /\ (expansions st + 1 <= MAX_VAR_EXPANSIONS -> expansions st3 <= MAX_VAR_EXPANSIONS)
  /\ (forall c i, c ∈ chain -> var_index vars c = Some i -> (i, key) ∉ held st -> (i, key) ∉ held st3).
Proof.
  intros Hi Hn Hnew [Hw2 Hsub Hrefs Hcount Hbytes Hcmax _ Hchain] Hx Hlong st3.
  assert (Hh1 : held (count_expansion st) = held st) by (by apply held_counted).
  rewrite Hh1 in *. pose proof (var_index_lt _ _ Hi) as Hlt.
  assert (Hnew2 : (v, key) ∉ held st2) by (apply (Hchain name v); set_solver).
  assert (Hh3 : held st3 = {[(v, key)]} ∪ held st2) by (apply held_store; by rewrite (w_length _ Hw2)).
  assert (Hsplit : held st3 ∖ held st = {[(v, key)]} ∪ held st2 ∖ held st)
    by (rewrite Hh3; apply set_eq; intros x; destruct (decide (x = (v, key))); set_solver).
  rewrite Hsplit, !total_union, !total_singleton by set_solver. unfold var_count at 1, var_bytes at 1.
  split_and!.
  - by apply warm_store.
  - rewrite Hh3. set_solver.
  - rewrite Hh3. set_solver.
  - change (expansions st3) with (expansions st2). rewrite Hcount. cbn. lia.
  - change (expanded_bytes st3) with (expanded_bytes st2). rewrite Hbytes. cbn. lia.
  - intros H. by apply Hcmax.
  - intros c i Hc Hci Hni. rewrite Hh3. apply not_elem_of_union. split.
    + apply not_elem_of_singleton. intros [= ->]. apply Hn. by rewrite (var_index_inj name c v).
    + apply (Hchain c i); [set_solver|done|done].
Qed.

Lemma resolve_var_charges rec name chain st s st' :
  rec_ok vars memory flavor path rec -> rec_charges rec -> warm st ->
  resolve_var vars flavor path base rec name chain st = Some (Ok s, st') ->
  exists v, var_index vars name = Some v /\ charged chain st st' [v].
Proof.
  intros Hok Hrec Hw. unfold resolve_var.
  destruct (position name chain) eqn:Ep; [done|]. apply position_None in Ep.
  destruct (var_index vars name) as [v|] eqn:Ei; [|done]. cbv zeta.
  set (st1 := count_expansion st). assert (Hw1 : warm st1) by (by apply (warm_counted st)).
  assert (Hh1 : held st1 = held st) by (by apply held_counted).
  destruct (Z.ltb_spec MAX_VAR_EXPANSIONS (expansions st1)) as [|Hmax]; [done|].
  intros H. exists v. split; [done|].
  destruct (cached st1 v key) as [resolved|] eqn:Ec.
  - apply (account_charged chain st st1 s st' v resolved); try done; rewrite ?Hh1.
    + by apply (w_sound _ Hw1).
    + rewrite <- Hh1. apply elem_of_held. eauto.
    + rewrite difference_diag_L, total_empty. cbn. lia.
    + rewrite difference_diag_L, total_empty. cbn. lia.
  - destruct (rec _ (chain ++ [name]) st1) as [[[resolved|e] st2]|] eqn:Er; [|done|done].
    change (default "" (snd <$> vars !! v)) with (value_of v) in Er.
    destruct (Hok _ _ _ _ _ (w_sound _ Hw1) Er) as [_ Hx].
    destruct (Hrec _ _ _ _ _ Hw1 Er) as [Hc Hlong].
    destruct (store_charged name v chain st st2 resolved) as (Hw3 & Hin & Hsub & Hcount & Hbytes & Hcm & Hch); try done.
    { rewrite <- Hh1. by apply not_held. }
    apply (account_charged chain st (store v key resolved st2) s st' v resolved); try done. by apply Hcm.
Qed.

Lemma resolve_expression_charges rec l found chain st s st' :
  rec_ok vars memory flavor path rec -> rec_charges rec -> warm st ->
  resolve_expression vars flavor path base rec l found chain st = Some (Ok s, st') ->
  charged chain st st' (omap piece_ref [piece_of l found]).
Proof.
  intros Hok Hrec Hw. destruct found as [[start stop] [|lo hi|]]; cbn.
  - intros [= <- <-]. by apply charged_refl.
  - intros H. apply resolve_var_charges in H as (v & -> & H); done.
  - intros H. assert (st' = st) as -> by (destruct flavor; congruence). by apply charged_refl.
Qed.

Lemma resolve_loop_charges rec t es chain out cursor st s st' :
  rec_ok vars memory flavor path rec -> rec_charges rec -> warm st ->
  resolve_loop vars flavor path base rec t es chain out cursor st = Some (Ok s, st') ->
  charged chain st st' (omap piece_ref (pieces_from (bytes t) es cursor)) /\ over_long s t = false.
Proof.
  intros Hok Hrec. revert out cursor st; induction es as [|found es IH]; intros out cursor st Hw; cbn [resolve_loop].
  - cbv zeta. destruct (over_long _ _) eqn:E; [done|]. intros [= <- <-]. split; [|done]. by apply charged_refl.
  - cbv zeta. destruct (resolve_expression _ _ _ _ _ _ _ _ _) as [[[added|e] st1]|] eqn:Ex; [|done|done].
    destruct (over_long (_ +:+ added) t); [done|]. apply resolve_expression_charges in Ex as Hc; [|done..].
    intros H. apply IH in H as [Hc' Ho]; [|by apply Hc]. split; [|done].
    pose proof (charged_trans _ _ _ _ _ _ Hc Hc') as Hcc. rewrite <- omap_app in Hcc. done.
Qed.

Lemma resolve_inner_charges fuel : rec_charges (resolve_inner vars flavor path base fuel).
Proof.
  induction fuel as [|fuel IH]; [done|]. intros t chain st s st' Hw. cbn. unfold refs.
  destruct (parse_expressions t) as [es|e]; [|done].
  apply resolve_loop_charges; [by apply resolve_inner_ok|done|done].
Qed.

(** *** Affordable calls *)

(** [C] holds what its vars refer to, and all of it can be cached. *)
Definition covers (C : gset (nat * ScopeKey)) : Prop :=
  forall v, (v, key) ∈ C ->
  (forall j, j ∈ refs (value_of v) -> (j, key) ∈ C)
  /\ exists s, expands vars flavor (value_of v) s /\ over_long s (value_of v) = false.

(** The vars that are being resolved. *)
Definition pending (chain : list string) : gset (nat * ScopeKey) :=
  list_to_set (omap (fun c => (fun i => (i, key)) <$> var_index vars c) chain).

Lemma elem_of_pending chain v k :
  (v, k) ∈ pending chain <-> k = key /\ exists c, c ∈ chain /\ var_index vars c = Some v.
Proof.
  unfold pending. rewrite elem_of_list_to_set, list_elem_of_omap. split.
  - intros (c & Hc & Hv). apply fmap_Some in Hv as (i & Hi & [= -> ->]). eauto.
  - intros (-> & c & Hc & Hv). exists c. rewrite Hv. done.
Qed.

(** What is cached and still to be cached, with the references [rs], is within
    the budget. *)
Record affords (C : gset (nat * ScopeKey)) (chain : list string) (st : spending) (rs : list nat) : Prop := {
  a_held : held st ⊆ C;
  a_count : expansions st + ref_count rs + total var_count (C ∖ held st ∖ pending chain) <= MAX_VAR_EXPANSIONS;
  a_bytes : expanded_bytes st + ref_bytes key rs + total var_bytes (C ∖ held st ∖ pending chain)
            <= MAX_TOTAL_EXPANDED_BYTES;
}.

(** Affordability after some of the references were followed. *)
Lemma affords_charged C chain st st' r1 r2 :
  charged chain st st' r1 -> held st' ⊆ C -> affords C chain st (r1 ++ r2) -> affords C chain st' r2.
Proof.
  intros [_ Hsub _ Hc Hb _ _ Hchain] HC [_ Ha Hab].
  assert (Hsplit : C ∖ held st ∖ pending chain = (held st' ∖ held st) ∪ (C ∖ held st' ∖ pending chain)).
  { apply set_eq. intros [v k]. rewrite elem_of_union, !elem_of_difference.
    destruct (decide ((v, k) ∈ held st')) as [Hin|Hin]; [|set_solver].
    split; [set_solver|]. intros [[_ Hn]|]; [|set_solver]. split; [set_solver|].
    intros (-> & c & Hc' & Hi)%elem_of_pending. by apply (Hchain c v). }
  unfold ref_count, ref_bytes in *. rewrite Hsplit, total_union, sum_of_app in Ha, Hab by set_solver.
  split; [done|unfold ref_count|unfold ref_bytes]; lia.
Qed.

Definition rec_affords (C : gset (nat * ScopeKey)) (fuel : nat)
    (rec : string -> list string -> spending -> outcome string) : Prop :=
  forall t chain st s, warm st -> NoDup chain -> chain ⊆ names vars -> leads_to vars flavor chain t ->
  (length vars < fuel + length chain)%nat ->
  expands vars flavor t s -> over_long s t = false -> (forall j, j ∈ refs t -> (j, key) ∈ C) ->
  affords C chain st (refs t) ->
  exists st', rec t chain st = Some (Ok s, st') /\ held st' ⊆ C.

Lemma over_long_prefix a b t : over_long (a +:+ b) t = false -> over_long a t = false.
Proof.
  unfold over_long. rewrite str_len_append. assert (0 <= str_len b) by (unfold str_len; lia).
  intros H'. apply andb_false_iff in H' as [H'|H']; apply Z.ltb_ge in H'; apply andb_false_iff;
    [left|right]; apply Z.ltb_ge; lia.
Qed.

Lemma pending_app C st chain name v :
  var_index vars name = Some v -> name ∉ chain -> (v, key) ∈ C -> (v, key) ∉ held st ->
  C ∖ held st ∖ pending chain = {[(v, key)]} ∪ (C ∖ held st ∖ pending (chain ++ [name]))
  /\ (v, key) ∈ pending (chain ++ [name]).
Proof.
  intros Hi Hn HC Hh. assert (Hp : pending (chain ++ [name]) = {[(v, key)]} ∪ pending chain).
  { apply set_eq. intros [v' k]. rewrite elem_of_union, elem_of_singleton, !elem_of_pending. split.
    - intros (-> & c & [Hc|Hc%list_elem_of_singleton]%elem_of_app & Hv); [right; eauto|].
      left. congruence.
    - intros [[= -> ->]|(-> & c & Hc & Hv)]; (split; [done|]); [exists name|exists c]; set_solver. }
  assert (Hnp : (v, key) ∉ pending chain).
  { intros (_ & c & Hc & Hv)%elem_of_pending. by rewrite (var_index_inj name c v) in Hn. }
  split; [|set_solver]. rewrite Hp. apply set_eq. intros x.
  destruct (decide (x = (v, key))); set_solver.
Qed.

Lemma account_affords s st :
  expanded_bytes st + str_len s <= MAX_TOTAL_EXPANDED_BYTES ->
  exists st', account path s st = Some (Ok s, st') /\ held st' = held st.
Proof.
  intros H. unfold account. cbv zeta. cbn [expanded_bytes count_bytes].
  destruct (Z.ltb_spec MAX_TOTAL_EXPANDED_BYTES (expanded_bytes st + str_len s)); [lia|].
  eexists. split; [done|]. by apply held_counted.
Qed.

Lemma nested_affords C chain st name v rest :
  var_index vars name = Some v -> name ∉ chain -> (v, key) ∈ C -> (v, key) ∉ held st ->
  affords C chain st (v :: rest) ->
  affords C (chain ++ [name]) (count_expansion st) (refs (value_of v)).
Proof.
  intros Hi Hn HC Hh [Hsub Ha Hb]. destruct (pending_app C st chain name v) as (Hsplit & Hp); [done..|].
  assert (Hheld : held (count_expansion st) = held st) by (by apply held_counted).
  rewrite Hsplit, total_union, total_singleton in Ha, Hb by set_solver.
  assert (0 <= ref_count rest) by (apply sum_of_nonneg; lia).
  assert (0 <= ref_bytes key rest) by (apply sum_of_nonneg; intros; apply var_size_nonneg).
  pose proof (var_size_nonneg (v, key)). unfold ref_count, ref_bytes in *. cbn in Ha, Hb.
  split; rewrite ?Hheld; [done|..]; cbn.
  - unfold var_count at 1, ref_count in Ha. cbn in Ha. unfold ref_count. fold (sum_of (fun _ => 1) rest) in Ha. lia.
  - unfold var_bytes at 1, ref_bytes in Hb. cbn in Hb. unfold ref_bytes. fold (sum_of (fun v => var_size (v, key)) rest) in Hb. lia.
Qed.

Lemma resolve_var_affords C fuel rec name chain t es st v rest value s :
  covers C -> rec_ok vars memory flavor path rec -> rec_charges rec -> rec_affords C fuel rec ->
  warm st -> NoDup chain -> chain ⊆ names vars -> leads_to vars flavor chain t ->
  (length vars < S fuel + length chain)%nat ->
  parse_expressions t = Ok es -> VarRef name ∈ pieces_from (bytes t) es 0 -> name ∉ chain ->
  var_index vars name = Some v -> var_value vars name = Some value -> expands vars flavor value s ->
  (v, key) ∈ C -> affords C chain st (v :: rest) ->
  exists st', resolve_var vars flavor path base rec name chain st = Some (Ok s, st') /\ held st' ⊆ C.
Proof.
  intros Hcov Hok Hch Hrec Hw Hnd Hsub Hlead Hfuel Hes Hin Hn Hi Hv Hs HC Haff.
  pose proof (var_index_value _ _ _ Hi) as Hv'. fold (value_of v) in Hv'.
  assert (value = value_of v) as -> by congruence. clear Hv.
  pose proof (var_size_expands v s Hs) as Hsize.
  pose proof Haff as [Hsub' Ha Hb]. unfold resolve_var.
  rewrite (proj2 (position_None name chain) Hn), Hi. cbv zeta.
  pose proof (total_nonneg var_count (C ∖ held st ∖ pending chain) var_count_nonneg).
  pose proof (total_nonneg var_bytes (C ∖ held st ∖ pending chain) var_bytes_nonneg).
  assert (0 <= ref_count rest) by (apply sum_of_nonneg; lia).
  assert (0 <= ref_bytes key rest) by (apply sum_of_nonneg; intros; apply var_size_nonneg).
  change (ref_count (v :: rest)) with (1 + ref_count rest) in Ha.
  change (ref_bytes key (v :: rest)) with (var_size (v, key) + ref_bytes key rest) in Hb.
  set (st1 := count_expansion st). assert (Hw1 : warm st1) by (by apply (warm_counted st)).
  assert (Hh1 : held st1 = held st) by (by apply held_counted).
  destruct (Z.ltb_spec MAX_VAR_EXPANSIONS (expansions st1)) as [Hlt|_]; [cbn in Hlt; lia|].
  destruct (cached st1 v key) as [resolved|] eqn:Ec.
  - assert (resolved = s) as ->.
    { eapply expands_det; [|exact Hs]. by apply (w_sound _ Hw1). }
    destruct (account_affords s st1) as (st' & Hacc & Hh); [cbn; lia|].
    exists st'. split; [done|]. by rewrite Hh, Hh1.
  - apply not_held in Ec as Hnew. rewrite Hh1 in Hnew. destruct (Hcov v HC) as [Hrefs (s' & Hs' & Hlong)].
    assert (s' = s) as -> by (by eapply expands_det).
    fold (value_of v). destruct (Hrec (value_of v) (chain ++ [name]) st1 s) as (st2 & Er & Hh2); try done.
    + apply NoDup_app. split_and!; [done|set_solver|apply NoDup_singleton].
    + apply var_index_name in Hi. set_solver.
    + by eapply leads_to_app.
    + rewrite length_app. cbn. lia.
    + by eapply nested_affords.
    + rewrite Er. destruct (Hch _ _ _ _ _ Hw1 Er) as [[Hw2 Hsub2 _ _ Hbytes _ _ Hchain] _].
      rewrite Hh1 in *.
      assert (Hh3 : held (store v key s st2) = {[(v, key)]} ∪ held st2).
      { apply held_store. rewrite (w_length _ Hw2). by eapply var_index_lt. }
      assert (Hnp : forall y, y ∈ pending chain -> y ∉ held st2 ∖ held st).
      { intros [i k] (-> & c & Hc & Hci)%elem_of_pending [Hy1 Hy2]%elem_of_difference.
        by apply (Hchain c i); [set_solver|..]. }
      assert (Hvn : (v, key) ∉ held st2) by (apply (Hchain name v); set_solver).
      assert (Hvp : (v, key) ∉ pending chain).
      { intros (_ & c & Hc & Hcv)%elem_of_pending. by rewrite (var_index_inj name c v) in Hn. }
      assert (Hle : total var_bytes ({[(v, key)]} ∪ held st2 ∖ held st)
                    <= total var_bytes (C ∖ held st ∖ pending chain)).
      { apply total_mono; [apply var_bytes_nonneg|]. intros y Hy. specialize (Hnp y). set_solver. }
      rewrite total_union, total_singleton in Hle by set_solver. unfold var_bytes at 1 in Hle. cbn [fst snd] in Hle.
      destruct (account_affords s (store v key s st2)) as (st' & Hacc & Hh); [cbn in *; lia|].
      exists st'. split; [done|]. rewrite Hh, Hh3. set_solver.
Qed.

Lemma resolve_loop_affords C fuel rec t es0 es chain n0 x st out cursor n ss :
  covers C -> rec_ok vars memory flavor path rec -> rec_charges rec -> rec_affords C fuel rec ->
  NoDup chain -> chain ⊆ names vars -> leads_to vars flavor chain t ->
  (length vars < S fuel + length chain)%nat ->
  parse_expressions t = Ok es0 -> expand vars flavor n0 t = Some x ->
  (forall p, p ∈ pieces_from (bytes t) es cursor -> p ∈ pieces_from (bytes t) es0 0) ->
  warm st ->
  mapM (expand_piece vars flavor (expand vars flavor n)) (pieces_from (bytes t) es cursor) = Some ss ->
  over_long (out +:+ joined ss) t = false ->
  (forall j, j ∈ omap piece_ref (pieces_from (bytes t) es cursor) -> (j, key) ∈ C) ->
  affords C chain st (omap piece_ref (pieces_from (bytes t) es cursor)) ->
  exists st', resolve_loop vars flavor path base rec t es chain out cursor st
              = Some (Ok (out +:+ joined ss), st') /\ held st' ⊆ C.
Proof.
  intros Hcov Hok Hch Hrec Hnd Hsub Hlead Hfuel Hes Hx.
  revert st out cursor ss; induction es as [|found es IH]; intros st out cursor ss Hin Hw Hss Hlong Hrefs Haff.
  - cbn in Hss. injection Hss as <-. cbn [joined foldr] in Hlong |- *. rewrite append_nil_r in *.
    cbn [resolve_loop]. cbv zeta. rewrite Hlong. exists st. split; [done|]. apply Haff.
  - cbn [pieces_from mapM] in Hss. cbn [expand_piece] in Hss.
    apply bind_Some in Hss as (? & [= <-] & Hss). apply bind_Some in Hss as (ys & Hss & [= <-]).
    apply bind_Some in Hss as (added & Hadd & Hss). apply bind_Some in Hss as (zs & Hss & [= <-]).
    rewrite !joined_cons, <- !append_assoc in Hlong. rewrite !joined_cons, <- !append_assoc.
    assert (Hex : exists st1, resolve_expression vars flavor path base rec (bytes t) found chain st
                              = Some (Ok added, st1) /\ held st1 ⊆ C).
    { destruct found as [[start stop] [|lo hi|]]; cbn [piece_of expand_piece] in Hadd; cbn [resolve_expression].
      - injection Hadd as <-. exists st. split; [done|]. apply Haff.
      - apply bind_Some in Hadd as (value & Hv & Hadd). pose proof Hv as Hv'.
        apply bind_Some in Hv' as (v & Hi & _).
        assert (Hcons : omap piece_ref (pieces_from (bytes t) ((start, stop, Var lo hi) :: es) cursor)
                        = v :: omap piece_ref (pieces_from (bytes t) es stop)) by (cbn; by rewrite Hi).
        rewrite Hcons in Haff, Hrefs.
        assert (Hvar : VarRef (text (slice (bytes t) lo hi)) ∈ pieces_from (bytes t) es0 0)
          by (apply Hin; cbn; set_solver).
        eapply (resolve_var_affords C fuel rec _ chain t es0 st v _ value added); try done.
        + intros Hc. pose proof (cycle_unexpandable vars flavor chain t es0 _ Hes Hvar Hc Hlead n0). congruence.
        + by exists n.
        + apply Hrefs. set_solver.
      - destruct flavor; [|done|done]. injection Hadd as <-. exists st. split; [done|]. apply Haff. }
    destruct Hex as (st1 & Hex & Hh1). cbn [resolve_loop]. cbv zeta. rewrite Hex.
    rewrite (over_long_prefix _ _ _ Hlong).
    pose proof (resolve_expression_charges _ _ _ _ _ _ _ Hok Hch Hw Hex) as Hcharged.
    assert (Happ : omap piece_ref (pieces_from (bytes t) (found :: es) cursor)
                   = omap piece_ref [piece_of (bytes t) found] ++ omap piece_ref (pieces_from (bytes t) es found.1.2))
      by (by rewrite <- omap_app).
    rewrite Happ in Haff, Hrefs. eapply (IH st1 _ found.1.2 zs).
    + intros p Hp. apply Hin. cbn. set_solver.
    + apply Hcharged.
    + done.
    + done.
    + intros j Hj. apply Hrefs. set_solver.
    + by eapply affords_charged.
Qed.

Lemma resolve_inner_affords C fuel : covers C -> rec_affords C fuel (resolve_inner vars flavor path base fuel).
Proof.
  intros Hcov. induction fuel as [|fuel IH]; intros t chain st s Hw Hnd Hsub Hlead Hfuel Hs Hlong Hrefs Haff.
  - exfalso. pose proof (submseteq_length _ _ (NoDup_submseteq _ _ Hnd Hsub)) as H. unfold names in H.
    rewrite length_map in H. lia.
  - destruct Hs as [[|n] Hs]; [done|]. pose proof Hs as Hs0. cbn in Hs |- *. unfold refs in Hrefs, Haff.
    destruct (parse_expressions t) as [es|e] eqn:Hes; [|done].
    apply fmap_Some in Hs as (ss & Hss & ->).
    apply (resolve_loop_affords C fuel _ t es es chain (S n) (joined ss) st "" 0 n ss); try done.
    + by apply resolve_inner_ok.
    + apply resolve_inner_charges.
Qed.
End Charges.

(** ** Two budgets *)

Definition within (st : spending) : Prop :=
  expansions st <= MAX_VAR_EXPANSIONS /\ expanded_bytes st <= MAX_TOTAL_EXPANDED_BYTES.

(** Every cached var of [small] is cached in [big], and [small] can pay for
    the others with what [big] has spent more. *)
Record funds (big small : spending) : Prop := {
  f_big : warm big;
  f_small : warm small;
  f_held : held small ⊆ held big;
  f_count : expansions small + total var_count (held big ∖ held small) <= expansions big;
  f_bytes : expanded_bytes small + total var_bytes (held big ∖ held small) <= expanded_bytes big;
}.

(** What any call does to the budget, also one that fails. *)
Record paid (st st' : spending) : Prop := {
  p_warm : warm st';
  p_held : held st ⊆ held st';
  p_count : expansions st + total var_count (held st' ∖ held st) <= expansions st';
  p_bytes : expanded_bytes st + total var_bytes (held st' ∖ held st) <= expanded_bytes st';
}.

Lemma ref_count_nonneg rs : 0 <= ref_count rs.
Proof. apply sum_of_nonneg. lia. Qed.

Lemma ref_bytes_nonneg k rs : 0 <= ref_bytes k rs.
Proof. apply sum_of_nonneg. intros. apply var_size_nonneg. Qed.

Lemma charged_paid flavor chain st st' rs : charged flavor chain st st' rs -> paid st st'.
Proof.
  intros [Hw Hsub _ Hc Hb _ _ _]. pose proof (ref_count_nonneg rs).
  pose proof (ref_bytes_nonneg (cache_key flavor) rs). split; [done..|lia|lia].
Qed.

Lemma paid_trans st st1 st2 : paid st st1 -> paid st1 st2 -> paid st st2.
Proof.
  intros [? Hs1 Hc1 Hb1] [? Hs2 Hc2 Hb2]. split; [done|set_solver|..];
    rewrite (total_diff _ (held st) (held st1) (held st2)) by done; lia.
Qed.

Lemma paid_counted st st' :
  cache st' = cache st -> expansions st <= expansions st' -> expanded_bytes st <= expanded_bytes st' ->
  warm st -> paid st st'.
Proof.
  intros Hc He Hb Hw. pose proof (held_counted st st' Hc) as Hh.
  split; rewrite ?Hh, ?difference_diag_L, ?total_empty; [by apply (warm_counted st)|done|lia|lia].
Qed.

Lemma paid_within st st' : paid st st' -> within st' -> within st.
Proof.
  intros [_ _ Hc Hb] [Hc' Hb'].
  pose proof (total_nonneg var_count (held st' ∖ held st) var_count_nonneg).
  pose proof (total_nonneg var_bytes (held st' ∖ held st) var_bytes_nonneg). split; lia.
Qed.

(** One run pays, the other does not. *)
Lemma funds_paid big small big' : funds big small -> paid big big' -> funds big' small.
Proof.
  intros [Hb Hs Hsub Hc Hby] [Hw Hsub' Hc' Hby'].
  split; [done|done|set_solver|..]; rewrite (total_diff _ (held small) (held big) (held big')) by done; lia.
Qed.

(** Both runs pay the same. *)
Lemma funds_charged flavor chain big small big' small' rs :
  funds big small -> charged flavor chain big big' rs -> charged flavor chain small small' rs ->
  held small' ⊆ held big' -> funds big' small'.
Proof.
  intros [_ _ Hsub Hc Hby] [Hw Hsub1 _ Hc1 Hb1 _ _ _] [Hw2 Hsub2 _ Hc2 Hb2 _ _ _] Hh.
  pose proof (total_diff var_count (held small) (held big) (held big') Hsub Hsub1).
  pose proof (total_diff var_bytes (held small) (held big) (held big') Hsub Hsub1).
  pose proof (total_diff var_count (held small) (held small') (held big') Hsub2 Hh).
  pose proof (total_diff var_bytes (held small) (held small') (held big') Hsub2 Hh).
  split; [done..|lia|lia].
Qed.

Lemma funds_counted big small :
  funds big small -> funds (count_expansion big) (count_expansion small).
Proof.
  intros [Hb Hs Hsub Hc Hby].
  assert (Hh : forall st, held (count_expansion st) = held st) by (intros; by apply held_counted).
  split; rewrite ?Hh; [by apply (warm_counted big)|by apply (warm_counted small)|done|cbn; lia|cbn; lia].
Qed.

Lemma funds_affords flavor chain big small big' rs :
  funds big small -> charged flavor chain big big' rs -> within big' ->
  affords flavor (held big') chain small rs.
Proof.
  intros [_ _ Hsub Hc Hby] [_ Hsub' _ Hc' Hb' _ _ _] [Hcm Hbm].
  pose proof (total_diff var_count (held small) (held big) (held big') Hsub Hsub').
  pose proof (total_diff var_bytes (held small) (held big) (held big') Hsub Hsub').
  assert (Hm : forall w, (forall x, 0 <= w x) ->
    total w (held big' ∖ held small ∖ pending flavor chain) <= total w (held big' ∖ held small)).
  { intros w Hw. apply total_mono; [done|set_solver]. }
  pose proof (Hm _ var_count_nonneg). pose proof (Hm _ var_bytes_nonneg).
  split; [set_solver|lia|lia].
Qed.

Lemma warm_covers flavor st : placed memory flavor -> warm st -> covers flavor (held st).
Proof.
  intros Hf Hw v Hv. apply elem_of_held in Hv as [s Hs]. destruct (w_closed _ Hw v flavor s Hf Hs) as [Hr Ho].
  split; [done|]. exists s. split; [|done]. by apply (w_sound _ Hw).
Qed.

Section Failing.
Context (flavor : FlavorScope) (path : string) (base : nat) (Hplaced : placed memory flavor).

Abbreviation run := (resolve_inner vars flavor path base).

(** *** Any call pays *)

Lemma account_paid s st r st' : warm st -> account path s st = Some (r, st') ->
  paid st st' /\ (within st' -> r = Ok s).
Proof.
  intros Hw. unfold account. cbv zeta.
  assert (Hp : paid st (count_bytes (str_len s) st)).
  { apply paid_counted; [done|cbn; lia|cbn; unfold str_len; lia|done]. }
  destruct (Z.ltb_spec MAX_TOTAL_EXPANDED_BYTES (expanded_bytes (count_bytes (str_len s) st)));
    intros [= <- <-]; (split; [done|]); [|done]. intros [_ Hb]. cbn in *. lia.
Qed.

Lemma resolve_var_paid fuel name chain st r st' :
  (forall t chain st r st', warm st -> run fuel t chain st = Some (r, st') -> paid st st') ->
  warm st -> resolve_var vars flavor path base (run fuel) name chain st = Some (r, st') -> paid st st'.
Proof.
  intros Hrec Hw. unfold resolve_var.
  assert (Hrefl : paid st st) by (by apply paid_counted).
  destruct (position name chain) eqn:Ep; [by intros [= _ <-]|]. apply position_None in Ep.
  destruct (var_index vars name) as [v|] eqn:Ei; [|by intros [= _ <-]].
  cbv zeta. set (st1 := count_expansion st).
  assert (Hp : paid st st1) by (apply paid_counted; cbn; [done|lia|lia|done]).
  pose proof (p_warm _ _ Hp) as Hw1.
  destruct (_ <? _); [by intros [= _ <-]|].
  destruct (cached st1 v (cache_key flavor)) as [s|] eqn:Ec.
  { intros H. apply account_paid in H as [H _]; [|done]. by eapply paid_trans. }
  fold (value_of v).
  destruct (run fuel (value_of v) (chain ++ [name]) st1) as [[[s|e'] st2]|] eqn:Er; [| |done].
  - destruct (resolve_inner_charges flavor path base Hplaced fuel _ _ _ _ _ Hw1 Er) as [Hc Hlong].
    destruct (resolve_inner_ok vars memory flavor path base Hplaced fuel _ _ _ _ _ (w_sound _ Hw1) Er) as [_ Hx].
    destruct (store_charged flavor Hplaced name v chain st st2 s) as (Hw3 & _ & Hsub & Hcount & Hbytes & _); try done.
    { assert (Hh1 : held st1 = held st) by (by apply held_counted). rewrite <- Hh1. by apply not_held. }
    intros H. apply account_paid in H as [H _]; [|done]. eapply paid_trans; [|exact H].
    split; [done|done|lia|lia].
  - intros [= _ <-]. eapply paid_trans; [exact Hp|]. by eapply Hrec.
Qed.

Lemma resolve_expression_paid fuel l found chain st r st' :
  (forall t chain st r st', warm st -> run fuel t chain st = Some (r, st') -> paid st st') ->
  warm st -> resolve_expression vars flavor path base (run fuel) l found chain st = Some (r, st') -> paid st st'.
Proof.
  intros Hrec Hw Ex. assert (Hrefl : paid st st) by (by apply paid_counted).
  destruct found as [[start stop] [|lo hi|]]; cbn in Ex.
  - by injection Ex as _ <-.
  - by eapply resolve_var_paid.
  - destruct flavor; by injection Ex as _ <-.
Qed.

Lemma resolve_loop_paid fuel t es chain out cursor st r st' :
  (forall t chain st r st', warm st -> run fuel t chain st = Some (r, st') -> paid st st') ->
  warm st -> resolve_loop vars flavor path base (run fuel) t es chain out cursor st = Some (r, st') -> paid st st'.
Proof.
  intros Hrec. revert out cursor st; induction es as [|found es IH]; intros out cursor st Hw; cbn.
  - assert (Hrefl : paid st st) by (by apply paid_counted). destruct (over_long _ _); by intros [= _ <-].
  - destruct (resolve_expression _ _ _ _ _ _ found chain st) as [[r1 st1]|] eqn:Ex; [|done].
    pose proof (resolve_expression_paid _ _ _ _ _ _ _ Hrec Hw Ex) as Hp. pose proof (p_warm _ _ Hp) as Hw1.
    destruct r1 as [added|e]; [|by intros [= _ <-]].
    destruct (over_long (_ +:+ added) t); [by intros [= _ <-]|].
    intros H. eapply paid_trans; [exact Hp|]. by eapply IH.
Qed.

Lemma resolve_inner_paid fuel t chain st r st' :
  warm st -> run fuel t chain st = Some (r, st') -> paid st st'.
Proof.
  revert t chain st r st'; induction fuel as [|fuel IH]; intros t chain st r st' Hw; [done|]. cbn.
  assert (Hrefl : paid st st) by (by apply paid_counted).
  destruct (parse_expressions t) as [es|e]; [|by intros [= _ <-]]. by eapply resolve_loop_paid.
Qed.

(** *** What one budget could do, the other can *)

(** A chain that may come before a text. *)
Record on_chain (fuel : nat) (t : string) (chain : list string) : Prop := {
  oc_nodup : NoDup chain;
  oc_names : chain ⊆ names vars;
  oc_leads : leads_to vars flavor chain t;
  oc_fuel : (length vars < fuel + length chain)%nat;
}.

Lemma on_chain_app fuel t es chain name v :
  on_chain (S fuel) t chain -> parse_expressions t = Ok es -> VarRef name ∈ pieces_from (bytes t) es 0 ->
  name ∉ chain -> var_index vars name = Some v -> on_chain fuel (value_of v) (chain ++ [name]).
Proof.
  intros [Hnd Hsub Hlead Hfuel] Hes Hin Hn Hi. pose proof (var_index_value _ _ _ Hi) as Hv.
  fold (value_of v) in Hv. split.
  - apply NoDup_app. split_and!; [done|set_solver|apply NoDup_singleton].
  - apply var_index_name in Hi. set_solver.
  - by eapply leads_to_app.
  - rewrite length_app. cbn. lia.
Qed.

Lemma funds_var fuel t es name chain big small s big' :
  on_chain (S fuel) t chain -> parse_expressions t = Ok es -> VarRef name ∈ pieces_from (bytes t) es 0 ->
  funds big small -> within big' ->
  resolve_var vars flavor path base (run fuel) name chain big = Some (Ok s, big') ->
  exists small', resolve_var vars flavor path base (run fuel) name chain small = Some (Ok s, small')
                 /\ funds big' small'.
Proof.
  intros [Hnd Hsub Hlead Hfuel] Hes Hin Hfunds Hwithin Hr.
  pose proof (resolve_inner_ok vars memory flavor path base Hplaced fuel) as Hok.
  pose proof (resolve_inner_charges flavor path base Hplaced fuel) as Hch.
  pose proof (f_big _ _ Hfunds) as Hwb. pose proof (f_small _ _ Hfunds) as Hws.
  destruct (resolve_var_charges flavor path base Hplaced _ _ _ _ _ _ Hok Hch Hwb Hr) as (v & Hi & Hc).
  destruct (resolve_var_ok vars memory flavor path base Hplaced _ _ _ _ _ _ _ _ Hok (w_sound _ Hwb) Hes Hin Hr)
    as (_ & n & Hx).
  assert (Hn : name ∉ chain).
  { apply position_None. unfold resolve_var in Hr. by destruct (position name chain). }
  cbn in Hx. apply bind_Some in Hx as (value & Hv & Hx).
  pose proof (c_warm _ _ _ _ _ Hc) as Hw'.
  destruct (resolve_var_affords flavor path base Hplaced (held big') fuel (run fuel) name chain t es small v [] value s)
    as (small' & Hs & Hh); try done.
  - by apply warm_covers.
  - by apply resolve_inner_affords, warm_covers.
  - by exists n.
  - apply (c_refs _ _ _ _ _ Hc). set_solver.
  - by eapply funds_affords.
  - exists small'. split; [done|].
    destruct (resolve_var_charges flavor path base Hplaced _ _ _ _ _ _ Hok Hch Hws Hs) as (v' & Hi' & Hc').
    assert (v' = v) as -> by congruence. by eapply funds_charged.
Qed.

(** Errors are the same, except those of the budget. *)
Definition fails_alike (fuel : nat) (rec : string -> list string -> spending -> outcome string) : Prop :=
  forall t chain big small e big', on_chain fuel t chain -> funds big small -> within big' ->
  rec t chain big = Some (Err e, big') ->
  exists small', rec t chain small = Some (Err e, small') /\ funds big' small'.

Lemma var_fails fuel t es name chain big small e big' :
  fails_alike fuel (run fuel) ->
  on_chain (S fuel) t chain -> parse_expressions t = Ok es -> VarRef name ∈ pieces_from (bytes t) es 0 ->
  funds big small -> within big' ->
  resolve_var vars flavor path base (run fuel) name chain big = Some (Err e, big') ->
  exists small', resolve_var vars flavor path base (run fuel) name chain small = Some (Err e, small')
                 /\ funds big' small'.
Proof.
  intros Hrec Hoc Hes Hin Hfunds Hwithin. unfold resolve_var.
  destruct (position name chain) eqn:Ep; [intros [= <- <-]; eauto|]. apply position_None in Ep.
  destruct (var_index vars name) as [v|] eqn:Ei; [|intros [= <- <-]; eauto]. cbv zeta. fold (value_of v).
  pose proof (funds_counted _ _ Hfunds) as Hfunds1. set (big1 := count_expansion big) in *.
  set (small1 := count_expansion small) in *.
  pose proof (f_big _ _ Hfunds1) as Hw1.
  destruct (Z.ltb_spec MAX_VAR_EXPANSIONS (expansions big1)) as [Hlt|Hge].
  { intros [= <- <-]. destruct Hwithin. lia. }
  destruct (cached big1 v (cache_key flavor)) as [s|] eqn:Ec.
  { intros H. apply account_paid in H as [_ H]; [|done]. by specialize (H Hwithin). }
  destruct (run fuel (value_of v) (chain ++ [name]) big1) as [[[s|e'] big2]|] eqn:Er; [| |done].
  - intros H. destruct (resolve_inner_charges flavor path base Hplaced fuel _ _ _ _ _ Hw1 Er) as [Hc Hlong].
    destruct (resolve_inner_ok vars memory flavor path base Hplaced fuel _ _ _ _ _ (w_sound _ Hw1) Er) as [_ Hx].
    destruct (store_charged flavor Hplaced name v chain big big2 s) as (Hw3 & _); try done.
    { assert (Hh1 : held big1 = held big) by (by apply held_counted). rewrite <- Hh1. by apply not_held. }
    apply account_paid in H as [_ H]; [|done]. by specialize (H Hwithin).
  - intros [= <- <-]. apply (Hrec _ _ _ small1) in Er as (small2 & Hs & Hf);
      [|by eapply on_chain_app|done|done].
    pose proof (total_nonneg var_count (held big1 ∖ held small1) var_count_nonneg).
    destruct (Z.ltb_spec MAX_VAR_EXPANSIONS (expansions small1)) as [Hlt|_].
    { pose proof (f_count _ _ Hfunds1). lia. }
    assert (Hn : cached small1 v (cache_key flavor) = None).
    { apply not_held. apply not_held in Ec. pose proof (f_held _ _ Hfunds1). set_solver. }
    rewrite Hn, Hs. eauto.
Qed.

Lemma loop_fails fuel t es0 es chain out cursor big small e big' :
  fails_alike fuel (run fuel) -> on_chain (S fuel) t chain -> parse_expressions t = Ok es0 ->
  (forall p, p ∈ pieces_from (bytes t) es cursor -> p ∈ pieces_from (bytes t) es0 0) ->
  funds big small -> within big' ->
  resolve_loop vars flavor path base (run fuel) t es chain out cursor big = Some (Err e, big') ->
  exists small', resolve_loop vars flavor path base (run fuel) t es chain out cursor small = Some (Err e, small')
                 /\ funds big' small'.
Proof.
  intros Hrec Hoc Hes Hsub Hfunds Hwithin.
  revert out cursor big small Hsub Hfunds; induction es as [|found es IH]; intros out cursor big small Hsub Hfunds; cbn.
  - destruct (over_long _ _); [intros [= <- <-]; eauto|done].
  - assert (Hfound : piece_of (bytes t) found ∈ pieces_from (bytes t) es0 0) by (apply Hsub; cbn; set_solver).
    destruct (resolve_expression _ _ _ _ _ _ found chain big) as [[[added|e1] big1]|] eqn:Ex; [| |done].
    + intros H.
      pose proof (resolve_expression_paid _ _ _ _ _ _ _ (resolve_inner_paid fuel) (f_big _ _ Hfunds) Ex) as Hp.
      assert (Hw1 : within big1).
      { destruct (over_long (_ +:+ added) t); [by injection H as _ <-|].
        eapply paid_within; [|exact Hwithin].
        eapply resolve_loop_paid; [apply resolve_inner_paid|by apply Hp|done]. }
      assert (Hex : exists small1, resolve_expression vars flavor path base (run fuel) (bytes t) found chain small
                                   = Some (Ok added, small1) /\ funds big1 small1).
      { destruct found as [[start stop] [|lo hi|]]; cbn in Ex, Hfound; cbn [resolve_expression].
        - injection Ex as <- <-. eauto.
        - by eapply funds_var.
        - destruct flavor; [injection Ex as <- <-; eauto|done|done]. }
      destruct Hex as (small1 & -> & Hf1).
      destruct (over_long (_ +:+ added) t); [injection H as <- <-; eauto|].
      apply (IH _ _ big1); [|done|done]. intros p Hp'. apply Hsub. cbn. set_solver.
    + intros [= <- <-]. destruct found as [[start stop] [|lo hi|]]; cbn in Ex, Hfound.
      * done.
      * eapply var_fails in Ex as (small' & Hs & Hf); [|done..]. cbn. rewrite Hs. eauto.
      * cbn. destruct flavor; [done|injection Ex as <- <-; eauto|injection Ex as <- <-; eauto].
Qed.

Lemma run_fails fuel : fails_alike fuel (run fuel).
Proof.
  induction fuel as [|fuel IH]; [done|]. intros t chain big small e big' Hoc Hfunds Hwithin. cbn.
  destruct (parse_expressions t) as [es|e'] eqn:Hes; [|intros [= <- <-]; eauto]. by apply (loop_fails fuel t es).
Qed.
End Failing.

(** A successful call charges its own references and those of the vars it
    caches. *)
Lemma resolve_from_charges t flavor path chain st s st' :
  placed memory flavor -> warm st -> resolve_from vars t flavor path chain st = (Ok s, st') ->
  charged flavor chain st st' (refs t) /\ expands vars flavor t s /\ over_long s t = false.
Proof.
  intros Hf Hw. unfold resolve_from.
  destruct (resolve_inner _ _ _ _ _ _ _ _) as [[r st1]|] eqn:E; [|done]. cbn. intros [= -> ->].
  destruct (resolve_inner_ok vars memory flavor path _ Hf _ _ _ _ _ _ (w_sound _ Hw) E) as [_ Hs].
  destruct (resolve_inner_charges flavor path _ Hf _ _ _ _ _ _ Hw E) as [Hc Ho]. done.
Qed.

Lemma resolve_from_paid t flavor path chain st r st' :
  placed memory flavor -> warm st -> resolve_from vars t flavor path chain st = (r, st') -> paid st st'.
Proof.
  intros Hf Hw. unfold resolve_from.
  destruct (resolve_inner _ _ _ _ _ _ _ _) as [[r1 st1]|] eqn:E; cbn.
  - intros [= _ <-]. by eapply resolve_inner_paid.
  - intros [= _ <-]. by apply paid_counted.
Qed.

(** What a call of [big] returned within the budget, [small] returns. *)
Lemma funds_step t flavor path big small r big' :
  placed memory flavor -> funds big small -> within big' -> resolve vars t flavor path big = (r, big') ->
  exists small', resolve vars t flavor path small = (r, small') /\ funds big' small'.
Proof.
  intros Hf Hfunds Hwithin. unfold resolve, resolve_from. cbn [length].
  assert (Hoc : on_chain flavor (S (length vars)) t []).
  { split; [apply NoDup_nil_2|set_solver|intros c; set_solver|lia]. }
  destruct (resolve_inner_total vars memory flavor path 0 Hf (S (length vars)) t [] big
    (oc_nodup _ _ _ _ Hoc) (oc_names _ _ _ _ Hoc) (oc_fuel _ _ _ _ Hoc)) as [[r1 b1] E].
  rewrite E. cbn [default]. intros [= -> ->]. destruct r as [s|e].
  - destruct (resolve_inner_charges flavor path 0 Hf _ _ _ _ _ _ (f_big _ _ Hfunds) E) as [Hc Ho].
    destruct (resolve_inner_ok vars memory flavor path 0 Hf _ _ _ _ _ _ (w_sound _ (f_big _ _ Hfunds)) E) as [_ Hx].
    destruct (resolve_inner_affords flavor path 0 Hf (held big') (S (length vars))
      (warm_covers _ _ Hf (c_warm _ _ _ _ _ Hc)) t [] small s) as (small' & Hr & Hh); try done;
      [apply Hfunds|apply Hoc|apply Hoc|apply Hoc|apply Hoc|apply Hc|by eapply funds_affords|].
    rewrite Hr. exists small'. split; [done|].
    destruct (resolve_inner_charges flavor path 0 Hf _ _ _ _ _ _ (f_small _ _ Hfunds) Hr) as [Hc' _].
    by eapply funds_charged.
  - apply (run_fails flavor path 0 Hf _ _ _ _ small) in E as (small' & -> & Hf'); eauto.
Qed.

Lemma warm_fresh st : warm (fresh_cache (length vars) st).
Proof.
  split; [apply sound_fresh|apply length_replicate|]. intros v f s _. by rewrite cached_fresh.
Qed.

(** A fresh budget funds what an older one does. *)
Lemma funds_fresh st :
  0 <= expansions st -> 0 <= expanded_bytes st ->
  funds (fresh_cache (length vars) st) (fresh_cache (length vars) no_spending).
Proof.
  intros H1 H2. split; try apply warm_fresh; rewrite ?held_fresh, ?difference_diag_L, ?total_empty; cbn; try lia.
  set_solver.
Qed.
End Costs.

(** C13: The resolver computes expansions.  From any state the resolver can be
    in, a call returns; what it returns is what the text expands to by plain
    substitution, within 64 KiB unless the text was written longer, and the
    spending stays within the limits of the file; an error means that a limit
    was met or that the text has no expansion: a cycle, an unknown var, a
    flavor where there is none, an expression that cannot be read.  The cache
    it leaves answers later calls the same way. *)
Theorem resolve_expansion (vars : list (string * string)) (memory : FlavorPtr -> string)
    (t : string) (flavor : FlavorScope) (path : string) (st : spending) :
  placed memory flavor -> warm vars memory st ->
  let '(r, st') := resolve vars t flavor path st in
  warm vars memory st' /\
  match r with
  | Ok s => expand vars flavor (S (length vars)) t = Some s
            /\ (str_len s <= Z.max MAX_EXPANDED_BYTES (str_len t))
            /\ (within st -> within st')
  | Err e => limit_error path e \/ unexpandable vars flavor t
  end.
Proof.
  intros Hf Hw. pose proof (resolve_from_ok vars memory t flavor path [] st Hf (w_sound _ _ _ Hw) (or_introl eq_refl)) as H.
  unfold resolve. destruct (resolve_from vars t flavor path [] st) as [r st'] eqn:E. destruct H as [_ Hr].
  split; [by apply (p_warm _ _ _ _ (resolve_from_paid _ _ _ _ _ _ _ _ _ Hf Hw E))|].
  destruct r as [s|e]; [|done]. apply resolve_from_charges with (memory := memory) in E as (Hc & _ & Hl); [|done..].
  split_and!.
  - by apply expands_depth.
  - apply andb_false_iff in Hl as [Hl%Z.ltb_ge|Hl%Z.ltb_ge]; lia.
  - intros [H1 H2]. split; [by apply (c_count_max _ _ _ _ _ _ _ Hc)|by apply (c_bytes_max _ _ _ _ _ _ _ Hc)].
Qed.

(** Two vars, one through the other, in a flavor's build. *)
Lemma resolve_expansion_witness :
  let vars := [("NAME"%string, "app-${{ flavor }}"%string); ("OUT"%string, "${{ vars.NAME }}.apk"%string)] in
  let st := fresh_cache 2 no_spending in
  let '(r, st') := resolve vars "cp ${{ vars.OUT }} ${{ secrets.DIR }}" (Value (FlavorEntry 0) "dev") "steps.copy" st in
  r = Ok "cp app-dev.apk ${{ secrets.DIR }}"%string
  /\ expand vars (Value (FlavorEntry 0) "dev") 3 "cp ${{ vars.OUT }} ${{ secrets.DIR }}" = Some "cp app-dev.apk ${{ secrets.DIR }}"%string
  /\ expansions st' = 2.
Proof.
  cbv zeta. set (vars := [("NAME"%string, _); _]).
  pose proof (resolve_expansion vars (fun _ => "dev"%string) "cp ${{ vars.OUT }} ${{ secrets.DIR }}"
                (Value (FlavorEntry 0) "dev") "steps.copy" (fresh_cache 2 no_spending) eq_refl
                (warm_fresh vars (fun _ => "dev"%string) no_spending)) as H.
  destruct (resolve vars _ _ _ _) as [r st'] eqn:E. vm_compute in E. injection E as <- <-.
  destruct H as (_ & H & _). split_and!; [done|exact H|done].
Defined.
