(* ===== verification/PipelineFile.v ===== *)
(** * Repository pipeline files

    The data of [version: 2] files, of version 1 files and form settings, and
    of the plan both lower to: [crates/oore-contract/src/pipeline_config.rs],
    with the version 1 parts of [lib.rs].  A file is modelled from its parsed
    YAML on; the order of its mappings is kept.

    Here are the data, the checks a file passes before anything is resolved
    ([size_errors], [shape_errors], [check_target], ...), the lowering of
    version 1 settings, and how a file's uploads apply to the pipeline's
    Publish settings ([PlanPublish::apply]). *)

From stdpp Require Import pretty.
From S2P Require Import Prelude RustStr Labels F64 Sizes Patterns Triggers Stores Vars.
From Stdlib Require Import Ascii.
Import Patterns.Paths.

Local Open Scope Z_scope.

(** ** The plan *)

(** [enum StepPhase]. *)
Inductive StepPhase : Set := PreBuild | Build | PostBuild.

#[global] Instance StepPhase_eq_dec : EqDecision StepPhase.
Proof. solve_decision. Defined.

(** [StepPhase::as_str]. *)
Definition phase_str (phase : StepPhase) : string :=
  match phase with PreBuild => "pre_build" | Build => "build" | PostBuild => "post_build" end.

(** [struct PlanStep]. *)
Record PlanStep := {
  ps_name : string;
  ps_phase : StepPhase;
  ps_run : string;
  ps_source : string;
  ps_platform : option BuildPlatform;
  ps_flavor : option string;
  ps_test_report : option string;
}.

(** [struct PipelineEnvVar]. *)
Record PipelineEnvVar := { ev_key : string; ev_value : string }.

(** [enum BuildIsolation]. *)
Inductive BuildIsolation : Set := Host | Vm.

(** [struct PlayPublishSpec], [struct TestflightPublishSpec] and
    [struct AppStorePublishSpec]. *)
Record PlayPublishSpec := {
  pp_track : string;
  pp_rollout : option f64;
  pp_draft : option bool;
  pp_service_account : option string;
}.

Record TestflightPublishSpec := { tf_group : string }.

Record AppStorePublishSpec := {
  sa_destination : AppStoreDestination.t;
  sa_groups : list string;
  sa_submit_for_review : option bool;
  sa_phased_release : option bool;
}.

(** [struct PlannedPublish]. *)
Record PlannedPublish (T : Type) := {
  pl_spec : T;
  pl_source : string;
  pl_error : option string;
}.
Arguments pl_spec {T} _.
Arguments pl_source {T} _.
Arguments pl_error {T} _.
Arguments Build_PlannedPublish {T} _ _ _.

(** [struct PlanPublish]. *)
Record PlanPublish := {
  play : option (PlannedPublish PlayPublishSpec);
  testflight : option (PlannedPublish TestflightPublishSpec);
  app_store : option (PlannedPublish AppStorePublishSpec);
}.

Definition no_publish : PlanPublish := {| play := None; testflight := None; app_store := None |}.

(** [struct SigningSpec] and [SigningSpec::overlaid]. *)
Record SigningSpec := { sg_android : option string; sg_ios : option string }.

Definition no_signing : SigningSpec := {| sg_android := None; sg_ios := None |}.

Definition or_else {A} (a b : option A) : option A := match a with Some _ => a | None => b end.

Definition overlaid (base : SigningSpec) (over : option SigningSpec) : SigningSpec :=
  let over := default no_signing over in
  {| sg_android := or_else (sg_android over) (sg_android base);
     sg_ios := or_else (sg_ios over) (sg_ios base) |}.

(** [struct PipelinePlan]. *)
Record PipelinePlan := {
  plan_workflow : option string;
  plan_platforms : list BuildPlatform;
  plan_flutter_version : option string;
  plan_steps : list PlanStep;
  plan_env : list PipelineEnvVar;
  plan_artifact_patterns : list string;
  plan_build_number_offset : Z;
  plan_runs_on : list string;
  plan_isolation : BuildIsolation;
  plan_publish : PlanPublish;
  plan_signing : SigningSpec;
  plan_size_budgets : list TargetSizeBudget;
}.

(** [PipelinePlan::steps_in] and [PipelinePlan::commands]. *)
Definition steps_in (plan : PipelinePlan) (phase : StepPhase) : list PlanStep :=
  List.filter (fun step => bool_decide (ps_phase step = phase)) (plan_steps plan).
Definition commands_in (plan : PipelinePlan) (phase : StepPhase) : list string :=
  map ps_run (steps_in plan phase).

(** [platform_key] and [platform_title]. *)
Definition platform_key (platform : BuildPlatform) : string :=
  match platform with Android => "android" | Ios => "ios" | Macos => "macos" end.
Definition platform_title (platform : BuildPlatform) : string :=
  match platform with Android => "Android" | Ios => "iOS" | Macos => "macOS" end.

(** ** Version 1 settings *)

(** [struct PipelineCommandStages], [struct PlatformBuildArgs],
    [struct PlatformBuildCommands] and [struct PipelineExecutionConfig]. *)
Record PipelineCommandStages := {
  pre_build : list string;
  build : list string;
  post_build : list string;
}.

Record PlatformBuildArgs := {
  android_args : list string;
  ios_args : list string;
  macos_args : list string;
}.

Record PlatformBuildCommands := {
  android_command : option string;
  ios_command : option string;
  macos_command : option string;
}.

Record PipelineExecutionConfig := {
  ec_platforms : list BuildPlatform;
  ec_flutter_version : option string;
  ec_commands : PipelineCommandStages;
  ec_platform_build_args : PlatformBuildArgs;
  ec_platform_commands : PlatformBuildCommands;
  ec_env : list PipelineEnvVar;
  ec_artifact_patterns : list string;
  ec_build_number_offset : Z;
  ec_runs_on : list string;
  ec_isolation : BuildIsolation;
}.

Definition with_platforms (platforms : list BuildPlatform) (c : PipelineExecutionConfig)
    : PipelineExecutionConfig :=
  {| ec_platforms := platforms; ec_flutter_version := ec_flutter_version c;
     ec_commands := ec_commands c; ec_platform_build_args := ec_platform_build_args c;
     ec_platform_commands := ec_platform_commands c; ec_env := ec_env c;
     ec_artifact_patterns := ec_artifact_patterns c;
     ec_build_number_offset := ec_build_number_offset c; ec_runs_on := ec_runs_on c;
     ec_isolation := ec_isolation c |}.

Definition with_runs_on (runs_on : list string) (c : PipelineExecutionConfig)
    : PipelineExecutionConfig :=
  {| ec_platforms := ec_platforms c; ec_flutter_version := ec_flutter_version c;
     ec_commands := ec_commands c; ec_platform_build_args := ec_platform_build_args c;
     ec_platform_commands := ec_platform_commands c; ec_env := ec_env c;
     ec_artifact_patterns := ec_artifact_patterns c;
     ec_build_number_offset := ec_build_number_offset c; ec_runs_on := runs_on;
     ec_isolation := ec_isolation c |}.

Definition has_platform (platforms : list BuildPlatform) (platform : BuildPlatform) : bool :=
  existsb (fun p => bool_decide (p = platform)) platforms.

(** [default_artifact_patterns_for_platforms]. *)
Definition default_artifact_patterns_for_platforms (platforms : list BuildPlatform) : list string :=
  (if has_platform platforms Android then
     ["build/app/outputs/flutter-apk/*.apk"; "build/app/outputs/bundle/**/*.aab"]%string else [])
  ++ (if has_platform platforms Ios then ["build/ios/ipa/*.ipa"%string] else [])
  ++ (if has_platform platforms Macos then ["build/macos/Build/Products/Release/*.app"%string] else []).

(** The test both versions make of a run's platforms: one repeats an earlier. *)
Definition has_duplicate (selected : list BuildPlatform) : bool :=
  existsb id (imap (fun index platform => has_platform (take index selected) platform) selected).

Definition no_selection : string := "selected_platforms must include at least one target".
Definition bad_selection : string := "selected_platforms must be unique and configured by the workflow".
Definition shared_build : string :=
  "Per-run platform selection requires platform_commands or default platform commands; shared commands.build cannot be filtered safely".

(** [select_v1_platforms]. *)
Definition select_v1_platforms (config : PipelineExecutionConfig) (selected : list BuildPlatform)
    : result string PipelineExecutionConfig :=
  if bool_decide (selected = []) then Err no_selection
  else if has_duplicate selected || existsb (fun p => negb (has_platform (ec_platforms config) p)) selected then
    Err bad_selection
  else if (length selected <? length (ec_platforms config))%nat
          && negb (bool_decide (build (ec_commands config) = [])) then Err shared_build
  else Ok (with_platforms selected config).

(** [build_default_command_with_args], [default_platform_command] and
    [default_play_bundle_command]. *)
Definition build_default_command_with_args (base : string) (args : list string) : string :=
  match args with [] => base | _ => base +:+ " " +:+ join " " args end.

Definition platform_override (overrides : PlatformBuildCommands) (platform : BuildPlatform) : option string :=
  match platform with
  | Android => android_command overrides
  | Ios => ios_command overrides
  | Macos => macos_command overrides
  end.

Definition default_platform_command (platform : BuildPlatform) (overrides : PlatformBuildCommands)
    (args : PlatformBuildArgs) : string :=
  match platform with
  | Android => default (build_default_command_with_args "flutter build apk --release" (android_args args))
                 (android_command overrides)
  | Ios => default (build_default_command_with_args "flutter build ios --release --no-codesign" (ios_args args))
             (ios_command overrides)
  | Macos => default (build_default_command_with_args "flutter build macos --release" (macos_args args))
               (macos_command overrides)
  end.

Definition default_play_bundle_command (args : PlatformBuildArgs) : string :=
  build_default_command_with_args "flutter build appbundle --release"
    (List.filter (fun arg => negb (String.eqb arg "--split-per-abi")) (android_args args)).

Definition at_index (path : string) (index : nat) : string := path +:+ "[" +:+ pretty index +:+ "]".

(** A lowered command: what to run, where it comes from, for which platform. *)
Definition lowered : Type := string * string * option BuildPlatform.

Definition user_commands (stage : string) (commands : list string) : list lowered :=
  imap (fun index run => (run, at_index ("commands." +:+ stage) index, None)) commands.

Definition platform_commands (config : PipelineExecutionConfig) (build_play_bundle : bool)
    (platform : BuildPlatform) : list lowered :=
  let overridden := bool_decide (is_Some (platform_override (ec_platform_commands config) platform)) in
  (default_platform_command platform (ec_platform_commands config) (ec_platform_build_args config),
   if overridden then "platform_commands." +:+ platform_key platform else "default"%string,
   Some platform)
  :: if build_play_bundle && bool_decide (platform = Android) && negb overridden then
       [(default_play_bundle_command (ec_platform_build_args config), "default"%string, Some Android)]
     else [].

Definition number_steps (phase : StepPhase) (commands : list lowered) : list PlanStep :=
  imap (fun index '(run, source, platform) =>
    {| ps_name := phase_str phase +:+ "-" +:+ pretty (S index); ps_phase := phase; ps_run := run;
       ps_source := source; ps_platform := platform; ps_flavor := None; ps_test_report := None |}) commands.

(** [plan_execution_config]. *)
Definition plan_execution_config (config : PipelineExecutionConfig)
    (include_default_platform_commands build_play_bundle : bool) : PipelinePlan :=
  let pre :=
    (if include_default_platform_commands && negb (bool_decide (ec_platforms config = [])) then
       [("flutter pub get"%string, "default"%string, None)] else [])
    ++ user_commands "pre_build" (pre_build (ec_commands config)) in
  let main :=
    (if include_default_platform_commands then
       concat (map (platform_commands config build_play_bundle) (ec_platforms config)) else [])
    ++ user_commands "build" (build (ec_commands config)) in
  let post := user_commands "post_build" (post_build (ec_commands config)) in
  {| plan_workflow := None;
     plan_platforms := ec_platforms config;
     plan_flutter_version := ec_flutter_version config;
     plan_steps := number_steps PreBuild pre ++ number_steps Build main ++ number_steps PostBuild post;
     plan_env := ec_env config;
     plan_artifact_patterns := ec_artifact_patterns config;
     plan_build_number_offset := ec_build_number_offset config;
     plan_runs_on := ec_runs_on config;
     plan_isolation := ec_isolation config;
     plan_publish := no_publish;
     plan_signing := no_signing;
     plan_size_budgets := [] |}.

(** [PipelinePlan::to_execution_config]. *)
Definition platform_command (plan : PipelinePlan) (platform : BuildPlatform) : option string :=
  let runs := map ps_run (List.filter (fun step => bool_decide (ps_platform step = Some platform))
                            (steps_in plan Build)) in
  match runs with [] => None | _ => Some (join " && " runs) end.

Definition to_execution_config (plan : PipelinePlan) : PipelineExecutionConfig :=
  {| ec_platforms := plan_platforms plan;
     ec_flutter_version := plan_flutter_version plan;
     ec_commands :=
       {| pre_build := commands_in plan PreBuild;
          build := map ps_run (List.filter (fun step => bool_decide (ps_platform step = None)) (steps_in plan Build));
          post_build := commands_in plan PostBuild |};
     ec_platform_build_args := {| android_args := []; ios_args := []; macos_args := [] |};
     ec_platform_commands :=
       {| android_command := platform_command plan Android;
          ios_command := platform_command plan Ios;
          macos_command := platform_command plan Macos |};
     ec_env := plan_env plan;
     ec_artifact_patterns := plan_artifact_patterns plan;
     ec_build_number_offset := plan_build_number_offset plan;
     ec_runs_on := plan_runs_on plan;
     ec_isolation := plan_isolation plan |}.

(** *** Secret references of version 1 commands *)

(** [parse_secret_references]; a reference is its range and its name. *)
Fixpoint scan_secrets (fuel : nat) (l : list ascii) (cursor : nat) (found : list (nat * nat * string))
    : result string (list (nat * nat * string)) :=
  match fuel with
  | O => Ok found
  | S fuel =>
      match find_l open_mark (drop cursor l) with
      | None => Ok found
      | Some offset =>
          let start := (cursor + offset)%nat in
          let body_start := (start + 3)%nat in
          match find_l close_mark (drop body_start l) with
          | None => Err unterminated
          | Some close =>
              let stop := (body_start + close + 2)%nat in
              let expression := trim (text (slice l body_start (body_start + close))) in
              match strip_prefix "secrets." expression with
              | Some name =>
                  if is_valid_pipeline_env_key name then
                    scan_secrets fuel l stop (found ++ [(start, stop, name)])
                  else Err ("has unsupported expression '${{ " +:+ expression
                            +:+ " }}'; only ${{ secrets.NAME }} is supported")
              | None => Err ("has unsupported expression '${{ " +:+ expression
                             +:+ " }}'; only ${{ secrets.NAME }} is supported")
              end
          end
      end
  end.

Definition parse_secret_references (t : string) : result string (list (nat * nat * string)) :=
  scan_secrets (S (String.length t)) (bytes t) 0 [].

(** [replace_secret_references]. *)
Fixpoint replace_references (l : list ascii) (replacement : string -> string)
    (references : list (nat * nat * string)) (cursor : nat) : string :=
  match references with
  | [] => text (drop cursor l)
  | (start, stop, name) :: rest =>
      text (slice l cursor start) +:+ replacement name +:+ replace_references l replacement rest stop
  end.

Definition replace_secret_references (t : string) (replacement : string -> string) : result string string :=
  references ← parse_secret_references t;
  Ok (replace_references (bytes t) replacement references 0).

(** [secret_expression_errors]. *)
Definition secret_error (path t : string) : list string :=
  match parse_secret_references t with Ok _ => [] | Err e => [path +:+ " " +:+ e] end.

Definition indexed {A B} (f : nat -> A -> list B) (l : list A) : list B := concat (imap f l).

Definition secret_expression_errors (config : PipelineExecutionConfig) : list string :=
  let commands := ec_commands config in
  let args := ec_platform_build_args config in
  let overrides := ec_platform_commands config in
  concat (map (fun '(stage, commands) =>
      indexed (fun i command => secret_error (at_index ("commands." +:+ stage) i) command) commands)
    [("pre_build"%string, pre_build commands); ("build"%string, build commands); ("post_build"%string, post_build commands)])
  ++ concat (map (fun '(platform, args) =>
      indexed (fun i arg => secret_error (at_index ("platform_build_args." +:+ platform) i) arg) args)
    [("android"%string, android_args args); ("ios"%string, ios_args args); ("macos"%string, macos_args args)])
  ++ concat (map (fun '(platform, command) =>
      match command with Some c => secret_error ("platform_commands." +:+ platform) c | None => [] end)
    [("android"%string, android_command overrides); ("ios"%string, ios_command overrides);
     ("macos"%string, macos_command overrides)])
  ++ indexed (fun i entry => secret_error (at_index "env" i +:+ ".value") (ev_value entry)) (ec_env config).

(** *** Validation of version 1 files *)

Definition MAX_STORE_VERSION_CODE : Z := 2100000000.

(** [validate_build_number_offset]. *)
Definition validate_build_number_offset (offset : Z) : result string unit :=
  if (0 <=? offset) && (offset <? MAX_STORE_VERSION_CODE) then Ok tt
  else Err ("must be between 0 and " +:+ pretty (MAX_STORE_VERSION_CODE - 1)).

(** [store_version_code]. *)
Definition store_version_code (build_number offset : Z) : result string Z :=
  match validate_build_number_offset offset with
  | Err e => Err ("build_number_offset " +:+ e)
  | Ok _ =>
      let code := saturating_add build_number offset in
      if (1 <=? code) && (code <=? MAX_STORE_VERSION_CODE) then Ok code
      else Err ("version code " +:+ pretty code +:+ " (build " +:+ pretty build_number +:+ " + offset "
                +:+ pretty offset +:+ ") is outside the store range 1..=" +:+ pretty MAX_STORE_VERSION_CODE)
  end.

(** The env loop of [validate_repository_execution_config]; [seen] holds the
    keys already met. *)
Fixpoint env_errors (index : nat) (seen : list string) (env : list PipelineEnvVar) : list string :=
  match env with
  | [] => []
  | entry :: rest =>
      let key := trim (ev_key entry) in
      if negb (is_valid_pipeline_env_key key) then
        (at_index "env" index +:+ ".key must match [A-Za-z_][A-Za-z0-9_]*") :: env_errors (S index) seen rest
      else if existsb (String.eqb key) seen then
        ("env contains duplicate key '" +:+ key +:+ "'") :: env_errors (S index) seen rest
      else env_errors (S index) (key :: seen) rest
  end.

(** [validate_repository_execution_config]. *)
Definition validate_repository_execution_config (config : PipelineExecutionConfig) : list string :=
  let commands := ec_commands config in
  when (bool_decide (ec_platforms config = [])) "platforms must include at least one target"
  ++ concat (map (fun '(stage, commands) =>
      indexed (fun i command => when (is_empty (trim command))
        (at_index ("commands." +:+ stage) i +:+ " must not be empty")) commands)
    [("pre_build"%string, pre_build commands); ("build"%string, build commands); ("post_build"%string, post_build commands)])
  ++ indexed (fun i pattern => err_if (fun e => at_index "artifacts.patterns" i +:+ " " +:+ e)
       (validate_artifact_pattern pattern)) (ec_artifact_patterns config)
  ++ err_if (fun e => "build_number_offset " +:+ e) (validate_build_number_offset (ec_build_number_offset config))
  ++ err_if (fun e => "runs_on " +:+ e) (normalize_runner_labels (ec_runs_on config))
  ++ env_errors 0 [] (ec_env config)
  ++ secret_expression_errors config.

(** [struct RepositoryPipelineConfig], and [parse_repository_pipeline_yaml]
    from the parsed YAML on. *)
Record RepositoryPipelineConfig := {
  rc_version : Z;
  rc_config : PipelineExecutionConfig;
  rc_artifacts : option (list string);
}.

Definition with_patterns (patterns : list string) (c : PipelineExecutionConfig) : PipelineExecutionConfig :=
  {| ec_platforms := ec_platforms c; ec_flutter_version := ec_flutter_version c;
     ec_commands := ec_commands c; ec_platform_build_args := ec_platform_build_args c;
     ec_platform_commands := ec_platform_commands c; ec_env := ec_env c;
     ec_artifact_patterns := patterns;
     ec_build_number_offset := ec_build_number_offset c; ec_runs_on := ec_runs_on c;
     ec_isolation := ec_isolation c |}.

Definition newline : string := String (byte_of 10) "".

Definition validate_v1 (parsed : RepositoryPipelineConfig) : result string PipelineExecutionConfig :=
  if negb (rc_version parsed =? 1) then
    Err ("unsupported config version " +:+ pretty (rc_version parsed) +:+ ", expected 1")
  else
    let patterns := default (default_artifact_patterns_for_platforms (ec_platforms (rc_config parsed)))
                      (rc_artifacts parsed) in
    let config := with_patterns patterns (rc_config parsed) in
    match validate_repository_execution_config config with
    | [] =>
        runs_on ← normalize_runner_labels (ec_runs_on config);
        Ok (with_runs_on runs_on config)
    | errors => Err (join newline errors)
    end.

(** ** Version 2 files *)

(** [struct OrderedMap]: the entries in file order. *)
Definition OrderedMap (K V : Type) : Type := list (K * V).

Definition om_get {K V} `{EqDecision K} (map : OrderedMap K V) (key : K) : option V :=
  snd <$> List.find (fun entry => bool_decide (entry.1 = key)) map.

(** [OrderedMap::visit_map]: a key that was seen is refused. *)
Fixpoint visit_map {K V} (key_name : K -> string) (seen : list string) (entries : list (K * V))
    : result string (OrderedMap K V) :=
  match entries with
  | [] => Ok []
  | (key, value) :: rest =>
      if existsb (String.eqb (key_name key)) seen then Err ("duplicate key '" +:+ key_name key +:+ "'")
      else map ← visit_map key_name (key_name key :: seen) rest; Ok ((key, value) :: map)
  end.

(** [struct PublishSpec], [enum TargetPublish] and [TargetPublish::spec]. *)
Record PublishSpec := {
  sp_play : option PlayPublishSpec;
  sp_testflight : option TestflightPublishSpec;
  sp_app_store : option AppStorePublishSpec;
}.

Inductive TargetPublish : Type :=
  | PublishOff
  | PublishOn (spec : PublishSpec).

Definition publish_spec (publish : TargetPublish) : option PublishSpec :=
  match publish with PublishOff => None | PublishOn spec => Some spec end.

(** [struct TargetSpec]. *)
Record TargetSpec := {
  ts_build : option string;
  ts_artifacts : option (list string);
  ts_publish : option TargetPublish;
  ts_budgets : option SizeBudget;
}.

Definition default_target : TargetSpec :=
  {| ts_build := None; ts_artifacts := None; ts_publish := None; ts_budgets := None |}.

(** [WorkflowTargets::visit_seq]: the platforms of a list, each once. *)
Fixpoint visit_seq (entries : OrderedMap BuildPlatform TargetSpec) (platforms : list BuildPlatform)
    : result string (OrderedMap BuildPlatform TargetSpec) :=
  match platforms with
  | [] => Ok entries
  | platform :: rest =>
      if has_platform (map fst entries) platform then
        Err ("duplicate target '" +:+ platform_key platform +:+ "'")
      else visit_seq (entries ++ [(platform, default_target)]) rest
  end.

(** [struct StepReports], [struct InlineStep] and [enum StepEntry]. *)
Record InlineStep := {
  in_name : string;
  in_run : string;
  in_reports : option string;
}.

Inductive StepEntry : Type :=
  | BuildEntry
  | RefEntry (name : string)
  | InlineEntry (step : InlineStep).

(** [StepEntry::visit_str]. *)
Definition step_of_text (value : string) : StepEntry :=
  if String.eqb value "build" then BuildEntry else RefEntry value.

(** [struct WorkflowSpec]. *)
Record WorkflowSpec := {
  wf_on : option TriggerSpec;
  wf_targets : option (OrderedMap BuildPlatform TargetSpec);
  wf_flavors : option (list string);
  wf_steps : option (list StepEntry);
  wf_env : OrderedMap string string;
  wf_vars : OrderedMap string string;
  wf_signing : option SigningSpec;
}.

(** [struct AppSpec]. *)
Record AppSpec := { app_flutter : option string; app_flavors : list string }.

(** [struct ConfigV2]. *)
Record ConfigV2 := {
  v2_version : Z;
  v2_name : option string;
  v2_app : AppSpec;
  v2_targets : OrderedMap BuildPlatform TargetSpec;
  v2_steps : option (list StepEntry);
  v2_env : OrderedMap string string;
  v2_vars : OrderedMap string string;
  v2_on : option TriggerSpec;
  v2_workflows : OrderedMap string WorkflowSpec;
  v2_signing : SigningSpec;
  v2_runs_on : list string;
  v2_isolation : BuildIsolation;
  v2_build_number_offset : Z;
}.

(** [ConfigV2::workflow_names]. *)
Definition workflow_names (config : ConfigV2) : list string := map fst (v2_workflows config).

(** [ConfigV2::triggers]. *)
Definition v2_triggers (config : ConfigV2) (workflow : option string) : option TriggerSpec :=
  let selected :=
    match workflow with
    | Some name => om_get (v2_workflows config) name
    | None => match v2_workflows config with [(_, only)] => Some only | _ => None end
    end in
  or_else (selected ≫= wf_on) (v2_on config).

(** [is_valid_identifier]. *)
Definition is_valid_identifier (name : string) : bool :=
  match name with
  | EmptyString => false
  | String c rest =>
      is_ascii_alphanumeric c
      && all_bytes (fun c => is_ascii_alphanumeric c || Ascii.eqb c "_" || Ascii.eqb c "-") rest
      && (str_len name <=? 64)
  end.

(** *** Sizes *)

Definition MAX_STEP_NAME_LENGTH : Z := 100.
Definition MAX_WORKFLOWS : nat := 32.
Definition MAX_FLAVORS : nat := 32.
Definition MAX_STEPS : nat := 100.
Definition MAX_ARTIFACT_PATTERNS : nat := 64.
Definition MAX_ENV_ENTRIES : nat := 128.
Definition MAX_VARS : nat := 128.
Definition MAX_TRIGGER_PATTERNS : nat := 64.
Definition MAX_COMMAND_BYTES : Z := 32 * 1024.
Definition MAX_RAW_PATTERN_BYTES : Z := 2048.
Definition MAX_ERRORS : nat := 50.

(** The closure [count] of [size_errors]. *)
Definition count_error (path : string) (len max : nat) (what : string) : list string :=
  when (max <? len)%nat
    (path +:+ " has " +:+ pretty len +:+ " " +:+ what +:+ "; the limit is " +:+ pretty max).

(** [branch_count]. *)
Definition branch_count (trigger : option BranchTrigger) : nat :=
  match trigger with Some (Branches branches) => length branches | _ => 0 end.

(** The first of [size_errors]: counts, at the top level and per workflow. *)
Definition workflow_count_errors (name : string) (workflow : WorkflowSpec) : list string :=
  let path := "workflows." +:+ name in
  from_option (fun flavors => count_error (path +:+ ".flavors") (length flavors) MAX_FLAVORS "flavors") [] (wf_flavors workflow)
  ++ count_error (path +:+ ".env") (length (wf_env workflow)) MAX_ENV_ENTRIES "entries"
  ++ count_error (path +:+ ".vars") (length (wf_vars workflow)) MAX_VARS "vars"
  ++ from_option (fun entries => count_error (path +:+ ".steps") (length entries) MAX_STEPS "steps") [] (wf_steps workflow).

Definition count_errors (config : ConfigV2) : list string :=
  count_error "workflows" (length (v2_workflows config)) MAX_WORKFLOWS "workflows"
  ++ count_error "app.flavors" (length (app_flavors (v2_app config))) MAX_FLAVORS "flavors"
  ++ count_error "env" (length (v2_env config)) MAX_ENV_ENTRIES "entries"
  ++ count_error "vars" (length (v2_vars config)) MAX_VARS "vars"
  ++ from_option (fun steps => count_error "steps" (length steps) MAX_STEPS "steps") [] (v2_steps config)
  ++ concat (map (fun '(name, workflow) => workflow_count_errors name workflow)
       (take MAX_WORKFLOWS (v2_workflows config))).

(** The targets, step lists and triggers [size_errors] collects, by path. *)
Definition target_paths (prefix : string) (targets : OrderedMap BuildPlatform TargetSpec)
    : list (string * TargetSpec) :=
  map (fun '(platform, target) => (prefix +:+ "targets." +:+ platform_key platform, target)) targets.

Definition sized_targets (config : ConfigV2) : list (string * TargetSpec) :=
  target_paths "" (v2_targets config)
  ++ concat (map (fun '(name, workflow) =>
       from_option (target_paths ("workflows." +:+ name +:+ ".")) [] (wf_targets workflow))
     (take MAX_WORKFLOWS (v2_workflows config))).

Definition sized_steps (config : ConfigV2) : list (string * list StepEntry) :=
  from_option (fun entries => [("steps"%string, entries)]) [] (v2_steps config)
  ++ concat (map (fun '(name, workflow) =>
       from_option (fun entries => [("workflows." +:+ name +:+ ".steps", entries)]) [] (wf_steps workflow))
     (take MAX_WORKFLOWS (v2_workflows config))).

Definition sized_triggers (config : ConfigV2) : list (string * TriggerSpec) :=
  from_option (fun on => [("on"%string, on)]) [] (v2_on config)
  ++ concat (map (fun '(name, workflow) =>
       from_option (fun on => [("workflows." +:+ name +:+ ".on", on)]) [] (wf_on workflow))
     (take MAX_WORKFLOWS (v2_workflows config))).

Fixpoint position_of {A} (p : A -> bool) (l : list A) : option nat :=
  match l with
  | [] => None
  | x :: rest => if p x then Some 0%nat else S <$> position_of p rest
  end.

Definition target_size_errors (path : string) (target : TargetSpec) : list string :=
  from_option (fun b => when (MAX_COMMAND_BYTES <? str_len b)
    (path +:+ ".build is longer than " +:+ pretty (MAX_COMMAND_BYTES / 1024) +:+ " KiB")) [] (ts_build target)
  ++ match ts_artifacts target with
     | None => []
     | Some patterns =>
         if (MAX_ARTIFACT_PATTERNS <? length patterns)%nat then
           [path +:+ ".artifacts has " +:+ pretty (length patterns) +:+ " patterns; the limit is "
            +:+ pretty MAX_ARTIFACT_PATTERNS]
         else match position_of (fun pattern => MAX_RAW_PATTERN_BYTES <? str_len pattern) patterns with
              | Some index =>
                  [at_index (path +:+ ".artifacts") index +:+ " is longer than "
                   +:+ pretty MAX_RAW_PATTERN_BYTES +:+ " characters"]
              | None => []
              end
     end.

Definition step_size_errors (path : string) (entries : list StepEntry) : list string :=
  indexed (fun index entry =>
    match entry with
    | InlineEntry step => when (MAX_COMMAND_BYTES <? str_len (in_run step))
        (at_index path index +:+ ".run is longer than " +:+ pretty (MAX_COMMAND_BYTES / 1024) +:+ " KiB")
    | _ => []
    end) (take MAX_STEPS entries).

Definition trigger_size_errors (path : string) (on : TriggerSpec) : list string :=
  concat (map (fun '(field, len) => when (MAX_TRIGGER_PATTERNS <? len)%nat
      (path +:+ "." +:+ field +:+ " has " +:+ pretty len +:+ " patterns; the limit is "
       +:+ pretty MAX_TRIGGER_PATTERNS))
    [("push.branches"%string, branch_count (on_push on));
     ("pull_request.branches"%string, branch_count (on_pull_request on));
     ("tag"%string, length (on_tag on)); ("paths"%string, length (on_paths on))]).

(** [ConfigV2::size_errors]. *)
Definition size_errors (config : ConfigV2) : list string :=
  take MAX_ERRORS
    (count_errors config
     ++ concat (map (fun '(path, target) => target_size_errors path target) (sized_targets config))
     ++ concat (map (fun '(path, entries) => step_size_errors path entries) (sized_steps config))
     ++ concat (map (fun '(path, on) => trigger_size_errors path on) (sized_triggers config))).

(** *** Shape *)

(** [check_flavor_list]; [seen] holds the flavors already met. *)
Fixpoint flavor_errors (path : string) (allowed : option (list string)) (index : nat)
    (seen flavors : list string) : list string :=
  match flavors with
  | [] => []
  | flavor :: rest =>
      if negb (is_valid_identifier flavor) then
        (at_index path index +:+ " must start with a letter or digit and use only letters, digits, '-' and '_' (max 64 chars)")
        :: flavor_errors path allowed (S index) seen rest
      else if existsb (String.eqb flavor) seen then
        (path +:+ " contains duplicate flavor '" +:+ flavor +:+ "'")
        :: flavor_errors path allowed (S index) seen rest
      else
        from_option (fun allowed => when (negb (existsb (String.eqb flavor) allowed))
          (at_index path index +:+ " '" +:+ flavor +:+ "' is not one of app.flavors")) [] allowed
        ++ flavor_errors path allowed (S index) (flavor :: seen) rest
  end.

Definition check_flavor_list (path : string) (flavors : list string) (allowed : option (list string))
    : list string :=
  flavor_errors path allowed 0 [] flavors
  ++ when (bool_decide (is_Some allowed) && bool_decide (flavors = []))
       (path +:+ " must not be empty; omit it to build every flavor").

(** [check_target]. *)
Definition kind_platform (kind : string) : option BuildPlatform :=
  if String.eqb kind "aab" || String.eqb kind "apk" then Some Android
  else if String.eqb kind "ipa" then Some Ios
  else None.

Definition budget_errors (path : string) (platform : BuildPlatform) (budgets : SizeBudget) : list string :=
  let field := path +:+ ".budgets" in
  validate_at budgets field
  ++ concat (map (fun rule =>
       match kind_platform (kind rule) with
       | Some p => when (negb (bool_decide (p = platform)))
           (field +:+ " kind '" +:+ kind rule +:+ "' is only built by the " +:+ platform_key p +:+ " target")
       | None => []
       end) (rules budgets)).

Definition in_rollout_range (rollout : f64) : bool := f64_lt f_0 rollout && f64_le rollout f_1.

Definition play_errors (path : string) (platform : BuildPlatform) (spec : PlayPublishSpec) : list string :=
  when (negb (bool_decide (platform = Android))) (path +:+ ".publish.play is only available for android")
  ++ when (is_empty (trim (pp_track spec))) (path +:+ ".publish.play.track must not be empty")
  ++ from_option (fun rollout => when (negb (in_rollout_range rollout))
       (path +:+ ".publish.play.rollout must be greater than 0 and at most 1 (0.05 is 5%)")) [] (pp_rollout spec).

Definition testflight_errors (path : string) (platform : BuildPlatform) (spec : TestflightPublishSpec) : list string :=
  when (negb (bool_decide (platform = Ios))) (path +:+ ".publish.testflight is only available for ios")
  ++ when (is_empty (trim (tf_group spec))) (path +:+ ".publish.testflight.group must not be empty").

Definition service_account_errors (path : string) (spec : PlayPublishSpec) : list string :=
  when (match pp_service_account spec with
        | Some name => negb (is_ok (validate_secret_name (trim name)))
        | None => false
        end)
    (path +:+ ".publish.play.service_account must be a secret name such as PLAY_SERVICE_ACCOUNT").

Definition app_store_errors (path : string) (platform : BuildPlatform) (publish : PublishSpec)
    (spec : AppStorePublishSpec) : list string :=
  when (negb (bool_decide (platform = Ios))) (path +:+ ".publish.app_store is only available for ios")
  ++ from_option (fun _ => [path +:+ ".publish sets both testflight and app_store; use app_store with destination testflight"])
       [] (sp_testflight publish)
  ++ match sa_destination spec with
     | AppStoreDestination.Testflight =>
         when (bool_decide (is_Some (sa_submit_for_review spec)) || bool_decide (is_Some (sa_phased_release spec)))
           (path +:+ ".publish.app_store.submit_for_review and phased_release apply to destination app_store only")
     | AppStoreDestination.AppStore =>
         when (negb (bool_decide (sa_groups spec = [])))
           (path +:+ ".publish.app_store.groups applies to destination testflight only")
     end
  ++ when (existsb (fun group => is_empty (trim group)) (sa_groups spec))
       (path +:+ ".publish.app_store.groups must not hold empty names").

Definition publish_errors (path : string) (platform : BuildPlatform) (publish : PublishSpec) : list string :=
  from_option (play_errors path platform) [] (sp_play publish)
  ++ from_option (testflight_errors path platform) [] (sp_testflight publish)
  ++ from_option (service_account_errors path) [] (sp_play publish)
  ++ from_option (app_store_errors path platform publish) [] (sp_app_store publish)
  ++ match sp_play publish, sp_testflight publish, sp_app_store publish with
     | None, None, None => [path +:+ ".publish must set play, testflight or app_store"]
     | _, _, _ => []
     end.

Definition check_target (path : string) (platform : BuildPlatform) (target : TargetSpec) : list string :=
  from_option (fun b => when (is_empty (trim b)) (path +:+ ".build must not be empty")) [] (ts_build target)
  ++ from_option (fun artifacts => when (bool_decide (artifacts = []))
       (path +:+ ".artifacts must not be empty; omit it to use the platform defaults")) [] (ts_artifacts target)
  ++ from_option (budget_errors path platform) [] (ts_budgets target)
  ++ from_option (publish_errors path platform) [] (ts_publish target ≫= publish_spec).

(** The closure that looks a reference up in the top-level steps. *)
Definition defines_step (name : string) (entry : StepEntry) : bool :=
  match entry with InlineEntry step => String.eqb (trim (in_name step)) (trim name) | _ => false end.

(** [check_steps]; [builds] and [seen] are its counters. *)
Definition inline_name_error (entry_path : string) (seen : list string) (name : string) : option string :=
  if is_empty name then Some (entry_path +:+ ".name must not be empty")
  else if MAX_STEP_NAME_LENGTH <? str_len name then
    Some (entry_path +:+ ".name is too long (max " +:+ pretty MAX_STEP_NAME_LENGTH +:+ " chars)")
  else if existsb is_control (chars_l (bytes name)) then Some (entry_path +:+ ".name must be a single line")
  else if existsb (String.eqb name) seen then Some (entry_path +:+ " name '" +:+ name +:+ "' is used by another step")
  else None.

Definition report_errors (entry_path : string) (reports : option string) : list string :=
  match reports with
  | None => []
  | Some tests =>
      let tests := trim tests in
      match validate_repository_config_path tests with
      | Err e => [entry_path +:+ ".reports.tests " +:+ e]
      | Ok _ => when (negb (ends_with ".json" tests || ends_with ".xml" tests))
          (entry_path +:+ ".reports.tests must be a .json (dart test) or .xml (JUnit) file")
      end
  end.

Definition to_list {A} (o : option A) : list A := match o with Some a => [a] | None => [] end.

Fixpoint steps_errors (path : string) (shared : option (list StepEntry)) (index builds : nat)
    (seen : list string) (steps : list StepEntry) : list string :=
  match steps with
  | [] => []
  | entry :: rest =>
      let entry_path := at_index path index in
      match entry with
      | BuildEntry =>
          when (S builds =? 2)%nat (entry_path +:+ ": build may appear only once")
          ++ steps_errors path shared (S index) (S builds) seen rest
      | RefEntry name =>
          match shared with
          | None =>
              (entry_path +:+ ": '" +:+ name +:+ "' is not a step; give a step as `name` and `run`, or use `build` to place the targets")
              :: steps_errors path shared (S index) builds seen rest
          | Some shared' =>
              if negb (existsb (defines_step name) shared') then
                (entry_path +:+ " refers to step '" +:+ name +:+ "', which is not defined in the top-level steps")
                :: steps_errors path shared (S index) builds seen rest
              else if existsb (String.eqb (trim name)) seen then
                (entry_path +:+ ": step '" +:+ name +:+ "' appears more than once")
                :: steps_errors path shared (S index) builds seen rest
              else steps_errors path shared (S index) builds (trim name :: seen) rest
          end
      | InlineEntry step =>
          let name := trim (in_name step) in
          let name_error := inline_name_error entry_path seen name in
          to_list name_error
          ++ when (is_empty (trim (in_run step))) (entry_path +:+ ".run must not be empty")
          ++ report_errors entry_path (in_reports step)
          ++ steps_errors path shared (S index) builds
               (match name_error with None => name :: seen | Some _ => seen end) rest
      end
  end.

Definition check_steps (path : string) (steps : list StepEntry) (shared : option (list StepEntry)) : list string :=
  steps_errors path shared 0 0 [] steps.

(** [check_keys]. *)
Definition check_keys (path : string) (entries : OrderedMap string string) : list string :=
  concat (map (fun '(key, _) => when (negb (is_valid_pipeline_env_key key))
    (path +:+ "." +:+ key +:+ " must match [A-Za-z_][A-Za-z0-9_]*")) entries).

(** [check_triggers]. *)
Definition branch_errors (path field : string) (trigger : option BranchTrigger) : list string :=
  match trigger with
  | Some (Branches branches) =>
      when (bool_decide (branches = []))
        (path +:+ "." +:+ field +:+ ".branches must not be empty; use `" +:+ field +:+ ": true` for every branch")
      ++ indexed (fun index branch => when (is_empty (trim branch))
           (at_index (path +:+ "." +:+ field +:+ ".branches") index +:+ " must not be empty")) branches
  | _ => []
  end.

Definition check_triggers (path : string) (on : TriggerSpec) : list string :=
  branch_errors path "push" (on_push on)
  ++ branch_errors path "pull_request" (on_pull_request on)
  ++ indexed (fun index tag => when (is_empty (trim tag)) (at_index (path +:+ ".tag") index +:+ " must not be empty")) (on_tag on)
  ++ indexed (fun index pattern => when (is_empty (trim pattern))
       (at_index (path +:+ ".paths") index +:+ " must not be empty")) (on_paths on).

(** [ConfigV2::shape_errors], per workflow and as a whole. *)
Definition workflow_shape_errors (config : ConfigV2) (name : string) (workflow : WorkflowSpec) : list string :=
  let path := "workflows." +:+ name in
  when (negb (is_valid_identifier name))
    (path +:+ ": workflow names must start with a letter or digit and use only letters, digits, '-' and '_' (max 64 chars)")
  ++ from_option (check_triggers (path +:+ ".on")) [] (wf_on workflow)
  ++ from_option (fun targets =>
       when (bool_decide (map fst targets = [])) (path +:+ ".targets must not be empty")
       ++ concat (map (fun '(platform, target) =>
            let target_path := path +:+ ".targets." +:+ platform_key platform in
            match ts_build target, om_get (v2_targets config) platform with
            | None, None =>
                [target_path +:+ " needs a build command, because there is no top-level targets." +:+ platform_key platform]
            | _, _ => []
            end ++ check_target target_path platform target) targets)) [] (wf_targets workflow)
  ++ from_option (fun flavors =>
       check_flavor_list (path +:+ ".flavors") flavors (Some (app_flavors (v2_app config)))) [] (wf_flavors workflow)
  ++ from_option (fun steps =>
       check_steps (path +:+ ".steps") steps (Some (default [] (v2_steps config)))) [] (wf_steps workflow)
  ++ check_keys (path +:+ ".env") (wf_env workflow)
  ++ check_keys (path +:+ ".vars") (wf_vars workflow).

Definition any_workflow_targets (config : ConfigV2) : bool :=
  existsb (fun '(_, workflow) =>
    match wf_targets workflow with Some (_ :: _) => true | _ => false end) (v2_workflows config).

Definition shape_errors (config : ConfigV2) : list string :=
  from_option (fun flutter => when (is_empty (trim flutter)) "app.flutter must not be empty") []
    (app_flutter (v2_app config))
  ++ check_flavor_list "app.flavors" (app_flavors (v2_app config)) None
  ++ when (bool_decide (map fst (v2_targets config) = []) && negb (any_workflow_targets config))
       "targets must define at least one of android, ios or macos"
  ++ concat (map (fun '(platform, target) =>
       let path := "targets." +:+ platform_key platform in
       match ts_build target with None => [path +:+ ".build is required"] | Some _ => [] end
       ++ check_target path platform target) (v2_targets config))
  ++ from_option (fun steps => check_steps "steps" steps None) [] (v2_steps config)
  ++ check_keys "env" (v2_env config)
  ++ check_keys "vars" (v2_vars config)
  ++ from_option (check_triggers "on") [] (v2_on config)
  ++ concat (map (fun '(name, workflow) => workflow_shape_errors config name workflow) (v2_workflows config))
  ++ err_if (fun e => "build_number_offset " +:+ e) (validate_build_number_offset (v2_build_number_offset config))
  ++ err_if (fun e => "runs_on " +:+ e) (normalize_runner_labels (v2_runs_on config)).

(** ** Plans of version 1 settings *)

Lemma number_steps_phase phase l : Forall (fun step => ps_phase step = phase) (number_steps phase l).
Proof.
  apply Forall_forall. intros step [i Hi]%list_elem_of_lookup. unfold number_steps in Hi.
  rewrite list_lookup_imap in Hi. apply fmap_Some in Hi as ([[run source] platform] & _ & ->). done.
Qed.

Lemma filter_all {A} (f : A -> bool) l : Forall (fun x => f x = true) l -> List.filter f l = l.
Proof. induction 1 as [|x l Hx _ IH]; cbn; [done|]. by rewrite Hx, IH. Qed.

Lemma filter_none {A} (f : A -> bool) l : Forall (fun x => f x = false) l -> List.filter f l = [].
Proof. induction 1 as [|x l Hx _ IH]; cbn; [done|]. by rewrite Hx, IH. Qed.

Lemma filter_phase phase phase' l :
  List.filter (fun step => bool_decide (ps_phase step = phase)) (number_steps phase' l)
  = if bool_decide (phase' = phase) then number_steps phase' l else [].
Proof.
  pose proof (number_steps_phase phase' l) as H. case_bool_decide as Hp.
  - apply filter_all. eapply Forall_impl; [exact H|]. intros step ->. by apply bool_decide_eq_true.
  - apply filter_none. eapply Forall_impl; [exact H|]. intros step ->. by apply bool_decide_eq_false.
Qed.

Lemma number_steps_runs phase l : map ps_run (number_steps phase l) = map (fun x : lowered => x.1.1) l.
Proof.
  apply list_eq. intros i. unfold number_steps, lowered in *. rewrite !list_lookup_fmap, list_lookup_imap.
  destruct (l !! i) as [[[run source] platform]|]; done.
Qed.

Lemma number_steps_names phase l i n :
  map ps_name (number_steps phase l) !! i = Some n -> n = phase_str phase +:+ "-" +:+ pretty (S i).
Proof.
  unfold number_steps, lowered in *. rewrite list_lookup_fmap, list_lookup_imap.
  destruct (l !! i) as [[[run source] platform]|]; cbn; [|done]. by intros [= <-].
Qed.

Lemma number_steps_nodup phase l : NoDup (map ps_name (number_steps phase l)).
Proof.
  apply NoDup_alt. intros i j n Hi Hj. apply number_steps_names in Hi, Hj. subst n.
  apply (inj (String.append (phase_str phase))), (inj (String.append "-")), (inj pretty) in Hj. lia.
Qed.

Lemma number_steps_disjoint phase phase' l l' n :
  phase <> phase' -> n ∈ map ps_name (number_steps phase l) -> n ∉ map ps_name (number_steps phase' l').
Proof.
  intros Hne [i Hi]%list_elem_of_lookup [j Hj]%list_elem_of_lookup.
  apply number_steps_names in Hi, Hj. subst n. by destruct phase, phase'.
Qed.

Lemma user_commands_runs stage l : map (fun x : lowered => x.1.1) (user_commands stage l) = l.
Proof.
  apply list_eq. intros i. unfold user_commands. rewrite list_lookup_fmap, list_lookup_imap. by destruct (l !! i).
Qed.

(** The steps of a phase that belong to no platform. *)
Definition shared_runs (l : list lowered) : list string :=
  map (fun x => x.1.1) (List.filter (fun x => bool_decide (x.2 = None)) l).

Lemma imap_filter {A B C} (f : nat -> A -> B) (p : A -> bool) (q : B -> bool) (g : A -> C) (h : B -> C) l :
  (forall i a, q (f i a) = p a) -> (forall i a, h (f i a) = g a) ->
  map h (List.filter q (imap f l)) = map g (List.filter p l).
Proof.
  intros Hq Hh. revert f Hq Hh; induction l as [|a l IH]; intros f Hq Hh; cbn; [done|].
  rewrite Hq. specialize (IH (f ∘ S) (fun i => Hq (S i)) (fun i => Hh (S i))).
  destruct (p a); cbn; rewrite IH; [by rewrite Hh|done].
Qed.

Lemma shared_number_steps phase l :
  map ps_run (List.filter (fun step => bool_decide (ps_platform step = None)) (number_steps phase l)) = shared_runs l.
Proof. apply imap_filter; by intros i [[run source] platform]. Qed.

Lemma shared_app l k : shared_runs (l ++ k) = shared_runs l ++ shared_runs k.
Proof. unfold shared_runs. by rewrite List.filter_app, map_app. Qed.

Lemma shared_user stage l : shared_runs (user_commands stage l) = l.
Proof.
  unfold shared_runs. rewrite filter_all; [apply user_commands_runs|].
  apply Forall_forall. intros x [i Hi]%list_elem_of_lookup. unfold user_commands in Hi.
  rewrite list_lookup_imap in Hi. by apply fmap_Some in Hi as (run & _ & ->).
Qed.

Lemma shared_platform config bundle l :
  shared_runs (concat (map (platform_commands config bundle) l)) = [].
Proof.
  unfold shared_runs. rewrite filter_none; [done|]. apply Forall_concat, Forall_map, Forall_true. intros p.
  unfold platform_commands. cbv zeta. constructor; [done|]. by destruct (_ && _); repeat constructor.
Qed.

(** The steps of a plan numbered phase by phase. *)
Section Phases.
Context (p : PipelinePlan) (pre main post : list lowered).
Hypothesis Hsteps : plan_steps p = number_steps PreBuild pre ++ number_steps Build main ++ number_steps PostBuild post.

Lemma phased_steps phase :
  steps_in p phase
  = match phase with
    | PreBuild => number_steps PreBuild pre
    | Build => number_steps Build main
    | PostBuild => number_steps PostBuild post
    end.
Proof using Hsteps.
  unfold steps_in. rewrite Hsteps, !List.filter_app, !filter_phase. destruct phase; cbn [bool_decide].
  all: by rewrite ?app_nil_r.
Qed.

Lemma phased_names : NoDup (map ps_name (plan_steps p)).
Proof using Hsteps.
  rewrite Hsteps, !map_app. apply NoDup_app. split_and!; [apply number_steps_nodup| |].
  - intros n Hn [Hn'|Hn']%elem_of_app; by eapply number_steps_disjoint in Hn'.
  - apply NoDup_app. split_and!; try apply number_steps_nodup. intros n Hn Hn'. by eapply number_steps_disjoint in Hn'.
Qed.
End Phases.

(** *** The commands of a platform *)

Definition no_overrides : PlatformBuildCommands :=
  {| android_command := None; ios_command := None; macos_command := None |}.

(** What builds a platform: the settings' command for it or, without one,
    Flutter's with the settings' arguments, and the App Bundle for Google Play
    beside Android's. *)
Definition expected_commands (config : PipelineExecutionConfig) (bundle : bool) (platform : BuildPlatform)
    : list string :=
  match platform_override (ec_platform_commands config) platform with
  | Some command => [command]
  | None =>
      default_platform_command platform no_overrides (ec_platform_build_args config)
      :: if bundle && bool_decide (platform = Android)
         then [default_play_bundle_command (ec_platform_build_args config)] else []
  end.

(** How often the settings list a platform. *)
Definition times_listed (platform : BuildPlatform) (l : list BuildPlatform) : nat :=
  length (List.filter (fun q => bool_decide (q = platform)) l).

Definition platform_runs (platform : BuildPlatform) (l : list lowered) : list string :=
  map (fun x => x.1.1) (List.filter (fun x => bool_decide (x.2 = Some platform)) l).

Lemma platform_runs_app platform l k : platform_runs platform (l ++ k) = platform_runs platform l ++ platform_runs platform k.
Proof. unfold platform_runs. by rewrite List.filter_app, map_app. Qed.

Lemma platform_runs_steps phase platform l :
  map ps_run (List.filter (fun step => bool_decide (ps_platform step = Some platform)) (number_steps phase l))
  = platform_runs platform l.
Proof. apply imap_filter; by intros i [[run source] q]. Qed.

Lemma platform_runs_user platform stage l : platform_runs platform (user_commands stage l) = [].
Proof.
  unfold platform_runs. rewrite filter_none; [done|]. apply Forall_forall. intros x [i Hi]%list_elem_of_lookup.
  unfold user_commands in Hi. rewrite list_lookup_imap in Hi. by apply fmap_Some in Hi as (run & _ & ->).
Qed.

Lemma platform_runs_one config bundle platform q :
  platform_runs platform (platform_commands config bundle q)
  = if bool_decide (q = platform) then expected_commands config bundle platform else [].
Proof.
  unfold platform_commands, expected_commands, platform_runs. destruct (ec_platform_commands config) as [a i m].
  by destruct platform, q, bundle, a, i, m.
Qed.

Lemma platform_runs_all config bundle platform l :
  platform_runs platform (concat (map (platform_commands config bundle) l))
  = concat (replicate (times_listed platform l) (expected_commands config bundle platform)).
Proof.
  induction l as [|q l IH]; [done|]. cbn [map concat]. rewrite platform_runs_app, IH, platform_runs_one.
  unfold times_listed. cbn. by case_bool_decide.
Qed.

(** C40: Settings of version 1 survive planning: previewed again
    ([to_execution_config]), a plan of them has their platforms, Flutter
    version, env, artifacts, offset, labels and isolation, and the commands of
    every stage as they were written, after [flutter pub get] when the default
    platform commands are used.  Then it also has one command for each platform
    the settings list: the settings' own, or Flutter's with the settings'
    arguments and, when Google Play needs it, the App Bundle's after Android's;
    without the default commands it has none.  The arguments themselves are not
    previewed: they are in those commands.  No two of the plan's steps share a
    name, and they come phase by phase. *)
Theorem v1_round_trip (config : PipelineExecutionConfig) (defaults bundle : bool) :
  let p := plan_execution_config config defaults bundle in
  let c := to_execution_config p in
  ec_platforms c = ec_platforms config /\ ec_flutter_version c = ec_flutter_version config
  /\ ec_env c = ec_env config /\ ec_artifact_patterns c = ec_artifact_patterns config
  /\ ec_build_number_offset c = ec_build_number_offset config /\ ec_runs_on c = ec_runs_on config
  /\ ec_isolation c = ec_isolation config
  /\ pre_build (ec_commands c)
     = (if defaults && negb (bool_decide (ec_platforms config = [])) then ["flutter pub get"%string] else [])
       ++ pre_build (ec_commands config)
  /\ build (ec_commands c) = build (ec_commands config)
  /\ post_build (ec_commands c) = post_build (ec_commands config)
  /\ (forall platform, platform_override (ec_platform_commands c) platform =
        let runs := if defaults then concat (replicate (times_listed platform (ec_platforms config))
                                               (expected_commands config bundle platform)) else [] in
        match runs with [] => None | _ => Some (join " && " runs) end)
  /\ ec_platform_build_args c = {| android_args := []; ios_args := []; macos_args := [] |}
  /\ plan_steps p = steps_in p PreBuild ++ steps_in p Build ++ steps_in p PostBuild
  /\ NoDup (map ps_name (plan_steps p)).
Proof.
  intros p c. pose proof (phased_steps p _ _ _ eq_refl) as Hs. pose proof (phased_names p _ _ _ eq_refl) as Hn.
  split_and!; try done; try (cbn [c to_execution_config ec_commands pre_build build post_build]; unfold commands_in).
  - rewrite (Hs PreBuild), number_steps_runs, map_app, user_commands_runs. f_equal. by destruct (_ && _).
  - rewrite (Hs Build), shared_number_steps, shared_app, shared_user. destruct defaults; [|done].
    by rewrite shared_platform.
  - by rewrite (Hs PostBuild), number_steps_runs, user_commands_runs.
  - intros platform. assert (Hp : platform_override (ec_platform_commands c) platform = platform_command p platform)
      by (by destruct platform).
    rewrite Hp. unfold platform_command. rewrite (Hs Build), platform_runs_steps, platform_runs_app, platform_runs_user, app_nil_r.
    destruct defaults; [|done]. by rewrite platform_runs_all.
  - by rewrite !Hs.
Qed.
