(* ===== verification/FilePublish.v ===== *)
(** * Uploads a file asks for

    How the [publish] of a [version: 2] file applies to the pipeline's Publish
    settings: [PlanPublish::apply], [describe] and [adjustment_notes] of
    [crates/oore-contract/src/pipeline_config.rs], and the status the runner
    gives the release ([release_status] of [crates/oore-runner/src/publish.rs]).

    How a number is written out ([show]) is a parameter: it only appears in
    texts for people. *)

From stdpp Require Import pretty.
From S2P Require Import Prelude RustStr F64 Sizes Stores Vars PipelineFile.
From Stdlib Require Import Ascii Floats.SpecFloat.

Local Open Scope Z_scope.

(** [f64::round]: half away from zero. *)
Definition f64_round (x : f64) : f64 :=
  match x with
  | S754_finite s m e =>
      if 0 <=? e then x
      else let n := div_half_up (Zpos m) (2 ^ (- e)) in
           if n =? 0 then S754_zero s else f64_of_Z (if s then - n else n)
  | _ => x
  end.

Definition f_1e6 : f64 := f64_of_Z 1000000.
#[global] Arguments f_1e6 : simpl never.

(** [play_rollout_percent]. *)
Definition play_rollout_percent (rollout : f64) : f64 :=
  f64_div (f64_round (f64_mul (f64_mul rollout f_100) f_1e6)) f_1e6.

#[global] Arguments play_rollout_percent : simpl never.

(** ** The runner's settings *)

(** [struct RunnerAppStoreUploadCredentials], [struct RunnerAppStorePublishPlan]
    and [struct RunnerPublishPlan]. *)
Record RunnerAppStoreUploadCredentials := {
  uc_key_id : string;
  uc_issuer_id : string;
  uc_private_key_pem : string;
}.

Record RunnerAppStorePublishPlan := {
  ra_config : AppStorePublishConfig;
  ra_credentials : RunnerAppStoreUploadCredentials;
}.

Record RunnerPublishPlan := {
  rp_changelog : option string;
  rp_google_play : option GooglePlayPublishConfig;
  rp_app_store : option RunnerAppStorePublishPlan;
  rp_disabled : bool;
}.

(** [struct EffectivePublish]. *)
Record EffectivePublish := {
  ep_changelog : option string;
  ep_google_play : result string (option GooglePlayPublishConfig);
  ep_app_store : result string (option RunnerAppStorePublishPlan);
  ep_notes : list string;
}.

(** [PlanPublish::is_empty] and [PlanPublish::needs_app_store_export]. *)
Definition publish_is_empty (p : PlanPublish) : bool :=
  match play p, testflight p, app_store p with None, None, None => true | _, _, _ => false end.

Definition needs_app_store_export (p : PlanPublish) : bool :=
  bool_decide (is_Some (testflight p)) || bool_decide (is_Some (app_store p)).

(** [GooglePlayPublishConfig::from_file_defaults], with the fields a file
    sets. *)
Definition play_from_file (secret track : string) (percent : option f64) (draft : bool)
    : GooglePlayPublishConfig :=
  {| gp_enabled := true; gp_service_account_secret := secret; gp_package_name := None;
     gp_track := track; gp_rollout_percent := percent; gp_draft := draft;
     gp_release_notes := Changelog; gp_release_notes_locale := "en-US"; gp_release_notes_dir := None;
     gp_upload_mapping := true; gp_in_app_update_priority := None; gp_rollout_policy := None |}.

Definition set_play (c : GooglePlayPublishConfig) (secret track : string) (percent : option f64)
    (draft : bool) : GooglePlayPublishConfig :=
  {| gp_enabled := true; gp_service_account_secret := secret; gp_package_name := gp_package_name c;
     gp_track := track; gp_rollout_percent := percent; gp_draft := draft;
     gp_release_notes := gp_release_notes c; gp_release_notes_locale := gp_release_notes_locale c;
     gp_release_notes_dir := gp_release_notes_dir c; gp_upload_mapping := gp_upload_mapping c;
     gp_in_app_update_priority := gp_in_app_update_priority c; gp_rollout_policy := gp_rollout_policy c |}.

Definition below_100 (percent : f64) : bool := f64_lt percent f_100.

Definition option_keep {A} (p : A -> bool) (o : option A) : option A :=
  match o with Some a => if p a then Some a else None | None => None end.

Section Publish.
Context (show : f64 -> string).

(** Applying the file to settings that are on. *)
Definition apply_play_settings (spec : PlayPublishSpec) (config : GooglePlayPublishConfig)
    : GooglePlayPublishConfig * list string :=
  let percent :=
    match pp_rollout spec with
    | Some rollout => option_keep below_100 (Some (play_rollout_percent rollout))
    | None => gp_rollout_percent config
    end in
  let draft := default (gp_draft config) (pp_draft spec) in
  let secret := default (gp_service_account_secret config) (pp_service_account spec) in
  let track := pp_track spec in
  match option_keep below_100 percent with
  | Some p =>
      if draft then
        (set_play config secret track None draft,
         ["A draft has no staged rollout; ignoring the " +:+ show p +:+ "% rollout"])
      else if String.eqb track "internal" then
        (set_play config secret track None draft,
         ["The internal track has no staged rollouts; releasing to every internal tester instead of " +:+ show p +:+ "%"])
      else (set_play config secret track percent draft, [])
  | None => (set_play config secret track percent draft, [])
  end.

Definition play_settings_off (source : string) : string :=
  source +:+ " publishes with the pipeline's Google Play settings, which are off. Name the service account secret with `service_account`, or in the pipeline's Publish settings turn on Google Play's " +:+ String (byte_of 34) "" +:+ "Upload after each build" +:+ String (byte_of 34) "" +:+ " and set its service account secret; the file's track, rollout and draft replace the settings' own".

Definition apply_play (p : PlanPublish) (settings : option GooglePlayPublishConfig)
    : result string (option GooglePlayPublishConfig) * list string :=
  match play p with
  | None => (Ok settings, [])
  | Some planned =>
      match pl_error planned with
      | Some error => (Err error, [])
      | None =>
          let spec := pl_spec planned in
          match settings with
          | Some config => let '(config, notes) := apply_play_settings spec config in (Ok (Some config), notes)
          | None =>
              match pp_service_account spec with
              | Some secret =>
                  (Ok (Some (play_from_file secret (pp_track spec)
                     (option_keep (fun percent => below_100 percent && negb (String.eqb (pp_track spec) "internal"))
                        (play_rollout_percent <$> pp_rollout spec))
                     (default false (pp_draft spec)))), [])
              | None => (Err (play_settings_off (pl_source planned)), [])
              end
          end
      end
  end.

(** The older [testflight] as an [app_store] upload. *)
Definition app_store_upload (p : PlanPublish) : option (PlannedPublish AppStorePublishSpec) :=
  match testflight p with
  | Some t =>
      Some {| pl_spec := {| sa_destination := AppStoreDestination.Testflight;
                            sa_groups := [tf_group (pl_spec t)];
                            sa_submit_for_review := None; sa_phased_release := None |};
              pl_source := pl_source t; pl_error := pl_error t |}
  | None => app_store p
  end.

Definition set_app_store (spec : AppStorePublishSpec) (c : AppStorePublishConfig) : AppStorePublishConfig :=
  match sa_destination spec with
  | AppStoreDestination.Testflight =>
      {| as_enabled := true; as_destination := AppStoreDestination.Testflight;
         as_testflight_groups := match sa_groups spec with [] => as_testflight_groups c | groups => groups end;
         as_release_notes := as_release_notes c;
         as_uses_non_exempt_encryption := as_uses_non_exempt_encryption c;
         as_submit_for_review := false; as_phased_release := false |}
  | AppStoreDestination.AppStore =>
      {| as_enabled := true; as_destination := AppStoreDestination.AppStore;
         as_testflight_groups := as_testflight_groups c;
         as_release_notes := as_release_notes c;
         as_uses_non_exempt_encryption := as_uses_non_exempt_encryption c;
         as_submit_for_review := default (as_submit_for_review c) (sa_submit_for_review spec);
         as_phased_release := default (as_phased_release c) (sa_phased_release spec) |}
  end.

Definition no_group (source : string) : string :=
  source +:+ " publishes to TestFlight, but neither the file nor the pipeline's App Store settings name a group; set `groups`".
Definition app_store_settings_off (source : string) : string :=
  source +:+ " publishes with the pipeline's App Store Connect settings, which are not set up. In the pipeline's Publish settings, turn on App Store Connect, and in its iOS signing settings export App Store IPAs with an App Store Connect API key; the file's settings replace the settings' destination, groups and review options".

Definition apply_app_store (p : PlanPublish) (settings : option RunnerAppStorePublishPlan)
    : result string (option RunnerAppStorePublishPlan) :=
  match app_store_upload p with
  | None => Ok settings
  | Some planned =>
      match pl_error planned with
      | Some error => Err error
      | None =>
          match settings with
          | Some plan =>
              let config := set_app_store (pl_spec planned) (ra_config plan) in
              if bool_decide (as_destination config = AppStoreDestination.Testflight)
                 && bool_decide (as_testflight_groups config = []) then Err (no_group (pl_source planned))
              else Ok (Some {| ra_config := config; ra_credentials := ra_credentials plan |})
          | None => Err (app_store_settings_off (pl_source planned))
          end
      end
  end.

Definition publishing_off : string :=
  "Publishing is off for this workflow in the pipeline's workflow settings".

(** [PlanPublish::apply]. *)
Definition apply (p : PlanPublish) (settings : RunnerPublishPlan) : EffectivePublish :=
  if rp_disabled settings then
    {| ep_changelog := rp_changelog settings; ep_google_play := Ok None; ep_app_store := Ok None;
       ep_notes := [publishing_off] |}
  else
    let '(google_play, notes) := apply_play p (rp_google_play settings) in
    {| ep_changelog := rp_changelog settings; ep_google_play := google_play;
       ep_app_store := apply_app_store p (rp_app_store settings); ep_notes := notes |}.

(** ** Texts for people *)

(** [PlanPublish::describe], per store. *)
Definition describe_play (planned : PlannedPublish PlayPublishSpec) : string :=
  match pl_error planned with
  | Some error => "android publishes to Google Play (" +:+ pl_source planned
                  +:+ "), but its publish step will fail: " +:+ error
  | None =>
      let spec := pl_spec planned in
      let draft := bool_decide (pp_draft spec = Some true) in
      let release :=
        if draft then " as a draft"%string
        else match pp_rollout spec with
             | Some rollout =>
                 if f64_lt rollout f_1 then " to " +:+ show (play_rollout_percent rollout) +:+ "% of users"
                 else " to all users"%string
             | None => ""%string
             end in
      let inherited :=
        (if match pp_rollout spec with None => negb draft | Some _ => false end then ["rollout"%string] else [])
        ++ (match pp_draft spec with None => ["draft setting"%string] | Some _ => [] end) in
      let release :=
        match inherited with
        | [] => release
        | _ => release +:+ " with the " +:+ join " and " inherited +:+ " from the pipeline's Google Play settings"
        end in
      "android publishes to the Google Play " +:+ pp_track spec +:+ " track" +:+ release
      +:+ " (" +:+ pl_source planned +:+ ")"
  end.

Definition describe_testflight (planned : PlannedPublish TestflightPublishSpec) : string :=
  match pl_error planned with
  | Some error => "ios publishes to TestFlight (" +:+ pl_source planned
                  +:+ "), but its publish step will fail: " +:+ error
  | None => "ios publishes to the TestFlight group " +:+ tf_group (pl_spec planned)
            +:+ " (" +:+ pl_source planned +:+ ")"
  end.

Definition describe_app_store (planned : PlannedPublish AppStorePublishSpec) : string :=
  match pl_error planned with
  | Some error => "ios publishes to App Store Connect (" +:+ pl_source planned
                  +:+ "), but its publish step will fail: " +:+ error
  | None =>
      let spec := pl_spec planned in
      match sa_destination spec, sa_groups spec with
      | AppStoreDestination.Testflight, [] =>
          "ios publishes to TestFlight with the pipeline's groups (" +:+ pl_source planned +:+ ")"
      | AppStoreDestination.Testflight, groups =>
          "ios publishes to the TestFlight groups " +:+ join ", " groups +:+ " (" +:+ pl_source planned +:+ ")"
      | AppStoreDestination.AppStore, _ =>
          "ios publishes to the App Store"
          +:+ (if bool_decide (sa_submit_for_review spec = Some true) then " and submits for review" else "")
          +:+ " (" +:+ pl_source planned +:+ ")"
      end
  end.

Definition describe (p : PlanPublish) : list string :=
  to_list (describe_play <$> play p) ++ to_list (describe_testflight <$> testflight p)
  ++ to_list (describe_app_store <$> app_store p).

(** [PlanPublish::adjustment_notes]. *)
Definition adjustment_notes (p : PlanPublish) : list string :=
  match play p with
  | Some planned =>
      match pl_error planned with
      | Some _ => []
      | None =>
          let spec := pl_spec planned in
          let staged := match pp_rollout spec with Some rollout => f64_lt rollout f_1 | None => false end in
          if staged && bool_decide (pp_draft spec = Some true) then
            [pl_source planned +:+ ": a draft has no staged rollout, so `rollout` is ignored"]
          else if staged && String.eqb (pp_track spec) "internal" then
            [pl_source planned +:+ ": the internal track has no staged rollouts, so the release goes to every internal tester"]
          else []
      end
  | None => []
  end.

(** ** The release the runner asks for *)

(** [enum ReleaseStatus] and [release_status]. *)
Inductive ReleaseStatus : Set := Completed | InProgress | Draft | Halted.

Definition release_status (config : GooglePlayPublishConfig) : ReleaseStatus * option f64 :=
  if gp_draft config then (Draft, None)
  else match gp_rollout_percent config with
       | Some percent => if f64_lt percent f_100 then (InProgress, Some (f64_div percent f_100)) else (Completed, None)
       | None => (Completed, None)
       end.

Local Arguments release_status : simpl never.

(** ** What the uploads are *)












End Publish.

(** A file that sets up its own Play upload as a draft keeps the staged
    rollout the settings form refuses for drafts. *)
Definition tenth : f64 := f64_lit 0x1999999999999a (-56).

Definition own_draft : PlanPublish :=
  {| play := Some {| pl_spec := {| pp_track := "production"; pp_rollout := Some tenth; pp_draft := Some true;
                                   pp_service_account := Some "PLAY_KEY" |};
                     pl_source := "targets.android.publish.play"; pl_error := None |};
     testflight := None; app_store := None |}.

Definition no_settings : RunnerPublishPlan :=
  {| rp_changelog := None; rp_google_play := None; rp_app_store := None; rp_disabled := false |}.

Example own_draft_keeps_rollout :
  match ep_google_play (apply (fun _ => ""%string) own_draft no_settings) with
  | Ok (Some c) =>
      validate_google_play_publish_config c = ["a draft release cannot have a staged rollout"%string]
      /\ release_status c = (Draft, None)
  | _ => False
  end.
Proof. vm_compute. done. Qed.
