(* ===== verification/Lowering.v ===== *)
(** * Planning a version 2 file

    [ConfigV2::lower], [plan], [parse], [notices] and the version dispatch of
    [RepositoryConfig] of [crates/oore-contract/src/pipeline_config.rs].

    Lowering resolves the references of one workflow through one resolver,
    collects errors as it goes and stops at errors of the limits.  Its loops
    are written in a monad over what was spent and the errors so far; an
    early return is an error of the monad. *)

From stdpp Require Import pretty.
From S2P Require Import Prelude RustStr Labels F64 Sizes Patterns Triggers Stores Vars PipelineFile FilePublish.
From Stdlib Require Import Ascii.

Local Open Scope Z_scope.

(** ** The monad *)

Record lowering := { lw_spent : spending; lw_errors : list string }.

Definition L (A : Type) : Type := lowering -> result (list string) A * lowering.

Definition ret {A} (a : A) : L A := fun s => (Ok a, s).
Definition stop {A} (errors : list string) : L A := fun s => (Err errors, s).

#[global] Instance L_bind : MBind L := fun A B k m s =>
  match m s with (Ok a, s') => k a s' | (Err e, s') => (Err e, s') end.

Fixpoint foldL {A B} (f : B -> A -> L B) (l : list A) (acc : B) : L B :=
  match l with
  | [] => ret acc
  | x :: rest => acc' ← f acc x; foldL f rest acc'
  end.

(** [push_unique]. *)
Definition add_unique (error : string) (errors : list string) : list string :=
  if (length errors <? MAX_ERRORS)%nat && negb (existsb (String.eqb error) errors) then errors ++ [error]
  else errors.

Definition push_unique (error : string) : L unit :=
  fun s => (Ok tt, {| lw_spent := lw_spent s; lw_errors := add_unique error (lw_errors s) |}).

(** A call of the resolver. *)
Definition ask (vars : list (string * string)) (t : string) (scope : FlavorScope) (path : string)
    : L (result string string) :=
  fun s => let '(r, spent) := resolve vars t scope path (lw_spent s) in
           (Ok r, {| lw_spent := spent; lw_errors := lw_errors s |}).

(** The way most calls take errors: the limits end the lowering, others are
    collected. *)
Definition attempt (vars : list (string * string)) (t : string) (scope : FlavorScope) (path : string)
    : L (option string) :=
  r ← ask vars t scope path;
  match r with
  | Ok s => ret (Some s)
  | Err e => if is_limit_error e then stop [e] else push_unique e ;; ret None
  end.

(** ** Workflows, vars and targets *)

(** [ConfigV2::select_workflow]. *)
Definition select_workflow (config : ConfigV2) (name : option string)
    : result string (option (string * WorkflowSpec)) :=
  let names := join ", " (workflow_names config) in
  match name with
  | Some name =>
      match List.find (fun entry => String.eqb entry.1 name) (v2_workflows config) with
      | Some entry => Ok (Some entry)
      | None =>
          match v2_workflows config with
          | [] => Err ("workflow '" +:+ name +:+ "' is not defined; this file defines no workflows")
          | _ => Err ("workflow '" +:+ name +:+ "' is not defined; this file defines [" +:+ names +:+ "]")
          end
      end
  | None =>
      match v2_workflows config with
      | [] => Ok None
      | [entry] => Ok (Some entry)
      | _ => Err ("this file defines workflows [" +:+ names +:+ "]; choose one for the pipeline")
      end
  end.

(** Entries with their paths; a workflow's replace the top-level ones by
    key.  Vars and env are merged alike. *)
Definition entry : Type := string * string * string.

Fixpoint replace_entry (key value path : string) (l : list entry) : list entry :=
  match l with
  | [] => [(key, value, path)]
  | (k, v, p) :: rest =>
      if String.eqb k key then (key, value, path) :: rest else (k, v, p) :: replace_entry key value path rest
  end.

Definition merge_entries (field prefix : string) (base : OrderedMap string string)
    (over : option (OrderedMap string string)) : list entry :=
  fold_left (fun l '(key, value) => replace_entry key value (prefix +:+ field +:+ "." +:+ key) l) (default [] over)
    (map (fun '(key, value) => (key, value, field +:+ "." +:+ key)) base).

Definition bindings (l : list entry) : list (string * string) := map fst l.

(** The loop that checks every var, and ends at a limit. *)
Fixpoint check_vars (vars : list (string * string)) (l : list entry) (errors : list string) (st : spending)
    : list string * spending :=
  match l with
  | [] => (errors, st)
  | (name, value, path) :: rest =>
      let '(r, st) := resolve_from vars value (Value FlavorLiteral "flavor") path [name] st in
      match r with
      | Ok _ => check_vars vars rest errors st
      | Err e =>
          let errors := add_unique e errors in
          if is_limit_error e then (errors, st) else check_vars vars rest errors st
      end
  end.

(** [struct EffectiveTarget]. *)
Record EffectiveTarget := {
  et_platform : BuildPlatform;
  et_build : string;
  et_build_source : string;
  et_artifacts : option (list string * string);
  et_publish : option (PublishSpec * string);
  et_budgets : option (SizeBudget * string);
}.

Definition in_target (prefix : string) (platform : BuildPlatform) (field : string) : string :=
  prefix +:+ "targets." +:+ platform_key platform +:+ "." +:+ field.

(** A field of the workflow's target, or of the top-level one. *)
Definition inherit {A} (prefix : string) (platform : BuildPlatform) (field : string) (own base : option A)
    : option (A * string) :=
  match own, base with
  | Some a, _ => Some (a, in_target prefix platform field)
  | None, Some a => Some (a, in_target "" platform field)
  | None, None => None
  end.

Definition override_target (config : ConfigV2) (prefix : string) (platform : BuildPlatform) (spec : TargetSpec)
    : result string EffectiveTarget :=
  let base := om_get (v2_targets config) platform in
  match inherit prefix platform "build" (ts_build spec) (base ≫= ts_build) with
  | None =>
      Err (prefix +:+ "targets." +:+ platform_key platform
           +:+ " needs a build command, because there is no top-level targets." +:+ platform_key platform)
  | Some (command, source) =>
      Ok {| et_platform := platform; et_build := command; et_build_source := source;
            et_artifacts := inherit prefix platform "artifacts" (ts_artifacts spec) (base ≫= ts_artifacts);
            et_publish :=
              match ts_publish spec with
              | Some publish => (fun p => (p, in_target prefix platform "publish")) <$> publish_spec publish
              | None =>
                  match ts_build spec with
                  | None => (fun p => (p, in_target "" platform "publish")) <$> ((base ≫= ts_publish) ≫= publish_spec)
                  | Some _ => None
                  end
              end;
            et_budgets := inherit prefix platform "budgets" (ts_budgets spec) (base ≫= ts_budgets) |}
  end.

Definition top_target (platform : BuildPlatform) (spec : TargetSpec) : option EffectiveTarget :=
  (fun command =>
     {| et_platform := platform; et_build := command; et_build_source := in_target "" platform "build";
        et_artifacts := (fun a => (a, in_target "" platform "artifacts")) <$> ts_artifacts spec;
        et_publish := (fun p => (p, in_target "" platform "publish")) <$> (ts_publish spec ≫= publish_spec);
        et_budgets := (fun b => (b, in_target "" platform "budgets")) <$> ts_budgets spec |}) <$> ts_build spec.

(** The targets a workflow builds, and the errors on the way. *)
Definition effective_targets (config : ConfigV2) (prefix : string) (spec : option WorkflowSpec)
    : list EffectiveTarget * list string :=
  match spec ≫= wf_targets with
  | Some overrides =>
      let results := map (fun '(platform, target) => override_target config prefix platform target) overrides in
      (omap ok results, omap (fun r => match r with Err e => Some e | Ok _ => None end) results)
  | None => (omap (fun '(platform, target) => top_target platform target) (v2_targets config), [])
  end.

(** The run's platforms. *)
Definition select_targets (targets : list EffectiveTarget) (selected : option (list BuildPlatform))
    : list EffectiveTarget * list string :=
  match selected with
  | None => (targets, [])
  | Some selected =>
      if bool_decide (selected = []) then (targets, [no_selection])
      else if has_duplicate selected
              || existsb (fun p => negb (has_platform (map et_platform targets) p)) selected
      then (targets, [bad_selection])
      else (List.filter (fun target => has_platform selected (et_platform target)) targets, [])
  end.

(** ** Uploads *)

Definition MAX_TESTFLIGHT_GROUP_LENGTH : Z := 128.

(** The closure [resolve] of the upload loop. *)
Definition resolve_field (vars : list (string * string)) (path value field : string) : L (result string string) :=
  let field_path := path +:+ "." +:+ field in
  r ← ask vars value Outside field_path;
  ret (match r with
       | Err e => Err e
       | Ok s =>
           let resolved := trim s in
           if contains "${{" resolved then
             Err (field_path +:+ " cannot use ${{ secrets.NAME }}; only vars are resolved here")
           else if is_empty resolved then Err (field_path +:+ " is empty once its vars are resolved")
           else Ok resolved
       end).

(** An error of the limits ends the lowering. *)
Definition unless_limit {A} (error : option string) (a : A) : L A :=
  match error with
  | Some e => if is_limit_error e then stop [e] else ret a
  | None => ret a
  end.

Definition eq_ignore_ascii_case (a b : string) : bool := String.eqb (to_ascii_lowercase a) (to_ascii_lowercase b).

Definition plan_play (vars : list (string * string)) (path : string) (flavor_error : option string)
    (spec : PlayPublishSpec) : L (PlannedPublish PlayPublishSpec) :=
  track ← resolve_field vars path (pp_track spec) "play.track";
  let error :=
    match track with
    | Err e => Some e
    | Ok track =>
        if negb (is_valid_play_track track) then
          Some (path +:+ ".play.track '" +:+ track
                +:+ "' must be internal, closed, open, production, or a custom track name")
        else flavor_error
    end in
  unless_limit error
    {| pl_spec := {| pp_track := match track with Ok t => t | Err _ => trim (pp_track spec) end;
                     pp_rollout := pp_rollout spec; pp_draft := pp_draft spec;
                     pp_service_account := pp_service_account spec |};
       pl_source := path +:+ ".play"; pl_error := error |}.

Definition plan_testflight (vars : list (string * string)) (path : string) (flavor_error : option string)
    (spec : TestflightPublishSpec) : L (PlannedPublish TestflightPublishSpec) :=
  group ← resolve_field vars path (tf_group spec) "testflight.group";
  let error :=
    match group with
    | Err e => Some e
    | Ok group =>
        if contains_char "," group then
          Some (path +:+ ".testflight.group '" +:+ group +:+ "' must be one group name, without commas")
        else if eq_ignore_ascii_case group "app_store" then
          Some (path +:+ ".testflight.group cannot be named app_store")
        else if MAX_TESTFLIGHT_GROUP_LENGTH <? char_count group then
          Some (path +:+ ".testflight.group is longer than " +:+ pretty MAX_TESTFLIGHT_GROUP_LENGTH +:+ " characters")
        else flavor_error
    end in
  unless_limit error
    {| pl_spec := {| tf_group := match group with Ok g => g | Err _ => trim (tf_group spec) end |};
       pl_source := path +:+ ".testflight"; pl_error := error |}.

(** One group: its name, or an error that is kept when it is the first. *)
Definition plan_group (vars : list (string * string)) (path : string)
    (acc : list string * option string) (group : nat * string) : L (list string * option string) :=
  let '(groups, error) := acc in
  let '(index, group) := group in
  let field := at_index "app_store.groups" index in
  r ← resolve_field vars path group field;
  ret (match r with
       | Ok group =>
           if contains_char "," group then
             (groups, or_else error (Some (path +:+ "." +:+ field +:+ " '" +:+ group
                                            +:+ "' must be one group name, without commas")))
           else if MAX_TESTFLIGHT_GROUP_LENGTH <? char_count group then
             (groups, or_else error (Some (path +:+ "." +:+ field +:+ " is longer than "
                                            +:+ pretty MAX_TESTFLIGHT_GROUP_LENGTH +:+ " characters")))
           else (groups ++ [group], error)
       | Err e => (groups, or_else error (Some e))
       end).

Definition plan_app_store (vars : list (string * string)) (path : string) (flavor_error : option string)
    (spec : AppStorePublishSpec) : L (PlannedPublish AppStorePublishSpec) :=
  acc ← foldL (plan_group vars path) (imap pair (sa_groups spec)) ([], None);
  let error := or_else acc.2 flavor_error in
  unless_limit error
    {| pl_spec := {| sa_destination := sa_destination spec; sa_groups := acc.1;
                     sa_submit_for_review := sa_submit_for_review spec;
                     sa_phased_release := sa_phased_release spec |};
       pl_source := path +:+ ".app_store"; pl_error := error |}.

(** [if let Some(x) = o { Some(f(x)) } else { old }]. *)
Definition over {A B} (f : A -> L B) (o : option A) (old : option B) : L (option B) :=
  match o with Some a => b ← f a; ret (Some b) | None => ret old end.

Definition flavors_error (flavors : list string) (flavors_path path : string) : option string :=
  if (1 <? length flavors)%nat then
    Some (path +:+ " uploads one build, but " +:+ flavors_path +:+ " builds " +:+ pretty (length flavors)
          +:+ " flavors (" +:+ join ", " flavors +:+ "); narrow it with `flavors: [<one flavor>]` on the workflow")
  else None.

Definition plan_target_publish (vars : list (string * string)) (flavors : list string) (flavors_path : string)
    (publish : PlanPublish) (target : EffectiveTarget) : L PlanPublish :=
  match et_publish target with
  | None => ret publish
  | Some (spec, path) =>
      let flavor_error := flavors_error flavors flavors_path path in
      p ← over (plan_play vars path flavor_error) (sp_play spec) (play publish);
      t ← over (plan_testflight vars path flavor_error) (sp_testflight spec) (testflight publish);
      a ← over (plan_app_store vars path flavor_error) (sp_app_store spec) (app_store publish);
      ret {| play := p; testflight := t; app_store := a |}
  end.

(** ** Steps *)

Definition build_name (platform : BuildPlatform) (flavor : option string) : string :=
  match flavor with
  | Some flavor => "Build " +:+ platform_title platform +:+ " (" +:+ flavor +:+ ")"
  | None => "Build " +:+ platform_title platform
  end.

(** The flavors to build, with the scope each resolves in. *)
Definition flavor_scopes (flavors : list string) : list (option string * FlavorScope) :=
  match flavors with
  | [] => [(None, NoFlavors)]
  | _ => imap (fun i flavor => (Some flavor, Value (FlavorEntry i) flavor)) flavors
  end.

Definition build_jobs (targets : list EffectiveTarget) (flavors : list string)
    : list (EffectiveTarget * (option string * FlavorScope)) :=
  concat (map (fun target => map (pair target) (flavor_scopes flavors)) targets).

Definition build_step (vars : list (string * string)) (steps : list PlanStep)
    (job : EffectiveTarget * (option string * FlavorScope)) : L (list PlanStep) :=
  let '(target, (flavor, scope)) := job in
  run ← attempt vars (et_build target) scope (et_build_source target);
  ret (match run with
       | Some run =>
           steps ++ [{| ps_name := build_name (et_platform target) flavor; ps_phase := Build; ps_run := trim run;
                        ps_source := et_build_source target; ps_platform := Some (et_platform target);
                        ps_flavor := flavor; ps_test_report := None |}]
       | None => steps
       end).

(** The first top-level step of a name, with its index. *)
Fixpoint find_step (name : string) (index : nat) (shared : list StepEntry) : option (nat * InlineStep) :=
  match shared with
  | [] => None
  | InlineEntry step :: rest =>
      if String.eqb (trim (in_name step)) (trim name) then Some (index, step) else find_step name (S index) rest
  | _ :: rest => find_step name (S index) rest
  end.

Definition step_of_entry (shared : list StepEntry) (entries_path : string) (index : nat) (e : StepEntry)
    : option (InlineStep * string) :=
  match e with
  | BuildEntry => None
  | InlineEntry step => Some (step, at_index entries_path index)
  | RefEntry name => (fun '(i, step) => (step, at_index "steps" i)) <$> find_step name 0 shared
  end.

Definition used_name (build_names : list string) (entries_path : string) (index : nat) (name : string) : string :=
  at_index entries_path index +:+ " name '" +:+ name +:+ "' "
  +:+ (if existsb (String.eqb name) build_names then "is the name of a target build step"
       else "is used by another step").

(** A step that is not a target build; [rest] is the loop from the next entry
    on, given the names taken by then. *)
Definition place_step (vars : list (string * string)) (entries_path : string) (build_names : list string)
    (index : nat) (names : list string) (placed : bool) (step : InlineStep) (source : string)
    (rest : list string -> L (list PlanStep)) : L (list PlanStep) :=
  let name := trim (in_name step) in
  if existsb (String.eqb name) names then
    push_unique (used_name build_names entries_path index name) ;; rest names
  else
    let run_path := source +:+ ".run" in
    run ← attempt vars (in_run step) Outside run_path;
    tail ← rest (name :: names);
    ret (match run with
         | Some run =>
             {| ps_name := name; ps_phase := if placed then PostBuild else PreBuild; ps_run := trim run;
                ps_source := run_path; ps_platform := None; ps_flavor := None;
                ps_test_report := trim <$> in_reports step |} :: tail
         | None => tail
         end).

(** The loop over the entries: [names] are taken, [builds] are the target
    builds that are not placed yet. *)
Fixpoint place_steps (vars : list (string * string)) (shared : list StepEntry) (entries_path : string)
    (build_names : list string) (index : nat) (entries : list StepEntry) (names : list string)
    (placed : bool) (builds : list PlanStep) : L (list PlanStep) :=
  match entries with
  | [] => ret (if placed then [] else builds)
  | BuildEntry :: rest =>
      tail ← place_steps vars shared entries_path build_names (S index) rest names true [];
      ret (builds ++ tail)
  | e :: rest =>
      let loop names := place_steps vars shared entries_path build_names (S index) rest names placed builds in
      match step_of_entry shared entries_path index e with
      | None => loop names
      | Some (step, source) => place_step vars entries_path build_names index names placed step source loop
      end
  end.

(** ** Env and artifacts *)

Definition resolve_env (vars : list (string * string)) (env : list PipelineEnvVar) (e : entry)
    : L (list PipelineEnvVar) :=
  let '(key, value, path) := e in
  r ← attempt vars value Outside path;
  ret (match r with
       | Some value => env ++ [{| ev_key := trim key; ev_value := trim value |}]
       | None => env
       end).

(** The patterns to resolve, in order: per target, pattern and flavor. *)
Definition pattern_jobs (targets : list EffectiveTarget) (flavors : list string)
    : list (string * string * FlavorScope) :=
  concat (map (fun target =>
    let '(patterns, path) :=
      default (default_artifact_patterns_for_platforms [et_platform target], ""%string) (et_artifacts target) in
    indexed (fun index pattern =>
      map (fun scope => (pattern, at_index path index, scope.2)) (flavor_scopes flavors)) patterns) targets).

(** The patterns found so far are also those already seen. *)
Definition resolve_pattern (vars : list (string * string)) (patterns : list string)
    (job : string * string * FlavorScope) : L (list string) :=
  let '(pattern, path, scope) := job in
  r ← attempt vars pattern scope path;
  match r with
  | None => ret patterns
  | Some resolved =>
      let resolved := trim resolved in
      if contains "${{" resolved then
        push_unique (path +:+ " cannot use ${{ secrets.NAME }}; artifact patterns are matched as written") ;;
        ret patterns
      else match Paths.validate_artifact_pattern resolved with
           | Err e => push_unique (path +:+ " " +:+ e) ;; ret patterns
           | Ok _ => ret (if existsb (String.eqb resolved) patterns then patterns else patterns ++ [resolved])
           end
  end.

(** ** The whole *)

(** What lowering collects before the plan is put together. *)
Record parts := {
  pt_targets : list EffectiveTarget;
  pt_publish : PlanPublish;
  pt_steps : list PlanStep;
  pt_env : list PipelineEnvVar;
  pt_patterns : list string;
}.

Definition lower_body (config : ConfigV2) (prefix : string) (spec : option WorkflowSpec)
    (vars : list (string * string)) (targets : list EffectiveTarget) : L parts :=
  let flavors := default (app_flavors (v2_app config)) (spec ≫= wf_flavors) in
  let flavors_path := match spec ≫= wf_flavors with Some _ => prefix +:+ "flavors" | None => "app.flavors"%string end in
  publish ← foldL (plan_target_publish vars flavors flavors_path) targets no_publish;
  builds ← foldL (build_step vars) (build_jobs targets flavors) [];
  let shared := default [] (v2_steps config) in
  let '(entries, entries_path) :=
    match spec ≫= wf_steps with
    | Some steps => (steps, prefix +:+ "steps")
    | None => (shared, "steps"%string)
    end in
  let names := map ps_name builds in
  steps ← place_steps vars shared entries_path names 0 entries names false builds;
  env ← foldL (resolve_env vars) (merge_entries "env" prefix (v2_env config) (wf_env <$> spec)) [];
  patterns ← foldL (resolve_pattern vars) (pattern_jobs targets flavors) [];
  ret {| pt_targets := targets; pt_publish := publish; pt_steps := steps; pt_env := env;
         pt_patterns := patterns |}.

Definition workflow_prefix (selected : option (string * WorkflowSpec)) : string :=
  match selected with Some (name, _) => "workflows." +:+ name +:+ "." | None => "" end.

(** [ConfigV2::lower] up to its last expression. *)
Definition lower_parts (config : ConfigV2) (workflow : option string) (selected : option (list BuildPlatform))
    (validate_vars : bool) (st : spending)
    : result (list string) (option (string * WorkflowSpec) * parts) * spending :=
  match select_workflow config workflow with
  | Err e => (Err [e], st)
  | Ok chosen =>
      let spec := snd <$> chosen in
      let prefix := workflow_prefix chosen in
      let var_entries := merge_entries "vars" prefix (v2_vars config) (wf_vars <$> spec) in
      let vars := bindings var_entries in
      let st := fresh_cache (length vars) st in
      let '(errors, st) := if validate_vars then check_vars vars var_entries [] st else ([], st) in
      match errors with
      | _ :: _ => (Err errors, st)
      | [] =>
          let '(targets, errors) := effective_targets config prefix spec in
          let '(targets, selection_errors) := select_targets targets selected in
          let '(r, s) := lower_body config prefix spec vars targets
            {| lw_spent := st; lw_errors := errors ++ selection_errors |} in
          match r with
          | Err errors => (Err errors, lw_spent s)
          | Ok p => match lw_errors s with
                    | [] => (Ok (chosen, p), lw_spent s)
                    | errors => (Err errors, lw_spent s)
                    end
          end
      end
  end.

Definition target_budget (target : EffectiveTarget) : option TargetSizeBudget :=
  (fun '(budget, source) =>
     {| tsb_platform := et_platform target; tsb_source := source; tsb_budget := budget |}) <$> et_budgets target.

Definition assemble (config : ConfigV2) (chosen : option (string * WorkflowSpec)) (p : parts) : PipelinePlan :=
  {| plan_workflow := fst <$> chosen;
     plan_platforms := map et_platform (pt_targets p);
     plan_flutter_version := trim <$> app_flutter (v2_app config);
     plan_steps := pt_steps p;
     plan_env := pt_env p;
     plan_artifact_patterns := pt_patterns p;
     plan_build_number_offset := v2_build_number_offset config;
     plan_runs_on := default [] (ok (normalize_runner_labels (v2_runs_on config)));
     plan_isolation := v2_isolation config;
     plan_publish := pt_publish p;
     plan_signing := overlaid (v2_signing config) ((snd <$> chosen) ≫= wf_signing);
     plan_size_budgets := omap target_budget (pt_targets p) |}.

Definition lower (config : ConfigV2) (workflow : option string) (selected : option (list BuildPlatform))
    (validate_vars : bool) (st : spending) : result (list string) PipelinePlan * spending :=
  match lower_parts config workflow selected validate_vars st with
  | (Ok (chosen, p), st) => (Ok (assemble config chosen p), st)
  | (Err errors, st) => (Err errors, st)
  end.

(** [ConfigV2::plan]. *)
Definition plan (config : ConfigV2) (workflow : option string) (selected : option (list BuildPlatform))
    : result string PipelinePlan :=
  map_err (join newline) (lower config workflow selected false no_spending).1.

(** ** Parsing *)

(** The workflows [parse] lowers: each, or the top level. *)
Definition all_workflows (config : ConfigV2) : list (option string) :=
  match workflow_names config with [] => [None] | names => map Some names end.

Definition changes_vars (config : ConfigV2) (workflow : option string) : bool :=
  match workflow ≫= om_get (v2_workflows config) with
  | Some spec => negb (bool_decide (map fst (wf_vars spec) = []))
  | None => false
  end.

(** The loop of [parse] over the workflows, which share one budget. *)
Fixpoint check_workflows (config : ConfigV2) (index : nat) (workflows : list (option string))
    (errors : list string) (st : spending) : list string * spending :=
  match workflows with
  | [] => (errors, st)
  | workflow :: rest =>
      let validate_vars := (index =? 0)%nat || changes_vars config workflow in
      let '(r, st) := lower config workflow None validate_vars st in
      match r with
      | Ok _ => check_workflows config (S index) rest errors st
      | Err plan_errors =>
          let errors := fold_left (fun errors e => add_unique e errors) plan_errors errors in
          if existsb is_limit_error plan_errors then (errors, st)
          else check_workflows config (S index) rest errors st
      end
  end.

Definition set_runs_on (runs_on : list string) (c : ConfigV2) : ConfigV2 :=
  {| v2_version := v2_version c; v2_name := v2_name c; v2_app := v2_app c; v2_targets := v2_targets c;
     v2_steps := v2_steps c; v2_env := v2_env c; v2_vars := v2_vars c; v2_on := v2_on c;
     v2_workflows := v2_workflows c; v2_signing := v2_signing c; v2_runs_on := runs_on;
     v2_isolation := v2_isolation c; v2_build_number_offset := v2_build_number_offset c |}.

(** [ConfigV2::parse] from the parsed YAML on, with what it spent. *)
Definition validate_v2 (config : ConfigV2) : result string ConfigV2 * spending :=
  if negb (v2_version config =? 2) then
    (Err ("unsupported config version " +:+ pretty (v2_version config) +:+ ", expected 2"), no_spending)
  else match size_errors config with
       | _ :: _ => (Err (join newline (size_errors config)), no_spending)
       | [] =>
           let '(errors, st) :=
             match shape_errors config with
             | [] => check_workflows config 0 (all_workflows config) [] no_spending
             | errors => (errors, no_spending)
             end in
           match errors with
           | _ :: _ => (Err (join newline errors), st)
           | [] => (runs_on ← normalize_runner_labels (v2_runs_on config); Ok (set_runs_on runs_on config), st)
           end
       end.

(** ** Both versions *)

(** [enum RepositoryConfig]. *)
Inductive RepositoryConfig : Type :=
  | V1 (config : PipelineExecutionConfig)
  | V2 (config : ConfigV2).

(** What the version probe can find. *)
Inductive YamlScalar : Type :=
  | YText (s : string)
  | YInt (n : Z)
  | YFloat (x : f64)
  | YOther.

Definition as_u64 (v : YamlScalar) : option Z :=
  match v with YInt n => if (0 <=? n) && (n <? 2 ^ 64) then Some n else None | _ => None end.

Section Parse.
(** The YAML parser: the version of a file, and a file of either version. *)
Context (probe : string -> option YamlScalar)
  (yaml_v1 : string -> result string RepositoryPipelineConfig)
  (yaml_v2 : string -> result string ConfigV2).

Definition yaml_error (e : string) : string := "YAML parse error: " +:+ e.

(** [ConfigV2::parse] and [parse_repository_pipeline_yaml]. *)
Definition parse_v2 (raw : string) : result string ConfigV2 :=
  config ← map_err yaml_error (yaml_v2 raw); (validate_v2 config).1.
Definition parse_repository_pipeline_yaml (raw : string) : result string PipelineExecutionConfig :=
  parsed ← map_err yaml_error (yaml_v1 raw); validate_v1 parsed.

Definition two : f64 := f64_of_Z 2.

(** [parse_repository_config]. *)
Definition parse_repository_config (raw : string) : result string RepositoryConfig :=
  let declared := probe raw in
  match declared with
  | Some (YText t) =>
      if String.eqb (trim t) "1" || String.eqb (trim t) "2" then
        Err ("version must be a number; write `version: " +:+ trim t +:+ "` without quotes")
      else V1 <$> parse_repository_pipeline_yaml raw
  | Some (YFloat x) =>
      if f64_eq x f_1 then Err "version must be a whole number; write `version: 1`"%string
      else if f64_eq x two then Err "version must be a whole number; write `version: 2`"%string
      else V1 <$> parse_repository_pipeline_yaml raw
  | _ =>
      match declared ≫= as_u64 with
      | Some n =>
          if n =? 2 then V2 <$> parse_v2 raw
          else if n =? 1 then V1 <$> parse_repository_pipeline_yaml raw
          else Err ("unsupported config version " +:+ pretty n +:+ ", expected 1 or 2")
      | None => V1 <$> parse_repository_pipeline_yaml raw
      end
  end.
End Parse.

(** [struct PlanRequest]. *)
Record PlanRequest := {
  pr_workflow : option string;
  pr_selected_platforms : option (list BuildPlatform);
  pr_build_play_bundle : bool;
}.

(** [RepositoryConfig::plan]. *)
Definition repository_plan (config : RepositoryConfig) (request : PlanRequest) : result string PipelinePlan :=
  match config with
  | V1 config =>
      match pr_workflow request with
      | Some workflow => Err ("workflow '" +:+ workflow +:+ "' was requested, but workflows need `version: 2`")
      | None =>
          config ← match pr_selected_platforms request with
                   | Some selected => select_v1_platforms config selected
                   | None => Ok config
                   end;
          Ok (plan_execution_config config (bool_decide (build (ec_commands config) = []))
                (pr_build_play_bundle request))
      end
  | V2 config => plan config (pr_workflow request) (pr_selected_platforms request)
  end.

(** [RepositoryConfig::triggers], [workflow_names] and [runs_on]. *)
Definition repository_triggers (config : RepositoryConfig) (workflow : option string) : option TriggerSpec :=
  match config with V1 _ => None | V2 config => v2_triggers config workflow end.
Definition repository_workflow_names (config : RepositoryConfig) : list string :=
  match config with V1 _ => [] | V2 config => workflow_names config end.
Definition repository_runs_on (config : RepositoryConfig) : list string :=
  match config with V1 config => ec_runs_on config | V2 config => v2_runs_on config end.

(** ** Notices *)

(** Every target of a file, at the top level and in its workflows. *)
Definition file_targets (config : ConfigV2) : list TargetSpec :=
  map snd (v2_targets config)
  ++ concat (map (fun '(_, workflow) => from_option (map snd) [] (wf_targets workflow)) (v2_workflows config)).

(** [ConfigV2::publish_notices], for one workflow. *)
Definition plan_notices (config : ConfigV2) (notices : list string) (workflow : option string) : list string :=
  match plan config workflow None with
  | Err _ => notices
  | Ok p =>
      let scope := match workflow with Some name => "workflow " +:+ name +:+ ": " | None => ""%string end in
      let publish := plan_publish p in
      let failing := to_list (play publish ≫= pl_error) ++ to_list (testflight publish ≫= pl_error)
                     ++ to_list (app_store publish ≫= pl_error) in
      let notices := fold_left (fun notices e =>
        add_unique (scope +:+ e +:+ "; the build runs, and its publish step fails") notices) failing notices in
      let notices := fold_left (fun notices note => add_unique (scope +:+ note) notices)
        (adjustment_notes publish) notices in
      match play publish with
      | Some planned =>
          match pl_error planned with
          | Some _ => notices
          | None =>
              let builds_bundle :=
                existsb (fun step => bool_decide (ps_platform step = Some Android)
                                     && contains "bundle" (to_ascii_lowercase (ps_run step)))
                  (steps_in p Build) in
              if builds_bundle then notices
              else add_unique (scope +:+ pl_source planned +:+ " uploads an App Bundle, but the android build does not run `flutter build appbundle`; Oore runs `build` as written, so the upload fails with `No release App Bundle found` unless the command builds one under build/app/outputs/bundle") notices
          end
      | None => notices
      end
  end.

Definition publish_notices (config : ConfigV2) : list string :=
  fold_left (plan_notices config) (all_workflows config) [].

(** [ConfigV2::notices]. *)
Definition notices (config : ConfigV2) : list string :=
  (if (1 <? length (v2_workflows config))%nat then
     ["this file defines workflows [" +:+ join ", " (workflow_names config)
      +:+ "]; each build runs one, named when it starts or the pipeline's Default workflow, and a pipeline without a default starts every workflow whose `on` matches a push, pull request or tag"]
   else [])
  ++ (if bool_decide (is_Some (v2_on config))
         || existsb (fun '(_, workflow) => bool_decide (is_Some (wf_on workflow))) (v2_workflows config) then
        ["`on` replaces the pipeline's trigger settings for push, pull request and tag webhooks; schedules and manual builds still come from the pipeline"%string]
      else [])
  ++ (if existsb (fun target => match ts_publish target ≫= publish_spec with Some _ => true | None => false end)
           (file_targets config) then
        ("`publish` replaces the pipeline's Publish settings for the stores it names: the file sets the Google Play track, rollout, draft and service account, and the App Store Connect destination and groups; a Google Play upload without `service_account`, and every App Store Connect upload, still needs the store turned on in the pipeline's Publish settings, or the publish step fails"%string)
        :: publish_notices config
      else [])
  ++ (if existsb (fun target => match ts_budgets target with Some _ => true | None => false end)
           (file_targets config) then
        ["`budgets` adds to the pipeline's Size budget: each platform's check is held to both, and a file can tighten the pipeline's budget but never loosen it"%string]
      else []).
