(* ===== verification/PlanRuns.v ===== *)
(** * A validated file plans

    [ConfigV2::parse] lowers every workflow of a file against one budget
    before the file is accepted; [ConfigV2::plan] lowers one workflow again,
    for all its targets or for some, against a fresh one.  The runs of the two
    are related step by step: whatever validation resolved, planning can
    resolve and pay for, so a file that was accepted within its budget plans
    for every workflow and every selection of its platforms. *)

From stdpp Require Import pretty.
From S2P Require Import Prelude RustStr Labels Sizes Patterns Stores Vars VarCosts PipelineFile FilePublish Lowering.
From Stdlib Require Import Ascii.

Local Open Scope Z_scope.

(** ** Programs of the monad *)

Lemma bind_run {A B} (m : L A) (k : A -> L B) s r s' :
  (m ≫= k) s = (r, s') ->
  (exists a s1, m s = (Ok a, s1) /\ k a s1 = (r, s')) \/ (exists e, m s = (Err e, s') /\ r = Err e).
Proof.
  unfold mbind, L_bind. destruct (m s) as [[a|e] s1]; [eauto|]. intros [= <- <-]. eauto.
Qed.

Lemma run_bind {A B} (m : L A) (k : A -> L B) s a s1 : m s = (Ok a, s1) -> (m ≫= k) s = k a s1.
Proof. intros H. unfold mbind, L_bind. by rewrite H. Qed.

Lemma add_unique_nil e l : add_unique e l = [] -> l = [].
Proof. unfold add_unique. destruct (_ && _); [|done]. by intros [? _]%app_eq_nil. Qed.

Lemma add_unique_not_nil e l : add_unique e l <> [].
Proof. intros H. apply add_unique_nil in H as Hl. by subst. Qed.

Section Runs.
Context (vars : list (string * string)) (memory : FlavorPtr -> string).

Abbreviation warm' := (warm vars memory).
Abbreviation paid' := (paid vars memory).

(** A run pays for what it does, keeps the errors it has, and says why it
    stops. *)
Definition grows {A} (m : L A) : Prop :=
  forall s r s', warm' (lw_spent s) -> m s = (r, s') ->
  paid' (lw_spent s) (lw_spent s') /\ (lw_errors s' = [] -> lw_errors s = []) /\ r <> Err [].

(** Within the budget and without errors. *)
Definition clean (s : lowering) : Prop := within (lw_spent s) /\ lw_errors s = [].

Lemma grows_clean {A} (m : L A) s r s' : grows m -> warm' (lw_spent s) -> m s = (r, s') -> clean s' -> clean s.
Proof.
  intros Hm Hw Hr [Hb He]. destruct (Hm s r s' Hw Hr) as (Hp & Hk & _). split; [by eapply paid_within|auto].
Qed.

Lemma paid_refl st : warm' st -> paid' st st.
Proof. intros H. by apply paid_counted. Qed.

Lemma grows_ret {A} (a : A) : grows (ret a).
Proof. intros s r s' Hw [= <- <-]. split_and!; [by apply paid_refl|done|done]. Qed.

Lemma grows_stop {A} e : grows (@stop A [e]).
Proof. intros s r s' Hw [= <- <-]. split_and!; [by apply paid_refl|done|done]. Qed.

Lemma grows_push e : grows (push_unique e).
Proof. intros s r s' Hw [= <- <-]. split_and!; [by apply paid_refl| |done]. cbn. apply add_unique_nil. Qed.

Lemma grows_bind {A B} (m : L A) (k : A -> L B) : grows m -> (forall a, grows (k a)) -> grows (m ≫= k).
Proof.
  intros Hm Hk s r s' Hw [(a & s1 & H1 & H2)|(e & H1 & ->)]%bind_run.
  - destruct (Hm _ _ _ Hw H1) as (Hp & He & _). destruct (Hk a _ _ _ (p_warm _ _ _ _ Hp) H2) as (Hp' & He' & Hn).
    split_and!; [by eapply paid_trans|auto|done].
  - destruct (Hm _ _ _ Hw H1) as (Hp & He & Hn). split_and!; [done|done|]. intros [= ->]. by apply Hn.
Qed.

Lemma grows_foldL {A B} (f : B -> A -> L B) l acc : (forall b a, a ∈ l -> grows (f b a)) -> grows (foldL f l acc).
Proof.
  revert acc; induction l as [|x l IH]; intros acc Hf; cbn; [apply grows_ret|].
  apply grows_bind; [apply Hf; set_solver|]. intros b. apply IH. intros. apply Hf. set_solver.
Qed.

Lemma grows_ask t scope path : placed memory scope -> grows (ask vars t scope path).
Proof.
  intros Hp s r s' Hw. unfold ask.
  destruct (resolve vars t scope path (lw_spent s)) as [r0 st] eqn:E. intros [= <- <-]. cbn.
  split_and!; [by eapply resolve_from_paid|done|done].
Qed.

Lemma grows_attempt t scope path : placed memory scope -> grows (attempt vars t scope path).
Proof.
  intros Hp. apply grows_bind; [by apply grows_ask|]. intros [s|e]; [apply grows_ret|].
  destruct (is_limit_error e); [apply grows_stop|].
  apply grows_bind; [apply grows_push|]. intros _. apply grows_ret.
Qed.

(** ** Two runs *)

(** Validation at [sb] and planning at [ss]. *)
Record rel (sb ss : lowering) : Prop := {
  r_funds : funds vars memory (lw_spent sb) (lw_spent ss);
  r_big : lw_errors sb = [];
  r_small : lw_errors ss = [];
}.

(** What [mb] does without trouble, [ms] does too. *)
Definition follows {A B} (R : A -> B -> Prop) (mb : L A) (ms : L B) : Prop :=
  forall sb ss a sb', rel sb ss -> mb sb = (Ok a, sb') -> clean sb' ->
  exists b ss', ms ss = (Ok b, ss') /\ R a b /\ rel sb' ss'.

Lemma follows_ret {A B} (R : A -> B -> Prop) a b : R a b -> follows R (ret a) (ret b).
Proof. intros HR sb ss a' sb' Hrel [= <- <-] _. exists b, ss. done. Qed.

Lemma follows_bind {A B C D} (R : A -> B -> Prop) (Q : C -> D -> Prop) mb ms kb ks :
  follows R mb ms -> (forall a, grows (kb a)) -> (forall a b, R a b -> follows Q (kb a) (ks b)) ->
  grows mb -> follows Q (mb ≫= kb) (ms ≫= ks).
Proof.
  intros Hm Hg Hk Hgm sb ss c sb' Hrel [(a & s1 & H1 & H2)|(e & _ & [=])]%bind_run Hclean.
  pose proof (f_big _ _ _ _ (r_funds _ _ Hrel)) as Hw.
  destruct (Hgm _ _ _ Hw H1) as [Hp _].
  assert (Hc1 : clean s1) by (by eapply (grows_clean (kb a)); [..|apply Hp|done|done]).
  destruct (Hm _ _ _ _ Hrel H1 Hc1) as (b & ss1 & Hs1 & HR & Hrel1).
  destruct (Hk a b HR _ _ _ _ Hrel1 H2 Hclean) as (d & ss' & Hs2 & HQ & Hrel').
  exists d, ss'. split_and!; [|done|done]. by rewrite (run_bind _ _ _ _ _ Hs1).
Qed.

Lemma follows_weaken {A B} (R Q : A -> B -> Prop) mb ms :
  follows R mb ms -> (forall a b, R a b -> Q a b) -> follows Q mb ms.
Proof.
  intros Hf HRQ sb ss a sb' Hrel Hb Hc. destruct (Hf _ _ _ _ Hrel Hb Hc) as (b & ss' & ? & ? & ?). eauto 6.
Qed.

(** A step only validation takes. *)
Lemma follows_skip {A B C} (Q : A -> C -> Prop) (m : L B) (kb : B -> L A) (ms : L C) :
  grows m -> (forall b, grows (kb b)) -> (forall b s s', m s = (Ok b, s') -> follows Q (kb b) ms) ->
  follows Q (m ≫= kb) ms.
Proof.
  intros Hgm Hg Hk sb ss a sb' Hrel [(b & s1 & H1 & H2)|(e & _ & [=])]%bind_run Hclean.
  pose proof (f_big _ _ _ _ (r_funds _ _ Hrel)) as Hw.
  destruct (Hgm _ _ _ Hw H1) as [Hp _].
  assert (Hc1 : clean s1) by (by eapply (grows_clean (kb b)); [..|apply Hp|done|done]).
  apply (Hk b sb s1 H1 s1 ss a sb'); [|done|done].
  split; [by eapply funds_paid, Hp; apply Hrel|apply Hc1|apply Hrel].
Qed.

Lemma follows_foldL {A B C} (R : B -> C -> Prop) (f : B -> A -> L B) (g : C -> A -> L C) l l' b c :
  l' `sublist_of` l -> (forall b a, a ∈ l -> grows (f b a)) ->
  (forall a b c, a ∈ l -> R b c -> follows R (f b a) (g c a)) ->
  (forall a b c b' s s', R b c -> f b a s = (Ok b', s') -> R b' c) ->
  R b c -> follows R (foldL f l b) (foldL g l' c).
Proof.
  intros Hsub Hg Hf Hskip. revert b c; induction Hsub as [|x l' l Hsub IH|x l' l Hsub IH]; intros b c HR; cbn.
  - by apply follows_ret.
  - eapply (follows_bind R).
    + apply Hf; [set_solver|done].
    + intros a. apply grows_foldL. intros. apply Hg. set_solver.
    + intros a b' HR'. apply IH; [| |done]; intros; [apply Hg|apply Hf]; try done; set_solver.
    + apply Hg. set_solver.
  - apply follows_skip.
    + apply Hg. set_solver.
    + intros a. apply grows_foldL. intros. apply Hg. set_solver.
    + intros b' s s' Hb. apply IH; [| |by eapply Hskip]; intros; [apply Hg|apply Hf]; try done; set_solver.
Qed.

Lemma follows_ask t scope path : placed memory scope -> follows eq (ask vars t scope path) (ask vars t scope path).
Proof.
  intros Hp sb ss a sb' Hrel. unfold ask.
  destruct (resolve vars t scope path (lw_spent sb)) as [r st] eqn:E. intros [= <- <-] [Hw _]. cbn in Hw.
  destruct (funds_step vars memory t scope path _ _ r st Hp (r_funds _ _ Hrel) Hw E) as (st' & -> & Hf).
  eexists _, _. split; [done|]. split; [done|]. split; [done|apply Hrel|apply Hrel].
Qed.

Lemma follows_attempt t scope path :
  placed memory scope ->
  follows (fun a b => a = b /\ is_Some a) (attempt vars t scope path) (attempt vars t scope path).
Proof.
  intros Hp. eapply (follows_bind eq).
  - by apply follows_ask.
  - intros [s|e]; [apply grows_ret|]. destruct (is_limit_error e); [apply grows_stop|].
    apply grows_bind; [apply grows_push|]. intros _. apply grows_ret.
  - intros [s|e] b <-; [by apply follows_ret; eauto|].
    intros sb ss a sb' Hrel H [_ Hc]. exfalso. destruct (is_limit_error e); [done|].
    injection H as _ <-. cbn in Hc. by rewrite (r_big _ _ Hrel) in Hc.
  - by apply grows_ask.
Qed.

(** ** The parts of lowering *)

(** Steps both runs take, whatever they collected. *)
Definition any {A B} (a : A) (b : B) : Prop := True.

Lemma grows_resolve_field path value field : grows (resolve_field vars path value field).
Proof. apply grows_bind; [by apply grows_ask|]. intros r. apply grows_ret. Qed.

Lemma follows_resolve_field path value field :
  follows eq (resolve_field vars path value field) (resolve_field vars path value field).
Proof.
  apply (follows_bind eq); [by apply follows_ask|intros; apply grows_ret| |by apply grows_ask].
  intros r ? <-. by apply follows_ret.
Qed.

Lemma grows_unless {A} error (a : A) : grows (unless_limit error a).
Proof. destruct error as [e|]; cbn; [destruct (is_limit_error e)|]; [apply grows_stop|apply grows_ret..]. Qed.

Lemma follows_unless {A} error (a : A) : follows eq (unless_limit error a) (unless_limit error a).
Proof.
  destruct error as [e|]; cbn; [destruct (is_limit_error e)|]; [|by apply follows_ret..].
  by intros sb ss b sb' _ [=].
Qed.

Lemma grows_play path fe spec : grows (plan_play vars path fe spec).
Proof. apply grows_bind; [apply grows_resolve_field|]. intros r. apply grows_unless. Qed.

Lemma follows_play path fe spec : follows eq (plan_play vars path fe spec) (plan_play vars path fe spec).
Proof.
  apply (follows_bind eq); [apply follows_resolve_field|intros; apply grows_unless| |apply grows_resolve_field].
  intros r ? <-. apply follows_unless.
Qed.

Lemma grows_testflight path fe spec : grows (plan_testflight vars path fe spec).
Proof. apply grows_bind; [apply grows_resolve_field|]. intros r. apply grows_unless. Qed.

Lemma follows_testflight path fe spec : follows eq (plan_testflight vars path fe spec) (plan_testflight vars path fe spec).
Proof.
  apply (follows_bind eq); [apply follows_resolve_field|intros; apply grows_unless| |apply grows_resolve_field].
  intros r ? <-. apply follows_unless.
Qed.

Lemma grows_group path acc group : grows (plan_group vars path acc group).
Proof.
  destruct acc, group. apply grows_bind; [apply grows_resolve_field|]. intros r. apply grows_ret.
Qed.

Lemma follows_group path acc group : follows eq (plan_group vars path acc group) (plan_group vars path acc group).
Proof.
  destruct acc, group.
  apply (follows_bind eq); [apply follows_resolve_field|intros; apply grows_ret| |apply grows_resolve_field].
  intros r ? <-. by apply follows_ret.
Qed.

Lemma follows_foldL_same {A B} (f : B -> A -> L B) l b :
  (forall b a, grows (f b a)) -> (forall b a, follows eq (f b a) (f b a)) -> follows eq (foldL f l b) (foldL f l b).
Proof.
  intros Hg Hf. revert b; induction l as [|x l IH]; intros b; cbn; [by apply follows_ret|].
  apply (follows_bind eq); [done|intros; by apply grows_foldL| |done]. intros c ? <-. apply IH.
Qed.

Lemma grows_app_store path fe spec : grows (plan_app_store vars path fe spec).
Proof.
  apply grows_bind; [apply grows_foldL; intros; apply grows_group|]. intros acc. apply grows_unless.
Qed.

Lemma follows_app_store path fe spec : follows eq (plan_app_store vars path fe spec) (plan_app_store vars path fe spec).
Proof.
  apply (follows_bind eq); [|intros; apply grows_unless| |apply grows_foldL; intros; apply grows_group].
  - apply follows_foldL_same; [apply grows_group|apply follows_group].
  - intros acc ? <-. apply follows_unless.
Qed.

Lemma grows_over {A B} (f : A -> L B) o old : (forall a, grows (f a)) -> grows (over f o old).
Proof.
  intros Hf. destruct o as [a|]; cbn; [|apply grows_ret]. apply grows_bind; [done|]. intros b. apply grows_ret.
Qed.

Lemma follows_over {A B} (f : A -> L B) o old old' :
  (forall a, grows (f a)) -> (forall a, follows eq (f a) (f a)) -> follows any (over f o old) (over f o old').
Proof.
  intros Hg Hf. destruct o as [a|]; cbn; [|by apply follows_ret].
  apply (follows_bind eq); [done|intros; apply grows_ret| |done]. intros. by apply follows_ret.
Qed.

Lemma grows_target_publish flavors fp publish target : grows (plan_target_publish vars flavors fp publish target).
Proof.
  unfold plan_target_publish. destruct (et_publish target) as [[spec path]|]; [|apply grows_ret].
  apply grows_bind; [apply grows_over, grows_play|]. intros p.
  apply grows_bind; [apply grows_over, grows_testflight|]. intros t.
  apply grows_bind; [apply grows_over, grows_app_store|]. intros a. apply grows_ret.
Qed.

Lemma follows_target_publish flavors fp publish publish' target :
  follows any (plan_target_publish vars flavors fp publish target)
              (plan_target_publish vars flavors fp publish' target).
Proof.
  unfold plan_target_publish. destruct (et_publish target) as [[spec path]|]; [|by apply follows_ret].
  eapply follows_bind; [apply follows_over; [apply grows_play|apply follows_play]| | |apply grows_over, grows_play].
  { intros p. apply grows_bind; [apply grows_over, grows_testflight|]. intros t.
    apply grows_bind; [apply grows_over, grows_app_store|]. intros a. apply grows_ret. }
  intros p p' _.
  eapply follows_bind; [apply follows_over; [apply grows_testflight|apply follows_testflight]| | |apply grows_over, grows_testflight].
  { intros t. apply grows_bind; [apply grows_over, grows_app_store|]. intros a. apply grows_ret. }
  intros t t' _.
  eapply follows_bind; [apply follows_over; [apply grows_app_store|apply follows_app_store]| | |apply grows_over, grows_app_store].
  { intros a. apply grows_ret. }
  intros a a' _. by apply follows_ret.
Qed.

(** *** Steps *)

Definition fewer (bs ss : list PlanStep) : Prop := map ps_name ss ⊆ map ps_name bs.

Lemma grows_build_step steps job : placed memory job.2.2 -> grows (build_step vars steps job).
Proof.
  destruct job as [target [flavor scope]]. cbn. intros Hp. apply grows_bind; [by apply grows_attempt|].
  intros r. apply grows_ret.
Qed.

Lemma follows_build_step job bs ss :
  placed memory job.2.2 -> fewer bs ss -> follows fewer (build_step vars bs job) (build_step vars ss job).
Proof.
  destruct job as [target [flavor scope]]. cbn. intros Hp Hfewer.
  eapply follows_bind; [by apply follows_attempt|intros; apply grows_ret| |by apply grows_attempt].
  intros r ? [<- [run ->]]. apply follows_ret. unfold fewer in *. rewrite !map_app. cbn. set_solver.
Qed.

Lemma build_step_more job bs ss bs' s s' :
  fewer bs ss -> build_step vars bs job s = (Ok bs', s') -> fewer bs' ss.
Proof.
  destruct job as [target [flavor scope]]. intros Hfewer [(r & s1 & _ & H)|(e & _ & [=])]%bind_run.
  injection H as <- _. destruct r as [run|]; [|done]. unfold fewer in *. rewrite map_app. set_solver.
Qed.

Lemma grows_place_step path bn index taken ph step source rest :
  (forall l, grows (rest l)) -> grows (place_step vars path bn index taken ph step source rest).
Proof.
  intros Hrest. unfold place_step. cbv zeta. destruct (existsb _ taken).
  - apply grows_bind; [apply grows_push|]. intros _. apply Hrest.
  - apply grows_bind; [by apply grows_attempt|]. intros run.
    apply grows_bind; [apply Hrest|]. intros tail. apply grows_ret.
Qed.

Lemma grows_place_steps shared path bn index entries taken ph builds :
  grows (place_steps vars shared path bn index entries taken ph builds).
Proof.
  revert index taken ph builds; induction entries as [|e entries IH]; intros index taken ph builds; cbn;
    [apply grows_ret|].
  destruct e as [|name|step].
  - apply grows_bind; [apply IH|]. intros tail. apply grows_ret.
  - destruct (step_of_entry _ _ _ _) as [[step source]|]; [|apply IH]. apply grows_place_step. intros. apply IH.
  - apply grows_place_step. intros. apply IH.
Qed.

Lemma existsb_subset (n : string) (l k : list string) :
  l ⊆ k -> existsb (String.eqb n) k = false -> existsb (String.eqb n) l = false.
Proof.
  intros Hsub Hk. rewrite existsb_eqb in *. apply bool_decide_eq_false in Hk. apply bool_decide_eq_false. set_solver.
Qed.

Lemma follows_place_step path bn bn' index taken taken' ph step source rest rest' :
  taken' ⊆ taken -> (forall l, grows (rest l)) ->
  (forall l l', l' ⊆ l -> follows any (rest l) (rest' l')) ->
  follows any (place_step vars path bn index taken ph step source rest)
              (place_step vars path bn' index taken' ph step source rest').
Proof.
  intros Hsub Hg Hrest. unfold place_step. cbv zeta. destruct (existsb _ taken) eqn:Et.
  - intros sb ss a sb' Hrel H [_ Hc]. exfalso.
    destruct (bind_run _ _ _ _ _ H) as [(u & s1 & H1 & H2)|(e' & _ & [=])].
    assert (Hw : warm' (lw_spent s1)) by (injection H1 as _ <-; apply (f_big _ _ _ _ (r_funds _ _ Hrel))).
    destruct (Hg _ _ _ _ Hw H2) as (_ & He & _). specialize (He Hc).
    injection H1 as _ <-. cbn in He. by rewrite (r_big _ _ Hrel) in He.
  - rewrite (existsb_subset _ _ _ Hsub Et).
    eapply follows_bind; [by apply follows_attempt| | |by apply grows_attempt].
    { intros run. apply grows_bind; [apply Hg|]. intros tail. apply grows_ret. }
    intros run ? [<- _]. eapply (follows_bind any); [apply Hrest; set_solver|intros; apply grows_ret| |apply Hg].
    intros. by apply follows_ret.
Qed.

Lemma follows_place_steps shared path bn bn' index entries taken taken' ph builds builds' :
  taken' ⊆ taken ->
  follows any (place_steps vars shared path bn index entries taken ph builds)
              (place_steps vars shared path bn' index entries taken' ph builds').
Proof.
  revert index taken taken' ph builds builds'; induction entries as [|e entries IH];
    intros index taken taken' ph builds builds' Hsub; cbn; [by apply follows_ret|].
  destruct e as [|name|step].
  - eapply (follows_bind any); [by apply IH|intros; apply grows_ret| |apply grows_place_steps].
    intros. by apply follows_ret.
  - destruct (step_of_entry _ _ _ _) as [[step source]|]; [|by apply IH].
    apply follows_place_step; [done|intros; apply grows_place_steps|]. intros. by apply IH.
  - apply follows_place_step; [done|intros; apply grows_place_steps|]. intros. by apply IH.
Qed.

(** *** Env and artifacts *)

Lemma grows_resolve_env env e : grows (resolve_env vars env e).
Proof. destruct e as [[key value] path]. apply grows_bind; [by apply grows_attempt|]. intros r. apply grows_ret. Qed.

Lemma follows_resolve_env env env' e : follows any (resolve_env vars env e) (resolve_env vars env' e).
Proof.
  destruct e as [[key value] path].
  eapply follows_bind; [by apply follows_attempt|intros; apply grows_ret| |by apply grows_attempt].
  intros. by apply follows_ret.
Qed.

Lemma grows_resolve_pattern patterns job : placed memory job.2 -> grows (resolve_pattern vars patterns job).
Proof.
  destruct job as [[pattern path] scope]. cbn. intros Hp. apply grows_bind; [by apply grows_attempt|].
  intros [resolved|]; [|apply grows_ret]. destruct (contains _ _).
  { apply grows_bind; [apply grows_push|]. intros _. apply grows_ret. }
  destruct (Paths.validate_artifact_pattern _); [apply grows_ret|].
  apply grows_bind; [apply grows_push|]. intros _. apply grows_ret.
Qed.

Lemma push_not_clean {A} e (a : A) sb b sb' :
  lw_errors sb = [] -> (push_unique e ;; ret a) sb = (Ok b, sb') -> ~ clean sb'.
Proof. intros He [= _ <-] [_ Hc]. cbn in Hc. by rewrite He in Hc. Qed.

Lemma follows_resolve_pattern patterns patterns' job :
  placed memory job.2 -> follows any (resolve_pattern vars patterns job) (resolve_pattern vars patterns' job).
Proof.
  destruct job as [[pattern path] scope]. cbn. intros Hp.
  eapply follows_bind; [by apply follows_attempt| | |by apply grows_attempt].
  { intros [resolved|]; [|apply grows_ret]. destruct (contains _ _).
    { apply grows_bind; [apply grows_push|]. intros _. apply grows_ret. }
    destruct (Paths.validate_artifact_pattern _); [apply grows_ret|].
    apply grows_bind; [apply grows_push|]. intros _. apply grows_ret. }
  intros r ? [<- [resolved ->]]. cbv zeta. destruct (contains _ _).
  { intros sb ss a sb' Hrel H Hc. by destruct (push_not_clean _ _ _ _ _ (r_big _ _ Hrel) H). }
  destruct (Paths.validate_artifact_pattern _); [by apply follows_ret|].
  intros sb ss a sb' Hrel H Hc. by destruct (push_not_clean _ _ _ _ _ (r_big _ _ Hrel) H).
Qed.
End Runs.

(** A program made of these parts grows. *)
Ltac solve_grows :=
  repeat match goal with
  | |- grows _ _ (_ ≫= _) => apply grows_bind; [|intros ?]
  | |- grows _ _ (foldL _ _ _) => apply grows_foldL; intros ? ? ?
  | |- grows _ _ (ret _) => apply grows_ret
  | |- grows _ _ (plan_target_publish _ _ _ _ _) => apply grows_target_publish
  | |- grows _ _ (build_step _ _ _) => apply grows_build_step
  | |- grows _ _ (place_steps _ _ _ _ _ _ _ _ _) => apply grows_place_steps
  | |- grows _ _ (resolve_env _ _ _) => apply grows_resolve_env
  | |- grows _ _ (resolve_pattern _ _ _) => apply grows_resolve_pattern
  end; eauto.

(** ** The whole *)

Definition flavor_memory (flavors : list string) (ptr : FlavorPtr) : string :=
  match ptr with FlavorLiteral => "flavor" | FlavorEntry i => default "" (flavors !! i) end.

Lemma scopes_placed flavors x : x ∈ flavor_scopes flavors -> placed (flavor_memory flavors) x.2.
Proof.
  unfold flavor_scopes. destruct flavors as [|f fs]; [set_solver|]. generalize (f :: fs). intros l.
  intros (i & Hi)%list_elem_of_lookup. rewrite list_lookup_imap in Hi.
  apply fmap_Some in Hi as (fl & Hfl & ->). cbn. by rewrite Hfl.
Qed.

Lemma concat_map_sublist {A B} (f : A -> list B) l' l :
  l' `sublist_of` l -> concat (map f l') `sublist_of` concat (map f l).
Proof.
  induction 1; cbn; [done|by apply sublist_app; [reflexivity|]|by apply sublist_inserts_l].
Qed.

Lemma build_jobs_placed targets flavors job :
  job ∈ build_jobs targets flavors -> placed (flavor_memory flavors) job.2.2.
Proof.
  unfold build_jobs. rewrite list_elem_of_In, in_concat. intros (l & Hl & Hj).
  apply in_map_iff in Hl as (target & <- & _). apply in_map_iff in Hj as (x & <- & Hx).
  apply list_elem_of_In in Hx. by apply scopes_placed in Hx.
Qed.

Lemma pattern_jobs_placed targets flavors job :
  job ∈ pattern_jobs targets flavors -> placed (flavor_memory flavors) job.2.
Proof.
  unfold pattern_jobs, indexed. rewrite list_elem_of_In, in_concat. intros (l & Hl & Hj).
  apply in_map_iff in Hl as (target & <- & _). destruct (default _ _) as [patterns path].
  apply in_concat in Hj as (k & Hk & Hj). apply list_elem_of_In, list_elem_of_lookup in Hk as [i Hi].
  rewrite list_lookup_imap in Hi. apply fmap_Some in Hi as (pattern & _ & ->).
  apply in_map_iff in Hj as (x & <- & Hx). apply list_elem_of_In in Hx. by apply scopes_placed in Hx.
Qed.

Definition built_flavors (config : ConfigV2) (spec : option WorkflowSpec) : list string :=
  default (app_flavors (v2_app config)) (spec ≫= wf_flavors).

Section Body.
Context (config : ConfigV2) (prefix : string) (spec : option WorkflowSpec) (vars : list (string * string)).

Abbreviation memory := (flavor_memory (built_flavors config spec)).

Lemma build_placed targets job :
  job ∈ build_jobs targets (built_flavors config spec) -> placed memory job.2.2.
Proof. apply build_jobs_placed. Qed.

Lemma pattern_placed targets job :
  job ∈ pattern_jobs targets (built_flavors config spec) -> placed memory job.2.
Proof. apply pattern_jobs_placed. Qed.

Hint Resolve build_placed pattern_placed : core.

Lemma grows_body targets : grows vars memory (lower_body config prefix spec vars targets).
Proof.
  unfold lower_body. cbv zeta. fold (built_flavors config spec).
  destruct (match spec ≫= wf_steps with Some _ => _ | None => _ end) as [entries entries_path].
  solve_grows.
Qed.

Lemma follows_body targets targets' :
  targets' `sublist_of` targets ->
  follows vars memory any (lower_body config prefix spec vars targets) (lower_body config prefix spec vars targets').
Proof.
  intros Hsub. unfold lower_body. cbv zeta. fold (built_flavors config spec).
  destruct (match spec ≫= wf_steps with Some _ => _ | None => _ end) as [entries entries_path].
  eapply (follows_bind vars memory any); [|intros; solve_grows| |solve_grows].
  { apply follows_foldL; [done|intros; apply grows_target_publish|intros; apply follows_target_publish|done|done]. }
  intros publish publish' _. eapply (follows_bind vars memory fewer); [|intros; solve_grows| |solve_grows].
  { apply follows_foldL; [by apply concat_map_sublist|intros; solve_grows|..|unfold fewer; set_solver].
    - intros job b c Hjob Hfewer. apply follows_build_step; eauto.
    - intros job b c b' s s' Hfewer Hb. by eapply build_step_more. }
  intros builds builds' Hfewer. eapply (follows_bind vars memory any); [|intros; solve_grows| |solve_grows].
  { by apply follows_place_steps. }
  intros steps steps' _. eapply (follows_bind vars memory any); [|intros; solve_grows| |solve_grows].
  { apply follows_foldL; [reflexivity|intros; apply grows_resolve_env|intros; apply follows_resolve_env|done|done]. }
  intros env env' _. eapply (follows_bind vars memory any); [|intros; solve_grows| |solve_grows].
  { apply follows_foldL; [by apply concat_map_sublist|intros; solve_grows| |done|done].
    intros job b c Hjob _. apply follows_resolve_pattern. eauto. }
  intros. by apply follows_ret.
Qed.
End Body.

(** ** Lowering *)

Lemma check_vars_paid vars flavors l errors st errors' st' :
  warm vars (flavor_memory flavors) st -> check_vars vars l errors st = (errors', st') ->
  paid vars (flavor_memory flavors) st st'.
Proof.
  revert errors st; induction l as [|[[name value] path] l IH]; intros errors st Hw; cbn.
  { intros [= _ <-]. by apply paid_refl. }
  destruct (resolve_from vars value (Value FlavorLiteral "flavor") path [name] st) as [r st1] eqn:E.
  apply (resolve_from_paid vars (flavor_memory flavors)) in E as Hp; [|done|done].
  pose proof (p_warm _ _ _ _ Hp) as Hw1. destruct r as [s|e].
  - intros H. eapply paid_trans; [exact Hp|]. eapply IH; [exact Hw1|exact H].
  - destruct (is_limit_error e); [by intros [= _ <-]|]. intros H. eapply paid_trans; [exact Hp|]. eapply IH; [exact Hw1|exact H].
Qed.

Lemma paid_le vars memory st st' : paid vars memory st st' ->
  expansions st <= expansions st' /\ expanded_bytes st <= expanded_bytes st'.
Proof.
  intros [_ _ Hc Hb].
  pose proof (total_nonneg (var_count vars) (held st' ∖ held st) (var_count_nonneg vars)).
  pose proof (total_nonneg (var_bytes vars memory) (held st' ∖ held st) (var_bytes_nonneg vars memory)). lia.
Qed.

(** The vars a workflow's values are resolved with. *)
Definition workflow_vars (config : ConfigV2) (chosen : option (string * WorkflowSpec)) : list entry :=
  merge_entries "vars" (workflow_prefix chosen) (v2_vars config) (wf_vars <$> (snd <$> chosen)).

Definition workflow_targets (config : ConfigV2) (chosen : option (string * WorkflowSpec)) : list EffectiveTarget :=
  (effective_targets config (workflow_prefix chosen) (snd <$> chosen)).1.

Section Lower.
Context (config : ConfigV2) (workflow : option string) (chosen : option (string * WorkflowSpec))
  (Hchosen : select_workflow config workflow = Ok chosen).

Abbreviation vars := (bindings (workflow_vars config chosen)).
Abbreviation memory := (flavor_memory (built_flavors config (snd <$> chosen))).

(** The state lowering starts its body in, and the errors it has by then. *)
Definition checked (validate_vars : bool) (st : spending) : list string * spending :=
  if validate_vars then check_vars vars (workflow_vars config chosen) [] (fresh_cache (length vars) st)
  else ([], fresh_cache (length vars) st).

Lemma checked_paid v st errors st1 :
  checked v st = (errors, st1) -> paid vars memory (fresh_cache (length vars) st) st1.
Proof.
  unfold checked. pose proof (warm_fresh vars memory st) as Hw.
  destruct v; [by apply check_vars_paid|]. intros [= _ <-]. by apply paid_refl.
Qed.

(** What a run of lowering is made of. *)
Lemma lower_parts_run selected v st r st' :
  lower_parts config workflow selected v st = (r, st') ->
  exists errors st1, checked v st = (errors, st1) /\
  match errors with
  | _ :: _ => r = Err errors /\ st' = st1
  | [] =>
      exists targets es rb s,
        select_targets (workflow_targets config chosen) selected = (targets, es)
        /\ lower_body config (workflow_prefix chosen) (snd <$> chosen) vars targets
             {| lw_spent := st1;
                lw_errors := (effective_targets config (workflow_prefix chosen) (snd <$> chosen)).2 ++ es |} = (rb, s)
        /\ st' = lw_spent s
        /\ r = match rb with
               | Err errors => Err errors
               | Ok p => match lw_errors s with [] => Ok (chosen, p) | errors => Err errors end
               end
  end.
Proof.
  unfold lower_parts. rewrite Hchosen. cbv zeta. fold (workflow_vars config chosen). fold (checked v st).
  destruct (checked v st) as [errors st1] eqn:Ec. intros H. exists errors, st1. split; [done|].
  destruct errors as [|e errors]; [|by injection H as <- <-].
  unfold workflow_targets. destruct (effective_targets _ _ _) as [targets0 es0]. cbn in *.
  destruct (select_targets targets0 selected) as [targets es] eqn:Es.
  destruct (lower_body _ _ _ _ _ _) as [rb s] eqn:Eb. exists targets, es, rb, s. split_and!; try done.
  - destruct rb as [p|]; [destruct (lw_errors s)|]; by injection H as _ <-.
  - destruct rb as [p|]; [destruct (lw_errors s)|]; by injection H as <- _.
Qed.

Lemma lower_parts_grows selected v st r st' :
  lower_parts config workflow selected v st = (r, st') ->
  expansions st <= expansions st' /\ expanded_bytes st <= expanded_bytes st'.
Proof.
  intros (errors & st1 & Hc & H)%lower_parts_run. apply checked_paid in Hc as Hp.
  pose proof (p_warm _ _ _ _ Hp) as Hw. pose proof (paid_le _ _ _ _ Hp) as Hle. cbn in Hle.
  destruct errors as [|e errors]; [|by destruct H as [_ ->]].
  destruct H as (targets & es & rb & s & _ & Hb & -> & _).
  apply (grows_body config) in Hb as [Hp' _]; [|done]. apply paid_le in Hp'. cbn in Hp'. lia.
Qed.

(** A selection of the targets that validation lowered. *)
Lemma lower_parts_again selected v st p st' targets' :
  lower_parts config workflow None v st = (Ok (chosen, p), st') -> within st' ->
  0 <= expansions st -> 0 <= expanded_bytes st ->
  select_targets (workflow_targets config chosen) selected = (targets', []) ->
  targets' `sublist_of` workflow_targets config chosen ->
  exists p' st'', lower_parts config workflow selected false no_spending = (Ok (chosen, p'), st'').
Proof.
  intros (errors & st1 & Hc & H)%lower_parts_run Hwithin He Hb Hsel Hsub. apply checked_paid in Hc as Hp.
  destruct errors as [|e errors]; [|by destruct H as [[=] _]].
  destruct H as (targets & es & rb & s & Hnone & Hbody & -> & Hr). cbn in Hnone. injection Hnone as <- <-.
  destruct rb as [p0|]; [|done]. destruct (lw_errors s) eqn:Hes; [|done].
  pose proof (p_warm _ _ _ _ Hp) as Hw. assert (Hclean : clean s) by done.
  assert (Hstart : (effective_targets config (workflow_prefix chosen) (snd <$> chosen)).2 = []).
  { eapply (grows_clean vars memory) in Hbody as [_ Hst]; [|apply grows_body|exact Hw|exact Hclean].
    cbn in Hst. by rewrite app_nil_r in Hst. }
  pose proof (funds_fresh vars memory st He Hb) as Hf. apply (funds_paid _ _ _ _ _ Hf) in Hp.
  destruct (follows_body config (workflow_prefix chosen) (snd <$> chosen) vars _ _ Hsub
    {| lw_spent := st1; lw_errors := (effective_targets config (workflow_prefix chosen) (snd <$> chosen)).2 ++ [] |}
    {| lw_spent := fresh_cache (length vars) no_spending; lw_errors := [] |} p0 s) as (p' & s' & Hrun & _ & Hrel);
    [|done|done|].
  { split; [done| |done]. cbn. by rewrite Hstart. }
  destruct (lower_parts config workflow selected false no_spending) as [r st''] eqn:E.
  apply lower_parts_run in E as (errors' & st1' & Hc' & H'). unfold checked in Hc'. injection Hc' as <- <-.
  destruct H' as (targets'' & es'' & rb' & s'' & Hsel' & Hbody' & -> & ->). rewrite Hsel in Hsel'. injection Hsel' as <- <-.
  rewrite Hstart in Hbody'. cbn in Hbody'. rewrite Hrun in Hbody'. injection Hbody' as <- <-.
  rewrite (r_small _ _ _ _ Hrel). eauto.
Qed.
End Lower.

Lemma lower_run config workflow selected v st r st' :
  lower config workflow selected v st = (r, st') ->
  match r with
  | Ok p => exists chosen pt, lower_parts config workflow selected v st = (Ok (chosen, pt), st')
                              /\ select_workflow config workflow = Ok chosen /\ p = assemble config chosen pt
  | Err errors => lower_parts config workflow selected v st = (Err errors, st') /\ errors <> []
  end.
Proof.
  unfold lower. destruct (lower_parts config workflow selected v st) as [r1 st1] eqn:E.
  assert (Hsel : match r1 with Ok (chosen, _) => select_workflow config workflow = Ok chosen | Err e => e <> [] end).
  { destruct (select_workflow config workflow) as [chosen|e] eqn:Es.
    - pose proof (lower_parts_run config workflow chosen Es _ _ _ _ _ E) as (errors & st0 & Hc & H).
      destruct errors as [|e errors]; [|by destruct H as [-> _]].
      destruct H as (targets & es & rb & s & _ & Hb & _ & ->).
      apply (grows_body config) in Hb as (_ & _ & Hn);
        [|apply checked_paid in Hc; by apply Hc].
      destruct rb as [pt|errors]; [by destruct (lw_errors s)|]. intros ->. by apply Hn.
    - unfold lower_parts in E. rewrite Es in E. by injection E as <- _. }
  destruct r1 as [[chosen pt]|errors]; intros [= <- <-]; eauto 6.
Qed.

Lemma lower_grows config workflow selected v st r st' :
  lower config workflow selected v st = (r, st') ->
  expansions st <= expansions st' /\ expanded_bytes st <= expanded_bytes st'.
Proof.
  intros H. assert (Hp : exists r1, lower_parts config workflow selected v st = (r1, st')).
  { apply lower_run in H. destruct r; [destruct H as (? & ? & H & _)|destruct H as [H _]]; eauto. }
  destruct Hp as [r1 Hp]. destruct (select_workflow config workflow) as [chosen|e] eqn:Es.
  - by eapply lower_parts_grows.
  - unfold lower_parts in Hp. rewrite Es in Hp. injection Hp as _ <-. lia.
Qed.

Lemma fold_add_nil es l : fold_left (fun l e => add_unique e l) es l = [] -> es = [] /\ l = [].
Proof.
  revert l; induction es as [|e es IH]; intros l; cbn; [done|]. intros [-> H]%IH.
  unfold add_unique in H. destruct l; [|by destruct (_ && _)]. done.
Qed.

(** Every workflow was lowered without errors. *)
Lemma check_workflows_ok config index workflows errors st st' :
  check_workflows config index workflows errors st = ([], st') -> within st' ->
  0 <= expansions st -> 0 <= expanded_bytes st ->
  errors = [] /\ within st /\ forall workflow, workflow ∈ workflows ->
  exists v st0 p st1, lower config workflow None v st0 = (Ok p, st1) /\ within st1
    /\ 0 <= expansions st0 /\ 0 <= expanded_bytes st0.
Proof.
  revert index errors st; induction workflows as [|w ws IH]; intros index errors st; cbn.
  { intros [= -> ->] Hw _ _. split_and!; [done|done|set_solver]. }
  destruct (lower config w None _ st) as [[p|es] st1] eqn:E; intros H Hw He Hb; apply lower_grows in E as Hle.
  - apply IH in H as (-> & Hw1 & Hrest); [|done|lia|lia]. split_and!; [done|..].
    + destruct Hw1. split; lia.
    + intros w' [->|Hw']%elem_of_cons; [|by apply Hrest]. by eauto 8.
  - apply lower_run in E as [_ Hne].
    assert (Hnil : fold_left (fun errors e => add_unique e errors) es errors = []).
    { destruct (existsb is_limit_error es); [by injection H as -> _|]. apply IH in H as (Hn & _); [done|done|lia|lia]. }
    by apply fold_add_nil in Hnil as [-> _].
Qed.

(** ** Accepted files *)

(** The platforms a run may select: some of the targets, each once. *)
Definition valid_selection (targets : list EffectiveTarget) (selected : option (list BuildPlatform)) : Prop :=
  match selected with
  | None => True
  | Some l => l <> [] /\ NoDup l /\ l ⊆ map et_platform targets
  end.

Lemma has_platform_iff l p : has_platform l p = true <-> p ∈ l.
Proof.
  unfold has_platform. rewrite existsb_exists. split.
  - intros (x & Hx & Hp). apply bool_decide_eq_true in Hp as ->. by apply list_elem_of_In.
  - intros Hp. exists p. split; [by apply list_elem_of_In|by apply bool_decide_eq_true].
Qed.

Lemma has_duplicate_nodup l : NoDup l -> has_duplicate l = false.
Proof.
  intros Hnd. apply not_true_is_false. unfold has_duplicate. rewrite existsb_exists. intros (b & Hb & Ht).
  apply list_elem_of_In, list_elem_of_lookup in Hb as [i Hi]. rewrite list_lookup_imap in Hi.
  apply fmap_Some in Hi as (p & Hp & ->). apply has_platform_iff, list_elem_of_lookup in Ht as [j Hj].
  apply lookup_take_Some in Hj as [Hj Hlt]. pose proof (NoDup_lookup _ _ _ _ Hnd Hp Hj). lia.
Qed.

Lemma filter_sublist {A} (f : A -> bool) l : List.filter f l `sublist_of` l.
Proof. induction l as [|x l IH]; cbn; [done|]. destruct (f x); by constructor. Qed.

Lemma valid_selection_targets targets selected :
  valid_selection targets selected ->
  exists targets', select_targets targets selected = (targets', []) /\ targets' `sublist_of` targets.
Proof.
  destruct selected as [l|]; cbn; [|by eauto]. intros (Hne & Hnd & Hsub).
  rewrite bool_decide_eq_false_2 by done. rewrite has_duplicate_nodup by done.
  destruct (existsb _ l) eqn:E; cbn.
  - apply existsb_exists in E as (p & Hp%list_elem_of_In & Hn). apply negb_true_iff in Hn.
    assert (has_platform (map et_platform targets) p = true) by (apply has_platform_iff; set_solver). congruence.
  - eexists. split; [done|]. apply filter_sublist.
Qed.

Lemma select_known config workflow chosen :
  select_workflow config workflow = Ok chosen ->
  exists known, known ∈ all_workflows config /\ select_workflow config known = Ok chosen
    /\ forall selected v st, lower_parts config known selected v st = lower_parts config workflow selected v st.
Proof.
  unfold all_workflows, workflow_names. intros Hsel.
  assert (Hsame : forall known, select_workflow config known = Ok chosen ->
    forall selected v st, lower_parts config known selected v st = lower_parts config workflow selected v st).
  { intros known Hk selected v st. unfold lower_parts. by rewrite Hk, Hsel. }
  enough (exists known, known ∈ match map fst (v2_workflows config) with [] => [None] | names => map Some names end
    /\ select_workflow config known = Ok chosen) as (known & Hin & Hk) by eauto.
  revert Hsel. unfold select_workflow. cbv zeta. destruct workflow as [name|].
  - destruct (List.find _ (v2_workflows config)) as [[n spec]|] eqn:E; [|by destruct (v2_workflows config)].
    intros [= <-]. exists (Some name). rewrite E. split; [|done].
    apply find_some in E as [Hin Hn]. cbn in Hn. apply String.eqb_eq in Hn as ->.
    destruct (v2_workflows config) as [|w ws]; [done|]. cbn [map].
    change (Some name ∈ map Some (map fst (w :: ws))). apply list_elem_of_fmap. exists name. split; [done|].
    apply list_elem_of_fmap. exists (name, spec). split; [done|]. by apply list_elem_of_In.
  - destruct (v2_workflows config) as [|[n spec] [|w ws]] eqn:E; [| |done].
    + intros [= <-]. exists None. split; [set_solver|done].
    + intros [= <-]. exists (Some n). split; [cbn; set_solver|]. cbn. by rewrite String.eqb_refl.
Qed.

Lemma lower_parts_runs_on runs_on config workflow selected v st :
  lower_parts (set_runs_on runs_on config) workflow selected v st = lower_parts config workflow selected v st.
Proof. done. Qed.

Lemma accepted_plans (config config' : ConfigV2) (spent : spending) (workflow : option string)
    (chosen : option (string * WorkflowSpec)) (selected : option (list BuildPlatform)) :
  validate_v2 config = (Ok config', spent) -> within spent ->
  select_workflow config' workflow = Ok chosen ->
  valid_selection (workflow_targets config' chosen) selected ->
  exists p, plan config' workflow selected = Ok p.
Proof.
  unfold validate_v2. destruct (negb _); [done|]. destruct (size_errors config); [|done].
  destruct (shape_errors config); [|by intros [=]].
  destruct (check_workflows _ _ _ _ _) as [errors st] eqn:Ec. destruct errors; [|done].
  intros [= Hok ->] Hwithin Hsel Hvalid. inv_bind.
  apply check_workflows_ok in Ec as (_ & _ & Hall); [|done|done|done].
  change (select_workflow config workflow = Ok chosen) in Hsel.
  change (valid_selection (workflow_targets config chosen) selected) in Hvalid.
  destruct (select_known _ _ _ Hsel) as (known & Hin & Hk & Hsame).
  destruct (Hall known Hin) as (v & st0 & p0 & st1 & Hl & Hw1 & He & Hb).
  apply lower_run in Hl as (chosen' & pt & Hl & Hc' & _). rewrite Hk in Hc'. injection Hc' as <-.
  destruct (valid_selection_targets _ _ Hvalid) as (targets' & Hst & Hsub).
  destruct (lower_parts_again _ _ _ Hk selected v st0 pt st1 targets' Hl Hw1 He Hb Hst Hsub) as (pt' & st'' & Hr).
  rewrite Hsame in Hr. unfold plan, lower. rewrite lower_parts_runs_on, Hr. eauto.
Qed.

(** C12: A file that validation accepted within its budget plans: for every
    workflow it defines (or its top level, or its only workflow when none is
    named) and for every selection of distinct platforms that workflow
    builds, [plan] succeeds.  Planning resolves again, with a fresh budget and
    without checking the vars again, and never runs into an error that
    validation did not report. *)
Theorem validated_file_plans (config config' : ConfigV2) (spent : spending) (workflow : option string)
    (chosen : option (string * WorkflowSpec)) (selected : option (list BuildPlatform)) :
  validate_v2 config = (Ok config', spent) -> within spent ->
  select_workflow config' workflow = Ok chosen ->
  valid_selection (workflow_targets config' chosen) selected ->
  exists p, plan config' workflow selected = Ok p.
Proof. apply accepted_plans. Qed.
