(* ===== verification/PlanShape.v ===== *)
(** * What a plan holds

    The plan of a [version: 2] file, read off the file: which steps run, in
    which order and under which names, what their commands are once the
    references are substituted, which variables they see and which artifacts
    are kept ([ConfigV2::lower]). *)

From stdpp Require Import pretty.
From S2P Require Import Prelude RustStr Labels Sizes Patterns Triggers Stores Vars VarCosts PipelineFile FilePublish Lowering PlanRuns.
From Stdlib Require Import Ascii.

Local Open Scope Z_scope.

(** ** What clean runs give *)

Section Yields.
Context (vars : list (string * string)) (memory : FlavorPtr -> string).

(** The value of a run that ends without errors. *)
Definition yields {A} (P : A -> Prop) (m : L A) : Prop :=
  forall s a s', warm vars memory (lw_spent s) -> m s = (Ok a, s') -> lw_errors s' = [] -> P a.

Lemma yields_ret {A} (P : A -> Prop) a : P a -> yields P (ret a).
Proof. by intros HP s b s' _ [= <- _] _. Qed.

Lemma yields_bind {A B} (P : A -> Prop) (Q : B -> Prop) (m : L A) (k : A -> L B) :
  yields P m -> grows vars memory m -> (forall a, grows vars memory (k a)) ->
  (forall a, P a -> yields Q (k a)) -> yields Q (m ≫= k).
Proof.
  intros Hm Hg Hgk Hk s b s' Hw [(a & s1 & H1 & H2)|(e & _ & [=])]%bind_run He.
  destruct (Hg _ _ _ Hw H1) as (Hp & _). pose proof (p_warm _ _ _ _ Hp) as Hw1.
  destruct (Hgk a _ _ _ Hw1 H2) as (_ & He1 & _). eapply (Hk a); [|exact Hw1|exact H2|done].
  eapply Hm; [exact Hw|exact H1|by apply He1].
Qed.

Lemma yields_imp {A} (P Q : A -> Prop) m : yields P m -> (forall a, P a -> Q a) -> yields Q m.
Proof. intros Hm HPQ s a s' Hw Hr He. by eapply HPQ, Hm. Qed.

(** A loop: [I] relates what was done to what was collected. *)
Lemma yields_foldL {A B} (I : list A -> B -> Prop) (f : B -> A -> L B) l acc :
  (forall b a, a ∈ l -> grows vars memory (f b a)) ->
  (forall seen a b, a ∈ l -> I seen b -> yields (I (seen ++ [a])) (f b a)) ->
  forall seen, I seen acc -> yields (I (seen ++ l)) (foldL f l acc).
Proof.
  revert acc; induction l as [|x l IH]; intros acc Hg Hf seen HI; cbn.
  - rewrite app_nil_r. by apply yields_ret.
  - eapply yields_bind; [apply (Hf seen); [set_solver|done]|apply Hg; set_solver| |].
    + intros b. apply grows_foldL. intros. apply Hg. set_solver.
    + intros b Hb. replace (seen ++ x :: l) with ((seen ++ [x]) ++ l) by (by rewrite <- app_assoc).
      apply IH; [intros; apply Hg; set_solver|intros; apply Hf; [set_solver|done]|done].
Qed.

Lemma yields_append {A B} (Q : A -> B -> Prop) (f : list B -> A -> L (list B)) l :
  (forall b a, a ∈ l -> grows vars memory (f b a)) ->
  (forall a acc, a ∈ l -> yields (fun r => exists b, r = acc ++ [b] /\ Q a b) (f acc a)) ->
  yields (Forall2 Q l) (foldL f l []).
Proof.
  intros Hg Hf. apply (yields_foldL (fun seen r => Forall2 Q seen r) f l [] Hg) with (seen := []); [|done].
  intros seen a acc Ha HF. eapply yields_imp; [by apply Hf|]. intros r (b & -> & Hb). by apply Forall2_app; [|constructor].
Qed.

(** A reference that was resolved is its expansion. *)
Lemma yields_attempt t scope path :
  placed memory scope ->
  yields (fun r => exists s, r = Some s /\ expands vars scope t s) (attempt vars t scope path).
Proof.
  intros Hp s a s' Hw. unfold attempt, mbind, L_bind, ask.
  destruct (resolve vars t scope path (lw_spent s)) as [r st] eqn:E. destruct r as [x|e].
  - intros [= <- _] _. exists x. split; [done|].
    apply (resolve_from_charges vars memory) in E as (_ & Hx & _); done.
  - destruct (is_limit_error e); [done|]. cbn. intros [= _ <-] He. by apply add_unique_not_nil in He.
Qed.

(** ** Steps *)

(** A build step is its target's command for one flavor. *)
Definition is_build (job : EffectiveTarget * (option string * FlavorScope)) (step : PlanStep) : Prop :=
  let '(target, (flavor, scope)) := job in
  exists s, expands vars scope (et_build target) s /\
  step = {| ps_name := build_name (et_platform target) flavor; ps_phase := Build; ps_run := trim s;
            ps_source := et_build_source target; ps_platform := Some (et_platform target);
            ps_flavor := flavor; ps_test_report := None |}.

Lemma yields_builds jobs :
  (forall job, job ∈ jobs -> placed memory job.2.2) ->
  yields (Forall2 is_build jobs) (foldL (build_step vars) jobs []).
Proof.
  intros Hp. apply yields_append; [intros; apply grows_build_step; auto|].
  intros [target [flavor scope]] acc Hin. specialize (Hp _ Hin). cbn in Hp.
  eapply yields_bind; [by apply yields_attempt|by apply grows_attempt|intros; apply grows_ret|].
  intros r (s & -> & Hs). apply yields_ret. eexists. split; [done|]. by exists s.
Qed.

(** A step of the file, in its phase. *)
Definition is_own (phase : StepPhase) (own : InlineStep * string) (step : PlanStep) : Prop :=
  exists s, expands vars Outside (in_run own.1) s /\
  step = {| ps_name := trim (in_name own.1); ps_phase := phase; ps_run := trim s;
            ps_source := own.2 +:+ ".run"; ps_platform := None; ps_flavor := None;
            ps_test_report := trim <$> in_reports own.1 |}.

(** The steps entries name, with their sources. *)
Fixpoint own_steps (shared : list StepEntry) (path : string) (index : nat) (entries : list StepEntry)
    : list (InlineStep * string) :=
  match entries with
  | [] => []
  | e :: rest => to_list (step_of_entry shared path index e) ++ own_steps shared path (S index) rest
  end.

(** The entries before the first [build], and from it on. *)
Fixpoint split_build (entries : list StepEntry) : list StepEntry * list StepEntry :=
  match entries with
  | [] => ([], [])
  | BuildEntry :: _ => ([], entries)
  | e :: rest => let '(before, after) := split_build rest in (e :: before, after)
  end.

Definition step_phase (placed : bool) : StepPhase := if placed then PostBuild else PreBuild.

(** What placing the steps gives, when [taken] names are used already. *)
Definition is_placed (shared : list StepEntry) (path : string) (index : nat) (entries : list StepEntry)
    (taken : list string) (placed : bool) (builds steps : list PlanStep) : Prop :=
  exists own,
    match placed with
    | true => steps = own /\ Forall2 (is_own PostBuild) (own_steps shared path index entries) own
    | false =>
        exists before after, own = before ++ after /\ steps = before ++ builds ++ after
        /\ Forall2 (is_own PreBuild) (own_steps shared path index (split_build entries).1) before
        /\ Forall2 (is_own PostBuild)
             (own_steps shared path (index + length (split_build entries).1) (split_build entries).2) after
    end
    /\ NoDup (map ps_name own) /\ (forall name, name ∈ map ps_name own -> name ∉ taken).

Lemma is_own_name phase own step : is_own phase own step -> ps_name step = trim (in_name own.1).
Proof. by intros (s & _ & ->). Qed.

Lemma names_cons own taken n (step : PlanStep) :
  NoDup (map ps_name own) -> (forall name, name ∈ map ps_name own -> name ∉ n :: taken) -> ps_name step = n ->
  existsb (String.eqb n) taken = false ->
  NoDup (map ps_name (step :: own)) /\ (forall name, name ∈ map ps_name (step :: own) -> name ∉ taken).
Proof.
  intros Hnd Hdis <- He. rewrite existsb_eqb in He. apply bool_decide_eq_false in He. cbn. split.
  - apply NoDup_cons. split; [|done]. intros Hin. specialize (Hdis _ Hin). set_solver.
  - intros name [->|Hin]%elem_of_cons; [done|]. specialize (Hdis _ Hin). set_solver.
Qed.

Lemma yields_place_step path bn index taken ph step source rest (P Q : list PlanStep -> Prop) :
  (forall l, grows vars memory (rest l)) ->
  (existsb (String.eqb (trim (in_name step))) taken = false ->
   yields P (rest (trim (in_name step) :: taken))) ->
  (forall own s tail, existsb (String.eqb (trim (in_name step))) taken = false ->
   is_own (step_phase ph) (step, source) own -> s = own :: tail -> P tail -> Q s) ->
  yields Q (place_step vars path bn index taken ph step source rest).
Proof.
  intros Hg Hrest HQ. unfold place_step. cbv zeta. destruct (existsb _ taken) eqn:Et.
  - intros s a s' Hw [(u & s1 & H1 & H2)|(e & _ & [=])]%bind_run He. injection H1 as _ <-.
    eapply Hg in H2 as (_ & He1 & _); [|exact Hw]. by apply He1, add_unique_not_nil in He.
  - eapply yields_bind; [by apply yields_attempt|by apply grows_attempt| |].
    { intros run. apply grows_bind; [apply Hg|]. intros tail. apply grows_ret. }
    intros run (x & -> & Hx). eapply yields_bind; [by apply Hrest|apply Hg|intros; apply grows_ret|].
    intros tail HP. apply yields_ret. eapply HQ; [done| |done|done]. by exists x.
Qed.

Lemma is_placed_none shared path index e entries taken ph builds steps :
  e <> BuildEntry -> step_of_entry shared path index e = None ->
  is_placed shared path (S index) entries taken ph builds steps ->
  is_placed shared path index (e :: entries) taken ph builds steps.
Proof.
  intros He Hnone (own & Hown & Hnd & Hdis). exists own. split; [|done]. destruct ph.
  - cbn [own_steps]. by rewrite Hnone.
  - destruct Hown as (before & after & -> & -> & Hb & Ha). exists before, after. split; [done|]. split; [done|].
    destruct e as [| |]; [done|..]; cbn [split_build]; destruct (split_build entries) as [x y];
      cbn [fst snd own_steps length] in *; rewrite Hnone, Nat.add_succ_r; done.
Qed.

Lemma is_placed_some shared path index e entries taken ph builds step source own tail :
  e <> BuildEntry -> step_of_entry shared path index e = Some (step, source) ->
  existsb (String.eqb (trim (in_name step))) taken = false ->
  is_own (step_phase ph) (step, source) own ->
  is_placed shared path (S index) entries (trim (in_name step) :: taken) ph builds tail ->
  is_placed shared path index (e :: entries) taken ph builds (own :: tail).
Proof.
  intros He Hsome Ht Hown (rest & Hrest & Hnd & Hdis). exists (own :: rest).
  pose proof (is_own_name _ _ _ Hown) as Hname. cbn [fst] in Hname.
  destruct (names_cons rest taken _ own Hnd Hdis Hname Ht) as [Hnd' Hdis']. split; [|done]. destruct ph.
  - destruct Hrest as [-> HF]. split; [done|]. cbn [own_steps]. rewrite Hsome. by constructor.
  - destruct Hrest as (before & after & -> & -> & Hb & Ha). exists (own :: before), after.
    split; [done|]. split; [done|].
    destruct e as [| |]; [done|..]; cbn [split_build]; destruct (split_build entries) as [x y];
      cbn [fst snd own_steps length] in *; rewrite Hsome, Nat.add_succ_r; (split; [by constructor|done]).
Qed.

Lemma yields_place_steps shared path bn index entries taken ph builds :
  (ph = true -> builds = []) ->
  yields (is_placed shared path index entries taken ph builds)
    (place_steps vars shared path bn index entries taken ph builds).
Proof.
  revert index taken ph builds; induction entries as [|e entries IH]; intros index taken ph builds Hb; cbn [place_steps].
  { apply yields_ret. exists []. split; [|split; [apply NoDup_nil_2|set_solver]]. destruct ph; cbn.
    - split; [done|constructor].
    - exists [], []. cbn. rewrite app_nil_r. split_and!; [done|done|constructor|constructor]. }
  assert (Hother : e <> BuildEntry ->
    yields (is_placed shared path index (e :: entries) taken ph builds)
      (match step_of_entry shared path index e with
       | None => place_steps vars shared path bn (S index) entries taken ph builds
       | Some (step, source) => place_step vars path bn index taken ph step source
           (fun names => place_steps vars shared path bn (S index) entries names ph builds)
       end)).
  { intros He. destruct (step_of_entry shared path index e) as [[step source]|] eqn:Es.
    - eapply yields_place_step; [intros; apply grows_place_steps|intros _; by apply IH|].
      intros own s tail Ht Hown -> HP. by eapply is_placed_some.
    - eapply yields_imp; [by apply IH|]. intros steps. by apply is_placed_none. }
  destruct e as [|name|step]; [|by apply Hother..].
  eapply yields_bind; [by apply IH|apply grows_place_steps|intros; apply grows_ret|].
  intros tail (own & [-> HF] & Hnd & Hdis). apply yields_ret. exists own. split; [|done]. destruct ph.
  - rewrite Hb by done. done.
  - exists [], own. cbn. by rewrite Nat.add_0_r.
Qed.

(** ** Env and artifacts *)

Definition is_env (e : entry) (v : PipelineEnvVar) : Prop :=
  let '(key, value, _) := e in
  exists s, expands vars Outside value s /\ v = {| ev_key := trim key; ev_value := trim s |}.

Lemma yields_env entries : yields (Forall2 is_env entries) (foldL (resolve_env vars) entries []).
Proof.
  apply yields_append; [intros; apply grows_resolve_env|]. intros [[key value] path] acc _.
  eapply yields_bind; [by apply yields_attempt|by apply grows_attempt|intros; apply grows_ret|].
  intros r (s & -> & Hs). apply yields_ret. eexists. split; [done|]. by exists s.
Qed.

(** The patterns are those of the jobs, once each, and valid. *)
Record are_patterns (jobs : list (string * string * FlavorScope)) (patterns : list string) : Prop := {
  ap_nodup : NoDup patterns;
  ap_valid : Forall (fun p => Paths.validate_artifact_pattern p = Ok tt /\ contains "${{" p = false) patterns;
  ap_jobs : forall p, p ∈ patterns <->
    exists job s, job ∈ jobs /\ expands vars job.2 job.1.1 s /\ p = trim s;
}.

Lemma yields_patterns jobs :
  (forall job, job ∈ jobs -> placed memory job.2) ->
  yields (are_patterns jobs) (foldL (resolve_pattern vars) jobs []).
Proof.
  intros Hp. apply (yields_foldL are_patterns) with (seen := []).
  { intros b job Hjob. apply grows_resolve_pattern. auto. }
  2:{ split; [apply NoDup_nil_2|done|]. intros p. split; [set_solver|]. intros (job & s & Hj & _). set_solver. }
  intros seen [[pattern path] scope] patterns Hin [Hnd Hval Hjobs]. specialize (Hp _ Hin). cbn in Hp.
  assert (Hpush : forall e, yields (are_patterns (seen ++ [(pattern, path, scope)])) (push_unique e ;; ret patterns)).
  { intros e s a s' _ [= _ <-] He. by apply add_unique_not_nil in He. }
  eapply yields_bind; [by apply yields_attempt|by apply grows_attempt| |].
  { intros [r|]; [|apply grows_ret]. cbv zeta. destruct (contains _ _); [solve_grows; apply grows_push|].
    destruct (Paths.validate_artifact_pattern _); [apply grows_ret|solve_grows; apply grows_push]. }
  intros r (s & -> & Hs). cbv zeta. destruct (contains "${{" (trim s)) eqn:Ec; [apply Hpush|].
  destruct (Paths.validate_artifact_pattern (trim s)) as [[]|e] eqn:Ev; [|apply Hpush]. apply yields_ret.
  assert (Hnew : forall l : list string, (forall p, p ∈ l <-> p ∈ patterns \/ p = trim s) ->
    forall p, p ∈ l <-> exists job x, job ∈ seen ++ [(pattern, path, scope)] /\ expands vars job.2 job.1.1 x /\ p = trim x).
  { intros l Hl p. rewrite Hl, Hjobs. split.
    - intros [(job & x & Hj & Hx)| ->]; [exists job, x; set_solver|].
      exists (pattern, path, scope), s. split_and!; [set_solver|done|done].
    - intros (job & x & [Hj|Hj%list_elem_of_singleton]%elem_of_app & Hx & ->); [left; eauto|right].
      subst job. cbn in Hx. by rewrite (expands_det _ _ _ _ _ Hx Hs). }
  rewrite existsb_eqb. case_bool_decide as Hmem.
  - split; [done|done|]. apply Hnew. set_solver.
  - split.
    + apply NoDup_app. split_and!; [done|set_solver|apply NoDup_singleton].
    + apply Forall_app. split; [done|]. by repeat constructor.
    + apply Hnew. set_solver.
Qed.
End Yields.

(** ** The plan of a workflow *)

Section Plan.
Context (config : ConfigV2) (chosen : option (string * WorkflowSpec)).

Definition plan_vars : list (string * string) := bindings (workflow_vars config chosen).
Definition plan_flavors : list string := built_flavors config (snd <$> chosen).

(** The entries that are placed, and where they are written. *)
Definition plan_entries : list StepEntry * string :=
  match (snd <$> chosen) ≫= wf_steps with
  | Some steps => (steps, workflow_prefix chosen +:+ "steps")
  | None => (default [] (v2_steps config), "steps"%string)
  end.

(** [p] is the plan of the targets [targets]. *)
Record plan_of (targets : list EffectiveTarget) (p : PipelinePlan) : Prop := {
  po_workflow : plan_workflow p = fst <$> chosen;
  po_platforms : plan_platforms p = map et_platform targets;
  po_steps : exists builds,
    Forall2 (is_build plan_vars) (build_jobs targets plan_flavors) builds
    /\ is_placed plan_vars (default [] (v2_steps config)) plan_entries.2 0 plan_entries.1
         (map ps_name builds) false builds (plan_steps p);
  po_env : Forall2 (is_env plan_vars)
    (merge_entries "env" (workflow_prefix chosen) (v2_env config) (wf_env <$> (snd <$> chosen))) (plan_env p);
  po_patterns : are_patterns plan_vars (pattern_jobs targets plan_flavors) (plan_artifact_patterns p);
  po_budgets : plan_size_budgets p = omap target_budget targets;
  po_signing : plan_signing p = overlaid (v2_signing config) ((snd <$> chosen) ≫= wf_signing);
}.

Lemma yields_body targets :
  yields plan_vars (flavor_memory plan_flavors)
    (fun pt => plan_of targets (assemble config chosen pt))
    (lower_body config (workflow_prefix chosen) (snd <$> chosen) plan_vars targets).
Proof.
  unfold lower_body. cbv zeta. fold (built_flavors config (snd <$> chosen)). fold plan_flavors. fold plan_entries.
  destruct plan_entries as [entries path] eqn:Ee.
  assert (Hbp : forall job, job ∈ build_jobs targets plan_flavors -> placed (flavor_memory plan_flavors) job.2.2)
    by (intros; by eapply build_jobs_placed).
  assert (Hpp : forall job, job ∈ pattern_jobs targets plan_flavors -> placed (flavor_memory plan_flavors) job.2)
    by (intros; by eapply pattern_jobs_placed).
  eapply (yields_bind _ _ (fun _ => True)); [done|solve_grows|intros; solve_grows|]. intros publish _.
  eapply yields_bind; [by apply yields_builds|solve_grows|intros; solve_grows|]. intros builds Hbuilds.
  eapply yields_bind; [by apply yields_place_steps|solve_grows|intros; solve_grows|]. intros steps Hsteps.
  eapply yields_bind; [apply yields_env|solve_grows|intros; solve_grows|]. intros env Henv.
  eapply yields_bind; [by apply yields_patterns|solve_grows|intros; solve_grows|]. intros patterns Hpatterns.
  apply yields_ret. split; cbn; try done. exists builds. by rewrite Ee.
Qed.

(** *** Names *)

Lemma build_name_inj p f q g : build_name p (Some f) = build_name q (Some g) -> p = q /\ f = g.
Proof.
  intros H. assert (Hp : p = q) by (destruct p, q; done). subst q. split; [done|].
  unfold build_name in H. rewrite <- !append_assoc in H.
  apply (f_equal bytes) in H. rewrite !bytes_app in H. apply app_inv_tail, app_inv_head in H. by apply bytes_inj.
Qed.

Lemma build_jobs_names targets flavors builds :
  Forall2 (is_build plan_vars) (build_jobs targets flavors) builds ->
  map ps_name builds = map (fun job => build_name (et_platform job.1) job.2.1) (build_jobs targets flavors).
Proof.
  induction 1 as [|[target [flavor scope]] step jobs steps (s & _ & ->) _ IH]; cbn; [done|]. by rewrite IH.
Qed.

Lemma jobs_nodup targets flavors :
  NoDup (map et_platform targets) -> NoDup flavors ->
  NoDup (map (fun job => build_name (et_platform job.1) job.2.1) (build_jobs targets flavors)).
Proof.
  intros Hp Hf. induction targets as [|target targets IH]; [apply NoDup_nil_2|].
  cbn in Hp. apply NoDup_cons in Hp as [Hnot Hp]. unfold build_jobs in *. cbn. rewrite map_app.
  apply NoDup_app. split_and!; [| |by apply IH].
  - rewrite map_map. cbn. unfold flavor_scopes. destruct flavors as [|f fs]; [apply NoDup_singleton|].
    revert Hf. generalize (f :: fs). intros l Hf.
    assert (Hmap : map (fun x : option string * FlavorScope => build_name (et_platform target) x.1)
      (imap (fun i flavor => (Some flavor, Value (FlavorEntry i) flavor)) l)
      = map (fun flavor => build_name (et_platform target) (Some flavor)) l).
    { apply list_eq. intros i. rewrite !list_lookup_fmap, list_lookup_imap. by destruct (l !! i). }
    rewrite Hmap. apply NoDup_fmap_2_strong; [|done]. intros x y _ _ H. by apply build_name_inj in H as [_ ->].
  - intros n Hn Hn'. apply list_elem_of_fmap in Hn as ([t1 [f1 s1]] & -> & H1).
    apply list_elem_of_fmap in Hn' as ([t2 [f2 s2]] & Heq & H2). cbn in Heq.
    apply list_elem_of_fmap in H1 as ([f1' s1'] & [= -> -> ->] & H1).
    apply list_elem_of_In, in_concat in H2 as (l & Hl & H2). apply in_map_iff in Hl as (t & <- & Ht).
    apply in_map_iff in H2 as ([f2' s2'] & [= -> -> ->] & H2). apply list_elem_of_In in H2.
    assert (Hpl : et_platform target = et_platform t2).
    { assert (Hsame : is_Some f1' <-> is_Some f2).
      { unfold flavor_scopes in H1, H2. destruct flavors as [|f fs].
        - apply list_elem_of_singleton in H1, H2. by simplify_eq.
        - apply list_elem_of_lookup in H1 as [i1 H1]. apply list_elem_of_lookup in H2 as [i2 H2].
          rewrite list_lookup_imap in H1, H2. apply fmap_Some in H1 as (? & _ & [= -> _]).
          apply fmap_Some in H2 as (? & _ & [= -> _]). split; eauto. }
      destruct f1' as [x|], f2 as [y|]; [by apply build_name_inj in Heq as [-> _]|..].
      - destruct (proj1 Hsame); [eauto|done].
      - destruct (proj2 Hsame); [eauto|done].
      - by destruct (et_platform target), (et_platform t2). }
    apply Hnot. rewrite Hpl. apply list_elem_of_fmap. exists t2. split; [done|]. by apply list_elem_of_In.
Qed.

Lemma plan_of_names targets p :
  NoDup (map et_platform targets) -> NoDup plan_flavors -> plan_of targets p ->
  NoDup (map ps_name (plan_steps p)).
Proof.
  intros Hp Hf [_ _ (builds & Hb & own & Hown & Hnd & Hdis) _ _ _ _].
  destruct Hown as (before & after & -> & -> & _ & _).
  pose proof (jobs_nodup targets plan_flavors Hp Hf) as Hjobs. rewrite <- (build_jobs_names _ _ _ Hb) in Hjobs.
  rewrite map_app in Hnd, Hdis. rewrite !map_app.
  apply NoDup_app in Hnd as (Hnb & Hba & Hna). apply NoDup_app. split_and!; [done| |].
  - intros n Hn [Hn'|Hn']%elem_of_app; [|by apply (Hba n)]. apply (Hdis n); set_solver.
  - apply NoDup_app. split_and!; [done| |done]. intros n Hn Hn'. apply (Hdis n); set_solver.
Qed.
End Plan.

Lemma plan_parts config workflow selected p :
  plan config workflow selected = Ok p ->
  exists chosen targets, select_workflow config workflow = Ok chosen
  /\ select_targets (workflow_targets config chosen) selected = (targets, [])
  /\ plan_of config chosen targets p.
Proof.
  unfold plan. destruct (lower config workflow selected false no_spending) as [r st] eqn:E.
  destruct r as [p0|]; cbn; [|done]. intros [= ->].
  apply lower_run in E as (chosen & pt & Hl & Hsel & ->). exists chosen.
  apply (lower_parts_run config workflow chosen Hsel) in Hl as (errors & st1 & Hc & H).
  destruct errors; [|by destruct H as [[=] _]]. destruct H as (targets & es & rb & s & Ht & Hb & -> & Hr).
  destruct rb as [pt'|]; [|done]. destruct (lw_errors s) eqn:Hes; [|done]. injection Hr as ->.
  apply checked_paid in Hc as Hp. pose proof (p_warm _ _ _ _ Hp) as Hw.
  exists targets. split; [done|]. assert (es = []) as ->.
  { eapply (grows_body config) in Hb as (_ & Hn & _); [|exact Hw]. specialize (Hn Hes). cbn in Hn.
    by apply app_eq_nil in Hn as [_ ->]. }
  split; [done|]. eapply (yields_body config chosen targets); [|exact Hb|done]. exact Hw.
Qed.

(** C16: The plan of a workflow is read off the file.  It builds the selected
    targets; its steps are the file's steps before [build], one build step per
    target and flavor, and the file's steps after [build], in this order and
    each in its phase; every command and every variable is what its text
    expands to, trimmed; the artifact patterns are the expansions of the
    targets' patterns, each once and each valid, without a secret reference;
    and when the targets and flavors of the file are distinct no two steps of
    the plan share a name. *)
Theorem plan_holds (config : ConfigV2) (workflow : option string) (selected : option (list BuildPlatform))
    (p : PipelinePlan) :
  plan config workflow selected = Ok p ->
  exists chosen targets, select_workflow config workflow = Ok chosen
  /\ select_targets (workflow_targets config chosen) selected = (targets, [])
  /\ plan_of config chosen targets p
  /\ (NoDup (map et_platform targets) -> NoDup (plan_flavors config chosen) ->
      NoDup (map ps_name (plan_steps p))).
Proof.
  intros (chosen & targets & Hsel & Ht & Hp)%plan_parts. exists chosen, targets.
  split_and!; try done. intros H1 H2. by eapply plan_of_names.
Qed.
