(* ===== verification/FileSample.v ===== *)
(** * A pipeline file

    A [version: 2] file with two targets, two flavors, vars and two workflows,
    on which the theorems about validation and planning are tried, and small
    files that show where comments of
    [crates/oore-contract/src/pipeline_config.rs] promise more than its code
    does. *)

From stdpp Require Import pretty.
From S2P Require Import Prelude RustStr Labels Sizes Patterns Triggers Stores Vars VarCosts PipelineFile FilePublish Lowering PlanRuns PlanShape.

Local Open Scope Z_scope.
Local Open Scope string_scope.

Definition android_target : TargetSpec :=
  {| ts_build := Some "flutter build apk --flavor ${{ flavor }} ${{ vars.ARGS }}";
     ts_artifacts := Some ["build/app/outputs/**/*.apk"]; ts_publish := None; ts_budgets := None |}.
Definition ios_target : TargetSpec :=
  {| ts_build := Some "flutter build ipa --flavor ${{ flavor }}"; ts_artifacts := None;
     ts_publish := None; ts_budgets := None |}.

Definition quick_workflow : WorkflowSpec :=
  {| wf_on := None; wf_targets := Some [(Android, android_target)]; wf_flavors := Some ["dev"];
     wf_steps := None; wf_env := [("MODE", "quick ${{ vars.ARGS }}")]; wf_vars := []; wf_signing := None |}.
Definition full_workflow : WorkflowSpec :=
  {| wf_on := None; wf_targets := None; wf_flavors := None; wf_steps := None; wf_env := [];
     wf_vars := [("ARGS", "--release --dart-define=KEY=${{ secrets.API_KEY }}")]; wf_signing := None |}.

Definition sample_file : ConfigV2 :=
  {| v2_version := 2; v2_name := Some "app";
     v2_app := {| app_flutter := Some "3.24.0"; app_flavors := ["dev"; "prod"] |};
     v2_targets := [(Android, android_target); (Ios, ios_target)];
     v2_steps := Some [InlineEntry {| in_name := "Test"; in_run := "flutter test"; in_reports := None |};
                       BuildEntry;
                       InlineEntry {| in_name := "Done"; in_run := "echo ${{ vars.ARGS }}"; in_reports := None |}];
     v2_env := []; v2_vars := [("ARGS", "--debug")]; v2_on := None;
     v2_workflows := [("quick", quick_workflow); ("full", full_workflow)];
     v2_signing := no_signing; v2_runs_on := []; v2_isolation := Host; v2_build_number_offset := 0 |}.


(** The file is accepted within its budget, so it plans: here the workflow
    [full] on Android alone. *)
Lemma validated_file_plans_witness :
  exists p, plan sample_file (Some "full") (Some [Android]) = Ok p /\ length (plan_steps p) = 4%nat.
Proof.
  destruct (validated_file_plans sample_file sample_file (snd (validate_v2 sample_file)) (Some "full")
              (Some ("full", full_workflow)) (Some [Android])) as [p Hp].
  - vm_compute. reflexivity.
  - split; vm_compute; discriminate.
  - reflexivity.
  - cbn. split_and!; [discriminate|apply NoDup_singleton|set_solver].
  - exists p. split; [exact Hp|]. vm_compute in Hp. injection Hp as <-. reflexivity.
Defined.

(** Its plan, and the distinct names of its four steps. *)
Lemma plan_holds_witness :
  exists p chosen targets, plan sample_file (Some "full") (Some [Android]) = Ok p
  /\ plan_of sample_file chosen targets p
  /\ map ps_name (plan_steps p) = ["Test"; "Build Android (dev)"; "Build Android (prod)"; "Done"]
  /\ NoDup (map ps_name (plan_steps p)).
Proof.
  destruct (plan sample_file (Some "full") (Some [Android])) as [p|] eqn:E; [|vm_compute in E; discriminate].
  destruct (plan_holds sample_file (Some "full") (Some [Android]) p E) as (chosen & targets & Hc & Ht & Hp & Hn).
  exists p, chosen, targets. split_and!; [reflexivity|exact Hp| |].
  - vm_compute in E. injection E as <-. reflexivity.
  - vm_compute in Hc. injection Hc as <-. vm_compute in Ht. injection Ht as <-. apply Hn.
    + apply NoDup_singleton.
    + apply (bool_decide_unpack _). vm_compute. exact I.
Defined.

(** ** Where comments and code part *)

(** Substitution can write a reference: what is left after resolving is not
    only secret references. *)
Example substitution_writes_reference :
  fst (resolve [("A", "{{ flavor }}")] "$${{ vars.A }}" Outside "targets.android.artifacts[0]" no_spending)
  = Ok "${{ flavor }}".
Proof. reflexivity. Qed.

(** A file whose first workflow replaces a var that cannot be resolved: the
    other workflow keeps the var, and the file is accepted. *)
Definition hides_bad_var : ConfigV2 :=
  {| v2_version := 2; v2_name := None; v2_app := {| app_flutter := None; app_flavors := [] |};
     v2_targets := [(Android, {| ts_build := Some "flutter build apk"; ts_artifacts := None;
                                 ts_publish := None; ts_budgets := None |})];
     v2_steps := None; v2_env := []; v2_vars := [("A", "${{ vars.NOPE }}")]; v2_on := None;
     v2_workflows :=
       [("one", {| wf_on := None; wf_targets := None; wf_flavors := None; wf_steps := None; wf_env := [];
                   wf_vars := [("A", "ok")]; wf_signing := None |});
        ("two", {| wf_on := None; wf_targets := None; wf_flavors := None; wf_steps := None; wf_env := [];
                   wf_vars := []; wf_signing := None |})];
     v2_signing := no_signing; v2_runs_on := []; v2_isolation := Host; v2_build_number_offset := 0 |}.

Example bad_var_accepted :
  fst (validate_v2 hides_bad_var) = Ok hides_bad_var
  /\ unexpandable (v2_vars hides_bad_var) Outside "${{ vars.A }}".
Proof.
  split; [vm_compute; reflexivity|]. intros [|[|[|n]]]; reflexivity.
Qed.

(** The upload of a file; a track name that ends like a limit's report stops
    the whole plan, not only the publish step. *)
Definition uploads_to (track service_account : string) : ConfigV2 :=
  {| v2_version := 2; v2_name := None; v2_app := {| app_flutter := None; app_flavors := [] |};
     v2_targets :=
       [(Android, {| ts_build := Some "flutter build appbundle"; ts_artifacts := None;
                     ts_publish := Some (PublishOn
                       {| sp_play := Some {| pp_track := track; pp_rollout := None; pp_draft := None;
                                             pp_service_account := Some service_account |};
                          sp_testflight := None; sp_app_store := None |});
                     ts_budgets := None |})];
     v2_steps := None; v2_env := []; v2_vars := []; v2_on := None; v2_workflows := [];
     v2_signing := no_signing; v2_runs_on := []; v2_isolation := Host; v2_build_number_offset := 0 |}.

Definition play_of (config : ConfigV2) : result string (option (PlannedPublish PlayPublishSpec)) :=
  match plan config None None with Ok p => Ok (play (plan_publish p)) | Err e => Err e end.

Example track_error_stops_plan :
  (exists planned, play_of (uploads_to "a/b" "PLAY_KEY") = Ok (Some planned) /\ is_Some (pl_error planned))
  /\ (exists e, play_of (uploads_to "a/b in this file" "PLAY_KEY") = Err e).
Proof. split; eexists; [split; [vm_compute; reflexivity|eexists; reflexivity]|vm_compute; reflexivity]. Qed.

(** The secret's name is checked without its spaces and used with them. *)
Example untrimmed_service_account :
  fst (validate_v2 (uploads_to "internal" " PLAY_KEY ")) = Ok (uploads_to "internal" " PLAY_KEY ")
  /\ exists c, ep_google_play (apply (fun _ => "")
       (match plan (uploads_to "internal" " PLAY_KEY ") None None with Ok p => plan_publish p | Err _ => no_publish end)
       no_settings) = Ok (Some c)
     /\ gp_service_account_secret c = " PLAY_KEY ".
Proof. split; [vm_compute; reflexivity|]. eexists. vm_compute. split; reflexivity. Qed.
