(* ===== verification/RunnerSecrets.v ===== *)
(** * Secrets on the runner

    How the runner ([crates/oore-runner/src/lib.rs]) keeps the secrets of a
    build apart from everything it writes down: [apply_secret_references]
    resolves [${{ secrets.NAME }}] into the environment of the steps and never
    into a command, [SecretMasker] takes the values out of every line of the
    log and out of the build's error, the previews of commands and environment
    hide what looks sensitive, and the file of dart defines holds no secret. *)

From stdpp Require Import pretty.
From S2P Require Import Prelude RustStr Labels Sizes Triggers Stores Vars PipelineFile FilePublish Lowering.
From Stdlib Require Import Ascii.

Local Open Scope Z_scope.

(** ** The resolved plan *)

(** [struct ResolvedExecutionPlan]. *)
Record ResolvedExecutionPlan := {
  rx_steps : list PlanStep;
  rx_artifact_patterns : list string;
  rx_env : list PipelineEnvVar;
  rx_secret_env : list (string * string);
  rx_secret_env_keys : list string;
  rx_build_number_offset : Z;
  rx_isolation : BuildIsolation;
  rx_needs_xcode : bool;
  rx_flutter_version : string;
  rx_source : string;
  rx_publish : PlanPublish;
  rx_size_budgets : list TargetSizeBudget;
  rx_platforms : list BuildPlatform;
}.

Definition with_secrets (steps : list PlanStep) (env : list PipelineEnvVar)
    (secret_env : list (string * string)) (secret_env_keys : list string) (plan : ResolvedExecutionPlan)
    : ResolvedExecutionPlan :=
  {| rx_steps := steps; rx_artifact_patterns := rx_artifact_patterns plan; rx_env := env;
     rx_secret_env := secret_env; rx_secret_env_keys := secret_env_keys;
     rx_build_number_offset := rx_build_number_offset plan; rx_isolation := rx_isolation plan;
     rx_needs_xcode := rx_needs_xcode plan; rx_flutter_version := rx_flutter_version plan;
     rx_source := rx_source plan; rx_publish := rx_publish plan; rx_size_budgets := rx_size_budgets plan;
     rx_platforms := rx_platforms plan |}.

(** ** References to secrets *)

(** [secret_env_var]. *)
Definition secret_env_var (name : string) : string := "OORE_SECRET_" +:+ name.

(** [lookup_secret]. *)
Definition lookup_secret (secrets : gmap string string) (name path : string) : result string string :=
  match secrets !! name with
  | Some value => Ok value
  | None => Err (path +:+ " references secret '" +:+ name
                 +:+ "', which is not defined for this pipeline, its project or the instance")
  end.

Definition at_path {A} (path : string) (r : result string A) : result string A :=
  map_err (fun e => path +:+ " " +:+ e) r.

(** The names of a text's references, in order. *)
Definition reference_names (t : string) : list string :=
  match parse_secret_references t with Ok references => map snd references | Err _ => [] end.

(** The error of the first name that has no secret. *)
Definition check_name (secrets : gmap string string) (path : string) (r : result string unit) (name : string)
    : result string unit :=
  _ ← r; _ ← lookup_secret secrets name path; Ok tt.
Definition check_names (secrets : gmap string string) (path : string) (names : list string)
    : result string unit :=
  fold_left (check_name secrets path) names (Ok tt).

(** One turn of the loop over the environment; the flag is whether a secret
    changed the value. *)
Definition resolve_pair (secrets : gmap string string) (index : nat) (pair : PipelineEnvVar)
    : result string (PipelineEnvVar * bool) :=
  let path := "env[" +:+ pretty index +:+ "].value" in
  resolved ← at_path path
    (replace_secret_references (ev_value pair) (fun name => default "" (secrets !! name)));
  _ ← check_names secrets path (reference_names (ev_value pair));
  if String.eqb resolved (ev_value pair) then Ok (pair, false)
  else Ok ({| ev_key := ev_key pair; ev_value := resolved |}, true).

Definition secret_reference (name : string) : string := "${" +:+ secret_env_var name +:+ "}".

Definition with_run (run : string) (step : PlanStep) : PlanStep :=
  {| ps_name := ps_name step; ps_phase := ps_phase step; ps_run := run; ps_source := ps_source step;
     ps_platform := ps_platform step; ps_flavor := ps_flavor step; ps_test_report := ps_test_report step |}.

(** One turn of the loop over the steps, with the names it refers to. *)
Definition resolve_step (secrets : gmap string string) (step : PlanStep)
    : result string (PlanStep * list string) :=
  run ← at_path (ps_source step) (replace_secret_references (ps_run step) secret_reference);
  _ ← check_names secrets (ps_source step) (reference_names (ps_run step));
  Ok (with_run run step, reference_names (ps_run step)).

(** [apply_secret_references]; a [BTreeSet] is read in order. *)
Definition apply_secret_references (plan : ResolvedExecutionPlan) (secrets : gmap string string)
    : result string ResolvedExecutionPlan :=
  env ← collect (imap (resolve_pair secrets) (rx_env plan));
  steps ← collect (map (resolve_step secrets) (rx_steps plan));
  let referenced := dedup (sort (concat (map snd steps))) in
  let changed := map (fun p => ev_key p.1) (List.filter snd env) in
  Ok (with_secrets (map fst steps) (map fst env)
        (map (fun name => (secret_env_var name, default "" (secrets !! name))) referenced)
        (rx_secret_env_keys plan ++ changed) plan).

(** ** The masker *)

Definition stars : string := "***".

Definition line_feed : ascii := byte_of 10.

(** What one value adds to the patterns of [SecretMasker::new]: itself, and
    the longer lines of a value of several lines.  [lines] also takes a
    carriage return off and drops a last empty line, which the trimming and
    the length make no difference to. *)
Definition value_patterns (value : string) : list string :=
  if is_empty value then []
  else value :: (if contains_char line_feed value then
                   List.filter (fun line => 8 <=? str_len line) (map trim (split_char line_feed value))
                 else []).

(** [sort_by_key] on the length, the longest first; it is stable. *)
Fixpoint insert_longest (p : string) (l : list string) : list string :=
  match l with
  | [] => [p]
  | x :: rest => if str_len x <? str_len p then p :: l else x :: insert_longest p rest
  end.

(** [SecretMasker::new]: the patterns. *)
Definition masker (values : list string) : list string :=
  fold_left (fun l p => insert_longest p l) (dedup (sort (concat (map value_patterns values)))) [].

(** [SecretMasker::mask]. *)
Definition mask (patterns : list string) (t : string) : string :=
  fold_left (fun masked p => if contains p masked then str_replace p stars masked else masked) patterns t.

(** ** Previews *)

Definition byte_to_upper (c : ascii) : ascii :=
  if is_ascii_lowercase c then byte_of (N_of_ascii c - 32) else c.
Definition to_ascii_uppercase (s : string) : string := text (map byte_to_upper (bytes s)).

(** [is_sensitive_env_key]. *)
Definition sensitive_words : list string :=
  ["SECRET"; "TOKEN"; "PASSWORD"; "CREDENTIAL"; "PRIVATE"; "AUTH"; "P12"; "PROVISION"; "KEYCHAIN"]%string.
Definition is_sensitive_env_key (key : string) : bool :=
  existsb (fun word => contains word (to_ascii_uppercase key)) sensitive_words.

(** [preview_env_value]. *)
Definition preview_env_value (key value : string) : string :=
  if is_sensitive_env_key key then if is_empty value then "" else stars else value.

#[global] Arguments is_sensitive_env_key : simpl never.
#[global] Arguments preview_env_value : simpl never.

(** [render_step_env_preview]. *)
Definition preview_part (pair : string * string) : string := pair.1 +:+ "=" +:+ preview_env_value pair.1 pair.2.
Definition render_step_env_preview (env : list (string * string)) : string :=
  match env with
  | [] => "# env: (none)"
  | _ =>
      let parts := map preview_part (take 20 env) in
      let more := if (20 <? length env)%nat
                  then ["...(+" +:+ pretty (length env - 20)%nat +:+ " more)"] else [] in
      "# env: " +:+ join " " (parts ++ more)
  end.

(** A shell name: its bytes, and the rest. *)
Definition is_name_start (c : ascii) : bool := Ascii.eqb c "_" || is_ascii_alphabetic c.
Definition is_name_byte (c : ascii) : bool := Ascii.eqb c "_" || is_ascii_alphanumeric c.

Fixpoint span (p : ascii -> bool) (l : list ascii) : list ascii * list ascii :=
  match l with
  | c :: rest => if p c then let '(a, b) := span p rest in (c :: a, b) else ([], l)
  | [] => ([], [])
  end.

(** [normalize_legacy_env_syntax]: [$($NAME)] is [$NAME].  Every turn takes
    at least a byte. *)
Definition legacy_name (l : list ascii) : option (list ascii * list ascii) :=
  match l with
  | d :: o :: e :: c :: rest =>
      if Ascii.eqb d "$" && Ascii.eqb o "(" && Ascii.eqb e "$" && is_name_start c then
        match span is_name_byte rest with
        | (name, k :: tail) => if Ascii.eqb k ")" then Some (c :: name, tail) else None
        | _ => None
        end
      else None
  | _ => None
  end.

Fixpoint normalize_bytes (fuel : nat) (l : list ascii) : list ascii :=
  match fuel, l with
  | S fuel, c :: rest =>
      match legacy_name l with
      | Some (name, tail) => "$"%char :: name ++ normalize_bytes fuel tail
      | None => c :: normalize_bytes fuel rest
      end
  | _, _ => []
  end.

Definition normalize_legacy_env_syntax (command : string) : string :=
  text (normalize_bytes (String.length command) (bytes command)).

(** [lookup_env_value]. *)
Definition lookup_env_value (env : list (string * string)) (key : string) : option string :=
  snd <$> List.find (fun pair => String.eqb pair.1 key) env.

(** What [$] starts: a name, in braces or not, and the rest. *)
Inductive shell_ref : Type :=
  | Braced (key : string) (tail : list ascii)
  | Bare (key : string) (tail : list ascii)
  | NoRef.

Definition shell_ref_at (l : list ascii) : shell_ref :=
  match l with
  | d :: o :: rest =>
      if negb (Ascii.eqb d "$") then NoRef
      else if Ascii.eqb o "{" then
        match span (fun c => negb (Ascii.eqb c "}")) rest with
        | (k :: key, _ :: tail) => Braced (text (k :: key)) tail
        | _ => NoRef
        end
      else if is_name_start o then
        let '(key, tail) := span is_name_byte rest in Bare (text (o :: key)) tail
      else NoRef
  | _ => NoRef
  end.

(** [render_command_preview]. *)
Fixpoint preview_bytes (env : list (string * string)) (fuel : nat) (l : list ascii) : list ascii :=
  match fuel, l with
  | S fuel, c :: rest =>
      match shell_ref_at l with
      | Braced key tail =>
          bytes (match lookup_env_value env key with
                 | Some value => preview_env_value key value
                 | None => "${" +:+ key +:+ "}"
                 end) ++ preview_bytes env fuel tail
      | Bare key tail =>
          bytes (match lookup_env_value env key with
                 | Some value => preview_env_value key value
                 | None => "$" +:+ key
                 end) ++ preview_bytes env fuel tail
      | NoRef => c :: preview_bytes env fuel rest
      end
  | _, _ => []
  end.

Definition render_command_preview (command : string) (env : list (string * string)) : string :=
  let normalized := normalize_legacy_env_syntax command in
  text (preview_bytes env (String.length normalized) (bytes normalized)).

(** The dart defines of [execute_build_steps]: the file's content. *)
Definition define_line (pair : PipelineEnvVar) : string :=
  ev_key pair +:+ "=" +:+ ev_value pair +:+ String line_feed "".
Definition dart_defines (plan : ResolvedExecutionPlan) : list PipelineEnvVar :=
  List.filter (fun pair => negb (existsb (String.eqb (ev_key pair)) (rx_secret_env_keys plan))) (rx_env plan).
Definition dart_define_file (plan : ResolvedExecutionPlan) : option string :=
  match dart_defines plan with
  | [] => None
  | defines => Some (joined (map define_line defines))
  end.

Example preview_ex :
  render_command_preview "deploy $($USER) --key ${OORE_SECRET_KEY} $HOME ${NOPE} $" 
    [("USER", "ann"); ("OORE_SECRET_KEY", "hunter2"); ("HOME", "/h")]%string
  = "deploy ann --key *** /h ${NOPE} $"%string.
Proof. reflexivity. Qed.
Example masker_ex :
  mask (masker ["hunter2"; "hunter22"; ""]%string) "a hunter22 b hunter2"%string = "a *** b ***"%string.
Proof. reflexivity. Qed.

(** ** The masker hides *)

(** [p] occurs in [l]. *)
Definition infix (p l : list ascii) : Prop := exists n r, drop n l = p ++ r.

Lemma contains_infix p s : p <> ""%string -> contains p s = true <-> infix (bytes p) (bytes s).
Proof.
  intros Hp. assert (Hb : bytes p <> []) by (by destruct p).
  unfold contains. rewrite bool_decide_eq_true. split.
  - intros [n (Hr & _)%find_l_Some]. exists n. done.
  - intros (n & r & Hn). destruct (find_l _ _) as [m|] eqn:E; [done|exfalso].
    rewrite find_l_None in E. destruct (decide (n <= length (bytes s))%nat) as [Hle|Hgt].
    + by apply (E n r).
    + rewrite drop_ge in Hn by lia. by destruct (bytes p).
Qed.

Lemma infix_lookup (p l : list ascii) n (r : list ascii) i : drop n l = p ++ r -> (i < length p)%nat -> l !! (n + i)%nat = p !! i.
Proof. intros Hd Hi. rewrite <- lookup_drop, Hd. by apply lookup_app_l. Qed.

Lemma infix_length (p l : list ascii) n (r : list ascii) : p <> [] -> drop n l = p ++ r -> (n + length p <= length l)%nat.
Proof.
  intros Hp Hd. apply (f_equal length) in Hd. rewrite length_drop, length_app in Hd.
  destruct p; [done|cbn in *; lia].
Qed.

Lemma infix_drop p l k : infix p (drop k l) -> infix p l.
Proof. intros (n & r & H). rewrite drop_drop in H. by exists (k + n)%nat, r. Qed.

Lemma infix_take p l k : infix p (take k l) -> infix p l.
Proof.
  intros (n & r & H). rewrite <- (take_drop k l). destruct (decide (n <= k)%nat) as [Hn|Hn].
  - destruct p as [|c p]; [by exists 0%nat, (take k l ++ drop k l)|].
    assert (Hl : (n + length (c :: p) <= length (take k l))%nat) by (by eapply infix_length).
    exists n, (r ++ drop k l). rewrite drop_app_le by (cbn in Hl; lia). by rewrite H, <- app_assoc.
  - rewrite drop_ge in H by (rewrite length_take; lia). destruct p; [|done]. by exists 0%nat, (take k l ++ drop k l).
Qed.

(** A text without stars lies on one side of stars. *)
Lemma infix_around q a s b :
  q <> [] -> "*"%char ∉ q -> Forall (fun c => c = "*"%char) s -> s <> [] ->
  infix q (a ++ s ++ b) -> infix q a \/ infix q b.
Proof.
  intros Hq Hstar Hs Hne (n & r & H). pose proof (infix_length _ _ _ _ Hq H) as Hl.
  rewrite !length_app in Hl. destruct (decide (n + length q <= length a)%nat) as [Hin|Hout].
  - left. exists n. rewrite drop_app_le in H by lia.
    exists (drop (length q) (drop n a)). apply (f_equal (take (length q))) in H.
    rewrite take_app_length, take_app_le in H by (rewrite length_drop; lia). rewrite <- H at 1. by rewrite take_drop.
  - destruct (decide (length a + length s <= n)%nat) as [Hb|Hb].
    + right. exists (n - length a - length s)%nat, r. rewrite <- H.
      rewrite !drop_app_ge by (rewrite ?length_app; lia). f_equal; lia.
    + exfalso. set (k := Nat.max n (length a)). assert (length s > 0)%nat by (destruct s; [done|cbn; lia]).
      assert (length q > 0)%nat by (destruct q; [done|cbn; lia]).
      assert (Hk : (a ++ s ++ b) !! k = q !! (k - n)%nat).
      { rewrite <- (infix_lookup q _ n r (k - n)) by (done || lia). f_equal. lia. }
      rewrite lookup_app_r, lookup_app_l in Hk by lia.
      destruct (s !! (k - length a)%nat) as [c|] eqn:Es; [|apply lookup_ge_None in Es; lia].
      rewrite Forall_lookup in Hs. rewrite (Hs _ _ Es) in Hk. apply Hstar. by eapply list_elem_of_lookup_2.
Qed.

Abbreviation star_bytes := (bytes stars).

(** Replacing puts no text in that was not there. *)
Lemma replace_keeps_out fuel p q l :
  q <> [] -> "*"%char ∉ q -> ~ infix q l -> ~ infix q (replace_l fuel p star_bytes l).
Proof.
  intros Hq Hstar. revert l; induction fuel as [|fuel IH]; intros l Hl; cbn [replace_l]; [done|].
  destruct (find_l p l) as [n|]; [|done]. intros H.
  apply infix_around in H as [H|H]; [| |done|done|repeat constructor|done].
  - by eapply Hl, infix_take.
  - eapply IH; [|exact H]. by intros H'%infix_drop.
Qed.

(** Replacing takes every match out. *)
Lemma replace_takes_out fuel p l :
  p <> [] -> "*"%char ∉ p -> (length l < fuel)%nat -> ~ infix p (replace_l fuel p star_bytes l).
Proof.
  intros Hp Hstar. revert l; induction fuel as [|fuel IH]; intros l Hlen; [lia|]. cbn [replace_l].
  destruct (find_l p l) as [n|] eqn:E.
  - apply find_l_Some in E as ((r & Hr) & Hle & Hmin). intros H.
    pose proof (infix_length _ _ _ _ Hp Hr). assert (length p > 0)%nat by (destruct p; [done|cbn; lia]).
    apply infix_around in H as [(m & r' & H)|H]; [| |done|done|repeat constructor|done].
    + pose proof (infix_length _ _ _ _ Hp H) as Hm. rewrite length_take in Hm.
      apply (Hmin m (r' ++ drop n l)); [lia|]. rewrite <- (take_drop n l) at 1.
      rewrite drop_app_le by (rewrite length_take; lia). by rewrite H, <- app_assoc.
    + by apply IH in H; [|rewrite length_drop; lia].
  - rewrite find_l_None in E. intros (n & r & H). apply (E n r); [|done].
    pose proof (infix_length _ _ _ _ Hp H). lia.
Qed.

Lemma mask_step_out p q t :
  q <> ""%string -> "*"%char ∉ bytes q -> contains q t = false \/ p = q ->
  contains q (if contains p t then str_replace p stars t else t) = false.
Proof.
  intros Hq Hstar H. assert (Hb : bytes q <> []) by (by destruct q).
  apply not_true_iff_false. rewrite contains_infix by done.
  destruct (contains p t) eqn:E.
  - unfold str_replace. rewrite bytes_text. destruct H as [H| ->].
    + apply replace_keeps_out; [done..|]. rewrite <- contains_infix by done. by rewrite H.
    + apply replace_takes_out; [done..|]. rewrite length_bytes. lia.
  - rewrite <- contains_infix by done. destruct H as [H| ->]; congruence.
Qed.

Lemma mask_out patterns q t :
  q <> ""%string -> "*"%char ∉ bytes q -> contains q t = false \/ q ∈ patterns ->
  contains q (mask patterns t) = false.
Proof.
  intros Hq Hstar. unfold mask. revert t; induction patterns as [|p patterns IH]; intros t H; cbn.
  - destruct H; [done|set_solver].
  - apply IH. destruct H as [H|[->|H]%elem_of_cons]; [left; apply mask_step_out; auto..|by right].
Qed.

Lemma elem_of_insert_longest q p l : q ∈ insert_longest p l <-> q = p \/ q ∈ l.
Proof.
  induction l as [|x l IH]; cbn; [set_solver|]. destruct (_ <? _); [set_solver|].
  rewrite !elem_of_cons, IH. naive_solver.
Qed.

Lemma elem_of_masker q values : q ∈ masker values <-> exists v, v ∈ values /\ q ∈ value_patterns v.
Proof.
  assert (H : forall l acc, q ∈ fold_left (fun l p => insert_longest p l) l acc <-> q ∈ acc \/ q ∈ l).
  { induction l as [|p l IH]; intros acc; cbn; [set_solver|]. rewrite IH, elem_of_insert_longest, elem_of_cons. naive_solver. }
  unfold masker. rewrite H, elem_of_dedup, elem_of_sort, (list_elem_of_In (concat _)), in_concat. split.
  - intros [H0|(l & (v & <- & Hv)%in_map_iff & Hq)]; [set_solver|]. exists v. by rewrite !list_elem_of_In.
  - intros (v & Hv & Hq). right. rewrite list_elem_of_In in Hv. exists (value_patterns v).
    split; [by apply in_map|by apply list_elem_of_In].
Qed.

Lemma mask_untouched patterns t : Forall (fun p => contains p t = false) patterns -> mask patterns t = t.
Proof. unfold mask. induction 1 as [|p patterns Hp _ IH]; cbn; [done|]. by rewrite Hp. Qed.

(** No value of a secret is left, but for those the stars may spell. *)
Lemma masker_hides values v t :
  v ∈ values -> v <> ""%string -> "*"%char ∉ bytes v -> contains v (mask (masker values) t) = false.
Proof.
  intros Hv Hne Hstar. apply mask_out; [done..|]. right. apply elem_of_masker. exists v. split; [done|].
  unfold value_patterns. destruct v; [done|]. cbn [is_empty]. set_solver.
Qed.

(** No line the runner uploads shows a secret.  Whatever text is masked,
    the result contains no value of a secret, and of a value of several lines
    none that is at least eight bytes long once trimmed; values with a star in
    them apart, which the stars of the mask may spell.  A text that contains
    none of them is left as it is. *)
Theorem masked_text_hides (values : list string) (t : string) :
  (forall v, v ∈ values -> v <> ""%string -> "*"%char ∉ bytes v -> contains v (mask (masker values) t) = false)
  /\ (forall v line, v ∈ values -> contains_char line_feed v = true -> line ∈ split_char line_feed v ->
      8 <= str_len (trim line) -> "*"%char ∉ bytes (trim line) ->
      contains (trim line) (mask (masker values) t) = false)
  /\ (Forall (fun p => contains p t = false) (masker values) -> mask (masker values) t = t).
Proof.
  split_and!.
  - intros v. apply masker_hides.
  - intros v line Hv Hnl Hline Hlen Hstar.
    assert (Hne : trim line <> ""%string) by (intros He; rewrite He in Hlen; by cbn in Hlen).
    apply mask_out; [done..|]. right. apply elem_of_masker. exists v. split; [done|].
    unfold value_patterns. rewrite Hnl. destruct v; [done|]. cbn [is_empty]. right.
    apply list_elem_of_In, filter_In. split; [by apply in_map, list_elem_of_In|]. by apply Z.leb_le.
  - apply mask_untouched.
Qed.

(** Stars can spell a value that has them. *)
Example star_value : contains "**z" (mask (masker ["**z"; "xy"]%string) "xyz"%string) = true.
Proof. reflexivity. Qed.

Lemma masked_text_hides_witness :
  let masked := mask (masker ["hunter2"%string]) "login hunter2"%string in
  masked = "login ***"%string /\ contains "hunter2" masked = false.
Proof.
  split; [reflexivity|].
  apply (proj1 (masked_text_hides ["hunter2"%string] "login hunter2"%string));
    [by apply list_elem_of_singleton|discriminate|].
  apply (bool_decide_unpack _). vm_compute. exact I.
Defined.

(** ** Values of secrets stay out of commands *)

Section Confined.
Context (s1 s2 : gmap string string) (Hnames : dom s1 = dom s2).

Lemma same_names name : s1 !! name = None <-> s2 !! name = None.
Proof using Hnames. rewrite <- !not_elem_of_dom. by rewrite Hnames. Qed.

Lemma lookup_secret_same name path :
  (lookup_secret s1 name path ≫= fun _ => Ok tt) = (lookup_secret s2 name path ≫= fun _ => Ok tt).
Proof using Hnames.
  unfold lookup_secret. pose proof (same_names name) as H.
  destruct (s1 !! name), (s2 !! name); naive_solver.
Qed.

Lemma check_names_same path names : check_names s1 path names = check_names s2 path names.
Proof using Hnames.
  unfold check_names. generalize (Ok tt : result string unit). induction names as [|name names IH]; intros r; cbn; [done|].
  rewrite IH. f_equal. destruct r; cbn; [|done]. apply (lookup_secret_same name path).
Qed.

Lemma resolve_step_same step : resolve_step s1 step = resolve_step s2 step.
Proof using Hnames. unfold resolve_step. by rewrite check_names_same. Qed.

(** The two results of a turn agree but for the value. *)
Definition same_shape (a b : result string (PipelineEnvVar * bool)) : Prop :=
  match a, b with
  | Ok x, Ok y => ev_key x.1 = ev_key y.1
  | Err e, Err e' => e = e'
  | _, _ => False
  end.

Lemma replace_total t f :
  replace_secret_references t f
  = match parse_secret_references t with
    | Ok references => Ok (replace_references (bytes t) f references 0)
    | Err e => Err e
    end.
Proof. unfold replace_secret_references. by destruct (parse_secret_references t). Qed.

Lemma resolve_pair_shape index pair : same_shape (resolve_pair s1 index pair) (resolve_pair s2 index pair).
Proof using Hnames.
  unfold resolve_pair. rewrite !replace_total. destruct (parse_secret_references _); cbn; [|done].
  rewrite check_names_same. destruct (check_names _ _ _); cbn; [|done]. by do 2 case_match.
Qed.

Lemma collect_shape l1 l2 :
  Forall2 same_shape l1 l2 ->
  match collect l1, collect l2 with
  | Ok x, Ok y => map (fun p => ev_key p.1) x = map (fun p => ev_key p.1) y
  | Err e, Err e' => e = e'
  | _, _ => False
  end.
Proof.
  induction 1 as [|a b l1 l2 Hab _ IH]; cbn; [done|]. destruct a, b; cbn in *; try done.
  destruct (collect l1), (collect l2); cbn in *; try done. by f_equal.
Qed.
End Confined.

(** What is left of a plan without its environment. *)
Definition without_env (plan : ResolvedExecutionPlan) : ResolvedExecutionPlan :=
  with_secrets (rx_steps plan) [] [] [] plan.

(** C23: The commands of a build do not depend on the values of its secrets,
    only on which names are defined: resolved with other values, a plan has
    the same steps, the same variables and everything else the same, or the
    same error.  The values reach the environment only. *)
Theorem commands_hold_no_secret (plan : ResolvedExecutionPlan) (s1 s2 : gmap string string) :
  dom s1 = dom s2 ->
  match apply_secret_references plan s1, apply_secret_references plan s2 with
  | Ok p1, Ok p2 =>
      without_env p1 = without_env p2
      /\ map ev_key (rx_env p1) = map ev_key (rx_env p2)
      /\ map fst (rx_secret_env p1) = map fst (rx_secret_env p2)
  | Err e1, Err e2 => e1 = e2
  | _, _ => False
  end.
Proof.
  intros Hn. unfold apply_secret_references.
  assert (H : Forall2 same_shape (imap (resolve_pair s1) (rx_env plan)) (imap (resolve_pair s2) (rx_env plan))).
  { apply Forall2_lookup. intros i. rewrite !list_lookup_imap. destruct (rx_env plan !! i); cbn; [|constructor].
    constructor. by apply resolve_pair_shape. }
  apply collect_shape in H. rewrite (map_ext _ _ (resolve_step_same s1 s2 Hn)).
  destruct (collect (imap (resolve_pair s1) _)) as [e1|], (collect (imap (resolve_pair s2) _)) as [e2|]; cbn; try done.
  destruct (collect (map _ _)); cbn; [|done]. rewrite !map_map. split_and!; done.
Qed.

Lemma commands_hold_no_secret_witness :
  let step := {| ps_name := "Deploy"; ps_phase := PostBuild; ps_run := "deploy --key ${{ secrets.KEY }}";
                 ps_source := "steps[0].run"; ps_platform := None; ps_flavor := None; ps_test_report := None |} in
  let plan := {| rx_steps := [step]; rx_artifact_patterns := [];
                 rx_env := [{| ev_key := "API"; ev_value := "k=${{ secrets.KEY }}" |}];
                 rx_secret_env := []; rx_secret_env_keys := []; rx_build_number_offset := 0; rx_isolation := Host;
                 rx_needs_xcode := false; rx_flutter_version := "stable"; rx_source := "ui_fallback";
                 rx_publish := no_publish; rx_size_budgets := []; rx_platforms := [Android] |} in
  match apply_secret_references plan {["KEY"%string := "hunter2"%string]},
        apply_secret_references plan {["KEY"%string := "other"%string]} with
  | Ok p1, Ok p2 =>
      map ps_run (rx_steps p1) = ["deploy --key ${OORE_SECRET_KEY}"%string]
      /\ rx_secret_env p1 = [("OORE_SECRET_KEY", "hunter2")]%string
      /\ without_env p1 = without_env p2
  | _, _ => False
  end.
Proof.
  cbv zeta. set (plan := Build_ResolvedExecutionPlan _ _ _ _ _ _ _ _ _ _ _ _ _).
  pose proof (commands_hold_no_secret plan {["KEY"%string := "hunter2"%string]} {["KEY"%string := "other"%string]}
                ltac:(by rewrite !dom_singleton_L)) as H.
  destruct (apply_secret_references plan {["KEY"%string := "hunter2"%string]}) as [p1|] eqn:E1;
    [|vm_compute in E1; discriminate E1].
  destruct (apply_secret_references plan {["KEY"%string := "other"%string]}) as [p2|] eqn:E2; [|done].
  vm_compute in E1. injection E1 as <-. split_and!; [reflexivity|reflexivity|exact (proj1 H)].
Defined.

(** ** Every reference has its variable *)

Lemma check_name_Err secrets path names e : fold_left (check_name secrets path) names (Err e) = Err e.
Proof. by induction names. Qed.

Lemma check_names_Ok secrets path names u :
  check_names secrets path names = Ok u -> forall name, name ∈ names -> is_Some (secrets !! name).
Proof.
  unfold check_names. revert u; induction names as [|x names IH]; intros u; cbn; [set_solver|].
  unfold lookup_secret. destruct (secrets !! x) eqn:Ex; cbn.
  - intros H name [->|Hin]%elem_of_cons; [eauto|]. by eapply IH.
  - by rewrite check_name_Err.
Qed.

Lemma applied secrets plan p :
  apply_secret_references plan secrets = Ok p ->
  exists env steps,
    imap (resolve_pair secrets) (rx_env plan) = map Ok env
    /\ map (resolve_step secrets) (rx_steps plan) = map Ok steps
    /\ rx_env p = map fst env /\ rx_steps p = map fst steps
    /\ rx_secret_env p = map (fun name => (secret_env_var name, default "" (secrets !! name)))
                             (dedup (sort (concat (map snd steps))))
    /\ rx_secret_env_keys p = rx_secret_env_keys plan ++ map (fun p => ev_key p.1) (List.filter snd env).
Proof.
  unfold apply_secret_references. destruct (collect (imap _ _)) as [env|] eqn:Ee; cbn; [|done].
  destruct (collect (map _ _)) as [steps|] eqn:Es; cbn; [|done]. intros [= <-].
  apply collect_Ok in Ee, Es. exists env, steps. by split_and!.
Qed.

Lemma resolve_step_Ok secrets step out :
  resolve_step secrets step = Ok out ->
  replace_secret_references (ps_run step) secret_reference = Ok (ps_run out.1)
  /\ out = (with_run (ps_run out.1) step, reference_names (ps_run step))
  /\ forall name, name ∈ reference_names (ps_run step) -> is_Some (secrets !! name).
Proof.
  unfold resolve_step. destruct (replace_secret_references _ _) as [run|]; cbn; [|done].
  destruct (check_names _ _ _) as [u|] eqn:E; cbn; [|done]. intros [= <-]. split_and!; [done..|].
  by eapply check_names_Ok.
Qed.

(** What a step runs: the command of the plan with every
    [${{ secrets.NAME }}] replaced by a reference to [OORE_SECRET_NAME], which
    is among the variables of the build with the value of that secret.  The
    variables are those the commands refer to, each once and in order. *)
Theorem referenced_secrets_defined (plan p : ResolvedExecutionPlan) (secrets : gmap string string) :
  apply_secret_references plan secrets = Ok p ->
  Forall2 (fun step step' =>
    replace_secret_references (ps_run step) secret_reference = Ok (ps_run step')
    /\ step' = with_run (ps_run step') step
    /\ forall name, name ∈ reference_names (ps_run step) ->
       exists value, secrets !! name = Some value /\ (secret_env_var name, value) ∈ rx_secret_env p)
    (rx_steps plan) (rx_steps p)
  /\ (forall key value, (key, value) ∈ rx_secret_env p -> exists step name, step ∈ rx_steps plan
      /\ name ∈ reference_names (ps_run step) /\ key = secret_env_var name /\ secrets !! name = Some value)
  /\ NoDup (map fst (rx_secret_env p)).
Proof.
  intros (env & steps & _ & Hs & _ & Hps & Hse & _)%applied. rewrite Hps, Hse.
  assert (Hall : Forall2 (fun step out => resolve_step secrets step = Ok out) (rx_steps plan) steps).
  { clear -Hs. revert steps Hs; induction (rx_steps plan) as [|step l IH]; intros [|out steps]; try done.
    cbn. intros [= H1 H2]. constructor; [done|by apply IH]. }
  assert (Hin : forall name, name ∈ dedup (sort (concat (map snd steps))) <->
    exists step, step ∈ rx_steps plan /\ name ∈ reference_names (ps_run step)).
  { intros name. rewrite elem_of_dedup, elem_of_sort. clear -Hall. induction Hall as [|step out l k Hr _ IH]; cbn; [set_solver|].
    apply resolve_step_Ok in Hr as (_ & -> & _). cbn. rewrite elem_of_app, IH. setoid_rewrite elem_of_cons. naive_solver. }
  assert (Hdef : forall step name, step ∈ rx_steps plan -> name ∈ reference_names (ps_run step) -> is_Some (secrets !! name)).
  { intros step name Hstep. clear -Hall Hstep. induction Hall as [|x out l k Hr _ IH]; [set_solver|].
    apply elem_of_cons in Hstep as [->|Hstep]; [|by apply IH]. apply resolve_step_Ok in Hr as (_ & _ & Hd). apply Hd. }
  split_and!.
  - apply Forall2_fmap_r. eapply Forall2_impl_in; [exact Hall|]. intros step out Hstep Hr.
    apply resolve_step_Ok in Hr as (H1 & H2 & H3). split_and!; [done|by rewrite H2 at 1|].
    intros name Hname. destruct (H3 name Hname) as [value Hv]. exists value. split; [done|].
    apply list_elem_of_fmap. exists name. rewrite Hv. split; [done|]. apply Hin. eauto.
  - intros key value (name & [= -> ->] & Hname)%list_elem_of_fmap. apply Hin in Hname as (step & Hstep & Hname).
    exists step, name. destruct (Hdef step name Hstep Hname) as [v Hv]. by rewrite Hv.
  - rewrite map_map. cbn. apply NoDup_fmap_2_strong.
    + intros x y _ _ H. by apply (inj (String.append "OORE_SECRET_")) in H.
    + apply dedup_sorted. apply StronglySorted_merge_sort; apply _.
Qed.

(** ** Dart defines and previews *)

Lemma resolve_pair_Ok secrets index pair out :
  resolve_pair secrets index pair = Ok out -> out.2 = false -> out.1 = pair.
Proof.
  unfold resolve_pair. destruct (at_path _ _); cbn; [|done]. destruct (check_names _ _ _); cbn; [|done].
  case_match; by intros [= <-].
Qed.

(** Nothing that came from a secret is compiled into the app: the dart
    defines are variables of the plan exactly as the file or the settings
    wrote them, those no secret changed. *)
Theorem defines_as_written (plan p : ResolvedExecutionPlan) (secrets : gmap string string) :
  apply_secret_references plan secrets = Ok p ->
  forall pair, pair ∈ dart_defines p -> pair ∈ rx_env plan /\ ev_key pair ∉ rx_secret_env_keys p.
Proof.
  intros (env & steps & He & _ & Hpe & _ & _ & Hk)%applied pair.
  unfold dart_defines. rewrite list_elem_of_In, filter_In, <- list_elem_of_In, negb_true_iff.
  intros [Hin Hnot]. assert (Hnk : ev_key pair ∉ rx_secret_env_keys p).
  { intros H%list_elem_of_In. apply not_true_iff_false in Hnot. apply Hnot, existsb_exists.
    exists (ev_key pair). by rewrite String.eqb_refl. }
  split; [|done]. rewrite Hpe in Hin. apply list_elem_of_fmap in Hin as ([q changed] & -> & Hin).
  destruct changed.
  { exfalso. apply Hnk. rewrite Hk. apply elem_of_app. right. apply list_elem_of_fmap. exists (q, true).
    split; [done|]. apply list_elem_of_In, filter_In. by rewrite <- list_elem_of_In. }
  apply list_elem_of_lookup in Hin as [i Hi].
  assert (Hl : imap (resolve_pair secrets) (rx_env plan) !! i = Some (Ok (q, false))).
  { rewrite He. by rewrite list_lookup_fmap, Hi. }
  rewrite list_lookup_imap in Hl. apply fmap_Some in Hl as (orig & Ho & Hr). symmetry in Hr.
  apply resolve_pair_Ok in Hr as Hq; [|done]. cbn in Hq. subst q. by eapply list_elem_of_lookup_2.
Qed.

(** Two environments that differ in sensitive values only. *)
Definition alike (a b : string * string) : Prop :=
  a.1 = b.1 /\ (a.2 = b.2 \/ (is_sensitive_env_key a.1 = true /\ is_empty a.2 = is_empty b.2)).

Lemma alike_preview a b : alike a b -> preview_env_value a.1 a.2 = preview_env_value b.1 b.2.
Proof.
  destruct a as [k v], b as [k' v']. unfold alike. cbn [fst snd]. intros [<- [<-|[Hs He]]]; [done|].
  unfold preview_env_value. by rewrite Hs, He.
Qed.

Lemma alike_lookup e1 e2 key :
  Forall2 alike e1 e2 ->
  match lookup_env_value e1 key, lookup_env_value e2 key with
  | Some v, Some v' => preview_env_value key v = preview_env_value key v'
  | None, None => True
  | _, _ => False
  end.
Proof.
  unfold lookup_env_value. induction 1 as [|[k v] [k' v'] e1 e2 Ha _ IH]; cbn; [done|].
  pose proof (alike_preview _ _ Ha) as Hp. destruct Ha as [Hk _]. cbn in *. subst k'.
  destruct (String.eqb_spec k key) as [->|]; [done|exact IH].
Qed.

Lemma preview_bytes_alike e1 e2 fuel l :
  Forall2 alike e1 e2 -> preview_bytes e1 fuel l = preview_bytes e2 fuel l.
Proof.
  intros Ha. revert l; induction fuel as [|fuel IH]; intros [|c l]; cbn [preview_bytes]; try done.
  destruct (shell_ref_at (c :: l)) as [key tail|key tail|]; [| |by rewrite IH];
    pose proof (alike_lookup e1 e2 key Ha) as H; destruct (lookup_env_value e1 key), (lookup_env_value e2 key);
    try done; rewrite IH; congruence.
Qed.

(** The variables of secrets are sensitive. *)
Lemma secret_env_var_sensitive name : is_sensitive_env_key (secret_env_var name) = true.
Proof.
  unfold is_sensitive_env_key. apply existsb_exists. exists "SECRET"%string. split; [by left|].
  apply contains_infix; [done|]. unfold to_ascii_uppercase, secret_env_var. rewrite bytes_text, bytes_app, map_app.
  exists 5%nat. rewrite drop_app_le by (vm_compute; lia).
  by exists ("_"%char :: map byte_to_upper (bytes name)).
Qed.

(** Previews show no sensitive value.  Of a variable whose name looks
    sensitive, [OORE_SECRET_NAME] always among them, the previews of a step's
    command and environment show whether it is empty and nothing else: with
    other values they are the same texts. *)
Theorem previews_hide (command : string) (e1 e2 : list (string * string)) (s1 s2 : list (string * string)) :
  Forall2 alike e1 e2 ->
  Forall2 (fun a b => a.1 = b.1 /\ a.2 <> ""%string /\ b.2 <> ""%string) s1 s2 ->
  let names := map (fun p : string * string => (secret_env_var p.1, p.2)) in
  render_command_preview command (e1 ++ names s1) = render_command_preview command (e2 ++ names s2)
  /\ render_step_env_preview (e1 ++ names s1) = render_step_env_preview (e2 ++ names s2).
Proof.
  intros He Hs names. assert (Ha : Forall2 alike (e1 ++ names s1) (e2 ++ names s2)).
  { apply Forall2_app; [done|]. apply Forall2_fmap, (Forall2_impl _ _ _ _ Hs). intros [k v] [k' v'] (H1 & H2 & H3).
    cbn in *. subst k'. split; [done|]. right. split; [apply secret_env_var_sensitive|].
    by destruct v, v'. }
  generalize dependent (e1 ++ names s1). generalize (e2 ++ names s2). clear. intros b a Ha. split.
  - unfold render_command_preview. by rewrite (preview_bytes_alike a b).
  - unfold render_step_env_preview. rewrite (Forall2_length _ _ _ Ha).
    assert (Hm : map preview_part (take 20 a) = map preview_part (take 20 b)).
    { assert (Ht : Forall2 alike (take 20 a) (take 20 b)) by (by apply Forall2_take).
      induction Ht as [|x y l k Hxy _ IH]; cbn; [done|]. f_equal; [|done].
      unfold preview_part. rewrite (alike_preview _ _ Hxy). by destruct Hxy as [-> _]. }
    rewrite Hm. by destruct Ha.
Qed.
