(* ===== verification/RunnerPlan.v ===== *)
(** * The plan on the runner

    What a runner makes of a claimed build once it is checked out
    ([resolve_execution_plan] of [crates/oore-runner/src/lib.rs]): the pipeline
    file of the workspace or the settings of the pipeline, for the workflow and
    platforms of the run, on a runner with the labels the file asks for, with
    the Flutter version of [.fvmrc].

    The file system is what the functions ask of it: [workspace] holds the
    answers.  A path is the list of its components where the code compares
    components.  serde's readings of YAML and JSON are parameters; the fields of
    the snapshot are held decoded, as elsewhere. *)

From stdpp Require Import pretty.
From S2P Require Import Prelude RustStr Labels Sizes Patterns Triggers Stores Vars VarCosts PipelineFile FilePublish Lowering PlanRuns FileSample RunnerSecrets.
From Stdlib Require Import Ascii.

Local Open Scope Z_scope.

(** ** Settings *)

(** [validate_command_list]. *)
Definition validate_command_list (path : string) (commands : list string) : result string (list string) :=
  collect (imap (fun i command =>
    if is_empty (trim command) then Err (at_index path i +:+ " must not be empty") else Ok (trim command)) commands).

(** [normalize_flutter_version]. *)
Definition normalize_flutter_version (value : option string) (field_path : string)
    : result string (option string) :=
  match value with
  | None => Ok None
  | Some raw => if is_empty (trim raw) then Err (field_path +:+ " must not be empty") else Ok (Some (trim raw))
  end.

(** [validate_artifact_patterns]. *)
Definition validate_artifact_patterns (patterns : list string) : result string (list string) :=
  collect (imap (fun i pattern =>
    _ ← at_path (at_index "artifacts.patterns" i) (Paths.validate_artifact_pattern (trim pattern));
    Ok (trim pattern)) patterns).

(** [validate_platform_command]. *)
Definition validate_platform_command (command : option string) (path : string)
    : result string (option string) :=
  match command with
  | None => Ok None
  | Some value =>
      if is_empty (trim value) then Err (path +:+ " must not be empty when provided") else Ok (Some (trim value))
  end.

(** [validate_env_vars]. *)
Fixpoint validate_env_vars (index : nat) (seen : list string) (env : list PipelineEnvVar)
    : result string (list PipelineEnvVar) :=
  match env with
  | [] => Ok []
  | var :: rest =>
      let key := trim (ev_key var) in
      if is_empty key then Err (at_index "env" index +:+ ".key must not be empty")
      else if negb (is_valid_pipeline_env_key key) then
        Err (at_index "env" index +:+ ".key must match [A-Za-z_][A-Za-z0-9_]*")
      else if existsb (String.eqb key) seen then Err ("env contains duplicate key '" +:+ key +:+ "'")
      else
        validated ← validate_env_vars (S index) (key :: seen) rest;
        Ok ({| ev_key := key; ev_value := trim (ev_value var) |} :: validated)
  end.

(** [normalize_execution_config]. *)
Definition normalize_execution_config (config : PipelineExecutionConfig)
    : result string PipelineExecutionConfig :=
  if bool_decide (ec_platforms config = []) then Err "platforms must include at least one target"%string
  else
    pre ← validate_command_list "commands.pre_build" (pre_build (ec_commands config));
    main ← validate_command_list "commands.build" (build (ec_commands config));
    post ← validate_command_list "commands.post_build" (post_build (ec_commands config));
    android ← validate_command_list "platform_build_args.android" (android_args (ec_platform_build_args config));
    ios ← validate_command_list "platform_build_args.ios" (ios_args (ec_platform_build_args config));
    macos ← validate_command_list "platform_build_args.macos" (macos_args (ec_platform_build_args config));
    android' ← validate_platform_command (android_command (ec_platform_commands config)) "platform_commands.android";
    ios' ← validate_platform_command (ios_command (ec_platform_commands config)) "platform_commands.ios";
    macos' ← validate_platform_command (macos_command (ec_platform_commands config)) "platform_commands.macos";
    env ← validate_env_vars 0 [] (ec_env config);
    patterns ← validate_artifact_patterns (ec_artifact_patterns config);
    flutter ← normalize_flutter_version (ec_flutter_version config) "flutter_version";
    _ ← at_path "build_number_offset" (validate_build_number_offset (ec_build_number_offset config));
    runs_on ← at_path "runs_on" (normalize_runner_labels (ec_runs_on config));
    Ok {| ec_platforms := ec_platforms config; ec_flutter_version := flutter;
          ec_commands := {| pre_build := pre; build := main; post_build := post |};
          ec_platform_build_args := {| android_args := android; ios_args := ios; macos_args := macos |};
          ec_platform_commands := {| android_command := android'; ios_command := ios'; macos_command := macos' |};
          ec_env := env; ec_artifact_patterns := patterns;
          ec_build_number_offset := ec_build_number_offset config; ec_runs_on := runs_on;
          ec_isolation := ec_isolation config |}.

(** [PipelineExecutionConfig::default]. *)
Definition default_execution_config : PipelineExecutionConfig :=
  {| ec_platforms := [Android]; ec_flutter_version := None;
     ec_commands := {| pre_build := []; build := []; post_build := [] |};
     ec_platform_build_args := {| android_args := []; ios_args := []; macos_args := [] |};
     ec_platform_commands := {| android_command := None; ios_command := None; macos_command := None |};
     ec_env := []; ec_artifact_patterns := ["build/app/outputs/flutter-apk/*.apk"%string];
     ec_build_number_offset := 0; ec_runs_on := []; ec_isolation := Host |}.

(** ** The snapshot of a build *)

(** The fields [resolve_execution_plan] reads; a decoded field is serde's
    reading of it. *)
Record job_snapshot := {
  js_config_path_explicit : option bool;
  js_config_path : option string;
  js_ui_execution_config : option (result string PipelineExecutionConfig);
  js_selected_platforms : option (result string (list BuildPlatform));
  js_runner_labels : option (list string);
  js_workflow : option string;
}.

(** [load_ui_execution_config]. *)
Definition load_ui_execution_config (snapshot : job_snapshot) : result string PipelineExecutionConfig :=
  match js_ui_execution_config snapshot with
  | None => Ok default_execution_config
  | Some raw =>
      parsed ← map_err (String.append "Invalid ui_execution_config in snapshot: ") raw;
      normalize_execution_config parsed
  end.

(** [selected_platforms]. *)
Definition selected_platforms (snapshot : job_snapshot) : result string (option (list BuildPlatform)) :=
  match js_selected_platforms snapshot with
  | None => Ok None
  | Some raw => Some <$> map_err (String.append "Invalid selected_platforms in snapshot: ") raw
  end.

(** [require_runner_labels]. *)
Definition require_runner_labels (runs_on : list string) (snapshot : job_snapshot) (config_path : string)
    : result string unit :=
  match js_runner_labels snapshot with
  | None => Ok tt
  | Some runner_labels =>
      match missing_runner_labels runs_on runner_labels with
      | [] => Ok tt
      | missing => Err (config_path +:+ " sets runs_on [" +:+ join ", " runs_on
                        +:+ "], but this runner lacks [" +:+ join ", " missing
                        +:+ "]. Set the same runs_on on the pipeline so the scheduler picks a matching runner")
      end
  end.

(** ** The workspace *)

(** What a configuration file of the workspace is, when it exists: its path
    with links followed, and its text. *)
Record config_file := {
  cf_canonical : result string (list string);
  cf_content : result string string;
}.

Record workspace := {
  ws_fvmrc : option (result string string);
  ws_canonical : result string (list string);
  ws_file : string -> option config_file;
  ws_display : string -> string;
}.

(** [Path::starts_with]: component by component. *)
Definition path_starts_with (path base : list string) : bool := bool_decide (take (length base) path = base).

Definition AUTO_CONFIG_PATHS : list string := [".oore.yaml"; ".oore.yml"]%string.
Definition DEFAULT_FLUTTER_VERSION : string := "stable".

(** [needs_xcode]. *)
Definition needs_xcode (platforms : list BuildPlatform) : bool :=
  existsb (fun platform => match platform with Ios | Macos => true | Android => false end) platforms.

(** [pubspec_version_name]; [quotes] is [trim_matches] of the two quotes. *)
Fixpoint strip_quotes (l : list ascii) : list ascii :=
  match l with
  | c :: rest => if Ascii.eqb c "'" || Ascii.eqb c (byte_of 34) then strip_quotes rest else l
  | [] => []
  end.
Definition trim_quotes (s : string) : string := text (rev (strip_quotes (rev (strip_quotes (bytes s))))).

Definition pubspec_version_name (raw : string) : option string :=
  value ← head (omap (strip_prefix "version:") (split_char line_feed raw));
  value ← head (split_str " #" value);
  name ← trim <$> head (split_char "+" (trim_quotes (trim value)));
  if is_empty name then None else Some name.

Section Resolve.
(** serde: an object with a [flutter] field, a string, and YAML. *)
Context (json_flutter json_string : string -> result string string)
  (probe : string -> option YamlScalar)
  (yaml_v1 : string -> result string RepositoryPipelineConfig)
  (yaml_v2 : string -> result string ConfigV2).

(** [read_fvmrc_version]. *)
Definition read_fvmrc_version (ws : workspace) : result string (option string) :=
  match ws_fvmrc ws with
  | None => Ok None
  | Some content =>
      let path := ws_display ws ".fvmrc" in
      raw ← map_err (fun e => "failed to read " +:+ path +:+ ": " +:+ e) content;
      let trimmed := trim raw in
      if is_empty trimmed then Err (path +:+ " is empty")
      else if starts_with "{" trimmed then
        parsed ← map_err (fun e => "failed to parse " +:+ path +:+ " as JSON object with 'flutter': " +:+ e)
          (json_flutter trimmed);
        normalize_flutter_version (Some parsed) ".fvmrc.flutter"
      else if starts_with (String (byte_of 34) "") trimmed then
        parsed ← map_err (fun e => "failed to parse " +:+ path +:+ " as JSON string: " +:+ e) (json_string trimmed);
        normalize_flutter_version (Some parsed) ".fvmrc"
      else normalize_flutter_version (Some trimmed) ".fvmrc"
  end.

(** The paths [resolve_execution_plan] tries. *)
Definition candidate_paths (snapshot : job_snapshot) : result string (list string) :=
  let path := trim (default ".oore.yaml"%string (js_config_path snapshot)) in
  if default false (js_config_path_explicit snapshot) && negb (String.eqb path ".oore.yaml") then
    _ ← map_err (String.append "Invalid explicit repository config path: ") (Paths.validate_repository_config_path path);
    Ok [path]
  else Ok AUTO_CONFIG_PATHS.

(** The result for a plan, from a file or from the settings. *)
Definition resolved_plan (fvmrc : option string) (source : string) (publish : PlanPublish)
    (size_budgets : list TargetSizeBudget) (plan : PipelinePlan) : ResolvedExecutionPlan :=
  {| rx_steps := plan_steps plan; rx_artifact_patterns := plan_artifact_patterns plan;
     rx_env := plan_env plan; rx_secret_env := []; rx_secret_env_keys := [];
     rx_build_number_offset := plan_build_number_offset plan; rx_isolation := plan_isolation plan;
     rx_needs_xcode := needs_xcode (plan_platforms plan);
     rx_flutter_version := default DEFAULT_FLUTTER_VERSION (or_else fvmrc (plan_flutter_version plan));
     rx_source := source; rx_publish := publish; rx_size_budgets := size_budgets;
     rx_platforms := plan_platforms plan |}.

(** The body of the loop, for a file that exists. *)
Definition plan_file (ws : workspace) (root : list string) (snapshot : job_snapshot) (build_play_bundle : bool)
    (fvmrc : option string) (rel_path : string) (file : config_file) : result string ResolvedExecutionPlan :=
  let full_path := ws_display ws rel_path in
  canonical ← map_err (fun e => "Failed to resolve repository config file " +:+ full_path +:+ ": " +:+ e)
    (cf_canonical file);
  if negb (path_starts_with canonical root) then
    Err ("Repository config path resolves outside the build workspace: " +:+ full_path)
  else
    content ← map_err (fun e => "Failed to read config file " +:+ full_path +:+ ": " +:+ e) (cf_content file);
    file_config ← map_err (fun e => "Invalid pipeline config in " +:+ full_path +:+ ": " +:+ e)
      (parse_repository_config probe yaml_v1 yaml_v2 content);
    _ ← require_runner_labels (repository_runs_on file_config) snapshot rel_path;
    selected ← selected_platforms snapshot;
    plan ← map_err (fun e => rel_path +:+ ": " +:+ e)
      (repository_plan file_config {| pr_workflow := js_workflow snapshot; pr_selected_platforms := selected;
                                      pr_build_play_bundle := build_play_bundle |});
    Ok (resolved_plan fvmrc ("file:" +:+ full_path) (plan_publish plan) (plan_size_budgets plan) plan).

(** The first of the candidates that exists. *)
Fixpoint first_file (ws : workspace) (paths : list string) : option (string * config_file) :=
  match paths with
  | [] => None
  | path :: rest => match ws_file ws path with Some file => Some (path, file) | None => first_file ws rest end
  end.

Definition plan_settings (snapshot : job_snapshot) (build_play_bundle : bool) (fvmrc : option string)
    : result string ResolvedExecutionPlan :=
  fallback ← load_ui_execution_config snapshot;
  selected ← selected_platforms snapshot;
  fallback ← match selected with
             | Some selected => select_v1_platforms fallback selected
             | None => Ok fallback
             end;
  Ok (resolved_plan fvmrc "ui_fallback" no_publish [] (plan_execution_config fallback true build_play_bundle)).

(** [resolve_execution_plan]. *)
Definition resolve_execution_plan (ws : workspace) (snapshot : job_snapshot) (build_play_bundle : bool)
    : result string ResolvedExecutionPlan :=
  paths ← candidate_paths snapshot;
  fvmrc ← read_fvmrc_version ws;
  root ← map_err (String.append "Failed to resolve build workspace: ") (ws_canonical ws);
  match first_file ws paths with
  | Some (path, file) => plan_file ws root snapshot build_play_bundle fvmrc path file
  | None => plan_settings snapshot build_play_bundle fvmrc
  end.
End Resolve.

(** ** Normal settings *)

#[local] Arguments trim : simpl never.

Lemma imap_collect_trim (f : nat -> string -> result string string) l out :
  (forall i x y, f i x = Ok y -> y = trim x /\ f i y = Ok y) ->
  collect (imap f l) = Ok out -> collect (imap f out) = Ok out.
Proof.
  intros Hf. revert f Hf out; induction l as [|x l IH]; intros f Hf out; cbn; [by intros [= <-]|].
  destruct (f 0%nat x) as [y|] eqn:Ey; cbn; [|done].
  destruct (collect (imap (f ∘ S) l)) as [tail|] eqn:Et; cbn; [|done]. intros [= <-]. cbn.
  rewrite (proj2 (Hf _ _ _ Ey)). cbn. by rewrite (IH (f ∘ S) (fun i => Hf (S i)) tail Et).
Qed.

Lemma validate_command_list_again path l out :
  validate_command_list path l = Ok out -> validate_command_list path out = Ok out.
Proof.
  apply imap_collect_trim. intros i x y. destruct (is_empty (trim x)) eqn:E; [done|]. intros [= <-].
  by rewrite trim_trim, E.
Qed.

Lemma validate_artifact_patterns_again l out :
  validate_artifact_patterns l = Ok out -> validate_artifact_patterns out = Ok out.
Proof.
  apply imap_collect_trim. intros i x y. destruct (Paths.validate_artifact_pattern (trim x)) eqn:E; cbn; [|done].
  intros [= <-]. by rewrite trim_trim, E.
Qed.

Lemma validate_platform_command_again c path out :
  validate_platform_command c path = Ok out -> validate_platform_command out path = Ok out.
Proof.
  destruct c as [v|]; cbn; [|by intros [= <-]]. destruct (is_empty (trim v)) eqn:E; [done|]. intros [= <-]. cbn.
  by rewrite trim_trim, E.
Qed.

Lemma normalize_flutter_version_again v path out :
  normalize_flutter_version v path = Ok out -> normalize_flutter_version out path = Ok out.
Proof.
  destruct v as [v|]; cbn; [|by intros [= <-]]. destruct (is_empty (trim v)) eqn:E; [done|]. intros [= <-]. cbn.
  by rewrite trim_trim, E.
Qed.

Lemma validate_env_vars_again index seen env out :
  validate_env_vars index seen env = Ok out -> validate_env_vars index seen out = Ok out.
Proof.
  revert index seen out; induction env as [|v env IH]; intros index seen out; cbn; [by intros [= <-]|].
  destruct (is_empty (trim (ev_key v))) eqn:E1; [done|]. destruct (negb _) eqn:E2; [done|].
  destruct (existsb _ seen) eqn:E3; [done|]. destruct (validate_env_vars _ _ env) eqn:E4; cbn; [|done].
  intros [= <-]. cbn. rewrite !trim_trim, E1, E2, E3. by rewrite (IH _ _ _ E4).
Qed.

#[local] Arguments validate_command_list : simpl never.
#[local] Arguments validate_platform_command : simpl never.
#[local] Arguments validate_env_vars : simpl never.
#[local] Arguments validate_artifact_patterns : simpl never.
#[local] Arguments normalize_flutter_version : simpl never.
#[local] Arguments validate_build_number_offset : simpl never.
#[local] Arguments normalize_runner_labels : simpl never.

Lemma at_path_Ok {A} path (r : result string A) a : at_path path r = Ok a <-> r = Ok a.
Proof. unfold at_path. destruct r; cbn; split; congruence. Qed.

(** The settings are in a normal form: what [normalize_execution_config]
    returns, it returns again unchanged; platforms, isolation and offset are
    kept as they were. *)
Theorem normalize_execution_config_stable (config config' : PipelineExecutionConfig) :
  normalize_execution_config config = Ok config' ->
  normalize_execution_config config' = Ok config'
  /\ ec_platforms config' = ec_platforms config /\ ec_platforms config <> []
  /\ ec_isolation config' = ec_isolation config
  /\ ec_build_number_offset config' = ec_build_number_offset config.
Proof.
  unfold normalize_execution_config at 1. case_bool_decide as Hp; [done|].
  intros H. inv_bind. split_and!; [|done..]. unfold normalize_execution_config. cbn.
  rewrite bool_decide_false by done.
  erewrite !validate_command_list_again by eassumption. cbn.
  erewrite !validate_platform_command_again by eassumption. cbn.
  erewrite validate_env_vars_again by eassumption. cbn.
  erewrite validate_artifact_patterns_again by eassumption. cbn.
  erewrite normalize_flutter_version_again by eassumption. cbn.
  repeat match goal with H : at_path _ _ = Ok _ |- _ => rewrite at_path_Ok in H end.
  match goal with H : validate_build_number_offset _ = Ok _ |- _ => rewrite H end. cbn.
  match goal with H : normalize_runner_labels _ = Ok _ |- _ => apply normalize_runner_labels_spec in H as (_ & _ & _ & _ & H); rewrite H end.
  done.
Qed.

(** ** What is resolved *)

Section Sources.
Context (json_flutter json_string : string -> result string string)
  (probe : string -> option YamlScalar)
  (yaml_v1 : string -> result string RepositoryPipelineConfig)
  (yaml_v2 : string -> result string ConfigV2).

Abbreviation parse := (parse_repository_config probe yaml_v1 yaml_v2).
Abbreviation resolve_plan := (resolve_execution_plan json_flutter json_string probe yaml_v1 yaml_v2).

(** A plan made of a file: the file lies in the workspace, it was parsed, the
    runner has the labels it asks for, and the plan is the file's for the
    workflow and platforms of the run. *)
Record from_file (ws : workspace) (root : list string) (snapshot : job_snapshot) (bundle : bool)
    (path : string) (file : config_file) (config : RepositoryConfig) (plan : PipelinePlan) : Prop := {
  ff_canonical : exists canonical, cf_canonical file = Ok canonical /\ path_starts_with canonical root = true;
  ff_content : exists content, cf_content file = Ok content /\ parse content = Ok config;
  ff_labels : forall labels, js_runner_labels snapshot = Some labels ->
    forall label, label ∈ repository_runs_on config -> label ∈ labels;
  ff_plan : exists selected, selected_platforms snapshot = Ok selected
    /\ repository_plan config {| pr_workflow := js_workflow snapshot; pr_selected_platforms := selected;
                                 pr_build_play_bundle := bundle |} = Ok plan;
}.

Lemma map_err_Ok {A} (f : string -> string) (r : result string A) a : map_err f r = Ok a <-> r = Ok a.
Proof. destruct r; cbn; split; congruence. Qed.

Lemma labels_required runs_on snapshot path u :
  require_runner_labels runs_on snapshot path = Ok u <->
  forall labels, js_runner_labels snapshot = Some labels -> forall label, label ∈ runs_on -> label ∈ labels.
Proof.
  unfold require_runner_labels. destruct u. destruct (js_runner_labels snapshot) as [labels|]; [|by split].
  unfold missing_runner_labels. split.
  - destruct (List.filter _ _) as [|x l] eqn:E; [|done]. intros _ ? [= <-] label Hl.
    destruct (existsb (String.eqb label) labels) eqn:Ex.
    { apply existsb_exists in Ex as (y & Hy & ->%String.eqb_eq). by apply list_elem_of_In. }
    assert (Hin : In label []); [|done]. rewrite <- E. apply filter_In. rewrite <- list_elem_of_In. by rewrite Ex.
  - intros Hall. destruct (List.filter _ _) as [|x l] eqn:E; [done|exfalso].
    assert (Hx : In x (x :: l)) by (by left). rewrite <- E in Hx. apply filter_In in Hx as [Hx Hn].
    apply negb_true_iff, not_true_iff_false in Hn. apply Hn, existsb_exists. exists x.
    rewrite String.eqb_refl, <- list_elem_of_In. split; [|done]. by eapply Hall, list_elem_of_In.
Qed.

Lemma plan_file_from ws root snapshot bundle fvmrc path file p :
  plan_file probe yaml_v1 yaml_v2 ws root snapshot bundle fvmrc path file = Ok p <->
  exists config plan, from_file ws root snapshot bundle path file config plan
    /\ p = resolved_plan fvmrc ("file:" +:+ ws_display ws path) (plan_publish plan) (plan_size_budgets plan) plan.
Proof.
  unfold plan_file. split.
  - intros H. inv_bind. rewrite map_err_Ok in H0. destruct (path_starts_with _ _) eqn:Ec; [|done]. cbn in H.
    inv_bind. repeat match goal with H : map_err _ _ = Ok _ |- _ => rewrite map_err_Ok in H end.
    eexists _, _. split; [|done].
    split; [by eauto|by eauto|by eapply labels_required|by eauto].
  - intros (config & plan & [(c & Hc & Hin) (t & Ht & Hp) Hl (sel & Hs & Hpl)] & ->).
    rewrite Hc. cbn. rewrite Hin. cbn. rewrite Ht. cbn. rewrite Hp. cbn.
    apply (labels_required _ _ path tt) in Hl. rewrite Hl. cbn. rewrite Hs. cbn. by rewrite Hpl.
Qed.

(** What a runner builds comes from the first pipeline file that exists at
    the run's path, or, when there is none, from the pipeline's settings.  A
    file is used only when it lies inside the checkout with its links
    followed, only on a runner that has the labels it asks for, and for the
    run's workflow and platforms; an explicit path is relative and never leads
    out of the checkout. *)
Theorem plan_sources (ws : workspace) (snapshot : job_snapshot) (bundle : bool) (p : ResolvedExecutionPlan) :
  resolve_plan ws snapshot bundle = Ok p ->
  exists paths fvmrc root, candidate_paths snapshot = Ok paths /\ ws_canonical ws = Ok root
  /\ read_fvmrc_version json_flutter json_string ws = Ok fvmrc
  /\ (paths = AUTO_CONFIG_PATHS
      \/ exists path, paths = [path] /\ Paths.validate_repository_config_path path = Ok tt)
  /\ match first_file ws paths with
     | Some (path, file) => exists config plan, from_file ws root snapshot bundle path file config plan
         /\ p = resolved_plan fvmrc ("file:" +:+ ws_display ws path) (plan_publish plan) (plan_size_budgets plan) plan
     | None => exists settings config, load_ui_execution_config snapshot = Ok settings
         /\ (exists selected, selected_platforms snapshot = Ok selected
             /\ from_option (select_v1_platforms settings) (Ok settings) selected = Ok config)
         /\ p = resolved_plan fvmrc "ui_fallback" no_publish [] (plan_execution_config config true bundle)
     end.
Proof.
  unfold resolve_execution_plan. destruct (candidate_paths snapshot) as [paths|] eqn:Ep; cbn; [|done].
  destruct (read_fvmrc_version _ _ ws) as [fvmrc|] eqn:Ef; cbn; [|done].
  destruct (ws_canonical ws) as [root|] eqn:Er; cbn; [|done]. intros H.
  exists paths, fvmrc, root. split_and!; [done..| |].
  - revert Ep. unfold candidate_paths. destruct (_ && _).
    + destruct (Paths.validate_repository_config_path _) as [[]|] eqn:Ev; cbn; [|done]. intros [= <-]. right. eauto.
    + intros [= <-]. by left.
  - destruct (first_file ws paths) as [[path file]|]; [by apply plan_file_from|].
    unfold plan_settings in H. inv_bind. eexists _, _. split; [done|]. split; [|done].
    eexists. split; [done|]. by destruct x0.
Qed.

(** A version 2 file the daemon accepted plans on the runner: when the runner
    finds it first among the candidate paths, inside the workspace, reads and
    decodes it as the daemon did and has its labels, then for every workflow
    and distinct platforms of the file the resolved plan is the file's. *)
Theorem accepted_file_runs (ws : workspace) (snapshot : job_snapshot) (bundle : bool)
    (paths : list string) (fvmrc : option string) (root canonical : list string) (path raw : string)
    (file : config_file) (config config' : ConfigV2) (spent : spending) (chosen : option (string * WorkflowSpec))
    (selected : option (list BuildPlatform)) :
  candidate_paths snapshot = Ok paths -> first_file ws paths = Some (path, file) ->
  read_fvmrc_version json_flutter json_string ws = Ok fvmrc -> ws_canonical ws = Ok root ->
  cf_canonical file = Ok canonical -> path_starts_with canonical root = true -> cf_content file = Ok raw ->
  probe raw = Some (YInt 2) -> yaml_v2 raw = Ok config ->
  validate_v2 config = (Ok config', spent) -> within spent ->
  (forall labels, js_runner_labels snapshot = Some labels ->
     forall label, label ∈ v2_runs_on config' -> label ∈ labels) ->
  select_workflow config' (js_workflow snapshot) = Ok chosen ->
  selected_platforms snapshot = Ok selected -> valid_selection (workflow_targets config' chosen) selected ->
  exists plan, Lowering.plan config' (js_workflow snapshot) selected = Ok plan
  /\ resolve_plan ws snapshot bundle
     = Ok (resolved_plan fvmrc ("file:" +:+ ws_display ws path) (plan_publish plan) (plan_size_budgets plan) plan).
Proof.
  intros Hpaths Hfile Hfv Hroot Hcan Hin Hraw Hprobe Hyaml Hval Hwithin Hlabels Hsel Hselected Hvalid.
  destruct (accepted_plans config config' spent (js_workflow snapshot) chosen selected) as [plan Hplan]; [done..|].
  exists plan. split; [done|]. unfold resolve_execution_plan. rewrite Hpaths. cbn. rewrite Hfv. cbn. rewrite Hroot. cbn.
  rewrite Hfile. apply plan_file_from. exists (V2 config'), plan. split; [|done]. split; [by eauto| |done|by eauto].
  exists raw. split; [done|]. unfold parse_repository_config. rewrite Hprobe. cbn.
  unfold parse_v2. rewrite Hyaml. cbn. by rewrite Hval.
Qed.
End Sources.

(** The sample file in a checkout. *)
Definition sample_workspace : workspace :=
  {| ws_fvmrc := Some (Ok " 3.22.0 "%string); ws_canonical := Ok ["w"%string];
     ws_file := fun path =>
       if String.eqb path ".oore.yml"
       then Some {| cf_canonical := Ok ["w"; ".oore.yml"]%string; cf_content := Ok "version: 2"%string |} else None;
     ws_display := String.append "/w/" |}.

Definition sample_snapshot : job_snapshot :=
  {| js_config_path_explicit := None; js_config_path := None; js_ui_execution_config := None;
     js_selected_platforms := Some (Ok [Android]); js_runner_labels := Some ["macos"%string];
     js_workflow := Some "full"%string |}.

Definition no_json (_ : string) : result string string := Err "no JSON"%string.
Definition version_two (_ : string) : option YamlScalar := Some (YInt 2).
Definition no_v1 (_ : string) : result string RepositoryPipelineConfig := Err "version 2"%string.
Definition the_sample (_ : string) : result string ConfigV2 := Ok sample_file.

Lemma accepted_file_runs_witness :
  exists p, resolve_execution_plan no_json no_json version_two no_v1 the_sample sample_workspace sample_snapshot false = Ok p
  /\ map ps_name (rx_steps p) = ["Test"; "Build Android (dev)"; "Build Android (prod)"; "Done"]%string
  /\ rx_flutter_version p = "3.22.0"%string.
Proof.
  destruct (accepted_file_runs no_json no_json version_two no_v1 the_sample sample_workspace sample_snapshot false
              AUTO_CONFIG_PATHS (Some "3.22.0"%string) ["w"%string] ["w"; ".oore.yml"]%string ".oore.yml"%string
              "version: 2"%string {| cf_canonical := Ok ["w"; ".oore.yml"]%string; cf_content := Ok "version: 2"%string |}
              sample_file sample_file (snd (validate_v2 sample_file)) (Some ("full"%string, full_workflow))
              (Some [Android])) as (plan & Hp & Hr);
    [reflexivity..| | | | | |].
  - split; vm_compute; discriminate.
  - intros labels _ label Hl. by apply not_elem_of_nil in Hl.
  - reflexivity.
  - reflexivity.
  - cbn. split_and!; [discriminate|apply NoDup_singleton|set_solver].
  - eexists. split; [exact Hr|]. vm_compute in Hp. injection Hp as <-. split; reflexivity.
Defined.
