(* ===== verification/Cron.v ===== *)
(** * Cron schedules on pipelines

    [crates/oored/src/pipeline_schedules.rs]: the five-field parser ([u64] bit
    sets built with a [u32] loop counter), matching and the minute scan.  The
    claim of due runs is in [Schedules].

    The calendar is chrono's: [from_timestamp] is a parameter.  Loop counters
    wrap at 32 bits, as release builds do. *)

From S2P Require Import Prelude RustStr Triggers.
From stdpp Require Import pretty.
From Stdlib Require Import Ascii Znumtheory.

Local Open Scope Z_scope.

Module Cron.

(** A broken-down UTC time, as far as [Cron::matches] reads it. *)
Record DateTime := {
  at_minute : Z;
  at_hour : Z;
  at_day : Z;
  at_month : Z;
  at_weekday : Z;  (* days from Sunday *)
}.

(** [struct Cron]. *)
Record Cron := {
  minutes : Z;
  hours : Z;
  days_of_month : Z;
  months : Z;
  days_of_week : Z;
  day_of_month_any : bool;
  day_of_week_any : bool;
}.

(** ** Parsing *)

Definition u32_wrap (z : Z) : Z := z mod 2 ^ 32.

(** [parse_value]. *)
Definition parse_value (raw : string) (min max : Z) (name : string) : result string Z :=
  match parse_u32 raw with
  | Some value =>
      if (min <=? value) && (value <=? max) then Ok value
      else Err (name +:+ " value '" +:+ raw +:+ "' must be between " +:+ pretty min
                +:+ " and " +:+ pretty max)
  | None => Err (name +:+ " value '" +:+ raw +:+ "' must be between " +:+ pretty min
                +:+ " and " +:+ pretty max)
  end.

(** The range and step of one comma-separated part of a field. *)
Definition parse_part (part : string) (min max : Z) (name : string)
    : result string (Z * Z * Z) :=
  '(range, step) ← match split_once "/" part with
    | Some (range, step) =>
        match parse_u32 step with
        | Some n => if 0 <? n then Ok (range, n)
                    else Err (name +:+ " step '" +:+ step +:+ "' must be a positive number")
        | None => Err (name +:+ " step '" +:+ step +:+ "' must be a positive number")
        end
    | None => Ok (part, 1)
    end;
  '(start, stop) ← (if String.eqb range "*" then Ok (min, max)
    else match split_once "-" range with
         | Some (a, b) =>
             a' ← parse_value a min max name;
             b' ← parse_value b min max name;
             Ok (a', b')
         | None =>
             value ← parse_value range min max name;
             Ok (value, if contains_char "/" part then max else value)
         end);
  if stop <? start then Err (name +:+ " range '" +:+ range +:+ "' runs backwards")
  else Ok (start, stop, step).

(** [while value <= end { set |= 1 << value; value += step; }]; [None] when
    the fuel runs out. *)
Fixpoint set_range (fuel : nat) (set value stop step : Z) : option Z :=
  match fuel with
  | O => None
  | S fuel' =>
      if value <=? stop then
        set_range fuel' (Z.lor set (Z.shiftl 1 value)) (u32_wrap (value + step)) stop step
      else Some set
  end.

(** Every range of a cron field lies in 0..59, so 61 iterations are enough
    ([set_range_total]). *)
Definition range_fuel : nat := 61.

Fixpoint parse_parts (parts : list string) (set min max : Z) (name : string)
    : result string Z :=
  match parts with
  | [] => Ok set
  | part :: rest =>
      '(start, stop, step) ← parse_part part min max name;
      parse_parts rest (default set (set_range range_fuel set start stop step)) min max name
  end.

(** [parse_field]. *)
Definition parse_field (field : string) (min max : Z) (name : string) : result string Z :=
  parse_parts (split_char "," field) 0 min max name.

Definition expand (expression : string) : string :=
  if String.eqb expression "@hourly" then "0 * * * *"
  else if String.eqb expression "@daily" || String.eqb expression "@midnight" then "0 0 * * *"
  else if String.eqb expression "@weekly" then "0 0 * * 0"
  else if String.eqb expression "@monthly" then "0 0 1 * *"
  else if String.eqb expression "@yearly" || String.eqb expression "@annually" then "0 0 1 1 *"
  else expression.

(** [Cron::parse]. *)
Definition parse (expression : string) : result string Cron :=
  match split_whitespace (expand (trim expression)) with
  | [minute; hour; day_of_month; month; day_of_week] =>
      dow ← parse_field day_of_week 0 7 "day-of-week";
      let dow := if negb (Z.land dow (Z.shiftl 1 7) =? 0)
                 then Z.lor (Z.land dow (Z.lnot (Z.shiftl 1 7))) 1 else dow in
      mi ← parse_field minute 0 59 "minute";
      ho ← parse_field hour 0 23 "hour";
      dom ← parse_field day_of_month 1 31 "day-of-month";
      mo ← parse_field month 1 12 "month";
      Ok {| minutes := mi; hours := ho; days_of_month := dom; months := mo;
            days_of_week := dow;
            day_of_month_any := String.eqb day_of_month "*";
            day_of_week_any := String.eqb day_of_week "*" |}
  | _ => Err "must have five fields: minute hour day-of-month month day-of-week"
  end.

(** ** Matching *)

Definition bit (set value : Z) : bool := negb (Z.land set (Z.shiftl 1 value) =? 0).

(** [Cron::matches]. *)
Definition matches (c : Cron) (t : DateTime) : bool :=
  let day_of_month := bit (days_of_month c) (at_day t) in
  let day_of_week := bit (days_of_week c) (at_weekday t) in
  let day := match day_of_month_any c, day_of_week_any c with
             | true, true => true
             | true, false => day_of_week
             | false, true => day_of_month
             | false, false => day_of_month || day_of_week
             end in
  day && bit (minutes c) (at_minute t) && bit (hours c) (at_hour t)
    && bit (months c) (at_month t).

(** ** What the parser accepts *)

Lemma bit_testbit set v : 0 <= v -> bit set v = Z.testbit set v.
Proof.
  intros Hv. unfold bit. rewrite Z.shiftl_1_l.
  destruct (Z.testbit set v) eqn:E.
  - apply negb_true_iff, Z.eqb_neq. intros H0.
    assert (H : Z.testbit (Z.land set (2 ^ v)) v = true).
    { by rewrite Z.land_spec, E, Z.pow2_bits_true by lia. }
    rewrite H0, Z.bits_0 in H. done.
  - apply negb_false_iff, Z.eqb_eq. apply Z.bits_inj'. intros n Hn.
    rewrite Z.land_spec, Z.bits_0. destruct (decide (n = v)) as [->|Hne]; [by rewrite E|].
    rewrite Z.pow2_bits_false by lia. by rewrite andb_false_r.
Qed.

(** What a part stands for: from [start] to [stop] in steps of [step]. *)
Definition in_range (start stop step v : Z) : Prop :=
  start <= v <= stop /\ (step | v - start).

#[export] Instance in_range_dec start stop step v : Decision (in_range start stop step v).
Proof.
  unfold in_range. destruct (Zdivide_dec step (v - start)) as [H|H];
    destruct (decide (start <= v <= stop)) as [H'|H'];
    [left; by split|right; by intros []..].
Defined.

(** Without wrap-around the loop adds exactly the range. *)
Lemma set_range_spec fuel set value stop step :
  0 <= value -> 1 <= step -> value + step < 2 ^ 32 -> stop + step < 2 ^ 32 ->
  (Z.to_nat (stop - value + 1) < fuel)%nat ->
  exists set', set_range fuel set value stop step = Some set' /\
    forall v, 0 <= v ->
      Z.testbit set' v = Z.testbit set v || bool_decide (in_range value stop step v).
Proof.
  revert set value; induction fuel as [|fuel IH]; intros set value Hv Hs Hvs Hw Hf; [lia|].
  cbn [set_range]. destruct (Z.leb_spec value stop) as [Hle|Hgt].
  - unfold u32_wrap. rewrite Z.mod_small by lia.
    destruct (decide (value + step <= stop)) as [Hin|Hout].
    + destruct (IH (Z.lor set (Z.shiftl 1 value)) (value + step)) as (set' & -> & Hset);
        [lia..|].
      exists set'. split; [done|]. intros v Hv0. rewrite Hset by done.
      rewrite Z.lor_spec, Z.shiftl_1_l, <- orb_assoc. f_equal.
      apply eq_true_iff_eq. rewrite orb_true_iff, !bool_decide_eq_true. unfold in_range.
      rewrite Z.pow2_bits_eqb, Z.eqb_eq by lia. split.
      * intros [<-|[Hr [k Hk]]]; [split; [lia|exists 0; lia]|].
        split; [lia|]. exists (k + 1). lia.
      * intros [Hr [k Hk]]. destruct (decide (v = value)) as [->|]; [by left|]. right.
        assert (0 < k) by nia. split; [nia|]. exists (k - 1). lia.
    + destruct fuel as [|fuel]; [lia|]. cbn [set_range].
      destruct (Z.leb_spec (value + step) stop); [lia|].
      eexists. split; [done|]. intros v Hv0.
      rewrite Z.lor_spec, Z.shiftl_1_l. f_equal.
      apply eq_true_iff_eq. rewrite bool_decide_eq_true. unfold in_range.
      rewrite Z.pow2_bits_eqb, Z.eqb_eq by lia. split.
      * intros <-. split; [lia|exists 0; lia].
      * intros [Hr [k Hk]]. assert (k = 0) by nia. lia.
  - exists set. split; [done|]. intros v Hv0.
    rewrite bool_decide_false by (unfold in_range; lia). by rewrite orb_false_r.
Qed.

(** With any step the loop stops: a step that wraps only counts down. *)
Lemma set_range_down fuel set value stop step :
  0 <= value <= 59 -> stop <= 59 -> 2 ^ 32 - 60 < step < 2 ^ 32 ->
  (Z.to_nat value + 1 < fuel)%nat ->
  exists set', set_range fuel set value stop step = Some set'.
Proof.
  revert set value; induction fuel as [|fuel IH]; intros set value Hv Hst Hs Hf; [lia|].
  cbn [set_range]. destruct (Z.leb_spec value stop) as [Hle|Hgt]; [|eauto].
  unfold u32_wrap. destruct (decide (value + step < 2 ^ 32)).
  - rewrite Z.mod_small by lia. destruct fuel as [|fuel]; [lia|]. cbn [set_range].
    destruct (Z.leb_spec (value + step) stop); [lia|eauto].
  - rewrite <- (Z.mod_add _ (-1)), Z.mod_small by lia. apply IH; lia.
Qed.

Lemma set_range_total set start stop step :
  0 <= start <= 59 -> stop <= 59 -> 1 <= step < 2 ^ 32 ->
  exists set', set_range range_fuel set start stop step = Some set'.
Proof.
  intros. unfold range_fuel. destruct (decide (step <= 2 ^ 32 - 60)).
  - destruct (set_range_spec 61 set start stop step) as (s & -> & _); eauto; try lia.
  - apply set_range_down; lia.
Qed.

Lemma parse_value_ok raw min max name v :
  parse_value raw min max name = Ok v -> min <= v <= max.
Proof. unfold parse_value. intros H. repeat case_match; try discriminate. simplify_eq. lia. Qed.

(** An accepted part is a non-empty range inside the field, with a step the
    32-bit counter can hold. *)
Lemma parse_part_ok part min max name start stop step :
  min <= max -> parse_part part min max name = Ok (start, stop, step) ->
  min <= start /\ start <= stop /\ stop <= max /\ 1 <= step < 2 ^ 32.
Proof.
  intros Hmm. unfold parse_part. intros H. inv_bind.
  match goal with H : match split_once "/" part with _ => _ end = Ok ?p |- _ =>
    rename H into Hstep; destruct p as [range n] end.
  assert (Hn : 1 <= n < 2 ^ 32).
  { destruct (split_once "/" part) as [[r st]|]; [|simplify_eq; lia].
    destruct (parse_u32 st) as [u|] eqn:E; [|done]. apply parse_u32_bounds in E.
    unfold u32_max in E. destruct (Z.ltb_spec 0 u); simplify_eq; lia. }
  clear Hstep. cbn in H. inv_bind.
  match goal with p : Z * Z |- _ => destruct p as [a b] end.
  match goal with H : _ = Ok (a, b) |- _ => rename H into Hrange end.
  destruct (Z.ltb_spec b a) as [?|Hab]; [done|]. simplify_eq.
  assert (min <= start /\ stop <= max); [|lia].
  destruct (String.eqb range "*"); [simplify_eq; lia|].
  destruct (split_once "-" range) as [[x y]|]; inv_bind;
    repeat match goal with H : parse_value _ _ _ _ = Ok _ |- _ => apply parse_value_ok in H end;
    [lia|destruct (contains_char "/" part); lia].
Qed.

(** The parts of a field whose steps stay clear of the 32-bit wrap-around. *)
Definition small_steps (parts : list string) (min max : Z) (name : string) : bool :=
  forallb (fun part =>
    match parse_part part min max name with
    | Ok (_, _, step) => step <=? 2 ^ 32 - 60
    | Err _ => true
    end) parts.

Lemma parse_parts_spec parts set min max name set' :
  0 <= min -> min <= max -> max <= 59 ->
  small_steps parts min max name = true ->
  parse_parts parts set min max name = Ok set' ->
  forall v, 0 <= v -> Z.testbit set' v = true <->
    Z.testbit set v = true \/
    exists part start stop step, In part parts /\
      parse_part part min max name = Ok (start, stop, step) /\ in_range start stop step v.
Proof.
  intros Hmin Hmm Hmax. revert set; induction parts as [|part parts IH];
    intros set Hsm Hparse v Hv; cbn [parse_parts] in Hparse; [naive_solver|].
  apply andb_true_iff in Hsm as [Hp Hsm].
  apply bind_Ok in Hparse as ([[start stop] step] & Hpart & Hparse).
  pose proof (parse_part_ok _ _ _ _ _ _ _ Hmm Hpart) as (H1 & H2 & H3 & H4).
  rewrite Hpart in Hp. apply Z.leb_le in Hp.
  destruct (set_range_spec range_fuel set start stop step) as (set1 & Hr & Hbits);
    [unfold range_fuel; lia..|].
  rewrite Hr in Hparse. cbn in Hparse.
  rewrite (IH _ Hsm Hparse) by done. rewrite Hbits by done.
  rewrite orb_true_iff, bool_decide_eq_true. split.
  - intros [[H|H]|(p & a & b & s & Hin & Hp' & Hr')]; [by left|right..].
    + exists part, start, stop, step. split_and!; [by left|done..].
    + exists p, a, b, s. split_and!; [by right|done..].
  - intros [H|(p & a & b & s & [<-|Hin] & Hp' & Hr')].
    + left. by left.
    + rewrite Hpart in Hp'. injection Hp' as <- <- <-. left. by right.
    + right. by exists p, a, b, s.
Qed.

(**  An accepted cron field denotes exactly the union of its parts: bit
    [v] of the parsed set is on if and only if some comma-separated part
    covers [v], and every such [v] lies in the field's range.  (Steps within
    60 of 2^32 are excluded: the release build's counter wraps there.) *)
Theorem parse_field_spec field min max name set :
  0 <= min -> min <= max -> max <= 59 ->
  small_steps (split_char "," field) min max name = true ->
  parse_field field min max name = Ok set ->
  forall v, 0 <= v -> Z.testbit set v = true <->
    exists part start stop step, In part (split_char "," field) /\
      parse_part part min max name = Ok (start, stop, step) /\
      min <= start /\ stop <= max /\ in_range start stop step v.
Proof.
  intros Hmin Hmm Hmax Hsm Hparse v Hv. unfold parse_field in Hparse.
  rewrite (parse_parts_spec _ _ _ _ _ _ Hmin Hmm Hmax Hsm Hparse v Hv), Z.bits_0.
  split.
  - intros [?|(p & a & b & s & Hin & Hp & Hr)]; [done|].
    pose proof (parse_part_ok _ _ _ _ _ _ _ Hmm Hp). naive_solver.
  - naive_solver.
Qed.

Lemma parse_field_spec_witness :
  parse_field "1-5,*/20" 0 59 "minute" = Ok (Z.lor 62 (1 + 2 ^ 20 + 2 ^ 40)) /\
  (Z.testbit (Z.lor 62 (1 + 2 ^ 20 + 2 ^ 40)) 40 = true).
Proof.
  assert (Hp : parse_field "1-5,*/20" 0 59 "minute" = Ok (Z.lor 62 (1 + 2 ^ 20 + 2 ^ 40)))
    by (vm_compute; reflexivity).
  split; [exact Hp|].
  apply (parse_field_spec "1-5,*/20" 0 59 "minute" _); [lia..|vm_compute; reflexivity|exact Hp|lia|].
  exists "*/20"%string, 0, 59, 20. split_and!;
      [right; left; vm_compute; reflexivity|vm_compute; reflexivity|lia|lia|].
  split; [lia|]. exists 2. lia.
Defined.

(** ** Scanning minutes *)

Section scan.
(** [DateTime::from_timestamp(secs, 0)] of chrono. *)
Context (from_timestamp : Z -> option DateTime).

Definition fires (c : Cron) (minute : Z) : bool :=
  match from_timestamp minute with Some t => matches c t | None => false end.

Fixpoint scan (c : Cron) (fuel : nat) (minute until : Z) : option bool :=
  match fuel with
  | O => None
  | S fuel' =>
      if minute <=? until then
        if fires c minute then Some true else scan c fuel' (minute + 60) until
      else Some false
  end.

(** [Cron::due_between].  [i64] division truncates. *)
Definition due_between (c : Cron) (after until : Z) : bool :=
  let minute := (Z.quot after 60 + 1) * 60 in
  default false (scan c (S (Z.to_nat (until - minute + 60))) minute until).

Lemma scan_spec c fuel minute until :
  (Z.to_nat (until - minute + 60) < fuel)%nat ->
  exists b, scan c fuel minute until = Some b /\
    (b = true <-> exists k, 0 <= k /\ minute + 60 * k <= until /\ fires c (minute + 60 * k) = true).
Proof.
  revert minute; induction fuel as [|fuel IH]; intros minute Hf; [lia|]. cbn [scan].
  destruct (Z.leb_spec minute until) as [Hle|Hgt].
  - destruct (fires c minute) eqn:E.
    + exists true. split; [done|]. split; [|done]. intros _. exists 0.
      rewrite Z.mul_0_r, Z.add_0_r. split_and!; [lia|lia|done].
    + destruct (IH (minute + 60)) as (b & -> & Hb); [lia|].
      exists b. split; [done|]. rewrite Hb. split.
      * intros (k & Hk & Hle' & Hf'). exists (k + 1).
        replace (minute + 60 * (k + 1)) with (minute + 60 + 60 * k) by lia. naive_solver lia.
      * intros (k & Hk & Hle' & Hf').
        destruct (decide (k = 0)) as [->|].
        { rewrite Z.mul_0_r, Z.add_0_r in Hf'. congruence. }
        exists (k - 1). replace (minute + 60 + 60 * (k - 1)) with (minute + 60 * k) by lia.
        split_and!; [lia|lia|done].
  - exists false. split; [done|]. split; [done|]. intros (k & Hk & ? & _). lia.
Qed.

Lemma due_between_iff c after until :
  0 <= after ->
  due_between c after until = true <->
  exists m, (60 | m) /\ after < m <= until /\ fires c m = true.
Proof.
  intros Ha. unfold due_between.
  destruct (scan_spec c (S (Z.to_nat (until - (Z.quot after 60 + 1) * 60 + 60)))
              ((Z.quot after 60 + 1) * 60) until) as (b & -> & Hb); [lia|].
  cbn. rewrite Hb. rewrite Z.quot_div_nonneg by lia.
  pose proof (Z.div_mod after 60 ltac:(lia)). pose proof (Z.mod_pos_bound after 60 ltac:(lia)).
  split.
  - intros (k & Hk & Hle & Hf). exists ((after / 60 + 1) * 60 + 60 * k).
    split_and!; [exists (after / 60 + 1 + k); lia|lia|lia|done].
  - intros (m & [q ->] & Hm & Hf). exists (q - (after / 60 + 1)).
    replace ((after / 60 + 1) * 60 + 60 * (q - (after / 60 + 1))) with (q * 60) by lia.
    split_and!; [lia|lia|done].
Qed.

End scan.
End Cron.
