(* ===== verification/Db.v ===== *)
(** * The daemon's database and how handlers use it

    The SQLite tables of [crates/oored/migrations] the build lifecycle reads
    and writes, with the columns it uses; SQL statements as functions on them;
    and [M], the shape of every handler: statements that may fail with a
    store error, transactions that commit or roll back as a whole, and build
    events published to subscribers.

    A statement failure is scripted: each statement takes the next entry of
    [w_faults] and fails with the error it holds, if any, so theorems hold for
    every pattern of database failures.  Text columns with a CHECK constraint hold the
    enumeration; the JSON columns hold the fields the SQL extracts. *)

From S2P Require Import Prelude Contract RustStr Labels F64 Sizes Triggers Rollout Stores.

Local Open Scope Z_scope.

(** ** Tables *)

(** The fields of [builds.config_snapshot] that the daemon reads back. *)
Record snapshot := Snapshot {
  snap_repository_id : option string;
  snap_runs_on : list string;
  snap_retry_steps : list string;
  snap_timeout_secs : option Z;
  snap_workflow : option string;
  snap_file_size_budgets : list TargetSizeBudget;
  snap_repo_url : option string;
  snap_retry_publish_from_file : bool;
  snap_selected_platforms : option (list BuildPlatform);
}.

(** Columns of [builds] no statement updates. *)
Record build_meta := BuildMeta {
  bm_project_id : string;
  bm_pipeline_id : string;
  bm_build_number : Z;
  bm_trigger_type : TriggerType.t;
  bm_trigger_actor : option string;
  bm_trigger_event : option string;
  bm_trigger_ref : option string;
  bm_commit_sha : option string;
  bm_branch : option string;
  bm_changelog : option string;
  bm_webhook_id : option string;
  bm_approval_requested_at : option Z;
  bm_queued_at : Z;
  bm_created_at : Z;
}.

(** One row of [builds]: [b_meta] and the columns the daemon updates. *)
Record build := Build {
  b_meta : build_meta;
  b_status : BuildStatus.t;
  b_snapshot : snapshot;
  b_runner_id : option string;
  b_ran_on_runner_id : option string;
  b_signing_token_hash : option string;
  b_step_results : option string;
  b_exit_code : option Z;
  b_approval_state : option BuildApprovalState.t;
  b_approval_decided_by : option string;
  b_approval_decided_at : option Z;
  b_approval_reason : option string;
  b_started_at : option Z;
  b_finished_at : option Z;
  b_updated_at : Z;
  b_expired_from : option BuildStatus.t;
  b_source_build_id : option string;
}.

(** Column updates. *)
Definition set_status (v : BuildStatus.t) (b : build) : build :=
  Build (b_meta b) v (b_snapshot b) (b_runner_id b) (b_ran_on_runner_id b)
    (b_signing_token_hash b) (b_step_results b) (b_exit_code b) (b_approval_state b)
    (b_approval_decided_by b) (b_approval_decided_at b) (b_approval_reason b)
    (b_started_at b) (b_finished_at b) (b_updated_at b) (b_expired_from b)
    (b_source_build_id b).

Definition set_snapshot (v : snapshot) (b : build) : build :=
  Build (b_meta b) (b_status b) v (b_runner_id b) (b_ran_on_runner_id b)
    (b_signing_token_hash b) (b_step_results b) (b_exit_code b) (b_approval_state b)
    (b_approval_decided_by b) (b_approval_decided_at b) (b_approval_reason b)
    (b_started_at b) (b_finished_at b) (b_updated_at b) (b_expired_from b)
    (b_source_build_id b).

Definition set_runner_id (v : option string) (b : build) : build :=
  Build (b_meta b) (b_status b) (b_snapshot b) v (b_ran_on_runner_id b)
    (b_signing_token_hash b) (b_step_results b) (b_exit_code b) (b_approval_state b)
    (b_approval_decided_by b) (b_approval_decided_at b) (b_approval_reason b)
    (b_started_at b) (b_finished_at b) (b_updated_at b) (b_expired_from b)
    (b_source_build_id b).

Definition set_ran_on_runner_id (v : option string) (b : build) : build :=
  Build (b_meta b) (b_status b) (b_snapshot b) (b_runner_id b) v (b_signing_token_hash b)
    (b_step_results b) (b_exit_code b) (b_approval_state b) (b_approval_decided_by b)
    (b_approval_decided_at b) (b_approval_reason b) (b_started_at b) (b_finished_at b)
    (b_updated_at b) (b_expired_from b) (b_source_build_id b).

Definition set_signing_token_hash (v : option string) (b : build) : build :=
  Build (b_meta b) (b_status b) (b_snapshot b) (b_runner_id b) (b_ran_on_runner_id b) v
    (b_step_results b) (b_exit_code b) (b_approval_state b) (b_approval_decided_by b)
    (b_approval_decided_at b) (b_approval_reason b) (b_started_at b) (b_finished_at b)
    (b_updated_at b) (b_expired_from b) (b_source_build_id b).

Definition set_step_results (v : option string) (b : build) : build :=
  Build (b_meta b) (b_status b) (b_snapshot b) (b_runner_id b) (b_ran_on_runner_id b)
    (b_signing_token_hash b) v (b_exit_code b) (b_approval_state b)
    (b_approval_decided_by b) (b_approval_decided_at b) (b_approval_reason b)
    (b_started_at b) (b_finished_at b) (b_updated_at b) (b_expired_from b)
    (b_source_build_id b).

Definition set_exit_code (v : option Z) (b : build) : build :=
  Build (b_meta b) (b_status b) (b_snapshot b) (b_runner_id b) (b_ran_on_runner_id b)
    (b_signing_token_hash b) (b_step_results b) v (b_approval_state b)
    (b_approval_decided_by b) (b_approval_decided_at b) (b_approval_reason b)
    (b_started_at b) (b_finished_at b) (b_updated_at b) (b_expired_from b)
    (b_source_build_id b).

Definition set_approval_state (v : option BuildApprovalState.t) (b : build) : build :=
  Build (b_meta b) (b_status b) (b_snapshot b) (b_runner_id b) (b_ran_on_runner_id b)
    (b_signing_token_hash b) (b_step_results b) (b_exit_code b) v
    (b_approval_decided_by b) (b_approval_decided_at b) (b_approval_reason b)
    (b_started_at b) (b_finished_at b) (b_updated_at b) (b_expired_from b)
    (b_source_build_id b).

Definition set_approval_decided_by (v : option string) (b : build) : build :=
  Build (b_meta b) (b_status b) (b_snapshot b) (b_runner_id b) (b_ran_on_runner_id b)
    (b_signing_token_hash b) (b_step_results b) (b_exit_code b) (b_approval_state b) v
    (b_approval_decided_at b) (b_approval_reason b) (b_started_at b) (b_finished_at b)
    (b_updated_at b) (b_expired_from b) (b_source_build_id b).

Definition set_approval_decided_at (v : option Z) (b : build) : build :=
  Build (b_meta b) (b_status b) (b_snapshot b) (b_runner_id b) (b_ran_on_runner_id b)
    (b_signing_token_hash b) (b_step_results b) (b_exit_code b) (b_approval_state b)
    (b_approval_decided_by b) v (b_approval_reason b) (b_started_at b) (b_finished_at b)
    (b_updated_at b) (b_expired_from b) (b_source_build_id b).

Definition set_approval_reason (v : option string) (b : build) : build :=
  Build (b_meta b) (b_status b) (b_snapshot b) (b_runner_id b) (b_ran_on_runner_id b)
    (b_signing_token_hash b) (b_step_results b) (b_exit_code b) (b_approval_state b)
    (b_approval_decided_by b) (b_approval_decided_at b) v (b_started_at b)
    (b_finished_at b) (b_updated_at b) (b_expired_from b) (b_source_build_id b).

Definition set_started_at (v : option Z) (b : build) : build :=
  Build (b_meta b) (b_status b) (b_snapshot b) (b_runner_id b) (b_ran_on_runner_id b)
    (b_signing_token_hash b) (b_step_results b) (b_exit_code b) (b_approval_state b)
    (b_approval_decided_by b) (b_approval_decided_at b) (b_approval_reason b) v
    (b_finished_at b) (b_updated_at b) (b_expired_from b) (b_source_build_id b).

Definition set_finished_at (v : option Z) (b : build) : build :=
  Build (b_meta b) (b_status b) (b_snapshot b) (b_runner_id b) (b_ran_on_runner_id b)
    (b_signing_token_hash b) (b_step_results b) (b_exit_code b) (b_approval_state b)
    (b_approval_decided_by b) (b_approval_decided_at b) (b_approval_reason b)
    (b_started_at b) v (b_updated_at b) (b_expired_from b) (b_source_build_id b).

Definition set_updated_at (v : Z) (b : build) : build :=
  Build (b_meta b) (b_status b) (b_snapshot b) (b_runner_id b) (b_ran_on_runner_id b)
    (b_signing_token_hash b) (b_step_results b) (b_exit_code b) (b_approval_state b)
    (b_approval_decided_by b) (b_approval_decided_at b) (b_approval_reason b)
    (b_started_at b) (b_finished_at b) v (b_expired_from b) (b_source_build_id b).

Definition set_expired_from (v : option BuildStatus.t) (b : build) : build :=
  Build (b_meta b) (b_status b) (b_snapshot b) (b_runner_id b) (b_ran_on_runner_id b)
    (b_signing_token_hash b) (b_step_results b) (b_exit_code b) (b_approval_state b)
    (b_approval_decided_by b) (b_approval_decided_at b) (b_approval_reason b)
    (b_started_at b) (b_finished_at b) (b_updated_at b) v (b_source_build_id b).

Definition set_source_build_id (v : option string) (b : build) : build :=
  Build (b_meta b) (b_status b) (b_snapshot b) (b_runner_id b) (b_ran_on_runner_id b)
    (b_signing_token_hash b) (b_step_results b) (b_exit_code b) (b_approval_state b)
    (b_approval_decided_by b) (b_approval_decided_at b) (b_approval_reason b)
    (b_started_at b) (b_finished_at b) (b_updated_at b) (b_expired_from b) v.

Definition b_project_id (b : build) : string := bm_project_id (b_meta b).
Definition b_pipeline_id (b : build) : string := bm_pipeline_id (b_meta b).
Definition b_build_number (b : build) : Z := bm_build_number (b_meta b).
Definition b_branch (b : build) : option string := bm_branch (b_meta b).
Definition b_queued_at (b : build) : Z := bm_queued_at (b_meta b).

(** [build_events]. *)
Record build_event := BuildEvent {
  ev_build_id : string;
  ev_from_status : option BuildStatus.t;
  ev_to_status : BuildStatus.t;
  ev_actor : option string;
  ev_reason : option string;
  ev_created_at : Z;
}.

(** [struct RunnerMetrics]; [cpu_percent] and the sizes no statement reads are
    left out. *)
Record RunnerMetrics := Metrics {
  disk_free_bytes : Z;
  collected_at : option Z;
}.

(** [runners]; the JSON columns hold their values. *)
Record runner := Runner {
  r_name : string;
  r_token_hash : string;
  r_status : RunnerStatus.t;
  r_capabilities : Json.Value;
  r_custom_labels : list string;
  r_labels : list string;
  r_metrics : option RunnerMetrics;
  r_max_concurrent_builds : Z;
  r_last_heartbeat_at : option Z;
  r_cache_purge_requested_at : option Z;
  r_registered_by : option string;
  r_created_at : Z;
  r_updated_at : Z;
}.

Definition set_r_name (v : string) (r : runner) : runner :=
  Runner v (r_token_hash r) (r_status r) (r_capabilities r) (r_custom_labels r) (r_labels
    r) (r_metrics r) (r_max_concurrent_builds r) (r_last_heartbeat_at r)
    (r_cache_purge_requested_at r) (r_registered_by r) (r_created_at r) (r_updated_at r).

Definition set_r_status (v : RunnerStatus.t) (r : runner) : runner :=
  Runner (r_name r) (r_token_hash r) v (r_capabilities r) (r_custom_labels r) (r_labels r)
    (r_metrics r) (r_max_concurrent_builds r) (r_last_heartbeat_at r)
    (r_cache_purge_requested_at r) (r_registered_by r) (r_created_at r) (r_updated_at r).

Definition set_r_capabilities (v : Json.Value) (r : runner) : runner :=
  Runner (r_name r) (r_token_hash r) (r_status r) v (r_custom_labels r) (r_labels r)
    (r_metrics r) (r_max_concurrent_builds r) (r_last_heartbeat_at r)
    (r_cache_purge_requested_at r) (r_registered_by r) (r_created_at r) (r_updated_at r).

Definition set_r_custom_labels (v : list string) (r : runner) : runner :=
  Runner (r_name r) (r_token_hash r) (r_status r) (r_capabilities r) v (r_labels r)
    (r_metrics r) (r_max_concurrent_builds r) (r_last_heartbeat_at r)
    (r_cache_purge_requested_at r) (r_registered_by r) (r_created_at r) (r_updated_at r).

Definition set_r_labels (v : list string) (r : runner) : runner :=
  Runner (r_name r) (r_token_hash r) (r_status r) (r_capabilities r) (r_custom_labels r) v
    (r_metrics r) (r_max_concurrent_builds r) (r_last_heartbeat_at r)
    (r_cache_purge_requested_at r) (r_registered_by r) (r_created_at r) (r_updated_at r).

Definition set_r_metrics (v : option RunnerMetrics) (r : runner) : runner :=
  Runner (r_name r) (r_token_hash r) (r_status r) (r_capabilities r) (r_custom_labels r)
    (r_labels r) v (r_max_concurrent_builds r) (r_last_heartbeat_at r)
    (r_cache_purge_requested_at r) (r_registered_by r) (r_created_at r) (r_updated_at r).

Definition set_r_max_concurrent_builds (v : Z) (r : runner) : runner :=
  Runner (r_name r) (r_token_hash r) (r_status r) (r_capabilities r) (r_custom_labels r)
    (r_labels r) (r_metrics r) v (r_last_heartbeat_at r) (r_cache_purge_requested_at r)
    (r_registered_by r) (r_created_at r) (r_updated_at r).

Definition set_r_last_heartbeat_at (v : option Z) (r : runner) : runner :=
  Runner (r_name r) (r_token_hash r) (r_status r) (r_capabilities r) (r_custom_labels r)
    (r_labels r) (r_metrics r) (r_max_concurrent_builds r) v (r_cache_purge_requested_at
    r) (r_registered_by r) (r_created_at r) (r_updated_at r).

Definition set_r_cache_purge_requested_at (v : option Z) (r : runner) : runner :=
  Runner (r_name r) (r_token_hash r) (r_status r) (r_capabilities r) (r_custom_labels r)
    (r_labels r) (r_metrics r) (r_max_concurrent_builds r) (r_last_heartbeat_at r) v
    (r_registered_by r) (r_created_at r) (r_updated_at r).

Definition set_r_updated_at (v : Z) (r : runner) : runner :=
  Runner (r_name r) (r_token_hash r) (r_status r) (r_capabilities r) (r_custom_labels r)
    (r_labels r) (r_metrics r) (r_max_concurrent_builds r) (r_last_heartbeat_at r)
    (r_cache_purge_requested_at r) (r_registered_by r) (r_created_at r) v.

(** [pipelines]; [pl_runs_on] and [pl_platforms] are the fields of the
    execution config read here. *)
Record pipeline := Pipeline {
  pl_project_id : string;
  pl_enabled : bool;
  pl_concurrency : ConcurrencyPolicy;
  pl_approval : ApprovalPolicy;
  pl_timeout_minutes : Z;
  pl_trigger_config : TriggerConfig;
  pl_runs_on : list string;
  pl_workflow : option string;
  pl_config_path : string;
  pl_platforms : list BuildPlatform;
}.

(** [projects]. *)
Record project := Project {
  pr_repository_id : option string;
  pr_default_branch : option string;
}.

(** [integration_repositories]. *)
Record repository := Repository {
  rp_installation_id : string;
  rp_external_id : string;
  rp_full_name : string;
  rp_html_url : option string;
}.

(** [integrations]. *)
Record integration := Integration {
  ig_provider : ScmProvider.t;
  ig_host_url : string;
  ig_status : IntegrationStatus.t;
}.

Module WebhookStatus.

(** The texts the CHECK of [integration_webhooks.status] allows. *)
Inductive t : Set := Received | Processed | Ignored | Failed.

#[global] Instance eq_dec : EqDecision t.
Proof. solve_decision. Defined.

End WebhookStatus.

(** Columns of [integration_webhooks] no statement updates. *)
Record webhook_meta := WebhookMeta {
  wm_integration_id : string;
  wm_provider_delivery_id : string;
  wm_event_type : string;
  wm_payload : string;
  wm_received_at : Z;
}.

(** One row of [integration_webhooks]. *)
Record webhook := Webhook {
  wh_meta : webhook_meta;
  wh_status : WebhookStatus.t;
  wh_processing_error : option string;
  wh_processed_at : option Z;
  wh_processing_attempts : Z;
  wh_processing_started_at : option Z;
  wh_next_attempt_at : option Z;
}.

(** [operator_incidents], keyed by [deduplication_key]. *)
Record incident := Incident {
  inc_id : string;
  inc_open : bool;
  inc_severity : string;
  inc_reason : string;
  inc_resource_kind : string;
  inc_resource_id : string;
  inc_repair_url : string;
  inc_first_occurrence_at : Z;
  inc_latest_occurrence_at : Z;
  inc_occurrence_count : Z;
  inc_resolved_at : option Z;
}.

(** [operator_incident_notifications], keyed by incident and user. *)
Record notification := Notification {
  nt_created_at : Z;
  nt_read_at : option Z;
}.

(** [users]. *)
Record user := User {
  u_email : string;
  u_oidc_subject : string;
  u_display_name : option string;
  u_role : string;
  u_status : string;
  u_avatar_url : option string;
  u_invited_by : option string;
  u_created_at : Z;
  u_updated_at : Z;
}.

(** One row of [build_logs], less its identifiers. *)
Record log_row := LogRow {
  lg_sequence : Z;
  lg_content : string;
  lg_stream : string;
}.

(** [sessions], keyed by the hash of the token. *)
Record session_row := SessionRow {
  ss_user_id : string;
  ss_created_at : Z;
  ss_expires_at : Z;
}.

(** [api_tokens]. *)
Record api_token := ApiTokenRow {
  at_name : string;
  at_token_hash : string;
  at_prefix : string;
  at_created_by : string;
  at_role : string;
  at_expires_at : option Z;
  at_last_used_at : option Z;
  at_revoked_at : option Z;
  at_created_at : Z;
}.

(** [audit_logs]; the JSON details are left out. *)
Record audit_log := AuditLog {
  al_actor_id : option string;
  al_action : string;
  al_resource_type : string;
  al_resource_id : option string;
}.

(** [artifacts]; [ar_available] is [state = 'available'], the JSON metadata is
    its value. *)
Record artifact := Artifact {
  ar_id : string;
  ar_build_id : string;
  ar_name : string;
  ar_type : string;
  ar_file_path : string;
  ar_file_size : option Z;
  ar_metadata : Json.Value;
  ar_created_at : Z;
  ar_expires_at : option Z;
  ar_available : bool;
}.

(** Columns of [releases] no statement updates; the JSON policy is its value,
    and the artifact, which nothing reads back, is left out. *)
Record release_meta := ReleaseMeta {
  rm_project_id : string;
  rm_build_id : string;
  rm_artifact_id : option string;
  rm_store : ReleaseStore.t;
  rm_track : string;
  rm_package_name : option string;
  rm_version_name : option string;
  rm_version_code : option Z;
  rm_policy : ReleasePolicy;
  rm_created_by : option string;
  rm_created_at : Z;
}.

(** One row of [releases]. *)
Record release := ReleaseRow {
  rl_meta : release_meta;
  rl_state : ReleaseState.t;
  rl_rollout_fraction : f64;
  rl_next_step_at : option Z;
  rl_crash_rate : option f64;
  rl_crash_rate_checked_at : option Z;
  rl_store_checked_at : option Z;
  rl_health_error : option string;
  rl_approved_at : option Z;
  rl_approved_by : option string;
  rl_environment_id : option string;
  rl_promoted_from_release_id : option string;
  rl_updated_at : Z;
}.

Definition set_rl_state (v : ReleaseState.t) (r : release) : release :=
  ReleaseRow (rl_meta r) v (rl_rollout_fraction r) (rl_next_step_at r) (rl_crash_rate r)
    (rl_crash_rate_checked_at r) (rl_store_checked_at r) (rl_health_error r)
    (rl_approved_at r) (rl_approved_by r) (rl_environment_id r)
    (rl_promoted_from_release_id r) (rl_updated_at r).

Definition set_rl_rollout_fraction (v : f64) (r : release) : release :=
  ReleaseRow (rl_meta r) (rl_state r) v (rl_next_step_at r) (rl_crash_rate r)
    (rl_crash_rate_checked_at r) (rl_store_checked_at r) (rl_health_error r)
    (rl_approved_at r) (rl_approved_by r) (rl_environment_id r)
    (rl_promoted_from_release_id r) (rl_updated_at r).

Definition set_rl_next_step_at (v : option Z) (r : release) : release :=
  ReleaseRow (rl_meta r) (rl_state r) (rl_rollout_fraction r) v (rl_crash_rate r)
    (rl_crash_rate_checked_at r) (rl_store_checked_at r) (rl_health_error r)
    (rl_approved_at r) (rl_approved_by r) (rl_environment_id r)
    (rl_promoted_from_release_id r) (rl_updated_at r).

Definition set_rl_crash_rate (v : option f64) (r : release) : release :=
  ReleaseRow (rl_meta r) (rl_state r) (rl_rollout_fraction r) (rl_next_step_at r) v
    (rl_crash_rate_checked_at r) (rl_store_checked_at r) (rl_health_error r)
    (rl_approved_at r) (rl_approved_by r) (rl_environment_id r)
    (rl_promoted_from_release_id r) (rl_updated_at r).

Definition set_rl_crash_rate_checked_at (v : option Z) (r : release) : release :=
  ReleaseRow (rl_meta r) (rl_state r) (rl_rollout_fraction r) (rl_next_step_at r)
    (rl_crash_rate r) v (rl_store_checked_at r) (rl_health_error r) (rl_approved_at r)
    (rl_approved_by r) (rl_environment_id r) (rl_promoted_from_release_id r)
    (rl_updated_at r).

Definition set_rl_store_checked_at (v : option Z) (r : release) : release :=
  ReleaseRow (rl_meta r) (rl_state r) (rl_rollout_fraction r) (rl_next_step_at r)
    (rl_crash_rate r) (rl_crash_rate_checked_at r) v (rl_health_error r) (rl_approved_at
    r) (rl_approved_by r) (rl_environment_id r) (rl_promoted_from_release_id r)
    (rl_updated_at r).

Definition set_rl_health_error (v : option string) (r : release) : release :=
  ReleaseRow (rl_meta r) (rl_state r) (rl_rollout_fraction r) (rl_next_step_at r)
    (rl_crash_rate r) (rl_crash_rate_checked_at r) (rl_store_checked_at r) v
    (rl_approved_at r) (rl_approved_by r) (rl_environment_id r)
    (rl_promoted_from_release_id r) (rl_updated_at r).

Definition set_rl_approved_at (v : option Z) (r : release) : release :=
  ReleaseRow (rl_meta r) (rl_state r) (rl_rollout_fraction r) (rl_next_step_at r)
    (rl_crash_rate r) (rl_crash_rate_checked_at r) (rl_store_checked_at r)
    (rl_health_error r) v (rl_approved_by r) (rl_environment_id r)
    (rl_promoted_from_release_id r) (rl_updated_at r).

Definition set_rl_approved_by (v : option string) (r : release) : release :=
  ReleaseRow (rl_meta r) (rl_state r) (rl_rollout_fraction r) (rl_next_step_at r)
    (rl_crash_rate r) (rl_crash_rate_checked_at r) (rl_store_checked_at r)
    (rl_health_error r) (rl_approved_at r) v (rl_environment_id r)
    (rl_promoted_from_release_id r) (rl_updated_at r).

Definition set_rl_environment_id (v : option string) (r : release) : release :=
  ReleaseRow (rl_meta r) (rl_state r) (rl_rollout_fraction r) (rl_next_step_at r)
    (rl_crash_rate r) (rl_crash_rate_checked_at r) (rl_store_checked_at r)
    (rl_health_error r) (rl_approved_at r) (rl_approved_by r) v
    (rl_promoted_from_release_id r) (rl_updated_at r).

Definition set_rl_promoted_from_release_id (v : option string) (r : release) : release :=
  ReleaseRow (rl_meta r) (rl_state r) (rl_rollout_fraction r) (rl_next_step_at r)
    (rl_crash_rate r) (rl_crash_rate_checked_at r) (rl_store_checked_at r)
    (rl_health_error r) (rl_approved_at r) (rl_approved_by r) (rl_environment_id r) v
    (rl_updated_at r).

Definition set_rl_updated_at (v : Z) (r : release) : release :=
  ReleaseRow (rl_meta r) (rl_state r) (rl_rollout_fraction r) (rl_next_step_at r)
    (rl_crash_rate r) (rl_crash_rate_checked_at r) (rl_store_checked_at r)
    (rl_health_error r) (rl_approved_at r) (rl_approved_by r) (rl_environment_id r)
    (rl_promoted_from_release_id r) v.

Definition rl_project_id (r : release) : string := rm_project_id (rl_meta r).
Definition rl_build_id (r : release) : string := rm_build_id (rl_meta r).
Definition rl_store (r : release) : ReleaseStore.t := rm_store (rl_meta r).
Definition rl_track (r : release) : string := rm_track (rl_meta r).
Definition rl_policy (r : release) : ReleasePolicy := rm_policy (rl_meta r).

(** [release_history]. *)
Record release_history_entry := HistoryEntry {
  rh_release_id : string;
  rh_actor_id : option string;
  rh_actor_email : option string;
  rh_from_state : option ReleaseState.t;
  rh_to_state : ReleaseState.t;
  rh_from_fraction : option f64;
  rh_to_fraction : option f64;
  rh_reason : option string;
  rh_at : Z;
}.

(** [project_environments]. *)
Record environment := EnvironmentRow {
  pe_project_id : string;
  pe_key : string;
  pe_name : string;
  pe_position : Z;
  pe_store : ReleaseStore.t;
  pe_track : string;
  pe_approval_required : bool;
  pe_policy : ReleasePolicy;
  pe_submit_for_review : bool;
  pe_approver_role : option ApproverRole.t;
  pe_created_by : option string;
  pe_updated_by : option string;
  pe_created_at : Z;
  pe_updated_at : Z;
}.

(** [environment_promotions]. *)
Record promotion := PromotionRow {
  pm_project_id : string;
  pm_build_id : string;
  pm_environment_id : string;
  pm_source_release_id : string;
  pm_release_id : option string;
  pm_state : PromotionState.t;
  pm_reason : option string;
  pm_decision_reason : option string;
  pm_error : option string;
  pm_requested_by : option string;
  pm_decided_by : option string;
  pm_decided_at : option Z;
  pm_created_at : Z;
  pm_updated_at : Z;
}.

(** A row of [pipeline_ios_signing_settings]: whether signing is on, the export
    method, the pipeline's own API key and the shared one it selects. *)
Record signing_settings := SigningSettings {
  is_enabled : bool;
  is_export_method : string;
  is_api_key_id : option string;
  is_api_issuer_id : option string;
  is_api_private_key_encrypted : option string;
  is_shared_api_key_id : option string;
}.

(** A row of [app_store_connect_keys]. *)
Record asc_key := AscKey {
  ak_key_id : string;
  ak_issuer_id : string;
  ak_private_key_encrypted : string;
}.

(** A row of [app_store_release_links]: how the monitor follows an App Store
    release. *)
Record app_store_link := AppStoreLink {
  al_pipeline_id : string;
  al_bundle_id : string;
  al_version : string;
  al_build_number : string;
  al_config : AppStorePublishConfig;
  al_stage : Stage.t;
  al_asc_app_id : option string;
  al_asc_build_id : option string;
  al_asc_version_id : option string;
  al_last_error : option string;
  al_failing_since : option Z;
  al_store_status : option string;
  al_next_poll_at : Z;
  al_created_at : Z;
  al_updated_at : Z;
}.

(** Where a secret of [secrets] is visible, and its name. *)
Inductive secret_scope : Set :=
  | InstanceScope
  | ProjectScope (project_id : string)
  | PipelineScope (project_id pipeline_id : string).

Record secret := Secret { sc_scope : secret_scope; sc_name : string }.

(** [struct RetentionPolicy], the row of [retention_policy]. *)
Record RetentionPolicy := {
  rp_enabled : bool;
  max_age_days : option Z;
  max_builds_per_project : option Z;
  max_artifact_size_bytes : option Z;
  cleanup_target : RetentionCleanupTarget.t;
  keep_statuses : list string;
  dry_run : bool;
  cleanup_interval_secs : Z;
  artifact_ttl_days : option Z;
}.

(** [struct ProjectRetentionOverride], a row of [project_retention_overrides]. *)
Record ProjectRetentionOverride := {
  ov_enabled : option bool;
  ov_max_age_days : option Z;
  ov_max_builds_per_project : option Z;
  ov_max_artifact_size_bytes : option Z;
  ov_cleanup_target : option RetentionCleanupTarget.t;
  ov_keep_statuses : option (list string);
  ov_artifact_ttl_days : option Z;
}.

(** [struct BootstrapTokenRecord]. *)
Record BootstrapTokenRecord := {
  bt_hash : string;
  bt_expires_at : Z;
  bt_consumed_at : option Z;
}.

(** [struct SetupSessionRecord]. *)
Record SetupSessionRecord := {
  sx_hash : string;
  sx_expires_at : Z;
}.

(** [struct OidcConfigRecord]. *)
Record OidcConfigRecord := {
  oc_issuer_url : string;
  oc_client_id : string;
  oc_has_client_secret : bool;
  oc_authorization_endpoint : string;
  oc_token_endpoint : string;
  oc_userinfo_endpoint : option string;
  oc_jwks_uri : string;
  oc_configured_at : Z;
}.

(** [struct OidcSecretRecord]. *)
Record OidcSecretRecord := {
  os_encrypted_client_secret : string;
  os_stored_at : Z;
}.

(** [struct OwnerRecord]. *)
Record OwnerRecord := {
  ow_email : string;
  ow_oidc_subject : option string;
  ow_created_at : Z;
}.

(** [struct SetupStateFile], the row of [setup_state]; the schema version and
    the time of creation are left out. *)
Record SetupStateFile := {
  sf_instance_id : string;
  sf_setup_state : SetupState.t;
  sf_bootstrap_token : option BootstrapTokenRecord;
  sf_setup_session : option SetupSessionRecord;
  sf_oidc_config : option OidcConfigRecord;
  sf_oidc_secret : option OidcSecretRecord;
  sf_owner : option OwnerRecord;
  sf_updated_at : Z;
}.

(** The row of [trusted_proxy_settings], its JSON list decoded. *)
Record trusted_proxy_row := TrustedProxyRow {
  tp_user_email_header : string;
  tp_setup_owner_email : option string;
  tp_trusted_proxy_cidrs : list string;
  tp_encrypted_shared_secret : option string;
  tp_encrypted_warpgate_ticket : option string;
  tp_updated_at : Z;
}.

(** How the instance is reached: the texts of [runtime_mode] and
    [remote_auth_mode] of [instance_preferences] ([None] without a row) and the
    settings of a trusted proxy. *)
Record access_settings := AccessSettings {
  as_modes : option (string * string);
  as_trusted_proxy : option trusted_proxy_row;
}.

Module IpAddr.

(** [std::net::IpAddr]: the 32 or 128 bits of an address. *)
Inductive t : Set :=
  | V4 (bits : N)
  | V6 (bits : N).

#[global] Instance eq_dec : EqDecision t.
Proof. solve_decision. Defined.

#[global] Instance countable : Countable t.
Proof.
  apply (inj_countable'
    (fun a => match a with V4 n => inl n | V6 n => inr n end)
    (fun s => match s with inl n => V4 n | inr n => V6 n end)).
  by intros [].
Defined.

(** [is_loopback]: 127.0.0.0/8, and ::1. *)
Definition is_loopback (a : t) : bool :=
  match a with
  | V4 bits => N.eqb (N.shiftr bits 24) 127
  | V6 bits => N.eqb bits 1
  end.

End IpAddr.

(** [auth::SetupOidcAuthorization]: the setup and the OIDC settings an owner's
    sign-in was started under. *)
Record SetupOidcAuthorization := {
  sa_generation : string;
  sa_instance_id : string;
  sa_session_hash : string;
  sa_issuer_url : string;
  sa_client_id : string;
  sa_has_client_secret : bool;
  sa_authorization_endpoint : string;
  sa_token_endpoint : string;
  sa_userinfo_endpoint : option string;
  sa_jwks_uri : string;
  sa_configured_at : Z;
  sa_encrypted_client_secret : option string;
  sa_secret_stored_at : option Z;
  sa_redirect_uri : string;
}.

(** [auth::PendingAuth]. *)
Record PendingAuth := {
  pa_pkce_verifier : string;
  pa_nonce : string;
  pa_redirect_uri : string;
  pa_created_at : Z;
  pa_setup : option SetupOidcAuthorization;
}.

(** [auth::PendingAuthStore]. *)
Record PendingAuthStore := {
  pending : gmap string PendingAuth;
  reservations : gmap string Z;
  global_starts : list Z;
  source_starts : gmap IpAddr.t (list Z);
  setup_generation : string;
}.

(** [local_recovery::RecoveryCapability]. *)
Record RecoveryCapability := {
  rc_id : string;
  rc_user_id : string;
  rc_user_email : string;
  rc_expires_at : Z;
}.

(** [BootstrapFailureBudget]. *)
Record BootstrapFailureBudget := {
  bf_active_token_hash : option string;
  bf_failures : Z;
}.

(** [webhooks::CachedWebhookSecret]. *)
Record CachedWebhookSecret := {
  ws_integration_id : string;
  ws_repository_id : option string;
  ws_repository_external_id : option string;
  ws_repository_full_name : option string;
  ws_secret : string;
}.

(** [webhooks::ProviderSecretCache]. *)
Record ProviderSecretCache := {
  refreshed_at : Z;
  entries : list CachedWebhookSecret;
}.

(** [webhooks::WebhookSecretCache]. *)
Record WebhookSecretCache := {
  cache_github : ProviderSecretCache;
  cache_gitlab : ProviderSecretCache;
}.

(** [session::AuthSource]. *)
Inductive AuthSource : Set :=
  | Session
  | ApiToken.

#[global] Instance AuthSource_eq_dec : EqDecision AuthSource.
Proof. solve_decision. Defined.

(** [logs::StreamAuthorization]. *)
Record StreamAuthorization := {
  sa_user_id : string;
  sa_credential_hash : string;
  sa_auth_source : AuthSource;
  sa_expires_at : Z;
}.

(** [logs::StreamTokenEntry]. *)
Record StreamTokenEntry := {
  st_authorization : StreamAuthorization;
  st_build_id : string;
}.

(** [logs::StreamState]; the tokens are keyed by their hash. *)
Record StreamState := Streams {
  stream_tokens : gmap string StreamTokenEntry;
  active_by_user : gmap string Z;
  active_by_build : gmap string Z;
  active_total : Z;
}.

(** What the daemon holds in memory: the sign-ins under way ([AppState]), the
    webhook secrets it read last ([WEBHOOK_SECRET_CACHE]) and the log streams
    ([StreamTokenStore]). *)
Record daemon_memory := Memory {
  pending_auth : PendingAuthStore;
  recovery_capabilities : gmap string RecoveryCapability;
  bootstrap_failures : BootstrapFailureBudget;
  webhook_secrets : WebhookSecretCache;
  streams : StreamState;
}.

(** The database.  [installations] gives an installation's integration,
    [schedule_runs] a schedule's checkpoint; [runner_paused] is
    [instance_preferences.direct_macos_runner_paused], false when unset;
    [transition_lease] the row of [runner_service_transition_lease];
    [feedback_screenshots] the build and key of each feedback screenshot;
    [environment_approvers] pairs an environment with a named approver;
    [app_store_links] holds the monitor's link of a release; [play_targets]
    and [app_store_targets] are the publishing settings of a pipeline;
    [setup_row] is the row of [setup_state]; [credentials] gives the encrypted
    value of an integration's credential of a type, [repository_secrets] the
    encrypted webhook secret of a repository; [build_logs] lists the lines of a
    build by [sequence], as its unique index does.  [memory] is the daemon's own and
    [objects] are the keys in artifact storage; no transaction covers them. *)
Record db := Db {
  builds : gmap string build;
  build_events : list build_event;
  runners : gmap string runner;
  pipelines : gmap string pipeline;
  projects : gmap string project;
  repositories : gmap string repository;
  installations : gmap string string;
  integrations : gmap string integration;
  incidents : gmap string incident;
  incident_notifications : gmap (string * string) notification;
  users : gmap string user;
  runner_paused : bool;
  transition_lease : option (string * Z);
  webhook_claims : gmap (string * string * string) string;
  members : gmap (string * string) string;
  schedule_runs : gmap (string * string) Z;
  audit_logs : list audit_log;
  artifacts : list artifact;
  releases : gmap string release;
  release_history : list release_history_entry;
  project_environments : gmap string environment;
  environment_approvers : gset (string * string);
  environment_promotions : gmap string promotion;
  app_store_links : gmap string app_store_link;
  play_targets : gmap string GooglePlayPublishConfig;
  app_store_targets : gmap string AppStorePublishConfig;
  ios_signing : gmap string signing_settings;
  asc_keys : gmap string asc_key;
  secrets : list secret;
  retention_policy : option RetentionPolicy;
  retention_overrides : gmap string ProjectRetentionOverride;
  feedback_screenshots : list (string * string);
  sessions : gmap string session_row;
  api_tokens : gmap string api_token;
  setup_row : option SetupStateFile;
  access : access_settings;
  memory : daemon_memory;
  credentials : gmap (string * string) string;
  repository_secrets : gmap string string;
  webhooks : gmap string webhook;
  build_logs : gmap string (list log_row);
  objects : gset string;
}.

Definition set_builds (v : gmap string build) (d : db) : db :=
  Db v (build_events d) (runners d) (pipelines d) (projects d) (repositories d)
    (installations d) (integrations d) (incidents d) (incident_notifications d) (users d)
    (runner_paused d) (transition_lease d) (webhook_claims d) (members d) (schedule_runs
    d) (audit_logs d) (artifacts d) (releases d) (release_history d) (project_environments
    d) (environment_approvers d) (environment_promotions d) (app_store_links d)
    (play_targets d) (app_store_targets d) (ios_signing d) (asc_keys d) (secrets d)
    (retention_policy d) (retention_overrides d) (feedback_screenshots d) (sessions d)
    (api_tokens d) (setup_row d) (access d) (memory d) (credentials d) (repository_secrets
    d) (webhooks d) (build_logs d) (objects d).

Definition set_build_events (v : list build_event) (d : db) : db :=
  Db (builds d) v (runners d) (pipelines d) (projects d) (repositories d) (installations
    d) (integrations d) (incidents d) (incident_notifications d) (users d) (runner_paused
    d) (transition_lease d) (webhook_claims d) (members d) (schedule_runs d) (audit_logs
    d) (artifacts d) (releases d) (release_history d) (project_environments d)
    (environment_approvers d) (environment_promotions d) (app_store_links d) (play_targets
    d) (app_store_targets d) (ios_signing d) (asc_keys d) (secrets d) (retention_policy d)
    (retention_overrides d) (feedback_screenshots d) (sessions d) (api_tokens d)
    (setup_row d) (access d) (memory d) (credentials d) (repository_secrets d) (webhooks
    d) (build_logs d) (objects d).

Definition set_runners (v : gmap string runner) (d : db) : db :=
  Db (builds d) (build_events d) v (pipelines d) (projects d) (repositories d)
    (installations d) (integrations d) (incidents d) (incident_notifications d) (users d)
    (runner_paused d) (transition_lease d) (webhook_claims d) (members d) (schedule_runs
    d) (audit_logs d) (artifacts d) (releases d) (release_history d) (project_environments
    d) (environment_approvers d) (environment_promotions d) (app_store_links d)
    (play_targets d) (app_store_targets d) (ios_signing d) (asc_keys d) (secrets d)
    (retention_policy d) (retention_overrides d) (feedback_screenshots d) (sessions d)
    (api_tokens d) (setup_row d) (access d) (memory d) (credentials d) (repository_secrets
    d) (webhooks d) (build_logs d) (objects d).

Definition set_pipelines (v : gmap string pipeline) (d : db) : db :=
  Db (builds d) (build_events d) (runners d) v (projects d) (repositories d)
    (installations d) (integrations d) (incidents d) (incident_notifications d) (users d)
    (runner_paused d) (transition_lease d) (webhook_claims d) (members d) (schedule_runs
    d) (audit_logs d) (artifacts d) (releases d) (release_history d) (project_environments
    d) (environment_approvers d) (environment_promotions d) (app_store_links d)
    (play_targets d) (app_store_targets d) (ios_signing d) (asc_keys d) (secrets d)
    (retention_policy d) (retention_overrides d) (feedback_screenshots d) (sessions d)
    (api_tokens d) (setup_row d) (access d) (memory d) (credentials d) (repository_secrets
    d) (webhooks d) (build_logs d) (objects d).

Definition set_projects (v : gmap string project) (d : db) : db :=
  Db (builds d) (build_events d) (runners d) (pipelines d) v (repositories d)
    (installations d) (integrations d) (incidents d) (incident_notifications d) (users d)
    (runner_paused d) (transition_lease d) (webhook_claims d) (members d) (schedule_runs
    d) (audit_logs d) (artifacts d) (releases d) (release_history d) (project_environments
    d) (environment_approvers d) (environment_promotions d) (app_store_links d)
    (play_targets d) (app_store_targets d) (ios_signing d) (asc_keys d) (secrets d)
    (retention_policy d) (retention_overrides d) (feedback_screenshots d) (sessions d)
    (api_tokens d) (setup_row d) (access d) (memory d) (credentials d) (repository_secrets
    d) (webhooks d) (build_logs d) (objects d).

Definition set_repositories (v : gmap string repository) (d : db) : db :=
  Db (builds d) (build_events d) (runners d) (pipelines d) (projects d) v (installations
    d) (integrations d) (incidents d) (incident_notifications d) (users d) (runner_paused
    d) (transition_lease d) (webhook_claims d) (members d) (schedule_runs d) (audit_logs
    d) (artifacts d) (releases d) (release_history d) (project_environments d)
    (environment_approvers d) (environment_promotions d) (app_store_links d) (play_targets
    d) (app_store_targets d) (ios_signing d) (asc_keys d) (secrets d) (retention_policy d)
    (retention_overrides d) (feedback_screenshots d) (sessions d) (api_tokens d)
    (setup_row d) (access d) (memory d) (credentials d) (repository_secrets d) (webhooks
    d) (build_logs d) (objects d).

Definition set_installations (v : gmap string string) (d : db) : db :=
  Db (builds d) (build_events d) (runners d) (pipelines d) (projects d) (repositories d) v
    (integrations d) (incidents d) (incident_notifications d) (users d) (runner_paused d)
    (transition_lease d) (webhook_claims d) (members d) (schedule_runs d) (audit_logs d)
    (artifacts d) (releases d) (release_history d) (project_environments d)
    (environment_approvers d) (environment_promotions d) (app_store_links d) (play_targets
    d) (app_store_targets d) (ios_signing d) (asc_keys d) (secrets d) (retention_policy d)
    (retention_overrides d) (feedback_screenshots d) (sessions d) (api_tokens d)
    (setup_row d) (access d) (memory d) (credentials d) (repository_secrets d) (webhooks
    d) (build_logs d) (objects d).

Definition set_integrations (v : gmap string integration) (d : db) : db :=
  Db (builds d) (build_events d) (runners d) (pipelines d) (projects d) (repositories d)
    (installations d) v (incidents d) (incident_notifications d) (users d) (runner_paused
    d) (transition_lease d) (webhook_claims d) (members d) (schedule_runs d) (audit_logs
    d) (artifacts d) (releases d) (release_history d) (project_environments d)
    (environment_approvers d) (environment_promotions d) (app_store_links d) (play_targets
    d) (app_store_targets d) (ios_signing d) (asc_keys d) (secrets d) (retention_policy d)
    (retention_overrides d) (feedback_screenshots d) (sessions d) (api_tokens d)
    (setup_row d) (access d) (memory d) (credentials d) (repository_secrets d) (webhooks
    d) (build_logs d) (objects d).

Definition set_incidents (v : gmap string incident) (d : db) : db :=
  Db (builds d) (build_events d) (runners d) (pipelines d) (projects d) (repositories d)
    (installations d) (integrations d) v (incident_notifications d) (users d)
    (runner_paused d) (transition_lease d) (webhook_claims d) (members d) (schedule_runs
    d) (audit_logs d) (artifacts d) (releases d) (release_history d) (project_environments
    d) (environment_approvers d) (environment_promotions d) (app_store_links d)
    (play_targets d) (app_store_targets d) (ios_signing d) (asc_keys d) (secrets d)
    (retention_policy d) (retention_overrides d) (feedback_screenshots d) (sessions d)
    (api_tokens d) (setup_row d) (access d) (memory d) (credentials d) (repository_secrets
    d) (webhooks d) (build_logs d) (objects d).

Definition set_incident_notifications (v : gmap (string * string) notification) (d : db) : db :=
  Db (builds d) (build_events d) (runners d) (pipelines d) (projects d) (repositories d)
    (installations d) (integrations d) (incidents d) v (users d) (runner_paused d)
    (transition_lease d) (webhook_claims d) (members d) (schedule_runs d) (audit_logs d)
    (artifacts d) (releases d) (release_history d) (project_environments d)
    (environment_approvers d) (environment_promotions d) (app_store_links d) (play_targets
    d) (app_store_targets d) (ios_signing d) (asc_keys d) (secrets d) (retention_policy d)
    (retention_overrides d) (feedback_screenshots d) (sessions d) (api_tokens d)
    (setup_row d) (access d) (memory d) (credentials d) (repository_secrets d) (webhooks
    d) (build_logs d) (objects d).

Definition set_users (v : gmap string user) (d : db) : db :=
  Db (builds d) (build_events d) (runners d) (pipelines d) (projects d) (repositories d)
    (installations d) (integrations d) (incidents d) (incident_notifications d) v
    (runner_paused d) (transition_lease d) (webhook_claims d) (members d) (schedule_runs
    d) (audit_logs d) (artifacts d) (releases d) (release_history d) (project_environments
    d) (environment_approvers d) (environment_promotions d) (app_store_links d)
    (play_targets d) (app_store_targets d) (ios_signing d) (asc_keys d) (secrets d)
    (retention_policy d) (retention_overrides d) (feedback_screenshots d) (sessions d)
    (api_tokens d) (setup_row d) (access d) (memory d) (credentials d) (repository_secrets
    d) (webhooks d) (build_logs d) (objects d).

Definition set_runner_paused (v : bool) (d : db) : db :=
  Db (builds d) (build_events d) (runners d) (pipelines d) (projects d) (repositories d)
    (installations d) (integrations d) (incidents d) (incident_notifications d) (users d)
    v (transition_lease d) (webhook_claims d) (members d) (schedule_runs d) (audit_logs d)
    (artifacts d) (releases d) (release_history d) (project_environments d)
    (environment_approvers d) (environment_promotions d) (app_store_links d) (play_targets
    d) (app_store_targets d) (ios_signing d) (asc_keys d) (secrets d) (retention_policy d)
    (retention_overrides d) (feedback_screenshots d) (sessions d) (api_tokens d)
    (setup_row d) (access d) (memory d) (credentials d) (repository_secrets d) (webhooks
    d) (build_logs d) (objects d).

Definition set_transition_lease (v : option (string * Z)) (d : db) : db :=
  Db (builds d) (build_events d) (runners d) (pipelines d) (projects d) (repositories d)
    (installations d) (integrations d) (incidents d) (incident_notifications d) (users d)
    (runner_paused d) v (webhook_claims d) (members d) (schedule_runs d) (audit_logs d)
    (artifacts d) (releases d) (release_history d) (project_environments d)
    (environment_approvers d) (environment_promotions d) (app_store_links d) (play_targets
    d) (app_store_targets d) (ios_signing d) (asc_keys d) (secrets d) (retention_policy d)
    (retention_overrides d) (feedback_screenshots d) (sessions d) (api_tokens d)
    (setup_row d) (access d) (memory d) (credentials d) (repository_secrets d) (webhooks
    d) (build_logs d) (objects d).

Definition set_webhook_claims (v : gmap (string * string * string) string) (d : db) : db :=
  Db (builds d) (build_events d) (runners d) (pipelines d) (projects d) (repositories d)
    (installations d) (integrations d) (incidents d) (incident_notifications d) (users d)
    (runner_paused d) (transition_lease d) v (members d) (schedule_runs d) (audit_logs d)
    (artifacts d) (releases d) (release_history d) (project_environments d)
    (environment_approvers d) (environment_promotions d) (app_store_links d) (play_targets
    d) (app_store_targets d) (ios_signing d) (asc_keys d) (secrets d) (retention_policy d)
    (retention_overrides d) (feedback_screenshots d) (sessions d) (api_tokens d)
    (setup_row d) (access d) (memory d) (credentials d) (repository_secrets d) (webhooks
    d) (build_logs d) (objects d).

Definition set_members (v : gmap (string * string) string) (d : db) : db :=
  Db (builds d) (build_events d) (runners d) (pipelines d) (projects d) (repositories d)
    (installations d) (integrations d) (incidents d) (incident_notifications d) (users d)
    (runner_paused d) (transition_lease d) (webhook_claims d) v (schedule_runs d)
    (audit_logs d) (artifacts d) (releases d) (release_history d) (project_environments d)
    (environment_approvers d) (environment_promotions d) (app_store_links d) (play_targets
    d) (app_store_targets d) (ios_signing d) (asc_keys d) (secrets d) (retention_policy d)
    (retention_overrides d) (feedback_screenshots d) (sessions d) (api_tokens d)
    (setup_row d) (access d) (memory d) (credentials d) (repository_secrets d) (webhooks
    d) (build_logs d) (objects d).

Definition set_schedule_runs (v : gmap (string * string) Z) (d : db) : db :=
  Db (builds d) (build_events d) (runners d) (pipelines d) (projects d) (repositories d)
    (installations d) (integrations d) (incidents d) (incident_notifications d) (users d)
    (runner_paused d) (transition_lease d) (webhook_claims d) (members d) v (audit_logs d)
    (artifacts d) (releases d) (release_history d) (project_environments d)
    (environment_approvers d) (environment_promotions d) (app_store_links d) (play_targets
    d) (app_store_targets d) (ios_signing d) (asc_keys d) (secrets d) (retention_policy d)
    (retention_overrides d) (feedback_screenshots d) (sessions d) (api_tokens d)
    (setup_row d) (access d) (memory d) (credentials d) (repository_secrets d) (webhooks
    d) (build_logs d) (objects d).

Definition set_audit_logs (v : list audit_log) (d : db) : db :=
  Db (builds d) (build_events d) (runners d) (pipelines d) (projects d) (repositories d)
    (installations d) (integrations d) (incidents d) (incident_notifications d) (users d)
    (runner_paused d) (transition_lease d) (webhook_claims d) (members d) (schedule_runs
    d) v (artifacts d) (releases d) (release_history d) (project_environments d)
    (environment_approvers d) (environment_promotions d) (app_store_links d) (play_targets
    d) (app_store_targets d) (ios_signing d) (asc_keys d) (secrets d) (retention_policy d)
    (retention_overrides d) (feedback_screenshots d) (sessions d) (api_tokens d)
    (setup_row d) (access d) (memory d) (credentials d) (repository_secrets d) (webhooks
    d) (build_logs d) (objects d).

Definition set_artifacts (v : list artifact) (d : db) : db :=
  Db (builds d) (build_events d) (runners d) (pipelines d) (projects d) (repositories d)
    (installations d) (integrations d) (incidents d) (incident_notifications d) (users d)
    (runner_paused d) (transition_lease d) (webhook_claims d) (members d) (schedule_runs
    d) (audit_logs d) v (releases d) (release_history d) (project_environments d)
    (environment_approvers d) (environment_promotions d) (app_store_links d) (play_targets
    d) (app_store_targets d) (ios_signing d) (asc_keys d) (secrets d) (retention_policy d)
    (retention_overrides d) (feedback_screenshots d) (sessions d) (api_tokens d)
    (setup_row d) (access d) (memory d) (credentials d) (repository_secrets d) (webhooks
    d) (build_logs d) (objects d).

Definition set_releases (v : gmap string release) (d : db) : db :=
  Db (builds d) (build_events d) (runners d) (pipelines d) (projects d) (repositories d)
    (installations d) (integrations d) (incidents d) (incident_notifications d) (users d)
    (runner_paused d) (transition_lease d) (webhook_claims d) (members d) (schedule_runs
    d) (audit_logs d) (artifacts d) v (release_history d) (project_environments d)
    (environment_approvers d) (environment_promotions d) (app_store_links d) (play_targets
    d) (app_store_targets d) (ios_signing d) (asc_keys d) (secrets d) (retention_policy d)
    (retention_overrides d) (feedback_screenshots d) (sessions d) (api_tokens d)
    (setup_row d) (access d) (memory d) (credentials d) (repository_secrets d) (webhooks
    d) (build_logs d) (objects d).

Definition set_release_history (v : list release_history_entry) (d : db) : db :=
  Db (builds d) (build_events d) (runners d) (pipelines d) (projects d) (repositories d)
    (installations d) (integrations d) (incidents d) (incident_notifications d) (users d)
    (runner_paused d) (transition_lease d) (webhook_claims d) (members d) (schedule_runs
    d) (audit_logs d) (artifacts d) (releases d) v (project_environments d)
    (environment_approvers d) (environment_promotions d) (app_store_links d) (play_targets
    d) (app_store_targets d) (ios_signing d) (asc_keys d) (secrets d) (retention_policy d)
    (retention_overrides d) (feedback_screenshots d) (sessions d) (api_tokens d)
    (setup_row d) (access d) (memory d) (credentials d) (repository_secrets d) (webhooks
    d) (build_logs d) (objects d).

Definition set_project_environments (v : gmap string environment) (d : db) : db :=
  Db (builds d) (build_events d) (runners d) (pipelines d) (projects d) (repositories d)
    (installations d) (integrations d) (incidents d) (incident_notifications d) (users d)
    (runner_paused d) (transition_lease d) (webhook_claims d) (members d) (schedule_runs
    d) (audit_logs d) (artifacts d) (releases d) (release_history d) v
    (environment_approvers d) (environment_promotions d) (app_store_links d) (play_targets
    d) (app_store_targets d) (ios_signing d) (asc_keys d) (secrets d) (retention_policy d)
    (retention_overrides d) (feedback_screenshots d) (sessions d) (api_tokens d)
    (setup_row d) (access d) (memory d) (credentials d) (repository_secrets d) (webhooks
    d) (build_logs d) (objects d).

Definition set_environment_approvers (v : gset (string * string)) (d : db) : db :=
  Db (builds d) (build_events d) (runners d) (pipelines d) (projects d) (repositories d)
    (installations d) (integrations d) (incidents d) (incident_notifications d) (users d)
    (runner_paused d) (transition_lease d) (webhook_claims d) (members d) (schedule_runs
    d) (audit_logs d) (artifacts d) (releases d) (release_history d) (project_environments
    d) v (environment_promotions d) (app_store_links d) (play_targets d)
    (app_store_targets d) (ios_signing d) (asc_keys d) (secrets d) (retention_policy d)
    (retention_overrides d) (feedback_screenshots d) (sessions d) (api_tokens d)
    (setup_row d) (access d) (memory d) (credentials d) (repository_secrets d) (webhooks
    d) (build_logs d) (objects d).

Definition set_environment_promotions (v : gmap string promotion) (d : db) : db :=
  Db (builds d) (build_events d) (runners d) (pipelines d) (projects d) (repositories d)
    (installations d) (integrations d) (incidents d) (incident_notifications d) (users d)
    (runner_paused d) (transition_lease d) (webhook_claims d) (members d) (schedule_runs
    d) (audit_logs d) (artifacts d) (releases d) (release_history d) (project_environments
    d) (environment_approvers d) v (app_store_links d) (play_targets d) (app_store_targets
    d) (ios_signing d) (asc_keys d) (secrets d) (retention_policy d) (retention_overrides
    d) (feedback_screenshots d) (sessions d) (api_tokens d) (setup_row d) (access d)
    (memory d) (credentials d) (repository_secrets d) (webhooks d) (build_logs d) (objects
    d).

Definition set_app_store_links (v : gmap string app_store_link) (d : db) : db :=
  Db (builds d) (build_events d) (runners d) (pipelines d) (projects d) (repositories d)
    (installations d) (integrations d) (incidents d) (incident_notifications d) (users d)
    (runner_paused d) (transition_lease d) (webhook_claims d) (members d) (schedule_runs
    d) (audit_logs d) (artifacts d) (releases d) (release_history d) (project_environments
    d) (environment_approvers d) (environment_promotions d) v (play_targets d)
    (app_store_targets d) (ios_signing d) (asc_keys d) (secrets d) (retention_policy d)
    (retention_overrides d) (feedback_screenshots d) (sessions d) (api_tokens d)
    (setup_row d) (access d) (memory d) (credentials d) (repository_secrets d) (webhooks
    d) (build_logs d) (objects d).

Definition set_play_targets (v : gmap string GooglePlayPublishConfig) (d : db) : db :=
  Db (builds d) (build_events d) (runners d) (pipelines d) (projects d) (repositories d)
    (installations d) (integrations d) (incidents d) (incident_notifications d) (users d)
    (runner_paused d) (transition_lease d) (webhook_claims d) (members d) (schedule_runs
    d) (audit_logs d) (artifacts d) (releases d) (release_history d) (project_environments
    d) (environment_approvers d) (environment_promotions d) (app_store_links d) v
    (app_store_targets d) (ios_signing d) (asc_keys d) (secrets d) (retention_policy d)
    (retention_overrides d) (feedback_screenshots d) (sessions d) (api_tokens d)
    (setup_row d) (access d) (memory d) (credentials d) (repository_secrets d) (webhooks
    d) (build_logs d) (objects d).

Definition set_app_store_targets (v : gmap string AppStorePublishConfig) (d : db) : db :=
  Db (builds d) (build_events d) (runners d) (pipelines d) (projects d) (repositories d)
    (installations d) (integrations d) (incidents d) (incident_notifications d) (users d)
    (runner_paused d) (transition_lease d) (webhook_claims d) (members d) (schedule_runs
    d) (audit_logs d) (artifacts d) (releases d) (release_history d) (project_environments
    d) (environment_approvers d) (environment_promotions d) (app_store_links d)
    (play_targets d) v (ios_signing d) (asc_keys d) (secrets d) (retention_policy d)
    (retention_overrides d) (feedback_screenshots d) (sessions d) (api_tokens d)
    (setup_row d) (access d) (memory d) (credentials d) (repository_secrets d) (webhooks
    d) (build_logs d) (objects d).

Definition set_ios_signing (v : gmap string signing_settings) (d : db) : db :=
  Db (builds d) (build_events d) (runners d) (pipelines d) (projects d) (repositories d)
    (installations d) (integrations d) (incidents d) (incident_notifications d) (users d)
    (runner_paused d) (transition_lease d) (webhook_claims d) (members d) (schedule_runs
    d) (audit_logs d) (artifacts d) (releases d) (release_history d) (project_environments
    d) (environment_approvers d) (environment_promotions d) (app_store_links d)
    (play_targets d) (app_store_targets d) v (asc_keys d) (secrets d) (retention_policy d)
    (retention_overrides d) (feedback_screenshots d) (sessions d) (api_tokens d)
    (setup_row d) (access d) (memory d) (credentials d) (repository_secrets d) (webhooks
    d) (build_logs d) (objects d).

Definition set_asc_keys (v : gmap string asc_key) (d : db) : db :=
  Db (builds d) (build_events d) (runners d) (pipelines d) (projects d) (repositories d)
    (installations d) (integrations d) (incidents d) (incident_notifications d) (users d)
    (runner_paused d) (transition_lease d) (webhook_claims d) (members d) (schedule_runs
    d) (audit_logs d) (artifacts d) (releases d) (release_history d) (project_environments
    d) (environment_approvers d) (environment_promotions d) (app_store_links d)
    (play_targets d) (app_store_targets d) (ios_signing d) v (secrets d) (retention_policy
    d) (retention_overrides d) (feedback_screenshots d) (sessions d) (api_tokens d)
    (setup_row d) (access d) (memory d) (credentials d) (repository_secrets d) (webhooks
    d) (build_logs d) (objects d).

Definition set_secrets (v : list secret) (d : db) : db :=
  Db (builds d) (build_events d) (runners d) (pipelines d) (projects d) (repositories d)
    (installations d) (integrations d) (incidents d) (incident_notifications d) (users d)
    (runner_paused d) (transition_lease d) (webhook_claims d) (members d) (schedule_runs
    d) (audit_logs d) (artifacts d) (releases d) (release_history d) (project_environments
    d) (environment_approvers d) (environment_promotions d) (app_store_links d)
    (play_targets d) (app_store_targets d) (ios_signing d) (asc_keys d) v
    (retention_policy d) (retention_overrides d) (feedback_screenshots d) (sessions d)
    (api_tokens d) (setup_row d) (access d) (memory d) (credentials d) (repository_secrets
    d) (webhooks d) (build_logs d) (objects d).

Definition set_retention_policy (v : option RetentionPolicy) (d : db) : db :=
  Db (builds d) (build_events d) (runners d) (pipelines d) (projects d) (repositories d)
    (installations d) (integrations d) (incidents d) (incident_notifications d) (users d)
    (runner_paused d) (transition_lease d) (webhook_claims d) (members d) (schedule_runs
    d) (audit_logs d) (artifacts d) (releases d) (release_history d) (project_environments
    d) (environment_approvers d) (environment_promotions d) (app_store_links d)
    (play_targets d) (app_store_targets d) (ios_signing d) (asc_keys d) (secrets d) v
    (retention_overrides d) (feedback_screenshots d) (sessions d) (api_tokens d)
    (setup_row d) (access d) (memory d) (credentials d) (repository_secrets d) (webhooks
    d) (build_logs d) (objects d).

Definition set_retention_overrides (v : gmap string ProjectRetentionOverride) (d : db) : db :=
  Db (builds d) (build_events d) (runners d) (pipelines d) (projects d) (repositories d)
    (installations d) (integrations d) (incidents d) (incident_notifications d) (users d)
    (runner_paused d) (transition_lease d) (webhook_claims d) (members d) (schedule_runs
    d) (audit_logs d) (artifacts d) (releases d) (release_history d) (project_environments
    d) (environment_approvers d) (environment_promotions d) (app_store_links d)
    (play_targets d) (app_store_targets d) (ios_signing d) (asc_keys d) (secrets d)
    (retention_policy d) v (feedback_screenshots d) (sessions d) (api_tokens d) (setup_row
    d) (access d) (memory d) (credentials d) (repository_secrets d) (webhooks d)
    (build_logs d) (objects d).

Definition set_feedback_screenshots (v : list (string * string)) (d : db) : db :=
  Db (builds d) (build_events d) (runners d) (pipelines d) (projects d) (repositories d)
    (installations d) (integrations d) (incidents d) (incident_notifications d) (users d)
    (runner_paused d) (transition_lease d) (webhook_claims d) (members d) (schedule_runs
    d) (audit_logs d) (artifacts d) (releases d) (release_history d) (project_environments
    d) (environment_approvers d) (environment_promotions d) (app_store_links d)
    (play_targets d) (app_store_targets d) (ios_signing d) (asc_keys d) (secrets d)
    (retention_policy d) (retention_overrides d) v (sessions d) (api_tokens d) (setup_row
    d) (access d) (memory d) (credentials d) (repository_secrets d) (webhooks d)
    (build_logs d) (objects d).

Definition set_sessions (v : gmap string session_row) (d : db) : db :=
  Db (builds d) (build_events d) (runners d) (pipelines d) (projects d) (repositories d)
    (installations d) (integrations d) (incidents d) (incident_notifications d) (users d)
    (runner_paused d) (transition_lease d) (webhook_claims d) (members d) (schedule_runs
    d) (audit_logs d) (artifacts d) (releases d) (release_history d) (project_environments
    d) (environment_approvers d) (environment_promotions d) (app_store_links d)
    (play_targets d) (app_store_targets d) (ios_signing d) (asc_keys d) (secrets d)
    (retention_policy d) (retention_overrides d) (feedback_screenshots d) v (api_tokens d)
    (setup_row d) (access d) (memory d) (credentials d) (repository_secrets d) (webhooks
    d) (build_logs d) (objects d).

Definition set_api_tokens (v : gmap string api_token) (d : db) : db :=
  Db (builds d) (build_events d) (runners d) (pipelines d) (projects d) (repositories d)
    (installations d) (integrations d) (incidents d) (incident_notifications d) (users d)
    (runner_paused d) (transition_lease d) (webhook_claims d) (members d) (schedule_runs
    d) (audit_logs d) (artifacts d) (releases d) (release_history d) (project_environments
    d) (environment_approvers d) (environment_promotions d) (app_store_links d)
    (play_targets d) (app_store_targets d) (ios_signing d) (asc_keys d) (secrets d)
    (retention_policy d) (retention_overrides d) (feedback_screenshots d) (sessions d) v
    (setup_row d) (access d) (memory d) (credentials d) (repository_secrets d) (webhooks
    d) (build_logs d) (objects d).

Definition set_setup_row (v : option SetupStateFile) (d : db) : db :=
  Db (builds d) (build_events d) (runners d) (pipelines d) (projects d) (repositories d)
    (installations d) (integrations d) (incidents d) (incident_notifications d) (users d)
    (runner_paused d) (transition_lease d) (webhook_claims d) (members d) (schedule_runs
    d) (audit_logs d) (artifacts d) (releases d) (release_history d) (project_environments
    d) (environment_approvers d) (environment_promotions d) (app_store_links d)
    (play_targets d) (app_store_targets d) (ios_signing d) (asc_keys d) (secrets d)
    (retention_policy d) (retention_overrides d) (feedback_screenshots d) (sessions d)
    (api_tokens d) v (access d) (memory d) (credentials d) (repository_secrets d)
    (webhooks d) (build_logs d) (objects d).

Definition set_access (v : access_settings) (d : db) : db :=
  Db (builds d) (build_events d) (runners d) (pipelines d) (projects d) (repositories d)
    (installations d) (integrations d) (incidents d) (incident_notifications d) (users d)
    (runner_paused d) (transition_lease d) (webhook_claims d) (members d) (schedule_runs
    d) (audit_logs d) (artifacts d) (releases d) (release_history d) (project_environments
    d) (environment_approvers d) (environment_promotions d) (app_store_links d)
    (play_targets d) (app_store_targets d) (ios_signing d) (asc_keys d) (secrets d)
    (retention_policy d) (retention_overrides d) (feedback_screenshots d) (sessions d)
    (api_tokens d) (setup_row d) v (memory d) (credentials d) (repository_secrets d)
    (webhooks d) (build_logs d) (objects d).

Definition set_memory (v : daemon_memory) (d : db) : db :=
  Db (builds d) (build_events d) (runners d) (pipelines d) (projects d) (repositories d)
    (installations d) (integrations d) (incidents d) (incident_notifications d) (users d)
    (runner_paused d) (transition_lease d) (webhook_claims d) (members d) (schedule_runs
    d) (audit_logs d) (artifacts d) (releases d) (release_history d) (project_environments
    d) (environment_approvers d) (environment_promotions d) (app_store_links d)
    (play_targets d) (app_store_targets d) (ios_signing d) (asc_keys d) (secrets d)
    (retention_policy d) (retention_overrides d) (feedback_screenshots d) (sessions d)
    (api_tokens d) (setup_row d) (access d) v (credentials d) (repository_secrets d)
    (webhooks d) (build_logs d) (objects d).

Definition set_credentials (v : gmap (string * string) string) (d : db) : db :=
  Db (builds d) (build_events d) (runners d) (pipelines d) (projects d) (repositories d)
    (installations d) (integrations d) (incidents d) (incident_notifications d) (users d)
    (runner_paused d) (transition_lease d) (webhook_claims d) (members d) (schedule_runs
    d) (audit_logs d) (artifacts d) (releases d) (release_history d) (project_environments
    d) (environment_approvers d) (environment_promotions d) (app_store_links d)
    (play_targets d) (app_store_targets d) (ios_signing d) (asc_keys d) (secrets d)
    (retention_policy d) (retention_overrides d) (feedback_screenshots d) (sessions d)
    (api_tokens d) (setup_row d) (access d) (memory d) v (repository_secrets d) (webhooks
    d) (build_logs d) (objects d).

Definition set_repository_secrets (v : gmap string string) (d : db) : db :=
  Db (builds d) (build_events d) (runners d) (pipelines d) (projects d) (repositories d)
    (installations d) (integrations d) (incidents d) (incident_notifications d) (users d)
    (runner_paused d) (transition_lease d) (webhook_claims d) (members d) (schedule_runs
    d) (audit_logs d) (artifacts d) (releases d) (release_history d) (project_environments
    d) (environment_approvers d) (environment_promotions d) (app_store_links d)
    (play_targets d) (app_store_targets d) (ios_signing d) (asc_keys d) (secrets d)
    (retention_policy d) (retention_overrides d) (feedback_screenshots d) (sessions d)
    (api_tokens d) (setup_row d) (access d) (memory d) (credentials d) v (webhooks d)
    (build_logs d) (objects d).

Definition set_webhooks (v : gmap string webhook) (d : db) : db :=
  Db (builds d) (build_events d) (runners d) (pipelines d) (projects d) (repositories d)
    (installations d) (integrations d) (incidents d) (incident_notifications d) (users d)
    (runner_paused d) (transition_lease d) (webhook_claims d) (members d) (schedule_runs
    d) (audit_logs d) (artifacts d) (releases d) (release_history d) (project_environments
    d) (environment_approvers d) (environment_promotions d) (app_store_links d)
    (play_targets d) (app_store_targets d) (ios_signing d) (asc_keys d) (secrets d)
    (retention_policy d) (retention_overrides d) (feedback_screenshots d) (sessions d)
    (api_tokens d) (setup_row d) (access d) (memory d) (credentials d) (repository_secrets
    d) v (build_logs d) (objects d).

Definition set_build_logs (v : gmap string (list log_row)) (d : db) : db :=
  Db (builds d) (build_events d) (runners d) (pipelines d) (projects d) (repositories d)
    (installations d) (integrations d) (incidents d) (incident_notifications d) (users d)
    (runner_paused d) (transition_lease d) (webhook_claims d) (members d) (schedule_runs
    d) (audit_logs d) (artifacts d) (releases d) (release_history d) (project_environments
    d) (environment_approvers d) (environment_promotions d) (app_store_links d)
    (play_targets d) (app_store_targets d) (ios_signing d) (asc_keys d) (secrets d)
    (retention_policy d) (retention_overrides d) (feedback_screenshots d) (sessions d)
    (api_tokens d) (setup_row d) (access d) (memory d) (credentials d) (repository_secrets
    d) (webhooks d) v (objects d).

Definition set_objects (v : gset string) (d : db) : db :=
  Db (builds d) (build_events d) (runners d) (pipelines d) (projects d) (repositories d)
    (installations d) (integrations d) (incidents d) (incident_notifications d) (users d)
    (runner_paused d) (transition_lease d) (webhook_claims d) (members d) (schedule_runs
    d) (audit_logs d) (artifacts d) (releases d) (release_history d) (project_environments
    d) (environment_approvers d) (environment_promotions d) (app_store_links d)
    (play_targets d) (app_store_targets d) (ios_signing d) (asc_keys d) (secrets d)
    (retention_policy d) (retention_overrides d) (feedback_screenshots d) (sessions d)
    (api_tokens d) (setup_row d) (access d) (memory d) (credentials d) (repository_secrets
    d) (webhooks d) (build_logs d) v.

(** ** SQL statements on builds *)

(** Trigger [builds_withdraw_pending_approval] (migration 064), fired by every
    UPDATE of [status]. *)
Definition withdraw_pending_approval (b : build) : build :=
  if bool_decide (b_approval_state b = Some BuildApprovalState.Pending)
     && negb (bool_decide (b_status b = BuildStatus.Queued))
  then set_approval_state None b else b.

(** [UPDATE builds SET <f> WHERE id = ? AND <p>], [status] among the columns
    set; with the number of rows affected. *)
Definition update_build (id : string) (p : build -> bool) (f : build -> build) (d : db)
    : db * Z :=
  match builds d !! id with
  | Some b =>
      if p b then (set_builds (<[id := withdraw_pending_approval (f b)]> (builds d)) d, 1)
      else (d, 0)
  | None => (d, 0)
  end.

(** [UPDATE builds SET <f> WHERE <p>] over the table, [status] among the
    columns set. *)
Definition update_builds (p : string -> build -> bool) (f : build -> build) (d : db) : db :=
  set_builds (map_imap (fun id b =>
    Some (if p id b then withdraw_pending_approval (f b) else b)) (builds d)) d.

(** [UPDATE builds] of other columns of one row: the trigger does not fire. *)
Definition touch_build (id : string) (f : build -> build) (d : db) : db :=
  set_builds (alter f id (builds d)) d.

(** [INSERT INTO build_events]. *)
Definition add_event (e : build_event) (d : db) : db :=
  set_build_events (build_events d ++ [e]) d.

(** [SELECT COUNT( * ) FROM builds WHERE <p>]. *)
Definition count_builds (p : build -> bool) (d : db) : Z :=
  Z.of_nat (size (filter (fun kv => p kv.2 = true) (builds d))).

(** [SELECT ... FROM builds WHERE <p>], in key order. *)
Definition select_builds (p : string -> build -> bool) (d : db) : list (string * build) :=
  filter (fun kv => p kv.1 kv.2 = true) (map_to_list (builds d)).

(** [ORDER BY <key>]; rows of equal key keep the order of the table. *)
Definition by_key {A} (key : A -> Z) : relation A := fun x y => key x <= key y.

#[global] Instance by_key_dec {A} (key : A -> Z) : RelDecision (by_key key).
Proof. unfold by_key. intros x y. apply _. Defined.

Definition order_by {A} (key : A -> Z) (l : list A) : list A := merge_sort (by_key key) l.

Lemma elem_of_order_by {A} (key : A -> Z) (l : list A) x : x ∈ order_by key l <-> x ∈ l.
Proof. unfold order_by. by rewrite merge_sort_Permutation. Qed.

Lemma elem_of_select_builds p d id b :
  (id, b) ∈ select_builds p d <-> builds d !! id = Some b /\ p id b = true.
Proof. unfold select_builds. rewrite list_elem_of_filter, elem_of_map_to_list. naive_solver. Qed.

(** ** Handlers *)

(** An HTTP error: status, code and message. *)
Record api_error := ApiErr { err_status : Z; err_code : string; err_message : string }.

#[global] Instance api_error_eq_dec : EqDecision api_error.
Proof. solve_decision. Defined.

Definition store_error (message : string) : api_error := ApiErr 500 "store_error" message.

(** [scheduler::BuildStateEvent]. *)
Record BuildStateEvent := StateEvent {
  se_build_id : string;
  se_from_status : option BuildStatus.t;
  se_to_status : BuildStatus.t;
  se_actor : option string;
  se_reason : option string;
  se_timestamp : Z;
}.

(** [sqlx::Error], by what the callers tell apart: SQLITE_BUSY (5),
    SQLITE_CONSTRAINT_UNIQUE (2067), anything else. *)
Inductive sqlx_error : Set :=
  | SqliteBusy
  | UniqueViolation
  | OtherSqlError.

#[global] Instance sqlx_error_eq_dec : EqDecision sqlx_error.
Proof. solve_decision. Defined.

(** What leaves the daemon: events to subscribers and calls to a store. *)
Inductive effect : Type :=
  | BuildChanged (e : BuildStateEvent)
  | ReleaseChanged (e : ReleaseEvent)
  | StoreObserved (release_id : string)
  | StoreApplied (release_id : string) (change : StoreChange)
  | StoreCrashRate (release_id : string)
  | StorePromoted (release_id : string) (target : PromotionTarget)
  | AppleAsked (c : AscCall)
  | ConfigRefreshStarted (integration_id repo_full_name branch commit_sha : string)
  | LogsAppended (build_id : string) (latest_sequence : Z).

Record world := World {
  w_db : db;
  w_faults : list (option sqlx_error);
  w_published : list effect;
}.

Definition ME (E A : Type) : Type := world -> world * result E A.

(** Handlers fail with an [api_error]. *)
Abbreviation M := (ME api_error).

#[global] Instance M_ret {E} : MRet (ME E) := fun A a w => (w, Ok a).
#[global] Instance M_bind {E} : MBind (ME E) := fun A B f m w =>
  match m w with
  | (w', Ok a) => f a w'
  | (w', Err e) => (w', Err e)
  end.

Definition throw {E A} (e : E) : ME E A := fun w => (w, Err e).

Definition set_w_db (d : db) (w : world) : world := World d (w_faults w) (w_published w).

(** One SQL statement: it fails when the next fault says so. *)
Definition sql {A} (f : db -> db * A) : ME sqlx_error A := fun w =>
  let w' := World (w_db w) (tail (w_faults w)) (w_published w) in
  match w_faults w with
  | Some e :: _ => (w', Err e)
  | _ => let '(d, a) := f (w_db w) in (set_w_db d w', Ok a)
  end.

(** [.map_err(f)]. *)
Definition map_errM {E F A} (f : E -> F) (m : ME E A) : ME F A := fun w =>
  match m w with (w', r) => (w', map_err f r) end.

(** A statement whose failure is answered with [store_error]. *)
Definition exec {A} (message : string) (f : db -> db * A) : M A :=
  map_errM (fun _ => store_error message) (sql f).

(** A read-only statement. *)
Definition query {A} (message : string) (f : db -> A) : M A := exec message (fun d => (d, f d)).

(** A statement whose result is not used. *)
Definition run (message : string) (f : db -> db) : M unit := exec message (fun d => (f d, tt)).

(** [fetch_optional] followed by [ok_or_else]. *)
Definition from_option {E A} (e : E) (o : option A) : ME E A :=
  match o with Some a => mret a | None => throw e end.

(** How the body of a transaction ends when it does not fail: [Discard] is a
    rollback whose own failure is ignored. *)
Inductive tx_end (A : Type) : Type :=
  | Commit (a : A)
  | Rollback (a : A)
  | Discard (a : A).

Arguments Commit {A} a.
Arguments Rollback {A} a.
Arguments Discard {A} a.

(** [pool.begin() ... tx.commit()]: an error, a rollback or a failed commit
    leaves the database as it was.  [on_err] maps the errors of [begin],
    [commit] and [rollback]. *)
Definition transaction_with {E A} (on_err : sqlx_error -> E) (body : ME E (tx_end A))
    : ME E A := fun w =>
  match (map_errM on_err (sql (fun d => (d, tt))) ≫= fun _ => body) w with
  | (w', Err e) => (set_w_db (w_db w) w', Err e)
  | (w', Ok (Rollback a)) =>
      match map_errM on_err (sql (fun d => (d, tt))) w' with
      | (w'', Err e) => (set_w_db (w_db w) w'', Err e)
      | (w'', Ok _) => (set_w_db (w_db w) w'', Ok a)
      end
  | (w', Ok (Discard a)) =>
      match sql (fun d => (d, tt)) w' with (w'', _) => (set_w_db (w_db w) w'', Ok a) end
  | (w', Ok (Commit a)) =>
      match map_errM on_err (sql (fun d => (d, tt))) w' with
      | (w'', Err e) => (set_w_db (w_db w) w'', Err e)
      | (w'', Ok _) => (w'', Ok a)
      end
  end.

Definition transaction {A} (message : string) (body : M (tx_end A)) : M A :=
  transaction_with (fun _ => store_error message) body.

(** Something leaves the daemon. *)
Definition emit {E} (e : effect) : ME E unit := fun w =>
  (World (w_db w) (w_faults w) (w_published w ++ [e]), Ok tt).

(** [scheduler.publish_event]. *)
Definition publish_event {E} (e : BuildStateEvent) : ME E unit := emit (BuildChanged e).

(** [match m { Ok(a) => ok a, Err(e) => err e }]: an error the caller handles. *)
Definition catch {E F A B} (m : ME E A) (f : result E A -> ME F B) : ME F B := fun w =>
  match m w with (w', r) => f r w' end.

(** [write_audit_log] ([store.rs]), whose failure every caller here ignores. *)
Definition write_audit_log {E} (actor_id : option string) (action resource_type : string)
    (resource_id : option string) : ME E unit :=
  catch (sql (fun d => (set_audit_logs
    (audit_logs d ++ [AuditLog actor_id action resource_type resource_id]) d, tt)))
    (fun _ => mret tt).

(** A [for] loop that updates [acc]. *)
Fixpoint for_each {E A B} (f : A -> B -> ME E B) (l : list A) (acc : B) : ME E B :=
  match l with
  | [] => mret acc
  | x :: rest => acc' ← f x acc; for_each f rest acc'
  end.

(** ** Running handlers *)

Lemma sql_ok {A} (f : db -> db * A) w w' a :
  sql f w = (w', Ok a) ->
  f (w_db w) = (w_db w', a) /\ w_published w' = w_published w.
Proof.
  unfold sql. destruct (w_faults w) as [|[e|] fs]; destruct (f (w_db w)) as [d x] eqn:E;
    intros H; simplify_eq/=; done.
Qed.

Lemma sql_err {A} (f : db -> db * A) w w' e :
  sql f w = (w', Err e) -> w_db w' = w_db w /\ w_published w' = w_published w.
Proof.
  unfold sql. destruct (w_faults w) as [|[e'|] fs]; destruct (f (w_db w)) as [d x] eqn:E;
    intros H; simplify_eq/=; done.
Qed.

(** The database effect of a statement, given that it succeeds. *)
Lemma exec_ok {A} msg (f : db -> db * A) w w' a :
  exec msg f w = (w', Ok a) ->
  f (w_db w) = (w_db w', a) /\ w_published w' = w_published w.
Proof.
  unfold exec, map_errM. destruct (sql f w) as [w1 [x|e]] eqn:E; cbn; [|done].
  intros [= <- <-]. by apply sql_ok.
Qed.

Lemma exec_err {A} msg (f : db -> db * A) w w' e :
  exec msg f w = (w', Err e) ->
  w_db w' = w_db w /\ w_published w' = w_published w /\ e = store_error msg.
Proof.
  unfold exec, map_errM. destruct (sql f w) as [w1 [x|e1]] eqn:E; cbn; [done|].
  intros [= <- <-]. apply sql_err in E as [-> ->]. done.
Qed.

Lemma query_ok {A} msg (f : db -> A) w w' a :
  query msg f w = (w', Ok a) ->
  f (w_db w) = a /\ w_db w' = w_db w /\ w_published w' = w_published w.
Proof. intros [H1 H2]%exec_ok. by simplify_eq. Qed.

Lemma run_ok msg f w w' a :
  run msg f w = (w', Ok a) -> w_db w' = f (w_db w) /\ w_published w' = w_published w.
Proof. intros [H1 H2]%exec_ok. by simplify_eq. Qed.

Lemma M_bind_ok {E A B} (m : ME E A) (f : A -> ME E B) w w' b :
  (m ≫= f) w = (w', Ok b) <-> exists w1 a, m w = (w1, Ok a) /\ f a w1 = (w', Ok b).
Proof.
  unfold mbind, M_bind. destruct (m w) as [w1 [a|e]]; split; [eauto|..]; naive_solver.
Qed.

Lemma M_bind_err {E A B} (m : ME E A) (f : A -> ME E B) w w' e :
  (m ≫= f) w = (w', Err e) <->
  m w = (w', Err e) \/ exists w1 a, m w = (w1, Ok a) /\ f a w1 = (w', Err e).
Proof.
  unfold mbind, M_bind. destruct (m w) as [w1 [a|e']]; split; naive_solver.
Qed.

Lemma transaction_with_ok {E A} on_err (body : ME E (tx_end A)) w w' a :
  transaction_with on_err body w = (w', Ok a) ->
  exists w0 w1, w_db w0 = w_db w /\ w_published w0 = w_published w /\
    w_published w' = w_published w1 /\
    (body w0 = (w1, Ok (Commit a)) /\ w_db w' = w_db w1 \/
     (body w0 = (w1, Ok (Rollback a)) \/ body w0 = (w1, Ok (Discard a))) /\ w_db w' = w_db w).
Proof.
  unfold transaction_with, mbind, M_bind, map_errM.
  destruct (sql (fun d => (d, tt)) w) as [w0 [[]|e]] eqn:E0; cbn; [|done].
  apply sql_ok in E0 as [Hd Hp]. injection Hd as Hd.
  destruct (body w0) as [w1 [[b|b|b]|e]] eqn:E1; [..|done].
  - destruct (sql (fun d => (d, tt)) w1) as [w2 [[]|e]] eqn:E2; cbn; [|done].
    apply sql_ok in E2 as [Hd2 Hp2]. injection Hd2 as Hd2. intros [= <- <-].
    exists w0, w1. split_and!; [done..|]. left. by split.
  - destruct (sql (fun d => (d, tt)) w1) as [w2 [[]|e]] eqn:E2; cbn; [|done].
    apply sql_ok in E2 as [_ Hp2]. intros [= <- <-].
    exists w0, w1. split_and!; [done..|]. right. split; [by left|done].
  - destruct (sql (fun d => (d, tt)) w1) as [w2 [[]|e]] eqn:E2; intros [= <- <-];
      [apply sql_ok in E2 as [_ Hp2]|apply sql_err in E2 as [_ Hp2]];
      exists w0, w1; (split_and!; [done..|]); right; (split; [by right|done]).
Qed.

(** Atomicity: a transaction that fails has changed nothing. *)
Lemma transaction_with_err {E A} on_err (body : ME E (tx_end A)) w w' e :
  transaction_with on_err body w = (w', Err e) -> w_db w' = w_db w.
Proof.
  unfold transaction_with.
  destruct ((map_errM on_err _ ≫= _) w) as [w1 [[b|b|b]|e1]];
    [..|by destruct (sql _ w1)|by intros [= <- _]];
    destruct (map_errM on_err _ w1) as [w2 [[]|e2]]; try done; by intros [= <- _].
Qed.

(** An audit entry is best effort: the handler goes on, and only the log may
    have changed. *)
Lemma audit_run {E} actor action kind id w w' (r : result E unit) :
  write_audit_log actor action kind id w = (w', r) ->
  r = Ok tt /\ (exists l, w_db w' = set_audit_logs l (w_db w)) /\ w_published w' = w_published w.
Proof.
  unfold write_audit_log, catch. destruct (sql _ w) as [w1 [[]|e]] eqn:E1; intros [= <- <-].
  - apply sql_ok in E1 as [E1 Hp]. injection E1 as <-. eauto.
  - apply sql_err in E1 as [Hd Hp]. split; [done|]. split; [|done].
    exists (audit_logs (w_db w)). rewrite Hd. by destruct (w_db w).
Qed.

(** A loop that ends well: [P] holds of the accumulator throughout, [R] relates
    the worlds, and each element leaves [Q], which [R] keeps. *)
Lemma for_each_rec {E A B} (f : A -> B -> ME E B) (P : B -> world -> Prop)
    (Q : A -> world -> Prop) (R : relation world) `{!PreOrder R} l :
  (forall x w w', R w w' -> Q x w -> Q x w') ->
  (forall x acc w w' acc', x ∈ l -> P acc w -> f x acc w = (w', Ok acc') ->
     P acc' w' /\ R w w' /\ Q x w') ->
  forall acc w w' acc', P acc w -> for_each f l acc w = (w', Ok acc') ->
  P acc' w' /\ R w w' /\ forall x, x ∈ l -> Q x w'.
Proof.
  intros HQ. induction l as [|x l IH]; intros Hf acc w w' acc' HP H; cbn in H.
  { injection H as <- <-. split_and!; [done|reflexivity|]. intros x. by rewrite elem_of_nil. }
  apply M_bind_ok in H as (w1 & acc1 & H1 & H).
  destruct (Hf x acc w w1 acc1 ltac:(by left) HP H1) as (HP1 & HR1 & HQ1).
  destruct (IH ltac:(intros; eapply Hf; [by right|..]; done) _ _ _ _ HP1 H) as (HP2 & HR2 & HQ2).
  split_and!; [done|by etransitivity|]. intros y [->|Hy]%elem_of_cons; eauto.
Qed.

(** Case a successful handler run into the runs of its statements. *)
Ltac inv_run :=
  repeat match goal with
  | H : (_ ≫= _) _ = (_, Ok _) |- _ => apply M_bind_ok in H as (? & ? & ? & H)
  | H : query _ _ _ = (_, Ok _) |- _ => apply query_ok in H as (? & ? & ?)
  | H : run _ _ _ = (_, Ok _) |- _ => apply run_ok in H as (? & ?)
  | H : exec _ _ _ = (_, Ok _) |- _ => apply exec_ok in H as (? & ?)
  | H : throw _ _ = (_, Ok _) |- _ => discriminate H
  | H : mret _ _ = (_, Ok _) |- _ => injection H as ? ?
  | H : publish_event _ _ = (_, Ok _) |- _ => injection H as ? ?
  | H : from_option _ ?o _ = (_, Ok _) |- _ => destruct o eqn:?; cbn in H
  end; simplify_eq/=.

(** Replace every intermediate database by what it is equal to. *)
Ltac subst_db :=
  repeat match goal with H : w_db ?x = _ |- _ => rewrite H in *; clear H end.

(** ** Rows *)

Lemma size_filter_insert_new (p : build -> bool) (m : gmap string build) id b :
  m !! id = None ->
  size (filter (fun kv : string * build => p kv.2 = true) (<[id := b]> m)) =
    (size (filter (fun kv : string * build => p kv.2 = true) m) + if p b then 1 else 0)%nat.
Proof.
  intros Hn. destruct (p b) eqn:E.
  - rewrite map_filter_insert_True by done. rewrite map_size_insert_None; [lia|].
    apply map_lookup_filter_None. by left.
  - rewrite map_filter_insert_False by (cbn; congruence).
    rewrite delete_id by done. lia.
Qed.

Lemma count_builds_new p id b d :
  builds d !! id = None ->
  count_builds p (set_builds (<[id := b]> (builds d)) d) =
    count_builds p d + (if p b then 1 else 0).
Proof.
  intros Hn. unfold count_builds. cbn. rewrite size_filter_insert_new by done.
  destruct (p b); lia.
Qed.

Lemma count_builds_insert p id b b0 d :
  builds d !! id = Some b0 ->
  count_builds p (set_builds (<[id := b]> (builds d)) d) =
    count_builds p d - (if p b0 then 1 else 0) + (if p b then 1 else 0).
Proof.
  intros Hb. unfold count_builds. cbn.
  pose proof (size_filter_insert_new p (delete id (builds d)) id b (lookup_delete_eq _ _)) as H1.
  pose proof (size_filter_insert_new p (delete id (builds d)) id b0 (lookup_delete_eq _ _)) as H2.
  rewrite insert_delete_eq in H1. rewrite insert_delete_id in H2 by done.
  destruct (p b), (p b0); lia.
Qed.

(** ** A small installation, for the examples

    One project of one GitHub repository with one pipeline, a macOS runner, a
    build [b-run] running on it and a build [b-wait] waiting for approval. *)
Module Sample.

Definition snap : snapshot := Snapshot (Some "r1"%string) ["macos"%string] [] None None []
  (Some "https://github.com/acme/app.git"%string) false None.

Definition meta (n at_ : Z) : build_meta :=
  BuildMeta "p1" "pl1" n TriggerType.Manual (Some "dev@x"%string) None None None
    (Some "main"%string) None None (Some at_) at_ at_.

Definition running : build :=
  Build (meta 1 100) BuildStatus.Running snap (Some "rn1"%string) (Some "rn1"%string)
    (Some "hash-1"%string) None None None None None None (Some 110) None 110 None None.

Definition waiting : build :=
  Build (meta 2 120) BuildStatus.Queued snap None None None None None
    (Some BuildApprovalState.Pending) None None None None None 120 None None.

Definition ready : build :=
  Build (meta 3 130) BuildStatus.Queued snap None None None None None
    None None None None None None 130 None None.

Definition mac : runner :=
  Runner "mac" "token-hash" RunnerStatus.Online (Json.Object []) [] ["macos"%string] None 2
    (Some 140) None (Some "u1"%string) 90 140.

Definition no_triggers : TriggerConfig :=
  {| events := []; branches := []; tags := []; paths := []; paths_ignore := []; schedules := [] |}.

Definition pipe : pipeline :=
  Pipeline "p1" true {| cancel_previous := true; max_concurrent := Some 2 |}
    {| required := true; ap_events := []; expires_after_hours := None |} 60 no_triggers [] None ".oore.yaml"
    [Android; Ios].

Definition no_secrets : WebhookSecretCache :=
  {| cache_github := {| refreshed_at := 0; entries := [] |};
     cache_gitlab := {| refreshed_at := 0; entries := [] |} |}.

Definition no_memory : daemon_memory :=
  Memory {| pending := ∅; reservations := ∅; global_starts := []; source_starts := ∅;
            setup_generation := "g0" |} ∅ {| bf_active_token_hash := None; bf_failures := 0 |} no_secrets
    (Streams ∅ ∅ ∅ 0).

Definition database : db :=
  Db {[ "b-run"%string := running; "b-wait"%string := waiting; "b-ready"%string := ready ]}
    [] {[ "rn1"%string := mac ]} {[ "pl1"%string := pipe ]}
    {[ "p1"%string := Project (Some "r1"%string) (Some "main"%string) ]}
    {[ "r1"%string := Repository "in1" "101" "acme/app" None ]} {[ "in1"%string := "ig1"%string ]}
    {[ "ig1"%string := Integration ScmProvider.Github "https://github.com" IntegrationStatus.Active ]} ∅ ∅ ∅ false None ∅ ∅ ∅ []
    [] ∅ [] ∅ ∅ ∅ ∅ ∅ ∅ ∅ ∅ [] None ∅ [] ∅ ∅ None (AccessSettings None None) no_memory ∅ ∅ ∅ ∅ ∅.

Definition start : world := World database [] [].

End Sample.
