(* ===== verification/Incidents.v ===== *)
(** * Operator incidents

    [open_incident] and [resolve_incident] of [crates/oored/src/incidents.rs]:
    one row per deduplication key, reopened and counted, with one notification
    per incident and administrator.  The runners report low disk space through
    it ([Runners.v]), and an open source-credential incident keeps builds out
    of the queue. *)

From S2P Require Import Prelude Contract Db.

Local Open Scope Z_scope.

(** [struct IncidentInput], less the texts no statement reads. *)
Record IncidentInput := {
  ii_deduplication_key : string;
  ii_severity : string;
  ii_reason : string;
  ii_resource_kind : string;
  ii_resource_id : string;
  ii_repair_url : string;
}.

(** [INSERT INTO operator_incidents ... ON CONFLICT(deduplication_key) DO UPDATE]. *)
Definition upsert_incident (id : string) (input : IncidentInput) (now : Z) (d : db) : db :=
  set_incidents (<[ii_deduplication_key input :=
    match incidents d !! ii_deduplication_key input with
    | None =>
        Incident id true (ii_severity input) (ii_reason input) (ii_resource_kind input)
          (ii_resource_id input) (ii_repair_url input) now now 1 None
    | Some old =>
        Incident (inc_id old) true (ii_severity input) (ii_reason input) (inc_resource_kind old)
          (inc_resource_id old) (ii_repair_url input) (inc_first_occurrence_at old) now
          (inc_occurrence_count old + 1) None
    end]> (incidents d)) d.

(** [SELECT id FROM users WHERE status = 'active' AND role IN ('owner', 'admin')]. *)
Definition active_administrators (d : db) : list string :=
  map fst (filter (fun kv : string * user =>
    (String.eqb (u_status kv.2) "active"
     && (String.eqb (u_role kv.2) "owner" || String.eqb (u_role kv.2) "admin")) = true)
    (map_to_list (users d))).

(** [INSERT INTO operator_incident_notifications ... ON CONFLICT DO UPDATE]. *)
Definition upsert_notification (incident_id user_id : string) (now : Z) (d : db) : db :=
  set_incident_notifications
    (<[(incident_id, user_id) := Notification now None]> (incident_notifications d)) d.

(** [open_incident]; [new_id] is the UUID drawn for a new row. *)
Definition open_incident (new_id : string) (input : IncidentInput) (now : Z)
    : ME sqlx_error string :=
  existing ← sql (fun d => (d, incidents d !! ii_deduplication_key input));
  let '(incident_id, notify) :=
    match existing with
    | None => (new_id, true)
    | Some row => (inc_id row, negb (inc_open row))
    end in
  _ ← sql (fun d => (upsert_incident incident_id input now d, tt));
  if notify then
    users ← sql (fun d => (d, active_administrators d));
    _ ← for_each (fun user _ =>
          sql (fun d => (upsert_notification incident_id user now d, tt))) users tt;
    mret incident_id
  else mret incident_id.

(** [resolve_incident]. *)
Definition resolve_incident (deduplication_key : string) (now : Z) : ME sqlx_error unit :=
  sql (fun d =>
    (set_incidents (alter (fun i =>
       if inc_open i then
         Incident (inc_id i) false (inc_severity i) (inc_reason i) (inc_resource_kind i)
           (inc_resource_id i) (inc_repair_url i) (inc_first_occurrence_at i)
           (inc_latest_occurrence_at i) (inc_occurrence_count i) (Some now)
       else i) deduplication_key (incidents d)) d, tt)).

(** ** Properties *)

(** [d'] differs from [d] in incidents and notifications only. *)
Definition only_incidents (d d' : db) : Prop :=
  d' = set_incidents (incidents d') (set_incident_notifications (incident_notifications d') d).

Lemma only_incidents_refl d : only_incidents d d.
Proof. by destruct d. Qed.

Lemma only_incidents_trans d1 d2 d3 :
  only_incidents d1 d2 -> only_incidents d2 d3 -> only_incidents d1 d3.
Proof. unfold only_incidents. intros H1 H2. rewrite H2. rewrite H1. done. Qed.

Lemma notify_all_ok id now us w w' u :
  for_each (fun user _ => sql (fun d => (upsert_notification id user now d, tt))) us tt w
    = (w', Ok u) ->
  incidents (w_db w') = incidents (w_db w) /\ only_incidents (w_db w) (w_db w') /\
  (forall usr, usr ∈ us -> incident_notifications (w_db w') !! (id, usr) = Some (Notification now None)) /\
  (forall k, (forall usr, usr ∈ us -> k <> (id, usr)) ->
     incident_notifications (w_db w') !! k = incident_notifications (w_db w) !! k).
Proof.
  revert w. induction us as [|x us IH]; intros w; cbn.
  { intros [= <- _]. split_and!; [done|apply only_incidents_refl|by intros ? ?%elem_of_nil|done]. }
  intros H. apply M_bind_ok in H as (w1 & [] & H1 & H). apply sql_ok in H1 as [H1 _].
  injection H1 as H1. apply IH in H as (Hi & Ho & Hin & Hout).
  split_and!.
  - by rewrite Hi, <- H1.
  - eapply only_incidents_trans; [|done]. by rewrite <- H1; destruct (w_db w).
  - intros usr Husr. destruct (decide (usr ∈ us)) as [Hu|Hu]; [by apply Hin|].
    apply elem_of_cons in Husr as [->|?]; [|done]. rewrite Hout, <- H1; [apply lookup_insert_eq|].
    intros usr Husr [=]. by subst.
  - intros k Hk. rewrite Hout, <- H1; [|intros usr ?; apply Hk; set_solver].
    cbn. apply lookup_insert_ne. intros <-. by eapply Hk; [apply elem_of_cons; left|].
Qed.

(**  Opening an incident, once it reports success: the key has exactly
    one row, open, counted once more than before, first seen when it first
    was; administrators get a fresh unread notification when the incident is
    new or was resolved, and none when it was already open; nothing but
    incidents and their notifications changed. *)
Theorem open_incident_spec (new_id : string) (input : IncidentInput) (now : Z)
    (w w' : world) (id : string) :
  open_incident new_id input now w = (w', Ok id) ->
  let before := incidents (w_db w) !! ii_deduplication_key input in
  exists i, incidents (w_db w') = <[ii_deduplication_key input := i]> (incidents (w_db w)) /\
    inc_open i = true /\ inc_id i = id /\ inc_resolved_at i = None /\
    inc_occurrence_count i = default 0 (inc_occurrence_count <$> before) + 1 /\
    inc_first_occurrence_at i = default now (inc_first_occurrence_at <$> before) /\
    only_incidents (w_db w) (w_db w') /\
    match before with
    | Some old =>
        if inc_open old then incident_notifications (w_db w') = incident_notifications (w_db w)
        else forall u, u ∈ active_administrators (w_db w) ->
               incident_notifications (w_db w') !! (id, u) = Some (Notification now None)
    | None => forall u, u ∈ active_administrators (w_db w) ->
               incident_notifications (w_db w') !! (id, u) = Some (Notification now None)
    end.
Proof.
  unfold open_incident. intros H.
  apply M_bind_ok in H as (w1 & row & H1 & H). apply sql_ok in H1 as [[= H1 <-] _].
  set (before := incidents (w_db w) !! ii_deduplication_key input) in *. cbv zeta.
  destruct (match before with None => _ | Some row => _ end) as [iid notify] eqn:En.
  apply M_bind_ok in H as (w2 & [] & H2 & H). apply sql_ok in H2 as [[= H2] _]. rewrite <- H1 in H2.
  assert (Ho : only_incidents (w_db w) (w_db w2)) by (rewrite <- H2; by destruct (w_db w)).
  assert (Hn : incident_notifications (w_db w2) = incident_notifications (w_db w)) by (by rewrite <- H2).
  assert (Hu : active_administrators (w_db w2) = active_administrators (w_db w)) by (by rewrite <- H2).
  assert (Hr : w_db w' = w_db w2 /\ iid = id /\ notify = false \/
    iid = id /\ notify = true /\ incidents (w_db w') = incidents (w_db w2) /\
    only_incidents (w_db w2) (w_db w') /\
    forall u, u ∈ active_administrators (w_db w) ->
      incident_notifications (w_db w') !! (id, u) = Some (Notification now None)).
  { destruct notify; [right|left; by injection H as <- <-].
    apply M_bind_ok in H as (w3 & us & H3 & H). apply sql_ok in H3 as [[= H3 <-] _].
    apply M_bind_ok in H as (w4 & [] & H4 & [= <- <-]).
    apply notify_all_ok in H4 as (Hi & Hoi & Hin & _).
    rewrite <- H3 in *. rewrite Hu in Hin. by split_and!. }
  clear H. exists (match before with
    | None => Incident iid true (ii_severity input) (ii_reason input) (ii_resource_kind input)
          (ii_resource_id input) (ii_repair_url input) now now 1 None
    | Some old => Incident (inc_id old) true (ii_severity input) (ii_reason input) (inc_resource_kind old)
          (inc_resource_id old) (ii_repair_url input) (inc_first_occurrence_at old) now
          (inc_occurrence_count old + 1) None end).
  assert (Hi2 : incidents (w_db w') = incidents (w_db w2)) by (destruct Hr as [(-> & _)|(_ & _ & -> & _)]; done).
  assert (Ho2 : only_incidents (w_db w2) (w_db w'))
    by (destruct Hr as [(-> & _)|(_ & _ & _ & ? & _)]; [apply only_incidents_refl|done]).
  assert (Ho3 : only_incidents (w_db w) (w_db w')) by (by eapply only_incidents_trans).
  rewrite Hi2, <- H2. cbn. fold before.
  split_and!; [done|by destruct before|by destruct before; naive_solver|by destruct before
    |by destruct before; cbn|by destruct before|done|].
  clear Ho Ho2 Ho3. destruct before as [old|]; [destruct (inc_open old)|]; simplify_eq/=;
    destruct Hr as [(Hd & ? & ?)|(? & ? & _ & _ & Hall)]; try done. by rewrite Hd.
Qed.

Lemma open_incident_spec_witness :
  let input := {| ii_deduplication_key := "runner-disk:rn1"; ii_severity := "warning";
                  ii_reason := "low_disk"; ii_resource_kind := "runner"; ii_resource_id := "rn1";
                  ii_repair_url := "/settings/runners" |}%string in
  let out := open_incident "i1" input 100 (World Sample.database [] []) in
  snd out = Ok "i1"%string /\
  exists i, incidents (w_db (fst out)) = <["runner-disk:rn1"%string := i]> ∅ /\ inc_open i = true.
Proof.
  intros input out. assert (Hr : snd out = Ok "i1"%string) by (vm_compute; reflexivity).
  split; [exact Hr|].
  assert (H : open_incident "i1" input 100 (World Sample.database [] []) = (fst out, Ok "i1"%string))
    by (rewrite <- Hr; apply surjective_pairing).
  destruct (open_incident_spec "i1" input 100 _ _ _ H) as (i & Hi & Ho & _). exists i. by split.
Defined.
