(* ===== verification/Access.v ===== *)
(** * Project access control

    [crates/oored/src/project_rbac.rs] over the [project_members] table, and
    the identity [session.rs] attaches to a request.  The theorems bound what
    a resolved role can do by the stored membership, the instance role and the
    way the request authenticated. *)

From S2P Require Import Prelude Contract Db.

Local Open Scope Z_scope.

(** [session::SessionInfo]. *)
Record SessionInfo := {
  user_id : string;
  email : string;
  oidc_subject : string;
  role : string;
  expires_at : Z;
  auth_source : AuthSource;
}.

(** [project_rbac::EffectiveProjectRole]. *)
Inductive EffectiveProjectRole : Set :=
  | InstanceAdmin
  | Member (role : ProjectRole.t)
  | NoRole.

#[global] Instance EffectiveProjectRole_eq_dec : EqDecision EffectiveProjectRole.
Proof. solve_decision. Defined.

(** [project_rbac::ProjectPermission]. *)
Inductive ProjectPermission : Set :=
  | Read
  | Write
  | Delete
  | ManageMembers
  | ManagePipelines
  | TriggerBuild
  | CancelBuild
  | ReadArtifacts
  | WriteArtifacts
  | DeleteArtifacts
  | OperateRelease
  | ManageReleases
  | ApproveBuild.

#[global] Instance ProjectPermission_eq_dec : EqDecision ProjectPermission.
Proof. solve_decision. Defined.

(** [effective_member_role]. *)
Definition effective_member_role (stored_role : ProjectRole.t) (instance_role : string)
    (source : AuthSource) : ProjectRole.t :=
  if String.eqb instance_role "qa_viewer" then ProjectRole.Viewer
  else if bool_decide (source = ApiToken) then
    if String.eqb instance_role "developer" then
      match stored_role with
      | ProjectRole.Maintainer | ProjectRole.Developer => ProjectRole.Developer
      | ProjectRole.Viewer => ProjectRole.Viewer
      end
    else ProjectRole.Viewer
  else stored_role.

(** [resolve_effective_project_role]. *)
Definition resolve_effective_project_role (user_id instance_role project_id : string)
    (source : AuthSource) : M EffectiveProjectRole :=
  if String.eqb instance_role "owner" || String.eqb instance_role "admin" then
    mret InstanceAdmin
  else
    row ← query "Failed to check project membership"
            (fun d => members d !! (project_id, user_id));
    match row with
    | Some role_str =>
        match ProjectRole.from_str role_str with
        | Ok role => mret (Member (effective_member_role role instance_role source))
        | Err _ => throw (ApiErr 500 "data_error" "Invalid project role in database")
        end
    | None => mret NoRole
    end.

(** [role_has_permission]. *)
Definition role_has_permission (role : ProjectRole.t) (perm : ProjectPermission) : bool :=
  match role with
  | ProjectRole.Maintainer => true
  | ProjectRole.Developer =>
      match perm with
      | Read | ManagePipelines | TriggerBuild | CancelBuild | ReadArtifacts
      | WriteArtifacts | OperateRelease => true
      | _ => false
      end
  | ProjectRole.Viewer =>
      match perm with
      | Read | ReadArtifacts => true
      | _ => false
      end
  end.

(** [check_project_permission]. *)
Definition check_project_permission (effective_role : EffectiveProjectRole)
    (permission : ProjectPermission) : bool :=
  match effective_role with
  | InstanceAdmin => true
  | Member role => role_has_permission role permission
  | NoRole => false
  end.

(** [require_project_permission]. *)
Definition require_project_permission (effective_role : EffectiveProjectRole)
    (permission : ProjectPermission) : M unit :=
  if bool_decide (effective_role = NoRole) then
    throw (ApiErr 404 "not_found" "Project not found")
  else if check_project_permission effective_role permission then mret tt
  else throw (ApiErr 403 "permission_denied"
                "You do not have permission to perform this action on this project").

(** [require_pipeline_project_permission]. *)
Definition require_pipeline_project_permission (user_id instance_role : string)
    (source : AuthSource) (pipeline_id : string) (permission : ProjectPermission)
    : M string :=
  row ← query "Failed to check pipeline access" (fun d => pipelines d !! pipeline_id);
  pl ← from_option (ApiErr 404 "not_found" "Pipeline not found") row;
  effective ← resolve_effective_project_role user_id instance_role (pl_project_id pl) source;
  _ ← require_project_permission effective permission;
  mret (pl_project_id pl).

(** [effective_role_string]. *)
Definition effective_role_string (effective_role : EffectiveProjectRole) : option string :=
  match effective_role with
  | InstanceAdmin => Some "maintainer"
  | Member role => Some (ProjectRole.fmt role)
  | NoRole => None
  end.

(** Permissions that change nothing. *)
Definition read_only (perm : ProjectPermission) : bool :=
  match perm with Read | ReadArtifacts => true | _ => false end.

(** Permissions only a maintainer holds. *)
Definition maintainer_only (perm : ProjectPermission) : bool :=
  negb (role_has_permission ProjectRole.Developer perm).

(** Neither resolving nor checking a role touches the database. *)
Lemma resolve_role_pure uid irole pid src w w' r :
  resolve_effective_project_role uid irole pid src w = (w', r) ->
  w_db w' = w_db w /\ w_published w' = w_published w.
Proof.
  unfold resolve_effective_project_role. destruct (_ || _); [by intros [= <- _]|].
  unfold mbind, M_bind. destruct (query _ _ w) as [w1 [row|e]] eqn:E.
  - apply query_ok in E as (<- & Hd & Hp). intros H.
    unfold throw, mret, M_ret in H. repeat case_match; simplify_eq/=; by split.
  - apply exec_err in E as (Hd & Hp & _). intros [= <- _]. done.
Qed.

Lemma require_permission_pure eff perm w w' r :
  require_project_permission eff perm w = (w', r) -> w' = w.
Proof. unfold require_project_permission, throw, mret, M_ret. intros H.
  repeat case_match; by simplify_eq/=.
Qed.

Lemma require_permission_ok eff perm w w' u :
  require_project_permission eff perm w = (w', Ok u) ->
  check_project_permission eff perm = true.
Proof. unfold require_project_permission, throw, mret, M_ret. intros H.
  repeat case_match; by simplify_eq/=.
Qed.

(** The role [auth] holds on a project in a given database. *)
Definition role_in (d : db) (auth : SessionInfo) (project_id : string)
    : option EffectiveProjectRole :=
  if String.eqb (role auth) "owner" || String.eqb (role auth) "admin" then Some InstanceAdmin
  else match members d !! (project_id, user_id auth) with
       | Some role_str =>
           (fun r => Member (effective_member_role r (role auth) (auth_source auth)))
             <$> ok (ProjectRole.from_str role_str)
       | None => Some NoRole
       end.

(** [auth] may do [perm] on the project. *)
Definition authorized (d : db) (auth : SessionInfo) (project_id : string)
    (perm : ProjectPermission) : Prop :=
  exists eff, role_in d auth project_id = Some eff /\ check_project_permission eff perm = true.

Lemma resolve_role_ok auth pid w w' eff :
  resolve_effective_project_role (user_id auth) (role auth) pid (auth_source auth) w
    = (w', Ok eff) ->
  role_in (w_db w) auth pid = Some eff.
Proof.
  unfold resolve_effective_project_role, role_in. intros H.
  destruct (_ || _); [by inv_run|]. inv_run. unfold throw, mret, M_ret in H.
  repeat case_match; by simplify_eq/=.
Qed.

(**  Resolution only lowers access: for every membership, instance role
    and credential, the effective role grants nothing the stored role does
    not; a QA viewer only reads, whatever the membership; and an API token
    never holds a maintainer-only permission (approving builds, managing
    releases, members or the project) through a membership. *)
Theorem effective_role_only_lowers stored irole src perm :
  role_has_permission (effective_member_role stored irole src) perm = true ->
  role_has_permission stored perm = true /\
  (irole = "qa_viewer" -> read_only perm = true) /\
  (src = ApiToken -> maintainer_only perm = false).
Proof.
  unfold effective_member_role, maintainer_only. intros H.
  destruct (String.eqb_spec irole "qa_viewer") as [->|Hq].
  { destruct perm; try discriminate H; by destruct stored. }
  case_bool_decide.
  - destruct (String.eqb irole "developer"), stored, perm; try discriminate H; naive_solver.
  - split_and!; [done|congruence|congruence].
Qed.

Lemma effective_role_only_lowers_witness :
  role_has_permission (effective_member_role ProjectRole.Maintainer "developer" ApiToken)
    CancelBuild = true /\ maintainer_only CancelBuild = false.
Proof.
  assert (H : role_has_permission
    (effective_member_role ProjectRole.Maintainer "developer" ApiToken) CancelBuild = true)
    by reflexivity.
  split; [exact H|].
  exact (proj2 (proj2 (effective_role_only_lowers _ _ _ _ H)) eq_refl).
Defined.

(** A request without any role on the project is answered as if the
    project did not exist; a request with a role is refused as forbidden
    exactly when the role lacks the permission; otherwise it proceeds.  The
    check itself changes nothing. *)
Theorem require_project_permission_spec eff perm w :
  require_project_permission eff perm w =
    (w, match eff with
        | NoRole => Err (ApiErr 404 "not_found" "Project not found")
        | _ => if check_project_permission eff perm then Ok tt
               else Err (ApiErr 403 "permission_denied"
                 "You do not have permission to perform this action on this project")
        end) /\
  (eff = InstanceAdmin -> check_project_permission eff perm = true).
Proof.
  unfold require_project_permission. split; [|intros ->; done].
  destruct eff; [done| |done]. cbn. by destruct (role_has_permission role0 perm).
Qed.
