(* ===== verification/Builds.v ===== *)
(** * Builds: status changes, creation, approval, cancellation

    [crates/oored/src/builds.rs].  [transition_commit] is the transaction of
    [transition_build_with_results], kept apart from the read in front of it:
    between the two another request may change the build, and every theorem
    about the commit is for an arbitrary database. *)

From S2P Require Import Prelude Contract RustStr Sizes Triggers Db Access.

Local Open Scope Z_scope.

(** [struct RunnerResults]. *)
Record RunnerResults := {
  rr_step_results : option string;
  rr_exit_code : option Z;
  rr_file_size_budgets : option (list TargetSizeBudget);
}.

(** [fetch_build_events]. *)
Definition fetch_build_events (build_id : string) : M (list build_event) :=
  query "Failed to fetch build events" (fun d =>
    order_by ev_created_at (filter (fun e => ev_build_id e = build_id) (build_events d))).

(** ** Status changes *)

(** The SET list of the optimistic UPDATE in [transition_build_with_results]. *)
Definition transition_row (current target : BuildStatus.t) (now : Z) (b : build) : build :=
  let b := set_status target b in
  let b := if bool_decide (target = BuildStatus.Running)
           then set_started_at (Some now) b else b in
  let b := if BuildStatus.is_terminal target && negb (BuildStatus.is_terminal current)
           then set_finished_at (Some now) b else b in
  let b := if BuildStatus.is_terminal target || bool_decide (target = BuildStatus.Queued)
           then set_runner_id None (set_signing_token_hash None b) else b in
  set_updated_at now b.

Definition set_file_size_budgets (budgets : list TargetSizeBudget) (b : build) : build :=
  let s := b_snapshot b in
  set_snapshot (Snapshot (snap_repository_id s) (snap_runs_on s) (snap_retry_steps s)
                  (snap_timeout_secs s) (snap_workflow s) budgets (snap_repo_url s)
                  (snap_retry_publish_from_file s) (snap_selected_platforms s)) b.

(** The runner's results, when it reported any. *)
Definition store_results (build_id : string) (results : option RunnerResults) : M unit :=
  match results with
  | None => mret tt
  | Some r =>
      _ ← run "Failed to persist step results"
            (touch_build build_id (fun b =>
               set_step_results (rr_step_results r) (set_exit_code (rr_exit_code r) b)));
      match rr_file_size_budgets r with
      | None => mret tt
      | Some budgets =>
          run "Failed to persist size budgets"
            (touch_build build_id (set_file_size_budgets budgets))
      end
  end.

Definition concurrent_modification : api_error :=
  ApiErr 409 "concurrent_modification" "Build status was modified concurrently".

(** The transaction of [transition_build_with_results]: compare-and-set on
    the status read earlier, results, build event, reload. *)
Definition transition_commit (build_id : string) (current target : BuildStatus.t)
    (actor reason : option string) (results : option RunnerResults) (now : Z) : M build :=
  transaction "Failed to update build" (
    affected ← exec "Failed to update build"
      (update_build build_id (fun b => bool_decide (b_status b = current))
         (transition_row current target now));
    if affected =? 0 then throw concurrent_modification
    else
      _ ← store_results build_id results;
      _ ← run "Failed to record build event"
            (add_event (BuildEvent build_id (Some current) target actor reason now));
      updated ← query "Failed to reload build" (fun d => builds d !! build_id);
      updated ← from_option (store_error "Failed to reload build") updated;
      mret (Commit updated)).

(** [transition_build_with_results]. *)
Definition transition_build_with_results (build_id : string) (target_status : BuildStatus.t)
    (actor reason : option string) (results : option RunnerResults) (now : Z) : M build :=
  row ← query "Failed to fetch build" (fun d => builds d !! build_id);
  row ← from_option (ApiErr 404 "not_found" "Build not found") row;
  let current_status := b_status row in
  if negb (BuildStatus.can_transition_to current_status target_status) then
    throw (ApiErr 409 "invalid_transition"
      ("Cannot transition from " +:+ BuildStatus.fmt current_status +:+ " to "
       +:+ BuildStatus.fmt target_status))
  else transition_commit build_id current_status target_status actor reason results now.

(** [transition_build]. *)
Definition transition_build (build_id : string) (target_status : BuildStatus.t)
    (actor reason : option string) (now : Z) : M build :=
  transition_build_with_results build_id target_status actor reason None now.

(** What a committed status change does to the database. *)
Definition results_db (build_id : string) (results : option RunnerResults) (d : db) : db :=
  match results with
  | None => d
  | Some r =>
      let d := touch_build build_id (fun b =>
        set_step_results (rr_step_results r) (set_exit_code (rr_exit_code r) b)) d in
      match rr_file_size_budgets r with
      | None => d
      | Some budgets => touch_build build_id (set_file_size_budgets budgets) d
      end
  end.

Definition transition_db (build_id : string) (current target : BuildStatus.t)
    (actor reason : option string) (results : option RunnerResults) (now : Z) (d : db) : db :=
  add_event (BuildEvent build_id (Some current) target actor reason now)
    (results_db build_id results
       (fst (update_build build_id (fun b => bool_decide (b_status b = current))
               (transition_row current target now) d))).

Lemma store_results_ok id results w w' u :
  store_results id results w = (w', Ok u) ->
  w_db w' = results_db id results (w_db w) /\ w_published w' = w_published w.
Proof.
  unfold store_results, results_db. destruct results as [r|]; [|by intros [= <- _]].
  intros H. inv_run. destruct (rr_file_size_budgets r); inv_run; split; congruence.
Qed.

Lemma transition_commit_ok id cur target actor reason results now w w' b :
  transition_commit id cur target actor reason results now w = (w', Ok b) ->
  (exists b0, builds (w_db w) !! id = Some b0 /\ b_status b0 = cur) /\
  w_db w' = transition_db id cur target actor reason results now (w_db w) /\
  builds (w_db w') !! id = Some b /\ w_published w' = w_published w.
Proof.
  unfold transition_commit. intros H.
  apply transaction_with_ok in H as (w0 & w1 & Hd0 & Hp0 & Hp' & [[H Hd']|[[H|H] Hd']]).
  - inv_run. destruct (_ =? 0) eqn:Eaff; inv_run.
    match goal with H : store_results _ _ _ = _ |- _ => apply store_results_ok in H as [Hr Hrp] end.
    match goal with H : update_build _ _ _ _ = _ |- _ => rename H into Hu end.
    rewrite Hd0 in Hu. split.
    { unfold update_build in Hu. destruct (builds (w_db w) !! id) as [b0|] eqn:Eb;
        [|by simplify_eq]. exists b0. split; [done|].
      destruct (bool_decide (b_status b0 = cur)) eqn:Es; [by apply bool_decide_eq_true in Es|].
      by simplify_eq. }
    unfold transition_db. rewrite Hu. cbn. split_and!; congruence.
  - by inv_run; case_match; inv_run.
  - by inv_run; case_match; inv_run.
Qed.

Lemma transition_commit_err id cur target actor reason results now w w' e :
  transition_commit id cur target actor reason results now w = (w', Err e) ->
  w_db w' = w_db w.
Proof. apply transaction_with_err. Qed.

Lemma transition_ok id target actor reason results now w w' b :
  transition_build_with_results id target actor reason results now w = (w', Ok b) ->
  exists b0, builds (w_db w) !! id = Some b0 /\
    BuildStatus.can_transition_to (b_status b0) target = true /\
    w_db w' = transition_db id (b_status b0) target actor reason results now (w_db w) /\
    builds (w_db w') !! id = Some b /\ w_published w' = w_published w.
Proof.
  unfold transition_build_with_results. intros H. inv_run.
  destruct (BuildStatus.can_transition_to _ _) eqn:Ecan; cbn in H; [|done].
  apply transition_commit_ok in H as ((b0 & Hb0 & Hs) & Hd & Hb & Hp).
  match goal with H : builds (w_db w) !! id = Some ?x |- _ => exists x end.
  split_and!; congruence.
Qed.

Lemma transition_err id target actor reason results now w w' e :
  transition_build_with_results id target actor reason results now w = (w', Err e) ->
  w_db w' = w_db w.
Proof.
  unfold transition_build_with_results.
  intros [H|(w1 & row & H1 & H)]%M_bind_err; [by apply exec_err in H as [-> _]|].
  apply query_ok in H1 as (<- & Hd & _). rewrite <- Hd.
  apply M_bind_err in H as [H|(w2 & b & H2 & H)].
  - unfold from_option, throw, mret, M_ret in H. case_match; by simplify_eq.
  - inv_run. destruct (negb _); [by injection H as <- _|].
    by apply transition_commit_err in H.
Qed.

(** What [transition_db] leaves of the build it moves. *)
Lemma transition_db_lookup id cur target actor reason results now d b0 :
  builds d !! id = Some b0 -> b_status b0 = cur ->
  exists b1,
    builds (transition_db id cur target actor reason results now d)
      = <[id := b1]> (builds d) /\
    b_status b1 = target /\ b_meta b1 = b_meta b0 /\
    b_runner_id b1 = b_runner_id (transition_row cur target now b0) /\
    b_signing_token_hash b1 = b_signing_token_hash (transition_row cur target now b0) /\
    b_started_at b1 = b_started_at (transition_row cur target now b0) /\
    b_finished_at b1 = b_finished_at (transition_row cur target now b0) /\
    b_ran_on_runner_id b1 = b_ran_on_runner_id b0 /\
    b_expired_from b1 = b_expired_from b0 /\
    b_updated_at b1 = now /\
    b_approval_state b1 =
      b_approval_state (withdraw_pending_approval (transition_row cur target now b0)) /\
    b_source_build_id b1 = b_source_build_id b0 /\
    snap_retry_steps (b_snapshot b1) = snap_retry_steps (b_snapshot b0).
Proof.
  intros Hb Hs. unfold transition_db, update_build, add_event. rewrite Hb, Hs.
  rewrite bool_decide_true by done. cbn [fst].
  set (b1 := withdraw_pending_approval (transition_row cur target now b0)).
  assert (H1 : b_status b1 = target /\ b_meta b1 = b_meta b0 /\
    b_runner_id b1 = b_runner_id (transition_row cur target now b0) /\
    b_signing_token_hash b1 = b_signing_token_hash (transition_row cur target now b0) /\
    b_started_at b1 = b_started_at (transition_row cur target now b0) /\
    b_finished_at b1 = b_finished_at (transition_row cur target now b0) /\
    b_ran_on_runner_id b1 = b_ran_on_runner_id b0 /\
    b_expired_from b1 = b_expired_from b0 /\ b_updated_at b1 = now /\
    b_source_build_id b1 = b_source_build_id b0 /\
    snap_retry_steps (b_snapshot b1) = snap_retry_steps (b_snapshot b0)).
  { subst b1. unfold withdraw_pending_approval, transition_row.
    repeat case_match; by split_and!. }
  unfold results_db, touch_build. destruct results as [r|]; cbn.
  - destruct (rr_file_size_budgets r) as [bs|]; cbn; eexists;
      rewrite ?alter_insert_eq; (split; [done|]); destruct_and!; by split_and!.
  - exists b1. split; [done|]. destruct_and!; by split_and!.
Qed.

(** ** Creating builds *)

(** [struct BuildInsertBinds]. *)
Record BuildInsertBinds := {
  bi_build_id : string;
  bi_project_id : string;
  bi_pipeline_id : string;
  bi_actor : option string;
  bi_event_type : option string;
  bi_trigger_ref : option string;
  bi_commit_sha : option string;
  bi_branch : option string;
  bi_changelog : option string;
  bi_config_snapshot : snapshot;
  bi_webhook_id : option string;
  bi_now : Z;
  bi_trigger_type : TriggerType.t;
  bi_source_build_id : option string;
  bi_cancel_previous : bool;
  bi_approval_required : bool;
}.

(** [COALESCE(MAX(build_number), 0) + 1] over the project's builds. *)
Definition next_build_number (project_id : string) (d : db) : Z :=
  foldr (fun kv n => if String.eqb (b_project_id kv.2) project_id
                     then Z.max n (b_build_number kv.2) else n)
    0 (map_to_list (builds d)) + 1.

(** [p.repository_id] names an existing repository, the one of the snapshot. *)
Definition source_matches (project_id : string) (s : snapshot) (d : db) : bool :=
  match projects d !! project_id with
  | Some p =>
      match pr_repository_id p with
      | Some r => bool_decide (is_Some (repositories d !! r))
                  && bool_decide (snap_repository_id s = Some r)
      | None => false
      end
  | None => false
  end.

(** Another unfinished retry of the same source build runs one of the steps. *)
Definition retry_in_flight (source : option string) (s : snapshot) (d : db) : bool :=
  match source with
  | None => false
  | Some src =>
      existsb (fun kv : string * build =>
        bool_decide (b_source_build_id kv.2 = Some src)
        && negb (BuildStatus.is_terminal (b_status kv.2))
        && existsb (fun step => bool_decide (step ∈ snap_retry_steps s))
             (snap_retry_steps (b_snapshot kv.2)))
        (map_to_list (builds d))
  end.

(** The inserted row, numbered [build_number]. *)
Definition created_row (b : BuildInsertBinds) (build_number : Z) : build :=
  Build
    (BuildMeta (bi_project_id b) (bi_pipeline_id b) build_number
       (bi_trigger_type b) (bi_actor b) (bi_event_type b) (bi_trigger_ref b) (bi_commit_sha b)
       (bi_branch b) (bi_changelog b) (bi_webhook_id b)
       (if bi_approval_required b then Some (bi_now b) else None) (bi_now b) (bi_now b))
    BuildStatus.Queued (bi_config_snapshot b) None None None None None
    (if bi_approval_required b then Some BuildApprovalState.Pending else None)
    None None None None None (bi_now b) None (bi_source_build_id b).

Definition new_build (b : BuildInsertBinds) (d : db) : build :=
  created_row b (next_build_number (bi_project_id b) d).

(** [INSERT INTO builds ... SELECT ... WHERE]: rows affected, or a primary key
    conflict. *)
Definition insert_build_row (b : BuildInsertBinds) (d : db) : db * result sqlx_error Z :=
  if source_matches (bi_project_id b) (bi_config_snapshot b) d
     && negb (retry_in_flight (bi_source_build_id b) (bi_config_snapshot b) d)
  then match builds d !! bi_build_id b with
       | Some _ => (d, Err OtherSqlError)
       | None => (set_builds (<[bi_build_id b := new_build b d]> (builds d)) d, Ok 1)
       end
  else (d, Ok 0).

(** [INSERT INTO webhook_build_claims ... ON CONFLICT DO NOTHING]. *)
Definition insert_webhook_claim (key : string * string * string) (build_id : string) (d : db)
    : db * Z :=
  match webhook_claims d !! key with
  | Some _ => (d, 0)
  | None => (set_webhook_claims (<[key := build_id]> (webhook_claims d)) d, 1)
  end.

(** The WHERE clause of the builds a new one supersedes. *)
Definition superseded (b : BuildInsertBinds) (branch : string) (d : db)
    (id : string) (other : build) : bool :=
  String.eqb (b_pipeline_id other) (bi_pipeline_id b)
  && bool_decide (b_branch other = Some branch)
  && negb (String.eqb id (bi_build_id b))
  && match builds d !! bi_build_id b with
     | Some mine => b_build_number other <? b_build_number mine
     | None => false
     end
  && match snap_repository_id (b_snapshot other), snap_repository_id (bi_config_snapshot b) with
     | Some r, Some r' => String.eqb r r'
     | _, _ => false
     end
  && negb (BuildStatus.is_terminal (b_status other)).

(** [UPDATE builds SET status = 'canceled', ...] of the superseded ones. *)
Definition cancel_row (now : Z) (b : build) : build :=
  set_updated_at now (set_finished_at (Some now) (set_signing_token_hash None
    (set_runner_id None (set_status BuildStatus.Canceled b)))).

Definition supersede_events (b : BuildInsertBinds) (branch : string) (d : db) : db :=
  set_build_events (build_events d ++
    map (fun kv => BuildEvent kv.1 (Some (b_status kv.2)) BuildStatus.Canceled (bi_actor b)
                     (Some "superseded by new build") (bi_now b))
      (select_builds (superseded b branch d) d)) d.

Definition supersede_rows (b : BuildInsertBinds) (branch : string) (d : db) : db :=
  update_builds (superseded b branch d) (cancel_row (bi_now b)) d.

Definition lift_sql {A} (r : result sqlx_error A) : ME sqlx_error A :=
  match r with Ok a => mret a | Err e => throw e end.

(** The webhook claim of [execute_build_insert]: [false] when the delivery
    already has a build of this pipeline and workflow. *)
Definition claim_webhook (b : BuildInsertBinds) : ME sqlx_error bool :=
  match bi_webhook_id b with
  | Some webhook_id =>
      n ← sql (insert_webhook_claim
            (webhook_id, bi_pipeline_id b,
             default ""%string (snap_workflow (bi_config_snapshot b)))
            (bi_build_id b));
      mret (n =? 1)
  | None => mret true
  end.

(** Its two [cancel_previous] statements. *)
Definition supersede_previous (b : BuildInsertBinds) : ME sqlx_error unit :=
  match bi_branch b with
  | Some branch =>
      if bi_cancel_previous b && negb (is_empty branch) then
        _ ← sql (fun d => (supersede_events b branch d, tt));
        sql (fun d => (supersede_rows b branch d, tt))
      else mret tt
  | None => mret tt
  end.

(** [execute_build_insert]. *)
Definition execute_build_insert (b : BuildInsertBinds) : ME sqlx_error bool :=
  transaction_with (fun e => e) (
    inserted ← sql (insert_build_row b);
    affected ← lift_sql inserted;
    if negb (affected =? 1) then mret (Rollback false)
    else
      claimed ← claim_webhook b;
      if negb claimed then mret (Rollback false)
      else
        _ ← supersede_previous b;
        mret (Commit true)).

Definition BUILD_INSERT_MAX_RETRIES : nat := 10.

(** [is_sqlite_busy(&e) || is_sqlite_unique_violation(&e)]. *)
Definition is_retryable (e : sqlx_error) : bool :=
  bool_decide (e = SqliteBusy) || bool_decide (e = UniqueViolation).

(** The loop of [insert_build_with_retry]; [left] attempts remain after this
    one. *)
Fixpoint insert_attempts (left : nat) (b : BuildInsertBinds) : M bool :=
  catch (execute_build_insert b) (fun r =>
    match r with
    | Ok inserted => mret inserted
    | Err e =>
        match left with
        | S left' =>
            if is_retryable e then insert_attempts left' b
            else throw (store_error "Failed to create build")
        | O => throw (store_error "Failed to create build")
        end
    end).

(** [insert_build_with_retry]. *)
Definition insert_build_with_retry (b : BuildInsertBinds) : M bool :=
  insert_attempts (pred BUILD_INSERT_MAX_RETRIES) b.

(** ** What a committed insert does *)

(** The statements of [execute_build_insert] on the path that commits. *)
Definition claim_db (b : BuildInsertBinds) (d : db) : option db :=
  match bi_webhook_id b with
  | None => Some d
  | Some webhook_id =>
      let '(d', n) := insert_webhook_claim
        (webhook_id, bi_pipeline_id b, default ""%string (snap_workflow (bi_config_snapshot b)))
        (bi_build_id b) d in
      if n =? 1 then Some d' else None
  end.

Definition supersede_db (b : BuildInsertBinds) (d : db) : db :=
  match bi_branch b with
  | Some branch =>
      if bi_cancel_previous b && negb (is_empty branch)
      then supersede_rows b branch (supersede_events b branch d) else d
  | None => d
  end.

Definition insert_effect (b : BuildInsertBinds) (d d' : db) : Prop :=
  exists d1 d2, insert_build_row b d = (d1, Ok 1) /\ claim_db b d1 = Some d2 /\
    d' = supersede_db b d2.

Lemma lift_sql_ok {A} (r : result sqlx_error A) w w' a :
  lift_sql r w = (w', Ok a) -> r = Ok a /\ w' = w.
Proof. by destruct r; intros [= <- <-]. Qed.

Lemma insert_build_row_ok b d d' n :
  insert_build_row b d = (d', Ok n) -> n = 1 \/ n = 0.
Proof. unfold insert_build_row. intros. repeat case_match; simplify_eq; auto. Qed.

(** Split a successful run of raw statements. *)
Ltac inv_sql :=
  repeat match goal with
  | H : (_ ≫= _) _ = (_, Ok _) |- _ => apply M_bind_ok in H as (? & ? & ? & H)
  | H : sql _ _ = (_, Ok _) |- _ => apply sql_ok in H as (? & ?)
  | H : lift_sql _ _ = (_, Ok _) |- _ => apply lift_sql_ok in H as (? & ?)
  | H : mret _ _ = (_, Ok _) |- _ => injection H as ? ?
  end; simplify_eq/=.

Lemma claim_webhook_ok b w w' claimed :
  claim_webhook b w = (w', Ok claimed) ->
  (claimed = true -> claim_db b (w_db w) = Some (w_db w')) /\
  (claimed = false -> claim_db b (w_db w) = None) /\
  w_published w' = w_published w.
Proof.
  unfold claim_webhook, claim_db. destruct (bi_webhook_id b); intros H; inv_sql; [|done].
  destruct (insert_webhook_claim _ _ _). by simplify_eq; case_match.
Qed.

Lemma supersede_ok b w w' u :
  supersede_previous b w = (w', Ok u) ->
  w_db w' = supersede_db b (w_db w) /\ w_published w' = w_published w.
Proof.
  unfold supersede_previous, supersede_db. intros H.
  repeat case_match; inv_sql; by split; congruence.
Qed.

(** [Ok(true)] is a committed insert; [Ok(false)] changed nothing. *)
Lemma execute_build_insert_ok b w w' inserted :
  execute_build_insert b w = (w', Ok inserted) ->
  w_published w' = w_published w /\
  if inserted then insert_effect b (w_db w) (w_db w') else w_db w' = w_db w.
Proof.
  unfold execute_build_insert. intros H.
  apply transaction_with_ok in H as (w0 & w1 & Hd0 & Hp0 & Hp' & H).
  rewrite Hp', <- Hp0, <- Hd0. rewrite <- Hd0 in H. clear Hp' Hp0 Hd0 w.
  destruct H as [[H ->]|[[H|H] ->]]; inv_sql; case_match eqn:En; inv_sql;
    repeat match goal with H : claim_webhook _ _ = _ |- _ => apply claim_webhook_ok in H as (Ht & Hf & ?) end;
    try (case_match; inv_sql);
    repeat match goal with H : supersede_previous _ _ = _ |- _ => apply supersede_ok in H as (? & ?) end;
    (split; [congruence|]); try done.
  apply negb_false_iff, Z.eqb_eq in En as ->. eexists _, _. split_and!; [done| |done].
  apply Ht. by apply negb_false_iff.
Qed.

Lemma execute_build_insert_err b w w' e :
  execute_build_insert b w = (w', Err e) -> w_db w' = w_db w.
Proof. apply transaction_with_err. Qed.

Lemma insert_attempts_result n b w w' r :
  insert_attempts n b w = (w', r) ->
  match r with
  | Ok true => insert_effect b (w_db w) (w_db w')
  | Ok false => w_db w' = w_db w
  | Err e => w_db w' = w_db w /\ e = store_error "Failed to create build"
  end.
Proof.
  revert w. induction n as [|n IH]; intros w; cbn; unfold catch;
    destruct (execute_build_insert b w) as [w1 [i|e]] eqn:E.
  1, 3: intros [= <- <-]; by apply execute_build_insert_ok in E as [_ E]; destruct i.
  all: apply execute_build_insert_err in E.
  { by intros [= <- <-]. }
  destruct (is_retryable e); [|by intros [= <- <-]].
  intros H%IH. rewrite <- E. done.
Qed.

(** Every build of the project has a smaller number than the next one. *)
Lemma next_build_number_above pid d id b :
  builds d !! id = Some b -> b_project_id b = pid ->
  b_build_number b < next_build_number pid d.
Proof.
  intros Hb Hp. unfold next_build_number.
  apply elem_of_map_to_list in Hb. revert Hb. generalize (map_to_list (builds d)) as l.
  induction l as [|[k o] l IH]; intros Hin; [by apply not_elem_of_nil in Hin|].
  apply elem_of_cons in Hin as [[= <- <-]|Hin]; cbn.
  - rewrite Hp, String.eqb_refl. lia.
  - specialize (IH Hin). destruct (String.eqb _ _); lia.
Qed.

(** A build superseded by the new one: same pipeline, branch and repository,
    created earlier, not finished. *)
Definition supersedes (b : BuildInsertBinds) (number : Z) (other : build) : bool :=
  bi_cancel_previous b
  && negb (bool_decide (bi_branch b = Some ""%string))
  && bool_decide (is_Some (bi_branch b))
  && String.eqb (b_pipeline_id other) (bi_pipeline_id b)
  && bool_decide (b_branch other = bi_branch b)
  && (b_build_number other <? number)
  && bool_decide (is_Some (snap_repository_id (bi_config_snapshot b)))
  && bool_decide (snap_repository_id (b_snapshot other)
                  = snap_repository_id (bi_config_snapshot b))
  && negb (BuildStatus.is_terminal (b_status other)).

Definition claim_key (b : BuildInsertBinds) (webhook_id : string) : string * string * string :=
  (webhook_id, bi_pipeline_id b, default ""%string (snap_workflow (bi_config_snapshot b))).

Lemma claim_db_spec b d d' :
  claim_db b d = Some d' ->
  builds d' = builds d /\ build_events d' = build_events d /\
  runners d' = runners d /\ pipelines d' = pipelines d /\
  match bi_webhook_id b with
  | Some wh => webhook_claims d !! claim_key b wh = None /\
               webhook_claims d' = <[claim_key b wh := bi_build_id b]> (webhook_claims d)
  | None => webhook_claims d' = webhook_claims d
  end.
Proof.
  unfold claim_db, insert_webhook_claim, claim_key. intros.
  repeat case_match; by simplify_eq/=.
Qed.

Lemma insert_build_row_spec b d d' :
  insert_build_row b d = (d', Ok 1) ->
  source_matches (bi_project_id b) (bi_config_snapshot b) d = true /\
  retry_in_flight (bi_source_build_id b) (bi_config_snapshot b) d = false /\
  builds d !! bi_build_id b = None /\
  d' = set_builds (<[bi_build_id b := new_build b d]> (builds d)) d.
Proof.
  unfold insert_build_row. destruct (source_matches _ _ _), (retry_in_flight _ _ _);
    cbn; intros; repeat case_match; by simplify_eq.
Qed.

Lemma superseded_supersedes b branch d id other mine :
  builds d !! bi_build_id b = Some mine -> id <> bi_build_id b ->
  bi_branch b = Some branch ->
  bi_cancel_previous b && negb (is_empty branch)
    && superseded b branch d id other = supersedes b (b_build_number mine) other.
Proof.
  intros Hm Hid Hbr. unfold superseded, supersedes. rewrite Hm, Hbr.
  rewrite (proj2 (String.eqb_neq id (bi_build_id b)) Hid).
  rewrite (bool_decide_true (is_Some (Some branch))) by eauto.
  assert (is_empty branch = bool_decide (Some branch = Some ""%string)) as ->.
  { destruct branch; [by rewrite bool_decide_true|by rewrite bool_decide_false]. }
  destruct (snap_repository_id (bi_config_snapshot b)) as [r|];
    [|rewrite (bool_decide_false (is_Some None)) by (by intros [? [=]]);
      destruct (snap_repository_id (b_snapshot other)); by rewrite ?andb_false_r].
  rewrite (bool_decide_true (is_Some (Some r))) by eauto.
  destruct (snap_repository_id (b_snapshot other)) as [r'|];
    [|rewrite (bool_decide_false (None = Some r)) by done; by rewrite ?andb_false_r].
  assert (String.eqb r' r = bool_decide (Some r' = Some r)) as ->.
  { destruct (String.eqb_spec r' r); [subst; by rewrite bool_decide_true|].
    rewrite bool_decide_false by congruence. done. }
  rewrite !andb_true_r, !andb_assoc. done.
Qed.

(** The table after a committed insert: the new row, the superseded rows
    cancelled, every other row as it was. *)
Definition after_insert (b : BuildInsertBinds) (d : db) : gmap string build :=
  let number := next_build_number (bi_project_id b) d in
  <[bi_build_id b := new_build b d]>
    ((fun o => if supersedes b number o
               then withdraw_pending_approval (cancel_row (bi_now b) o) else o) <$> builds d).

Definition superseded_event (b : BuildInsertBinds) (kv : string * build) : build_event :=
  BuildEvent kv.1 (Some (b_status kv.2)) BuildStatus.Canceled (bi_actor b)
    (Some "superseded by new build"%string) (bi_now b).

Lemma supersede_rows_builds b branch d nb :
  bi_branch b = Some branch -> bi_cancel_previous b && negb (is_empty branch) = true ->
  builds d !! bi_build_id b = None ->
  b_build_number nb = next_build_number (bi_project_id b) d ->
  let d1 := set_builds (<[bi_build_id b := nb]> (builds d)) d in
  map_imap (fun id o => Some (if superseded b branch d1 id o
     then withdraw_pending_approval (cancel_row (bi_now b) o) else o)) (builds d1)
  = <[bi_build_id b := nb]>
      ((fun o => if supersedes b (next_build_number (bi_project_id b) d) o
                 then withdraw_pending_approval (cancel_row (bi_now b) o) else o) <$> builds d).
Proof.
  intros Hbr Hc Hn Hnum d1. apply map_eq. intros id. rewrite map_lookup_imap. cbn.
  destruct (decide (id = bi_build_id b)) as [->|Hid].
  - rewrite !lookup_insert_eq. cbn. unfold superseded at 1. rewrite String.eqb_refl.
    by rewrite !andb_false_r.
  - rewrite !lookup_insert_ne by done. rewrite lookup_fmap.
    destruct (builds d !! id) as [o|]; [|done]. cbn. rewrite <- Hnum.
    rewrite <- (superseded_supersedes b branch d1 id o nb); [by rewrite Hc| |done..].
    unfold d1. cbn. by rewrite lookup_insert_eq.
Qed.

Lemma supersedes_none b n o :
  match bi_branch b with
  | Some branch => bi_cancel_previous b && negb (is_empty branch)
  | None => false
  end = false -> supersedes b n o = false.
Proof.
  unfold supersedes. destruct (bi_branch b) as [br|].
  - destruct (bi_cancel_previous b); [|done]. destruct br; [|done]. intros _.
    by rewrite (bool_decide_true (Some _ = Some _)).
  - intros _. rewrite (bool_decide_false (is_Some None)) by (by intros [? [=]]).
    by rewrite ?andb_false_r.
Qed.

Lemma insert_effect_builds b d d' :
  insert_effect b d d' ->
  builds d !! bi_build_id b = None /\ builds d' = after_insert b d /\
  runners d' = runners d /\ pipelines d' = pipelines d.
Proof.
  intros (d1 & d2 & (_ & _ & Hn & ->)%insert_build_row_spec & Hc & ->).
  apply claim_db_spec in Hc as (Hb & _ & Hr & Hp & _). split; [done|].
  assert (Hsame : forall o, (if bi_cancel_previous b then
     match bi_branch b with Some br => negb (is_empty br) | None => false end else false) = false ->
     (if supersedes b (next_build_number (bi_project_id b) d) o
      then withdraw_pending_approval (cancel_row (bi_now b) o) else o) = o).
  { intros o H. rewrite supersedes_none; [done|].
    by destruct (bi_branch b), (bi_cancel_previous b). }
  unfold supersede_db, after_insert. destruct (bi_branch b) as [br|] eqn:Ebr.
  - destruct (bi_cancel_previous b && negb (is_empty br)) eqn:Ec; cbn.
    + split_and!; [|done..]. rewrite <- (supersede_rows_builds b br d) by done.
      rewrite Hb. apply map_imap_ext. intros id. unfold superseded. cbn. by rewrite Hb.
    + split_and!; [|done..]. rewrite Hb. cbn. f_equal. rewrite <- (map_fmap_id (builds d)) at 1.
      apply map_fmap_ext. intros ? o _. symmetry. apply Hsame. by destruct (bi_cancel_previous b).
  - split_and!; [|done..]. rewrite Hb. cbn. f_equal. rewrite <- (map_fmap_id (builds d)) at 1.
    apply map_fmap_ext. intros ? o _. symmetry. apply Hsame. by destruct (bi_cancel_previous b).
Qed.

(** One event for each superseded build, appended to the log. *)
Lemma insert_effect_events b d d' :
  insert_effect b d d' ->
  exists evs, build_events d' = build_events d ++ evs /\
    evs ≡ₚ map (superseded_event b)
      (select_builds (fun _ => supersedes b (next_build_number (bi_project_id b) d)) d).
Proof.
  intros (d1 & d2 & (_ & _ & Hn & ->)%insert_build_row_spec & Hc & ->).
  apply claim_db_spec in Hc as (Hb & He & _).
  assert (Hnone : match bi_branch b with
     | Some br => bi_cancel_previous b && negb (is_empty br) | None => false end = false ->
     [] ≡ₚ map (superseded_event b)
       (select_builds (fun _ => supersedes b (next_build_number (bi_project_id b) d)) d)).
  { intros H. unfold select_builds. replace (filter _ _) with (@nil (string * build)); [done|].
    symmetry. induction (map_to_list (builds d)) as [|kv l IH]; [done|].
    rewrite filter_cons_False; [done|]. cbn. by rewrite supersedes_none. }
  unfold supersede_db. destruct (bi_branch b) as [br|] eqn:Ebr;
    [destruct (bi_cancel_previous b && negb (is_empty br)) eqn:Ec|]; cbn;
    [|rewrite He; exists []; rewrite app_nil_r; auto..].
  rewrite He. cbn. eexists. split; [done|]. apply Permutation_map.
  unfold select_builds. rewrite Hb. cbn. rewrite (map_to_list_insert _ _ _ Hn).
  rewrite filter_cons_False;
    [|unfold superseded; cbn [fst]; rewrite (String.eqb_refl (bi_build_id b)); cbn [negb];
      by rewrite !andb_false_r].
  match goal with |- ?l ≡ₚ ?r => enough (l = r) as -> by done end.
  apply list_filter_iff_in. intros [id o] Hin. cbn.
  apply elem_of_map_to_list in Hin. assert (id <> bi_build_id b) by congruence.
  change (next_build_number (bi_project_id b) d) with (b_build_number (new_build b d)).
  rewrite <- (superseded_supersedes b br d2 id o (new_build b d));
    [by rewrite Ec| |done..]. rewrite Hb. cbn. by rewrite lookup_insert_eq.
Qed.

(** Why an insert is refused. *)
Definition refusal (b : BuildInsertBinds) (d : db) : Prop :=
  source_matches (bi_project_id b) (bi_config_snapshot b) d = false \/
  retry_in_flight (bi_source_build_id b) (bi_config_snapshot b) d = true \/
  exists wh, bi_webhook_id b = Some wh /\ is_Some (webhook_claims d !! claim_key b wh).

Lemma row_refused b d d' n :
  insert_build_row b d = (d', Ok n) -> n <> 1 -> refusal b d.
Proof.
  unfold insert_build_row, refusal. intros. destruct (source_matches _ _ _); [|auto].
  destruct (retry_in_flight _ _ _); [auto|]. cbn in *. repeat case_match; simplify_eq.
Qed.

Lemma claim_refused b d : claim_db b d = None ->
  exists wh, bi_webhook_id b = Some wh /\ is_Some (webhook_claims d !! claim_key b wh).
Proof.
  unfold claim_db, insert_webhook_claim, claim_key. destruct (bi_webhook_id b) as [wh|]; [|done].
  intros H. exists wh. split; [done|]. destruct (webhook_claims d !! _); [eauto|done].
Qed.

Lemma execute_refused b w w' : execute_build_insert b w = (w', Ok false) -> refusal b (w_db w).
Proof.
  intros (w0 & w1 & <- & _ & _ & H)%transaction_with_ok.
  destruct H as [[H _]|[[H|H] _]].
  all: apply M_bind_ok in H as (w2 & ins & [Hi _]%sql_ok & H).
  all: apply M_bind_ok in H as (w3 & k & [-> ->]%lift_sql_ok & H).
  all: destruct (Z.eqb_spec k 1) as [->|Hk]; cbn [negb] in H; [|by eapply row_refused].
  all: apply M_bind_ok in H as (w4 & c & H4 & H); apply claim_webhook_ok in H4 as (_ & Hf & _).
  all: destruct c; cbn [negb] in H; [by apply M_bind_ok in H as (w5 & [] & _ & [=])|].
  all: right; right; specialize (Hf eq_refl).
  all: apply insert_build_row_spec in Hi as (_ & _ & _ & Hd); rewrite Hd in Hf.
  all: exact (claim_refused _ _ Hf).
Qed.

Lemma insert_refused n b w w' : insert_attempts n b w = (w', Ok false) -> refusal b (w_db w).
Proof.
  revert w. induction n as [|n IH]; intros w; cbn; unfold catch;
    destruct (execute_build_insert b w) as [w1 [i|e]] eqn:E.
  1, 3: intros [= -> ->]; by eapply execute_refused.
  - done.
  - apply execute_build_insert_err in E. destruct (is_retryable e); [|done].
    intros H%IH. by rewrite <- E.
Qed.

(** The tables an insert reads but does not write. *)
Definition catalog (d : db) :=
  (projects d, repositories d, installations d, integrations d, pipelines d).

Lemma insert_effect_catalog b d d' :
  insert_effect b d d' -> catalog d' = catalog d /\
  match bi_webhook_id b with
  | Some wh => webhook_claims d !! claim_key b wh = None /\
               webhook_claims d' = <[claim_key b wh := bi_build_id b]> (webhook_claims d)
  | None => webhook_claims d' = webhook_claims d
  end.
Proof.
  intros (d1 & d2 & (_ & _ & _ & ->)%insert_build_row_spec & Hc & ->).
  pose proof (claim_db_spec _ _ _ Hc) as (_ & _ & _ & _ & Hw).
  assert (Hs : catalog (supersede_db b d2) = catalog d2 /\
               webhook_claims (supersede_db b d2) = webhook_claims d2)
    by (unfold supersede_db; repeat case_match; done).
  destruct Hs as [-> ->]. split; [|done].
  unfold claim_db, insert_webhook_claim in Hc. repeat case_match; by simplify_eq.
Qed.

(** C17: creating a build.  Whatever statements fail, [insert_build_with_retry]
    either reports an error or a refusal and leaves the database as it was, or
    it commits: the row is new, queued, unassigned, numbered one past every
    build of its project and pending approval exactly when required; exactly
    the unfinished builds it supersedes are cancelled, one event each; every
    other row is untouched; and a webhook delivery is claimed for it. *)
Theorem insert_build_spec (b : BuildInsertBinds) (w w' : world) (r : result api_error bool) :
  insert_build_with_retry b w = (w', r) ->
  match r with
  | Err e => w_db w' = w_db w /\ e = store_error "Failed to create build"
  | Ok false => w_db w' = w_db w
  | Ok true =>
      let d := w_db w in
      let number := next_build_number (bi_project_id b) d in
      builds d !! bi_build_id b = None /\
      source_matches (bi_project_id b) (bi_config_snapshot b) d = true /\
      retry_in_flight (bi_source_build_id b) (bi_config_snapshot b) d = false /\
      (exists nb, builds (w_db w') !! bi_build_id b = Some nb /\
         b_status nb = BuildStatus.Queued /\ b_runner_id nb = None /\
         b_signing_token_hash nb = None /\ b_build_number nb = number /\
         (b_approval_state nb = Some BuildApprovalState.Pending <-> bi_approval_required b = true)) /\
      (forall id o, builds d !! id = Some o -> b_project_id o = bi_project_id b ->
         b_build_number o < number) /\
      (forall id, id <> bi_build_id b -> builds (w_db w') !! id =
         (fun o => if supersedes b number o
                   then withdraw_pending_approval (cancel_row (bi_now b) o) else o)
           <$> builds d !! id) /\
      (exists evs, build_events (w_db w') = build_events d ++ evs /\
         evs ≡ₚ map (superseded_event b) (select_builds (fun _ => supersedes b number) d)) /\
      (forall wh, bi_webhook_id b = Some wh ->
         webhook_claims d !! claim_key b wh = None /\
         webhook_claims (w_db w') !! claim_key b wh = Some (bi_build_id b))
  end.
Proof.
  intros H%insert_attempts_result. destruct r as [[]|e]; [|done..].
  pose proof (insert_effect_builds _ _ _ H) as (Hn & Hb & _).
  pose proof (insert_effect_events _ _ _ H) as He.
  destruct H as (d1 & d2 & (Hs & Hr & _ & ->)%insert_build_row_spec & Hc & Hd').
  split_and!; [done..| | | |done|].
  - rewrite Hb. unfold after_insert. rewrite lookup_insert_eq. eexists. split_and!; [done..|].
    cbn. by destruct (bi_approval_required b).
  - intros id o Ho Hp. by eapply next_build_number_above.
  - intros id Hid. rewrite Hb. unfold after_insert. by rewrite lookup_insert_ne, lookup_fmap.
  - intros wh Hwh. apply claim_db_spec in Hc as (_ & _ & _ & _ & Hc). rewrite Hwh in Hc.
    destruct Hc as [Hc1 Hc2]. split; [done|]. rewrite Hd'. unfold supersede_db.
    repeat case_match; cbn; rewrite Hc2; apply lookup_insert_eq.
Qed.

Definition sample_binds : BuildInsertBinds := {|
  bi_build_id := "b-new"; bi_project_id := "p1"; bi_pipeline_id := "pl1";
  bi_actor := Some "dev@x"; bi_event_type := Some "push"; bi_trigger_ref := Some "main";
  bi_commit_sha := None; bi_branch := Some "main"; bi_changelog := None;
  bi_config_snapshot := Sample.snap; bi_webhook_id := Some "wh1"; bi_now := 200;
  bi_trigger_type := TriggerType.Webhook; bi_source_build_id := None;
  bi_cancel_previous := true; bi_approval_required := false |}%string.

(** A database that is busy twice and then accepts the build, which supersedes
    the three unfinished builds of the branch. *)
Lemma insert_build_spec_witness :
  let out := insert_build_with_retry sample_binds
               (World Sample.database [Some SqliteBusy; None; Some SqliteBusy] []) in
  snd out = Ok true /\
  b_build_number <$> builds (w_db (fst out)) !! "b-new"%string = Some 4 /\
  b_status <$> builds (w_db (fst out)) !! "b-run"%string = Some BuildStatus.Canceled /\
  length (build_events (w_db (fst out))) = 3%nat /\
  retry_in_flight None Sample.snap Sample.database = false.
Proof.
  intros out. assert (Hr : snd out = Ok true) by (vm_compute; reflexivity).
  split_and!; [exact Hr|vm_compute; reflexivity..|].
  pose proof (insert_build_spec sample_binds _ (fst out) (snd out) (surjective_pairing out)) as H.
  rewrite Hr in H. exact (proj1 (proj2 (proj2 H))).
Defined.

(** a webhook delivery builds a pipeline's workflow at most once.  After
    an insert that committed for a delivery, no later insert for the same
    delivery, pipeline and workflow commits, whatever its other values and
    whatever happened in between that keeps the claims. *)
Theorem webhook_builds_once (b1 b2 : BuildInsertBinds) (wh : string) (w1 w1' w2 w2' : world)
    (r : result api_error bool) :
  bi_webhook_id b1 = Some wh -> bi_webhook_id b2 = Some wh ->
  claim_key b1 wh = claim_key b2 wh ->
  insert_build_with_retry b1 w1 = (w1', Ok true) ->
  webhook_claims (w_db w1') ⊆ webhook_claims (w_db w2) ->
  insert_build_with_retry b2 w2 = (w2', r) ->
  r <> Ok true /\ w_db w2' = w_db w2.
Proof.
  intros Hw1 Hw2 Hk H1%insert_attempts_result Hsub H2%insert_attempts_result.
  destruct H1 as (d1 & d2 & _ & Hc & Hd). apply claim_db_spec in Hc as (_ & _ & _ & _ & Hc).
  rewrite Hw1 in Hc. destruct Hc as [_ Hc].
  assert (Hin : webhook_claims (w_db w1') !! claim_key b2 wh = Some (bi_build_id b1)).
  { rewrite Hd. unfold supersede_db. rewrite <- Hk.
    repeat case_match; cbn; rewrite Hc; apply lookup_insert_eq. }
  eapply lookup_weaken in Hin; [|done].
  destruct r as [[]|e]; [exfalso|by split|by destruct H2].
  destruct H2 as (d3 & d4 & (_ & _ & _ & ->)%insert_build_row_spec & Hc2 & _).
  apply claim_db_spec in Hc2 as (_ & _ & _ & _ & Hc2). rewrite Hw2 in Hc2.
  destruct Hc2 as [Hc2 _]. cbn in Hc2. congruence.
Qed.

Lemma webhook_builds_once_witness :
  exists w', insert_build_with_retry sample_binds Sample.start = (w', Ok true) /\
    w_db (fst (insert_build_with_retry sample_binds w')) = w_db w'.
Proof.
  destruct (insert_build_with_retry sample_binds Sample.start) as [w1 r1] eqn:E1.
  assert (Hr : r1 = Ok true)
    by (transitivity (snd (insert_build_with_retry sample_binds Sample.start));
        [by rewrite E1|vm_compute; reflexivity]).
  subst r1. exists w1. split; [reflexivity|].
  destruct (insert_build_with_retry sample_binds w1) as [w2 r2] eqn:E2.
  exact (proj2 (webhook_builds_once sample_binds sample_binds "wh1" _ _ _ _ _
    eq_refl eq_refl eq_refl E1 (reflexivity _) E2)).
Defined.

Lemma busy_attempt n b d fs ps :
  insert_attempts (S n) b (World d (Some SqliteBusy :: fs) ps)
  = insert_attempts n b (World d fs ps).
Proof. reflexivity. Qed.

Lemma busy_attempts k m b d fs ps :
  (m <= k)%nat ->
  insert_attempts k b (World d (replicate m (Some SqliteBusy) ++ fs) ps) =
  insert_attempts (k - m) b (World d fs ps).
Proof.
  revert k. induction m as [|m IH]; intros [|k] Hk; [done|done|lia|].
  cbn [replicate app]. rewrite busy_attempt, IH by lia. done.
Qed.

(** Without contention the only failure is a primary key conflict, and the
    first attempt decides. *)
Lemma idle_failure b d ps w e :
  execute_build_insert b (World d [] ps) = (w, Err e) -> e = OtherSqlError.
Proof.
  unfold execute_build_insert, transaction_with, mbind, M_bind, map_errM, sql; cbn.
  unfold insert_build_row. repeat case_match; simplify_eq/=;
    unfold lift_sql, throw, mret, M_ret, mbind, M_bind in *; simplify_eq/=;
    unfold claim_webhook, supersede_previous, sql, mret, M_ret, mbind, M_bind in *;
    repeat (case_match; simplify_eq/=); congruence.
Qed.

Lemma idle_attempts k b d ps :
  insert_attempts k b (World d [] ps) = insert_attempts 0 b (World d [] ps).
Proof.
  destruct k as [|k]; [done|]. cbn. unfold catch.
  destruct (execute_build_insert b _) as [w [i|e]] eqn:E; [done|].
  by apply idle_failure in E as ->.
Qed.

(** [insert_build_with_retry] absorbs nine busy attempts: it then answers
    and commits exactly as it would on an idle database.  The tenth busy
    attempt in a row is reported as an error. *)
Theorem insert_absorbs_contention (b : BuildInsertBinds) (d : db) (n : nat) :
  insert_build_with_retry b (World d (replicate n (Some SqliteBusy)) []) =
    if decide (n < 10)%nat then insert_build_with_retry b (World d [] [])
    else (World d (replicate (n - 10) (Some SqliteBusy)) [],
          Err (store_error "Failed to create build")).
Proof.
  unfold insert_build_with_retry. change (pred BUILD_INSERT_MAX_RETRIES) with 9%nat.
  case_decide as Hn.
  - rewrite <- (app_nil_r (replicate n _)), busy_attempts by lia.
    by rewrite (idle_attempts (9 - n)), (idle_attempts 9).
  - replace n with (9 + S (n - 10))%nat at 1 by lia.
    rewrite replicate_add, busy_attempts by lia. done.
Qed.

(** ** Cancelling and approving *)

(** [cancel_build]. *)
Definition cancel_build (auth : SessionInfo) (build_id : string) (now : Z) : M build :=
  row ← query "Failed to fetch build" (fun d => builds d !! build_id);
  row ← from_option (ApiErr 404 "not_found" "Build not found") row;
  effective ← resolve_effective_project_role (user_id auth) (role auth) (b_project_id row)
                (auth_source auth);
  _ ← require_project_permission effective CancelBuild;
  build ← transition_build build_id BuildStatus.Canceled (Some (email auth))
            (Some "canceled by user"%string) now;
  _ ← write_audit_log (Some (user_id auth)) "build_canceled" "build" (Some build_id);
  _ ← publish_event (StateEvent build_id None BuildStatus.Canceled (Some (email auth))
        (Some "canceled by user"%string) now);
  mret build.

(** The decision's target status and timeline word. *)
Definition approval_target (decision : BuildApprovalState.t) : option (BuildStatus.t * string) :=
  match decision with
  | BuildApprovalState.Approved => Some (BuildStatus.Queued, "approved"%string)
  | BuildApprovalState.Rejected => Some (BuildStatus.Canceled, "rejected"%string)
  | BuildApprovalState.Pending => None
  end.

Definition approval_row (to_status : BuildStatus.t) (decision : BuildApprovalState.t)
    (actor : string) (reason : option string) (now : Z) (b : build) : build :=
  let b := set_status to_status b in
  let b := set_approval_state (Some decision) b in
  let b := set_approval_decided_by (Some actor) b in
  let b := set_approval_decided_at (Some now) b in
  let b := set_approval_reason reason b in
  let b := set_updated_at now b in
  if bool_decide (to_status = BuildStatus.Canceled) then set_finished_at (Some now) b else b.

(** A build waiting for a decision. *)
Definition awaiting (b : build) : bool :=
  bool_decide (b_status b = BuildStatus.Queued)
  && bool_decide (b_approval_state b = Some BuildApprovalState.Pending).

(** [record_build_approval]. *)
Definition record_build_approval (build_id actor : string) (decision : BuildApprovalState.t)
    (reason : option string) (now : Z) : M (BuildStatus.t * string) :=
  match approval_target decision with
  | None => throw (ApiErr 400 "invalid_input" "Pending is not an approval decision")
  | Some (to_status, word) =>
      let event_reason := match reason with
        | Some reason => word +:+ " by " +:+ actor +:+ ": " +:+ reason
        | None => word +:+ " by " +:+ actor
        end in
      transaction "Failed to record approval" (
        updated ← exec "Failed to record approval"
          (update_build build_id awaiting (approval_row to_status decision actor reason now));
        if updated =? 0 then
          throw (ApiErr 409 "not_awaiting_approval" "This build is not waiting for approval")
        else
          _ ← run "Failed to record approval"
                (add_event (BuildEvent build_id (Some BuildStatus.Queued) to_status (Some actor)
                   (Some event_reason) now));
          mret (Commit (to_status, event_reason)))
  end.

Definition MAX_APPROVAL_REASON_LENGTH : Z := 1000.

(** [normalize_optional]. *)
Definition normalize_optional (value : option string) : option string :=
  match value with
  | Some raw => let trimmed := trim raw in if is_empty trimmed then None else Some trimmed
  | None => None
  end.

(** [decide_build_approval]. *)
Definition decide_build_approval (auth : SessionInfo) (build_id : string)
    (body_reason : option string) (decision : BuildApprovalState.t) (now : Z) : M build :=
  let reason := normalize_optional body_reason in
  if match reason with
     | Some r => MAX_APPROVAL_REASON_LENGTH <? str_len r
     | None => false
     end
  then throw (ApiErr 400 "invalid_input" "Reason must be 1000 characters or fewer")
  else
    row ← query "Failed to fetch build" (fun d => builds d !! build_id);
    row ← from_option (ApiErr 404 "not_found" "Build not found") row;
    effective ← resolve_effective_project_role (user_id auth) (role auth) (b_project_id row)
                  (auth_source auth);
    _ ← require_project_permission effective ApproveBuild;
    '(to_status, event_reason) ← record_build_approval build_id (email auth) decision reason now;
    _ ← write_audit_log (Some (user_id auth))
          (if bool_decide (decision = BuildApprovalState.Rejected)
           then "build_rejected" else "build_approved") "build" (Some build_id);
    _ ← publish_event (StateEvent build_id (Some BuildStatus.Queued) to_status
          (Some (email auth)) (Some event_reason) now);
    row ← query "Failed to reload build" (fun d => builds d !! build_id);
    from_option (store_error "Failed to reload build") row.

(** [approve_build] and [reject_build]. *)
Definition approve_build (auth : SessionInfo) (build_id : string) (reason : option string)
    (now : Z) : M build :=
  decide_build_approval auth build_id reason BuildApprovalState.Approved now.

Definition reject_build (auth : SessionInfo) (build_id : string) (reason : option string)
    (now : Z) : M build :=
  decide_build_approval auth build_id reason BuildApprovalState.Rejected now.

(** ** Properties of status changes and decisions *)

(** C18: a status change is all or nothing.  Whatever statements fail,
    [transition_build_with_results] either fails and leaves the database as it
    was, or the build was in a state from which the target is allowed, exactly
    that row changed, exactly one event records the change, a build that is
    finished or queued again holds no runner and no signing grant, and a build
    finishes at the time it enters a terminal state. *)
Theorem transition_atomic (id : string) (target : BuildStatus.t) (actor reason : option string)
    (results : option RunnerResults) (now : Z) (w w' : world) (r : result api_error build) :
  transition_build_with_results id target actor reason results now w = (w', r) ->
  match r with
  | Err _ => w_db w' = w_db w
  | Ok b => exists b0,
      builds (w_db w) !! id = Some b0 /\
      BuildStatus.can_transition_to (b_status b0) target = true /\
      builds (w_db w') = <[id := b]> (builds (w_db w)) /\
      build_events (w_db w') = build_events (w_db w)
        ++ [BuildEvent id (Some (b_status b0)) target actor reason now] /\
      b_status b = target /\ b_meta b = b_meta b0 /\ b_updated_at b = now /\
      b_runner_id b = (if BuildStatus.is_terminal target || bool_decide (target = BuildStatus.Queued)
                       then None else b_runner_id b0) /\
      b_signing_token_hash b =
        (if BuildStatus.is_terminal target || bool_decide (target = BuildStatus.Queued)
         then None else b_signing_token_hash b0) /\
      b_started_at b = (if bool_decide (target = BuildStatus.Running) then Some now
                        else b_started_at b0) /\
      b_finished_at b = (if BuildStatus.is_terminal target && negb (BuildStatus.is_terminal (b_status b0))
                         then Some now else b_finished_at b0)
  end.
Proof.
  intros H. destruct r as [b|e]; [|by eapply transition_err].
  apply transition_ok in H as (b0 & Hb0 & Hcan & Hd & Hb & _). exists b0.
  destruct (transition_db_lookup id (b_status b0) target actor reason results now (w_db w) b0)
    as (b1 & Hb1 & H1); [done..|].
  rewrite Hd, Hb1, lookup_insert_eq in Hb. injection Hb as <-. rewrite <- Hd in Hb1.
  destruct_and! H1. split_and!; [done..| |done|done|done| | | |].
  { rewrite Hd. unfold transition_db, results_db, update_build. cbn. rewrite Hb0.
    rewrite bool_decide_true by done. by repeat case_match. }
  all: match goal with H : _ = ?g (transition_row _ _ _ _) |- ?g _ = _ =>
         rewrite H end; unfold transition_row; repeat case_match; done.
Qed.

Lemma transition_atomic_witness :
  let out := transition_build_with_results "b-run" BuildStatus.Succeeded (Some "runner:rn1"%string)
    None (Some {| rr_step_results := None; rr_exit_code := Some 0; rr_file_size_budgets := None |})
    300 Sample.start in
  exists b, snd out = Ok b /\ b_runner_id b = None /\ b_finished_at b = Some 300.
Proof.
  intros out. destruct (snd out) as [b|e] eqn:E; [|vm_compute in E; discriminate E].
  exists b. split; [reflexivity|].
  pose proof (transition_atomic _ _ _ _ _ _ _ _ _ (surjective_pairing out)) as H.
  rewrite E in H.
  destruct H as (b0 & Hb0 & _ & _ & _ & _ & _ & _ & Hr & _ & _ & Hf). split; [exact Hr|].
  vm_compute in Hb0. injection Hb0 as <-. exact Hf.
Defined.

(** two requests that read the same status cannot both change it.  Once
    one has moved the build on from [cur], the other's commit fails and changes
    nothing, however much later it runs and whatever else changed meanwhile. *)
Theorem one_transition_wins (id : string) (cur t1 t2 : BuildStatus.t)
    (a1 r1 a2 r2 : option string) (res1 res2 : option RunnerResults) (now1 now2 : Z)
    (w1 w1' w2 w2' : world) (b : build) (r : result api_error build) :
  t1 <> cur ->
  transition_commit id cur t1 a1 r1 res1 now1 w1 = (w1', Ok b) ->
  builds (w_db w2) !! id = builds (w_db w1') !! id ->
  transition_commit id cur t2 a2 r2 res2 now2 w2 = (w2', r) ->
  (exists e, r = Err e) /\ w_db w2' = w_db w2.
Proof.
  intros Hne H1 Hsame H2. destruct r as [b2|e]; [|by split; [eexists|eapply transition_commit_err]].
  apply transition_commit_ok in H2 as ((b0 & Hb0 & Hs) & _).
  apply transition_commit_ok in H1 as ((b1 & Hb1 & Hs1) & Hd & _).
  destruct (transition_db_lookup id cur t1 a1 r1 res1 now1 (w_db w1) b1) as (b' & Hb' & Hst & _);
    [done..|].
  rewrite Hsame, Hd, Hb', lookup_insert_eq in Hb0. congruence.
Qed.

Lemma one_transition_wins_witness :
  let out1 := transition_commit "b-run" BuildStatus.Running BuildStatus.Succeeded None None None
                300 Sample.start in
  let out2 := transition_commit "b-run" BuildStatus.Running BuildStatus.Canceled None None None
                301 (fst out1) in
  w_db (fst out2) = w_db (fst out1).
Proof.
  intros out1 out2. destruct (snd out1) as [b|e] eqn:E; [|vm_compute in E; discriminate E].
  assert (H1 : transition_commit "b-run" BuildStatus.Running BuildStatus.Succeeded None None None
                 300 Sample.start = (fst out1, Ok b)).
  { rewrite <- E. apply surjective_pairing. }
  eapply (one_transition_wins "b-run" BuildStatus.Running BuildStatus.Succeeded
    BuildStatus.Canceled None None None None None None 300 301);
    [discriminate|exact H1|reflexivity|exact (surjective_pairing out2)].
Defined.

Lemma record_approval_ok id actor decision reason now w w' x :
  record_build_approval id actor decision reason now w = (w', Ok x) ->
  exists b0 word, builds (w_db w) !! id = Some b0 /\ awaiting b0 = true /\
    approval_target decision = Some (x.1, word) /\
    builds (w_db w') = <[id := withdraw_pending_approval
      (approval_row x.1 decision actor reason now b0)]> (builds (w_db w)) /\
    build_events (w_db w') = build_events (w_db w)
      ++ [BuildEvent id (Some BuildStatus.Queued) x.1 (Some actor) (Some x.2) now] /\
    runners (w_db w') = runners (w_db w) /\ pipelines (w_db w') = pipelines (w_db w) /\
    w_published w' = w_published w.
Proof.
  unfold record_build_approval. destruct (approval_target decision) as [[to word]|] eqn:Et; [|done].
  intros H. apply transaction_with_ok in H as (w0 & w1 & Hd0 & Hp0 & Hp1 & [[H Hd]|[[H|H] _]]);
    [|by inv_run; case_match; inv_run..].
  inv_run. destruct (_ =? 0) eqn:En; inv_run. rewrite Hd0 in *. unfold update_build in *.
  destruct (builds (w_db w) !! id) as [b0|] eqn:Eb; [|by simplify_eq].
  destruct (awaiting b0) eqn:Ea; [|by simplify_eq]. simplify_eq/=.
  exists b0, word. rewrite Hd.
  repeat match goal with H : w_db _ = _ |- _ => rewrite H; clear H end.
  match goal with H : set_builds _ _ = _ |- _ => rewrite <- H end. split_and!; try done; congruence.
Qed.

Lemma record_approval_err id actor decision reason now w w' e :
  record_build_approval id actor decision reason now w = (w', Err e) -> w_db w' = w_db w.
Proof.
  unfold record_build_approval. destruct (approval_target decision) as [[to word]|];
    [apply transaction_with_err|by intros [= <- _]].
Qed.

(** A recorded decision leaves a row that awaits no further one. *)
Lemma decided_row to decision actor reason now b word :
  approval_target decision = Some (to, word) ->
  let b' := withdraw_pending_approval (approval_row to decision actor reason now b) in
  b_approval_state b' = Some decision /\ b_status b' = to /\ awaiting b' = false /\
  b_meta b' = b_meta b /\ b_runner_id b' = b_runner_id b /\
  b_signing_token_hash b' = b_signing_token_hash b /\
  b_approval_decided_by b' = Some actor /\
  b_finished_at b' = (if bool_decide (to = BuildStatus.Canceled) then Some now else b_finished_at b).
Proof. destruct decision; intros [= <- <-]; by split_and!. Qed.

(** C19: approval decisions.  A decision that is reported as made was made by
    someone allowed to approve builds of the project, on a build that was
    queued and pending approval; it leaves the build approved in the queue or
    rejected and cancelled, touches no other build, and is announced once.
    Afterwards no further decision on the build can be recorded. *)
Theorem approval_decided_once (auth : SessionInfo) (id : string) (note : option string)
    (decision : BuildApprovalState.t) (now : Z) (w w' : world) (b : build) :
  decide_build_approval auth id note decision now w = (w', Ok b) ->
  (exists b0, builds (w_db w) !! id = Some b0 /\ awaiting b0 = true /\
     authorized (w_db w) auth (b_project_id b0) ApproveBuild /\
     builds (w_db w') = <[id := b]> (builds (w_db w))) /\
  b_approval_state b = Some decision /\
  b_approval_decided_by b = Some (email auth) /\
  match decision with
  | BuildApprovalState.Approved => b_status b = BuildStatus.Queued
  | BuildApprovalState.Rejected => b_status b = BuildStatus.Canceled /\ b_finished_at b = Some now
  | BuildApprovalState.Pending => False
  end /\
  (exists e, w_published w' = w_published w ++ [BuildChanged e] /\ se_build_id e = id /\
             se_to_status e = b_status b) /\
  (forall actor2 decision2 reason2 now2 w2 w2' r2,
     builds (w_db w2) !! id = Some b ->
     record_build_approval id actor2 decision2 reason2 now2 w2 = (w2', r2) ->
     (exists e, r2 = Err e) /\ w_db w2' = w_db w2).
Proof.
  unfold decide_build_approval. intros Hrun. case_match; [done|]. inv_run.
  match goal with H : resolve_effective_project_role _ _ _ _ _ = _ |- _ =>
    pose proof (resolve_role_ok _ _ _ _ _ H) as Hrole; apply resolve_role_pure in H as [Hd1 Hp1] end.
  match goal with H : require_project_permission _ _ _ = _ |- _ =>
    pose proof (require_permission_ok _ _ _ _ _ H) as Hperm; apply require_permission_pure in H as -> end.
  match goal with H : (let (_, _) := ?x in _) _ = _ |- _ => destruct x as [to ev]; inv_run end.
  match goal with H : write_audit_log _ _ _ _ _ = _ |- _ =>
    apply audit_run in H as (_ & (logs & Hlog) & Hplog) end.
  match goal with H : record_build_approval _ _ _ _ _ _ = _ |- _ =>
    apply record_approval_ok in H as (b0 & word & Hb0 & Haw & Ht & Hbs & _ & _ & _ & Hp) end.
  pose proof (decided_row to decision (email auth) (normalize_optional note) now b0 word Ht)
    as (Ha & Hs & Hna & _ & _ & _ & Hby & Hfin).
  match goal with H : w_published w' = _, H' : w_db w' = _, Hb : builds _ !! id = Some b |- _ =>
    rename H into Hpub; rename H' into Hdb; rename Hb into Hrow end.
  rewrite Hlog in Hrow, Hdb. cbn in Hrow. rewrite Hbs, lookup_insert_eq in Hrow. injection Hrow as <-.
  repeat match goal with H : w_db ?x = w_db _ |- _ => rewrite H in *; clear H end. simplify_eq.
  split; [eexists; split_and!; [done..| |]; [by eexists|rewrite Hdb; cbn; exact Hbs]|].
  split; [done|]. split; [done|]. split; [by destruct decision; simplify_eq/=|]. split.
  - eexists. rewrite Hpub, Hplog, Hp, Hp1.
    split_and!; [f_equal; congruence|done|by rewrite Hs].
  - intros actor2 dec2 reason2 now2 w2 w2' r2 Hb2 Hr2.
    destruct r2 as [y|e]; [|by split; [eexists|eapply record_approval_err]].
    apply record_approval_ok in Hr2 as (? & ? & Hrow & Haw2 & _). congruence.
Qed.

Definition sample_owner : SessionInfo :=
  {| user_id := "u1"; email := "owner@x"; oidc_subject := "local::owner@x";
     role := "owner"; expires_at := 86400; auth_source := Session |}%string.

Lemma approval_decided_once_witness :
  let out := decide_build_approval sample_owner "b-wait" (Some " late "%string)
               BuildApprovalState.Rejected 150 Sample.start in
  exists b, snd out = Ok b /\ b_status b = BuildStatus.Canceled /\ b_finished_at b = Some 150.
Proof.
  intros out. destruct (snd out) as [b|e] eqn:E; [|vm_compute in E; discriminate E].
  assert (H : decide_build_approval sample_owner "b-wait" (Some " late "%string)
    BuildApprovalState.Rejected 150 Sample.start = (fst out, Ok b))
    by (rewrite <- E; apply surjective_pairing).
  exists b. split; [reflexivity|].
  exact (proj1 (proj2 (proj2 (proj2 (approval_decided_once _ _ _ _ _ _ _ _ H))))).
Defined.
