(* ===== verification/Runners.v ===== *)
(** * Runners: authentication, claims, reports

    [crates/oored/src/runners.rs].  A runner claims the oldest build it may
    run, in one transaction that rechecks every policy; it then reports the
    build's status.  [hash_token] (SHA-256), [encode] ([urlencoding]) and
    [enforce] (Casbin) are library code: parameters here. *)

From S2P Require Import Prelude Contract RustStr Labels Sizes Triggers Db Incidents Access Builds.
From stdpp Require pretty.
From Stdlib Require Import Ascii.

Local Open Scope Z_scope.

(** ** The policies of a claim *)

(** A build that takes a slot of its pipeline. *)
Definition takes_slot (s : BuildStatus.t) : bool :=
  match s with
  | BuildStatus.Scheduled | BuildStatus.Assigned | BuildStatus.Running => true
  | _ => false
  end.

(** A build a runner holds. *)
Definition held_status (s : BuildStatus.t) : bool :=
  match s with BuildStatus.Assigned | BuildStatus.Running => true | _ => false end.

Definition active_in (pipeline_id : string) (b : build) : bool :=
  String.eqb (b_pipeline_id b) pipeline_id && takes_slot (b_status b).

Definition held_by (runner_id : string) (b : build) : bool :=
  bool_decide (b_runner_id b = Some runner_id) && held_status (b_status b).

(** [pipeline_has_free_slot!]. *)
Definition pipeline_has_free_slot (d : db) (b : build) : bool :=
  match pipelines d !! b_pipeline_id b with
  | Some pl =>
      match max_concurrent (pl_concurrency pl) with
      | Some n => negb ((0 <? n) && (n <=? count_builds (active_in (b_pipeline_id b)) d))
      | None => true
      end
  | None => true
  end.

(** The runner has every label of [runs_on] and a free build slot. *)
Definition runner_can_take (d : db) (runner_id : string) (b : build) : bool :=
  match runners d !! runner_id with
  | Some r =>
      forallb (fun l => existsb (String.eqb l) (r_labels r)) (snap_runs_on (b_snapshot b))
      && (count_builds (held_by runner_id) d <? Z.max (r_max_concurrent_builds r) 1)
  | None => false
  end.

(** An open incident that says the source's credentials do not work. *)
Definition credential_incident (integration_id : string) (i : incident) : bool :=
  inc_open i && String.eqb (inc_resource_kind i) "source"
  && String.eqb (inc_resource_id i) integration_id
  && existsb (String.eqb (inc_reason i)) ["expired"; "rejected"; "refresh_failed"]%string.

(** The joins from a build to its source: the integration behind the project's
    repository, when the build was created from that repository. *)
Definition source_integration (d : db) (b : build) : option string :=
  p ← projects d !! b_project_id b;
  r ← pr_repository_id p;
  rp ← repositories d !! r;
  integration_id ← installations d !! rp_installation_id rp;
  if bool_decide (snap_repository_id (b_snapshot b) = Some r) then Some integration_id else None.

Definition source_open (d : db) (b : build) : bool :=
  match source_integration d b with
  | Some integration_id =>
      negb (runner_paused d)
      && negb (existsb (fun kv => credential_incident integration_id kv.2)
                 (map_to_list (incidents d)))
  | None => false
  end.

(** The WHERE clause shared by [NEXT_ELIGIBLE_BUILD_SQL] and the claim. *)
Definition eligible (d : db) (runner_id : string) (b : build) : bool :=
  bool_decide (b_status b = BuildStatus.Queued)
  && negb (bool_decide (b_approval_state b = Some BuildApprovalState.Pending))
  && pipeline_has_free_slot d b
  && runner_can_take d runner_id b
  && source_open d b.

(** The operator's barrier holds: the lease of a runner service transition has
    not expired. *)
Definition barrier_active (d : db) (now : Z) : bool :=
  match transition_lease d with Some (_, expires_at) => now <=? expires_at | None => false end.

Definition claim_failed : string := "Failed to claim build".

Definition schedule_row (now : Z) (b : build) : build :=
  set_updated_at now (set_status BuildStatus.Scheduled b).

Definition assign_row (runner_id signing_token_hash : string) (now : Z) (b : build) : build :=
  set_updated_at now (set_signing_token_hash (Some signing_token_hash)
    (set_ran_on_runner_id (Some runner_id) (set_runner_id (Some runner_id)
      (set_status BuildStatus.Assigned b)))).

(** The claim's first UPDATE, under the trigger
    [block_runner_claim_during_service_transition] that a barrier installs. *)
Definition schedule_build (build_id runner_id : string) (now : Z) (d : db)
    : db * result sqlx_error Z :=
  let '(d', n) := update_build build_id (eligible d runner_id) (schedule_row now) d in
  if (n =? 1) && barrier_active d now then (d, Err OtherSqlError) else (d', Ok n).

(** [claim_eligible_direct_runner_build]. *)
Definition claim_eligible_direct_runner_build (build_id runner_id actor signing_token_hash : string)
    (now : Z) : M bool :=
  transaction claim_failed (
    scheduled ← exec claim_failed (schedule_build build_id runner_id now);
    scheduled ← match scheduled with
                | Ok n => mret n
                | Err _ => throw (store_error claim_failed)
                end;
    if scheduled =? 0 then mret (Discard false)
    else
      _ ← run claim_failed (add_event (BuildEvent build_id (Some BuildStatus.Queued)
            BuildStatus.Scheduled (Some actor) (Some "claimed by runner"%string) now));
      assigned ← exec claim_failed
        (update_build build_id
           (fun b => bool_decide (b_status b = BuildStatus.Scheduled)
                     && bool_decide (b_runner_id b = None))
           (assign_row runner_id signing_token_hash now));
      if negb (assigned =? 1) then mret (Discard false)
      else
        _ ← run claim_failed (add_event (BuildEvent build_id (Some BuildStatus.Scheduled)
              BuildStatus.Assigned (Some actor) (Some "assigned to runner"%string) now));
        mret (Commit true)).

(** The rows of the credential preflight: one per build and incident. *)
Definition credential_blocked (d : db) : list (string * string) :=
  flat_map (fun kv : string * build =>
    if bool_decide (b_status kv.2 = BuildStatus.Queued) then
      match source_integration d kv.2 with
      | Some integration_id =>
          map (fun i => (kv.1, inc_repair_url i.2))
            (filter (fun i : string * incident => credential_incident integration_id i.2 = true)
               (map_to_list (incidents d)))
      | None => []
      end
    else []) (map_to_list (builds d)).

Definition fail_row (now : Z) (b : build) : build :=
  set_updated_at now (set_finished_at (Some now) (set_status BuildStatus.Failed b)).

Definition fail_blocked_build (build_id repair_url : string) (now : Z) : M unit :=
  transaction "Failed to fail build" (
    n ← exec "Failed to fail build"
      (update_build build_id (fun b => bool_decide (b_status b = BuildStatus.Queued)) (fail_row now));
    _ ← (if n =? 1 then
           run "Failed to fail build" (add_event (BuildEvent build_id (Some BuildStatus.Queued)
             BuildStatus.Failed (Some "system:credential-preflight"%string)
             (Some ("Source credentials require action. Repair: " +:+ repair_url)) now))
         else mret tt);
    mret (Commit tt)).

(** [fail_credential_blocked_builds]. *)
Definition fail_credential_blocked_builds (now : Z) : M unit :=
  blocked ← query "Failed to check source credentials" credential_blocked;
  for_each (fun row _ => fail_blocked_build row.1 row.2 now) blocked tt.

(** [ORDER BY queued_at ASC, id ASC]. *)
Definition queue_le (x y : string * build) : Prop :=
  b_queued_at x.2 < b_queued_at y.2 \/
  (b_queued_at x.2 = b_queued_at y.2 /\ String.le x.1 y.1).

#[global] Instance queue_le_dec : RelDecision queue_le.
Proof. unfold queue_le. intros x y. apply _. Defined.

(** [next_eligible_build]. *)
Definition next_eligible_build (runner_id : string) (d : db) : option (string * build) :=
  head (merge_sort queue_le (select_builds (fun _ => eligible d runner_id) d)).

(** ** Releasing a runner's builds *)

(** The loop body of [release_runner_builds_except]. *)
Definition release_one (active : list string) (reason : string) (now : Z)
    (row : string * build) (failed : list string) : ME sqlx_error (list string) :=
  let build_id := row.1 in
  if bool_decide (build_id ∈ active) then mret failed
  else
    let target := if bool_decide (b_status row.2 = BuildStatus.Running)
                  then BuildStatus.Failed else BuildStatus.Queued in
    catch (transition_build build_id target (Some "system"%string) (Some reason) now) (fun r =>
      match r with
      | Ok _ =>
          if bool_decide (target = BuildStatus.Failed) then
            _ ← publish_event (StateEvent build_id (Some (b_status row.2)) target
                  (Some "system"%string) (Some reason) now);
            mret (failed ++ [build_id])
          else mret failed
      | Err _ => mret failed
      end).

(** [release_runner_builds_except] and [release_runner_builds]. *)
Definition release_runner_builds_except (runner_id : string) (active : list string)
    (reason : string) (now : Z) : ME sqlx_error (list string) :=
  rows ← sql (fun d => (d, select_builds (fun _ => held_by runner_id) d));
  for_each (release_one active reason now) rows [].

Definition release_runner_builds (runner_id reason : string) (now : Z)
    : ME sqlx_error (list string) :=
  release_runner_builds_except runner_id [] reason now.

(** ** Requests *)

(** [struct RunnerAuth]. *)
Record RunnerAuth := {
  ra_runner_id : string;
  ra_runner_name : string;
}.

Definition runner_mismatch : api_error :=
  ApiErr 403 "runner_mismatch" "Runner token does not match the requested runner ID".

Definition not_your_build : api_error :=
  ApiErr 403 "runner_mismatch" "This build is not assigned to your runner".

Definition runner_not_found : api_error := ApiErr 404 "not_found" "Runner not found".
Definition build_not_found : api_error := ApiErr 404 "not_found" "Build not found".

Definition guard {E} (c : bool) (e : E) : ME E unit := if c then mret tt else throw e.

(** [UPDATE runners SET <f> WHERE id = ?], with the rows affected. *)
Definition update_runner_row (id : string) (f : runner -> runner) (d : db) : db * Z :=
  match runners d !! id with
  | Some r => (set_runners (<[id := f r]> (runners d)) d, 1)
  | None => (d, 0)
  end.

(** [struct ClaimJobRequest], [struct ClaimedJob]: [cj_checkout_proxy_path]
    and [cj_runner_labels] are the fields the handler adds to the snapshot. *)
Record ClaimJobRequest := {
  cjr_protocol_version : Z;
  cjr_active_build_ids : list string;
}.

Record ClaimedJob := {
  cj_build_id : string;
  cj_project_id : string;
  cj_pipeline_id : string;
  cj_build_number : Z;
  cj_config_snapshot : snapshot;
  cj_checkout_proxy_path : option string;
  cj_runner_labels : list string;
  cj_commit_sha : option string;
  cj_branch : option string;
  cj_lease_expires_at : Z;
  cj_signing_token : string;
  cj_retry_steps : option (list string);
}.

(** [struct UpdateJobStatusRequest]; each step is its JSON text. *)
Record UpdateJobStatusRequest := {
  uj_status : string;
  uj_error_message : option string;
  uj_steps : list string;
  uj_exit_code : option Z;
  uj_size_budgets : option (list TargetSizeBudget);
}.

(** [struct RunnerHeartbeatRequest], [struct RunnerHeartbeatResponse]. *)
Record RunnerHeartbeatRequest := {
  hb_status : string;
  hb_capabilities : Json.Value;
  hb_metrics : option RunnerMetrics;
}.

Record RunnerHeartbeatResponse := {
  hbr_cache_purge_requested_at : option Z;
  hbr_max_concurrent_builds : Z;
}.

(** [struct RegisterRunnerRequest], [struct UpdateRunnerRequest]. *)
Record RegisterRunnerRequest := {
  rr_name : string;
  rr_capabilities : Json.Value;
  rr_labels : list string;
}.

Record UpdateRunnerRequest := {
  ur_name : option string;
  ur_custom_labels : option (list string);
  ur_max_concurrent_builds : option Z;
}.

Definition RUNNER_PROTOCOL_VERSION : Z := 6.
Definition CLAIM_LEASE_SECS : Z := 300.

(** [SELECT i.provider, r.full_name ...]: the source of a claimed build. *)
Definition checkout_source (build_id : string) (d : db) : option (ScmProvider.t * string) :=
  b ← builds d !! build_id;
  r ← snap_repository_id (b_snapshot b);
  rp ← repositories d !! r;
  integration_id ← installations d !! rp_installation_id rp;
  ig ← integrations d !! integration_id;
  Some (ig_provider ig, rp_full_name rp).

(** [clamp(1, MAX_RUNNER_CONCURRENT_BUILDS)]. *)
Definition clamp_builds (n : Z) : Z := Z.max 1 (Z.min n MAX_RUNNER_CONCURRENT_BUILDS).

(** [settle_cache_purge_request]: [None] when the runner does not exist. *)
Definition settle_cache_purge_request (runner_id : string) (purged_at : option Z) (d : db)
    : db * option (option Z) :=
  match runners d !! runner_id with
  | None => (d, None)
  | Some r =>
      let v := match r_cache_purge_requested_at r, purged_at with
               | Some requested, Some purged => if requested <=? purged then None else Some requested
               | requested, _ => requested
               end in
      (set_runners (<[runner_id := set_r_cache_purge_requested_at v r]> (runners d)) d, Some v)
  end.

(** [record_disk_pressure]. *)
Definition record_disk_pressure (new_id runner_id : string)
    (pressure : option RunnerDiskPressure) (now : Z) : ME sqlx_error unit :=
  let deduplication_key := "runner-disk:" +:+ runner_id in
  match pressure with
  | None => resolve_incident deduplication_key now
  | Some p =>
      let severity := match p with Warning => "warning" | Critical => "critical" end%string in
      _ ← open_incident new_id
            {| ii_deduplication_key := deduplication_key; ii_severity := severity;
               ii_reason := "low_disk"; ii_resource_kind := "runner"; ii_resource_id := runner_id;
               ii_repair_url := "/settings/runners" |} now;
      mret tt
  end.

(** [retry_steps_from_snapshot] ([step_retry.rs]). *)
Definition retry_steps_from_snapshot (s : snapshot) : option (list string) :=
  match snap_retry_steps s with [] => None | steps => Some steps end.

(** The pointer [/caches/purged_at] of the capabilities, an [i64]. *)
Definition reported_purge (capabilities : Json.Value) : option Z :=
  caches ← Json.get "caches" capabilities;
  purged_at ← Json.get "purged_at" caches;
  Json.as_i64 purged_at.

Section Handlers.

Context (hash_token encode : string -> string).
Context (enforce : string -> string -> string -> bool).

(** [check_permission] ([rbac.rs]). *)
Definition check_permission (role resource action : string) : M unit :=
  guard (enforce role resource action)
    (ApiErr 403 "permission_denied" "You do not have permission to perform this action").

(** [RunnerAuth::from_request_parts], from the bearer token. *)
Definition runner_auth (token : option string) : M RunnerAuth :=
  token ← from_option (ApiErr 401 "missing_auth" "Authorization header required") token;
  let token_hash := hash_token token in
  row ← query "Failed to authenticate runner" (fun d =>
          find (fun kv => String.eqb (r_token_hash kv.2) token_hash) (map_to_list (runners d)));
  row ← from_option (ApiErr 401 "invalid_token" "Invalid runner token") row;
  mret {| ra_runner_id := row.1; ra_runner_name := r_name row.2 |}.

(** [require_active_job_signing_grant]; [header] is [x-oore-signing-token]. *)
Definition require_active_job_signing_grant (job_id runner_id : string) (header : option string)
    : M string :=
  row ← query "Failed to authorize runner job" (fun d => builds d !! job_id);
  row ← from_option build_not_found row;
  _ ← guard (held_status (b_status row))
        (ApiErr 409 "job_not_active" "Signing material is available only while the job is active");
  _ ← guard (bool_decide (b_runner_id row = Some runner_id)) not_your_build;
  supplied ← from_option (ApiErr 401 "signing_grant_required" "A job-scoped signing grant is required")
    (match header with Some h => if is_empty h then None else Some h | None => None end);
  _ ← guard (bool_decide (b_signing_token_hash row = Some (hash_token supplied)))
        (ApiErr 401 "invalid_signing_grant" "The job-scoped signing grant is invalid or expired");
  mret (b_pipeline_id row).

(** [claim_job]; [signing_token] is the token [generate_token] draws. *)
Definition claim_job (auth : RunnerAuth) (runner_id : string) (req : ClaimJobRequest)
    (signing_token : string) (now : Z) : M (option ClaimedJob) :=
  _ ← guard (String.eqb (ra_runner_id auth) runner_id) runner_mismatch;
  _ ← guard (cjr_protocol_version req =? RUNNER_PROTOCOL_VERSION)
        (ApiErr 409 "runner_protocol_mismatch"
           ("Runner protocol " +:+ pretty.pretty (cjr_protocol_version req)
            +:+ " is unsupported; expected " +:+ pretty.pretty RUNNER_PROTOCOL_VERSION));
  _ ← map_errM (fun _ => store_error claim_failed)
        (release_runner_builds_except runner_id (cjr_active_build_ids req)
           "The runner restarted or moved on without reporting this build's result" now);
  _ ← fail_credential_blocked_builds now;
  row ← query "Failed to query builds" (next_eligible_build runner_id);
  match row with
  | None => mret None
  | Some (build_id, b) =>
      source ← query "Failed to resolve checkout" (checkout_source build_id);
      let proxy_path :=
        match source with
        | Some (ScmProvider.Gitlab, full_name) =>
            Some ("/v1/runners/" +:+ runner_id +:+ "/jobs/" +:+ build_id +:+ "/gitlab/"
                  +:+ join "/" (map encode (split_char "/"%char full_name)) +:+ ".git")
        | _ => None
        end in
      labels ← query claim_failed (fun d => r_labels <$> runners d !! runner_id);
      claimed ← claim_eligible_direct_runner_build build_id runner_id ("runner:" +:+ runner_id)
                  (hash_token signing_token) now;
      if negb claimed then mret None
      else mret (Some {|
        cj_build_id := build_id; cj_project_id := b_project_id b;
        cj_pipeline_id := b_pipeline_id b; cj_build_number := b_build_number b;
        cj_config_snapshot := b_snapshot b; cj_checkout_proxy_path := proxy_path;
        cj_runner_labels := default [] labels;
        cj_commit_sha := bm_commit_sha (b_meta b); cj_branch := b_branch b;
        cj_lease_expires_at := now + CLAIM_LEASE_SECS; cj_signing_token := signing_token;
        cj_retry_steps := retry_steps_from_snapshot (b_snapshot b) |})
  end.

Definition runner_settable (s : BuildStatus.t) : bool :=
  match s with
  | BuildStatus.Running | BuildStatus.Succeeded | BuildStatus.Failed => true
  | _ => false
  end.

(** The results a report carries: [None] when it carries none. *)
Definition reported_results (req : UpdateJobStatusRequest) : option RunnerResults :=
  let steps_json := match uj_steps req with
                    | [] => None
                    | steps => Some ("[" +:+ join "," steps +:+ "]")
                    end in
  let budgets := checked_file_size_budgets <$> uj_size_budgets req in
  match steps_json, uj_exit_code req, budgets with
  | None, None, None => None
  | _, _, _ => Some {| rr_step_results := steps_json; rr_exit_code := uj_exit_code req;
                       rr_file_size_budgets := budgets |}
  end.

(** [update_job_status]: the build and its events. *)
Definition update_job_status (auth : RunnerAuth) (runner_id job_id : string)
    (req : UpdateJobStatusRequest) (now : Z) : M (build * list build_event) :=
  _ ← guard (String.eqb (ra_runner_id auth) runner_id) runner_mismatch;
  row ← query "Failed to fetch build" (fun d => builds d !! job_id);
  row ← from_option build_not_found row;
  _ ← guard (bool_decide (b_runner_id row = Some runner_id)) not_your_build;
  target ← match BuildStatus.from_str (uj_status req) with
           | Ok s => mret s
           | Err _ => throw (ApiErr 400 "invalid_status"
                        ("Unknown build status: " +:+ uj_status req))
           end;
  _ ← guard (runner_settable target)
        (ApiErr 400 "invalid_runner_status"
           ("Runners can only set status to running, succeeded, or failed (got: "
            +:+ uj_status req +:+ ")"));
  let actor := "runner:" +:+ runner_id in
  let reason := default "status update from runner"%string (uj_error_message req) in
  b ← transition_build_with_results job_id target (Some actor) (Some reason)
        (reported_results req) now;
  events ← fetch_build_events job_id;
  _ ← (if BuildStatus.is_terminal target
       then publish_event (StateEvent job_id None target (Some actor) (Some reason) now)
       else mret tt);
  mret (b, events).

(** [get_job_status]. *)
Definition get_job_status (auth : RunnerAuth) (runner_id job_id : string) : M BuildStatus.t :=
  _ ← guard (String.eqb (ra_runner_id auth) runner_id) runner_mismatch;
  row ← query "Failed to fetch build" (fun d => builds d !! job_id);
  row ← from_option build_not_found row;
  _ ← guard (bool_decide (b_runner_id row = Some runner_id)) not_your_build;
  mret (b_status row).

Definition valid_runner_name (name : string) : bool :=
  negb (is_empty name) && (str_len name <=? 255).

Definition invalid_name : api_error :=
  ApiErr 400 "invalid_name" "Runner name must be between 1 and 255 characters".

(** [register_runner]: the runner's row; [token] and [runner_id] are drawn. *)
Definition register_runner (auth : SessionInfo) (req : RegisterRunnerRequest)
    (token runner_id : string) (now : Z) : M (runner * string) :=
  _ ← check_permission (role auth) "runners" "write";
  let name := trim (rr_name req) in
  _ ← guard (valid_runner_name name) invalid_name;
  custom_labels ← match normalize_runner_labels (rr_labels req) with
                  | Ok ls => mret ls
                  | Err e => throw (ApiErr 400 "invalid_labels" e)
                  end;
  let r := Runner name (hash_token token) RunnerStatus.Offline (rr_capabilities req) custom_labels
             (effective_runner_labels (rr_capabilities req) custom_labels) None 1 None None
             (Some (user_id auth)) now now in
  inserted ← exec "Failed to register runner" (fun d =>
    match runners d !! runner_id with
    | Some _ => (d, false)
    | None => (set_runners (<[runner_id := r]> (runners d)) d, true)
    end);
  _ ← guard inserted (store_error "Failed to register runner");
  _ ← write_audit_log (Some (user_id auth)) "runner_registered" "runner" (Some runner_id);
  mret (r, token).

(** The row [runner_heartbeat] writes. *)
Definition heartbeat_row (status : RunnerStatus.t) (req : RunnerHeartbeatRequest)
    (custom_labels : list string) (metrics : option RunnerMetrics) (now : Z) (r : runner) : runner :=
  let r := set_r_updated_at now (set_r_last_heartbeat_at (Some now) (set_r_status status r)) in
  let r := if Json.non_empty_object (hb_capabilities req)
           then set_r_labels (effective_runner_labels (hb_capabilities req) custom_labels)
                  (set_r_capabilities (hb_capabilities req) r)
           else r in
  match metrics with Some m => set_r_metrics (Some m) r | None => r end.

(** [runner_heartbeat]; [incident_id] is drawn for a new incident. *)
Definition runner_heartbeat (auth : RunnerAuth) (runner_id : string)
    (req : RunnerHeartbeatRequest) (incident_id : string) (now : Z) : M RunnerHeartbeatResponse :=
  _ ← guard (String.eqb (ra_runner_id auth) runner_id) runner_mismatch;
  status ← match RunnerStatus.from_str (hb_status req) with
           | Ok s => mret s
           | Err _ => throw (ApiErr 400 "invalid_status"
                        "Status must be one of: online, offline, busy, draining")
           end;
  previous ← query "Failed to update runner" (fun d => runners d !! runner_id);
  previous ← from_option runner_not_found previous;
  let previous_pressure : option RunnerDiskPressure := r_metrics previous ≫= fun m => runner_disk_pressure (disk_free_bytes m) in
  let metrics : option RunnerMetrics := (fun m => Metrics (disk_free_bytes m) (Some now)) <$> hb_metrics req in
  affected ← exec "Failed to update runner" (update_runner_row runner_id
               (heartbeat_row status req (r_custom_labels previous) metrics now));
  _ ← guard (negb (affected =? 0)) runner_not_found;
  _ ← match metrics with
      | Some m =>
          let pressure := runner_disk_pressure (disk_free_bytes m) in
          if negb (bool_decide (pressure = previous_pressure))
          then catch (record_disk_pressure incident_id runner_id pressure now) (fun _ => mret tt)
          else mret tt
      | None => mret tt
      end;
  let purged_at := reported_purge (hb_capabilities req) in
  requested ← exec "Failed to update runner" (settle_cache_purge_request runner_id purged_at);
  requested ← from_option (store_error "Failed to update runner") requested;
  max ← query "Failed to update runner"
          (fun d => option_map r_max_concurrent_builds (runners d !! runner_id));
  max ← from_option (store_error "Failed to update runner") max;
  mret {| hbr_cache_purge_requested_at := requested;
          hbr_max_concurrent_builds := clamp_builds max |}.

(** [purge_runner_caches]. *)
Definition purge_runner_caches (auth : SessionInfo) (runner_id : string) (now : Z) : M runner :=
  _ ← check_permission (role auth) "runners" "write";
  row ← exec "Failed to request cache purge" (fun d =>
          match runners d !! runner_id with
          | Some r =>
              let r := set_r_updated_at now (set_r_cache_purge_requested_at (Some now) r) in
              (set_runners (<[runner_id := r]> (runners d)) d, Some r)
          | None => (d, None)
          end);
  row ← from_option runner_not_found row;
  _ ← write_audit_log (Some (user_id auth)) "runner_cache_purge_requested" "runner" (Some runner_id);
  mret row.

(** The request checks at the head of [update_runner]. *)
Definition check_update_runner (req : UpdateRunnerRequest)
    : result api_error (option string * option (list string)) :=
  let name := trim <$> ur_name req in
  match name, ur_custom_labels req, ur_max_concurrent_builds req with
  | None, None, None =>
      Err (ApiErr 400 "invalid_input"
             "Provide a runner name, custom labels or a concurrent build limit")
  | _, _, _ =>
      if match ur_max_concurrent_builds req with
         | Some max => negb ((1 <=? max) && (max <=? MAX_RUNNER_CONCURRENT_BUILDS))
         | None => false
         end
      then Err (ApiErr 400 "invalid_max_concurrent_builds"
                  ("Concurrent builds must be between 1 and "
                   +:+ pretty.pretty MAX_RUNNER_CONCURRENT_BUILDS))
      else if match name with Some n => negb (valid_runner_name n) | None => false end
      then Err invalid_name
      else match ur_custom_labels req with
           | None => Ok (name, None)
           | Some ls =>
               match normalize_runner_labels ls with
               | Ok ls => Ok (name, Some ls)
               | Err e => Err (ApiErr 400 "invalid_labels" e)
               end
           end
  end.

(** [update_runner]. *)
Definition update_runner (auth : SessionInfo) (runner_id : string) (req : UpdateRunnerRequest)
    (now : Z) : M runner :=
  _ ← check_permission (role auth) "runners" "write";
  checked ← match check_update_runner req with Ok c => mret c | Err e => throw e end;
  let '(name, custom_labels) := checked in
  existing ← query "Failed to fetch runner" (fun d => runners d !! runner_id);
  existing ← from_option runner_not_found existing;
  _ ← match name with
      | Some name =>
          if String.eqb (r_name existing) name then mret tt
          else
            _ ← guard (bool_decide (is_Some (r_registered_by existing)))
                  (ApiErr 409 "managed_runner_locked" "Managed runner name cannot be changed");
            _ ← exec "Failed to update runner" (update_runner_row runner_id (fun r =>
                  set_r_updated_at now (set_r_name name r)));
            write_audit_log (Some (user_id auth)) "runner_renamed" "runner" (Some runner_id)
      | None => mret tt
      end;
  _ ← match custom_labels with
      | Some ls =>
          if bool_decide (ls = r_custom_labels existing) then mret tt
          else
            let labels := effective_runner_labels (r_capabilities existing) ls in
            _ ← exec "Failed to update runner" (update_runner_row runner_id (fun r =>
                  set_r_updated_at now (set_r_labels labels (set_r_custom_labels ls r))));
            write_audit_log (Some (user_id auth)) "runner_labels_updated" "runner" (Some runner_id)
      | None => mret tt
      end;
  _ ← match ur_max_concurrent_builds req with
      | Some max =>
          if max =? r_max_concurrent_builds existing then mret tt
          else
            _ ← exec "Failed to update runner" (update_runner_row runner_id (fun r =>
                  set_r_updated_at now (set_r_max_concurrent_builds max r)));
            write_audit_log (Some (user_id auth)) "runner_concurrency_updated" "runner" (Some runner_id)
      | None => mret tt
      end;
  row ← query "Failed to load runner" (fun d => runners d !! runner_id);
  from_option (store_error "Failed to load runner") row.

(** A build references the runner, or an event names it as the actor. *)
Definition runner_in_use (runner_id : string) (d : db) : bool :=
  existsb (fun kv => bool_decide (b_runner_id kv.2 = Some runner_id)) (map_to_list (builds d))
  || existsb (fun e => bool_decide (ev_actor e = Some ("runner:" +:+ runner_id))) (build_events d).

(** [DELETE FROM runners WHERE ...]. *)
Definition delete_runner_row (runner_id : string) (d : db) : db * Z :=
  match runners d !! runner_id with
  | Some r =>
      if bool_decide (is_Some (r_registered_by r)) && negb (runner_in_use runner_id d)
      then (set_runners (delete runner_id (runners d)) d, 1) else (d, 0)
  | None => (d, 0)
  end.

Definition delete_refusal (existing : option (runner * bool)) : api_error :=
  match existing with
  | None => runner_not_found
  | Some (r, has_builds) =>
      if bool_decide (r_registered_by r = None)
      then ApiErr 409 "managed_runner_locked" "Managed runners cannot be deleted through this endpoint"
      else if has_builds
      then ApiErr 409 "runner_has_builds" "Runners with builds cannot be deleted"
      else ApiErr 409 "runner_delete_conflict" "Runner state changed before it could be deleted"
  end.

(** [delete_runner]. *)
Definition delete_runner (auth : SessionInfo) (runner_id : string) (now : Z) : M unit :=
  _ ← check_permission (role auth) "runners" "delete";
  refused ← transaction "Failed to delete runner" (
    deleted ← exec "Failed to delete runner" (delete_runner_row runner_id);
    if deleted =? 0 then
      existing ← query "Failed to delete runner"
        (fun d => (fun r => (r, runner_in_use runner_id d)) <$> runners d !! runner_id);
      mret (Discard (Some (delete_refusal existing)))
    else
      _ ← run "Failed to delete runner" (fun d => set_audit_logs (audit_logs d ++
            [AuditLog (Some (user_id auth)) "runner_deleted" "runner" (Some runner_id)]) d);
      mret (Commit None));
  match refused with
  | Some e => throw e
  | None => catch (resolve_incident ("runner-disk:" +:+ runner_id) now) (fun _ => mret tt)
  end.

End Handlers.

(** ** Claims *)

Definition claimed_row (runner_id hash : string) (now : Z) (b : build) : build :=
  assign_row runner_id hash now (schedule_row now b).

(** The database after a committed claim. *)
Definition claim_effect (id runner_id actor hash : string) (now : Z) (b : build) (d : db) : db :=
  set_build_events (build_events d ++
      [BuildEvent id (Some BuildStatus.Queued) BuildStatus.Scheduled (Some actor)
         (Some "claimed by runner"%string) now;
       BuildEvent id (Some BuildStatus.Scheduled) BuildStatus.Assigned (Some actor)
         (Some "assigned to runner"%string) now])
    (set_builds (<[id := claimed_row runner_id hash now b]> (builds d)) d).

Lemma withdraw_not_pending b :
  b_approval_state b <> Some BuildApprovalState.Pending -> withdraw_pending_approval b = b.
Proof. intros H. unfold withdraw_pending_approval. by rewrite bool_decide_false. Qed.

Lemma eligible_inv d rid b :
  eligible d rid b = true ->
  b_status b = BuildStatus.Queued /\ b_approval_state b <> Some BuildApprovalState.Pending /\
  pipeline_has_free_slot d b = true /\ runner_can_take d rid b = true /\ source_open d b = true.
Proof.
  unfold eligible. rewrite !andb_true_iff, negb_true_iff, bool_decide_eq_true, bool_decide_eq_false.
  naive_solver.
Qed.

Lemma update_build_inv id p f d d' n :
  update_build id p f d = (d', n) ->
  (exists b, builds d !! id = Some b /\ p b = true /\ n = 1 /\
     d' = set_builds (<[id := withdraw_pending_approval (f b)]> (builds d)) d) \/
  (n = 0 /\ d' = d).
Proof. unfold update_build. intros H. repeat case_match; simplify_eq; eauto 10. Qed.

Lemma schedule_build_inv id rid now d d' n :
  schedule_build id rid now d = (d', Ok n) ->
  (exists b, builds d !! id = Some b /\ eligible d rid b = true /\ n = 1 /\
     barrier_active d now = false /\
     d' = set_builds (<[id := schedule_row now b]> (builds d)) d) \/ (n = 0 /\ d' = d).
Proof.
  unfold schedule_build. destruct (update_build _ _ _ d) as [d1 n1] eqn:E.
  apply update_build_inv in E as [(b & Hb & He & -> & ->)|[-> ->]]; cbn.
  - destruct (barrier_active d now) eqn:Eb; intros [= <- <-]. left. exists b.
    pose proof (eligible_inv _ _ _ He) as (_ & Ha & _).
    rewrite withdraw_not_pending by done. by split_and!.
  - intros [= <- <-]. by right.
Qed.

Lemma claim_ok id rid actor hash now w w' r :
  claim_eligible_direct_runner_build id rid actor hash now w = (w', Ok r) ->
  w_published w' = w_published w /\
  if r then exists b, builds (w_db w) !! id = Some b /\ eligible (w_db w) rid b = true /\
              b_runner_id b = None /\ barrier_active (w_db w) now = false /\
              w_db w' = claim_effect id rid actor hash now b (w_db w)
  else w_db w' = w_db w.
Proof.
  unfold claim_eligible_direct_runner_build. intros H.
  apply transaction_with_ok in H as (w0 & w1 & Hd0 & Hp0 & Hp' & [[H Hd']|[[H|H] Hd']]).
  2, 3: rewrite Hd', Hp', <- Hp0; inv_run; repeat (case_match; inv_run); (split; [congruence|done]).
  inv_run. case_match; inv_run. case_match; inv_run. case_match; inv_run.
  match goal with H : schedule_build _ _ _ _ = _ |- _ => apply schedule_build_inv in H end.
  match goal with H : update_build _ _ _ _ = _ |- _ => apply update_build_inv in H end.
  split; [congruence|].
  match goal with H : (exists _, _ /\ eligible _ _ _ = _ /\ _) \/ _ |- _ =>
    destruct H as [(b & Hb & He & -> & Hbar & ?)|[-> _]]; [|done] end.
  destruct (eligible_inv _ _ _ He) as (Hs & Ha & _).
  match goal with H : _ \/ _ |- _ => destruct H as [(b' & Hb' & Hg & -> & ?)|[-> _]]; [|done] end.
  subst_db. cbn in Hb'. rewrite lookup_insert_eq in Hb'. injection Hb' as <-.
  apply andb_true_iff in Hg as [_ Hg%bool_decide_eq_true].
  exists b. split_and!; [done..|]. unfold claim_effect, claimed_row, add_event. cbn.
  rewrite withdraw_not_pending by done. rewrite insert_insert_eq. by rewrite <- app_assoc.
Qed.

Lemma claim_err id rid actor hash now w w' e :
  claim_eligible_direct_runner_build id rid actor hash now w = (w', Err e) -> w_db w' = w_db w.
Proof. apply transaction_with_err. Qed.

(** Committing a claim takes exactly one slot of the pipeline and the runner. *)
Lemma claim_effect_counts id rid actor hash now b d :
  builds d !! id = Some b -> eligible d rid b = true -> b_runner_id b = None ->
  let d' := claim_effect id rid actor hash now b d in
  count_builds (active_in (b_pipeline_id b)) d' = count_builds (active_in (b_pipeline_id b)) d + 1 /\
  count_builds (held_by rid) d' = count_builds (held_by rid) d + 1.
Proof.
  intros Hb He Hr d'. apply eligible_inv in He as (Hs & _).
  assert (Hc : forall p, count_builds p d' =
    count_builds p d - (if p b then 1 else 0) + (if p (claimed_row rid hash now b) then 1 else 0)).
  { intros p. rewrite <- (count_builds_insert p id (claimed_row rid hash now b) b d Hb). done. }
  rewrite !Hc. unfold active_in, held_by. rewrite Hs, Hr. cbn.
  change (b_pipeline_id (claimed_row rid hash now b)) with (b_pipeline_id b).
  rewrite String.eqb_refl, (bool_decide_true (Some rid = Some rid)) by done.
  rewrite (bool_decide_false (None = Some rid)) by done. cbn. lia.
Qed.

(** C9: claiming a build.  Whatever statements fail and whatever the claim was
    based on, [claim_eligible_direct_runner_build] either changes nothing, or
    it takes a build that is queued, not pending approval, unassigned, whose
    labels the runner has and whose source may be used, while no operator
    barrier holds; it assigns that build,
    and only it, to the runner with the signing grant and records both status
    changes; and afterwards neither the pipeline's [max_concurrent] nor the
    runner's build limit is exceeded. *)
Theorem claim_respects_limits (id rid actor hash : string) (now : Z) (w w' : world)
    (r : result api_error bool) :
  claim_eligible_direct_runner_build id rid actor hash now w = (w', r) ->
  match r with
  | Err _ | Ok false => w_db w' = w_db w
  | Ok true => exists b rn,
      builds (w_db w) !! id = Some b /\ runners (w_db w) !! rid = Some rn /\
      b_status b = BuildStatus.Queued /\ b_runner_id b = None /\
      b_approval_state b <> Some BuildApprovalState.Pending /\
      (forall l, l ∈ snap_runs_on (b_snapshot b) -> l ∈ r_labels rn) /\
      source_open (w_db w) b = true /\ barrier_active (w_db w) now = false /\
      (exists b', builds (w_db w') = <[id := b']> (builds (w_db w)) /\
         b_status b' = BuildStatus.Assigned /\ b_runner_id b' = Some rid /\
         b_signing_token_hash b' = Some hash /\ b_meta b' = b_meta b) /\
      map ev_to_status (drop (length (build_events (w_db w))) (build_events (w_db w')))
        = [BuildStatus.Scheduled; BuildStatus.Assigned] /\
      count_builds (held_by rid) (w_db w') <= Z.max (r_max_concurrent_builds rn) 1 /\
      (forall pl n, pipelines (w_db w) !! b_pipeline_id b = Some pl ->
         max_concurrent (pl_concurrency pl) = Some n -> 0 < n ->
         count_builds (active_in (b_pipeline_id b)) (w_db w') <= n)
  end.
Proof.
  intros H. destruct r as [[]|e]; [|by apply claim_ok in H as [_ H]|by eapply claim_err].
  apply claim_ok in H as (_ & b & Hb & He & Hr & Hbar & Hd).
  destruct (claim_effect_counts id rid actor hash now b (w_db w) Hb He Hr) as [Ca Ch].
  pose proof (eligible_inv _ _ _ He) as (Hs & Ha & Hfree & Htake & Hsrc).
  unfold runner_can_take in Htake. destruct (runners (w_db w) !! rid) as [rn|] eqn:Ern; [|done].
  apply andb_true_iff in Htake as [Hlab Hcap%Z.ltb_lt].
  exists b, rn. rewrite Hd. split_and!; try done.
  - intros l Hl. rewrite forallb_forall in Hlab. apply list_elem_of_In, Hlab, existsb_exists in Hl.
    destruct Hl as (x & Hx & ->%String.eqb_eq). by apply list_elem_of_In.
  - by eexists.
  - cbn. by rewrite drop_app_length.
  - lia.
  - intros pl n Hpl Hn Hpos. unfold pipeline_has_free_slot in Hfree. rewrite Hpl, Hn in Hfree.
    apply negb_true_iff, andb_false_iff in Hfree. rewrite Z.ltb_ge, Z.leb_gt in Hfree. lia.
Qed.

Lemma claim_respects_limits_witness :
  let out := claim_eligible_direct_runner_build "b-ready" "rn1" "runner:rn1" "h" 200 Sample.start in
  snd out = Ok true /\ count_builds (held_by "rn1") (w_db (fst out)) = 2 /\
  exists b, builds (w_db Sample.start) !! "b-ready"%string = Some b /\ b_runner_id b = None.
Proof.
  intros out. assert (Hr : snd out = Ok true) by (vm_compute; reflexivity).
  split; [exact Hr|]. split; [vm_compute; reflexivity|].
  pose proof (claim_respects_limits _ _ _ _ _ _ _ _ (surjective_pairing out)) as H.
  rewrite Hr in H. destruct H as (b & _ & Hb & _ & _ & Hn & _). exists b. split; [exact Hb|exact Hn].
Defined.

#[global] Instance queue_le_trans : Transitive queue_le.
Proof.
  intros x y z [H1|[H1 H1']] [H2|[H2 H2']]; unfold queue_le; [left; lia..|].
  right. split; [lia|]. by etransitivity.
Qed.

#[global] Instance queue_le_total : Total queue_le.
Proof.
  intros x y. unfold queue_le. destruct (Z.lt_total (b_queued_at x.2) (b_queued_at y.2)) as [?|[He|?]];
    [by left; left| |by right; left].
  destruct (total String.le x.1 y.1); [left|right]; by right.
Qed.

(** the queue is served in order.  The build offered to a runner is one it
    may run, and no build it may run was queued earlier, or at the same time
    with a smaller identifier; it is offered none only when there is none. *)
Theorem next_eligible_is_oldest (rid : string) (d : db) :
  match next_eligible_build rid d with
  | Some (id, b) =>
      builds d !! id = Some b /\ eligible d rid b = true /\
      forall id' b', builds d !! id' = Some b' -> eligible d rid b' = true ->
        b_queued_at b < b_queued_at b' \/ (b_queued_at b = b_queued_at b' /\ String.le id id')
  | None => forall id b, builds d !! id = Some b -> eligible d rid b = false
  end.
Proof.
  unfold next_eligible_build. set (l := select_builds _ d).
  pose proof (StronglySorted_merge_sort queue_le l) as Hs.
  assert (Hin : forall id b, (id, b) ∈ merge_sort queue_le l <->
    builds d !! id = Some b /\ eligible d rid b = true).
  { intros id b. rewrite merge_sort_Permutation. unfold l. by rewrite elem_of_select_builds. }
  destruct (merge_sort queue_le l) as [|[id b] rest]; cbn.
  - intros id b Hb. apply not_true_is_false. intros He.
    by apply (not_elem_of_nil (id, b)), Hin.
  - destruct (proj1 (Hin id b)) as [Hb He]; [apply elem_of_cons; by left|]. split_and!; [done..|].
    intros id' b' Hb' He'. apply StronglySorted_inv in Hs as [_ Hall].
    assert (Hm : (id', b') ∈ (id, b) :: rest) by (by apply Hin).
    apply elem_of_cons in Hm as [[= -> ->]|Hm]; [right; by split|].
    rewrite Forall_forall in Hall. exact (Hall _ Hm).
Qed.

(** ** Runs without faults *)

Lemma clean_sql {A} (f : db -> db * A) d p : sql f (World d [] p) = (World (f d).1 [] p, Ok (f d).2).
Proof. unfold sql. cbn. by destruct (f d). Qed.

Lemma clean_bind {E A B} (m : ME E A) (k : A -> ME E B) w w1 a :
  m w = (w1, Ok a) -> (m ≫= k) w = k a w1.
Proof. unfold mbind, M_bind. by intros ->. Qed.

Lemma clean_guard {E A} c (e : E) (k : unit -> ME E A) w : c = true -> (guard c e ≫= k) w = k tt w.
Proof. by intros ->. Qed.

(** ** Signing grants *)

Lemma guard_ok {E} c (e : E) w w' u : guard c e w = (w', Ok u) -> c = true /\ w' = w.
Proof. unfold guard. destruct c; by intros [= <- _]. Qed.

Ltac inv_guard :=
  repeat match goal with
  | H : guard _ _ _ = (_, Ok _) |- _ => apply guard_ok in H as [? ->]
  end.

Lemma grant_ok hash job rid header w w' pid :
  require_active_job_signing_grant hash job rid header w = (w', Ok pid) ->
  exists b t, builds (w_db w) !! job = Some b /\ held_by rid b = true /\
    header = Some t /\ t <> ""%string /\ b_signing_token_hash b = Some (hash t) /\
    pid = b_pipeline_id b.
Proof.
  unfold require_active_job_signing_grant. intros H. inv_run. inv_guard. simplify_eq.
  repeat match goal with H : bool_decide _ = true |- _ => apply bool_decide_eq_true in H end.
  destruct header as [t|]; [|done].
  match goal with H : (if is_empty t then _ else _) = Some _ |- _ =>
    destruct (is_empty t) eqn:Et; simplify_eq end.
  eexists _, _. split_and!; [done| |done|by intros ->|done|done].
  unfold held_by. rewrite bool_decide_true by done. done.
Qed.

(** signing material is given out only for a live assignment.  A request
    is granted only when the build is assigned or running, held by the asking
    runner, and the header carries the token whose hash the claim stored.  A
    status change that requeues or finishes the build revokes the grant: with
    the row it leaves, no runner and no token is granted any more. *)
Theorem signing_grant_lifetime (hash : string -> string) (id : string) (target : BuildStatus.t)
    (actor reason : option string) (results : option RunnerResults) (now : Z)
    (w w' : world) (b : build) :
  transition_build_with_results id target actor reason results now w = (w', Ok b) ->
  BuildStatus.is_terminal target || bool_decide (target = BuildStatus.Queued) = true ->
  (forall rid header w1 w1' pid,
     require_active_job_signing_grant hash id rid header w1 = (w1', Ok pid) ->
     exists b1 t, builds (w_db w1) !! id = Some b1 /\ held_by rid b1 = true /\
       header = Some t /\ t <> ""%string /\ b_signing_token_hash b1 = Some (hash t) /\
       pid = b_pipeline_id b1) /\
  (forall rid header w2, builds (w_db w2) !! id = Some b ->
     exists e, snd (require_active_job_signing_grant hash id rid header w2) = Err e).
Proof.
  intros H Ht. split; [by intros * ?%grant_ok|].
  apply transition_ok in H as (b0 & Hb0 & _ & Hd & Hb & _).
  destruct (transition_db_lookup id (b_status b0) target actor reason results now (w_db w) b0)
    as (b1 & Hb1 & Hs & _ & _ & Htok & _); [done..|].
  rewrite Hd, Hb1, lookup_insert_eq in Hb. injection Hb as <-.
  intros rid header w2 Hb2.
  destruct (require_active_job_signing_grant hash id rid header w2) as [w3 [pid|e]] eqn:E;
    [|by exists e]. exfalso.
  apply grant_ok in E as (b3 & t & Hb3 & _ & _ & _ & Hh & _).
  rewrite Hb2 in Hb3. injection Hb3 as <-. rewrite Htok in Hh.
  unfold transition_row in Hh. rewrite Ht in Hh. repeat case_match; done.
Qed.

Lemma signing_grant_lifetime_witness :
  let hash := fun t : string => "hash-" +:+ t in
  let live := require_active_job_signing_grant hash "b-run" "rn1" (Some "1"%string) Sample.start in
  let out := transition_build_with_results "b-run" BuildStatus.Failed None None None 300 Sample.start in
  snd live = Ok "pl1"%string /\
  exists e, snd (require_active_job_signing_grant hash "b-run" "rn1" (Some "1"%string) (fst out)) = Err e.
Proof.
  intros hash live out. split; [vm_compute; reflexivity|].
  destruct (snd out) as [b|e] eqn:E; [|vm_compute in E; discriminate E].
  assert (H : transition_build_with_results "b-run" BuildStatus.Failed None None None 300 Sample.start
              = (fst out, Ok b)) by (rewrite <- E; apply surjective_pairing).
  apply (proj2 (signing_grant_lifetime hash _ _ _ _ _ _ _ _ _ H eq_refl)).
  destruct (transition_ok _ _ _ _ _ _ _ _ _ H) as (b0 & _ & _ & _ & Hb & _). exact Hb.
Defined.
