(* ===== verification/Monitors.v ===== *)
(** * Background monitors, startup recovery and the operator's barrier

    The loops of [crates/oored/src/background.rs] that move builds without a
    request, [Scheduler::reload_pending] ([scheduler.rs]), the runner service
    barrier of [operator.rs], and the cancellation of unclaimed builds when a
    project's source changes ([projects.rs]) or disappears
    ([integrations/mod.rs]). *)

From S2P Require Import Prelude Contract RustStr Triggers Db Builds Runners.

Local Open Scope Z_scope.

Definition LEASE_TIMEOUT_SECS : Z := 300.
Definition DEFAULT_BUILD_TIMEOUT_SECS : Z := 60 * 60.
Definition HEARTBEAT_STALE_SECS : Z := 120.
Definition RUNNER_LOST_SECS : Z := 300.
Definition SCHEDULED_TIMEOUT_SECS : Z := 60.
Definition MONITOR_BATCH_SIZE : nat := 100.

(** [match transition_build(...) { Ok => push, Err => warn }]: move a build
    and announce it when it moved. *)
Definition move_build (build_id : string) (target : BuildStatus.t) (actor reason : option string)
    (announce : option BuildStatus.t) (now : Z) (moved : list string)
    : ME sqlx_error (list string) :=
  catch (transition_build build_id target actor reason now) (fun r =>
    match r with
    | Ok _ =>
        match announce with
        | Some from =>
            _ ← publish_event (StateEvent build_id (Some from) target actor reason now);
            mret (moved ++ [build_id])
        | None => mret (moved ++ [build_id])
        end
    | Err _ => mret moved
    end).

(** *** Expired claims *)

Definition claim_expired (now : Z) (b : build) : bool :=
  bool_decide (b_status b = BuildStatus.Assigned) && (b_updated_at b <? now - LEASE_TIMEOUT_SECS)
  || bool_decide (b_status b = BuildStatus.Scheduled)
     && (b_updated_at b <? now - SCHEDULED_TIMEOUT_SECS).

(** [requeue_expired_claims]. *)
Definition requeue_expired_claims (now : Z) : ME sqlx_error (list string) :=
  rows ← sql (fun d => (d, take MONITOR_BATCH_SIZE
           (order_by (fun kv => b_updated_at kv.2) (select_builds (fun _ => claim_expired now) d))));
  for_each (fun row requeued =>
    let reason := if bool_decide (b_status row.2 = BuildStatus.Scheduled)
                  then "runner claim was interrupted"%string else "lease timeout"%string in
    move_build row.1 BuildStatus.Queued None (Some reason) None now requeued) rows [].

(** *** Approval requests *)

(** [COALESCE(json_extract(p.approval_policy, '$.expires_after_hours'), ?1) * 3600]. *)
Definition approval_ttl (d : db) (b : build) : Z :=
  match pipelines d !! b_pipeline_id b with
  | Some p => default DEFAULT_EXPIRES_AFTER_HOURS (expires_after_hours (pl_approval p))
  | None => DEFAULT_EXPIRES_AFTER_HOURS
  end * 3600.

Definition approval_overdue (d : db) (now : Z) (b : build) : bool :=
  awaiting b &&
  match bm_approval_requested_at (b_meta b) with
  | Some at_ => at_ + approval_ttl d b <=? now
  | None => false
  end.

(** Decimal text of a number, [format!("{n}")]. *)
Definition show (n : Z) : string := pretty.pretty n.

Definition expiry_reason (ttl : Z) : string :=
  let hours := ttl / 3600 in
  if hours mod 24 =? 0
  then "approval request expired after " +:+ show (hours / 24) +:+ " days"
  else "approval request expired after " +:+ show hours +:+ " hours".

(** [expire_pending_approvals]. *)
Definition expire_pending_approvals (now : Z) : ME sqlx_error (list string) :=
  rows ← sql (fun d => (d, map (fun kv => (kv.1, approval_ttl d kv.2)) (take MONITOR_BATCH_SIZE
           (order_by (fun kv => default 0 (bm_approval_requested_at (b_meta kv.2)))
              (select_builds (fun _ => approval_overdue d now) d)))));
  for_each (fun row expired =>
    move_build row.1 BuildStatus.Canceled None (Some (expiry_reason row.2))
      (Some BuildStatus.Queued) now expired) rows [].

(** *** Build timeouts *)

Definition timeout_secs (b : build) : Z :=
  default DEFAULT_BUILD_TIMEOUT_SECS (snap_timeout_secs (b_snapshot b)).

Definition overdue (now : Z) (b : build) : bool :=
  bool_decide (b_status b = BuildStatus.Running) &&
  match b_started_at b with Some at_ => at_ + timeout_secs b <=? now | None => false end.

(** [time_out_overdue_builds]. *)
Definition time_out_overdue_builds (now : Z) : ME sqlx_error (list string) :=
  rows ← sql (fun d => (d, take MONITOR_BATCH_SIZE
           (order_by (fun kv => default 0 (b_started_at kv.2)) (select_builds (fun _ => overdue now) d))));
  for_each (fun row timed_out =>
    let reason := "build timeout of " +:+ show (timeout_secs row.2 / 60) +:+ " minutes exceeded" in
    move_build row.1 BuildStatus.TimedOut None (Some reason) (Some BuildStatus.Running) now timed_out)
    rows [].

(** *** Lost runners *)

Definition runner_lost (now : Z) (r : runner) : bool :=
  default 0 (r_last_heartbeat_at r) <? now - RUNNER_LOST_SECS.

(** The runners that hold a build and have not been heard from. *)
Definition lost_runners (now : Z) (d : db) : list string :=
  map fst (filter (fun kv : string * runner =>
    (runner_lost now kv.2 && existsb (fun b => held_by kv.1 b.2) (map_to_list (builds d))) = true)
    (map_to_list (runners d))).

(** [fail_builds_of_lost_runners]. *)
Definition fail_builds_of_lost_runners (now : Z) : ME sqlx_error (list string) :=
  ids ← sql (fun d => (d, take MONITOR_BATCH_SIZE (lost_runners now d)));
  for_each (fun runner_id failed =>
    more ← release_runner_builds runner_id
             "Lost contact with the runner: it stopped sending heartbeats" now;
    mret (failed ++ more)) ids [].

Definition reachable_status (s : RunnerStatus.t) : bool :=
  match s with
  | RunnerStatus.Online | RunnerStatus.Busy | RunnerStatus.Draining => true
  | RunnerStatus.Offline => false
  end.

Definition heartbeat_stale (now : Z) (r : runner) : bool :=
  reachable_status (r_status r) &&
  match r_last_heartbeat_at r with Some at_ => at_ <? now - HEARTBEAT_STALE_SECS | None => false end.

(** One tick of [runner_heartbeat_monitor]; [up_long_enough] says the daemon
    has run for [RUNNER_LOST_SECS].  Its result is the runners marked offline,
    with the status they had. *)
Definition runner_heartbeat_tick (up_long_enough : bool) (now : Z)
    : ME sqlx_error (list (string * RunnerStatus.t)) :=
  _ ← (if up_long_enough
       then catch (fail_builds_of_lost_runners now) (fun _ => mret tt) else mret tt);
  catch (sql (fun d => (d, take MONITOR_BATCH_SIZE
           (order_by (fun kv : string * runner => default 0 (r_last_heartbeat_at kv.2))
              (filter (fun kv : string * runner => heartbeat_stale now kv.2 = true)
                 (map_to_list (runners d))))))) (fun rows =>
    match rows with
    | Err _ => mret []
    | Ok rows =>
        for_each (fun row marked =>
          catch (sql (fun d =>
                   match runners d !! row.1 with
                   | Some r =>
                       if reachable_status (r_status r)
                       then (set_runners (<[row.1 := set_r_updated_at now
                               (set_r_status RunnerStatus.Offline r)]> (runners d)) d, 1)
                       else (d, 0)
                   | None => (d, 0)
                   end)) (fun r =>
            match r with
            | Ok n => if 0 <? n then mret (marked ++ [(row.1, r_status row.2)]) else mret marked
            | Err _ => mret marked
            end)) rows []
    end).

(** *** Startup *)

(** [Scheduler::reload_pending]. *)
Definition reload_pending (now : Z) : ME sqlx_error nat :=
  rows ← sql (fun d => (d, select_builds
           (fun _ b => bool_decide (b_status b = BuildStatus.Scheduled)) d));
  _ ← for_each (fun row acc =>
        move_build row.1 BuildStatus.Queued None (Some "daemon restart recovery"%string) None now acc)
        rows [];
  mret (length rows).

(** *** The operator's barrier *)

Definition BARRIER_LEASE_SECS : Z := 300.

(** A statement of the operator socket, whose errors are texts. *)
Definition op_sql {A} (f : db -> db * A) : ME string A :=
  map_errM (fun _ => "database error"%string) (sql f).

Definition ensure (c : bool) (e : string) : ME string unit := if c then mret tt else throw e.

Definition unclaimed_scheduled (b : build) : bool :=
  bool_decide (b_status b = BuildStatus.Scheduled) && bool_decide (b_runner_id b = None).

Definition requeue_row (now : Z) (b : build) : build :=
  set_updated_at now (set_status BuildStatus.Queued b).

Definition drain_reason : string :=
  "Requeued before a maintenance drain because no runner had accepted the build".

(** [acquire_barrier]; [lease_token] is drawn. *)
Definition acquire_barrier (lease_token : string) (now : Z) : ME string string :=
  transaction_with (fun _ => "database error"%string) (
    active ← op_sql (fun d => (d, barrier_active d now));
    _ ← ensure (negb active) "another runner service transition is already in progress";
    _ ← op_sql (fun d => (set_transition_lease (Some (lease_token, now + BARRIER_LEASE_SECS)) d, tt));
    _ ← op_sql (fun d => (set_build_events (build_events d ++
          map (fun kv => BuildEvent kv.1 (Some BuildStatus.Scheduled) BuildStatus.Queued
                 (Some "system"%string) (Some drain_reason) now)
            (select_builds (fun _ => unclaimed_scheduled) d)) d, tt));
    _ ← op_sql (fun d => (update_builds (fun _ => unclaimed_scheduled) (requeue_row now) d, tt));
    mret (Commit lease_token)).

(** The lease row is held under [token]. *)
Definition lease_held (token : string) (d : db) : bool :=
  match transition_lease d with Some (t, _) => String.eqb t token | None => false end.

Definition lease_lost : string := "runner service transition lease was lost".

(** [renew_barrier]. *)
Definition renew_barrier (token : string) (now : Z) : ME string string :=
  transaction_with (fun _ => "database error"%string) (
    changed ← op_sql (fun d =>
      if lease_held token d && barrier_active d now
      then (set_transition_lease (Some (token, now + BARRIER_LEASE_SECS)) d, 1) else (d, 0));
    _ ← ensure (changed =? 1) lease_lost;
    mret (Commit token)).

(** [release_barrier]. *)
Definition release_barrier (token : string) : ME string string :=
  transaction_with (fun _ => "database error"%string) (
    changed ← op_sql (fun d =>
      if lease_held token d then (set_transition_lease None d, 1) else (d, 0));
    _ ← ensure (changed =? 1) lease_lost;
    mret (Commit token)).

(** [wait_for_work]: whether some build is still held. *)
Definition wait_for_work (runner_id : option string) : ME string bool :=
  op_sql (fun d => (d, existsb (fun kv =>
    match runner_id with
    | Some id => held_by id kv.2
                 || (bool_decide (b_runner_id kv.2 = None)
                     && bool_decide (b_status kv.2 = BuildStatus.Assigned))
    | None => held_status (b_status kv.2)
    end) (map_to_list (builds d)))).

(** *** Sources that change or disappear *)

Definition unclaimed (s : BuildStatus.t) : bool :=
  match s with BuildStatus.Queued | BuildStatus.Scheduled => true | _ => false end.

(** The two statements that cancel the unclaimed builds selected by [p]. *)
Definition cancel_events (p : db -> build -> bool) (actor reason : string) (now : Z) (d : db) : db :=
  set_build_events (build_events d ++
    map (fun kv => BuildEvent kv.1 (Some (b_status kv.2)) BuildStatus.Canceled (Some actor)
           (Some reason) now)
      (select_builds (fun _ b => p d b && unclaimed (b_status b)) d)) d.

Definition cancel_rows (p : db -> build -> bool) (now : Z) (d : db) : db :=
  update_builds (fun _ b => p d b && unclaimed (b_status b)) (cancel_row now) d.

Definition cancel_unclaimed (p : db -> build -> bool) (actor reason : string) (now : Z)
    : ME sqlx_error unit :=
  _ ← sql (fun d => (cancel_events p actor reason now d, tt));
  sql (fun d => (cancel_rows p now d, tt)).

(** The source change of [update_project]. *)
Definition cancel_for_source_change (project_id email : string) (now : Z) : ME sqlx_error unit :=
  cancel_unclaimed (fun _ b => String.eqb (b_project_id b) project_id) email
    "Canceled because the project source changed; trigger a new build from the new source" now.

(** The build's project uses one of the repositories. *)
Definition from_repositories (repository_ids : list string) (d : db) (b : build) : bool :=
  match projects d !! b_project_id b with
  | Some p => match pr_repository_id p with
              | Some r => existsb (String.eqb r) repository_ids
              | None => false
              end
  | None => false
  end.

(** [cancel_unassigned_builds_for_removed_repositories]. *)
Definition cancel_unassigned_builds_for_removed_repositories (repository_ids : list string) (now : Z)
    : ME sqlx_error unit :=
  match repository_ids with
  | [] => mret tt
  | _ => cancel_unclaimed (from_repositories repository_ids) "system"
           "Canceled because the project source became unavailable; choose a source and trigger a new build"
           now
  end.

(** ** Running operator requests *)

Lemma op_sql_ok {A} (f : db -> db * A) w w' a :
  op_sql f w = (w', Ok a) -> f (w_db w) = (w_db w', a).
Proof.
  unfold op_sql, map_errM. destruct (sql f w) as [w1 [x|e]] eqn:E; cbn; [|done].
  intros [= <- <-]. by apply sql_ok in E as [? _].
Qed.

Lemma ensure_ok c e w w' u : ensure c e w = (w', Ok u) -> c = true /\ w' = w.
Proof. unfold ensure. destruct c; by intros [= <- _]. Qed.

Ltac inv_op :=
  repeat match goal with
  | H : (_ ≫= _) _ = (_, Ok _) |- _ => apply M_bind_ok in H as (? & ? & ? & H)
  | H : op_sql _ _ = (_, Ok _) |- _ => apply op_sql_ok in H
  | H : ensure _ _ _ = (_, Ok _) |- _ => apply ensure_ok in H as [? ->]
  | H : mret _ _ = (_, Ok _) |- _ => injection H as ? ?
  | H : (_, _) = (w_db _, _) |- _ => injection H as ? ?
  end.

(** ** Sweeps *)

(** The row a monitor leaves of a build it moves. *)
Definition moved (target : BuildStatus.t) (now : Z) (b : build) : build :=
  withdraw_pending_approval (transition_row (b_status b) target now b).

Lemma transition_db_moved id target actor reason now d b :
  builds d !! id = Some b ->
  builds (transition_db id (b_status b) target actor reason None now d)
    = <[id := moved target now b]> (builds d).
Proof.
  intros Hb. unfold transition_db, update_build. cbn. rewrite Hb. by rewrite bool_decide_true.
Qed.

(** A status change that is allowed and whose statements succeed is made. *)
Lemma transition_idle id target actor reason now d ps b :
  builds d !! id = Some b -> BuildStatus.can_transition_to (b_status b) target = true ->
  transition_build id target actor reason now (World d [] ps) =
    (World (transition_db id (b_status b) target actor reason None now d) [] ps,
     Ok (moved target now b)).
Proof.
  intros Hb Hc. unfold transition_build, transition_build_with_results.
  cbv [mbind M_bind query exec map_errM sql from_option]. cbn. rewrite Hb. cbn. rewrite Hc. cbn.
  cbv [transition_commit transaction transaction_with mbind M_bind query exec run map_errM sql
    transition_db update_build].
  cbn. rewrite Hb, bool_decide_true by done. cbn. by rewrite lookup_insert_eq.
Qed.

(** One build of a sweep: it is moved or nothing happens, and an error of the
    status change never ends the loop. *)
Lemma move_build_any id target actor reason ann now acc w w' r :
  move_build id target actor reason ann now acc w = (w', r) ->
  (exists l, r = Ok l) /\
  (builds (w_db w') = builds (w_db w) \/
   exists b, builds (w_db w) !! id = Some b /\
     builds (w_db w') = <[id := moved target now b]> (builds (w_db w))).
Proof.
  unfold move_build, catch.
  destruct (transition_build id target actor reason now w) as [w1 [b|e]] eqn:E; intros H.
  - apply transition_ok in E as (b0 & Hb0 & _ & Hd & _).
    assert (w_db w' = w_db w1 /\ exists l, r = Ok l) as [-> Hl].
    { destruct ann; cbv [mbind M_bind publish_event emit mret M_ret] in H; simplify_eq/=; eauto. }
    split; [done|]. right. exists b0. split; [done|]. rewrite Hd. by apply transition_db_moved.
  - apply transition_err in E. cbv [mret M_ret] in H. simplify_eq. rewrite E. eauto.
Qed.

Lemma move_build_idle id target actor reason ann now acc d ps b :
  builds d !! id = Some b -> BuildStatus.can_transition_to (b_status b) target = true ->
  exists d' ps', move_build id target actor reason ann now acc (World d [] ps)
    = (World d' [] ps', Ok (acc ++ [id])) /\ builds d' = <[id := moved target now b]> (builds d).
Proof.
  intros Hb Hc. unfold move_build, catch. rewrite (transition_idle _ _ _ _ _ _ _ b Hb Hc).
  destruct ann; cbv [mbind M_bind publish_event emit mret M_ret]; cbn; do 2 eexists;
    (split; [reflexivity|]; by apply transition_db_moved).
Qed.

(** The loop of a sweep over [rows], each naming the build [key row]. *)
Section Loop.
Context {A : Type} (key : A -> string) (target : BuildStatus.t) (actor : option string)
  (reason : A -> option string) (announce : option BuildStatus.t) (now : Z).

Let body (row : A) (acc : list string) : ME sqlx_error (list string) :=
  move_build (key row) target actor (reason row) announce now acc.

Lemma loop_any rows : forall acc w w' r,
  NoDup (map key rows) -> for_each body rows acc w = (w', r) ->
  (exists l, r = Ok l) /\
  forall id, builds (w_db w') !! id = builds (w_db w) !! id \/
    (id ∈ map key rows /\ builds (w_db w') !! id = moved target now <$> builds (w_db w) !! id).
Proof.
  induction rows as [|x rows IH]; intros acc w w' r Hnd H.
  { cbv [for_each mret M_ret] in H. simplify_eq. eauto. }
  cbn in Hnd. apply NoDup_cons in Hnd as [Hx Hnd].
  cbn [for_each] in H. unfold mbind, M_bind in H.
  destruct (body x acc w) as [w1 r1] eqn:E.
  apply move_build_any in E as [[l ->] Hb]. specialize (IH _ _ _ _ Hnd H) as [Hr IH].
  split; [done|]. intros id. specialize (IH id). cbn [map].
  destruct Hb as [<-|(b & Hb & Hb1)]; [set_solver|]. rewrite Hb1 in IH.
  destruct (decide (key x = id)) as [<-|Hne].
  - rewrite lookup_insert_eq in IH. destruct IH as [IH|[? _]]; [|done].
    right. split; [set_solver|]. by rewrite IH, Hb.
  - rewrite lookup_insert_ne in IH by done. set_solver.
Qed.

Lemma loop_idle rows : forall acc d ps,
  NoDup (map key rows) ->
  (forall x, x ∈ rows -> exists b, builds d !! key x = Some b /\
     BuildStatus.can_transition_to (b_status b) target = true) ->
  exists d' ps', for_each body rows acc (World d [] ps) = (World d' [] ps', Ok (acc ++ map key rows)) /\
    forall id, id ∈ map key rows -> builds d' !! id = moved target now <$> builds d !! id.
Proof.
  induction rows as [|x rows IH]; intros acc d ps Hnd Hall.
  { exists d, ps. cbn. rewrite app_nil_r. split; [done|]. by intros id ?%elem_of_nil. }
  cbn in Hnd. apply NoDup_cons in Hnd as [Hx Hnd].
  destruct (Hall x) as (b & Hb & Hc); [set_solver|].
  destruct (move_build_idle (key x) target actor (reason x) announce now acc d ps b Hb Hc)
    as (d1 & ps1 & E & Hd1).
  destruct (IH (acc ++ [key x]) d1 ps1 Hnd) as (d' & ps' & E' & Hd').
  { intros y Hy. destruct (Hall y) as (by_ & ? & ?); [set_solver|]. exists by_. rewrite Hd1.
    rewrite lookup_insert_ne; [done|]. intros Heq. apply Hx, list_elem_of_In.
    rewrite Heq. by apply in_map, list_elem_of_In. }
  exists d', ps'. cbn [for_each map]. unfold mbind, M_bind. unfold body at 1. rewrite E, E'.
  rewrite <- app_assoc. split; [done|]. intros id [->|Hid]%elem_of_cons.
  - destruct (loop_any rows (acc ++ [key x]) _ _ _ Hnd E') as [_ Hl].
    destruct (Hl (key x)) as [Hk|[? _]]; [|done]. cbn in Hk.
    by rewrite Hk, Hd1, lookup_insert_eq, Hb.
  - rewrite (Hd' id Hid), Hd1, lookup_insert_ne; [done|]. by intros <-.
Qed.

End Loop.

(** What a monitor that moves the builds selected by [p] to [target] promises:
    whatever fails, it touches no other build; when nothing fails, it moves
    the [MONITOR_BATCH_SIZE] selected builds with the smallest [age], which
    are all of them when there are not more. *)
Definition sweeps (p : db -> build -> bool) (age : build -> Z) (target : BuildStatus.t) (now : Z)
    (m : ME sqlx_error (list string)) : Prop :=
  forall w w' r, m w = (w', r) ->
  (forall id, builds (w_db w') !! id = builds (w_db w) !! id \/
     exists b, builds (w_db w) !! id = Some b /\ p (w_db w) b = true /\
       builds (w_db w') !! id = Some (moved target now b)) /\
  (w_faults w = [] -> exists ids, r = Ok ids /\
     length ids = Nat.min MONITOR_BATCH_SIZE (length (select_builds (fun _ => p (w_db w)) (w_db w))) /\
     (forall id, id ∈ ids -> exists b, builds (w_db w) !! id = Some b /\ p (w_db w) b = true /\
        builds (w_db w') !! id = Some (moved target now b)) /\
     (forall id id' b b', id ∈ ids -> id' ∉ ids -> builds (w_db w) !! id = Some b ->
        builds (w_db w) !! id' = Some b' -> p (w_db w) b' = true -> age b <= age b') /\
     ((length (select_builds (fun _ => p (w_db w)) (w_db w)) <= MONITOR_BATCH_SIZE)%nat ->
        forall id b, builds (w_db w) !! id = Some b -> p (w_db w) b = true -> id ∈ ids)).

(** The rows a sweep works on. *)
Definition batch (p : db -> build -> bool) (age : build -> Z) (d : db) : list (string * build) :=
  take MONITOR_BATCH_SIZE (order_by (fun kv => age kv.2) (select_builds (fun _ => p d) d)).

Lemma select_builds_keys p d : NoDup (map fst (select_builds p d)).
Proof.
  eapply sublist_NoDup; [apply (NoDup_fst_map_to_list (builds d))|].
  apply sublist_map, sublist_filter.
Qed.

Lemma order_by_perm {A} (key : A -> Z) (l : list A) : order_by key l ≡ₚ l.
Proof. apply merge_sort_Permutation. Qed.

#[local] Instance by_key_trans {A} (key : A -> Z) : Transitive (by_key key).
Proof. intros x y z. unfold by_key. lia. Qed.

#[local] Instance by_key_total {A} (key : A -> Z) : Total (by_key key).
Proof. intros x y. unfold by_key. lia. Qed.

Lemma batch_keys p age d : NoDup (map fst (batch p age d)).
Proof.
  eapply sublist_NoDup; [|apply sublist_map, sublist_take].
  rewrite (order_by_perm (fun kv : string * build => age kv.2)). apply select_builds_keys.
Qed.

Lemma batch_elem p age d id :
  id ∈ map fst (batch p age d) ->
  exists b, (id, b) ∈ batch p age d /\ builds d !! id = Some b /\ p d b = true.
Proof.
  intros ([k b] & <- & H)%list_elem_of_In%in_map_iff. apply list_elem_of_In in H. exists b.
  split; [done|]. apply elem_of_take in H as (i & H & _). apply list_elem_of_lookup_2 in H.
  by apply elem_of_order_by, elem_of_select_builds in H.
Qed.

Lemma batch_oldest p age d id id' b b' :
  id ∈ map fst (batch p age d) -> id' ∉ map fst (batch p age d) ->
  builds d !! id = Some b -> builds d !! id' = Some b' -> p d b' = true -> age b <= age b'.
Proof.
  intros (b0 & Hin & Hb0 & _)%batch_elem Hout Hb Hb' Hp. simplify_eq.
  set (key := fun kv : string * build => age kv.2).
  set (l := order_by key (select_builds (fun _ => p d) d)) in *.
  assert (Hl : (id', b') ∈ l) by (by apply elem_of_order_by, elem_of_select_builds).
  assert (Hs : StronglySorted (by_key key) (take MONITOR_BATCH_SIZE l ++ drop MONITOR_BATCH_SIZE l)).
  { rewrite take_drop. apply StronglySorted_merge_sort; apply _. }
  rewrite <- (take_drop MONITOR_BATCH_SIZE l) in Hl. apply elem_of_app in Hl as [Hl|Hl].
  - destruct Hout. apply list_elem_of_In. change id' with (fst (id', b')).
    by apply in_map, list_elem_of_In.
  - exact (StronglySorted_app_1_elem_of _ _ _ _ _ Hs Hin Hl).
Qed.

Lemma batch_all p age d :
  (length (select_builds (fun _ => p d) d) <= MONITOR_BATCH_SIZE)%nat ->
  forall id b, builds d !! id = Some b -> p d b = true -> id ∈ map fst (batch p age d).
Proof.
  intros Hle id b Hb Hp. unfold batch. rewrite take_ge.
  - apply list_elem_of_In. change id with (fst (id, b)). apply in_map, list_elem_of_In.
    by apply elem_of_order_by, elem_of_select_builds.
  - by rewrite (order_by_perm (fun kv : string * build => age kv.2)).
Qed.

(** A monitor with a loop like [loop_any] over a batch sweeps. *)
Lemma sweep_of {A} (key : A -> string) p age target actor reason announce now
    (rows : db -> list A) :
  (forall d, map key (rows d) = map fst (batch p age d)) ->
  (forall d b, p d b = true -> BuildStatus.can_transition_to (b_status b) target = true) ->
  sweeps p age target now
    (rs ← sql (fun d => (d, rows d));
     for_each (fun row acc => move_build (key row) target actor (reason row) announce now acc) rs []).
Proof.
  intros Hk Hc w w' r H. split.
  - intros id. unfold mbind, M_bind in H.
    destruct (sql _ w) as [w1 [rs|e]] eqn:E.
    + apply sql_ok in E as [E _]. injection E as Hd <-.
      apply loop_any in H as [_ H]; [|rewrite Hk; apply batch_keys].
      rewrite <- Hd in H. destruct (H id) as [?|[Hin Hb]]; [by left|right].
      rewrite Hk in Hin. apply batch_elem in Hin as (b & _ & Hb0 & Hp). exists b.
      split_and!; [done..|]. by rewrite Hb, Hb0.
    + apply sql_err in E as [E _]. simplify_eq. left. by rewrite E.
  - intros Hf. destruct w as [d fs ps]. cbn in Hf. subst fs. cbn [w_db].
    unfold mbind, M_bind in H. cbn in H.
    destruct (loop_idle key target actor reason announce now (rows d) [] d ps) as (d' & ps' & E & Hd').
    { rewrite Hk. apply batch_keys. }
    { intros x Hx%list_elem_of_In. apply (in_map key) in Hx. rewrite Hk in Hx.
      apply list_elem_of_In, batch_elem in Hx as (b & _ & Hb & Hp). eauto. }
    cbv [set_w_db] in H. cbn in H. rewrite E in H. injection H as <- <-. rewrite Hk in Hd' |- *.
    exists (map fst (batch p age d)). cbn [w_db]. split_and!; [done|..].
    + unfold batch. rewrite length_map, length_take.
      by rewrite (order_by_perm (fun kv : string * build => age kv.2)).
    + intros id Hid. rewrite (Hd' id Hid). apply batch_elem in Hid as (b & _ & Hb & Hp).
      exists b. by rewrite Hb.
    + intros *. apply batch_oldest.
    + apply batch_all.
Qed.

(** the monitors.  Expired claims are requeued, undecided approval
    requests cancelled and overdue builds timed out: whatever statements fail,
    no build that does not qualify is touched; and when none fails, the oldest
    hundred that qualify are moved, all of them when there are not more. *)
Theorem monitors_sweep (now : Z) :
  sweeps (fun _ => claim_expired now) b_updated_at BuildStatus.Queued now
    (requeue_expired_claims now) /\
  sweeps (fun d => approval_overdue d now)
    (fun b => default 0 (bm_approval_requested_at (b_meta b))) BuildStatus.Canceled now
    (expire_pending_approvals now) /\
  sweeps (fun _ => overdue now) (fun b => default 0 (b_started_at b)) BuildStatus.TimedOut now
    (time_out_overdue_builds now).
Proof.
  split_and!.
  - refine (sweep_of fst (fun _ => claim_expired now) b_updated_at BuildStatus.Queued None
      (fun row => Some (if bool_decide (b_status row.2 = BuildStatus.Scheduled)
         then "runner claim was interrupted"%string else "lease timeout"%string)) None now
      (batch (fun _ => claim_expired now) b_updated_at) (fun d => eq_refl) _).
    intros _ b. unfold claim_expired. by destruct (b_status b).
  - refine (sweep_of fst (fun d => approval_overdue d now)
      (fun b => default 0 (bm_approval_requested_at (b_meta b))) BuildStatus.Canceled None
      (fun row => Some (expiry_reason row.2)) (Some BuildStatus.Queued) now
      (fun d => map (fun kv => (kv.1, approval_ttl d kv.2))
         (batch (fun d => approval_overdue d now)
            (fun b => default 0 (bm_approval_requested_at (b_meta b))) d)) _ _).
    + intros d. by rewrite map_map.
    + intros d b [[Hs%bool_decide_eq_true _]%andb_true_iff _]%andb_true_iff. by rewrite Hs.
  - refine (sweep_of fst (fun _ => overdue now) (fun b => default 0 (b_started_at b))
      BuildStatus.TimedOut None
      (fun row => Some ("build timeout of " +:+ show (timeout_secs row.2 / 60) +:+ " minutes exceeded"))
      (Some BuildStatus.Running) now
      (batch (fun _ => overdue now) (fun b => default 0 (b_started_at b))) (fun d => eq_refl) _).
    intros _ b [Hs%bool_decide_eq_true _]%andb_true_iff. by rewrite Hs.
Qed.

(** ** The barrier *)

Lemma acquire_ok token now w w' t :
  acquire_barrier token now w = (w', Ok t) ->
  barrier_active (w_db w) now = false /\
  transition_lease (w_db w') = Some (token, now + BARRIER_LEASE_SECS) /\
  forall id b, builds (w_db w') !! id = Some b -> unclaimed_scheduled b = false.
Proof.
  intros H. apply transaction_with_ok in H as (w0 & w1 & Hd0 & _ & _ & [[H Hd']|[[H|H] Hd']]);
    inv_op; try done.
  match goal with H : negb _ = true |- _ => apply negb_true_iff in H; rename H into Hfree end.
  subst. split; [congruence|]. rewrite Hd'. subst_db.
  repeat match goal with H : _ = w_db _ |- _ => rewrite <- H in *; clear H end.
  split; [done|]. intros id b Hb. cbn in Hb. rewrite map_lookup_imap in Hb.
  destruct (builds _ !! id) as [b0|]; [|done]. cbn in Hb. injection Hb as <-.
  destruct (unclaimed_scheduled b0) eqn:Eu; [|done].
  unfold unclaimed_scheduled, withdraw_pending_approval, requeue_row. by case_match.
Qed.

(** the barrier.  Once the operator's barrier is acquired, no build is
    scheduled without a runner any more, and as long as the lease stays as it
    was written no runner claims a build, not even in the second the lease
    ends, and nobody else acquires the barrier; every attempt leaves the
    database as it was. *)
Theorem barrier_blocks_claims (token : string) (now : Z) (w w' : world) (t : string) :
  acquire_barrier token now w = (w', Ok t) ->
  (forall id b, builds (w_db w') !! id = Some b -> unclaimed_scheduled b = false) /\
  forall now2 w2, transition_lease (w_db w2) = transition_lease (w_db w') ->
    now2 <= now + BARRIER_LEASE_SECS ->
    (forall id rid actor hash w3 r,
       claim_eligible_direct_runner_build id rid actor hash now2 w2 = (w3, r) ->
       r <> Ok true /\ w_db w3 = w_db w2) /\
    (forall token2 w3 r, acquire_barrier token2 now2 w2 = (w3, r) ->
       (exists e, r = Err e) /\ w_db w3 = w_db w2).
Proof.
  intros H. apply acquire_ok in H as (_ & Hl & Hsch). split; [done|]. intros now2 w2 Hl2 Hle.
  assert (Hbar : barrier_active (w_db w2) now2 = true).
  { unfold barrier_active. rewrite Hl2, Hl. by apply Z.leb_le. }
  split.
  - intros id rid actor hash w3 [[]|e] Hc.
    + apply claim_ok in Hc as (_ & b & _ & _ & _ & Hb & _). congruence.
    + apply claim_ok in Hc as [_ Hc]. done.
    + split; [done|]. by eapply claim_err.
  - intros token2 w3 [t2|e] Ha.
    + apply acquire_ok in Ha as [Ha _]. congruence.
    + split; [eauto|]. by eapply transaction_with_err.
Qed.

Lemma barrier_blocks_claims_witness :
  let held := fst (acquire_barrier "op-1" 250 Sample.start) in
  snd (acquire_barrier "op-1" 250 Sample.start) = Ok "op-1"%string /\
  w_db (fst (claim_eligible_direct_runner_build "b-ready" "rn1" "runner:rn1" "h" 550 held)) = w_db held.
Proof.
  intros held. split; [vm_compute; reflexivity|].
  assert (H : acquire_barrier "op-1" 250 Sample.start = (held, Ok "op-1"%string))
    by (vm_compute; reflexivity).
  destruct (barrier_blocks_claims "op-1" 250 Sample.start held "op-1" H) as [_ Hb].
  destruct (Hb 550 held eq_refl) as [Hc _]; [unfold BARRIER_LEASE_SECS; lia|].
  exact (proj2 (Hc _ _ _ _ _ _ (surjective_pairing _))).
Defined.
