(* ===== verification/Creation.v ===== *)
(** * From a pipeline to a build

    What the four ways to create a build share, from
    [crates/oored/src/builds.rs]: the configuration snapshot, the pipeline's
    gates, the clone URL of a source, the platform selection, and the
    statements that follow the insert.  A pipeline's JSON columns are held
    decoded, so the branches for undecodable JSON do not arise. *)

From S2P Require Import Prelude Contract RustStr Labels Sizes Triggers Db Access Builds Runners.

Local Open Scope Z_scope.

(** ** From a pipeline to a build *)

Definition DEFAULT_BUILD_TIMEOUT_MINUTES : Z := 60.

(** The fields of [create_config_snapshot] that later statements read. *)
Definition create_config_snapshot (runs_on : list string) (timeout_minutes : Z)
    (source : string * string) : snapshot :=
  let '(repository_id, repo_url) := source in
  Snapshot (Some repository_id) (scheduling_labels runs_on) [] (Some (timeout_minutes * 60)) None []
    (Some repo_url) false None.

(** [set_snapshot_workflow_name]. *)
Definition set_snapshot_workflow_name (s : snapshot) (workflow : option string) : snapshot :=
  match workflow with
  | Some workflow =>
      Snapshot (snap_repository_id s) (snap_runs_on s) (snap_retry_steps s) (snap_timeout_secs s)
        (Some workflow) (snap_file_size_budgets s) (snap_repo_url s) (snap_retry_publish_from_file s)
        (snap_selected_platforms s)
  | None => s
  end.

(** [pipeline_gates]: [u32::try_from(minutes).ok().filter(|m| *m > 0)]. *)
Definition pipeline_gates (p : pipeline) : Z * ApprovalPolicy :=
  let minutes := pl_timeout_minutes p in
  (if (0 <? minutes) && (minutes <? 2 ^ 32) then minutes else DEFAULT_BUILD_TIMEOUT_MINUTES,
   pl_approval p).

(** [initial_event_reason]. *)
Definition initial_event_reason (reason : string) (approval_required : bool) : string :=
  if approval_required then reason +:+ "; waiting for approval" else reason.

(** The SELECT of [resolve_repository_clone_url]. *)
Definition clone_url (repository_id : string) (d : db) : option string :=
  r ← repositories d !! repository_id;
  integration_id ← installations d !! rp_installation_id r;
  i ← integrations d !! integration_id;
  match ig_provider i with
  | ScmProvider.LocalGit => rp_html_url r
  | _ => Some (ig_host_url i +:+ "/" +:+ rp_full_name r +:+ ".git")
  end.

(** [resolve_repository_clone_url]. *)
Definition resolve_repository_clone_url (repository_id : string) : M (option string) :=
  repo_url ← query "Failed to resolve project source" (clone_url repository_id);
  mret (normalize_optional repo_url).

(** [announce_pending_approval]; the notification is sent by a task of its own. *)
Definition announce_pending_approval (build_id : string) (actor_user_id : option string) : M unit :=
  write_audit_log actor_user_id "build_approval_requested" "build" (Some build_id).

(** [fetch_build_number]. *)
Definition fetch_build_number (build_id : string) : M Z :=
  row ← query "Failed to fetch build number" (fun d => builds d !! build_id);
  row ← from_option (store_error "Failed to fetch build number") row;
  mret (b_build_number row).

(** [runner_policy_block_reason_for_project]. *)
Definition runner_policy_block_reason_for_project (project_id : string)
    : M (option RunnerPolicyBlockReason.t) :=
  reason ← query "Failed to derive runner policy status" (fun d =>
    p ← projects d !! project_id;
    Some (if runner_paused d then Some RunnerPolicyBlockReason.InstancePaused
          else match pr_repository_id p ≫= (repositories d !!.) with
               | Some _ => None
               | None => Some RunnerPolicyBlockReason.RepositoryUnavailable
               end));
  from_option (store_error "Failed to derive runner policy status") reason.

(** The creation record: [INSERT INTO build_events] with no previous status. *)
Definition record_created (b : BuildInsertBinds) (reason : string) : M unit :=
  run "Failed to record build event"
    (add_event (BuildEvent (bi_build_id b) None BuildStatus.Queued (bi_actor b)
       (Some (initial_event_reason reason (bi_approval_required b))) (bi_now b))).

(** [if approval_required { announce_pending_approval(...) }]. *)
Definition announce_if_gated (b : BuildInsertBinds) (actor_user_id : option string) : M unit :=
  if bi_approval_required b then announce_pending_approval (bi_build_id b) actor_user_id
  else mret tt.

(** [validate_selected_platforms]. *)
Definition validate_selected_platforms (requested : option (list BuildPlatform))
    (configured : list BuildPlatform) : result api_error (option (list BuildPlatform)) :=
  match requested with
  | None => Ok None
  | Some [] => Err (ApiErr 400 "invalid_input" "Select at least one platform for this build.")
  | Some requested =>
      let selected := filter (fun platform => platform ∈ requested) configured in
      if bool_decide (NoDup requested) && bool_decide (length selected = length requested)
      then Ok (Some selected)
      else Err (ApiErr 400 "invalid_input"
             "Selected platforms must be unique and configured on this pipeline.")
  end.

(** ** What the helpers guarantee *)

(** Choosing platforms.  With the pipeline's platforms listed once each, a
    selection is accepted exactly when it is not empty, names no platform
    twice and only configured ones; the build then gets those platforms, in
    the pipeline's order. *)
Theorem selected_platforms_spec (requested configured : list BuildPlatform) :
  NoDup configured ->
  match validate_selected_platforms (Some requested) configured with
  | Ok sel => requested <> [] /\ NoDup requested /\ requested ⊆ configured /\
      exists l, sel = Some l /\ l ≡ₚ requested /\ l `sublist_of` configured
  | Err _ => requested = [] \/ ~ NoDup requested \/ ~ requested ⊆ configured
  end.
Proof.
  intros Hnd. unfold validate_selected_platforms. destruct requested as [|r0 rest]; [by left|].
  set (req := r0 :: rest). set (sel := filter _ configured).
  assert (Hsel : NoDup sel) by (by apply NoDup_filter).
  assert (Hsub : sel ⊆ req) by (intros x [Hx _]%list_elem_of_filter; exact Hx).
  destruct (decide (NoDup req)) as [Hr|Hr]; [rewrite (bool_decide_true _ Hr); cbn|
    rewrite (bool_decide_false _ Hr); cbn; auto].
  case_bool_decide as Hlen.
  - assert (Hp : sel ≡ₚ req).
    { apply submseteq_length_Permutation; [by apply NoDup_submseteq|apply Nat.eq_le_incl; symmetry; exact Hlen]. }
    split_and!; [done..| |].
    + intros x Hx. rewrite <- Hp in Hx. by apply list_elem_of_filter in Hx as [_ ?].
    + exists sel. split_and!; [done..|]. apply sublist_filter.
  - right. right. intros Hin. apply Hlen. apply (Permutation_length (l' := req)).
    apply NoDup_Permutation; [done..|]. intros x. split; [apply Hsub|].
    intros Hx. apply list_elem_of_filter. auto.
Qed.

Lemma selected_platforms_spec_witness :
  NoDup [Android; Ios; Macos] /\ [Macos; Android] ⊆ [Android; Ios; Macos].
Proof.
  assert (H : NoDup [Android; Ios; Macos]) by (apply (bool_decide_eq_true _); vm_compute; reflexivity).
  split; [exact H|].
  pose proof (selected_platforms_spec [Macos; Android] [Android; Ios; Macos] H) as Hs.
  vm_compute in Hs. exact (proj1 (proj2 (proj2 Hs))).
Defined.

(** ** Statements that leave part of the database alone *)

Lemma normalize_optional_solid o x : normalize_optional o = Some x -> x <> ""%string.
Proof.
  unfold normalize_optional. destruct o as [raw|]; [|done].
  destruct (trim raw); cbn; [done|]. by intros [= <-].
Qed.

(** However [m] ends, [f] of the database is what it was. *)
Definition keeps {X E A} (f : db -> X) (m : ME E A) : Prop :=
  forall w w' r, m w = (w', r) -> f (w_db w') = f (w_db w).

Section Keeps.
Context {X : Type} (f : db -> X).

Lemma keeps_ret {E A} (a : A) : keeps f (mret a : ME E A).
Proof. by intros w w' r [= <- _]. Qed.

Lemma keeps_throw {E A} (e : E) : keeps f (throw e : ME E A).
Proof. by intros w w' r [= <- _]. Qed.

Lemma keeps_query {A} msg (q : db -> A) : keeps f (query msg q).
Proof. intros w w' [a|e]; [by intros (_ & -> & _)%query_ok|by intros (-> & _)%exec_err]. Qed.

Lemma keeps_from_option {E A} (e : E) (o : option A) : keeps f (from_option e o).
Proof. destruct o; [apply keeps_ret|apply keeps_throw]. Qed.

Lemma keeps_guard {E} c (e : E) : keeps f (guard c e).
Proof. destruct c; [apply keeps_ret|apply keeps_throw]. Qed.

Lemma keeps_bind {E A B} (m : ME E A) (k : A -> ME E B) :
  keeps f m -> (forall a, keeps f (k a)) -> keeps f (m ≫= k).
Proof.
  intros Hm Hk w w' r. unfold mbind, M_bind. destruct (m w) as [w1 [a|e]] eqn:E1.
  - intros H. by rewrite (Hk _ _ _ _ H), (Hm _ _ _ E1).
  - intros [= <- _]. by apply (Hm _ _ _ E1).
Qed.

Lemma keeps_catch {E F A B} (m : ME E A) (k : result E A -> ME F B) :
  keeps f m -> (forall r, keeps f (k r)) -> keeps f (catch m k).
Proof.
  intros Hm Hk w w' r. unfold catch. destruct (m w) as [w1 x] eqn:E1.
  intros H. by rewrite (Hk _ _ _ _ H), (Hm _ _ _ E1).
Qed.

Lemma keeps_map_err {E F A} (g : E -> F) (m : ME E A) : keeps f m -> keeps f (map_errM g m).
Proof.
  intros Hm w w' r. unfold map_errM. destruct (m w) as [w1 x] eqn:E1. intros [= <- _].
  by apply (Hm _ _ _ E1).
Qed.

Lemma keeps_sql {A} (q : db -> db * A) :
  (forall d, f (fst (q d)) = f d) -> keeps f (sql q).
Proof.
  intros Hq w w' [a|e]; [|by intros [-> _]%sql_err].
  intros [H _]%sql_ok. by rewrite <- (Hq (w_db w)), H.
Qed.

Lemma keeps_for_each {E A B} (g : A -> B -> ME E B) l :
  (forall x acc, keeps f (g x acc)) -> forall acc, keeps f (for_each g l acc).
Proof.
  intros Hg. induction l as [|x l IH]; intros acc; cbn; [apply keeps_ret|].
  apply keeps_bind; [apply Hg|apply IH].
Qed.

(** Peel a statement that keeps [f] off a run. *)
Lemma bind_keeps {E A B} (m : ME E A) (k : A -> ME E B) w w' r :
  (m ≫= k) w = (w', r) -> keeps f m ->
  (f (w_db w') = f (w_db w) /\ exists e, r = Err e) \/
  exists w1 a, m w = (w1, Ok a) /\ f (w_db w1) = f (w_db w) /\ k a w1 = (w', r).
Proof.
  unfold mbind, M_bind. destruct (m w) as [w1 [a|e]] eqn:E1; intros H Hm.
  - right. exists w1, a. split_and!; [done|by eapply Hm|done].
  - simplify_eq. left. split; [by eapply Hm|eauto].
Qed.

Lemma bind_keeps_ok {E A B} (m : ME E A) (k : A -> ME E B) w w' b :
  (m ≫= k) w = (w', Ok b) -> keeps f m ->
  exists w1 a, m w = (w1, Ok a) /\ f (w_db w1) = f (w_db w) /\ k a w1 = (w', Ok b).
Proof. intros (w1 & a & H1 & H)%M_bind_ok Hm. exists w1, a. split_and!; [done|by eapply Hm|done]. Qed.

End Keeps.

Lemma keeps_audit {X E} (f : db -> X) actor action kind id :
  (forall l d, f (set_audit_logs l d) = f d) ->
  keeps f (write_audit_log actor action kind id : ME E unit).
Proof. intros Hf w w' r H. apply audit_run in H as (_ & [l ->] & _). apply Hf. Qed.

Lemma keeps_record b reason : keeps builds (record_created b reason).
Proof. apply keeps_map_err, keeps_sql. done. Qed.

Create HintDb keeps.
#[export] Hint Resolve keeps_ret keeps_throw keeps_query keeps_from_option keeps_guard keeps_bind
  keeps_catch keeps_map_err keeps_for_each keeps_audit keeps_record : keeps.
#[export] Hint Extern 1 (keeps _ (match ?x with _ => _ end)) => destruct x : keeps.
#[export] Hint Extern 2 (keeps _ (resolve_effective_project_role _ _ _ _)) =>
  unfold resolve_effective_project_role : keeps.
#[export] Hint Extern 2 (keeps _ (require_project_permission _ _)) =>
  unfold require_project_permission : keeps.
#[export] Hint Extern 2 (keeps _ (resolve_repository_clone_url _)) =>
  unfold resolve_repository_clone_url : keeps.
#[export] Hint Extern 2 (keeps _ (fetch_build_number _)) => unfold fetch_build_number : keeps.
#[export] Hint Extern 2 (keeps _ (runner_policy_block_reason_for_project _)) =>
  unfold runner_policy_block_reason_for_project : keeps.
#[export] Hint Extern 2 (keeps _ (announce_if_gated _ _)) =>
  unfold announce_if_gated, announce_pending_approval : keeps.

(** Peel the next statement off the run [H], which must keep [f]. *)
Ltac peel f H w a Hm Hk :=
  apply (bind_keeps f) in H as [[? [? ->]]|(w & a & Hm & Hk & H)]; [| |by auto 12 with keeps].

Ltac peel_ok f H w a Hm Hk :=
  apply (bind_keeps_ok f) in H as (w & a & Hm & Hk & H); [|by auto 12 with keeps].

Lemma from_option_Ok {E A} (e : E) (o : option A) w w' a :
  from_option e o w = (w', Ok a) -> o = Some a.
Proof. destruct o; by intros [= _ <-]. Qed.

Lemma guard_Ok {E} c (e : E) w w' u : guard c e w = (w', Ok u) -> c = true.
Proof. by destruct c. Qed.

(** ** Statements that fail only in the store *)

Definition store_only {A} (m : M A) : Prop :=
  forall w w' e, m w = (w', Err e) -> err_status e = 500.

Section StoreOnly.
Context {A B : Type}.

Lemma store_ret (a : A) : store_only (mret a).
Proof. by intros w w' e. Qed.

Lemma store_throw msg : store_only (throw (store_error msg) : M A).
Proof. by intros w w' e [= _ <-]. Qed.

Lemma store_exec msg (q : db -> db * A) : store_only (exec msg q).
Proof. by intros w w' e (_ & _ & ->)%exec_err. Qed.

Lemma store_bind (m : M A) (k : A -> M B) :
  store_only m -> (forall a, store_only (k a)) -> store_only (m ≫= k).
Proof. intros Hm Hk w w' e [H|(w1 & a & _ & H)]%M_bind_err; [by eapply Hm|by eapply Hk]. Qed.

Lemma store_catch {E} (m : ME E A) (k : result E A -> M B) :
  (forall r, store_only (k r)) -> store_only (catch m k).
Proof. intros Hk w w' e. unfold catch. destruct (m w) as [w1 r]. apply Hk. Qed.

End StoreOnly.

Lemma store_for_each {A B} (f : A -> B -> M B) l :
  (forall x acc, store_only (f x acc)) -> forall acc, store_only (for_each f l acc).
Proof.
  intros Hf. induction l as [|x l IH]; intros acc; cbn; [by intros w w' e|].
  apply store_bind; [apply Hf|apply IH].
Qed.

Lemma store_from_option {A} msg (o : option A) : store_only (from_option (store_error msg) o).
Proof. destruct o; [apply store_ret|apply store_throw]. Qed.

Lemma store_insert b : store_only (insert_build_with_retry b).
Proof. by intros w w' e [_ ->]%insert_attempts_result. Qed.

Lemma store_audit actor action kind id : store_only (write_audit_log actor action kind id).
Proof. intros w w' e H. by apply audit_run in H as ([=] & _). Qed.

#[export] Hint Resolve store_ret store_throw store_exec store_bind store_catch store_for_each
  store_from_option store_insert store_audit : keeps.
#[export] Hint Extern 1 (store_only (match ?x with _ => _ end)) => destruct x : keeps.
#[export] Hint Extern 2 (store_only (query _ _)) => unfold query : keeps.
#[export] Hint Extern 2 (store_only (record_created _ _)) => unfold record_created, run : keeps.
#[export] Hint Extern 2 (store_only (fetch_build_number _)) => unfold fetch_build_number : keeps.
#[export] Hint Extern 2 (store_only (runner_policy_block_reason_for_project _)) =>
  unfold runner_policy_block_reason_for_project : keeps.
#[export] Hint Extern 2 (store_only (announce_if_gated _ _)) =>
  unfold announce_if_gated, announce_pending_approval : keeps.

(** A handler that inserts a build and then only records it: it changed no
    build, or it inserted this one. *)
Lemma insert_then {A} b (rest refuse : M A) w w' r :
  (inserted ← insert_build_with_retry b; if (inserted : bool) then rest else refuse) w = (w', r) ->
  keeps builds rest -> keeps builds refuse -> (forall w1 w2 a, refuse w1 <> (w2, Ok a)) ->
  (builds (w_db w') = builds (w_db w) /\ exists e, r = Err e) \/
  exists w1, insert_effect b (w_db w) (w_db w1) /\ rest w1 = (w', r) /\
    builds (w_db w') = builds (w_db w1).
Proof.
  unfold mbind, M_bind. intros H Hrest Href Herr.
  destruct (insert_build_with_retry b w) as [w1 [[]|e]] eqn:E; apply insert_attempts_result in E.
  - right. exists w1. split_and!; [done|done|by eapply Hrest].
  - left. split; [rewrite <- E; by eapply Href|]. destruct r as [a|e]; [by apply Herr in H|eauto].
  - destruct E as [E _]. simplify_eq. left. rewrite E. eauto.
Qed.
