(* ===== verification/Publishing.v ===== *)
(** * What a store upload needs

    Which secrets and publishing settings a build sees
    ([crates/oored/src/secrets.rs], [pipeline_publish.rs],
    [app_store_publish.rs]) and which stored artifact an upload sends
    ([step_retry.rs], [app_store_publish.rs]). *)

From stdpp Require pretty.
From S2P Require Import Prelude Contract RustStr Labels Sizes Triggers Rollout Stores Db Creation.

Local Open Scope Z_scope.

Definition PUBLISH_PLAY_STEP : string := "publish-play".
Definition PUBLISH_APP_STORE_STEP : string := "publish-app-store".

(** ** Settings *)

(** [load_google_play]. *)
Definition load_google_play (pipeline_id : string) : ME sqlx_error (option GooglePlayPublishConfig) :=
  sql (fun d => (d, play_targets d !! pipeline_id)).

(** [secret_name_visible]. *)
Definition visible_secret (project_id : string) (pipeline_id : option string) (name : string) (s : secret)
    : bool :=
  String.eqb (sc_name s) name
  && match sc_scope s with
     | InstanceScope => true
     | ProjectScope p => String.eqb p project_id
     | PipelineScope _ pl => bool_decide (pipeline_id = Some pl)
     end.

Definition secret_name_visible (project_id : string) (pipeline_id : option string) (name : string)
    : ME sqlx_error bool :=
  sql (fun d => (d, existsb (visible_secret project_id pipeline_id name) (secrets d))).

(** [enum IosExportMethod]. *)
Inductive IosExportMethod : Set := AdHoc | AppStoreExport.

(** [IosExportMethod::from_stored]. *)
Definition from_stored (raw : string) : IosExportMethod :=
  if String.eqb raw "app_store" then AppStoreExport else AdHoc.

(** [load_config] of [app_store_publish.rs]. *)
Definition load_config (pipeline_id : string) : ME sqlx_error (option AppStorePublishConfig) :=
  sql (fun d => (d, app_store_targets d !! pipeline_id)).

(** [struct SigningKeyRow]. *)
Record SigningKeyRow := {
  sk_enabled : bool;
  sk_export_method : string;
  sk_api_key_id : option string;
  sk_api_issuer_id : option string;
  sk_api_private_key_encrypted : option string;
}.

(** The query of [load_signing_key_row]: the shared key, when it exists,
    replaces the pipeline's own. *)
Definition signing_key_row (d : db) (s : signing_settings) : SigningKeyRow :=
  let shared := is_shared_api_key_id s ≫= fun id => asc_keys d !! id in
  {| sk_enabled := is_enabled s; sk_export_method := is_export_method s;
     sk_api_key_id := match shared with Some k => Some (ak_key_id k) | None => is_api_key_id s end;
     sk_api_issuer_id := match shared with Some k => Some (ak_issuer_id k) | None => is_api_issuer_id s end;
     sk_api_private_key_encrypted :=
       match shared with Some k => Some (ak_private_key_encrypted k) | None => is_api_private_key_encrypted s end |}.

(** [load_signing_key_row]. *)
Definition load_signing_key_row (pipeline_id : string) : ME sqlx_error (option SigningKeyRow) :=
  sql (fun d => (d, signing_key_row d <$> ios_signing d !! pipeline_id)).

Definition app_store_export (row : SigningKeyRow) : bool :=
  match from_stored (sk_export_method row) with AppStoreExport => true | AdHoc => false end.

(** [publishing_enabled]. *)
Definition publishing_enabled (pipeline_id : string) : ME sqlx_error bool :=
  config ← load_config pipeline_id;
  if negb (match config with Some config => as_enabled config | None => false end) then mret false
  else
    signing ← load_signing_key_row pipeline_id;
    mret (match signing with
          | Some signing => sk_enabled signing && app_store_export signing
          | None => false
          end).

(** ** Artifacts *)

(** [ORDER BY created_at, name]. *)
Definition by_created_name : relation artifact := fun x y =>
  ar_created_at x < ar_created_at y \/
  ar_created_at x = ar_created_at y /\ String.leb (ar_name x) (ar_name y) = true.

#[global] Instance by_created_name_dec : RelDecision by_created_name.
Proof. unfold by_created_name. intros x y. apply _. Defined.

(** [stored_artifacts]. *)
Definition stored (build_id : string) (now : Z) (a : artifact) : bool :=
  String.eqb (ar_build_id a) build_id && ar_available a
  && match ar_expires_at a with Some at_ => now <? at_ | None => true end.

Definition stored_artifacts (build_id : string) (now : Z) : ME sqlx_error (list artifact) :=
  sql (fun d => (d, merge_sort by_created_name (List.filter (stored build_id now) (artifacts d)))).

Definition ends_with (suffix s : string) : bool :=
  match strip_prefix_l (rev (bytes suffix)) (rev (bytes s)) with Some _ => true | None => false end.

Definition contains (needle s : string) : bool :=
  match find_l (bytes needle) (bytes s) with Some _ => true | None => false end.

(** [pick_bundle]. *)
Definition pick_bundle (l : list artifact) : option artifact :=
  let bundles := List.filter (fun a => ends_with ".aab" (to_ascii_lowercase (ar_name a))) l in
  match bundles with
  | [bundle] => Some bundle
  | _ =>
      match List.filter (fun a => contains "release" (to_ascii_lowercase (ar_name a))) bundles with
      | [bundle] => Some bundle
      | _ => None
      end
  end.

(** [metadata.pointer("/a/b").and_then(Value::as_str)]. *)
Definition pointer_str (a b : string) (v : Json.Value) : option string :=
  x ← Json.get a v; y ← Json.get b x; Json.as_str y.

(** The trimmed text at [/ios_app/key], unless it is blank. *)
Definition ios_app_field (metadata : Json.Value) (key : string) : option string :=
  s ← pointer_str "ios_app" key metadata;
  if is_empty (trim s) then None else Some (trim s).

(** [struct UploadedIpa]. *)
Record UploadedIpa := {
  ui_artifact_id : string;
  ui_bundle_id : string;
  ui_version : string;
  ui_build_number : string;
}.

(** [uploaded_ipa_from_metadata]. *)
Definition uploaded_ipa_from_metadata (artifact_id : string) (metadata : Json.Value) : option UploadedIpa :=
  export_method ← pointer_str "ios_signing" "effective_export_method" metadata;
  if negb (one_of ["app-store-connect"; "app-store"] export_method) then None
  else
    bundle_id ← ios_app_field metadata "bundle_identifier";
    version ← ios_app_field metadata "version";
    build_number ← ios_app_field metadata "build_number";
    Some {| ui_artifact_id := artifact_id; ui_bundle_id := bundle_id; ui_version := version;
            ui_build_number := build_number |}.

(** [find_uploaded_ipa]. *)
Definition find_uploaded_ipa (build_id : string) : ME sqlx_error (option UploadedIpa) :=
  sql (fun d => (d, head (omap (fun a => uploaded_ipa_from_metadata (ar_id a) (ar_metadata a))
    (order_by (fun a => - ar_created_at a)
      (List.filter (fun a => String.eqb (ar_build_id a) build_id && String.eqb (ar_type a) "ipa"
                             && ar_available a) (artifacts d)))))).

(** [uploaded_ipa_artifact_id]. *)
Definition uploaded_ipa_artifact_id (build_id : string) : ME sqlx_error (option string) :=
  ipa ← find_uploaded_ipa build_id; mret (ui_artifact_id <$> ipa).

(** The [ready] of [retryable_steps]: publishing to that store is on and the
    artifact it uploads is stored. *)
Definition upload_ready (now : Z) (step pipeline_id build_id : string) : ME sqlx_error bool :=
  if String.eqb step PUBLISH_PLAY_STEP then
    config ← load_google_play pipeline_id;
    if match config with Some config => gp_enabled config | None => false end
    then l ← stored_artifacts build_id now; mret (bool_decide (is_Some (pick_bundle l)))
    else mret false
  else if String.eqb step PUBLISH_APP_STORE_STEP then
    enabled ← publishing_enabled pipeline_id;
    if (enabled : bool)
    then ipa ← uploaded_ipa_artifact_id build_id; mret (bool_decide (is_Some ipa))
    else mret false
  else mret false.

(** ** Reads *)

Lemma keeps_load_google_play {X} (f : db -> X) pl : keeps f (load_google_play pl).
Proof. by apply keeps_sql. Qed.

Lemma keeps_secret_visible {X} (f : db -> X) p pl name : keeps f (secret_name_visible p pl name).
Proof. by apply keeps_sql. Qed.

Lemma keeps_upload_ready now step pl id : keeps (fun d => d) (upload_ready now step pl id).
Proof.
  unfold upload_ready, publishing_enabled, stored_artifacts, uploaded_ipa_artifact_id, find_uploaded_ipa,
    load_config, load_signing_key_row.
  repeat case_match; auto with keeps; repeat (apply keeps_bind; [|intros; repeat case_match]);
    auto using keeps_load_google_play, keeps_sql with keeps.
Qed.

#[export] Hint Resolve keeps_load_google_play keeps_secret_visible keeps_upload_ready : keeps.

(** What an upload sends: a bundle of the build for Play, when publishing to it
    is on; a signed App Store archive for the App Store, when the pipeline
    publishes there and signs for it. *)
Definition uploadable (d : db) (now : Z) (step pipeline_id build_id : string) : Prop :=
  step = PUBLISH_PLAY_STEP /\
    (exists config, play_targets d !! pipeline_id = Some config /\ gp_enabled config = true) /\
    (exists a, a ∈ artifacts d /\ stored build_id now a = true /\
       ends_with ".aab" (to_ascii_lowercase (ar_name a)) = true) \/
  step = PUBLISH_APP_STORE_STEP /\
    (exists config, app_store_targets d !! pipeline_id = Some config /\ as_enabled config = true) /\
    (exists s, ios_signing d !! pipeline_id = Some s /\ is_enabled s = true /\
       is_export_method s = "app_store"%string) /\
    (exists a, a ∈ artifacts d /\ ar_build_id a = build_id /\ ar_available a = true /\
       is_Some (uploaded_ipa_from_metadata (ar_id a) (ar_metadata a))).

Lemma pick_bundle_Some l a :
  pick_bundle l = Some a -> a ∈ l /\ ends_with ".aab" (to_ascii_lowercase (ar_name a)) = true.
Proof.
  unfold pick_bundle. set (bundles := List.filter _ l).
  assert (Hb : forall x, x ∈ bundles -> x ∈ l /\ ends_with ".aab" (to_ascii_lowercase (ar_name x)) = true).
  { intros x. unfold bundles. by rewrite !list_elem_of_In, filter_In. }
  set (release := List.filter _ bundles).
  assert (Hr : forall x, x ∈ release -> x ∈ bundles).
  { intros x. rewrite !list_elem_of_In. unfold release. rewrite filter_In. naive_solver. }
  destruct bundles as [|x [|y l']]; [by destruct release as [|? []]; [|intros; set_solver|]| |].
  - intros [= ->]. apply Hb. set_solver.
  - destruct release as [|z []]; intros [=]; subst. apply Hb, Hr. set_solver.
Qed.

Lemma upload_ready_ok now step pl id w w' :
  upload_ready now step pl id w = (w', Ok true) -> uploadable (w_db w) now step pl id.
Proof.
  unfold upload_ready, uploadable, publishing_enabled. intros H.
  destruct (String.eqb_spec step PUBLISH_PLAY_STEP) as [->|_].
  - left. apply M_bind_ok in H as (w1 & config & [H1 _]%sql_ok & H). injection H1 as D1 <-.
    destruct (play_targets (w_db w) !! pl) as [config|] eqn:E; [|done].
    destruct (gp_enabled config) eqn:Ee; [|done].
    apply M_bind_ok in H as (w2 & l & [H2 _]%sql_ok & H). injection H2 as D2 <-.
    injection H as _ H. apply bool_decide_eq_true in H as [a Ha]. apply pick_bundle_Some in Ha as [Ha Hn].
    rewrite merge_sort_Permutation, list_elem_of_In, filter_In, <- list_elem_of_In in Ha.
    rewrite <- D1 in Ha. naive_solver.
  - destruct (String.eqb_spec step PUBLISH_APP_STORE_STEP) as [->|]; [|done]. right.
    apply M_bind_ok in H as (w1 & en & H1 & H). destruct en; [|done].
    apply M_bind_ok in H1 as (w0 & config & [H0 _]%sql_ok & H1). injection H0 as D0 <-.
    destruct (app_store_targets (w_db w) !! pl) as [config|] eqn:E; [|done].
    destruct (as_enabled config) eqn:Een; cbn [negb] in H1; [|done].
    apply M_bind_ok in H1 as (w3 & row & [H3 _]%sql_ok & H1). injection H3 as D3 <-. injection H1 as -> H1.
    rewrite <- D0 in *. destruct (ios_signing (w_db w) !! pl) as [s|] eqn:Es; [|done]. cbn in H1.
    apply andb_true_iff in H1 as [Hs Hx]. unfold app_store_export, from_stored in Hx. cbn in Hs, Hx.
    destruct (String.eqb_spec (is_export_method s) "app_store") as [Hm|]; [|done].
    apply M_bind_ok in H as (w2 & aid & H2 & H). injection H as _ H. apply bool_decide_eq_true in H as [i Hi].
    apply M_bind_ok in H2 as (w4 & ipa & [H4 _]%sql_ok & [= <- <-]). injection H4 as _ <-.
    destruct (head _) as [u|] eqn:Eh; [|done]. set (l := omap _ _) in Eh.
    assert (Hu : u ∈ l) by (destruct l; simplify_eq/=; by left).
    apply list_elem_of_omap in Hu as (a & Ha & Hu).
    rewrite elem_of_order_by, list_elem_of_In, filter_In, <- list_elem_of_In in Ha.
    destruct Ha as [Ha Hc]. rewrite !andb_true_iff, String.eqb_eq in Hc. rewrite <- D3 in Ha.
    split_and!; [done|by exists config|by exists s|]. exists a. naive_solver.
Qed.
