(* ===== verification/Releases.v ===== *)
(** * Releases and staged rollouts

    [crates/oored/src/releases.rs]: recording a release, moving it between
    states, approving it, following what the store reports, and the monitor
    that takes the scheduled steps.

    The store is reached through [ReleaseStoreClient], the source's trait of
    that name: what it answers may depend on everything that has left the
    daemon before.  A per-release lock serialises the changes to one release,
    so each is modelled as one run.  The [chars().take(500)] of reasons counts
    characters; the message of an error is the text the client gave it. *)

From stdpp Require pretty.
From S2P Require Import Prelude Contract RustStr Labels F64 Sizes Triggers Rollout Stores Db Access Builds Runners Creation.

Local Open Scope Z_scope.

Definition HEALTH_CHECK_INTERVAL_SECS : Z := 15 * 60.
Definition RELEASE_REASON_LEN : nat := 500.

(** ** Data *)

(** [enum ReleaseActor]. *)
Inductive ReleaseActor : Set :=
  | System
  | ByUser (user_id email : string).

Definition actor_user_id (a : ReleaseActor) : option string :=
  match a with System => None | ByUser id _ => Some id end.
Definition actor_email (a : ReleaseActor) : option string :=
  match a with System => None | ByUser _ email => Some email end.

(** [enum ReleaseError]. *)
Inductive ReleaseError : Set :=
  | NotFound
  | InvalidInput (message : string)
  | Conflict (message : string)
  | StoreRejected (message : string)
  | DbError (e : sqlx_error).

(** [store_rejection_message]. *)
Definition store_rejection_message (error : string) : string :=
  let detail := take_chars RELEASE_REASON_LEN (join " " (split_whitespace error)) in
  if is_empty detail then "The store did not accept the change"
  else "The store did not accept the change: " +:+ detail.

(** [ReleaseError::into_api]. *)
Definition into_api (e : ReleaseError) : api_error :=
  match e with
  | NotFound => ApiErr 404 "not_found" "Release not found"
  | InvalidInput message => ApiErr 400 "invalid_input" message
  | Conflict message => ApiErr 409 "invalid_release_state" message
  | StoreRejected error => ApiErr 502 "store_rejected" (store_rejection_message error)
  | DbError _ => store_error "Failed to update release"
  end.

(** [anyhow::Error] of the monitor, by where it came from. *)
Inductive anyhow : Set :=
  | FromSql (e : sqlx_error)
  | FromStore (message : string)
  | FromRelease (e : ReleaseError).

(** [struct Release]: the row, what [row_to_release] derives from it, and the
    name of its environment.  The other joined columns are only shown. *)
Record Release := {
  rel_id : string;
  rel_row : release;
  rel_next_fraction : option f64;
  rel_health : ReleaseHealth;
  rel_awaiting_approval : bool;
  rel_environment_name : option string;
}.

(** [struct NewRelease]. *)
Record NewRelease := {
  nr_project_id : string;
  nr_build_id : string;
  nr_artifact_id : option string;
  nr_store : ReleaseStore.t;
  nr_track : string;
  nr_package_name : option string;
  nr_version_name : option string;
  nr_version_code : option Z;
  nr_state : ReleaseState.t;
  nr_rollout_fraction : f64;
  nr_policy : ReleasePolicy;
  nr_environment_id : option string;
  nr_promoted_from_release_id : option string;
}.

(** [struct ReleaseChange]. *)
Record ReleaseChange := {
  ch_to_state : ReleaseState.t;
  ch_to_fraction : option f64;
  ch_audit_action : string;
  ch_expect : option (ReleaseState.t * f64);
  ch_from_store : bool;
}.

(** ** Pure parts *)

(** [awaiting_approval]. *)
Definition awaiting_approval (r : release) : bool :=
  if bool_decide (is_Some (rl_approved_at r)) || ReleaseState.is_terminal (rl_state r) then false
  else match approval (rl_policy r) with
       | NoGate => false
       | BeforeUpload => bool_decide (rl_state r = ReleaseState.Uploading)
       | BeforeProduction => String.eqb (rl_track r) "production"
       end.

(** [next_step_at]; the sum is an [i64]. *)
Definition driven (r : release) : bool :=
  bool_decide (rl_store r = ReleaseStore.GooglePlay)
  && bool_decide (rl_state r = ReleaseState.Rolling)
  && negb (awaiting_approval r)
  && match next_step (rl_policy r) (rl_rollout_fraction r) with Some _ => true | None => false end.

Definition next_step_at (r : release) (now : Z) : option Z :=
  if driven r then Some (wrap_i64 (now + interval_secs (rl_policy r))) else None.

(** [store_change]. *)
Definition store_change (from to : ReleaseState.t) (fraction : f64) : option StoreChange :=
  match from, to with
  | ReleaseState.Rolling, ReleaseState.Rolling => Some (StoreRollout fraction)
  | (ReleaseState.Paused | ReleaseState.Halted), ReleaseState.Rolling => Some (StoreResume fraction)
  | _, ReleaseState.Paused => Some StorePause
  | _, ReleaseState.Halted => Some StoreHalt
  | (ReleaseState.Rolling | ReleaseState.Paused), ReleaseState.Complete => Some StoreComplete
  | _, _ => None
  end.

(** [event_kind]. *)
Definition event_kind (from to : ReleaseState.t) : ReleaseEventKind :=
  match from, to with
  | _, ReleaseState.Failed => ReleaseFailed
  | _, ReleaseState.Complete => RolloutCompleted
  | _, ReleaseState.Halted => RolloutHalted
  | _, ReleaseState.Paused => RolloutPaused
  | ReleaseState.Rolling, ReleaseState.Rolling => RolloutStepRaised
  | (ReleaseState.Paused | ReleaseState.Halted), ReleaseState.Rolling => RolloutResumed
  | _, _ => Uploaded
  end.

(** [allowed_actions]. *)
Definition allowed_actions (role : EffectiveProjectRole) (r : release) : list ReleaseAction.t :=
  let operate := check_project_permission role OperateRelease in
  let manage := check_project_permission role ManageReleases in
  let awaiting := awaiting_approval r in
  let in_state (s : ReleaseState.t) := bool_decide (rl_state r = s) in
  let app_store := bool_decide (rl_store r = ReleaseStore.AppStore) in
  let play_draft := bool_decide (rl_store r = ReleaseStore.GooglePlay) && in_state ReleaseState.Paused
                    && f64_eq (rl_rollout_fraction r) f_0 in
  let push (c : bool) (a : ReleaseAction.t) := if c then [a] else [] in
  push (manage && negb app_store && in_state ReleaseState.Rolling && negb awaiting
        && f64_lt (rl_rollout_fraction r) f_1) ReleaseAction.Raise
  ++ push (operate && in_state ReleaseState.Rolling) ReleaseAction.Pause
  ++ push (manage && (in_state ReleaseState.Paused || in_state ReleaseState.Halted) && negb awaiting)
       ReleaseAction.Resume
  ++ push (operate && negb app_store && negb play_draft
           && (in_state ReleaseState.Rolling || in_state ReleaseState.Paused)) ReleaseAction.Halt
  ++ push (manage && (in_state ReleaseState.Rolling || in_state ReleaseState.Paused) && negb awaiting)
       ReleaseAction.Complete
  ++ push (manage && awaiting) ReleaseAction.Approve.

(** [row_to_release]. *)
Definition row_to_release (d : db) (id : string) (r : release) : Release :=
  {| rel_id := id; rel_row := r;
     rel_next_fraction :=
       (if ReleaseState.is_terminal (rl_state r) then None
        else next_step (rl_policy r) (rl_rollout_fraction r));
     rel_health := from_crash_rate (rl_crash_rate r) (rp_crash_rate_threshold (rl_policy r));
     rel_awaiting_approval := awaiting_approval r;
     rel_environment_name := rl_environment_id r ≫= fun e => pe_name <$> project_environments d !! e |}.

(** [validate_fraction]. *)
Definition valid_fraction (fraction : f64) : bool :=
  is_finite fraction && f64_le f_0 fraction && f64_le fraction f_1.

(** [clean_reason]. *)
Definition clean_reason (reason : option string) : option string :=
  match reason with
  | Some reason =>
      if is_empty (trim reason) then None else Some (take_chars RELEASE_REASON_LEN (trim reason))
  | None => None
  end.

(** [store_sync_changes]. *)
Definition store_sync_changes (state : ReleaseState.t) (fraction : f64) (observed : StoreObservation)
    : list (ReleaseState.t * option f64) :=
  match state, observed with
  | (ReleaseState.Rolling | ReleaseState.Paused | ReleaseState.Halted), ObsMissing =>
      [(ReleaseState.Failed, None)]
  | (ReleaseState.Rolling | ReleaseState.Paused), ObsCompleted => [(ReleaseState.Complete, None)]
  | ReleaseState.Halted, ObsCompleted =>
      [(ReleaseState.Rolling, Some f_1); (ReleaseState.Complete, None)]
  | (ReleaseState.Rolling | ReleaseState.Paused), ObsHalted => [(ReleaseState.Halted, None)]
  | ReleaseState.Rolling, ObsRolling store =>
      if f64_lt (f64_add fraction f_1em9) store then [(ReleaseState.Rolling, Some store)] else []
  | ReleaseState.Halted, ObsRolling store => [(ReleaseState.Rolling, Some (f64_max store fraction))]
  | _, _ => []
  end.

(** [store_sync_reason]. *)
Definition store_sync_reason (r : release) (observed : StoreObservation) : string :=
  match observed with
  | ObsMissing => "No longer on the " +:+ rl_track r
                  +:+ " track in Play Console: discarded or replaced there"
  | ObsCompleted => "Completed in Play Console"
  | ObsHalted => "Halted in Play Console"
  | _ => "Rollout changed in Play Console"
  end.

(** ** Statements *)

(** [RELEASE_SELECT ... WHERE r.id = ?1] and [row_to_release]. *)
Definition load_release (id : string) : ME ReleaseError Release :=
  row ← map_errM DbError (sql (fun d => (d, row_to_release d id <$> releases d !! id)));
  from_option NotFound row.

(** [UPDATE releases SET <f> WHERE id = ? AND <p>], with the rows affected. *)
Definition update_release (id : string) (p : release -> bool) (f : release -> release) (d : db) : db * Z :=
  match releases d !! id with
  | Some r => if p r then (set_releases (<[id := f r]> (releases d)) d, 1) else (d, 0)
  | None => (d, 0)
  end.

(** [insert_history]; the entry references its release. *)
Definition insert_history (h : release_history_entry) : ME sqlx_error unit :=
  known ← sql (fun d =>
    match releases d !! rh_release_id h with
    | Some _ => (set_release_history (release_history d ++ [h]) d, true)
    | None => (d, false)
    end);
  guard known OtherSqlError.

(** [audit]. *)
Definition audit {E} (action id : string) (actor : ReleaseActor) : ME E unit :=
  write_audit_log (actor_user_id actor) action "release" (Some id).

(** [publish]. *)
Definition publish {E} (release : Release) (kind : ReleaseEventKind) (actor : ReleaseActor)
    (reason : option string) (now : Z) : ME E unit :=
  let m := rl_meta (rel_row release) in
  emit (ReleaseChanged {|
    re_kind := kind; re_project_id := rm_project_id m; re_release_id := rel_id release;
    re_build_id := Some (rm_build_id m); re_version_name := rm_version_name m;
    re_version_code := rm_version_code m; re_track := Some (rm_track m);
    re_rollout_percent := Some (f64_mul (rl_rollout_fraction (rel_row release)) f_100);
    re_actor := actor_email actor; re_reason := reason; re_timestamp := now |}).

(** A call to the store: it leaves the daemon, and the client [m] makes it. *)
Definition call {E A} (e : effect) (m : ME E A) : ME E A :=
  _ ← emit e; m.

(** ** Operations *)

(** [struct PromotedLink] ([app_store_publish.rs]): the monitor link a promoted
    App Store release starts with. *)
Record PromotedLink := {
  pk_pipeline_id : string;
  pk_bundle_id : string;
  pk_version : string;
  pk_build_number : string;
  pk_config : AppStorePublishConfig;
  pk_stage : Stage.t;
  pk_asc_app_id : string;
  pk_asc_build_id : string;
  pk_asc_version_id : option string;
  pk_next_poll_in : Z;
}.

(** [struct Promoted]. *)
Record Promoted := {
  pd_start : option (ReleaseState.t * f64);
  pd_detail : option string;
  pd_app_store_link : option PromotedLink;
}.

(** The error of a promotion: a [PromotionRefused], or any other. *)
Inductive PromoteError : Set :=
  | PromotionRefused (code message : string)
  | PromoteFailed (message : string).

(** [trait ReleaseStoreClient]; a client runs in the daemon, so that its
    answers may depend on all that left the daemon before. *)
Class ReleaseStoreClient := {
  observe : Release -> ME string (option StoreObservation);
  apply_change : Release -> StoreChange -> ME string unit;
  crash_rate : Release -> ME string (option f64);
  promote : Release -> PromotionTarget -> ME PromoteError Promoted;
}.

(** Effects that are no change of a release at its store. *)
Definition harmless (e : effect) : Prop :=
  match e with StoreApplied _ _ | StorePromoted _ _ => False | _ => True end.

(** What a client may do to the daemon: of the database it writes only when
    the App Store monitor looks at a release again, it asks for no other
    change of a release, and it brings no failures of its own. *)
Record client_run (w w' : world) : Prop := ClientRun {
  cl_db : exists links, w_db w' = set_app_store_links links (w_db w);
  cl_asked : exists l, w_published w' = w_published w ++ l /\ Forall harmless l;
  cl_faults : w_faults w = [] -> w_faults w' = [];
}.

Definition client_op {E A} (m : ME E A) : Prop := forall w w' r, m w = (w', r) -> client_run w w'.

(** What the daemon relies on of a store's client. *)
Class ReleaseStoreLaws {client : ReleaseStoreClient} : Prop := {
  observe_law : forall rel, client_op (observe rel);
  apply_law : forall rel c, client_op (apply_change rel c);
  crash_rate_law : forall rel, client_op (crash_rate rel);
  promote_law : forall rel target, client_op (promote rel target);
}.

(** The environment a new release belongs to when none is named. *)
Definition matching_environment (project_id : string) (store : ReleaseStore.t) (track : string) (d : db)
    : option string :=
  fst <$> find (fun kv : string * environment =>
      String.eqb (pe_project_id kv.2) project_id && bool_decide (pe_store kv.2 = store)
      && String.eqb (pe_track kv.2) track)
    (map_to_list (project_environments d)).

(** The row [insert_release] inserts. *)
Definition new_release_row (input : NewRelease) (actor : ReleaseActor) (environment_id : option string)
    (now : Z) : release :=
  ReleaseRow (ReleaseMeta (nr_project_id input) (nr_build_id input) (nr_artifact_id input)
      (nr_store input)
      (trim (nr_track input)) (nr_package_name input) (nr_version_name input) (nr_version_code input)
      (nr_policy input) (actor_user_id actor) now)
    (nr_state input) (nr_rollout_fraction input) None None None None None None None
    environment_id (nr_promoted_from_release_id input) now.

(** [insert_release], inside the caller's transaction; [id] is drawn.  The
    answer is the release and its cleaned reason. *)
Definition insert_release (input : NewRelease) (actor : ReleaseActor) (reason : option string)
    (id : string) (now : Z) : ME ReleaseError (Release * option string) :=
  _ ← match validate (nr_policy input) with
      | Ok _ => mret tt
      | Err message => throw (InvalidInput message)
      end;
  _ ← guard (valid_fraction (nr_rollout_fraction input)) (InvalidInput "fraction must be between 0 and 1");
  _ ← guard (negb (is_empty (trim (nr_track input)))) (InvalidInput "track must not be empty");
  _ ← guard (negb (bool_decide (nr_state input = ReleaseState.Halted)
                   || bool_decide (nr_state input = ReleaseState.Failed)))
        (InvalidInput "a release cannot start halted or failed");
  let reason := clean_reason reason in
  environment_id ← match nr_environment_id input with
                   | Some environment_id => mret (Some environment_id)
                   | None => map_errM DbError (sql (fun d => (d,
                       matching_environment (nr_project_id input) (nr_store input) (trim (nr_track input)) d)))
                   end;
  fresh ← map_errM DbError (sql (fun d =>
    match releases d !! id with
    | Some _ => (d, false)
    | None => (set_releases (<[id := new_release_row input actor environment_id now]> (releases d)) d, true)
    end));
  _ ← guard fresh (DbError UniqueViolation);
  _ ← map_errM DbError (insert_history (HistoryEntry id (actor_user_id actor) (actor_email actor) None
        (nr_state input) None (Some (nr_rollout_fraction input)) reason now));
  release ← load_release id;
  match next_step_at (rel_row release) now with
  | Some at_ =>
      _ ← map_errM DbError (sql (update_release id (fun _ => true) (set_rl_next_step_at (Some at_))));
      mret ({| rel_id := id; rel_row := set_rl_next_step_at (Some at_) (rel_row release);
               rel_next_fraction := rel_next_fraction release; rel_health := rel_health release;
               rel_awaiting_approval := rel_awaiting_approval release;
               rel_environment_name := rel_environment_name release |}, reason)
  | None => mret (release, reason)
  end.

(** [finish_create]. *)
Definition finish_create {E} (created : Release * option string) (actor : ReleaseActor) (now : Z)
    : ME E Release :=
  let '(release, reason) := created in
  let state := rl_state (rel_row release) in
  _ ← audit "release_created" (rel_id release) actor;
  _ ← publish release Created actor reason now;
  _ ← (if bool_decide (state = ReleaseState.Rolling) || bool_decide (state = ReleaseState.Complete)
       then publish release Uploaded actor reason now else mret tt);
  _ ← (if rel_awaiting_approval release then publish release ApprovalNeeded actor reason now else mret tt);
  mret release.

(** [create_release]. *)
Definition create_release (input : NewRelease) (actor : ReleaseActor) (reason : option string)
    (id : string) (now : Z) : ME ReleaseError Release :=
  created ← transaction_with DbError
    (created ← insert_release input actor reason id now; mret (Commit created));
  finish_create created actor now.

(** The row a change leaves. *)
Definition moved_row (to : ReleaseState.t) (to_fraction : f64) (next_at : option Z) (now : Z) (r : release)
    : release :=
  set_rl_updated_at now (set_rl_next_step_at next_at
    (set_rl_rollout_fraction to_fraction (set_rl_state to r))).

(** The next row as [next_step_at] sees it. *)
Definition stepped (to : ReleaseState.t) (to_fraction : f64) (r : release) : release :=
  set_rl_rollout_fraction to_fraction (set_rl_state to r).

Definition reload : ReleaseError := Conflict "release changed, reload and try again".

(** Still the state and fraction the caller decided on. *)
Definition as_expected (expect : option (ReleaseState.t * f64)) (r : release) : bool :=
  match expect with
  | Some (state, fraction) =>
      bool_decide (state = rl_state r)
      && negb (f64_lt f_1em9 (f64_abs (f64_sub fraction (rl_rollout_fraction r))))
  | None => true
  end.

(** The fraction a change leads to. *)
Definition target_fraction (change : ReleaseChange) (r : release) : f64 :=
  match ch_to_state change with
  | ReleaseState.Complete => f_1
  | _ => default (rl_rollout_fraction r) (ch_to_fraction change)
  end.

(** On the store and able to reach more users. *)
Definition live (s : ReleaseState.t) : bool :=
  match s with
  | ReleaseState.Rolling | ReleaseState.Paused | ReleaseState.Halted => true
  | _ => false
  end.

Definition raising (s : ReleaseState.t) : bool :=
  match s with ReleaseState.Rolling | ReleaseState.Complete => true | _ => false end.

Section Operations.
Context {client : ReleaseStoreClient}.

(** The transaction of [transition_release]. *)
Definition record_change (id : string) (r : release) (to : ReleaseState.t) (to_fraction : f64)
    (actor : ReleaseActor) (reason : option string) (now : Z) : ME ReleaseError unit :=
  let next_at := next_step_at (stepped to to_fraction r) now in
  transaction_with DbError
    (updated ← map_errM DbError (sql (update_release id
       (fun row => bool_decide (rl_state row = rl_state r)
                   && f64_eq (rl_rollout_fraction row) (rl_rollout_fraction r))
       (moved_row to to_fraction next_at now)));
     if updated =? 0 then throw reload
     else
       _ ← map_errM DbError (insert_history (HistoryEntry id (actor_user_id actor) (actor_email actor)
             (Some (rl_state r)) to (Some (rl_rollout_fraction r)) (Some to_fraction) reason now));
       mret (Commit tt)).

(** [transition_release]. *)
Definition transition_release (id : string) (change : ReleaseChange) (actor : ReleaseActor)
    (reason : option string) (now : Z) : ME ReleaseError Release :=
  current ← load_release id;
  let r := rel_row current in
  let from := rl_state r in
  _ ← guard (as_expected (ch_expect change) r) reload;
  let to := ch_to_state change in
  _ ← guard (ReleaseState.can_transition_to from to)
        (Conflict ("release is " +:+ ReleaseState.as_str from +:+ " and cannot move to "
                   +:+ ReleaseState.as_str to));
  let to_fraction := target_fraction change r in
  _ ← guard (valid_fraction to_fraction) (InvalidInput "fraction must be between 0 and 1");
  _ ← guard (negb (bool_decide (from = ReleaseState.Rolling) && bool_decide (to = ReleaseState.Rolling)
                   && f64_le to_fraction (rl_rollout_fraction r)))
        (InvalidInput "rollout fraction can only increase");
  _ ← guard (negb (negb (ch_from_store change) && awaiting_approval r && live from && raising to))
        (Conflict "release is waiting for approval");
  let reason := clean_reason reason in
  _ ← match (if ch_from_store change then None else store_change from to to_fraction) with
      | Some c =>
          map_errM StoreRejected (call (StoreApplied id c) (apply_change current c))
      | None => mret tt
      end;
  _ ← record_change id r to to_fraction actor reason now;
  release ← load_release id;
  _ ← audit (ch_audit_action change) id actor;
  _ ← publish release (event_kind from to) actor reason now;
  mret release.

(** When an approved release takes its next step: a draft at once. *)
Definition approved_next_at (r : release) (now : Z) : option Z :=
  match next_step_at (set_rl_approved_at (Some now) r) now with
  | Some at_ => Some (if f64_eq (rl_rollout_fraction r) f_0 then now else at_)
  | None => None
  end.

Definition approved_row (actor : ReleaseActor) (next_at : option Z) (now : Z) (r : release) : release :=
  set_rl_updated_at now (set_rl_next_step_at next_at
    (set_rl_approved_by (actor_user_id actor) (set_rl_approved_at (Some now) r))).

(** [approve_release]. *)
Definition approve_release (id : string) (actor : ReleaseActor) (reason : option string) (now : Z)
    : ME ReleaseError Release :=
  current ← load_release id;
  let r := rel_row current in
  _ ← guard (rel_awaiting_approval current) (Conflict "release is not waiting for approval");
  let reason := clean_reason reason in
  _ ← transaction_with DbError
    (updated ← map_errM DbError (sql (update_release id
       (fun row => bool_decide (rl_approved_at row = None) && bool_decide (rl_state row = rl_state r))
       (approved_row actor (approved_next_at r now) now)));
     if updated =? 0 then throw reload
     else
       _ ← map_errM DbError (insert_history (HistoryEntry id (actor_user_id actor) (actor_email actor)
             (Some (rl_state r)) (rl_state r) (Some (rl_rollout_fraction r)) (Some (rl_rollout_fraction r))
             (Some (default "approved"%string reason)) now));
       mret (Commit tt));
  release ← load_release id;
  _ ← audit "release_approved" id actor;
  _ ← publish release Approved actor reason now;
  mret release.

(** A change the store already made. *)
Definition store_made (to_state : ReleaseState.t) (to_fraction : option f64)
    (expect : option (ReleaseState.t * f64)) : ReleaseChange :=
  {| ch_to_state := to_state; ch_to_fraction := to_fraction;
     ch_audit_action := "release_synced_from_store"; ch_expect := expect; ch_from_store := true |}.

(** [sync_release_with_store]. *)
Definition sync_release_with_store (release : Release) (now : Z) : ME anyhow Release :=
  let id := rel_id release in
  let r := rel_row release in
  catch (call (StoreObserved id) (observe release)) (fun observed =>
    _ ← map_errM FromSql (sql (update_release id (fun _ => true) (set_rl_store_checked_at (Some now))));
    match observed with
    | Err message => throw (FromStore message)
    | Ok None => mret release
    | Ok (Some observed) =>
        match store_sync_changes (rl_state r) (rl_rollout_fraction r) observed with
        | [] => mret release
        | changes =>
            _ ← for_each (fun (c : ReleaseState.t * option f64) expect =>
                  _ ← map_errM FromRelease (transition_release id (store_made c.1 c.2 expect) System
                        (Some (store_sync_reason r observed)) now);
                  mret None)
                changes (Some (rl_state r, rl_rollout_fraction r));
            map_errM FromRelease (load_release id)
        end
    end).

(** [note_rollout_hold]. *)
Definition note_rollout_hold (release : Release) (reason : string) (now : Z) : ME anyhow unit :=
  let r := rel_row release in
  transaction_with FromSql
    (_ ← map_errM FromSql (insert_history (HistoryEntry (rel_id release) None None (Some (rl_state r))
           (rl_state r) (Some (rl_rollout_fraction r)) (Some (rl_rollout_fraction r)) (Some reason) now));
     mret (Commit tt)).

(** A failed change is only logged. *)
Definition best_effort {A} (m : ME ReleaseError A) : ME anyhow unit := catch m (fun _ => mret tt).

Definition overdue_check (checked_at : option Z) (now : Z) : bool :=
  match checked_at with Some at_ => HEALTH_CHECK_INTERVAL_SECS <=? now - at_ | None => true end.

(** The crash-rate check of one release: [None] ends its turn, [Some] is the
    health error the schedule goes on with. *)
Definition check_health (release : Release) (now : Z) : ME anyhow (option (option string)) :=
  let id := rel_id release in
  let r := rel_row release in
  let health_error := rl_health_error r in
  match rp_crash_rate_threshold (rl_policy r) with
  | Some threshold =>
      if negb (overdue_check (rl_crash_rate_checked_at r) now) then mret (Some health_error)
      else catch (call (StoreCrashRate id) (crash_rate release)) (fun checked =>
        match checked with
        | Ok rate =>
            _ ← map_errM FromSql (sql (update_release id (fun _ => true) (fun row =>
                  set_rl_health_error None (set_rl_crash_rate_checked_at (Some now)
                    (set_rl_crash_rate (match rate with Some x => Some x | None => rl_crash_rate row end)
                       row)))));
            _ ← (if health_error is Some _
                 then note_rollout_hold release "Crash rate available again; scheduled rollout continues" now
                 else mret tt);
            match rate with
            | Some rate =>
                if f64_le threshold rate then
                  _ ← best_effort (transition_release id
                        {| ch_to_state := ReleaseState.Halted; ch_to_fraction := None;
                           ch_audit_action := "release_halted"; ch_expect := None; ch_from_store := false |}
                        System
                        (Some ("crash rate " +:+ fmt_2 (f64_mul rate f_100) +:+ "% reached the "
                               +:+ fmt_2 (f64_mul threshold f_100) +:+ "% threshold")) now);
                  mret None
                else mret (Some None)
            | None => mret (Some None)
            end
        | Err error =>
            let message := take_chars RELEASE_REASON_LEN error in
            _ ← map_errM FromSql (sql (update_release id (fun _ => true) (fun row =>
                  set_rl_health_error (Some message) (set_rl_crash_rate_checked_at (Some now) row))));
            _ ← (if health_error is Some _ then mret tt
                 else note_rollout_hold release
                        ("Rollout held: crash rate unavailable (" +:+ message +:+ ")") now);
            mret (Some (Some message))
        end)
  | None => mret (Some health_error)
  end.

(** A scheduled step to [fraction]. *)
Definition scheduled_step (fraction : f64) (r : release) : ReleaseChange :=
  {| ch_to_state := (if f64_le f_1 fraction then ReleaseState.Complete else ReleaseState.Rolling);
     ch_to_fraction := Some fraction; ch_audit_action := "release_advanced";
     ch_expect := Some (ReleaseState.Rolling, rl_rollout_fraction r); ch_from_store := false |}.

Definition step_due (r : release) (now : Z) : bool :=
  match rl_next_step_at r with Some at_ => at_ <=? now | None => false end.

(** The loop body of [run_rollout_tick]. *)
Definition tick_release (now : Z) (release : Release) : ME anyhow unit :=
  let r := rel_row release in
  let due := bool_decide (rl_state r = ReleaseState.Rolling) && step_due r now in
  skip ← (if due || overdue_check (rl_store_checked_at r) now then
            catch (sync_release_with_store release now) (fun synced =>
              match synced with
              | Ok synced =>
                  mret (negb (bool_decide (rl_state (rel_row synced) = rl_state r))
                        || negb (f64_eq (rl_rollout_fraction (rel_row synced)) (rl_rollout_fraction r)))
              | Err _ => mret due
              end)
          else mret false);
  if (skip : bool) || negb (bool_decide (rl_state r = ReleaseState.Rolling)) then mret tt
  else
    health ← check_health release now;
    match health with
    | None => mret tt
    | Some health_error =>
        if bool_decide (is_Some (rp_crash_rate_threshold (rl_policy r))) && bool_decide (is_Some health_error)
        then mret tt
        else if negb (step_due r now) || rel_awaiting_approval release then mret tt
        else match next_step (rl_policy r) (rl_rollout_fraction r) with
             | Some fraction =>
                 best_effort (transition_release (rel_id release) (scheduled_step fraction r) System
                   (Some "scheduled rollout step"%string) now)
             | None => mret tt
             end
    end.

(** The order of the monitor's rows: due steps first, then the releases
    checked longest ago. *)
Definition tick_key (now : Z) (r : release) : Z * Z :=
  (if bool_decide (rl_state r = ReleaseState.Rolling) && step_due r now then 0 else 1,
   default 0 (rl_store_checked_at r)).

Definition tick_le (now : Z) : relation Release := fun x y =>
  let a := tick_key now (rel_row x) in
  let b := tick_key now (rel_row y) in
  a.1 < b.1 \/ a.1 = b.1 /\ a.2 <= b.2.

#[global] Instance tick_le_dec now : RelDecision (tick_le now).
Proof. unfold tick_le. intros x y. apply _. Defined.

(** The rows of one tick. *)
Definition tick_rows (now : Z) (batch : nat) (d : db) : list Release :=
  take batch (merge_sort (tick_le now)
    (map (fun kv => row_to_release d kv.1 kv.2)
      (filter (fun kv : string * release =>
         live (rl_state kv.2) = true /\ rl_store kv.2 = ReleaseStore.GooglePlay)
        (map_to_list (releases d))))).

(** [run_rollout_tick]. *)
Definition run_rollout_tick (now : Z) (batch : nat) : ME anyhow unit :=
  rows ← map_errM FromSql (sql (fun d => (d, tick_rows now batch d)));
  for_each (fun release _ => tick_release now release) rows tt.

(** ** Handlers *)

(** [user_actor], [project_role]. *)
Definition user_actor (auth : SessionInfo) : ReleaseActor := ByUser (user_id auth) (email auth).
Definition project_role (auth : SessionInfo) (project_id : string) : M EffectiveProjectRole :=
  resolve_effective_project_role (user_id auth) (role auth) project_id (auth_source auth).

(** [struct CreateReleaseRequest]. *)
Record CreateReleaseRequest := {
  cr_build_id : string;
  cr_artifact_id : option string;
  cr_store : ReleaseStore.t;
  cr_track : string;
  cr_package_name : option string;
  cr_version_name : option string;
  cr_version_code : option Z;
  cr_state : option ReleaseState.t;
  cr_rollout_fraction : option f64;
  cr_policy : option ReleasePolicy;
  cr_reason : option string;
}.

(** The release a request describes. *)
Definition requested_release (project_id : string) (req : CreateReleaseRequest) : NewRelease :=
  let policy := default default_release_policy (cr_policy req) in
  let state := default ReleaseState.Rolling (cr_state req) in
  {| nr_project_id := project_id; nr_build_id := cr_build_id req;
     nr_artifact_id := cr_artifact_id req; nr_store := cr_store req;
     nr_track := cr_track req; nr_package_name := cr_package_name req;
     nr_version_name := cr_version_name req; nr_version_code := cr_version_code req; nr_state := state;
     nr_rollout_fraction :=
       default (if bool_decide (state = ReleaseState.Rolling) then default f_0 (head (steps policy)) else f_0)
         (cr_rollout_fraction req);
     nr_policy := policy; nr_environment_id := None; nr_promoted_from_release_id := None |}.

(** [create_release_handler]; the answer is the release and the actions the
    caller may take. *)
Definition create_release_handler (auth : SessionInfo) (req : CreateReleaseRequest) (id : string) (now : Z)
    : M (Release * list ReleaseAction.t) :=
  row ← query "Failed to load build" (fun d => builds d !! cr_build_id req);
  b ← from_option build_not_found row;
  role ← project_role auth (b_project_id b);
  _ ← require_project_permission role ManageReleases;
  _ ← guard (bool_decide (b_status b = BuildStatus.Succeeded))
        (ApiErr 409 "build_not_succeeded" "Only a succeeded build can be released");
  _ ← match cr_artifact_id req with
      | Some artifact_id =>
          belongs ← query "Failed to load artifact" (fun d =>
            existsb (fun a => String.eqb (ar_id a) artifact_id && String.eqb (ar_build_id a) (cr_build_id req))
              (artifacts d));
          guard belongs (ApiErr 400 "invalid_input" "artifact_id does not belong to the build")
      | None => mret tt
      end;
  _ ← guard (match cr_version_code req with Some code => 0 <=? code | None => true end)
        (ApiErr 400 "invalid_input" "version_code must not be negative");
  _ ← match validate_gate (default default_release_policy (cr_policy req)) with
      | Ok _ => mret tt
      | Err message => throw (ApiErr 400 "invalid_input" message)
      end;
  release ← map_errM into_api (create_release (requested_release (b_project_id b) req) (user_actor auth)
              (cr_reason req) id now);
  mret (release, allowed_actions role (rel_row release)).

(** [struct ReleaseActionRequest]. *)
Record ReleaseActionRequest := {
  ra_reason : option string;
  ra_fraction : option f64;
}.

Definition is_allowed (action : ReleaseAction.t) (role : EffectiveProjectRole) (r : release) : bool :=
  bool_decide (action ∈ allowed_actions role r).

(** The change an action asks for; approving is handled apart. *)
Definition action_change (action : ReleaseAction.t) (fraction : option f64) (r : release)
    : result api_error (option ReleaseChange) :=
  let seen := Some (rl_state r, rl_rollout_fraction r) in
  let change to to_fraction audit_action expect :=
    Ok (Some {| ch_to_state := to; ch_to_fraction := to_fraction; ch_audit_action := audit_action;
                ch_expect := expect; ch_from_store := false |}) in
  match action with
  | ReleaseAction.Approve => Ok None
  | ReleaseAction.Raise =>
      let fraction := match fraction with
                      | Some fraction => fraction
                      | None => default f_1 (next_step (rl_policy r) (rl_rollout_fraction r))
                      end in
      if negb (is_finite fraction) || f64_le fraction (rl_rollout_fraction r) || f64_lt f_1 fraction
      then Err (ApiErr 400 "invalid_input" "fraction must be above the current rollout and at most 1")
      else change (if f64_le f_1 fraction then ReleaseState.Complete else ReleaseState.Rolling)
             (Some fraction) "release_raised"%string seen
  | ReleaseAction.Pause => change ReleaseState.Paused None "release_paused"%string None
  | ReleaseAction.Resume =>
      change ReleaseState.Rolling
        (if f64_eq (rl_rollout_fraction r) f_0 then head (steps (rl_policy r)) else None)
        "release_resumed"%string seen
  | ReleaseAction.Halt => change ReleaseState.Halted None "release_halted"%string None
  | ReleaseAction.Complete => change ReleaseState.Complete (Some f_1) "release_completed"%string seen
  end.

(** [release_action]. *)
Definition release_action (auth : SessionInfo) (id action : string) (req : ReleaseActionRequest) (now : Z)
    : M (Release * list ReleaseAction.t) :=
  action ← match ReleaseAction.from_str action with
           | Ok action => mret action
           | Err _ => throw (ApiErr 404 "not_found" "Unknown release action")
           end;
  current ← map_errM into_api (load_release id);
  role ← project_role auth (rl_project_id (rel_row current));
  _ ← map_errM (fun _ => ApiErr 404 "not_found" "Release not found") (require_project_permission role Read);
  _ ← require_project_permission role
        (match action with
         | ReleaseAction.Pause | ReleaseAction.Halt => OperateRelease
         | _ => ManageReleases
         end);
  _ ← guard (negb (match ra_fraction req with Some _ => true | None => false end
                   && negb (bool_decide (action = ReleaseAction.Raise))))
        (ApiErr 400 "invalid_input" "fraction is only accepted by raise");
  _ ← guard (is_allowed action role (rel_row current))
        (ApiErr 409 "invalid_release_state"
           ("Cannot " +:+ ReleaseAction.as_str action +:+ " a release that is "
            +:+ ReleaseState.as_str (rl_state (rel_row current))));
  current ← (if bool_decide (rl_store (rel_row current) = ReleaseStore.GooglePlay)
                && negb (ReleaseState.is_terminal (rl_state (rel_row current)))
             then catch (sync_release_with_store current now) (fun synced =>
                    match synced with Ok synced => mret synced | Err _ => mret current end)
             else mret current);
  _ ← guard (is_allowed action role (rel_row current))
        (ApiErr 409 "invalid_release_state"
           ("Cannot " +:+ ReleaseAction.as_str action +:+ " this release: Play Console shows it as "
            +:+ ReleaseState.as_str (rl_state (rel_row current)) +:+ " now"));
  change ← match action_change action (ra_fraction req) (rel_row current) with
           | Ok change => mret change
           | Err e => throw e
           end;
  release ← map_errM into_api
    (match change with
     | None => approve_release id (user_actor auth) (ra_reason req) now
     | Some change => transition_release id change (user_actor auth) (ra_reason req) now
     end);
  mret (release, allowed_actions role (rel_row release)).

End Operations.
