(* ===== verification/Environments.v ===== *)
(** * Environments and promotions

    [crates/oored/src/environments.rs]: the environments of a project, who may
    approve a promotion into them, and promoting a build that an earlier
    release already uploaded.

    A promotion runs under the lock of its build and environment, so each is
    modelled as one run; [in_use] says which of these locks another task holds
    when an environment is deleted.  Rows reference users and projects the
    handler has read: those foreign keys are not checked again.  The details
    of audit entries are not kept. *)

From stdpp Require Import pretty.
From Stdlib Require Import Ascii.
From S2P Require Import Prelude Contract RustStr Labels F64 Triggers Rollout Stores Db Access Builds Runners Creation Releases.

Local Open Scope Z_scope.

Definition MAX_ENVIRONMENTS : Z := 12.
Definition MAX_NAME_LEN : Z := 64.
Definition MAX_KEY_LEN : Z := 32.
Definition MAX_APPROVERS : Z := 20.
Definition RECENT_PROMOTIONS : nat := 20.
Definition APP_STORE_TRACK : string := "app_store".

(** [STALE_PROMOTING], [ENVIRONMENT_DELETED], [INTERRUPTED_BY_RESTART]. *)
Definition STALE_PROMOTING : string :=
  "Oore stopped before it recorded the outcome; check Play Console or App Store Connect".
Definition ENVIRONMENT_DELETED : string := "environment deleted".
Definition INTERRUPTED_BY_RESTART : string :=
  "Interrupted by daemon restart; check Play Console or App Store Connect before promoting again".

(** ** Data *)

(** [enum EnvironmentError]. *)
Inductive EnvironmentError : Set :=
  | EnvNotFound (message : string)
  | EnvInvalid (message : string)
  | EnvForbidden (message : string)
  | EnvConflict (code message : string)
  | EnvStore (error : string)
  | EnvDb (e : sqlx_error).

(** [short], on the text of an error. *)
Definition short (error : string) : string :=
  take_chars RELEASE_REASON_LEN (join " " (split_whitespace error)).

(** [EnvironmentError::into_api]. *)
Definition environment_api (e : EnvironmentError) : api_error :=
  match e with
  | EnvNotFound message => ApiErr 404 "not_found" message
  | EnvInvalid message => ApiErr 400 "invalid_input" message
  | EnvForbidden message => ApiErr 403 "permission_denied" message
  | EnvConflict code message => ApiErr 409 code message
  | EnvStore error =>
      ApiErr 502 "store_rejected" ("The store did not accept the promotion: " +:+ short error)
  | EnvDb _ => store_error "Failed to update environments"
  end.

(** [From<ReleaseError> for EnvironmentError]. *)
Definition of_release_error (e : ReleaseError) : EnvironmentError :=
  match e with
  | NotFound => EnvNotFound "Release not found"
  | InvalidInput message => EnvInvalid message
  | Conflict message => EnvConflict "invalid_release_state" message
  | StoreRejected error => EnvStore error
  | DbError e => EnvDb e
  end.

(** [struct EnvironmentApprover], [struct EnvironmentApprovers]. *)
Record EnvironmentApprover := {
  ea_user_id : string;
  ea_email : string;
}.

Record EnvironmentApprovers := {
  eas_role : option ApproverRole.t;
  eas_users : list EnvironmentApprover;
}.

(** [struct ProjectEnvironment]: the row and its current approvers. *)
Record ProjectEnvironment := {
  env_id : string;
  env_row : environment;
  env_approvers : EnvironmentApprovers;
}.

(** [struct EnvironmentApproversInput]. *)
Record EnvironmentApproversInput := {
  eai_role : option ApproverRole.t;
  eai_user_ids : list string;
}.

(** [struct CreateProjectEnvironmentRequest]. *)
Record CreateProjectEnvironmentRequest := {
  ce_key : string;
  ce_name : string;
  ce_store : ReleaseStore.t;
  ce_track : string;
  ce_approval_required : bool;
  ce_rollout_policy : option ReleasePolicy;
  ce_submit_for_review : bool;
  ce_approvers : option EnvironmentApproversInput;
}.

(** [struct UpdateProjectEnvironmentRequest]. *)
Record UpdateProjectEnvironmentRequest := {
  ue_name : option string;
  ue_track : option string;
  ue_approval_required : option bool;
  ue_rollout_policy : option ReleasePolicy;
  ue_submit_for_review : option bool;
  ue_position : option Z;
  ue_approvers : option EnvironmentApproversInput;
}.

(** [struct CreatePromotionRequest]. *)
Record CreatePromotionRequest := {
  cp_build_id : string;
  cp_environment_id : string;
  cp_reason : option string;
}.

(** [struct EnvironmentPromotion]: the row, and whether the viewer may decide
    it.  The other joined columns are only shown. *)
Record EnvironmentPromotion := {
  ep_id : string;
  ep_row : promotion;
  ep_can_decide : bool;
}.

(** ** Validation *)

(** [validate_key]. *)
Definition validate_key (key : string) : result EnvironmentError string :=
  let key := trim key in
  if negb (is_empty key) && (str_len key <=? MAX_KEY_LEN)
     && match bytes key with c :: _ => is_ascii_lowercase c | [] => false end
     && all_bytes (fun c => is_ascii_lowercase c || is_ascii_digit c || Ascii.eqb c "-"%char) key
  then Ok key
  else Err (EnvInvalid
    "key must be 1 to 32 lowercase letters, digits or dashes, starting with a letter").

(** [validate_name]. *)
Definition validate_name (name : string) : result EnvironmentError string :=
  let name := trim name in
  if is_empty name || (MAX_NAME_LEN <? char_count name)
  then Err (EnvInvalid "name must be 1 to 64 characters")
  else Ok name.

(** [validate_track]. *)
Definition validate_track (store : ReleaseStore.t) (track : string) : result EnvironmentError string :=
  let track := trim track in
  match store with
  | ReleaseStore.GooglePlay =>
      if negb (is_empty track) && (str_len track <=? 128)
         && all_bytes (fun c => is_ascii_alphanumeric c || Ascii.eqb c "-"%char || Ascii.eqb c "_"%char
                                || Ascii.eqb c ":"%char) track
      then Ok track
      else Err (EnvInvalid "track must be internal, closed, open, production, or a custom track name")
  | ReleaseStore.AppStore =>
      if negb (is_empty track) && (str_len track <=? 256) then Ok track
      else Err (EnvInvalid
        "track must name the App Store track, such as app_store or a TestFlight group")
  end.

(** [validate_submit_for_review]. *)
Definition validate_submit_for_review (store : ReleaseStore.t) (track : string) (submit_for_review : bool)
    : result EnvironmentError unit :=
  if submit_for_review
     && (negb (bool_decide (store = ReleaseStore.AppStore)) || negb (String.eqb track APP_STORE_TRACK))
  then Err (EnvInvalid
    "submit_for_review applies only to App Store environments on the app_store track")
  else Ok tt.

(** [validate_policy]. *)
Definition validate_policy (p : ReleasePolicy) : result EnvironmentError unit :=
  match validate p with
  | Err message => Err (EnvInvalid (str_replace "policy." "rollout_policy." message))
  | Ok _ =>
      match approval p with
      | NoGate => Ok tt
      | _ => Err (EnvInvalid
          "rollout_policy.approval must be none; use approval_required on the environment")
      end
  end.

(** The loop of [normalize_approvers]. *)
Fixpoint approver_ids (seen l : list string) : result EnvironmentError (list string) :=
  match l with
  | [] => Ok seen
  | user_id :: rest =>
      let user_id := trim user_id in
      if is_empty user_id
      then Err (EnvInvalid "approvers.user_ids must not contain empty ids")
      else approver_ids (if bool_decide (user_id ∈ seen) then seen else seen ++ [user_id]) rest
  end.

(** [normalize_approvers]. *)
Definition normalize_approvers (input : EnvironmentApproversInput)
    : result EnvironmentError (option ApproverRole.t * list string) :=
  match approver_ids [] (eai_user_ids input) with
  | Err e => Err e
  | Ok user_ids =>
      if MAX_APPROVERS <? Z.of_nat (length user_ids)
      then Err (EnvInvalid "an environment can name at most 20 approvers")
      else Ok (match eai_role input, user_ids with
               | Some ApproverRole.Maintainer, [] => None
               | role, _ => role
               end, user_ids)
  end.

(** ** Who may decide *)

(** [enum ApprovalBasis]. *)
Inductive ApprovalBasis : Set :=
  | ByInstanceAdmin
  | ByMaintainer
  | ByApproverRole
  | ByNamedApprover.

(** [role_meets]. *)
Definition role_meets (role : ProjectRole.t) (min : ApproverRole.t) : bool :=
  match min, role with
  | ApproverRole.Maintainer, ProjectRole.Maintainer => true
  | ApproverRole.Developer, (ProjectRole.Maintainer | ProjectRole.Developer) => true
  | _, _ => false
  end.

(** [approvers_set]. *)
Definition approvers_set (approvers : EnvironmentApprovers) : bool :=
  bool_decide (is_Some (eas_role approvers)) || negb (bool_decide (length (eas_users approvers) = 0%nat)).

(** [approval_basis]. *)
Definition approval_basis (role : EffectiveProjectRole) (user_id : option string)
    (approvers : EnvironmentApprovers) : option ApprovalBasis :=
  match role with
  | InstanceAdmin => Some ByInstanceAdmin
  | NoRole => None
  | Member member_role =>
      if negb (approvers_set approvers) then
        if check_project_permission role ManageReleases then Some ByMaintainer else None
      else if match eas_role approvers with Some min => role_meets member_role min | None => false end
      then Some ByApproverRole
      else
        let named := match user_id with
                     | Some user_id => existsb (fun a => String.eqb (ea_user_id a) user_id) (eas_users approvers)
                     | None => false
                     end in
        if named && check_project_permission role OperateRelease then Some ByNamedApprover else None
  end.

(** [describe_approvers]. *)
Definition describe_approvers (approvers : EnvironmentApprovers) : string :=
  join ", or " (match eas_role approvers, eas_users approvers with
                | None, [] => ["maintainers"%string]
                | None, _ => []
                | Some ApproverRole.Maintainer, _ => ["maintainers"%string]
                | Some ApproverRole.Developer, _ => ["developers and maintainers"%string]
                end ++ map ea_email (eas_users approvers)).

(** ** Statements *)

(** A statement of this module. *)
Definition stmt {A} (f : db -> db * A) : ME EnvironmentError A := map_errM EnvDb (sql f).

Definition lift {A} (r : result EnvironmentError A) : ME EnvironmentError A :=
  match r with Ok a => mret a | Err e => throw e end.

(** [audit]. *)
Definition env_audit {E} (actor : ReleaseActor) (action resource_type id : string) : ME E unit :=
  write_audit_log (actor_user_id actor) action resource_type (Some id).

(** [check_approver_members]. *)
Definition check_approver_members (project_id : string) (user_ids : list string)
    : ME EnvironmentError unit :=
  for_each (fun user_id _ =>
    member ← stmt (fun d => (d,
      match members d !! (project_id, user_id), users d !! user_id with
      | Some role, Some u => Some (role, u_email u)
      | _, _ => None
      end));
    match member with
    | None => throw (EnvInvalid ("approvers.user_ids: " +:+ user_id +:+ " is not a member of this project"))
    | Some (role, email) =>
        if String.eqb role (ProjectRole.fmt ProjectRole.Viewer)
        then throw (EnvInvalid ("approvers.user_ids: " +:+ email
                                +:+ " is a viewer; approvers must be developers or maintainers"))
        else mret tt
    end) user_ids tt.

(** [forget_approver]. *)
Definition forget_approver (project_id user_id : string) : ME sqlx_error unit :=
  sql (fun d => (set_environment_approvers (filter (fun ea : string * string =>
      ~ (ea.2 = user_id /\ (pe_project_id <$> project_environments d !! ea.1) = Some project_id))
    (environment_approvers d)) d, tt)).

(** [store_approvers]; a second row for one user violates the key. *)
Definition store_approvers (environment_id : string) (user_ids : list string) : ME EnvironmentError unit :=
  _ ← stmt (fun d => (set_environment_approvers
        (filter (fun ea : string * string => ea.1 <> environment_id) (environment_approvers d)) d, tt));
  for_each (fun user_id _ =>
    fresh ← stmt (fun d =>
      if bool_decide ((environment_id, user_id) ∈ environment_approvers d) then (d, false)
      else (set_environment_approvers ({[(environment_id, user_id)]} ∪ environment_approvers d) d, true));
    guard fresh (EnvDb UniqueViolation)) user_ids tt.

Definition by_email : relation EnvironmentApprover := fun x y => String.leb (ea_email x) (ea_email y) = true.

#[global] Instance by_email_dec : RelDecision by_email.
Proof. unfold by_email. intros x y. apply _. Defined.

(** The query of [fill_approvers]. *)
Definition current_approvers (d : db) (environment_id project_id : string) : list EnvironmentApprover :=
  merge_sort by_email (omap (fun ea : string * string =>
    if String.eqb ea.1 environment_id then
      match users d !! ea.2, members d !! (project_id, ea.2) with
      | Some u, Some role =>
          if String.eqb role "maintainer" || String.eqb role "developer"
          then Some {| ea_user_id := ea.2; ea_email := u_email u |} else None
      | _, _ => None
      end
    else None) (elements (environment_approvers d))).

(** [load_environment]. *)
Definition load_environment (project_id environment_id : string) : ME EnvironmentError ProjectEnvironment :=
  row ← stmt (fun d => (d,
    match project_environments d !! environment_id with
    | Some e => if String.eqb (pe_project_id e) project_id then Some e else None
    | None => None
    end));
  e ← from_option (EnvNotFound "Environment not found") row;
  approvers ← stmt (fun d => (d, current_approvers d environment_id (pe_project_id e)));
  mret {| env_id := environment_id; env_row := e;
          env_approvers := {| eas_role := pe_approver_role e; eas_users := approvers |} |}.

(** [struct Viewer]. *)
Record Viewer := {
  vw_role : EffectiveProjectRole;
  vw_user_id : option string;
}.

(** [row_to_promotion]. *)
Definition row_to_promotion (viewer : Viewer) (approvers : option EnvironmentApprovers)
    (kv : string * promotion) : EnvironmentPromotion :=
  {| ep_id := kv.1; ep_row := kv.2;
     ep_can_decide := bool_decide (pm_state kv.2 = PromotionState.Pending)
       && match approvers with
          | Some approvers =>
              bool_decide (is_Some (approval_basis (vw_role viewer) (vw_user_id viewer) approvers))
          | None => false
          end |}.

(** [PROMOTION_SELECT]: the joined environment and source release are there. *)
Definition shown (d : db) (p : promotion) : bool :=
  bool_decide (is_Some (project_environments d !! pm_environment_id p))
  && bool_decide (is_Some (releases d !! pm_source_release_id p)).

(** [load_promotion_with_environment]. *)
Definition load_promotion_with_environment (project_id promotion_id : string) (viewer : Viewer)
    : ME EnvironmentError (EnvironmentPromotion * ProjectEnvironment) :=
  row ← stmt (fun d => (d,
    match environment_promotions d !! promotion_id with
    | Some p => if String.eqb (pm_project_id p) project_id && shown d p then Some p else None
    | None => None
    end));
  p ← from_option (EnvNotFound "Promotion not found") row;
  environment ← load_environment project_id (pm_environment_id p);
  mret (row_to_promotion viewer (Some (env_approvers environment)) (promotion_id, p), environment).

(** [load_promotion]. *)
Definition load_promotion (project_id promotion_id : string) (viewer : Viewer)
    : ME EnvironmentError EnvironmentPromotion :=
  loaded ← load_promotion_with_environment project_id promotion_id viewer;
  mret loaded.1.

(** [UPDATE environment_promotions SET <f> WHERE id = ? AND <p>]. *)
Definition update_promotion (id : string) (p : promotion -> bool) (f : promotion -> promotion) (d : db)
    : db * Z :=
  match environment_promotions d !! id with
  | Some r =>
      if p r then (set_environment_promotions (<[id := f r]> (environment_promotions d)) d, 1) else (d, 0)
  | None => (d, 0)
  end.

(** The rows these statements leave. *)
Definition failed_row (message : string) (now : Z) (p : promotion) : promotion :=
  PromotionRow (pm_project_id p) (pm_build_id p) (pm_environment_id p) (pm_source_release_id p)
    (pm_release_id p) PromotionState.Failed (pm_reason p) (pm_decision_reason p) (Some message)
    (pm_requested_by p) (pm_decided_by p) (pm_decided_at p) (pm_created_at p) now.

Definition decided_row (to : PromotionState.t) (decided_by reason : option string) (now : Z)
    (p : promotion) : promotion :=
  PromotionRow (pm_project_id p) (pm_build_id p) (pm_environment_id p) (pm_source_release_id p)
    (pm_release_id p) to (pm_reason p) reason (pm_error p)
    (pm_requested_by p) decided_by (Some now) (pm_created_at p) now.

Definition completed_row (release_id : string) (now : Z) (p : promotion) : promotion :=
  PromotionRow (pm_project_id p) (pm_build_id p) (pm_environment_id p) (pm_source_release_id p)
    (Some release_id) PromotionState.Completed (pm_reason p) (pm_decision_reason p) None
    (pm_requested_by p) (pm_decided_by p) (pm_decided_at p) (pm_created_at p) now.

(** [mark_failed]. *)
Definition mark_failed (promotion_id message : string) (now : Z) : ME sqlx_error unit :=
  _ ← sql (update_promotion promotion_id (fun _ => true) (failed_row message now));
  mret tt.

(** ** Environments *)

(** The rows of a project, as the statement of [create_environment] reads
    them: how many there are, and the position after the last. *)
Definition project_rows (project_id : string) (d : db) : list (string * environment) :=
  filter (fun kv : string * environment => pe_project_id kv.2 = project_id)
    (map_to_list (project_environments d)).

Definition next_position (project_id : string) (d : db) : Z :=
  foldr (fun (kv : string * environment) acc => Z.max (pe_position kv.2 + 1) acc) 0
    (project_rows project_id d).

(** [UNIQUE (project_id, env_key)] and [UNIQUE (project_id, store, track)],
    for a row [e] stored under [id]. *)
Definition clashes (id : string) (e : environment) (d : db) : bool :=
  existsb (fun kv : string * environment =>
      negb (String.eqb kv.1 id)
      && (String.eqb (pe_key kv.2) (pe_key e)
          || bool_decide (pe_store kv.2 = pe_store e) && String.eqb (pe_track kv.2) (pe_track e)))
    (project_rows (pe_project_id e) d).

(** [create_environment]; [id] is drawn.  Positions are never negative, and a
    position after [i64::MAX] is not an [i64] the query can return. *)
Definition create_environment (project_id : string) (actor : ReleaseActor)
    (request : CreateProjectEnvironmentRequest) (id : string) (now : Z)
    : ME EnvironmentError ProjectEnvironment :=
  key ← lift (validate_key (ce_key request));
  name ← lift (validate_name (ce_name request));
  track ← lift (validate_track (ce_store request) (ce_track request));
  let policy := default default_release_policy (ce_rollout_policy request) in
  _ ← lift (validate_policy policy);
  _ ← lift (validate_submit_for_review (ce_store request) track (ce_submit_for_review request));
  approvers ← match ce_approvers request with
              | Some approvers => lift (normalize_approvers approvers)
              | None => mret (None, [])
              end;
  _ ← transaction_with EnvDb
    (counted ← stmt (fun d => (d, (Z.of_nat (length (project_rows project_id d)), next_position project_id d)));
     _ ← guard (counted.2 <=? i64_max) (EnvDb OtherSqlError);
     _ ← guard (counted.1 <? MAX_ENVIRONMENTS)
           (EnvInvalid "a project can have at most 12 environments");
     _ ← check_approver_members project_id approvers.2;
     let row := EnvironmentRow project_id key name counted.2 (ce_store request) track
                  (ce_approval_required request) policy (ce_submit_for_review request) approvers.1
                  (actor_user_id actor) (actor_user_id actor) now now in
     inserted ← stmt (fun d =>
       if bool_decide (is_Some (project_environments d !! id)) || clashes id row d then (d, false)
       else (set_project_environments (<[id := row]> (project_environments d)) d, true));
     _ ← guard inserted (EnvConflict "environment_exists"
           "Another environment already uses this key, or this store and track");
     _ ← store_approvers id approvers.2;
     mret (Commit tt));
  environment ← load_environment project_id id;
  _ ← env_audit actor "environment_created" "project_environment" id;
  mret environment.

(** The transaction of [update_environment]; [row] is the updated row. *)
Definition write_environment (project_id environment_id : string)
    (approvers : option (option ApproverRole.t * list string)) (row : environment -> environment)
    : ME EnvironmentError unit :=
  transaction_with EnvDb
    (_ ← match approvers with
         | Some (_, user_ids) => check_approver_members project_id user_ids
         | None => mret tt
         end;
     updated ← stmt (fun d =>
       match project_environments d !! environment_id with
       | Some e =>
           if negb (String.eqb (pe_project_id e) project_id) then (d, true)
           else if clashes environment_id (row e) d then (d, false)
           else (set_project_environments (<[environment_id := row e]> (project_environments d)) d, true)
       | None => (d, true)
       end);
     _ ← guard updated (EnvConflict "environment_exists"
           "Another environment already uses this store and track");
     _ ← match approvers with
         | Some (_, user_ids) => store_approvers environment_id user_ids
         | None => mret tt
         end;
     mret (Commit tt)).

(** [update_environment]. *)
Definition update_environment (project_id environment_id : string) (actor : ReleaseActor)
    (request : UpdateProjectEnvironmentRequest) (now : Z) : ME EnvironmentError ProjectEnvironment :=
  current ← load_environment project_id environment_id;
  let row := env_row current in
  name ← match ue_name request with Some name => lift (validate_name name) | None => mret (pe_name row) end;
  track ← match ue_track request with
          | Some track => lift (validate_track (pe_store row) track)
          | None => mret (pe_track row)
          end;
  _ ← (if String.eqb track (pe_track row) then mret tt
       else
         has_releases ← stmt (fun d => (d,
           existsb (fun kv : string * release => bool_decide (rl_environment_id kv.2 = Some environment_id))
             (map_to_list (releases d))));
         guard (negb has_releases) (EnvInvalid (pe_name row +:+ " already has releases on the "
           +:+ pe_track row +:+ " track, so its track cannot change. Add a new environment for the "
           +:+ track +:+ " track instead.")));
  let policy := default (pe_policy row) (ue_rollout_policy request) in
  _ ← lift (validate_policy policy);
  let approval_required := default (pe_approval_required row) (ue_approval_required request) in
  let submit_for_review := default (pe_submit_for_review row) (ue_submit_for_review request) in
  _ ← lift (validate_submit_for_review (pe_store row) track submit_for_review);
  let position := default (pe_position row) (ue_position request) in
  _ ← guard (0 <=? position) (EnvInvalid "position must not be negative");
  approvers ← match ue_approvers request with
              | Some approvers => a ← lift (normalize_approvers approvers); mret (Some a)
              | None => mret None
              end;
  let approver_role := match approvers with Some (role, _) => role | None => eas_role (env_approvers current) end in
  _ ← write_environment project_id environment_id approvers (fun e =>
        EnvironmentRow (pe_project_id e) (pe_key e) name position (pe_store e) track
          approval_required policy submit_for_review approver_role (pe_created_by e)
          (actor_user_id actor) (pe_created_at e) now);
  environment ← load_environment project_id environment_id;
  _ ← env_audit actor "environment_updated" "project_environment" environment_id;
  mret environment.

Definition open_state (s : PromotionState.t) : bool :=
  match s with PromotionState.Pending | PromotionState.Promoting => true | _ => false end.

(** [DELETE FROM project_environments] with what references the row: its
    approvers and promotions go, its releases lose it. *)
Definition delete_environment_row (project_id environment_id : string) (d : db) : db :=
  match project_environments d !! environment_id with
  | Some e =>
      if String.eqb (pe_project_id e) project_id then
        set_project_environments (delete environment_id (project_environments d))
        (set_environment_approvers
          (filter (fun ea : string * string => ea.1 <> environment_id) (environment_approvers d))
        (set_environment_promotions
          (filter (fun kv : string * promotion => pm_environment_id kv.2 <> environment_id)
            (environment_promotions d))
        (set_releases ((fun r => if bool_decide (rl_environment_id r = Some environment_id)
                                 then set_rl_environment_id None r else r) <$> releases d) d)))
      else d
  | None => d
  end.

(** The loop body of [delete_environment]; [in_use] is [try_lock_owned]. *)
Definition close_promotion (in_use : string -> bool) (actor : ReleaseActor) (now : Z)
    (p : string * promotion) : ME EnvironmentError unit :=
  _ ← guard (negb (in_use (pm_build_id p.2))) (EnvConflict "promotion_in_progress"
        "A promotion into this environment is in progress; try again when it finishes");
  still ← stmt (fun d => (d, pm_state <$> environment_promotions d !! p.1));
  match still with
  | Some PromotionState.Pending =>
      _ ← stmt (update_promotion p.1 (fun r => bool_decide (pm_state r = PromotionState.Pending))
            (decided_row PromotionState.Rejected (actor_user_id actor) (Some ENVIRONMENT_DELETED) now));
      env_audit actor "promotion_rejected" "environment_promotion" p.1
  | Some PromotionState.Promoting =>
      _ ← map_errM EnvDb (mark_failed p.1 STALE_PROMOTING now);
      env_audit actor "promotion_failed" "environment_promotion" p.1
  | _ => mret tt
  end.

(** [delete_environment]. *)
Definition delete_environment (in_use : string -> bool) (project_id environment_id : string)
    (actor : ReleaseActor) (now : Z) : ME EnvironmentError unit :=
  _ ← load_environment project_id environment_id;
  open ← stmt (fun d => (d, filter (fun kv : string * promotion =>
      pm_environment_id kv.2 = environment_id /\ open_state (pm_state kv.2) = true)
    (map_to_list (environment_promotions d))));
  _ ← for_each (fun p _ => close_promotion in_use actor now p) open tt;
  _ ← stmt (fun d => (delete_environment_row project_id environment_id d, tt));
  env_audit actor "environment_deleted" "project_environment" environment_id.

(** Newest first, then by id. *)
Definition newest_first {A} (created : A -> Z) (id : A -> string) : relation A := fun x y =>
  created y < created x \/ created x = created y /\ String.leb (id x) (id y) = true.

#[global] Instance newest_first_dec {A} (created : A -> Z) (id : A -> string) :
  RelDecision (newest_first created id).
Proof. unfold newest_first. intros x y. apply _. Defined.

Definition newest_release : relation (string * release) :=
  newest_first (fun kv : string * release => rm_created_at (rl_meta kv.2)) fst.

#[global] Instance newest_release_dec : RelDecision newest_release.
Proof. unfold newest_release. apply _. Defined.

Definition newest_promotion : relation (string * promotion) :=
  newest_first (fun kv : string * promotion => pm_created_at kv.2) fst.

#[global] Instance newest_promotion_dec : RelDecision newest_promotion.
Proof. unfold newest_promotion. apply _. Defined.

Definition by_position : relation (string * environment) := fun x y =>
  pe_position x.2 < pe_position y.2 \/
  pe_position x.2 = pe_position y.2 /\ pe_created_at x.2 <= pe_created_at y.2.

#[global] Instance by_position_dec : RelDecision by_position.
Proof. unfold by_position. intros x y. apply _. Defined.

(** The newest release of an environment. *)
Definition latest_release (environment_id : string) (d : db) : option Release :=
  (fun kv : string * release => row_to_release d kv.1 kv.2) <$>
    head (merge_sort newest_release
      (filter (fun kv : string * release => rl_environment_id kv.2 = Some environment_id)
        (map_to_list (releases d)))).

(** The promotions shown with the environments: the open ones and the newest
    decided ones. *)
Definition listed_promotions (project_id : string) (d : db) : list (string * promotion) :=
  let rows := filter (fun kv : string * promotion => pm_project_id kv.2 = project_id /\ shown d kv.2 = true)
                (map_to_list (environment_promotions d)) in
  merge_sort newest_promotion
    (filter (fun kv : string * promotion => open_state (pm_state kv.2) = true) rows
     ++ take RECENT_PROMOTIONS (merge_sort newest_promotion
          (filter (fun kv : string * promotion => open_state (pm_state kv.2) = false) rows))).

(** [list_environments]: each environment with its newest release and what the
    viewer may do with it, and the promotions. *)
Definition list_environments (project_id : string) (viewer : Viewer)
    : ME EnvironmentError
        (list (ProjectEnvironment * option (Release * list ReleaseAction.t)) * list EnvironmentPromotion) :=
  rows ← stmt (fun d => (d, merge_sort by_position (project_rows project_id d)));
  environments ← for_each (fun (kv : string * environment) acc =>
      users ← stmt (fun d => (d, current_approvers d kv.1 (pe_project_id kv.2)));
      latest ← stmt (fun d => (d, latest_release kv.1 d));
      mret (acc ++ [({| env_id := kv.1; env_row := kv.2;
                        env_approvers := {| eas_role := pe_approver_role kv.2; eas_users := users |} |},
                     (fun r => (r, allowed_actions (vw_role viewer) (rel_row r))) <$> latest)]))
    rows [];
  promotions ← stmt (fun d => (d, listed_promotions project_id d));
  mret (environments, map (fun kv =>
    row_to_promotion viewer
      ((fun e : ProjectEnvironment * option (Release * list ReleaseAction.t) => env_approvers e.1) <$>
         find (fun e => String.eqb (env_id e.1) (pm_environment_id kv.2)) environments) kv) promotions).

(** ** Promotions *)

(** [initial_rollout]. *)
Definition initial_rollout (e : environment) : ReleaseState.t * f64 * option f64 :=
  let first := default f_1 (head (steps (pe_policy e))) in
  if String.eqb (pe_track e) "internal" || f64_le f_1 first
  then (ReleaseState.Complete, f_1, None)
  else (ReleaseState.Rolling, first, Some first).

(** On the store and shown to users. *)
Definition holds_version (s : ReleaseState.t) : bool :=
  match s with ReleaseState.Rolling | ReleaseState.Paused | ReleaseState.Complete => true | _ => false end.

(** The WHERE clause of [find_source_release]. *)
Definition promotable (build_id : string) (environment : ProjectEnvironment) (d : db)
    (kv : string * release) : bool :=
  String.eqb (rl_build_id kv.2) build_id
  && bool_decide (rl_store kv.2 = pe_store (env_row environment))
  && match pe_store (env_row environment) with
     | ReleaseStore.GooglePlay => bool_decide (is_Some (rm_version_code (rl_meta kv.2)))
     | ReleaseStore.AppStore =>
         negb (String.eqb (rl_track kv.2) "app_store")
         && match app_store_links d !! kv.1 with
            | Some link => bool_decide (is_Some (al_asc_build_id link))
            | None => false
            end
     end
  && holds_version (rl_state kv.2)
  && negb (bool_decide (rl_environment_id kv.2 = Some (env_id environment))).

(** [find_source_release]. *)
Definition find_source_release (build_id : string) (environment : ProjectEnvironment)
    : ME EnvironmentError (option Release) :=
  stmt (fun d => (d, (fun kv : string * release => row_to_release d kv.1 kv.2) <$>
    head (merge_sort newest_release
      (filter (fun kv => promotable build_id environment d kv = true) (map_to_list (releases d)))))).

(** The loop body of [ensure_not_promoted]. *)
Definition end_stale (environment : ProjectEnvironment) (skip_promotion : option string) (now : Z)
    (p : string * promotion) (_ : unit) : ME EnvironmentError unit :=
  if bool_decide (Some p.1 = skip_promotion) then mret tt
  else if bool_decide (pm_state p.2 = PromotionState.Pending) then
    throw (EnvConflict "promotion_pending" ("A promotion of this build into "
      +:+ pe_name (env_row environment) +:+ " is already waiting for approval"))
  else map_errM EnvDb (mark_failed p.1 STALE_PROMOTING now).

(** [ensure_not_promoted]. *)
Definition ensure_not_promoted (build_id : string) (environment : ProjectEnvironment)
    (skip_promotion : option string) (now : Z) : ME EnvironmentError unit :=
  still_there ← stmt (fun d => (d, bool_decide (is_Some (project_environments d !! env_id environment))));
  _ ← guard still_there (EnvNotFound "Environment not found");
  existing ← stmt (fun d => (d, existsb (fun kv : string * release =>
      String.eqb (rl_build_id kv.2) build_id
      && bool_decide (rl_environment_id kv.2 = Some (env_id environment))
      && negb (bool_decide (rl_state kv.2 = ReleaseState.Failed))) (map_to_list (releases d))));
  _ ← guard (negb existing) (EnvConflict "already_in_environment"
        ("This build already has a release in " +:+ pe_name (env_row environment)));
  open ← stmt (fun d => (d, filter (fun kv : string * promotion =>
      pm_build_id kv.2 = build_id /\ pm_environment_id kv.2 = env_id environment /\
      open_state (pm_state kv.2) = true) (map_to_list (environment_promotions d))));
  for_each (end_stale environment skip_promotion now) open tt.

(** [fail_interrupted_promotions]. *)
Definition fail_interrupted_promotions (now : Z) : ME sqlx_error Z :=
  ids ← sql (fun d => (d, map fst (filter (fun kv : string * promotion =>
      pm_state kv.2 = PromotionState.Promoting) (map_to_list (environment_promotions d)))));
  _ ← for_each (fun id _ =>
        _ ← mark_failed id INTERRUPTED_BY_RESTART now;
        env_audit System "promotion_failed" "environment_promotion" id) ids tt;
  mret (Z.of_nat (length ids)).

Section Promotion.
Context {client : ReleaseStoreClient}.

(** What [execute_promotion] asks the store for. *)
Definition promotion_target (e : environment) : PromotionTarget :=
  {| pt_track := pe_track e; pt_fraction := (initial_rollout e).2;
     pt_phased_release := match head (steps (pe_policy e)) with
                          | Some first => f64_lt first f_1
                          | None => false
                          end;
     pt_submit_for_review := pe_submit_for_review e |}.

(** The store call, and what a refusal leaves. *)
Definition promote_at_store (promotion_id : string) (e : environment) (source : Release)
    (actor : ReleaseActor) (now : Z) : ME EnvironmentError Promoted :=
  catch (call (StorePromoted (rel_id source) (promotion_target e)) (promote source (promotion_target e)))
    (fun answer =>
       match answer with
       | Ok promoted => mret promoted
       | Err error =>
           let message := match error with
                          | PromotionRefused _ message => message
                          | PromoteFailed error => short error
                          end in
           _ ← map_errM EnvDb (mark_failed promotion_id message now);
           _ ← env_audit actor "promotion_failed" "environment_promotion" promotion_id;
           throw (match error with
                  | PromotionRefused code _ => EnvConflict code message
                  | PromoteFailed error => EnvStore error
                  end)
       end).

(** The release a promotion records. *)
Definition promoted_release (environment : ProjectEnvironment) (source : Release) (promoted : Promoted)
    : NewRelease :=
  let m := rl_meta (rel_row source) in
  let start := default (initial_rollout (env_row environment)).1 (pd_start promoted) in
  {| nr_project_id := rm_project_id m; nr_build_id := rm_build_id m;
     nr_artifact_id := rm_artifact_id m; nr_store := rm_store m;
     nr_track := pe_track (env_row environment); nr_package_name := rm_package_name m;
     nr_version_name := rm_version_name m; nr_version_code := rm_version_code m;
     nr_state := start.1; nr_rollout_fraction := start.2; nr_policy := pe_policy (env_row environment);
     nr_environment_id := Some (env_id environment); nr_promoted_from_release_id := Some (rel_id source) |}.

(** The note in the release's history. *)
Definition promotion_note (source : Release) (reason : option string) (promoted : Promoted) : string :=
  let from := default ("the " +:+ rl_track (rel_row source) +:+ " track") (rel_environment_name source) in
  let note := "Promoted from " +:+ from +:+ " without a new build"
              +:+ match reason with Some reason => ": " +:+ reason | None => "" end in
  match pd_detail promoted with Some detail => note +:+ ". " +:+ detail | None => note end.

(** [record_promoted_link] ([app_store_publish.rs]). *)
Definition promoted_link_row (link : PromotedLink) (now : Z) : app_store_link :=
  AppStoreLink (pk_pipeline_id link) (pk_bundle_id link) (pk_version link) (pk_build_number link)
    (pk_config link) (pk_stage link) (Some (pk_asc_app_id link)) (Some (pk_asc_build_id link))
    (pk_asc_version_id link) None None None (now + pk_next_poll_in link) now now.

Definition record_promoted_link (release_id : string) (link : PromotedLink) (now : Z)
    : ME EnvironmentError unit :=
  fresh ← stmt (fun d =>
    match app_store_links d !! release_id with
    | Some _ => (d, false)
    | None => (set_app_store_links (<[release_id := promoted_link_row link now]> (app_store_links d)) d, true)
    end);
  guard fresh (EnvDb UniqueViolation).

(** The transaction of [execute_promotion]. *)
Definition record_promotion (promotion_id : string) (environment : ProjectEnvironment) (source : Release)
    (actor : ReleaseActor) (reason : option string) (promoted : Promoted) (new_id : string) (now : Z)
    : ME EnvironmentError (Release * option string) :=
  transaction_with EnvDb
    (created ← map_errM of_release_error (insert_release (promoted_release environment source promoted) actor
                 (Some (promotion_note source reason promoted)) new_id now);
     _ ← match pd_app_store_link promoted with
         | Some link => record_promoted_link (rel_id created.1) link now
         | None => mret tt
         end;
     _ ← stmt (update_promotion promotion_id (fun _ => true) (completed_row (rel_id created.1) now));
     mret (Commit created)).

(** Why a promotion the store made could not be recorded. *)
Definition unrecorded_message (environment : ProjectEnvironment) (source : Release) : string :=
  match rl_store (rel_row source) with
  | ReleaseStore.GooglePlay =>
      "Play now has version code " +:+ pretty (default 0 (rm_version_code (rl_meta (rel_row source))))
      +:+ " on the " +:+ pe_track (env_row environment)
      +:+ " track, but Oore could not record the release"
  | ReleaseStore.AppStore =>
      "App Store Connect now has this build in " +:+ pe_name (env_row environment)
      +:+ ", but Oore could not record the release"
  end.

(** [execute_promotion]; [new_id] is drawn. *)
Definition execute_promotion (promotion_id : string) (environment : ProjectEnvironment) (source : Release)
    (actor : ReleaseActor) (reason : option string) (new_id : string) (now : Z)
    : ME EnvironmentError Release :=
  promoted ← promote_at_store promotion_id (env_row environment) source actor now;
  created ← catch (record_promotion promotion_id environment source actor reason promoted new_id now)
    (fun recorded =>
       match recorded with
       | Ok created => mret created
       | Err error =>
           _ ← map_errM EnvDb (mark_failed promotion_id (unrecorded_message environment source) now);
           throw error
       end);
  release ← finish_create created actor now;
  _ ← env_audit actor "promotion_completed" "environment_promotion" promotion_id;
  mret release.

(** The row [request_promotion] inserts. *)
Definition requested_row (project_id : string) (environment : ProjectEnvironment) (source : Release)
    (request : CreatePromotionRequest) (actor : ReleaseActor) (now : Z) : promotion :=
  PromotionRow project_id (cp_build_id request) (env_id environment) (rel_id source) None
    (if pe_approval_required (env_row environment) then PromotionState.Pending else PromotionState.Promoting)
    (clean_reason (cp_reason request)) None None (actor_user_id actor) None None now now.

(** [INSERT INTO environment_promotions]. *)
Definition insert_promotion (id : string) (row : promotion) : ME EnvironmentError unit :=
  fresh ← stmt (fun d =>
    match environment_promotions d !! id with
    | Some _ => (d, false)
    | None => (set_environment_promotions (<[id := row]> (environment_promotions d)) d, true)
    end);
  guard fresh (EnvDb UniqueViolation).

(** [request_promotion] once the build may be promoted: the row, and without
    an approval rule the store change. *)
Definition start_promotion (project_id : string) (environment : ProjectEnvironment) (source : Release)
    (request : CreatePromotionRequest) (actor : ReleaseActor) (id new_id : string) (now : Z)
    : ME EnvironmentError unit :=
  let row := requested_row project_id environment source request actor now in
  _ ← insert_promotion id row;
  _ ← env_audit actor "promotion_requested" "environment_promotion" id;
  if bool_decide (pm_state row = PromotionState.Promoting) then
    _ ← execute_promotion id environment source actor (clean_reason (cp_reason request)) new_id now;
    mret tt
  else mret tt.

(** What [request_promotion] asks of the caller. *)
Definition may_request (role : EffectiveProjectRole) (e : environment) : bool :=
  check_project_permission role (if pe_approval_required e then OperateRelease else ManageReleases).

(** [request_promotion]; the two ids are drawn. *)
Definition request_promotion (project_id : string) (role : EffectiveProjectRole) (actor : ReleaseActor)
    (request : CreatePromotionRequest) (id new_id : string) (now : Z)
    : ME EnvironmentError EnvironmentPromotion :=
  environment ← load_environment project_id (cp_environment_id request);
  let e := env_row environment in
  _ ← guard (may_request role e) (EnvForbidden
        (if pe_approval_required e then "You do not have permission to promote builds in this project"
         else "Promoting into " +:+ pe_name e +:+ " takes the maintainer role. A maintainer can require approval on it so developers can ask."));
  status ← stmt (fun d => (d,
    match builds d !! cp_build_id request with
    | Some b => if String.eqb (b_project_id b) project_id then Some (b_status b) else None
    | None => None
    end));
  status ← from_option (EnvNotFound "Build not found") status;
  _ ← guard (bool_decide (status = BuildStatus.Succeeded))
        (EnvConflict "build_not_succeeded" "Only a succeeded build can be promoted");
  _ ← ensure_not_promoted (cp_build_id request) environment None now;
  source ← find_source_release (cp_build_id request) environment;
  source ← from_option (EnvConflict "no_source_release"
    (match pe_store e with
     | ReleaseStore.GooglePlay =>
         "This build has no live Google Play release to promote. Publish it to a track first."
     | ReleaseStore.AppStore =>
         "This build has no TestFlight release to promote. Upload it to TestFlight with Oore and wait until testers have it."
     end)) source;
  _ ← start_promotion project_id environment source request actor id new_id now;
  load_promotion project_id id {| vw_role := role; vw_user_id := actor_user_id actor |}.

(** The second look of [decide_promotion] before an approved promotion runs. *)
Definition check_before_promoting (promotion_id : string) (p : promotion) (environment : ProjectEnvironment)
    (now : Z) : ME EnvironmentError Release :=
  _ ← ensure_not_promoted (pm_build_id p) environment (Some promotion_id) now;
  source ← map_errM of_release_error (load_release (pm_source_release_id p));
  _ ← guard (holds_version (rl_state (rel_row source)))
        (EnvConflict "source_release_not_live" ("The release this promotion starts from is "
           +:+ ReleaseState.as_str (rl_state (rel_row source)) +:+ " now"));
  mret source.

(** The end of [decide_promotion] when it approves. *)
Definition promote_approved (promotion_id : string) (p : promotion) (environment : ProjectEnvironment)
    (actor : ReleaseActor) (reason : option string) (new_id : string) (now : Z) : ME EnvironmentError unit :=
  source ← catch (check_before_promoting promotion_id p environment now) (fun checked =>
    match checked with
    | Ok source => mret source
    | Err error =>
        let message := match error with
                       | EnvConflict _ message => message
                       | _ => "Oore could not check the build before promoting it"%string
                       end in
        _ ← map_errM EnvDb (mark_failed promotion_id message now);
        throw error
    end);
  _ ← execute_promotion promotion_id environment source actor
        (match reason with Some reason => Some reason | None => pm_reason p end) new_id now;
  mret tt.

(** [decide_promotion]. *)
Definition decide_promotion (project_id promotion_id : string) (role : EffectiveProjectRole)
    (actor : ReleaseActor) (approve : bool) (reason : option string) (new_id : string) (now : Z)
    : ME EnvironmentError EnvironmentPromotion :=
  let viewer := {| vw_role := role; vw_user_id := actor_user_id actor |} in
  _ ← guard (check_project_permission role OperateRelease)
        (EnvForbidden "You do not have permission to approve promotions in this project");
  loaded ← load_promotion_with_environment project_id promotion_id viewer;
  let p := ep_row loaded.1 in
  let environment := loaded.2 in
  _ ← guard (bool_decide (is_Some (approval_basis role (vw_user_id viewer) (env_approvers environment))))
        (EnvForbidden ("Only " +:+ describe_approvers (env_approvers environment)
           +:+ " can approve or reject promotions into " +:+ pe_name (env_row environment)));
  let reason := clean_reason reason in
  updated ← stmt (update_promotion promotion_id
    (fun r => bool_decide (pm_state r = PromotionState.Pending))
    (decided_row (if approve then PromotionState.Promoting else PromotionState.Rejected)
       (actor_user_id actor) reason now));
  _ ← guard (negb (updated =? 0))
        (EnvConflict "promotion_not_pending" "This promotion is not waiting for approval");
  requested_by ← stmt (fun d => (d, pm_requested_by <$> environment_promotions d !! promotion_id));
  _ ← from_option (EnvDb OtherSqlError) requested_by;
  _ ← env_audit actor (if approve then "promotion_approved" else "promotion_rejected")
        "environment_promotion" promotion_id;
  _ ← (if approve then promote_approved promotion_id p environment actor reason new_id now else mret tt);
  load_promotion project_id promotion_id viewer.

(** ** Handlers *)

(** [require_project_exists]. *)
Definition require_project_exists (project_id : string) : M unit :=
  exists_ ← map_errM environment_api (stmt (fun d => (d, bool_decide (is_Some (projects d !! project_id)))));
  guard exists_ (ApiErr 404 "not_found" "Project not found").

(** [role_with]. *)
Definition role_with (auth : SessionInfo) (project_id : string) (permission : ProjectPermission)
    : M EffectiveProjectRole :=
  role ← project_role auth project_id;
  _ ← require_project_permission role Read;
  _ ← require_project_exists project_id;
  _ ← require_project_permission role permission;
  mret role.

(** [list_project_environments]. *)
Definition list_project_environments (auth : SessionInfo) (project_id : string)
    : M (list (ProjectEnvironment * option (Release * list ReleaseAction.t)) * list EnvironmentPromotion) :=
  role ← role_with auth project_id Read;
  map_errM environment_api
    (list_environments project_id {| vw_role := role; vw_user_id := Some (user_id auth) |}).

(** [create_project_environment]. *)
Definition create_project_environment (auth : SessionInfo) (project_id : string)
    (request : CreateProjectEnvironmentRequest) (id : string) (now : Z) : M ProjectEnvironment :=
  _ ← role_with auth project_id ManageReleases;
  map_errM environment_api (create_environment project_id (user_actor auth) request id now).

(** [update_project_environment]. *)
Definition update_project_environment (auth : SessionInfo) (project_id environment_id : string)
    (request : UpdateProjectEnvironmentRequest) (now : Z) : M ProjectEnvironment :=
  _ ← role_with auth project_id ManageReleases;
  map_errM environment_api (update_environment project_id environment_id (user_actor auth) request now).

(** [delete_project_environment]. *)
Definition delete_project_environment (in_use : string -> bool) (auth : SessionInfo)
    (project_id environment_id : string) (now : Z) : M unit :=
  _ ← role_with auth project_id ManageReleases;
  map_errM environment_api (delete_environment in_use project_id environment_id (user_actor auth) now).

(** [promote_build]. *)
Definition promote_build (auth : SessionInfo) (project_id : string) (request : CreatePromotionRequest)
    (id new_id : string) (now : Z) : M EnvironmentPromotion :=
  role ← role_with auth project_id Read;
  map_errM environment_api (request_promotion project_id role (user_actor auth) request id new_id now).

(** [refuse_api_token]. *)
Definition refuse_api_token (source : AuthSource) : result EnvironmentError unit :=
  match source with
  | ApiToken => Err (EnvForbidden
      "API tokens cannot approve or reject promotions. Sign in to Oore to decide.")
  | Session => Ok tt
  end.

(** [decide]: [approve_promotion] with [true], [reject_promotion] with
    [false]. *)
Definition decide_handler (auth : SessionInfo) (project_id promotion_id : string) (reason : option string)
    (approve : bool) (new_id : string) (now : Z) : M EnvironmentPromotion :=
  role ← role_with auth project_id Read;
  _ ← map_errM environment_api (lift (refuse_api_token (auth_source auth)));
  map_errM environment_api
    (decide_promotion project_id promotion_id role (user_actor auth) approve reason new_id now).

End Promotion.
