(* ===== verification/AppStore.v ===== *)
(** * The App Store

    [crates/oored/src/app_store_publish.rs]: the settings of a pipeline, the
    release an upload is recorded as, the monitor that follows it at App Store
    Connect, the client that applies release controls and promotions there,
    and the router that is the daemon's store client; and from
    [pipeline_publish.rs] the Google Play settings and the report of an upload.

    Parameters: [answer], what App Store Connect answers to a call under given
    credentials, which may depend on all that left the daemon before;
    [decrypt], of the stored private key; the clock of the client; how errors of
    other crates read as text. *)

From S2P Require Import Prelude Contract RustStr Labels F64 Triggers Rollout Stores Db Access Builds Runners Creation Publishing Releases Environments.

Local Open Scope Z_scope.

(** What the App Store component takes from outside. *)
Class AppStoreOutside := {
  answer : AppleApiCredentials -> list effect -> forall c : AscCall, result string (reply c);
  decrypt : string -> result string string;
  describe_sql : sqlx_error -> string;
  describe_release : ReleaseError -> string;
  time_at : list effect -> Z;
}.

Section AppStore.
Context {outside : AppStoreOutside}.

(** ** Settings *)

Definition publish_store_error : api_error := store_error "Failed to load App Store publish settings".

Definition settings {A} (m : ME sqlx_error A) : M A := map_errM (fun _ => publish_store_error) m.

(** [ensure_pipeline_exists]. *)
Definition ensure_pipeline_exists (pipeline_id : string) : M unit :=
  row ← settings (sql (fun d => (d, pipelines d !! pipeline_id)));
  _ ← from_option (ApiErr 404 "not_found" "Pipeline not found") row;
  mret tt.

(** [struct PipelineAppStorePublishResponse], without the pipeline's ID and the
    time of the last change, which are only shown. *)
Record PipelineAppStorePublishResponse := {
  pas_config : AppStorePublishConfig;
  pas_has_api_key : bool;
  pas_app_store_export : bool;
}.

(** [build_response]. *)
Definition build_response (pipeline_id : string) : ME sqlx_error PipelineAppStorePublishResponse :=
  stored ← load_config pipeline_id;
  signing ← load_signing_key_row pipeline_id;
  mret {| pas_config := default default_app_store_config stored;
          pas_has_api_key := match signing with
                             | Some row => bool_decide (is_Some (sk_api_private_key_encrypted row))
                             | None => false
                             end;
          pas_app_store_export := match signing with Some row => app_store_export row | None => false end |}.

(** What publishing needs of the pipeline's signing. *)
Definition check_signing (signing : option SigningKeyRow) : result api_error unit :=
  match signing with
  | Some row =>
      if negb (sk_enabled row) then
        Err (ApiErr 400 "invalid_publish_config"
               "Turn on iOS signing for this pipeline before publishing to App Store Connect")
      else if negb (app_store_export row) then
        Err (ApiErr 400 "invalid_publish_config"
               "Set the iOS export method to App Store before publishing to App Store Connect")
      else if negb (bool_decide (is_Some (sk_api_private_key_encrypted row))) then
        Err (ApiErr 400 "invalid_publish_config"
               "Add an App Store Connect API key in iOS signing before publishing")
      else Ok tt
  | None =>
      Err (ApiErr 400 "invalid_publish_config"
             "Turn on iOS signing for this pipeline before publishing to App Store Connect")
  end.

Definition lift_api {A} (r : result api_error A) : M A :=
  match r with Ok a => mret a | Err e => throw e end.

(** [update_pipeline_app_store_publish]. *)
Definition update_pipeline_app_store_publish (auth : SessionInfo) (pipeline_id : string)
    (request : AppStorePublishConfig) : M PipelineAppStorePublishResponse :=
  _ ← require_pipeline_project_permission (user_id auth) (role auth) (auth_source auth) pipeline_id ManagePipelines;
  _ ← ensure_pipeline_exists pipeline_id;
  config ← lift_api (map_err (fun errors => ApiErr 400 "invalid_publish_config" (join "; " errors))
             (normalize_config request));
  _ ← (if as_enabled config then
         signing ← settings (load_signing_key_row pipeline_id);
         lift_api (check_signing signing)
       else mret tt);
  _ ← settings (sql (fun d => (set_app_store_targets (<[pipeline_id := config]> (app_store_targets d)) d, tt)));
  _ ← write_audit_log (Some (user_id auth)) "pipeline_app_store_publish_updated" "pipeline" (Some pipeline_id);
  settings (build_response pipeline_id).

(** The config as [update_pipeline_google_play_publish] trims it. *)
Definition trim_play_config (config : GooglePlayPublishConfig) : GooglePlayPublishConfig :=
  {| gp_enabled := gp_enabled config;
     gp_service_account_secret := trim (gp_service_account_secret config);
     gp_package_name := gp_package_name config;
     gp_track := trim (gp_track config);
     gp_rollout_percent := gp_rollout_percent config;
     gp_draft := gp_draft config;
     gp_release_notes := gp_release_notes config;
     gp_release_notes_locale := trim (gp_release_notes_locale config);
     gp_release_notes_dir := gp_release_notes_dir config;
     gp_upload_mapping := gp_upload_mapping config;
     gp_in_app_update_priority := gp_in_app_update_priority config;
     gp_rollout_policy := gp_rollout_policy config |}.

(** [google_play_response]: the settings, and whether the secret they name is
    visible; the last credentials check is left out. *)
Definition google_play_response (project_id pipeline_id : string)
    : M (option GooglePlayPublishConfig * bool) :=
  loaded ← map_errM (fun _ => store_error "Failed to load Google Play settings") (load_google_play pipeline_id);
  present ← match loaded with
            | Some config => map_errM (fun _ => store_error "Failed to check the service account secret")
                (secret_name_visible project_id (Some pipeline_id) (gp_service_account_secret config))
            | None => mret false
            end;
  mret (loaded, present).

(** [update_pipeline_google_play_publish]. *)
Definition update_pipeline_google_play_publish (auth : SessionInfo) (pipeline_id : string)
    (request : GooglePlayPublishConfig) : M (option GooglePlayPublishConfig * bool) :=
  project_id ← require_pipeline_project_permission (user_id auth) (role auth) (auth_source auth) pipeline_id
                 ManagePipelines;
  let config := trim_play_config request in
  _ ← match validate_google_play_publish_config config with
      | [] => mret tt
      | errors => throw (ApiErr 400 "invalid_publish_config" (join "; " errors))
      end;
  _ ← exec "Failed to save Google Play settings" (fun d =>
        (set_play_targets (<[pipeline_id := config]> (play_targets d)) d, tt));
  _ ← write_audit_log (Some (user_id auth)) "pipeline_google_play_publish_updated" "pipeline" (Some pipeline_id);
  google_play_response project_id pipeline_id.

(** ** Recording an upload *)

(** [find_build_release] of [releases.rs]. *)
Definition find_build_release (build_id : string) (store : ReleaseStore.t) : ME sqlx_error (option string) :=
  sql (fun d => (d, head (map fst (order_by (fun kv : string * release => rm_created_at (rl_meta kv.2))
    (List.filter (fun kv : string * release =>
         String.eqb (rl_build_id kv.2) build_id && bool_decide (rl_store kv.2 = store)
         && bool_decide (rl_promoted_from_release_id kv.2 = None))
      (map_to_list (releases d))))))).

(** The row of [insert_release_link]. *)
Definition upload_link (pipeline_id : string) (ipa : UploadedIpa) (config : AppStorePublishConfig) (now : Z)
    : app_store_link :=
  AppStoreLink pipeline_id (ui_bundle_id ipa) (ui_version ipa) (ui_build_number ipa) config
    Stage.AwaitingBuild None None None None None None now now now.

(** [insert_release_link]. *)
Definition insert_release_link (release_id : string) (link : app_store_link) : ME sqlx_error unit :=
  fresh ← sql (fun d =>
    match app_store_links d !! release_id with
    | Some _ => (d, false)
    | None => (set_app_store_links (<[release_id := link]> (app_store_links d)) d, true)
    end);
  guard fresh UniqueViolation.

(** The release an upload to App Store Connect is recorded as. *)
Definition uploaded_release (project_id build_id : string) (config : AppStorePublishConfig) (ipa : UploadedIpa)
    : NewRelease :=
  {| nr_project_id := project_id; nr_build_id := build_id; nr_artifact_id := Some (ui_artifact_id ipa);
     nr_store := ReleaseStore.AppStore; nr_track := settings_track config;
     nr_package_name := Some (ui_bundle_id ipa); nr_version_name := Some (ui_version ipa);
     nr_version_code := parse_i64 (ui_build_number ipa); nr_state := ReleaseState.Processing;
     nr_rollout_fraction := f_0; nr_policy := default_release_policy; nr_environment_id := None;
     nr_promoted_from_release_id := None |}.

(** [load_uploaded_ipa]. *)
Definition load_uploaded_ipa (build_id : string) : ME anyhow UploadedIpa :=
  ipa ← map_errM FromSql (find_uploaded_ipa build_id);
  from_option (FromStore "build has no App Store IPA artifact") ipa.

(** [record_upload]; [new_id] is drawn. *)
Definition record_upload (build_id : string) (reported : RunnerPublishResult) (new_id : string) (now : Z)
    : ME anyhow (option string) :=
  row ← map_errM FromSql (sql (fun d => (d, builds d !! build_id)));
  b ← from_option (FromSql OtherSqlError) row;
  saved ← map_errM FromSql (load_config (b_pipeline_id b));
  saved ← from_option (FromStore "pipeline has no App Store publish settings") saved;
  let config := uploaded_config saved reported in
  ipa ← load_uploaded_ipa build_id;
  created ← transaction_with FromSql
    (existing ← map_errM FromSql (find_build_release build_id ReleaseStore.AppStore);
     match existing with
     | Some _ => mret (Discard None)
     | None =>
         created ← map_errM FromRelease (insert_release (uploaded_release (b_project_id b) build_id config ipa)
           System (Some "Uploaded to App Store Connect; waiting for Apple to process the build"%string) new_id now);
         _ ← map_errM FromSql (insert_release_link (rel_id created.1)
               (upload_link (b_pipeline_id b) ipa config now));
         mret (Commit (Some created))
     end);
  match created with
  | Some created => release ← finish_create created System now; mret (Some (rel_id release))
  | None => mret None
  end.

(** The state and fraction of an upload to Google Play. *)
Definition play_start (result : RunnerPublishResult) : ReleaseState.t * f64 :=
  if String.eqb (pr_status result) "completed" then (ReleaseState.Complete, f_1)
  else if String.eqb (pr_status result) "draft" then (ReleaseState.Paused, f_0)
  else (ReleaseState.Rolling, default f_1 (pr_rollout_fraction result)).

(** The release an upload to Google Play is recorded as. *)
Definition play_release (project_id build_id : string) (policy : ReleasePolicy) (result : RunnerPublishResult)
    : NewRelease :=
  {| nr_project_id := project_id; nr_build_id := build_id; nr_artifact_id := None;
     nr_store := ReleaseStore.GooglePlay; nr_track := pr_track result;
     nr_package_name := Some (pr_package_name result); nr_version_name := pr_version_name result;
     nr_version_code := Some (pr_version_code result); nr_state := (play_start result).1;
     nr_rollout_fraction := (play_start result).2; nr_policy := policy; nr_environment_id := None;
     nr_promoted_from_release_id := None |}.

(** [record_play_release]. *)
Definition record_play_release (build_id pipeline_id : string) (result : RunnerPublishResult) (new_id : string)
    (now : Z) : ME anyhow (option string) :=
  row ← map_errM FromSql (sql (fun d => (d, builds d !! build_id)));
  b ← from_option (FromSql OtherSqlError) row;
  config ← map_errM FromSql (load_google_play pipeline_id);
  let policy := default default_release_policy (config ≫= gp_rollout_policy) in
  created ← transaction_with FromSql
    (existing ← map_errM FromSql (find_build_release build_id ReleaseStore.GooglePlay);
     match existing with
     | Some _ => mret (Discard None)
     | None =>
         created ← map_errM FromRelease (insert_release (play_release (b_project_id b) build_id policy result)
           System (Some "uploaded by the runner"%string) new_id now);
         mret (Commit (Some created))
     end);
  match created with
  | Some created => release ← finish_create created System now; mret (Some (rel_id release))
  | None => mret None
  end.

(** How an error reads. *)
Definition describe (e : anyhow) : string :=
  match e with
  | FromSql e => describe_sql e
  | FromStore message => message
  | FromRelease e => describe_release e
  end.

(** [report_job_publish_result]. *)
Definition report_job_publish_result (hash_token : string -> string) (auth : RunnerAuth) (runner_id job_id : string)
    (header : option string) (result : RunnerPublishResult) (new_id : string) (now : Z) : M unit :=
  _ ← guard (String.eqb (ra_runner_id auth) runner_id) runner_mismatch;
  pipeline_id ← require_active_job_signing_grant hash_token job_id runner_id header;
  catch (match pr_store result with
         | PublishStore.GooglePlay => record_play_release job_id pipeline_id result new_id now
         | PublishStore.AppStore => record_upload job_id result new_id now
         end)
    (fun recorded =>
       match recorded with
       | Ok (Some _) => write_audit_log None "store_upload_completed" "build" (Some job_id)
       | Ok None => mret tt
       | Err error =>
           _ ← write_audit_log None "store_upload_record_failed" "build" (Some job_id);
           throw (ApiErr 500 "release_record_failed"
             ("The store upload finished, but the release was not recorded: " +:+ describe error))
       end).

(** [now_unix], where no handler or monitor hands the time on. *)
Definition clock {E} : ME E Z := fun w => (w, Ok (time_at (w_published w))).

(** ** The monitor *)

(** A call to App Store Connect. *)
Definition ask (creds : AppleApiCredentials) (c : AscCall) : ME string (reply c) := fun w =>
  (World (w_db w) (w_faults w) (w_published w ++ [AppleAsked c]), answer creds (w_published w) c).

(** [struct LinkRow]: a link with the state and fraction of its release. *)
Record LinkRow := {
  lr_release_id : string;
  lr_link : app_store_link;
  lr_release_state : ReleaseState.t;
  lr_rollout_fraction : f64;
}.

Section Asking.
Variable creds : AppleApiCredentials.

(** The loops over the release notes keep going: the last error is a warning. *)
Definition set_notes (call : AppStoreReleaseNote -> AscCall) (notes : list AppStoreReleaseNote)
    : ME string (option string) :=
  for_each (fun note warning =>
    catch (_ ← ask creds (call note); mret tt) (fun r =>
      mret (match r with Ok _ => warning | Err error => Some error end))) notes None.

Definition suffix (notes_warning : option string) : string :=
  match notes_warning with Some warning => " (notes not set: " +:+ warning +:+ ")" | None => "" end.

(** The group a configured name stands for: the same name, or one that differs
    in case. *)
Definition find_group (groups : list AscBetaGroup) (name : string) : option AscBetaGroup :=
  match find (fun g => String.eqb (bg_name g) name) groups with
  | Some g => Some g
  | None => find (fun g => String.eqb (to_ascii_lowercase (bg_name g)) (to_ascii_lowercase name)) groups
  end.

(** [distribute_testflight]. *)
Definition distribute_testflight (app_id build_id : string) (beta : AscBetaDetail)
    (config : AppStorePublishConfig) (step : Step) : ME string Step :=
  notes_warning ← set_notes (fun n => SetBetaWhatsNew build_id (locale n) (whats_new n)) (as_release_notes config);
  groups ← ask creds (ListBetaGroups app_id);
  let selected := omap (find_group groups) (as_testflight_groups config) in
  let missing := List.filter (fun name => bool_decide (find_group groups name = None)) (as_testflight_groups config) in
  match missing with
  | _ :: _ =>
      mret (with_refusal TestflightGroupNotFound
        (with_failure ("TestFlight group not found: " +:+ join ", " missing) step))
  | [] =>
      let group_ids := map bg_id
        (List.filter (fun g => negb (bg_is_internal g && bg_has_access_to_all_builds g)) selected) in
      _ ← ask creds (AddBuildToGroups build_id group_ids);
      let names := join ", " (as_testflight_groups config) in
      if existsb (fun g => negb (bg_is_internal g)) selected then
        _ ← (if beta_review_already_submitted (bd_external beta) then mret tt
             else _ ← ask creds (SubmitForBetaReview build_id); mret tt);
        mret (with_transition ReleaseState.InReview None
          ("Added to " +:+ names +:+ "; waiting for TestFlight beta review" +:+ suffix notes_warning)
          (with_poll POLL_REVIEW_SECS (with_stage Stage.BetaReview step)))
      else
        mret (with_transition ReleaseState.Complete (Some f_1)
          ("Available in TestFlight to " +:+ names +:+ suffix notes_warning) (with_stage Stage.Done step))
  end.

(** [distribute_app_store]. *)
Definition distribute_app_store (app_id build_id : string) (link : app_store_link)
    (config : AppStorePublishConfig) (step : Step) : ME string Step :=
  found ← match al_asc_version_id link with
          | Some id => mret (id, step)
          | None => id ← ask creds (FindOrCreateVersion app_id (al_version link)); mret (id, with_version_id id step)
          end;
  let '(version_id, step) := found in
  _ ← ask creds (AttachBuildToVersion version_id build_id);
  notes_warning ← set_notes (fun n => SetVersionWhatsNew version_id (locale n) (whats_new n)) (as_release_notes config);
  _ ← (if as_phased_release config then _ ← ask creds (EnablePhasedRelease version_id); mret tt
       else _ ← ask creds (DisablePhasedRelease version_id); mret tt);
  let step := with_poll POLL_REVIEW_SECS (with_stage Stage.Review step) in
  if as_submit_for_review config then
    _ ← ask creds (SubmitForReview app_id version_id);
    mret (with_transition ReleaseState.InReview None
      ("Submitted version " +:+ al_version link +:+ " for App Store review" +:+ suffix notes_warning) step)
  else
    mret (with_transition ReleaseState.InReview None
      ("Build attached to version " +:+ al_version link +:+ "; submit it for review in App Store Connect"
       +:+ suffix notes_warning) step).

(** The stages of [advance]. *)
Definition advance_build (link : app_store_link) (app_id : string) (step : Step) (now : Z) : ME string Step :=
  found ← ask creds (FindBuild app_id (al_version link) (al_build_number link));
  match found with
  | None =>
      mret (if BUILD_DISCOVERY_TIMEOUT_SECS <? now - al_created_at link then
              with_failure ("App Store Connect did not list build " +:+ al_version link +:+ " ("
                +:+ al_build_number link +:+ ") within three hours") step
            else step)
  | Some build =>
      let step := with_build_id (ab_id build) step in
      match ab_processing build with
      | Processing => mret step
      | ProcessingFailed =>
          mret (with_failure "Apple could not process the build; check the email App Store Connect sent" step)
      | Valid =>
          _ ← (if bool_decide (ab_uses_non_exempt_encryption build = None) then
                 _ ← ask creds (SetExportCompliance (ab_id build) (as_uses_non_exempt_encryption (al_config link)));
                 mret tt
               else mret tt);
          mret (with_poll 0 (with_stage Stage.Distribute step))
      end
  end.

Definition no_build_id : string := "App Store build ID was not recorded".
Definition no_version_id : string := "App Store version ID was not recorded".

Definition advance_distribute (link : app_store_link) (app_id : string) (step : Step) (now : Z) : ME string Step :=
  build_id ← from_option no_build_id (al_asc_build_id link);
  beta ← ask creds (BetaDetail build_id);
  match beta_readiness beta (now - al_created_at link) with
  | BetaReady =>
      match as_destination (al_config link) with
      | AppStoreDestination.Testflight => distribute_testflight app_id build_id beta (al_config link) step
      | AppStoreDestination.AppStore => distribute_app_store app_id build_id link (al_config link) step
      end
  | BetaWait => mret step
  | BetaFailed reason => mret (with_failure reason step)
  end.

Definition advance_beta_review (link : app_store_link) (step : Step) : ME string Step :=
  build_id ← from_option no_build_id (al_asc_build_id link);
  let step := with_poll POLL_REVIEW_SECS step in
  beta ← ask creds (BetaDetail build_id);
  let step := with_status (bd_external beta) step in
  mret (match beta_review_outcome (bd_external beta) with
        | Some (state, reason) =>
            with_transition state (if bool_decide (state = ReleaseState.Complete) then Some f_1 else None) reason
              (with_stage Stage.Done step)
        | None => step
        end).

Definition advance_review (link : app_store_link) (step : Step) : ME string Step :=
  version_id ← from_option no_version_id (al_asc_version_id link);
  let step := with_poll POLL_REVIEW_SECS step in
  version_state ← ask creds (VersionState version_id);
  let step := with_status (Some version_state) step in
  mret (match review_outcome version_state with
        | Some (state, reason) =>
            let step := if bool_decide (state = ReleaseState.Failed) || bool_decide (state = ReleaseState.Halted)
                        then with_stage Stage.Done step else step in
            with_transition state None reason step
        | None => with_poll 0 (with_stage Stage.Live step)
        end).

Definition advance_live (link : app_store_link) (step : Step) : ME string Step :=
  version_id ← from_option no_version_id (al_asc_version_id link);
  let step := with_poll POLL_LIVE_SECS step in
  phased ← ask creds (PhasedRelease version_id);
  let '(state, fraction, reason) := live_outcome (ph_state <$> phased) (phased ≫= ph_current_day_number) in
  let step := if bool_decide (state = ReleaseState.Complete) then with_stage Stage.Done step else step in
  mret (with_transition state (Some fraction) reason step).

(** [advance]. *)
Definition advance (link : app_store_link) (now : Z) : ME string Step :=
  let step := step_wait POLL_PROCESSING_SECS in
  found ← match al_asc_app_id link with
          | Some id => mret (Some (id, step))
          | None =>
              app ← ask creds (FindAppId (al_bundle_id link));
              mret ((fun id => (id, with_app_id id step)) <$> app)
          end;
  match found with
  | None => mret (with_failure ("App Store Connect has no app with bundle ID " +:+ al_bundle_id link) step)
  | Some (app_id, step) =>
      match al_stage link with
      | Stage.AwaitingBuild => advance_build link app_id step now
      | Stage.Distribute => advance_distribute link app_id step now
      | Stage.BetaReview => advance_beta_review link step
      | Stage.Review => advance_review link step
      | Stage.Live => advance_live link step
      | Stage.Done => mret (step_wait POLL_LIVE_SECS)
      end
  end.

End Asking.

Section Monitor.
Context {client : ReleaseStoreClient}.

(** A change Apple already made. *)
Definition apple_made (to_state : ReleaseState.t) (to_fraction : option f64)
    (expect : option (ReleaseState.t * f64)) : ReleaseChange :=
  {| ch_to_state := to_state; ch_to_fraction := to_fraction;
     ch_audit_action := "app_store_release_updated"; ch_expect := expect; ch_from_store := true |}.

(** The fraction of one hop on the way to [target]. *)
Definition hop_fraction (target : ReleaseState.t) (target_fraction : option f64) (to_state : ReleaseState.t)
    : option f64 :=
  if bool_decide (to_state = ReleaseState.Rolling) && negb (bool_decide (target = ReleaseState.Rolling))
  then match target_fraction with Some f => Some f | None => Some f_1 end
  else target_fraction.

(** Apple only raises phased releases: a step down is not recorded. *)
Definition step_down (link : LinkRow) (to_state : ReleaseState.t) (fraction : option f64) : bool :=
  bool_decide (lr_release_state link = ReleaseState.Rolling) && bool_decide (to_state = ReleaseState.Rolling)
  && match fraction with Some f => f64_le f (lr_rollout_fraction link) | None => false end.

(** The loop of [apply_step]: whether a hop found the release changed. *)
Fixpoint hop (link : LinkRow) (target : ReleaseState.t) (target_fraction : option f64) (reason : string) (now : Z)
    (path : list ReleaseState.t) (expect : option (ReleaseState.t * f64)) : ME anyhow bool :=
  match path with
  | [] => mret false
  | to_state :: rest =>
      let fraction := hop_fraction target target_fraction to_state in
      if step_down link to_state fraction then hop link target target_fraction reason now rest expect
      else
        catch (transition_release (lr_release_id link) (apple_made to_state fraction expect) System (Some reason) now)
          (fun r =>
             match r with
             | Ok _ => hop link target target_fraction reason now rest None
             | Err (Conflict _) => mret true
             | Err error => throw (FromRelease error)
             end)
  end.

(** UPDATE app_store_release_links. *)
Definition update_link (release_id : string) (f : app_store_link -> app_store_link) (d : db) : db * unit :=
  match app_store_links d !! release_id with
  | Some l => (set_app_store_links (<[release_id := f l]> (app_store_links d)) d, tt)
  | None => (d, tt)
  end.

Definition or_else {A} (x y : option A) : option A := match x with Some a => Some a | None => y end.

(** The row a step leaves. *)
Definition stepped_link (stage : option Stage.t) (step : Step) (next_poll_at now : Z) (l : app_store_link)
    : app_store_link :=
  AppStoreLink (al_pipeline_id l) (al_bundle_id l) (al_version l) (al_build_number l) (al_config l)
    (default (al_stage l) stage) (or_else (sp_asc_app_id step) (al_asc_app_id l))
    (or_else (sp_asc_build_id step) (al_asc_build_id l)) (or_else (sp_asc_version_id step) (al_asc_version_id l))
    None None (or_else (sp_store_status step) (al_store_status l)) next_poll_at (al_created_at l) now.

(** [apply_step]. *)
Definition apply_step (link : LinkRow) (step : Step) (now : Z) : ME anyhow unit :=
  stale ← match sp_transition step with
          | Some (target, target_fraction, reason) =>
              if state_matches (lr_release_state link) (lr_rollout_fraction link) target target_fraction
              then mret false
              else hop link target target_fraction reason now (transition_path (lr_release_state link) target)
                     (Some (lr_release_state link, lr_rollout_fraction link))
          | None => mret false
          end;
  map_errM FromSql (sql (update_link (lr_release_id link)
    (stepped_link (if (stale : bool) then None else sp_stage step) step
       (now + (if stale then 0 else sp_next_poll_in step)) now))).

(** The row a failed poll leaves. *)
Definition failing_link (message : string) (now : Z) (l : app_store_link) : app_store_link :=
  AppStoreLink (al_pipeline_id l) (al_bundle_id l) (al_version l) (al_build_number l) (al_config l)
    (al_stage l) (al_asc_app_id l) (al_asc_build_id l) (al_asc_version_id l)
    (Some message) (or_else (al_failing_since l) (Some now)) (al_store_status l)
    (now + POLL_ERROR_SECS) (al_created_at l) now.

Definition done_link (now : Z) (l : app_store_link) : app_store_link :=
  AppStoreLink (al_pipeline_id l) (al_bundle_id l) (al_version l) (al_build_number l) (al_config l)
    Stage.Done (al_asc_app_id l) (al_asc_build_id l) (al_asc_version_id l)
    (al_last_error l) (al_failing_since l) (al_store_status l) (al_next_poll_at l) (al_created_at l) now.

(** [UPDATE ... RETURNING failing_since]. *)
Definition note_failure (release_id message : string) (now : Z) (d : db) : db * option Z :=
  match app_store_links d !! release_id with
  | Some l =>
      (set_app_store_links (<[release_id := failing_link message now l]> (app_store_links d)) d,
       al_failing_since (failing_link message now l))
  | None => (d, None)
  end.

(** [try_record_poll_error]. *)
Definition try_record_poll_error (release_id message : string) (now : Z) : ME anyhow unit :=
  failing_since ← map_errM FromSql (sql (note_failure release_id message now));
  if match failing_since with Some since => now - since <? GIVE_UP_AFTER_SECS | None => true end then mret tt
  else
    release ← map_errM FromRelease (load_release release_id);
    let reason := take_chars 500
      ("App Store Connect kept failing for 24 hours; last error: " +:+ message) in
    _ ← for_each (fun to_state _ =>
          _ ← map_errM FromRelease (transition_release release_id (apple_made to_state None None) System
                (Some reason) now);
          mret tt)
        (transition_path (rl_state (rel_row release)) ReleaseState.Failed) tt;
    map_errM FromSql (sql (update_link release_id (done_link now))).

(** [record_poll_error]: an error of it is only logged. *)
Definition record_poll_error (release_id message : string) (now : Z) : ME anyhow unit :=
  catch (try_record_poll_error release_id message now) (fun _ => mret tt).

(** [decrypt_credentials]. *)
Definition decrypt_credentials (row : SigningKeyRow) : result string (option AppleApiCredentials) :=
  match sk_api_key_id row, sk_api_issuer_id row, sk_api_private_key_encrypted row with
  | Some key_id, Some issuer_id, Some encrypted =>
      match decrypt encrypted with
      | Ok pem => Ok (Some {| ac_key_id := key_id; ac_issuer_id := issuer_id; ac_private_key_pem := pem |})
      | Err e => Err e
      end
  | _, _, _ => Ok None
  end.

(** [load_credentials] with its two messages. *)
Definition credentials_for (pipeline_id no_settings no_key : string) : ME string AppleApiCredentials :=
  row ← map_errM describe_sql (load_signing_key_row pipeline_id);
  row ← from_option no_settings row;
  match decrypt_credentials row with
  | Ok (Some creds) => mret creds
  | Ok None => throw no_key
  | Err e => throw e
  end.

Definition load_credentials (pipeline_id : string) : ME string AppleApiCredentials :=
  credentials_for pipeline_id "pipeline has no iOS signing settings" "pipeline has no App Store Connect API key".

(** [due_links]. *)
Definition due (now : Z) (d : db) (kv : string * app_store_link) : option LinkRow :=
  r ← releases d !! kv.1;
  if negb (bool_decide (al_stage kv.2 = Stage.Done))
     && negb (bool_decide (rl_state r = ReleaseState.Complete) || bool_decide (rl_state r = ReleaseState.Failed)
              || bool_decide (rl_state r = ReleaseState.Halted))
     && (al_next_poll_at kv.2 <=? now)
  then Some {| lr_release_id := kv.1; lr_link := kv.2; lr_release_state := rl_state r;
               lr_rollout_fraction := rl_rollout_fraction r |}
  else None.

Definition due_links (now : Z) (d : db) : list LinkRow :=
  take 50 (order_by (fun link => al_next_poll_at (lr_link link))
    (omap (due now d) (map_to_list (app_store_links d)))).

(** The link as the second round of a poll sees it. *)
Definition advanced_link (step : Step) (link : LinkRow) : LinkRow :=
  let l := lr_link link in
  {| lr_release_id := lr_release_id link;
     lr_link := AppStoreLink (al_pipeline_id l) (al_bundle_id l) (al_version l) (al_build_number l) (al_config l)
       (default (al_stage l) (sp_stage step)) (or_else (sp_asc_app_id step) (al_asc_app_id l))
       (or_else (sp_asc_build_id step) (al_asc_build_id l)) (or_else (sp_asc_version_id step) (al_asc_version_id l))
       (al_last_error l) (al_failing_since l) (al_store_status l) (al_next_poll_at l) (al_created_at l)
       (al_updated_at l);
     lr_release_state := lr_release_state link; lr_rollout_fraction := lr_rollout_fraction link |}.

(** The rounds of one link. *)
Fixpoint poll_link (creds : AppleApiCredentials) (rounds : nat) (link : LinkRow) (now : Z) : ME anyhow unit :=
  match rounds with
  | O => mret tt
  | S rounds =>
      catch (advance creds (lr_link link) now) (fun advanced =>
        match advanced with
        | Ok step =>
            catch (apply_step link step now) (fun applied =>
              match applied with
              | Err error => record_poll_error (lr_release_id link) (describe error) now
              | Ok _ =>
                  if sp_next_poll_in step =? 0 then poll_link creds rounds (advanced_link step link) now
                  else mret tt
              end)
        | Err error => record_poll_error (lr_release_id link) error now
        end)
  end.

(** [poll_releases]. *)
Definition poll_releases (now : Z) : ME anyhow unit :=
  catch (sql (fun d => (d, due_links now d))) (fun links =>
    match links with
    | Err _ => mret tt
    | Ok links =>
        for_each (fun link _ =>
          catch (load_credentials (al_pipeline_id (lr_link link))) (fun creds =>
            match creds with
            | Ok creds => poll_link creds 2 link now
            | Err error => record_poll_error (lr_release_id link) error now
            end)) links tt
    end).

End Monitor.

(** ** Release controls *)

(** The phased release state a control asks Apple for: [None] when there is
    nothing to ask. *)
Definition phased_target (change : StoreChange) : result string (option string) :=
  match change with
  | StoreRollout _ => Ok None
  | StorePause => Ok (Some "PAUSED"%string)
  | StoreResume _ => Ok (Some "ACTIVE"%string)
  | StoreComplete => Ok (Some "COMPLETE"%string)
  | StoreHalt => Err ("App Store releases cannot be halted from Oore; pause the phased release or "
                      +:+ "remove the version from sale in App Store Connect")
  end.

(** The row a control leaves: the monitor looks again at once. *)
Definition repolled_link (now : Z) (l : app_store_link) : app_store_link :=
  AppStoreLink (al_pipeline_id l) (al_bundle_id l) (al_version l) (al_build_number l) (al_config l)
    (al_stage l) (al_asc_app_id l) (al_asc_build_id l) (al_asc_version_id l) (al_last_error l)
    (al_failing_since l) (al_store_status l) now (al_created_at l) (al_updated_at l).

(** The version whose phased release a control may change. *)
Definition live_version (link : option app_store_link) : option (string * string) :=
  match link with
  | Some l =>
      match al_asc_version_id l with
      | Some version_id =>
          if bool_decide (al_stage l = Stage.Live) || bool_decide (al_stage l = Stage.Done)
          then Some (al_pipeline_id l, version_id) else None
      | None => None
      end
  | None => None
  end.

(** The phased release of [version_id] is brought to [target]. *)
Definition set_phased (creds : AppleApiCredentials) (release_id version_id target : string) : ME string unit :=
  phased ← ask creds (PhasedRelease version_id);
  match phased with
  | None =>
      if String.eqb target "COMPLETE" then mret tt
      else throw "This App Store version does not use phased release"%string
  | Some phased =>
      if String.eqb (ph_state phased) target || String.eqb (ph_state phased) "COMPLETE" then mret tt
      else
        _ ← ask creds (SetPhasedReleaseState (ph_id phased) target);
        now ← clock;
        map_errM describe_sql (sql (update_link release_id (repolled_link now)))
  end.

(** [AppStoreReleaseClient::apply_change]. *)
Definition app_store_apply_change (release : Release) (change : StoreChange) : ME string unit :=
  target ← match phased_target change with Ok target => mret target | Err message => throw message end;
  match target with
  | None => mret tt
  | Some target =>
      link ← map_errM describe_sql (sql (fun d => (d, app_store_links d !! rel_id release)));
      match live_version link with
      | None => mret tt
      | Some (pipeline_id, version_id) =>
          creds ← credentials_for pipeline_id "pipeline has no iOS signing settings"
                    "pipeline has no App Store Connect API key";
          set_phased creds (rel_id release) version_id target
      end
  end.

(** ** Promotion *)

(** [refused], [asc_failed]. *)
Definition refused {A} (code message : string) : ME PromoteError A := throw (PromotionRefused code message).

Definition asc_failed {A} (m : ME string A) : ME PromoteError A := map_errM PromoteFailed m.

(** [promotion_version]. *)
Definition promotion_version (creds : AppleApiCredentials) (app_id version : string) : ME PromoteError string :=
  existing ← asc_failed (ask creds (FindVersion app_id version));
  match existing with
  | Some existing =>
      let state := default "UNKNOWN"%string (av_state existing) in
      if version_is_editable state then mret (av_id existing)
      else refused "version_not_editable"
        ("App Store version " +:+ version +:+ " is " +:+ state
         +:+ " in App Store Connect, so no other build can be attached to it")
  | None =>
      editable ← asc_failed (ask creds (FindEditableVersion app_id));
      match editable with
      | Some editable => refused "version_mismatch"
          ("The editable App Store version is " +:+ default "unnamed"%string (av_version_string editable)
           +:+ ", but the build is " +:+ version +:+ ". Change the version in App Store Connect to " +:+ version
           +:+ ", then promote again.")
      | None => refused "no_editable_version"
          ("App Store Connect has no editable App Store version for this app. Create version " +:+ version
           +:+ " in App Store Connect, then promote again.")
      end
  end.

(** Another build's release holds the version. *)
Definition holds_asc_version (version_id build_id : string) (d : db) (kv : string * app_store_link) : bool :=
  bool_decide (al_asc_version_id kv.2 = Some version_id)
  && (bool_decide (al_stage kv.2 = Stage.Review) || bool_decide (al_stage kv.2 = Stage.Live))
  && match releases d !! kv.1 with
     | Some r => negb (bool_decide (rl_state r = ReleaseState.Failed)) && negb (String.eqb (rl_build_id r) build_id)
     | None => false
     end.

(** [ensure_version_free]. *)
Definition ensure_version_free (version_id build_id : string) : ME PromoteError unit :=
  held ← asc_failed (map_errM describe_sql (sql (fun d =>
    (d, snd <$> find (holds_asc_version version_id build_id d) (map_to_list (app_store_links d))))));
  match held with
  | Some l => refused "version_held_by_other_build"
      ("App Store version " +:+ al_version l +:+ " already has build " +:+ al_version l +:+ " ("
       +:+ al_build_number l +:+ ") attached, in review or releasing. Wait until that release finishes or fails, "
       +:+ "then promote again.")
  | None => mret tt
  end.

(** The settings a promotion distributes with. *)
Definition promoted_config (uploaded : AppStorePublishConfig) (target : PromotionTarget) : AppStorePublishConfig :=
  let d := default_app_store_config in
  if String.eqb (pt_track target) APP_STORE_TRACK then
    {| as_enabled := true; as_destination := AppStoreDestination.AppStore;
       as_testflight_groups := as_testflight_groups d; as_release_notes := as_release_notes d;
       as_submit_for_review := pt_submit_for_review target; as_phased_release := pt_phased_release target;
       as_uses_non_exempt_encryption := as_uses_non_exempt_encryption uploaded |}
  else
    {| as_enabled := true; as_destination := AppStoreDestination.Testflight;
       as_testflight_groups := track_groups (pt_track target); as_release_notes := as_release_notes d;
       as_submit_for_review := as_submit_for_review d; as_phased_release := as_phased_release d;
       as_uses_non_exempt_encryption := as_uses_non_exempt_encryption uploaded |}.

(** The link [promote_with] distributes: of the source, with the version to
    attach the build to. *)
Definition promoting_link (source : app_store_link) (version_id : option string) : app_store_link :=
  AppStoreLink (al_pipeline_id source) (al_bundle_id source) (al_version source) (al_build_number source)
    (al_config source) Stage.Distribute (al_asc_app_id source) (al_asc_build_id source) version_id
    None None None 0 0 0.

(** The promotion a distribution came to. *)
Definition promoted_as (source : app_store_link) (app_id build_id : string) (config : AppStorePublishConfig)
    (version_id : option string) (step : Step) : ME PromoteError Promoted :=
  match sp_transition step with
  | None => throw (PromoteFailed "App Store Connect distribution returned no outcome")
  | Some (state, fraction, detail) =>
      match sp_refusal step with
      | Some TestflightGroupNotFound => refused "testflight_group_not_found" detail
      | None =>
          if bool_decide (state = ReleaseState.Failed) then throw (PromoteFailed detail)
          else mret
            {| pd_start := Some (state, default f_0 fraction); pd_detail := Some detail;
               pd_app_store_link := Some
                 {| pk_pipeline_id := al_pipeline_id source; pk_bundle_id := al_bundle_id source;
                    pk_version := al_version source; pk_build_number := al_build_number source;
                    pk_config := config; pk_stage := default Stage.Done (sp_stage step);
                    pk_asc_app_id := app_id; pk_asc_build_id := build_id;
                    pk_asc_version_id := or_else (sp_asc_version_id step) version_id;
                    pk_next_poll_in := sp_next_poll_in step |} |}
      end
  end.

(** [promote_with]. *)
Definition promote_with (creds : AppleApiCredentials) (source : Release) (target : PromotionTarget)
    : ME PromoteError Promoted :=
  if String.eqb (rl_track (rel_row source)) APP_STORE_TRACK then
    refused "promotion_unsupported"
      "A release on the App Store cannot be promoted further; promote from a TestFlight release"
  else
    found ← asc_failed (map_errM describe_sql (sql (fun d => (d, app_store_links d !! rel_id source))));
    link ← from_option (PromotionRefused "no_source_release"
      "Oore did not upload this release to App Store Connect, so it cannot find its build there") found;
    build_id ← from_option (PromotionRefused "no_source_release"
      "App Store Connect has not listed this build yet; promote it once it is in TestFlight") (al_asc_build_id link);
    app_id ← match al_asc_app_id link with
             | Some id => mret id
             | None =>
                 found ← asc_failed (ask creds (FindAppId (al_bundle_id link)));
                 from_option (PromotionRefused "no_source_release"
                   ("App Store Connect has no app with bundle ID " +:+ al_bundle_id link)) found
             end;
    beta ← asc_failed (ask creds (BetaDetail build_id));
    _ ← guard (negb (testflight_expired beta)) (PromotionRefused "build_expired"
          ("Build " +:+ al_version link +:+ " (" +:+ al_build_number link
           +:+ ") has expired in TestFlight, so it can no longer be promoted. Upload a new build."));
    let config := promoted_config (al_config link) target in
    if String.eqb (pt_track target) APP_STORE_TRACK then
      version_id ← promotion_version creds app_id (al_version link);
      _ ← ensure_version_free version_id (rl_build_id (rel_row source));
      step ← asc_failed (distribute_app_store creds app_id build_id (promoting_link link (Some version_id)) config
               (step_wait 0));
      promoted_as link app_id build_id config (Some version_id) step
    else
      step ← asc_failed (distribute_testflight creds app_id build_id beta config (step_wait 0));
      promoted_as link app_id build_id config None step.

(** [AppStoreReleaseClient::promote]. *)
Definition app_store_promote (source : Release) (target : PromotionTarget) : ME PromoteError Promoted :=
  row ← asc_failed (map_errM describe_sql (sql (fun d => (d, builds d !! rl_build_id (rel_row source)))));
  b ← from_option (PromoteFailed "the release's build no longer exists") row;
  creds ← asc_failed (credentials_for (b_pipeline_id b) "the build's pipeline has no iOS signing settings"
            "the build's pipeline has no App Store Connect API key");
  promote_with creds source target.

(** [impl ReleaseStoreClient for StoreRouter]. *)
Definition store_router (other : ReleaseStoreClient) : ReleaseStoreClient :=
  let app_store (r : Release) := bool_decide (rl_store (rel_row r) = ReleaseStore.AppStore) in
  {| observe := fun r => if app_store r then mret None else observe r;
     apply_change := fun r c => if app_store r then app_store_apply_change r c else apply_change r c;
     crash_rate := fun r => if app_store r then mret None else crash_rate r;
     promote := fun r t => if app_store r then app_store_promote r t else promote r t |}.

End AppStore.
