(* ===== verification/Rollouts.v ===== *)
(** * What happens to a release

    Every committed change to a release and every change sent to a store, as
    the rules of one step relation; that each operation of [Releases.v] is a
    sequence of such steps, whatever statements and store calls fail; and what
    therefore holds of every release the daemon drives. *)

From stdpp Require Import relations.
From S2P Require Import Prelude Contract RustStr F64 Rollout Db Access Builds Runners Creation Releases Environments.

Local Open Scope Z_scope.

(** ** Statements that leave releases alone *)

(** The environments and the promotions into them. *)
Definition shelf (d : db) : gmap string environment * gmap string promotion :=
  (project_environments d, environment_promotions d).

(** The releases, their history, what left the daemon, and the environments. *)
Definition view (w : world) :=
  (releases (w_db w), release_history (w_db w), w_published w, shelf (w_db w)).

(** However [m] ends, releases are as they were and nothing left the daemon. *)
Definition calm {E A} (m : ME E A) : Prop := forall w w' r, m w = (w', r) -> view w' = view w.

Section Calm.
Context {E F A B : Type}.

Lemma calm_ret (a : A) : calm (mret a : ME E A).
Proof. by intros w w' r [= <- _]. Qed.

Lemma calm_throw (e : E) : calm (throw e : ME E A).
Proof. by intros w w' r [= <- _]. Qed.

Lemma calm_bind (m : ME E A) (k : A -> ME E B) : calm m -> (forall a, calm (k a)) -> calm (m ≫= k).
Proof.
  intros Hm Hk w w' r. unfold mbind, M_bind. destruct (m w) as [w1 [a|e]] eqn:E1.
  - intros H. by rewrite (Hk _ _ _ _ H), (Hm _ _ _ E1).
  - intros [= <- _]. by apply (Hm _ _ _ E1).
Qed.

Lemma calm_catch (m : ME E A) (k : result E A -> ME F B) :
  calm m -> (forall r, calm (k r)) -> calm (catch m k).
Proof.
  intros Hm Hk w w' r. unfold catch. destruct (m w) as [w1 x] eqn:E1.
  intros H. by rewrite (Hk _ _ _ _ H), (Hm _ _ _ E1).
Qed.

Lemma calm_map_err (g : E -> F) (m : ME E A) : calm m -> calm (map_errM g m).
Proof.
  intros Hm w w' r. unfold map_errM. destruct (m w) as [w1 x] eqn:E1. intros [= <- _]. by eapply Hm.
Qed.

Lemma calm_guard c (e : E) : calm (guard c e).
Proof. destruct c; by intros w w' r [= <- _]. Qed.

Lemma calm_from_option (e : E) (o : option A) : calm (from_option e o).
Proof. destruct o; by intros w w' r [= <- _]. Qed.

Lemma calm_sql (f : db -> db * A) :
  (forall d, releases (fst (f d)) = releases d /\ release_history (fst (f d)) = release_history d /\
     shelf (fst (f d)) = shelf d) ->
  calm (sql f).
Proof.
  intros Hf w w' r. unfold sql. specialize (Hf (w_db w)). unfold view.
  destruct (w_faults w) as [|[e|] fs], (f (w_db w)) as [d a]; cbn in *; intros [= <- _]; cbn;
    destruct Hf as (H1 & H2 & H3); congruence.
Qed.

(** A run whose first statement is calm: the whole is calm and fails, or the
    rest runs on the same releases. *)
Lemma calm_peel (m : ME E A) (k : A -> ME E B) w w' r :
  (m ≫= k) w = (w', r) -> calm m ->
  (view w' = view w /\ exists e, r = Err e) \/
  exists w1 a, m w = (w1, Ok a) /\ view w1 = view w /\ k a w1 = (w', r).
Proof.
  unfold mbind, M_bind. destruct (m w) as [w1 [a|e]] eqn:E1; intros H Hm.
  - right. exists w1, a. split_and!; [done|by eapply Hm|done].
  - simplify_eq. left. split; [by eapply Hm|eauto].
Qed.

End Calm.

Lemma calm_query {A} msg (q : db -> A) : calm (query msg q).
Proof. by apply calm_map_err, calm_sql. Qed.

Lemma calm_audit {E} actor action kind id : calm (write_audit_log actor action kind id : ME E unit).
Proof. apply calm_catch; [by apply calm_sql|intros; apply calm_ret]. Qed.

Lemma calm_load id : calm (load_release id).
Proof.
  apply calm_bind; [by apply calm_map_err, calm_sql|]. intros. apply calm_from_option.
Qed.

Lemma load_release_ok id w w' rel :
  load_release id w = (w', Ok rel) ->
  exists r, releases (w_db w) !! id = Some r /\ rel = row_to_release (w_db w) id r.
Proof.
  intros (w1 & row & H & Ho)%M_bind_ok. unfold map_errM in H.
  destruct (sql _ w) as [w2 [x|e]] eqn:E; [|done]. injection H as -> ->.
  apply sql_ok in E as [E _]. injection E as _ <-. apply from_option_Ok in Ho.
  destruct (releases (w_db w) !! id) as [r|]; [|done]. injection Ho as <-. eauto.
Qed.

Create HintDb calm.
#[export] Hint Resolve calm_ret calm_throw calm_bind calm_catch calm_map_err calm_guard calm_from_option
  calm_query calm_audit calm_load : calm.
#[export] Hint Extern 1 (calm (match ?x with _ => _ end)) => destruct x : calm.
#[export] Hint Extern 2 (calm (sql _)) => apply calm_sql; by intros : calm.
#[export] Hint Extern 2 (calm (resolve_effective_project_role _ _ _ _)) =>
  unfold resolve_effective_project_role : calm.
#[export] Hint Extern 2 (calm (require_project_permission _ _)) =>
  unfold require_project_permission : calm.
#[export] Hint Extern 2 (calm (project_role _ _)) => unfold project_role : calm.
#[export] Hint Extern 2 (calm (audit _ _ _)) => unfold audit : calm.

Lemma bind_split {E A B} (m : ME E A) (k : A -> ME E B) w w' r :
  (m ≫= k) w = (w', r) ->
  (exists w1 e, m w = (w1, Err e) /\ w' = w1 /\ r = Err e) \/
  exists w1 a, m w = (w1, Ok a) /\ k a w1 = (w', r).
Proof. unfold mbind, M_bind. destruct (m w) as [w1 [a|e]] eqn:E1; naive_solver. Qed.

(** Peel the next, calm, statement off the run [H]. *)
Ltac cpeel H w a Hm Hv :=
  apply calm_peel in H as [[? [? ->]]|(w & a & Hm & Hv & H)]; [| |by auto 12 with calm].

(** Read off equal views. *)
Ltac views :=
  unfold view, shelf in *;
  repeat match goal with
  | H : (_, _, _, _) = (_, _, _, _) |- _ => injection H; clear H; intros
  | H : (project_environments _, environment_promotions _) = (_, _) |- _ => injection H; clear H; intros
  end.

(** ** Steps *)

(** Only columns a monitor writes differ. *)
Definition same_rollout (r r' : release) : Prop :=
  rl_meta r' = rl_meta r /\ rl_state r' = rl_state r /\
  rl_rollout_fraction r' = rl_rollout_fraction r /\ rl_next_step_at r' = rl_next_step_at r /\
  rl_approved_at r' = rl_approved_at r /\ rl_environment_id r' = rl_environment_id r /\
  rl_promoted_from_release_id r' = rl_promoted_from_release_id r.

(** A move of [r] to [to] at [fraction]. *)
Record legal_change (r : release) (to : ReleaseState.t) (fraction : f64) : Prop := {
  lc_table : ReleaseState.can_transition_to (rl_state r) to = true;
  lc_valid : valid_fraction fraction = true;
  lc_raise : rl_state r = ReleaseState.Rolling -> to = ReleaseState.Rolling ->
    f64_le fraction (rl_rollout_fraction r) = false;
  lc_full : to = ReleaseState.Complete -> fraction = f_1;
}.

(** What the store may be sent for [r]. *)
Definition legal_call (r : release) (c : StoreChange) : Prop :=
  exists to fraction, legal_change r to fraction /\ store_change (rl_state r) to fraction = Some c /\
    (raising to = true -> awaiting_approval r = false).

(** The history entry of a move. *)
Definition move_entry (id : string) (r : release) (to : ReleaseState.t) (fraction : f64)
    (h : release_history_entry) : Prop :=
  rh_release_id h = id /\ rh_from_state h = Some (rl_state r) /\ rh_to_state h = to /\
  rh_from_fraction h = Some (rl_rollout_fraction r) /\ rh_to_fraction h = Some fraction.

(** An entry that records no move. *)
Definition note_entry (h : release_history_entry) : Prop :=
  rh_from_state h = Some (rh_to_state h) /\ is_Some (rh_from_fraction h) /\
  rh_from_fraction h = rh_to_fraction h.

(** A release as it is recorded. *)
Record fresh_release (r : release) (now : Z) : Prop := {
  fr_policy : validate (rl_policy r) = Ok tt;
  fr_fraction : valid_fraction (rl_rollout_fraction r) = true;
  fr_state : rl_state r <> ReleaseState.Halted /\ rl_state r <> ReleaseState.Failed;
  fr_unapproved : rl_approved_at r = None;
  fr_next : rl_next_step_at r = next_step_at r now;
}.

(** Every release of [build_id] in the environment failed. *)
Definition not_in_environment (build_id environment_id : string) (d : db) : Prop :=
  forall id r, releases d !! id = Some r -> rl_build_id r = build_id ->
    rl_environment_id r = Some environment_id -> rl_state r = ReleaseState.Failed.

(** No promotion of [build_id] into the environment is on its way. *)
Definition nothing_open (build_id environment_id : string) (d : db) : Prop :=
  forall id p, environment_promotions d !! id = Some p -> pm_build_id p = build_id ->
    pm_environment_id p = environment_id -> open_state (pm_state p) = false.

(** An environment as it may be stored. *)
Record environment_ok (e : environment) : Prop := {
  eo_policy : validate (pe_policy e) = Ok tt;
  eo_gate : approval (pe_policy e) = NoGate;
  eo_position : 0 <= pe_position e;
  eo_review : pe_submit_for_review e = true ->
    pe_store e = ReleaseStore.AppStore /\ pe_track e = APP_STORE_TRACK;
}.

(** What the store may be asked to promote: the source of a promotion under
    way, while it holds a version and its build is not in the environment. *)
Definition promote_ok (d : db) (source_id : string) (target : PromotionTarget) : Prop :=
  exists id p e r, environment_promotions d !! id = Some p /\ pm_state p = PromotionState.Promoting /\
    pm_source_release_id p = source_id /\ project_environments d !! pm_environment_id p = Some e /\
    releases d !! source_id = Some r /\ holds_version (rl_state r) = true /\
    not_in_environment (pm_build_id p) (pm_environment_id p) d /\ target = promotion_target e.

(** A promotion as it is requested. *)
Record requested (d : db) (p : promotion) (e : environment) (source : release) : Prop := {
  rq_environment : project_environments d !! pm_environment_id p = Some e;
  rq_project : pe_project_id e = pm_project_id p;
  rq_source : releases d !! pm_source_release_id p = Some source;
  rq_build : rl_build_id source = pm_build_id p;
  rq_store : rl_store source = pe_store e;
  rq_live : holds_version (rl_state source) = true;
  rq_state : pm_state p =
    if pe_approval_required e then PromotionState.Pending else PromotionState.Promoting;
  rq_unfinished : pm_release_id p = None;
  rq_undecided : pm_decided_at p = None;
  rq_new : not_in_environment (pm_build_id p) (pm_environment_id p) d;
  rq_alone : nothing_open (pm_build_id p) (pm_environment_id p) d;
}.

Inductive rstep : world -> world -> Prop :=
  | rs_other w w' l :
      releases (w_db w') = releases (w_db w) -> release_history (w_db w') = release_history (w_db w) ->
      w_published w' = w_published w ++ l -> Forall harmless l -> shelf (w_db w') = shelf (w_db w) ->
      rstep w w'
  | rs_touch w w' :
      (forall id, option_Forall2 same_rollout (releases (w_db w) !! id) (releases (w_db w') !! id)) ->
      release_history (w_db w') = release_history (w_db w) -> w_published w' = w_published w ->
      shelf (w_db w') = shelf (w_db w) -> rstep w w'
  | rs_call w w' id r c :
      releases (w_db w) !! id = Some r -> legal_call r c -> w_db w' = w_db w ->
      w_published w' = w_published w ++ [StoreApplied id c] -> rstep w w'
  | rs_insert w w' id r h now :
      releases (w_db w) !! id = None -> fresh_release r now ->
      rh_release_id h = id -> rh_from_state h = None -> rh_to_state h = rl_state r ->
      rh_to_fraction h = Some (rl_rollout_fraction r) ->
      releases (w_db w') = <[id := r]> (releases (w_db w)) ->
      release_history (w_db w') = release_history (w_db w) ++ [h] ->
      w_published w' = w_published w -> shelf (w_db w') = shelf (w_db w) -> rstep w w'
  | rs_move w w' id r to fraction h now :
      releases (w_db w) !! id = Some r -> legal_change r to fraction -> move_entry id r to fraction h ->
      releases (w_db w') = <[id := moved_row to fraction (next_step_at (stepped to fraction r) now) now r]>
        (releases (w_db w)) ->
      release_history (w_db w') = release_history (w_db w) ++ [h] ->
      w_published w' = w_published w -> shelf (w_db w') = shelf (w_db w) -> rstep w w'
  | rs_approve w w' id r h actor now :
      releases (w_db w) !! id = Some r -> awaiting_approval r = true -> note_entry h ->
      rh_release_id h = id ->
      releases (w_db w') = <[id := approved_row actor (approved_next_at r now) now r]> (releases (w_db w)) ->
      release_history (w_db w') = release_history (w_db w) ++ [h] ->
      w_published w' = w_published w -> shelf (w_db w') = shelf (w_db w) -> rstep w w'
  | rs_note w w' h :
      note_entry h -> is_Some (releases (w_db w) !! rh_release_id h) -> releases (w_db w') = releases (w_db w) ->
      release_history (w_db w') = release_history (w_db w) ++ [h] ->
      w_published w' = w_published w -> shelf (w_db w') = shelf (w_db w) -> rstep w w'
  | rs_environment w w' id e :
      environment_ok e -> clashes id e (w_db w) = false ->
      match project_environments (w_db w) !! id with
      | Some e0 => pe_project_id e = pe_project_id e0 /\ pe_key e = pe_key e0 /\ pe_store e = pe_store e0
      | None => Z.of_nat (length (project_rows (pe_project_id e) (w_db w))) < MAX_ENVIRONMENTS
      end ->
      view w' = (releases (w_db w), release_history (w_db w), w_published w,
        (<[id := e]> (project_environments (w_db w)), environment_promotions (w_db w))) -> rstep w w'
  | rs_drop w w' project_id id :
      view w' = view (World (delete_environment_row project_id id (w_db w)) [] (w_published w)) -> rstep w w'
  | rs_request w w' id p e source :
      environment_promotions (w_db w) !! id = None -> requested (w_db w) p e source ->
      view w' = (releases (w_db w), release_history (w_db w), w_published w,
        (project_environments (w_db w), <[id := p]> (environment_promotions (w_db w)))) -> rstep w w'
  | rs_decide w w' id p to decided_by reason now :
      environment_promotions (w_db w) !! id = Some p -> pm_state p = PromotionState.Pending ->
      to = PromotionState.Promoting \/ to = PromotionState.Rejected ->
      view w' = (releases (w_db w), release_history (w_db w), w_published w,
        (project_environments (w_db w),
         <[id := decided_row to decided_by reason now p]> (environment_promotions (w_db w)))) -> rstep w w'
  | rs_fail w w' id p message now :
      environment_promotions (w_db w) !! id = Some p -> pm_state p = PromotionState.Promoting ->
      view w' = (releases (w_db w), release_history (w_db w), w_published w,
        (project_environments (w_db w),
         <[id := failed_row message now p]> (environment_promotions (w_db w)))) -> rstep w w'
  | rs_promote w w' source_id target :
      promote_ok (w_db w) source_id target -> w_db w' = w_db w ->
      w_published w' = w_published w ++ [StorePromoted source_id target] -> rstep w w'
  | rs_complete w w' id p source release_id r h now :
      environment_promotions (w_db w) !! id = Some p -> pm_state p = PromotionState.Promoting ->
      releases (w_db w) !! pm_source_release_id p = Some source ->
      releases (w_db w) !! release_id = None -> fresh_release r now ->
      rl_build_id r = rl_build_id source -> rl_environment_id r = Some (pm_environment_id p) ->
      rl_promoted_from_release_id r = Some (pm_source_release_id p) ->
      rh_release_id h = release_id -> rh_from_state h = None -> rh_to_state h = rl_state r ->
      rh_to_fraction h = Some (rl_rollout_fraction r) ->
      view w' = (<[release_id := r]> (releases (w_db w)), release_history (w_db w) ++ [h], w_published w,
        (project_environments (w_db w),
         <[id := completed_row release_id now p]> (environment_promotions (w_db w)))) -> rstep w w'.

(** Every run of [m], however it ends, is a sequence of steps. *)
Definition RSteps {E A} (m : ME E A) : Prop := forall w w' r, m w = (w', r) -> rtc rstep w w'.

Lemma view_step w w' : view w' = view w -> rstep w w'.
Proof. intros H. views. eapply (rs_other _ _ []); unfold shelf; [done|done|by rewrite app_nil_r|done|congruence]. Qed.

Lemma calm_steps {E A} (m : ME E A) : calm m -> RSteps m.
Proof. intros Hm w w' r H. apply rtc_once, view_step. by eapply Hm. Qed.

Section RCombinators.
Context {E F A B : Type}.

Lemma rsteps_bind (m : ME E A) (k : A -> ME E B) :
  RSteps m -> (forall a, RSteps (k a)) -> RSteps (m ≫= k).
Proof.
  intros Hm Hk w w' r. unfold mbind, M_bind. destruct (m w) as [w1 [a|e]] eqn:E1; apply Hm in E1.
  - intros H%Hk. by etransitivity.
  - by intros [= <- _].
Qed.

Lemma rsteps_catch (m : ME E A) (k : result E A -> ME F B) :
  RSteps m -> (forall r, RSteps (k r)) -> RSteps (catch m k).
Proof.
  intros Hm Hk w w' r. unfold catch. destruct (m w) as [w1 x] eqn:E1. apply Hm in E1.
  intros H%Hk. by etransitivity.
Qed.

Lemma rsteps_map_err (g : E -> F) (m : ME E A) : RSteps m -> RSteps (map_errM g m).
Proof.
  intros Hm w w' r. unfold map_errM. destruct (m w) as [w1 x] eqn:E1. intros [= <- _]. by eapply Hm.
Qed.

Lemma rsteps_emit (e : effect) : harmless e -> RSteps (emit e : ME E unit).
Proof.
  intros He w w' r [= <- _]. apply rtc_once. eapply (rs_other _ _ [e]); [done..|by constructor|done].
Qed.

End RCombinators.

Lemma client_step w w' : client_run w w' -> rstep w w'.
Proof. intros [[links D] (l & P & Hl) _]. by eapply (rs_other _ _ l); rewrite ?D. Qed.

Lemma rsteps_client {E A} (m : ME E A) : client_op m -> RSteps m.
Proof. intros Hm w w' r H. apply rtc_once, client_step. by eapply Hm. Qed.

Lemma rsteps_call {E A} (e : effect) (m : ME E A) : harmless e -> client_op m -> RSteps (call e m).
Proof. intros He Hm. apply rsteps_bind; [by apply rsteps_emit|]. intros _. by apply rsteps_client. Qed.

Lemma rsteps_for_each {E A B} (f : A -> B -> ME E B) l :
  (forall x acc, RSteps (f x acc)) -> forall acc, RSteps (for_each f l acc).
Proof.
  intros Hf. induction l as [|x l IH]; intros acc; cbn; [apply calm_steps, calm_ret|].
  apply rsteps_bind; auto.
Qed.

Lemma rsteps_publish {E} rel kind actor reason now : RSteps (publish rel kind actor reason now : ME E unit).
Proof. by apply rsteps_emit. Qed.

(** Monitor columns. *)
Lemma rsteps_touch {E} (g : sqlx_error -> E) id f :
  (forall r, same_rollout r (f r)) -> RSteps (map_errM g (sql (update_release id (fun _ => true) f))).
Proof.
  intros Hf. apply rsteps_map_err. intros w w' [n|e] H.
  - apply sql_ok in H as [H Hp]. unfold update_release in H.
    destruct (releases (w_db w) !! id) as [r|] eqn:Er; injection H as Hd _; apply rtc_once.
    + apply rs_touch; [|by rewrite <- Hd|done|by rewrite <- Hd]. intros k. rewrite <- Hd. cbn.
      destruct (decide (k = id)) as [->|].
      * rewrite lookup_insert_eq, Er. by constructor.
      * rewrite lookup_insert_ne by done.
        destruct (releases (w_db w) !! k); constructor. by repeat split.
    + apply view_step. unfold view. by rewrite <- Hd, Hp.
  - apply sql_err in H as [H Hp]. apply rtc_once, view_step. unfold view. by rewrite H, Hp.
Qed.

(** ** Transactions *)

(** Nothing leaves the daemon. *)
Definition mute {E A} (m : ME E A) : Prop :=
  forall w w' r, m w = (w', r) -> w_published w' = w_published w.

Lemma mute_sql {A} (f : db -> db * A) : mute (sql f).
Proof. intros w w' [a|e]; [by intros [_ ?]%sql_ok|by intros [_ ?]%sql_err]. Qed.

Lemma mute_map_err {E F A} (g : E -> F) (m : ME E A) : mute m -> mute (map_errM g m).
Proof.
  intros Hm w w' r. unfold map_errM. destruct (m w) as [w1 x] eqn:E1. intros [= <- _]. by eapply Hm.
Qed.

Lemma mute_bind {E A B} (m : ME E A) (k : A -> ME E B) : mute m -> (forall a, mute (k a)) -> mute (m ≫= k).
Proof.
  intros Hm Hk w w' r. unfold mbind, M_bind. destruct (m w) as [w1 [a|e]] eqn:E1; apply Hm in E1.
  - intros H%Hk. congruence.
  - by intros [= <- _].
Qed.

Lemma mute_calm {E A} (m : ME E A) : calm m -> mute m.
Proof. intros Hm w w' r H. apply Hm in H. by injection H. Qed.

Lemma mute_transaction {E A} (on_err : sqlx_error -> E) (body : ME E (tx_end A)) :
  mute body -> mute (transaction_with on_err body).
Proof.
  intros Hb w w' r. unfold transaction_with.
  destruct ((map_errM on_err (sql (fun d => (d, tt))) ≫= fun _ => body) w) as [w1 r1] eqn:E1.
  apply (mute_bind _ (fun _ => body) (mute_map_err on_err _ (mute_sql _)) (fun _ => Hb)) in E1.
  destruct r1 as [[a|a|a]|e].
  - destruct (map_errM on_err _ w1) as [w2 [[]|e2]] eqn:E2;
      apply (mute_map_err on_err _ (mute_sql _)) in E2; intros [= <- _]; cbn; congruence.
  - destruct (map_errM on_err _ w1) as [w2 [[]|e2]] eqn:E2;
      apply (mute_map_err on_err _ (mute_sql _)) in E2; intros [= <- _]; cbn; congruence.
  - destruct (sql _ w1) as [w2 r2] eqn:E2. apply mute_sql in E2. intros [= <- _]. cbn. congruence.
  - intros [= <- _]. done.
Qed.

(** A transaction changes what its body commits, or nothing. *)
Lemma transaction_view {E A} (on_err : sqlx_error -> E) (body : ME E (tx_end A)) w w' r :
  mute body -> transaction_with on_err body w = (w', r) ->
  match r with
  | Ok a =>
      (exists w0 w1, view w0 = view w /\ body w0 = (w1, Ok (Commit a)) /\ view w' = view w1) \/
      view w' = view w
  | Err _ => view w' = view w
  end.
Proof.
  intros Hb H. pose proof (mute_transaction _ _ Hb _ _ _ H) as Hp. destruct r as [a|e].
  - apply transaction_with_ok in H as (w0 & w1 & Hd0 & Hp0 & Hp1 & [[H Hd]|[_ Hd]]).
    + left. exists w0, w1. unfold view. by rewrite Hd0, Hp0, Hd, Hp1.
    + right. unfold view. by rewrite Hd, Hp.
  - apply transaction_with_err in H. unfold view. by rewrite H, Hp.
Qed.

Lemma exec_row {E} (g : sqlx_error -> E) id p f w w' n :
  map_errM g (sql (update_release id p f)) w = (w', Ok n) ->
  w_published w' = w_published w /\ shelf (w_db w') = shelf (w_db w) /\
  release_history (w_db w') = release_history (w_db w) /\
  ((exists r, releases (w_db w) !! id = Some r /\ p r = true /\ n = 1 /\
      releases (w_db w') = <[id := f r]> (releases (w_db w))) \/
   n = 0 /\ releases (w_db w') = releases (w_db w) /\
     forall r, releases (w_db w) !! id = Some r -> p r = false).
Proof.
  unfold map_errM. destruct (sql _ w) as [w1 [x|e]] eqn:E1; [|done]. intros [= <- ->].
  apply sql_ok in E1 as [H Hp]. unfold update_release in H.
  destruct (releases (w_db w) !! id) as [r|] eqn:Er; [destruct (p r) eqn:Ep|];
    injection H as <- <-; (split_and!; [done|done|done|]); [eauto 10|right; split_and!; [done|done|]..];
    naive_solver.
Qed.

Lemma history_ok {E} (g : sqlx_error -> E) h w w' u :
  map_errM g (insert_history h) w = (w', Ok u) ->
  is_Some (releases (w_db w) !! rh_release_id h) /\ releases (w_db w') = releases (w_db w) /\
  release_history (w_db w') = release_history (w_db w) ++ [h] /\ w_published w' = w_published w /\
  shelf (w_db w') = shelf (w_db w).
Proof.
  unfold map_errM. destruct (insert_history h w) as [w1 [x|e]] eqn:E1; [|done]. intros [= <- _].
  unfold insert_history in E1. apply M_bind_ok in E1 as (w2 & known & [H Hp]%sql_ok & [Hk ->]%guard_ok).
  subst known. destruct (releases (w_db w) !! rh_release_id h); [|done]. injection H as <-. eauto.
Qed.

Lemma mute_guard {E} c (e : E) : mute (guard c e).
Proof. destruct c; by intros w w' r [= <- _]. Qed.

Lemma mute_history {E} (g : sqlx_error -> E) h : mute (map_errM g (insert_history h)).
Proof. apply mute_map_err, mute_bind; [apply mute_sql|]. intros. apply mute_guard. Qed.

(** An UPDATE of one row with its history entry, all or nothing. *)
Lemma recorded_view {E} (g : sqlx_error -> E) (refuse : E) id p f h w w' r :
  transaction_with g (updated ← map_errM g (sql (update_release id p f));
    if updated =? 0 then throw refuse
    else _ ← map_errM g (insert_history h); mret (Commit tt)) w = (w', r) ->
  match r with
  | Ok _ => exists row, releases (w_db w) !! id = Some row /\ p row = true /\
      view w' = (<[id := f row]> (releases (w_db w)), release_history (w_db w) ++ [h], w_published w, shelf (w_db w))
  | Err _ => view w' = view w
  end.
Proof.
  intros H. pose proof H as H'. apply transaction_view in H.
  - destruct r as [u|e]; [|done]. apply transaction_with_ok in H' as (w0 & w1 & Hd0 & Hp0 & Hp1 & H').
    assert (Hbody : forall x, (updated ← map_errM g (sql (update_release id p f));
      if updated =? 0 then throw refuse
      else _ ← map_errM g (insert_history h); mret (Commit tt)) w0 = (w1, Ok x) ->
      x = Commit tt /\ exists row, releases (w_db w0) !! id = Some row /\ p row = true /\
        view w1 = (<[id := f row]> (releases (w_db w0)), release_history (w_db w0) ++ [h],
          w_published w0, shelf (w_db w0))).
    { intros x (w2 & n & (Hp2 & Hsh2 & Hh2 & Hn)%exec_row & Hb)%M_bind_ok.
      destruct Hn as [(row & Hr & Hpr & -> & Hrel)|[-> _]]; [|done]. cbn in Hb.
      apply M_bind_ok in Hb as (w3 & [] & (_ & H31 & H32 & H33 & H34)%history_ok & [= -> <-]).
      split; [done|]. exists row. split_and!; [done|done|]. unfold view. congruence. }
    destruct H' as [[Hc Hd]|[[Hc|Hc] _]]; apply Hbody in Hc as [[=] (row & Hr & Hpr & Hv)].
    exists row. rewrite Hd0 in *. rewrite Hp0 in Hv. split_and!; [done|done|].
    rewrite <- Hv. unfold view. by rewrite Hd, Hp1.
  - apply mute_bind; [apply mute_map_err, mute_sql|]. intros n. destruct (n =? 0).
    + apply mute_calm, calm_throw.
    + apply mute_bind; [apply mute_history|]. intros _. apply mute_calm, calm_ret.
Qed.

(** ** Moving a release *)

(** The checks of [transition_release]. *)
Definition accepts (ch : ReleaseChange) (r : release) : bool :=
  let to := ch_to_state ch in
  let fraction := target_fraction ch r in
  as_expected (ch_expect ch) r && ReleaseState.can_transition_to (rl_state r) to
  && valid_fraction fraction
  && negb (bool_decide (rl_state r = ReleaseState.Rolling) && bool_decide (to = ReleaseState.Rolling)
           && f64_le fraction (rl_rollout_fraction r))
  && negb (negb (ch_from_store ch) && awaiting_approval r && live (rl_state r) && raising to).

(** What the store is sent first. *)
Definition sent (ch : ReleaseChange) (r : release) : option StoreChange :=
  if ch_from_store ch then None
  else store_change (rl_state r) (ch_to_state ch) (target_fraction ch r).

Lemma accepts_legal ch r : accepts ch r = true -> legal_change r (ch_to_state ch) (target_fraction ch r).
Proof.
  unfold accepts. rewrite !andb_true_iff, !negb_true_iff. intros [[[[_ Ht] Hv] Hr] _].
  split; [done|done| |unfold target_fraction; by intros ->].
  intros Hf Hto. rewrite Hf, Hto in Hr. by rewrite !bool_decide_true in Hr by done.
Qed.

Lemma sent_legal ch r c : accepts ch r = true -> sent ch r = Some c -> legal_call r c.
Proof.
  intros Ha Hs. exists (ch_to_state ch), (target_fraction ch r). unfold sent in Hs.
  destruct (ch_from_store ch) eqn:Ef; [done|]. split_and!; [by apply accepts_legal|done|].
  intros Hr. unfold accepts in Ha. rewrite !andb_true_iff, !negb_true_iff in Ha.
  destruct Ha as [_ Ha]. rewrite Ef, Hr in Ha. cbn in Ha. rewrite andb_true_r in Ha.
  destruct (awaiting_approval r); [|done]. cbn in Ha.
  destruct (rl_state r), (ch_to_state ch); done.
Qed.

(** The release after a change, and its history entry. *)
Definition changed_row (ch : ReleaseChange) (now : Z) (r : release) : release :=
  let to := ch_to_state ch in
  let fraction := target_fraction ch r in
  moved_row to fraction (next_step_at (stepped to fraction r) now) now r.

Definition change_entry (id : string) (ch : ReleaseChange) (actor : ReleaseActor) (reason : option string)
    (now : Z) (r : release) : release_history_entry :=
  HistoryEntry id (actor_user_id actor) (actor_email actor) (Some (rl_state r)) (ch_to_state ch)
    (Some (rl_rollout_fraction r)) (Some (target_fraction ch r)) (clean_reason reason) now.

(** Sent to the store, so far. *)
Definition asked (id : string) (ch : ReleaseChange) (r : release) (l : list effect) : list effect :=
  l ++ option_list (StoreApplied id <$> sent ch r).

Section Transition.
Context {client : ReleaseStoreClient} {laws : ReleaseStoreLaws}.

(** The store took the change, or was not asked. *)
Definition store_agrees (id : string) (ch : ReleaseChange) (w : world) (r : release) : Prop :=
  forall c, sent ch r = Some c -> exists w0 w1,
    view w0 = (releases (w_db w), release_history (w_db w), w_published w ++ [StoreApplied id c], shelf (w_db w)) /\
    apply_change (row_to_release (w_db w) id r) c w0 = (w1, Ok tt).

(** What the sending of [ch] leaves: the change, and what its client asked. *)
Definition asked_too (id : string) (ch : ReleaseChange) (r : release) (l l' : list effect) : Prop :=
  exists k, l' = asked id ch r l ++ k /\ Forall harmless k.

Lemma asked_too_same id ch r l : asked_too id ch r l (asked id ch r l).
Proof. exists []. by rewrite app_nil_r. Qed.

(** The sending itself. *)
Lemma sending_run id ch r rel w w' res :
  match sent ch r with
  | Some c => map_errM StoreRejected (call (StoreApplied id c) (apply_change rel c))
  | None => mret tt
  end w = (w', res) ->
  (exists links, w_db w' = set_app_store_links links (w_db w)) /\
  asked_too id ch r (w_published w) (w_published w') /\
  (res = Ok tt -> forall c, sent ch r = Some c -> exists w1,
     apply_change rel c (World (w_db w) (w_faults w) (w_published w ++ [StoreApplied id c])) = (w1, Ok tt)).
Proof.
  unfold asked_too, asked. destruct (sent ch r) as [c|].
  - unfold map_errM, call, mbind, M_bind. cbn. set (w0 := World _ _ _).
    destruct (apply_change rel c w0) as [w1 r1] eqn:E. intros [= <- <-].
    destruct (apply_law _ _ _ _ _ E) as [D (l & P & Hl) _]. split_and!; [done|by exists l|].
    intros Hr c' [= <-]. exists w1. by destruct r1 as [[]|]; simplify_eq/=.
  - intros [= <- <-]. split_and!; [exists (app_store_links (w_db w)); by destruct (w_db w)| |done].
    exists []. cbn. by rewrite !app_nil_r.
Qed.

Lemma publish_run {E} rel kind actor reason now w w' (r : result E unit) :
  publish rel kind actor reason now w = (w', r) ->
  r = Ok tt /\ w_db w' = w_db w /\ exists e, w_published w' = w_published w ++ [ReleaseChanged e] /\
    re_release_id e = rel_id rel /\ re_kind e = kind.
Proof. intros [= <- <-]. cbn. eauto 10. Qed.

Lemma audit_view {E} action id actor w w' (r : result E unit) :
  audit action id actor w = (w', r) -> r = Ok tt /\ view w' = view w.
Proof. intros H. split; [by apply audit_run in H as [-> _]|]. by eapply calm_audit. Qed.

(** What is announced once a change is recorded. *)
Definition announced (action id : string) (kind : ReleaseEventKind) (actor : ReleaseActor)
    (reason : option string) (now : Z) : ME ReleaseError Release :=
  release ← load_release id;
  _ ← audit action id actor;
  _ ← publish release kind actor reason now;
  mret release.

Lemma announced_run action id kind actor reason now w w' res :
  announced action id kind actor reason now w = (w', res) ->
  releases (w_db w') = releases (w_db w) /\ release_history (w_db w') = release_history (w_db w) /\
  shelf (w_db w') = shelf (w_db w) /\
  match res with
  | Ok rel => exists r e, releases (w_db w) !! id = Some r /\ rel_row rel = r /\ rel_id rel = id /\
      w_published w' = w_published w ++ [ReleaseChanged e] /\ re_release_id e = id /\ re_kind e = kind
  | Err _ => w_published w' = w_published w
  end.
Proof.
  unfold announced. intros H. cpeel H w1 rel H1 V1.
  { views. split_and!; congruence. }
  apply load_release_ok in H1 as (r & Hr & ->).
  unfold mbind, M_bind in H. destruct (audit _ _ _ w1) as [w2 r2] eqn:E2.
  apply audit_view in E2 as [-> V2]. destruct (publish _ _ _ _ _ w2) as [w3 r3] eqn:E3.
  apply publish_run in E3 as (-> & D3 & e & P3 & Hid & Hk). injection H as <- <-.
  views. split_and!; [congruence|congruence|congruence|]. exists r, e.
  split_and!; [done|done|done|congruence|done|done].
Qed.

Lemma transition_run id ch actor reason now w w' res :
  transition_release id ch actor reason now w = (w', res) ->
  (view w' = view w /\ exists e, res = Err e) \/
  exists r, releases (w_db w) !! id = Some r /\ accepts ch r = true /\
    ((exists e, res = Err e) /\ asked_too id ch r (w_published w) (w_published w') /\
       releases (w_db w') = releases (w_db w) /\ release_history (w_db w') = release_history (w_db w) /\
       shelf (w_db w') = shelf (w_db w) \/
     store_agrees id ch w r /\
       releases (w_db w') = <[id := changed_row ch now r]> (releases (w_db w)) /\
       release_history (w_db w') = release_history (w_db w) ++ [change_entry id ch actor reason now r] /\
       shelf (w_db w') = shelf (w_db w) /\
       match res with
       | Ok rel => rel_id rel = id /\ rel_row rel = changed_row ch now r /\
           exists l e, w_published w' = l ++ [ReleaseChanged e] /\ asked_too id ch r (w_published w) l /\
             re_release_id e = id /\ re_kind e = event_kind (rl_state r) (ch_to_state ch)
       | Err _ => asked_too id ch r (w_published w) (w_published w')
       end).
Proof.
  unfold transition_release. intros H.
  cpeel H w1 cur H1 V1; [left; eauto|]. apply load_release_ok in H1 as (r & Hr & ->). cbn [rel_row row_to_release] in H.
  cpeel H w2 u2 H2 V2; [left; split; [congruence|eauto]|]. apply guard_Ok in H2.
  cpeel H w3 u3 H3 V3; [left; split; [congruence|eauto]|]. apply guard_Ok in H3.
  cpeel H w4 u4 H4 V4; [left; split; [congruence|eauto]|]. apply guard_Ok in H4.
  cpeel H w5 u5 H5 V5; [left; split; [congruence|eauto]|]. apply guard_Ok in H5.
  cpeel H w6 u6 H6 V6; [left; split; [congruence|eauto]|]. apply guard_Ok in H6.
  assert (Ha : accepts ch r = true) by (unfold accepts; by rewrite H2, H3, H4, H5, H6).
  right. exists r. split_and!; [done|done|]. clear H2 H3 H4 H5 H6. fold (sent ch r) in H.
  assert (V : view w6 = view w) by congruence. clear V1 V2 V3 V4 V5 V6 w1 w2 w3 w4 w5 u2 u3 u4 u5 u6.
  apply bind_split in H as [(w7 & e & H7 & -> & ->)|(w7 & u7 & H7 & H)];
    apply sending_run in H7 as ([links D7] & P7 & Hag).
  - left. views. rewrite D7. split_and!; [eauto|cbn; congruence..].
  - destruct u7. specialize (Hag eq_refl).
    assert (Hs : store_agrees id ch w r).
    { intros c Hc. destruct (Hag c Hc) as [w1 H1]. eexists _, w1. split; [|exact H1].
      views. cbn. congruence. }
    clear Hag. assert (E7 : releases (w_db w7) = releases (w_db w) /\
      release_history (w_db w7) = release_history (w_db w) /\ shelf (w_db w7) = shelf (w_db w) /\
      asked_too id ch r (w_published w) (w_published w7)).
    { views. rewrite D7. split_and!; cbn; congruence. }
    destruct E7 as (R7 & S7 & Q7 & A7). clear D7 P7 V.
    apply bind_split in H as [(w8 & e & H8 & -> & ->)|(w8 & u8 & H8 & H)]; apply recorded_view in H8.
    + left. views. split_and!; [eauto|congruence..].
    + right. destruct H8 as (row & Hrow & _ & V8).
      assert (row = r) as -> by congruence.
      fold (announced (ch_audit_action ch) id (event_kind (rl_state r) (ch_to_state ch)) actor
              (clean_reason reason) now) in H.
      change (view w8 = (<[id := changed_row ch now r]> (releases (w_db w7)),
        release_history (w_db w7) ++ [change_entry id ch actor reason now r], w_published w7, shelf (w_db w7))) in V8.
      apply announced_run in H as (R9 & S9 & Q9 & H9). views.
      split_and!; [done|congruence..|].
      destruct res as [rel|e]; [|congruence].
      destruct H9 as (row & e & Hrow' & <- & Hid & P9 & He & Hk).
      assert (Hrow2 : releases (w_db w8) !! id = Some (changed_row ch now r)).
      { match goal with H : releases (w_db w8) = _ |- _ => rewrite H end. by rewrite lookup_insert_eq. }
      split_and!; [done|congruence|]. exists (w_published w8), e. split_and!; [done|congruence|done|done].
Qed.

(** The sending is a step, and so is what its client asked. *)
Lemma sending_steps id ch r w l :
  releases (w_db w) !! id = Some r -> accepts ch r = true -> asked_too id ch r (w_published w) l ->
  rtc rstep w (World (w_db w) (w_faults w) l).
Proof.
  intros Hr Ha (k & -> & Hk). unfold asked.
  transitivity (World (w_db w) (w_faults w) (asked id ch r (w_published w))).
  - unfold asked. destruct (sent ch r) as [c|] eqn:Es.
    + apply rtc_once. eapply rs_call; [done|by eapply sent_legal|done|done].
    + apply rtc_once, view_step. unfold view. cbn. by rewrite app_nil_r.
  - apply rtc_once. by eapply (rs_other _ _ k).
Qed.

Lemma rsteps_transition id ch actor reason now : RSteps (transition_release id ch actor reason now).
Proof.
  intros w w' res [[V _]|(r & Hr & Ha & H)]%transition_run; [by apply rtc_once, view_step|].
  destruct H as [(_ & A & R & Hh & Q)|(_ & R & Hh & Q & Hres)].
  { etransitivity; [exact (sending_steps _ _ _ _ _ Hr Ha A)|].
    apply rtc_once, view_step. unfold view. cbn. congruence. }
  assert (Hmove : forall l, asked_too id ch r (w_published w) l -> rtc rstep w (World (w_db w') (w_faults w) l)).
  { intros l A. etransitivity; [exact (sending_steps _ _ _ _ _ Hr Ha A)|]. apply rtc_once.
    eapply (rs_move _ _ id r (ch_to_state ch) (target_fraction ch r) _ now);
      [done|by apply accepts_legal| |done..]. by repeat split. }
  destruct res as [rel|e].
  - destruct Hres as (_ & _ & l & e & P & A & _). etransitivity; [exact (Hmove l A)|]. apply rtc_once.
    eapply (rs_other _ _ [ReleaseChanged e]); [done..|by repeat constructor|done].
  - etransitivity; [exact (Hmove _ Hres)|]. by apply rtc_once, view_step.
Qed.

Lemma rsteps_approve id actor reason now : RSteps (approve_release id actor reason now).
Proof.
  intros w w' res H. unfold approve_release in H.
  cpeel H w1 cur H1 V1; [by apply rtc_once, view_step|]. apply load_release_ok in H1 as (r & Hr & ->).
  cpeel H w2 u2 H2 V2; [apply rtc_once, view_step; congruence|]. apply guard_Ok in H2.
  cbn [rel_row row_to_release rel_awaiting_approval] in *.
  apply bind_split in H as [(w3 & e & H3 & -> & ->)|(w3 & u3 & H3 & H)]; apply recorded_view in H3.
  { apply rtc_once, view_step. congruence. }
  destruct H3 as (row & Hrow & _ & V3). views. assert (row = r) as -> by congruence.
  pose (w4 := World (w_db w3) (w_faults w) (w_published w)). transitivity w4.
  - apply rtc_once. eapply (rs_approve w w4 id r); [done|done| | | | |done|]; unfold shelf; cbn.
    3: { match goal with H : releases (w_db w3) = _ |- _ => rewrite H end. f_equal. congruence. }
    3: { match goal with H : release_history (w_db w3) = _ |- _ => rewrite H end. f_equal. congruence. }
    3: congruence.
    all: by repeat split.
  - fold (announced "release_approved" id Approved actor (clean_reason reason) now) in H.
    apply announced_run in H as (Ran & San & Qan & Han). apply rtc_once. destruct res as [rel|e].
    + destruct Han as (_ & e & _ & _ & _ & P & _). eapply (rs_other _ _ [ReleaseChanged e]); cbn;
        [congruence..|by repeat constructor|congruence].
    + apply view_step. unfold view. cbn. congruence.
Qed.

Lemma rsteps_note release reason now : RSteps (note_rollout_hold release reason now).
Proof.
  intros w w' res H. unfold note_rollout_hold in H. set (h := HistoryEntry _ _ _ _ _ _ _ _ _) in H.
  apply transaction_view in H.
  - destruct res as [u|e]; [|by apply rtc_once, view_step].
    destruct H as [(w0 & w1 & V0 & H & V')|V']; [|by apply rtc_once, view_step].
    apply M_bind_ok in H as (w2 & [] & (H0 & H1 & H2 & H3 & H4)%history_ok & [= -> <-]). views.
    apply rtc_once. apply (rs_note _ _ h); [by repeat split|unfold shelf; congruence..].
  - apply mute_bind; [apply mute_history|]. intros _. apply mute_calm, calm_ret.
Qed.

(** Decompose an operation into calm statements, calls and the steps above. *)
Ltac rstep_tac :=
  lazymatch goal with
  | |- RSteps (transition_release _ _ _ _ _) => apply rsteps_transition
  | |- RSteps (approve_release _ _ _ _) => apply rsteps_approve
  | |- RSteps (note_rollout_hold _ _ _) => apply rsteps_note
  | |- RSteps (map_errM _ (sql (update_release _ _ _))) =>
      apply rsteps_touch; intros; by repeat split
  | |- RSteps (call _ _) =>
      by apply rsteps_call; [|auto using observe_law, crash_rate_law]
  | |- RSteps (publish _ _ _ _ _) => apply rsteps_publish
  | |- RSteps (for_each _ _ _) => apply rsteps_for_each
  | |- RSteps (catch _ _) => apply rsteps_catch
  | |- RSteps (map_errM _ _) => apply rsteps_map_err
  | |- RSteps (_ ≫= _) => apply rsteps_bind
  | |- forall _, _ => intros
  | |- RSteps (match _ with _ => _ end) => case_match
  | |- RSteps _ => apply calm_steps; by auto 12 with calm
  end.

Lemma rsteps_sync release now : RSteps (sync_release_with_store release now).
Proof. unfold sync_release_with_store. repeat rstep_tac. Qed.

Lemma rsteps_tick now release : RSteps (tick_release now release).
Proof.
  unfold tick_release, check_health, best_effort.
  repeat first [apply rsteps_sync | rstep_tac].
Qed.

Lemma rsteps_rollout_tick now batch : RSteps (run_rollout_tick now batch).
Proof. unfold run_rollout_tick. repeat first [apply rsteps_tick | rstep_tac]. Qed.

Lemma rsteps_action auth id action req now : RSteps (release_action auth id action req now).
Proof. unfold release_action. repeat first [apply rsteps_sync | rstep_tac]. Qed.


(** ** Recording a release *)

(** The row and the entry a release starts with. *)
Definition first_row (input : NewRelease) (actor : ReleaseActor) (env : option string) (now : Z) : release :=
  let r := new_release_row input actor env now in set_rl_next_step_at (next_step_at r now) r.

Definition first_entry (id : string) (input : NewRelease) (actor : ReleaseActor) (reason : option string)
    (now : Z) : release_history_entry :=
  HistoryEntry id (actor_user_id actor) (actor_email actor) None (nr_state input) None
    (Some (nr_rollout_fraction input)) (clean_reason reason) now.

(** What [insert_release] checks. *)
Definition input_ok (input : NewRelease) : Prop :=
  validate (nr_policy input) = Ok tt /\ valid_fraction (nr_rollout_fraction input) = true /\
  is_empty (trim (nr_track input)) = false /\
  nr_state input <> ReleaseState.Halted /\ nr_state input <> ReleaseState.Failed.

Lemma first_row_fresh input actor env now : input_ok input -> fresh_release (first_row input actor env now) now.
Proof. intros (Hp & Hf & _ & Hs). by split. Qed.

Lemma insert_release_ok input actor reason id now w w' rel rs :
  insert_release input actor reason id now w = (w', Ok (rel, rs)) ->
  input_ok input /\ releases (w_db w) !! id = None /\
  exists env, (forall e, nr_environment_id input = Some e -> env = Some e) /\
    view w' = (<[id := first_row input actor env now]> (releases (w_db w)),
               release_history (w_db w) ++ [first_entry id input actor reason now], w_published w,
               shelf (w_db w)) /\
    rel_id rel = id /\ rel_row rel = first_row input actor env now.
Proof.
  intros H. unfold insert_release in H.
  apply M_bind_ok in H as (w1 & u1 & H1 & H).
  assert (Hp : validate (nr_policy input) = Ok tt /\ w1 = w).
  { destruct (validate _) as [[]|]; [|done]. by injection H1 as ->. }
  destruct Hp as [Hp ->].
  apply M_bind_ok in H as (w2 & u2 & [Hf ->]%guard_ok & H).
  apply M_bind_ok in H as (w3 & u3 & [Ht ->]%guard_ok & H).
  apply M_bind_ok in H as (w4 & u4 & [Hs ->]%guard_ok & H).
  apply M_bind_ok in H as (w5 & env & H5 & H).
  assert (V5 : view w5 = view w /\ forall e, nr_environment_id input = Some e -> env = Some e).
  { destruct (nr_environment_id input) as [e|]; [injection H5 as -> <-; naive_solver|].
    split; [|done]. refine (calm_map_err _ _ _ _ _ _ H5). by apply calm_sql. }
  destruct V5 as [V5 He].
  apply M_bind_ok in H as (w6 & fresh & H6 & H).
  apply M_bind_ok in H as (w7 & u7 & [Hfr ->]%guard_ok & H). subst fresh.
  unfold map_errM in H6. destruct (sql _ w5) as [w6' [x|]] eqn:E6; [|done]. injection H6 as -> ->.
  apply sql_ok in E6 as [E6 P6]. destruct (releases (w_db w5) !! id) eqn:Hn; [done|]. injection E6 as D6.
  apply M_bind_ok in H as (w8 & u8 & (_ & R8 & S8 & P8 & Q8)%history_ok & H).
  apply M_bind_ok in H as (w9 & rel0 & H9 & H).
  assert (V9 : view w9 = view w8) by by eapply calm_load.
  apply load_release_ok in H9 as (r0 & Hr0 & ->). rewrite R8, <- D6 in Hr0. cbn in Hr0.
  rewrite lookup_insert_eq in Hr0. injection Hr0 as <-.
  assert (Hfields : releases (w_db w) !! id = None /\
    view w9 = (<[id := new_release_row input actor env now]> (releases (w_db w)),
      release_history (w_db w) ++ [first_entry id input actor reason now], w_published w, shelf (w_db w))).
  { views. rewrite <- D6 in *. cbn in *. split; [congruence|]. unfold first_entry. congruence. }
  clear V5 D6 P6 R8 S8 P8 Q8 V9 Hn. destruct Hfields as [Hn V].
  apply negb_true_iff in Ht. apply negb_true_iff, orb_false_iff in Hs as [Hs1 Hs2].
  apply bool_decide_eq_false in Hs1, Hs2.
  split_and!; [by repeat split|done|]. exists env. split; [done|].
  cbn [rel_row row_to_release] in H. unfold first_row.
  destruct (next_step_at (new_release_row input actor env now) now) as [at_|] eqn:En.
  - apply M_bind_ok in H as (w10 & n & (P10 & Q10 & S10 & Hn10)%exec_row & [= -> <- _]). views.
    destruct Hn10 as [(row & Hrow & _ & _ & R10)|(_ & _ & R10)].
    + match goal with H : releases (w_db w9) = _ |- _ => rewrite H in Hrow, R10 end.
      rewrite lookup_insert_eq in Hrow. injection Hrow as <-. rewrite insert_insert_eq in R10.
      split_and!; [congruence|done|done].
    + match goal with H : releases (w_db w9) = _ |- _ => rewrite H in R10 end.
      specialize (R10 _ (lookup_insert_eq _ _ _)). done.
  - injection H as -> <- _. by split_and!.
Qed.

Lemma mute_insert input actor reason id now : mute (insert_release input actor reason id now).
Proof.
  unfold insert_release.
  repeat first [apply mute_bind; intros | apply mute_history | apply mute_map_err, mute_sql | case_match
    | apply mute_calm; by auto with calm].
Qed.

(** Committing the insertion of a release, with whatever follows it in the
    transaction, is one step. *)
Lemma insert_step input actor reason id now w w' rel rs :
  insert_release input actor reason id now w = (w', Ok (rel, rs)) -> rstep w w'.
Proof.
  intros (Hok & Hn & env & _ & V & _)%insert_release_ok. views.
  eapply (rs_insert w w' id (first_row input actor env now) (first_entry id input actor reason now) now);
    [done|by apply first_row_fresh|done..|unfold shelf; congruence].
Qed.

Lemma rsteps_finish {E} created actor now : RSteps (finish_create created actor now : ME E Release).
Proof. unfold finish_create. destruct created. repeat rstep_tac. Qed.

Lemma rsteps_create input actor reason id now : RSteps (create_release input actor reason id now).
Proof.
  unfold create_release. apply rsteps_bind; [|intros; apply rsteps_finish].
  intros w w' res H. apply transaction_view in H.
  - destruct res as [a|e]; [|by apply rtc_once, view_step].
    destruct H as [(w0 & w1 & V0 & H & V')|V']; [|by apply rtc_once, view_step].
    apply M_bind_ok in H as (w2 & [rel rs] & H & [= -> <-]).
    eapply rtc_l; [by apply view_step|]. eapply rtc_l; [by eapply insert_step|].
    by apply rtc_once, view_step.
  - apply mute_bind; [apply mute_insert|]. intros. apply mute_calm, calm_ret.
Qed.

Lemma rsteps_create_handler auth req id now : RSteps (create_release_handler auth req id now).
Proof. unfold create_release_handler. repeat first [apply rsteps_create | rstep_tac]. Qed.

End Transition.
