(* ===== verification/Promotions.v ===== *)
(** * Promotions, and what holds of every release

    The operations of [Environments.v] as the steps of [Rollouts.v], and the
    invariant every run of every release, environment and promotion operation
    keeps, whatever statements and store calls fail. *)

From stdpp Require Import relations.
From S2P Require Import Prelude Contract RustStr F64 Rollout Db Access Builds Runners Creation Releases Environments Rollouts.

Local Open Scope Z_scope.

(** ** The invariant *)

(** The state and fraction a release's history leads to: the first entry
    starts it, each entry that records a move leads on from where it was by a
    legal change of state, and the others record none. *)
Definition replay_entry (at_ : option (ReleaseState.t * f64)) (h : release_history_entry)
    : option (ReleaseState.t * f64) :=
  match rh_from_state h, rh_to_fraction h, at_ with
  | None, Some f, None => Some (rh_to_state h, f)
  | Some s, Some f, Some (s0, f0) =>
      if bool_decide (s = rh_to_state h) && bool_decide (rh_from_fraction h = Some f) then at_
      else if bool_decide (s = s0) && bool_decide (rh_from_fraction h = Some f0)
              && ReleaseState.can_transition_to s (rh_to_state h)
      then Some (rh_to_state h, f) else None
  | _, _, _ => None
  end.

Definition replay_releases (id : string) (l : list release_history_entry) : option (ReleaseState.t * f64) :=
  fold_left replay_entry (filter (fun h => rh_release_id h = id) l) None.

(** A row the daemon keeps: its fraction is one, its policy valid, and a step
    is scheduled only for a rollout it drives. *)
Record release_ok (r : release) : Prop := {
  ro_policy : validate (rl_policy r) = Ok tt;
  ro_fraction : valid_fraction (rl_rollout_fraction r) = true;
  ro_driven : is_Some (rl_next_step_at r) -> driven r = true;
}.

Record rinv (d : db) : Prop := {
  ri_rows : forall id r, releases d !! id = Some r -> release_ok r;
  ri_replay : forall id r, releases d !! id = Some r ->
    replay_releases id (release_history d) = Some (rl_state r, rl_rollout_fraction r);
  ri_history : forall h, h ∈ release_history d -> is_Some (releases d !! rh_release_id h);
}.

Lemma replay_snoc id l h :
  replay_releases id (l ++ [h]) =
    if decide (rh_release_id h = id) then replay_entry (replay_releases id l) h else replay_releases id l.
Proof.
  unfold replay_releases. rewrite filter_app, filter_cons. cbn. case_decide.
  - by rewrite fold_left_app.
  - by rewrite app_nil_r.
Qed.

Lemma replay_unknown id l : (forall h, h ∈ l -> rh_release_id h <> id) -> replay_releases id l = None.
Proof.
  intros Hl. unfold replay_releases. rewrite list_filter_none; [done|]. by apply Forall_forall.
Qed.

Lemma replay_note s h : note_entry h -> replay_entry (Some s) h = Some s.
Proof.
  intros (Hf & [f Hff] & Hft). unfold replay_entry. rewrite Hf, <- Hft, Hff. destruct s as [s0 f0].
  by rewrite !bool_decide_true by done.
Qed.

(** A move changes the state or the fraction. *)
Lemma replay_move id r to fraction h :
  legal_change r to fraction -> move_entry id r to fraction h ->
  replay_entry (Some (rl_state r, rl_rollout_fraction r)) h = Some (to, fraction).
Proof.
  intros [Ht Hv Hr _] (_ & Hf & Hto & Hff & Hft). unfold replay_entry. rewrite Hf, Hft, Hff, Hto.
  rewrite (bool_decide_true (rl_state r = rl_state r)), (bool_decide_true (Some _ = Some (rl_rollout_fraction r))) by done.
  rewrite Ht. cbn. destruct (bool_decide (rl_state r = to)) eqn:E1; [|done]. cbn.
  destruct (bool_decide (Some (rl_rollout_fraction r) = Some fraction)) eqn:E2; [|done]. exfalso.
  apply bool_decide_eq_true in E1, E2. injection E2 as E2. rewrite <- Hto, <- E1 in *.
  assert (Hs : rl_state r = ReleaseState.Rolling) by (clear -Ht; by destruct (rl_state r)).
  specialize (Hr Hs Hs). rewrite E2, f64_le_refl in Hr; [done|].
  unfold valid_fraction in Hv. by destruct fraction.
Qed.

(** The row with another environment, or none. *)
Definition same_but_environment (r r' : release) : Prop :=
  rl_meta r' = rl_meta r /\ rl_state r' = rl_state r /\
  rl_rollout_fraction r' = rl_rollout_fraction r /\ rl_next_step_at r' = rl_next_step_at r /\
  rl_approved_at r' = rl_approved_at r.

Lemma same_release_ok r r' : same_but_environment r r' -> release_ok r -> release_ok r'.
Proof.
  intros (Hm & Hs & Hf & Hn & Ha) [Hp Hv Hd].
  assert (Hdr : driven r' = driven r).
  { unfold driven, awaiting_approval, rl_store, rl_policy, rl_track. by rewrite Hm, Hs, Hf, Ha. }
  unfold rl_policy in *. split; unfold rl_policy; [by rewrite Hm|by rewrite Hf|by rewrite Hn, Hdr].
Qed.

Lemma next_driven r now : is_Some (next_step_at r now) -> driven r = true.
Proof. unfold next_step_at. destruct (driven r); [done|]. by intros [? [=]]. Qed.

Lemma moved_ok r to fraction now :
  legal_change r to fraction -> release_ok r ->
  release_ok (moved_row to fraction (next_step_at (stepped to fraction r) now) now r).
Proof.
  intros [_ Hv _ _] [Hp _ _]. split; [done|done|]. intros H. by apply next_driven in H.
Qed.

Lemma approved_ok r actor now : release_ok r -> release_ok (approved_row actor (approved_next_at r now) now r).
Proof.
  intros [Hp Hv _]. split; [done|done|]. cbn. unfold approved_next_at.
  destruct (next_step_at _ now) eqn:E; [|by intros [? [=]]]. intros _.
  exact (next_driven (set_rl_approved_at (Some now) r) now (ex_intro _ _ E)).
Qed.

Lemma fresh_ok r now : fresh_release r now -> release_ok r.
Proof. intros [Hp Hf _ _ Hn]. split; [done|done|]. rewrite Hn. apply next_driven. Qed.

Lemma rinv_ext d d' :
  releases d' = releases d -> release_history d' = release_history d -> rinv d -> rinv d'.
Proof. intros R S [I1 I2 I3]. split; rewrite ?R, ?S; done. Qed.

(** A step that rewrites one row and appends one entry of it. *)
Lemma rinv_rewrite d d' id r r' h :
  rinv d -> releases d !! id = Some r -> rh_release_id h = id -> release_ok r' ->
  replay_entry (Some (rl_state r, rl_rollout_fraction r)) h = Some (rl_state r', rl_rollout_fraction r') ->
  releases d' = <[id := r']> (releases d) -> release_history d' = release_history d ++ [h] -> rinv d'.
Proof.
  intros [I1 I2 I3] Hr Hid Hok Hre R S. split; rewrite ?R, ?S.
  - intros k r0. destruct (decide (k = id)) as [->|]; [rewrite lookup_insert_eq; by intros [= <-]|].
    rewrite lookup_insert_ne by done. apply I1.
  - intros k r0. rewrite replay_snoc. destruct (decide (k = id)) as [->|].
    + rewrite lookup_insert_eq, decide_True by done. intros [= <-]. by rewrite (I2 _ _ Hr).
    + rewrite lookup_insert_ne, decide_False by congruence. apply I2.
  - intros h0 [Hh|[->|[]%elem_of_nil]%elem_of_cons]%elem_of_app.
    + apply lookup_insert_is_Some'. right. by apply I3.
    + rewrite Hid, lookup_insert_eq. eauto.
Qed.

(** A step that records a release. *)
Lemma rinv_record d d' id r h now :
  rinv d -> releases d !! id = None -> fresh_release r now -> rh_release_id h = id ->
  rh_from_state h = None -> rh_to_state h = rl_state r -> rh_to_fraction h = Some (rl_rollout_fraction r) ->
  releases d' = <[id := r]> (releases d) -> release_history d' = release_history d ++ [h] -> rinv d'.
Proof.
  intros [I1 I2 I3] Hn Hf Hid Hfrom Hto Hff R S.
  assert (Hnone : replay_releases id (release_history d) = None).
  { apply replay_unknown. intros h0 Hh0 Heq. apply I3 in Hh0 as [r0 Hr0]. congruence. }
  split; rewrite ?R, ?S.
  - intros k r0. destruct (decide (k = id)) as [->|].
    + rewrite lookup_insert_eq. intros [= <-]. by eapply fresh_ok.
    + rewrite lookup_insert_ne by done. apply I1.
  - intros k r0. rewrite replay_snoc. destruct (decide (k = id)) as [->|].
    + rewrite lookup_insert_eq, decide_True by done. intros [= <-].
      unfold replay_entry. by rewrite Hnone, Hfrom, Hff, Hto.
    + rewrite lookup_insert_ne, decide_False by congruence. apply I2.
  - intros h0 [Hh|[->|[]%elem_of_nil]%elem_of_cons]%elem_of_app.
    + apply lookup_insert_is_Some'. right. by apply I3.
    + rewrite Hid, lookup_insert_eq. eauto.
Qed.

(** A step that leaves every release where it is in its rollout. *)
Lemma rinv_touch d d' :
  rinv d -> (forall id, option_Forall2 same_but_environment (releases d !! id) (releases d' !! id)) ->
  release_history d' = release_history d -> rinv d'.
Proof.
  intros [I1 I2 I3] Ht S.
  assert (Hback : forall id r', releases d' !! id = Some r' ->
    exists r, releases d !! id = Some r /\ same_but_environment r r').
  { intros id r' Hr'. specialize (Ht id). rewrite Hr' in Ht. inversion Ht; subst; eauto. }
  split; rewrite ?S.
  - intros id r' (r & Hr & Hs)%Hback. eauto using same_release_ok.
  - intros id r' (r & Hr & Hs)%Hback. rewrite (I2 _ _ Hr). by destruct Hs as (_ & -> & -> & _).
  - intros h Hh. destruct (I3 h Hh) as [r Hr]. specialize (Ht (rh_release_id h)). rewrite Hr in Ht.
    inversion Ht; subst; eauto.
Qed.

Lemma drop_releases project_id id d k :
  option_Forall2 same_but_environment (releases d !! k)
    (releases (delete_environment_row project_id id d) !! k).
Proof.
  unfold delete_environment_row. destruct (project_environments d !! id) as [e|];
    [destruct (String.eqb _ _)|]; cbn; rewrite ?lookup_fmap;
    destruct (releases d !! k) as [r|]; cbn; constructor; try by repeat split.
  by destruct (bool_decide _).
Qed.

Lemma rstep_rinv w w' : rstep w w' -> rinv (w_db w) -> rinv (w_db w').
Proof.
  intros Hst Hi. destruct Hst; try (views; by apply (rinv_ext (w_db w))).
  - apply (rinv_touch (w_db w)); [done| |done]. intros k. destruct (H k) as [r r' Hs|]; constructor.
    destruct Hs as (? & ? & ? & ? & ? & _). by repeat split.
  - by rewrite H1.
  - by eapply (rinv_record (w_db w)).
  - eapply (rinv_rewrite (w_db w) _ id r); [done|done|by destruct H1|by apply moved_ok; eauto using ri_rows| |done|done].
    cbn. by eapply replay_move.
  - eapply (rinv_rewrite (w_db w) _ id r); [done|done|done|apply approved_ok; eauto using ri_rows| |done|done].
    cbn. by apply replay_note.
  - destruct H0 as [r Hr]. eapply (rinv_rewrite (w_db w) _ (rh_release_id h) r r h);
      [done|done|done|eauto using ri_rows|by apply replay_note| |done].
    by rewrite H1, insert_id.
  - views. cbn in *. apply (rinv_touch (w_db w)); [done| |].
    + intros k. match goal with H : releases (w_db w') = _ |- _ => rewrite H end. apply drop_releases.
    + match goal with H : release_history (w_db w') = _ |- _ => rewrite H end.
      unfold delete_environment_row. by repeat case_match.
  - by rewrite H0.
  - views. by eapply (rinv_record (w_db w)).
Qed.

(** What a production gate asks for before more users get the release. *)
Definition cleared (r : release) : Prop :=
  approval (rl_policy r) = BeforeProduction -> rl_track r = "production"%string -> is_Some (rl_approved_at r).

Lemma not_awaiting_cleared r :
  ReleaseState.is_terminal (rl_state r) = false -> awaiting_approval r = false -> cleared r.
Proof.
  unfold awaiting_approval, cleared. intros -> H Hg Ht. rewrite Hg, Ht, orb_false_r in H.
  case_bool_decide; [done|discriminate H].
Qed.

(** What a store may be sent for a release that is as the daemon keeps it. *)
Definition call_ok (r : release) (c : StoreChange) : Prop :=
  match c with
  | StoreRollout f =>
      rl_state r = ReleaseState.Rolling /\ cleared r /\
      f64_lt (rl_rollout_fraction r) f = true /\ f64_le f f_1 = true
  | StoreResume f =>
      (rl_state r = ReleaseState.Paused \/ rl_state r = ReleaseState.Halted) /\
      cleared r /\ valid_fraction f = true
  | StoreComplete =>
      (rl_state r = ReleaseState.Rolling \/ rl_state r = ReleaseState.Paused) /\
      cleared r
  | StorePause => ReleaseState.can_transition_to (rl_state r) ReleaseState.Paused = true
  | StoreHalt => ReleaseState.can_transition_to (rl_state r) ReleaseState.Halted = true
  end.

Lemma valid_fraction_nan f : valid_fraction f = true -> is_nan f = false.
Proof. unfold valid_fraction. by destruct f. Qed.

Lemma legal_call_ok r c : release_ok r -> legal_call r c -> call_ok r c.
Proof.
  intros [_ Hv _] (to & f & [Ht Hf Hr Hc] & Hs & Hg).
  pose proof (not_awaiting_cleared r) as Hk.
  destruct (rl_state r) eqn:Es, to; try discriminate Hs; try discriminate Ht;
    injection Hs as <-; cbn [call_ok]; rewrite ?Es; try (split_and!; by auto); try done.
  specialize (Hr eq_refl eq_refl). split_and!; [done|by auto| |].
  - destruct (f64_lt (rl_rollout_fraction r) f) eqn:E; [done|].
    apply f64_not_lt in E; [congruence|by apply valid_fraction_nan..].
  - unfold valid_fraction in Hf. rewrite !andb_true_iff in Hf. by destruct Hf as [_ Hf].
Qed.

(** ** Environments *)

(** Every stored environment is valid; a project has no two with one key, or
    one store and track, and at most [MAX_ENVIRONMENTS]. *)
Record einv (d : db) : Prop := {
  ei_rows : forall id e, project_environments d !! id = Some e -> environment_ok e;
  ei_unique : forall i j e f, project_environments d !! i = Some e -> project_environments d !! j = Some f ->
    pe_project_id e = pe_project_id f ->
    pe_key e = pe_key f \/ pe_store e = pe_store f /\ pe_track e = pe_track f -> i = j;
  ei_count : forall project_id,
    Z.of_nat (length (project_rows project_id d)) <= MAX_ENVIRONMENTS;
}.

Definition of_project (project_id : string) (m : gmap string environment) : gmap string environment :=
  filter (fun kv : string * environment => pe_project_id kv.2 = project_id) m.

Lemma filter_keys_nodup {A} (P : string * A -> Prop) `{!forall x, Decision (P x)} (m : gmap string A) :
  NoDup (filter P (map_to_list m)).*1.
Proof.
  refine (sublist_NoDup _ _ (NoDup_fst_map_to_list m) _). apply fmap_sublist, sublist_filter.
Qed.

Lemma project_rows_size project_id d :
  length (project_rows project_id d) = size (of_project project_id (project_environments d)).
Proof.
  unfold project_rows, of_project. rewrite map_filter_alt, <- length_map_to_list, map_to_list_to_map; [done|].
  apply filter_keys_nodup.
Qed.

Lemma clashes_false id e d :
  clashes id e d = false ->
  forall j f, project_environments d !! j = Some f -> j <> id -> pe_project_id f = pe_project_id e ->
    pe_key f <> pe_key e /\ (pe_store f = pe_store e -> pe_track f <> pe_track e).
Proof.
  intros H j f Hf Hj Hp. apply not_true_iff_false in H. unfold clashes in H. rewrite existsb_exists in H.
  assert (Hin : In (j, f) (project_rows (pe_project_id e) d)).
  { apply list_elem_of_In, list_elem_of_filter. split; [done|]. by apply elem_of_map_to_list. }
  split.
  - intros Hk. apply H. exists (j, f). split; [done|]. cbn.
    by rewrite Hk, String.eqb_refl, (proj2 (String.eqb_neq j id)) by done.
  - intros Hs Ht. apply H. exists (j, f). split; [done|]. cbn.
    rewrite Ht, String.eqb_refl, (proj2 (String.eqb_neq j id)), bool_decide_true by done.
    by rewrite orb_true_r.
Qed.

Lemma einv_ext d d' : project_environments d' = project_environments d -> einv d -> einv d'.
Proof.
  intros E [I1 I2 I3]. split; rewrite ?E; try done. intros pid.
  rewrite project_rows_size, E, <- project_rows_size. apply I3.
Qed.

Lemma einv_put d d' id e :
  einv d -> environment_ok e -> clashes id e d = false ->
  match project_environments d !! id with
  | Some e0 => pe_project_id e = pe_project_id e0 /\ pe_key e = pe_key e0 /\ pe_store e = pe_store e0
  | None => Z.of_nat (length (project_rows (pe_project_id e) d)) < MAX_ENVIRONMENTS
  end ->
  project_environments d' = <[id := e]> (project_environments d) -> einv d'.
Proof.
  intros [I1 I2 I3] Hok Hc Hold E. pose proof (clashes_false _ _ _ Hc) as Hc'. split; rewrite ?E.
  - intros k f. destruct (decide (k = id)) as [->|].
    + rewrite lookup_insert_eq. by intros [= <-].
    + rewrite lookup_insert_ne by done. apply I1.
  - intros i j e1 e2. destruct (decide (i = id)) as [->|Hi], (decide (j = id)) as [->|Hj]; [done|..];
      rewrite ?lookup_insert_eq, ?lookup_insert_ne by done; [..|apply I2].
    + intros [= <-] H2 Hp Hk. destruct (Hc' j e2 H2 Hj ltac:(done)). naive_solver.
    + intros H1 [= <-] Hp Hk. destruct (Hc' i e1 H1 Hi ltac:(done)). naive_solver.
  - intros pid. rewrite project_rows_size, E. unfold of_project.
    specialize (I3 pid). rewrite project_rows_size in I3. unfold of_project in I3.
    destruct (decide (pe_project_id e = pid)) as [<-|Hp].
    + rewrite map_filter_insert_True by done.
      destruct (project_environments d !! id) as [e0|] eqn:E0.
      * rewrite map_size_insert_Some; [done|]. exists e0. apply map_lookup_filter_Some. naive_solver.
      * rewrite map_size_insert_None; [|apply map_lookup_filter_None; by left].
        rewrite project_rows_size in Hold. unfold of_project in Hold. lia.
    + rewrite map_filter_insert_False by done. etransitivity; [|exact I3].
      apply inj_le, map_subseteq_size, map_filter_subseteq_mono, delete_subseteq.
Qed.

Lemma einv_drop d d' id :
  einv d -> project_environments d' = delete id (project_environments d) -> einv d'.
Proof.
  intros [I1 I2 I3] E. split; rewrite ?E.
  - intros k e [_ He]%lookup_delete_Some. eauto.
  - intros i j e1 e2 [_ H1]%lookup_delete_Some [_ H2]%lookup_delete_Some. eauto.
  - intros pid. rewrite project_rows_size, E. etransitivity; [|exact (I3 pid)].
    rewrite project_rows_size. apply inj_le, map_subseteq_size, map_filter_subseteq_mono, delete_subseteq.
Qed.

Lemma rstep_einv w w' : rstep w w' -> einv (w_db w) -> einv (w_db w').
Proof.
  intros Hst Hi. destruct Hst; try (views; by apply (einv_ext (w_db w))).
  - by rewrite H1.
  - views. by eapply (einv_put (w_db w)).
  - views. cbn in *. unfold delete_environment_row in *.
    destruct (project_environments (w_db w) !! id) as [e|]; [destruct (String.eqb _ _)|]; cbn in *;
      [by eapply (einv_drop (w_db w))|by apply (einv_ext (w_db w))..].
  - by rewrite H0.
Qed.

(** ** Promotions *)

(** The release a promotion leads to. *)
Definition leads_to (p : promotion) (r : release) : Prop :=
  rl_build_id r = pm_build_id p /\ rl_environment_id r = Some (pm_environment_id p) /\
  rl_promoted_from_release_id r = Some (pm_source_release_id p).

(** A stored promotion: into an environment of its project, from a release of
    its build; a completed one names the release it led to, no other does; a
    pending one is undecided and a rejected one decided. *)
Record promotion_ok (d : db) (p : promotion) : Prop := {
  po_environment : exists e, project_environments d !! pm_environment_id p = Some e /\
    pe_project_id e = pm_project_id p;
  po_source : exists r, releases d !! pm_source_release_id p = Some r /\ rl_build_id r = pm_build_id p;
  po_release : match pm_state p with
    | PromotionState.Completed => exists id r, pm_release_id p = Some id /\ releases d !! id = Some r /\ leads_to p r
    | _ => pm_release_id p = None
    end;
  po_decided : match pm_state p with
    | PromotionState.Pending => pm_decided_at p = None
    | PromotionState.Rejected => is_Some (pm_decided_at p)
    | _ => True
    end;
}.

(** And a build has at most one promotion on its way into an environment. *)
Record pinv (d : db) : Prop := {
  pi_rows : forall id p, environment_promotions d !! id = Some p -> promotion_ok d p;
  pi_alone : forall i j p q, environment_promotions d !! i = Some p -> environment_promotions d !! j = Some q ->
    open_state (pm_state p) = true -> open_state (pm_state q) = true ->
    pm_build_id p = pm_build_id q -> pm_environment_id p = pm_environment_id q -> i = j;
}.

(** The part of a release a promotion refers to. *)
Definition same_origin (r r' : release) : Prop :=
  rl_meta r' = rl_meta r /\ rl_environment_id r' = rl_environment_id r /\
  rl_promoted_from_release_id r' = rl_promoted_from_release_id r.

Definition keeps_origins (d d' : db) : Prop :=
  forall id r, releases d !! id = Some r -> exists r', releases d' !! id = Some r' /\ same_origin r r'.

Definition keeps_projects (d d' : db) : Prop :=
  forall id e, project_environments d !! id = Some e ->
    exists e', project_environments d' !! id = Some e' /\ pe_project_id e' = pe_project_id e.

Lemma keeps_origins_eq d d' : releases d' = releases d -> keeps_origins d d'.
Proof. intros R id r Hr. exists r. by rewrite R. Qed.

Lemma keeps_projects_eq d d' : project_environments d' = project_environments d -> keeps_projects d d'.
Proof. intros E id e He. exists e. by rewrite E. Qed.

Lemma keeps_origins_insert d d' id r' :
  (forall r, releases d !! id = Some r -> same_origin r r') ->
  releases d' = <[id := r']> (releases d) -> keeps_origins d d'.
Proof.
  intros Hr R k r Hk. rewrite R. destruct (decide (k = id)) as [->|].
  - exists r'. rewrite lookup_insert_eq. eauto.
  - exists r. by rewrite lookup_insert_ne.
Qed.

Lemma leads_to_keeps p r r' : same_origin r r' -> leads_to p r -> leads_to p r'.
Proof. unfold leads_to, rl_build_id. by intros (-> & -> & ->). Qed.

Lemma promotion_ok_keeps d d' p :
  keeps_origins d d' -> keeps_projects d d' -> promotion_ok d p -> promotion_ok d' p.
Proof.
  intros Ho He [(e & H1 & H2) (r & H3 & H4) H5 H6]. split; [..|done].
  - destruct (He _ _ H1) as (e' & ? & ?). exists e'. split; [done|congruence].
  - destruct (Ho _ _ H3) as (r' & ? & Hs & _). exists r'. split; [done|]. unfold rl_build_id in *. congruence.
  - destruct (pm_state p); try done. destruct H5 as (id & r5 & ? & H5 & ?).
    destruct (Ho _ _ H5) as (r' & ? & Hs). exists id, r'. split_and!; [done|done|]. by eapply leads_to_keeps.
Qed.

Lemma pinv_keeps d d' :
  environment_promotions d' = environment_promotions d -> keeps_origins d d' -> keeps_projects d d' ->
  pinv d -> pinv d'.
Proof.
  intros E Ho He [I1 I2]. split; rewrite E; [|done]. intros id p Hp. eapply promotion_ok_keeps; eauto.
Qed.

(** A promotion that changes, and stops being open unless it was. *)
Lemma pinv_change d d' id p q :
  environment_promotions d !! id = Some p -> environment_promotions d' = <[id := q]> (environment_promotions d) ->
  keeps_origins d d' -> keeps_projects d d' ->
  pm_build_id q = pm_build_id p -> pm_environment_id q = pm_environment_id p ->
  open_state (pm_state p) = true -> promotion_ok d' q -> pinv d -> pinv d'.
Proof.
  intros Hp E Ho He Hb Hen Hop Hq [I1 I2]. split; rewrite E.
  - intros k x. destruct (decide (k = id)) as [->|].
    + rewrite lookup_insert_eq. by intros [= <-].
    + rewrite lookup_insert_ne by done. intros Hx. eapply promotion_ok_keeps; eauto.
  - intros i j x y. destruct (decide (i = id)) as [->|], (decide (j = id)) as [->|]; [done|..];
      rewrite ?lookup_insert_eq, ?lookup_insert_ne by done; [..|apply I2].
    + intros [= <-] Hy _ Hoy ? ?. apply (I2 id j p y); congruence.
    + intros Hx [= <-] Hox _ ? ?. apply (I2 i id x p); congruence.
Qed.

Lemma pinv_request d d' id p e source :
  pinv d -> requested d p e source -> releases d' = releases d ->
  project_environments d' = project_environments d ->
  environment_promotions d' = <[id := p]> (environment_promotions d) -> pinv d'.
Proof.
  intros [I1 I2] [Hen Hpr Hsrc Hb _ _ Hst Hrel Hdec _ Halone] R E P. split; rewrite P.
  - intros k x. destruct (decide (k = id)) as [->|].
    + rewrite lookup_insert_eq. intros [= <-]. split; rewrite ?R, ?E; [eauto..| |];
        rewrite Hst; by destruct (pe_approval_required e).
    + rewrite lookup_insert_ne by done. intros Hx.
      eapply promotion_ok_keeps; [by apply keeps_origins_eq|by apply keeps_projects_eq|eauto].
  - intros i j x y. destruct (decide (i = id)) as [->|], (decide (j = id)) as [->|]; [done|..];
      rewrite ?lookup_insert_eq, ?lookup_insert_ne by done; [..|apply I2].
    + intros [= <-] Hy _ Hoy Hbx Hex. specialize (Halone _ _ Hy ltac:(done) ltac:(done)). congruence.
    + intros Hx [= <-] Hox _ Hbx Hex. specialize (Halone _ _ Hx ltac:(done) ltac:(done)). congruence.
Qed.

Lemma drop_keeps_promotion project_id id d p :
  pm_environment_id p <> id -> promotion_ok d p -> promotion_ok (delete_environment_row project_id id d) p.
Proof.
  intros Hne [(e & H1 & H2) (r & H3 & H4) H5 H6]. unfold delete_environment_row.
  destruct (project_environments d !! id) as [e0|] eqn:E0; [|by split; eauto].
  destruct (String.eqb _ _); [|by split; eauto]. split; cbn; [..|done].
  - exists e. by rewrite lookup_delete_ne.
  - eexists. rewrite lookup_fmap, H3. split; [done|]. by case_bool_decide.
  - destruct (pm_state p); try done. destruct H5 as (k & r5 & ? & H5 & Hl & He & Hf).
    exists k, r5. split_and!; [done| |done]. rewrite lookup_fmap, H5. cbn.
    rewrite bool_decide_false; [done|]. rewrite He. congruence.
Qed.

Lemma pinv_drop project_id id d : pinv d -> pinv (delete_environment_row project_id id d).
Proof.
  intros [I1 I2].
  assert (Hsub : forall k p, environment_promotions (delete_environment_row project_id id d) !! k = Some p ->
    environment_promotions d !! k = Some p /\ promotion_ok (delete_environment_row project_id id d) p).
  { intros k p Hk. pose proof (drop_keeps_promotion project_id id d p) as Hd.
    unfold delete_environment_row in *. destruct (project_environments d !! id) as [e|]; [|eauto].
    destruct (String.eqb _ _); [|eauto]. cbn in Hk. apply map_lookup_filter_Some in Hk as [Hk Hne]. eauto. }
  split; [intros k p [_ ?]%Hsub; done|]. intros i j p q [Hp _]%Hsub [Hq _]%Hsub. by apply I2.
Qed.

(** A promotion under way that ends, or one that is decided. *)
Lemma pinv_end d d' id p q :
  pinv d -> environment_promotions d !! id = Some p -> open_state (pm_state p) = true ->
  releases d' = releases d -> project_environments d' = project_environments d ->
  environment_promotions d' = <[id := q]> (environment_promotions d) ->
  pm_build_id q = pm_build_id p -> pm_environment_id q = pm_environment_id p -> promotion_ok d q -> pinv d'.
Proof.
  intros Hi Hp Ho R E P Hb He Hq.
  eapply (pinv_change d); [done..|by apply keeps_origins_eq|by apply keeps_projects_eq|done|done|done| |done].
  eapply (promotion_ok_keeps d); [by apply keeps_origins_eq|by apply keeps_projects_eq|done].
Qed.

Lemma rstep_pinv w w' : rstep w w' -> pinv (w_db w) -> pinv (w_db w').
Proof.
  intros Hst Hi. pose proof Hi as [I1 I2].
  destruct Hst as [w w' l R S P Hl Q|w w' Ht S P Q|w w' id r c Hr Hc D P|w w' id r h now Hn Hf _ _ _ _ R S P Q
    |w w' id r to fraction h now Hr _ _ R S P Q|w w' id r h actor now Hr _ _ _ R S P Q|w w' h _ _ R S P Q
    |w w' id e _ _ Hold V|w w' pid id V|w w' id p e source Hn Hq V
    |w w' id p to by_ reason now Hp Hst Hto V|w w' id p message now Hp Hst V|w w' sid t _ D P
    |w w' id p source rid r h now Hp Hst Hsrc Hn _ Hb Hen Hf _ _ _ _ V]; views.
  - apply (pinv_keeps (w_db w)); [done|by apply keeps_origins_eq|by apply keeps_projects_eq|done].
  - apply (pinv_keeps (w_db w)); [done| |by apply keeps_projects_eq|done].
    intros k r Hr. specialize (Ht k). rewrite Hr in Ht. inversion Ht as [? r' Hs|]; subst.
    exists r'. destruct Hs as (? & _ & _ & _ & _ & ? & ?). by repeat split.
  - by rewrite D.
  - apply (pinv_keeps (w_db w)); [done| |by apply keeps_projects_eq|done].
    eapply keeps_origins_insert; [|done]. congruence.
  - apply (pinv_keeps (w_db w)); [done| |by apply keeps_projects_eq|done].
    eapply keeps_origins_insert; [|done]. intros r0 Hr0. simplify_eq. by repeat split.
  - apply (pinv_keeps (w_db w)); [done| |by apply keeps_projects_eq|done].
    eapply keeps_origins_insert; [|done]. intros r0 Hr0. simplify_eq. by repeat split.
  - apply (pinv_keeps (w_db w)); [done|by apply keeps_origins_eq|by apply keeps_projects_eq|done].
  - apply (pinv_keeps (w_db w)); [done|by apply keeps_origins_eq| |done]. intros k e0 He0.
    destruct (decide (k = id)) as [->|].
    + exists e. rewrite He0 in Hold. match goal with H : project_environments (w_db w') = _ |- _ => rewrite H end.
      rewrite lookup_insert_eq. naive_solver.
    + exists e0. match goal with H : project_environments (w_db w') = _ |- _ => rewrite H end.
      by rewrite lookup_insert_ne.
  - cbn in *. apply (pinv_keeps (delete_environment_row pid id (w_db w)));
      [done|by apply keeps_origins_eq|by apply keeps_projects_eq|by apply pinv_drop].
  - by eapply (pinv_request (w_db w)).
  - destruct (I1 _ _ Hp) as [He Hs Hr _]. rewrite Hst in Hr.
    eapply (pinv_end (w_db w)); [done|done|by rewrite Hst|done..|].
    destruct Hto as [->| ->]; split; cbn; eauto.
  - destruct (I1 _ _ Hp) as [He Hs Hr _]. rewrite Hst in Hr.
    eapply (pinv_end (w_db w)); [done|done|by rewrite Hst|done..|]. by split.
  - by rewrite D.
  - assert (Ho : keeps_origins (w_db w) (w_db w')) by (eapply keeps_origins_insert; [|done]; congruence).
    assert (Hk : keeps_projects (w_db w) (w_db w')) by by apply keeps_projects_eq.
    destruct (promotion_ok_keeps _ _ _ Ho Hk (I1 _ _ Hp)) as [He Hs _ _].
    eapply (pinv_change (w_db w) _ id p); [done..|by rewrite Hst| |done].
    split; [done|done| |done]. exists rid, r.
    assert (Hl : leads_to p r).
    { destruct (I1 _ _ Hp) as [_ (r0 & Hr0 & Hb0) _ _]. repeat split; congruence. }
    split_and!; [done| |done].
    match goal with H : releases (w_db w') = _ |- _ => rewrite H end. by rewrite lookup_insert_eq.
Qed.

(** ** Operations as steps *)

Lemma calm_for_each {E A B} (f : A -> B -> ME E B) l :
  (forall x acc, calm (f x acc)) -> forall acc, calm (for_each f l acc).
Proof.
  intros Hf. induction l as [|x l IH]; intros acc; cbn; [apply calm_ret|]. apply calm_bind; auto.
Qed.

Lemma calm_lift {A} (r : result EnvironmentError A) : calm (lift r).
Proof. destruct r; [apply calm_ret|apply calm_throw]. Qed.

Lemma calm_read {A} (q : db -> A) : calm (stmt (fun d => (d, q d))).
Proof. by apply calm_map_err, calm_sql. Qed.

#[export] Hint Resolve calm_for_each calm_lift calm_read : calm.
#[export] Hint Extern 2 (calm (env_audit _ _ _ _)) => unfold env_audit : calm.

Lemma calm_load_environment project_id id : calm (load_environment project_id id).
Proof. unfold load_environment. auto 12 with calm. Qed.

Lemma calm_check_members project_id ids : calm (check_approver_members project_id ids).
Proof. unfold check_approver_members. auto 12 with calm. Qed.

Lemma calm_store_approvers id ids : calm (store_approvers id ids).
Proof.
  unfold store_approvers, stmt. apply calm_bind; [by apply calm_map_err, calm_sql|]. intros _.
  apply calm_for_each. intros x []. apply calm_bind; [|auto with calm].
  apply calm_map_err, calm_sql. intros d. by destruct (bool_decide _).
Qed.

#[export] Hint Resolve calm_load_environment calm_check_members calm_store_approvers : calm.

Lemma calm_load_promotion_with project_id id viewer : calm (load_promotion_with_environment project_id id viewer).
Proof. unfold load_promotion_with_environment. auto 12 with calm. Qed.

#[export] Hint Resolve calm_load_promotion_with : calm.

Lemma calm_load_promotion project_id id viewer : calm (load_promotion project_id id viewer).
Proof. unfold load_promotion. auto 12 with calm. Qed.

#[export] Hint Resolve calm_load_promotion : calm.

Lemma stmt_ok {A} (f : db -> db * A) w w' a :
  stmt f w = (w', Ok a) -> f (w_db w) = (w_db w', a) /\ w_published w' = w_published w.
Proof.
  unfold stmt, map_errM. destruct (sql f w) as [w1 [x|e]] eqn:E; [|done]. intros [= <- <-]. by apply sql_ok.
Qed.

Lemma stmt_view {A} (f : db -> db * A) w w' e : stmt f w = (w', Err e) -> view w' = view w.
Proof.
  unfold stmt, map_errM. destruct (sql f w) as [w1 [x|e']] eqn:E; [done|]. intros [= <- _].
  apply sql_err in E as [Hd Hp]. unfold view. by rewrite Hd, Hp.
Qed.

Lemma stmt_read_ok {A} (q : db -> A) w w' a :
  stmt (fun d => (d, q d)) w = (w', Ok a) -> a = q (w_db w) /\ view w' = view w.
Proof.
  intros H. split; [|by eapply calm_read]. apply stmt_ok in H as [H _]. by injection H.
Qed.

(** *** Storing an environment *)

Lemma project_rows_ext project_id d d' :
  project_environments d' = project_environments d -> project_rows project_id d' = project_rows project_id d.
Proof. unfold project_rows. by intros ->. Qed.

Lemma clashes_ext id e d d' :
  project_environments d' = project_environments d -> clashes id e d' = clashes id e d.
Proof. unfold clashes, project_rows. by intros ->. Qed.

Lemma lift_ok {A} (r : result EnvironmentError A) w w' a : lift r w = (w', Ok a) -> r = Ok a /\ w' = w.
Proof. destruct r; [|done]. by intros [= -> ->]. Qed.

Lemma validate_policy_ok p : validate_policy p = Ok tt -> validate p = Ok tt /\ approval p = NoGate.
Proof. unfold validate_policy. destruct (validate p) as [[]|]; [|done]. by destruct (approval p). Qed.

Lemma validate_review_ok store track b :
  validate_submit_for_review store track b = Ok tt ->
  b = true -> store = ReleaseStore.AppStore /\ track = APP_STORE_TRACK.
Proof.
  unfold validate_submit_for_review. intros H ->. cbn in H.
  destruct (bool_decide (store = _)) eqn:E1, (String.eqb track _) eqn:E2; try done.
  apply bool_decide_eq_true in E1. by apply String.eqb_eq in E2.
Qed.

Lemma next_position_nonneg project_id d : 0 <= next_position project_id d.
Proof. unfold next_position. induction (project_rows project_id d); cbn; lia. Qed.

(** A transaction whose committed body is a step is a step. *)
Lemma rsteps_transaction {E A} (on_err : sqlx_error -> E) (body : ME E (tx_end A)) :
  mute body -> (forall w w' a, body w = (w', Ok (Commit a)) -> rtc rstep w w') ->
  RSteps (transaction_with on_err body).
Proof.
  intros Hm Hb w w' res H. apply transaction_view in H; [|done].
  destruct res as [a|e]; [|by apply rtc_once, view_step].
  destruct H as [(w0 & w1 & V0 & H & V')|V']; [|by apply rtc_once, view_step].
  eapply rtc_l; [by apply view_step|]. etransitivity; [by eapply Hb|]. by apply rtc_once, view_step.
Qed.

Lemma mute_stmt {A} (f : db -> db * A) : mute (stmt f).
Proof. apply mute_map_err, mute_sql. Qed.

(** Decompose a body that only runs statements. *)
Ltac mute_tac :=
  repeat first [apply mute_calm; by auto with calm | apply mute_stmt | apply mute_map_err, mute_insert
    | case_match | apply mute_bind; intros].

Lemma put_step w w' id e :
  environment_ok e -> clashes id e (w_db w) = false ->
  match project_environments (w_db w) !! id with
  | Some e0 => pe_project_id e = pe_project_id e0 /\ pe_key e = pe_key e0 /\ pe_store e = pe_store e0
  | None => Z.of_nat (length (project_rows (pe_project_id e) (w_db w))) < MAX_ENVIRONMENTS
  end ->
  w_db w' = set_project_environments (<[id := e]> (project_environments (w_db w))) (w_db w) ->
  w_published w' = w_published w -> rstep w w'.
Proof.
  intros Hok Hc Hold Hd Hp. eapply rs_environment; [done|done|done|]. unfold view, shelf. by rewrite Hd, Hp.
Qed.

Lemma rsteps_create_environment project_id actor req id now :
  RSteps (create_environment project_id actor req id now).
Proof.
  intros w w' res H. unfold create_environment in H.
  apply bind_split in H as [(w1 & e & H1 & -> & ->)|(w1 & key & [_ ->]%lift_ok & H)];
    [apply rtc_once, view_step; by eapply calm_lift|].
  apply bind_split in H as [(w1 & e & H1 & -> & ->)|(w1 & name & [_ ->]%lift_ok & H)];
    [apply rtc_once, view_step; by eapply calm_lift|].
  apply bind_split in H as [(w1 & e & H1 & -> & ->)|(w1 & track & [_ ->]%lift_ok & H)];
    [apply rtc_once, view_step; by eapply calm_lift|].
  apply bind_split in H as [(w1 & e & H1 & -> & ->)|(w1 & [] & [[Hp Hg]%validate_policy_ok ->]%lift_ok & H)];
    [apply rtc_once, view_step; by eapply calm_lift|].
  apply bind_split in H as [(w1 & e & H1 & -> & ->)|(w1 & [] & [Hr ->]%lift_ok & H)];
    [apply rtc_once, view_step; by eapply calm_lift|].
  cpeel H w1 approvers H1 V1; [by apply rtc_once, view_step|].
  eapply rtc_l; [by apply view_step|]. clear V1.
  refine (rsteps_bind _ _ _ _ w1 w' res H); [|intros; apply calm_steps; auto 12 with calm].
  apply rsteps_transaction; [mute_tac|]. clear w w1 w' res H H1. intros w w' [] H.
  apply M_bind_ok in H as (w1 & counted & [-> V1]%stmt_read_ok & H).
  apply M_bind_ok in H as (w2 & [] & [Hmax ->]%guard_ok & H).
  apply M_bind_ok in H as (w3 & [] & [Hc ->]%guard_ok & H).
  apply M_bind_ok in H as (w4 & [] & V4%calm_check_members & H).
  apply M_bind_ok in H as (w5 & inserted & [H5 P5]%stmt_ok & H).
  apply M_bind_ok in H as (w6 & [] & [-> ->]%guard_ok & H).
  apply M_bind_ok in H as (w7 & [] & V7%calm_store_approvers & [= ->]).
  destruct (bool_decide (is_Some _)) eqn:Ei; [done|]. destruct (clashes _ _ _) eqn:Ec; [done|].
  cbn in H5. injection H5 as H5. apply bool_decide_eq_false, eq_None_not_Some in Ei.
  eapply rtc_l; [apply view_step; etransitivity; [exact V4|exact V1]|].
  eapply rtc_l; [|by apply rtc_once, view_step].
  eapply put_step; [|exact Ec| |by rewrite <- H5|done].
  - split; cbn; [done|done|apply next_position_nonneg|by apply validate_review_ok].
  - rewrite Ei. cbn. apply Z.ltb_lt in Hc. rewrite (project_rows_ext _ (w_db w)); [done|].
    views. congruence.
Qed.

Lemma load_environment_ok project_id id w w' env :
  load_environment project_id id w = (w', Ok env) ->
  view w' = view w /\ env_id env = id /\ project_environments (w_db w) !! id = Some (env_row env) /\
  pe_project_id (env_row env) = project_id /\
  exists d, eas_users (env_approvers env) = current_approvers d id project_id /\
    eas_role (env_approvers env) = pe_approver_role (env_row env).
Proof.
  intros H. split; [by eapply calm_load_environment|]. unfold load_environment in H.
  apply M_bind_ok in H as (w1 & row & [-> V1]%stmt_read_ok & H).
  apply M_bind_ok in H as (w2 & e & H2 & H). apply from_option_Ok in H2.
  destruct (project_environments (w_db w) !! id) as [e0|]; [|done].
  destruct (String.eqb _ _) eqn:E; [|done]. injection H2 as <-. apply String.eqb_eq in E.
  apply M_bind_ok in H as (w3 & approvers & [-> V3]%stmt_read_ok & [= _ <-]). cbn. rewrite E. eauto 10.
Qed.

Lemma write_step project_id id approvers row current w w' res :
  project_environments (w_db w) !! id = Some current -> pe_project_id current = project_id ->
  environment_ok (row current) -> pe_project_id (row current) = project_id ->
  pe_key (row current) = pe_key current -> pe_store (row current) = pe_store current ->
  write_environment project_id id approvers row w = (w', res) -> rtc rstep w w'.
Proof.
  intros Hcur Hproj Hok Hp Hk Hs H. apply transaction_view in H; [|mute_tac].
  destruct res as [[]|e]; [|by apply rtc_once, view_step].
  destruct H as [(w0 & w1 & V0 & H & V')|V']; [|by apply rtc_once, view_step].
  eapply rtc_l; [by apply view_step|]. apply rtc_r with w1; [|by apply view_step]. clear V'.
  apply M_bind_ok in H as (w2 & [] & H2 & H).
  assert (V2 : view w2 = view w0) by (destruct approvers as [[]|]; [by eapply calm_check_members|by injection H2 as ->]).
  apply M_bind_ok in H as (w3 & updated & [H3 P3]%stmt_ok & H).
  apply M_bind_ok in H as (w4 & [] & [-> ->]%guard_ok & H).
  apply M_bind_ok in H as (w5 & [] & H5 & [= ->]).
  assert (V5 : view w1 = view w3) by (destruct approvers as [[]|]; [by eapply calm_store_approvers|by injection H5 as ->]).
  eapply rtc_l; [by apply view_step|]. eapply rtc_l; [|by apply rtc_once, view_step].
  assert (Hc : project_environments (w_db w2) !! id = Some current) by (views; congruence).
  rewrite Hc, Hproj, String.eqb_refl in H3. cbn in H3. destruct (clashes _ _ _) eqn:Ec; [done|].
  injection H3 as H3. eapply put_step; [done|exact Ec| |by rewrite <- H3|done].
  rewrite Hc. split_and!; congruence.
Qed.

Lemma rsteps_update_environment project_id id actor req now :
  RSteps (update_environment project_id id actor req now).
Proof.
  intros w w' res H. unfold update_environment in H.
  cpeel H w1 current H1 V1; [by apply rtc_once, view_step|].
  apply load_environment_ok in H1 as (_ & _ & Hcur & Hproj & _).
  cpeel H w2 name H2 V2; [apply rtc_once, view_step; congruence|].
  cpeel H w3 track H3 V3; [apply rtc_once, view_step; congruence|].
  cpeel H w4 u4 H4 V4; [apply rtc_once, view_step; congruence|].
  cpeel H w5 u5 H5 V5; [apply rtc_once, view_step; congruence|].
  destruct u5. apply lift_ok in H5 as [[Hp Hg]%validate_policy_ok _].
  cpeel H w6 u6 H6 V6; [apply rtc_once, view_step; congruence|]. destruct u6. apply lift_ok in H6 as [Hr _].
  cpeel H w7 u7 H7 V7; [apply rtc_once, view_step; congruence|]. apply guard_Ok, Z.leb_le in H7.
  cpeel H w8 approvers H8 V8; [apply rtc_once, view_step; congruence|].
  assert (V : view w8 = view w) by congruence. eapply rtc_l; [by apply view_step|].
  assert (Hcur8 : project_environments (w_db w8) !! id = Some (env_row current)) by (views; congruence).
  clear -Hcur8 Hproj Hp Hg Hr H7 H.
  apply bind_split in H as [(w9 & e & H9 & -> & ->)|(w9 & [] & H9 & H)].
  - refine (write_step _ _ _ _ _ _ _ _ Hcur8 Hproj _ _ _ _ H9); [|done..].
    by split; cbn; [..|by apply validate_review_ok].
  - apply rtc_r with w9.
    + refine (write_step _ _ _ _ _ _ _ _ Hcur8 Hproj _ _ _ _ H9); [|done..].
    by split; cbn; [..|by apply validate_review_ok].
    + apply view_step. refine (calm_bind _ _ (calm_load_environment project_id id) _ _ _ _ H).
      auto 12 with calm.
Qed.

(** *** Ending promotions *)

Lemma update_promotion_ok id p f w w' n :
  stmt (update_promotion id p f) w = (w', Ok n) ->
  (exists r, environment_promotions (w_db w) !! id = Some r /\ p r = true /\ n = 1 /\
     view w' = (releases (w_db w), release_history (w_db w), w_published w,
       (project_environments (w_db w), <[id := f r]> (environment_promotions (w_db w))))) \/
  n = 0 /\ view w' = view w /\ forall r, environment_promotions (w_db w) !! id = Some r -> p r = false.
Proof.
  intros [H Hp]%stmt_ok. unfold update_promotion in H.
  destruct (environment_promotions (w_db w) !! id) as [r|] eqn:Er; [destruct (p r) eqn:Ep|];
    injection H as Hd <-; [left; exists r|right..]; unfold view, shelf; rewrite <- Hd, Hp; naive_solver.
Qed.

Lemma mark_failed_run {E} (g : sqlx_error -> E) id message now w w' res p :
  environment_promotions (w_db w) !! id = Some p ->
  map_errM g (mark_failed id message now) w = (w', res) ->
  view w' = view w /\ (exists e, res = Err e) \/
  res = Ok tt /\ view w' = (releases (w_db w), release_history (w_db w), w_published w,
    (project_environments (w_db w), <[id := failed_row message now p]> (environment_promotions (w_db w)))).
Proof.
  intros Hp. unfold map_errM, mark_failed, mbind, M_bind.
  destruct (sql _ w) as [w1 [n|e]] eqn:E1; intros [= <- <-].
  - right. split; [done|]. apply sql_ok in E1 as [H Hpub]. unfold update_promotion in H. rewrite Hp in H.
    injection H as Hd _. unfold view, shelf. by rewrite <- Hd, Hpub.
  - left. apply sql_err in E1 as [Hd Hpub]. unfold view. rewrite Hd, Hpub. eauto.
Qed.

Lemma mark_failed_steps {E} (g : sqlx_error -> E) id message now w w' res p :
  environment_promotions (w_db w) !! id = Some p -> pm_state p = PromotionState.Promoting ->
  map_errM g (mark_failed id message now) w = (w', res) -> rtc rstep w w'.
Proof.
  intros Hp Hs H. eapply mark_failed_run in H as [[V _]|[_ V]]; [..|done]; apply rtc_once;
    [by apply view_step|by eapply rs_fail].
Qed.

Lemma rsteps_close in_use actor now p : RSteps (close_promotion in_use actor now p).
Proof.
  intros w w' res H. unfold close_promotion in H.
  cpeel H w1 u1 H1 V1; [by apply rtc_once, view_step|].
  cpeel H w2 still H2 V2; [apply rtc_once, view_step; congruence|]. apply stmt_read_ok in H2 as [-> _].
  assert (V : view w2 = view w) by congruence. eapply rtc_l; [by apply view_step|].
  assert (Hst : forall s, pm_state <$> environment_promotions (w_db w1) !! p.1 = Some s ->
    exists q, environment_promotions (w_db w2) !! p.1 = Some q /\ pm_state q = s).
  { intros s Hs. views. assert (E : environment_promotions (w_db w2) = environment_promotions (w_db w1)) by congruence.
    rewrite E. destruct (environment_promotions (w_db w1) !! p.1) as [q|]; [|done]. exists q. naive_solver. }
  clear V V1 V2. destruct (pm_state <$> _) as [[]|];
    try by (apply rtc_once, view_step; refine (calm_ret _ _ _ _ H)).
  - destruct (Hst _ eq_refl) as (q & Hq & Hs).
    apply bind_split in H as [(w3 & e & H3 & -> & ->)|(w3 & n & H3 & H)].
    { apply rtc_once, view_step. by eapply stmt_view. }
    apply rtc_r with w3; [|apply view_step; by eapply calm_audit].
    apply update_promotion_ok in H3 as [(q' & Hq' & _ & _ & V3)|(_ & V3 & _)]; apply rtc_once; [|by apply view_step].
    assert (q' = q) as -> by congruence. eapply (rs_decide w2 w3); eauto.
  - destruct (Hst _ eq_refl) as (q & Hq & Hs).
    apply bind_split in H as [(w3 & e & H3 & -> & ->)|(w3 & n & H3 & H)].
    + by eapply mark_failed_steps.
    + apply rtc_r with w3; [by eapply mark_failed_steps|apply view_step; by eapply calm_audit].
Qed.

Lemma rsteps_delete_environment in_use project_id id actor now :
  RSteps (delete_environment in_use project_id id actor now).
Proof.
  unfold delete_environment. apply rsteps_bind; [apply calm_steps; auto with calm|]. intros _.
  apply rsteps_bind; [apply calm_steps; auto with calm|]. intros open.
  apply rsteps_bind; [apply rsteps_for_each; intros; apply rsteps_close|]. intros _.
  apply rsteps_bind; [|intros; apply calm_steps; auto with calm].
  intros w w' [[]|e] H; apply rtc_once; [|apply view_step; by eapply stmt_view].
  apply stmt_ok in H as [[= H] Hp]. apply (rs_drop _ _ project_id id). unfold view, shelf. cbn.
  by rewrite <- H, Hp.
Qed.

(** All but the promotions. *)
Definition frame (w : world) :=
  (releases (w_db w), release_history (w_db w), w_published w, project_environments (w_db w)).

Lemma frame_view w w' : view w' = view w -> frame w' = frame w.
Proof. intros H. views. unfold frame. congruence. Qed.

Section Stale.
Context (build_id : string) (environment : ProjectEnvironment) (skip : option string) (now : Z).

Lemma end_stale_run l w w' res :
  NoDup l.*1 ->
  (forall p, p ∈ l -> environment_promotions (w_db w) !! p.1 = Some p.2 /\ open_state (pm_state p.2) = true) ->
  for_each (end_stale environment skip now) l tt w = (w', res) ->
  rtc rstep w w' /\ frame w' = frame w /\
  (forall k, k ∉ l.*1 \/ Some k = skip -> environment_promotions (w_db w') !! k = environment_promotions (w_db w) !! k) /\
  (res = Ok tt -> forall p, p ∈ l -> Some p.1 = skip \/
     exists q, environment_promotions (w_db w') !! p.1 = Some q /\ pm_state q = PromotionState.Failed).
Proof.
  revert w. induction l as [|p l IH]; intros w Hnd Hl H; cbn in H.
  { injection H as <- <-. split_and!; [reflexivity|done|done|]. intros _ q []%elem_of_nil. }
  rewrite fmap_cons, NoDup_cons in Hnd. destruct Hnd as [Hp Hnd].
  destruct (Hl p ltac:(by left)) as [Hpp Hop].
  assert (Hone : forall w1 r1, end_stale environment skip now p tt w = (w1, r1) ->
    rtc rstep w w1 /\ frame w1 = frame w /\
    (forall k, k <> p.1 \/ Some k = skip ->
       environment_promotions (w_db w1) !! k = environment_promotions (w_db w) !! k) /\
    (r1 = Ok tt -> Some p.1 = skip \/
       exists q, environment_promotions (w_db w1) !! p.1 = Some q /\ pm_state q = PromotionState.Failed)).
  { intros w1 r1. unfold end_stale. case_bool_decide as Hsk.
    { intros [= <- <-]. split_and!; [reflexivity|done|done|by left]. }
    case_bool_decide as Hpe; [intros [= <- <-]; by split_and!; [reflexivity|done..]|].
    assert (Hs : pm_state p.2 = PromotionState.Promoting) by (by destruct (pm_state p.2)).
    intros H1. split; [by eapply mark_failed_steps|].
    eapply mark_failed_run in H1 as [[V [e ->]]|[-> V]]; [..|done].
    - split_and!; [by apply frame_view| |done]. views. congruence.
    - views. split_and!; [unfold frame; congruence| |].
      + intros k Hk. match goal with H : environment_promotions (w_db w1) = _ |- _ => rewrite H end.
        rewrite lookup_insert_ne; [done|]. intros <-. by destruct Hk.
      + intros _. right. eexists. match goal with H : environment_promotions (w_db w1) = _ |- _ => rewrite H end.
        by rewrite lookup_insert_eq. }
  apply bind_split in H as [(w1 & e & H1 & -> & ->)|(w1 & [] & H1 & H)].
  { apply Hone in H1 as (S1 & F1 & K1 & _). split_and!; [done|done| |done].
    intros k Hk. apply K1. destruct Hk as [Hk|Hk]; [left; set_solver|by right]. }
  apply Hone in H1 as (S1 & F1 & K1 & R1). apply IH in H as (S2 & F2 & K2 & R2); [|done|].
  - split_and!; [by etransitivity|congruence| |].
    + intros k Hk. rewrite K2 by (destruct Hk; [left; set_solver|by right]).
      apply K1. destruct Hk; [left; set_solver|by right].
    + intros -> q [->|Hq]%elem_of_cons; [|by apply R2].
      destruct (R1 eq_refl) as [?|(q & Hq & Hs)]; [by left|]. right. exists q. by rewrite K2 by (by left).
  - intros q Hq. rewrite K1; [by apply Hl; right|]. left. intros Heq. apply Hp. rewrite <- Heq.
    by apply list_elem_of_fmap_2.
Qed.

(** What [ensure_not_promoted] leaves: stale promotions failed, no other row
    differs; and what it has made sure of when it ends well. *)
Record ensured (w w' : world) (res : result EnvironmentError unit) : Prop := {
  en_steps : rtc rstep w w';
  en_frame : frame w' = frame w;
  en_skip : forall k, Some k = skip ->
    environment_promotions (w_db w') !! k = environment_promotions (w_db w) !! k;
  en_there : res = Ok tt -> is_Some (project_environments (w_db w) !! env_id environment);
  en_new : res = Ok tt -> not_in_environment build_id (env_id environment) (w_db w);
  en_alone : res = Ok tt -> forall k p, environment_promotions (w_db w') !! k = Some p ->
    pm_build_id p = build_id -> pm_environment_id p = env_id environment ->
    open_state (pm_state p) = true -> Some k = skip;
}.

Lemma ensured_calm w w' e : view w' = view w -> ensured w w' (Err e).
Proof.
  intros V. split; [by apply rtc_once, view_step|by apply frame_view| |done..]. views. congruence.
Qed.

Lemma ensure_run w w' res :
  ensure_not_promoted build_id environment skip now w = (w', res) -> ensured w w' res.
Proof.
  unfold ensure_not_promoted. intros H.
  cpeel H w1 there H1 V1; [by apply ensured_calm|]. apply stmt_read_ok in H1 as [-> _].
  cpeel H w2 u2 H2 V2; [apply ensured_calm; congruence|]. apply guard_Ok, bool_decide_eq_true in H2.
  cpeel H w3 existing H3 V3; [apply ensured_calm; congruence|]. apply stmt_read_ok in H3 as [-> _].
  cpeel H w4 u4 H4 V4; [apply ensured_calm; congruence|]. apply guard_Ok, negb_true_iff in H4.
  cpeel H w5 open H5 V5; [apply ensured_calm; congruence|]. apply stmt_read_ok in H5 as [-> _].
  assert (V : view w5 = view w) by congruence.
  assert (R : releases (w_db w2) = releases (w_db w)) by (views; congruence).
  assert (P : environment_promotions (w_db w4) = environment_promotions (w_db w)) by (views; congruence).
  assert (P5 : environment_promotions (w_db w5) = environment_promotions (w_db w)) by (views; congruence).
  rewrite R in H4. rewrite P in H. clear V1 V2 V3 V4 V5 R P w1 w2 w3 w4 u2 u4. set (l := filter _ _) in H.
  assert (Hl : forall p, p ∈ l <-> (pm_build_id p.2 = build_id /\ pm_environment_id p.2 = env_id environment /\
    open_state (pm_state p.2) = true) /\ environment_promotions (w_db w) !! p.1 = Some p.2).
  { intros [k p]. unfold l. rewrite list_elem_of_filter, elem_of_map_to_list. done. }
  apply end_stale_run in H as (S & F & K & Rs);
    [|apply filter_keys_nodup|intros p Hp; rewrite P5; naive_solver].
  split; [by eapply rtc_l; [apply view_step|]|rewrite F; by apply frame_view| |done|..].
  - intros k Hk. by rewrite K, P5 by (by right).
  - intros _ k r Hr Hb He. apply dec_stable. intros Hs. apply not_true_iff_false in H4. apply H4, existsb_exists.
    exists (k, r). rewrite <- list_elem_of_In, elem_of_map_to_list. split; [done|]. cbn.
    rewrite Hb, String.eqb_refl, bool_decide_true, bool_decide_false by done. done.
  - intros Hok k p Hk Hb He Ho. destruct (decide (Some k = skip)) as [|Hns]; [done|]. exfalso.
    destruct (decide (k ∈ l.*1)) as [Hin|Hin].
    + apply list_elem_of_fmap in Hin as ([k' q] & -> & Hin). destruct (Rs Hok _ Hin) as [?|(q' & Hq' & Hf)]; [done|].
      cbn in *. simplify_eq. by rewrite Hf in Ho.
    + rewrite K, P5 in Hk by (by left). apply Hin, list_elem_of_fmap. exists (k, p). split; [done|]. by apply Hl.
Qed.

End Stale.

Lemma map_err_id {E A} (m : ME E A) w w' r : m w = (w', r) -> map_errM id m w = (w', r).
Proof. unfold map_errM. intros ->. by destruct r. Qed.

(** Failing promotions that are under way, one by one. *)
Lemma fail_each_steps message now l w w' res :
  NoDup l ->
  (forall id, id ∈ l -> exists p, environment_promotions (w_db w) !! id = Some p /\
     pm_state p = PromotionState.Promoting) ->
  for_each (fun id (_ : unit) => _ ← mark_failed id message now;
    env_audit System "promotion_failed" "environment_promotion" id) l tt w = (w', res) ->
  rtc rstep w w'.
Proof.
  revert w. induction l as [|id l IH]; intros w Hnd Hl H; cbn in H.
  { by injection H as <-. }
  apply NoDup_cons in Hnd as [Hid Hnd]. destruct (Hl id ltac:(by left)) as (p & Hp & Hs).
  assert (Hone : forall w1 r, (_ ← mark_failed id message now;
    env_audit System "promotion_failed" "environment_promotion" id) w = (w1, r) ->
    rtc rstep w w1 /\ forall k, k <> id -> environment_promotions (w_db w1) !! k = environment_promotions (w_db w) !! k).
  { intros w1 r [(w2 & e & H2%map_err_id & -> & ->)|(w2 & [] & H2%map_err_id & Ha%calm_audit)]%bind_split;
      pose proof (mark_failed_steps _ _ _ _ _ _ _ _ Hp Hs H2) as S2;
      eapply mark_failed_run in H2 as [[V [? ?]]|[? V]]; try done; views.
    - split; [done|congruence].
    - split; [apply rtc_r with w2; [done|apply view_step; unfold view, shelf; congruence]|]. intros k Hk.
      assert (E : environment_promotions (w_db w1) =
        <[id := failed_row message now p]> (environment_promotions (w_db w))) by congruence.
      by rewrite E, lookup_insert_ne. }
  apply bind_split in H as [(w1 & e & [S1 _]%Hone & -> & ->)|(w1 & [] & [S1 K1]%Hone & H)]; [done|].
  etransitivity; [exact S1|]. apply (IH w1 Hnd); [|done]. intros k Hk. rewrite K1; [by apply Hl; right|].
  by intros ->.
Qed.

Lemma rsteps_fail_interrupted now : RSteps (fail_interrupted_promotions now).
Proof.
  intros w w' res H. unfold fail_interrupted_promotions in H.
  apply bind_split in H as [(w1 & e & H1 & -> & ->)|(w1 & ids & H1 & H)].
  { apply rtc_once, view_step. refine (calm_sql _ _ _ _ _ H1). done. }
  assert (V1 : view w1 = view w) by (refine (calm_sql _ _ _ _ _ H1); done).
  apply sql_ok in H1 as [[= _ <-] _]. set (l := filter _ _) in H.
  assert (Hl : forall k, k ∈ map fst l -> exists p, environment_promotions (w_db w1) !! k = Some p /\
    pm_state p = PromotionState.Promoting).
  { intros k ([k' p] & -> & Hp)%list_elem_of_fmap. unfold l in Hp.
    apply list_elem_of_filter in Hp as [Hs Hp%elem_of_map_to_list]. exists p. views. cbn. split; [congruence|done]. }
  assert (Hnd : NoDup (map fst l)) by exact (filter_keys_nodup _ (environment_promotions (w_db w))).
  eapply rtc_l; [by apply view_step|].
  apply bind_split in H as [(w2 & e & H & -> & ->)|(w2 & u & H & [= <- _])];
    (eapply fail_each_steps; [exact Hnd|exact Hl|exact H]).
Qed.

(** *** Promoting *)

Section Promoting.
Context {client : ReleaseStoreClient} {laws : ReleaseStoreLaws}.

(** A promotion that may go ahead. *)
Record under_way (d : db) (id : string) (p : promotion) (env : ProjectEnvironment) (source : Release) : Prop := {
  uw_promotion : environment_promotions d !! id = Some p;
  uw_state : pm_state p = PromotionState.Promoting;
  uw_id : env_id env = pm_environment_id p;
  uw_environment : project_environments d !! pm_environment_id p = Some (env_row env);
  uw_source : rel_id source = pm_source_release_id p;
  uw_release : releases d !! pm_source_release_id p = Some (rel_row source);
  uw_live : holds_version (rl_state (rel_row source)) = true;
  uw_new : not_in_environment (pm_build_id p) (pm_environment_id p) d;
}.

(** It reads the releases, the environments and the promotions only. *)
Lemma under_way_ext d d' id p env source :
  releases d' = releases d -> shelf d' = shelf d -> under_way d id p env source -> under_way d' id p env source.
Proof.
  unfold shelf. intros R [= E P] [Hp Hs Hid He Hsrc Hr Hl Hn]. split; try congruence.
  unfold not_in_environment in *. by rewrite R.
Qed.

Lemma promote_run id p env source actor now w w' res :
  under_way (w_db w) id p env source ->
  promote_at_store id (env_row env) source actor now w = (w', res) ->
  rtc rstep w w' /\
  match res with
  | Ok promoted => releases (w_db w') = releases (w_db w) /\ shelf (w_db w') = shelf (w_db w)
  | Err _ => True
  end.
Proof.
  intros [Hp Hs Hid He Hsrc Hr Hl Hn] H. unfold promote_at_store, catch, call, mbind, M_bind in H. cbn in H.
  set (w1 := World (w_db w) (w_faults w)
    (w_published w ++ [StorePromoted (rel_id source) (promotion_target (env_row env))])) in H.
  assert (S1 : rstep w w1).
  { eapply (rs_promote w w1); [|done|done]. rewrite Hsrc.
    exists id, p, (env_row env), (rel_row source). by split_and!. }
  destruct (promote _ _ w1) as [w2 r2] eqn:Ep. apply promote_law in Ep as Hc.
  assert (S2 : rtc rstep w w2) by (eapply rtc_l; [exact S1|]; by apply rtc_once, client_step).
  destruct Hc as [[links D2] _ _]. destruct r2 as [promoted|error].
  { injection H as <- <-. split; [done|]. by rewrite D2. }
  destruct (map_errM EnvDb _ w2) as [w3 r3] eqn:E3.
  assert (S3 : rtc rstep w w3).
  { etransitivity; [exact S2|]. eapply mark_failed_steps; [by rewrite D2|exact Hs|exact E3]. }
  destruct r3 as [[]|e3]; [|by injection H as <- <-].
  destruct (env_audit _ _ _ _ w3) as [w4 [[]|e4]] eqn:E4; injection H as <- <-; (split; [|done]);
    (eapply rtc_r; [exact S3|]); apply view_step; by eapply calm_audit.
Qed.

Lemma map_err_ok {E F A} (g : E -> F) (m : ME E A) w w' a : map_errM g m w = (w', Ok a) -> m w = (w', Ok a).
Proof. unfold map_errM. destruct (m w) as [w1 [x|e]]; [|done]. by intros [= -> ->]. Qed.

Lemma calm_link rid link now : calm (record_promoted_link rid link now).
Proof.
  apply calm_bind; [|auto with calm]. apply calm_map_err, calm_sql. intros d. by destruct (_ !! _).
Qed.

Lemma commit_view {E A} (on_err : sqlx_error -> E) (body : ME E (tx_end A)) w w' a :
  mute body -> (forall w0 w1 x, body w0 = (w1, Ok x) -> exists b, x = Commit b) ->
  transaction_with on_err body w = (w', Ok a) ->
  exists w0 w1, view w0 = view w /\ body w0 = (w1, Ok (Commit a)) /\ view w' = view w1.
Proof.
  intros Hm Hc H. pose proof H as H'. apply transaction_with_ok in H as (w0 & w1 & D0 & P0 & P1 & [[H D]|[H _]]).
  - exists w0, w1. unfold view. by rewrite D0, P0, D, P1.
  - destruct H as [H|H]; apply Hc in H as [? [=]].
Qed.

Lemma record_run id p env source actor reason promoted new_id now w w' res :
  under_way (w_db w) id p env source ->
  record_promotion id env source actor reason promoted new_id now w = (w', res) ->
  match res with
  | Ok created => rstep w w' /\ rel_id created.1 = new_id /\
      environment_promotions (w_db w') = <[id := completed_row new_id now p]> (environment_promotions (w_db w)) /\
      releases (w_db w') = <[new_id := first_row (promoted_release env source promoted) actor
        (Some (env_id env)) now]> (releases (w_db w)) /\
      rel_row created.1 = first_row (promoted_release env source promoted) actor (Some (env_id env)) now
  | Err _ => view w' = view w
  end.
Proof.
  intros [Hp Hs Hid He Hsrc Hr Hl Hn] H. destruct res as [created|e].
  - apply commit_view in H as (w0 & w1 & V0 & H & V').
    + apply M_bind_ok in H as (w2 & [rel rs] & H2%map_err_ok & H).
      apply insert_release_ok in H2 as (Hok & Hfresh & eid & Heid & V2 & Hrid & Hrow).
      specialize (Heid _ eq_refl). subst eid.
      apply M_bind_ok in H as (w3 & [] & H3 & H).
      assert (V3 : view w3 = view w2)
        by (destruct (pd_app_store_link promoted); [by eapply calm_link|by injection H3 as ->]).
      apply M_bind_ok in H as (w4 & n & H4 & [= -> <-]). cbn in *. rewrite Hrid in *.
      apply update_promotion_ok in H4 as [(q & Hq & _ & _ & V4)|(_ & _ & Hn4)]; views.
      * assert (q = p) as -> by congruence.
        assert (V' : view w' = (<[new_id := first_row (promoted_release env source promoted) actor
            (Some (env_id env)) now]> (releases (w_db w)),
          release_history (w_db w) ++ [first_entry new_id (promoted_release env source promoted) actor
            (Some (promotion_note source reason promoted)) now], w_published w,
          (project_environments (w_db w), <[id := completed_row new_id now p]> (environment_promotions (w_db w)))))
          by (unfold view, shelf; congruence).
        split_and!; [|done|congruence|congruence|exact Hrow].
        refine (rs_complete w w' id p (rel_row source) new_id _ _ now Hp Hs Hr _ _ _ _ _ _ _ _ _ V');
          [congruence|by apply first_row_fresh|done|by rewrite <- Hid|by rewrite <- Hsrc|done..].
      * assert (Hq : environment_promotions (w_db w3) !! id = Some p) by congruence. by specialize (Hn4 _ Hq).
    + mute_tac.
    + intros x y z (? & ? & _ & Hb)%M_bind_ok. apply M_bind_ok in Hb as (? & ? & _ & Hb).
      apply M_bind_ok in Hb as (? & ? & _ & [= _ <-]). eauto.
  - by apply transaction_view in H; [|mute_tac].
Qed.

(** Promoting, whatever fails on the way, is a sequence of steps. *)
Lemma execute_steps id p env source actor reason new_id now w w' res :
  under_way (w_db w) id p env source ->
  execute_promotion id env source actor reason new_id now w = (w', res) -> rtc rstep w w'.
Proof.
  intros Hu H. unfold execute_promotion in H.
  apply bind_split in H as [(w1 & e & H1 & -> & ->)|(w1 & promoted & H1 & H)].
  { by eapply promote_run in H1 as [? _]. }
  eapply promote_run in H1 as (S1 & R1 & Q1); [|done]. etransitivity; [exact S1|].
  assert (Hu1 : under_way (w_db w1) id p env source) by by eapply under_way_ext. clear S1 R1 Q1 Hu.
  apply bind_split in H as [(w2 & e & H2 & -> & ->)|(w2 & created & H2 & H)]; unfold catch in H2;
    destruct (record_promotion _ _ _ _ _ _ _ _ w1) as [w3 r3] eqn:E3; destruct r3 as [c|e3];
    apply (record_run _ _ _ _ _ _ _ _ _ _ _ _ Hu1) in E3; try done.
  - assert (Hu3 : environment_promotions (w_db w3) !! id = Some p) by (destruct Hu1; views; congruence).
    transitivity w3; [by apply rtc_once, view_step|].
    apply bind_split in H2 as [(w4 & e4 & H4 & -> & _)|(w4 & [] & H4 & [= <- _])];
      (eapply mark_failed_steps; [exact Hu3|by destruct Hu1|exact H4]).
  - injection H2 as -> ->. destruct E3 as [S3 _]. eapply rtc_l; [exact S3|].
    refine (rsteps_bind _ _ (rsteps_finish _ _ _) _ _ _ _ H). intros. apply calm_steps. auto 12 with calm.
  - by apply bind_split in H2 as [(? & ? & _ & _ & [=])|(? & ? & _ & [=])].
Qed.

Lemma calm_find_source build_id env : calm (find_source_release build_id env).
Proof. apply calm_read. Qed.

Lemma find_source_ok build_id env w w' source :
  find_source_release build_id env w = (w', Ok (Some source)) ->
  releases (w_db w) !! rel_id source = Some (rel_row source) /\
  promotable build_id env (w_db w) (rel_id source, rel_row source) = true.
Proof.
  intros [H _]%stmt_read_ok. set (l := merge_sort _ _) in H. destruct (head l) as [[k r]|] eqn:Eh; [|done].
  injection H as ->. assert (Hin : (k, r) ∈ l) by by (destruct l; simplify_eq/=; left).
  unfold l in Hin. rewrite merge_sort_Permutation in Hin.
  by apply list_elem_of_filter in Hin as [Hp Hr%elem_of_map_to_list].
Qed.

Lemma promotable_ok build_id env d id r :
  promotable build_id env d (id, r) = true ->
  rl_build_id r = build_id /\ rl_store r = pe_store (env_row env) /\ holds_version (rl_state r) = true /\
  rl_environment_id r <> Some (env_id env).
Proof.
  unfold promotable. cbn. rewrite !andb_true_iff, negb_true_iff, String.eqb_eq, bool_decide_eq_true,
    bool_decide_eq_false. naive_solver.
Qed.

Lemma insert_promotion_run id row w w' res :
  insert_promotion id row w = (w', res) ->
  view w' = view w /\ (exists e, res = Err e) \/
  res = Ok tt /\ environment_promotions (w_db w) !! id = None /\
  view w' = (releases (w_db w), release_history (w_db w), w_published w,
    (project_environments (w_db w), <[id := row]> (environment_promotions (w_db w)))).
Proof.
  intros [(w1 & e & H1 & -> & ->)|(w1 & fresh & [H1 P1]%stmt_ok & H)]%bind_split.
  { left. split; [by eapply stmt_view|eauto]. }
  destruct (environment_promotions (w_db w) !! id) eqn:E; injection H1 as D1 <-; injection H as <- <-;
    [left|right]; unfold view, shelf; rewrite <- D1, P1; eauto.
Qed.

(** A build that may be promoted into [env] from [source]. *)
Record may_start (d : db) (build_id : string) (env : ProjectEnvironment) (source : Release) : Prop := {
  ms_environment : project_environments d !! env_id env = Some (env_row env);
  ms_source : releases d !! rel_id source = Some (rel_row source);
  ms_build : rl_build_id (rel_row source) = build_id;
  ms_store : rl_store (rel_row source) = pe_store (env_row env);
  ms_live : holds_version (rl_state (rel_row source)) = true;
  ms_new : not_in_environment build_id (env_id env) d;
  ms_alone : nothing_open build_id (env_id env) d;
}.

(** These read the releases and the environments only. *)
Lemma not_in_environment_ext b e d d' :
  releases d' = releases d -> not_in_environment b e d -> not_in_environment b e d'.
Proof. unfold not_in_environment. by intros ->. Qed.

Lemma nothing_open_ext b e d d' :
  environment_promotions d' = environment_promotions d -> nothing_open b e d -> nothing_open b e d'.
Proof. unfold nothing_open. by intros ->. Qed.

Lemma start_steps project_id env source req actor id new_id now w w' res :
  may_start (w_db w) (cp_build_id req) env source -> pe_project_id (env_row env) = project_id ->
  start_promotion project_id env source req actor id new_id now w = (w', res) -> rtc rstep w w'.
Proof.
  intros [He Hs Hb Hst Hl Hn Ha] Hproj H. unfold start_promotion in H. set (row := requested_row _ _ _ _ _ _) in H.
  apply bind_split in H as [(w1 & e & H1 & -> & ->)|(w1 & [] & H1 & H)];
    apply insert_promotion_run in H1 as [[V1 [? Hr]]|(Hr & Hfresh & V1)]; try done.
  { by apply rtc_once, view_step. }
  transitivity w1.
  { apply rtc_once. eapply rs_request; [exact Hfresh| |exact V1]. by split. }
  cpeel H w2 u2 H2 V2; [by apply rtc_once, view_step|]. transitivity w2; [by apply rtc_once, view_step|].
  case_bool_decide as Hpr; [|apply rtc_once, view_step; refine (calm_ret _ _ _ _ H)].
  assert (Hu : under_way (w_db w2) id row env source).
  { views. split; [|done|done|cbn; congruence|done|cbn; congruence|done|].
    - assert (E : environment_promotions (w_db w2) = <[id := row]> (environment_promotions (w_db w))) by congruence.
      by rewrite E, lookup_insert_eq.
    - eapply not_in_environment_ext; [|exact Hn]. congruence. }
  apply bind_split in H as [(w3 & e & H & -> & ->)|(w3 & [] & H & [= <- _])]; by eapply execute_steps.
Qed.

Lemma rsteps_request project_id role actor req id new_id now :
  RSteps (request_promotion project_id role actor req id new_id now).
Proof.
  intros w w' res H. unfold request_promotion in H.
  cpeel H w1 env H1 V1; [by apply rtc_once, view_step|].
  apply load_environment_ok in H1 as (_ & <- & He & Hproj & _).
  cpeel H w2 u2 H2 V2; [apply rtc_once, view_step; congruence|].
  cpeel H w3 st H3 V3; [apply rtc_once, view_step; congruence|].
  cpeel H w4 status H4 V4; [apply rtc_once, view_step; congruence|].
  cpeel H w5 u5 H5 V5; [apply rtc_once, view_step; congruence|].
  assert (V : view w5 = view w) by congruence. transitivity w5; [by apply rtc_once, view_step|].
  apply bind_split in H as [(w6 & e & H6%ensure_run & -> & ->)|(w6 & [] & H6%ensure_run & H)];
    destruct H6 as [S6 F6 _ _ Hnew Hal]; [done|].
  etransitivity; [exact S6|]. specialize (Hnew eq_refl). specialize (Hal eq_refl).
  apply calm_peel in H as [[? [? ->]]|(w7 & source & H7 & V7 & H)];
    [by apply rtc_once, view_step| |apply calm_find_source].
  cpeel H w8 src H8 V8; [apply rtc_once, view_step; congruence|]. apply from_option_Ok in H8. subst source.
  apply find_source_ok in H7 as [Hsrc (Hb & Hstore & Hlive & _)%promotable_ok].
  assert (V' : view w8 = view w6) by congruence. transitivity w8; [by apply rtc_once, view_step|].
  assert (Hms : may_start (w_db w8) (cp_build_id req) env src).
  { clear V1 V2 V3 V4 V5 V7 V8. unfold frame in F6. injection F6 as R6 _ _ E6. views.
    split; [congruence|congruence|done|done|done|..].
    - eapply not_in_environment_ext; [|exact Hnew]. congruence.
    - eapply nothing_open_ext; [eassumption|]. intros k p Hk Hbp Hep.
      destruct (open_state (pm_state p)) eqn:Ho; [|done]. by specialize (Hal _ _ Hk Hbp Hep Ho). }
  clear -Hms Hproj H client laws. apply bind_split in H as [(w9 & e & H & -> & ->)|(w9 & [] & H9 & H)].
  - by eapply start_steps.
  - apply rtc_r with w9; [by eapply start_steps|]. apply view_step. by eapply calm_load_promotion.
Qed.

Lemma check_run id p env now w w' res :
  check_before_promoting id p env now w = (w', res) ->
  rtc rstep w w' /\ frame w' = frame w /\
  environment_promotions (w_db w') !! id = environment_promotions (w_db w) !! id /\
  forall source, res = Ok source ->
    is_Some (project_environments (w_db w) !! env_id env) /\ rel_id source = pm_source_release_id p /\
    releases (w_db w) !! pm_source_release_id p = Some (rel_row source) /\
    holds_version (rl_state (rel_row source)) = true /\
    not_in_environment (pm_build_id p) (env_id env) (w_db w).
Proof.
  unfold check_before_promoting. intros H.
  apply bind_split in H as [(w1 & e & H1%ensure_run & -> & ->)|(w1 & [] & H1%ensure_run & H)];
    destruct H1 as [S1 F1 K1 Hth Hnew _]; specialize (K1 id eq_refl); [by split_and!|].
  specialize (Hth eq_refl). specialize (Hnew eq_refl).
  assert (Hcalm : forall w2, view w2 = view w1 -> rtc rstep w w2 /\ frame w2 = frame w /\
    environment_promotions (w_db w2) !! id = environment_promotions (w_db w) !! id).
  { intros w2 V2. split_and!; [by eapply rtc_r; [|apply view_step]| |views; congruence].
    rewrite <- F1. by apply frame_view. }
  cpeel H w2 source H2 V2; [destruct (Hcalm w' ltac:(done)) as (? & ? & ?); by split_and!|].
  apply map_err_ok, load_release_ok in H2 as (r & Hr & ->).
  cpeel H w3 u3 H3 V3; [destruct (Hcalm w' ltac:(congruence)) as (? & ? & ?); by split_and!|].
  injection H as <- <-. destruct (Hcalm w3 ltac:(congruence)) as (? & ? & ?). split_and!; [done..|].
  apply guard_Ok in H3. intros source [= <-]. cbn in *. split_and!; [done|done| |done|done].
  unfold frame in F1. congruence.
Qed.

Lemma approved_steps id p q env actor reason new_id now w w' res :
  environment_promotions (w_db w) !! id = Some q -> pm_state q = PromotionState.Promoting ->
  pm_build_id q = pm_build_id p -> pm_environment_id q = pm_environment_id p ->
  pm_source_release_id q = pm_source_release_id p -> env_id env = pm_environment_id p ->
  project_environments (w_db w) !! env_id env = Some (env_row env) ->
  promote_approved id p env actor reason new_id now w = (w', res) -> rtc rstep w w'.
Proof.
  intros Hq Hs Hb He Hsrc Hid Henv H. unfold promote_approved in H.
  apply bind_split in H as [(w1 & e & H1 & -> & ->)|(w1 & source & H1 & H)]; unfold catch in H1;
    destruct (check_before_promoting _ _ _ _ w) as [w2 [source2|e2]] eqn:E2;
    apply check_run in E2 as (S2 & F2 & K2 & Hok); try done; rewrite Hq in K2.
  - etransitivity; [exact S2|].
    apply bind_split in H1 as [(w3 & e3 & H3 & -> & _)|(w3 & [] & H3 & [= <- _])]; by eapply mark_failed_steps.
  - injection H1 as -> ->. destruct (Hok _ eq_refl) as (_ & Hsid & Hr & Hl & Hn).
    etransitivity; [exact S2|]. unfold frame in F2. injection F2 as R2 _ _ E2.
    assert (Hu : under_way (w_db w1) id q env source).
    { split; [done|done|congruence..|done|]. rewrite Hb, He, <- Hid. by eapply not_in_environment_ext. }
    apply bind_split in H as [(w3 & e & H & -> & ->)|(w3 & [] & H & [= <- _])]; by eapply execute_steps.
  - by apply bind_split in H1 as [(? & ? & _ & _ & [=])|(? & ? & _ & [=])].
Qed.

Lemma load_promotion_ok project_id id viewer w w' p env :
  load_promotion_with_environment project_id id viewer w = (w', Ok (p, env)) ->
  view w' = view w /\ environment_promotions (w_db w) !! id = Some (ep_row p) /\
  env_id env = pm_environment_id (ep_row p) /\ project_environments (w_db w) !! env_id env = Some (env_row env) /\
  pe_project_id (env_row env) = project_id.
Proof.
  intros H. split; [by eapply calm_load_promotion_with|]. unfold load_promotion_with_environment in H.
  apply M_bind_ok in H as (w1 & row & [-> V1]%stmt_read_ok & H).
  apply M_bind_ok in H as (w2 & q & H2 & H). destruct (environment_promotions (w_db w) !! id) as [q0|] eqn:Eq; [|done].
  destruct (_ && _); [|done]. injection H2 as -> <-.
  apply M_bind_ok in H as (w3 & env0 & (V3 & Hid & He & Hp & _)%load_environment_ok & [= _ <- <-]). cbn.
  split_and!; [done|done|views; congruence|done].
Qed.

Lemma rsteps_decide project_id id role actor approve reason new_id now :
  RSteps (decide_promotion project_id id role actor approve reason new_id now).
Proof.
  intros w w' res H. unfold decide_promotion in H.
  cpeel H w1 u1 H1 V1; [by apply rtc_once, view_step|].
  cpeel H w2 loaded H2 V2; [apply rtc_once, view_step; congruence|]. destruct loaded as [ep env].
  apply load_promotion_ok in H2 as (_ & Hp & Hid & He & _). cbn in H.
  cpeel H w3 u3 H3 V3; [apply rtc_once, view_step; congruence|].
  assert (V : view w3 = view w) by congruence. transitivity w3; [by apply rtc_once, view_step|].
  apply bind_split in H as [(w4 & e & H4%stmt_view & -> & ->)|(w4 & n & H4 & H)];
    [by apply rtc_once, view_step|].
  apply update_promotion_ok in H4 as [(q & Hq & Hpend & -> & V4)|(-> & V4 & _)].
  2:{ injection H as <- _. by apply rtc_once, view_step. }
  apply bool_decide_eq_true in Hpend. transitivity w4.
  { apply rtc_once. eapply rs_decide; [exact Hq|exact Hpend| |exact V4]. destruct approve; auto. }
  assert (q = ep_row ep) as -> by (views; congruence).
  set (q := decided_row _ _ _ _ _) in V4.
  assert (Hq4 : environment_promotions (w_db w4) !! id = Some q /\
    project_environments (w_db w4) !! env_id env = Some (env_row env)).
  { views. split; [|congruence].
    match goal with H : environment_promotions (w_db w4) = _ |- _ => rewrite H end. by rewrite lookup_insert_eq. }
  cpeel H w5 u5 H5 V5; [by apply rtc_once, view_step|].
  cpeel H w6 by_ H6 V6; [apply rtc_once, view_step; congruence|].
  cpeel H w7 by' H7 V7; [apply rtc_once, view_step; congruence|].
  cpeel H w8 u8 H8 V8; [apply rtc_once, view_step; congruence|].
  assert (V' : view w8 = view w4) by congruence. transitivity w8; [by apply rtc_once, view_step|].
  assert (Hq8 : environment_promotions (w_db w8) !! id = Some q /\
    project_environments (w_db w8) !! env_id env = Some (env_row env)).
  { clear -Hq4 V'. views. destruct Hq4. split; congruence. }
  destruct Hq8 as [Hq8 He8]. clear -Hq8 He8 Hid H client laws.
  apply bind_split in H as [(w9 & e & H & -> & ->)|(w9 & [] & H9 & H)].
  - destruct approve; [by eapply approved_steps|apply rtc_once, view_step; refine (calm_ret _ _ _ _ H)].
  - apply rtc_r with w9; [|apply view_step; by eapply calm_load_promotion].
    destruct approve; [by eapply approved_steps|apply rtc_once, view_step; refine (calm_ret _ _ _ _ H9)].
Qed.

End Promoting.
