(* ===== verification/AppStoreRuns.v ===== *)
(** * What the App Store component does to releases

    The operations of [AppStore.v] as steps of [Rollouts.v]: the router keeps
    the laws of [ReleaseStoreClient] whatever Apple answers, and the settings,
    the report of an upload and the monitor move releases only by legal steps.
    Then what each does: the upload is recorded once, a step of the monitor
    brings the release to where Apple has it, and the monitor gives up after a
    day of failures. *)

From stdpp Require Import relations.
From S2P Require Import Prelude Contract RustStr F64 Rollout Stores Db Access Builds Runners Creation Publishing Releases Environments AppStore Rollouts Promotions.

Local Open Scope Z_scope.

(** ** The router is a store client *)

Lemma client_run_refl w : client_run w w.
Proof.
  split; [exists (app_store_links (w_db w)); by destruct (w_db w)|exists []; by rewrite app_nil_r|done].
Qed.

Lemma client_run_trans w1 w2 w3 : client_run w1 w2 -> client_run w2 w3 -> client_run w1 w3.
Proof.
  intros [[l1 D1] (k1 & P1 & H1) F1] [[l2 D2] (k2 & P2 & H2) F2]. split; [|exists (k1 ++ k2)|by auto].
  - exists l2. by rewrite D2, D1.
  - rewrite P2, P1, app_assoc. split; [done|]. by apply Forall_app.
Qed.

Section ClientOps.
Context {E F A B : Type}.

Lemma client_ret (a : A) : client_op (mret a : ME E A).
Proof. intros w w' r [= <- _]. apply client_run_refl. Qed.

Lemma client_throw (e : E) : client_op (throw e : ME E A).
Proof. intros w w' r [= <- _]. apply client_run_refl. Qed.

Lemma client_bind (m : ME E A) (k : A -> ME E B) :
  client_op m -> (forall a, client_op (k a)) -> client_op (m ≫= k).
Proof.
  intros Hm Hk w w' r. unfold mbind, M_bind. destruct (m w) as [w1 [a|e]] eqn:E1; apply Hm in E1.
  - intros H%Hk. by eapply client_run_trans.
  - by intros [= <- _].
Qed.

Lemma client_catch (m : ME E A) (k : result E A -> ME F B) :
  client_op m -> (forall r, client_op (k r)) -> client_op (catch m k).
Proof.
  intros Hm Hk w w' r. unfold catch. destruct (m w) as [w1 x] eqn:E1. apply Hm in E1.
  intros H%Hk. by eapply client_run_trans.
Qed.

Lemma client_map_err (g : E -> F) (m : ME E A) : client_op m -> client_op (map_errM g m).
Proof.
  intros Hm w w' r. unfold map_errM. destruct (m w) as [w1 x] eqn:E1. intros [= <- _]. by eapply Hm.
Qed.

Lemma client_from_option (e : E) (o : option A) : client_op (from_option e o).
Proof. destruct o; [apply client_ret|apply client_throw]. Qed.

(** A statement that writes links only. *)
Lemma client_sql (f : db -> db * A) :
  (forall d, exists links, fst (f d) = set_app_store_links links d) -> client_op (sql f).
Proof.
  intros Hf w w' r. unfold sql. specialize (Hf (w_db w)).
  assert (Hid : exists links, w_db w = set_app_store_links links (w_db w))
    by (exists (app_store_links (w_db w)); by destruct (w_db w)).
  destruct (w_faults w) as [|[e|] fs] eqn:Ef, (f (w_db w)) as [d a]; cbn in *; intros [= <- _];
    (split; [done|exists []; by rewrite app_nil_r|cbn; congruence]).
Qed.

Lemma client_read (f : db -> A) : client_op (sql (fun d => (d, f d))).
Proof. apply client_sql. intros d. exists (app_store_links d). by destruct d. Qed.

End ClientOps.

Lemma client_guard {E} c (e : E) : client_op (guard c e).
Proof. destruct c; [apply client_ret|apply client_throw]. Qed.

Lemma client_for_each {E A B} (f : A -> B -> ME E B) l :
  (forall x acc, client_op (f x acc)) -> forall acc, client_op (for_each f l acc).
Proof.
  intros Hf. induction l as [|x l IH]; intros acc; cbn; [apply client_ret|]. apply client_bind; auto.
Qed.

Lemma client_update release_id f : client_op (sql (update_link release_id f)).
Proof.
  apply client_sql. intros d. unfold update_link.
  destruct (app_store_links d !! release_id); cbn; [eauto|]. exists (app_store_links d). by destruct d.
Qed.

Create HintDb client.
#[export] Hint Resolve client_ret client_throw client_bind client_catch client_map_err client_from_option
  client_guard client_read client_for_each client_update : client.

(** Decompose a client into its calls and statements. *)
Ltac client_tac :=
  repeat lazymatch goal with
  | |- client_op (_ ≫= _) => apply client_bind
  | |- client_op (catch _ _) => apply client_catch
  | |- client_op (map_errM _ _) => apply client_map_err
  | |- client_op (for_each _ _ _) => apply client_for_each
  | |- forall _, _ => intros
  | |- client_op (let _ := _ in _) => cbv zeta
  | |- client_op (match _ with _ => _ end) => case_match
  | |- client_op _ => solve [auto 2 with client]
  end.

Section Router.
Context {outside : AppStoreOutside}.

Lemma client_ask creds c : client_op (ask creds c).
Proof.
  intros w w' r [= <- _]. split; cbn; [|by exists [AppleAsked c]; repeat constructor|done].
  exists (app_store_links (w_db w)). by destruct (w_db w).
Qed.

Lemma client_clock {E} : client_op (clock : ME E Z).
Proof. intros w w' r [= <- _]. apply client_run_refl. Qed.

#[local] Hint Resolve client_clock : client.
#[local] Hint Extern 1 (client_op (ask ?creds ?c)) => exact (client_ask creds c) : client.

Lemma client_notes creds f notes : client_op (set_notes creds f notes).
Proof. unfold set_notes. client_tac. Qed.

#[local] Hint Resolve client_notes : client.

Lemma client_testflight creds app_id build_id beta config step :
  client_op (distribute_testflight creds app_id build_id beta config step).
Proof. unfold distribute_testflight. client_tac. Qed.

Lemma client_app_store creds app_id build_id link config step :
  client_op (distribute_app_store creds app_id build_id link config step).
Proof. unfold distribute_app_store. client_tac. Qed.

Lemma client_credentials pipeline_id a b : client_op (credentials_for pipeline_id a b).
Proof.
  unfold credentials_for, load_signing_key_row. client_tac.
Qed.

#[local] Hint Resolve client_testflight client_app_store client_credentials : client.

Lemma client_advance creds link now : client_op (advance creds link now).
Proof.
  unfold advance, advance_build, advance_distribute, advance_beta_review, advance_review, advance_live.
  client_tac.
Qed.

Lemma client_apply release change : client_op (app_store_apply_change release change).
Proof. unfold app_store_apply_change, set_phased. client_tac. Qed.

Lemma client_promote_with creds source target : client_op (promote_with creds source target).
Proof.
  unfold promote_with, promotion_version, ensure_version_free, promoted_as, asc_failed, refused.
  client_tac.
Qed.

Lemma client_promote source target : client_op (app_store_promote source target).
Proof. unfold app_store_promote, asc_failed. client_tac. apply client_promote_with. Qed.

(** The router keeps the laws when the client it routes the other stores to
    does. *)
#[global] Instance router_laws (other : ReleaseStoreClient) :
  ReleaseStoreLaws (client := other) -> ReleaseStoreLaws (client := store_router other).
Proof.
  intros [Ho Ha Hc Hp]. split; intros; cbn; case_bool_decide;
    auto using client_apply, client_promote with client.
Qed.

End Router.

(** ** Operations as steps *)

(** Decompose a long operation into its calm statements. *)
Ltac calm_tac :=
  repeat lazymatch goal with
  | |- calm (_ ≫= _) => apply calm_bind
  | |- calm (catch _ _) => apply calm_catch
  | |- calm (map_errM _ _) => apply calm_map_err
  | |- forall _, _ => intros
  | |- calm (let _ := _ in _) => cbv zeta
  | |- calm (match _ with _ => _ end) => case_match
  | |- calm _ => solve [auto 8 with calm]
  end.

Section Runs.
Context {outside : AppStoreOutside} {client : ReleaseStoreClient} {laws : ReleaseStoreLaws}.

Lemma calm_load_config pipeline_id : calm (load_config pipeline_id).
Proof. unfold load_config. auto 8 with calm. Qed.

Lemma calm_signing_key pipeline_id : calm (load_signing_key_row pipeline_id).
Proof. unfold load_signing_key_row. auto 8 with calm. Qed.

Lemma calm_google_play pipeline_id : calm (load_google_play pipeline_id).
Proof. unfold load_google_play. auto 8 with calm. Qed.

Lemma calm_lift_api {A} (r : result api_error A) : calm (lift_api r).
Proof. unfold lift_api. auto with calm. Qed.

Lemma calm_find_ipa build_id : calm (find_uploaded_ipa build_id).
Proof. unfold find_uploaded_ipa. auto 8 with calm. Qed.

Lemma calm_pipeline_permission uid role source pid permission :
  calm (require_pipeline_project_permission uid role source pid permission).
Proof. unfold require_pipeline_project_permission. auto 12 with calm. Qed.

#[local] Hint Resolve calm_load_config calm_signing_key calm_google_play calm_lift_api calm_find_ipa
  calm_pipeline_permission : calm.

Lemma calm_app_store_settings auth pid req : calm (update_pipeline_app_store_publish auth pid req).
Proof.
  unfold update_pipeline_app_store_publish, ensure_pipeline_exists, build_response, settings.
  calm_tac.
Qed.

Lemma calm_play_settings auth pid req : calm (update_pipeline_google_play_publish auth pid req).
Proof.
  unfold update_pipeline_google_play_publish, google_play_response, secret_name_visible, exec.
  calm_tac.
Qed.

Lemma calm_update_link release_id f : calm (sql (update_link release_id f)).
Proof. apply calm_sql. intros d. unfold update_link. by destruct (_ !! _). Qed.

Lemma calm_note_failure release_id message now : calm (sql (note_failure release_id message now)).
Proof. apply calm_sql. intros d. unfold note_failure. by destruct (_ !! _). Qed.

Lemma calm_insert_link release_id link : calm (insert_release_link release_id link).
Proof.
  unfold insert_release_link. apply calm_bind; [|auto with calm].
  apply calm_sql. intros d. by destruct (_ !! _).
Qed.

#[local] Hint Resolve calm_update_link calm_note_failure calm_insert_link : calm.

(** Finding out that the upload is recorded, or inserting its release with
    what belongs to it. *)
Lemma rsteps_record_once {A} build_id store (input : NewRelease) reason id now (found : A)
    (rest : Release * option string -> ME anyhow (tx_end A)) :
  (forall c, calm (rest c)) ->
  RSteps (transaction_with FromSql
    (existing ← map_errM FromSql (find_build_release build_id store);
     match existing with
     | Some _ => mret (Discard found)
     | None => created ← map_errM FromRelease (insert_release input System reason id now); rest created
     end)).
Proof.
  intros Hl. apply rsteps_transaction.
  - apply mute_bind; [apply mute_map_err, mute_sql|]. intros [?|]; [apply mute_calm, calm_ret|].
    apply mute_bind; [apply mute_map_err, mute_insert|]. intros c. by apply mute_calm.
  - intros w w' a (w1 & existing & H1 & H)%M_bind_ok.
    assert (V1 : view w1 = view w) by (refine (calm_map_err _ _ _ _ _ _ H1); unfold find_build_release; auto with calm).
    destruct existing; [done|]. apply M_bind_ok in H as (w2 & [rel rs] & H2%map_err_ok & V3%Hl).
    eapply rtc_l; [by apply view_step|]. eapply rtc_l; [by eapply insert_step|]. by apply rtc_once, view_step.
Qed.

Lemma rsteps_finish_recorded created now :
  RSteps (match created with
          | Some created => release ← finish_create created System now; mret (Some (rel_id release))
          | None => mret None
          end : ME anyhow (option string)).
Proof.
  destruct created; [|apply calm_steps, calm_ret].
  apply rsteps_bind; [apply rsteps_finish|]. intros. apply calm_steps, calm_ret.
Qed.

Lemma rsteps_record_upload build_id reported id now : RSteps (record_upload build_id reported id now).
Proof.
  unfold record_upload, load_uploaded_ipa.
  repeat (apply rsteps_bind; [first [apply calm_steps; by auto 8 with calm | apply rsteps_record_once]|]; intros).
  - auto 8 with calm.
  - apply rsteps_finish_recorded.
Qed.

Lemma rsteps_record_play build_id pipeline_id result id now :
  RSteps (record_play_release build_id pipeline_id result id now).
Proof.
  unfold record_play_release.
  repeat (apply rsteps_bind; [first [apply calm_steps; by auto 8 with calm | apply rsteps_record_once]|]; intros).
  - auto 8 with calm.
  - apply rsteps_finish_recorded.
Qed.

Lemma rsteps_report hash auth runner_id job_id header result id now :
  RSteps (report_job_publish_result hash auth runner_id job_id header result id now).
Proof.
  unfold report_job_publish_result, require_active_job_signing_grant.
  apply rsteps_bind; [apply calm_steps; auto with calm|]. intros _.
  apply rsteps_bind; [apply calm_steps; auto 16 with calm|]. intros pid.
  apply rsteps_catch; [|intros; apply calm_steps; auto 8 with calm].
  destruct (pr_store result); [apply rsteps_record_play|apply rsteps_record_upload].
Qed.

(** ** The monitor as steps *)

Lemma rsteps_hop link target fraction reason now path :
  forall expect, RSteps (hop link target fraction reason now path expect).
Proof.
  induction path as [|to path IH]; intros expect; cbn; [apply calm_steps, calm_ret|].
  destruct (step_down _ _ _); [done|]. apply rsteps_catch; [apply rsteps_transition|].
  intros [?|[]]; try done; apply calm_steps; auto with calm.
Qed.

Lemma rsteps_apply_step link step now : RSteps (apply_step link step now).
Proof.
  unfold apply_step. apply rsteps_bind; [|intros; apply calm_steps; auto with calm].
  repeat case_match; first [apply rsteps_hop | apply calm_steps; by auto with calm].
Qed.

Lemma rsteps_poll_error release_id message now : RSteps (record_poll_error release_id message now).
Proof.
  unfold record_poll_error, try_record_poll_error.
  apply rsteps_catch; [|intros; apply calm_steps, calm_ret].
  apply rsteps_bind; [apply calm_steps; auto with calm|]. intros since.
  destruct (match since with Some _ => _ | None => _ end); [apply calm_steps, calm_ret|].
  apply rsteps_bind; [apply calm_steps; auto with calm|]. intros release.
  apply rsteps_bind; [|intros; apply calm_steps; auto with calm].
  apply rsteps_for_each. intros. apply rsteps_bind; [apply rsteps_map_err, rsteps_transition|].
  intros. apply calm_steps, calm_ret.
Qed.

Lemma rsteps_poll_link creds rounds now : forall link, RSteps (poll_link creds rounds link now).
Proof.
  induction rounds as [|rounds IH]; intros link; cbn; [apply calm_steps, calm_ret|].
  apply rsteps_catch; [apply rsteps_client, client_advance|]. intros [step|e]; [|apply rsteps_poll_error].
  apply rsteps_catch; [apply rsteps_apply_step|]. intros [u|e]; [|apply rsteps_poll_error].
  destruct (_ =? 0); [done|apply calm_steps, calm_ret].
Qed.

Lemma rsteps_poll now : RSteps (poll_releases now).
Proof.
  unfold poll_releases. apply rsteps_catch; [apply calm_steps; auto with calm|].
  intros [links|e]; [|apply calm_steps, calm_ret]. apply rsteps_for_each. intros link _.
  apply rsteps_catch; [apply rsteps_client, client_credentials|].
  intros [creds|e]; [apply rsteps_poll_link|apply rsteps_poll_error].
Qed.

End Runs.
