(* ===== verification/ReleaseSafety.v ===== *)
(** * What holds of releases and promotions

    Every handler and monitor that touches releases, environments or
    promotions is a sequence of the steps of [Rollouts.v]; so the invariants of
    [Promotions.v] hold of every database they produce, and everything a store
    was asked for was allowed when it was asked.  Then what single runs do:
    moving a release, the step that is due, and who can make a promotion
    happen. *)

From stdpp Require Import relations.
From S2P Require Import Prelude Contract RustStr F64 Rollout Stores Db Access Builds Runners Creation Publishing Releases Environments AppStore Rollouts Promotions AppStoreRuns.

Local Open Scope Z_scope.

Section Handlers.
Context {outside : AppStoreOutside} {client : ReleaseStoreClient} {laws : ReleaseStoreLaws}.

(** The handlers and monitors of [releases.rs], [environments.rs],
    [app_store_publish.rs] and the publishing ones of [pipeline_publish.rs]. *)
Inductive rhandler : forall {E A : Type}, ME E A -> Prop :=
  | rh_create auth req id now : rhandler (create_release_handler auth req id now)
  | rh_action auth id action req now : rhandler (release_action auth id action req now)
  | rh_tick now batch : rhandler (run_rollout_tick now batch)
  | rh_environments auth pid : rhandler (list_project_environments auth pid)
  | rh_new_environment auth pid req id now : rhandler (create_project_environment auth pid req id now)
  | rh_environment auth pid id req now : rhandler (update_project_environment auth pid id req now)
  | rh_drop_environment in_use auth pid id now : rhandler (delete_project_environment in_use auth pid id now)
  | rh_promote auth pid req id new_id now : rhandler (promote_build auth pid req id new_id now)
  | rh_decide auth pid id reason approve new_id now :
      rhandler (decide_handler auth pid id reason approve new_id now)
  | rh_restart now : rhandler (fail_interrupted_promotions now)
  | rh_app_store_settings auth pid req : rhandler (update_pipeline_app_store_publish auth pid req)
  | rh_play_settings auth pid req : rhandler (update_pipeline_google_play_publish auth pid req)
  | rh_report hash auth runner_id job_id header result new_id now :
      rhandler (report_job_publish_result hash auth runner_id job_id header result new_id now)
  | rh_poll now : rhandler (poll_releases now).

Lemma calm_role_with auth pid permission : calm (role_with auth pid permission).
Proof. unfold role_with, require_project_exists. auto 12 with calm. Qed.

Lemma calm_list pid viewer : calm (list_environments pid viewer).
Proof. unfold list_environments. auto 12 with calm. Qed.

#[local] Hint Resolve calm_role_with calm_list : calm.

Lemma rsteps_with_role {A} auth pid permission (k : EffectiveProjectRole -> ME EnvironmentError A) :
  (forall role, RSteps (k role)) ->
  RSteps (role ← role_with auth pid permission; map_errM environment_api (k role)).
Proof.
  intros Hk. apply rsteps_bind; [apply calm_steps; auto with calm|]. intros role. by apply rsteps_map_err.
Qed.

(** Every run of every handler, whatever statements and store calls of it fail
    and however it ends, is a sequence of steps. *)
Lemma rhandler_steps {E A} (m : ME E A) : rhandler m -> RSteps m.
Proof.
  destruct 1; [apply rsteps_create_handler|apply rsteps_action|apply rsteps_rollout_tick|..].
  - apply calm_steps. unfold list_project_environments. auto 12 with calm.
  - apply (rsteps_with_role auth pid ManageReleases (fun _ => create_environment pid _ req id now)).
    intros. apply rsteps_create_environment.
  - apply (rsteps_with_role auth pid ManageReleases (fun _ => update_environment pid id _ req now)).
    intros. apply rsteps_update_environment.
  - apply (rsteps_with_role auth pid ManageReleases (fun _ => delete_environment in_use pid id _ now)).
    intros. apply rsteps_delete_environment.
  - apply rsteps_with_role. intros. apply rsteps_request.
  - apply rsteps_bind; [apply calm_steps; auto with calm|]. intros role.
    apply rsteps_bind; [apply calm_steps; auto with calm|]. intros _. apply rsteps_map_err, rsteps_decide.
  - apply rsteps_fail_interrupted.
  - apply calm_steps, calm_app_store_settings.
  - apply calm_steps, calm_play_settings.
  - apply rsteps_report.
  - apply rsteps_poll.
Qed.

(** The daemon goes from [w] to [w']: a run of one of these, or anything that
    leaves releases and environments alone.  The deletion of builds, pipelines
    and projects, which takes their releases along, is not among these. *)
Inductive served (w w' : world) : Prop :=
  | sv_run {E A} (m : ME E A) res : rhandler m -> m w = (w', res) -> served w w'
  | sv_else : view w' = view w -> served w w'.

Lemma served_steps w w' : rtc served w w' -> rtc rstep w w'.
Proof.
  induction 1 as [|w w1 w2 [E A m res Hm H|V] _ IH]; [done|..]; (etransitivity; [|exact IH]).
  - by eapply rhandler_steps.
  - by apply rtc_once, view_step.
Qed.

(** A daemon that has released nothing yet. *)
Definition pristine (w : world) : Prop :=
  view w = (∅, [], [], (∅, ∅)).

Lemma pristine_invariants w : pristine w -> rinv (w_db w) /\ einv (w_db w) /\ pinv (w_db w).
Proof.
  unfold pristine. intros H. views. split_and!; split;
    repeat match goal with H : _ (w_db w) = _ |- _ => rewrite H end; try done.
  - by intros h ?%elem_of_nil.
  - intros pid. rewrite project_rows_size. by match goal with H : project_environments _ = _ |- _ => rewrite H end.
Qed.

Lemma steps_invariants w w' :
  rtc rstep w w' -> rinv (w_db w) /\ einv (w_db w) /\ pinv (w_db w) ->
  rinv (w_db w') /\ einv (w_db w') /\ pinv (w_db w').
Proof.
  induction 1 as [|w w1 w2 S _ IH]; [done|]. intros (? & ? & ?). apply IH.
  split_and!; eauto using rstep_rinv, rstep_einv, rstep_pinv.
Qed.

(** Everything the store is asked for, in the world it is asked in. *)
Definition asked_ok (d : db) (e : effect) : Prop :=
  match e with
  | StoreApplied id c => exists r, releases d !! id = Some r /\ legal_call r c
  | StorePromoted id target => promote_ok d id target
  | _ => True
  end.

Lemma step_published w w' :
  rstep w w' -> exists l, w_published w' = w_published w ++ l /\
    (Forall harmless l \/ exists e, l = [e] /\ asked_ok (w_db w) e).
Proof.
  intros Hst.
  assert (Hnone : w_published w' = w_published w -> exists l, w_published w' = w_published w ++ l /\
    (Forall harmless l \/ exists e, l = [e] /\ asked_ok (w_db w) e)).
  { intros ->. exists []. rewrite app_nil_r. auto. }
  destruct Hst; try (views; by auto).
  - eauto.
  - exists [StoreApplied id c]. split; [done|]. right. eexists. split; [done|]. cbn. eauto.
  - exists [StorePromoted source_id target]. eauto.
Qed.

(** A row keeps what it was recorded with, and an approval once given. *)
Definition same_release (r r' : release) : Prop :=
  rl_meta r' = rl_meta r /\ (is_Some (rl_approved_at r) -> is_Some (rl_approved_at r')).

#[local] Instance same_release_refl : Reflexive same_release.
Proof. done. Qed.

(** From [w] to [w'] releases are kept and their history grows. *)
Record grown (w w' : world) : Prop := {
  gr_history : release_history (w_db w) `prefix_of` release_history (w_db w');
  gr_rows : forall id r, releases (w_db w) !! id = Some r ->
    exists r', releases (w_db w') !! id = Some r' /\ same_release r r';
}.

#[local] Instance grown_preorder : PreOrder grown.
Proof.
  split.
  - intros w. split; [done|]. intros id r Hr. by exists r.
  - intros w1 w2 w3 [H1 R1] [H2 R2]. split; [by etransitivity|]. intros id r Hr.
    destruct (R1 _ _ Hr) as (r2 & Hr2 & M2 & A2), (R2 _ _ Hr2) as (r3 & Hr3 & M3 & A3).
    exists r3. split; [done|]. split; [congruence|auto].
Qed.

Lemma grown_insert w w' id r' l :
  (forall r, releases (w_db w) !! id = Some r -> same_release r r') ->
  releases (w_db w') = <[id := r']> (releases (w_db w)) ->
  release_history (w_db w') = release_history (w_db w) ++ l -> grown w w'.
Proof.
  intros Hr R S. split; [rewrite S; by apply prefix_app_r|]. intros k r Hk. rewrite R.
  destruct (decide (k = id)) as [->|]; [|exists r; by rewrite lookup_insert_ne].
  exists r'. rewrite lookup_insert_eq. eauto.
Qed.

Lemma grown_eq w w' l :
  releases (w_db w') = releases (w_db w) ->
  release_history (w_db w') = release_history (w_db w) ++ l -> grown w w'.
Proof. intros R S. split; [rewrite S; by apply prefix_app_r|]. intros id r Hr. exists r. by rewrite R. Qed.

(** The request with number [k] of those sent by the end of a run from [w1] to
    [w2] is sent in the world [x], between the two: what was sent before is
    what [x] has sent, and the releases [x] has, with the history recorded of
    them by then, are on the way from those of [w1] to those of [w2]. *)
Record sent_in (w1 w2 : world) (k : nat) (x : world) : Prop := {
  si_before : rtc rstep w1 x;
  si_after : exists y, rstep x y /\ w_published y = take (S k) (w_published w2) /\ rtc rstep y w2;
  si_sent : w_published x = take k (w_published w2);
  si_from : grown w1 x;
  si_to : grown x w2;
}.

Lemma rstep_grown w w' : rstep w w' -> grown w w'.
Proof.
  destruct 1 as [w w' l R S P Hl Q|w w' Ht S P Q|w w' id r c Hr Hc D P|w w' id r h now Hn Hf _ _ _ _ R S P Q
    |w w' id r to fraction h now Hr _ _ R S P Q|w w' id r h actor now Hr _ _ _ R S P Q|w w' h _ _ R S P Q
    |w w' id e _ _ Hold V|w w' pid id V|w w' id p e source Hn Hq V
    |w w' id p to by_ reason now Hp Hst Hto V|w w' id p message now Hp Hst V|w w' sid t _ D P
    |w w' id p source rid r h now Hp Hst Hsrc Hn _ Hb Hen Hf _ _ _ _ V]; views;
    try (by eapply (grown_eq _ _ []); rewrite ?app_nil_r; congruence);
    try (by eapply grown_eq; eauto);
    try (by eapply grown_insert; [|done..]; intros r0 Hr0; simplify_eq).
  - split; [by rewrite S|]. intros k r Hr. specialize (Ht k). rewrite Hr in Ht.
    inversion Ht as [? r' Hs|]; subst. exists r'. destruct Hs as (? & _ & _ & _ & Ha & _). split; [done|].
    split; [done|]. by rewrite Ha.
  - cbn in *. unfold delete_environment_row in *.
    destruct (project_environments (w_db w) !! id) as [e|];
      [destruct (String.eqb _ _)|]; cbn in *;
      try (by eapply (grown_eq _ _ []); rewrite ?app_nil_r; congruence).
    split; [by match goal with H : release_history _ = _ |- _ => rewrite H end|].
    intros k r Hr. match goal with H : releases (w_db w') = _ |- _ => rewrite H end.
    rewrite lookup_fmap, Hr. eexists. split; [done|]. by case_bool_decide.
Qed.

Lemma steps_grown w w' : rtc rstep w w' -> grown w w'.
Proof. induction 1 as [|w w1 w2 S _ IH]; [done|]. etransitivity; [by apply rstep_grown|done]. Qed.

(** Every change a store was asked for was asked for in one of the worlds on
    the way, and allowed there. *)
Lemma steps_sent w w' k e :
  rtc rstep w w' -> (length (w_published w) <= k)%nat -> w_published w' !! k = Some e -> ~ harmless e ->
  exists x, sent_in w w' k x /\ asked_ok (w_db x) e.
Proof.
  intros Hs. revert k. induction Hs as [w|w w1 w2 Hst Hs IH]; intros k Hk He Hne.
  { by rewrite lookup_ge_None_2 in He. }
  pose proof (rstep_grown _ _ Hst) as G1. pose proof (steps_grown _ _ Hs) as G2.
  destruct (decide (length (w_published w1) <= k)%nat) as [Hk1|Hk1].
  { destruct (IH k Hk1 He Hne) as (x & [B A P F T] & Ho). exists x. split; [|done].
    split; [by eapply rtc_l|done|done|by etransitivity|done]. }
  assert (Hpre : w_published w1 `prefix_of` w_published w2).
  { clear -Hs. induction Hs as [|a b c S _ IH]; [done|]. etransitivity; [|exact IH].
    apply step_published in S as (l & -> & _). by apply prefix_app_r. }
  destruct Hpre as [l2 E2]. destruct (step_published _ _ Hst) as (l & E1 & Hl).
  rewrite E2, lookup_app_l in He by lia. rewrite E1, lookup_app_r in He by done.
  destruct Hl as [Hl|(e0 & -> & Ho)].
  { exfalso. apply Hne. rewrite Forall_forall in Hl. apply Hl. by eapply list_elem_of_lookup_2. }
  rewrite E1, length_app in Hk1. cbn in Hk1. assert (k = length (w_published w)) as -> by lia.
  rewrite Nat.sub_diag in He. injection He as ->. exists w. split; [|done]. split; [done| | |done|by etransitivity].
  - exists w1. split_and!; [done| |done]. rewrite E2, E1. rewrite take_app_le by (rewrite length_app; cbn; lia).
    rewrite firstn_all2; [done|rewrite length_app; cbn; lia].
  - rewrite E2, E1, <- app_assoc. by rewrite take_app_length.
Qed.

(** C3: refinement.  Every run of every handler and monitor of releases,
    environments and promotions, whatever statements and store calls of it
    fail and however it ends, is a sequence of the steps of [Rollouts.v]. *)
Theorem release_handlers_refine {E A} (m : ME E A) w w' res :
  rhandler m -> m w = (w', res) -> rtc rstep w w'.
Proof. intros Hm. by apply rhandler_steps. Qed.

(** C4: invariant.  Whatever a daemon that started without releases has served
    and whatever failed: every release has a valid policy and a fraction
    between 0 and 1, a step is scheduled only for a rollout the daemon drives,
    and its history replays, by legal changes of state, to the state and
    fraction it has. *)
Theorem release_invariant w w' id r :
  pristine w -> rtc served w w' -> releases (w_db w') !! id = Some r ->
  release_ok r /\
  replay_releases id (release_history (w_db w')) = Some (rl_state r, rl_rollout_fraction r).
Proof.
  intros Hp Hs Hr. apply served_steps in Hs.
  destruct (steps_invariants _ _ Hs (pristine_invariants _ Hp)) as [[I1 I2 _] _]. eauto.
Qed.

(** C30: safety.  Every change a run of a handler or monitor sends to a store
    is sent, in a world between the run's first and its last, for a release
    that is then in a state to take it, the state its recorded history replays
    to by then: a rollout is only raised while it rolls and only upwards, and
    nothing raises, resumes or completes a release on the production track
    whose policy asks for an approval and that has none yet. *)
Theorem store_calls_gated {E A} (m : ME E A) w w1 w2 res k id c :
  pristine w -> rtc served w w1 -> rhandler m -> m w1 = (w2, res) ->
  (length (w_published w1) <= k)%nat -> w_published w2 !! k = Some (StoreApplied id c) ->
  exists x r, sent_in w1 w2 k x /\ releases (w_db x) !! id = Some r /\
    replay_releases id (release_history (w_db x)) = Some (rl_state r, rl_rollout_fraction r) /\
    call_ok r c.
Proof.
  intros Hp Hs%served_steps Hm H Hk He.
  destruct (steps_sent _ _ _ _ (rhandler_steps _ Hm _ _ _ H) Hk He) as (x & Hx & r & Hr & Hc); [by intros []|].
  assert (Hs1 : rtc rstep w x) by (etransitivity; [exact Hs|by destruct Hx]).
  destruct (steps_invariants _ _ Hs1 (pristine_invariants _ Hp)) as [[I1 I2 _] _].
  exists x, r. split_and!; [done|done|by apply I2|]. apply legal_call_ok; eauto.
Qed.

(** C38: type.  Environments are well formed, whatever was served and whatever
    failed: each has a valid rollout policy without an approval gate and a
    position, submits for review only on the App Store track, no two of a
    project share a key or a store and track, and a project has at most
    twelve. *)
Theorem environments_well_formed w w' :
  pristine w -> rtc served w w' -> einv (w_db w').
Proof.
  intros Hp Hs%served_steps. by destruct (steps_invariants _ _ Hs (pristine_invariants _ Hp)) as (_ & ? & _).
Qed.

(** C31: invariant.  Whatever was served and whatever failed: every promotion
    goes into an environment of its project from a release of its build; a
    completed one names the release it led to, and no other names one; and a
    build never has two promotions under way into one environment. *)
Theorem promotion_invariant w w' :
  pristine w -> rtc served w w' -> pinv (w_db w').
Proof.
  intros Hp Hs%served_steps. by destruct (steps_invariants _ _ Hs (pristine_invariants _ Hp)) as (_ & _ & ?).
Qed.

(** ** Runs without faults *)

Lemma clean_call {E A} e (m : ME E A) d p : call e m (World d [] p) = m (World d [] (p ++ [e])).
Proof. done. Qed.

Lemma clean_load id d p r :
  releases d !! id = Some r -> load_release id (World d [] p) = (World d [] p, Ok (row_to_release d id r)).
Proof.
  intros Hr. unfold load_release, map_errM, mbind, M_bind. rewrite clean_sql. cbn. by rewrite Hr.
Qed.

Lemma clean_record id r ch actor reason now d p :
  releases d !! id = Some r -> f64_eq (rl_rollout_fraction r) (rl_rollout_fraction r) = true ->
  exists d', record_change id r (ch_to_state ch) (target_fraction ch r) actor reason now (World d [] p)
      = (World d' [] p, Ok tt) /\
    releases d' = <[id := changed_row ch now r]> (releases d) /\ app_store_links d' = app_store_links d.
Proof.
  intros Hr Hf. eexists. unfold record_change, transaction_with, mbind, M_bind, map_errM. cbn.
  unfold update_release. rewrite Hr, Hf, bool_decide_true by done. cbn.
  unfold insert_history, mbind, M_bind. cbn. rewrite lookup_insert_eq. cbn. done.
Qed.

Lemma f64_eq_refl x : is_nan x = false -> f64_eq x x = true.
Proof. intros H. apply f64_eq_key. auto. Qed.

(** The store, asked now, takes the change. *)
Definition store_takes (id : string) (ch : ReleaseChange) (d : db) (p : list effect) (r : release) : Prop :=
  forall c, sent ch r = Some c -> exists w1,
    apply_change (row_to_release d id r) c (World d [] (p ++ [StoreApplied id c])) = (w1, Ok tt).

(** Without faults, a change that is accepted and that the store takes is
    made. *)
Lemma transition_complete id ch actor reason now d p r :
  releases d !! id = Some r -> is_nan (rl_rollout_fraction r) = false -> accepts ch r = true ->
  store_takes id ch d p r ->
  exists w' rel, transition_release id ch actor reason now (World d [] p) = (w', Ok rel).
Proof.
  intros Hr Hnan Ha Hs. unfold transition_release. unfold accepts in Ha.
  rewrite !andb_true_iff in Ha. destruct Ha as [[[[H1 H2] H3] H4] H5].
  rewrite (clean_bind _ _ _ _ _ (clean_load id d p r Hr)). cbn [rel_row row_to_release].
  rewrite !clean_guard by done. fold (sent ch r).
  assert (Hcall : exists d1 p1, releases d1 = releases d /\ match sent ch r with
    | Some c => map_errM StoreRejected (call (StoreApplied id c) (apply_change (row_to_release d id r) c))
    | None => mret tt
    end (World d [] p) = (World d1 [] p1, Ok tt)).
  { destruct (sent ch r) as [c|] eqn:Es; [|by exists d, p]. destruct (Hs c Es) as [[d1 fs p1] H6].
    unfold map_errM, call, mbind, M_bind. cbn. rewrite H6.
    destruct (apply_law _ _ _ _ _ H6) as [[links D] _ Hf]. cbn in D, Hf. exists d1, p1.
    rewrite D, Hf by done. done. }
  destruct Hcall as (d1 & p1 & R1 & Hcall). rewrite (clean_bind _ _ _ _ _ Hcall).
  rewrite <- R1 in Hr.
  destruct (clean_record id r ch actor (clean_reason reason) now d1 p1 Hr (f64_eq_refl _ Hnan)) as (d' & Hrec & Hd' & _).
  rewrite (clean_bind _ _ _ _ _ Hrec).
  assert (Hr' : releases d' !! id = Some (changed_row ch now r)) by by rewrite Hd', lookup_insert_eq.
  rewrite (clean_bind _ _ _ _ _ (clean_load id d' p1 _ Hr')).
  unfold mbind, M_bind, audit, write_audit_log, catch. rewrite clean_sql. cbn. eauto.
Qed.

(** C35: functional.  [transition_release], on every branch.  A change the
    release no longer accepts (it moved on, the table has no such move, the
    fraction is invalid or lower, an approval is missing) reaches neither the
    store nor the database.  One it accepts is sent to the store first; then
    the release, its next step and one history entry change together or not at
    all; and success is announced.  Without faults, a change that is accepted
    and that the store takes succeeds. *)
Theorem transition_release_spec id ch actor reason now w w' res :
  transition_release id ch actor reason now w = (w', res) ->
  match releases (w_db w) !! id with
  | None => view w' = view w /\ exists e, res = Err e
  | Some r =>
      (accepts ch r = false -> view w' = view w /\ exists e, res = Err e) /\
      match res with
      | Ok rel =>
          accepts ch r = true /\ store_agrees id ch w r /\
          rel_id rel = id /\ rel_row rel = changed_row ch now r /\
          releases (w_db w') = <[id := changed_row ch now r]> (releases (w_db w)) /\
          release_history (w_db w') = release_history (w_db w) ++ [change_entry id ch actor reason now r] /\
          exists l e, w_published w' = l ++ [ReleaseChanged e] /\ asked_too id ch r (w_published w) l /\
            re_release_id e = id /\ re_kind e = event_kind (rl_state r) (ch_to_state ch)
      | Err _ =>
          (w_published w' = w_published w \/ asked_too id ch r (w_published w) (w_published w')) /\
          ((releases (w_db w'), release_history (w_db w')) = (releases (w_db w), release_history (w_db w)) \/
           (releases (w_db w'), release_history (w_db w')) =
             (<[id := changed_row ch now r]> (releases (w_db w)),
              release_history (w_db w) ++ [change_entry id ch actor reason now r]))
      end /\
      (w_faults w = [] -> is_nan (rl_rollout_fraction r) = false -> accepts ch r = true ->
         store_takes id ch (w_db w) (w_published w) r -> exists rel, res = Ok rel)
  end.
Proof.
  intros H. destruct (releases (w_db w) !! id) as [r|] eqn:Er.
  - split_and!.
    + intros Ha. apply transition_run in H as [?|(r' & Hr' & Ha' & _)]; [done|congruence].
    + apply transition_run in H as [[V [e ->]]|(r' & Hr' & Ha & [([e ->] & A & R & S & Q)|(Hs & R & S & Q & Hres)])];
        [views; split; [by left|left; congruence]| |]; simplify_eq/=.
      * split; [by right|left; congruence].
      * destruct res as [rel|e]; [naive_solver|]. split; [by right|right; congruence].
    + intros Hf Hn Ha Hs. destruct w as [d fs p]; cbn in Hf; subst fs.
      destruct (transition_complete id ch actor reason now d p r Er Hn Ha Hs) as (w2 & rel & H2).
      rewrite H2 in H. injection H as _ <-. eauto.
  - apply transition_run in H as [?|(r & Hr & _)]; [done|congruence].
Qed.

(** ** The scheduled step *)

Lemma f64_sub_self x : is_finite x = true -> f64_lt f_1em9 (f64_abs (f64_sub x x)) = false.
Proof.
  intros Hx. assert (H : exists s, f64_sub x x = SpecFloat.S754_zero s).
  { unfold f64_sub, SpecFloat.SFsub. destruct x as [s| | |s m e]; try done.
    - destruct s; cbn; eauto.
    - rewrite Z.sub_diag. cbn. eauto. }
  destruct H as [s ->]. by destruct s; vm_compute.
Qed.

(** The store agrees with everything and reports nothing new. *)
Class Agreeable : Prop := {
  agree_observe : forall rel w, observe rel w = (w, Ok None);
  agree_apply : forall rel c w, apply_change rel c w = (w, Ok tt);
}.

(** The crash rate, when the policy watches it, does not hold the rollout. *)
Definition healthy (rel : Release) (now : Z) : Prop :=
  match rp_crash_rate_threshold (rl_policy (rel_row rel)) with
  | None => True
  | Some threshold =>
      rl_health_error (rel_row rel) = None /\
      (overdue_check (rl_crash_rate_checked_at (rel_row rel)) now = false \/
       exists rate, (forall w, crash_rate rel w = (w, Ok rate)) /\
         match rate with Some rate => f64_le threshold rate = false | None => True end)
  end.

#[local] Hint Extern 0 (same_rollout ?r ?r) => by repeat split : core.

Lemma same_rollout_trans r1 r2 r3 : same_rollout r1 r2 -> same_rollout r2 r3 -> same_rollout r1 r3.
Proof. unfold same_rollout. intros (? & ? & ? & ? & ? & ? & ?) (? & ? & ? & ? & ? & ? & ?). split_and!; congruence. Qed.

(** A monitor's column, written without faults. *)
Lemma clean_touch {E} (g : sqlx_error -> E) id f d p r :
  releases d !! id = Some r ->
  map_errM g (sql (update_release id (fun _ => true) f)) (World d [] p)
    = (World (set_releases (<[id := f r]> (releases d)) d) [] p, Ok 1).
Proof. intros Hr. unfold map_errM. rewrite clean_sql. unfold update_release. by rewrite Hr. Qed.

Lemma clean_sync {agreeable : Agreeable} rel r now d p :
  releases d !! rel_id rel = Some r ->
  exists d', sync_release_with_store rel now (World d [] p) = (World d' [] (p ++ [StoreObserved (rel_id rel)]), Ok rel) /\
    exists r', releases d' !! rel_id rel = Some r' /\ same_rollout r r'.
Proof.
  intros Hr. unfold sync_release_with_store, catch.
  rewrite (clean_call _ (observe rel)), agree_observe.
  eexists. rewrite (clean_bind _ _ _ _ _ (clean_touch _ _ _ _ _ _ Hr)). split; [done|].
  eexists. cbn. rewrite lookup_insert_eq. split; [done|]. by repeat split.
Qed.

Lemma clean_health rel r now d p :
  healthy rel now -> releases d !! rel_id rel = Some r ->
  exists d' p' he, check_health rel now (World d [] p) = (World d' [] p', Ok (Some he)) /\
    (rp_crash_rate_threshold (rl_policy (rel_row rel)) = None \/ he = None) /\
    exists r', releases d' !! rel_id rel = Some r' /\ same_rollout r r'.
Proof.
  intros Hh Hr. unfold healthy in Hh. unfold check_health.
  destruct (rp_crash_rate_threshold _) as [t|].
  - destruct Hh as [Hhe [Hov|(rate & Hc & Hrate)]].
    + rewrite Hov, Hhe. exists d, p, None. split_and!; [done|by right|by exists r].
    + destruct (overdue_check _ _); cbn;
        [|rewrite Hhe; exists d, p, None; split_and!; [done|by right|by exists r]].
      unfold catch. rewrite (clean_call _ (crash_rate rel)), Hc, Hhe.
      rewrite (clean_bind _ _ _ _ _ (clean_touch _ _ _ _ _ _ Hr)).
      exists (set_releases (<[rel_id rel := set_rl_health_error None (set_rl_crash_rate_checked_at (Some now)
        (set_rl_crash_rate (match rate with Some x => Some x | None => rl_crash_rate r end) r))]> (releases d)) d),
        (p ++ [StoreCrashRate (rel_id rel)]), None.
      split_and!; [|by right|eexists; cbn; rewrite lookup_insert_eq; split; [done|by repeat split]].
      destruct rate as [rate|]; [|done]. cbn. by rewrite Hrate.
  - exists d, p, (rl_health_error (rel_row rel)). split_and!; [done|by left|by exists r].
Qed.

Lemma scheduled_accepted r r' f :
  release_ok r -> rl_state r = ReleaseState.Rolling -> awaiting_approval r = false ->
  next_step (rl_policy r) (rl_rollout_fraction r) = Some f -> same_rollout r r' ->
  accepts (scheduled_step f r) r' = true.
Proof.
  intros [Hp Hv _] Hs Ha Hn (Hm & Hs' & Hf' & _ & Hap & _).
  assert (Hstep : f ∈ steps (rl_policy r) /\ f64_lt (rl_rollout_fraction r) f = true).
  { apply find_some in Hn as [Hin Hlt]. split; [by apply list_elem_of_In|done]. }
  destruct Hstep as [Hin Hlt].
  apply validate_ok in Hp as [Hfr _ _ _ _]. rewrite Forall_forall in Hfr. destruct (Hfr _ Hin) as (Hfin & Hpos & Hone).
  assert (Hvf : valid_fraction f = true).
  { unfold valid_fraction. by rewrite Hfin, (f64_lt_le _ _ Hpos), Hone. }
  assert (Hcur : is_finite (rl_rollout_fraction r) = true).
  { unfold valid_fraction in Hv. rewrite !andb_true_iff in Hv. by destruct Hv as [[? _] _]. }
  assert (Ha' : awaiting_approval r' = awaiting_approval r).
  { unfold awaiting_approval, rl_policy, rl_track. by rewrite Hm, Hs', Hap. }
  unfold accepts, as_expected, target_fraction. cbn [scheduled_step ch_expect ch_to_state ch_to_fraction ch_from_store].
  rewrite Hs', Hs, Hf', Ha', Ha, f64_sub_self, bool_decide_true by done.
  destruct (f64_le f_1 f); cbn; rewrite ?andb_true_r, ?bool_decide_true by done; [by vm_compute|].
  rewrite Hvf. destruct (f64_le f (rl_rollout_fraction r)) eqn:E; [|done].
  pose proof (f64_le_lt_trans _ _ _ E Hlt) as Hc. by rewrite f64_lt_irrefl in Hc.
Qed.

(** Where a scheduled step to [f] leads, and what the store is sent. *)
Definition step_state (f : f64) : ReleaseState.t :=
  if f64_le f_1 f then ReleaseState.Complete else ReleaseState.Rolling.
Definition step_fraction (f : f64) : f64 := if f64_le f_1 f then f_1 else f.
Definition step_call (f : f64) : StoreChange := if f64_le f_1 f then StoreComplete else StoreRollout f.

(** A release whose next step, to [f], may be taken now. *)
Record step_ready (d : db) (id : string) (r : release) (now : Z) (f : f64) : Prop := {
  sr_row : releases d !! id = Some r;
  sr_ok : release_ok r;
  sr_rolling : rl_state r = ReleaseState.Rolling;
  sr_due : step_due r now = true;
  sr_approved : awaiting_approval r = false;
  sr_next : next_step (rl_policy r) (rl_rollout_fraction r) = Some f;
  sr_healthy : healthy (row_to_release d id r) now;
}.

Lemma clean_step {agreeable : Agreeable} id r r' f now d p :
  releases d !! id = Some r' -> same_rollout r r' -> release_ok r -> rl_state r = ReleaseState.Rolling ->
  awaiting_approval r = false -> next_step (rl_policy r) (rl_rollout_fraction r) = Some f ->
  exists w', best_effort (transition_release id (scheduled_step f r) System (Some "scheduled rollout step"%string) now)
      (World d [] p) = (w', Ok tt) /\
    releases (w_db w') !! id = Some (changed_row (scheduled_step f r) now r') /\
    StoreApplied id (step_call f) ∈ w_published w'.
Proof.
  intros Hr Hsame Hok Hs Ha Hn. pose proof (scheduled_accepted r r' f Hok Hs Ha Hn Hsame) as Hacc.
  assert (Hnan : is_nan (rl_rollout_fraction r') = false).
  { destruct Hsame as (_ & _ & -> & _). by apply valid_fraction_nan, Hok. }
  destruct (transition_complete id (scheduled_step f r) System (Some "scheduled rollout step"%string) now d p r' Hr Hnan Hacc)
    as (w' & rel & H); [intros c _; eexists; apply agree_apply|].
  exists w'. unfold best_effort, catch. rewrite H. split; [done|].
  apply transition_run in H as [[_ [? [=]]]|(r0 & Hr0 & _ & [([? [=]] & _)|(_ & R & _ & _ & _ & _ & l & e & P & (k & -> & _) & _)])].
  cbn in Hr0. assert (r0 = r') as -> by congruence. split; [by rewrite R, lookup_insert_eq|].
  assert (Hsent : sent (scheduled_step f r) r' = Some (step_call f)).
  { destruct Hsame as (_ & Hst & _). unfold sent, target_fraction, step_call. cbn. rewrite Hst, Hs.
    by destruct (f64_le f_1 f). }
  rewrite P. unfold asked. rewrite Hsent. set_solver.
Qed.

(** The step that is due, run without faults. *)
Lemma due_step {agreeable : Agreeable} now id d p r f :
  step_ready d id r now f ->
  exists w' r', tick_release now (row_to_release d id r) (World d [] p) = (w', Ok tt) /\
    releases (w_db w') !! id = Some r' /\
    rl_state r' = step_state f /\ rl_rollout_fraction r' = step_fraction f /\
    rl_next_step_at r' = next_step_at r' now /\
    StoreApplied id (step_call f) ∈ w_published w'.
Proof.
  intros [Hr Hok Hs Hdue Ha Hn Hh]. unfold tick_release. cbn [rel_row rel_id row_to_release rel_awaiting_approval].
  rewrite Hs, Hdue, Ha, Hn. cbn.
  destruct (clean_sync (row_to_release d id r) r now d p Hr) as (d1 & Hsync & r1 & Hr1 & Hs1).
  assert (Hskip : catch (sync_release_with_store (row_to_release d id r) now)
    (fun synced => match synced with
       | Ok synced => mret (negb (bool_decide (rl_state (rel_row synced) = ReleaseState.Rolling))
           || negb (f64_eq (rl_rollout_fraction (rel_row synced)) (rl_rollout_fraction r)))
       | Err _ => mret true
       end) (World d [] p) = (World d1 [] (p ++ [StoreObserved id]), Ok false) :> world * result anyhow bool).
  { unfold catch. rewrite Hsync. cbn. rewrite Hs, f64_eq_refl; [done|]. by apply valid_fraction_nan, Hok. }
  rewrite (clean_bind _ _ _ _ _ Hskip), bool_decide_true by done. cbn [orb negb].
  destruct (clean_health (row_to_release d id r) r1 now d1 (p ++ [StoreObserved id]) Hh Hr1)
    as (d2 & p2 & he & Hhealth & Hhe & r2 & Hr2 & Hs2).
  rewrite (clean_bind _ _ _ _ _ Hhealth). cbn [rel_row row_to_release] in Hhe.
  assert (Hgo : bool_decide (is_Some (rp_crash_rate_threshold (rl_policy r))) && bool_decide (is_Some he) = false).
  { apply andb_false_iff. by destruct Hhe as [-> | ->]; [left|right]. }
  rewrite Hgo. destruct (clean_step id r r2 f now d2 p2 Hr2) as (w' & H & Hr' & Hin);
    [by eapply same_rollout_trans|done..|].
  exists w', (changed_row (scheduled_step f r) now r2). split_and!; [exact H|done|..|done].
  - done.
  - unfold changed_row, target_fraction, step_fraction. cbn. by destruct (f64_le f_1 f).
  - done.
Qed.

(** liveness.  A scheduled step that is due is taken: when the monitor
    comes to a rolling release whose step time has passed, that is not waiting
    for an approval and whose crash rate does not hold it, then, without
    faults and with a store that agrees, the release moves to its policy's
    next step (completing at 1), the store is sent that step, and the step
    after it is scheduled. *)
Theorem due_step_taken {agreeable : Agreeable} now id d p r f :
  step_ready d id r now f ->
  exists w' r', tick_release now (row_to_release d id r) (World d [] p) = (w', Ok tt) /\
    releases (w_db w') !! id = Some r' /\
    rl_state r' = step_state f /\ rl_rollout_fraction r' = step_fraction f /\
    rl_next_step_at r' = next_step_at r' now /\
    StoreApplied id (step_call f) ∈ w_published w'.
Proof. apply due_step. Qed.

(** functional.  A breach does not hold the schedule by itself: when the
    halt of a breached release failed, its crash rate counts as checked, and
    until the next check fifteen minutes later the monitor, which runs every
    minute, takes a step that is due: it raises a release whose stored crash
    rate has reached the threshold. *)
Theorem breached_release_raised {agreeable : Agreeable} now id d p r f threshold rate :
  releases d !! id = Some r -> release_ok r -> rl_state r = ReleaseState.Rolling ->
  step_due r now = true -> awaiting_approval r = false ->
  next_step (rl_policy r) (rl_rollout_fraction r) = Some f ->
  rp_crash_rate_threshold (rl_policy r) = Some threshold -> rl_crash_rate r = Some rate ->
  f64_le threshold rate = true -> rl_health_error r = None ->
  overdue_check (rl_crash_rate_checked_at r) now = false ->
  rel_health (row_to_release d id r) = Breached /\
  exists w' res, tick_release now (row_to_release d id r) (World d [] p) = (w', res) /\
    StoreApplied id (step_call f) ∈ w_published w'.
Proof.
  intros Hr Hok Hs Hdue Ha Hn Ht Hrate Hb Hhe Hov. split.
  - cbn. unfold from_crash_rate. by rewrite Ht, Hrate, Hb.
  - destruct (due_step now id d p r f) as (w' & r' & H & _ & _ & _ & _ & Hin); [|eauto].
    split; [done..|]. unfold healthy. cbn. rewrite Ht. eauto.
Qed.

(** ** Who can make a promotion happen *)

Lemma role_with_ok auth pid permission w w' role :
  role_with auth pid permission w = (w', Ok role) ->
  role_in (w_db w) auth pid = Some role /\ check_project_permission role permission = true /\
  w_db w' = w_db w /\ w_published w' = w_published w.
Proof.
  intros H. unfold role_with, require_project_exists in H.
  apply M_bind_ok in H as (w1 & eff & H1 & H). pose proof (resolve_role_ok _ _ _ _ _ H1) as Hr.
  apply resolve_role_pure in H1 as [D1 P1].
  apply M_bind_ok in H as (w2 & [] & ->%require_permission_pure & H).
  apply M_bind_ok in H as (w3 & [] & H3 & H).
  apply M_bind_ok in H3 as (w4 & b & [H4 P4]%map_err_ok%stmt_ok & [_ ->]%guard_ok). injection H4 as D4 _.
  apply M_bind_ok in H as (w5 & [] & H5 & [= -> ->]). pose proof (require_permission_ok _ _ _ _ _ H5) as Hc.
  apply require_permission_pure in H5 as ->. split_and!; [done|done|congruence..].
Qed.

(** An environment as it is loaded. *)
Definition loaded (d : db) (id : string) (e : environment) : ProjectEnvironment :=
  {| env_id := id; env_row := e;
     env_approvers := {| eas_role := pe_approver_role e;
                         eas_users := current_approvers d id (pe_project_id e) |} |}.

Lemma load_environment_loaded pid id w w' env :
  load_environment pid id w = (w', Ok env) ->
  w_db w' = w_db w /\ w_published w' = w_published w /\
  exists e, project_environments (w_db w) !! id = Some e /\ pe_project_id e = pid /\ env = loaded (w_db w) id e.
Proof.
  intros H. unfold load_environment in H.
  apply M_bind_ok in H as (w1 & row & [H1 P1]%stmt_ok & H). injection H1 as D1 <-.
  apply M_bind_ok in H as (w2 & e & H2 & H).
  destruct (project_environments (w_db w) !! id) as [e0|]; [|done].
  destruct (String.eqb _ _) eqn:E; [|done]. injection H2 as -> ->. apply String.eqb_eq in E.
  apply M_bind_ok in H as (w3 & approvers & [H3 P3]%stmt_ok & [= -> <-]). injection H3 as D3 <-.
  split_and!; [congruence..|]. exists e. split_and!; [done|done|]. unfold loaded. congruence.
Qed.

(** Runs that ask no store for a change. *)
Definition asks_none {E A} (m : ME E A) : Prop :=
  forall w w' r, m w = (w', r) -> exists l, w_published w' = w_published w ++ l /\ Forall harmless l.

Lemma asks_none_mute {E A} (m : ME E A) : mute m -> asks_none m.
Proof. intros Hm w w' r H%Hm. exists []. by rewrite app_nil_r. Qed.

Lemma asks_none_bind {E A B} (m : ME E A) (k : A -> ME E B) : asks_none m -> (forall a, asks_none (k a)) -> asks_none (m ≫= k).
Proof.
  intros Hm Hk w w' r [(w1 & e & H1%Hm & -> & ->)|(w1 & a & (l1 & P1 & F1)%Hm & (l2 & P2 & F2)%Hk)]%bind_split; [done|].
  exists (l1 ++ l2). rewrite P2, P1, app_assoc. split; [done|]. by apply Forall_app.
Qed.

Lemma asks_none_catch {E F A B} (m : ME E A) (k : result E A -> ME F B) :
  asks_none m -> (forall r, asks_none (k r)) -> asks_none (catch m k).
Proof.
  intros Hm Hk w w' r H. unfold catch in H. destruct (m w) as [w1 r1] eqn:E1.
  apply Hm in E1 as (l1 & P1 & F1). apply Hk in H as (l2 & P2 & F2).
  exists (l1 ++ l2). rewrite P2, P1, app_assoc. split; [done|]. by apply Forall_app.
Qed.

Lemma asks_none_publish {E} release kind actor reason now : asks_none (publish release kind actor reason now : ME E unit).
Proof. intros w w' r [= <- _]. eexists. split; [done|]. by constructor. Qed.

(** The store is asked, once, to promote the version of a release. *)
Definition promoted_once (w w' : world) (source_id : string) (target : PromotionTarget) : Prop :=
  exists l, w_published w' = w_published w ++ StorePromoted source_id target :: l /\ Forall harmless l.

Lemma promoted_once_ext w w1 w2 w' source_id target :
  w_published w1 = w_published w -> w_published w2 = w_published w' ->
  promoted_once w1 w2 source_id target -> promoted_once w w' source_id target.
Proof. unfold promoted_once. by intros -> ->. Qed.

Lemma once_asked {E A} (m : ME E A) w w1 w' r source_id target :
  promoted_once w w1 source_id target -> asks_none m -> m w1 = (w', r) -> promoted_once w w' source_id target.
Proof.
  intros (l1 & P1 & F1) Hm (l2 & P2 & F2)%Hm. exists (l1 ++ l2). rewrite P2, P1, <- app_assoc. split; [done|].
  by apply Forall_app.
Qed.

Ltac asks_none_tac :=
  repeat first [apply asks_none_publish | apply asks_none_mute; by mute_tac | case_match | apply asks_none_bind; intros].

Lemma asks_none_mark id message now : asks_none (map_errM EnvDb (mark_failed id message now)).
Proof. apply asks_none_mute, mute_map_err, mute_bind; [apply mute_sql|]. intros. apply mute_calm, calm_ret. Qed.

(** Carrying a promotion out asks the store exactly once. *)
Lemma execute_asks id env source actor reason new_id now w w' res :
  execute_promotion id env source actor reason new_id now w = (w', res) ->
  promoted_once w w' (rel_id source) (promotion_target (env_row env)).
Proof.
  assert (Hcall : forall w1 r1, promote_at_store id (env_row env) source actor now w = (w1, r1) ->
    promoted_once w w1 (rel_id source) (promotion_target (env_row env))).
  { intros w1 r1 H. unfold promote_at_store, catch in H. destruct (call _ _ w) as [w2 r2] eqn:Ep.
    unfold call, emit, mbind, M_bind in Ep. apply promote_law in Ep as [_ (l & P & F) _]. cbn in P.
    assert (Ho : promoted_once w w2 (rel_id source) (promotion_target (env_row env)))
      by (exists l; rewrite P, <- app_assoc; done).
    destruct r2 as [promoted|error]; [by injection H as <- _|].
    refine (once_asked _ _ _ _ _ _ _ Ho _ H). apply asks_none_bind; [apply asks_none_mark|]. intros _. asks_none_tac. }
  intros H. unfold execute_promotion in H.
  apply bind_split in H as [(w1 & e & H1%Hcall & -> & _)|(w1 & promoted & H1%Hcall & H)]; [done|].
  refine (once_asked _ _ _ _ _ _ _ H1 _ H). apply asks_none_bind.
  - apply asks_none_catch; [apply asks_none_mute, mute_transaction; mute_tac|]. intros [created|e0]; [asks_none_tac|].
    apply asks_none_bind; [apply asks_none_mark|]. intros _. asks_none_tac.
  - intros [rel why]. unfold finish_create. asks_none_tac.
Qed.

(** Nothing but a promotion that is [promoting] reaches the store. *)
Lemma start_gate pid env source req actor id new_id now w w' res :
  start_promotion pid env source req actor id new_id now w = (w', res) ->
  w_published w' = w_published w \/
  pe_approval_required (env_row env) = false /\
  promoted_once w w' (rel_id source) (promotion_target (env_row env)).
Proof.
  intros H. unfold start_promotion in H.
  apply bind_split in H as [(w1 & e & H1 & -> & ->)|(w1 & [] & H1 & H)];
    apply insert_promotion_run in H1 as [[V [? ?]]|(? & _ & V)]; try done; [left; by views|].
  apply bind_split in H as [(w2 & e & Ha%calm_audit & -> & ->)|(w2 & [] & Ha%calm_audit & H)]; [left; views; congruence|].
  assert (P2 : w_published w2 = w_published w) by (views; congruence). clear V Ha.
  destruct (pe_approval_required (env_row env)) eqn:Ea.
  - left. rewrite bool_decide_false in H by (unfold requested_row; cbn; by rewrite Ea). by injection H as <- _.
  - right. split; [done|]. rewrite bool_decide_true in H by (unfold requested_row; cbn; by rewrite Ea).
    apply bind_split in H as [(w3 & e & H%execute_asks & -> & _)|(w3 & x & H%execute_asks & [= <- _])];
      unfold promoted_once in *; by rewrite <- P2.
Qed.

(** A target asks for the environment's track, its review option and the first
    step of its policy: a fraction of the users unless that is all of them or
    the track is the internal one. *)
Record first_step (e : environment) (t : PromotionTarget) : Prop := {
  fs_track : pt_track t = pe_track e;
  fs_review : pt_submit_for_review t = pe_submit_for_review e;
  fs_fraction : forall f, pt_fraction t = Some f <->
    pe_track e <> "internal"%string /\ head (steps (pe_policy e)) = Some f /\ f64_le f_1 f = false;
  fs_phased : pt_phased_release t = true <->
    exists f, head (steps (pe_policy e)) = Some f /\ f64_lt f f_1 = true;
}.

Lemma promotion_target_first e : first_step e (promotion_target e).
Proof.
  split; cbn; [done|done|intros f|].
  - unfold initial_rollout. destruct (String.eqb_spec (pe_track e) "internal") as [Ei|Ei]; cbn [orb].
    { by split; [|intros [? _]]. }
    destruct (head (steps (pe_policy e))) as [f0|]; cbn [default id].
    + destruct (f64_le f_1 f0) eqn:El; cbn [snd]; (split; [|intros (_ & [= ->] & Hf)]); [done|congruence|by intros [= ->]|done].
    + by split; [|intros (_ & ? & _)].
  - destruct (head (steps (pe_policy e))) as [f0|]; [|by split; [|intros (? & ? & _)]].
    split; [by exists f0|]. by intros (? & [= ->] & ?).
Qed.

(** A promotion of [build_id] into the environment [e] is carried out: its
    source holds a live version, the build has no release in the environment
    but failed ones, and the store is asked for the environment's track and
    first step, once. *)
Record carried_out (w w' : world) (build_id environment_id : string) (e : environment)
    (source_id : string) (r : release) : Prop := {
  co_source : releases (w_db w) !! source_id = Some r;
  co_live : rl_state r ∈ [ReleaseState.Rolling; ReleaseState.Paused; ReleaseState.Complete];
  co_new : not_in_environment build_id environment_id (w_db w);
  co_asked : exists t, first_step e t /\ promoted_once w w' source_id t;
}.

Lemma carry_out w w' build_id environment_id e source_id r :
  releases (w_db w) !! source_id = Some r -> holds_version (rl_state r) = true ->
  not_in_environment build_id environment_id (w_db w) -> promoted_once w w' source_id (promotion_target e) ->
  carried_out w w' build_id environment_id e source_id r.
Proof.
  intros Hr Hl Hn Ha. split; [done| |done|eauto using promotion_target_first].
  destruct (rl_state r); set_solver.
Qed.

Lemma carried_out_ext w w1 w2 w' build_id environment_id e source_id r :
  releases (w_db w1) = releases (w_db w) -> w_published w1 = w_published w ->
  w_published w2 = w_published w' ->
  carried_out w1 w2 build_id environment_id e source_id r -> carried_out w w' build_id environment_id e source_id r.
Proof.
  intros R P P' [Hr Hl Hn (t & Ht & Ha)]. split; [congruence|done| |eauto using promoted_once_ext].
  by eapply not_in_environment_ext.
Qed.

(** What asking for a promotion needs to reach the store. *)
Record may_promote (w w' : world) (pid : string) (req : CreatePromotionRequest) (e : environment) : Prop := {
  mp_environment : project_environments (w_db w) !! cp_environment_id req = Some e;
  mp_project : pe_project_id e = pid;
  mp_open : pe_approval_required e = false;
  mp_build : exists b, builds (w_db w) !! cp_build_id req = Some b /\ b_project_id b = pid /\
    b_status b = BuildStatus.Succeeded;
  mp_source : exists k r, rl_build_id r = cp_build_id req /\ rl_store r = pe_store e /\
    carried_out w w' (cp_build_id req) (cp_environment_id req) e k r;
}.

Lemma may_promote_ext w w1 w' pid req e :
  w_db w1 = w_db w -> w_published w1 = w_published w -> may_promote w1 w' pid req e -> may_promote w w' pid req e.
Proof.
  intros D P [H1 H2 H3 H4 (k & r & Hb & Hs & Hc)]. rewrite D in *. split; [done..|]. exists k, r.
  split_and!; [done|done|]. eapply carried_out_ext; [by rewrite D|done|done|done].
Qed.

Lemma request_gate pid role actor req id new_id now w w' res :
  request_promotion pid role actor req id new_id now w = (w', res) ->
  w_published w' = w_published w \/
  exists e, check_project_permission role ManageReleases = true /\ may_promote w w' pid req e.
Proof.
  intros H. unfold request_promotion in H.
  cpeel H w1 env H1 V1; [left; by views|]. apply load_environment_loaded in H1 as (D1 & P1 & e & He & Hp & ->).
  cpeel H w2 u2 H2 V2; [left; views; congruence|]. apply guard_ok in H2 as [Hmay ->].
  cpeel H w3 st H3 V3; [left; views; congruence|]. apply stmt_ok in H3 as [H3 P3]. injection H3 as D3 <-.
  cpeel H w4 status H4 V4; [left; views; congruence|]. apply from_option_Ok in H4.
  cpeel H w5 u5 H5 V5; [left; views; congruence|]. apply guard_Ok, bool_decide_eq_true in H5. subst status.
  rewrite D1 in H4. assert (P5 : w_published w5 = w_published w) by (views; congruence).
  assert (R5 : releases (w_db w5) = releases (w_db w)) by (views; congruence).
  clear V1 V2 V3 V4 V5.
  apply bind_split in H as [(w6 & e6 & H6%ensure_run & -> & ->)|(w6 & [] & H6%ensure_run & H)];
    destruct H6 as [_ F6 _ _ Hnew _]; unfold frame in F6; injection F6 as R6 _ P6 _; [left; congruence|].
  specialize (Hnew eq_refl). cbn in Hnew.
  apply calm_peel in H as [[V7 [? ->]]|(w7 & source & H7 & V7 & H)];
    [left; views; congruence| |apply calm_find_source].
  cpeel H w8 src H8 V8; [left; views; congruence|]. apply from_option_Ok in H8. subst source.
  apply find_source_ok in H7 as [Hsrc (Hb & Hstore & Hlive & _)%promotable_ok].
  assert (P8 : w_published w8 = w_published w) by (views; congruence). clear V7 V8.
  destruct (builds (w_db w) !! cp_build_id req) as [b|] eqn:Eb; [|done].
  destruct (String.eqb _ _) eqn:Epid; [|done]. apply String.eqb_eq in Epid. injection H4 as Hst.
  assert (Hgate : forall w9 r9, start_promotion pid (loaded (w_db w) (cp_environment_id req) e) src req actor id new_id now w8
    = (w9, r9) -> forall w'', w_published w'' = w_published w9 ->
    w_published w'' = w_published w \/ exists e0, check_project_permission role ManageReleases = true /\
      may_promote w w'' pid req e0).
  { intros w9 r9 [H9|[Ha H9]]%start_gate w'' Hw; [left; congruence|right]. exists e. cbn in Ha, H9.
    split; [unfold may_request in Hmay; cbn in Hmay; by rewrite Ha in Hmay|].
    split; [done|done|done|by exists b|]. exists (rel_id src), (rel_row src). split_and!; [done|done|].
    apply carry_out; [congruence|done| |by eapply promoted_once_ext].
    eapply not_in_environment_ext; [|exact Hnew]. congruence. }
  apply bind_split in H as [(w9 & e9 & H9 & -> & ->)|(w9 & [] & H9 & H%calm_load_promotion)];
    apply (Hgate _ _ H9); [done|by views].
Qed.

(** An approval that goes ahead asks the store exactly once. *)
Lemma approved_asks id p env actor reason new_id now w w' res :
  env_id env = pm_environment_id p -> promote_approved id p env actor reason new_id now w = (w', res) ->
  w_published w' = w_published w \/
  exists r, carried_out w w' (pm_build_id p) (pm_environment_id p) (env_row env) (pm_source_release_id p) r.
Proof.
  intros Hid H. unfold promote_approved in H.
  apply bind_split in H as [(w1 & e & H1 & -> & ->)|(w1 & source & H1 & H)]; unfold catch in H1;
    destruct (check_before_promoting _ _ _ _ w) as [w2 [source2|e2]] eqn:E2;
    apply check_run in E2 as (_ & F2 & _ & Hok); unfold frame in F2; injection F2 as R2 _ P2 _; try done.
  - left. rewrite <- P2.
    apply bind_split in H1 as [(w3 & e3 & H3 & -> & _)|(w3 & [] & H3 & [= <- _])];
      refine (mute_map_err EnvDb _ (mute_bind _ _ (mute_sql _) _) _ _ _ H3); intros; apply mute_calm, calm_ret.
  - right. injection H1 as -> ->. destruct (Hok _ eq_refl) as (_ & Hsid & Hr & Hl & Hn). rewrite Hid in Hn.
    exists (rel_row source). rewrite <- Hsid.
    apply bind_split in H as [(w3 & e & H%execute_asks & -> & _)|(w3 & x & H%execute_asks & [= <- _])];
      (apply carry_out; [congruence|done|done|by eapply promoted_once_ext]).
  - by apply bind_split in H1 as [(? & ? & _ & _ & [=])|(? & ? & _ & [=])].
Qed.

(** Who may approve promotions into [e], by their role in the project: an
    instance admin; without approvers set, a maintainer; else a member with the
    role the environment accepts, or a developer or maintainer whom it names. *)
Inductive approver (d : db) (environment_id : string) (e : environment) (user : string)
    : EffectiveProjectRole -> Prop :=
  | apr_admin : approver d environment_id e user InstanceAdmin
  | apr_default :
      pe_approver_role e = None -> current_approvers d environment_id (pe_project_id e) = [] ->
      approver d environment_id e user (Member ProjectRole.Maintainer)
  | apr_maintainer min :
      pe_approver_role e = Some min -> approver d environment_id e user (Member ProjectRole.Maintainer)
  | apr_developer :
      pe_approver_role e = Some ApproverRole.Developer ->
      approver d environment_id e user (Member ProjectRole.Developer)
  | apr_named m u stored :
      m <> ProjectRole.Viewer -> (environment_id, user) ∈ environment_approvers d -> users d !! user = Some u ->
      members d !! (pe_project_id e, user) = Some stored -> stored = "maintainer"%string \/ stored = "developer"%string ->
      approver d environment_id e user (Member m).

Lemma elem_of_current_approvers d environment_id project_id a :
  a ∈ current_approvers d environment_id project_id ->
  (environment_id, ea_user_id a) ∈ environment_approvers d /\ is_Some (users d !! ea_user_id a) /\
  exists stored, members d !! (project_id, ea_user_id a) = Some stored /\
    (stored = "maintainer"%string \/ stored = "developer"%string).
Proof.
  unfold current_approvers. rewrite merge_sort_Permutation, list_elem_of_omap.
  intros ([k u] & Hin%elem_of_elements & H). cbn in H.
  destruct (String.eqb_spec k environment_id) as [->|]; [|done].
  destruct (users d !! u) as [x|] eqn:Hu; [|done]. destruct (members d !! (project_id, u)) as [stored|] eqn:Hm; [|done].
  destruct (_ || _) eqn:Ho; [|done]. injection H as <-. cbn. split_and!; [done|by rewrite Hu|]. exists stored.
  split; [done|]. apply orb_true_iff in Ho as [Ho|Ho]; apply String.eqb_eq in Ho; auto.
Qed.

Lemma named_approver d environment_id e m user :
  existsb (fun a => String.eqb (ea_user_id a) user) (current_approvers d environment_id (pe_project_id e))
    && check_project_permission (Member m) OperateRelease = true ->
  approver d environment_id e user (Member m).
Proof.
  intros [(a & Ha%list_elem_of_In & Hu)%existsb_exists Hp]%andb_true_iff. apply String.eqb_eq in Hu. subst user.
  apply elem_of_current_approvers in Ha as (? & [? ?] & stored & ? & ?). eapply apr_named; [|done..]. by intros ->.
Qed.

Lemma basis_approver d environment_id e role user :
  is_Some (approval_basis role (Some user) (env_approvers (loaded d environment_id e))) ->
  approver d environment_id e user role.
Proof.
  unfold approval_basis, loaded, approvers_set. cbn [env_approvers eas_role eas_users].
  destruct role as [|m|]; [constructor| |by intros [? [=]]].
  assert (Hnamed : forall b, is_Some (if b && check_project_permission (Member m) OperateRelease
      then Some ByNamedApprover else None) -> b && check_project_permission (Member m) OperateRelease = true)
    by (intros b; case_match; [done|by intros [? [=]]]).
  destruct (pe_approver_role e) as [min|] eqn:Er; cbn [is_Some orb negb].
  - rewrite bool_decide_true by done. cbn [orb negb]. destruct (role_meets m min) eqn:Em.
    + intros _. destruct m, min; try discriminate Em; eauto using approver.
    + intros H%Hnamed. by apply named_approver.
  - rewrite bool_decide_false by (by intros [? [=]]). cbn [orb]. case_bool_decide as Hl; cbn [negb].
    + apply nil_length_inv in Hl. destruct m; cbn; [|by intros [? [=]]..]. intros _. by apply apr_default.
    + intros H%Hnamed. by apply named_approver.
Qed.

(** What deciding a promotion needs to reach the store. *)
Record may_decide (w w' : world) (pid id : string) (role : EffectiveProjectRole) (user : string)
    (p : promotion) (e : environment) : Prop := {
  md_promotion : environment_promotions (w_db w) !! id = Some p;
  md_pending : pm_state p = PromotionState.Pending;
  md_environment : project_environments (w_db w) !! pm_environment_id p = Some e;
  md_project : pe_project_id e = pid;
  md_approver : approver (w_db w) (pm_environment_id p) e user role;
  md_source : exists r,
    carried_out w w' (pm_build_id p) (pm_environment_id p) e (pm_source_release_id p) r;
}.

Lemma may_decide_ext w w1 w' pid id role user p e :
  w_db w1 = w_db w -> w_published w1 = w_published w ->
  may_decide w1 w' pid id role user p e -> may_decide w w' pid id role user p e.
Proof.
  intros D P [H1 H2 H3 H4 H5 [r Hc]]. rewrite D in *. split; [done..|]. exists r.
  eapply carried_out_ext; [by rewrite D|done|done|done].
Qed.

Lemma decide_gate pid id role actor user approve reason new_id now w w' res :
  actor_user_id actor = Some user ->
  decide_promotion pid id role actor approve reason new_id now w = (w', res) ->
  w_published w' = w_published w \/
  approve = true /\ exists p e, may_decide w w' pid id role user p e.
Proof.
  intros Hactor H. unfold decide_promotion in H.
  cpeel H w1 u1 H1 V1; [left; by views|]. apply guard_ok in H1 as [_ ->]. clear V1.
  cpeel H w2 l H2 V2; [left; by views|]. unfold load_promotion_with_environment in H2.
  apply M_bind_ok in H2 as (w3 & row & [H3 P3]%stmt_ok & H2). injection H3 as D3 <-.
  apply M_bind_ok in H2 as (w4 & p & H4 & H2).
  destruct (environment_promotions (w_db w) !! id) as [p0|] eqn:Ep; [|done].
  destruct (_ && _); [|done]. injection H4 as -> ->.
  apply M_bind_ok in H2 as (w5 & env & (D5 & P5 & e & He & Hpid & ->)%load_environment_loaded & [= -> <-]).
  rewrite <- D3 in He, D5, H. clear D3. cbn [fst snd ep_row row_to_promotion env_id env_row] in H.
  cpeel H w6 u6 H6 V6; [left; views; congruence|]. apply guard_ok in H6 as [Hb ->]. apply bool_decide_eq_true in Hb.
  cbn [vw_user_id] in Hb. rewrite Hactor in Hb. apply basis_approver in Hb.
  apply bind_split in H as [(w7 & e7 & H7%stmt_view & -> & ->)|(w7 & n & H7 & H)]; [left; views; congruence|].
  apply update_promotion_ok in H7 as [(q & Hq & Hpend & -> & V7)|(-> & V7 & _)].
  2:{ injection H as <- _. left. views. congruence. }
  apply bool_decide_eq_true in Hpend. assert (q = p) as -> by congruence.
  assert (P7 : w_published w7 = w_published w) by (views; congruence).
  assert (R7 : releases (w_db w7) = releases (w_db w)) by (views; congruence). clear V7 V6 V2.
  cpeel H w8 u8 H8 V8; [left; views; congruence|]. cpeel H w9 x9 H9 V9; [left; views; congruence|].
  cpeel H w10 x10 H10 V10; [left; views; congruence|]. cpeel H w11 x11 H11 V11; [left; views; congruence|].
  assert (P11 : w_published w11 = w_published w) by (views; congruence).
  assert (R11 : releases (w_db w11) = releases (w_db w)) by (views; congruence). clear V8 V9 V10 V11.
  apply bind_split in H as [(w12 & e12 & H12 & -> & ->)|(w12 & [] & H12 & H%calm_load_promotion)];
    (destruct approve; [|left; injection H12 as -> ; views; congruence]);
    (apply approved_asks in H12 as [H12|[r Hc]]; [left; views; congruence| |done]);
    right; (split; [done|]); exists p, e; (split; [done..|]); exists r;
    (eapply carried_out_ext; [exact R11|exact P11| |exact Hc]); by views.
Qed.

(** C32: safety.  A promotion reaches the store only through its gates.  Asked
    for, it does so only by a caller who may manage releases of the project,
    into an environment of the project that requires no approval, for a
    succeeded build of the project and from a release of that build in the
    environment's store; decided, only when a signed-in user, not an API token,
    who is then an approver of the environment approves a promotion that is
    still pending, from the source it was requested with.  Both ways the source
    holds a live version, the build has no release in the environment but
    failed ones, and the store is asked once, for the environment's track and
    first step. *)
Theorem promotions_gated auth pid :
  (forall req id new_id now w w' res,
     promote_build auth pid req id new_id now w = (w', res) -> w_published w' <> w_published w ->
     authorized (w_db w) auth pid ManageReleases /\ exists e, may_promote w w' pid req e) /\
  (forall id reason approve new_id now w w' res,
     decide_handler auth pid id reason approve new_id now w = (w', res) -> w_published w' <> w_published w ->
     approve = true /\ auth_source auth = Session /\
     exists p e role, role_in (w_db w) auth pid = Some role /\
       may_decide w w' pid id role (user_id auth) p e).
Proof.
  split.
  - intros req id new_id now w w' res H Hp. unfold promote_build in H.
    apply bind_split in H as [(w1 & e & V%calm_role_with & -> & ->)|(w1 & role & H1 & H)]; [exfalso; by views|].
    apply role_with_ok in H1 as (Hr & _ & D1 & P1).
    unfold map_errM in H. destruct (request_promotion _ _ _ _ _ _ _ w1) as [w2 r2] eqn:E2. injection H as <- _.
    apply request_gate in E2 as [?|(e & Hc & Hm)]; [congruence|].
    split; [by exists role|]. exists e. by eapply may_promote_ext.
  - intros id reason approve new_id now w w' res H Hp. unfold decide_handler in H.
    apply bind_split in H as [(w1 & e & V%calm_role_with & -> & ->)|(w1 & role & H1 & H)]; [exfalso; by views|].
    apply role_with_ok in H1 as (Hr & _ & D1 & P1).
    apply bind_split in H as [(w2 & e & H2 & -> & ->)|(w2 & [] & H2 & H)].
    { exfalso. apply (calm_map_err environment_api _ (calm_lift _)) in H2. views. congruence. }
    apply map_err_ok, lift_ok in H2 as [Hs ->].
    unfold map_errM in H. destruct (decide_promotion _ _ _ _ _ _ _ _ w1) as [w3 r3] eqn:E3. injection H as <- _.
    apply (decide_gate _ _ _ _ (user_id auth)) in E3 as [?|(-> & p & e & Hm)]; [congruence| |done].
    split_and!; [done|by destruct (auth_source auth)|]. exists p, e, role. split; [done|]. by eapply may_decide_ext.
Qed.

End Handlers.

(** ** The time of the next step *)

Lemma f64_mul_nonneg m e m' e' :
  0 <= round_to_i64 (f64_mul (SpecFloat.S754_finite false m e) (SpecFloat.S754_finite false m' e')).
Proof.
  unfold f64_mul, SpecFloat.SFmul, SpecFloat.binary_round_aux. cbn [xorb].
  repeat case_match; subst; simplify_eq/=; try (vm_compute; congruence).
  assert (H3 : 0 <= if 0 <=? z0 then Z.pos p * 2 ^ z0 else div_half_up (Z.pos p) (2 ^ (- z0))).
  { destruct (0 <=? z0) eqn:Ez; [lia|]. unfold div_half_up. apply Z.div_pos; [lia|].
    assert (0 < 2 ^ (- z0)) by (apply Z.pow_pos_nonneg; lia). lia. }
  unfold clamp_i64, i64_min, i64_max. lia.
Qed.

Lemma round_to_i64_max x : round_to_i64 x <= i64_max.
Proof. unfold round_to_i64, clamp_i64, i64_min, i64_max. repeat case_match; lia. Qed.

Lemma interval_secs_bounds p : validate p = Ok tt -> 0 <= interval_secs p <= i64_max.
Proof.
  intros [_ _ _ [Hf Hpos] _]%validate_ok. unfold interval_secs. split; [|apply round_to_i64_max].
  destruct (interval_hours p) as [s| | |[] m e]; try done. exact (f64_mul_nonneg m e _ _).
Qed.

(** bounds.  When the next step of a release the daemon drives is: the
    policy's interval after [now], as long as that time is an [i64].  A valid
    policy may ask for a longer interval, and then the sum wraps round: the
    step is due in the past, that is at once, instead of never. *)
Theorem next_step_time r now :
  validate (rl_policy r) = Ok tt -> 0 <= now <= i64_max -> driven r = true ->
  exists at_, next_step_at r now = Some at_ /\
    (now + interval_secs (rl_policy r) <= i64_max -> at_ = now + interval_secs (rl_policy r) /\ now <= at_) /\
    (i64_max < now + interval_secs (rl_policy r) -> at_ < now /\ step_due (set_rl_next_step_at (Some at_) r) now = true).
Proof.
  intros Hp Hnow Hd. unfold next_step_at. rewrite Hd. eexists. split; [done|].
  pose proof (interval_secs_bounds _ Hp) as Hi. split.
  - intros Hm. rewrite wrap_i64_id by (unfold i64_min, i64_max in *; lia). lia.
  - intros Hm. assert (Hw : wrap_i64 (now + interval_secs (rl_policy r)) = now + interval_secs (rl_policy r) - 2 ^ 64).
    { unfold wrap_i64, i64_max in *.
      replace (now + interval_secs (rl_policy r) + 2 ^ 63)
        with ((now + interval_secs (rl_policy r) - 2 ^ 63) + 1 * 2 ^ 64) by lia.
      rewrite Z.mod_add, Z.mod_small by lia. lia. }
    unfold step_due. cbn [rl_next_step_at set_rl_next_step_at]. unfold i64_max in *. split; [lia|].
    apply Z.leb_le. lia.
Qed.

(** ** A small history, for the examples

    A succeeded build is released to the [beta] track, an environment for
    [production] that requires approval is added, the build is promoted into
    it and approved, and two days later the monitor takes the next step. *)
Module ReleaseSample.

(** Apple has nothing, and no key can be decrypted. *)
#[local] Instance apple : AppStoreOutside := {|
  answer := fun _ _ _ => Err "unavailable"%string;
  decrypt := fun _ => Err "no key"%string;
  describe_sql := fun _ => "database error"%string;
  describe_release := fun _ => "release error"%string;
  time_at := fun _ => 0;
|}.

#[local] Instance store : ReleaseStoreClient := {|
  observe := fun _ => mret None;
  apply_change := fun _ _ => mret tt;
  crash_rate := fun _ => mret None;
  promote := fun _ _ => mret {| pd_start := None; pd_detail := None; pd_app_store_link := None |};
|}.

(** A client that only answers. *)
Lemma answers_only {E A} (m : ME E A) : (forall w, exists r, m w = (w, r)) -> client_op m.
Proof.
  intros Hm w w' r H. destruct (Hm w) as [r' Hw]. rewrite Hw in H. injection H as <- _. split; [|exists []|done].
  - exists (app_store_links (w_db w)). by destruct (w_db w).
  - by rewrite app_nil_r.
Qed.

#[local] Instance store_laws : ReleaseStoreLaws.
Proof. split; intros; apply answers_only; eauto. Qed.

#[local] Instance store_agrees_always : Agreeable.
Proof. by split. Qed.

Definition succeeded : build :=
  Build (Sample.meta 9 200) BuildStatus.Succeeded Sample.snap None None None None None
    None None None None None None 230 None None.

Definition w0 : world :=
  World (set_builds (<["b-ok"%string := succeeded]> (builds Sample.database)) Sample.database) [] [].

Definition admin : SessionInfo :=
  {| user_id := "u1"; email := "a@x"; oidc_subject := "s1"; role := "admin"; expires_at := 86400;
     auth_source := Session |}.

Definition to_beta : CreateReleaseRequest :=
  {| cr_build_id := "b-ok"; cr_artifact_id := None; cr_store := ReleaseStore.GooglePlay; cr_track := "beta";
     cr_package_name := Some "com.acme"%string; cr_version_name := None; cr_version_code := Some 7;
     cr_state := None; cr_rollout_fraction := None; cr_policy := None; cr_reason := None |}.

Definition production : CreateProjectEnvironmentRequest :=
  {| ce_key := "production"; ce_name := "Production"; ce_store := ReleaseStore.GooglePlay;
     ce_track := "production"; ce_approval_required := true; ce_rollout_policy := None;
     ce_submit_for_review := false; ce_approvers := None |}.

Definition to_production : CreatePromotionRequest :=
  {| cp_build_id := "b-ok"; cp_environment_id := "env"; cp_reason := None |}.

Definition w1 : world := fst (create_release_handler admin to_beta "rel" 1000 w0).
Definition w2 : world := fst (create_project_environment admin "p1" production "env" 1100 w1).
Definition w3 : world := fst (promote_build admin "p1" to_production "prom" "unused" 1200 w2).
Definition w4 : world := fst (decide_handler admin "p1" "prom" None true "rel2" 1300 w3).
Definition w5 : world := fst (run_rollout_tick (1300 + 172800) 10 w4).

Lemma run_fst {E A} (m : ME E A) w : m w = (fst (m w), snd (m w)).
Proof. by destruct (m w). Qed.

Lemma history_to_tick : rtc served w0 w4.
Proof.
  eapply rtc_l; [exact (sv_run w0 w1 _ _ (rh_create _ _ _ _) (run_fst _ _))|].
  eapply rtc_l; [exact (sv_run w1 w2 _ _ (rh_new_environment _ _ _ _ _) (run_fst _ _))|].
  eapply rtc_l; [exact (sv_run w2 w3 _ _ (rh_promote _ _ _ _ _ _) (run_fst _ _))|].
  apply rtc_once. exact (sv_run w3 w4 _ _ (rh_decide _ _ _ _ _ _ _) (run_fst _ _)).
Qed.

Lemma history : rtc served w0 w5.
Proof. eapply rtc_r; [exact history_to_tick|]. exact (sv_run w4 w5 _ _ (rh_tick _ _) (run_fst _ _)). Qed.

Lemma start_pristine : pristine w0.
Proof. done. Qed.

(** A release of a world of this history. *)
Definition release_of (w : world) (id : string) : release :=
  default (new_release_row (requested_release "" to_beta) System None 0) (releases (w_db w) !! id).

(** The [n]th call to the store. *)
Definition call_of (w : world) (n : nat) : StoreChange :=
  match w_published w !! n with Some (StoreApplied _ c) => c | _ => StoreHalt end.

Lemma release_handlers_refine_witness : rtc rstep w0 w1.
Proof. exact (release_handlers_refine _ _ _ _ (rh_create admin to_beta "rel" 1000) (run_fst _ _)). Defined.

Lemma release_invariant_witness : release_ok (release_of w5 "rel2").
Proof.
  refine (proj1 (release_invariant w0 w5 "rel2" _ start_pristine history _)). vm_compute. reflexivity.
Defined.

Lemma store_calls_gated_witness :
  exists x r, sent_in w4 w5 6 x /\ releases (w_db x) !! "rel2"%string = Some r /\ call_ok r (call_of w5 6).
Proof.
  destruct (store_calls_gated (run_rollout_tick (1300 + 172800) 10) w0 w4 w5 _ 6 "rel2" (call_of w5 6)
    start_pristine history_to_tick (rh_tick _ _) (run_fst _ _)) as (x & r & H1 & H2 & _ & H3).
  - vm_compute. lia.
  - vm_compute. reflexivity.
  - exists x, r. exact (conj H1 (conj H2 H3)).
Defined.

Lemma environments_well_formed_witness : einv (w_db w5).
Proof. exact (environments_well_formed w0 w5 start_pristine history). Defined.

Lemma promotion_invariant_witness : pinv (w_db w5).
Proof. exact (promotion_invariant w0 w5 start_pristine history). Defined.

(** Pausing the release on [beta]. *)
Definition pausing : ReleaseChange :=
  {| ch_to_state := ReleaseState.Paused; ch_to_fraction := None; ch_audit_action := "release_paused";
     ch_expect := None; ch_from_store := false |}.

Lemma transition_release_spec_witness :
  exists rel, snd (transition_release "rel" pausing System None 1050 w1) = Ok rel.
Proof.
  pose proof (transition_release_spec "rel" pausing System None 1050 w1 _ _ (run_fst _ _)) as H.
  assert (Hr : releases (w_db w1) !! "rel"%string = Some (release_of w1 "rel")) by (vm_compute; reflexivity).
  rewrite Hr in H. destruct H as (_ & _ & H). apply H; [vm_compute; reflexivity..|].
  intros c _. eexists. reflexivity.
Defined.

(** The step after the first of the promoted release. *)
Definition following : f64 :=
  default f_1 (next_step (rl_policy (release_of w4 "rel2")) (rl_rollout_fraction (release_of w4 "rel2"))).

Lemma due_step_taken_witness : exists w' r',
  tick_release 200000 (row_to_release (w_db w4) "rel2" (release_of w4 "rel2")) (World (w_db w4) [] []) = (w', Ok tt) /\
  releases (w_db w') !! "rel2"%string = Some r'.
Proof.
  assert (H : step_ready (w_db w4) "rel2" (release_of w4 "rel2") 200000 following).
  { split; [vm_compute; reflexivity| |vm_compute; reflexivity..|vm_compute; exact I].
    split; [vm_compute; reflexivity..|]. intros _. vm_compute. reflexivity. }
  destruct (due_step_taken 200000 "rel2" (w_db w4) [] (release_of w4 "rel2") following H) as (w' & r' & H1 & H2 & _).
  exists w', r'. exact (conj H1 H2).
Defined.

(** A policy that halts at a crash rate of 2%, and a release of the build
    under it that crashes for half of its users. *)
Definition guarded : ReleasePolicy :=
  {| steps := default_release_steps; interval_hours := f64_of_Z 24;
     rp_crash_rate_threshold := Some (f64_div (f64_of_Z 2) (f64_of_Z 100)); approval := NoGate |}.

Definition to_guarded : CreateReleaseRequest :=
  {| cr_build_id := "b-ok"; cr_artifact_id := None; cr_store := ReleaseStore.GooglePlay; cr_track := "beta";
     cr_package_name := Some "com.acme"%string; cr_version_name := None; cr_version_code := Some 7;
     cr_state := None; cr_rollout_fraction := None; cr_policy := Some guarded; cr_reason := None |}.

(** A store that has the crash rate and refuses every halt. *)
Definition refusing : ReleaseStoreClient := {|
  observe := fun _ => mret None;
  apply_change := fun _ c => match c with StoreHalt => throw "try again later"%string | _ => mret tt end;
  crash_rate := fun _ => mret (Some (f64_div (f64_of_Z 1) (f64_of_Z 2)));
  promote := fun _ _ => throw (PromoteFailed "");
|}.

(** One tick finds the breach and fails to halt the release. *)
Definition w_breached : world :=
  fst (run_rollout_tick (client := refusing) 90000 10
    (fst (create_release_handler admin to_guarded "rel" 1000 w0))).

Definition after_breach : f64 :=
  default f_1 (next_step guarded (rl_rollout_fraction (release_of w_breached "rel"))).

Lemma breached_release_raised_witness :
  rel_health (row_to_release (w_db w_breached) "rel" (release_of w_breached "rel")) = Breached /\
  exists w' res, tick_release 90060 (row_to_release (w_db w_breached) "rel" (release_of w_breached "rel"))
      (World (w_db w_breached) [] []) = (w', res) /\
    StoreApplied "rel" (step_call after_breach) ∈ w_published w'.
Proof.
  refine (breached_release_raised 90060 "rel" (w_db w_breached) [] (release_of w_breached "rel") after_breach
    (f64_div (f64_of_Z 2) (f64_of_Z 100)) (f64_div (f64_of_Z 1) (f64_of_Z 2)) _ _ _ _ _ _ _ _ _ _ _);
    [vm_compute; reflexivity| |vm_compute; reflexivity..].
  split; [vm_compute; reflexivity..|]. intros _. vm_compute. reflexivity.
Defined.

(** The same environment without its approval rule. *)
Definition open_production : CreateProjectEnvironmentRequest :=
  {| ce_key := "production"; ce_name := "Production"; ce_store := ReleaseStore.GooglePlay;
     ce_track := "production"; ce_approval_required := false; ce_rollout_policy := None;
     ce_submit_for_review := false; ce_approvers := None |}.

Definition w2_open : world := fst (create_project_environment admin "p1" open_production "env" 1100 w1).

Lemma promotions_gated_witness :
  authorized (w_db w2_open) admin "p1" ManageReleases /\
  exists p, environment_promotions (w_db w3) !! "prom"%string = Some p /\ pm_state p = PromotionState.Pending.
Proof.
  split.
  - refine (proj1 (proj1 (promotions_gated admin "p1") to_production "prom" "rel2" 1200 w2_open _ _ (run_fst _ _) _))%string.
    intros H. apply (f_equal length) in H. vm_compute in H. discriminate H.
  - destruct (proj2 (promotions_gated admin "p1") "prom" None true "rel2" 1300 w3 w4 _ (run_fst _ _))%string
      as (_ & _ & p & e & r & _ & [H1 H2 _ _ _ _]).
    + intros H. apply (f_equal length) in H. vm_compute in H. discriminate H.
    + exists p. exact (conj H1 H2).
Defined.

(** A policy that never moves on: its interval is as long as a float says. *)
Definition never : ReleasePolicy :=
  {| steps := default_release_steps; interval_hours := f64_of_Z (10 ^ 18); rp_crash_rate_threshold := None;
     approval := NoGate |}.

Definition frozen : release :=
  new_release_row {| nr_project_id := "p1"; nr_build_id := "b-ok"; nr_artifact_id := None; nr_store := ReleaseStore.GooglePlay;
    nr_track := "beta"; nr_package_name := None; nr_version_name := None; nr_version_code := Some 7;
    nr_state := ReleaseState.Rolling; nr_rollout_fraction := f_0; nr_policy := never;
    nr_environment_id := None; nr_promoted_from_release_id := None |} System None 1000.

Lemma next_step_time_witness : exists at_, next_step_at frozen 1000 = Some at_ /\ at_ < 1000.
Proof.
  destruct (next_step_time frozen 1000) as (at_ & H & _ & Hw);
    [vm_compute; reflexivity|unfold i64_max; lia|vm_compute; reflexivity|].
  exists at_. split; [exact H|]. apply Hw. vm_compute. reflexivity.
Defined.

End ReleaseSample.
