(* ===== verification/AppStoreSafety.v ===== *)
(** * What the App Store component guarantees

    The router as a store client; a step of the monitor, fresh or stale; giving
    up; the upload that is recorded once; and what is asked of App Store
    Connect when a build is handed out or promoted. *)

From stdpp Require Import relations.
From S2P Require Import Prelude Contract RustStr Labels F64 Rollout Stores Db Access Builds Runners Creation Publishing Releases Environments AppStore Rollouts Promotions AppStoreRuns ReleaseSafety.

Local Open Scope Z_scope.

(** ** Changes Apple made, without faults *)

Section Follow.
Context {outside : AppStoreOutside} {client : ReleaseStoreClient} {laws : ReleaseStoreLaws}.

(** A change read from the store reaches no client: it is accepted and
    recorded, or it changes nothing. *)
Lemma follow_accepted id ch actor reason now d p r :
  releases d !! id = Some r -> is_nan (rl_rollout_fraction r) = false -> ch_from_store ch = true ->
  accepts ch r = true ->
  exists d' e rel, transition_release id ch actor reason now (World d [] p)
      = (World d' [] (p ++ [ReleaseChanged e]), Ok rel) /\
    releases d' = <[id := changed_row ch now r]> (releases d) /\ app_store_links d' = app_store_links d.
Proof.
  intros Hr Hnan Hs Ha. unfold transition_release. unfold accepts in Ha.
  rewrite !andb_true_iff in Ha. destruct Ha as [[[[H1 H2] H3] H4] H5].
  rewrite (clean_bind _ _ _ _ _ (clean_load id d p r Hr)). cbn [rel_row row_to_release].
  rewrite !clean_guard by done. rewrite Hs. unfold mbind at 1, M_bind at 1. cbn [mret M_ret].
  destruct (clean_record id r ch actor (clean_reason reason) now d p Hr (f64_eq_refl _ Hnan)) as (d' & Hrec & Hd' & Hl).
  rewrite (clean_bind _ _ _ _ _ Hrec).
  assert (Hr' : releases d' !! id = Some (changed_row ch now r)) by by rewrite Hd', lookup_insert_eq.
  rewrite (clean_bind _ _ _ _ _ (clean_load id d' p _ Hr')).
  unfold mbind, M_bind, audit, write_audit_log, catch. rewrite clean_sql. cbn.
  eexists _, _, _. split; [reflexivity|]. done.
Qed.

(** A change decided on a state the release has left is a conflict. *)
Lemma follow_stale id ch actor reason now d p r :
  releases d !! id = Some r -> as_expected (ch_expect ch) r = false ->
  transition_release id ch actor reason now (World d [] p) = (World d [] p, Err reload).
Proof.
  intros Hr Hx. unfold transition_release.
  rewrite (clean_bind _ _ _ _ _ (clean_load id d p r Hr)). cbn [rel_row row_to_release].
  unfold mbind, M_bind. by rewrite Hx.
Qed.

(** A hop the release takes. *)
Lemma apple_accepted to fraction expect r :
  ReleaseState.can_transition_to (rl_state r) to = true -> valid_fraction (rl_rollout_fraction r) = true ->
  (forall f, fraction = Some f -> valid_fraction f = true) ->
  (rl_state r = ReleaseState.Rolling -> to = ReleaseState.Rolling ->
   exists f, fraction = Some f /\ f64_le f (rl_rollout_fraction r) = false) ->
  expect = None \/ expect = Some (rl_state r, rl_rollout_fraction r) ->
  accepts (apple_made to fraction expect) r = true.
Proof.
  intros Ht Hv Hf Hup Hx. unfold accepts. cbn [apple_made ch_expect ch_to_state ch_from_store negb andb].
  assert (Hfin : is_finite (rl_rollout_fraction r) = true).
  { unfold valid_fraction in Hv. rewrite !andb_true_iff in Hv. by destruct Hv as [[? _] _]. }
  assert (He : as_expected expect r = true).
  { destruct Hx as [->| ->]; [done|]. cbn. by rewrite f64_sub_self, bool_decide_true by done. }
  assert (Htf : valid_fraction (target_fraction (apple_made to fraction expect) r) = true).
  { unfold target_fraction. cbn. destruct to, fraction; cbn; try by auto. all: by vm_compute. }
  rewrite He, Ht, Htf. cbn. rewrite andb_true_r, negb_true_iff.
  destruct (bool_decide (rl_state r = ReleaseState.Rolling)) eqn:E1; [|done].
  destruct (bool_decide (to = ReleaseState.Rolling)) eqn:E2; [|done].
  apply bool_decide_eq_true in E1, E2. destruct (Hup E1 E2) as (f & -> & Hlt).
  unfold target_fraction. cbn. by rewrite E2.
Qed.

Lemma hop_taken link target tf reason now to rest expect d p r :
  let fraction := hop_fraction target tf to in
  let ch := apple_made to fraction expect in
  releases d !! lr_release_id link = Some r -> valid_fraction (rl_rollout_fraction r) = true ->
  step_down link to fraction = false -> accepts ch r = true ->
  exists d' e, hop link target tf reason now (to :: rest) expect (World d [] p)
      = hop link target tf reason now rest None (World d' [] (p ++ [ReleaseChanged e])) /\
    releases d' = <[lr_release_id link := changed_row ch now r]> (releases d) /\
    app_store_links d' = app_store_links d.
Proof.
  intros fraction ch Hr Hv Hd Ha. cbn [hop]. fold fraction. rewrite Hd. unfold catch. fold ch.
  destruct (follow_accepted (lr_release_id link) ch System (Some reason) now d p r Hr
    (valid_fraction_nan _ Hv) eq_refl Ha) as (d' & e & rel & -> & H1 & H2). by exists d', e.
Qed.

(** Where a release that is followed ends when Apple has it at [target]: there,
    except that it is not taken back into review, and that one withdrawn before
    it reached any user has failed. *)
Definition arrival (from target : ReleaseState.t) : ReleaseState.t :=
  match target with
  | ReleaseState.Uploading | ReleaseState.Processing | ReleaseState.InReview =>
      if live from then from else if ReleaseState.can_transition_to from target then target else from
  | ReleaseState.Halted => if live from then target else ReleaseState.Failed
  | _ => target
  end.

Definition followed (s : ReleaseState.t) : Prop :=
  s <> ReleaseState.Complete /\ s <> ReleaseState.Failed /\ s <> ReleaseState.Halted.

(** At which fraction: the one Apple reports, unless the release has it already
    or would be taken back. *)
Record arrives (from : ReleaseState.t) (at_ : f64) (target : ReleaseState.t) (tf : option f64) (r' : release) : Prop := {
  av_arrival : rl_state r' = arrival from target;
  av_full : target = ReleaseState.Complete -> from <> ReleaseState.Complete -> rl_rollout_fraction r' = f_1;
  av_reported : forall f, tf = Some f -> target = ReleaseState.Rolling \/ target = ReleaseState.Paused ->
    rl_rollout_fraction r' = f \/
    rl_rollout_fraction r' = at_ /\
      (state_matches from at_ target tf = true \/ from = ReleaseState.Rolling /\ f64_le f at_ = true);
}.

(** The paths of [transition_path]. *)
Lemma path_cases from target :
  followed from ->
  match transition_path from target with
  | [] => arrival from target = from /\ live target = false /\ target <> ReleaseState.Complete
  | [to] => ReleaseState.can_transition_to from to = true /\ arrival from target = to /\
      (to = target \/ to = ReleaseState.Failed)
  | [to; target'] => to = ReleaseState.Rolling /\ target' = target /\ from <> ReleaseState.Rolling /\
      ReleaseState.can_transition_to from to = true /\ arrival from target = target /\
      ReleaseState.can_transition_to ReleaseState.Rolling target = true /\
      (target = ReleaseState.Complete \/ target = ReleaseState.Paused)
  | _ => False
  end.
Proof.
  intros (H1 & H2 & H3). destruct from, target; try done; vm_compute; split_and!; try done; auto.
Qed.

(** The release [r] as the poll read it. *)
Record fresh (d : db) (link : LinkRow) (r : release) : Prop := {
  fh_row : releases d !! lr_release_id link = Some r;
  fh_state : lr_release_state link = rl_state r;
  fh_fraction : lr_rollout_fraction link = rl_rollout_fraction r;
  fh_valid : valid_fraction (rl_rollout_fraction r) = true;
  fh_followed : followed (rl_state r);
}.

Lemma hop_fraction_valid target tf to :
  (forall f, tf = Some f -> valid_fraction f = true) ->
  forall f, hop_fraction target tf to = Some f -> valid_fraction f = true.
Proof.
  intros Hf f. unfold hop_fraction. destruct (_ && _), tf; intros [= <-]; try by auto.
Qed.

Lemma step_down_false link r to fraction :
  lr_release_state link = rl_state r -> lr_rollout_fraction link = rl_rollout_fraction r ->
  (rl_state r = ReleaseState.Rolling -> to = ReleaseState.Rolling -> fraction <> None) ->
  step_down link to fraction = false ->
  rl_state r = ReleaseState.Rolling -> to = ReleaseState.Rolling ->
  exists f, fraction = Some f /\ f64_le f (rl_rollout_fraction r) = false.
Proof.
  intros Hs Hf Hn Hd E1 E2. unfold step_down in Hd. rewrite Hs, Hf, E1, E2 in Hd.
  rewrite !bool_decide_true in Hd by done. cbn in Hd. destruct fraction as [f|]; [eauto|]. by destruct (Hn E1 E2).
Qed.

Lemma hop_single link target tf reason now to d p r :
  fresh d link r -> (forall f, tf = Some f -> valid_fraction f = true) ->
  state_matches (rl_state r) (rl_rollout_fraction r) target tf = false ->
  ReleaseState.can_transition_to (rl_state r) to = true -> arrival (rl_state r) target = to ->
  to = target \/ to = ReleaseState.Failed ->
  exists d' p' r', hop link target tf reason now [to] (Some (rl_state r, rl_rollout_fraction r)) (World d [] p)
      = (World d' [] p', Ok false) /\
    releases d' = <[lr_release_id link := r']> (releases d) /\ app_store_links d' = app_store_links d /\
    arrives (rl_state r) (rl_rollout_fraction r) target tf r'.
Proof.
  intros [Hr Hs Hf Hv Hfo] Htf Hm Ht Ha Hto. destruct (step_down link to (hop_fraction target tf to)) eqn:Hd.
  - cbn [hop]. rewrite Hd. exists d, p, r. split_and!; [done|by rewrite insert_id|done|].
    unfold step_down in Hd. rewrite Hs, Hf, !andb_true_iff, !bool_decide_eq_true in Hd. destruct Hd as [[E1 ->] Hd].
    assert (target = ReleaseState.Rolling) as -> by (destruct Hto as [<-|[=]]; done).
    change (hop_fraction ReleaseState.Rolling tf ReleaseState.Rolling) with tf in Hd.
    split; [by rewrite E1|done|]. intros f -> _. right. split; [done|]. by right.
  - assert (Hn : rl_state r = ReleaseState.Rolling -> to = ReleaseState.Rolling -> hop_fraction target tf to <> None).
    { intros E1 ->. destruct Hto as [<-|[=]]. change (tf <> None). intros ->. revert Hm. unfold state_matches.
      rewrite E1. by vm_compute. }
    pose proof (apple_accepted to (hop_fraction target tf to) (Some (rl_state r, rl_rollout_fraction r)) r Ht Hv
      (hop_fraction_valid _ _ _ Htf) (step_down_false _ _ _ _ Hs Hf Hn Hd) (or_intror eq_refl)) as Hacc.
    destruct (hop_taken link target tf reason now to [] _ d p r Hr Hv Hd Hacc) as (d' & e & -> & H1 & H2).
    eexists d', _, _. split_and!; [done|exact H1|done|]. split; [done| |].
    + intros -> _. destruct to; try done; by destruct Hto.
    + intros f -> Hrp. left. destruct Hto as [->|Hto].
      * by destruct Hrp as [->| ->].
      * exfalso. subst to. destruct Hrp as [->| ->]; by destruct (rl_state r).
Qed.

Lemma hop_double link target tf reason now d p r :
  fresh d link r -> (forall f, tf = Some f -> valid_fraction f = true) ->
  rl_state r <> ReleaseState.Rolling ->
  ReleaseState.can_transition_to (rl_state r) ReleaseState.Rolling = true ->
  arrival (rl_state r) target = target -> ReleaseState.can_transition_to ReleaseState.Rolling target = true ->
  target = ReleaseState.Complete \/ target = ReleaseState.Paused ->
  exists d' p' r', hop link target tf reason now [ReleaseState.Rolling; target]
      (Some (rl_state r, rl_rollout_fraction r)) (World d [] p) = (World d' [] p', Ok false) /\
    releases d' = <[lr_release_id link := r']> (releases d) /\ app_store_links d' = app_store_links d /\
    arrives (rl_state r) (rl_rollout_fraction r) target tf r'.
Proof.
  intros [Hr Hs Hf Hv Hfo] Htf Hnr Ht Ha Ht2 Hcp.
  assert (Hnd : forall to fraction, step_down link to fraction = false).
  { intros. unfold step_down. by rewrite Hs, bool_decide_false. }
  pose proof (apple_accepted ReleaseState.Rolling (hop_fraction target tf ReleaseState.Rolling)
    (Some (rl_state r, rl_rollout_fraction r)) r Ht Hv (hop_fraction_valid _ _ _ Htf) ltac:(done) (or_intror eq_refl)) as Hacc.
  destruct (hop_taken link target tf reason now ReleaseState.Rolling [target] _ d p r Hr Hv (Hnd _ _) Hacc)
    as (d1 & e1 & -> & R1 & L1). set (r1 := changed_row _ now r) in R1.
  assert (Hr1 : releases d1 !! lr_release_id link = Some r1) by by rewrite R1, lookup_insert_eq.
  assert (Hs1 : rl_state r1 = ReleaseState.Rolling) by done.
  assert (Hf1 : rl_rollout_fraction r1 = default f_1 tf) by by destruct Hcp as [->| ->], tf.
  assert (Hv1 : valid_fraction (rl_rollout_fraction r1) = true)
    by (rewrite Hf1; destruct tf; [by apply Htf|by vm_compute]).
  assert (Hacc2 : accepts (apple_made target (hop_fraction target tf target) None) r1 = true).
  { apply apple_accepted; [by rewrite Hs1|done|by apply hop_fraction_valid| |by left].
    intros _ E. destruct Hcp; congruence. }
  destruct (hop_taken link target tf reason now target [] None d1 (p ++ [ReleaseChanged e1]) r1 Hr1 Hv1 (Hnd _ _) Hacc2)
    as (d2 & e2 & -> & R2 & L2).
  eexists d2, _, _. split_and!; [done|rewrite R2, R1; apply insert_insert_eq|congruence|].
  split; [done|by intros -> _|]. intros f -> [->| ->]; [by destruct Hcp|]. by left.
Qed.

Lemma hop_arrives link target tf reason now d p r :
  fresh d link r -> (forall f, tf = Some f -> valid_fraction f = true) ->
  state_matches (rl_state r) (rl_rollout_fraction r) target tf = false ->
  exists d' p' r', hop link target tf reason now (transition_path (rl_state r) target)
      (Some (rl_state r, rl_rollout_fraction r)) (World d [] p) = (World d' [] p', Ok false) /\
    releases d' = <[lr_release_id link := r']> (releases d) /\ app_store_links d' = app_store_links d /\
    arrives (rl_state r) (rl_rollout_fraction r) target tf r'.
Proof.
  intros Hfr Htf Hm. pose proof (path_cases (rl_state r) target (fh_followed _ _ _ Hfr)) as Hp.
  destruct (transition_path (rl_state r) target) as [|to [|to2 [|]]]; [| |..|done].
  - destruct Hp as (Ha & Hl & Hc). destruct Hfr. exists d, p, r. split_and!; [done|by rewrite insert_id|done|].
    split; [done|by intros ->|]. intros f _ [->| ->]; done.
  - destruct Hp as (Ht & Ha & Hto). by apply hop_single.
  - destruct Hp as (-> & -> & ? & ? & ? & ? & ?). by apply hop_double.
Qed.

Lemma clean_update_link id f d p l :
  app_store_links d !! id = Some l ->
  exists d', map_errM FromSql (sql (update_link id f)) (World d [] p) = (World d' [] p, Ok tt) /\
    app_store_links d' = <[id := f l]> (app_store_links d) /\ releases d' = releases d.
Proof.
  intros Hl. unfold map_errM, update_link, sql. cbn. rewrite Hl. cbn. eauto.
Qed.

(** functional.  A poll of a release that is as the poll read it records
    what Apple reports, in one go: the release arrives at Apple's state (through
    rolling when the table asks for it), at the fraction Apple reports, never
    back to a lower one while it rolls; a version withdrawn before any user had
    it has failed.  The link moves to the stage of the step and its errors are
    forgotten.  Nothing else changes. *)
Theorem monitor_follows_apple link step now d p r l target tf reason :
  fresh d link r -> app_store_links d !! lr_release_id link = Some l ->
  sp_transition step = Some (target, tf, reason) -> (forall f, tf = Some f -> valid_fraction f = true) ->
  exists d' p' r', apply_step link step now (World d [] p) = (World d' [] p', Ok tt) /\
    releases d' = <[lr_release_id link := r']> (releases d) /\
    arrives (rl_state r) (rl_rollout_fraction r) target tf r' /\
    app_store_links d' = <[lr_release_id link :=
      stepped_link (sp_stage step) step (now + sp_next_poll_in step) now l]> (app_store_links d).
Proof.
  intros Hfr Hl Hst Htf. unfold apply_step. rewrite Hst, (fh_state _ _ _ Hfr), (fh_fraction _ _ _ Hfr).
  destruct (state_matches (rl_state r) (rl_rollout_fraction r) target tf) eqn:Hm.
  - destruct (clean_update_link (lr_release_id link) (stepped_link (sp_stage step) step
      (now + sp_next_poll_in step) now) d p l Hl) as (d' & H & HL & HR).
    exists d', p, r. split_and!; [exact H|by rewrite HR, insert_id by apply Hfr| |done].
    unfold state_matches in Hm. apply andb_true_iff in Hm as Hm'. destruct Hm' as [E%bool_decide_eq_true _]. subst target.
    destruct (fh_followed _ _ _ Hfr) as (? & ? & ?). split; [by destruct (rl_state r)|done|]. intros f -> _. auto.
  - destruct (hop_arrives link target tf reason now d p r Hfr Htf Hm) as (d1 & p1 & r' & H1 & R1 & L1 & Ha).
    rewrite (clean_bind _ _ _ _ _ H1). rewrite <- L1 in Hl.
    destruct (clean_update_link (lr_release_id link) (stepped_link (sp_stage step) step
      (now + sp_next_poll_in step) now) d1 p1 l Hl) as (d' & H & HL & HR).
    exists d', p1, r'. split_and!; [exact H|congruence|done|by rewrite HL, L1].
Qed.

(** The poll has a change to record. *)
Definition to_record (link : LinkRow) (step : Step) : bool :=
  match sp_transition step with
  | Some (target, tf, _) =>
      negb (state_matches (lr_release_state link) (lr_rollout_fraction link) target tf)
      && match transition_path (lr_release_state link) target with
         | [] => false
         | to :: _ => negb (step_down link to (hop_fraction target tf to))
         end
  | None => false
  end.

(** error.  A poll of a release that changed since it was read records
    nothing of it: the release is left alone, no event is sent, and when the
    poll had a change to record the link keeps its stage and is polled again at
    once. *)
Theorem stale_poll_records_nothing link step now d p r l :
  releases d !! lr_release_id link = Some r -> app_store_links d !! lr_release_id link = Some l ->
  followed (lr_release_state link) ->
  as_expected (Some (lr_release_state link, lr_rollout_fraction link)) r = false ->
  exists d', apply_step link step now (World d [] p) = (World d' [] p, Ok tt) /\
    releases d' = releases d /\
    app_store_links d' = <[lr_release_id link :=
      if to_record link step then stepped_link None step now now l
      else stepped_link (sp_stage step) step (now + sp_next_poll_in step) now l]> (app_store_links d).
Proof.
  intros Hr Hl Hfo Hx. unfold apply_step.
  assert (Hhop : exists stale : bool, match sp_transition step with
      | Some (target, tf, reason) =>
          if state_matches (lr_release_state link) (lr_rollout_fraction link) target tf then mret false
          else hop link target tf reason now (transition_path (lr_release_state link) target)
                 (Some (lr_release_state link, lr_rollout_fraction link))
      | None => mret false
      end (World d [] p) = (World d [] p, Ok stale) /\ stale = to_record link step).
  { unfold to_record. destruct (sp_transition step) as [[[target tf] reason]|]; [|by eexists].
    destruct (state_matches _ _ _ _); [by eexists|]. pose proof (path_cases _ target Hfo) as Hp.
    destruct (transition_path _ target) as [|to rest]; [by eexists|]. cbn [hop].
    destruct (step_down link to _) eqn:Hd.
    - destruct rest; [by eexists|]. exfalso. unfold step_down in Hd. rewrite !andb_true_iff, bool_decide_eq_true in Hd.
      destruct rest; naive_solver.
    - unfold catch. rewrite (follow_stale _ (apple_made _ _ _) _ _ _ _ _ _ Hr Hx). by eexists. }
  destruct Hhop as (stale & H1 & ->). rewrite (clean_bind _ _ _ _ _ H1).
  set (f := stepped_link _ _ _ _). destruct (clean_update_link (lr_release_id link) f d p l Hl) as (d' & H & HL & HR).
  exists d'. split_and!; [done|done|]. rewrite HL. unfold f. destruct (to_record link step); [by rewrite Z.add_0_r|done].
Qed.

(** ** Giving up *)

(** A link the monitor looks at: of a release it follows, not done, and due. *)
Lemma due_link_ok now d link :
  link ∈ due_links now d ->
  exists l, app_store_links d !! lr_release_id link = Some l /\ al_stage l <> Stage.Done /\ lr_link link = l /\
    al_next_poll_at l <= now /\ exists r, releases d !! lr_release_id link = Some r /\ followed (rl_state r) /\
      lr_release_state link = rl_state r /\ lr_rollout_fraction link = rl_rollout_fraction r.
Proof.
  intros Hin%elem_of_take. destruct Hin as (i & Hin & _). apply list_elem_of_lookup_2 in Hin.
  apply elem_of_order_by, list_elem_of_omap in Hin as ([id l] & Hm%elem_of_map_to_list & Hd). unfold due in Hd. cbn in Hd.
  destruct (releases d !! id) as [r|] eqn:Hr; [|done]. cbn in Hd.
  destruct (_ && _) eqn:Hc; [|done]. injection Hd as <-. cbn.
  rewrite !andb_true_iff, !negb_true_iff, !orb_false_iff, !bool_decide_eq_false, Z.leb_le in Hc.
  destruct Hc as [[? [[? ?] ?]] ?]. exists l. split_and!; try done. exists r. by split_and!.
Qed.

Lemma path_to_failed s :
  transition_path s ReleaseState.Failed = if ReleaseState.is_terminal s then [] else [ReleaseState.Failed].
Proof. by destruct s. Qed.

(** Without faults, a release that is not over fails, with its reason. *)
Lemma failing_hops id reason now d p r :
  releases d !! id = Some r -> valid_fraction (rl_rollout_fraction r) = true ->
  exists d' p' r', for_each (fun to_state _ =>
        _ ← map_errM FromRelease (transition_release id (apple_made to_state None None) System (Some reason) now);
        mret tt) (transition_path (rl_state r) ReleaseState.Failed) tt (World d [] p) = (World d' [] p', Ok tt) /\
    releases d' = <[id := r']> (releases d) /\ app_store_links d' = app_store_links d /\
    (if ReleaseState.is_terminal (rl_state r) then r' = r else rl_state r' = ReleaseState.Failed).
Proof.
  intros Hr Hv. rewrite path_to_failed. destruct (ReleaseState.is_terminal (rl_state r)) eqn:Ht.
  - exists d, p, r. by rewrite insert_id.
  - assert (Hc : ReleaseState.can_transition_to (rl_state r) ReleaseState.Failed = true) by by destruct (rl_state r).
    pose proof (apple_accepted ReleaseState.Failed None None r Hc Hv ltac:(done) ltac:(done) (or_introl eq_refl)) as Ha.
    destruct (follow_accepted id (apple_made ReleaseState.Failed None None) System (Some reason) now d p r Hr
      (valid_fraction_nan _ Hv) eq_refl Ha)
      as (d' & e & rel & H & R & L).
    exists d', (p ++ [ReleaseChanged e]), (changed_row (apple_made ReleaseState.Failed None None) now r).
    cbn [for_each]. unfold map_errM, mbind, M_bind. rewrite H. by split_and!.
Qed.

(** liveness.  A poll that fails is tried again five minutes later, with
    nothing of the release changed, until polls have failed for a day; then the
    release has failed, its link is done and no poll looks at it any more. *)
Theorem monitor_gives_up id message now d p r l :
  releases d !! id = Some r -> valid_fraction (rl_rollout_fraction r) = true ->
  app_store_links d !! id = Some l ->
  exists d' p' l', record_poll_error id message now (World d [] p) = (World d' [] p', Ok tt) /\
    app_store_links d' = <[id := l']> (app_store_links d) /\
    if now - default now (al_failing_since l) <? GIVE_UP_AFTER_SECS then
      p' = p /\ releases d' = releases d /\ al_stage l' = al_stage l /\
      al_next_poll_at l' = now + POLL_ERROR_SECS /\ is_Some (al_failing_since l')
    else
      (exists r', releases d' = <[id := r']> (releases d) /\
         if ReleaseState.is_terminal (rl_state r) then r' = r else rl_state r' = ReleaseState.Failed) /\
      al_stage l' = Stage.Done /\
      forall at_ link, link ∈ due_links at_ d' -> lr_release_id link <> id.
Proof.
  intros Hr Hv Hl. unfold record_poll_error, catch, try_record_poll_error.
  set (l1 := failing_link message now l).
  set (d1 := set_app_store_links (<[id := l1]> (app_store_links d)) d).
  assert (H1 : map_errM FromSql (sql (note_failure id message now)) (World d [] p)
    = (World d1 [] p, Ok (al_failing_since l1))) by (unfold map_errM, note_failure, sql; cbn; by rewrite Hl).
  rewrite (clean_bind _ _ _ _ _ H1).
  assert (Hs : al_failing_since l1 = Some (default now (al_failing_since l))) by (cbn; by destruct (al_failing_since l)).
  rewrite Hs. destruct (_ <? GIVE_UP_AFTER_SECS).
  - exists d1, p, l1. by split_and!.
  - rewrite (clean_bind _ _ _ _ _ (ltac:(unfold map_errM; by rewrite (clean_load id d1 p r Hr)) :
      map_errM FromRelease (load_release id) (World d1 [] p) = (World d1 [] p, Ok (row_to_release d1 id r)))).
    cbn [rel_row row_to_release].
    destruct (failing_hops id (take_chars 500 ("App Store Connect kept failing for 24 hours; last error: " +:+ message))
      now d1 p r Hr Hv) as (d2 & p2 & r' & H2 & R2 & L2 & Hf).
    rewrite (clean_bind _ _ _ _ _ H2).
    assert (Hl2 : app_store_links d2 !! id = Some l1) by (rewrite L2; cbn; apply lookup_insert_eq).
    destruct (clean_update_link id (done_link now) d2 p2 l1 Hl2) as (d' & -> & L3 & R3).
    assert (L' : app_store_links d' = <[id := done_link now l1]> (app_store_links d))
      by (rewrite L3, L2; cbn; apply insert_insert_eq).
    exists d', p2, (done_link now l1). split_and!; [done|done|exists r'; split; [rewrite R3; exact R2|done]|done|].
    intros at_ link Hin Hid. apply due_link_ok in Hin as (l2 & Hl' & Hdue & _). subst id.
    rewrite L', lookup_insert_eq in Hl'. by injection Hl' as <-.
Qed.

End Follow.

(** ** The upload is recorded once *)

(** Decompose an operation into statements that keep a part. *)
Ltac keeps_tac :=
  repeat lazymatch goal with
  | |- keeps _ (_ ≫= _) => apply keeps_bind
  | |- keeps _ (map_errM _ _) => apply keeps_map_err
  | |- keeps _ (sql _) => apply keeps_sql; intros ?; cbn; repeat case_match; done
  | |- forall _, _ => intros
  | |- keeps _ (let _ := _ in _) => cbv zeta
  | |- keeps _ (match _ with _ => _ end) => case_match
  | |- keeps _ (emit _) => by intros ? ? ? [= <- _]
  | |- keeps _ _ => solve [auto 2 with keeps]
  end.

Lemma keeps_insert_links input actor reason id now :
  keeps app_store_links (insert_release input actor reason id now).
Proof.
  unfold insert_release, insert_history, load_release, update_release. keeps_tac.
Qed.

(** A release of the build that was not promoted from another is recorded. *)
Definition recorded_for (build_id : string) (store : ReleaseStore.t) (d : db) : Prop :=
  exists id r, releases d !! id = Some r /\ rl_build_id r = build_id /\ rl_store r = store /\
    rl_promoted_from_release_id r = None.

Lemma find_build_release_none build_id store w w' :
  find_build_release build_id store w = (w', Ok None) ->
  w_db w' = w_db w /\ ~ recorded_for build_id store (w_db w).
Proof.
  intros [H _]%sql_ok. injection H as <- H. split; [done|]. intros (id & r & Hr & Hb & Hs & Hp).
  set (l := List.filter _ _) in H.
  assert (Hin : (id, r) ∈ order_by (fun kv : string * release => rm_created_at (rl_meta kv.2)) l).
  { apply elem_of_order_by, list_elem_of_In, filter_In. split; [by apply list_elem_of_In, elem_of_map_to_list|].
    cbn. by rewrite Hb, Hs, Hp, String.eqb_refl, !bool_decide_true by done. }
  destruct (order_by _ l); [by apply elem_of_nil in Hin|done].
Qed.

(** The transaction of [record_upload] and [record_play_release]. *)
Lemma record_once_run build_id store input reason id now
    (rest : Release * option string -> ME anyhow (tx_end (option (Release * option string)))) w w' res :
  (forall c w1 w2 x, rest c w1 = (w2, Ok x) -> x = Commit (Some c)) ->
  transaction_with FromSql
    (existing ← map_errM FromSql (find_build_release build_id store);
     match existing with
     | Some _ => mret (Discard None)
     | None => created ← map_errM FromRelease (insert_release input System reason id now); rest created
     end) w = (w', res) ->
  match res with
  | Ok (Some created) => ~ recorded_for build_id store (w_db w) /\ exists w1 w2 w3 x,
      w_db w1 = w_db w /\ insert_release input System reason id now w1 = (w2, Ok created) /\
      rest created w2 = (w3, Ok x) /\ w_db w' = w_db w3
  | _ => w_db w' = w_db w
  end.
Proof.
  intros Hrest H. destruct res as [a|e]; [|by apply transaction_with_err in H].
  apply transaction_with_ok in H as (w0 & w1 & D0 & _ & _ & H).
  assert (Hbody : forall x, (existing ← map_errM FromSql (find_build_release build_id store);
     match existing with
     | Some _ => mret (Discard None)
     | None => created ← map_errM FromRelease (insert_release input System reason id now); rest created
     end) w0 = (w1, Ok x) ->
     x = Discard None \/ exists c w2 w3 y, x = Commit (Some c) /\ ~ recorded_for build_id store (w_db w0) /\
       w_db w2 = w_db w0 /\ insert_release input System reason id now w2 = (w3, Ok c) /\ rest c w3 = (w1, Ok y)).
  { intros x (w2 & existing & H2%map_err_ok & Hx)%M_bind_ok.
    destruct existing; [left; by injection Hx|]. apply find_build_release_none in H2 as [D2 Hn].
    apply M_bind_ok in Hx as (w3 & c & H3%map_err_ok & Hx). right.
    exists c, w2, w3, x. split_and!; [by eapply Hrest|done..]. }
  destruct H as [[H D]|[[H|H] D]]; apply Hbody in H as [Hx|(c & w2 & w3 & y & Hx & Hn & D2 & H3 & H4)];
    try done; injection Hx as ->; [|done].
  rewrite D0 in *. split; [done|]. exists w2, w3, w1, y. by split_and!.
Qed.

Lemma keeps_finish {X E} (f : db -> X) created actor now :
  (forall l d, f (set_audit_logs l d) = f d) -> keeps f (finish_create created actor now : ME E Release).
Proof.
  intros Hf. unfold finish_create, audit, publish. destruct created. keeps_tac.
Qed.

(** What one recorded upload adds: a release of the build, and the link the
    monitor follows it by. *)
Definition recorded_as (store : ReleaseStore.t) (build_id id : string) (now : Z) (d d' : db) : Prop :=
  ~ recorded_for build_id store d /\ releases d !! id = None /\
  exists r, releases d' = <[id := r]> (releases d) /\ rl_build_id r = build_id /\ rl_store r = store /\
    rl_promoted_from_release_id r = None /\
    match store with
    | ReleaseStore.AppStore => rl_state r = ReleaseState.Processing /\
        exists l, app_store_links d' = <[id := l]> (app_store_links d) /\ al_stage l = Stage.AwaitingBuild /\
          al_next_poll_at l = now
    | _ => app_store_links d' = app_store_links d
    end.

Definition tables (d : db) := (releases d, app_store_links d).

Lemma recorded_as_tables store build_id id now d1 d2 d1' d2' :
  tables d1 = tables d1' -> tables d2 = tables d2' ->
  recorded_as store build_id id now d1 d2 -> recorded_as store build_id id now d1' d2'.
Proof.
  intros [= R1 L1] [= R2 L2]. unfold recorded_as, recorded_for. rewrite R1, L1, R2, L2. done.
Qed.

Lemma insert_link_ok id l w w' u :
  insert_release_link id l w = (w', Ok u) ->
  app_store_links (w_db w') = <[id := l]> (app_store_links (w_db w)) /\ releases (w_db w') = releases (w_db w).
Proof.
  intros (w1 & fresh & [H _]%sql_ok & [Hf ->]%guard_ok)%M_bind_ok. subst fresh.
  destruct (app_store_links (w_db w) !! id); [done|]. by injection H as <-.
Qed.

(** What is left of a run after its reads. *)
Definition finishes (store : ReleaseStore.t) (build_id id : string) (now : Z) (m : ME anyhow (option string)) : Prop :=
  forall w w' res, m w = (w', res) ->
    match res with
    | Ok (Some id') => id' = id /\ recorded_as store build_id id now (w_db w) (w_db w')
    | _ => tables (w_db w') = tables (w_db w)
    end.

Lemma finishes_read {A} store build_id id now (m : ME anyhow A) k :
  keeps tables m -> (forall a, finishes store build_id id now (k a)) -> finishes store build_id id now (m ≫= k).
Proof.
  intros Hm Hk w w' res H. apply bind_split in H as [(w1 & e & H1%Hm & -> & ->)|(w1 & a & H1%Hm & H)]; [done|].
  apply Hk in H. destruct res as [[id'|]|e]; [|congruence..]. destruct H as [-> H]. split; [done|].
  by eapply recorded_as_tables; [..|exact H].
Qed.

Lemma finish_recorded created now w w' (res : result anyhow (option string)) :
  (release ← finish_create created System now; mret (Some (rel_id release))) w = (w', res) ->
  res = Ok (Some (rel_id created.1)) /\ tables (w_db w') = tables (w_db w).
Proof.
  intros H. split.
  - destruct created as [rel rs]. unfold finish_create, mbind, M_bind, audit, write_audit_log, catch in H.
    destruct (sql _ w) as [w1 x]. cbn in H.
    destruct (_ || _), (rel_awaiting_approval rel); cbn in H; by injection H as _ <-.
  - apply bind_split in H as [(w1 & e & H & -> & _)|(w1 & a & H & [= <- _])];
      by eapply (keeps_finish tables) in H.
Qed.

(** The two recordings from their transaction on. *)
Lemma upload_finishes build_id config pipeline_id project_id ipa id now :
  finishes ReleaseStore.AppStore build_id id now
    (created ← transaction_with FromSql
      (existing ← map_errM FromSql (find_build_release build_id ReleaseStore.AppStore);
       match existing with
       | Some _ => mret (Discard None)
       | None =>
           created ← map_errM FromRelease (insert_release (uploaded_release project_id build_id config ipa)
             System (Some "Uploaded to App Store Connect; waiting for Apple to process the build"%string) id now);
           _ ← map_errM FromSql (insert_release_link (rel_id created.1) (upload_link pipeline_id ipa config now));
           mret (Commit (Some created))
       end);
     match created with
     | Some created => release ← finish_create created System now; mret (Some (rel_id release))
     | None => mret None
     end).
Proof.
  intros w w' res H. apply bind_split in H as [(w1 & e & H & -> & ->)|(w1 & created & H & Hf)];
    apply record_once_run in H; try by intros c w2 w3 x (w4 & [] & _ & [= _ <-])%M_bind_ok.
  - unfold tables. congruence.
  - destruct created as [[rel rs]|]; [|injection Hf as <- <-; unfold tables; congruence].
    apply finish_recorded in Hf as [-> T]. cbn [fst] in *.
    destruct H as (Hn & w2 & w3 & w4 & x & D2 & H3 & H4 & D4).
    pose proof (keeps_insert_links _ _ _ _ _ _ _ _ H3) as L3.
    apply insert_release_ok in H3 as (_ & Hno & env & _ & V3 & Hid & _). rewrite Hid in *.
    apply M_bind_ok in H4 as (w5 & [] & [L5 R5]%map_err_ok%insert_link_ok & [= -> _]).
    split; [done|]. refine (recorded_as_tables _ _ _ _ (w_db w2) (w_db w4) _ _ _ _ _);
      [unfold tables; congruence|rewrite T; unfold tables; congruence|].
    split_and!; [by rewrite D2|done|]. views. eexists. split_and!; [rewrite R5; eassumption|done..|].
    eexists. split_and!; [by rewrite L5, L3|done..].
Qed.

Lemma play_finishes project_id policy result build_id id now :
  finishes ReleaseStore.GooglePlay build_id id now
    (created ← transaction_with FromSql
      (existing ← map_errM FromSql (find_build_release build_id ReleaseStore.GooglePlay);
       match existing with
       | Some _ => mret (Discard None)
       | None =>
           created ← map_errM FromRelease (insert_release (play_release project_id build_id policy result)
             System (Some "uploaded by the runner"%string) id now);
           mret (Commit (Some created))
       end);
     match created with
     | Some created => release ← finish_create created System now; mret (Some (rel_id release))
     | None => mret None
     end).
Proof.
  intros w w' res H. apply bind_split in H as [(w1 & e & H & -> & ->)|(w1 & created & H & Hf)];
    apply (record_once_run _ _ _ _ _ _ (fun c => mret (Commit (Some c)))) in H; try by intros c w2 w3 x [= _ <-].
  - unfold tables. congruence.
  - destruct created as [[rel rs]|]; [|injection Hf as <- <-; unfold tables; congruence].
    apply finish_recorded in Hf as [-> T]. cbn [fst] in *.
    destruct H as (Hn & w2 & w3 & w4 & x & D2 & H3 & [= -> _] & D4).
    pose proof (keeps_insert_links _ _ _ _ _ _ _ _ H3) as L3.
    apply insert_release_ok in H3 as (_ & Hno & env & _ & V3 & Hid & _). rewrite Hid in *.
    split; [done|]. refine (recorded_as_tables _ _ _ _ (w_db w2) (w_db w4) _ _ _ _ _);
      [unfold tables; congruence|rewrite T; unfold tables; congruence|].
    split_and!; [by rewrite D2|done|]. views. eexists. by split_and!.
Qed.

Section Recording.
Context {outside : AppStoreOutside}.

Definition reported_store (result : RunnerPublishResult) : ReleaseStore.t :=
  match pr_store result with
  | PublishStore.GooglePlay => ReleaseStore.GooglePlay
  | PublishStore.AppStore => ReleaseStore.AppStore
  end.

Lemma record_finishes job_id pipeline_id result id now :
  finishes (reported_store result) job_id id now
    (match pr_store result with
     | PublishStore.GooglePlay => record_play_release job_id pipeline_id result id now
     | PublishStore.AppStore => record_upload job_id result id now
     end).
Proof.
  unfold reported_store. destruct (pr_store result).
  - unfold record_play_release, load_google_play.
    do 3 (apply finishes_read; [keeps_tac|intros]). apply play_finishes.
  - unfold record_upload, load_uploaded_ipa, load_config, find_uploaded_ipa.
    do 5 (apply finishes_read; [keeps_tac|intros]). apply upload_finishes.
Qed.

(** safety.  A report of a finished upload is recorded once: it adds
    nothing, or, for a runner that holds the build and has its signing grant,
    exactly one release of the build in its store, with the link by which the
    monitor follows it, in one transaction; and only when no release of the
    build is recorded there yet, so a report repeated adds nothing. *)
Theorem upload_recorded_once hash auth runner_id job_id header result id now w w' res :
  report_job_publish_result hash auth runner_id job_id header result id now w = (w', res) ->
  tables (w_db w') = tables (w_db w) \/
  res = Ok tt /\ recorded_as (reported_store result) job_id id now (w_db w) (w_db w') /\
  recorded_for job_id (reported_store result) (w_db w') /\
  exists b t, builds (w_db w) !! job_id = Some b /\ held_by runner_id b = true /\
    header = Some t /\ b_signing_token_hash b = Some (hash t).
Proof.
  unfold report_job_publish_result. intros H.
  apply bind_split in H as [(w1 & e & H & -> & ->)|(w1 & u & [_ ->]%guard_ok & H)].
  { left. destruct (String.eqb _ _); by injection H as <-. }
  assert (Hk : keeps (fun d => d) (require_active_job_signing_grant hash job_id runner_id header))
    by (unfold require_active_job_signing_grant, query, exec; keeps_tac).
  apply bind_split in H as [(w2 & e & H%Hk & -> & ->)|(w2 & pid & H2 & H)]; [left; by rewrite H|].
  pose proof (Hk _ _ _ H2) as D2. cbn in D2. apply grant_ok in H2 as (b & t & Hb & Hheld & Ht & _ & Hh & _).
  rewrite <- D2 in *. clear D2. unfold catch in H. pose proof (record_finishes job_id pid result id now) as Hrec.
  match type of Hrec with finishes _ _ _ _ ?m => destruct (m w2) as [w3 r3] eqn:E3 end.
  apply Hrec in E3. destruct r3 as [[id'|]|e].
  - destruct E3 as [-> E3]. right.
    assert (T : res = Ok tt /\ tables (w_db w') = tables (w_db w3)).
    { apply audit_run in H as (-> & [l ->] & _). done. }
    destruct T as [-> T]. split; [done|].
    assert (E : recorded_as (reported_store result) job_id id now (w_db w2) (w_db w'))
      by by eapply recorded_as_tables; [..|exact E3].
    split_and!; [done| |by exists b, t]. destruct E as (_ & _ & r & R & Hr). exists id, r.
    rewrite R, lookup_insert_eq. naive_solver.
  - left. by injection H as <- _.
  - left. apply bind_split in H as [(w4 & e' & H & -> & _)|(w4 & u4 & H & [= <- _])];
      apply audit_run in H as (_ & [l Hl] & _); rewrite Hl; exact E3.
Qed.

End Recording.

(** ** What is asked of App Store Connect *)

(** From the database [d], which stays as it is, [m] asks Apple only for calls
    that [P] allows. *)
Definition asks {E A} (d : db) (P : AscCall -> Prop) (m : ME E A) : Prop :=
  forall w w' r, w_db w = d -> m w = (w', r) ->
    w_db w' = d /\ exists l, w_published w' = w_published w ++ map AppleAsked l /\ Forall P l.

Section Asks.
Context {E F A B : Type} (d : db) (P : AscCall -> Prop).

Lemma asks_nothing (m : ME E A) : (forall w, exists r, m w = (w, r)) -> asks d P m.
Proof.
  intros Hm w w' r Hd H. destruct (Hm w) as [r' Hw]. rewrite Hw in H. injection H as <- _. split; [done|].
  exists []. by rewrite app_nil_r.
Qed.

Lemma asks_bind (m : ME E A) (k : A -> ME E B) :
  asks d P m -> (forall a w w1, w_db w = d -> m w = (w1, Ok a) -> asks d P (k a)) -> asks d P (m ≫= k).
Proof.
  intros Hm Hk w w' r Hd. unfold mbind, M_bind. destruct (m w) as [w1 [a|e]] eqn:E1;
    destruct (Hm _ _ _ Hd E1) as (D1 & l1 & P1 & H1).
  - intros H. destruct (Hk _ _ _ Hd E1 _ _ _ D1 H) as (D2 & l2 & P2 & H2). split; [done|].
    exists (l1 ++ l2). rewrite map_app, app_assoc, <- P1. split; [done|]. by apply Forall_app.
  - intros [= <- _]. eauto.
Qed.

Lemma asks_catch (m : ME E A) (k : result E A -> ME F B) :
  asks d P m -> (forall r, asks d P (k r)) -> asks d P (catch m k).
Proof.
  intros Hm Hk w w' r Hd. unfold catch. destruct (m w) as [w1 x] eqn:E1.
  destruct (Hm _ _ _ Hd E1) as (D1 & l1 & P1 & H1). intros H.
  destruct (Hk _ _ _ _ D1 H) as (D2 & l2 & P2 & H2). split; [done|].
  exists (l1 ++ l2). rewrite map_app, app_assoc, <- P1. split; [done|]. by apply Forall_app.
Qed.

Lemma asks_map_err (g : E -> F) (m : ME E A) : asks d P m -> asks d P (map_errM g m).
Proof.
  intros Hm w w' r Hd. unfold map_errM. destruct (m w) as [w1 x] eqn:E1. intros [= <- _]. by eapply Hm.
Qed.

Lemma asks_read (f : db -> A) : asks d P (sql (fun d => (d, f d))).
Proof.
  intros w w' [a|e] Hd H; [apply sql_ok in H as [[= <- _] Hp]|apply sql_err in H as [-> Hp]];
    (split; [done|]; exists []; by rewrite app_nil_r).
Qed.

End Asks.

Lemma asks_for_each {E A B} d P (f : A -> B -> ME E B) l :
  (forall x acc, x ∈ l -> asks d P (f x acc)) -> forall acc, asks d P (for_each f l acc).
Proof.
  induction l as [|x l IH]; intros Hf acc; cbn; [apply asks_nothing; eauto|].
  apply asks_bind; [apply Hf; set_solver|]. intros. apply IH. intros. apply Hf. set_solver.
Qed.

Lemma asks_impl {E A} d (P Q : AscCall -> Prop) (m : ME E A) : (forall c, P c -> Q c) -> asks d P m -> asks d Q m.
Proof.
  intros HPQ Hm w w' r Hd H. destruct (Hm _ _ _ Hd H) as (D & l & Hl & HP). split; [done|].
  exists l. split; [done|]. by eapply Forall_impl.
Qed.

Lemma asks_silent {E A} d (m : ME E A) w w' r :
  asks d (fun _ => False) m -> w_db w = d -> m w = (w', r) -> w_db w' = d /\ w_published w' = w_published w.
Proof.
  intros Hm Hd H. destruct (Hm _ _ _ Hd H) as (D & l & P & HF). split; [done|].
  destruct l; [by rewrite app_nil_r in P|]. by inversion HF.
Qed.

Lemma asks_peel {E A B} d (m : ME E A) (k : A -> ME E B) w w' r :
  (m ≫= k) w = (w', r) -> asks d (fun _ => False) m -> w_db w = d ->
  (w_db w' = d /\ w_published w' = w_published w) \/
  exists w1 a, w_db w1 = d /\ w_published w1 = w_published w /\ k a w1 = (w', r).
Proof.
  intros H Hm Hd. apply bind_split in H as [(w1 & e & H & -> & _)|(w1 & a & H & Hk)];
    destruct (asks_silent _ _ _ _ _ Hm Hd H); [by left|right]. by exists w1, a.
Qed.

Lemma asks_option {E A} d P (e : E) (o : option A) : asks d P (from_option e o).
Proof. apply asks_nothing. destruct o; eexists; reflexivity. Qed.

Section Asked.
Context {outside : AppStoreOutside}.

Lemma asks_ask d (P : AscCall -> Prop) creds c : P c -> asks d P (ask creds c).
Proof. intros HP w w' r Hd [= <- _]. split; [done|]. exists [c]. split; [done|]. by repeat constructor. Qed.

Lemma ask_ok creds c w w' a : ask creds c w = (w', Ok a) -> answer creds (w_published w) c = Ok a.
Proof. unfold ask. by intros [= _ <-]. Qed.

Lemma asks_notes d P creds f notes : (forall n, n ∈ notes -> P (f n)) -> asks d P (set_notes creds f notes).
Proof.
  intros HP. apply asks_for_each. intros note acc Hin. apply asks_catch; [|intros; apply asks_nothing; eauto].
  apply asks_bind; [by apply asks_ask, HP|]. intros. apply asks_nothing; eauto.
Qed.

(** The group goes by a configured name, up to the case of letters. *)
Definition named_by (names : list string) (g : AscBetaGroup) : Prop :=
  exists name, name ∈ names /\ to_ascii_lowercase (bg_name g) = to_ascii_lowercase name.

Lemma find_group_ok groups name g :
  find_group groups name = Some g ->
  g ∈ groups /\ to_ascii_lowercase (bg_name g) = to_ascii_lowercase name.
Proof.
  unfold find_group. destruct (find _ groups) as [g'|] eqn:E1.
  - intros [= <-]. apply find_some in E1 as [Hin ->%String.eqb_eq]. by rewrite list_elem_of_In.
  - intros [Hin Hn%String.eqb_eq]%find_some. by rewrite list_elem_of_In.
Qed.

(** What handing a build out to TestFlight groups may ask for. *)
Definition testflight_call (creds : AppleApiCredentials) (app_id build_id : string) (beta : AscBetaDetail)
    (config : AppStorePublishConfig) (c : AscCall) : Prop :=
  let names := as_testflight_groups config in
  match c with
  | SetBetaWhatsNew b l text => b = build_id /\
      exists note, note ∈ as_release_notes config /\ locale note = l /\ whats_new note = text
  | ListBetaGroups a => a = app_id
  | AddBuildToGroups b ids => b = build_id /\
      exists past groups, answer creds past (ListBetaGroups app_id) = Ok groups /\
        (forall name, name ∈ names -> exists g, g ∈ groups /\ to_ascii_lowercase (bg_name g) = to_ascii_lowercase name /\
           (bg_id g ∈ ids \/ bg_is_internal g = true /\ bg_has_access_to_all_builds g = true)) /\
        forall i, i ∈ ids -> exists g, g ∈ groups /\ bg_id g = i /\ named_by names g
  | SubmitForBetaReview b => b = build_id /\ beta_review_already_submitted (bd_external beta) = false /\
      exists past groups g, answer creds past (ListBetaGroups app_id) = Ok groups /\ g ∈ groups /\
        bg_is_internal g = false /\ named_by names g
  | _ => False
  end.

Lemma selected_named groups names g :
  g ∈ omap (find_group groups) names -> g ∈ groups /\ named_by names g.
Proof.
  intros (name & Hin & [Hg Hl]%find_group_ok)%list_elem_of_omap. split; [done|]. by exists name.
Qed.

Lemma testflight_asks d creds app_id build_id beta config step :
  asks d (testflight_call creds app_id build_id beta config)
    (distribute_testflight creds app_id build_id beta config step).
Proof.
  unfold distribute_testflight. apply asks_bind; [apply asks_notes; cbn; eauto|]. intros warning _ _ _ _.
  apply asks_bind; [by apply (asks_ask d _ creds (ListBetaGroups app_id))|]. intros groups w1 w2 _ Hg.
  apply (ask_ok creds (ListBetaGroups app_id)) in Hg. cbv zeta.
  destruct (List.filter _ _) as [|x missing] eqn:Em; [|apply asks_nothing; eauto].
  set (names := as_testflight_groups config) in *.
  assert (Hall : forall name, name ∈ names -> exists g, find_group groups name = Some g).
  { intros name Hin. destruct (find_group groups name) eqn:E; [eauto|]. exfalso.
    assert (Hf : In name (List.filter (fun name => bool_decide (find_group groups name = None)) names)).
    { apply filter_In. split; [by apply list_elem_of_In|]. by rewrite E. }
    by rewrite Em in Hf. }
  set (selected := omap (find_group groups) names).
  apply asks_bind.
  { refine (asks_ask d _ creds (AddBuildToGroups build_id _) _). split; [done|]. exists (w_published w1), groups.
    split_and!; [done| |].
    - intros name Hin. destruct (Hall name Hin) as [g Hf]. pose proof (find_group_ok _ _ _ Hf) as [Hgin Hl].
      exists g. split_and!; [done|done|]. destruct (bg_is_internal g && bg_has_access_to_all_builds g) eqn:Ei.
      + right. by apply andb_true_iff.
      + left. apply list_elem_of_In, in_map_iff. exists g. split; [done|]. apply filter_In. rewrite Ei. split; [|done].
        apply list_elem_of_In, list_elem_of_omap. by exists name.
    - intros i (g & <- & [Hs _]%filter_In)%list_elem_of_In%in_map_iff.
      apply list_elem_of_In, selected_named in Hs as [? ?]. by exists g. }
  intros _ _ _ _ _. destruct (existsb _ selected) eqn:Ex; [|apply asks_nothing; eauto].
  apply existsb_exists in Ex as (g & Hs%list_elem_of_In%selected_named & Hi%negb_true_iff).
  apply asks_bind; [|intros; apply asks_nothing; eauto].
  destruct (beta_review_already_submitted _) eqn:Eb; [apply asks_nothing; eauto|].
  apply asks_bind; [|intros; apply asks_nothing; eauto].
  refine (asks_ask d _ creds (SubmitForBetaReview build_id) _). split_and!; [done|done|].
  exists (w_published w1), groups, g. destruct Hs. by split_and!.
Qed.

(** No other build is attached to the version and under way there. *)
Definition version_free (version_id build_id : string) (d : db) : Prop :=
  forall id l r, app_store_links d !! id = Some l -> al_asc_version_id l = Some version_id ->
    al_stage l = Stage.Review \/ al_stage l = Stage.Live ->
    releases d !! id = Some r -> rl_state r <> ReleaseState.Failed -> rl_build_id r = build_id.

Lemma ensure_version_free_ok version_id build_id w w' :
  ensure_version_free version_id build_id w = (w', Ok tt) -> version_free version_id build_id (w_db w).
Proof.
  intros (w1 & held & H1 & H)%M_bind_ok id l r Hl Hv Hst Hr Hf. unfold asc_failed in H1.
  apply map_err_ok, map_err_ok, sql_ok in H1 as [[= _ <-] _].
  destruct (find _ _) as [kv|] eqn:Ef; [done|].
  assert (Hh : ~ holds_asc_version version_id build_id (w_db w) (id, l) = true).
  { apply not_true_iff_false, (find_none _ _ Ef). by apply list_elem_of_In, elem_of_map_to_list. }
  destruct (decide (rl_build_id r = build_id)) as [|Hb]; [done|]. destruct Hh. unfold holds_asc_version. cbn.
  rewrite Hr, Hv, (bool_decide_true (Some _ = Some _)) by done.
  rewrite (bool_decide_false _ Hf), (proj2 (String.eqb_neq _ _) Hb). by destruct Hst as [->| ->].
Qed.

(** The version a promotion may attach its build to. *)
Definition promotable_version (creds : AppleApiCredentials) (version version_id : string) : Prop :=
  exists past app_id v, answer creds past (FindVersion app_id version) = Ok (Some v) /\ av_id v = version_id /\
    version_is_editable (default "UNKNOWN"%string (av_state v)) = true.

Lemma promotion_version_ok creds app_id version w w' v :
  promotion_version creds app_id version w = (w', Ok v) -> promotable_version creds version v.
Proof.
  intros (w1 & existing & H1 & H)%M_bind_ok. apply map_err_ok in H1.
  apply (ask_ok creds (FindVersion app_id version)) in H1. destruct existing as [existing|].
  - cbv zeta in H. destruct (version_is_editable _) eqn:Ee; [|done]. injection H as _ <-. by exists (w_published w), app_id, existing.
  - by apply M_bind_ok in H as (w2 & [?|] & _ & H).
Qed.

(** What a promotion may ask for: [l] is the link of its source. *)
Definition promotion_call (creds : AppleApiCredentials) (d : db) (source : Release) (target : PromotionTarget)
    (l : app_store_link) (c : AscCall) : Prop :=
  let usable b := al_asc_build_id l = Some b /\ exists past beta,
    answer creds past (BetaDetail b) = Ok beta /\ testflight_expired beta = false in
  let version v := pt_track target = APP_STORE_TRACK /\ promotable_version creds (al_version l) v /\
    version_free v (rl_build_id (rel_row source)) d in
  match c with
  | FindAppId _ | BetaDetail _ | FindVersion _ _ | FindEditableVersion _ | ListBetaGroups _ => True
  | AttachBuildToVersion v b => version v /\ usable b
  | EnablePhasedRelease v => version v /\ pt_phased_release target = true
  | DisablePhasedRelease v => version v /\ pt_phased_release target = false
  | SubmitForReview _ v => version v /\ pt_submit_for_review target = true
  | AddBuildToGroups b _ | SubmitForBetaReview b => pt_track target <> APP_STORE_TRACK /\ usable b /\
      exists app_id beta, testflight_call creds app_id b beta (promoted_config (al_config l) target) c
  | _ => False
  end.

(** Handing out with a version and no notes. *)
Lemma app_store_asks d P creds app_id build_id link config step v :
  al_asc_version_id link = Some v -> as_release_notes config = [] ->
  P (AttachBuildToVersion v build_id) ->
  P (if as_phased_release config then EnablePhasedRelease v else DisablePhasedRelease v) ->
  (as_submit_for_review config = true -> P (SubmitForReview app_id v)) ->
  asks d P (distribute_app_store creds app_id build_id link config step).
Proof.
  intros Hv Hn Ha Hp Hs. unfold distribute_app_store. rewrite Hv, Hn. cbn [for_each set_notes].
  apply asks_bind; [apply asks_nothing; eauto|]. intros [v' step'] w w1 _ [= -> <- <-].
  apply asks_bind; [by apply (asks_ask d P creds (AttachBuildToVersion v build_id))|]. intros _ _ _ _ _.
  apply asks_bind; [apply asks_nothing; eauto|]. intros warning _ _ _ _.
  apply asks_bind.
  { destruct (as_phased_release config); (apply asks_bind; [|intros; apply asks_nothing; eauto]).
    - by apply (asks_ask d P creds (EnablePhasedRelease v)).
    - by apply (asks_ask d P creds (DisablePhasedRelease v)). }
  intros _ _ _ _ _. cbv zeta. destruct (as_submit_for_review config); [|apply asks_nothing; eauto].
  apply asks_bind; [apply (asks_ask d P creds (SubmitForReview app_id v)); auto|].
  intros. apply asks_nothing; eauto.
Qed.

Lemma promoted_as_nothing d P source app_id build_id config v step :
  asks d P (promoted_as source app_id build_id config v step).
Proof.
  apply asks_nothing. intros w. unfold promoted_as, refused.
  destruct (sp_transition step) as [[[state fraction] detail]|]; [|eexists; reflexivity].
  destruct (sp_refusal step) as [[]|]; [eexists; reflexivity|].
  destruct (bool_decide _); eexists; reflexivity.
Qed.

Lemma promotion_version_asks d (P : AscCall -> Prop) creds app_id version :
  P (FindVersion app_id version) -> P (FindEditableVersion app_id) ->
  asks d P (promotion_version creds app_id version).
Proof.
  intros H1 H2. unfold promotion_version, refused.
  apply asks_bind; [apply asks_map_err; by apply (asks_ask d P creds (FindVersion app_id version))|].
  intros [existing|] _ _ _ _; [cbv zeta; destruct (version_is_editable _); apply asks_nothing; eauto|].
  apply asks_bind; [apply asks_map_err; by apply (asks_ask d P creds (FindEditableVersion app_id))|].
  intros [editable|] _ _ _ _; apply asks_nothing; eauto.
Qed.

Lemma version_free_asks d P version_id build_id : asks d P (ensure_version_free version_id build_id).
Proof.
  unfold ensure_version_free, asc_failed, refused. apply asks_bind; [apply asks_map_err, asks_map_err, asks_read|].
  intros [l|] _ _ _ _; apply asks_nothing; eauto.
Qed.

Lemma promoted_notes uploaded target : as_release_notes (promoted_config uploaded target) = [].
Proof. unfold promoted_config. by destruct (String.eqb _ _). Qed.

(** A promotion from the link [l] of its source, once Apple has the build. *)
Lemma distribute_asks d creds source target l app_id build_id beta past :
  al_asc_build_id l = Some build_id -> answer creds past (BetaDetail build_id) = Ok beta ->
  testflight_expired beta = false ->
  asks d (promotion_call creds d source target l)
    (let config := promoted_config (al_config l) target in
     if String.eqb (pt_track target) APP_STORE_TRACK then
       version_id ← promotion_version creds app_id (al_version l);
       _ ← ensure_version_free version_id (rl_build_id (rel_row source));
       step ← asc_failed (distribute_app_store creds app_id build_id (promoting_link l (Some version_id)) config
                (step_wait 0));
       promoted_as l app_id build_id config (Some version_id) step
     else
       step ← asc_failed (distribute_testflight creds app_id build_id beta config (step_wait 0));
       promoted_as l app_id build_id config None step).
Proof.
  intros Hb Hbeta Hx. cbv zeta.
  assert (Husable : al_asc_build_id l = Some build_id /\ exists past beta,
    answer creds past (BetaDetail build_id) = Ok beta /\ testflight_expired beta = false) by eauto.
  pose proof (promoted_notes (al_config l) target) as Hnotes.
  destruct (String.eqb (pt_track target) APP_STORE_TRACK) eqn:Et.
  - assert (Hconf : as_phased_release (promoted_config (al_config l) target) = pt_phased_release target /\
      as_submit_for_review (promoted_config (al_config l) target) = pt_submit_for_review target)
      by (unfold promoted_config; by rewrite Et).
    destruct Hconf as [Hph Hsub]. apply String.eqb_eq in Et.
    apply asks_bind; [by apply promotion_version_asks|]. intros v w1 w2 _ Hv%promotion_version_ok.
    apply asks_bind; [apply version_free_asks|]. intros [] w3 w4 D3 Hfree%ensure_version_free_ok. rewrite D3 in Hfree.
    apply asks_bind; [|intros; apply promoted_as_nothing]. apply asks_map_err.
    apply (app_store_asks _ _ _ _ _ _ _ _ v); [done|done|done|..].
    + rewrite Hph. by destruct (pt_phased_release target) eqn:Ep.
    + rewrite Hsub. by intros Hs.
  - apply String.eqb_neq in Et.
    apply asks_bind; [|intros; apply promoted_as_nothing]. apply asks_map_err.
    eapply asks_impl; [|apply testflight_asks]. intros c Hc. destruct c; try done.
    + destruct Hc as (_ & note & Hin & _). rewrite Hnotes in Hin. by apply elem_of_nil in Hin.
    + pose proof Hc as [-> _]. refine (conj Et (conj Husable _)). by exists app_id, beta.
    + pose proof Hc as [-> _]. refine (conj Et (conj Husable _)). by exists app_id, beta.
Qed.

Lemma promote_with_asks d creds source target :
  (rl_track (rel_row source) = APP_STORE_TRACK \/ app_store_links d !! rel_id source = None ->
     asks d (fun _ => False) (promote_with creds source target)) /\
  forall l, app_store_links d !! rel_id source = Some l ->
     asks d (promotion_call creds d source target l) (promote_with creds source target).
Proof.
  unfold promote_with. destruct (String.eqb _ APP_STORE_TRACK) eqn:Et;
    [split; intros; apply asks_nothing; eauto|]. apply String.eqb_neq in Et. split.
  - intros [?|Hn]; [done|].
    apply asks_bind; [apply asks_map_err, asks_map_err, asks_read|]. intros found w w1 Hd H.
    apply map_err_ok, map_err_ok, sql_ok in H as [[= _ <-] _]. rewrite Hd, Hn.
    apply asks_bind; [apply asks_nothing; eauto|]. intros l w2 w3 _ [=].
  - intros l Hl.
    apply asks_bind; [apply asks_map_err, asks_map_err, asks_read|]. intros found w w1 Hd H.
    apply map_err_ok, map_err_ok, sql_ok in H as [[= _ <-] _]. rewrite Hd, Hl.
    apply asks_bind; [apply asks_nothing; eauto|]. intros l' w2 w3 _ [= -> <-].
    apply asks_bind; [apply asks_nothing; destruct (al_asc_build_id l); eexists; reflexivity|].
    intros build_id w4 w5 _ Hb%from_option_Ok.
    apply asks_bind.
    { destruct (al_asc_app_id l); [apply asks_nothing; eauto|].
      apply asks_bind; [apply asks_map_err; by apply (asks_ask d _ creds (FindAppId (al_bundle_id l)))|].
      intros [a|] _ _ _ _; apply asks_nothing; eexists; reflexivity. }
    intros app_id _ _ _ _.
    apply asks_bind; [apply asks_map_err; by apply (asks_ask d _ creds (BetaDetail build_id))|].
    intros beta w6 w7 _ H. apply map_err_ok, (ask_ok creds (BetaDetail build_id)) in H.
    apply asks_bind; [apply asks_nothing; destruct (testflight_expired beta); eexists; reflexivity|].
    intros [] w8 w9 _ [Hx%negb_true_iff _]%guard_ok. by eapply distribute_asks.
Qed.

Lemma asks_credentials d P pipeline_id a b : asks d P (credentials_for pipeline_id a b).
Proof.
  unfold credentials_for, load_signing_key_row.
  apply asks_bind; [apply asks_map_err, asks_read|]. intros row _ _ _ _.
  apply asks_bind; [apply asks_option|]. intros key _ _ _ _.
  apply asks_nothing. intros w. destruct (decrypt_credentials key) as [[|]|]; eexists; reflexivity.
Qed.

(** safety.  A promotion at the App Store writes nothing, and asks Apple
    only for this: it reads; it hands the build its source was uploaded as, if
    that has not expired, to the groups the environment's track names; or,
    into the App Store track, it attaches that build to the version of its own
    number while Apple lets it change and no other build is in review or
    releasing there, with phased release and review as the environment asks.
    It never creates or renames a version, and never touches a release that is
    on the App Store already. *)
Theorem promotion_asks_no_more source target w w' res :
  app_store_promote source target w = (w', res) ->
  w_db w' = w_db w /\ exists calls, w_published w' = w_published w ++ map AppleAsked calls /\
    (calls <> [] -> rl_track (rel_row source) <> APP_STORE_TRACK /\
       exists creds l, app_store_links (w_db w) !! rel_id source = Some l /\
         Forall (promotion_call creds (w_db w) source target l) calls).
Proof.
  intros H. unfold app_store_promote in H.
  assert (Hnone : forall w1, w_db w1 = w_db w /\ w_published w1 = w_published w ->
    w_db w1 = w_db w /\ exists calls, w_published w1 = w_published w ++ map AppleAsked calls /\
      (calls <> [] -> rl_track (rel_row source) <> APP_STORE_TRACK /\
       exists creds l, app_store_links (w_db w) !! rel_id source = Some l /\
         Forall (promotion_call creds (w_db w) source target l) calls)).
  { intros w1 [D P]. split; [done|]. exists []. by rewrite app_nil_r. }
  apply (asks_peel (w_db w)) in H as [?|(w1 & row & D1 & P1 & H)];
    [by apply Hnone| |by apply asks_map_err, asks_map_err, asks_read|done].
  apply (asks_peel (w_db w)) in H as [[? ?]|(w2 & b & D2 & P2 & H)];
    [apply Hnone; split; congruence| |apply asks_option|done].
  apply (asks_peel (w_db w)) in H as [[? ?]|(w3 & creds & D3 & P3 & H)];
    [apply Hnone; split; congruence| |apply asks_map_err, asks_credentials|done].
  destruct (promote_with_asks (w_db w) creds source target) as [Hno Hyes].
  destruct (decide (rl_track (rel_row source) = APP_STORE_TRACK)) as [Ht|Ht];
    [|destruct (app_store_links (w_db w) !! rel_id source) as [l|] eqn:El].
  - apply (asks_silent (w_db w)) in H as [D P]; [|by auto|done]. apply Hnone; split; congruence.
  - destruct (Hyes l eq_refl _ _ _ D3 H) as (D & calls & P & Hc). split; [done|].
    exists calls. rewrite P, P3, P2, P1. split; [done|]. intros _. split; [done|]. by exists creds, l.
  - apply (asks_silent (w_db w)) in H as [D P]; [|by auto|done]. apply Hnone; split; congruence.
Qed.

End Asked.

(** ** The router *)

Section Served.
Context {outside : AppStoreOutside}.

(** C7: refinement.  The router is a store client as the release code relies on
    it when the client it sends the other stores to is, whatever App Store
    Connect answers; so with the router every handler and monitor, whatever
    fails, moves releases by the steps of [Rollouts.v] only. *)
Theorem router_serves (other : ReleaseStoreClient) :
  ReleaseStoreLaws (client := other) ->
  ReleaseStoreLaws (client := store_router other) /\
  forall E A (m : ME E A) w w' res,
    rhandler (client := store_router other) m -> m w = (w', res) -> rtc rstep w w'.
Proof.
  intros Hlaws. assert (Hr : ReleaseStoreLaws (client := store_router other)) by apply _.
  split; [done|]. intros E A m w w' res Hm H. exact (rhandler_steps (client := store_router other) m Hm _ _ _ H).
Qed.

(** The state a control asks for. *)
Definition control_target (c : StoreChange) (state : string) : Prop :=
  match c with
  | StorePause => state = "PAUSED"%string
  | StoreResume _ => state = "ACTIVE"%string
  | StoreComplete => state = "COMPLETE"%string
  | StoreRollout _ | StoreHalt => False
  end.

(** What a control may ask Apple for: [l] is the link of its release. *)
Definition control_call (c : StoreChange) (l : app_store_link) (call : AscCall) : Prop :=
  (al_stage l = Stage.Live \/ al_stage l = Stage.Done) /\ exists v, al_asc_version_id l = Some v /\
  match call with
  | PhasedRelease v' => v' = v
  | SetPhasedReleaseState id state => control_target c state /\
      exists creds past ph, answer creds past (PhasedRelease v) = Ok (Some ph) /\ ph_id ph = id /\
        ph_state ph <> state /\ ph_state ph <> "COMPLETE"%string
  | _ => False
  end.

Lemma set_phased_run creds id v target c l w w' res :
  control_target c target -> al_stage l = Stage.Live \/ al_stage l = Stage.Done -> al_asc_version_id l = Some v ->
  set_phased creds id v target w = (w', res) ->
  exists calls, w_published w' = w_published w ++ map AppleAsked calls /\ Forall (control_call c l) calls.
Proof.
  intros Hc Hst Hv H. unfold set_phased in H.
  assert (Hread : control_call c l (PhasedRelease v)) by (split; [done|]; by exists v).
  apply bind_split in H as [(w1 & e & [= <- _] & -> & _)|(w1 & phased & H1 & H)];
    [exists [PhasedRelease v]; by rewrite Forall_singleton|].
  pose proof H1 as Ha. apply (ask_ok creds (PhasedRelease v)) in Ha. injection H1 as <- _.
  destruct phased as [ph|].
  2:{ exists [PhasedRelease v]. destruct (String.eqb _ _); injection H as <- _; by rewrite Forall_singleton. }
  destruct (String.eqb (ph_state ph) target || String.eqb (ph_state ph) "COMPLETE") eqn:Es.
  { exists [PhasedRelease v]. injection H as <- _. by rewrite Forall_singleton. }
  apply orb_false_iff in Es as [E1%String.eqb_neq E2%String.eqb_neq].
  assert (Hset : control_call c l (SetPhasedReleaseState (ph_id ph) target)).
  { split; [done|]. exists v. split; [done|]. split; [done|]. by exists creds, (w_published w), ph. }
  exists [PhasedRelease v; SetPhasedReleaseState (ph_id ph) target]. split; [|by rewrite Forall_cons, Forall_singleton].
  cbn [map]. rewrite (app_assoc _ [_] [_] : _ ++ [_; _] = _).
  apply bind_split in H as [(w2 & e & [= <- _] & -> & _)|(w2 & [] & [= <- _] & H)]; [done|].
  apply bind_split in H as [(w3 & e & [=] & _)|(w3 & now & [= <- _] & H)].
  unfold map_errM in H. destruct (sql _ _) as [w4 r4] eqn:E4. apply mute_sql in E4. by injection H as <- _.
Qed.

(** safety.  A release control at the App Store changes a phased release
    only for a version that is live, to the state the control stands for, and
    only when Apple just reported it in another state and not complete: asking
    twice asks Apple once.  A change of percentage asks nothing, a halt is
    refused, and no release is written. *)
Theorem phased_release_control release c w w' res :
  app_store_apply_change release c w = (w', res) ->
  client_run w w' /\
  (exists calls, w_published w' = w_published w ++ map AppleAsked calls /\
     (calls <> [] -> exists l, app_store_links (w_db w) !! rel_id release = Some l /\
        Forall (control_call c l) calls)) /\
  match c with
  | StoreRollout _ => w' = w /\ res = Ok tt
  | StoreHalt => w' = w /\ exists message, res = Err message
  | _ => True
  end.
Proof.
  intros H. split; [by eapply client_apply|]. unfold app_store_apply_change in H.
  assert (Hnone : forall w1, w_published w1 = w_published w -> exists calls,
    w_published w1 = w_published w ++ map AppleAsked calls /\
    (calls <> [] -> exists l, app_store_links (w_db w) !! rel_id release = Some l /\ Forall (control_call c l) calls)).
  { intros w1 P. exists []. by rewrite app_nil_r. }
  destruct (phased_target c) as [[target|]|message] eqn:Et;
    [|destruct c; simplify_eq/=; injection H as <- <-; (split; [by apply Hnone|by eauto])..].
  assert (Hc : control_target c target) by by destruct c; simplify_eq/=.
  split; [|by destruct c].
  apply bind_split in H as [(w0 & e & [=] & _)|(w0 & x & [= <- <-] & H)].
  apply bind_split in H as [(w1 & e & H1 & -> & _)|(w1 & link & H1 & H)].
  { apply Hnone. by apply (mute_map_err _ _ (mute_sql _)) in H1. }
  pose proof (mute_map_err _ _ (mute_sql _) _ _ _ H1) as P1. apply map_err_ok, sql_ok in H1 as [[= D1 <-] _].
  destruct (app_store_links (w_db w) !! rel_id release) as [l|] eqn:El; [|injection H as <- _; by apply Hnone].
  unfold live_version in H. destruct (al_asc_version_id l) as [v|] eqn:Ev; [|injection H as <- _; by apply Hnone].
  destruct (_ || _) eqn:Es; [|injection H as <- _; by apply Hnone].
  apply orb_true_iff in Es. rewrite !bool_decide_eq_true in Es.
  apply (asks_peel (w_db w1)) in H as [[_ P]|(w2 & creds & D2 & P2 & H)];
    [apply Hnone; congruence| |apply asks_credentials|done].
  eapply set_phased_run in H as (calls & P & Hcalls); [|exact Hc|exact Es|exact Ev].
  exists calls. split; [congruence|]. intros _. by exists l.
Qed.

(** functional.  Handing a build out to TestFlight asks Apple only for the
    notes of the settings, for the app's groups, and then, when a group of
    every configured name exists (up to the case of letters), to add the build
    to exactly those that do not get every build anyway, and to submit it for
    beta review when one of them is external and Apple has not been asked
    before. *)
Theorem testflight_hand_out creds app_id build_id beta config step w w' res :
  distribute_testflight creds app_id build_id beta config step w = (w', res) ->
  w_db w' = w_db w /\ exists calls, w_published w' = w_published w ++ map AppleAsked calls /\
    Forall (testflight_call creds app_id build_id beta config) calls.
Proof. intros H. by eapply testflight_asks. Qed.

End Served.

(** ** A small history, for the examples

    A runner uploads the archive of a build; the report records the release;
    the monitor finds the build processed and hands it to the group QA. *)
Module AppStoreSample.

(** App Store Connect with one app, one group and one version. *)
Definition asc (c : AscCall) : result string (reply c) :=
  match c return result string (reply c) with
  | FindAppId _ => Ok (Some "app"%string)
  | FindBuild _ _ _ => Ok (Some {| ab_id := "asc-build"; ab_processing := Valid; ab_uses_non_exempt_encryption := None |})
  | BetaDetail _ => Ok {| bd_internal := Some "IN_BETA_TESTING"%string; bd_external := None |}
  | ListBetaGroups _ => Ok [{| bg_id := "g1"; bg_name := "qa"; bg_is_internal := false; bg_has_access_to_all_builds := false |}]
  | FindOrCreateVersion _ _ => Ok "v1"%string
  | FindVersion _ _ => Ok (Some {| av_id := "v1"; av_version_string := Some "1.2"%string;
                                   av_state := Some "PREPARE_FOR_SUBMISSION"%string |})
  | FindEditableVersion _ => Ok None
  | VersionState _ => Ok "READY_FOR_SALE"%string
  | PhasedRelease _ => Ok (Some {| ph_id := "ph"; ph_state := "ACTIVE"; ph_current_day_number := Some 3 |})
  | _ => Ok tt
  end.

#[local] Instance apple : AppStoreOutside := {|
  answer := fun _ _ c => asc c;
  decrypt := fun key => Ok key;
  describe_sql := fun _ => "database error"%string;
  describe_release := fun _ => "release error"%string;
  time_at := fun _ => 400;
|}.

Definition router : ReleaseStoreClient := store_router ReleaseSample.store.

Definition archive : artifact :=
  Artifact "ipa-1" "b-run" "App.ipa" "ipa" "App.ipa" (Some 10)
    (Json.Object [("ios_signing"%string, Json.Object [("effective_export_method"%string, Json.Str "app-store")]);
                  ("ios_app"%string, Json.Object [("bundle_identifier"%string, Json.Str "com.acme");
                    ("version"%string, Json.Str "1.2"); ("build_number"%string, Json.Str "7")])]) 150 None true.

Definition publish_settings : AppStorePublishConfig :=
  {| as_enabled := true; as_destination := AppStoreDestination.Testflight; as_testflight_groups := ["QA"%string];
     as_release_notes := [{| locale := "en-US"; whats_new := "Fixes" |}]; as_uses_non_exempt_encryption := false;
     as_submit_for_review := false; as_phased_release := false |}.

Definition w0 : world :=
  World (set_artifacts [archive]
    (set_app_store_targets {["pl1"%string := publish_settings]}
      (set_ios_signing {["pl1"%string := SigningSettings true "app-store" (Some "K"%string) (Some "I"%string)
                          (Some "pem"%string) None]} Sample.database))) [] [].

Definition uploaded : RunnerPublishResult :=
  {| pr_store := PublishStore.AppStore; pr_track := "QA"; pr_package_name := "com.acme"; pr_version_code := 7;
     pr_version_name := Some "1.2"%string; pr_rollout_fraction := None; pr_status := "uploaded";
     pr_testflight_groups := None |}.

Definition w1 : world :=
  fst (report_job_publish_result (fun t => "hash-" +:+ t) {| ra_runner_id := "rn1"; ra_runner_name := "mac" |}
    "rn1" "b-run" (Some "1"%string) uploaded "rel" 200 w0).
Definition w2 : world := fst (poll_releases (client := router) 300 w1).

Definition link_of (w : world) : app_store_link :=
  default (upload_link "" {| ui_artifact_id := ""; ui_bundle_id := ""; ui_version := ""; ui_build_number := "" |}
             publish_settings 0) (app_store_links (w_db w) !! "rel"%string).

Definition row_of (w : world) : release := ReleaseSample.release_of w "rel".

(** The link as a poll of [w] reads it. *)
Definition read_link (w : world) : LinkRow :=
  {| lr_release_id := "rel"; lr_link := link_of w; lr_release_state := rl_state (row_of w);
     lr_rollout_fraction := rl_rollout_fraction (row_of w) |}.

Example poll_hands_out :
  (rl_state (row_of w2), al_stage (link_of w2), al_asc_build_id (link_of w2), al_next_poll_at (link_of w2))
  = (ReleaseState.InReview, Stage.BetaReview, Some "asc-build"%string, 600).
Proof. vm_compute. reflexivity. Qed.

Lemma upload_recorded_once_witness : recorded_for "b-run" ReleaseStore.AppStore (w_db w1).
Proof.
  destruct (upload_recorded_once (fun t => "hash-" +:+ t) {| ra_runner_id := "rn1"; ra_runner_name := "mac" |}
    "rn1" "b-run" (Some "1"%string) uploaded "rel" 200 w0 w1 _ (ReleaseSample.run_fst _ _))
    as [H|(_ & _ & H & _)]; [|exact H].
  apply (f_equal (fun t => bool_decide (is_Some (fst t !! "rel"%string)))) in H. vm_compute in H. discriminate H.
Defined.

(** Apple has the phased release at its third day. *)
Definition rolling : Step :=
  with_transition ReleaseState.Rolling (Some (phased_release_fraction (Some 3))) "Phased release in progress"
    (with_stage Stage.Live (step_wait 900)).

Lemma monitor_follows_apple_witness : exists d' p' r',
  apply_step (client := router) (read_link w2) rolling 700 (World (w_db w2) [] []) = (World d' [] p', Ok tt) /\
  rl_state r' = ReleaseState.Rolling.
Proof.
  destruct (monitor_follows_apple (client := router)
    (read_link w2) rolling 700 (w_db w2) [] (row_of w2) (link_of w2) ReleaseState.Rolling
    (Some (phased_release_fraction (Some 3))) "Phased release in progress") as (d' & p' & r' & H1 & _ & H2 & _).
  - split; [vm_compute; reflexivity..|]. repeat split; vm_compute; discriminate.
  - vm_compute. reflexivity.
  - reflexivity.
  - intros f [= <-]. vm_compute. reflexivity.
  - exists d', p', r'. split; [exact H1|exact (av_arrival _ _ _ _ _ H2)].
Defined.

(** A poll that read the release before it was handed out. *)
Lemma stale_poll_records_nothing_witness : exists d',
  apply_step (client := router) (read_link w1) rolling 700 (World (w_db w2) [] []) = (World d' [] [], Ok tt) /\
  releases d' = releases (w_db w2).
Proof.
  destruct (stale_poll_records_nothing (client := router)
    (read_link w1) rolling 700 (w_db w2) [] (row_of w2) (link_of w2)) as (d' & H1 & H2 & _).
  - vm_compute. reflexivity.
  - vm_compute. reflexivity.
  - repeat split; vm_compute; discriminate.
  - vm_compute. reflexivity.
  - exists d'. exact (conj H1 H2).
Defined.

(** The first poll fails, and so does one a day later. *)
Definition w_down : world := fst (record_poll_error (client := router) "rel" "down" 300 w1).

Lemma monitor_gives_up_witness : exists d' p' l',
  record_poll_error (client := router) "rel" "still down" (300 + 86400) (World (w_db w_down) [] [])
    = (World d' [] p', Ok tt) /\ al_stage l' = Stage.Done.
Proof.
  destruct (monitor_gives_up (client := router)
    "rel" "still down" (300 + 86400) (w_db w_down) [] (row_of w_down) (link_of w_down))
    as (d' & p' & l' & H1 & _ & H2); [vm_compute; reflexivity..|].
  exists d', p', l'. split; [exact H1|]. revert H2.
  change (300 + 86400 - default (300 + 86400) (al_failing_since (link_of w_down)) <? GIVE_UP_AFTER_SECS) with false.
  intros (_ & H2 & _). exact H2.
Defined.

Definition source : Release := row_to_release (w_db w2) "rel" (row_of w2).

Definition to_app_store : PromotionTarget :=
  {| pt_track := "app_store"; pt_fraction := None; pt_phased_release := true; pt_submit_for_review := false |}.

Lemma promotion_asks_no_more_witness :
  exists calls, w_published (fst (app_store_promote source to_app_store w2)) = w_published w2 ++ map AppleAsked calls.
Proof.
  destruct (promotion_asks_no_more source to_app_store w2 _ _ (ReleaseSample.run_fst _ _)) as (_ & calls & H & _).
  exists calls. exact H.
Defined.

Lemma router_serves_witness : rtc rstep w1 w2.
Proof.
  exact (proj2 (router_serves ReleaseSample.store ReleaseSample.store_laws) _ _ _ _ _ _
    (rh_poll (client := router) 300) (ReleaseSample.run_fst _ _)).
Defined.

(** The version is live. *)
Definition w_live : world :=
  World (set_app_store_links (<["rel"%string := AppStoreLink "pl1" "com.acme" "1.2" "7" publish_settings Stage.Live
    (Some "app"%string) (Some "asc-build"%string) (Some "v1"%string) None None None 900 200 200]>
    (app_store_links (w_db w2))) (w_db w2)) [] [].

Lemma phased_release_control_witness :
  w_published (fst (app_store_apply_change source StorePause w_live))
    = [AppleAsked (PhasedRelease "v1"); AppleAsked (SetPhasedReleaseState "ph" "PAUSED")] /\
  client_run w_live (fst (app_store_apply_change source StorePause w_live)).
Proof.
  split; [vm_compute; reflexivity|].
  exact (proj1 (phased_release_control source StorePause w_live _ _ (ReleaseSample.run_fst _ _))).
Defined.

Definition creds : AppleApiCredentials :=
  {| ac_key_id := "K"; ac_issuer_id := "I"; ac_private_key_pem := "pem" |}.

Lemma testflight_hand_out_witness : exists calls,
  w_published (fst (distribute_testflight creds "app" "asc-build" {| bd_internal := None; bd_external := None |}
    publish_settings (step_wait 0) w1)) = w_published w1 ++ map AppleAsked calls /\
  Forall (testflight_call creds "app" "asc-build" {| bd_internal := None; bd_external := None |} publish_settings) calls.
Proof.
  exact (proj2 (testflight_hand_out creds "app" "asc-build" {| bd_internal := None; bd_external := None |}
    publish_settings (step_wait 0) w1 _ _ (ReleaseSample.run_fst _ _))).
Defined.

End AppStoreSample.
