(* ===== verification/Wp.v ===== *)
(** * Weakest preconditions of handlers

    [wp m d Q]: run on the database [d], whatever statements fail, [m] ends in a
    result and a database that satisfy [Q].  One rule per construct of the
    handler monad and the tactic [wp_tac], which walks a handler to the points
    where it ends. *)

From S2P Require Import Prelude Contract Db Access Runners.

Local Open Scope Z_scope.

Definition wp {E A} (m : ME E A) (d : db) (Q : result E A -> db -> Prop) : Prop :=
  forall w w' r, w_db w = d -> m w = (w', r) -> Q r (w_db w').

Section Rules.

Context {E F A B : Type}.

Lemma wp_run (m : ME E A) w w' r Q : wp m (w_db w) Q -> m w = (w', r) -> Q r (w_db w').
Proof. intros H Hm. by eapply H. Qed.

Lemma wp_mono (m : ME E A) d (Q R : result E A -> db -> Prop) :
  wp m d Q -> (forall r d', Q r d' -> R r d') -> wp m d R.
Proof. intros H HQR w w' r Hd Hm. by eapply HQR, H. Qed.

Lemma wp_ret (a : A) d (Q : result E A -> db -> Prop) : Q (Ok a) d -> wp (mret a) d Q.
Proof. intros H w w' r <- [= <- <-]. done. Qed.

Lemma wp_throw (e : E) d (Q : result E A -> db -> Prop) : Q (Err e) d -> wp (throw e) d Q.
Proof. intros H w w' r <- [= <- <-]. done. Qed.

Lemma wp_bind (m : ME E A) (k : A -> ME E B) d Q :
  wp m d (fun r d' => match r with Ok a => wp (k a) d' Q | Err e => Q (Err e) d' end) ->
  wp (m ≫= k) d Q.
Proof.
  intros H w w' r Hd Hm. unfold mbind, M_bind in Hm.
  destruct (m w) as [w1 [a|e]] eqn:E1; specialize (H _ _ _ Hd E1); cbn in H.
  - by eapply H.
  - by simplify_eq.
Qed.

Lemma wp_catch (m : ME E A) (k : result E A -> ME F B) d Q :
  wp m d (fun r d' => wp (k r) d' Q) -> wp (catch m k) d Q.
Proof.
  intros H w w' r Hd Hm. unfold catch in Hm. destruct (m w) as [w1 x] eqn:E1.
  by eapply (H _ _ _ Hd E1).
Qed.

Lemma wp_map_err (f : E -> F) (m : ME E A) d Q :
  wp m d (fun r d' => Q (map_err f r) d') -> wp (map_errM f m) d Q.
Proof.
  intros H w w' r Hd Hm. unfold map_errM in Hm. destruct (m w) as [w1 x] eqn:E1.
  injection Hm as <- <-. by eapply H.
Qed.

Lemma wp_guard c (e : E) d (Q : result E unit -> db -> Prop) :
  (c = true -> Q (Ok tt) d) -> (c = false -> Q (Err e) d) -> wp (guard c e) d Q.
Proof. intros H1 H2. destruct c; intros w w' r <- [= <- <-]; auto. Qed.

Lemma wp_from_option (e : E) (o : option A) d Q :
  (forall a, o = Some a -> Q (Ok a) d) -> (o = None -> Q (Err e) d) -> wp (from_option e o) d Q.
Proof. intros H1 H2. destruct o; intros w w' r <- [= <- <-]; auto. Qed.

Lemma wp_sql (f : db -> db * A) d Q :
  (forall e, Q (Err e) d) -> Q (Ok (f d).2) (f d).1 -> wp (sql f) d Q.
Proof.
  intros H1 H2 w w' r <-. unfold sql.
  destruct (w_faults w) as [|[e|] fs], (f (w_db w)) as [d' a]; intros [= <- <-]; cbn in *; auto.
Qed.

Lemma wp_transaction_with (on_err : sqlx_error -> E) (body : ME E (tx_end A)) d Q :
  (forall e, Q (Err (on_err e)) d) ->
  wp body d (fun r d' => match r with
    | Err e => Q (Err e) d
    | Ok (Commit a) => Q (Ok a) d'
    | Ok (Rollback a) | Ok (Discard a) => Q (Ok a) d
    end) ->
  wp (transaction_with on_err body) d Q.
Proof.
  intros H1 H2 w w' r <-. unfold transaction_with, mbind, M_bind, map_errM.
  destruct (sql (fun d => (d, tt)) w) as [w0 [[]|e]] eqn:E0; cbn.
  2: { intros [= <- <-]. cbn. apply H1. }
  apply sql_ok in E0 as [Hd _]. injection Hd as Hd.
  destruct (body w0) as [w1 [t|e]] eqn:E1; specialize (H2 _ _ _ (eq_sym Hd) E1); cbn in H2.
  2: { by intros [= <- <-]. }
  destruct t as [a|a|a]; destruct (sql (fun d => (d, tt)) w1) as [w2 [[]|e]] eqn:E2; cbn;
    intros [= <- <-]; cbn; auto.
  apply sql_ok in E2 as [Hd2 _]. injection Hd2 as <-. done.
Qed.

Lemma wp_emit (e : effect) d (Q : result E unit -> db -> Prop) : Q (Ok tt) d -> wp (emit e) d Q.
Proof. intros H w w' r <- [= <- <-]. done. Qed.

End Rules.

Lemma wp_exec {A} msg (f : db -> db * A) d (Q : result api_error A -> db -> Prop) :
  Q (Err (store_error msg)) d -> Q (Ok (f d).2) (f d).1 -> wp (exec msg f) d Q.
Proof. intros H1 H2. apply wp_map_err, wp_sql; auto. Qed.

Lemma wp_query {A} msg (f : db -> A) d (Q : result api_error A -> db -> Prop) :
  Q (Err (store_error msg)) d -> Q (Ok (f d)) d -> wp (query msg f) d Q.
Proof. intros H1 H2. by apply wp_exec. Qed.

Lemma wp_execute msg (f : db -> db) d (Q : result api_error unit -> db -> Prop) :
  Q (Err (store_error msg)) d -> Q (Ok tt) (f d) -> wp (run msg f) d Q.
Proof. intros H1 H2. by apply wp_exec. Qed.

Lemma wp_transaction {A} msg (body : M (tx_end A)) d Q :
  Q (Err (store_error msg)) d ->
  wp body d (fun r d' => match r with
    | Err e => Q (Err e) d
    | Ok (Commit a) => Q (Ok a) d'
    | Ok (Rollback a) | Ok (Discard a) => Q (Ok a) d
    end) ->
  wp (transaction msg body) d Q.
Proof. intros H1 H2. by apply wp_transaction_with. Qed.

(** An audit entry never fails a handler and writes the log alone. *)
Lemma wp_audit {E} actor action kind id d (Q : result E unit -> db -> Prop) :
  (forall l, Q (Ok tt) (set_audit_logs l d)) -> wp (write_audit_log actor action kind id) d Q.
Proof.
  intros H w w' r <- Hm. apply audit_run in Hm as (-> & (l & ->) & _). apply H.
Qed.

(** Reading the role of a request leaves the database alone. *)
Lemma wp_resolve_role uid irole pid src d (Q : result api_error EffectiveProjectRole -> db -> Prop) :
  (forall r, Q r d) -> wp (resolve_effective_project_role uid irole pid src) d Q.
Proof. intros H w w' r <- Hm. apply resolve_role_pure in Hm as [-> _]. apply H. Qed.

Lemma wp_require_permission eff perm d (Q : result api_error unit -> db -> Prop) :
  (forall e, Q (Err e) d) -> (check_project_permission eff perm = true -> Q (Ok tt) d) ->
  wp (require_project_permission eff perm) d Q.
Proof.
  intros H1 H2 w w' [[]|e] <- Hm; pose proof (require_permission_pure _ _ _ _ _ Hm) as ->; [|done].
  eapply H2, require_permission_ok, Hm.
Qed.

Create HintDb wp.

(** One rule, chosen by the construct the handler starts with. *)
Ltac wp_step :=
  lazymatch goal with
  | |- wp (_ ≫= _) _ _ => apply wp_bind
  | |- wp (mret _) _ _ => apply wp_ret
  | |- wp (throw _) _ _ => apply wp_throw
  | |- wp (guard _ _) _ _ => apply wp_guard; intro
  | |- wp (from_option _ _) _ _ => apply wp_from_option; [intros ? ?|intro]
  | |- wp (query _ _) _ _ => apply wp_query
  | |- wp (run _ _) _ _ => apply wp_execute
  | |- wp (exec _ _) _ _ => apply wp_exec
  | |- wp (sql _) _ _ => apply wp_sql; [intro|]
  | |- wp (map_errM _ _) _ _ => apply wp_map_err
  | |- wp (catch _ _) _ _ => apply wp_catch
  | |- wp (write_audit_log _ _ _ _) _ _ => apply wp_audit; intro
  | |- wp (transaction _ _) _ _ => apply wp_transaction
  | |- wp (transaction_with _ _) _ _ => apply wp_transaction_with; [intro|]
  | |- wp (emit _) _ _ => apply wp_emit
  | |- wp (resolve_effective_project_role _ _ _ _) _ _ => apply wp_resolve_role; intros [?|?]
  | |- wp (require_project_permission _ _) _ _ => apply wp_require_permission; intro
  | |- wp (match ?x with _ => _ end) _ _ => destruct x eqn:?
  | |- wp ((fun _ => _) _) _ _ => cbv beta
  end.

(** Walk to the ends of the handler; definitions it calls are unfolded by [wp]
    hints. *)
Ltac wp_tac :=
  repeat first [progress cbn beta iota match delta [map_err fst snd] | wp_step | progress (autounfold with wp)].
