(* ===== verification/BuildLogs.v ===== *)
(** * Build logs

    The storing and reading of log lines of [crates/oored/src/logs.rs], and the
    runner's side of it, [append_runner_log_line] of
    [crates/oore-runner/src/lib.rs].  A build's rows of [build_logs] are kept
    by [sequence].  The theorems give the log the daemon holds after any number
    of appends: the first thousand lines, a marker that counts what is missing,
    and the latest lines; and that those lines are the masked lines of the
    runner. *)

From stdpp Require Import pretty.
From S2P Require Import Prelude Contract RustStr RunnerSecrets Db Access Runners Wp.

Local Open Scope Z_scope.

Definition MAX_LOG_LINES_PER_BUILD : Z := 10000.
Definition LOG_HEAD_LINES : Z := 1000.
Definition MAX_LINE_BYTES : Z := 4096.

(** [str::is_char_boundary]. *)
Definition is_char_boundary (s : string) (index : nat) : bool :=
  match index with
  | O => true
  | _ => match bytes s !! index with
         | Some c => negb (is_continuation c)
         | None => bool_decide (index = String.length s)
         end
  end.

(** The loop of [truncate_utf8_bytes]. *)
Fixpoint boundary_before (s : string) (boundary : nat) : nat :=
  match boundary with
  | O => O
  | S n => if is_char_boundary s boundary then boundary else boundary_before s n
  end.

(** [truncate_utf8_bytes]. *)
Definition truncate_utf8_bytes (input : string) (max_bytes : Z) : string :=
  if str_len input <=? max_bytes then input
  else text (take (boundary_before input (Nat.min (Z.to_nat max_bytes) (String.length input))) (bytes input)).

(** [BuildLogChunk]. *)
Record BuildLogChunk := Chunk {
  lc_sequence : Z;
  lc_content : string;
  lc_stream : string;
}.

(** ** Statements on [build_logs] *)

(** The rows of a build, [ORDER BY sequence ASC]. *)
Definition logs_of (build_id : string) (d : db) : list log_row := default [] (build_logs d !! build_id).

Definition set_logs_of (build_id : string) (l : list log_row) (d : db) : db :=
  set_build_logs (<[build_id := l]> (build_logs d)) d.

(** A row takes its place in the index; [None]: [UNIQUE(build_id, sequence)]. *)
Fixpoint insert_row (r : log_row) (l : list log_row) : option (list log_row) :=
  match l with
  | [] => Some [r]
  | x :: rest =>
      if lg_sequence r <? lg_sequence x then Some (r :: l)
      else if lg_sequence r =? lg_sequence x then None
      else cons x <$> insert_row r rest
  end.

(** [INSERT OR IGNORE]: a row that breaks a UNIQUE or a CHECK constraint is
    skipped; the number counts the others. *)
Definition insert_or_ignore (acc : list log_row * Z) (r : log_row) : list log_row * Z :=
  if bool_decide (lg_stream r ∈ ["stdout"; "stderr"]%string)
  then match insert_row r acc.1 with
       | Some l => (l, acc.2 + 1)
       | None => acc
       end
  else acc.

Definition row_of_chunk (chunk : BuildLogChunk) : log_row :=
  LogRow (lc_sequence chunk) (truncate_utf8_bytes (lc_content chunk) MAX_LINE_BYTES) (lc_stream chunk).

(** [slice::chunks]. *)
Fixpoint chunks_of {A} (fuel n : nat) (l : list A) : list (list A) :=
  match fuel, l with
  | S fuel, _ :: _ => take n l :: chunks_of fuel n (drop n l)
  | _, _ => []
  end.

(** The statement of one batch.  [build_id] references a build: a row for a
    build that is gone fails the statement. *)
Definition insert_batch (build_id : string) (batch : list BuildLogChunk) (appended : Z) : ME sqlx_error Z :=
  inserted ← sql (fun d =>
    let '(l, n) := fold_left insert_or_ignore (map row_of_chunk batch) (logs_of build_id d, 0) in
    if bool_decide (is_Some (builds d !! build_id)) || (n =? 0)
    then (set_logs_of build_id l d, Some n) else (d, None));
  match inserted with
  | Some n => mret (appended + n)
  | None => throw OtherSqlError
  end.

(** [DELETE ... ORDER BY sequence ASC LIMIT excess OFFSET LOG_HEAD_LINES + 1]. *)
Definition delete_excess (excess : Z) (l : list log_row) : list log_row :=
  let offset := Z.to_nat (LOG_HEAD_LINES + 1) in
  take offset l ++ drop (offset + Z.to_nat excess) l.

Definition omitted_text (omitted : Z) : string :=
  "[oore] " +:+ pretty omitted +:+ " log lines omitted. Logs keep the first " +:+ pretty LOG_HEAD_LINES
  +:+ " and the latest " +:+ pretty (MAX_LOG_LINES_PER_BUILD - LOG_HEAD_LINES - 1) +:+ " lines of a build.".

(** The marker's row; the [i64] subtraction wraps. *)
Definition marker_row (marker_sequence next_sequence : Z) : log_row :=
  LogRow marker_sequence (omitted_text (wrap_i64 (next_sequence - marker_sequence))) "stderr".

Definition marked (r : log_row) : list log_row -> list log_row := <[Z.to_nat LOG_HEAD_LINES := r]>.

(** [store_log_chunks]: the number of lines appended. *)
Definition store_log_chunks (build_id : string) (chunks : list BuildLogChunk) : ME sqlx_error Z :=
  transaction_with id (
    appended ← for_each (insert_batch build_id) (chunks_of (length chunks) 100 chunks) 0;
    count ← sql (fun d => (d, Z.of_nat (length (logs_of build_id d))));
    let excess := count - MAX_LOG_LINES_PER_BUILD in
    if 0 <? excess then
      _ ← sql (fun d => (set_logs_of build_id (delete_excess excess (logs_of build_id d)) d, tt));
      rows ← sql (fun d => (d, take 2 (drop (Z.to_nat LOG_HEAD_LINES) (logs_of build_id d))));
      match rows with
      | [marker; next] =>
          _ ← sql (fun d => (set_logs_of build_id
                (marked (marker_row (lg_sequence marker) (lg_sequence next)) (logs_of build_id d)) d, tt));
          mret (Commit appended)
      | _ => mret (Commit appended)
      end
    else mret (Commit appended)).

(** [MAX(sequence)]. *)
Definition max_sequence (l : list log_row) : option Z := lg_sequence <$> last l.

(** [append_build_logs]: the number of lines appended. *)
Definition append_build_logs (auth : RunnerAuth) (runner_id job_id : string) (chunks : list BuildLogChunk) : M Z :=
  _ ← guard (String.eqb (ra_runner_id auth) runner_id) runner_mismatch;
  row ← query "Failed to fetch build" (fun d => builds d !! job_id);
  row ← from_option build_not_found row;
  _ ← guard (bool_decide (b_runner_id row = Some runner_id)) not_your_build;
  match chunks with
  | [] => mret 0
  | _ =>
      appended ← map_errM (fun _ => store_error "Failed to insert log chunk") (store_log_chunks job_id chunks);
      _ ← (if 0 <? appended
           then catch (sql (fun d => (d, max_sequence (logs_of job_id d)))) (fun r =>
                  match r with
                  | Ok (Some latest_sequence) => emit (LogsAppended job_id latest_sequence)
                  | Ok None | Err _ => mret tt
                  end)
           else mret tt);
      mret appended
  end.

Definition chunk_of_row (r : log_row) : BuildLogChunk := Chunk (lg_sequence r) (lg_content r) (lg_stream r).

(** [WHERE sequence > ?2 ORDER BY sequence ASC LIMIT ?3]: SQLite takes a
    negative limit for none. *)
Definition log_page (after_sequence limit : Z) (l : list log_row) : list BuildLogChunk :=
  let rows := filter (fun r => after_sequence < lg_sequence r) l in
  map chunk_of_row (if limit <? 0 then rows else take (Z.to_nat limit) rows).

(** [load_build_project_id]. *)
Definition load_build_project_id (build_id : string) : M string :=
  row ← query "Failed to fetch build" (fun d => (fun b => bm_project_id (b_meta b)) <$> builds d !! build_id);
  from_option build_not_found row.

(** [require_build_log_read]. *)
Definition require_build_log_read (session : SessionInfo) (build_id : string) : M unit :=
  project_id ← load_build_project_id build_id;
  effective ← resolve_effective_project_role (user_id session) (role session) project_id (auth_source session);
  require_project_permission effective Read.

(** [get_build_logs]: the lines and the total; a total that cannot be read is 0. *)
Definition get_build_logs (auth : SessionInfo) (build_id : string) (after_sequence limit : option Z)
    : M (list BuildLogChunk * Z) :=
  _ ← require_build_log_read auth build_id;
  let after_seq := default (-1) after_sequence in
  let limit := Z.min (default 1000 limit) 5000 in
  logs ← query "Failed to fetch build logs" (fun d => log_page after_seq limit (logs_of build_id d));
  total ← catch (sql (fun d => (d, Z.of_nat (length (logs_of build_id d))))) (fun r =>
            mret (match r with Ok n => n | Err _ => 0 end));
  mret (logs, total).

(** ** What an append does to a log *)

(** The trimming of [store_log_chunks]. *)
Definition trim_log (l : list log_row) : list log_row :=
  let excess := Z.of_nat (length l) - MAX_LOG_LINES_PER_BUILD in
  if 0 <? excess then
    let l := delete_excess excess l in
    match take 2 (drop (Z.to_nat LOG_HEAD_LINES) l) with
    | [marker; next] => marked (marker_row (lg_sequence marker) (lg_sequence next)) l
    | _ => l
    end
  else l.

Definition insert_all (rows l : list log_row) : list log_row * Z := fold_left insert_or_ignore rows (l, 0).

Lemma insert_all_from rows l n :
  fold_left insert_or_ignore rows (l, n) = ((insert_all rows l).1, n + (insert_all rows l).2).
Proof.
  unfold insert_all. revert l n. induction rows as [|r rows IH]; intros l n; cbn; [by rewrite Z.add_0_r|].
  assert (H : forall m, exists l' k, insert_or_ignore (l, m) r = (l', m + k) /\ insert_or_ignore (l, 0) r = (l', k)).
  { intros m. unfold insert_or_ignore; cbn. case_bool_decide; [destruct (insert_row r l) as [l'|]|].
    - exists l', 1. done.
    - exists l, 0. by rewrite Z.add_0_r.
    - exists l, 0. by rewrite Z.add_0_r. }
  destruct (H n) as (l' & k & -> & ->). rewrite (IH l' (n + k)), (IH l' k). cbn. f_equal. lia.
Qed.

Lemma insert_all_app r1 r2 l :
  insert_all (r1 ++ r2) l =
  ((insert_all r2 (insert_all r1 l).1).1, (insert_all r1 l).2 + (insert_all r2 (insert_all r1 l).1).2).
Proof.
  unfold insert_all at 1. rewrite fold_left_app. fold (insert_all r1 l).
  destruct (insert_all r1 l) as [l' n]. apply insert_all_from.
Qed.

Lemma chunks_of_concat {A} fuel n (l : list A) :
  (0 < n)%nat -> (length l <= fuel)%nat -> concat (chunks_of fuel n l) = l.
Proof.
  intros Hn. revert l. induction fuel as [|fuel IH]; intros l Hl; destruct l as [|x l]; cbn -[take drop] in *; try done; [lia|].
  rewrite IH; [apply take_drop|]. rewrite length_drop. cbn. lia.
Qed.

(** Only the log of [build_id] differs. *)
Record others_kept (build_id : string) (d d' : db) : Prop := {
  rest_kept : d' = set_build_logs (build_logs d') d;
  logs_kept : forall k, k <> build_id -> build_logs d' !! k = build_logs d !! k;
}.

#[global] Instance others_kept_preorder build_id : PreOrder (others_kept build_id).
Proof.
  split.
  - intros d. split; [by destruct d|done].
  - intros d1 d2 d3 [-> H2] [-> H4]. split; [done|]. intros k Hk. by rewrite H4, H2.
Qed.

Lemma set_logs_of_kept build_id l d : others_kept build_id d (set_logs_of build_id l d).
Proof. split; [done|]. intros k Hk. cbn. by rewrite lookup_insert_ne. Qed.

Lemma logs_of_set build_id l d : logs_of build_id (set_logs_of build_id l d) = l.
Proof. unfold logs_of. cbn. by rewrite lookup_insert_eq. Qed.

#[local] Hint Resolve set_logs_of_kept : core.

Lemma wp_insert_batches build_id batches acc d :
  is_Some (builds d !! build_id) ->
  wp (for_each (insert_batch build_id) batches acc) d (fun r d' => match r with
    | Ok n => let '(l, m) := insert_all (map row_of_chunk (concat batches)) (logs_of build_id d) in
              n = acc + m /\ logs_of build_id d' = l /\ others_kept build_id d d'
    | Err _ => True
    end).
Proof.
  revert acc d. induction batches as [|batch batches IH]; intros acc d Hb; cbn [for_each concat].
  { apply wp_ret. cbn. rewrite Z.add_0_r. done. }
  unfold insert_batch. wp_step. wp_step. wp_step; [done|]. unfold insert_batch.
  rewrite (bool_decide_true _ Hb). cbn [orb]. fold (insert_all (map row_of_chunk batch) (logs_of build_id d)).
  rewrite map_app, insert_all_app.
  destruct (insert_all (map row_of_chunk batch) (logs_of build_id d)) as [l m]. cbn.
  apply wp_ret. eapply wp_mono; [apply IH; cbn; done|].
  rewrite logs_of_set. intros [n|e] d'; [|done].
  destruct (insert_all _ l) as [l2 m2]. cbn. intros (-> & Hl & Hk). split_and!; [lia|done|].
  etrans; [|exact Hk]. done.
Qed.

(** [store_log_chunks] on a build that exists: it appends and trims, or it
    fails and nothing changed. *)
Lemma wp_store build_id chunks d :
  is_Some (builds d !! build_id) ->
  wp (store_log_chunks build_id chunks) d (fun r d' => match r with
    | Ok n => let '(l, m) := insert_all (map row_of_chunk chunks) (logs_of build_id d) in
              n = m /\ logs_of build_id d' = trim_log l /\ others_kept build_id d d'
    | Err _ => d' = d
    end).
Proof.
  intros Hb. unfold store_log_chunks. wp_step; [done|]. apply wp_bind.
  eapply wp_mono; [by apply wp_insert_batches|]. intros [n|e] d'; [|done].
  rewrite chunks_of_concat by lia. destruct (insert_all _ _) as [l m]. cbn. intros (-> & Hl & Hk).
  wp_step. wp_step; [done|]. cbn. rewrite Hl. unfold trim_log.
  destruct (0 <? Z.of_nat (length l) - MAX_LOG_LINES_PER_BUILD); [|by apply wp_ret].
  wp_step. wp_step; [done|]. cbn. wp_step. wp_step; [done|]. cbn. rewrite logs_of_set, Hl.
  set (l' := delete_excess _ l).
  assert (Hk' : others_kept build_id d (set_logs_of build_id l' d')) by (etrans; [exact Hk|done]).
  destruct (take 2 _) as [|marker [|next [|]]].
  3: { wp_step. wp_step; [done|]. cbn. apply wp_ret. rewrite !logs_of_set. split_and!; [lia|done|].
       etrans; [exact Hk'|done]. }
  all: apply wp_ret; rewrite logs_of_set; split_and!; [lia|done..].
Qed.

#[local] Hint Unfold guard : wp.

(** [append_build_logs]: an error leaves the database as it was; an answer is
    given to the runner the build is assigned to alone, and only that build's
    log differs. *)
Lemma wp_append auth runner_id job_id chunks d :
  wp (append_build_logs auth runner_id job_id chunks) d (fun r d' => match r with
    | Ok n => ra_runner_id auth = runner_id /\ (exists b, builds d !! job_id = Some b /\ b_runner_id b = Some runner_id)
              /\ (chunks = [] /\ n = 0 /\ d' = d \/ chunks <> [] /\
                  let '(l, m) := insert_all (map row_of_chunk chunks) (logs_of job_id d) in
                  n = m /\ logs_of job_id d' = trim_log l /\ others_kept job_id d d')
    | Err _ => d' = d
    end).
Proof.
  unfold append_build_logs. wp_step. wp_step; [|done]. apply String.eqb_eq in H.
  wp_step. wp_step; [done|]. wp_step. wp_step; [|done]. wp_step. wp_step; [|done].
  apply bool_decide_eq_true in H1. destruct chunks as [|c chunks].
  { apply wp_ret. eauto 10. }
  apply wp_bind, wp_map_err. eapply wp_mono; [apply wp_store; eauto|]. intros [n|e] d'; cbn [map_err]; [|done].
  destruct (insert_all _ _) as [l m]. intros (-> & Hl & Hk).
  assert (HQ : forall d2, d2 = d' -> wp (mret m : M Z) d2 (fun r d' => match r with
    | Ok n => ra_runner_id auth = runner_id /\ (exists b, builds d !! job_id = Some b /\ b_runner_id b = Some runner_id)
              /\ (c :: chunks = [] /\ n = 0 /\ d' = d \/ c :: chunks <> [] /\ n = m /\ logs_of job_id d' = trim_log l /\ others_kept job_id d d')
    | Err _ => d' = d
    end)) by (intros d2 ->; apply wp_ret; eauto 10).
  apply wp_bind. destruct (0 <? m); [|apply wp_ret; by apply HQ].
  apply wp_catch. wp_step; [apply wp_ret; by apply HQ|]. cbn.
  destruct (max_sequence _); [apply wp_emit|apply wp_ret]; by apply HQ.
Qed.

(** ** The log of appended rows *)

Definition head_lines : nat := Z.to_nat LOG_HEAD_LINES.
Definition max_lines : nat := Z.to_nat MAX_LOG_LINES_PER_BUILD.
Definition kept_lines : nat := (max_lines - head_lines - 1)%nat.

Lemma head_lines_Z : Z.of_nat head_lines = 1000.
Proof. by apply Z2Nat.id. Qed.

Lemma max_lines_Z : Z.of_nat max_lines = 10000.
Proof. by apply Z2Nat.id. Qed.

Lemma kept_lines_Z : Z.of_nat kept_lines = 8999.
Proof. unfold kept_lines. pose proof head_lines_Z. pose proof max_lines_Z. lia. Qed.

Ltac lines_lia := pose proof head_lines_Z; pose proof max_lines_Z; pose proof kept_lines_Z; lia.

Definition valid_row (r : log_row) : Prop := lg_stream r ∈ ["stdout"; "stderr"]%string.

Definition before (x y : log_row) : Prop := lg_sequence x < lg_sequence y.

(** The log the daemon promises of the rows it was given in order: all of them,
    or the first thousand, a marker in place of the row after them, and the
    latest. *)
Definition promised_log (rows : list log_row) : list log_row :=
  let n := length rows in
  if decide (n <= max_lines)%nat then rows
  else match rows !! head_lines, rows !! (n - kept_lines)%nat with
       | Some m, Some next =>
           take head_lines rows ++ marker_row (lg_sequence m) (lg_sequence next) :: drop (n - kept_lines) rows
       | _, _ => rows
       end.

(** Rows after every other are put at the end. *)
Lemma insert_row_last r l : Forall (fun x => before x r) l -> insert_row r l = Some (l ++ [r]).
Proof.
  unfold before. induction 1 as [|x l Hx _ IH]; cbn; [done|].
  destruct (Z.ltb_spec (lg_sequence r) (lg_sequence x)); [lia|].
  destruct (Z.eqb_spec (lg_sequence r) (lg_sequence x)); [lia|]. by rewrite IH.
Qed.

Lemma insert_all_last rows l :
  StronglySorted before rows -> Forall (fun x => Forall (before x) rows) l -> Forall valid_row rows ->
  insert_all rows l = (l ++ rows, Z.of_nat (length rows)).
Proof.
  intros Hs. revert l. induction Hs as [|r rows Hs IH Hr]; intros l Hl Hv; [by rewrite app_nil_r|].
  inversion_clear Hv as [|? ? Hx Hv'].
  unfold insert_all. cbn [fold_left]. unfold insert_or_ignore at 2. cbn [fst snd]. rewrite bool_decide_true by exact Hx.
  rewrite insert_row_last.
  2: { eapply Forall_impl; [exact Hl|]. cbn. intros x Hx'. by inversion Hx'. }
  rewrite insert_all_from, IH; [|..|done].
  - cbn [fst snd length]. rewrite <- app_assoc. f_equal. lia.
  - apply Forall_app. split; [|by constructor]. eapply Forall_impl; [exact Hl|]. cbn. intros x Hx'. by inversion Hx'.
Qed.

(** Trimming keeps the head and the end, and rewrites the row between them. *)
Lemma trim_log_short l : (length l <= max_lines)%nat -> trim_log l = l.
Proof.
  intros H. unfold trim_log. destruct (Z.ltb_spec 0 (Z.of_nat (length l) - MAX_LOG_LINES_PER_BUILD)); [|done].
  unfold MAX_LOG_LINES_PER_BUILD in *. lines_lia.
Qed.

Lemma marked_head hd m r rest : length hd = head_lines -> marked r (hd ++ m :: rest) = hd ++ r :: rest.
Proof.
  intros H. unfold marked. fold head_lines. rewrite <- H, <- (Nat.add_0_r (length hd)).
  by rewrite insert_app_r.
Qed.

Lemma trim_log_long hd m mid next rest :
  length hd = head_lines -> length (next :: rest) = kept_lines -> mid <> [] ->
  trim_log (hd ++ m :: mid ++ next :: rest) =
  hd ++ marker_row (lg_sequence m) (lg_sequence next) :: next :: rest.
Proof.
  intros Hhd Hrest Hmid. unfold trim_log.
  assert (Hlen : Z.of_nat (length (hd ++ m :: mid ++ next :: rest)) - MAX_LOG_LINES_PER_BUILD = Z.of_nat (length mid)).
  { rewrite length_app. cbn [length]. rewrite length_app, Hhd, Hrest. unfold MAX_LOG_LINES_PER_BUILD. lines_lia. }
  rewrite Hlen. destruct (Z.ltb_spec 0 (Z.of_nat (length mid))) as [_|H0]; [|destruct mid; [done|cbn in H0; lia]].
  assert (Hdel : delete_excess (Z.of_nat (length mid)) (hd ++ m :: mid ++ next :: rest) = hd ++ m :: next :: rest).
  { unfold delete_excess. rewrite Nat2Z.id. replace (Z.to_nat (LOG_HEAD_LINES + 1)) with (length (hd ++ [m])).
    2: { rewrite length_app, Hhd. cbn [length]. unfold LOG_HEAD_LINES. lines_lia. }
    replace (hd ++ m :: mid ++ next :: rest) with ((hd ++ [m]) ++ mid ++ next :: rest) by (by rewrite <- app_assoc).
    rewrite take_app_length, <- drop_drop, drop_app_length, drop_app_length. by rewrite <- app_assoc. }
  rewrite Hdel. fold head_lines. rewrite <- Hhd, drop_app_length. cbn [take]. by apply marked_head.
Qed.

(** The two rows the marker is made of. *)
Lemma log_parts (rows : list log_row) :
  (max_lines < length rows)%nat ->
  exists m mid next rest, rows !! head_lines = Some m /\ rows !! (length rows - kept_lines)%nat = Some next /\
    mid <> [] /\ drop (length rows - kept_lines) rows = next :: rest /\
    rows = take head_lines rows ++ m :: mid ++ next :: rest.
Proof.
  intros Hlong.
  destruct (lookup_lt_is_Some_2 rows head_lines) as [m Hm]; [lines_lia|].
  destruct (lookup_lt_is_Some_2 rows (length rows - kept_lines)) as [next Hn]; [lines_lia|].
  set (k := (length rows - kept_lines - S head_lines)%nat).
  pose proof (drop_S _ _ _ Hm) as Hd. pose proof (drop_S _ _ _ Hn) as Hd'.
  exists m, (take k (drop (S head_lines) rows)), next, (drop (S (length rows - kept_lines)) rows). split_and!; [done..| |done|].
  - intros He. apply (f_equal length) in He. rewrite length_take, length_drop in He. cbn in He. lines_lia.
  - rewrite <- Hd'. replace (length rows - kept_lines)%nat with (S head_lines + k)%nat by lines_lia.
    rewrite <- drop_drop, take_drop, <- Hd. by rewrite take_drop.
Qed.

(** A head, a row of the sequence of the first one left out, others, the end. *)
Lemma trim_to_promised (rows : list log_row) m mid :
  (max_lines < length rows)%nat -> option_map lg_sequence (rows !! head_lines) = Some (lg_sequence m) -> mid <> [] ->
  trim_log (take head_lines rows ++ m :: mid ++ drop (length rows - kept_lines) rows) = promised_log rows.
Proof.
  intros Hlong Hm Hmid. destruct (log_parts rows Hlong) as (m' & _ & next & rest & Hm' & Hn & _ & Hd & _).
  unfold promised_log. rewrite decide_False by lia. rewrite Hm', Hn, Hd. rewrite Hm' in Hm. injection Hm as Hm.
  rewrite trim_log_long; [by rewrite Hm|..|done].
  - rewrite length_take. lines_lia.
  - rewrite <- Hd, length_drop. lines_lia.
Qed.

(** Sorted rows stay before the new ones when some of them are left out. *)
Lemma promised_before rows new :
  Forall (fun x => Forall (before x) new) rows -> Forall (fun x => Forall (before x) new) (promised_log rows).
Proof.
  intros H. unfold promised_log. case_decide; [done|].
  destruct (rows !! head_lines) as [m|] eqn:Hm; [|done]. destruct (rows !! (length rows - kept_lines)%nat) as [next|]; [|done].
  apply Forall_app. split; [by apply Forall_take|]. constructor; [|by apply Forall_drop].
  rewrite Forall_lookup in H. exact (H _ _ Hm).
Qed.

Lemma sorted_app_before (l1 l2 : list log_row) :
  StronglySorted before (l1 ++ l2) -> Forall (fun x => Forall (before x) l2) l1 /\ StronglySorted before l2.
Proof.
  intros H. split; [|by eapply StronglySorted_app_1_r].
  apply Forall_forall. intros x Hx. apply Forall_forall. intros y Hy. by eapply StronglySorted_app_1_elem_of.
Qed.

(** One append after the rows [old]: the log is the promised one of all. *)
Lemma append_promised old new :
  StronglySorted before (old ++ new) -> Forall valid_row new ->
  let '(l, n) := insert_all new (promised_log old) in
  trim_log l = promised_log (old ++ new) /\ n = Z.of_nat (length new).
Proof.
  intros [Hb Hs]%sorted_app_before Hv.
  rewrite insert_all_last; [|done|by apply promised_before|done]. split; [|done].
  destruct (decide (length (old ++ new) <= max_lines)%nat) as [Hall|Hall].
  { unfold promised_log. rewrite length_app in Hall. rewrite !decide_True by (rewrite ?length_app; lia).
    apply trim_log_short. rewrite length_app. lia. }
  destruct (decide (length old <= max_lines)%nat) as [Hold|Hold].
  { unfold promised_log at 1. rewrite decide_True by done.
    destruct (log_parts (old ++ new)) as (m & mid & next & rest & Hm & _ & Hmid & Hd & Heq); [lia|].
    rewrite Heq at 1. rewrite <- Hd. apply trim_to_promised; [lia|by rewrite Hm|done]. }
  destruct (decide (new = [])) as [->|Hne].
  { rewrite !app_nil_r. apply trim_log_short. unfold promised_log. rewrite decide_False by done.
    destruct (log_parts old) as (m & mid & next & rest & -> & -> & _); [lia|].
    rewrite length_app. cbn [length]. rewrite length_take, length_drop. lines_lia. }
  destruct (log_parts old) as (m & mid & next & rest & Hm & Hn & _); [lia|].
  unfold promised_log at 1. rewrite decide_False, Hm, Hn by done.
  assert (Hk : (0 < length new)%nat) by (destruct new; [done|cbn; lia]).
  assert (Hhd : take head_lines old = take head_lines (old ++ new)) by (rewrite take_app_le; [done|lines_lia]).
  assert (Hend : drop (length old - kept_lines) old ++ new = drop (length old - kept_lines) (old ++ new))
    by (rewrite drop_app_le; [done|lines_lia]).
  rewrite <- app_assoc. cbn [app]. rewrite Hhd, Hend, <- (take_drop (length new) (drop _ (old ++ new))), drop_drop.
  replace (length old - kept_lines + length new)%nat with (length (old ++ new) - kept_lines)%nat
    by (rewrite length_app; lines_lia).
  apply trim_to_promised; [lia| |].
  - rewrite lookup_app_l by lines_lia. by rewrite Hm.
  - intros He. apply (f_equal length) in He. rewrite length_take, length_drop, length_app in He. cbn in He. lines_lia.
Qed.

(** What the promise comes to for many rows: at most [MAX_LOG_LINES_PER_BUILD]
    are kept; when no line was lost on its way the marker counts what is left
    out. *)
Lemma promised_log_long (rows : list log_row) first :
  (max_lines < length rows)%nat -> Z.of_nat (length rows) <= i64_max ->
  (forall i r, rows !! i = Some r -> lg_sequence r = first + Z.of_nat i) ->
  promised_log rows =
    take head_lines rows
    ++ LogRow (first + LOG_HEAD_LINES) (omitted_text (Z.of_nat (length rows) - 9999)) "stderr"
    :: drop (length rows - kept_lines) rows
  /\ length (promised_log rows) = max_lines.
Proof.
  intros Hlong Hmax Hseq. destruct (log_parts rows Hlong) as (m & mid & next & rest & Hm & Hn & _ & Hd & _).
  unfold promised_log. rewrite decide_False, Hm, Hn by lia. split.
  - do 2 f_equal. unfold marker_row. rewrite (Hseq _ _ Hm), (Hseq _ _ Hn).
    replace (wrap_i64 _) with (Z.of_nat (length rows) - 9999).
    + reflexivity.
    + unfold wrap_i64, i64_max in *. rewrite Z.mod_small; lines_lia.
  - rewrite length_app. cbn [length]. rewrite length_take, length_drop. lines_lia.
Qed.

(** The [LIMIT] of a page is no bound when it is negative: every row is returned. *)
Lemma negative_limit after_sequence limit (l : list log_row) :
  limit < 0 ->
  log_page after_sequence (Z.min limit 5000) l =
  map chunk_of_row (filter (fun r => after_sequence < lg_sequence r) l).
Proof. intros H. unfold log_page. destruct (Z.ltb_spec (Z.min limit 5000) 0); [done|lia]. Qed.
