(* ===== verification/RunnerLogs.v ===== *)
(** * The runner's log

    How the runner numbers, masks and sends the lines of a build
    ([append_runner_log_line] and the uploader of [run_and_stream],
    [crates/oore-runner/src/lib.rs]), run against the daemon of [BuildLogs].
    A request may be lost on its way, its answer may be lost, and anything else
    may happen to the daemon between two of them.  The sequence is an [i64] and
    grows by one a line: it does not come near its bound. *)

From S2P Require Import Prelude Contract RustStr Vars RunnerSecrets Db Access Runners Wp BuildLogs.
From Stdlib Require Import Ascii.

Local Open Scope Z_scope.

(** How a request ends: with an answer, without reaching the daemon, or handled
    by the daemon while the answer is lost. *)
Inductive delivery : Set :=
  | Answered
  | NotSent
  | AnswerLost.

(** [struct BuildLogCursor]; the masker is the list of its patterns. *)
Record BuildLogCursor := Cursor {
  cur_seq : Z;
  cur_masker : list string;
}.

(** The state of the uploader of a command's output. *)
Record upload := Upload {
  up_seq : Z;
  up_batch : list BuildLogChunk;
}.

Definition UPLOAD_BATCH : Z := 50.

Section Runner.

Context (hash_token : string -> string) (runner_token runner_id build_id : string).

(** The daemon's handling of the request. *)
Definition post_logs (chunks : list BuildLogChunk) : M Z :=
  auth ← runner_auth hash_token (Some runner_token);
  append_build_logs auth runner_id build_id chunks.

(** A request: the daemon after it, and whether the runner sees a success. *)
Definition send (net : delivery) (chunks : list BuildLogChunk) (w : world) : world * bool :=
  match net with
  | NotSent => (w, false)
  | Answered => let '(w', r) := post_logs chunks w in (w', is_ok r)
  | AnswerLost => ((post_logs chunks w).1, false)
  end.

(** [append_runner_log_line]. *)
Definition append_runner_log_line (net : delivery) (cursor : BuildLogCursor) (stream content : string) (w : world)
    : world * BuildLogCursor * bool :=
  let '(w', ok) := send net [Chunk (cur_seq cursor) (mask (cur_masker cursor) content) stream] w in
  (w', if ok then Cursor (cur_seq cursor + 1) (cur_masker cursor) else cursor, ok).

(** The uploader sends its batch, whatever comes of it. *)
Definition flush (net : delivery) (u : upload) (w : world) : world * upload :=
  match up_batch u with
  | [] => (w, u)
  | batch => ((send net batch w).1, Upload (up_seq u) [])
  end.

(** A line of output arrives. *)
Definition upload_line (masker : list string) (net : delivery) (u : upload) (stream content : string) (w : world)
    : world * upload :=
  let u := Upload (up_seq u + 1) (up_batch u ++ [Chunk (up_seq u) (mask masker content) stream]) in
  if (UPLOAD_BATCH <=? Z.of_nat (length (up_batch u))) then flush net u w else (w, u).

(** ** A build's log, request by request *)

(** The rows of the requests the daemon accepted. *)
Definition accepted (net : delivery) (chunks : list BuildLogChunk) (w : world) : list log_row :=
  match net, (post_logs chunks w).2 with
  | NotSent, _ | _, Err _ => []
  | _, Ok _ => map row_of_chunk chunks
  end.

(** The accepted rows whose number was not given before: a number is taken
    again when the answer to a line of the runner's own is lost. *)
Definition fresh (given rows : list log_row) : list log_row :=
  filter (fun r => lg_sequence r ∉ map lg_sequence given) rows.

(** The daemon, the runner and, to tell what happened, the rows given to the
    daemon: those of the requests it accepted, the first of each number. *)
Record log_run := Run {
  lr_world : world;
  lr_cursor : BuildLogCursor;
  lr_upload : option upload;
  lr_given : list log_row;
}.

Definition valid_stream (stream : string) : Prop := stream ∈ ["stdout"; "stderr"]%string.

(** The runner says a line of its own, or runs a command whose output is
    uploaded as it arrives; the daemon does other things. *)
Inductive log_step : log_run -> log_run -> Prop :=
  | step_say w c net stream content given :
      valid_stream stream ->
      log_step (Run w c None given)
        (Run (append_runner_log_line net c stream content w).1.1 (append_runner_log_line net c stream content w).1.2 None
           (given ++ fresh given (accepted net [Chunk (cur_seq c) (mask (cur_masker c) content) stream] w)))
  | step_command w c given :
      log_step (Run w c None given) (Run w c (Some (Upload (cur_seq c) [])) given)
  | step_output w c u net stream content given :
      valid_stream stream ->
      let batch := up_batch u ++ [Chunk (up_seq u) (mask (cur_masker c) content) stream] in
      log_step (Run w c (Some u) given)
        (Run (upload_line (cur_masker c) net u stream content w).1 c
           (Some (upload_line (cur_masker c) net u stream content w).2)
           (given ++ if (UPLOAD_BATCH <=? Z.of_nat (length batch)) then fresh given (accepted net batch w) else []))
  | step_tick w c u net given :
      log_step (Run w c (Some u) given)
        (Run (flush net u w).1 c (Some (flush net u w).2)
           (given ++ fresh given (accepted net (up_batch u) w)))
  | step_exit w c u net given :
      log_step (Run w c (Some u) given)
        (Run (flush net u w).1 (Cursor (up_seq u) (cur_masker c)) None
           (given ++ fresh given (accepted net (up_batch u) w)))
  | step_elsewhere w w' c u given :
      logs_of build_id (w_db w') = logs_of build_id (w_db w) ->
      log_step (Run w c u given) (Run w' c u given).

(** ** The log stays the promised one *)

(** The number of the next line: the last row given may have it already. *)
Definition next_seq (run : log_run) : Z :=
  match lr_upload run with
  | None => cur_seq (lr_cursor run)
  | Some u => up_seq u - Z.of_nat (length (up_batch u))
  end.

(** A batch numbers its lines from [next] on, each masked by [masker]. *)
Definition batch_ok (masker : list string) (next : Z) (batch : list BuildLogChunk) : Prop :=
  forall i c, batch !! i = Some c ->
  lc_sequence c = next + Z.of_nat i /\ valid_stream (lc_stream c) /\ exists content, lc_content c = mask masker content.

Record tracked (run : log_run) : Prop := {
  tr_log : logs_of build_id (w_db (lr_world run)) = promised_log (lr_given run);
  tr_sorted : StronglySorted before (lr_given run);
  tr_before : Forall (fun r => lg_sequence r <= next_seq run) (lr_given run);
  tr_batch : forall u, lr_upload run = Some u -> batch_ok (cur_masker (lr_cursor run)) (next_seq run) (up_batch u);
}.

Lemma wp_runner_auth token d (Q : result api_error RunnerAuth -> db -> Prop) :
  (forall r, Q r d) -> wp (runner_auth hash_token token) d Q.
Proof. intros H. unfold runner_auth. wp_tac; apply H. Qed.

Lemma wp_post chunks d :
  wp (post_logs chunks) d (fun r d' => match r with
    | Ok _ => logs_of build_id d' = if decide (chunks = []) then logs_of build_id d
              else trim_log (insert_all (map row_of_chunk chunks) (logs_of build_id d)).1
    | Err _ => d' = d
    end).
Proof.
  unfold post_logs. apply wp_bind, wp_runner_auth. intros [auth|e]; [|done].
  eapply wp_mono; [apply wp_append|]. intros [n|e] d'; [|done].
  intros (_ & _ & [(-> & _ & ->)|[Hne H]]); [done|]. rewrite decide_False by done.
  destruct (insert_all _ _) as [l m]. by destruct H as (_ & Hl & _).
Qed.

Lemma fresh_Forall (P : log_row -> Prop) given rows : Forall P rows -> Forall P (fresh given rows).
Proof.
  rewrite !Forall_forall. intros H r Hr. apply list_elem_of_filter in Hr as [_ Hr]. by apply H.
Qed.

(** The latest row is kept: a row with its number is ignored. *)
Lemma promised_last given r :
  StronglySorted before (given ++ [r]) ->
  exists l, promised_log (given ++ [r]) = l ++ [r] /\ Forall (fun x => before x r) l.
Proof.
  intros [Hb _]%sorted_app_before. assert (Hg : Forall (fun x => before x r) given)
    by (eapply Forall_impl; [exact Hb|]; by intros x Hx%Forall_inv).
  unfold promised_log. rewrite length_app. cbn [length]. case_decide as Hn; [by exists given|].
  assert (Hk : (length given + 1 - kept_lines <= length given)%nat) by lines_lia.
  destruct (lookup_lt_is_Some_2 given head_lines) as [m Hm]; [lines_lia|].
  destruct (lookup_lt_is_Some_2 (given ++ [r]) (length given + 1 - kept_lines)) as [next Hx];
    [rewrite length_app; cbn; lines_lia|].
  rewrite (lookup_app_l_Some _ _ _ _ Hm), Hx. eexists (_ ++ _ :: _). split.
  - rewrite drop_app_le by done. rewrite (app_comm_cons _ [r]), app_assoc. reflexivity.
  - apply Forall_app. split; [|constructor; [|by apply Forall_drop]].
    + rewrite take_app_le by (apply Nat.lt_le_incl; by eapply lookup_lt_Some). by apply Forall_take.
    + rewrite Forall_lookup in Hg. exact (Hg _ _ Hm).
Qed.

Lemma insert_row_taken x r l : Forall (fun y => before y r) l -> lg_sequence x = lg_sequence r -> insert_row x (l ++ [r]) = None.
Proof.
  unfold before. intros Hl Hx. induction Hl as [|y l Hy _ IH]; cbn.
  - by rewrite Z.eqb_refl, Z.ltb_irrefl, Hx || rewrite Hx, Z.ltb_irrefl, Z.eqb_refl.
  - rewrite Hx in *. destruct (Z.ltb_spec (lg_sequence r) (lg_sequence y)); [lia|].
    destruct (Z.eqb_spec (lg_sequence r) (lg_sequence y)); [lia|]. by rewrite IH.
Qed.

Lemma insert_all_taken x rows r l :
  Forall (fun y => before y r) l -> lg_sequence x = lg_sequence r ->
  insert_all (x :: rows) (l ++ [r]) = insert_all rows (l ++ [r]).
Proof.
  intros Hl Hx. unfold insert_all. cbn. unfold insert_or_ignore at 2. cbn.
  rewrite (insert_row_taken x r l Hl Hx). by case_match.
Qed.

Lemma sorted_before given next : StronglySorted before given -> Forall (fun r => lg_sequence r < next) given ->
  forall rows, StronglySorted before rows -> Forall (fun r => next <= lg_sequence r) rows -> StronglySorted before (given ++ rows).
Proof.
  intros Hg Hb rows Hr Hn. apply StronglySorted_app_2; [|done..].
  intros x y Hx Hy. rewrite Forall_forall in Hb, Hn. specialize (Hb _ Hx). specialize (Hn _ Hy). unfold before. lia.
Qed.

(** The rows given end before [next], or with a row of that number. *)
Lemma given_ends given next :
  StronglySorted before given -> Forall (fun r => lg_sequence r <= next) given ->
  Forall (fun r => lg_sequence r < next) given \/
  exists g r, given = g ++ [r] /\ lg_sequence r = next.
Proof.
  intros Hs Hb. destruct given as [|r g _] using rev_ind; [by left|].
  apply Forall_app in Hb as [Hg Hr%Forall_inv]. apply sorted_app_before in Hs as [Hs _]. cbn in Hr.
  destruct (decide (lg_sequence r = next)) as [He|Hne]; [by right; eauto|]. left.
  apply Forall_app. split; [|constructor; [lia|constructor]].
  eapply Forall_impl; [exact Hs|]. unfold before. intros x Hx%Forall_inv. lia.
Qed.

Lemma batch_sorted m next batch : batch_ok m next batch ->
  StronglySorted before (map row_of_chunk batch) /\ Forall (fun r => next <= lg_sequence r < next + Z.of_nat (length batch)) (map row_of_chunk batch)
  /\ Forall (fun c => valid_stream (lc_stream c)) batch.
Proof.
  intros H. split_and!.
  - revert next H. induction batch as [|c batch IH]; intros next H; [constructor|]. cbn. constructor.
    + apply (IH (next + 1)). intros i x Hx. destruct (H (S i) x Hx) as (-> & ? & ?). split; [lia|done].
    + apply Forall_map, Forall_lookup. intros i x Hx. destruct (H 0%nat c eq_refl) as [Hc _].
      destruct (H (S i) x Hx) as [Hx' _]. unfold before. cbn. lia.
  - apply Forall_map, Forall_lookup. intros i x Hx. destruct (H i x Hx) as [Hs _]. apply lookup_lt_Some in Hx. cbn. lia.
  - apply Forall_lookup. intros i x Hx. by destruct (H i x Hx) as (_ & Hv & _).
Qed.

(** Of rows numbered from [next] on, the first may be taken. *)
Lemma fresh_after given next rows :
  StronglySorted before given -> Forall (fun r => lg_sequence r <= next) given ->
  StronglySorted before rows -> Forall (fun r => next <= lg_sequence r) rows -> Forall valid_row rows ->
  StronglySorted before (given ++ fresh given rows) /\
  (rows <> [] -> trim_log (insert_all rows (promised_log given)).1 = promised_log (given ++ fresh given rows)).
Proof.
  intros Hs Hb Hr Hn Hv.
  assert (Hfresh : forall l, Forall (fun r => Forall (fun x => before x r) given) l -> fresh given l = l).
  { intros l Hl. apply list_filter_all. eapply Forall_impl; [exact Hl|]. intros r Hg Hin.
    apply list_elem_of_fmap in Hin as (x & He & Hx). rewrite Forall_forall in Hg. specialize (Hg _ Hx). unfold before in Hg. lia. }
  assert (Happ : forall l, Forall (fun r => Forall (fun x => before x r) given) l -> StronglySorted before l -> Forall valid_row l ->
    StronglySorted before (given ++ fresh given l) /\ trim_log (insert_all l (promised_log given)).1 = promised_log (given ++ fresh given l)).
  { intros l Hl Hsl Hvl. rewrite Hfresh by done.
    assert (Hss : StronglySorted before (given ++ l)).
    { apply StronglySorted_app_2; [|done..]. intros x y Hx Hy. rewrite Forall_forall in Hl. specialize (Hl _ Hy).
      rewrite Forall_forall in Hl. by apply Hl. }
    split; [done|]. pose proof (append_promised _ _ Hss Hvl) as Ha.
    destruct (insert_all l (promised_log given)) as [k m]. by destruct Ha. }
  destruct (given_ends _ _ Hs Hb) as [Hlt|(g & r & -> & He)].
  - destruct (Happ rows) as [H1 H2]; [|done..|done]. eapply Forall_impl; [exact Hn|]. intros x Hx. cbn in Hx.
    eapply Forall_impl; [exact Hlt|]. unfold before. cbn. lia.
  - assert (Hg : forall x, next < lg_sequence x -> Forall (fun y => before y x) (g ++ [r])).
    { intros x Hx. eapply Forall_impl; [exact Hb|]. unfold before. cbn. lia. }
    assert (Hrest : forall x l, StronglySorted before (x :: l) -> next <= lg_sequence x ->
      Forall (fun y => Forall (fun z => before z y) (g ++ [r])) l).
    { intros x l [_ Hx]%StronglySorted_inv Hle. eapply Forall_impl; [exact Hx|]. unfold before at 1. intros y Hy. apply Hg. lia. }
    destruct rows as [|x rows]; [cbn; by rewrite app_nil_r|]. apply Forall_cons in Hv as [Hvx Hv], Hn as [Hnx Hn].
    destruct (decide (lg_sequence x = lg_sequence r)) as [Hx|Hx].
    + destruct (Happ rows) as [H1 H2]; [by eapply Hrest|by apply StronglySorted_inv in Hr as [? _]|done|].
      destruct (promised_last _ _ Hs) as (l & Hl & Hbl). rewrite Hl in *. rewrite insert_all_taken by done.
      unfold fresh. rewrite filter_cons_False; [done|]. intros Hni. apply Hni. rewrite Hx, map_app.
      apply elem_of_app. right. by left.
    + destruct (Happ (x :: rows)) as [H1 H2]; [|done|by constructor|done]. constructor; [apply Hg; lia|by eapply Hrest].
Qed.

(** A request with rows from [next] on keeps the log the promised one. *)
Lemma send_tracked m net batch given next w :
  logs_of build_id (w_db w) = promised_log given -> StronglySorted before given ->
  Forall (fun r => lg_sequence r <= next) given -> batch_ok m next batch ->
  let given' := given ++ fresh given (accepted net batch w) in
  logs_of build_id (w_db (send net batch w).1) = promised_log given' /\ StronglySorted before given' /\
  Forall (fun r => lg_sequence r <= Z.max next (next + Z.of_nat (length batch) - 1)) given'.
Proof.
  intros Hlog Hs Hb Hok. destruct (batch_sorted _ _ _ Hok) as (Hs' & Hn & Hv). cbn zeta.
  assert (Hn' : Forall (fun r => next <= lg_sequence r) (map row_of_chunk batch))
    by (eapply Forall_impl; [exact Hn|]; cbn; lia).
  assert (Hv' : Forall valid_row (map row_of_chunk batch)) by (apply Forall_map; exact Hv).
  destruct (fresh_after given next _ Hs Hb Hs' Hn' Hv') as [Hsort Hins].
  assert (Hg : Forall (fun r => lg_sequence r <= Z.max next (next + Z.of_nat (length batch) - 1)) given)
    by (eapply Forall_impl; [exact Hb|]; cbn; lia).
  assert (Hnil : given ++ fresh given [] = given) by apply app_nil_r.
  assert (Hpost : forall w' r, post_logs batch w = (w', r) -> logs_of build_id (w_db w') =
    promised_log (given ++ fresh given match r with Ok _ => map row_of_chunk batch | Err _ => [] end)).
  { intros w' r E. pose proof (wp_run _ _ _ _ _ (wp_post batch (w_db w)) E) as Hr.
    destruct r as [n|e]; [|by rewrite Hr, Hnil]. cbn in Hr. rewrite Hr. case_decide as Hne.
    - subst batch. cbn [map]. by rewrite Hnil.
    - rewrite Hlog. apply Hins. by destruct batch. }
  assert (Hall : Forall (fun r => lg_sequence r <= Z.max next (next + Z.of_nat (length batch) - 1))
    (given ++ fresh given (map row_of_chunk batch))).
  { apply Forall_app. split; [done|]. apply fresh_Forall. eapply Forall_impl; [exact Hn|]. cbn. lia. }
  unfold send, accepted. destruct (post_logs batch w) as [w' r] eqn:E. specialize (Hpost w' r eq_refl). cbn [snd].
  destruct net, r; cbn in Hpost |- *; rewrite ?Hnil, ?app_nil_r in *; by split_and!.
Qed.

Lemma batch_nil m next : batch_ok m next [].
Proof. intros i c Hc. by rewrite lookup_nil in Hc. Qed.

Lemma batch_one m next stream content : valid_stream stream -> batch_ok m next [Chunk next (mask m content) stream].
Proof. intros Hv [|i] c; cbn; [|done]. intros [= <-]. cbn. split_and!; [lia|done|by eexists]. Qed.

Lemma batch_snoc m next batch stream content :
  batch_ok m next batch -> valid_stream stream ->
  batch_ok m next (batch ++ [Chunk (next + Z.of_nat (length batch)) (mask m content) stream]).
Proof.
  intros H Hv i c [Hc|[Hle Hc]]%lookup_app_Some; [by apply H|].
  destruct (batch_one m (next + Z.of_nat (length batch)) stream content Hv _ _ Hc) as (Hs & Hv' & Hm).
  split_and!; [lia|done..].
Qed.

(** The uploader's batch is sent or kept. *)
Lemma flush_tracked m net u w c given :
  tracked (Run w c (Some u) given) -> cur_masker c = m ->
  let w' := (flush net u w).1 in let given' := given ++ fresh given (accepted net (up_batch u) w) in
  logs_of build_id (w_db w') = promised_log given' /\ StronglySorted before given' /\
  Forall (fun r => lg_sequence r <= up_seq u) given' /\ flush net u w = (w', Upload (up_seq u) []).
Proof.
  intros [Hlog Hs Hb Hok] <-. specialize (Hok u eq_refl). cbn in *.
  destruct (send_tracked _ net _ _ _ w Hlog Hs Hb Hok) as (H1 & H2 & H3).
  assert (H3' : Forall (fun r => lg_sequence r <= up_seq u) (given ++ fresh given (accepted net (up_batch u) w)))
    by (eapply Forall_impl; [exact H3|]; cbn; lia).
  unfold flush. destruct u as [seq [|ch batch]]; cbn in *; [|done].
  assert (Hnil : accepted net [] w = []) by (unfold accepted; destruct net, (post_logs [] w).2; done).
  rewrite Hnil, app_nil_r in *. done.
Qed.

Lemma append_line_tracked net c stream content w given :
  tracked (Run w c None given) -> valid_stream stream ->
  tracked (Run (append_runner_log_line net c stream content w).1.1 (append_runner_log_line net c stream content w).1.2
    None (given ++ fresh given (accepted net [Chunk (cur_seq c) (mask (cur_masker c) content) stream] w))).
Proof.
  intros [Hlog Hs Hb _] Hv. cbn in *. unfold append_runner_log_line.
  set (batch := [Chunk _ _ _]).
  destruct (send_tracked (cur_masker c) net batch given (cur_seq c) w Hlog Hs Hb (batch_one _ _ _ _ Hv)) as (H1 & H2 & H3).
  destruct (send net batch w) as [w' ok]. cbn in *. split; cbn; [done|done| |done].
  eapply Forall_impl; [exact H3|]. cbn. destruct ok; cbn; lia.
Qed.

(** Every step keeps the log the promised one, and gives the daemon masked
    lines only. *)
Definition masked_row (m : list string) (r : log_row) : Prop :=
  exists content, lg_content r = truncate_utf8_bytes (mask m content) MAX_LINE_BYTES.

Lemma accepted_masked m next net batch given w :
  batch_ok m next batch -> Forall (masked_row m) (fresh given (accepted net batch w)).
Proof.
  intros H. apply fresh_Forall. assert (Hall : Forall (masked_row m) (map row_of_chunk batch)).
  { apply Forall_map, Forall_lookup. intros i c Hc. destruct (H i c Hc) as (_ & _ & content & Hm).
    exists content. unfold row_of_chunk. cbn. by rewrite Hm. }
  unfold accepted. destruct net, (post_logs batch w).2; done || constructor.
Qed.

Lemma log_step_tracked run run' :
  log_step run run' -> tracked run ->
  tracked run' /\ cur_masker (lr_cursor run') = cur_masker (lr_cursor run) /\
  exists new, lr_given run' = lr_given run ++ new /\ Forall (masked_row (cur_masker (lr_cursor run))) new.
Proof.
  destruct 1 as [w c net stream content given Hv|w c given|w c u net stream content given Hv batch
                |w c u net given|w c u net given|w w' c u given Hw]; intros Ht; cbn.
  - split_and!; [by apply append_line_tracked| |eexists; split; [done|by eapply accepted_masked, batch_one]].
    unfold append_runner_log_line. destruct (send _ _ _) as [w' []]; done.
  - split_and!; [|done|exists []; by rewrite app_nil_r]. destruct Ht as [H1 H2 H3 _]. split; cbn in *; [done..| |].
    + by rewrite Z.sub_0_r.
    + intros u [= <-]. apply batch_nil.
  - assert (Hok : batch_ok (cur_masker c) (up_seq u - Z.of_nat (length (up_batch u))) batch).
    { unfold batch. pose proof (batch_snoc _ _ _ stream content (tr_batch _ Ht u eq_refl) Hv) as Hb.
      unfold next_seq in Hb. cbn in Hb. by rewrite Z.sub_add in Hb. }
    set (u' := Upload (up_seq u + 1) batch).
    assert (Ht' : tracked (Run w c (Some u') given)).
    { destruct Ht as [H1 H2 H3 _]. cbn in *. unfold next_seq in H3. cbn in H3.
      assert (Hn : up_seq u + 1 - Z.of_nat (length batch) = up_seq u - Z.of_nat (length (up_batch u))).
      { unfold batch. rewrite length_app. cbn. lia. }
      split; unfold next_seq; cbn; rewrite ?Hn; [done..|]. by intros ? [= <-]. }
    unfold upload_line. fold batch u'. change (up_batch u') with batch. destruct (UPLOAD_BATCH <=? Z.of_nat (length batch)).
    + destruct (flush_tracked _ net u' w c given Ht' eq_refl) as (H1 & H2 & H3 & H4). rewrite H4. cbn in *.
      split_and!; [|done|eexists; split; [done|by eapply accepted_masked]].
      split; cbn; [done|done|by rewrite Z.sub_0_r|]. intros ? [= <-]. apply batch_nil.
    + cbn. rewrite app_nil_r. split_and!; [done|done|exists []; by rewrite app_nil_r].
  - destruct (flush_tracked _ net u w c given Ht eq_refl) as (H1 & H2 & H3 & H4). rewrite H4. cbn in *.
    split_and!; [|done|eexists; split; [done|eapply accepted_masked, (tr_batch _ Ht u eq_refl)]].
    split; cbn; [done|done|by rewrite Z.sub_0_r|]. intros ? [= <-]. apply batch_nil.
  - destruct (flush_tracked _ net u w c given Ht eq_refl) as (H1 & H2 & H3 & H4). cbn in *.
    split_and!; [|done|eexists; split; [done|eapply accepted_masked, (tr_batch _ Ht u eq_refl)]]. by split.
  - split_and!; [|done|exists []; by rewrite app_nil_r]. destruct Ht as [H1 H2 H3 H4]. split; cbn in *; [congruence|done..].
Qed.

End Runner.

Lemma truncate_hides v t :
  v <> ""%string -> contains v t = false -> contains v (truncate_utf8_bytes t MAX_LINE_BYTES) = false.
Proof.
  intros Hv Ht. unfold truncate_utf8_bytes. destruct (_ <=? _); [done|].
  apply not_true_iff_false. intros Hc. apply contains_infix in Hc; [|done]. rewrite bytes_text in Hc.
  apply infix_take, contains_infix in Hc; [|done]. congruence.
Qed.

(** A build nothing was logged of. *)
Lemma fresh_tracked build_id w m : logs_of build_id (w_db w) = [] -> tracked build_id (Run w (Cursor 0 m) None []).
Proof. intros H. split; cbn; [by rewrite H|constructor..|done]. Qed.

(** C14: The log the daemon keeps of a build is the one it promises: of the lines
    of the requests it accepted, in the order the runner numbered them and the
    first of each number, all, or the first thousand, a marker and the latest
    8,999; whatever requests and answers are lost, whatever statements fail and
    whatever else the daemon does in between.  (When the answer to a line of the
    runner's own is lost, its next line has the same number: the daemon ignores
    that line, and it is not among the rows given.)  And no line the runner
    gives shows a value its masker was made of, if the value is not empty and
    has no asterisk. *)
Theorem runner_log_kept (hash_token : string -> string) (runner_token runner_id build_id : string)
    (values : list string) (run run' : log_run) :
  tracked build_id run -> cur_masker (lr_cursor run) = masker values ->
  rtc (log_step hash_token runner_token runner_id build_id) run run' ->
  logs_of build_id (w_db (lr_world run')) = promised_log (lr_given run')
  /\ StronglySorted before (lr_given run')
  /\ exists new, lr_given run' = lr_given run ++ new
     /\ forall r v, r ∈ new -> v ∈ values -> v <> ""%string -> "*"%char ∉ bytes v -> contains v (lg_content r) = false.
Proof.
  intros Ht Hm Hrtc.
  assert (H : tracked build_id run' /\ exists new, lr_given run' = lr_given run ++ new /\ Forall (masked_row (masker values)) new).
  { revert Ht Hm. induction Hrtc as [run|run run1 run' Hstep _ IH]; intros Ht Hm.
    { split; [done|]. exists []. by rewrite app_nil_r. }
    destruct (log_step_tracked _ _ _ _ _ _ Hstep Ht) as (Ht1 & Hm1 & new1 & Hg1 & Hf1). rewrite Hm in Hm1, Hf1.
    destruct (IH Ht1 Hm1) as (Ht' & new2 & Hg2 & Hf2). split; [done|]. exists (new1 ++ new2).
    rewrite Hg2, Hg1, <- app_assoc. split; [done|]. by apply Forall_app. }
  destruct H as [[Hlog Hs _ _] (new & Hg & Hf)]. split_and!; [done..|]. exists new. split; [done|].
  intros r v Hr Hv Hne Hstar. rewrite Forall_forall in Hf. destruct (Hf r Hr) as [content ->].
  apply truncate_hides; [done|]. by apply masker_hides.
Qed.

(** A build that prints its password, and the daemon's log of it. *)
Definition any_hash (_ : string) : string := "token-hash".

Definition sample_run : log_run := Run Sample.start (Cursor 0 (masker ["hunter2"%string])) None [].

Definition said (run : log_run) (net : delivery) (content : string) : log_run :=
  let c := lr_cursor run in let w := lr_world run in
  let r := append_runner_log_line any_hash "t" "rn1" "b-run" net c "stdout" content w in
  Run r.1.1 r.1.2 None (lr_given run ++ fresh (lr_given run) (accepted any_hash "t" "rn1" "b-run" net
    [Chunk (cur_seq c) (mask (cur_masker c) content) "stdout"] w)).

Lemma runner_log_kept_witness :
  let run' := said (said sample_run Answered "login hunter2") Answered "done" in
  logs_of "b-run" (w_db (lr_world run')) = [LogRow 0 "login ***" "stdout"; LogRow 1 "done" "stdout"]
  /\ (exists new, lr_given run' = [] ++ new
      /\ forall r v, r ∈ new -> v ∈ ["hunter2"%string] -> v <> ""%string -> "*"%char ∉ bytes v -> contains v (lg_content r) = false).
Proof.
  intros run'. split; [vm_compute; reflexivity|].
  refine (proj2 (proj2 (runner_log_kept any_hash "t" "rn1" "b-run" ["hunter2"%string] sample_run run' _ _ _))).
  - apply fresh_tracked. reflexivity.
  - reflexivity.
  - transitivity (said sample_run Answered "login hunter2"); apply rtc_once; apply step_say; first [by left|done].
Defined.

(** A line of the runner's own whose answer is lost keeps its number: the next
    line takes the same, and the daemon drops it. *)
Example lost_answer_drops_next_line :
  let run' := said (said sample_run AnswerLost "first") Answered "second" in
  logs_of "b-run" (w_db (lr_world run')) = [LogRow 0 "first" "stdout"] /\ cur_seq (lr_cursor run') = 1.
Proof. vm_compute. done. Qed.
