(* ===== verification/RunnerJob.v ===== *)
(** * A claimed job on the runner

    What the runner does about the daemon while it runs a build
    ([crates/oore-runner/src/lib.rs]): the authority to go on
    ([BuildAuthorityState], [check_build_active], [poll_cancellation]), the
    status reports and their retries ([report_status_with_retry]) and the report
    a build ends with ([execute_claimed_job]); and the two sides together, with
    the daemon's handlers of [Runners].  Times are in milliseconds; the steps of
    a build are an argument ([execute_build_steps] runs processes). *)

From stdpp Require Import pretty.
From S2P Require Import Prelude Contract RustStr Sizes Vars RunnerSecrets Db Access Builds Runners Wp BuildLogs RunnerLogs.
From Stdlib Require Import Ascii.

Local Open Scope Z_scope.

Definition secs (n : Z) : Z := n * 1000.

Definition CONTROLLER_GRACE : Z := secs 300.
Definition CONTROLLER_UNAVAILABLE : string := "controller_unavailable".
Definition CONTROL_REQUEST_TIMEOUT : Z := secs 30.
Definition FINAL_REPORT_WINDOW : Z := secs 600.
Definition RUNNING_REPORT_WINDOW : Z := secs 120.

(** ** The authority to go on *)

(** How a build ends badly: [BuildTerminated], or another error. *)
Inductive run_error : Type :=
  | BuildTerminated (status : string)
  | OtherError (text : string).

(** [struct BuildAuthorityState]. *)
Record BuildAuthorityState := Authority {
  last_confirmed : Z;
  grace : Z;
  terminated : option string;
}.

(** [BuildAuthorityState::with_grace]. *)
Definition with_grace (grace now : Z) : BuildAuthorityState := Authority now grace None.

(** [BuildAuthorityState::confirmed_active]. *)
Definition confirmed_active (now : Z) (a : BuildAuthorityState) : BuildAuthorityState :=
  Authority now (grace a) (terminated a).

(** [BuildAuthorityState::transient_failure]. *)
Definition transient_failure (now : Z) (a : BuildAuthorityState) : result run_error unit :=
  if grace a <=? now - last_confirmed a then Err (BuildTerminated CONTROLLER_UNAVAILABLE) else Ok tt.

(** [BuildAuthorityState::record]. *)
Definition record (r : result run_error unit) (a : BuildAuthorityState) : BuildAuthorityState :=
  match r with
  | Err (BuildTerminated status) => Authority (last_confirmed a) (grace a) (Some (default status (terminated a)))
  | _ => a
  end.

(** [BuildAuthorityState::terminated]: the error of a step that was stopped. *)
Definition terminated_error (a : BuildAuthorityState) : run_error :=
  BuildTerminated (default "canceled"%string (terminated a)).

(** A response: none, an error status, or success with the text of the body's
    [status] when the body can be read. *)
Inductive response : Type :=
  | NoResponse
  | Refused (status : Z)
  | Answer (body : option string).

(** [is_transient_authority_status]. *)
Definition is_transient_authority_status (status : Z) : bool :=
  ((500 <=? status) && (status <? 600)) || (status =? 408) || (status =? 429).

Section Authority.

(** How a status code is printed. *)
Context (show_status : Z -> string).

(** [authority_loss]. *)
Definition authority_loss (status : Z) : run_error :=
  BuildTerminated (if status =? 401 then "runner_unauthorized"
                   else if status =? 403 then "assignment_lost"
                   else if status =? 404 then "build_missing"
                   else "protocol_rejected_" +:+ show_status status).

(** [check_build_active]; a status that is no build status is not recorded. *)
Definition check_build_active (resp : response) (now : Z) (a : BuildAuthorityState)
    : BuildAuthorityState * result run_error unit :=
  match resp with
  | Answer (Some status) =>
      match BuildStatus.from_str status with
      | Err e => (a, Err (OtherError e))
      | Ok s =>
          if BuildStatus.is_terminal s
          then let r := Err (BuildTerminated status) in (record r a, r)
          else (confirmed_active now a, Ok tt)
      end
  | Refused status =>
      let r := if is_transient_authority_status status then transient_failure now a
               else Err (authority_loss status) in (record r a, r)
  | Answer None | NoResponse => let r := transient_failure now a in (record r a, r)
  end.

(** [poll_cancellation]: the checks until one fails, which stops the step;
    [None] while none does. *)
Fixpoint poll_cancellation (checks : list (Z * response)) (a : BuildAuthorityState)
    : BuildAuthorityState * option run_error :=
  match checks with
  | [] => (a, None)
  | (now, resp) :: rest =>
      match check_build_active resp now a with
      | (a', Ok _) => poll_cancellation rest a'
      | (a', Err _) => (a', Some (terminated_error a'))
      end
  end.

End Authority.

(** ** Status reports *)

(** [struct StatusReport]; the steps are their JSON texts. *)
Record StatusReport := {
  sr_status : string;
  sr_exit_code : option Z;
  sr_error_message : option string;
  sr_steps : list string;
  sr_size_budgets : option (list TargetSizeBudget);
}.

(** What [report_status] makes of the response. *)
Inductive report_outcome : Set :=
  | Reported
  | StatusReportRejected (status : Z)
  | ReportFailed.

Definition report_status (resp : response) : report_outcome :=
  match resp with
  | NoResponse => ReportFailed
  | Answer _ => Reported
  | Refused status => if is_transient_authority_status status then ReportFailed else StatusReportRejected status
  end.

(** [struct RetryPolicy]. *)
Record RetryPolicy := {
  first_delay : Z;
  max_delay : Z;
  window : Z;
}.

(** [RetryPolicy::within]. *)
Definition within (window : Z) : RetryPolicy :=
  {| first_delay := secs 1; max_delay := secs 30; window := window |}.

(** The loop of [report_status_with_retry].  [attempt] is a request: how long it
    takes, its response and what it does to the daemon. *)
Fixpoint retry_loop {A} (fuel : nat) (p : RetryPolicy) (attempt : nat -> A -> A * Z * response) (i : nat)
    (elapsed delay : Z) (w : A) : A * Z * option report_outcome :=
  match fuel with
  | O => (w, elapsed, None)
  | S fuel =>
      let '(w, took, resp) := attempt i w in
      let elapsed := elapsed + took in
      match report_status resp with
      | Reported => (w, elapsed, Some Reported)
      | StatusReportRejected status => (w, elapsed, Some (StatusReportRejected status))
      | ReportFailed =>
          if window p <? elapsed + delay then (w, elapsed, Some ReportFailed)
          else retry_loop fuel p attempt (S i) (elapsed + delay) (Z.min (delay * 2) (max_delay p)) w
      end
  end.

(** Enough turns for the window: a delay is never less than the first. *)
Definition retry_fuel (p : RetryPolicy) : nat := S (S (Z.to_nat (window p / first_delay p))).

(** [report_status_with_retry]. *)
Definition report_status_with_retry {A} (p : RetryPolicy) (attempt : nat -> A -> A * Z * response) (w : A)
    : A * Z * option report_outcome :=
  retry_loop (retry_fuel p) p attempt 0 0 (first_delay p) w.

(** ** The report a build ends with *)

Definition running_report : StatusReport :=
  {| sr_status := "running"; sr_exit_code := None; sr_error_message := None; sr_steps := []; sr_size_budgets := None |}.

(** The end of [execute_build]: the text of an error is masked. *)
Definition masked_result (masker : list string) (r : result run_error unit) : result run_error unit :=
  match r with
  | Err (OtherError text) => Err (OtherError (mask masker text))
  | _ => r
  end.

Definition lost_contact : string :=
  "The runner lost contact with the backend for more than " +:+ pretty (CONTROLLER_GRACE / 1000 / 60)
  +:+ " minutes and stopped the build".

(** [execute_claimed_job]: its final report. *)
Definition final_report (steps : list string) (budgets : option (list TargetSizeBudget)) (r : result run_error unit)
    : option StatusReport :=
  let failed text := Some {| sr_status := "failed"; sr_exit_code := Some 1; sr_error_message := Some text;
                             sr_steps := steps; sr_size_budgets := budgets |} in
  match r with
  | Ok _ => Some {| sr_status := "succeeded"; sr_exit_code := Some 0; sr_error_message := None;
                    sr_steps := steps; sr_size_budgets := budgets |}
  | Err (BuildTerminated status) => if String.eqb status CONTROLLER_UNAVAILABLE then failed lost_contact else None
  | Err (OtherError text) => failed text
  end.

(** What [execute_build] comes to: the steps, the budgets and the result. *)
Record build_outcome := Outcome {
  bo_steps : list string;
  bo_size_budgets : option (list TargetSizeBudget);
  bo_result : result run_error unit;
}.

(** [execute_claimed_job]; [build] is [execute_build] and [send] the request of a
    report.  The outcome is that of the last report sent, [Reported] when the
    build ended elsewhere. *)
Definition execute_claimed_job {A} (send : StatusReport -> nat -> A -> A * Z * response)
    (build : A -> A * build_outcome) (w : A) : A * option report_outcome :=
  match report_status_with_retry (within RUNNING_REPORT_WINDOW) (send running_report) w with
  | (w, _, Some Reported) =>
      let '(w, o) := build w in
      match final_report (bo_steps o) (bo_size_budgets o) (bo_result o) with
      | Some report =>
          let '(w, _, r) := report_status_with_retry (within FINAL_REPORT_WINDOW) (send report) w in (w, r)
      | None => (w, Some Reported)
      end
  | (w, _, r) => (w, r)
  end.

(** ** Reports end *)

Lemma retry_ends {A} (p : RetryPolicy) (attempt : nat -> A -> A * Z * response) limit :
  0 < first_delay p <= max_delay p ->
  (forall i w, 0 <= (attempt i w).1.2 <= limit) ->
  forall fuel i elapsed delay w,
  first_delay p <= delay -> elapsed <= window p -> window p - elapsed < Z.of_nat fuel * first_delay p ->
  exists w' e o, retry_loop fuel p attempt i elapsed delay w = (w', e, Some o) /\ e <= window p + limit.
Proof.
  intros Hp Hatt. induction fuel as [|fuel IH]; intros i elapsed delay w Hd He Hf; [lia|].
  cbn [retry_loop]. pose proof (Hatt i w) as Hi. destruct (attempt i w) as [[w1 took] resp]. cbn in Hi.
  destruct (report_status resp) as [|code|]; [by eexists _, _, _; split; [done|lia]..|].
  destruct (Z.ltb_spec (window p) (elapsed + took + delay)); [by eexists _, _, _; split; [done|lia]|].
  apply IH; nia.
Qed.

(** C37: A status report is never retried for ever.  Whatever the daemon answers,
    as long as each request ends within its timeout, [report_status_with_retry]
    ends, delivered, refused or given up, no later than one request after its
    window. *)
Theorem reports_end {A} (limit span : Z) (attempt : nat -> A -> A * Z * response) (w : A) :
  0 <= span -> (forall i w, 0 <= (attempt i w).1.2 <= limit) ->
  exists w' e o, report_status_with_retry (within span) attempt w = (w', e, Some o) /\ e <= span + limit.
Proof.
  intros Hs Hatt. apply (retry_ends (within span) attempt limit); cbn [first_delay max_delay window within]; [|done|lia|done|].
  - by vm_compute.
  - unfold retry_fuel. cbn [first_delay window within].
    assert (0 < secs 1) by (by vm_compute). pose proof (Z.mod_pos_bound span (secs 1) ltac:(lia)).
    pose proof (Z.div_mod span (secs 1) ltac:(lia)). pose proof (Z.div_pos span (secs 1) Hs ltac:(lia)). nia.
Qed.

(** ** The reason a build stops *)

(** The reports a runner makes are ones the daemon lets a runner make, each of a
    finished build; no report is made exactly when the daemon ended the build or
    took it away. *)
Lemma final_report_kinds steps budgets r :
  match final_report steps budgets r with
  | Some report => exists s, BuildStatus.from_str (sr_status report) = Ok s /\ runner_settable s = true
                   /\ BuildStatus.is_terminal s = true
                   /\ (s = BuildStatus.Succeeded <-> r = Ok tt)
  | None => exists status, r = Err (BuildTerminated status) /\ status <> CONTROLLER_UNAVAILABLE
  end.
Proof.
  destruct r as [[]|[status|text]]; cbn.
  - exists BuildStatus.Succeeded. done.
  - destruct (String.eqb_spec status CONTROLLER_UNAVAILABLE); [|by exists status].
    exists BuildStatus.Failed. done.
  - exists BuildStatus.Failed. done.
Qed.

(** The message of a failure shows no secret. *)
Lemma final_report_hides steps budgets values r report v message :
  final_report steps budgets (masked_result (masker values) r) = Some report ->
  sr_error_message report = Some message -> message <> lost_contact ->
  v ∈ values -> v <> ""%string -> "*"%char ∉ bytes v -> contains v message = false.
Proof.
  intros Hf Hm Hlost Hv Hne Hstar. destruct r as [[]|[status|text]]; cbn in Hf.
  - by injection Hf as <-.
  - destruct (String.eqb _ _); [|done]. injection Hf as <-. cbn in Hm. congruence.
  - injection Hf as <-. injection Hm as <-. by apply masker_hides.
Qed.

(** ** The runner and the daemon *)

(** The response to a handler's result. *)
Definition respond {A} (body : A -> option string) (r : result api_error A) : response :=
  match r with
  | Ok a => Answer (body a)
  | Err e => Refused (err_status e)
  end.

Definition status_body (s : BuildStatus.t) : option string := Some (BuildStatus.fmt s).

(** The build is still the runner's to run. *)
Definition holds_job (runner_id build_id : string) (d : db) : Prop :=
  exists b, builds d !! build_id = Some b /\ b_runner_id b = Some runner_id /\ BuildStatus.is_terminal (b_status b) = false.

Lemma status_text s : BuildStatus.from_str (BuildStatus.fmt s) = Ok s.
Proof. by destruct s. Qed.

(** What the daemon answers a check with. *)
Lemma wp_job_status auth runner_id build_id d :
  ra_runner_id auth = runner_id ->
  wp (get_job_status auth runner_id build_id) d (fun r d' => d' = d /\ match r with
    | Ok s => exists b, builds d !! build_id = Some b /\ b_runner_id b = Some runner_id /\ s = b_status b
    | Err e => err_status e = 500 \/
        (err_status e = 403 \/ err_status e = 404) /\ ~ holds_job runner_id build_id d
    end).
Proof.
  intros Hauth. unfold get_job_status. apply wp_bind, wp_guard; [|by rewrite Hauth, String.eqb_refl].
  intros _. apply wp_bind, wp_query; [by split; [|left]|].
  apply wp_bind, wp_from_option.
  - intros b Hb. apply wp_bind, wp_guard; [intros Hr%bool_decide_eq_true|intros Hr%bool_decide_eq_false].
    + apply wp_ret. split; [done|]. by exists b.
    + split; [done|]. right. split; [by left|]. intros (b' & Hb' & Hr' & _). congruence.
  - intros Hb. split; [done|]. right. split; [by right|]. intros (b' & Hb' & _). congruence.
Qed.

(** A response that says nothing about the build. *)
Definition outage (resp : response) : bool :=
  match resp with
  | NoResponse | Answer None => true
  | Refused status => is_transient_authority_status status
  | Answer (Some _) => false
  end.

Lemma outage_check show_status resp now a :
  outage resp = true ->
  check_build_active show_status resp now a = (record (transient_failure now a) a, transient_failure now a).
Proof. destruct resp as [|status|[|]]; cbn; [done|by intros ->|done..]. Qed.

Lemma transient_failure_spec now a :
  transient_failure now a =
    if decide (now - last_confirmed a < grace a) then Ok tt else Err (BuildTerminated CONTROLLER_UNAVAILABLE).
Proof. unfold transient_failure. destruct (Z.leb_spec (grace a) (now - last_confirmed a)), (decide _); first [done|lia]. Qed.

(** C26: A runner stops a build that is no longer its own, and lets no outage
    shorter than the grace stop one that is.  A check the daemon answers goes on
    exactly when the build is assigned to this runner and not finished, and
    renews the authority; otherwise the build is stopped and nothing is reported
    about it.  A check that fails, on the daemon's side or on the way, stops the
    build exactly when the daemon has not confirmed it for the grace. *)
Theorem checks_decide (show_status : Z -> string) (auth : RunnerAuth) (runner_id build_id : string)
    (w w' : world) (r : result api_error BuildStatus.t) (now : Z) (a : BuildAuthorityState)
    (steps : list string) (budgets : option (list TargetSizeBudget)) :
  ra_runner_id auth = runner_id ->
  get_job_status auth runner_id build_id w = (w', r) ->
  let resp := respond status_body r in
  let '(a', out) := check_build_active show_status resp now a in
  (outage resp = false ->
     (out = Ok tt <-> holds_job runner_id build_id (w_db w))
     /\ (out = Ok tt -> a' = confirmed_active now a)
     /\ (out <> Ok tt -> final_report steps budgets out = None))
  /\ (forall lost, outage lost = true ->
     (check_build_active show_status lost now a).2 =
       if decide (now - last_confirmed a < grace a) then Ok tt else Err (BuildTerminated CONTROLLER_UNAVAILABLE)).
Proof.
  intros Hauth Hrun resp. apply (wp_run _ _ _ _ _ (wp_job_status auth runner_id build_id (w_db w) Hauth)) in Hrun as [_ Hr].
  destruct (check_build_active show_status resp now a) as [a' out] eqn:Hc. split.
  2: { intros lost Hl. rewrite outage_check by done. apply transient_failure_spec. }
  intros Ho. unfold resp in *. destruct r as [s|e]; cbn in Hc, Ho, Hr.
  - destruct Hr as (b & Hb & Hrunner & ->). rewrite status_text in Hc.
    destruct (BuildStatus.is_terminal (b_status b)) eqn:Ht; injection Hc as <- <-.
    + split_and!; [split; [done|]|done|].
      * intros (b' & Hb' & _ & Ht'). congruence.
      * intros _. cbn. by destruct (b_status b).
    + split_and!; [split; [|done]|done|done]. intros _. by exists b.
  - rewrite Ho in Hc. injection Hc as <- <-. destruct Hr as [Hs|[Hs Hno]]; [by rewrite Hs in Ho|].
    split_and!; [split; [done|by intros ?%Hno]|done|]. intros _. destruct Hs as [-> | ->]; done.
Qed.

(** During an outage the step goes on until the first check after the grace. *)
Lemma outage_poll show_status checks a :
  Forall (fun c => outage c.2 = true) checks -> terminated a = None ->
  poll_cancellation show_status checks a =
    match List.find (fun c => grace a <=? c.1 - last_confirmed a) checks with
    | None => (a, None)
    | Some _ => (Authority (last_confirmed a) (grace a) (Some CONTROLLER_UNAVAILABLE),
                 Some (BuildTerminated CONTROLLER_UNAVAILABLE))
    end.
Proof.
  intros Hall Hn. induction Hall as [|[now resp] checks Ho _ IH]; cbn; [done|].
  cbn in Ho. rewrite outage_check by done. unfold transient_failure. destruct (grace a <=? now - last_confirmed a); [|done].
  cbn. rewrite Hn. done.
Qed.

(** [report_status]'s request. *)
Definition report_request (report : StatusReport) : UpdateJobStatusRequest :=
  {| uj_status := sr_status report; uj_error_message := sr_error_message report; uj_steps := sr_steps report;
     uj_exit_code := sr_exit_code report; uj_size_budgets := sr_size_budgets report |}.

(** How the requests of a report go: whether they and their answers arrive, when
    the daemon handles them and how long they take. *)
Record network := {
  net_delivery : nat -> delivery;
  net_now : nat -> Z;
  net_took : nat -> Z;
}.

Definition send_report (net : network) (auth : RunnerAuth) (runner_id build_id : string) (report : StatusReport)
    (i : nat) (w : world) : world * Z * response :=
  let handled := update_job_status auth runner_id build_id (report_request report) (net_now net i) w in
  match net_delivery net i with
  | NotSent => (w, net_took net i, NoResponse)
  | AnswerLost => (handled.1, net_took net i, NoResponse)
  | Answered => (handled.1, net_took net i, respond (fun _ => None) handled.2)
  end.

Lemma wp_transition id target actor reason results now d (Q : result api_error build -> db -> Prop) :
  (forall e, Q (Err e) d) ->
  (forall b d', builds d' !! id = Some b -> b_status b = target -> Q (Ok b) d') ->
  wp (transition_build_with_results id target actor reason results now) d Q.
Proof.
  intros H1 H2 w w' [b|e] <- Hm.
  - apply transition_ok in Hm as (b0 & Hb0 & _ & Hd & Hb & _).
    destruct (transition_db_lookup id (b_status b0) target actor reason results now (w_db w) b0 Hb0 eq_refl) as (b1 & Hb1 & Hs & _).
    apply H2; [done|]. rewrite Hd, Hb1, lookup_insert_eq in Hb. by injection Hb as <-.
  - apply transition_err in Hm as ->. apply H1.
Qed.

(** A report the daemon accepts is the status the build has. *)
Lemma wp_update_job_status auth runner_id build_id req now s d :
  BuildStatus.from_str (uj_status req) = Ok s ->
  wp (update_job_status auth runner_id build_id req now) d (fun r d' => match r with
    | Ok _ => exists b, builds d' !! build_id = Some b /\ b_status b = s
    | Err _ => True
    end).
Proof.
  intros Hs. unfold update_job_status. rewrite Hs. unfold fetch_build_events.
  apply wp_bind, wp_guard; [intros _|done]. apply wp_bind, wp_query; [done|]. apply wp_bind, wp_from_option; [intros row Hrow|done].
  apply wp_bind, wp_guard; [intros _|done]. apply wp_bind, wp_ret. apply wp_bind, wp_guard; [intros _|done]. cbn zeta.
  apply wp_bind, wp_transition; [done|]. intros b d' Hb Hst. apply wp_bind, wp_query; [done|].
  apply wp_bind. destruct (BuildStatus.is_terminal s); [apply wp_emit|apply wp_ret]; apply wp_ret; by exists b.
Qed.

Lemma retry_reported p net auth runner_id build_id report s fuel i elapsed delay w w' e :
  BuildStatus.from_str (sr_status report) = Ok s ->
  retry_loop fuel p (send_report net auth runner_id build_id report) i elapsed delay w = (w', e, Some Reported) ->
  exists b, builds (w_db w') !! build_id = Some b /\ b_status b = s.
Proof.
  intros Hs. revert i elapsed delay w. induction fuel as [|fuel IH]; intros i elapsed delay w; cbn [retry_loop]; [done|].
  unfold send_report at 1. destruct (update_job_status _ _ _ _ _ w) as [w1 r] eqn:Hu.
  pose proof (wp_run _ _ _ _ _ (wp_update_job_status auth runner_id build_id (report_request report) _ s (w_db w) Hs) Hu) as Hr.
  destruct (net_delivery net i); cbn [fst snd].
  - destruct r as [x|err]; cbn; [by intros [= <- <-]|].
    destruct (is_transient_authority_status _); [|done]. destruct (_ <? _); [done|]. apply IH.
  - cbn. destruct (_ <? _); [done|]. apply IH.
  - cbn. destruct (_ <? _); [done|]. apply IH.
Qed.

(** C25: What a runner reports of a job is what the daemon holds.  When the job ends
    with its last report delivered, whatever was lost on the way and whatever
    the build did in between, either the build was ended or taken away by the
    daemon, or its stored status is the one of the build's result: succeeded
    exactly when the steps succeeded. *)
Theorem job_report_stored (net1 net2 : network) (auth : RunnerAuth) (runner_id build_id : string)
    (build : world -> world * build_outcome) (w w' : world) :
  let send report := send_report (if String.eqb (sr_status report) "running" then net1 else net2) auth runner_id build_id report in
  execute_claimed_job send build w = (w', Some Reported) ->
  exists w1 w2 o, build w1 = (w2, o) /\
  ((exists status, bo_result o = Err (BuildTerminated status) /\ status <> CONTROLLER_UNAVAILABLE /\ w' = w2)
   \/ exists b, builds (w_db w') !! build_id = Some b
      /\ b_status b = (if is_ok (bo_result o) then BuildStatus.Succeeded else BuildStatus.Failed)).
Proof.
  intros send. unfold execute_claimed_job.
  destruct (report_status_with_retry (within RUNNING_REPORT_WINDOW) (send running_report) w) as [[w1 e1] [[]|]]; [|done..].
  destruct (build w1) as [w2 o] eqn:Hb. pose proof (final_report_kinds (bo_steps o) (bo_size_budgets o) (bo_result o)) as Hk.
  destruct (final_report _ _ _) as [report|] eqn:Hf.
  - destruct Hk as (s & Hs & _ & Ht & Hok).
    destruct (report_status_with_retry (within FINAL_REPORT_WINDOW) (send report) w2) as [[w3 e3] r3] eqn:Hr.
    intros [= <- ->]. exists w1, w2, o. split; [done|]. right.
    apply (retry_reported _ _ _ _ _ _ s) in Hr as (b & Hb' & Hst); [|done]. exists b. split; [done|]. rewrite Hst.
    destruct (bo_result o) as [[]|[status|text]]; cbn in Hf |- *.
    + by apply Hok.
    + destruct (String.eqb _ _); [|done]. injection Hf as <-. cbn in Hs. by injection Hs as <-.
    + injection Hf as <-. cbn in Hs. by injection Hs as <-.
  - destruct Hk as (status & Hres & Hne). intros [= <-]. exists w1, w2, o. split; [done|]. left. by exists status.
Qed.

(** ** A sample job *)

Definition assigned : db := touch_build "b-run" (set_status BuildStatus.Assigned) Sample.database.

Definition good_net : network := {| net_delivery := fun _ => Answered; net_now := fun _ => 200; net_took := fun _ => 10 |}.

Definition rn1 : RunnerAuth := {| ra_runner_id := "rn1"; ra_runner_name := "mac" |}.

Definition passing (w : world) : world * build_outcome := (w, Outcome [] None (Ok tt)).

Lemma reports_end_witness :
  exists w' e o,
    report_status_with_retry (within FINAL_REPORT_WINDOW)
      (fun (_ : nat) (w : unit) => (w, CONTROL_REQUEST_TIMEOUT, NoResponse)) tt = (w', e, Some o)
    /\ e <= FINAL_REPORT_WINDOW + CONTROL_REQUEST_TIMEOUT.
Proof.
  apply (reports_end CONTROL_REQUEST_TIMEOUT FINAL_REPORT_WINDOW); [by vm_compute|].
  intros i w. cbn. split; by vm_compute.
Defined.

Lemma checks_decide_witness :
  let r := (get_job_status rn1 "rn1" "b-run" Sample.start).2 in
  let checked := check_build_active (fun _ => ""%string) (respond status_body r) 50 (with_grace CONTROLLER_GRACE 0) in
  checked = (Authority 50 CONTROLLER_GRACE None, Ok tt) /\ holds_job "rn1" "b-run" (w_db Sample.start).
Proof.
  intros r checked. assert (Hc : checked = (Authority 50 CONTROLLER_GRACE None, Ok tt)) by (vm_compute; reflexivity).
  split; [exact Hc|].
  pose proof (checks_decide (fun _ => ""%string) rn1 "rn1" "b-run" Sample.start
    (get_job_status rn1 "rn1" "b-run" Sample.start).1 r 50
    (with_grace CONTROLLER_GRACE 0) [] None eq_refl (surjective_pairing _)) as H.
  cbn zeta in H. fold checked in H. rewrite Hc in H. apply (proj1 (proj1 (proj1 H eq_refl)) eq_refl).
Defined.

Lemma job_report_stored_witness :
  let send report := send_report (if String.eqb (sr_status report) "running" then good_net else good_net) rn1 "rn1" "b-run" report in
  let ended := execute_claimed_job send passing (World assigned [] []) in
  ended.2 = Some Reported
  /\ exists w1 w2 o, passing w1 = (w2, o) /\
     ((exists status, bo_result o = Err (BuildTerminated status) /\ status <> CONTROLLER_UNAVAILABLE /\ ended.1 = w2)
      \/ exists b, builds (w_db ended.1) !! "b-run"%string = Some b
         /\ b_status b = (if is_ok (bo_result o) then BuildStatus.Succeeded else BuildStatus.Failed)).
Proof.
  intros send ended. assert (H : ended.2 = Some Reported) by (vm_compute; reflexivity). split; [exact H|].
  apply (job_report_stored good_net good_net rn1 "rn1" "b-run" passing (World assigned [] []) ended.1).
  fold send. rewrite <- H. apply surjective_pairing.
Defined.

(** The daemon stores that the build runs and then fails to read the events of
    its answer: the report is repeated, refused as a change from running to
    running, and the runner gives the job up; no step has run and the build is
    left running. *)
Example running_report_repeated :
  let send := send_report good_net rn1 "rn1" "b-run" in
  let faults := replicate 7 None ++ [Some OtherSqlError] in
  let ended := execute_claimed_job send passing (World assigned faults []) in
  ended.2 = Some (StatusReportRejected 409)
  /\ (b_status <$> builds (w_db ended.1) !! "b-run"%string) = Some BuildStatus.Running.
Proof. vm_compute. done. Qed.
