(* ===== verification/Accounts.v ===== *)
(** * Accounts: sessions, API tokens, users and project members

    [crates/oored/src/session.rs], [api_tokens.rs], [extractors.rs], [rbac.rs],
    [users.rs] and [project_members.rs] over the tables of [Db].  [hash_token]
    is the SHA-256 of [token.rs] and [enforce] the Casbin enforcer, both of
    other crates; tokens and identifiers the code draws at random are
    arguments, and so is the clock.  Handlers return the row their response
    shows.  The listing endpoints, which change nothing, are left out. *)

From S2P Require Import Prelude Contract RustStr Db Access Runners Environments.

Local Open Scope Z_scope.

(** A statement whose failure is answered 500 with [code]. *)
Definition sql_or {A} (code message : string) (f : db -> db * A) : M A :=
  map_errM (fun _ => ApiErr 500 code message) (sql f).

(** A statement that a constraint may refuse: [Err] leaves the table alone. *)
Definition checked (f : db -> result sqlx_error db) : ME sqlx_error unit :=
  refused ← sql (fun d => match f d with Ok d' => (d', None) | Err e => (d, Some e) end);
  match refused with Some e => throw e | None => mret tt end.

(** [SELECT ... FROM users WHERE <p>], in key order. *)
Definition select_users (p : user -> bool) (d : db) : list (string * user) :=
  filter (fun kv => p kv.2 = true) (map_to_list (users d)).

Definition active (u : user) : bool := String.eqb (u_status u) "active".

Definition set_u_role (v : string) (now : Z) (u : user) : user :=
  User (u_email u) (u_oidc_subject u) (u_display_name u) v (u_status u) (u_avatar_url u)
    (u_invited_by u) (u_created_at u) now.

Definition set_u_status (v : string) (now : Z) (u : user) : user :=
  User (u_email u) (u_oidc_subject u) (u_display_name u) (u_role u) v (u_avatar_url u)
    (u_invited_by u) (u_created_at u) now.

(** [UPDATE users SET <f> WHERE id = ?] of unconstrained columns. *)
Definition update_user (id : string) (f : user -> user) (d : db) : db :=
  set_users (alter f id (users d)) d.

(** [INSERT INTO users]: [email] and [oidc_subject] are unique. *)
Definition insert_user (id : string) (u : user) (d : db) : result sqlx_error db :=
  match users d !! id with
  | Some _ => Err UniqueViolation
  | None =>
      if bool_decide (select_users (fun u' => String.eqb (u_email u') (u_email u)
                        || String.eqb (u_oidc_subject u') (u_oidc_subject u)) d = [])
      then Ok (set_users (<[id := u]> (users d)) d)
      else Err UniqueViolation
  end.

(** ** Sessions ([session.rs]) *)

Definition DEFAULT_SESSION_TTL : Z := 86400.

Section Sessions.

Context (hash_token : string -> string).

(** [INSERT INTO sessions]: the hash is the key, the user must exist. *)
Definition insert_session (hash : string) (s : session_row) (d : db) : result sqlx_error db :=
  match sessions d !! hash, users d !! ss_user_id s with
  | Some _, _ => Err UniqueViolation
  | None, None => Err OtherSqlError
  | None, Some _ => Ok (set_sessions (<[hash := s]> (sessions d)) d)
  end.

(** [SessionStore::create_session]; [token] is [generate_session_token()]. *)
Definition create_session (user_id : string) (ttl_secs : Z) (token : string) (now : Z)
    : ME sqlx_error string :=
  _ ← checked (insert_session (hash_token token) (SessionRow user_id now (now + ttl_secs)));
  mret token.

(** The join of [validate_session]. *)
Definition session_info (hash : string) (now : Z) (d : db) : option SessionInfo :=
  s ← sessions d !! hash;
  u ← users d !! ss_user_id s;
  if (now <? ss_expires_at s) && active u then
    Some {| user_id := ss_user_id s; email := u_email u; oidc_subject := u_oidc_subject u;
            role := u_role u; expires_at := ss_expires_at s; auth_source := Session |}
  else None.

(** [SessionStore::validate_session]. *)
Definition validate_session (token : string) (now : Z) : ME sqlx_error (option SessionInfo) :=
  sql (fun d => (d, session_info (hash_token token) now d)).

(** [DELETE FROM sessions WHERE <p>], with the number of rows. *)
Definition delete_sessions (p : string -> session_row -> bool) (d : db) : db * Z :=
  let kept := filter (fun kv => p kv.1 kv.2 = false) (sessions d) in
  (set_sessions kept d, Z.of_nat (size (sessions d)) - Z.of_nat (size kept)).

(** [SessionStore::revoke_session]. *)
Definition revoke_session (token : string) : ME sqlx_error bool :=
  n ← sql (delete_sessions (fun hash _ => String.eqb hash (hash_token token)));
  mret (0 <? n).

(** [SessionStore::revoke_user_sessions]. *)
Definition revoke_user_sessions (user_id : string) : ME sqlx_error Z :=
  sql (delete_sessions (fun _ s => String.eqb (ss_user_id s) user_id)).

(** [SessionStore::revoke_all_sessions]. *)
Definition revoke_all_sessions : ME sqlx_error Z := sql (delete_sessions (fun _ _ => true)).

(** [SessionStore::cleanup_expired]. *)
Definition cleanup_expired (now : Z) : ME sqlx_error Z :=
  sql (delete_sessions (fun _ s => ss_expires_at s <=? now)).

End Sessions.

(** ** API tokens ([api_tokens.rs]) *)

(** [role_level]. *)
Definition role_level (role : string) : Z :=
  if String.eqb role "owner" then 4
  else if String.eqb role "admin" then 3
  else if String.eqb role "developer" then 2
  else if String.eqb role "qa_viewer" then 1
  else 0.

Definition VALID_ROLES : list string := ["owner"; "admin"; "developer"; "qa_viewer"].

Definition valid_role (role : string) : bool := bool_decide (role ∈ VALID_ROLES).

(** [effective_token_role]. *)
Definition effective_token_role (token_role current_role : string) : option string :=
  if negb (valid_role token_role) || negb (valid_role current_role) then None
  else Some (if role_level token_role <=? role_level current_role then token_role else current_role).

Section Tokens.

Context (hash_token : string -> string).

(** [WHERE token_hash = ?]: the column is unique. *)
Definition token_by_hash (hash : string) (d : db) : option (string * api_token) :=
  head (filter (fun kv : string * api_token => at_token_hash kv.2 = hash)
          (map_to_list (api_tokens d))).

(** [INSERT INTO api_tokens]. *)
Definition insert_api_token (id : string) (t : api_token) (d : db) : result sqlx_error db :=
  match api_tokens d !! id, token_by_hash (at_token_hash t) d, users d !! at_created_by t with
  | None, None, Some _ => Ok (set_api_tokens (<[id := t]> (api_tokens d)) d)
  | None, None, None => Err OtherSqlError
  | _, _, _ => Err UniqueViolation
  end.

(** [create_api_token]; [id] and [token] are drawn, a token being 64 bytes. *)
Definition create_api_token (created_by name role : string) (expires_at : option Z)
    (id token : string) (now : Z) : ME sqlx_error (string * string * string * Z) :=
  let prefix := String.substring 0 8 token in
  _ ← checked (insert_api_token id
        (ApiTokenRow name (hash_token token) prefix created_by role expires_at None None now));
  mret (id, token, prefix, now).

Definition set_last_used (now : Z) (t : api_token) : api_token :=
  ApiTokenRow (at_name t) (at_token_hash t) (at_prefix t) (at_created_by t) (at_role t)
    (at_expires_at t) (Some now) (at_revoked_at t) (at_created_at t).

Definition set_revoked (now : Z) (t : api_token) : api_token :=
  ApiTokenRow (at_name t) (at_token_hash t) (at_prefix t) (at_created_by t) (at_role t)
    (at_expires_at t) (at_last_used_at t) (Some now) (at_created_at t).

(** The query of [validate_api_token_hash] and the identity it gives. *)
Definition token_info (hash : string) (now : Z) (d : db) : option SessionInfo :=
  kv ← token_by_hash hash d;
  u ← users d !! at_created_by kv.2;
  if bool_decide (at_revoked_at kv.2 = None)
     && match at_expires_at kv.2 with Some at_ => now <? at_ | None => true end
     && active u
  then
    role ← effective_token_role (at_role kv.2) (u_role u);
    Some {| user_id := at_created_by kv.2; email := u_email u; oidc_subject := u_oidc_subject u;
            role := role; expires_at := default i64_max (at_expires_at kv.2);
            auth_source := ApiToken |}
  else None.

(** [validate_api_token_hash]. *)
Definition validate_api_token_hash (token_hash : string) (now : Z)
    : ME sqlx_error (option SessionInfo) :=
  sql (fun d => (d, token_info token_hash now d)).

(** [validate_api_token]. *)
Definition validate_api_token (token : string) (now : Z) : ME sqlx_error (option SessionInfo) :=
  validate_api_token_hash (hash_token token) now.

(** [UPDATE api_tokens SET <f> WHERE <p>]. *)
Definition update_tokens (p : string -> api_token -> bool) (f : api_token -> api_token) (d : db) : db :=
  set_api_tokens (map_imap (fun id t => Some (if p id t then f t else t)) (api_tokens d)) d.

(** [update_last_used]; a failure is logged. *)
Definition update_last_used {E} (token_hash : string) (now : Z) : ME E unit :=
  catch (sql (fun d => (update_tokens (fun _ t => String.eqb (at_token_hash t) token_hash)
                          (set_last_used now) d, tt))) (fun _ => mret tt).

End Tokens.

(** ** Requests ([extractors.rs], [rbac.rs]) *)

(** [util::extract_bearer] of the text of the Authorization header. *)
Definition extract_bearer (authorization : option string) : option string :=
  authorization ≫= strip_prefix "Bearer ".

(** [AuthUser::require_role]. *)
Definition require_role (auth : SessionInfo) (allowed : list string) : M unit :=
  guard (bool_decide (role auth ∈ allowed))
    (ApiErr 403 "insufficient_role" "You do not have permission to perform this action").

(** [AuthUser::require_owner]. *)
Definition require_owner (auth : SessionInfo) : M unit := require_role auth ["owner"].

(** [AuthUser::require_admin_or_above]. *)
Definition require_admin_or_above (auth : SessionInfo) : M unit :=
  require_role auth ["owner"; "admin"].

(** [AuthUser::from_request_parts]: a session, else an API token.  The spawned
    update of [last_used_at] is run at once. *)
Definition from_request_parts (hash_token : string -> string) (authorization : option string)
    (now : Z) : M SessionInfo :=
  token ← from_option (ApiErr 401 "missing_auth" "Authorization header required")
            (extract_bearer authorization);
  session ← map_errM (fun _ => ApiErr 500 "session_error" "Session validation failed")
              (validate_session hash_token token now);
  match session with
  | Some info => mret info
  | None =>
      api_token_result ← map_errM (fun _ => ApiErr 500 "token_error" "Token validation failed")
                           (validate_api_token hash_token token now);
      match api_token_result with
      | Some info => _ ← update_last_used (hash_token token) now; mret info
      | None => throw (ApiErr 401 "invalid_session" "Invalid or expired token")
      end
  end.

(** The rules of [rbac_policy.csv]: role, resource, action. *)
Definition policy : list (string * string * string) :=
  let rules role resource actions := map (fun a => (role, resource, a)) actions in
  let manage role :=
    rules role "instance_settings" ["read"; "write"]
    ++ rules role "users" ["read"; "write"; "invite"; "delete"; "enable"]
    ++ rules role "projects" ["read"; "write"; "delete"]
    ++ rules role "pipelines" ["read"; "write"; "delete"]
    ++ rules role "builds" ["read"; "write"; "cancel"]
    ++ rules role "artifacts" ["read"; "write"; "delete"]
    ++ rules role "runners" ["read"; "write"; "delete"]
    ++ rules role "integrations" ["read"; "write"; "delete"]
    ++ rules role "audit_logs" ["read"] in
  manage "owner" ++ manage "admin"
  ++ rules "developer" "projects" ["read"]
  ++ rules "developer" "pipelines" ["read"; "write"]
  ++ rules "developer" "builds" ["read"; "write"; "cancel"]
  ++ rules "developer" "artifacts" ["read"; "write"]
  ++ rules "developer" "runners" ["read"]
  ++ rules "developer" "integrations" ["read"]
  ++ concat (map (fun resource => rules "qa_viewer" resource ["read"])
       ["projects"; "pipelines"; "builds"; "artifacts"; "integrations"])
  ++ concat (map (fun role => rules role "api_tokens" ["read"; "write"; "delete"])
       ["owner"; "admin"; "developer"]).

(** What the enforcer promises with the model of [rbac_model.conf], which has
    no role inheritance: a request is allowed exactly when a rule lists it. *)
Class Casbin (enforce : string -> string -> string -> bool) : Prop :=
  enforces : forall role resource action,
    enforce role resource action = bool_decide ((role, resource, action) ∈ policy).

Section Handlers.

Context (hash_token : string -> string) (enforce : string -> string -> string -> bool).

(** [check_permission] for the caller. *)
Definition check_session_permission (auth : SessionInfo) (resource action : string) : M unit :=
  check_permission enforce (role auth) resource action.

(** [fetch_user_by_id]. *)
Definition fetch_user_by_id (user_id : string) : M user :=
  row ← query "Failed to fetch user" (fun d => users d !! user_id);
  from_option (ApiErr 404 "user_not_found" "User not found") row.

(** [create_api_token_handler]. *)
Definition create_api_token_handler (auth : SessionInfo) (req_name req_role : string)
    (req_expires_at : option Z) (id token : string) (now : Z)
    : M (string * string * string * Z) :=
  _ ← check_session_permission auth "api_tokens" "write";
  let name := trim req_name in
  _ ← guard (negb (is_empty name))
        (ApiErr 400 "invalid_name" "Token name must not be empty");
  _ ← guard (valid_role req_role)
        (ApiErr 400 "invalid_role" ("Invalid role '" +:+ req_role
           +:+ "'. Must be one of: owner, admin, developer, qa_viewer"));
  _ ← guard (role_level req_role <=? role_level (role auth))
        (ApiErr 403 "role_escalation" "Cannot create a token with a higher role than your own");
  created ← map_errM (fun _ => ApiErr 500 "db_error" "Failed to create API token")
              (create_api_token hash_token (user_id auth) name req_role req_expires_at id token now);
  _ ← write_audit_log (Some (user_id auth)) "api_token_created" "api_token" (Some id);
  mret created.

(** [revoke_api_token_handler]; the response is always [revoked: true]. *)
Definition revoke_api_token_handler (auth : SessionInfo) (token_id : string) (now : Z) : M bool :=
  _ ← check_session_permission auth "api_tokens" "delete";
  row ← sql_or "db_error" "Failed to query API token" (fun d => (d, api_tokens d !! token_id));
  t ← from_option (ApiErr 404 "not_found" "API token not found") row;
  match at_revoked_at t with
  | Some _ => mret true
  | None =>
      let is_admin := String.eqb (role auth) "owner" || String.eqb (role auth) "admin" in
      _ ← guard (is_admin || String.eqb (at_created_by t) (user_id auth))
            (ApiErr 403 "permission_denied" "You can only revoke your own API tokens");
      _ ← sql_or "db_error" "Failed to revoke API token"
            (fun d => (update_tokens (fun id _ => String.eqb id token_id) (set_revoked now) d, tt));
      _ ← write_audit_log (Some (user_id auth)) "api_token_revoked" "api_token" (Some token_id);
      mret true
  end.

(** ** Users ([users.rs]) *)

(** The roles a user can be given. *)
Definition assignable (role : string) : bool :=
  bool_decide (role ∈ ["admin"; "developer"; "qa_viewer"]).

Definition invalid_role : api_error :=
  ApiErr 400 "invalid_role" "Role must be admin, developer, or qa_viewer".

(** [invite_user]. *)
Definition invite_user (auth : SessionInfo) (req_email req_role id : string) (now : Z)
    : M (string * user) :=
  _ ← check_session_permission auth "users" "invite";
  _ ← guard (negb (is_empty req_email || negb (contains_char (byte_of 64) req_email)
                   || (256 <? str_len req_email)))
        (ApiErr 400 "invalid_email" "Invalid email address");
  _ ← guard (assignable req_role) invalid_role;
  count ← query "Failed to check user"
            (fun d => length (select_users (fun u => String.eqb (u_email u) req_email) d));
  _ ← guard (bool_decide (count = 0%nat))
        (ApiErr 409 "email_exists" "A user with this email already exists");
  let u := User req_email ("pending-" +:+ id) (Some req_email) req_role "invited" None
             (Some (user_id auth)) now now in
  _ ← map_errM (fun _ => store_error "Failed to create user") (checked (insert_user id u));
  _ ← write_audit_log (Some (user_id auth)) "user_invited" "user" (Some id);
  mret (id, u).

(** [update_user_role]. *)
Definition update_user_role (auth : SessionInfo) (target req_role : string) (now : Z) : M user :=
  _ ← check_session_permission auth "users" "write";
  _ ← guard (assignable req_role) invalid_role;
  _ ← (if String.eqb req_role "admin" then require_owner auth else mret tt);
  target_role ← query "Failed to look up user" (fun d => u_role <$> users d !! target);
  current_role ← from_option (ApiErr 404 "user_not_found" "User not found") target_role;
  _ ← guard (negb (String.eqb current_role "owner"))
        (ApiErr 403 "cannot_change_owner" "The owner role cannot be changed");
  _ ← (if String.eqb current_role "admin" then require_owner auth else mret tt);
  _ ← run "Failed to update user role" (update_user target (set_u_role req_role now));
  _ ← write_audit_log (Some (user_id auth)) "role_changed" "user" (Some target);
  fetch_user_by_id target.

(** [delete_user]: the account is disabled, its tokens are revoked and its
    sessions end, all or nothing. *)
Definition delete_user (auth : SessionInfo) (target : string) (now : Z) : M (Z * Z) :=
  _ ← check_session_permission auth "users" "delete";
  _ ← guard (negb (String.eqb (user_id auth) target))
        (ApiErr 400 "cannot_delete_self" "You cannot disable your own account");
  target_role ← query "Failed to look up user" (fun d => u_role <$> users d !! target);
  current_role ← from_option (ApiErr 404 "user_not_found" "User not found") target_role;
  _ ← guard (negb (String.eqb current_role "owner"))
        (ApiErr 403 "cannot_delete_owner" "The owner account cannot be disabled");
  _ ← (if String.eqb current_role "admin" then require_owner auth else mret tt);
  revoked ← transaction "Failed to disable user" (
    _ ← run "Failed to disable user" (update_user target (set_u_status "disabled" now));
    tokens ← exec "Failed to disable user" (fun d =>
      let mine (_ : string) t := String.eqb (at_created_by t) target
                                 && bool_decide (at_revoked_at t = None) in
      (update_tokens mine (set_revoked now) d,
       Z.of_nat (size (filter (fun kv : string * api_token => mine kv.1 kv.2 = true) (api_tokens d)))));
    ended ← exec "Failed to disable user" (delete_sessions (fun _ s => String.eqb (ss_user_id s) target));
    mret (Commit (tokens, ended)));
  _ ← write_audit_log (Some (user_id auth)) "user_disabled" "user" (Some target);
  mret revoked.

(** [re_enable_user]. *)
Definition re_enable_user (auth : SessionInfo) (target : string) (now : Z) : M user :=
  _ ← check_session_permission auth "users" "enable";
  _ ← guard (negb (String.eqb (user_id auth) target))
        (ApiErr 400 "cannot_enable_self" "You cannot re-enable your own account");
  row ← query "Failed to look up user" (fun d => users d !! target);
  u ← from_option (ApiErr 404 "user_not_found" "User not found") row;
  _ ← guard (negb (String.eqb (u_role u) "owner"))
        (ApiErr 403 "cannot_enable_owner" "The owner account cannot be re-enabled this way");
  _ ← (if String.eqb (u_role u) "admin" then require_owner auth else mret tt);
  _ ← guard (String.eqb (u_status u) "disabled")
        (ApiErr 409 "not_disabled" "User is not currently disabled");
  _ ← run "Failed to enable user" (update_user target (set_u_status "active" now));
  _ ← write_audit_log (Some (user_id auth)) "user_enabled" "user" (Some target);
  fetch_user_by_id target.

End Handlers.

(** ** Project members ([project_members.rs]) *)

Module Members.

(** [oore_contract::ProjectMember], the timestamps left out. *)
Record ProjectMember := {
  mb_project_id : string;
  mb_user_id : string;
  mb_role : ProjectRole.t;
  mb_user_email : string;
  mb_user_role : string;
}.

(** [fetch_one(...).await.unwrap_or(fallback)]. *)
Definition scalar_or {A} (fallback : A) (f : db -> A) : M A :=
  catch (sql (fun d => (d, f d))) (fun r => mret (match r with Ok a => a | Err _ => fallback end)).

(** [SELECT COUNT( * ) FROM project_members WHERE project_id = ? AND role = 'maintainer']. *)
Definition maintainer_count (project_id : string) (d : db) : Z :=
  Z.of_nat (size (filter (fun kv : (string * string) * string =>
    kv.1.1 = project_id /\ kv.2 = "maintainer") (members d))).

(** The guard shared by demotion and removal. *)
Definition keep_last_maintainer (project_id user_id message : string) : M unit :=
  current_role ← query "Failed to check member role" (fun d => members d !! (project_id, user_id));
  if bool_decide (current_role = Some "maintainer") then
    count ← scalar_or 0 (maintainer_count project_id);
    guard (1 <? count) (ApiErr 409 "last_maintainer" message)
  else mret tt.

(** [INSERT INTO project_members]. *)
Definition insert_member (project_id user_id role : string) (d : db) : result sqlx_error db :=
  match members d !! (project_id, user_id), projects d !! project_id, users d !! user_id with
  | Some _, _, _ => Err UniqueViolation
  | None, Some _, Some _ => Ok (set_members (<[(project_id, user_id) := role]> (members d)) d)
  | _, _, _ => Err OtherSqlError
  end.

(** QA viewers are given the Viewer role only. *)
Definition qa_viewer_rule (instance_role : option string) (role : ProjectRole.t) : M unit :=
  guard (negb (bool_decide (instance_role = Some "qa_viewer")
               && negb (bool_decide (role = ProjectRole.Viewer))))
    (ApiErr 400 "invalid_project_role" "QA Viewer users can only be assigned the Viewer project role").

Definition require_manage_members (auth : SessionInfo) (project_id : string) : M unit :=
  effective ← resolve_effective_project_role (user_id auth) (role auth) project_id (auth_source auth);
  require_project_permission effective ManageMembers.

(** [add_project_member]. *)
Definition add_project_member (auth : SessionInfo) (project_id req_user_id : string)
    (req_role : ProjectRole.t) : M ProjectMember :=
  _ ← require_manage_members auth project_id;
  project_exists ← scalar_or false (fun d => bool_decide (is_Some (projects d !! project_id)));
  _ ← guard project_exists (ApiErr 404 "not_found" "Project not found");
  target ← query "Failed to verify user" (fun d =>
    u ← users d !! req_user_id;
    if bool_decide (u_status u ∈ ["active"; "invited"]) then Some u else None);
  u ← from_option (ApiErr 400 "invalid_user" "User not found or not eligible for project access")
        target;
  _ ← guard (negb (String.eqb (u_role u) "owner" || String.eqb (u_role u) "admin"))
        (ApiErr 400 "invalid_user" "Owner and admin users already have full access to all projects");
  _ ← qa_viewer_rule (Some (u_role u)) req_role;
  already_member ← scalar_or false
    (fun d => bool_decide (is_Some (members d !! (project_id, req_user_id))));
  _ ← guard (negb already_member)
        (ApiErr 409 "already_member" "User is already a member of this project");
  _ ← map_errM (fun _ => store_error "Failed to add project member")
        (checked (insert_member project_id req_user_id (ProjectRole.fmt req_role)));
  _ ← write_audit_log (Some (user_id auth)) "project_member_added" "project" (Some project_id);
  mret {| mb_project_id := project_id; mb_user_id := req_user_id; mb_role := req_role;
          mb_user_email := u_email u; mb_user_role := u_role u |}.

(** [update_project_member]. *)
Definition update_project_member (auth : SessionInfo) (project_id target : string)
    (req_role : ProjectRole.t) : M ProjectMember :=
  _ ← require_manage_members auth project_id;
  target_instance_role ← query "Failed to check target user role" (fun d => u_role <$> users d !! target);
  _ ← qa_viewer_rule target_instance_role req_role;
  _ ← (if bool_decide (req_role = ProjectRole.Maintainer) then mret tt
       else keep_last_maintainer project_id target
              "Cannot demote the last maintainer — project would become unmanageable");
  let update_failed (_ : sqlx_error) := store_error "Failed to update project member" in
  _ ← transaction "Failed to update project member" (
    n ← exec "Failed to update project member" (fun d =>
      match members d !! (project_id, target) with
      | Some _ => (set_members (<[(project_id, target) := ProjectRole.fmt req_role]> (members d)) d, 1)
      | None => (d, 0)
      end);
    _ ← guard (negb (n =? 0)) (ApiErr 404 "not_found" "Project member not found");
    _ ← (if bool_decide (req_role = ProjectRole.Viewer)
         then map_errM update_failed (forget_approver project_id target) else mret tt);
    mret (Commit tt));
  _ ← write_audit_log (Some (user_id auth)) "project_member_role_updated" "project" (Some project_id);
  row ← query "Failed to fetch updated member" (fun d =>
    match members d !! (project_id, target), users d !! target with
    | Some r, Some u => Some (r, u)
    | _, _ => None
    end);
  member ← from_option (store_error "Failed to fetch updated member") row;
  match ProjectRole.from_str (fst member) with
  | Ok r => mret {| mb_project_id := project_id; mb_user_id := target; mb_role := r;
                    mb_user_email := u_email (snd member); mb_user_role := u_role (snd member) |}
  | Err _ => throw (ApiErr 500 "data_error" "Invalid project role in database")
  end.

(** [remove_project_member]. *)
Definition remove_project_member (auth : SessionInfo) (project_id target : string) : M unit :=
  _ ← require_manage_members auth project_id;
  _ ← keep_last_maintainer project_id target
        "Cannot remove the last maintainer — project would become unmanageable";
  let remove_failed (_ : sqlx_error) := store_error "Failed to remove project member" in
  _ ← transaction "Failed to remove project member" (
    n ← exec "Failed to remove project member" (fun d =>
      match members d !! (project_id, target) with
      | Some _ => (set_members (delete (project_id, target) (members d)) d, 1)
      | None => (d, 0)
      end);
    _ ← guard (negb (n =? 0)) (ApiErr 404 "not_found" "Project member not found");
    _ ← map_errM remove_failed (forget_approver project_id target);
    mret (Commit tt));
  write_audit_log (Some (user_id auth)) "project_member_removed" "project" (Some project_id).

End Members.
