(* ===== verification/SignIn.v ===== *)
(** * Signing in

    [crates/oored/src/auth.rs], [local_recovery.rs], the peer checks of
    [instance_settings.rs] and the client address of [lib.rs]: the store of
    OIDC sign-ins under way with its admission limits, the single-use recovery
    capabilities, and the three ways to obtain a session (OIDC, local, trusted
    proxy).  What happens between the daemon and the identity provider
    (discovery, the exchange of the code, the signature of the ID token) is a
    parameter that yields the claims; so are decryption, the parser of
    addresses and networks, Unicode lower-casing and header names.  Headers are
    a function from lower-case names to their text. *)

From S2P Require Import Prelude Contract RustStr Db Access Runners Accounts.

Local Open Scope Z_scope.

(** The daemon's memory, which no statement can fail on. *)
Definition in_memory {E A} (f : daemon_memory -> daemon_memory * A) : ME E A := fun w =>
  let '(m, a) := f (memory (w_db w)) in (set_w_db (set_memory m (w_db w)) w, Ok a).

(** ** Sign-ins under way ([PendingAuthStore]) *)

Module Pending.

Definition PENDING_AUTH_TTL_SECS : Z := 600.
Definition MAX_PENDING_AUTH : nat := 1000.
Definition OIDC_START_RATE_WINDOW_SECS : Z := 60.
Definition MAX_GLOBAL_OIDC_STARTS_PER_WINDOW : nat := 120.
Definition MAX_SOURCE_OIDC_STARTS_PER_WINDOW : nat := 20.

(** [OidcAdmissionError]. *)
Inductive OidcAdmissionError : Set :=
  | Capacity
  | GlobalRate
  | SourceRate
  | ReservationExpired.

(** [while starts.front().is_some_and(|at| at <= cutoff) { pop_front }]. *)
Fixpoint drop_old (cutoff : Z) (starts : list Z) : list Z :=
  match starts with
  | [] => []
  | at_ :: rest => if at_ <=? cutoff then drop_old cutoff rest else starts
  end.

(** [PendingAuthStore::cleanup]. *)
Definition cleanup (now : Z) (s : PendingAuthStore) : PendingAuthStore :=
  let cutoff := now - OIDC_START_RATE_WINDOW_SECS in
  {| pending := filter (fun kv => now - pa_created_at kv.2 < PENDING_AUTH_TTL_SECS) (pending s);
     reservations := filter (fun kv => now - kv.2 < PENDING_AUTH_TTL_SECS) (reservations s);
     global_starts := drop_old cutoff (global_starts s);
     source_starts := omap (fun starts => match drop_old cutoff starts with
                                          | [] => None
                                          | kept => Some kept
                                          end) (source_starts s);
     setup_generation := setup_generation s |}.

Definition full (s : PendingAuthStore) : bool :=
  (MAX_PENDING_AUTH <=? size (pending s) + size (reservations s))%nat.

Definition set_pending (p : gmap string PendingAuth) (s : PendingAuthStore) : PendingAuthStore :=
  {| pending := p; reservations := reservations s; global_starts := global_starts s;
     source_starts := source_starts s; setup_generation := setup_generation s |}.

Definition set_reservations (r : gmap string Z) (s : PendingAuthStore) : PendingAuthStore :=
  {| pending := pending s; reservations := r; global_starts := global_starts s;
     source_starts := source_starts s; setup_generation := setup_generation s |}.

(** [reserve_public]. *)
Definition reserve_public (reservation_id : string) (source : IpAddr.t) (now : Z)
    (s0 : PendingAuthStore) : PendingAuthStore * result OidcAdmissionError unit :=
  let s := cleanup now s0 in
  if full s then (s, Err Capacity)
  else if (MAX_GLOBAL_OIDC_STARTS_PER_WINDOW <=? length (global_starts s))%nat then (s, Err GlobalRate)
  else if match source_starts s !! source with
          | Some starts => (MAX_SOURCE_OIDC_STARTS_PER_WINDOW <=? length starts)%nat
          | None => false
          end then (s, Err SourceRate)
  else
    ({| pending := pending s;
        reservations := <[reservation_id := now]> (reservations s);
        global_starts := global_starts s ++ [now];
        source_starts := <[source := default [] (source_starts s !! source) ++ [now]]> (source_starts s);
        setup_generation := setup_generation s |}, Ok tt).

(** [commit_public]. *)
Definition commit_public (reservation_id state : string) (p : PendingAuth) (s0 : PendingAuthStore)
    : PendingAuthStore * result OidcAdmissionError unit :=
  let s := cleanup (pa_created_at p) s0 in
  match reservations s !! reservation_id with
  | None => (s, Err ReservationExpired)
  | Some _ =>
      (set_pending (<[state := p]> (pending s))
         (set_reservations (delete reservation_id (reservations s)) s), Ok tt)
  end.

(** [cancel_public]. *)
Definition cancel_public (reservation_id : string) (s : PendingAuthStore) : PendingAuthStore :=
  set_reservations (delete reservation_id (reservations s)) s.

(** [insert_setup]. *)
Definition insert_setup (state : string) (p : PendingAuth) (now : Z) (s0 : PendingAuthStore)
    : PendingAuthStore * result OidcAdmissionError unit :=
  let s := cleanup now s0 in
  if full s then (s, Err Capacity) else (set_pending (<[state := p]> (pending s)) s, Ok tt).

(** [remove]. *)
Definition remove (state : string) (s : PendingAuthStore) : PendingAuthStore * option PendingAuth :=
  (set_pending (delete state (pending s)) s, pending s !! state).

(** [invalidate_setup]; [generation] is drawn. *)
Definition invalidate_setup (generation : string) (s : PendingAuthStore) : PendingAuthStore :=
  {| pending := filter (fun kv => pa_setup kv.2 = None) (pending s); reservations := reservations s;
     global_starts := global_starts s; source_starts := source_starts s;
     setup_generation := generation |}.

(** [clear]. *)
Definition clear (s : PendingAuthStore) : PendingAuthStore :=
  {| pending := ∅; reservations := ∅; global_starts := []; source_starts := ∅;
     setup_generation := setup_generation s |}.

(** [oidc_admission_error]. *)
Definition oidc_admission_error (e : OidcAdmissionError) : api_error :=
  match e with
  | Capacity => ApiErr 429 "too_many_pending" "Too many pending authentication requests"
  | GlobalRate | SourceRate =>
      ApiErr 429 "oidc_start_rate_limited" "Too many authentication starts; retry later"
  | ReservationExpired =>
      ApiErr 503 "oidc_start_expired" "OIDC discovery took too long; retry authentication"
  end.

(** The store as part of the daemon's memory. *)
Definition with_pending {E A} (f : PendingAuthStore -> PendingAuthStore * A) : ME E A :=
  in_memory (fun m => let '(s, a) := f (pending_auth m) in
    (Memory s (recovery_capabilities m) (bootstrap_failures m) (webhook_secrets m) (streams m), a)).

End Pending.

(** ** Recovery capabilities ([local_recovery.rs]) *)

Module Recovery.

Definition CAPABILITY_PREFIX : string := "oore_recovery_".
Definition MAX_CAPABILITIES : nat := 32.
Definition LOCAL_RECOVERY_MIN_TTL_SECS : Z := 1.
Definition LOCAL_RECOVERY_MAX_TTL_SECS : Z := 5 * 60.

Notation caps := (gmap string RecoveryCapability).

(** [ConsumeError]. *)
Inductive ConsumeError : Set :=
  | Malformed
  | UnknownOrExpired
  | AccountMismatch.

Definition is_ascii_hexdigit (c : Ascii.ascii) : bool :=
  is_ascii_digit c || byte_in 97 102 c || byte_in 65 70 c.

(** [valid_capability_format]. *)
Definition valid_capability_format (raw : string) : bool :=
  (str_len raw =? str_len CAPABILITY_PREFIX + 64)
  && match strip_prefix CAPABILITY_PREFIX raw with
     | Some rest => all_bytes is_ascii_hexdigit rest
     | None => false
     end.

(** [retain(|_, value| value.expires_at > now)]. *)
Definition live (now : Z) (c : caps) : caps := filter (fun kv => now < rc_expires_at kv.2) c.

Section Capabilities.

Context (hash_token : string -> string).

(** [RecoveryCapabilityStore::mint]; [id] and [draw] are random.  The task that
    removes the capability when it expires is [expire]. *)
Definition mint (user_id user_email : string) (ttl_seconds : Z) (id draw : string) (now : Z) (c : caps)
    : caps * option (string * string * Z) :=
  if (LOCAL_RECOVERY_MIN_TTL_SECS <=? ttl_seconds) && (ttl_seconds <=? LOCAL_RECOVERY_MAX_TTL_SECS) then
    let raw := CAPABILITY_PREFIX +:+ draw in
    let kept := live now c in
    if (MAX_CAPABILITIES <=? size kept)%nat then (kept, None)
    else (<[hash_token raw := {| rc_id := id; rc_user_id := user_id; rc_user_email := user_email;
                                 rc_expires_at := now + ttl_seconds |}]> kept,
          Some (raw, id, now + ttl_seconds))
  else (c, None).

(** [expire_capability]. *)
Definition expire (token_hash : string) (c : caps) : caps := delete token_hash c.

(** [RecoveryCapabilityStore::consume]: the id and the account it is for. *)
Definition consume (raw : string) (requested_email : option string) (now : Z) (c : caps)
    : caps * result ConsumeError (string * string) :=
  if valid_capability_format raw then
    let kept := live now c in
    match kept !! hash_token raw with
    | None => (kept, Err UnknownOrExpired)
    | Some capability =>
        (delete (hash_token raw) kept,
         match requested_email with
         | Some email =>
             if String.eqb (to_ascii_lowercase (trim email))
                  (to_ascii_lowercase (rc_user_email capability))
             then Ok (rc_id capability, rc_user_id capability) else Err AccountMismatch
         | None => Ok (rc_id capability, rc_user_id capability)
         end)
    end
  else (c, Err Malformed).

End Capabilities.

(** The capabilities as part of the daemon's memory. *)
Definition with_capabilities {E A} (f : caps -> caps * A) : ME E A :=
  in_memory (fun m => let '(c, a) := f (recovery_capabilities m) in
    (Memory (pending_auth m) c (bootstrap_failures m) (webhook_secrets m) (streams m), a)).

(** [RecoveryCapabilityStore::clear]. *)
Definition clear_capabilities {E} : ME E unit := with_capabilities (fun _ => (∅, tt)).

End Recovery.

(** ** The client's address ([lib.rs]) *)

Module Client.

Fixpoint drop_leading (c : Ascii.ascii) (l : list Ascii.ascii) : list Ascii.ascii :=
  match l with
  | a :: rest => if Ascii.eqb c a then drop_leading c rest else l
  | [] => []
  end.

(** [str::trim_matches] with a one-byte pattern. *)
Definition trim_matches (c : Ascii.ascii) (s : string) : string :=
  text (rev (drop_leading c (rev (drop_leading c (bytes s))))).

(** [str::rsplit_once] with a one-byte pattern. *)
Definition rsplit_once (c : Ascii.ascii) (s : string) : option (string * string) :=
  '(x, y) ← split_once_l c (rev (bytes s)); Some (text (rev y), text (rev x)).

Definition quote : Ascii.ascii := byte_of 34.
Definition dot : Ascii.ascii := byte_of 46.
Definition colon : Ascii.ascii := byte_of 58.
Definition semicolon : Ascii.ascii := byte_of 59.
Definition comma : Ascii.ascii := byte_of 44.
Definition closing_bracket : Ascii.ascii := byte_of 93.

Section Address.

(** [str::parse::<IpAddr>()], and the headers of the request. *)
Context (parse_ip : string -> option IpAddr.t) (headers : string -> option string).

(** [parse_ip_from_header]. *)
Definition parse_ip_from_header (name : string) : option IpAddr.t :=
  value ← headers name;
  if is_empty (trim value) then None else parse_ip (trim value).

(** [parse_ip_token]. *)
Definition parse_ip_token (raw : string) : option IpAddr.t :=
  let value := trim raw in
  if is_empty value then None else
  let value := trim (trim_matches quote value) in
  if is_empty value || String.eqb (to_ascii_lowercase value) "unknown" then None else
  match strip_prefix "[" value ≫= split_once closing_bracket with
  | Some (inside, _) => parse_ip inside
  | None =>
      match parse_ip value with
      | Some ip => Some ip
      | None =>
          if contains_char dot value then
            '(ip_part, _) ← rsplit_once colon value; parse_ip ip_part
          else None
      end
  end.

(** The loop of [parse_x_forwarded_for] and [parse_forwarded_for]: the first
    address that is not loopback, else the first one. *)
Fixpoint first_outside (first : option IpAddr.t) (ips : list (option IpAddr.t)) : option IpAddr.t :=
  match ips with
  | [] => first
  | None :: rest => first_outside first rest
  | Some ip :: rest =>
      let first := match first with None => Some ip | Some _ => first end in
      if IpAddr.is_loopback ip then first_outside first rest else Some ip
  end.

(** [parse_x_forwarded_for]. *)
Definition parse_x_forwarded_for : option IpAddr.t :=
  raw ← headers "x-forwarded-for";
  first_outside None (map parse_ip_token (split_char comma raw)).

(** [parse_forwarded_for]. *)
Definition parse_forwarded_for : option IpAddr.t :=
  raw ← headers "forwarded";
  first_outside None
    (map (fun part => strip_prefix "for=" (trim part) ≫= parse_ip_token)
       (concat (map (split_char semicolon) (split_char comma raw)))).

(** The candidates of [effective_client_ip], in order. *)
Definition forwarded_candidates : list IpAddr.t :=
  omap (fun c => c)
    [parse_ip_from_header "cf-connecting-ip"; parse_forwarded_for;
     parse_x_forwarded_for; parse_ip_from_header "x-real-ip"].

(** [effective_client_ip]. *)
Definition effective_client_ip (peer_ip : IpAddr.t) : IpAddr.t :=
  if negb (IpAddr.is_loopback peer_ip) then peer_ip
  else
    match find (fun ip => negb (IpAddr.is_loopback ip)) forwarded_candidates with
    | Some ip => ip
    | None => default peer_ip (head forwarded_candidates)
    end.

End Address.

End Client.

(** ** Trusted proxies ([instance_settings.rs]) *)

Module Proxy.

Definition DEFAULT_TRUSTED_PROXY_EMAIL_HEADER : string := "x-oore-user-email".
Definition TRUSTED_PROXY_SHARED_SECRET_HEADER : string := "x-oore-trusted-proxy-secret".
Definition WARPGATE_USER_EMAIL_HEADER : string := "x-warpgate-username".
Definition MAX_WARPGATE_TICKET_LEN : Z := 1024.

(** [constant_time_eq]. *)
Definition constant_time_eq (a b : string) : bool :=
  if (str_len a =? str_len b) then differing_bits (bytes a) (bytes b) =? 0 else false.

(** [normalize_email_value]. *)
Definition normalize_email_value (to_lowercase : string -> string) (raw : string) : option string :=
  let trimmed := to_lowercase (trim raw) in
  if is_empty trimmed || (256 <? str_len trimmed) || negb (contains_char (byte_of 64) trimmed)
  then None else Some trimmed.

(** [EffectiveTrustedProxySettings], as sign-in reads it. *)
Record EffectiveTrustedProxySettings := {
  ep_user_email_header : string;
  ep_setup_owner_email : option string;
  ep_trusted_proxy_cidrs : list string;
  ep_encrypted_shared_secret : option string;
  ep_configured : bool;
}.

Section Checks.

(** [HeaderName::from_bytes] on a lower-case text, [IpNet] membership of a text
    that parses, decryption with the instance's key, and the environment
    variable [OORE_WARPGATE_TICKET]. *)
Context (to_lowercase : string -> string) (header_name : string -> option string)
        (warpgate_env : option string)
        (in_network : string -> IpAddr.t -> bool) (decrypt : string -> option string)
        (headers : string -> option string).

(** [normalize_header_name]. *)
Definition normalize_header_name (raw : string) : option string :=
  let trimmed := to_ascii_lowercase (trim raw) in
  if is_empty trimmed then None else header_name trimmed.

(** [parse_db_trusted_proxy_cidrs] of the decoded list. *)
Definition parse_db_trusted_proxy_cidrs (values : list string) : list string :=
  fold_left (fun acc v => if bool_decide (v ∈ acc) then acc else acc ++ [v])
    (filter (fun v => is_empty v = false) (map trim values)) [].

(** [load_effective_trusted_proxy_settings] on the row. *)
Definition effective_settings (row : option trusted_proxy_row) : EffectiveTrustedProxySettings :=
  match row with
  | Some r =>
      {| ep_user_email_header :=
           default DEFAULT_TRUSTED_PROXY_EMAIL_HEADER (normalize_header_name (tp_user_email_header r));
         ep_setup_owner_email := tp_setup_owner_email r ≫= normalize_email_value to_lowercase;
         ep_trusted_proxy_cidrs := parse_db_trusted_proxy_cidrs (tp_trusted_proxy_cidrs r);
         ep_encrypted_shared_secret := tp_encrypted_shared_secret r;
         ep_configured := true |}
  | None =>
      {| ep_user_email_header := DEFAULT_TRUSTED_PROXY_EMAIL_HEADER;
         ep_setup_owner_email := None; ep_trusted_proxy_cidrs := [];
         ep_encrypted_shared_secret := None; ep_configured := false |}
  end.

(** [warpgate_ticket_from_env]: [None] when the ticket is too long. *)
Definition warpgate_ticket_from_env : option (option string) :=
  match warpgate_env with
  | Some v =>
      if is_empty (trim v) then Some None
      else if MAX_WARPGATE_TICKET_LEN <? str_len (trim v) then None else Some (Some (trim v))
  | None => Some None
  end.

(** [load_effective_trusted_proxy_settings]. *)
Definition load_effective_trusted_proxy_settings : M EffectiveTrustedProxySettings :=
  s ← query "Failed to load trusted proxy settings"
        (fun d => effective_settings (as_trusted_proxy (access d)));
  _ ← guard (negb (ep_configured s && String.eqb (ep_user_email_header s) WARPGATE_USER_EMAIL_HEADER)
             || bool_decide (is_Some warpgate_ticket_from_env))
        (store_error "Failed to load trusted proxy settings");
  mret s.

(** [is_trusted_proxy_peer]. *)
Definition is_trusted_proxy_peer (peer_ip : IpAddr.t) (s : EffectiveTrustedProxySettings) : bool :=
  IpAddr.is_loopback peer_ip
  || existsb (fun cidr => in_network cidr peer_ip) (ep_trusted_proxy_cidrs s).

(** [verify_trusted_proxy_shared_secret]. *)
Definition verify_trusted_proxy_shared_secret (s : EffectiveTrustedProxySettings) : M unit :=
  encrypted ← from_option (ApiErr 503 "trusted_proxy_config_invalid"
                "Trusted proxy shared secret is not configured") (ep_encrypted_shared_secret s);
  expected ← from_option (ApiErr 500 "decryption_error"
               "Failed to verify trusted proxy shared secret") (decrypt encrypted);
  provided ← from_option (ApiErr 401 "trusted_proxy_shared_secret_missing"
               "Trusted proxy shared secret header is missing")
               (value ← headers TRUSTED_PROXY_SHARED_SECRET_HEADER;
                if is_empty (trim value) then None else Some (trim value));
  guard (constant_time_eq provided expected)
    (ApiErr 401 "trusted_proxy_shared_secret_invalid" "Trusted proxy shared secret header is invalid").

(** [extract_trusted_proxy_email]. *)
Definition extract_trusted_proxy_email (s : EffectiveTrustedProxySettings) : M string :=
  name ← from_option (ApiErr 500 "trusted_proxy_config_invalid"
           "Trusted proxy email header configuration is invalid") (header_name (ep_user_email_header s));
  raw_identity ← from_option (ApiErr 401 "trusted_proxy_identity_missing"
    "Trusted proxy identity header is missing. Configure the upstream proxy to forward user identity.")
    (headers name);
  from_option (ApiErr 401 "trusted_proxy_identity_invalid"
    "Trusted proxy identity must be an email address. Configure the upstream proxy to forward an email identity.")
    (normalize_email_value to_lowercase raw_identity).

End Checks.

End Proxy.

(** ** Instance state that sign-in reads *)

(** [SetupStore::load], as the handlers report its failure. *)
Definition load_setup : M SetupStateFile :=
  row ← query "Failed to load setup state" setup_row;
  from_option (store_error "Failed to load setup state") row.

(** [SetupStore::save]. *)
Definition save_setup (message : string) (sf : SetupStateFile) : M unit :=
  run message (set_setup_row (Some sf)).

(** [load_runtime_mode] on the stored text. *)
Definition runtime_mode_of (a : access_settings) : RuntimeMode.t :=
  match fst <$> as_modes a with
  | Some raw => match RuntimeMode.from_str raw with Ok m => m | Err _ => RuntimeMode.Local end
  | None => RuntimeMode.Local
  end.

(** [load_remote_auth_mode] on the stored text. *)
Definition remote_auth_mode_of (a : access_settings) : RemoteAuthMode.t :=
  match snd <$> as_modes a with
  | Some raw => match RemoteAuthMode.from_str raw with Ok m => m | Err _ => RemoteAuthMode.Oidc end
  | None => RemoteAuthMode.Oidc
  end.

Definition load_runtime_mode (message : string) : M RuntimeMode.t :=
  query message (fun d => runtime_mode_of (access d)).

Definition load_remote_auth_mode (message : string) : M RemoteAuthMode.t :=
  query message (fun d => remote_auth_mode_of (access d)).

Definition set_sf_owner (o : option OwnerRecord) (sf : SetupStateFile) : SetupStateFile :=
  {| sf_instance_id := sf_instance_id sf; sf_setup_state := sf_setup_state sf;
     sf_bootstrap_token := sf_bootstrap_token sf; sf_setup_session := sf_setup_session sf;
     sf_oidc_config := sf_oidc_config sf; sf_oidc_secret := sf_oidc_secret sf;
     sf_owner := o; sf_updated_at := sf_updated_at sf |}.

Definition set_sf_session (s : option SetupSessionRecord) (sf : SetupStateFile) : SetupStateFile :=
  {| sf_instance_id := sf_instance_id sf; sf_setup_state := sf_setup_state sf;
     sf_bootstrap_token := sf_bootstrap_token sf; sf_setup_session := s;
     sf_oidc_config := sf_oidc_config sf; sf_oidc_secret := sf_oidc_secret sf;
     sf_owner := sf_owner sf; sf_updated_at := sf_updated_at sf |}.

(** [setup_state] and [updated_at] together. *)
Definition set_sf_state (st : SetupState.t) (now : Z) (sf : SetupStateFile) : SetupStateFile :=
  {| sf_instance_id := sf_instance_id sf; sf_setup_state := st;
     sf_bootstrap_token := sf_bootstrap_token sf; sf_setup_session := sf_setup_session sf;
     sf_oidc_config := sf_oidc_config sf; sf_oidc_secret := sf_oidc_secret sf;
     sf_owner := sf_owner sf; sf_updated_at := now |}.

(** [INSERT INTO users ... ON CONFLICT(email) DO UPDATE]: the owner's row. *)
Definition upsert_owner (id email subject : string) (now : Z) (d : db) : result sqlx_error db :=
  match head (select_users (fun u => String.eqb (u_email u) email) d) with
  | Some (uid, u) =>
      if bool_decide (filter (fun kv : string * user => kv.1 <> uid)
                        (select_users (fun u' => String.eqb (u_oidc_subject u') subject) d) = [])
      then Ok (set_users (<[uid := User (u_email u) subject (Some email) "owner" "active"
                 (u_avatar_url u) (u_invited_by u) (u_created_at u) now]> (users d)) d)
      else Err UniqueViolation
  | None => insert_user id (User email subject (Some email) "owner" "active" None None now now) d
  end.

(** [SELECT id FROM users WHERE lower(email) = lower(?) LIMIT 1]. *)
Definition user_by_email (email : string) (d : db) : option (string * user) :=
  head (select_users (fun u => String.eqb (to_ascii_lowercase (u_email u)) (to_ascii_lowercase email)) d).

(** [UPDATE users SET oidc_subject = ?, status = 'active', ...]: an invited user
    becomes active; the subject stays unique.  [avatar] is what the provider
    says of the picture, when it is written too. *)
Definition activate_user (id subject : string) (avatar : option (option string)) (now : Z) (d : db)
    : result sqlx_error db :=
  if bool_decide (filter (fun kv : string * user => kv.1 <> id)
                    (select_users (fun u => String.eqb (u_oidc_subject u) subject) d) = [])
  then Ok (update_user id (fun u => User (u_email u) subject (u_display_name u) (u_role u) "active"
             (default (u_avatar_url u) avatar) (u_invited_by u) (u_created_at u) now) d)
  else Err UniqueViolation.

(** ** Sign-in ([auth.rs]) *)

Definition AUTO_LOCAL_OWNER_EMAIL : string := "owner@local".

(** The claims of a verified ID token. *)
Record Claims := {
  cl_subject : string;
  cl_email : option string;
  cl_email_verified : option bool;
  cl_picture : option string;
}.

(** [OidcConfig]. *)
Record OidcConfig := {
  cfg_issuer_url : string;
  cfg_client_id : string;
  cfg_client_secret : option string;
}.

(** [LocalLoginResponse] and [OidcCallbackResponse]. *)
Record LoginResponse := {
  lr_session_token : string;
  lr_expires_at : Z;
  lr_email : string;
  lr_oidc_subject : string;
  lr_user_id : string;
  lr_role : string;
  lr_avatar_url : option string;
}.

(** [LocalLoginRequest]. *)
Record LocalLoginRequest := {
  ll_email : option string;
  ll_recovery_capability : option string;
}.

(** [write_audit_log] with its error. *)
Definition try_audit_log (actor_id : option string) (action resource_type : string)
    (resource_id : option string) : ME sqlx_error unit :=
  sql (fun d => (set_audit_logs
    (audit_logs d ++ [AuditLog actor_id action resource_type resource_id]) d, tt)).

(** [require_verified_invitation_email]. *)
Definition require_verified_invitation_email (email_verified : option bool) : M unit :=
  guard (bool_decide (email_verified = Some true))
    (ApiErr 403 "unverified_email" "Identity provider did not verify the invited email address").

Section Login.

Context (hash_token : string -> string) (to_lowercase : string -> string)
        (decrypt : string -> option string).

(** [local_subject_for_email]. *)
Definition local_subject_for_email (email : string) : string :=
  "local::" +:+ to_lowercase (trim email).

(** [trusted_proxy_subject_for_email]. *)
Definition trusted_proxy_subject_for_email (email : string) : string :=
  "trusted-proxy::" +:+ to_lowercase (trim email).

(** The end of every sign-in: a session is created and validated. *)
Definition open_session (user_id token : string) (now : Z) : M SessionInfo :=
  session_token ← map_errM (fun _ => ApiErr 500 "session_error" "Failed to create session")
                    (create_session hash_token user_id DEFAULT_SESSION_TTL token now);
  info ← map_errM (fun _ => ApiErr 500 "session_error" "Failed to validate session")
           (validate_session hash_token session_token now);
  from_option (ApiErr 500 "session_error" "Session created but could not be validated") info.

Definition login_response (token : string) (info : SessionInfo) (uid : string) (u : user)
    (subject : string) (avatar : option string) : LoginResponse :=
  {| lr_session_token := token; lr_expires_at := expires_at info; lr_email := u_email u;
     lr_oidc_subject := subject; lr_user_id := uid; lr_role := u_role u; lr_avatar_url := avatar |}.

(** [oidc_config_from_state_file]. *)
Definition oidc_config_from_state_file (sf : SetupStateFile) : M OidcConfig :=
  oidc ← from_option (ApiErr 409 "oidc_not_configured" "OIDC configuration is missing")
           (sf_oidc_config sf);
  secret ← match sf_oidc_secret sf with
           | Some s =>
               plain ← from_option (ApiErr 500 "decryption_error" "Failed to decrypt OIDC client secret")
                         (decrypt (os_encrypted_client_secret s));
               mret (Some plain)
           | None => mret None
           end;
  mret {| cfg_issuer_url := oc_issuer_url oidc; cfg_client_id := oc_client_id oidc;
          cfg_client_secret := secret |}.

(** [load_oidc_config]. *)
Definition load_oidc_config : M OidcConfig :=
  sf ← load_setup;
  _ ← guard (bool_decide (sf_setup_state sf = SetupState.Ready))
        (ApiErr 409 "setup_incomplete" "Auth endpoints are only available after setup is complete");
  oidc_config_from_state_file sf.

(** [oidc_start]: [redirect_ok] is [validate_redirect_uri] with the allowed
    origins and [discover] what discovery gives, the state value and the
    pending request. *)
Definition oidc_start (redirect_ok : string -> result api_error unit)
    (discover : OidcConfig -> string -> result api_error (string * PendingAuth))
    (redirect_uri : option string) (source : IpAddr.t) (reservation_id : string) (reserved_at : Z)
    : M string :=
  config ← load_oidc_config;
  let redirect_uri := default "http://127.0.0.1:8787/v1/auth/oidc/callback" redirect_uri in
  _ ← (match redirect_ok redirect_uri with Ok _ => mret tt | Err e => throw e end);
  reserved ← Pending.with_pending (Pending.reserve_public reservation_id source reserved_at);
  _ ← (match reserved with Ok _ => mret tt | Err e => throw (Pending.oidc_admission_error e) end);
  match discover config redirect_uri with
  | Ok (state_value, p) =>
      committed ← Pending.with_pending (Pending.commit_public reservation_id state_value p);
      match committed with
      | Ok _ => mret state_value
      | Err e => throw (Pending.oidc_admission_error e)
      end
  | Err e =>
      _ ← Pending.with_pending (fun s => (Pending.cancel_public reservation_id s, tt));
      throw e
  end.

(** The account of the claims: the active user of the subject, whose picture is
    updated, else the invited user of a verified email, who is activated. *)
Definition resolve_oidc_user (c : Claims) (claimed_email : string) (now : Z)
    : M (string * user * option string) :=
  found ← query "Failed to look up user" (fun d =>
    head (select_users (fun u => String.eqb (u_oidc_subject u) (cl_subject c) && active u) d));
  match found with
  | Some (uid, u) =>
      _ ← (if bool_decide (is_Some (cl_picture c)) && negb (bool_decide (cl_picture c = u_avatar_url u))
           then catch (sql (fun d => (update_user uid (fun u =>
                  User (u_email u) (u_oidc_subject u) (u_display_name u) (u_role u) (u_status u)
                    (cl_picture c) (u_invited_by u) (u_created_at u) now) d, tt))) (fun _ => mret tt)
           else mret tt);
      mret (uid, u, match cl_picture c with Some p => Some p | None => u_avatar_url u end)
  | None =>
      _ ← require_verified_invitation_email (cl_email_verified c);
      invited ← query "Failed to look up user" (fun d =>
        head (select_users (fun u =>
          String.eqb (to_ascii_lowercase (u_email u)) (to_ascii_lowercase claimed_email)
          && String.eqb (u_status u) "invited") d));
      match invited with
      | Some (uid, u) =>
          _ ← map_errM (fun _ => store_error "Failed to activate user")
                (checked (activate_user uid (cl_subject c) (Some (cl_picture c)) now));
          _ ← write_audit_log (Some uid) "user_activated" "user" (Some uid);
          mret (uid, u, cl_picture c)
      | None => throw (ApiErr 403 "user_not_found"
          "No user account exists for this identity. Contact an administrator.")
      end
  end.

(** [oidc_callback]; [exchange] is the exchange of the code for verified claims. *)
Definition oidc_callback (exchange : OidcConfig -> PendingAuth -> string -> result api_error Claims)
    (code state token : string) (now : Z) : M LoginResponse :=
  taken ← Pending.with_pending (Pending.remove state);
  p ← from_option (ApiErr 400 "invalid_state"
        "Unknown or expired OIDC state parameter (possible CSRF attempt)") taken;
  _ ← guard (now - pa_created_at p <? Pending.PENDING_AUTH_TTL_SECS)
        (ApiErr 400 "auth_expired" "OIDC authorization request has expired");
  _ ← guard (bool_decide (pa_setup p = None))
        (ApiErr 400 "invalid_state" "OIDC state belongs to a setup flow");
  config ← load_oidc_config;
  claims ← (match exchange config p code with Ok c => mret c | Err e => throw e end);
  claimed_email ← from_option (ApiErr 502 "missing_email"
    "Identity provider did not include an email claim in the ID token") (cl_email claims);
  '(uid, u, avatar) ← resolve_oidc_user claims claimed_email now;
  info ← open_session uid token now;
  mret (login_response token info uid u (cl_subject claims) avatar).

(** [logout]. *)
Definition logout (authorization : option string) (now : Z) : M unit :=
  token ← from_option (ApiErr 401 "missing_auth" "Authorization header required")
            (extract_bearer authorization);
  session ← map_errM (fun _ => ApiErr 500 "session_error" "Session validation failed")
              (validate_session hash_token token now);
  _ ← guard (bool_decide (is_Some session))
        (ApiErr 401 "invalid_session" "Invalid or expired session token");
  _ ← map_errM (fun _ => ApiErr 500 "session_error" "Session revocation failed")
        (revoke_session hash_token token);
  mret tt.

(** [auto_complete_local_setup_if_needed]; [id] is drawn. *)
Definition auto_complete_local_setup_if_needed (sf : SetupStateFile) (id : string) (now : Z) : M unit :=
  if bool_decide (sf_setup_state sf = SetupState.Ready) then mret tt
  else
    let owner_email :=
      match (fun o => to_lowercase (trim (ow_email o))) <$> sf_owner sf with
      | Some e => if is_empty e then AUTO_LOCAL_OWNER_EMAIL else e
      | None => AUTO_LOCAL_OWNER_EMAIL
      end in
    let owner_subject :=
      match sf_owner sf ≫= ow_oidc_subject with
      | Some s => if is_empty (trim s) then local_subject_for_email owner_email else s
      | None => local_subject_for_email owner_email
      end in
    let owner := {| ow_email := owner_email; ow_oidc_subject := Some owner_subject;
                    ow_created_at := default now (ow_created_at <$> sf_owner sf) |} in
    _ ← map_errM (fun _ => store_error "Failed to create local owner")
          (checked (upsert_owner id owner_email owner_subject now));
    found ← query "Failed to load local owner" (user_by_email owner_email);
    '(uid, _) ← from_option (store_error "Failed to load local owner") found;
    _ ← write_audit_log (Some uid) "owner_created_auto_local" "user" (Some uid);
    save_setup "Failed to finalize local setup"
      (set_sf_state SetupState.Ready now (set_sf_session None (set_sf_owner (Some owner) sf))).

(** [audit_recovery_failure]. *)
Definition audit_recovery_failure : M unit :=
  write_audit_log None "local_recovery_login_failed" "local_recovery_capability" None.

(** The response to a capability that is not accepted. *)
Definition consume_error (e : Recovery.ConsumeError) : api_error :=
  match e with
  | Recovery.AccountMismatch =>
      ApiErr 403 "local_recovery_account_mismatch"
        "Recovery capability is not valid for the requested account"
  | _ => ApiErr 403 "local_recovery_capability_invalid"
           "Recovery capability is invalid, expired, or already used"
  end.

Definition clean_email (value : option string) : option string :=
  v ← value; if is_empty (to_lowercase (trim v)) then None else Some (to_lowercase (trim v)).

(** The account a local sign-in without a capability is for: the requested one,
    else the only active user. *)
Definition local_account (requested_email : option string) : M (option (string * user)) :=
  match requested_email with
  | Some e => query "Failed to look up user" (fun d =>
      head (select_users (fun u => String.eqb (to_ascii_lowercase (u_email u)) e && active u) d))
  | None =>
      count ← query "Failed to look up users" (fun d => length (select_users active d));
      _ ← guard (bool_decide (count = 1%nat))
            (ApiErr 400 "email_required" "Specify email when multiple active users exist");
      query "Failed to look up user" (fun d => head (select_users active d))
  end.

(** The account a capability is for, in External Access mode. *)
Definition recovery_account (recovery_capability requested_email : option string) (now : Z)
    : M (string * option (string * user)) :=
  match recovery_capability with
  | None =>
      _ ← audit_recovery_failure;
      throw (ApiErr 403 "local_recovery_capability_required"
        "External Access local recovery requires a capability minted by oore recovery")
  | Some raw =>
      consumed ← Recovery.with_capabilities (Recovery.consume hash_token raw requested_email now);
      match consumed with
      | Err e => _ ← audit_recovery_failure; throw (consume_error e)
      | Ok (capability_id, uid) =>
          row ← query "Failed to look up recovery user" (fun d =>
            u ← users d !! uid; if active u then Some (uid, u) else None);
          mret (capability_id, row)
      end
  end.

(** The account of a local sign-in, with the capability it used. *)
Definition login_account (mode : RuntimeMode.t) (recovery_capability requested_email : option string)
    (now : Z) : M (option string * option (string * user)) :=
  if bool_decide (mode = RuntimeMode.Remote) then
    '(capability_id, row) ← recovery_account recovery_capability requested_email now;
    mret (Some capability_id, row)
  else row ← local_account requested_email; mret (None, row).

(** [local_login] once the account is known: a session, undone when the use of
    a capability cannot be audited. *)
Definition finish_local_login (recovery_id : option string) (row : option (string * user))
    (token : string) (now : Z) : M LoginResponse :=
  '(uid, u) ← from_option (ApiErr 403 "user_not_found" "No active local user found for login") row;
  info ← open_session uid token now;
  _ ← match recovery_id with
      | Some capability_id =>
          catch (try_audit_log (Some uid) "local_recovery_login_succeeded" "local_recovery_capability"
                   (Some capability_id)) (fun r =>
            match r with
            | Ok _ => mret tt
            | Err _ =>
                catch (revoke_session hash_token token) (fun _ =>
                  throw (ApiErr 500 "audit_error" "Failed to complete audited local recovery"))
            end)
      | None => mret tt
      end;
  mret (login_response token info uid u (u_oidc_subject u) (u_avatar_url u)).

(** [local_login]. *)
Definition local_login (effective_ip : IpAddr.t) (req : LocalLoginRequest) (id token : string) (now : Z)
    : M LoginResponse :=
  let requested_email := clean_email (ll_email req) in
  let recovery_capability :=
    v ← ll_recovery_capability req; if is_empty (trim v) then None else Some (trim v) in
  sf ← load_setup;
  mode ← load_runtime_mode "Failed to determine runtime mode";
  _ ← guard (negb (bool_decide (mode = RuntimeMode.Local) && negb (IpAddr.is_loopback effective_ip)))
        (ApiErr 403 "local_login_loopback_required" "Local login is only available from loopback clients");
  _ ← (if bool_decide (sf_setup_state sf = SetupState.Ready) then mret tt
       else
         _ ← guard (bool_decide (mode = RuntimeMode.Local))
               (ApiErr 403 "mode_restricted"
                  "Local login during setup is only available in Local Only mode");
         auto_complete_local_setup_if_needed sf id now);
  '(recovery_id, row) ← login_account mode recovery_capability requested_email now;
  finish_local_login recovery_id row token now.

(** [trusted_proxy_login]. *)
Definition trusted_proxy_login (header_name : string -> option string) (warpgate_env : option string)
    (in_network : string -> IpAddr.t -> bool) (headers : string -> option string)
    (peer_ip : IpAddr.t) (token : string) (now : Z) : M LoginResponse :=
  sf ← load_setup;
  _ ← guard (bool_decide (sf_setup_state sf = SetupState.Ready))
        (ApiErr 409 "setup_incomplete" "Auth endpoints are only available after setup is complete");
  runtime_mode ← load_runtime_mode "Failed to determine runtime mode";
  _ ← guard (bool_decide (runtime_mode = RuntimeMode.Remote))
        (ApiErr 403 "mode_restricted" "Trusted proxy login is only available in External Access mode");
  remote_auth_mode ← load_remote_auth_mode "Failed to determine remote auth mode";
  _ ← guard (bool_decide (remote_auth_mode = RemoteAuthMode.TrustedProxy))
        (ApiErr 403 "mode_restricted" "Trusted proxy login is not enabled for this instance");
  settings ← Proxy.load_effective_trusted_proxy_settings to_lowercase header_name warpgate_env;
  _ ← (if Proxy.is_trusted_proxy_peer in_network peer_ip settings then mret tt
       else
         _ ← write_audit_log None "trusted_proxy_login_blocked_untrusted_peer" "auth" None;
         throw (ApiErr 403 "trusted_proxy_peer_not_allowed"
           "Trusted proxy login requests must come from an allowlisted proxy peer"));
  _ ← Proxy.verify_trusted_proxy_shared_secret decrypt headers settings;
  proxy_email ← Proxy.extract_trusted_proxy_email to_lowercase header_name headers settings;
  let subject := trusted_proxy_subject_for_email proxy_email in
  row ← query "Failed to look up user" (user_by_email proxy_email);
  '(uid, u) ← from_option (ApiErr 403 "user_not_found"
    "No user account exists for this identity. Contact an administrator.") row;
  _ ← guard (negb (String.eqb (u_status u) "disabled"))
        (ApiErr 403 "user_disabled" "This user account is disabled");
  oidc_subject ← (if String.eqb (u_status u) "invited" then
                    _ ← map_errM (fun _ => store_error "Failed to activate user")
                          (checked (activate_user uid subject None now));
                    _ ← write_audit_log (Some uid) "user_activated" "user" (Some uid);
                    mret subject
                  else mret (u_oidc_subject u));
  info ← open_session uid token now;
  _ ← write_audit_log (Some uid) "trusted_proxy_login_succeeded" "auth" (Some uid);
  mret (login_response token info uid u oidc_subject (u_avatar_url u)).

(** [try_mint_capability]: the capability, its id, its account and its end. *)
Definition try_mint_capability (req_email : option string) (ttl_seconds : Z) (id draw : string) (now : Z)
    : ME string (string * string * string * Z) :=
  let failing code {A} (f : db -> A) : ME string A :=
    map_errM (fun _ => code) (sql (fun d => (d, f d))) in
  _ ← guard ((Recovery.LOCAL_RECOVERY_MIN_TTL_SECS <=? ttl_seconds)
             && (ttl_seconds <=? Recovery.LOCAL_RECOVERY_MAX_TTL_SECS)) "invalid_ttl";
  row ← failing "store_error" setup_row;
  sf ← from_option "store_error" row;
  _ ← guard (bool_decide (sf_setup_state sf = SetupState.Ready)) "setup_incomplete";
  runtime_mode ← failing "store_error" (fun d => runtime_mode_of (access d));
  _ ← guard (bool_decide (runtime_mode = RuntimeMode.Remote)) "mode_restricted";
  let requested_email := clean_email req_email in
  _ ← guard (match requested_email with
             | Some e => negb ((256 <? str_len e) || negb (contains_char (byte_of 64) e))
             | None => true
             end) "invalid_email";
  account ← match requested_email with
            | Some e => failing "store_error" (fun d =>
                head (select_users (fun u => String.eqb (to_ascii_lowercase (u_email u)) e && active u) d))
            | None =>
                count ← failing "store_error" (fun d => length (select_users active d));
                _ ← guard (bool_decide (count = 1%nat)) "email_required";
                failing "store_error" (fun d => head (select_users active d))
            end;
  '(uid, u) ← from_option "user_not_found" account;
  minted ← Recovery.with_capabilities (Recovery.mint hash_token uid (u_email u) ttl_seconds id draw now);
  '(raw, capability_id, expires) ← from_option "recovery_capacity_exhausted" minted;
  mret (raw, capability_id, uid, expires).

(** [mint_capability]: the capability, or the code of the error. *)
Definition mint_capability (req_email : option string) (ttl_seconds : Z) (id draw : string) (now : Z)
    : ME string (string * Z) :=
  catch (try_mint_capability req_email ttl_seconds id draw now) (fun r =>
    match r with
    | Ok (raw, capability_id, uid, expires) =>
        catch (try_audit_log (Some uid) "local_recovery_capability_minted" "local_recovery_capability"
                 (Some capability_id)) (fun r =>
          match r with
          | Ok _ => mret (raw, expires)
          | Err _ => _ ← Recovery.clear_capabilities; throw "audit_error"
          end)
    | Err code =>
        _ ← write_audit_log None "local_recovery_capability_mint_failed" "local_recovery_capability" None;
        throw code
    end).

End Login.
