(* ===== verification/Setup.v ===== *)
(** * First-run setup

    The setup handlers of [crates/oored/src/lib.rs] over the row of
    [setup_state], the access settings and the store of sign-ins under way, and
    the parts of [store.rs] that create the row and the owner at start-up.  A
    handler that waits for the identity provider releases the lock of the
    store; it is modelled in the parts that hold it, and as their composition.
    Parsing URLs, discovery, the exchange of the code and encryption are
    parameters. *)

From S2P Require Import Prelude Contract RustStr Db Access Runners Accounts SignIn.

Local Open Scope Z_scope.

Definition SETUP_SESSION_TTL_SECS : Z := 30 * 60.
Definition MAX_BOOTSTRAP_FAILURES : Z := 5.

(** A pure check inside a handler. *)
Definition lift {A} (r : result api_error A) : M A :=
  match r with Ok a => mret a | Err e => throw e end.

(** [BootstrapFailureBudget::record_failure]; [failures] is a [u32]. *)
Definition record_failure (active_token_hash : string) (b : BootstrapFailureBudget)
    : BootstrapFailureBudget * Z :=
  let before := if bool_decide (bf_active_token_hash b = Some active_token_hash) then bf_failures b else 0 in
  let failures := Z.min u32_max (before + 1) in
  ({| bf_active_token_hash := Some active_token_hash; bf_failures := failures |}, failures).

Definition with_budget {E A} (f : BootstrapFailureBudget -> BootstrapFailureBudget * A) : ME E A :=
  in_memory (fun m => let '(b, a) := f (bootstrap_failures m) in
    (Memory (pending_auth m) (recovery_capabilities m) b (webhook_secrets m) (streams m), a)).

(** [BootstrapFailureBudget::clear]. *)
Definition clear_budget {E} : ME E unit :=
  with_budget (fun _ => ({| bf_active_token_hash := None; bf_failures := 0 |}, tt)).

Definition set_sf_token (t : option BootstrapTokenRecord) (sf : SetupStateFile) : SetupStateFile :=
  {| sf_instance_id := sf_instance_id sf; sf_setup_state := sf_setup_state sf;
     sf_bootstrap_token := t; sf_setup_session := sf_setup_session sf;
     sf_oidc_config := sf_oidc_config sf; sf_oidc_secret := sf_oidc_secret sf;
     sf_owner := sf_owner sf; sf_updated_at := sf_updated_at sf |}.

Definition set_sf_oidc (c : option OidcConfigRecord) (s : option OidcSecretRecord) (sf : SetupStateFile)
    : SetupStateFile :=
  {| sf_instance_id := sf_instance_id sf; sf_setup_state := sf_setup_state sf;
     sf_bootstrap_token := sf_bootstrap_token sf; sf_setup_session := sf_setup_session sf;
     sf_oidc_config := c; sf_oidc_secret := s; sf_owner := sf_owner sf; sf_updated_at := sf_updated_at sf |}.

Definition already_configured : api_error :=
  ApiErr 409 "already_configured" "Setup is already complete".

Definition invalid_state (message : string) : api_error := ApiErr 409 "invalid_state" message.

(** [validate_session_hash]: the session's end moves with every use. *)
Definition validate_session_hash (sf : SetupStateFile) (expected_hash : string) (now : Z)
    : result api_error SetupStateFile :=
  match sf_setup_session sf with
  | None => Err (ApiErr 401 "no_session" "No active setup session")
  | Some session =>
      if negb (String.eqb expected_hash (sx_hash session)) then
        Err (ApiErr 401 "invalid_session" "Invalid session token")
      else if sx_expires_at session <? now then
        Err (ApiErr 401 "session_expired" "Setup session has expired")
      else Ok (set_sf_session (Some {| sx_hash := sx_hash session;
                                       sx_expires_at := now + SETUP_SESSION_TTL_SECS |}) sf)
  end.

(** [SetupOidcAuthorization::from_state]. *)
Definition from_state (sf : SetupStateFile) (generation session_hash redirect_uri : string)
    : option SetupOidcAuthorization :=
  oidc ← sf_oidc_config sf;
  Some {| sa_generation := generation; sa_instance_id := sf_instance_id sf;
          sa_session_hash := session_hash; sa_issuer_url := oc_issuer_url oidc;
          sa_client_id := oc_client_id oidc; sa_has_client_secret := oc_has_client_secret oidc;
          sa_authorization_endpoint := oc_authorization_endpoint oidc;
          sa_token_endpoint := oc_token_endpoint oidc;
          sa_userinfo_endpoint := oc_userinfo_endpoint oidc; sa_jwks_uri := oc_jwks_uri oidc;
          sa_configured_at := oc_configured_at oidc;
          sa_encrypted_client_secret := os_encrypted_client_secret <$> sf_oidc_secret sf;
          sa_secret_stored_at := os_stored_at <$> sf_oidc_secret sf;
          sa_redirect_uri := redirect_uri |}.

(** [SetupOidcAuthorization::matches]. *)
Definition matches (a : SetupOidcAuthorization) (sf : SetupStateFile) (generation : string)
    (runtime_mode : RuntimeMode.t) (remote_auth_mode : RemoteAuthMode.t) (redirect_uri : string) : bool :=
  match sf_oidc_config sf with
  | None => false
  | Some oidc =>
      String.eqb (sa_generation a) generation
      && String.eqb (sa_instance_id a) (sf_instance_id sf)
      && bool_decide (runtime_mode = RuntimeMode.Remote)
      && bool_decide (remote_auth_mode = RemoteAuthMode.Oidc)
      && String.eqb (sa_issuer_url a) (oc_issuer_url oidc)
      && String.eqb (sa_client_id a) (oc_client_id oidc)
      && Bool.eqb (sa_has_client_secret a) (oc_has_client_secret oidc)
      && String.eqb (sa_authorization_endpoint a) (oc_authorization_endpoint oidc)
      && String.eqb (sa_token_endpoint a) (oc_token_endpoint oidc)
      && bool_decide (sa_userinfo_endpoint a = oc_userinfo_endpoint oidc)
      && String.eqb (sa_jwks_uri a) (oc_jwks_uri oidc)
      && (sa_configured_at a =? oc_configured_at oidc)
      && bool_decide (sa_encrypted_client_secret a = os_encrypted_client_secret <$> sf_oidc_secret sf)
      && bool_decide (sa_secret_stored_at a = os_stored_at <$> sf_oidc_secret sf)
      && String.eqb (sa_redirect_uri a) redirect_uri
  end.

(** [stale_setup_oidc_error]. *)
Definition stale_setup_oidc_error : api_error :=
  ApiErr 409 "stale_oidc_setup"
    "Setup or OIDC settings changed after sign-in started. Start sign-in again.".

(** [validate_setup_oidc_authorization]. *)
Definition validate_setup_oidc_authorization (sf : SetupStateFile) (a : SetupOidcAuthorization)
    (generation : string) (runtime_mode : RuntimeMode.t) (remote_auth_mode : RemoteAuthMode.t)
    (redirect_uri : string) (now : Z) : result api_error SetupStateFile :=
  if bool_decide (sf_setup_state sf = SetupState.Ready) then Err already_configured
  else if negb (bool_decide (sf_setup_state sf = SetupState.IdpConfigured))
          || bool_decide (is_Some (sf_owner sf)) then
    Err (invalid_state ("Owner OIDC requires idp_configured state without an owner, current: "
                        +:+ SetupState.fmt (sf_setup_state sf)))
  else
    match validate_session_hash sf (sa_session_hash a) now with
    | Err e => Err e
    | Ok sf' =>
        if matches a sf' generation runtime_mode remote_auth_mode redirect_uri
        then Ok sf' else Err stale_setup_oidc_error
    end.

Section Setup.

Context (hash_token : string -> string) (to_lowercase : string -> string)
        (encrypt decrypt : string -> option string).

(** [validate_session] of the setup endpoints. *)
Definition validate_setup_session (sf : SetupStateFile) (authorization : option string) (now : Z)
    : M SetupStateFile :=
  token ← from_option (ApiErr 401 "missing_auth" "Authorization header required")
            (extract_bearer authorization);
  lift (validate_session_hash sf (hash_token token) now).

(** [verify_bootstrap_token]: the session's token and end; [token] is drawn. *)
Definition verify_bootstrap_token (req_token token : string) (now : Z) : M (string * Z) :=
  sf ← load_setup;
  _ ← guard (negb (bool_decide (sf_setup_state sf = SetupState.Ready))) already_configured;
  bt ← from_option (ApiErr 500 "no_bootstrap_token" "No bootstrap token has been generated")
         (sf_bootstrap_token sf);
  _ ← guard (bool_decide (bt_consumed_at bt = None))
        (ApiErr 410 "token_consumed" "Bootstrap token has already been consumed");
  _ ← guard (now <=? bt_expires_at bt) (ApiErr 410 "token_expired" "Bootstrap token has expired");
  if negb (String.eqb (hash_token req_token) (bt_hash bt)) then
    attempts ← with_budget (record_failure (bt_hash bt));
    if MAX_BOOTSTRAP_FAILURES <? attempts then
      throw (ApiErr 429 "too_many_attempts"
        "Too many failed verification attempts. Generate a new bootstrap token.")
    else throw (ApiErr 401 "invalid_token" "Bootstrap token is invalid")
  else
    _ ← clear_budget;
    let expires := now + SETUP_SESSION_TTL_SECS in
    let consumed := {| bt_hash := bt_hash bt; bt_expires_at := bt_expires_at bt;
                       bt_consumed_at := Some now |} in
    let session := {| sx_hash := hash_token token; sx_expires_at := expires |} in
    _ ← save_setup "Failed to save setup state"
          (set_sf_state (sf_setup_state sf) now
             (set_sf_session (Some session) (set_sf_token (Some consumed) sf)));
    mret (token, expires).

Definition invalidate_setup (generation : string) : M unit :=
  Pending.with_pending (fun s => (Pending.invalidate_setup generation s, tt)).

(** [OidcConfigureRequest]. *)
Record OidcConfigureRequest := {
  cr_issuer_url : string;
  cr_client_id : string;
  cr_client_secret : option string;
  cr_clear_client_secret : bool;
}.

(** What [oidc::discover_provider] gives. *)
Record Discovered := {
  dp_issuer : string;
  dp_authorization_endpoint : string;
  dp_token_endpoint : string;
  dp_userinfo_endpoint : option string;
  dp_jwks_uri : string;
}.

(** The checks of [configure_oidc] on the request; [url_ok] is [Url::parse]. *)
Definition check_configure_request (url_ok : string -> bool) (req : OidcConfigureRequest) : M unit :=
  let invalid := ApiErr 400 "invalid_input" in
  let within n s := negb (is_empty s || (n <? str_len s)) in
  _ ← guard (within 2048 (cr_issuer_url req)) (invalid "issuer_url must be between 1 and 2048 characters");
  _ ← guard (url_ok (cr_issuer_url req)) (invalid "issuer_url is not a valid URL");
  _ ← guard (within 256 (cr_client_id req)) (invalid "client_id must be between 1 and 256 characters");
  _ ← guard (match cr_client_secret req with Some s => within 1024 s | None => true end)
        (invalid "client_secret must be between 1 and 1024 characters");
  guard (negb (bool_decide (is_Some (cr_client_secret req)) && cr_clear_client_secret req))
    (invalid "client_secret and clear_client_secret cannot be used together").

(** The state gate and the session of [configure_oidc], read twice. *)
Definition open_configure (authorization : option string) (now : Z) : M SetupStateFile :=
  sf ← load_setup;
  _ ← guard (negb (bool_decide (sf_setup_state sf = SetupState.Ready))) already_configured;
  _ ← guard (bool_decide (sf_setup_state sf ∈ [SetupState.BootstrapPending; SetupState.IdpConfigured]))
        (invalid_state ("OIDC can only be configured in bootstrap_pending or idp_configured state, current: "
                        +:+ SetupState.fmt (sf_setup_state sf)));
  validate_setup_session sf authorization now.

(** [configure_oidc] after discovery; [generation] is drawn. *)
Definition configure_oidc_commit (authorization : option string) (req : OidcConfigureRequest)
    (found : Discovered) (generation : string) (now : Z) : M (option Z) :=
  sf ← open_configure authorization now;
  let changed := match sf_oidc_config sf with
                 | Some c => negb (String.eqb (oc_issuer_url c) (dp_issuer found))
                             || negb (String.eqb (oc_client_id c) (cr_client_id req))
                 | None => false
                 end in
  _ ← guard (negb (changed && bool_decide (cr_client_secret req = None)
                   && negb (cr_clear_client_secret req) && bool_decide (is_Some (sf_oidc_secret sf))))
        (ApiErr 400 "oidc_secret_reentry_required"
           "Re-enter the OIDC client secret or explicitly remove it when changing issuer or client ID");
  secret ← (if cr_clear_client_secret req then mret None
            else match cr_client_secret req with
                 | Some s =>
                     encrypted ← from_option (ApiErr 500 "encryption_error" "Failed to encrypt client secret")
                                   (encrypt s);
                     mret (Some {| os_encrypted_client_secret := encrypted; os_stored_at := now |})
                 | None =>
                     mret (if bool_decide (sf_oidc_config sf = None) then None else sf_oidc_secret sf)
                 end);
  let config := {| oc_issuer_url := dp_issuer found; oc_client_id := cr_client_id req;
                   oc_has_client_secret := bool_decide (is_Some secret);
                   oc_authorization_endpoint := dp_authorization_endpoint found;
                   oc_token_endpoint := dp_token_endpoint found;
                   oc_userinfo_endpoint := dp_userinfo_endpoint found;
                   oc_jwks_uri := dp_jwks_uri found; oc_configured_at := now |} in
  let sf' := set_sf_state SetupState.IdpConfigured now (set_sf_oidc (Some config) secret sf) in
  _ ← save_setup "Failed to save setup state" sf';
  _ ← invalidate_setup generation;
  mret (sx_expires_at <$> sf_setup_session sf').

(** [configure_oidc]. *)
Definition configure_oidc (url_ok : string -> bool) (discover : string -> option Discovered)
    (authorization : option string) (req : OidcConfigureRequest) (generation : string) (now : Z)
    : M (option Z) :=
  _ ← check_configure_request url_ok req;
  _ ← open_configure authorization now;
  found ← from_option (ApiErr 400 "oidc_discovery_failed" "Failed to discover OIDC provider")
            (discover (cr_issuer_url req));
  configure_oidc_commit authorization req found generation now.

(** The remote mode that goes with the requested modes. *)
Definition effective_remote_mode (runtime_mode : RuntimeMode.t) (req : option RemoteAuthMode.t)
    : RemoteAuthMode.t :=
  if bool_decide (runtime_mode = RuntimeMode.Local) then RemoteAuthMode.Oidc
  else default RemoteAuthMode.Oidc req.

Definition set_modes (runtime_mode : RuntimeMode.t) (remote_auth_mode : RemoteAuthMode.t) (d : db) : db :=
  set_access (AccessSettings (Some (RuntimeMode.fmt runtime_mode, RemoteAuthMode.fmt remote_auth_mode))
                (as_trusted_proxy (access d))) d.

(** [setup_preferences]. *)
Definition setup_preferences (authorization : option string) (runtime_mode : RuntimeMode.t)
    (req_remote : option RemoteAuthMode.t) (generation : string) (now : Z) : M (option Z) :=
  sf0 ← load_setup;
  _ ← guard (negb (bool_decide (sf_setup_state sf0 = SetupState.Ready))) already_configured;
  _ ← guard (negb (bool_decide (sf_setup_state sf0 = SetupState.OwnerCreated)))
        (invalid_state "Setup preferences cannot be changed after owner creation");
  sf ← validate_setup_session sf0 authorization now;
  let remote_auth_mode := effective_remote_mode runtime_mode req_remote in
  let leaves_unfinished_oidc :=
    bool_decide (sf_setup_state sf = SetupState.IdpConfigured)
    && (bool_decide (is_Some (sf_oidc_config sf)) || bool_decide (is_Some (sf_oidc_secret sf)))
    && (negb (bool_decide (runtime_mode = RuntimeMode.Remote))
        || negb (bool_decide (remote_auth_mode = RemoteAuthMode.Oidc))) in
  previous ← transaction "Failed to save setup preferences" (
    previous ← query "Failed to determine the current access method" access;
    _ ← run "Failed to save setup preferences" (set_modes runtime_mode remote_auth_mode);
    _ ← run (if leaves_unfinished_oidc then "Failed to replace the unfinished access method"
             else "Failed to save setup preferences") (fun d =>
          set_setup_row ((fun row =>
            let row := set_sf_state (sf_setup_state row) now (set_sf_session (sf_setup_session sf) row) in
            if leaves_unfinished_oidc then set_sf_oidc None None row else row) <$> setup_row d) d);
    mret (Commit previous));
  _ ← (if leaves_unfinished_oidc
          || negb (bool_decide (runtime_mode_of previous = runtime_mode))
          || negb (bool_decide (remote_auth_mode_of previous = remote_auth_mode))
       then invalidate_setup generation else mret tt);
  mret (sx_expires_at <$> sf_setup_session sf).

(** [SetupTrustedProxyConfigureRequest]. *)
Record SetupTrustedProxyConfigureRequest := {
  tq_user_email_header : option string;
  tq_setup_owner_email : option string;
  tq_trusted_proxy_cidrs : list string;
  tq_shared_secret : option string;
}.

(** [normalize_optional_setup_owner_email]. *)
Definition normalize_optional_setup_owner_email (value : option string) : M (option string) :=
  match value with
  | None => mret None
  | Some raw =>
      if is_empty (trim raw) then mret None
      else
        e ← from_option (ApiErr 400 "invalid_input" "setup_owner_email must be a valid email address")
              (Proxy.normalize_email_value to_lowercase (trim raw));
        mret (Some e)
  end.

(** [normalize_requested_trusted_proxy_cidrs]; [canonical_cidr] parses and
    prints an [IpNet]. *)
Definition normalize_requested_trusted_proxy_cidrs (canonical_cidr : string -> option string)
    (values : list string) : M (list string) :=
  for_each (fun value normalized =>
    let trimmed := trim value in
    if is_empty trimmed then mret normalized
    else
      canonical ← from_option (ApiErr 400 "invalid_input" ("invalid trusted proxy CIDR: " +:+ trimmed))
                    (canonical_cidr trimmed);
      mret (if bool_decide (canonical ∈ normalized) then normalized else normalized ++ [canonical]))
    values [].

(** The shared secret of a request, encrypted. *)
Definition encrypt_shared_secret (secret : option string) : M (option string) :=
  match secret with
  | None => mret None
  | Some s =>
      if is_empty (trim s) then mret None
      else if 1024 <? str_len (trim s) then
        throw (ApiErr 400 "invalid_input" "shared_secret must be 1024 characters or fewer")
      else
        e ← from_option (ApiErr 500 "encryption_error" "Failed to save trusted proxy shared secret")
              (encrypt (trim s));
        mret (Some e)
  end.

Definition set_trusted_proxy (row : trusted_proxy_row) (d : db) : db :=
  set_access (AccessSettings (as_modes (access d)) (Some row)) d.

Definition require_proxy_mode (message : string) : M unit :=
  runtime_mode ← load_runtime_mode "Failed to determine runtime mode";
  remote_auth_mode ← load_remote_auth_mode "Failed to determine remote auth mode";
  guard (bool_decide (runtime_mode = RuntimeMode.Remote)
         && bool_decide (remote_auth_mode = RemoteAuthMode.TrustedProxy))
    (ApiErr 403 "mode_restricted" message).

(** [setup_trusted_proxy_configure]. *)
Definition setup_trusted_proxy_configure (header_name : string -> option string)
    (canonical_cidr : string -> option string) (authorization : option string)
    (req : SetupTrustedProxyConfigureRequest) (generation : string) (now : Z) : M (option Z) :=
  sf0 ← load_setup;
  _ ← guard (negb (bool_decide (sf_setup_state sf0 = SetupState.Ready))) already_configured;
  _ ← guard (negb (bool_decide (sf_setup_state sf0 = SetupState.OwnerCreated)))
        (invalid_state "Trusted proxy settings cannot be changed after owner creation");
  sf ← validate_setup_session sf0 authorization now;
  _ ← require_proxy_mode "Trusted proxy setup requires remote runtime with trusted_proxy auth mode";
  let header := default Proxy.DEFAULT_TRUSTED_PROXY_EMAIL_HEADER
                  (tq_user_email_header req ≫= Proxy.normalize_header_name header_name) in
  owner_email ← normalize_optional_setup_owner_email (tq_setup_owner_email req);
  cidrs ← normalize_requested_trusted_proxy_cidrs canonical_cidr (tq_trusted_proxy_cidrs req);
  secret ← encrypt_shared_secret (tq_shared_secret req);
  _ ← run "Failed to save trusted proxy settings" (fun d =>
        set_trusted_proxy (TrustedProxyRow header owner_email cidrs secret
          (as_trusted_proxy (access d) ≫= tp_encrypted_warpgate_ticket) now) d);
  let sf' := set_sf_state SetupState.IdpConfigured now sf in
  _ ← save_setup "Failed to save setup state" sf';
  _ ← invalidate_setup generation;
  mret (sx_expires_at <$> sf_setup_session sf').

(** The owner is recorded: [owner_created]. *)
Definition owned (email subject : string) (now : Z) (sf : SetupStateFile) : SetupStateFile :=
  set_sf_state SetupState.OwnerCreated now (set_sf_owner
    (Some {| ow_email := email; ow_oidc_subject := Some subject; ow_created_at := now |}) sf).

(** [setup_owner_claim_trusted_proxy]. *)
Definition setup_owner_claim_trusted_proxy (header_name : string -> option string)
    (warpgate_env : option string) (in_network : string -> IpAddr.t -> bool)
    (headers : string -> option string) (peer_ip : IpAddr.t) (now : Z) : M (string * option Z) :=
  sf0 ← load_setup;
  _ ← guard (negb (bool_decide (sf_setup_state sf0 = SetupState.Ready))) already_configured;
  _ ← guard (bool_decide (sf_setup_state sf0 = SetupState.IdpConfigured))
        (invalid_state ("Trusted proxy owner claim requires idp_configured state, current: "
                        +:+ SetupState.fmt (sf_setup_state sf0)));
  sf ← validate_setup_session sf0 (headers "authorization") now;
  _ ← require_proxy_mode "Trusted proxy owner claim is only available in remote trusted proxy mode";
  settings ← Proxy.load_effective_trusted_proxy_settings to_lowercase header_name warpgate_env;
  _ ← guard (Proxy.ep_configured settings)
        (ApiErr 409 "trusted_proxy_not_configured"
           "Configure trusted proxy settings before claiming owner identity");
  _ ← guard (Proxy.is_trusted_proxy_peer in_network peer_ip settings)
        (ApiErr 403 "trusted_proxy_peer_not_allowed"
           "Trusted proxy owner claim must come from an allowlisted proxy peer");
  _ ← Proxy.verify_trusted_proxy_shared_secret decrypt headers settings;
  email ← Proxy.extract_trusted_proxy_email to_lowercase header_name headers settings;
  _ ← guard (match Proxy.ep_setup_owner_email settings with
             | Some expected => String.eqb email expected
             | None => true
             end)
        (ApiErr 403 "trusted_proxy_owner_email_mismatch"
           "Trusted proxy identity does not match the configured setup owner email");
  let sf' := owned email (trusted_proxy_subject_for_email to_lowercase email) now sf in
  _ ← save_setup "Failed to save setup state" sf';
  mret (email, sx_expires_at <$> sf_setup_session sf').

(** [load_setup_oidc_modes]. *)
Definition load_setup_oidc_modes : M (RuntimeMode.t * RemoteAuthMode.t) :=
  runtime_mode ← load_runtime_mode "Failed to determine runtime mode";
  remote_auth_mode ← load_remote_auth_mode "Failed to determine remote auth mode";
  mret (runtime_mode, remote_auth_mode).

Definition current_generation : M string :=
  Pending.with_pending (fun s => (s, setup_generation s)).

(** [setup_oidc_start] before discovery: the authorization the request is bound
    to and the provider's settings. *)
Definition setup_oidc_begin (redirect_ok : string -> result api_error unit)
    (authorization : option string) (redirect_uri : string) (now : Z)
    : M (SetupOidcAuthorization * OidcConfig) :=
  _ ← lift (redirect_ok redirect_uri);
  sf0 ← load_setup;
  _ ← guard (negb (bool_decide (sf_setup_state sf0 = SetupState.Ready))) already_configured;
  _ ← guard (bool_decide (sf_setup_state sf0 = SetupState.IdpConfigured))
        (invalid_state ("Owner OIDC can only be started in idp_configured state, current: "
                        +:+ SetupState.fmt (sf_setup_state sf0)));
  sf ← validate_setup_session sf0 authorization now;
  session_hash ← from_option (ApiErr 401 "no_session" "No active setup session")
                   (sx_hash <$> sf_setup_session sf);
  '(runtime_mode, remote_auth_mode) ← load_setup_oidc_modes;
  _ ← guard (bool_decide (runtime_mode = RuntimeMode.Remote)
             && bool_decide (remote_auth_mode = RemoteAuthMode.Oidc))
        (ApiErr 403 "mode_restricted" "OIDC owner setup requires remote runtime with oidc auth mode");
  config ← oidc_config_from_state_file decrypt sf;
  generation ← current_generation;
  a ← from_option (ApiErr 409 "oidc_not_configured" "OIDC configuration is missing")
        (from_state sf generation session_hash redirect_uri);
  _ ← save_setup "Failed to save setup state" sf;
  mret (a, config).

(** The checks that [commit_setup_oidc_pending], [validate_setup_oidc_callback]
    and [commit_setup_oidc_owner] start with: the state file with the session's
    new end. *)
Definition recheck_setup_oidc (redirect_ok : string -> result api_error unit)
    (a : SetupOidcAuthorization) (redirect_uri : string) (now : Z) : M SetupStateFile :=
  _ ← lift (redirect_ok redirect_uri);
  sf ← load_setup;
  '(runtime_mode, remote_auth_mode) ← load_setup_oidc_modes;
  generation ← current_generation;
  lift (validate_setup_oidc_authorization sf a generation runtime_mode remote_auth_mode redirect_uri now).

(** [commit_setup_oidc_pending]. *)
Definition commit_setup_oidc_pending (redirect_ok : string -> result api_error unit)
    (state_value : string) (p : PendingAuth) (now : Z) : M unit :=
  a ← from_option (ApiErr 500 "invalid_setup_authorization" "Failed to bind the OIDC request to setup")
        (pa_setup p);
  sf ← recheck_setup_oidc redirect_ok a (pa_redirect_uri p) now;
  _ ← save_setup "Failed to save setup state" sf;
  inserted ← Pending.with_pending (Pending.insert_setup state_value p (pa_created_at p));
  match inserted with
  | Ok _ => mret tt
  | Err _ => throw (ApiErr 429 "too_many_pending" "Too many pending authentication requests")
  end.

(** [setup_oidc_start]; [discover] is what discovery gives. *)
Definition setup_oidc_start (redirect_ok : string -> result api_error unit)
    (discover : OidcConfig -> result api_error (string * (SetupOidcAuthorization -> PendingAuth)))
    (authorization : option string) (redirect_uri : string) (now : Z) : M string :=
  '(a, config) ← setup_oidc_begin redirect_ok authorization redirect_uri now;
  '(state_value, p) ← lift (discover config);
  _ ← commit_setup_oidc_pending redirect_ok state_value (p a) now;
  mret state_value.

(** [setup_oidc_verify] up to the pending request it takes. *)
Definition setup_oidc_take (state : string) (now : Z) : M (SetupOidcAuthorization * PendingAuth) :=
  sf ← load_setup;
  _ ← guard (negb (bool_decide (sf_setup_state sf = SetupState.Ready))) already_configured;
  taken ← Pending.with_pending (Pending.remove state);
  p ← from_option (ApiErr 400 "invalid_state" "Unknown or expired OIDC state parameter") taken;
  _ ← guard (now - pa_created_at p <? 600)
        (ApiErr 400 "auth_expired" "OIDC authorization request has expired");
  a ← from_option (ApiErr 400 "invalid_state" "OIDC state does not belong to a setup flow") (pa_setup p);
  mret (a, p).

(** [validate_setup_oidc_callback]. *)
Definition validate_setup_oidc_callback (redirect_ok : string -> result api_error unit)
    (a : SetupOidcAuthorization) (redirect_uri : string) (now : Z) : M OidcConfig :=
  sf ← recheck_setup_oidc redirect_ok a redirect_uri now;
  config ← oidc_config_from_state_file decrypt sf;
  _ ← save_setup "Failed to save setup state" sf;
  mret config.

(** [commit_setup_oidc_owner]. *)
Definition commit_setup_oidc_owner (redirect_ok : string -> result api_error unit)
    (a : SetupOidcAuthorization) (redirect_uri email subject generation : string) (now : Z)
    : M (option Z) :=
  sf ← recheck_setup_oidc redirect_ok a redirect_uri now;
  let sf' := owned email subject now sf in
  _ ← save_setup "Failed to save setup state" sf';
  _ ← invalidate_setup generation;
  mret (sx_expires_at <$> sf_setup_session sf').

(** [setup_oidc_verify]; [exchange] gives the verified claims. *)
Definition setup_oidc_verify (redirect_ok : string -> result api_error unit)
    (exchange : OidcConfig -> PendingAuth -> string -> result api_error Claims)
    (code state generation : string) (now : Z) : M (string * string * option Z) :=
  '(a, p) ← setup_oidc_take state now;
  config ← validate_setup_oidc_callback redirect_ok a (pa_redirect_uri p) now;
  claims ← lift (exchange config p code);
  email ← from_option (ApiErr 502 "missing_email" "ID token missing email claim") (cl_email claims);
  expires ← commit_setup_oidc_owner redirect_ok a (pa_redirect_uri p) email (cl_subject claims)
              generation now;
  mret (email, cl_subject claims, expires).

(** [setup_local_owner_create]. *)
Definition setup_local_owner_create (authorization : option string) (req_email : string) (now : Z)
    : M (string * option Z) :=
  sf0 ← load_setup;
  _ ← guard (negb (bool_decide (sf_setup_state sf0 = SetupState.Ready))) already_configured;
  runtime_mode ← load_runtime_mode "Failed to determine runtime mode";
  _ ← guard (bool_decide (runtime_mode = RuntimeMode.Local))
        (ApiErr 403 "mode_restricted" "Local owner setup is only available in local mode");
  _ ← guard (bool_decide (sf_setup_state sf0 ∈ [SetupState.BootstrapPending; SetupState.IdpConfigured]))
        (invalid_state ("Local owner creation requires bootstrap_pending or idp_configured state, current: "
                        +:+ SetupState.fmt (sf_setup_state sf0)));
  sf ← validate_setup_session sf0 authorization now;
  let email := to_lowercase (trim req_email) in
  _ ← guard (negb (is_empty email || negb (contains_char (byte_of 64) email)))
        (ApiErr 400 "invalid_input" "A valid owner email is required");
  let sf' := owned email (local_subject_for_email to_lowercase email) now sf in
  _ ← save_setup "Failed to save setup state" sf';
  mret (email, sx_expires_at <$> sf_setup_session sf').

(** The access method [complete_setup] asks for in External Access mode. *)
Definition require_remote_auth (header_name : string -> option string) (sf : SetupStateFile)
    (runtime_mode : RuntimeMode.t) (remote_auth_mode : RemoteAuthMode.t) : M unit :=
  match runtime_mode, remote_auth_mode with
  | RuntimeMode.Local, _ => mret tt
  | RuntimeMode.Remote, RemoteAuthMode.Oidc =>
      guard (bool_decide (is_Some (sf_oidc_config sf)))
        (ApiErr 409 "remote_auth_not_configured" "Remote OIDC authentication is not configured")
  | RuntimeMode.Remote, RemoteAuthMode.TrustedProxy =>
      row ← query "Failed to load trusted proxy settings" (fun d => as_trusted_proxy (access d));
      row ← from_option (ApiErr 409 "remote_auth_not_configured"
              "Trusted proxy authentication is not configured") row;
      guard (bool_decide (is_Some (Proxy.normalize_header_name header_name (tp_user_email_header row))))
        (ApiErr 409 "trusted_proxy_config_invalid"
           "Trusted proxy email header configuration is invalid")
  end.

(** [complete_setup]; [id] is drawn. *)
Definition complete_setup (header_name : string -> option string) (authorization : option string)
    (id : string) (now : Z) : M string :=
  sf0 ← load_setup;
  _ ← guard (negb (bool_decide (sf_setup_state sf0 = SetupState.Ready))) already_configured;
  _ ← guard (bool_decide (sf_setup_state sf0 = SetupState.OwnerCreated))
        (invalid_state ("Setup can only be completed in owner_created state, current: "
                        +:+ SetupState.fmt (sf_setup_state sf0)));
  sf ← validate_setup_session sf0 authorization now;
  '(runtime_mode, remote_auth_mode) ← load_setup_oidc_modes;
  _ ← require_remote_auth header_name sf runtime_mode remote_auth_mode;
  let owner := (fun o => {| ow_email := ow_email o;
      ow_oidc_subject := Some (default (local_subject_for_email to_lowercase (ow_email o)) (ow_oidc_subject o));
      ow_created_at := ow_created_at o |}) <$> sf_owner sf in
  _ ← match owner with
      | Some o =>
          let subject := default (local_subject_for_email to_lowercase (ow_email o)) (ow_oidc_subject o) in
          _ ← map_errM (fun _ => store_error "Failed to create owner user")
                (checked (upsert_owner id (ow_email o) subject now));
          found ← query "Failed to load owner user" (user_by_email (ow_email o));
          '(uid, _) ← from_option (store_error "Failed to load owner user") found;
          write_audit_log (Some uid) "owner_created" "user" (Some uid)
      | None => mret tt
      end;
  _ ← save_setup "Failed to save setup state"
        (set_sf_state SetupState.Ready now (set_sf_session None (set_sf_owner owner sf)));
  mret (sf_instance_id sf).

(** [setup_summary]. *)
Definition setup_summary (authorization : option string) (now : Z) : M SetupStateFile :=
  sf0 ← load_setup;
  sf ← validate_setup_session sf0 authorization now;
  _ ← save_setup "Failed to save setup state" sf;
  mret sf.

(** [SetupStore::ensure_owner_user], at start-up. *)
Definition ensure_owner_user (id : string) (now : Z) : M unit :=
  sf ← load_setup;
  if negb (bool_decide (sf_setup_state sf = SetupState.Ready)) then mret tt
  else
    count ← query "failed to count users" (fun d => size (users d));
    if (0 <? count)%nat then mret tt
    else
      owner ← from_option (store_error "setup is Ready but no owner record exists") (sf_owner sf);
      let subject := default (local_subject_for_email to_lowercase (ow_email owner)) (ow_oidc_subject owner) in
      _ ← map_errM (fun _ => store_error "failed to backfill owner user")
            (checked (insert_user id (User (ow_email owner) subject (Some (ow_email owner)) "owner" "active"
                        None None now now)));
      map_errM (fun _ => store_error "failed to write audit log")
        (try_audit_log (Some id) "owner_backfilled" "user" (Some id)).

(** [SetupStore::init_if_missing], at start-up. *)
Definition init_if_missing (instance_id : string) (now : Z) : M SetupStateFile :=
  existing ← query "failed to check for existing setup state" setup_row;
  match existing with
  | Some _ => load_setup
  | None =>
      let sf := {| sf_instance_id := instance_id; sf_setup_state := SetupState.BootstrapPending;
                   sf_bootstrap_token := None; sf_setup_session := None; sf_oidc_config := None;
                   sf_oidc_secret := None; sf_owner := None; sf_updated_at := now |} in
      _ ← save_setup "failed to save setup state" sf;
      loaded ← load_setup;
      _ ← guard (String.eqb (sf_instance_id loaded) (sf_instance_id sf))
            (store_error "state round-trip verification failed");
      mret sf
  end.

(** [operator::mint_bootstrap_token], over the local socket: the token, its end
    and the state; [token] is drawn. *)
Definition mint_bootstrap_token (ttl_secs : Z) (token : string) (now : Z)
    : ME string (string * Z * SetupState.t) :=
  let failed (_ : sqlx_error) := "store_error" in
  _ ← guard ((1 <=? ttl_secs) && (ttl_secs <=? 60 * 60))
        "bootstrap token ttl must be between 1 second and 1 hour";
  transaction_with failed (
    row ← map_errM failed (sql (fun d => (d, setup_row d)));
    sf ← from_option "store_error" row;
    _ ← guard (negb (bool_decide (sf_setup_state sf = SetupState.Ready))) "setup is already complete";
    let record := {| bt_hash := hash_token token; bt_expires_at := now + ttl_secs;
                     bt_consumed_at := None |} in
    n ← map_errM failed (sql (fun d =>
      match setup_row d with
      | Some row =>
          if bool_decide (sf_setup_state row = SetupState.Ready) then (d, 0)
          else (set_setup_row (Some (set_sf_state (sf_setup_state row) now
                                       (set_sf_token (Some record) row))) d, 1)
      | None => (d, 0)
      end));
    _ ← guard (n =? 1) "setup state changed";
    mret (Commit (token, now + ttl_secs, sf_setup_state sf))).

(** ** Access settings of a ready instance ([instance_settings.rs]) *)

Context (enforce : string -> string -> string -> bool).

Definition owner_required (auth : SessionInfo) (message : string) : M unit :=
  guard (String.eqb (role auth) "owner") (ApiErr 403 "external_access_owner_required" message).

(** [trim_opt]. *)
Definition trim_opt (value : option string) : option string :=
  v ← value; if is_empty (trim v) then None else Some (trim v).

(** [configure_external_access_oidc] after discovery. *)
Definition external_oidc_commit (auth : SessionInfo) (client_id : string) (client_secret : option string)
    (found : Discovered) (now : Z) : M bool :=
  sf ← load_setup;
  _ ← guard (bool_decide (sf_setup_state sf = SetupState.Ready))
        (invalid_state "External Access OIDC can only be configured after setup is ready");
  let changed := match sf_oidc_config sf with
                 | Some c => negb (String.eqb (oc_issuer_url c) (dp_issuer found))
                             || negb (String.eqb (oc_client_id c) client_id)
                 | None => false
                 end in
  _ ← guard (negb (changed && bool_decide (client_secret = None) && bool_decide (is_Some (sf_oidc_secret sf))))
        (ApiErr 400 "oidc_secret_reentry_required"
           "Re-enter the OIDC client secret when changing issuer or client ID");
  secret ← match client_secret with
           | Some s =>
               encrypted ← from_option (ApiErr 500 "encryption_error" "Failed to encrypt OIDC client secret")
                             (encrypt s);
               mret (Some {| os_encrypted_client_secret := encrypted; os_stored_at := now |})
           | None => mret (sf_oidc_secret sf)
           end;
  let config := {| oc_issuer_url := dp_issuer found; oc_client_id := client_id;
                   oc_has_client_secret := bool_decide (is_Some secret);
                   oc_authorization_endpoint := dp_authorization_endpoint found;
                   oc_token_endpoint := dp_token_endpoint found;
                   oc_userinfo_endpoint := dp_userinfo_endpoint found;
                   oc_jwks_uri := dp_jwks_uri found; oc_configured_at := now |} in
  _ ← save_setup "Failed to update OIDC configuration"
        (set_sf_state (sf_setup_state sf) now (set_sf_oidc (Some config) secret sf));
  _ ← Pending.with_pending (fun s => (Pending.clear s, tt));
  _ ← Recovery.clear_capabilities;
  _ ← write_audit_log (Some (user_id auth)) "external_access_oidc_configured" "instance_settings"
        (Some "external_access");
  mret (oc_has_client_secret config).

(** [configure_external_access_oidc]. *)
Definition configure_external_access_oidc (url_ok : string -> bool) (discover : string -> option Discovered)
    (auth : SessionInfo) (req_issuer_url req_client_id : string) (req_secret : option string) (now : Z)
    : M bool :=
  _ ← check_session_permission enforce auth "instance_settings" "write";
  _ ← owner_required auth "Only the owner can configure External Access OIDC settings";
  let invalid := ApiErr 400 "invalid_input" in
  let within n s := negb (is_empty s || (n <? str_len s)) in
  let issuer_url := trim req_issuer_url in
  _ ← guard (within 2048 issuer_url) (invalid "issuer_url must be between 1 and 2048 characters");
  _ ← guard (url_ok issuer_url) (invalid "issuer_url is not a valid URL");
  let client_id := trim req_client_id in
  _ ← guard (within 256 client_id) (invalid "client_id must be between 1 and 256 characters");
  let client_secret := trim_opt req_secret in
  _ ← guard (match client_secret with Some s => str_len s <=? 1024 | None => true end)
        (invalid "client_secret must be 1024 characters or fewer");
  found ← from_option (ApiErr 400 "oidc_discovery_failed" "Failed to discover OIDC provider")
            (discover issuer_url);
  external_oidc_commit auth client_id client_secret found now.

(** [UpdateInstancePreferencesRequest]; the key storage mode is [file]. *)
Record UpdateInstancePreferencesRequest := {
  up_key_storage_mode : KeyStorageMode.t;
  up_runtime_mode : option RuntimeMode.t;
  up_remote_auth_mode : option RemoteAuthMode.t;
  up_direct_macos_runner_paused : option bool;
}.

(** The conditional upsert of [update_instance_preferences], with the number of
    rows: a column that is sent must still have the value that was read. *)
Definition store_preferences (req : UpdateInstancePreferencesRequest) (old_mode mode : RuntimeMode.t)
    (old_auth auth_mode : RemoteAuthMode.t) (old_paused paused : bool) (d : db) : db * Z :=
  let sent {A} (o : option A) := bool_decide (is_Some o) in
  let store rt ra p :=
    (set_runner_paused p (set_access (AccessSettings (Some (rt, ra)) (as_trusted_proxy (access d))) d), 1) in
  match as_modes (access d) with
  | None => store (RuntimeMode.fmt mode) (RemoteAuthMode.fmt auth_mode) paused
  | Some (rt, ra) =>
      if (negb (sent (up_runtime_mode req)) || String.eqb rt (RuntimeMode.fmt old_mode))
         && (negb (sent (up_remote_auth_mode req)) || String.eqb ra (RemoteAuthMode.fmt old_auth))
         && (negb (sent (up_direct_macos_runner_paused req)) || Bool.eqb (runner_paused d) old_paused)
      then store (if sent (up_runtime_mode req) then RuntimeMode.fmt mode else rt)
             (if sent (up_remote_auth_mode req) then RemoteAuthMode.fmt auth_mode else ra)
             (if sent (up_direct_macos_runner_paused req) then paused else runner_paused d)
      else (d, 0)
  end.

(** [update_instance_preferences].  [preflight] is the evaluation of the
    External Access checks: its failure, or the error of the first check that
    does not pass. *)
Definition update_instance_preferences
    (preflight : RemoteAuthMode.t -> result api_error (option api_error))
    (auth : SessionInfo) (req : UpdateInstancePreferencesRequest) (now : Z)
    : M (RuntimeMode.t * RemoteAuthMode.t * bool) :=
  let failed := "Failed to update instance preferences" in
  let audit action resource := write_audit_log (Some (user_id auth)) action "instance_settings" (Some resource) in
  _ ← check_session_permission enforce auth "instance_settings" "write";
  _ ← guard (bool_decide (up_key_storage_mode req = KeyStorageMode.File))
        (ApiErr 400 "unsupported_key_storage_mode"
           "Keychain mode is disabled in this release. Use file mode.");
  old_mode ← load_runtime_mode failed;
  old_auth ← load_remote_auth_mode failed;
  old_paused ← query failed runner_paused;
  let mode := default old_mode (up_runtime_mode req) in
  let auth_mode := default old_auth (up_remote_auth_mode req) in
  let paused := default old_paused (up_direct_macos_runner_paused req) in
  let mode_changed := negb (bool_decide (mode = old_mode)) in
  let auth_mode_changed := negb (bool_decide (auth_mode = old_auth)) in
  let auth_policy_changed := mode_changed || auth_mode_changed in
  _ ← (if auth_policy_changed
       then owner_required auth "Only the owner can change External Access authentication settings"
       else mret tt);
  _ ← (if bool_decide (mode = RuntimeMode.Remote) && auth_policy_changed then
         blocked ← lift (preflight auth_mode);
         _ ← audit "external_access_preflight_checked" "external_access";
         match blocked with
         | Some e => _ ← audit "external_access_enable_blocked" "external_access"; throw e
         | None => mret tt
         end
       else mret tt);
  n ← exec failed (store_preferences req old_mode mode old_auth auth_mode old_paused paused);
  _ ← guard (n =? 1) (ApiErr 409 "preferences_changed"
        "Instance preferences changed while you were saving. Review the current settings and try again.");
  stored_mode ← load_runtime_mode "Failed to load updated instance preferences";
  stored_auth ← load_remote_auth_mode "Failed to load updated instance preferences";
  stored_paused ← query "Failed to load updated instance preferences" runner_paused;
  _ ← audit "instance_preferences_updated" "preferences";
  _ ← (if negb (Bool.eqb paused old_paused)
       then audit "direct_macos_runner_pause_updated" "direct_macos_runner" else mret tt);
  _ ← (if auth_policy_changed then
         _ ← Recovery.clear_capabilities;
         _ ← map_errM (fun _ => ApiErr 500 "session_error" "Failed to revoke sessions after auth policy change")
               revoke_all_sessions;
         _ ← (if mode_changed then audit "runtime_mode_changed" "preferences" else mret tt);
         _ ← (if auth_mode_changed then audit "remote_auth_mode_changed" "preferences" else mret tt);
         if bool_decide (mode = RuntimeMode.Remote) then audit "external_access_enabled" "external_access"
         else mret tt
       else mret tt);
  mret (stored_mode, stored_auth, stored_paused).

(** The shared secret to store: the one sent, none if blank, else the old one. *)
Definition next_secret (limit : Z) (message failure : string) (sent old : option string) : M (option string) :=
  match sent with
  | Some s =>
      if is_empty (trim s) then mret None
      else if limit <? str_len (trim s) then throw (ApiErr 400 "invalid_input" message)
      else e ← from_option (ApiErr 500 "encryption_error" failure) (encrypt (trim s)); mret (Some e)
  | None => mret old
  end.

(** [update_external_access_trusted_proxy_settings]. *)
Definition update_external_access_trusted_proxy_settings (header_name : string -> option string)
    (canonical_cidr : string -> option string) (warpgate_env : option string) (effective_ip : IpAddr.t)
    (auth : SessionInfo) (req_header : option string) (req_cidrs : list string)
    (req_secret req_ticket : option string) (now : Z) : M Proxy.EffectiveTrustedProxySettings :=
  _ ← check_session_permission enforce auth "instance_settings" "write";
  _ ← owner_required auth "Only the owner can update Trusted Proxy settings";
  runtime_mode ← load_runtime_mode "Failed to determine runtime mode";
  _ ← guard (negb (bool_decide (runtime_mode = RuntimeMode.Local) && negb (IpAddr.is_loopback effective_ip)))
        (ApiErr 403 "external_access_loopback_required"
           "Trusted Proxy settings can only be changed from loopback while in Local Only mode");
  existing ← query "Failed to load existing trusted proxy settings" (fun d => as_trusted_proxy (access d));
  let header := default Proxy.DEFAULT_TRUSTED_PROXY_EMAIL_HEADER
                  (req_header ≫= Proxy.normalize_header_name header_name) in
  cidrs ← normalize_requested_trusted_proxy_cidrs canonical_cidr req_cidrs;
  secret ← next_secret 1024 "shared_secret must be 1024 characters or fewer"
             "Failed to persist trusted proxy shared secret" req_secret
             (existing ≫= tp_encrypted_shared_secret);
  _ ← (if bool_decide (runtime_mode = RuntimeMode.Remote) then
         remote_auth_mode ← load_remote_auth_mode "Failed to determine remote auth mode";
         guard (negb (bool_decide (remote_auth_mode = RemoteAuthMode.TrustedProxy) && bool_decide (secret = None)))
           (ApiErr 400 "trusted_proxy_shared_secret_required"
              "A shared secret is required while Trusted Proxy authentication is active")
       else mret tt);
  ticket ← next_secret Proxy.MAX_WARPGATE_TICKET_LEN "warpgate_ticket must be 1024 characters or fewer"
             "Failed to persist Warpgate install ticket" req_ticket
             (existing ≫= tp_encrypted_warpgate_ticket);
  _ ← run "Failed to update trusted proxy settings" (fun d =>
        set_trusted_proxy (TrustedProxyRow header (as_trusted_proxy (access d) ≫= tp_setup_owner_email)
                             cidrs secret ticket now) d);
  _ ← write_audit_log (Some (user_id auth)) "external_access_trusted_proxy_settings_updated"
        "instance_settings" (Some "external_access");
  settings ← Proxy.load_effective_trusted_proxy_settings to_lowercase header_name warpgate_env;
  _ ← Recovery.clear_capabilities;
  mret settings.

End Setup.
