(* ===== verification/AccountRuns.v ===== *)
(** * What happens to accounts

    Every committed change to users, sessions, API tokens and the setup row, as
    the rules of one step relation, and that every handler of [Accounts],
    [SignIn] and [Setup] is a sequence of such steps, whatever statements
    fail. *)

From stdpp Require Import relations.
From S2P Require Import Prelude Contract RustStr Db Access Runners Environments Accounts SignIn Setup Wp.

Local Open Scope Z_scope.

(** ** Statements *)

Lemma alter_some {A} (f : A -> A) (m : gmap string A) i x :
  m !! i = Some x -> alter f i m = <[i := f x]> m.
Proof.
  intros Hx. apply map_eq. intros j. destruct (decide (i = j)) as [->|Hne].
  - by rewrite lookup_alter_eq, lookup_insert_eq, Hx.
  - by rewrite lookup_alter_ne, lookup_insert_ne.
Qed.

Lemma wp_sql_or {A} code msg (f : db -> db * A) d (Q : result api_error A -> db -> Prop) :
  Q (Err (ApiErr 500 code msg)) d -> Q (Ok (f d).2) (f d).1 -> wp (sql_or code msg f) d Q.
Proof. intros H1 H2. apply wp_map_err, wp_sql; auto. Qed.

Lemma wp_checked (f : db -> result sqlx_error db) d Q :
  (forall e, Q (Err e) d) -> (forall d', f d = Ok d' -> Q (Ok tt) d') -> wp (checked f) d Q.
Proof.
  intros H1 H2. unfold checked. apply wp_bind, wp_sql; [done|]. destruct (f d) eqn:E; cbn.
  - by apply wp_ret, H2.
  - by apply wp_throw.
Qed.

Lemma wp_in_memory {E A} (f : daemon_memory -> daemon_memory * A) d (Q : result E A -> db -> Prop) :
  Q (Ok (f (memory d)).2) (set_memory (f (memory d)).1 d) -> wp (in_memory f) d Q.
Proof.
  intros H w w' r <-. unfold in_memory. destruct (f (memory (w_db w))) as [m a]. by intros [= <- <-].
Qed.

(** A store of the memory, whatever it answers. *)
Lemma wp_with_pending {E A} (f : PendingAuthStore -> PendingAuthStore * A) d (Q : result E A -> db -> Prop) :
  (forall m, Q (Ok (f (pending_auth (memory d))).2) (set_memory m d)) -> wp (Pending.with_pending f) d Q.
Proof.
  intros H. apply wp_in_memory. specialize (H (Memory (f (pending_auth (memory d))).1
    (recovery_capabilities (memory d)) (bootstrap_failures (memory d)) (webhook_secrets (memory d))
    (streams (memory d)))).
  by destruct (f (pending_auth (memory d))).
Qed.

Lemma wp_with_capabilities {E A} (f : Recovery.caps -> Recovery.caps * A) d (Q : result E A -> db -> Prop) :
  (forall m, Q (Ok (f (recovery_capabilities (memory d))).2) (set_memory m d)) ->
  wp (Recovery.with_capabilities f) d Q.
Proof.
  intros H. apply wp_in_memory. specialize (H (Memory (pending_auth (memory d))
    (f (recovery_capabilities (memory d))).1 (bootstrap_failures (memory d)) (webhook_secrets (memory d))
    (streams (memory d)))).
  by destruct (f (recovery_capabilities (memory d))).
Qed.

Lemma wp_with_budget {E A} (f : BootstrapFailureBudget -> BootstrapFailureBudget * A) d
    (Q : result E A -> db -> Prop) :
  (forall m, Q (Ok (f (bootstrap_failures (memory d))).2) (set_memory m d)) -> wp (with_budget f) d Q.
Proof.
  intros H. apply wp_in_memory. specialize (H (Memory (pending_auth (memory d))
    (recovery_capabilities (memory d)) (f (bootstrap_failures (memory d))).1 (webhook_secrets (memory d))
    (streams (memory d)))).
  by destruct (f (bootstrap_failures (memory d))).
Qed.

Lemma wp_lift {A} (x : result api_error A) d (Q : result api_error A -> db -> Prop) :
  Q x d -> wp (lift x) d Q.
Proof. destruct x; [apply wp_ret|apply wp_throw]. Qed.

(** ** Parts of handlers *)

Section Parts.

Context (hash_token : string -> string).


Lemma wp_load_setup d Q :
  (forall e, Q (Err e) d) -> (forall sf, setup_row d = Some sf -> Q (Ok sf) d) -> wp load_setup d Q.
Proof.
  intros H1 H2. unfold load_setup. apply wp_bind, wp_query; [done|]. apply wp_from_option; auto.
Qed.

Lemma wp_load_mode msg d Q :
  (forall e, Q (Err e) d) -> Q (Ok (runtime_mode_of (access d))) d -> wp (load_runtime_mode msg) d Q.
Proof. intros H1 H2. by apply wp_query. Qed.

Lemma wp_load_auth_mode msg d Q :
  (forall e, Q (Err e) d) -> Q (Ok (remote_auth_mode_of (access d))) d -> wp (load_remote_auth_mode msg) d Q.
Proof. intros H1 H2. by apply wp_query. Qed.

Lemma wp_save_setup msg sf d Q :
  (forall e, Q (Err e) d) -> Q (Ok tt) (set_setup_row (Some sf) d) -> wp (save_setup msg sf) d Q.
Proof. intros H1 H2. by apply wp_execute. Qed.

Lemma wp_fetch_user id d Q : (forall r, Q r d) -> wp (fetch_user_by_id id) d Q.
Proof.
  intros H. unfold fetch_user_by_id. apply wp_bind, wp_query; [done|]. by apply wp_from_option.
Qed.

Lemma wp_permission enforce auth resource action d Q :
  (forall e, Q (Err e) d) -> (enforce (role auth) resource action = true -> Q (Ok tt) d) ->
  wp (check_session_permission enforce auth resource action) d Q.
Proof. intros H1 H2. by apply wp_guard. Qed.

Lemma wp_require_owner auth d Q :
  (forall e, Q (Err e) d) -> (role auth = "owner" -> Q (Ok tt) d) -> wp (require_owner auth) d Q.
Proof.
  intros H1 H2. apply wp_guard; [|done]. intros Hr%bool_decide_eq_true.
  apply list_elem_of_singleton in Hr. auto.
Qed.

(** The setup session only moves its own end. *)
Lemma wp_setup_session sf authz now d Q :
  (forall e, Q (Err e) d) ->
  (forall s, Q (Ok (set_sf_session s sf)) d) ->
  wp (validate_setup_session hash_token sf authz now) d Q.
Proof.
  intros H1 H2. unfold validate_setup_session. apply wp_bind, wp_from_option; [|done].
  intros token _. apply wp_lift. unfold validate_session_hash. repeat case_match; auto.
Qed.

Lemma wp_audit_entry actor action kind id d Q :
  (forall e, Q (Err e) d) -> (forall l, Q (Ok tt) (set_audit_logs l d)) ->
  wp (try_audit_log actor action kind id) d Q.
Proof. intros H1 H2. apply wp_sql; [done|apply H2]. Qed.

Lemma wp_open_session uid token now d Q :
  (forall e, Q (Err e) d) ->
  (forall r d', insert_session (hash_token token) (SessionRow uid now (now + DEFAULT_SESSION_TTL)) d = Ok d' ->
     Q r d') ->
  wp (open_session hash_token uid token now) d Q.
Proof.
  intros H1 H2. unfold open_session, create_session, validate_session.
  apply wp_bind, wp_map_err, wp_bind, wp_checked; [intros e; apply H1|]. intros d' Hd'.
  apply wp_ret. cbn. apply wp_bind, wp_map_err, wp_sql; cbn; [intro; by apply H2|].
  apply wp_from_option; intros; by apply H2.
Qed.

Lemma wp_scalar_or {A} (fallback : A) f d Q :
  (forall a, Q (Ok a) d) -> wp (Members.scalar_or fallback f) d Q.
Proof.
  intros H. unfold Members.scalar_or. apply wp_catch, wp_sql; [intros e|]; by apply wp_ret.
Qed.

End Parts.

(** ** Walking handlers *)

(** The rules of [wp_step] and of the parts above. *)
Ltac acc_step :=
  first
  [ wp_step
  | lazymatch goal with
    | |- wp load_setup _ _ => apply wp_load_setup; [intro|intros ? ?]
    | |- wp (load_runtime_mode _) _ _ => apply wp_load_mode; [intro|]
    | |- wp (load_remote_auth_mode _) _ _ => apply wp_load_auth_mode; [intro|]
    | |- wp (save_setup _ _) _ _ => apply wp_save_setup; [intro|]
    | |- wp (fetch_user_by_id _) _ _ => apply wp_fetch_user; intros [?|?]
    | |- wp (check_session_permission _ _ _ _) _ _ => apply wp_permission; intro
    | |- wp (require_owner _) _ _ => apply wp_require_owner; intro
    | |- wp (validate_setup_session _ _ _ _) _ _ => apply wp_setup_session; intro
    | |- wp (try_audit_log _ _ _ _) _ _ => apply wp_audit_entry; intro
    | |- wp (open_session _ _ _ _) _ _ => apply wp_open_session; [intro|intros [?|?] ? ?]
    | |- wp (Members.scalar_or _ _) _ _ => apply wp_scalar_or; intro
    | |- wp (checked _) _ _ => apply wp_checked; [intro|intros ? ?]
    | |- wp (sql_or _ _ _) _ _ => apply wp_sql_or
    | |- wp (Pending.with_pending _) _ _ => apply wp_with_pending; intro
    | |- wp (Recovery.with_capabilities _) _ _ => apply wp_with_capabilities; intro
    | |- wp Recovery.clear_capabilities _ _ => apply wp_with_capabilities; intro
    | |- wp (with_budget _) _ _ => apply wp_with_budget; intro
    | |- wp clear_budget _ _ => apply wp_with_budget; intro
    | |- wp (lift ?x) _ _ => apply wp_lift; destruct x eqn:?
    end ].

Ltac acc_walk := repeat first [progress cbn beta iota match delta [map_err fst snd] | acc_step].

(** ** Steps *)

(** The rows of accounts and of setup are as they were. *)
Definition same_rows (d d' : db) : Prop :=
  users d' = users d /\ sessions d' = sessions d /\ api_tokens d' = api_tokens d /\
  setup_row d' = setup_row d.

(** Only users differ, or only sessions, or only tokens, or only the setup row. *)
Definition only_users (d d' : db) : Prop :=
  sessions d' = sessions d /\ api_tokens d' = api_tokens d /\ setup_row d' = setup_row d.
Definition only_sessions (d d' : db) : Prop :=
  users d' = users d /\ api_tokens d' = api_tokens d /\ setup_row d' = setup_row d.
Definition only_tokens (d d' : db) : Prop :=
  users d' = users d /\ sessions d' = sessions d /\ setup_row d' = setup_row d.
Definition only_setup (d d' : db) : Prop :=
  users d' = users d /\ sessions d' = sessions d /\ api_tokens d' = api_tokens d.

(** Role, status, email and subject decide who may do what. *)
Definition same_identity (u u' : user) : Prop :=
  u_email u' = u_email u /\ u_oidc_subject u' = u_oidc_subject u /\
  u_role u' = u_role u /\ u_status u' = u_status u.

(** A token is used or revoked: whose it is, what it grants and until when
    stays, and it is not un-revoked. *)
Definition token_kept (t t' : api_token) : Prop :=
  at_token_hash t' = at_token_hash t /\ at_created_by t' = at_created_by t /\
  at_role t' = at_role t /\ at_expires_at t' = at_expires_at t /\
  (at_revoked_at t <> None -> at_revoked_at t' <> None).

Definition tokens_kept (d d' : db) : Prop :=
  forall id, option_Forall2 token_kept (api_tokens d !! id) (api_tokens d' !! id).

(** An owner's row. *)
Definition is_owner (email : string) (u : user) : Prop :=
  u_email u = email /\ u_role u = "owner" /\ u_status u = "active".

(** How setup moves on. *)
Inductive setup_move (d : db) (sf sf' : SetupStateFile) : Prop :=
  | sm_stay :
      sf_setup_state sf' = sf_setup_state sf -> sf_owner sf' = sf_owner sf -> setup_move d sf sf'
  | sm_configured :
      sf_setup_state sf ∈ [SetupState.Uninitialized; SetupState.BootstrapPending; SetupState.IdpConfigured] ->
      sf_setup_state sf' = SetupState.IdpConfigured -> sf_owner sf' = sf_owner sf -> setup_move d sf sf'
  | sm_owner o :
      sf_setup_state sf ∈ [SetupState.BootstrapPending; SetupState.IdpConfigured] ->
      sf_setup_state sf' = SetupState.OwnerCreated -> sf_owner sf' = Some o -> setup_move d sf sf'
  | sm_ready o uid u :
      sf_setup_state sf <> SetupState.Ready ->
      sf_setup_state sf' = SetupState.Ready -> sf_owner sf' = Some o ->
      users d !! uid = Some u -> is_owner (ow_email o) u -> setup_move d sf sf'
  | sm_ready_ownerless :
      sf_setup_state sf = SetupState.OwnerCreated -> sf_owner sf = None ->
      sf_setup_state sf' = SetupState.Ready -> sf_owner sf' = None -> setup_move d sf sf'.

(** Setup is still under way. *)
Definition unready (d : db) : Prop :=
  exists sf, setup_row d = Some sf /\ sf_setup_state sf <> SetupState.Ready.

Section Changes.

(** The hash of tokens, and the tokens that may be drawn. *)
Context (hash_token : string -> string) (drawn : string -> Prop).

(** The committed changes. *)
Inductive change (d d' : db) : Prop :=
  | ch_frame : same_rows d d' -> change d d'
  | ch_invite id u :
      only_users d d' -> users d !! id = None -> users d' = <[id := u]> (users d) ->
      assignable (u_role u) = true -> u_status u = "invited" -> change d d'
  | ch_role id u u' :
      only_users d d' -> users d !! id = Some u -> users d' = <[id := u']> (users d) ->
      u_role u <> "owner" -> assignable (u_role u') = true ->
      u_status u' = u_status u -> u_email u' = u_email u -> u_oidc_subject u' = u_oidc_subject u ->
      change d d'
  | ch_disable id u now :
      setup_row d' = setup_row d ->
      users d !! id = Some u -> u_role u <> "owner" ->
      users d' = <[id := set_u_status "disabled" now u]> (users d) ->
      tokens_kept d d' -> (forall tid t, api_tokens d' !! tid = Some t -> at_created_by t = id ->
                             at_revoked_at t <> None) ->
      sessions d' ⊆ sessions d -> (forall h s, sessions d' !! h = Some s -> ss_user_id s <> id) ->
      change d d'
  | ch_enable id u now :
      only_users d d' -> users d !! id = Some u -> u_role u <> "owner" -> u_status u = "disabled" ->
      users d' = <[id := set_u_status "active" now u]> (users d) -> change d d'
  | ch_activate id u u' :
      only_users d d' -> users d !! id = Some u -> u_status u = "invited" ->
      users d' = <[id := u']> (users d) ->
      u_status u' = "active" -> u_role u' = u_role u -> u_email u' = u_email u -> change d d'
  | ch_picture id u u' :
      only_users d d' -> users d !! id = Some u -> users d' = <[id := u']> (users d) ->
      same_identity u u' -> change d d'
  | ch_login token s u :
      only_sessions d d' -> drawn token -> sessions d !! hash_token token = None ->
      users d !! ss_user_id s = Some u -> u_status u <> "disabled" ->
      sessions d' = <[hash_token token := s]> (sessions d) -> change d d'
  | ch_logout :
      only_sessions d d' -> sessions d' ⊆ sessions d -> change d d'
  | ch_token id t token :
      only_tokens d d' -> drawn token -> api_tokens d !! id = None -> at_token_hash t = hash_token token ->
      valid_role (at_role t) = true ->
      api_tokens d' = <[id := t]> (api_tokens d) -> change d d'
  | ch_tokens : only_tokens d d' -> tokens_kept d d' -> change d d'
  | ch_setup sf sf' :
      only_setup d d' -> setup_row d = Some sf -> setup_row d' = Some sf' ->
      sf_instance_id sf' = sf_instance_id sf -> setup_move d sf sf' -> change d d'
  | ch_setup_new sf' :
      only_setup d d' -> setup_row d = None -> setup_row d' = Some sf' ->
      sf_setup_state sf' = SetupState.BootstrapPending -> sf_owner sf' = None -> change d d'
  | ch_owner uid u email :
      only_users d d' -> unready d -> users d' = <[uid := u]> (users d) -> is_owner email u ->
      (forall u0, users d !! uid = Some u0 -> u_email u0 = email) -> change d d'
  | ch_backfill uid u :
      only_users d d' -> users d = ∅ -> users d' = {[uid := u]} -> is_owner (u_email u) u -> change d d'.

(** [m] is a sequence of changes, however it ends. *)
Definition Changes {E A} (m : ME E A) : Prop := forall d, wp m d (fun _ d' => rtc change d d').

Lemma changes_frame d d1 d2 : rtc change d d1 -> same_rows d1 d2 -> rtc change d d2.
Proof. intros H Hs. eapply rtc_r; [done|by apply ch_frame]. Qed.

(** ** Statements as changes *)

Lemma insert_user_inv id u d d' :
  insert_user id u d = Ok d' -> users d !! id = None /\ d' = set_users (<[id := u]> (users d)) d.
Proof. unfold insert_user. intros H. repeat case_match; by simplify_eq. Qed.

Lemma change_invite id u d d' :
  insert_user id u d = Ok d' -> assignable (u_role u) = true -> u_status u = "invited" -> change d d'.
Proof. intros [Hn ->]%insert_user_inv Ha Hs. by eapply ch_invite. Qed.

Lemma update_user_some id f d u :
  users d !! id = Some u -> update_user id f d = set_users (<[id := f u]> (users d)) d.
Proof. intros Hu. unfold update_user. by rewrite (alter_some _ _ _ _ Hu). Qed.

Lemma insert_session_inv h s d d' :
  insert_session h s d = Ok d' ->
  sessions d !! h = None /\ is_Some (users d !! ss_user_id s) /\
  d' = set_sessions (<[h := s]> (sessions d)) d.
Proof. unfold insert_session. intros H. repeat case_match; simplify_eq; eauto. Qed.

Lemma insert_api_token_inv id t d d' :
  insert_api_token id t d = Ok d' ->
  api_tokens d !! id = None /\ is_Some (users d !! at_created_by t) /\
  d' = set_api_tokens (<[id := t]> (api_tokens d)) d.
Proof. unfold insert_api_token. intros H. repeat case_match; simplify_eq; eauto. Qed.

Lemma token_kept_last_used now t : token_kept t (set_last_used now t).
Proof. by split_and!. Qed.

Lemma token_kept_revoked now t : token_kept t (set_revoked now t).
Proof. by split_and!. Qed.

Lemma token_kept_refl t : token_kept t t.
Proof. by split_and!. Qed.

Lemma update_tokens_kept p f d : (forall t, token_kept t (f t)) -> tokens_kept d (update_tokens p f d).
Proof.
  intros Hf id. cbn. rewrite map_lookup_imap. destruct (api_tokens d !! id) as [t|]; cbn; constructor.
  destruct (p id t); [apply Hf|apply token_kept_refl].
Qed.

Lemma change_tokens p f d : (forall t, token_kept t (f t)) -> change d (update_tokens p f d).
Proof. intros Hf. apply ch_tokens; [done|by apply update_tokens_kept]. Qed.

Lemma change_logout p d : change d (delete_sessions p d).1.
Proof. apply ch_logout; [done|]. apply map_filter_subseteq. Qed.

Lemma upsert_owner_inv id email subject now d d' :
  upsert_owner id email subject now d = Ok d' ->
  exists uid u, d' = set_users (<[uid := u]> (users d)) d /\ is_owner email u /\
    forall u0, users d !! uid = Some u0 -> u_email u0 = email.
Proof.
  unfold upsert_owner. destruct (head _) as [[uid u]|] eqn:Eh.
  - apply head_Some_elem_of in Eh. unfold select_users in Eh.
    apply list_elem_of_filter in Eh as [He Hu]. apply elem_of_map_to_list in Hu. cbn in *.
    apply String.eqb_eq in He. case_bool_decide; [|done]. intros [= <-].
    eexists uid, _. split_and!; [done|by split_and!|]. intros u0 Hu0. congruence.
  - intros [Hn ->]%insert_user_inv. eexists id, _. split_and!; [done|by split_and!|]. congruence.
Qed.

Lemma change_owner id email subject now d d' :
  upsert_owner id email subject now d = Ok d' -> unready d -> change d d'.
Proof. intros (uid & u & -> & Ho & Hu)%upsert_owner_inv Hd. by eapply ch_owner. Qed.

(** ** Handlers as changes *)

(** Reads and the audit log are no change. *)
Ltac acc_frame :=
  repeat match goal with
  | |- rtc _ ?d ?d => reflexivity
  | |- rtc _ _ (fst (_, _)) => cbn [fst]
  | |- rtc _ _ (set_audit_logs _ ?d1) => apply (changes_frame _ d1); [|done]
  | |- rtc _ _ (set_memory _ ?d1) => apply (changes_frame _ d1); [|done]
  | |- rtc _ _ (set_access _ ?d1) => apply (changes_frame _ d1); [|done]
  | |- rtc _ _ (set_members _ ?d1) => apply (changes_frame _ d1); [|done]
  | |- rtc _ _ (set_runner_paused _ ?d1) => apply (changes_frame _ d1); [|done]
  | |- rtc _ _ (set_environment_approvers _ ?d1) => apply (changes_frame _ d1); [|done]
  end.

Lemma not_owner_role d target a :
  u_role <$> users d !! target = Some a -> negb (String.eqb a "owner") = true ->
  exists u, users d !! target = Some u /\ u_role u = a /\ u_role u <> "owner".
Proof.
  intros (u & Hu & ->)%fmap_Some Hn%negb_true_iff%String.eqb_neq. eauto.
Qed.

Lemma change_disable target u now d :
  users d !! target = Some u -> u_role u <> "owner" ->
  change d (delete_sessions (fun _ s => String.eqb (ss_user_id s) target)
    (update_tokens (fun _ t => String.eqb (at_created_by t) target && bool_decide (at_revoked_at t = None))
       (set_revoked now) (update_user target (set_u_status "disabled" now) d))).1.
Proof.
  intros Hu Ho. eapply (ch_disable d _ target u now); cbn; [done|done|done|by rewrite (alter_some _ _ _ _ Hu)|..].
  - apply (update_tokens_kept _ _ d), token_kept_revoked.
  - intros tid t. rewrite map_lookup_imap. destruct (api_tokens d !! tid) as [t0|]; [|done].
    cbn. intros [= <-]. destruct (String.eqb_spec (at_created_by t0) target); cbn; [|done].
    by case_bool_decide.
  - apply map_filter_subseteq.
  - intros h s [Hs Hf]%map_lookup_filter_Some. cbn in Hf. by apply String.eqb_neq in Hf.
Qed.

Lemma changes_delete_user enforce auth target now : Changes (delete_user enforce auth target now).
Proof.
  intros d. unfold delete_user. acc_walk; acc_frame; apply rtc_once;
    (edestruct not_owner_role as (u & Hu & _ & Ho); [done|done|]); by eapply change_disable.
Qed.

Lemma changes_update_user_role enforce auth target req_role now :
  Changes (update_user_role enforce auth target req_role now).
Proof.
  intros d. unfold update_user_role. acc_walk; acc_frame; apply rtc_once;
    (edestruct not_owner_role as (u & Hu & _ & Ho); [done|done|]);
    rewrite (update_user_some _ _ _ _ Hu); by eapply ch_role.
Qed.

Lemma changes_re_enable_user enforce auth target now : Changes (re_enable_user enforce auth target now).
Proof.
  intros d. unfold re_enable_user. acc_walk; acc_frame; apply rtc_once;
    (match goal with H : users d !! target = Some ?u |- _ => rewrite (update_user_some _ _ _ _ H) end);
    (eapply ch_enable; [done|done| | |done]);
    first [by apply String.eqb_neq, negb_true_iff|by apply String.eqb_eq].
Qed.

Lemma changes_invite_user enforce auth req_email req_role id now :
  Changes (invite_user enforce auth req_email req_role id now).
Proof.
  intros d. unfold invite_user. acc_walk; acc_frame.
  eapply rtc_once, change_invite; [eassumption|done|done].
Qed.

Lemma changes_create_token enforce auth name req_role expires id token now :
  drawn token ->
  Changes (create_api_token_handler hash_token enforce auth name req_role expires id token now).
Proof.
  intros Hd d. unfold create_api_token_handler, create_api_token. acc_walk; acc_frame.
  match goal with H : insert_api_token _ _ _ = Ok _ |- _ =>
    apply insert_api_token_inv in H as (Hn & _ & ->) end.
  eapply rtc_once, (ch_token _ _ id); [done|exact Hd|exact Hn| | |reflexivity]; done.
Qed.

Lemma changes_revoke_token enforce auth token_id now :
  Changes (revoke_api_token_handler enforce auth token_id now).
Proof.
  intros d. unfold revoke_api_token_handler. acc_walk; acc_frame.
  apply rtc_once, change_tokens, token_kept_revoked.
Qed.

Lemma changes_authenticate authz now : Changes (from_request_parts hash_token authz now).
Proof.
  intros d. unfold from_request_parts, validate_session, validate_api_token, validate_api_token_hash,
    update_last_used. acc_walk; acc_frame. apply rtc_once, change_tokens, token_kept_last_used.
Qed.

Lemma changes_logout authz now : Changes (logout hash_token authz now).
Proof.
  intros d. unfold logout, validate_session, revoke_session. acc_walk; acc_frame.
  apply rtc_once, change_logout.
Qed.

Lemma changes_revoke_user_sessions uid : Changes (revoke_user_sessions uid).
Proof. intros d. unfold revoke_user_sessions. acc_walk; acc_frame. apply rtc_once, change_logout. Qed.

Lemma changes_cleanup_expired now : Changes (cleanup_expired now).
Proof. intros d. unfold cleanup_expired. acc_walk; acc_frame. apply rtc_once, change_logout. Qed.

(** ** Members *)

Lemma changes_add_member auth pid uid r : Changes (Members.add_project_member auth pid uid r).
Proof.
  intros d. unfold Members.add_project_member, Members.require_manage_members, Members.qa_viewer_rule.
  acc_walk; acc_frame. unfold Members.insert_member in *. repeat case_match; simplify_eq; acc_frame.
Qed.

Lemma changes_update_member auth pid uid r : Changes (Members.update_project_member auth pid uid r).
Proof.
  intros d. unfold Members.update_project_member, Members.require_manage_members, Members.qa_viewer_rule,
    Members.keep_last_maintainer, forget_approver.
  acc_walk; acc_frame; repeat case_match; simplify_eq; acc_frame.
Qed.

Lemma changes_remove_member auth pid uid : Changes (Members.remove_project_member auth pid uid).
Proof.
  intros d. unfold Members.remove_project_member, Members.require_manage_members,
    Members.keep_last_maintainer, forget_approver.
  acc_walk; acc_frame; repeat case_match; simplify_eq; acc_frame.
Qed.

(** ** Sign-in *)

Lemma head_select p d uid u :
  head (select_users p d) = Some (uid, u) -> users d !! uid = Some u /\ p u = true.
Proof.
  intros [H Hu]%head_Some_elem_of%list_elem_of_filter. by apply elem_of_map_to_list in Hu.
Qed.

Lemma change_login uid token now ttl d d' u :
  insert_session (hash_token token) (SessionRow uid now ttl) d = Ok d' -> drawn token ->
  users d !! uid = Some u -> u_status u <> "disabled" -> change d d'.
Proof.
  intros (Hn & _ & ->)%insert_session_inv Hd Hu Hs. by eapply (ch_login _ _ token (SessionRow uid now ttl)).
Qed.

Lemma activate_user_inv id subject avatar now d d' u :
  activate_user id subject avatar now d = Ok d' -> users d !! id = Some u -> u_status u = "invited" ->
  change d d' /\ exists u', users d' !! id = Some u' /\ u_status u' = "active".
Proof.
  unfold activate_user. case_bool_decide; [|done]. intros [= <-] Hu Hs.
  rewrite (update_user_some _ _ _ _ Hu). split.
  - by eapply (ch_activate _ _ id u).
  - cbn. rewrite lookup_insert_eq. eauto.
Qed.

Lemma wp_resolve_oidc_user c e now d Q :
  (forall x d', rtc change d d' -> Q (Err x) d') ->
  (forall uid u a d' u', rtc change d d' -> users d' !! uid = Some u' -> u_status u' = "active" ->
     Q (Ok (uid, u, a)) d') ->
  wp (resolve_oidc_user c e now) d Q.
Proof.
  intros H1 H2. unfold resolve_oidc_user, require_verified_invitation_email. acc_walk;
    repeat match goal with
    | H : head (select_users _ _) = Some (_, _) |- _ => apply head_select in H as [Hu Hp]
    | H : _ && _ = true |- _ => apply andb_true_iff in H as [? ?]
    | H : active _ = true |- _ => apply String.eqb_eq in H
    | H : String.eqb _ _ = true |- _ => apply String.eqb_eq in H
    end; try (apply H1; acc_frame; done).
  - eapply (H2 _ _ _ _ u); [reflexivity|done|done].
  - rewrite (update_user_some _ _ _ _ Hu). eapply H2.
    + by eapply rtc_once, (ch_picture _ _ s).
    + cbn. apply lookup_insert_eq.
    + done.
  - eapply (H2 _ _ _ _ u); [reflexivity|done|done].
  - destruct (activate_user_inv _ _ _ _ _ _ _ ltac:(eassumption) Hu ltac:(done)) as (Hc & u' & Hu' & Hs').
    eapply (H2 _ _ _ _ u'); [|done|done]. acc_frame. by apply rtc_once.
Qed.

Lemma change_save sf sf' d :
  setup_row d = Some sf -> sf_instance_id sf' = sf_instance_id sf -> setup_move d sf sf' ->
  change d (set_setup_row (Some sf') d).
Proof. intros. by eapply ch_setup. Qed.

Lemma changes_save sf sf' d d1 :
  rtc change d d1 -> setup_row d1 = Some sf -> sf_instance_id sf' = sf_instance_id sf ->
  setup_move d1 sf sf' -> rtc change d (set_setup_row (Some sf') d1).
Proof. intros H ???. eapply rtc_r; [exact H|]. by eapply change_save. Qed.

Lemma wp_oidc_config decrypt sf d Q : (forall r, Q r d) -> wp (oidc_config_from_state_file decrypt sf) d Q.
Proof. intros H. unfold oidc_config_from_state_file. acc_walk; apply H. Qed.

Lemma wp_load_oidc_config decrypt d Q : (forall r, Q r d) -> wp (load_oidc_config decrypt) d Q.
Proof.
  intros H. unfold load_oidc_config. acc_walk; try apply H. by apply wp_oidc_config.
Qed.

Lemma wp_proxy_settings to_lowercase header_name env d Q :
  (forall r, Q r d) -> wp (Proxy.load_effective_trusted_proxy_settings to_lowercase header_name env) d Q.
Proof. intros H. unfold Proxy.load_effective_trusted_proxy_settings. acc_walk; apply H. Qed.

Lemma wp_shared_secret decrypt headers s d Q :
  (forall r, Q r d) -> wp (Proxy.verify_trusted_proxy_shared_secret decrypt headers s) d Q.
Proof. intros H. unfold Proxy.verify_trusted_proxy_shared_secret. acc_walk; apply H. Qed.

Lemma wp_proxy_email to_lowercase header_name headers s d Q :
  (forall r, Q r d) -> wp (Proxy.extract_trusted_proxy_email to_lowercase header_name headers s) d Q.
Proof. intros H. unfold Proxy.extract_trusted_proxy_email. acc_walk; apply H. Qed.

(** Reads of settings. *)
Ltac acc_read :=
  lazymatch goal with
  | |- wp (oidc_config_from_state_file _ _) _ _ => apply wp_oidc_config; intros [?|?]
  | |- wp (load_oidc_config _) _ _ => apply wp_load_oidc_config; intros [?|?]
  | |- wp (Proxy.load_effective_trusted_proxy_settings _ _ _) _ _ => apply wp_proxy_settings; intros [?|?]
  | |- wp (Proxy.verify_trusted_proxy_shared_secret _ _ _) _ _ => apply wp_shared_secret; intros [?|?]
  | |- wp (Proxy.extract_trusted_proxy_email _ _ _ _) _ _ => apply wp_proxy_email; intros [?|?]
  end.

Ltac acc_walk_all := repeat first [progress acc_walk | acc_read].

Lemma changes_oidc_start decrypt redirect_ok discover uri source rid at_ :
  Changes (oidc_start decrypt redirect_ok discover uri source rid at_).
Proof. intros d. unfold oidc_start. acc_walk_all; acc_frame. Qed.

Lemma changes_oidc_callback decrypt exchange code state token now :
  drawn token -> Changes (oidc_callback hash_token decrypt exchange code state token now).
Proof.
  intros Ht d. unfold oidc_callback. acc_walk_all; acc_frame.
  apply wp_resolve_oidc_user.
  - intros x d' Hx. etrans; [apply rtc_once, (ch_frame d (set_memory m d)); done|done].
  - intros uid u av d' u' Hx Hu' Hs'.
    assert (Hc : rtc change d d') by (etrans; [apply rtc_once, (ch_frame d (set_memory m d)); done|done]).
    acc_walk; [done| |]; (eapply rtc_r; [exact Hc|]);
      (eapply change_login; [eassumption|done|exact Hu'|by rewrite Hs']).
Qed.

Lemma wp_auto_complete to_lowercase sf id now d Q :
  setup_row d = Some sf -> (forall r d', rtc change d d' -> Q r d') ->
  wp (auto_complete_local_setup_if_needed to_lowercase sf id now) d Q.
Proof.
  intros Hsf H. unfold auto_complete_local_setup_if_needed. cbv zeta. case_bool_decide as Hr.
  { apply wp_ret, H. reflexivity. }
  set (owner_email := match _ with Some e => _ | None => _ end).
  set (owner_subject := match _ with Some s => _ | None => _ end). clearbody owner_email owner_subject.
  assert (Hun : unready d) by (by exists sf).
  acc_walk; apply H; acc_frame; try done;
    (match goal with Hu : upsert_owner _ _ _ _ _ = Ok ?d1 |- _ =>
       assert (Hc : rtc change d d1) by (eapply rtc_once, change_owner; [exact Hu|done]);
       apply upsert_owner_inv in Hu as (oid & ou & -> & Ho & _) end); acc_frame; try done.
  eapply changes_save; [acc_frame; exact Hc|exact Hsf|done|]. eapply (sm_ready _ _ _ _ oid ou); [done|done|done| |exact Ho].
  apply lookup_insert_eq.
Qed.


Lemma wp_local_account e d Q :
  (forall x, Q (Err x) d) ->
  (forall row, (forall uid u, row = Some (uid, u) -> users d !! uid = Some u /\ active u = true) -> Q (Ok row) d) ->
  wp (local_account e) d Q.
Proof.
  intros H1 H2. unfold local_account. acc_walk; try apply H1; apply H2;
    intros uid u Hh; apply head_select in Hh as [Hu Hp]; split; try done.
  by apply andb_true_iff in Hp as [_ Hp].
Qed.

Lemma wp_recovery_account cap e now d Q :
  (forall x d', same_rows d d' -> Q (Err x) d') ->
  (forall cid row d', same_rows d d' ->
     (forall uid u, row = Some (uid, u) -> users d' !! uid = Some u /\ active u = true) -> Q (Ok (cid, row)) d') ->
  wp (recovery_account hash_token cap e now) d Q.
Proof.
  intros H1 H2. unfold recovery_account, audit_recovery_failure.
  acc_walk; try (apply H1; done). apply H2; [done|].
  intros uid u (u0 & Hu0 & Hr)%bind_Some. destruct (active u0) eqn:Ea; by simplify_eq.
Qed.

Lemma active_not_disabled u : active u = true -> u_status u <> "disabled".
Proof. intros H%String.eqb_eq. by rewrite H. Qed.

Lemma wp_finish_local_login rid row token now d d1 :
  drawn token -> rtc change d d1 ->
  (forall uid u, row = Some (uid, u) -> users d1 !! uid = Some u /\ active u = true) ->
  wp (finish_local_login hash_token rid row token now) d1 (fun _ d' => rtc change d d').
Proof.
  intros Ht Hc Hrow. unfold finish_local_login, revoke_session.
  acc_walk; acc_frame; try done;
    (destruct (Hrow _ _ ltac:(done)) as [Hu Ha%active_not_disabled]);
    (match goal with H : insert_session _ _ _ = Ok ?d2 |- _ =>
       assert (rtc change d d2) by (eapply rtc_r; [exact Hc|eapply change_login; [exact H|done|exact Hu|done]])
     end); try done.
  eapply rtc_r; [eassumption|apply change_logout].
Qed.

Lemma wp_login_account mode cap e now d Q :
  (forall x d', same_rows d d' -> Q (Err x) d') ->
  (forall rid row d', same_rows d d' ->
     (forall uid u, row = Some (uid, u) -> users d' !! uid = Some u /\ active u = true) -> Q (Ok (rid, row)) d') ->
  wp (login_account hash_token mode cap e now) d Q.
Proof.
  intros H1 H2. unfold login_account. case_bool_decide; apply wp_bind.
  - apply wp_recovery_account; [done|]. intros cid row d' Hd Hrow. apply wp_ret. by apply H2.
  - apply wp_local_account; [intros; by apply H1|]. intros row Hrow. apply wp_ret. by apply H2.
Qed.

Lemma changes_local_login to_lowercase ip req id token now :
  drawn token -> Changes (local_login hash_token to_lowercase ip req id token now).
Proof.
  intros Ht d. unfold local_login. cbv zeta.
  do 2 (apply wp_bind; acc_step; [reflexivity|]). apply wp_bind. acc_step; [|reflexivity].
  apply wp_bind, (wp_mono _ _ (fun _ d' => rtc change d d')).
  { acc_walk; acc_frame. apply wp_auto_complete; [done|auto]. }
  intros [[]|x] d1 Hd1; [|done]. apply wp_bind, wp_login_account.
  - intros y d2 Hd2. by eapply changes_frame.
  - intros rid row d2 Hd2 Hrow. apply wp_finish_local_login; [done|by eapply changes_frame|done].
Qed.

Lemma changes_trusted_proxy_login to_lowercase decrypt header_name env in_network headers ip token now :
  drawn token ->
  Changes (trusted_proxy_login hash_token to_lowercase decrypt header_name env in_network headers ip token now).
Proof.
  intros Ht d. unfold trusted_proxy_login. acc_walk_all; acc_frame;
    (match goal with H : user_by_email _ _ = Some (_, _) |- _ => apply head_select in H as [Hu _] end);
    try match goal with
    | H : String.eqb _ "invited" = true, Hi : activate_user _ _ _ _ _ = Ok _ |- _ =>
        apply String.eqb_eq in H; destruct (activate_user_inv _ _ _ _ _ _ _ Hi Hu H) as (Hc & u' & Hu' & Hs');
        apply rtc_once in Hc
    end.
  1: exact Hc.
  1,2: eapply rtc_r; [apply (changes_frame d d' (set_audit_logs l d')); [exact Hc|done]|];
    eapply change_login; [eassumption|done|exact Hu'|by rewrite Hs'].
  1,2: eapply rtc_once, change_login; [eassumption|done|exact Hu|];
    by apply String.eqb_neq, negb_true_iff.
Qed.

Lemma changes_mint_capability to_lowercase email ttl id draw now :
  Changes (mint_capability hash_token to_lowercase email ttl id draw now).
Proof. intros d. unfold mint_capability, try_mint_capability. cbv zeta. acc_walk; acc_frame. Qed.

(** ** Setup *)

(** A save with the state and the owner as they were. *)
Lemma changes_stay sf sf' d d1 :
  rtc change d d1 -> setup_row d1 = Some sf -> sf_instance_id sf' = sf_instance_id sf ->
  sf_setup_state sf' = sf_setup_state sf -> sf_owner sf' = sf_owner sf ->
  rtc change d (set_setup_row (Some sf') d1).
Proof. intros. eapply changes_save; [done|done|done|]. by apply sm_stay. Qed.

Ltac acc_stay := acc_frame; eapply changes_stay; [acc_frame|eassumption|reflexivity|reflexivity|reflexivity].

Lemma changes_verify_bootstrap req_token token now : Changes (verify_bootstrap_token hash_token req_token token now).
Proof. intros d. unfold verify_bootstrap_token. cbv zeta. acc_walk; acc_frame. acc_stay. Qed.

Lemma wp_open_configure authz now d Q :
  (forall e, Q (Err e) d) ->
  (forall sf s, setup_row d = Some sf ->
     sf_setup_state sf ∈ [SetupState.BootstrapPending; SetupState.IdpConfigured] ->
     Q (Ok (set_sf_session s sf)) d) ->
  wp (open_configure hash_token authz now) d Q.
Proof.
  intros H1 H2. unfold open_configure. acc_walk; auto. apply H2; [done|]. by eapply bool_decide_eq_true_1.
Qed.

Lemma changes_configure_commit encrypt authz req found generation now :
  Changes (configure_oidc_commit hash_token encrypt authz req found generation now).
Proof.
  intros d. unfold configure_oidc_commit, invalidate_setup. apply wp_bind, wp_open_configure; [reflexivity|].
  intros sf s Hsf Hst. cbv zeta. acc_walk; acc_frame;
    (eapply changes_save; [reflexivity|exact Hsf|reflexivity|]);
    (apply sm_configured; [set_solver|reflexivity|reflexivity]).
Qed.

Lemma changes_configure_oidc encrypt url_ok discover authz req generation now :
  Changes (configure_oidc hash_token encrypt url_ok discover authz req generation now).
Proof.
  intros d. unfold configure_oidc, check_configure_request. cbv zeta. acc_walk; acc_frame.
  apply wp_open_configure; [reflexivity|]. intros sf s _ _. acc_walk; acc_frame.
  apply changes_configure_commit.
Qed.

Lemma changes_setup_preferences authz mode remote generation now :
  Changes (setup_preferences hash_token authz mode remote generation now).
Proof.
  intros d. unfold setup_preferences, invalidate_setup, set_modes. cbv zeta. acc_walk; acc_frame;
    cbn; (match goal with H : setup_row d = Some _ |- _ => rewrite H end); cbn;
    repeat case_match;
    (eapply changes_stay; [acc_frame|eassumption|reflexivity|reflexivity|reflexivity]).
Qed.

Lemma wp_for_each_pure {A B} (f : A -> B -> M B) l acc d Q :
  (forall x b d' R, (forall r : result api_error B, R r d') -> wp (f x b) d' R) ->
  (forall r, Q r d) -> wp (for_each f l acc) d Q.
Proof.
  intros Hf HQ. revert acc. induction l as [|x l IH]; intros acc; cbn; [by apply wp_ret|].
  apply wp_bind, Hf. intros [b|e]; [apply IH|apply HQ].
Qed.

Lemma wp_owner_email to_lowercase v d Q :
  (forall r, Q r d) -> wp (normalize_optional_setup_owner_email to_lowercase v) d Q.
Proof. intros H. unfold normalize_optional_setup_owner_email. acc_walk; apply H. Qed.

Lemma wp_cidrs canonical values d Q :
  (forall r, Q r d) -> wp (normalize_requested_trusted_proxy_cidrs canonical values) d Q.
Proof.
  intros H. apply wp_for_each_pure; [|done]. intros x b d' R HR. cbv zeta. acc_walk; apply HR.
Qed.

Lemma wp_encrypt_secret encrypt s d Q : (forall r, Q r d) -> wp (encrypt_shared_secret encrypt s) d Q.
Proof. intros H. unfold encrypt_shared_secret. acc_walk; apply H. Qed.

Lemma wp_next_secret encrypt limit msg failure sent old d Q :
  (forall r, Q r d) -> wp (next_secret encrypt limit msg failure sent old) d Q.
Proof. intros H. unfold next_secret. acc_walk; apply H. Qed.

Lemma wp_proxy_mode msg d Q : (forall r, Q r d) -> wp (require_proxy_mode msg) d Q.
Proof. intros H. unfold require_proxy_mode. acc_walk; apply H. Qed.

Lemma wp_oidc_modes d Q : (forall r, Q r d) -> wp load_setup_oidc_modes d Q.
Proof. intros H. unfold load_setup_oidc_modes. acc_walk; apply H. Qed.

(** Checks of a request's settings. *)
Ltac acc_check :=
  lazymatch goal with
  | |- wp (normalize_optional_setup_owner_email _ _) _ _ => apply wp_owner_email; intros [?|?]
  | |- wp (normalize_requested_trusted_proxy_cidrs _ _) _ _ => apply wp_cidrs; intros [?|?]
  | |- wp (encrypt_shared_secret _ _) _ _ => apply wp_encrypt_secret; intros [?|?]
  | |- wp (next_secret _ _ _ _ _ _) _ _ => apply wp_next_secret; intros [?|?]
  | |- wp (require_proxy_mode _) _ _ => apply wp_proxy_mode; intros [?|?]
  | |- wp load_setup_oidc_modes _ _ => apply wp_oidc_modes; intros [?|?]
  end.

Ltac acc_walk_setup := repeat first [progress acc_walk | acc_read | acc_check].

Lemma not_done_states st :
  negb (bool_decide (st = SetupState.Ready)) = true -> negb (bool_decide (st = SetupState.OwnerCreated)) = true ->
  st ∈ [SetupState.Uninitialized; SetupState.BootstrapPending; SetupState.IdpConfigured].
Proof. destruct st; cbn; try done; set_solver. Qed.

Lemma changes_trusted_proxy_configure to_lowercase encrypt header_name canonical authz req generation now :
  Changes (setup_trusted_proxy_configure hash_token to_lowercase encrypt header_name canonical authz req
             generation now).
Proof.
  intros d. unfold setup_trusted_proxy_configure, invalidate_setup, set_trusted_proxy. cbv zeta.
  acc_walk_setup; acc_frame.
  eapply changes_save; [acc_frame|eassumption|reflexivity|].
  apply sm_configured; [by apply not_done_states|reflexivity|reflexivity].
Qed.

(** The owner is recorded over an open setup. *)
Lemma changes_owned sf s email subject now d d1 :
  rtc change d d1 -> setup_row d1 = Some sf ->
  sf_setup_state sf ∈ [SetupState.BootstrapPending; SetupState.IdpConfigured] ->
  rtc change d (set_setup_row (Some (owned email subject now (set_sf_session s sf))) d1).
Proof. intros H Hsf Hst. eapply changes_save; [done|done|done|]. by eapply sm_owner. Qed.

Lemma changes_claim_trusted_proxy to_lowercase decrypt header_name env in_network headers ip now :
  Changes (setup_owner_claim_trusted_proxy hash_token to_lowercase decrypt header_name env in_network headers
             ip now).
Proof.
  intros d. unfold setup_owner_claim_trusted_proxy. cbv zeta. acc_walk_setup; acc_frame.
  all: eapply changes_owned; [reflexivity|done|].
  all: match goal with H : bool_decide (_ = SetupState.IdpConfigured) = true |- _ =>
    apply bool_decide_eq_true_1 in H; rewrite H end; set_solver.
Qed.

Lemma changes_local_owner to_lowercase authz email now :
  Changes (setup_local_owner_create hash_token to_lowercase authz email now).
Proof.
  intros d. unfold setup_local_owner_create. cbv zeta. acc_walk_setup; acc_frame.
  eapply changes_owned; [reflexivity|done|]. by eapply bool_decide_eq_true_1.
Qed.

Lemma changes_setup_summary authz now : Changes (setup_summary hash_token authz now).
Proof. intros d. unfold setup_summary. acc_walk; acc_frame. acc_stay. Qed.

Lemma changes_setup_begin decrypt redirect_ok authz uri now :
  Changes (setup_oidc_begin hash_token decrypt redirect_ok authz uri now).
Proof.
  intros d. unfold setup_oidc_begin, current_generation. acc_walk_setup; acc_frame. all: acc_stay.
Qed.

Lemma changes_setup_take state now : Changes (setup_oidc_take state now).
Proof. intros d. unfold setup_oidc_take. acc_walk; acc_frame. Qed.

(** The checks of the setup sign-in bump the session of an open setup without
    an owner. *)
Lemma wp_recheck redirect_ok a uri now d Q :
  (forall e d', same_rows d d' -> Q (Err e) d') ->
  (forall sf s d', same_rows d d' -> setup_row d = Some sf -> sf_setup_state sf = SetupState.IdpConfigured ->
     Q (Ok (set_sf_session s sf)) d') ->
  wp (recheck_setup_oidc redirect_ok a uri now) d Q.
Proof.
  intros H1 H2. unfold recheck_setup_oidc, current_generation. acc_walk_setup; try (by apply H1).
  unfold validate_setup_oidc_authorization, validate_session_hash in *.
  repeat case_match; simplify_eq. apply H2; [done|done|].
  match goal with H : negb _ || _ = false |- _ => apply orb_false_iff in H as [H _]; apply negb_false_iff in H end.
  by eapply bool_decide_eq_true_1.
Qed.

Lemma changes_commit_pending redirect_ok state p now :
  Changes (commit_setup_oidc_pending redirect_ok state p now).
Proof.
  intros d. unfold commit_setup_oidc_pending. acc_walk; acc_frame. apply wp_recheck.
  - intros. by apply rtc_once, ch_frame.
  - intros sf s d1 Hd Hsf Hst. pose proof Hd as (_ & _ & _ & Hrow). rewrite Hsf in Hrow.
    assert (rtc change d d1) by (by apply rtc_once, ch_frame).
    acc_walk; acc_frame; try done; by eapply changes_stay.
Qed.

Lemma changes_validate_callback decrypt redirect_ok a uri now :
  Changes (validate_setup_oidc_callback decrypt redirect_ok a uri now).
Proof.
  intros d. unfold validate_setup_oidc_callback. apply wp_bind, wp_recheck.
  - intros. by apply rtc_once, ch_frame.
  - intros sf s d1 Hd Hsf Hst. pose proof Hd as (_ & _ & _ & Hrow). rewrite Hsf in Hrow.
    assert (rtc change d d1) by (by apply rtc_once, ch_frame).
    acc_walk_setup; acc_frame; try done; by eapply changes_stay.
Qed.

Lemma changes_commit_owner redirect_ok a uri email subject generation now :
  Changes (commit_setup_oidc_owner redirect_ok a uri email subject generation now).
Proof.
  intros d. unfold commit_setup_oidc_owner, invalidate_setup. apply wp_bind, wp_recheck.
  - intros. by apply rtc_once, ch_frame.
  - intros sf s d1 Hd Hsf Hst. pose proof Hd as (_ & _ & _ & Hrow). rewrite Hsf in Hrow.
    assert (rtc change d d1) by (by apply rtc_once, ch_frame). cbv zeta.
    acc_walk; acc_frame; try done; (eapply changes_owned; [done|done|]); rewrite Hst; set_solver.
Qed.

(** A handler made of parts that are changes is one. *)
Lemma changes_then {E A B} (m : ME E A) (k : A -> ME E B) :
  Changes m -> (forall a, Changes (k a)) -> Changes (m ≫= k).
Proof.
  intros Hm Hk d. apply wp_bind. eapply wp_mono; [apply Hm|]. intros [a|e] d1 H1; [|done].
  eapply wp_mono; [apply Hk|]. intros r d2 H2. by etrans.
Qed.

Lemma changes_pure {A} (r : result api_error A) : Changes (lift r).
Proof. intros d. apply wp_lift. reflexivity. Qed.

Lemma changes_from_option {E A} (e : E) (o : option A) : Changes (from_option e o).
Proof. intros d. by apply wp_from_option. Qed.

Lemma changes_ret {E A} (a : A) : Changes (mret a : ME E A).
Proof. intros d. by apply wp_ret. Qed.

Lemma changes_setup_start decrypt redirect_ok discover authz uri now :
  Changes (setup_oidc_start hash_token decrypt redirect_ok discover authz uri now).
Proof.
  apply changes_then; [apply changes_setup_begin|]. intros [a config].
  apply changes_then; [apply changes_pure|]. intros [state p].
  apply changes_then; [apply changes_commit_pending|]. intros _. apply changes_ret.
Qed.

Lemma changes_setup_verify decrypt redirect_ok exchange code state generation now :
  Changes (setup_oidc_verify decrypt redirect_ok exchange code state generation now).
Proof.
  apply changes_then; [apply changes_setup_take|]. intros [a p].
  apply changes_then; [apply changes_validate_callback|]. intros config.
  apply changes_then; [apply changes_pure|]. intros claims.
  apply changes_then; [apply changes_from_option|]. intros email.
  apply changes_then; [apply changes_commit_owner|]. intros expires. apply changes_ret.
Qed.

Lemma wp_remote_auth header_name sf mode auth_mode d Q :
  (forall r, Q r d) -> wp (require_remote_auth header_name sf mode auth_mode) d Q.
Proof. intros H. unfold require_remote_auth. acc_walk; apply H. Qed.

Lemma changes_complete_setup to_lowercase header_name authz id now :
  Changes (complete_setup hash_token to_lowercase header_name authz id now).
Proof.
  intros d. unfold complete_setup. cbv zeta.
  repeat first [progress acc_walk_setup | apply wp_remote_auth; intros [?|?]]; acc_frame;
    (match goal with H : setup_row d = Some ?x, H1 : bool_decide (sf_setup_state ?x = SetupState.OwnerCreated) = true |- _ =>
       rename x into sf; rename H into Hsf; apply bool_decide_eq_true_1 in H1; rename H1 into Hst end);
    (assert (Hun : unready d) by (exists sf; by rewrite Hst));
    try (match goal with Hu : upsert_owner _ _ _ _ _ = Ok ?d1 |- _ =>
       assert (Hc : rtc change d d1) by (eapply rtc_once, change_owner; [exact Hu|done]);
       apply upsert_owner_inv in Hu as (oid & ou & -> & Ho & _) end); acc_frame; try done.
  - eapply changes_save; [acc_frame; exact Hc|exact Hsf|done|].
    eapply (sm_ready _ _ _ _ oid ou); [by rewrite Hst|done|done|apply lookup_insert_eq|exact Ho].
  - match goal with H : _ <$> sf_owner _ = None |- _ =>
      apply fmap_None in H; rename H into Hown end.
    eapply changes_save; [reflexivity|exact Hsf|done|]. by apply sm_ready_ownerless.
Qed.

Lemma changes_ensure_owner to_lowercase id now : Changes (ensure_owner_user to_lowercase id now).
Proof.
  intros d. unfold ensure_owner_user. acc_walk; acc_frame; try done;
    (match goal with H : insert_user _ _ _ = Ok _ |- _ => apply insert_user_inv in H as [Hn ->] end);
    (match goal with H : (0 <? size (users d))%nat = false |- _ =>
       apply Nat.ltb_ge in H; assert (He : users d = ∅) by (apply map_size_empty_iff; lia) end);
    (eapply rtc_once, (ch_backfill _ _ id); [done|done|cbn; rewrite He; apply insert_empty|]); by split_and!.
Qed.

Lemma changes_init instance_id now : Changes (init_if_missing instance_id now).
Proof.
  intros d. unfold init_if_missing. cbv zeta. acc_walk; acc_frame;
    (eapply rtc_once, ch_setup_new; [done|done|reflexivity|done|done]).
Qed.

Lemma changes_mint_bootstrap ttl token now : Changes (mint_bootstrap_token hash_token ttl token now).
Proof.
  intros d. unfold mint_bootstrap_token. cbv zeta. acc_walk; acc_frame.
  repeat case_match; simplify_eq/=; acc_frame; acc_stay.
Qed.

Lemma changes_external_oidc enforce encrypt url_ok discover auth issuer client secret now :
  Changes (configure_external_access_oidc encrypt enforce url_ok discover auth issuer client secret now).
Proof.
  intros d. unfold configure_external_access_oidc, external_oidc_commit, owner_required. cbv zeta.
  acc_walk; acc_frame; acc_stay.
Qed.

Lemma store_preferences_frame req m0 m a0 a p0 p d : same_rows d (store_preferences req m0 m a0 a p0 p d).1.
Proof. unfold store_preferences. by repeat case_match. Qed.

Lemma changes_guard {E} c (e : E) : Changes (guard c e).
Proof. intros d. by apply wp_guard. Qed.

Lemma changes_throw {E A} (e : E) : Changes (throw e : ME E A).
Proof. intros d. by apply wp_throw. Qed.

Lemma changes_query {A} msg (f : db -> A) : Changes (query msg f).
Proof. intros d. by apply wp_query. Qed.

Lemma changes_exec_frame {A} msg (f : db -> db * A) : (forall d, same_rows d (f d).1) -> Changes (exec msg f).
Proof. intros Hf d. apply wp_exec; [reflexivity|]. apply rtc_once, ch_frame, Hf. Qed.

Lemma changes_audit {E} actor action kind id : Changes (write_audit_log actor action kind id : ME E unit).
Proof. intros d. apply wp_audit. intros l. by apply rtc_once, ch_frame. Qed.

Lemma changes_clear_capabilities {E} : Changes (Recovery.clear_capabilities : ME E unit).
Proof. intros d. apply wp_with_capabilities. intros m. by apply rtc_once, ch_frame. Qed.

Lemma changes_revoke_all {E} (g : sqlx_error -> E) : Changes (map_errM g revoke_all_sessions).
Proof.
  intros d. apply wp_map_err, wp_sql; [intros; reflexivity|]. apply rtc_once, change_logout.
Qed.

(** Statement by statement, for a handler whose statements are changes alone. *)
Ltac changes_step :=
  first
  [ apply changes_then; [|intro] | apply changes_ret | apply changes_throw | apply changes_guard
  | apply changes_query | apply changes_audit | apply changes_pure | apply changes_clear_capabilities
  | apply changes_revoke_all
  | lazymatch goal with |- Changes (match ?x with _ => _ end) => destruct x end ].

Lemma changes_preferences enforce preflight auth req now :
  Changes (update_instance_preferences enforce preflight auth req now).
Proof.
  unfold update_instance_preferences, owner_required, check_session_permission, load_runtime_mode,
    load_remote_auth_mode. cbv zeta. repeat changes_step.
  apply changes_exec_frame, store_preferences_frame.
Qed.

Lemma changes_proxy_settings enforce to_lowercase encrypt header_name canonical env ip auth header cidrs secret ticket now :
  Changes (update_external_access_trusted_proxy_settings to_lowercase encrypt enforce header_name canonical env ip
             auth header cidrs secret ticket now).
Proof.
  intros d. unfold update_external_access_trusted_proxy_settings, owner_required, set_trusted_proxy. cbv zeta.
  acc_walk_setup; acc_frame.
Qed.

End Changes.
