(* ===== verification/LogStreams.v ===== *)
(** * Log streams

    The live log of a build ([crates/oored/src/logs.rs]): the one-use tokens a
    session is exchanged for, the admission of streams under limits, and the
    loop that answers the stream, turn by turn, from the database.  Time is an
    argument; what [tokio::select!] may wake the loop with is [may_wake]. *)

From S2P Require Import Prelude Contract RustStr Db Access Runners Wp Accounts SignIn BuildLogs.

Local Open Scope Z_scope.

Definition SSE_LOG_PAGE_SIZE : Z := 500.
Definition STREAM_TOKEN_TTL_SECS : Z := 300.
Definition MAX_OUTSTANDING_STREAM_TOKENS : Z := 256.
Definition MAX_OUTSTANDING_STREAM_TOKENS_PER_USER : Z := 16.
Definition MAX_OUTSTANDING_STREAM_TOKENS_PER_BUILD : Z := 32.
Definition MAX_ACTIVE_STREAMS_PER_USER : Z := 4.
Definition MAX_ACTIVE_STREAMS_PER_BUILD : Z := 16.
Definition MAX_ACTIVE_STREAMS_GLOBAL : Z := 128.

(** ** Tokens and admissions *)

(** [values().filter(p).count()]. *)
Definition count_tokens (p : StreamTokenEntry -> bool) (tokens : gmap string StreamTokenEntry) : Z :=
  Z.of_nat (size (filter (fun kv : string * StreamTokenEntry => p kv.2 = true) tokens)).

Definition of_user (user_id : string) (e : StreamTokenEntry) : bool :=
  String.eqb (sa_user_id (st_authorization e)) user_id.
Definition of_build (build_id : string) (e : StreamTokenEntry) : bool := String.eqb (st_build_id e) build_id.

Definition set_tokens (t : gmap string StreamTokenEntry) (s : StreamState) : StreamState :=
  Streams t (active_by_user s) (active_by_build s) (active_total s).

(** [HashMap::get(..).copied().unwrap_or(0)]. *)
Definition active_count (counts : gmap string Z) (key : string) : Z := default 0 (counts !! key).

Section Store.

Context (hash_token : string -> string).

(** [StreamTokenStore::create]; [token] is drawn. *)
Definition create (session : SessionInfo) (credential_hash build_id token : string) (now : Z) (s : StreamState)
    : StreamState * option (string * Z) :=
  let expires_at := Z.min (now + STREAM_TOKEN_TTL_SECS) (expires_at session) in
  let tokens := filter (fun kv : string * StreamTokenEntry => now < sa_expires_at (st_authorization kv.2)) (stream_tokens s) in
  let replace := fst <$> List.find (fun kv : string * StreamTokenEntry =>
                   of_user (user_id session) kv.2 && of_build build_id kv.2) (map_to_list tokens) in
  let full := (MAX_OUTSTANDING_STREAM_TOKENS <=? Z.of_nat (size tokens))
              || (MAX_OUTSTANDING_STREAM_TOKENS_PER_USER <=? count_tokens (of_user (user_id session)) tokens)
              || (MAX_OUTSTANDING_STREAM_TOKENS_PER_BUILD <=? count_tokens (of_build build_id) tokens) in
  if bool_decide (replace = None) && full then (set_tokens tokens s, None)
  else
    let tokens := match replace with Some hash => delete hash tokens | None => tokens end in
    let entry := {| st_authorization := {| sa_user_id := user_id session; sa_credential_hash := credential_hash;
                                           sa_auth_source := auth_source session; sa_expires_at := expires_at |};
                    st_build_id := build_id |} in
    (set_tokens (<[hash_token token := entry]> tokens) s, Some (token, expires_at)).

(** [StreamTokenStore::consume]. *)
Definition consume (token : string) (now : Z) (s : StreamState) : StreamState * option StreamTokenEntry :=
  let hashed := hash_token token in
  (set_tokens (delete hashed (stream_tokens s)) s,
   match stream_tokens s !! hashed with
   | Some entry => if now <? sa_expires_at (st_authorization entry) then Some entry else None
   | None => None
   end).

End Store.

(** [StreamAdmission]. *)
Record StreamAdmission := Admission {
  ad_user_id : string;
  ad_build_id : string;
}.

(** [StreamTokenStore::acquire]. *)
Definition acquire (user_id build_id : string) (s : StreamState) : StreamState * option StreamAdmission :=
  if (MAX_ACTIVE_STREAMS_GLOBAL <=? active_total s)
     || (MAX_ACTIVE_STREAMS_PER_USER <=? active_count (active_by_user s) user_id)
     || (MAX_ACTIVE_STREAMS_PER_BUILD <=? active_count (active_by_build s) build_id)
  then (s, None)
  else (Streams (stream_tokens s)
          (<[user_id := active_count (active_by_user s) user_id + 1]> (active_by_user s))
          (<[build_id := active_count (active_by_build s) build_id + 1]> (active_by_build s))
          (active_total s + 1),
        Some (Admission user_id build_id)).

(** [decrement_count]. *)
Definition decrement_count (key : string) (counts : gmap string Z) : gmap string Z :=
  match counts !! key with
  | Some count => if count =? 1 then delete key counts else <[key := count - 1]> counts
  | None => counts
  end.

(** [StreamAdmission::drop]. *)
Definition release (a : StreamAdmission) (s : StreamState) : StreamState :=
  Streams (stream_tokens s) (decrement_count (ad_user_id a) (active_by_user s))
    (decrement_count (ad_build_id a) (active_by_build s)) (active_total s - 1).

(** ** Authorization *)

Definition with_streams {E A} (f : StreamState -> StreamState * A) : ME E A :=
  in_memory (fun m => let '(s, a) := f (streams m) in
    (Memory (pending_auth m) (recovery_capabilities m) (bootstrap_failures m) (webhook_secrets m) s, a)).

(** [load_current_stream_session]. *)
Definition load_current_stream_session (authorization : StreamAuthorization) (now : Z)
    : ME sqlx_error (option SessionInfo) :=
  match sa_auth_source authorization with
  | Session => sql (fun d => (d, session_info (sa_credential_hash authorization) now d))
  | ApiToken => validate_api_token_hash (sa_credential_hash authorization) now
  end.

(** [require_current_stream_authorization]. *)
Definition require_current_stream_authorization (authorization : StreamAuthorization) (build_id : string) (now : Z)
    : M SessionInfo :=
  _ ← guard (now <? sa_expires_at authorization)
        (ApiErr 401 "stream_authorization_ended" "Stream authorization expired");
  session ← map_errM (fun _ => store_error "Failed to validate stream authorization")
              (load_current_stream_session authorization now);
  session ← from_option (ApiErr 401 "stream_authorization_ended" "Stream authorization is no longer active")
              (session ≫= fun session => if String.eqb (user_id session) (sa_user_id authorization)
                                          then Some session else None);
  _ ← require_build_log_read session build_id;
  mret session.

(** ** Handlers *)

Section Handlers.

Context (hash_token : string -> string).

(** [create_stream_token]; [header] is the Authorization header. *)
Definition create_stream_token (auth : SessionInfo) (build_id : string) (header : option string) (token : string)
    (now : Z) : M (string * Z) :=
  _ ← require_build_log_read auth build_id;
  bearer ← from_option (ApiErr 401 "missing_auth" "Authentication required") (extract_bearer header);
  made ← with_streams (create hash_token auth (hash_token bearer) build_id token now);
  from_option (ApiErr 429 "stream_token_limit" "Too many outstanding stream tokens") made.

(** The authorization of a stream: a one-use token, or a session. *)
Definition stream_authorization (build_id : string) (query_token header : option string) (now : Z)
    : M StreamAuthorization :=
  match query_token, extract_bearer header with
  | Some qt, _ =>
      entry ← with_streams (consume hash_token qt now);
      entry ← from_option (ApiErr 401 "invalid_stream_token"
                "Invalid or expired stream token (obtain one via POST /v1/builds/{build_id}/stream-token)") entry;
      _ ← guard (String.eqb (st_build_id entry) build_id)
            (ApiErr 403 "stream_token_build_mismatch" "Stream token is not valid for this build");
      mret (st_authorization entry)
  | None, Some ht =>
      session ← map_errM (fun _ => ApiErr 500 "session_error" "Session validation failed")
                  (validate_session hash_token ht now);
      session ← from_option (ApiErr 401 "invalid_session" "Invalid or expired session token") session;
      mret {| sa_user_id := user_id session; sa_credential_hash := hash_token ht; sa_auth_source := Session;
              sa_expires_at := Z.min (now + STREAM_TOKEN_TTL_SECS) (expires_at session) |}
  | None, None =>
      throw (ApiErr 401 "missing_auth" "Authentication required (pass token query param or Authorization header)")
  end.

(** The state of [build_log_sse_stream]. *)
Record sse := Sse {
  last_seq : Z;
  fetch_logs_now : bool;
  check_status_now : bool;
  done_after_logs : option string;
}.

(** [stream_build_logs]: the authorization and admission of the stream, and the
    loop's first state; [last_event_id] is the header. *)
Definition stream_build_logs (build_id : string) (query_token header last_event_id : option string) (now : Z)
    : M (StreamAuthorization * StreamAdmission * sse) :=
  authorization ← stream_authorization build_id query_token header now;
  session ← require_current_stream_authorization authorization build_id now;
  admission ← with_streams (acquire (user_id session) build_id);
  admission ← from_option (ApiErr 429 "stream_limit" "Too many active log streams") admission;
  mret (authorization, admission, Sse (default (-1) (last_event_id ≫= parse_i64)) true true None).

End Handlers.

(** ** The loop *)

(** [is_terminal_build_status]. *)
Definition is_terminal_build_status (status : string) : bool :=
  bool_decide (status ∈ ["succeeded"; "failed"; "canceled"; "timed_out"; "expired"]%string).

(** [load_pending_log_page]. *)
Definition load_pending_log_page (build_id : string) (after_sequence : Z) : ME sqlx_error (list BuildLogChunk) :=
  sql (fun d => (d, log_page after_sequence SSE_LOG_PAGE_SIZE (logs_of build_id d))).

(** [load_build_status]. *)
Definition load_build_status (build_id : string) : ME sqlx_error (option string) :=
  sql (fun d => (d, (fun b => BuildStatus.fmt (b_status b)) <$> builds d !! build_id)).

(** [broadcast::error::RecvError]. *)
Inductive RecvError : Set :=
  | Lagged
  | Closed.

(** [enum StreamWakeup]; an event is its build and what the loop reads of it. *)
Inductive StreamWakeup : Type :=
  | AuthorizationCheck
  | Recovery
  | FetchLogs
  | CheckStatus
  | LogEvent (e : result RecvError (string * Z))
  | BuildStateWakeup (e : result RecvError (string * string)).

(** The guards of the biased [select!]: the timers may fire at any turn; a
    pending fetch, then a pending check, come before the events. *)
Definition may_wake (s : sse) (wakeup : StreamWakeup) : bool :=
  match wakeup with
  | AuthorizationCheck | Recovery => true
  | FetchLogs => fetch_logs_now s
  | CheckStatus => check_status_now s && negb (fetch_logs_now s)
  | LogEvent _ | BuildStateWakeup _ => negb (fetch_logs_now s) && negb (check_status_now s)
  end.

(** What the stream yields. *)
Inductive sse_event : Type :=
  | SseLog (chunk : BuildLogChunk)
  | SseDone (reason : string).

Definition ended (reason : string) : list sse_event * option sse := ([SseDone reason], None).

(** The arm of [FetchLogs], after the authorization. *)
Definition fetch_logs (build_id : string) (s : sse) : ME sqlx_error (list sse_event * option sse) :=
  catch (load_pending_log_page build_id (last_seq s)) (fun page =>
    let '(sent, s') :=
      match page with
      | Ok logs => (map SseLog logs,
                    Sse (default (last_seq s) (lc_sequence <$> last logs))
                      (Z.of_nat (length logs) =? SSE_LOG_PAGE_SIZE) (check_status_now s) (done_after_logs s))
      | Err _ => ([], Sse (last_seq s) false (check_status_now s) (done_after_logs s))
      end in
    mret (match fetch_logs_now s', done_after_logs s' with
          | false, Some reason => (sent ++ [SseDone reason], None)
          | _, _ => (sent, Some s')
          end)).

(** One turn of the loop: what it yields, and its state unless it breaks. *)
Definition sse_turn (authorization : StreamAuthorization) (build_id : string) (now : Z) (wakeup : StreamWakeup) (s : sse)
    : ME sqlx_error (list sse_event * option sse) :=
  match wakeup with
  | AuthorizationCheck =>
      catch (require_current_stream_authorization authorization build_id now) (fun r =>
        mret (if is_ok r then ([], Some s) else ended "authorization_ended"))
  | Recovery => mret ([], Some (Sse (last_seq s) true true (done_after_logs s)))
  | FetchLogs =>
      catch (require_current_stream_authorization authorization build_id now) (fun r =>
        if is_ok r then fetch_logs build_id s else mret (ended "authorization_ended"))
  | CheckStatus =>
      let s := Sse (last_seq s) (fetch_logs_now s) false (done_after_logs s) in
      catch (load_build_status build_id) (fun r =>
        mret (match r with
              | Ok (Some status) => if is_terminal_build_status status then ended "build_finished" else ([], Some s)
              | Ok None => ended "build_not_found"
              | Err _ => ([], Some s)
              end))
  | LogEvent (Ok (id, latest_sequence)) =>
      mret ([], Some (if String.eqb id build_id && (last_seq s <? latest_sequence)
                      then Sse (last_seq s) true (check_status_now s) (done_after_logs s) else s))
  | BuildStateWakeup (Ok (id, to_status)) =>
      mret ([], Some (if String.eqb id build_id && is_terminal_build_status to_status
                      then Sse (last_seq s) true (check_status_now s) (Some "build_finished"%string) else s))
  | LogEvent (Err Lagged) | BuildStateWakeup (Err Lagged) =>
      mret ([], Some (Sse (last_seq s) true true (done_after_logs s)))
  | LogEvent (Err Closed) | BuildStateWakeup (Err Closed) => mret ([], None)
  end.

Lemma terminal_status_text s : is_terminal_build_status (BuildStatus.fmt s) = BuildStatus.is_terminal s.
Proof. by destruct s. Qed.

(** ** Tokens and streams stay under their limits *)

(** The streams of a user or of a build among those open. *)
Definition open_of (key : StreamAdmission -> string) (k : string) (ads : list StreamAdmission) : Z :=
  Z.of_nat (length (filter (fun a => key a = k) ads)).

(** The counts of open streams, zero when absent. *)
Definition counts_of (key : StreamAdmission -> string) (counts : gmap string Z) (ads : list StreamAdmission) : Prop :=
  forall k, counts !! k = if decide (open_of key k ads = 0) then None else Some (open_of key k ads).

Record within_limits (s : StreamState) (ads : list StreamAdmission) : Prop := {
  wl_tokens : Z.of_nat (size (stream_tokens s)) <= MAX_OUTSTANDING_STREAM_TOKENS;
  wl_user_tokens u : count_tokens (of_user u) (stream_tokens s) <= MAX_OUTSTANDING_STREAM_TOKENS_PER_USER;
  wl_build_tokens b : count_tokens (of_build b) (stream_tokens s) <= MAX_OUTSTANDING_STREAM_TOKENS_PER_BUILD;
  wl_one k1 k2 e1 e2 : stream_tokens s !! k1 = Some e1 -> stream_tokens s !! k2 = Some e2 ->
    sa_user_id (st_authorization e1) = sa_user_id (st_authorization e2) -> st_build_id e1 = st_build_id e2 -> k1 = k2;
  wl_total : active_total s = Z.of_nat (length ads);
  wl_users : counts_of ad_user_id (active_by_user s) ads;
  wl_builds : counts_of ad_build_id (active_by_build s) ads;
  wl_streams : Z.of_nat (length ads) <= MAX_ACTIVE_STREAMS_GLOBAL;
  wl_user_streams u : open_of ad_user_id u ads <= MAX_ACTIVE_STREAMS_PER_USER;
  wl_build_streams b : open_of ad_build_id b ads <= MAX_ACTIVE_STREAMS_PER_BUILD;
}.

(** What happens to the store: the admissions are those of open streams. *)
Inductive stream_op (hash_token : string -> string)
    : StreamState * list StreamAdmission -> StreamState * list StreamAdmission -> Prop :=
  | op_create session credential_hash build_id token now s ads :
      stream_op hash_token (s, ads) ((create hash_token session credential_hash build_id token now s).1, ads)
  | op_consume token now s ads : stream_op hash_token (s, ads) ((consume hash_token token now s).1, ads)
  | op_acquire user_id build_id s ads :
      stream_op hash_token (s, ads)
        ((acquire user_id build_id s).1,
         match (acquire user_id build_id s).2 with Some a => a :: ads | None => ads end)
  | op_drop a s ads1 ads2 : stream_op hash_token (s, ads1 ++ a :: ads2) (release a s, ads1 ++ ads2).

Lemma count_tokens_mono p (m1 m2 : gmap string StreamTokenEntry) : m1 ⊆ m2 -> count_tokens p m1 <= count_tokens p m2.
Proof. intros H. unfold count_tokens. apply inj_le, map_subseteq_size, map_filter_subseteq_mono, H. Qed.

Lemma count_tokens_insert p k e (m : gmap string StreamTokenEntry) :
  count_tokens p (<[k := e]> m) <= count_tokens p m + (if p e then 1 else 0).
Proof.
  unfold count_tokens. destruct (p e) eqn:He.
  - rewrite map_filter_insert_True by done. rewrite map_size_insert. destruct (_ !! k); cbn; lia.
  - rewrite map_filter_insert_False by (cbn; congruence).
    assert (size (filter (fun kv : string * StreamTokenEntry => p kv.2 = true) (delete k m)) <=
            size (filter (fun kv : string * StreamTokenEntry => p kv.2 = true) m))%nat; [|lia].
    apply map_subseteq_size, map_filter_subseteq_mono, delete_subseteq.
Qed.

Lemma count_tokens_delete p k e (m : gmap string StreamTokenEntry) :
  m !! k = Some e -> p e = true -> count_tokens p (delete k m) = count_tokens p m - 1.
Proof.
  intros Hk He. unfold count_tokens. rewrite map_filter_delete, map_size_delete.
  assert (Hin : filter (fun kv : string * StreamTokenEntry => p kv.2 = true) m !! k = Some e)
    by (by apply map_lookup_filter_Some).
  rewrite Hin. assert (size (filter (fun kv : string * StreamTokenEntry => p kv.2 = true) m) <> 0%nat); [|lia].
  intros H0. apply map_size_empty_inv in H0. by rewrite H0, lookup_empty in Hin.
Qed.

Lemma count_all (m : gmap string StreamTokenEntry) : count_tokens (fun _ => true) m = Z.of_nat (size m).
Proof. unfold count_tokens. rewrite map_filter_id; done. Qed.

(** The tokens alone: at most so many in all, of a user and of a build, and one
    of a user for a build. *)
Record tokens_ok (m : gmap string StreamTokenEntry) : Prop := {
  tk_all : count_tokens (fun _ => true) m <= MAX_OUTSTANDING_STREAM_TOKENS;
  tk_user u : count_tokens (of_user u) m <= MAX_OUTSTANDING_STREAM_TOKENS_PER_USER;
  tk_build b : count_tokens (of_build b) m <= MAX_OUTSTANDING_STREAM_TOKENS_PER_BUILD;
  tk_one k1 k2 e1 e2 : m !! k1 = Some e1 -> m !! k2 = Some e2 ->
    sa_user_id (st_authorization e1) = sa_user_id (st_authorization e2) -> st_build_id e1 = st_build_id e2 -> k1 = k2;
}.

Lemma tokens_ok_sub m1 m2 : m1 ⊆ m2 -> tokens_ok m2 -> tokens_ok m1.
Proof.
  intros Hsub [H1 H2 H3 H4]. split.
  - etrans; [by apply count_tokens_mono|done].
  - intros u. etrans; [by apply count_tokens_mono|done].
  - intros b. etrans; [by apply count_tokens_mono|done].
  - intros k1 k2 e1 e2 He1 He2. eapply H4; by eapply lookup_weaken.
Qed.

(** One more token, where there is room for it. *)
Lemma tokens_ok_insert k e m :
  tokens_ok m ->
  count_tokens (fun _ => true) m < MAX_OUTSTANDING_STREAM_TOKENS ->
  count_tokens (of_user (sa_user_id (st_authorization e))) m < MAX_OUTSTANDING_STREAM_TOKENS_PER_USER ->
  count_tokens (of_build (st_build_id e)) m < MAX_OUTSTANDING_STREAM_TOKENS_PER_BUILD ->
  (forall k' e', m !! k' = Some e' -> of_user (sa_user_id (st_authorization e)) e' && of_build (st_build_id e) e' = false) ->
  tokens_ok (<[k := e]> m).
Proof.
  intros [H1 H2 H3 H4] R1 R2 R3 Hnew. split.
  - pose proof (count_tokens_insert (fun _ => true) k e m) as Hc. cbv beta iota in Hc. lia.
  - intros u. pose proof (count_tokens_insert (of_user u) k e m) as Hc. specialize (H2 u).
    destruct (of_user u e) eqn:E in Hc; [|lia]. apply String.eqb_eq in E. subst u. lia.
  - intros b. pose proof (count_tokens_insert (of_build b) k e m) as Hc. specialize (H3 b).
    destruct (of_build b e) eqn:E in Hc; [|lia]. apply String.eqb_eq in E. subst b. lia.
  - assert (Hold : forall k' e', k' <> k -> <[k := e]> m !! k' = Some e' ->
        sa_user_id (st_authorization e') = sa_user_id (st_authorization e) -> st_build_id e' = st_build_id e -> False).
    { intros k' e' Hk He Hu Hb. rewrite lookup_insert_ne in He by done. specialize (Hnew _ _ He).
      unfold of_user, of_build in Hnew. rewrite Hu, Hb, !String.eqb_refl in Hnew. done. }
    intros k1 k2 e1 e2 He1 He2 Hu Hb.
    destruct (decide (k1 = k)) as [->|N1], (decide (k2 = k)) as [->|N2]; [done|exfalso..|].
    + rewrite lookup_insert_eq in He1. injection He1 as <-. by eapply (Hold k2 e2).
    + rewrite lookup_insert_eq in He2. injection He2 as <-. by eapply (Hold k1 e1).
    + rewrite lookup_insert_ne in He1, He2 by done. by eapply H4.
Qed.

Lemma create_tokens hash_token session credential_hash build_id token now s :
  tokens_ok (stream_tokens s) ->
  tokens_ok (stream_tokens (create hash_token session credential_hash build_id token now s).1).
Proof.
  intros Hok. unfold create. set (tokens := filter _ (stream_tokens s)).
  assert (Ht : tokens_ok tokens) by (eapply tokens_ok_sub; [apply map_filter_subseteq|done]).
  destruct (List.find _ (map_to_list tokens)) as [[h e]|] eqn:Hf; cbn [fmap option_fmap option_map].
  - rewrite bool_decide_false by done. cbn.
    apply find_some in Hf as [Hin Hm]. apply list_elem_of_In, elem_of_map_to_list in Hin. cbn in Hm.
    apply andb_true_iff in Hm as [Hu Hb]. pose proof Ht as [T1 T2 T3 T4].
    apply tokens_ok_insert; cbn.
    + eapply tokens_ok_sub; [apply delete_subseteq|done].
    + erewrite count_tokens_delete by done. lia.
    + erewrite count_tokens_delete by done. specialize (T2 (user_id session)). lia.
    + erewrite count_tokens_delete by done. specialize (T3 build_id). lia.
    + intros k' e' [Hne He']%lookup_delete_Some. apply not_true_iff_false. intros [Hu' Hb']%andb_true_iff.
      apply String.eqb_eq in Hu, Hb, Hu', Hb'. destruct Hne. eapply T4; [done..| |]; congruence.
  - destruct (_ || _ || _) eqn:Hfull; cbn; [done|]. apply orb_false_iff in Hfull as [[Hf1 Hf2]%orb_false_iff Hf3].
    apply Z.leb_gt in Hf1, Hf2, Hf3. apply tokens_ok_insert; cbn; [done|by rewrite count_all|done..|].
    intros k' e' He'. by apply (find_none _ _ Hf (k', e')), list_elem_of_In, elem_of_map_to_list.
Qed.

(** The counts follow the admissions. *)
Lemma open_of_cons key k a ads : open_of key k (a :: ads) = open_of key k ads + (if decide (key a = k) then 1 else 0).
Proof.
  unfold open_of. destruct (decide (key a = k)) as [H|H].
  - rewrite filter_cons_True by done. cbn. lia.
  - rewrite filter_cons_False by done. lia.
Qed.

Lemma open_of_middle key k a ads1 ads2 :
  open_of key k (ads1 ++ a :: ads2) = open_of key k (ads1 ++ ads2) + (if decide (key a = k) then 1 else 0).
Proof. rewrite <- open_of_cons. unfold open_of. by rewrite (Permutation_middle ads1 ads2 a). Qed.

Lemma open_of_nonneg key k ads : 0 <= open_of key k ads.
Proof. unfold open_of. lia. Qed.

Lemma counts_active key counts ads k : counts_of key counts ads -> active_count counts k = open_of key k ads.
Proof. intros H. unfold active_count. rewrite (H k). by case_decide. Qed.

Lemma counts_acquire key counts ads a :
  counts_of key counts ads -> counts_of key (<[key a := active_count counts (key a) + 1]> counts) (a :: ads).
Proof.
  intros H k. rewrite open_of_cons. pose proof (open_of_nonneg key k ads). destruct (decide (key a = k)) as [<-|Hne].
  - rewrite lookup_insert_eq, decide_False by lia. by rewrite (counts_active _ _ _ _ H).
  - rewrite lookup_insert_ne by done. rewrite Z.add_0_r. apply H.
Qed.

Lemma counts_release key counts ads1 ads2 a :
  counts_of key counts (ads1 ++ a :: ads2) -> counts_of key (decrement_count (key a) counts) (ads1 ++ ads2).
Proof.
  intros H k. specialize (H k) as Hk. pose proof (H (key a)) as Ha.
  rewrite open_of_middle in Ha, Hk. destruct (decide (key a = key a)) as [_|N] in Ha; [|done].
  pose proof (open_of_nonneg key (key a) (ads1 ++ ads2)). rewrite decide_False in Ha by lia.
  unfold decrement_count. rewrite Ha. destruct (decide (key a = k)) as [<-|Hne].
  - destruct (Z.eqb_spec (open_of key (key a) (ads1 ++ ads2) + 1) 1).
    + rewrite lookup_delete_eq, decide_True by lia. done.
    + rewrite lookup_insert_eq, decide_False by lia. f_equal. lia.
  - rewrite Z.add_0_r in Hk. rewrite <- Hk. destruct (_ =? 1); [by apply lookup_delete_ne|by apply lookup_insert_ne].
Qed.

Lemma within_limits_tokens s ads m : within_limits s ads -> tokens_ok m -> within_limits (set_tokens m s) ads.
Proof. intros [] [T1 T2 T3 T4]. split; try done. cbn. by rewrite <- count_all. Qed.

Lemma within_limits_ok s ads : within_limits s ads -> tokens_ok (stream_tokens s).
Proof. intros [H1 H2 H3 H4]. split; [by rewrite count_all|done..]. Qed.

Lemma acquire_within user_id build_id s ads :
  within_limits s ads ->
  within_limits (acquire user_id build_id s).1
    (match (acquire user_id build_id s).2 with Some a => a :: ads | None => ads end).
Proof.
  intros Hw. unfold acquire. destruct (_ || _ || _) eqn:Hfull; cbn; [done|].
  apply orb_false_iff in Hfull as [[Hf1 Hf2]%orb_false_iff Hf3]. apply Z.leb_gt in Hf1, Hf2, Hf3.
  destruct Hw as [H1 H2 H3 H4 Ht Hu Hb Hs Hus Hbs].
  rewrite (counts_active _ _ _ _ Hu) in Hf2. rewrite (counts_active _ _ _ _ Hb) in Hf3.
  split; cbn; [done..|lia| | |lia| |].
  - exact (counts_acquire ad_user_id _ _ (Admission user_id build_id) Hu).
  - exact (counts_acquire ad_build_id _ _ (Admission user_id build_id) Hb).
  - intros u. rewrite open_of_cons. cbn. specialize (Hus u). case_decide as Hd; [subst; lia|lia].
  - intros b. rewrite open_of_cons. cbn. specialize (Hbs b). case_decide as Hd; [subst; lia|lia].
Qed.

Lemma release_within a s ads1 ads2 : within_limits s (ads1 ++ a :: ads2) -> within_limits (release a s) (ads1 ++ ads2).
Proof.
  intros [H1 H2 H3 H4 Ht Hu Hb Hs Hus Hbs].
  assert (Hlen : length (ads1 ++ a :: ads2) = S (length (ads1 ++ ads2))) by (rewrite !length_app; cbn; lia).
  split; cbn; [done..|lia|by apply counts_release|by apply counts_release|lia| |].
  - intros u. specialize (Hus u). rewrite open_of_middle in Hus. case_decide; lia.
  - intros b. specialize (Hbs b). rewrite open_of_middle in Hbs. case_decide; lia.
Qed.

Lemma stream_op_within hash_token x y : stream_op hash_token x y -> within_limits x.1 x.2 -> within_limits y.1 y.2.
Proof.
  destruct 1 as [session credential_hash build_id token now s ads|token now s ads|user_id build_id s ads|a s ads1 ads2];
    cbn; intros Hw.
  - assert (Hc : (create hash_token session credential_hash build_id token now s).1 =
      set_tokens (stream_tokens (create hash_token session credential_hash build_id token now s).1) s)
      by (unfold create; destruct (_ && _); done).
    rewrite Hc. apply within_limits_tokens; [done|]. by apply create_tokens, (within_limits_ok _ ads).
  - apply within_limits_tokens; [done|]. eapply tokens_ok_sub; [apply delete_subseteq|]. by eapply within_limits_ok.
  - by apply acquire_within.
  - by apply release_within.
Qed.

Lemma no_streams : within_limits (Streams ∅ ∅ ∅ 0) [].
Proof. split; by vm_compute. Qed.

(** C33: The limits of log streams hold whatever clients do: never more than 256
    tokens, 16 of a user, 32 of a build and one of a user for a build; never
    more than 128 streams, 4 of a user and 16 of a build; and the store's counts
    are the numbers of open streams, so none goes below zero. *)
Theorem stream_limits (hash_token : string -> string) (s : StreamState) (ads : list StreamAdmission) :
  rtc (stream_op hash_token) (Streams ∅ ∅ ∅ 0, []) (s, ads) -> within_limits s ads.
Proof.
  intros Hrtc. assert (H : forall x y, rtc (stream_op hash_token) x y -> within_limits x.1 x.2 -> within_limits y.1 y.2).
  { intros x y. induction 1; [done|]. intros Hw. eauto using stream_op_within. }
  exact (H _ _ Hrtc no_streams).
Qed.

(** ** Lines go to those who may read them *)

(** The credential of the stream is current and may read the build's log. *)
Definition stream_authorized (authorization : StreamAuthorization) (build_id : string) (now : Z) (d : db) : Prop :=
  now < sa_expires_at authorization /\
  exists session b,
    match sa_auth_source authorization with
    | Session => session_info (sa_credential_hash authorization) now d
    | ApiToken => token_info (sa_credential_hash authorization) now d
    end = Some session
    /\ user_id session = sa_user_id authorization
    /\ builds d !! build_id = Some b
    /\ authorized d session (bm_project_id (b_meta b)) Read.

Lemma wp_role_in session pid d (Q : result api_error EffectiveProjectRole -> db -> Prop) :
  (forall e, Q (Err e) d) -> (forall eff, role_in d session pid = Some eff -> Q (Ok eff) d) ->
  wp (resolve_effective_project_role (user_id session) (role session) pid (auth_source session)) d Q.
Proof.
  intros H1 H2 w w' r <- Hm. pose proof (resolve_role_pure _ _ _ _ _ _ _ Hm) as [-> _].
  destruct r as [eff|e]; [|apply H1]. by eapply H2, resolve_role_ok.
Qed.

Lemma wp_log_read session build_id d (Q : result api_error unit -> db -> Prop) :
  (forall e, Q (Err e) d) ->
  (forall b, builds d !! build_id = Some b -> authorized d session (bm_project_id (b_meta b)) Read -> Q (Ok tt) d) ->
  wp (require_build_log_read session build_id) d Q.
Proof.
  intros H1 H2. unfold require_build_log_read, load_build_project_id. apply wp_bind, wp_bind, wp_query; [apply H1|].
  apply wp_from_option; [|intros _; apply H1]. intros pid Hp. apply fmap_Some in Hp as (b & Hb & ->).
  apply wp_bind, wp_role_in; [apply H1|]. intros eff Heff. apply wp_require_permission; [apply H1|].
  intros Hperm. eapply H2; [done|]. by exists eff.
Qed.

Lemma wp_stream_authorization authorization build_id now d (Q : result api_error SessionInfo -> db -> Prop) :
  (forall e, Q (Err e) d) ->
  (forall session, stream_authorized authorization build_id now d -> Q (Ok session) d) ->
  wp (require_current_stream_authorization authorization build_id now) d Q.
Proof.
  intros H1 H2. unfold require_current_stream_authorization. apply wp_bind, wp_guard; [|intros _; apply H1].
  intros Hexp%Z.ltb_lt. apply wp_bind, wp_map_err.
  assert (Hs : wp (load_current_stream_session authorization now) d (fun r d' => d' = d /\ forall o, r = Ok o -> o =
    match sa_auth_source authorization with
    | Session => session_info (sa_credential_hash authorization) now d
    | ApiToken => token_info (sa_credential_hash authorization) now d
    end)).
  { unfold load_current_stream_session, validate_api_token_hash.
    destruct (sa_auth_source authorization); (apply wp_sql; [done|]); (split; [done|]); by intros o [= <-]. }
  eapply wp_mono; [exact Hs|]. intros [o|e] d' [-> Ho]; cbn [map_err]; [|apply H1]. specialize (Ho o eq_refl).
  apply wp_bind, wp_from_option; [|intros _; apply H1]. intros session Hsession.
  apply bind_Some in Hsession as (session' & Ho' & Hu). destruct (String.eqb_spec (user_id session') (sa_user_id authorization)) as [He|]; [|done].
  injection Hu as <-. apply wp_bind, wp_log_read; [apply H1|]. intros b Hb Hauth. apply wp_ret, H2.
  split; [done|]. exists session', b. split_and!; [congruence|done..].
Qed.

(** A turn: the database is left alone, lines are read under a current
    authorization, and without one the stream ends at its next check. *)
Definition page_of (build_id : string) (s : sse) (d : db) : list BuildLogChunk :=
  log_page (last_seq s) SSE_LOG_PAGE_SIZE (logs_of build_id d).

Definition logs_in (events : list sse_event) : list BuildLogChunk :=
  omap (fun e => match e with SseLog chunk => Some chunk | SseDone _ => None end) events.

Record turn_ok (authorization : StreamAuthorization) (build_id : string) (now : Z) (wakeup : StreamWakeup) (s : sse)
    (d : db) (events : list sse_event) (s' : option sse) : Prop := {
  to_authorized : logs_in events <> [] -> stream_authorized authorization build_id now d;
  to_page : logs_in events = [] \/ logs_in events = page_of build_id s d;
  to_last : forall t, s' = Some t -> last_seq t = default (last_seq s) (lc_sequence <$> last (logs_in events));
  to_refused : ~ stream_authorized authorization build_id now d ->
    wakeup = AuthorizationCheck \/ wakeup = FetchLogs -> (events, s') = ended "authorization_ended";
}.

Lemma logs_in_logs l : logs_in (map SseLog l) = l.
Proof. induction l as [|c l IH]; cbn; [done|]. by rewrite <- IH at 2. Qed.

Lemma logs_in_app e1 e2 : logs_in (e1 ++ e2) = logs_in e1 ++ logs_in e2.
Proof. apply omap_app. Qed.

Lemma wp_fetch_logs build_id s d :
  wp (fetch_logs build_id s) d (fun r d' => d' = d /\ match r with
    | Ok (events, s') => (logs_in events = [] \/ logs_in events = page_of build_id s d) /\
        (forall t, s' = Some t -> last_seq t = default (last_seq s) (lc_sequence <$> last (logs_in events)))
    | Err _ => False
    end).
Proof.
  unfold fetch_logs, load_pending_log_page. apply wp_catch, wp_sql; cbn zeta.
  - intros e. apply wp_ret. cbn. destruct (done_after_logs s); cbn; (split; [done|]); (split; [by left|]); by intros t [= <-].
  - apply wp_ret. split; [done|]. cbn [fst snd]. fold (page_of build_id s d). set (page := page_of build_id s d).
    cbn [fetch_logs_now done_after_logs].
    destruct (Z.of_nat (length page) =? SSE_LOG_PAGE_SIZE), (done_after_logs s);
      rewrite ?logs_in_app, ?logs_in_logs; cbn [logs_in omap list_omap]; rewrite ?app_nil_r;
      (split; [by right|]); by intros t [= <-].
Qed.

Lemma wp_turn authorization build_id now wakeup s d :
  wp (sse_turn authorization build_id now wakeup s) d (fun r d' => d' = d /\ match r with
    | Ok (events, s') => turn_ok authorization build_id now wakeup s d events s'
    | Err _ => False
    end).
Proof.
  assert (Hquiet : forall events s', logs_in events = [] -> (forall t, s' = Some t -> last_seq t = last_seq s) ->
    (~ stream_authorized authorization build_id now d -> wakeup = AuthorizationCheck \/ wakeup = FetchLogs ->
     (events, s') = ended "authorization_ended") ->
    turn_ok authorization build_id now wakeup s d events s').
  { intros events s' He Ht Hr. split; rewrite ?He; [done|by left|done|done]. }
  assert (Hother : forall events s', wakeup <> AuthorizationCheck -> wakeup <> FetchLogs -> logs_in events = [] ->
    (forall t, s' = Some t -> last_seq t = last_seq s) -> turn_ok authorization build_id now wakeup s d events s').
  { intros events s' N1 N2 He Ht. apply Hquiet; [done..|]. by intros _ [?|?]. }
  unfold sse_turn. destruct wakeup as [| | | |[[id latest]|[]]|[[id status]|[]]].
  - apply wp_catch, wp_stream_authorization; intros x.
    + apply wp_ret. split; [done|]. by apply Hquiet.
    + intros Ha. apply wp_ret. split; [done|]. cbn. apply Hquiet; [done|by intros t [= <-]|done].
  - apply wp_ret. split; [done|]. apply Hother; [done..|]. by intros t [= <-].
  - apply wp_catch, wp_stream_authorization; intros x.
    + apply wp_ret. split; [done|]. by apply Hquiet.
    + intros Ha. cbn [is_ok]. eapply wp_mono; [apply wp_fetch_logs|]. intros [[events s']|e] d' [-> H]; [|done].
      split; [done|]. destruct H as [Hp Hl]. by split.
  - apply wp_catch. apply wp_sql; [intros e; apply wp_ret; split; [done|]; apply Hother; [done..|]; by intros t [= <-]|].
    apply wp_ret. cbn. split; [done|]. destruct (builds d !! build_id) as [b|]; cbn; [|by apply Hother].
    destruct (is_terminal_build_status _); [by apply Hother|]. apply Hother; [done..|]. by intros t [= <-].
  - apply wp_ret. split; [done|]. apply Hother; [done..|]. intros t [= <-]. by destruct (_ && _).
  - apply wp_ret. split; [done|]. apply Hother; [done..|]. by intros t [= <-].
  - apply wp_ret. split; [done|]. by apply Hother.
  - apply wp_ret. split; [done|]. apply Hother; [done..|]. intros t [= <-]. by destruct (_ && _).
  - apply wp_ret. split; [done|]. apply Hother; [done..|]. by intros t [= <-].
  - apply wp_ret. split; [done|]. by apply Hother.
Qed.

(** C24: A stream shows a build's log to those who may read it and to no one
    else.  Whatever wakes the loop and whatever statements fail, a turn that
    yields lines is one at which the stream has not expired, its session or API
    token is still valid, is of the same user, and may read the build's project;
    the lines are the next page of the build's log; and without such an
    authorization the next check or fetch ends the stream with no line. *)
Theorem log_lines_authorized (authorization : StreamAuthorization) (build_id : string) (now : Z)
    (wakeup : StreamWakeup) (s : sse) (w w' : world) r :
  sse_turn authorization build_id now wakeup s w = (w', r) ->
  w_db w' = w_db w /\ exists events s', r = Ok (events, s')
  /\ (logs_in events <> [] -> stream_authorized authorization build_id now (w_db w)
      /\ logs_in events = page_of build_id s (w_db w))
  /\ (~ stream_authorized authorization build_id now (w_db w) ->
      wakeup = AuthorizationCheck \/ wakeup = FetchLogs -> (events, s') = ended "authorization_ended").
Proof.
  intros H. apply (wp_run _ _ _ _ _ (wp_turn authorization build_id now wakeup s (w_db w))) in H as [Hd Hr].
  split; [done|]. destruct r as [[events s']|e]; [|done]. exists events, s'. destruct Hr as [H1 H2 _ H4].
  split_and!; [done| |done]. intros Hne. split; [by apply H1|]. by destruct H2.
Qed.

(** ** A stream follows the log *)

Record stream_run := StreamRun {
  sr_world : world;
  sr_state : option sse;
  sr_sent : list sse_event;
}.

(** The loop takes a turn, or the log grows by rows after those it has. *)
Inductive stream_step (authorization : StreamAuthorization) (build_id : string) : stream_run -> stream_run -> Prop :=
  | step_turn now wakeup s w w' events s' sent :
      may_wake s wakeup = true ->
      sse_turn authorization build_id now wakeup s w = (w', Ok (events, s')) ->
      stream_step authorization build_id (StreamRun w (Some s) sent) (StreamRun w' s' (sent ++ events))
  | step_other w w' o sent :
      logs_of build_id (w_db w) `prefix_of` logs_of build_id (w_db w') ->
      StronglySorted before (logs_of build_id (w_db w')) ->
      stream_step authorization build_id (StreamRun w o sent) (StreamRun w' o sent).

(** The last sequence told, [n] before any is. *)
Definition reached (n : Z) (sent : list sse_event) : Z := default n (lc_sequence <$> last (logs_in sent)).

Definition between (n m : Z) (rows : list log_row) : list log_row :=
  filter (fun r => n < lg_sequence r <= m) rows.

Record follows (build_id : string) (n : Z) (run : stream_run) : Prop := {
  fo_sorted : StronglySorted before (logs_of build_id (w_db (sr_world run)));
  fo_sent : logs_in (sr_sent run) =
            map chunk_of_row (between n (reached n (sr_sent run)) (logs_of build_id (w_db (sr_world run))));
  fo_state : forall s, sr_state run = Some s -> last_seq s = reached n (sr_sent run);
}.

Lemma between_split n m p rows :
  StronglySorted before rows -> n <= m -> m <= p -> between n p rows = between n m rows ++ between m p rows.
Proof.
  intros Hs Hnm Hmp. unfold between. induction Hs as [|x rows Hs IH Hx]; [done|]. rewrite !filter_cons.
  destruct (decide (lg_sequence x <= m)).
  - rewrite (decide_False (P := m < lg_sequence x <= p)) by lia.
    destruct (decide (n < lg_sequence x)).
    + rewrite !decide_True by lia. cbn. by rewrite IH.
    + rewrite !decide_False by lia. done.
  - assert (Hnil : filter (fun r => n < lg_sequence r <= m) rows = []).
    { apply list_filter_none. eapply Forall_impl; [exact Hx|]. unfold before. cbn. intros. lia. }
    rewrite (decide_False (P := n < lg_sequence x <= m)) by lia. rewrite IH, Hnil. cbn [app].
    destruct (decide (lg_sequence x <= p)); [rewrite !decide_True by lia|rewrite !decide_False by lia]; done.
Qed.

Lemma sorted_filter (P : log_row -> Prop) `{!forall x, Decision (P x)} rows :
  StronglySorted before rows -> StronglySorted before (filter P rows).
Proof.
  induction 1 as [|x rows Hs IH Hx]; [constructor|]. rewrite filter_cons. case_decide; [|done].
  constructor; [done|]. apply Forall_forall. intros y [_ Hy]%list_elem_of_filter. rewrite Forall_forall in Hx. by apply Hx.
Qed.

(** A page is the rows up to its last one. *)
Lemma page_between k m rows :
  StronglySorted before rows ->
  let page := take k (filter (fun r => m < lg_sequence r) rows) in
  page = between m (default m (lg_sequence <$> last page)) rows.
Proof.
  intros Hs. set (more := filter (fun r => m < lg_sequence r) rows). cbn zeta.
  assert (Hsm : StronglySorted before more) by (by apply sorted_filter).
  destruct (last (take k more)) as [z|] eqn:Hl; cbn.
  - assert (Hb : between m (lg_sequence z) rows = filter (fun r => lg_sequence r <= lg_sequence z) more).
    { unfold between, more. rewrite list_filter_filter. apply list_filter_iff. intros. lia. }
    rewrite Hb. rewrite <- (take_drop k more) in Hsm |- * at 2. rewrite filter_app.
    apply last_Some in Hl as [l' Hl']. rewrite Hl' in *.
    assert (H1 : filter (fun r => lg_sequence r <= lg_sequence z) (l' ++ [z]) = l' ++ [z]).
    { apply list_filter_all, Forall_forall. intros x [Hx|Hx]%elem_of_app; [|set_solver by lia].
      apply StronglySorted_app_1_l in Hsm.
      assert (H : before x z) by (eapply StronglySorted_app_1_elem_of; [exact Hsm|done|set_solver]). unfold before in H. lia. }
    assert (H2 : filter (fun r => lg_sequence r <= lg_sequence z) (drop k more) = []).
    { apply list_filter_none, Forall_forall. intros x Hx.
      assert (H : before z x) by (eapply StronglySorted_app_1_elem_of; [exact Hsm|set_solver|done]). unfold before in H. lia. }
    by rewrite H1, H2, app_nil_r.
  - apply last_None in Hl. rewrite Hl. symmetry. apply list_filter_none, Forall_forall. intros. lia.
Qed.

Lemma page_of_rows build_id s d :
  page_of build_id s d = map chunk_of_row (take (Z.to_nat SSE_LOG_PAGE_SIZE)
    (filter (fun r => last_seq s < lg_sequence r) (logs_of build_id d))).
Proof. done. Qed.

Lemma reached_app n sent events : reached n (sent ++ events) = default (reached n sent) (lc_sequence <$> last (logs_in events)).
Proof. unfold reached. rewrite logs_in_app, last_app. by destruct (last (logs_in events)). Qed.

Lemma last_chunks l : lc_sequence <$> last (map chunk_of_row l) = lg_sequence <$> last l.
Proof. change (map chunk_of_row l) with (chunk_of_row <$> l). rewrite fmap_last. by destruct (last l). Qed.

(** What was told last is the log's row of that sequence, or nothing was. *)
Lemma reached_row build_id n run : follows build_id n run ->
  reached n (sr_sent run) = n \/
  exists r, r ∈ logs_of build_id (w_db (sr_world run)) /\ lg_sequence r = reached n (sr_sent run) /\ n < reached n (sr_sent run).
Proof.
  intros [_ Hsent _]. set (L := reached n (sr_sent run)) in *.
  assert (HL : L = default n (lg_sequence <$> last (between n L (logs_of build_id (w_db (sr_world run)))))).
  { rewrite <- last_chunks, <- Hsent. done. }
  destruct (last (between n L _)) as [r|] eqn:Hl; cbn in HL; [|by left]. right. exists r.
  assert (Hin : r ∈ between n L (logs_of build_id (w_db (sr_world run))))
    by (apply last_Some in Hl as [l' ->]; set_solver).
  apply list_elem_of_filter in Hin as [Hr Hin]. split_and!; [done|done|lia].
Qed.

Lemma reached_ge build_id n run : follows build_id n run -> n <= reached n (sr_sent run).
Proof. intros [->|(r & _ & _ & H)]%reached_row; lia. Qed.

Lemma follows_turn authorization build_id n now wakeup s w w' events s' sent :
  follows build_id n (StreamRun w (Some s) sent) ->
  sse_turn authorization build_id now wakeup s w = (w', Ok (events, s')) ->
  follows build_id n (StreamRun w' s' (sent ++ events)).
Proof.
  intros Hf Hturn. pose proof (reached_ge _ _ _ Hf) as Hge. destruct Hf as [Hs Hsent Hlast]. cbn [sr_world sr_sent sr_state] in *.
  apply (wp_run _ _ _ _ _ (wp_turn authorization build_id now wakeup s (w_db w))) in Hturn as [Hd [_ Hpage Hseq _]].
  specialize (Hlast s eq_refl). split; cbn [sr_world sr_sent sr_state]; rewrite ?Hd; [done| |].
  2: { intros t Ht. rewrite reached_app, (Hseq t Ht). by rewrite Hlast. }
  rewrite logs_in_app, reached_app. destruct Hpage as [->|Hpage]; [by rewrite app_nil_r|].
  rewrite Hsent, Hpage, page_of_rows, last_chunks, Hlast, <- map_app. set (L := reached n sent) in *.
  set (rows := logs_of build_id (w_db w)) in *. f_equal.
  pose proof (page_between (Z.to_nat SSE_LOG_PAGE_SIZE) L rows Hs) as Hp. cbn zeta in Hp.
  set (page := take _ _) in *. rewrite Hp at 1. symmetry. apply between_split; [done|done|].
  destruct (last page) as [z|] eqn:Hl; cbn; [|lia].
  assert (Hz : z ∈ page) by (apply last_Some in Hl as [l' ->]; set_solver).
  apply elem_of_take in Hz as (i & Hz & _). apply list_elem_of_lookup_2, list_elem_of_filter in Hz as [Hz _]. lia.
Qed.

Lemma follows_grows build_id n w w' o sent :
  follows build_id n (StreamRun w o sent) ->
  logs_of build_id (w_db w) `prefix_of` logs_of build_id (w_db w') ->
  StronglySorted before (logs_of build_id (w_db w')) ->
  follows build_id n (StreamRun w' o sent).
Proof.
  intros Hf [more Hmore] Hs'. pose proof (reached_row _ _ _ Hf) as Hr. destruct Hf as [_ Hsent Hlast]. cbn [sr_world sr_sent sr_state] in *.
  split; cbn [sr_world sr_sent sr_state]; [done| |done]. rewrite Hsent at 1. f_equal. rewrite Hmore in Hs' |- *. unfold between. rewrite filter_app.
  rewrite (list_filter_none _ more); [by rewrite app_nil_r|]. apply Forall_forall. intros x Hx.
  destruct Hr as [->|(r & Hr & Hseq & _)]; [lia|].
  assert (Hb : before r x) by (eapply StronglySorted_app_1_elem_of; [exact Hs'|done..]). unfold before in Hb. lia.
Qed.

(** A stream tells the log in order, each line once and none left out: after
    any turns and any growth of the log, what was sent is exactly the rows of
    the log from the one after [Last-Event-ID] to the last one sent. *)
Theorem stream_follows_log (authorization : StreamAuthorization) (build_id : string) (n : Z) (w : world) (run : stream_run) :
  StronglySorted before (logs_of build_id (w_db w)) ->
  rtc (stream_step authorization build_id) (StreamRun w (Some (Sse n true true None)) []) run ->
  logs_in (sr_sent run) =
    map chunk_of_row (between n (reached n (sr_sent run)) (logs_of build_id (w_db (sr_world run)))).
Proof.
  intros Hs Hrtc.
  assert (H0 : follows build_id n (StreamRun w (Some (Sse n true true None)) [])).
  { split; cbn; [done| |by intros s [= <-]]. unfold reached. cbn. symmetry. unfold between.
    rewrite (list_filter_none _ (logs_of build_id (w_db w))); [done|]. apply Forall_forall. intros. lia. }
  assert (H : forall x y, rtc (stream_step authorization build_id) x y -> follows build_id n x -> follows build_id n y).
  { intros x y. induction 1 as [|x y z Hstep _ IH]; [done|]. intros Hx. apply IH.
    destruct Hstep; eauto using follows_turn, follows_grows. }
  by apply (H _ _ Hrtc H0).
Qed.

(** ** A stream catches up *)

(** Without failing statements a current authorization is accepted. *)
Lemma sql_faultless {A} (f : db -> db * A) w : w_faults w = [] -> sql f w = (set_w_db (f (w_db w)).1 w, Ok (f (w_db w)).2).
Proof. intros H. unfold sql. rewrite H. cbn. destruct (f (w_db w)). unfold set_w_db. cbn. by rewrite H. Qed.

Lemma set_same_db w : set_w_db (w_db w) w = w.
Proof. by destruct w. Qed.

Lemma query_faultless {A} msg (f : db -> A) w : w_faults w = [] -> query msg f w = (w, Ok (f (w_db w))).
Proof. intros H. unfold query, exec, map_errM. rewrite sql_faultless by done. cbn. by rewrite set_same_db. Qed.

Lemma authorization_accepted authorization build_id now w :
  w_faults w = [] -> stream_authorized authorization build_id now (w_db w) ->
  exists session, require_current_stream_authorization authorization build_id now w = (w, Ok session).
Proof.
  intros Hw (Hexp & session & b & Hs & Hu & Hb & eff & Hrole & Hperm). exists session.
  unfold require_current_stream_authorization, guard. apply Z.ltb_lt in Hexp. rewrite Hexp.
  unfold mbind at 1, M_bind at 1. cbn [mret M_ret].
  assert (Hl : load_current_stream_session authorization now w = (w, Ok (Some session))).
  { unfold load_current_stream_session, validate_api_token_hash.
    destruct (sa_auth_source authorization); rewrite sql_faultless by done; cbn; by rewrite set_same_db, Hs. }
  unfold mbind at 1, M_bind at 1, map_errM. rewrite Hl. cbn [map_err mbind option_bind].
  rewrite (proj2 (String.eqb_eq _ _) Hu). cbn [from_option]. unfold mbind at 1, M_bind at 1. cbn [mret M_ret].
  assert (Hread : require_build_log_read session build_id w = (w, Ok tt)); [|unfold mbind, M_bind; by rewrite Hread].
  unfold require_build_log_read, load_build_project_id, mbind, M_bind. rewrite query_faultless, Hb by done.
  cbn [fmap option_fmap option_map from_option mret M_ret].
  assert (Hres : resolve_effective_project_role (user_id session) (role session) (bm_project_id (b_meta b)) (auth_source session) w
                 = (w, Ok eff)).
  { unfold resolve_effective_project_role, role_in in *. destruct (_ || _); [by injection Hrole as <-|].
    unfold mbind, M_bind. rewrite query_faultless by done. destruct (members (w_db w) !! _) as [role_str|]; [|by injection Hrole as <-].
    destruct (ProjectRole.from_str role_str) as [r0|] eqn:E; cbn in Hrole; [|done]. injection Hrole as <-. done. }
  rewrite Hres. unfold require_project_permission. rewrite bool_decide_false; [by rewrite Hperm|]. by intros ->.
Qed.

(** The turns of a pending fetch. *)
Fixpoint fetch_turns (k : nat) (authorization : StreamAuthorization) (build_id : string) (now : Z) (s : sse) (w : world)
    : list sse_event * option sse :=
  match k with
  | O => ([], Some s)
  | S k =>
      if fetch_logs_now s then
        match sse_turn authorization build_id now FetchLogs s w with
        | (w', Ok (events, Some s')) =>
            let '(more, s'') := fetch_turns k authorization build_id now s' w' in (events ++ more, s'')
        | (_, Ok (events, None)) => (events, None)
        | (_, Err _) => ([], None)
        end
      else ([], Some s)
  end.

Lemma fetch_turn_faultless authorization build_id now s w :
  w_faults w = [] -> stream_authorized authorization build_id now (w_db w) ->
  let page := page_of build_id s (w_db w) in
  let s' := Sse (default (last_seq s) (lc_sequence <$> last page)) (Z.of_nat (length page) =? SSE_LOG_PAGE_SIZE)
              (check_status_now s) (done_after_logs s) in
  sse_turn authorization build_id now FetchLogs s w =
    (w, Ok (match fetch_logs_now s', done_after_logs s' with
            | false, Some reason => (map SseLog page ++ [SseDone reason], None)
            | _, _ => (map SseLog page, Some s')
            end)).
Proof.
  intros Hw Ha. cbn zeta. destruct (authorization_accepted _ _ _ _ Hw Ha) as [session Hs].
  unfold sse_turn, catch at 1. rewrite Hs. cbn [is_ok]. unfold fetch_logs, catch, load_pending_log_page.
  rewrite sql_faultless by done. cbn [fst snd]. by rewrite set_same_db.
Qed.

(** The rows after a page are those after the page's last row. *)
Lemma rows_after_page k m rows :
  StronglySorted before rows ->
  let more := filter (fun r => m < lg_sequence r) rows in
  let m' := default m (lg_sequence <$> last (take k more)) in
  filter (fun r => m' < lg_sequence r) rows = drop k more.
Proof.
  intros Hs more m'. assert (Hsm : StronglySorted before more) by (by apply sorted_filter).
  unfold m'. destruct (last (take k more)) as [z|] eqn:Hl; cbn.
  - apply last_Some in Hl as [l' Hl']. rewrite <- (take_drop k more), Hl' in Hsm.
    assert (Hz : z ∈ more) by (rewrite <- (take_drop k more), Hl'; set_solver).
    assert (Hb : filter (fun r => lg_sequence z < lg_sequence r) rows = filter (fun r => lg_sequence z < lg_sequence r) more).
    { unfold more. rewrite list_filter_filter. apply list_filter_iff. intros r.
      apply list_elem_of_filter in Hz as [Hz _]. lia. }
    rewrite Hb, <- (take_drop k more) at 1. rewrite Hl', filter_app.
    rewrite list_filter_none, (list_filter_all _ (drop k more)); [done|..]; apply Forall_forall; intros x Hx.
    + assert (H : before z x) by (eapply StronglySorted_app_1_elem_of; [exact Hsm|set_solver|done]). exact H.
    + apply elem_of_app in Hx as [Hx|Hx]; [|apply list_elem_of_singleton in Hx; subst; lia].
      apply StronglySorted_app_1_l in Hsm.
      assert (H : before x z) by (eapply StronglySorted_app_1_elem_of; [exact Hsm|done|set_solver]). unfold before in H. lia.
  - apply last_None in Hl. fold more. rewrite <- (take_drop k more) at 1. by rewrite Hl.
Qed.

(** C29: A stream catches up.  While its authorization is current and the database
    answers, as many turns as the log has pages tell every line not told yet,
    in order; the stream then waits, or, when the build's end was announced,
    ends after the last line and not before. *)
Theorem stream_catches_up (authorization : StreamAuthorization) (build_id : string) (now : Z) (k : nat) (s : sse) (w : world) :
  w_faults w = [] -> stream_authorized authorization build_id now (w_db w) ->
  StronglySorted before (logs_of build_id (w_db w)) -> fetch_logs_now s = true ->
  let missing := filter (fun r => last_seq s < lg_sequence r) (logs_of build_id (w_db w)) in
  Z.of_nat (length missing) < SSE_LOG_PAGE_SIZE * Z.of_nat k ->
  let '(events, s') := fetch_turns k authorization build_id now s w in
  logs_in events = map chunk_of_row missing
  /\ match done_after_logs s with
     | Some reason => s' = None /\ last events = Some (SseDone reason)
     | None => exists t, s' = Some t /\ fetch_logs_now t = false
     end.
Proof.
  intros Hw Ha Hs. revert s. induction k as [|k IH]; intros s Hfetch missing Hk; [lia|].
  cbn [fetch_turns]. rewrite Hfetch, fetch_turn_faultless by done. cbn zeta.
  set (page := page_of build_id s (w_db w)). set (size := Z.to_nat SSE_LOG_PAGE_SIZE).
  assert (Hsize : Z.of_nat size = SSE_LOG_PAGE_SIZE) by (by apply Z2Nat.id).
  assert (Hpage : page = map chunk_of_row (take size missing)) by done.
  assert (Hlen : length page = Nat.min size (length missing)) by (by rewrite Hpage, length_map, length_take).
  set (s' := Sse _ _ _ _). cbn [fetch_logs_now done_after_logs]. unfold s' at 1 2 3. cbn [fetch_logs_now done_after_logs].
  destruct (Z.eqb_spec (Z.of_nat (length page)) SSE_LOG_PAGE_SIZE) as [Hfull|Hshort].
  - assert (Hnext : filter (fun r => last_seq s' < lg_sequence r) (logs_of build_id (w_db w)) = drop size missing).
    { unfold s'. cbn [last_seq]. rewrite Hpage, last_chunks. by apply rows_after_page. }
    specialize (IH s'). cbn zeta in IH. rewrite Hnext in IH.
    assert (Hmore : fetch_logs_now s' = true) by done.
    specialize (IH Hmore). rewrite length_drop in IH.
    assert (Hk' : Z.of_nat (length missing - size) < SSE_LOG_PAGE_SIZE * Z.of_nat k) by lia. specialize (IH Hk').
    destruct (fetch_turns k authorization build_id now s' w) as [more s''] eqn:Ht. destruct IH as [Hl Hd].
    assert (Hlogs : logs_in (map SseLog page ++ more) = map chunk_of_row missing).
    { by rewrite logs_in_app, logs_in_logs, Hl, Hpage, <- map_app, take_drop. }
    destruct (done_after_logs s) as [reason|]; cbn [done_after_logs] in Hd; unfold s' in Ht; rewrite Ht; (split; [done|]); [|done].
    destruct Hd as [-> Hlast]. split; [done|]. rewrite last_app, Hlast. done.
  - assert (Hall : page = map chunk_of_row missing) by (rewrite Hpage, take_ge; [done|lia]).
    destruct (done_after_logs s) as [reason|].
    + split; [|split; [done|by rewrite last_app]]. rewrite logs_in_app, logs_in_logs. cbn. by rewrite app_nil_r.
    + destruct k as [|k]; cbn [fetch_turns].
      * rewrite app_nil_r, logs_in_logs. split; [done|]. by exists s'.
      * assert (Hstop : fetch_logs_now s' = false) by done. rewrite Hstop.
        rewrite app_nil_r, logs_in_logs. split; [done|]. by exists s'.
Qed.

(** ** A sample stream *)

Module Sample.

Definition owner : user := User "o@x" "s-1" None "owner" "active" None None 0 0.

Definition rows : list log_row := [LogRow 0 "one" "stdout"; LogRow 1 "two" "stderr"].

Definition with_rows (l : list log_row) : world :=
  World (set_logs_of "b-run" l (set_users {[ "u1"%string := owner ]}
    (set_sessions {[ "h"%string := SessionRow "u1" 0 1000 ]} Db.Sample.database))) [] [].

Definition authorization : StreamAuthorization :=
  {| sa_user_id := "u1"; sa_credential_hash := "h"; sa_auth_source := Session; sa_expires_at := 300 |}.

Definition info : SessionInfo :=
  {| user_id := "u1"; email := "o@x"; oidc_subject := "s-1"; role := "owner"; expires_at := 1000; auth_source := Session |}.

Lemma current l : stream_authorized authorization "b-run" 10 (w_db (with_rows l)).
Proof.
  split; [reflexivity|]. exists info, Db.Sample.running. split_and!; [reflexivity..|].
  exists InstanceAdmin. split; reflexivity.
Qed.

Lemma sorted : StronglySorted before rows.
Proof. repeat constructor. Qed.

End Sample.

Lemma stream_limits_witness :
  let s1 := create (fun t => t) Sample.info "h" "b-run" "t1" 10 (Streams ∅ ∅ ∅ 0) in
  let s2 := acquire "u1" "b-run" (consume (fun t => t) "t1" 11 s1.1).1 in
  s1.2 = Some ("t1"%string, 310) /\ s2.2 = Some (Admission "u1" "b-run")
  /\ within_limits s2.1 [Admission "u1" "b-run"].
Proof.
  intros s1 s2. split_and!; [vm_compute; reflexivity..|].
  apply (stream_limits (fun t => t)).
  apply rtc_l with (s1.1, []); [apply op_create|].
  apply rtc_l with ((consume (fun t => t) "t1" 11 s1.1).1, []); [apply op_consume|].
  apply rtc_once, (op_acquire _ "u1" "b-run" (consume (fun t => t) "t1" 11 s1.1).1 []).
Defined.

Lemma log_lines_authorized_witness :
  let w := Sample.with_rows Sample.rows in
  let turn := sse_turn Sample.authorization "b-run" 10 FetchLogs (Sse 0 true true None) w in
  stream_authorized Sample.authorization "b-run" 10 (w_db w)
  /\ turn.2 = Ok ([SseLog (Chunk 1 "two" "stderr")], Some (Sse 1 false true None)).
Proof.
  intros w turn. split; [|vm_compute; reflexivity].
  destruct (log_lines_authorized Sample.authorization "b-run" 10 FetchLogs (Sse 0 true true None) w turn.1 turn.2)
    as (_ & events & s' & Hr & Hauth & _); [apply surjective_pairing|].
  apply Hauth. assert (He : turn.2 = Ok ([SseLog (Chunk 1 "two" "stderr")], Some (Sse 1 false true None)))
    by (vm_compute; reflexivity). rewrite He in Hr. injection Hr as <- _. discriminate.
Defined.

Lemma stream_follows_log_witness :
  let w := Sample.with_rows Sample.rows in
  let sent := [SseLog (Chunk 0 "one" "stdout"); SseLog (Chunk 1 "two" "stderr")] in
  logs_in sent = map chunk_of_row (between (-1) (reached (-1) sent) Sample.rows).
Proof.
  intros w sent.
  apply (stream_follows_log Sample.authorization "b-run" (-1) w (StreamRun w (Some (Sse 1 false true None)) sent)).
  - apply Sample.sorted.
  - apply rtc_once. apply (step_turn _ _ 10 FetchLogs (Sse (-1) true true None) w w sent _ []); [reflexivity|].
    vm_compute. reflexivity.
Defined.

Lemma stream_catches_up_witness :
  fetch_turns 1 Sample.authorization "b-run" 10 (Sse 0 true false (Some "build_finished"%string)) (Sample.with_rows Sample.rows)
    = ([SseLog (Chunk 1 "two" "stderr"); SseDone "build_finished"], None)
  /\ logs_in [SseLog (Chunk 1 "two" "stderr"); SseDone "build_finished"] = [Chunk 1 "two" "stderr"].
Proof.
  split; [vm_compute; reflexivity|].
  pose proof (stream_catches_up Sample.authorization "b-run" 10 1 (Sse 0 true false (Some "build_finished"%string))
    (Sample.with_rows Sample.rows) eq_refl (Sample.current _) Sample.sorted eq_refl eq_refl) as H.
  exact (proj1 H).
Defined.

(** The check of the status ends the stream without another fetch: lines stored
    since the last page, before the build finished, are not told. *)
Example check_ends_before_last_line :
  let w := Sample.with_rows [LogRow 0 "one" "stdout"] in
  let w' := World (touch_build "b-run" (set_status BuildStatus.Succeeded)
              (w_db (Sample.with_rows Sample.rows))) [] [] in
  let fetched := sse_turn Sample.authorization "b-run" 10 FetchLogs (Sse (-1) true true None) w in
  fetched.2 = Ok ([SseLog (Chunk 0 "one" "stdout")], Some (Sse 0 false true None))
  /\ may_wake (Sse 0 false true None) CheckStatus = true
  /\ (sse_turn Sample.authorization "b-run" 10 CheckStatus (Sse 0 false true None) w').2
     = Ok ([SseDone "build_finished"], None).
Proof. vm_compute. done. Qed.
