(* ===== verification/AccountSafety.v ===== *)
(** * What holds of accounts

    The handlers of [Accounts], [SignIn] and [Setup] as one transition system:
    every run of it is a sequence of the changes of [AccountRuns].  From there:
    setup only moves forward, a ready instance has an active owner nobody can
    demote, disabling a user ends every credential for good, and a request acts
    only for an active user with at most that user's role. *)

From stdpp Require Import relations.
From S2P Require Import Prelude Contract RustStr Db Access Runners Environments Accounts SignIn Setup Wp AccountRuns.

Local Open Scope Z_scope.

(** ** Roles *)

Lemma effective_role_min tr ur r :
  effective_token_role tr ur = Some r -> r ∈ [tr; ur] /\ role_level r = Z.min (role_level tr) (role_level ur).
Proof.
  unfold effective_token_role. case_match; [done|]. intros [= <-].
  case_match; split; try lia; set_solver.
Qed.

Lemma assignable_spec r : assignable r = true -> r ∈ VALID_ROLES /\ r <> "owner".
Proof.
  intros H%bool_decide_eq_true. unfold VALID_ROLES. split; [set_solver|]. intros ->. set_solver.
Qed.

Lemma policy_users r action : (r, "users", action) ∈ policy -> r ∈ ["owner"; "admin"].
Proof.
  assert (Forall (fun p => p.1.2 = "users" -> p.1.1 ∈ ["owner"; "admin"]) policy) as H.
  { apply Forall_forall. intros p Hp.
    assert (forallb (fun p => negb (String.eqb p.1.2 "users") || bool_decide (p.1.1 ∈ ["owner"; "admin"])) policy
            = true) as Hb by (by vm_compute).
    rewrite forallb_forall in Hb. apply list_elem_of_In, Hb in Hp. intros E. rewrite E in Hp. cbn in Hp.
    by apply bool_decide_eq_true in Hp. }
  intros Hp. by apply (proj1 (Forall_forall _ _) H (r, "users", action)).
Qed.

(** ** The transition system *)

Section Safety.

Context (hash_token to_lowercase : string -> string) (enforce : string -> string -> string -> bool)
        (encrypt decrypt : string -> option string) (drawn : string -> Prop).

(** What the daemon serves of accounts.  A handler that waits for the identity
    provider is here by its parts, so that others run in between. *)
Inductive account_handler : forall {E A : Type}, ME E A -> Prop :=
  | ah_authenticate authz now : account_handler (from_request_parts hash_token authz now)
  | ah_create_token auth name role expires id token now : drawn token ->
      account_handler (create_api_token_handler hash_token enforce auth name role expires id token now)
  | ah_revoke_token auth id now : account_handler (revoke_api_token_handler enforce auth id now)
  | ah_invite auth email role id now : account_handler (invite_user enforce auth email role id now)
  | ah_role auth target role now : account_handler (update_user_role enforce auth target role now)
  | ah_delete auth target now : account_handler (delete_user enforce auth target now)
  | ah_enable auth target now : account_handler (re_enable_user enforce auth target now)
  | ah_add_member auth pid uid r : account_handler (Members.add_project_member auth pid uid r)
  | ah_update_member auth pid uid r : account_handler (Members.update_project_member auth pid uid r)
  | ah_remove_member auth pid uid : account_handler (Members.remove_project_member auth pid uid)
  | ah_cleanup now : account_handler (cleanup_expired now)
  | ah_revoke_sessions uid : account_handler (revoke_user_sessions uid)
  | ah_oidc_start redirect_ok discover uri source rid at_ :
      account_handler (oidc_start decrypt redirect_ok discover uri source rid at_)
  | ah_oidc_callback exchange code state token now : drawn token ->
      account_handler (oidc_callback hash_token decrypt exchange code state token now)
  | ah_logout authz now : account_handler (logout hash_token authz now)
  | ah_local_login ip req id token now : drawn token ->
      account_handler (local_login hash_token to_lowercase ip req id token now)
  | ah_proxy_login header_name env in_network headers ip token now : drawn token ->
      account_handler (trusted_proxy_login hash_token to_lowercase decrypt header_name env in_network headers
                         ip token now)
  | ah_mint_capability email ttl id draw now :
      account_handler (mint_capability hash_token to_lowercase email ttl id draw now)
  | ah_verify_bootstrap req token now : account_handler (verify_bootstrap_token hash_token req token now)
  | ah_mint_bootstrap ttl token now : account_handler (mint_bootstrap_token hash_token ttl token now)
  | ah_configure url_ok discover authz req generation now :
      account_handler (configure_oidc hash_token encrypt url_ok discover authz req generation now)
  | ah_configure_commit authz req found generation now :
      account_handler (configure_oidc_commit hash_token encrypt authz req found generation now)
  | ah_setup_preferences authz mode remote generation now :
      account_handler (setup_preferences hash_token authz mode remote generation now)
  | ah_setup_proxy header_name canonical authz req generation now :
      account_handler (setup_trusted_proxy_configure hash_token to_lowercase encrypt header_name canonical authz
                         req generation now)
  | ah_claim_proxy header_name env in_network headers ip now :
      account_handler (setup_owner_claim_trusted_proxy hash_token to_lowercase decrypt header_name env in_network
                         headers ip now)
  | ah_setup_begin redirect_ok authz uri now :
      account_handler (setup_oidc_begin hash_token decrypt redirect_ok authz uri now)
  | ah_setup_pending redirect_ok state p now :
      account_handler (commit_setup_oidc_pending redirect_ok state p now)
  | ah_setup_take state now : account_handler (setup_oidc_take state now)
  | ah_setup_callback redirect_ok a uri now :
      account_handler (validate_setup_oidc_callback decrypt redirect_ok a uri now)
  | ah_setup_owner redirect_ok a uri email subject generation now :
      account_handler (commit_setup_oidc_owner redirect_ok a uri email subject generation now)
  | ah_local_owner authz email now :
      account_handler (setup_local_owner_create hash_token to_lowercase authz email now)
  | ah_complete header_name authz id now :
      account_handler (complete_setup hash_token to_lowercase header_name authz id now)
  | ah_summary authz now : account_handler (setup_summary hash_token authz now)
  | ah_ensure_owner id now : account_handler (ensure_owner_user to_lowercase id now)
  | ah_init instance_id now : account_handler (init_if_missing instance_id now)
  | ah_external_oidc url_ok discover auth issuer client secret now :
      account_handler (configure_external_access_oidc encrypt enforce url_ok discover auth issuer client secret now)
  | ah_preferences preflight auth req now :
      account_handler (update_instance_preferences enforce preflight auth req now)
  | ah_proxy_settings header_name canonical env ip auth header cidrs secret ticket now :
      account_handler (update_external_access_trusted_proxy_settings to_lowercase encrypt enforce header_name
                         canonical env ip auth header cidrs secret ticket now).

(** A handler is served, whatever statements fail. *)
Definition account_step (w w' : world) : Prop :=
  exists E A (m : ME E A) r, account_handler m /\ m w = (w', r).

Lemma account_handler_changes {E A} (m : ME E A) : account_handler m -> Changes hash_token drawn m.
Proof.
  intros []; eauto using changes_authenticate, changes_create_token, changes_revoke_token, changes_invite_user,
    changes_update_user_role, changes_delete_user, changes_re_enable_user, changes_add_member,
    changes_update_member, changes_remove_member, changes_cleanup_expired, changes_revoke_user_sessions,
    changes_oidc_start, changes_oidc_callback, changes_logout, changes_local_login, changes_trusted_proxy_login,
    changes_mint_capability, changes_verify_bootstrap, changes_mint_bootstrap, changes_configure_oidc,
    changes_configure_commit, changes_setup_preferences, changes_trusted_proxy_configure,
    changes_claim_trusted_proxy, changes_setup_begin, changes_commit_pending, changes_setup_take,
    changes_validate_callback, changes_commit_owner, changes_local_owner, changes_complete_setup,
    changes_setup_summary, changes_ensure_owner, changes_init, changes_external_oidc, changes_preferences,
    changes_proxy_settings.
Qed.

Lemma account_run_changes w w' :
  rtc account_step w w' -> rtc (change hash_token drawn) (w_db w) (w_db w').
Proof.
  induction 1 as [w|w w1 w2 (E & A & m & r & Hm & Hr) _ IH]; [reflexivity|].
  etrans; [|exact IH]. exact (wp_run _ _ _ _ _ (account_handler_changes _ Hm _) Hr).
Qed.

(** ** Setup *)

Definition rank (st : SetupState.t) : Z :=
  match st with
  | SetupState.Uninitialized => 0
  | SetupState.BootstrapPending => 1
  | SetupState.IdpConfigured => 2
  | SetupState.OwnerCreated => 3
  | SetupState.Ready => 4
  end.

(** [sf'] is [sf] or a later state of the same setup: the owner is chosen once,
    and a ready instance stays ready. *)
Definition later (sf sf' : SetupStateFile) : Prop :=
  sf_instance_id sf' = sf_instance_id sf /\
  rank (sf_setup_state sf) <= rank (sf_setup_state sf') /\
  (3 <= rank (sf_setup_state sf) -> sf_setup_state sf' = sf_setup_state sf -> sf_owner sf' = sf_owner sf).

Lemma later_refl sf : later sf sf.
Proof. split_and!; [done|lia|done]. Qed.

Lemma rank_inj st st' : rank st = rank st' -> st = st'.
Proof. by destruct st, st'. Qed.

Lemma later_trans sf1 sf2 sf3 : later sf1 sf2 -> later sf2 sf3 -> later sf1 sf3.
Proof.
  intros (H1 & H2 & H3) (H4 & H5 & H6). split_and!; [congruence|lia|].
  intros Hr He. assert (sf_setup_state sf2 = sf_setup_state sf1) as H12.
  { apply rank_inj. rewrite He in H5. lia. }
  rewrite H6, H3; [done|done|done|by rewrite H12|congruence].
Qed.

Lemma setup_move_later d sf sf' :
  sf_instance_id sf' = sf_instance_id sf -> setup_move d sf sf' -> later sf sf'.
Proof.
  intros Hi Hm. split; [done|].
  destruct Hm as [Hs Ho|Hin Hs Ho|o Hin Hs Ho|o uid u Hn Hs Ho _ _|Hs0 Ho0 Hs Ho]; rewrite Hs.
  - split; [lia|done].
  - destruct (sf_setup_state sf); set_solver by (cbn; lia).
  - destruct (sf_setup_state sf); set_solver by (cbn; lia).
  - destruct (sf_setup_state sf); cbn; split; (lia || done).
  - rewrite Hs0. cbn. split; [lia|done].
Qed.

Lemma change_later d d' sf :
  change hash_token drawn d d' -> setup_row d = Some sf -> exists sf', setup_row d' = Some sf' /\ later sf sf'.
Proof.
  intros Hc Hsf.
  assert (Hsame : setup_row d' = setup_row d -> exists sf', setup_row d' = Some sf' /\ later sf sf').
  { intros H. exists sf. split; [congruence|apply later_refl]. }
  destruct Hc; unfold same_rows, only_users, only_sessions, only_tokens in *; destruct_and?; try (by apply Hsame).
  - simplify_eq. eexists. split; [done|by eapply setup_move_later].
  - congruence.
Qed.

(** Setup only moves forward.  Whatever is served and whatever fails, from
    an instance with a setup row on: the row stays, the instance keeps its
    identity, the state never goes back, a ready instance stays ready with the
    owner it has, and between the choice of the owner and completion nobody
    replaces the owner. *)
Theorem setup_only_forward w w' sf :
  rtc (account_step) w w' -> setup_row (w_db w) = Some sf ->
  exists sf', setup_row (w_db w') = Some sf' /\ later sf sf'.
Proof.
  intros H%account_run_changes. revert H. generalize (w_db w) (w_db w'). clear w w'.
  intros d d' H. revert sf. induction H as [d|d d1 d2 H1 _ IH]; intros sf Hsf.
  - eauto using later_refl.
  - destruct (change_later _ _ _ H1 Hsf) as (sf1 & Hsf1 & Hl1).
    destruct (IH _ Hsf1) as (sf2 & Hsf2 & Hl2). eauto using later_trans.
Qed.

(** ** The owner *)

Definition valid_status (st : string) : Prop := st = "active" \/ st = "disabled" \/ st = "invited".

(** Roles and statuses are of the schema, owners are active, sessions belong to
    users; once an owner is chosen it is recorded, and once setup is ready there
    is an owner. *)
Record account_ok (d : db) : Prop := {
  ok_role : forall id u, users d !! id = Some u -> u_role u ∈ VALID_ROLES;
  ok_status : forall id u, users d !! id = Some u -> valid_status (u_status u);
  ok_owner : forall id u, users d !! id = Some u -> u_role u = "owner" -> u_status u = "active";
  ok_session : forall h s, sessions d !! h = Some s -> is_Some (users d !! ss_user_id s);
  ok_chosen : forall sf, setup_row d = Some sf -> 3 <= rank (sf_setup_state sf) -> is_Some (sf_owner sf);
  ok_ready : forall sf, setup_row d = Some sf -> sf_setup_state sf = SetupState.Ready ->
    exists id u, users d !! id = Some u /\ u_role u = "owner";
}.

(** One row of [users] is replaced. *)
Lemma account_ok_user d d' id u :
  account_ok d -> users d' = <[id := u]> (users d) -> setup_row d' = setup_row d ->
  sessions d' ⊆ sessions d ->
  u_role u ∈ VALID_ROLES -> valid_status (u_status u) -> (u_role u = "owner" -> u_status u = "active") ->
  (forall u0, users d !! id = Some u0 -> u_role u0 = "owner" -> u_role u = "owner") ->
  account_ok d'.
Proof.
  intros [H1 H2 H3 H4 H5 H6] Hu Hs Hss Hr Hst Ho Hkeep. split.
  - intros id' u'. rewrite Hu, lookup_insert. case_decide; intros ?; simplify_eq; eauto.
  - intros id' u'. rewrite Hu, lookup_insert. case_decide; intros ?; simplify_eq; eauto.
  - intros id' u'. rewrite Hu, lookup_insert. case_decide; intros ?; simplify_eq; eauto.
  - intros h s Hs'. rewrite Hu. apply lookup_insert_is_Some'. right. eapply H4, lookup_weaken; eauto.
  - intros sf. rewrite Hs. apply H5.
  - intros sf. rewrite Hs. intros Hsf Hrd. destruct (H6 _ Hsf Hrd) as (oid & o & Hoid & Hor).
    rewrite Hu. destruct (decide (oid = id)) as [->|Hne].
    + exists id, u. rewrite lookup_insert_eq. split; [done|]. by eapply Hkeep.
    + exists oid, o. by rewrite lookup_insert_ne.
Qed.

(** Users stay. *)
Lemma account_ok_same d d' :
  account_ok d -> users d' = users d -> setup_row d' = setup_row d ->
  (forall h s, sessions d' !! h = Some s -> is_Some (users d !! ss_user_id s)) -> account_ok d'.
Proof.
  intros [H1 H2 H3 H4 H5 H6] Hu Hs Hss. split; rewrite ?Hu, ?Hs; done.
Qed.

Local Ltac rewrite_same := repeat match goal with H : ?f ?d' = ?f ?d |- context [?f ?d'] => rewrite H end.

Lemma change_ok d d' : change hash_token drawn d d' -> account_ok d -> account_ok d'.
Proof.
  intros Hc Hok. pose proof Hok as [H1 H2 H3 H4 H5 H6].
  destruct Hc as [Hf|id u Hf Hn Hu Ha Hs|id u u' Hf Hl Hu Ho Ha Hs He Hsub|id u now Hsr Hl Ho Hu Hk Hrv Hss Hgone
    |id u now Hf Hl Ho Hd Hu|id u u' Hf Hl Hs Hu Hs' Hr He|id u u' Hf Hl Hu (He & Hsub & Hr & Hs)
    |token s u Hf Hd Hn Hl Hs Hu|Hf Hss|id t token Hf Hd Hn Hh Hv Ht|Hf Hk
    |sf sf' Hf Hsf Hsf' Hi Hm|sf' Hf Hsf Hsf' Hst Hown|uid u em Hf Hun Hu (He & Hr & Hs) Hem|uid u Hf He Hu (_ & Hr & Hs)];
    unfold same_rows, only_users, only_sessions, only_tokens, only_setup in *; destruct_and?.
  - eapply account_ok_same; eauto. intros h s. rewrite_same. apply H4.
  - destruct (assignable_spec _ Ha) as [Hv Hno].
    eapply account_ok_user; try eassumption; [by rewrite_same|by rewrite Hs; right; right|done|congruence].
  - destruct (assignable_spec _ Ha) as [Hv Hno].
    eapply account_ok_user; try eassumption; [by rewrite_same|rewrite Hs; by apply (H2 id u)|done|congruence].
  - eapply account_ok_user; try eassumption; [by apply (H1 id u)|by right; left|done|congruence].
  - eapply account_ok_user; try eassumption; [by rewrite_same|by apply (H1 id u)|by left|done|congruence].
  - eapply account_ok_user; try eassumption; [by rewrite_same|rewrite Hr; by apply (H1 id u)|rewrite Hs'; by left|done|].
    intros u0 Hu0 Hr0. simplify_eq. congruence.
  - eapply account_ok_user; try eassumption; [by rewrite_same|rewrite Hr; by apply (H1 id u)|rewrite Hs; by apply (H2 id u)|..].
    + rewrite Hr, Hs. by apply (H3 id u).
    + intros u0 Hu0 Hr0. simplify_eq. congruence.
  - eapply account_ok_same; eauto. intros h s0. rewrite Hu, lookup_insert. case_decide; [|apply H4].
    intros [= <-]. eauto.
  - eapply account_ok_same; eauto. intros h s Hs. eapply H4, lookup_weaken; eauto.
  - eapply account_ok_same; eauto. intros h s. rewrite_same. apply H4.
  - eapply account_ok_same; eauto. intros h s. rewrite_same. apply H4.
  - split; rewrite_same; try done.
    + intros sf0. rewrite Hsf'. intros [= <-]. specialize (H5 _ Hsf).
      destruct Hm as [Hs Ho|Hin Hs Ho|o Hin Hs Ho|o uid u Hn Hs Ho _ _|Hs0 Ho0 Hs Ho]; rewrite Hs; cbn.
      * by rewrite Ho.
      * lia.
      * rewrite Ho. eauto.
      * rewrite Ho. eauto.
      * rewrite Hs0 in H5. cbn in H5. rewrite Ho0 in H5. destruct H5; [lia|done].
    + intros sf0. rewrite Hsf'. intros [= <-] Hrd.
      destruct Hm as [Hs Ho|Hin Hs Ho|o Hin Hs Ho|o uid u Hn Hs Ho Hu (He & Hr & Hst)|Hs0 Ho0 Hs Ho].
      * eapply H6; [done|congruence].
      * congruence.
      * congruence.
      * eauto.
      * specialize (H5 _ Hsf). rewrite Hs0 in H5. cbn in H5. rewrite Ho0 in H5. destruct H5; [lia|done].
  - split; rewrite_same; try done.
    + intros sf0. rewrite Hsf'. intros [= <-]. rewrite Hst. cbn. lia.
    + intros sf0. rewrite Hsf'. intros [= <-]. congruence.
  - eapply account_ok_user; try eassumption; [by rewrite_same|rewrite Hr; by left|rewrite Hs; by left|done|done].
  - split; rewrite_same; try done; rewrite ?Hu.
    + intros id u' [-> <-]%lookup_singleton_Some. rewrite Hr. by left.
    + intros id u' [-> <-]%lookup_singleton_Some. rewrite Hs. by left.
    + by intros id u' [-> <-]%lookup_singleton_Some.
    + intros h s Hses. apply H4 in Hses as [x Hx]. rewrite He in Hx. by apply lookup_empty_Some in Hx.
    + intros sf _ _. exists uid, u. by rewrite lookup_singleton_eq.
Qed.

Lemma account_run_ok w w' : rtc account_step w w' -> account_ok (w_db w) -> account_ok (w_db w').
Proof.
  intros H%account_run_changes. induction H as [|? ? ? H1 _ IH]; [done|]. intros Hok. by eapply IH, change_ok.
Qed.

(** C11: What holds of accounts in every run.  Starting from any state that
    satisfies it - the empty tables of a new instance do - and whatever is
    served and fails: roles and statuses are those of the schema, owners are
    active, every session belongs to a user, a chosen owner is recorded, and an
    instance whose setup is ready has an active owner. *)
Theorem account_invariant w w' :
  rtc account_step w w' -> account_ok (w_db w) ->
  account_ok (w_db w') /\
  forall sf, setup_row (w_db w') = Some sf -> sf_setup_state sf = SetupState.Ready ->
    exists id u, users (w_db w') !! id = Some u /\ u_role u = "owner" /\ u_status u = "active".
Proof.
  intros H Hok. pose proof (account_run_ok _ _ H Hok) as Hok'. split; [done|]. intros sf Hsf Hr. destruct (ok_ready _ Hok' _ Hsf Hr) as (id & u & Hu & Ho).
  exists id, u. by eauto using ok_owner.
Qed.

(** [d'] has the owners of [d], unchanged. *)
Definition same_owners (d d' : db) : Prop :=
  (forall id u, users d !! id = Some u -> u_role u = "owner" ->
     exists u', users d' !! id = Some u' /\ same_identity u u') /\
  (forall id u', users d' !! id = Some u' -> u_role u' = "owner" ->
     exists u, users d !! id = Some u /\ u_role u = "owner").

Definition ready (d : db) : Prop :=
  exists sf, setup_row d = Some sf /\ sf_setup_state sf = SetupState.Ready.

Lemma same_identity_refl u : same_identity u u.
Proof. by split_and!. Qed.

Lemma same_owners_refl d d' : users d' = users d -> same_owners d d'.
Proof. intros Hu. split; rewrite Hu; eauto using same_identity_refl. Qed.

Lemma same_owners_trans d1 d2 d3 : same_owners d1 d2 -> same_owners d2 d3 -> same_owners d1 d3.
Proof.
  intros [H1 H2] [H3 H4]. split.
  - intros id u Hu Ho. destruct (H1 _ _ Hu Ho) as (u2 & Hu2 & E1 & E2 & E3 & E4).
    destruct (H3 _ _ Hu2) as (u3 & Hu3 & F1 & F2 & F3 & F4); [congruence|].
    exists u3. split; [done|]. split_and!; congruence.
  - intros id u Hu Ho. destruct (H4 _ _ Hu Ho) as (u2 & Hu2 & Ho2). eauto.
Qed.

(** One row that is no owner before and after, or an owner kept. *)
Lemma same_owners_insert d d' id u' :
  users d' = <[id := u']> (users d) ->
  (forall u, users d !! id = Some u -> u_role u = "owner" -> same_identity u u') ->
  (u_role u' = "owner" -> exists u, users d !! id = Some u /\ u_role u = "owner") ->
  same_owners d d'.
Proof.
  intros Hu H1 H2. split; intros id0 u0; rewrite Hu, lookup_insert.
  - intros Hu0 Ho. case_decide; simplify_eq; eauto using same_identity_refl.
  - case_decide; intros ?; simplify_eq; eauto.
Qed.

Lemma change_same_owners d d' :
  change hash_token drawn d d' -> account_ok d -> ready d -> same_owners d d'.
Proof.
  intros Hc [H1 H2 H3 H4 H5 H6] (sf0 & Hsf0 & Hrd).
  destruct Hc as [Hf|id u Hf Hn Hu Ha Hs|id u u' Hf Hl Hu Ho Ha Hs He Hsub|id u now Hsr Hl Ho Hu Hk Hrv Hss Hgone
    |id u now Hf Hl Ho Hd Hu|id u u' Hf Hl Hs Hu Hs' Hr He|id u u' Hf Hl Hu (He & Hsub & Hr & Hs)
    |token s u Hf Hd Hn Hl Hs Hu|Hf Hss|id t token Hf Hd Hn Hh Hv Ht|Hf Hk
    |sf sf' Hf Hsf Hsf' Hi Hm|sf' Hf Hsf Hsf' Hst Hown|uid u em Hf Hun Hu (He & Hr & Hs) Hem|uid u Hf He Hu (_ & Hr & Hs)];
    unfold same_rows, only_users, only_sessions, only_tokens, only_setup in *; destruct_and?;
    try (by apply same_owners_refl); try (eapply same_owners_insert; [eassumption|..]).
  - intros; congruence.
  - intros Ho. by destruct (assignable_spec _ Ha).
  - intros; congruence.
  - intros Ho'. by destruct (assignable_spec _ Ha).
  - intros; congruence.
  - done.
  - intros; congruence.
  - done.
  - intros u0 Hu0 Ho0. simplify_eq. specialize (H3 _ _ Hl Ho0). congruence.
  - rewrite Hr. eauto.
  - intros u0 Hu0 Ho0. simplify_eq. by split_and!.
  - rewrite Hr. eauto.
  - destruct Hun as (sf & Hsf & Hne). congruence.
  - destruct Hun as (sf & Hsf & Hne). congruence.
  - destruct (H6 _ Hsf0 Hrd) as (? & ? & Hx & _). rewrite He in Hx. by apply lookup_empty_Some in Hx.
Qed.

Lemma change_ready d d' : change hash_token drawn d d' -> ready d -> ready d'.
Proof.
  intros Hc (sf & Hsf & Hr). destruct (change_later _ _ _ Hc Hsf) as (sf' & Hsf' & _ & Hl & _).
  exists sf'. split; [done|]. rewrite Hr in Hl. by destruct (sf_setup_state sf').
Qed.

(** C5: The owner cannot be touched.  Once setup is ready, no request - of an
    admin, of a user signing in, of the setup wizard served again - demotes,
    disables or renames the owner, gives the owner's row another OIDC subject,
    or makes anyone else an owner. *)
Theorem owner_untouchable w w' :
  rtc account_step w w' -> account_ok (w_db w) -> ready (w_db w) -> same_owners (w_db w) (w_db w').
Proof.
  intros H%account_run_changes. induction H as [d|d d1 d2 H1 _ IH]; intros Hok Hr.
  - by apply same_owners_refl.
  - eapply same_owners_trans; [by eapply change_same_owners|].
    apply IH; [by eapply change_ok|by eapply change_ready].
Qed.

(** ** Credentials *)

(** Nothing that hashes to [h] stands for [target]. *)
Definition ended (target h : string) (d : db) : Prop :=
  (forall s, sessions d !! h = Some s -> ss_user_id s <> target) /\
  (forall tid t, api_tokens d !! tid = Some t -> at_token_hash t = h -> at_created_by t = target ->
     at_revoked_at t <> None).

Lemma ended_kept target h d d' :
  ended target h d -> sessions d' ⊆ sessions d -> tokens_kept d d' -> ended target h d'.
Proof.
  intros [H1 H2] Hs Hk. split.
  - intros s Hd'. eapply H1, lookup_weaken; eauto.
  - intros tid t Ht Hh Hc. specialize (Hk tid). rewrite Ht in Hk.
    inversion Hk as [t0 ? (K1 & K2 & _ & _ & K5) Et0|]; subst. apply K5, (H2 tid); congruence.
Qed.

Lemma tokens_kept_same d d' : api_tokens d' = api_tokens d -> tokens_kept d d'.
Proof. intros H id. rewrite H. destruct (api_tokens d !! id); constructor. by split_and!. Qed.

Lemma change_ended target h d d' :
  change hash_token drawn d d' -> (forall token, drawn token -> hash_token token <> h) ->
  ended target h d -> ended target h d'.
Proof.
  intros Hc Hfresh Hend.
  destruct Hc; unfold same_rows, only_users, only_sessions, only_tokens, only_setup in *; destruct_and?;
    try (by apply (ended_kept _ _ d); [done|rewrite_same|apply tokens_kept_same]);
    try (by apply (ended_kept _ _ d); [done|rewrite_same|]).
  - destruct Hend as [E1 E2]. split; [|by rewrite_same].
    intros s0. match goal with H : sessions d' = _ |- _ => rewrite H end.
    rewrite lookup_insert_ne; [apply E1|]. by apply Hfresh.
  - destruct Hend as [E1 E2]. split; [by rewrite_same|].
    intros tid t0. match goal with H : api_tokens d' = _ |- _ => rewrite H end.
    rewrite lookup_insert. case_decide; [|apply E2].
    intros [= <-] Hh. exfalso. eapply Hfresh; [eassumption|congruence].
Qed.

Lemma delete_user_ends auth target now d :
  wp (delete_user enforce auth target now) d (fun r d' =>
    match r with Ok _ => forall h, ended target h d' | Err _ => True end).
Proof.
  unfold delete_user. acc_walk; try done; intros h; cbn.
  all: split; cbn.
  all: try (intros s [_ Hf]%map_lookup_filter_Some; cbn in Hf; by apply String.eqb_neq in Hf).
  all: intros tid t; rewrite map_lookup_imap; destruct (api_tokens d !! tid) as [t0|]; [|done];
    cbn; intros [= <-] _ Hc; revert Hc; (destruct (String.eqb_spec (at_created_by t0) target); cbn; [|done]);
    by case_bool_decide.
Qed.

Lemma head_filter_token h d id t :
  token_by_hash h d = Some (id, t) -> api_tokens d !! id = Some t /\ at_token_hash t = h.
Proof.
  intros [Hh Ht]%head_Some_elem_of%list_elem_of_filter. by apply elem_of_map_to_list in Ht.
Qed.

(** Who a request acts for: the active user of an unexpired session, with the
    user's role, or of an API token that is neither revoked nor expired, with
    the lower of the token's and the user's role. *)
Definition stands_for (h : string) (now : Z) (d : db) (info : SessionInfo) : Prop :=
  exists u, users d !! user_id info = Some u /\ u_status u = "active" /\
    email info = u_email u /\ oidc_subject info = u_oidc_subject u /\
    ((exists s, sessions d !! h = Some s /\ ss_user_id s = user_id info /\ now < ss_expires_at s /\
        auth_source info = Session /\ role info = u_role u) \/
     (exists tid t, api_tokens d !! tid = Some t /\ at_token_hash t = h /\
        at_created_by t = user_id info /\ at_revoked_at t = None /\
        (forall at_, at_expires_at t = Some at_ -> now < at_) /\ auth_source info = ApiToken /\
        role info ∈ [at_role t; u_role u] /\
        role_level (role info) = Z.min (role_level (at_role t)) (role_level (u_role u)))).

Lemma session_info_stands h now d info : session_info h now d = Some info -> stands_for h now d info.
Proof.
  unfold session_info. intros (s & Hs & (u & Hu & H)%bind_Some)%bind_Some.
  destruct (_ && _) eqn:E; [|done]. injection H as <-. apply andb_true_iff in E as [E1 E2].
  apply String.eqb_eq in E2. exists u. cbn. split_and!; try done. left. exists s. split_and!; (done || lia).
Qed.

Lemma token_info_stands h now d info : token_info h now d = Some info -> stands_for h now d info.
Proof.
  unfold token_info. intros ([tid t] & [Ht Hh]%head_filter_token & (u & Hu & H)%bind_Some)%bind_Some.
  cbn in H. destruct (_ && _) eqn:E; [|done]. apply bind_Some in H as (r & Hr & [= <-]).
  apply effective_role_min in Hr as [Hin Hmin].
  apply andb_true_iff in E as [[E1%bool_decide_eq_true E2]%andb_true_iff E3%String.eqb_eq].
  exists u. cbn. split_and!; try done. right. exists tid, t. split_and!; try done.
  intros at_ Hat. rewrite Hat in E2. lia.
Qed.

Lemma extract_bearer_spec authz token :
  extract_bearer authz = Some token <-> authz = Some ("Bearer " +:+ token).
Proof.
  unfold extract_bearer. split.
  - intros (a & -> & H)%bind_Some. f_equal. by apply strip_prefix_Some.
  - intros ->. cbn [mbind option_bind]. by apply strip_prefix_Some.
Qed.

(** Nothing but the last use of tokens is written. *)
Definition only_last_used (d d' : db) : Prop :=
  d' = d \/ exists h now, d' = update_tokens (fun _ t => String.eqb (at_token_hash t) h) (set_last_used now) d.

Lemma authenticate_wp authz now d :
  wp (from_request_parts hash_token authz now) d (fun r d' =>
    only_last_used d d' /\
    match r with
    | Ok info => exists token, authz = Some ("Bearer " +:+ token) /\ stands_for (hash_token token) now d info
    | Err _ => True
    end).
Proof.
  unfold from_request_parts, validate_session, validate_api_token, validate_api_token_hash, update_last_used.
  acc_walk;
    try match goal with H : extract_bearer _ = Some _ |- _ => apply extract_bearer_spec in H end.
  all: split; [first [by left|right; eauto]|try done].
  all: eexists; split; [eassumption|]; first [by apply session_info_stands|by apply token_info_stands].
Qed.

(** Who a request acts for.  A request is served only with a bearer token
    that is an unexpired session of an active user, with that user's current
    role, or an API token of an active user that is neither revoked nor
    expired, with the lower of its role and the user's current role; reading
    the request writes nothing but the token's last use. *)
Theorem authenticated_identity authz now w w' r :
  from_request_parts hash_token authz now w = (w', r) ->
  only_last_used (w_db w) (w_db w') /\
  forall info, r = Ok info ->
    exists token, authz = Some ("Bearer " +:+ token) /\ stands_for (hash_token token) now (w_db w) info.
Proof.
  intros H. destruct (wp_run _ _ _ _ _ (authenticate_wp authz now (w_db w)) H) as [H1 H2].
  split; [done|]. intros info ->. done.
Qed.

Lemma ended_stands target h now d info : ended target h d -> stands_for h now d info -> user_id info <> target.
Proof.
  intros [H1 H2] (u & _ & _ & _ & _ & [(s & Hs & Hu & _)|(tid & t & Ht & Hh & Hc & Hr & _)]) Hi.
  - by apply (H1 s Hs); rewrite Hu.
  - by apply (H2 tid t Ht Hh); [rewrite Hc|].
Qed.

(** C6: Disabling a user ends every credential for good.  Once [delete_user]
    has answered, no session and no API token the user had - none that is not
    drawn later - ever acts for that user again, whatever is served after, the
    user's re-enabling included. *)
Theorem revocation_is_final auth target now w w1 n w2 token at_ w3 info :
  delete_user enforce auth target now w = (w1, Ok n) ->
  rtc account_step w1 w2 ->
  (forall later, drawn later -> hash_token later <> hash_token token) ->
  from_request_parts hash_token (Some ("Bearer " +:+ token)) at_ w2 = (w3, Ok info) ->
  user_id info <> target.
Proof.
  intros Hdel Hrun%account_run_changes Hfresh Hreq.
  pose proof (wp_run _ _ _ _ _ (delete_user_ends auth target now (w_db w)) Hdel (hash_token token)) as Hend.
  assert (ended target (hash_token token) (w_db w2)) as Hend2.
  { revert Hend. induction Hrun as [|? ? ? H1 _ IH]; [done|]. intros Hend. by eapply IH, change_ended. }
  destruct (wp_run _ _ _ _ _ (authenticate_wp _ at_ (w_db w2)) Hreq) as (_ & t & Ht & Hst).
  assert (t = token) as ->.
  { injection Ht as Ht. symmetry. exact Ht. }
  by eapply ended_stands.
Qed.

(** ** User management *)

(** What the caller of a user-management endpoint must be. *)
Definition may_manage (auth : SessionInfo) (target_role : string) : Prop :=
  role auth ∈ ["owner"; "admin"] /\ target_role <> "owner" /\
  (target_role = "admin" -> role auth = "owner").

Context `{!Casbin enforce}.

Lemma enforce_users r action : enforce r "users" action = true -> r ∈ ["owner"; "admin"].
Proof. rewrite enforces. intros H%bool_decide_eq_true. by eapply policy_users. Qed.

(** A request is refused and the users stay, or the caller may manage the
    target and [f] is what became of it. *)
Definition managed {A} (auth : SessionInfo) (target : string) (f : user -> user) (d : db)
    (r : result api_error A) (d' : db) : Prop :=
  ((exists e, r = Err e) /\ users d' = users d) \/
  (exists u, users d !! target = Some u /\ may_manage auth (u_role u) /\
     users d' = <[target := f u]> (users d)).

Lemma managed_refused {A} auth target f d d' e : users d' = users d -> @managed A auth target f d (Err e) d'.
Proof. left. eauto. Qed.

Lemma managed_done {A} auth target f d d' (r : result api_error A) a action :
  u_role <$> users d !! target = Some a -> negb (String.eqb a "owner") = true ->
  enforce (role auth) "users" action = true -> (a = "admin" -> role auth = "owner") ->
  users d' = alter f target (users d) -> managed auth target f d r d'.
Proof.
  intros Ha Ho Hp Hadm Hu. destruct (not_owner_role _ _ _ Ha Ho) as (u & Hl & <- & Hno).
  right. exists u. rewrite Hu, (alter_some _ _ _ _ Hl). split_and!; try done. split; [by eapply enforce_users|done].
Qed.

Lemma update_role_managed auth target req_role now d :
  wp (update_user_role enforce auth target req_role now) d (fun r d' =>
    managed auth target (set_u_role req_role now) d r d' /\
    (users d' <> users d -> assignable req_role = true /\ (req_role = "admin" -> role auth = "owner"))).
Proof.
  unfold update_user_role. acc_walk.
  all: try (split; [by apply managed_refused|done]).
  all: split; [eapply managed_done; try eassumption|intros _; split; [done|]].
  all: try first [done | by intros ->].
Qed.

Lemma delete_user_managed auth target now d :
  wp (delete_user enforce auth target now) d (fun r d' =>
    managed auth target (set_u_status "disabled" now) d r d' /\
    (users d' <> users d -> user_id auth <> target)).
Proof.
  unfold delete_user. acc_walk.
  all: try (split; [by apply managed_refused|done]).
  all: split; [eapply managed_done; try eassumption|intros _; by apply String.eqb_neq, negb_true_iff].
  all: try first [done | by intros ->].
Qed.

Lemma re_enable_managed auth target now d :
  wp (re_enable_user enforce auth target now) d (fun r d' =>
    managed auth target (set_u_status "active" now) d r d' /\
    (users d' <> users d -> user_id auth <> target /\
       exists u, users d !! target = Some u /\ u_status u = "disabled")).
Proof.
  unfold re_enable_user. acc_walk.
  all: try (split; [by apply managed_refused|done]).
  all: match goal with H : users _ !! _ = Some ?u |- _ =>
         split; [eapply managed_done; try eassumption; rewrite ?H; try done|intros _; split]
       end.
  all: try first [done | by intros Hx; rewrite Hx in * | by apply String.eqb_neq, negb_true_iff
                  | by eexists; split; [eassumption|apply String.eqb_eq]].
Qed.

(** Who manages users.  Whatever fails, changing a role, disabling and
    re-enabling either refuse and leave the users as they were or are an
    owner's or admin's doing (the policy gives no one else these actions), do
    exactly their one change to the target, never touch an owner, and touch an
    admin - or make one - only for an owner; nobody disables or re-enables
    themselves, and only disabled users are re-enabled. *)
Theorem user_management_gate auth target req_role now w :
  (forall w' r, update_user_role enforce auth target req_role now w = (w', r) ->
     managed auth target (set_u_role req_role now) (w_db w) r (w_db w') /\
     (users (w_db w') <> users (w_db w) ->
        assignable req_role = true /\ (req_role = "admin" -> role auth = "owner"))) /\
  (forall w' r, delete_user enforce auth target now w = (w', r) ->
     managed auth target (set_u_status "disabled" now) (w_db w) r (w_db w') /\
     (users (w_db w') <> users (w_db w) -> user_id auth <> target)) /\
  (forall w' r, re_enable_user enforce auth target now w = (w', r) ->
     managed auth target (set_u_status "active" now) (w_db w) r (w_db w') /\
     (users (w_db w') <> users (w_db w) -> user_id auth <> target /\
        exists u, users (w_db w) !! target = Some u /\ u_status u = "disabled")).
Proof.
  split_and!; intros w' r H.
  - exact (wp_run _ _ _ _ _ (update_role_managed auth target req_role now _) H).
  - exact (wp_run _ _ _ _ _ (delete_user_managed auth target now _) H).
  - exact (wp_run _ _ _ _ _ (re_enable_managed auth target now _) H).
Qed.

End Safety.

(** ** Project members *)

Module MemberSafety.

Import Members.

(** Row [i] of the members is a maintainer of [pid]. *)
Definition maintains (pid : string) (kv : (string * string) * string) : Prop :=
  kv.1.1 = pid /\ kv.2 = "maintainer".

#[local] Instance maintains_dec pid kv : Decision (maintains pid kv).
Proof. unfold maintains. apply _. Defined.

Definition maintainers (pid : string) (m : gmap (string * string) string) : nat :=
  size (filter (maintains pid) m).

Lemma maintainer_count_eq pid d : maintainer_count pid d = Z.of_nat (maintainers pid (members d)).
Proof. unfold maintainer_count, maintainers. do 2 f_equal. Qed.

(** Taking a row away costs at most its own maintainer. *)
Lemma maintainers_delete pid i m :
  (maintainers pid m <= maintainers pid (delete i m)
     + (if decide (i.1 = pid /\ m !! i = Some "maintainer") then 1 else 0))%nat.
Proof.
  unfold maintainers. rewrite map_filter_delete. case_decide as Hd.
  - rewrite map_size_delete. case_match; cbn; unfold id; lia.
  - rewrite delete_id; [lia|]. apply map_lookup_filter_None. right. intros x Hx [H1 H2]. cbn in *. naive_solver.
Qed.

Lemma maintainers_insert pid i r m : (maintainers pid (delete i m) <= maintainers pid (<[i := r]> m))%nat.
Proof.
  unfold maintainers. rewrite map_filter_insert, map_filter_delete. case_decide; [|lia].
  rewrite <- insert_delete_eq. rewrite map_size_insert_None; [lia|]. apply lookup_delete_eq.
Qed.

(** Projects that have a maintainer keep one. *)
Definition stays_managed (d d' : db) : Prop :=
  forall pid, 1 <= maintainer_count pid d -> 1 <= maintainer_count pid d'.

Lemma stays_managed_refl d d' : members d' = members d -> stays_managed d d'.
Proof. intros H pid. by rewrite !maintainer_count_eq, H. Qed.

(** One row is replaced or taken away; if a maintainer, not the last. *)
Lemma stays_managed_row d d' pid uid :
  (members d' = delete (pid, uid) (members d) \/ exists r, members d' = <[(pid, uid) := r]> (members d)) ->
  (members d !! (pid, uid) = Some "maintainer" -> 1 < maintainer_count pid d) -> stays_managed d d'.
Proof.
  intros Hm Hlast p. rewrite !maintainer_count_eq in *. intros Hp.
  pose proof (maintainers_delete p (pid, uid) (members d)) as Hd.
  assert (maintainers p (delete (pid, uid) (members d)) <= maintainers p (members d'))%nat as Hi.
  { destruct Hm as [->|[r ->]]; [done|apply maintainers_insert]. }
  case_decide as Hc; [|lia]. destruct Hc as [<- Hr]. cbn in *. specialize (Hlast Hr). lia.
Qed.

(** Promotion of a member to maintainer. *)
Lemma stays_managed_promoted d d' pid uid :
  members d' = <[(pid, uid) := "maintainer"]> (members d) -> stays_managed d d'.
Proof.
  intros Hm p. rewrite !maintainer_count_eq, Hm. intros Hp. unfold maintainers in *.
  rewrite map_filter_insert. case_decide as Hd.
  - rewrite map_size_insert. case_match; cbn; unfold id; lia.
  - rewrite map_filter_delete, delete_id; [done|]. apply map_lookup_filter_None. right.
    intros x Hx [H1 H2]. by apply Hd.
Qed.

(** No row of the approvers is [uid]'s for an environment of [pid]. *)
Definition no_approver (pid uid : string) (d : db) : Prop :=
  forall env, (pe_project_id <$> project_environments d !! env) = Some pid ->
    (env, uid) ∉ environment_approvers d.

Lemma no_approver_forgotten pid uid d d' :
  environment_approvers d' = filter (fun ea : string * string =>
      ~ (ea.2 = uid /\ (pe_project_id <$> project_environments d !! ea.1) = Some pid))
    (environment_approvers d) ->
  project_environments d' = project_environments d -> no_approver pid uid d'.
Proof. intros He Hp env. rewrite He, Hp. intros Henv Hin%elem_of_filter. naive_solver. Qed.

Lemma wp_keep_last pid uid msg d Q :
  (forall e, Q (Err e) d) ->
  ((members d !! (pid, uid) = Some "maintainer" -> 1 < maintainer_count pid d) -> Q (Ok tt) d) ->
  wp (keep_last_maintainer pid uid msg) d Q.
Proof.
  intros H1 H2. unfold keep_last_maintainer. apply wp_bind, wp_query; [done|]. case_bool_decide as Hr.
  - unfold scalar_or. apply wp_bind, wp_catch, wp_sql; [intros e|]; apply wp_ret.
    + by apply wp_throw.
    + apply wp_guard; [intros Hc%Z.ltb_lt; by apply H2|done].
  - apply wp_ret. apply H2. done.
Qed.

Ltac member_walk :=
  repeat first [progress acc_walk
    | match goal with
      | |- wp (keep_last_maintainer _ _ _) _ _ => apply wp_keep_last; intro
      | H : members ?d !! ?k = _ |- context [members ?d !! ?k] => rewrite H; cbn [fst snd]
      | H : members ?d !! ?k = _, H' : context [members ?d !! ?k] |- _ => rewrite H in H'; cbn [fst snd] in H'
      end].

Lemma update_member_wp auth pid target req_role d :
  wp (update_project_member auth pid target req_role) d (fun r d' =>
    stays_managed d d' /\
    forall m, r = Ok m -> members d' !! (pid, target) = Some (ProjectRole.fmt req_role) /\
      (req_role = ProjectRole.Viewer -> no_approver pid target d')).
Proof.
  unfold update_project_member, require_manage_members, qa_viewer_rule, forget_approver.
  destruct (members d !! (pid, target)) as [cur|] eqn:Ecur; member_walk.
  all: try (split; [by apply stays_managed_refl|done]).
  all: split; [|intros m Hm; first [discriminate Hm | split;
    [apply lookup_insert_eq|intros ->; first [done|by eapply no_approver_forgotten]]]].
  all: first
    [ eapply stays_managed_row; [right; eexists; reflexivity|rewrite Ecur; assumption]
    | match goal with H : bool_decide (_ = ProjectRole.Maintainer) = true |- _ =>
        apply bool_decide_eq_true in H as ->; by eapply stays_managed_promoted end ].
Qed.

Lemma remove_member_wp auth pid target d :
  wp (remove_project_member auth pid target) d (fun r d' =>
    stays_managed d d' /\
    (r = Ok tt -> members d' !! (pid, target) = None /\ no_approver pid target d')).
Proof.
  unfold remove_project_member, require_manage_members, forget_approver.
  destruct (members d !! (pid, target)) as [cur|] eqn:Ecur; member_walk.
  all: try (split; [by apply stays_managed_refl|done]).
  all: split; [eapply stays_managed_row; [left; reflexivity|rewrite Ecur; assumption]|intros _; split].
  all: first [apply lookup_delete_eq|by eapply no_approver_forgotten].
Qed.

Lemma add_member_wp auth pid uid r d :
  wp (add_project_member auth pid uid r) d (fun _ d' => stays_managed d d').
Proof.
  unfold add_project_member, require_manage_members, qa_viewer_rule. acc_walk; try (by apply stays_managed_refl).
  all: match goal with H : insert_member _ _ _ _ = Ok _ |- _ => unfold insert_member in H end.
  all: repeat case_match; simplify_eq; eapply (stays_managed_row _ _ pid uid); [right; eexists; reflexivity|].
  all: intros Hx; congruence.
Qed.

(** A project keeps a maintainer.  Adding, demoting and removing members,
    whatever fails - the count itself included - leave every project that has a
    maintainer with one; a removed member is gone and, like one made a viewer,
    approves no environment of the project any more. *)
Theorem last_maintainer_kept auth pid uid req_role w w' :
  (forall r, add_project_member auth pid uid req_role w = (w', r) -> stays_managed (w_db w) (w_db w')) /\
  (forall r, update_project_member auth pid uid req_role w = (w', r) ->
     stays_managed (w_db w) (w_db w') /\
     forall m, r = Ok m -> members (w_db w') !! (pid, uid) = Some (ProjectRole.fmt req_role) /\
       (req_role = ProjectRole.Viewer -> no_approver pid uid (w_db w'))) /\
  (forall r, remove_project_member auth pid uid w = (w', r) ->
     stays_managed (w_db w) (w_db w') /\
     (r = Ok tt -> members (w_db w') !! (pid, uid) = None /\ no_approver pid uid (w_db w'))).
Proof.
  split_and!; intros r H.
  - exact (wp_run _ _ _ _ _ (add_member_wp auth pid uid req_role _) H).
  - exact (wp_run _ _ _ _ _ (update_member_wp auth pid uid req_role _) H).
  - exact (wp_run _ _ _ _ _ (remove_member_wp auth pid uid _) H).
Qed.

End MemberSafety.

(** ** Runs *)

Module AccountSample.

Definition hash (s : string) : string := "h:" +:+ s.
Definition enforce (role resource action : string) : bool := bool_decide ((role, resource, action) ∈ policy).
Definition keep (s : string) : option string := Some s.

#[export] Instance enforce_casbin : Casbin enforce.
Proof. intros role resource action. reflexivity. Qed.

Definition home : IpAddr.t := IpAddr.V4 (127 * 2 ^ 24 + 1).
Definition bearer (t : string) : option string := Some ("Bearer " +:+ t).
Definition as_user (id : string) (r : string) : SessionInfo :=
  {| user_id := id; email := "owner@x.io"; oidc_subject := "local::owner@x.io"; role := r;
     expires_at := 90000; auth_source := Session |}.
Definition sign_in (e : string) : LocalLoginRequest :=
  {| ll_email := Some e; ll_recovery_capability := None |}.

Definition after {E A} (m : ME E A) (w : world) : world := (m w).1.

(** Setup up to a ready instance, then a developer who is invited, enabled,
    signs in, is disabled, enabled again and signs in again. *)
Definition w0 : world := Sample.start.
Definition w1 := after (init_if_missing "instance" 1000) w0.
Definition w2 := after (mint_bootstrap_token hash 600 "boot" 1000) w1.
Definition w3 := after (verify_bootstrap_token hash "boot" "wizard" 1001) w2.
Definition w4 := after (setup_local_owner_create hash to_ascii_lowercase (bearer "wizard") "Owner@X.io" 1002) w3.
Definition w5 := after (complete_setup hash to_ascii_lowercase keep (bearer "wizard") "u1" 1003) w4.
Definition w6 := after (local_login hash to_ascii_lowercase home (sign_in "owner@x.io") "u9" "tok1" 1004) w5.
Definition w7 := after (invite_user enforce (as_user "u1" "owner") "dev@x.io" "developer" "u2" 1005) w6.
Definition w8 := after (delete_user enforce (as_user "u1" "owner") "u2" 1006) w7.
Definition w9 := after (re_enable_user enforce (as_user "u1" "owner") "u2" 1007) w8.
Definition w10 := after (local_login hash to_ascii_lowercase home (sign_in "dev@x.io") "u9" "tok2" 1008) w9.
Definition w11 := after (delete_user enforce (as_user "u1" "owner") "u2" 1009) w10.
Definition w12 := after (re_enable_user enforce (as_user "u1" "owner") "u2" 1010) w11.
Definition w13 := after (local_login hash to_ascii_lowercase home (sign_in "dev@x.io") "u9" "tok3" 1011) w12.

Abbreviation step drawn := (account_step hash to_ascii_lowercase enforce keep keep drawn).

Lemma step_of {E A} drawn (m : ME E A) w :
  account_handler hash to_ascii_lowercase enforce keep keep drawn m -> step drawn w (after m w).
Proof. intros H. exists E, A, m, (m w).2. split; [done|]. apply surjective_pairing. Qed.

Lemma wizard_run : rtc (step (fun _ => True)) w1 w5.
Proof.
  apply (rtc_l _ _ w2); [by apply (step_of _ (mint_bootstrap_token _ _ _ _)); constructor|].
  apply (rtc_l _ _ w3); [by apply (step_of _ (verify_bootstrap_token _ _ _ _)); constructor|].
  apply (rtc_l _ _ w4); [by apply (step_of _ (setup_local_owner_create _ _ _ _ _)); constructor|].
  apply rtc_once. by apply (step_of _ (complete_setup _ _ _ _ _ _)); constructor.
Qed.

Lemma setup_run : rtc (step (fun _ => True)) w0 w5.
Proof.
  apply (rtc_l _ _ w1); [by apply (step_of _ (init_if_missing _ _)); constructor|]. apply wizard_run.
Qed.

Lemma return_run (drawn : string -> Prop) : drawn "tok3" -> rtc (step drawn) w11 w13.
Proof.
  intros Hd. apply (rtc_l _ _ w12); [by apply (step_of _ (re_enable_user _ _ _ _)); constructor|].
  apply rtc_once. by apply (step_of _ (local_login _ _ _ _ _ _ _)); constructor.
Qed.

Lemma user_run : rtc (step (fun _ => True)) w5 w13.
Proof.
  apply (rtc_l _ _ w6); [by apply (step_of _ (local_login _ _ _ _ _ _ _)); constructor|].
  apply (rtc_l _ _ w7); [by apply (step_of _ (invite_user _ _ _ _ _ _)); constructor|].
  apply (rtc_l _ _ w8); [by apply (step_of _ (delete_user _ _ _ _)); constructor|].
  apply (rtc_l _ _ w9); [by apply (step_of _ (re_enable_user _ _ _ _)); constructor|].
  apply (rtc_l _ _ w10); [by apply (step_of _ (local_login _ _ _ _ _ _ _)); constructor|].
  apply (rtc_l _ _ w11); [by apply (step_of _ (delete_user _ _ _ _)); constructor|].
  by apply return_run.
Qed.

Lemma new_ok : account_ok (w_db w0).
Proof. split; cbn; intros; by simplify_map_eq. Qed.

Example setup_done :
  (sf_setup_state <$> setup_row (w_db w5)) = Some SetupState.Ready /\
  (u_role <$> users (w_db w5) !! "u1") = Some "owner".
Proof. by vm_compute. Qed.

Example signed_in_again :
  (ss_user_id <$> sessions (w_db w13) !! hash "tok3") = Some "u2" /\ sessions (w_db w13) !! hash "tok2" = None.
Proof. by vm_compute. Qed.

Lemma ready_w5 : ready (w_db w5).
Proof. eexists. split; [vm_compute; reflexivity|reflexivity]. Qed.

Lemma setup_only_forward_witness : exists sf sf',
  setup_row (w_db w1) = Some sf /\ setup_row (w_db w5) = Some sf' /\ later sf sf'.
Proof.
  destruct (setup_row (w_db w1)) as [sf|] eqn:E; [|vm_compute in E; discriminate E].
  destruct (setup_only_forward _ _ _ _ _ _ w1 w5 sf wizard_run E) as (sf' & H1 & H2).
  exists sf, sf'. by split_and!.
Defined.

Lemma account_invariant_witness : account_ok (w_db w5) /\
  exists id u, users (w_db w5) !! id = Some u /\ u_role u = "owner" /\ u_status u = "active".
Proof.
  destruct (account_invariant _ _ _ _ _ _ w0 w5 setup_run new_ok) as [H1 H2]. split; [done|].
  destruct ready_w5 as (sf & H3 & H4). by apply (H2 sf).
Defined.

Lemma owner_untouchable_witness : same_owners (w_db w5) (w_db w13).
Proof.
  apply (owner_untouchable hash to_ascii_lowercase enforce keep keep (fun _ => True)).
  - exact user_run.
  - exact (account_run_ok _ _ _ _ _ _ _ _ setup_run new_ok).
  - exact ready_w5.
Defined.

Lemma authenticated_identity_witness :
  exists info, (from_request_parts hash (bearer "tok1") 1005 w6).2 = Ok info /\
    stands_for (hash "tok1") 1005 (w_db w6) info.
Proof.
  destruct (authenticated_identity hash (bearer "tok1") 1005 w6 _ _ (surjective_pairing _)) as [_ H].
  destruct (from_request_parts hash (bearer "tok1") 1005 w6).2 as [info|e] eqn:E;
    [|vm_compute in E; discriminate E].
  exists info. split; [done|]. destruct (H info eq_refl) as (t & Ht & Hs). apply extract_bearer_spec in Ht. vm_compute in Ht. injection Ht as <-. exact Hs.
Defined.

(** The developer's old session is refused after the return, the owner's works. *)
Lemma revocation_is_final_witness :
  (exists e, (from_request_parts hash (bearer "tok2") 1012 w13).2 = Err e) /\
  exists info, (from_request_parts hash (bearer "tok1") 1012 w13).2 = Ok info /\ user_id info <> "u2".
Proof.
  split; [eexists; vm_compute; reflexivity|].
  destruct (from_request_parts hash (bearer "tok1") 1012 w13).2 as [info|e] eqn:E; [|vm_compute in E; discriminate E].
  exists info. split; [done|].
  assert ((delete_user enforce (as_user "u1" "owner") "u2" 1009 w10).2 = Ok (0, 1)) as Ed by (by vm_compute).
  eapply (revocation_is_final hash to_ascii_lowercase enforce keep keep (fun t => t = "tok3")
    (as_user "u1" "owner") "u2" 1009 w10 w11 (0, 1) w13 "tok1" 1012 _ info).
  - rewrite <- Ed. unfold w11, after. apply surjective_pairing.
  - by apply return_run.
  - by intros ? ->.
  - rewrite <- E. apply surjective_pairing.
Defined.

Lemma user_management_gate_witness : exists n,
  (delete_user enforce (as_user "u1" "owner") "u2" 1009 w10).2 = Ok n /\
  managed (as_user "u1" "owner") "u2" (set_u_status "disabled" 1009) (w_db w10) (Ok n) (w_db w11).
Proof.
  destruct (user_management_gate enforce (as_user "u1" "owner") "u2" "developer" 1009 w10) as (_ & H & _).
  specialize (H _ _ (surjective_pairing _)) as [H _]. exists (0, 1).
  assert ((delete_user enforce (as_user "u1" "owner") "u2" 1009 w10).2 = Ok (0, 1)) as E by (by vm_compute).
  split; [done|]. by rewrite E in H.
Defined.

(** Of two maintainers one leaves, the other cannot. *)
Definition two_maintainers : world :=
  World (set_members {[ ("p1", "u1") := "maintainer"; ("p1", "u2") := "maintainer" ]} (w_db w13)) [] [].
Definition leave (uid : string) : M unit := Members.remove_project_member (as_user "u1" "owner") "p1" uid.

Lemma last_maintainer_kept_witness :
  (leave "u2" two_maintainers).2 = Ok tt /\ MemberSafety.stays_managed (w_db two_maintainers) (w_db (after (leave "u2") two_maintainers)) /\
  Members.maintainer_count "p1" (w_db (after (leave "u2") two_maintainers)) = 1 /\
  (err_code <$> match (leave "u1" (after (leave "u2") two_maintainers)).2 with Err e => Some e | Ok _ => None end)
    = Some "last_maintainer".
Proof.
  destruct (MemberSafety.last_maintainer_kept (as_user "u1" "owner") "p1" "u2" ProjectRole.Viewer two_maintainers
    (after (leave "u2") two_maintainers)) as (_ & _ & H).
  split; [by vm_compute|]. split; [|split; by vm_compute].
  apply (H (leave "u2" two_maintainers).2). unfold after, leave. apply surjective_pairing.
Defined.

End AccountSample.
