(* ===== verification/SignInSafety.v ===== *)
(** * What holds of signing in

    The limits on OIDC sign-ins under way, the single use of recovery
    capabilities, what a sign-in must have shown, and that the owner of an
    instance is claimed only under the configuration the claim was started
    with. *)

From stdpp Require Import relations sorting.
From S2P Require Import Prelude Contract RustStr Db Access Runners Accounts SignIn Setup Wp AccountRuns AccountSafety.

Local Open Scope Z_scope.

(** ** Admission of OIDC sign-ins *)

Module Admission.

Import Pending.

(** The store, the clock, and - for the statements only - the starts that were
    granted since the store was last cleared. *)
Record gate := Gate {
  g_now : Z;
  g_store : PendingAuthStore;
  g_log : list (Z * IpAddr.t);
}.

(** What the handlers do to the store.  A sign-in is committed, and a setup
    sign-in inserted, with the time its request was created. *)
Inductive gate_step : gate -> gate -> Prop :=
  | gs_tick now now' s log : now <= now' -> gate_step (Gate now s log) (Gate now' s log)
  | gs_reserve id source now s log s' r :
      reserve_public id source now s = (s', r) ->
      gate_step (Gate now s log)
        (Gate now s' (match r with Ok _ => log ++ [(now, source)] | Err _ => log end))
  | gs_commit id state p now s log :
      pa_created_at p <= now -> gate_step (Gate now s log) (Gate now (commit_public id state p s).1 log)
  | gs_cancel id now s log : gate_step (Gate now s log) (Gate now (cancel_public id s) log)
  | gs_setup state p t now s log :
      t <= now -> gate_step (Gate now s log) (Gate now (insert_setup state p t s).1 log)
  | gs_remove state now s log : gate_step (Gate now s log) (Gate now (remove state s).1 log)
  | gs_invalidate generation now s log :
      gate_step (Gate now s log) (Gate now (invalidate_setup generation s) log)
  | gs_clear now s log : gate_step (Gate now s log) (Gate now (clear s) []).

(** The starts granted in the window of [OIDC_START_RATE_WINDOW_SECS] seconds
    that ends at [t]. *)
Definition in_window (t : Z) (starts : list Z) : list Z :=
  filter (fun at_ => t - OIDC_START_RATE_WINDOW_SECS < at_ /\ at_ <= t) starts.

Definition times (log : list (Z * IpAddr.t)) : list Z := map fst log.

Definition times_of (source : IpAddr.t) (log : list (Z * IpAddr.t)) : list Z :=
  map fst (filter (fun e => e.2 = source) log).

(** The later part of [starts]. *)
Definition after (cut : Z) (starts : list Z) : list Z := filter (fun at_ => cut < at_) starts.

(** [kept] is in order, not in the future, and holds every start of [starts]
    that still counts at [now]. *)
Record tracks (now : Z) (starts kept : list Z) : Prop := {
  tr_after : forall cut, now - OIDC_START_RATE_WINDOW_SECS <= cut -> after cut starts = after cut kept;
  tr_sorted : StronglySorted Z.le kept;
  tr_past : Forall (fun at_ => at_ <= now) starts;
  tr_kept_past : Forall (fun at_ => at_ <= now) kept;
}.

Lemma drop_old_suffix cutoff l : exists k, l = k ++ drop_old cutoff l /\ Forall (fun x => x <= cutoff) k.
Proof.
  induction l as [|a l (k & IH & Hk)]; [by exists []|]. cbn. destruct (Z.leb_spec a cutoff).
  - exists (a :: k). cbn. split; [congruence|]. by constructor.
  - by exists [].
Qed.

Lemma after_drop_old cutoff cut l : cutoff <= cut -> after cut (drop_old cutoff l) = after cut l.
Proof.
  intros Hc. induction l as [|a l IH]; [done|]. cbn [drop_old]. destruct (Z.leb_spec a cutoff); [|done].
  rewrite IH. unfold after. rewrite filter_cons_False; [done|lia].
Qed.

Lemma drop_old_later cutoff l :
  StronglySorted Z.le l -> Forall (fun x => cutoff < x) (drop_old cutoff l).
Proof.
  induction 1 as [|a l Hs IH Ha]; [constructor|]. cbn. destruct (Z.leb_spec a cutoff); [done|].
  constructor; [lia|]. eapply Forall_impl; [exact Ha|]. cbn. lia.
Qed.

Lemma after_all cut l : Forall (fun x => cut < x) l -> after cut l = l.
Proof. intros H. by apply list_filter_all. Qed.

Lemma sorted_suffix (k l : list Z) : StronglySorted Z.le (k ++ l) -> StronglySorted Z.le l.
Proof. induction k as [|a k IH]; [done|]. intros H. inversion H; subst. by apply IH. Qed.

Lemma tracks_tick now now' starts kept : now <= now' -> tracks now starts kept -> tracks now' starts kept.
Proof.
  intros Hle [H1 H2 H3 H4]. split; [|done|..].
  - intros cut Hc. apply H1. lia.
  - eapply Forall_impl; [exact H3|]. cbn. lia.
  - eapply Forall_impl; [exact H4|]. cbn. lia.
Qed.

Lemma tracks_drop now t starts kept :
  t <= now -> tracks now starts kept ->
  tracks now starts (drop_old (t - OIDC_START_RATE_WINDOW_SECS) kept).
Proof.
  intros Ht [H1 H2 H3 H4]. destruct (drop_old_suffix (t - OIDC_START_RATE_WINDOW_SECS) kept) as (k & Hk & _).
  split; [|..|done|].
  - intros cut Hc. rewrite after_drop_old; [by apply H1|lia].
  - rewrite Hk in H2. by eapply sorted_suffix.
  - rewrite Hk in H4. by apply Forall_app in H4 as [_ H4].
Qed.

Lemma sorted_snoc l x : StronglySorted Z.le l -> Forall (fun y => y <= x) l -> StronglySorted Z.le (l ++ [x]).
Proof.
  induction 1 as [|a l Hs IH Ha]; intros Hx; [repeat constructor|]. cbn. inversion Hx; subst.
  constructor; [by apply IH|]. apply Forall_app. split; [done|by repeat constructor].
Qed.

Lemma tracks_start now starts kept : tracks now starts kept -> tracks now (starts ++ [now]) (kept ++ [now]).
Proof.
  intros [H1 H2 H3 H4]. split.
  - intros cut Hc. unfold after in *. rewrite !filter_app. by rewrite H1.
  - by apply sorted_snoc.
  - apply Forall_app. split; [done|by repeat constructor].
  - apply Forall_app. split; [done|by repeat constructor].
Qed.

(** After the clean-up of [reserve_public] the store holds exactly the window. *)
Lemma tracks_window now starts kept :
  tracks now starts kept ->
  drop_old (now - OIDC_START_RATE_WINDOW_SECS) kept = in_window now starts.
Proof.
  intros [H1 H2 H3 H4]. set (c := now - OIDC_START_RATE_WINDOW_SECS) in *.
  rewrite <- (after_all c (drop_old c kept)); [|by apply drop_old_later].
  rewrite after_drop_old, <- H1; [|done|done]. unfold after, in_window. fold c. clear -H3.
  induction H3 as [|a l Ha _ IH]; [done|]. rewrite !filter_cons, IH.
  repeat case_decide; (done || lia).
Qed.

(** A window that ends later, before the next start, holds no more. *)
Lemma window_later now t starts :
  Forall (fun at_ => at_ <= now) starts -> now <= t ->
  (length (in_window t starts) <= length (in_window now starts))%nat.
Proof.
  intros H Ht. unfold in_window. induction H as [|a l Ha _ IH]; [done|]. rewrite !filter_cons.
  repeat case_decide; cbn; lia.
Qed.

Lemma in_window_app t l k : in_window t (l ++ k) = in_window t l ++ in_window t k.
Proof. apply filter_app. Qed.

(** [n] starts at most in any window. *)
Definition limited (n : nat) (starts : list Z) : Prop := forall t, (length (in_window t starts) <= n)%nat.

Lemma limited_start n now starts kept :
  limited n starts -> tracks now starts kept ->
  (length (drop_old (now - OIDC_START_RATE_WINDOW_SECS) kept) < n)%nat -> limited n (starts ++ [now]).
Proof.
  intros Hl Ht Hn t. rewrite in_window_app, length_app. unfold in_window at 2. rewrite filter_cons, filter_nil.
  case_decide as Hd; [|cbn; specialize (Hl t); lia].
  rewrite (tracks_window _ _ _ Ht) in Hn.
  pose proof (window_later now t starts (tr_past _ _ _ Ht)). cbn. lia.
Qed.

Record gate_ok (g : gate) : Prop := {
  go_capacity : (size (pending (g_store g)) + size (reservations (g_store g)) <= MAX_PENDING_AUTH)%nat;
  go_global : tracks (g_now g) (times (g_log g)) (global_starts (g_store g));
  go_source : forall source,
    tracks (g_now g) (times_of source (g_log g)) (default [] (source_starts (g_store g) !! source));
  go_global_limit : limited MAX_GLOBAL_OIDC_STARTS_PER_WINDOW (times (g_log g));
  go_source_limit : forall source, limited MAX_SOURCE_OIDC_STARTS_PER_WINDOW (times_of source (g_log g));
}.

Lemma source_cleanup t s source :
  default [] (source_starts (cleanup t s) !! source)
  = drop_old (t - OIDC_START_RATE_WINDOW_SECS) (default [] (source_starts s !! source)).
Proof.
  cbn. rewrite lookup_omap. destruct (source_starts s !! source) as [l|]; [|done]. cbn.
  by destruct (drop_old _ l).
Qed.

Lemma size_filter_le {A} (P : string * A -> Prop) `{!forall x, Decision (P x)} (m : gmap string A) :
  (size (filter P m) <= size m)%nat.
Proof. apply map_subseteq_size, map_filter_subseteq. Qed.

Lemma gate_ok_cleanup now s log t :
  t <= now -> gate_ok (Gate now s log) -> gate_ok (Gate now (cleanup t s) log).
Proof.
  intros Ht [H1 H2 H3 H4 H5]. split; cbn in *; try done.
  - pose proof (size_filter_le (fun kv => t - pa_created_at kv.2 < PENDING_AUTH_TTL_SECS) (pending s)).
    pose proof (size_filter_le (fun kv => t - kv.2 < PENDING_AUTH_TTL_SECS) (reservations s)). lia.
  - by apply tracks_drop.
  - intros source. pose proof (source_cleanup t s source) as E. cbn in E. rewrite E. by apply tracks_drop.
Qed.

(** The requests under way change, the starts do not. *)
Lemma gate_ok_requests now s s' log :
  gate_ok (Gate now s log) -> global_starts s' = global_starts s -> source_starts s' = source_starts s ->
  (size (pending s') + size (reservations s') <= MAX_PENDING_AUTH)%nat -> gate_ok (Gate now s' log).
Proof. intros [H1 H2 H3 H4 H5] Hg Hs Hc. split; cbn in *; [done|by rewrite Hg|by rewrite Hs|done|done]. Qed.

Lemma size_insert_le {A} (m : gmap string A) i x : (size (<[i := x]> m) <= S (size m))%nat.
Proof. rewrite map_size_insert. case_match; cbn; lia. Qed.

Lemma size_delete_le {A} (m : gmap string A) i : (size (delete i m) <= size m)%nat.
Proof. apply map_subseteq_size, delete_subseteq. Qed.

Lemma times_of_snoc source log now source' :
  times_of source (log ++ [(now, source')])
  = times_of source log ++ (if decide (source' = source) then [now] else []).
Proof. unfold times_of. rewrite filter_app, map_app, filter_cons, filter_nil. cbn. by case_decide. Qed.

Lemma gate_ok_reserve id source now s log s' r :
  reserve_public id source now s = (s', r) -> gate_ok (Gate now s log) ->
  gate_ok (Gate now s' (match r with Ok _ => log ++ [(now, source)] | Err _ => log end)).
Proof.
  intros Hr Hok. pose proof (gate_ok_cleanup now s log now ltac:(lia) Hok) as Hc.
  pose proof (fun src => source_cleanup now s src) as Hsc.
  assert (global_starts (cleanup now s) = drop_old (now - OIDC_START_RATE_WINDOW_SECS) (global_starts s))
    as Hgc by done.
  unfold reserve_public in Hr. cbv zeta in Hr. remember (cleanup now s) as c eqn:Ec. clear Ec.
  destruct (full c) eqn:Ef; [by simplify_eq|].
  destruct (Nat.leb_spec MAX_GLOBAL_OIDC_STARTS_PER_WINDOW (length (global_starts c))) as [|Hg];
    [by simplify_eq|].
  match type of Hr with (if ?b then _ else _) = _ => destruct b eqn:Es end; [by simplify_eq|].
  injection Hr as <- <-. unfold full in Ef. apply Nat.leb_gt in Ef.
  assert (length (default [] (source_starts c !! source)) < MAX_SOURCE_OIDC_STARTS_PER_WINDOW)%nat as Hs.
  { destruct (source_starts c !! source); [by apply Nat.leb_gt in Es|].
    cbn. unfold MAX_SOURCE_OIDC_STARTS_PER_WINDOW. lia. }
  destruct Hok as [_ G1 G2 G3 G4]. destruct Hc as [H1 H2 H3 _ _]. cbn [g_now g_store g_log] in *.
  split; cbn [g_now g_store g_log pending reservations global_starts source_starts].
  - pose proof (size_insert_le (reservations c) id now). lia.
  - unfold times. rewrite map_app. by apply tracks_start.
  - intros src. rewrite times_of_snoc, lookup_insert. case_decide; subst.
    + by apply tracks_start.
    + by rewrite app_nil_r.
  - unfold times. rewrite map_app. rewrite Hgc in Hg. by apply (limited_start _ _ _ _ G3 G1).
  - intros src. rewrite times_of_snoc. case_decide; subst; [|by rewrite app_nil_r].
    rewrite Hsc in Hs. by apply (limited_start _ _ _ _ (G4 _) (G2 _)).
Qed.

Definition empty_gate (now : Z) (generation : string) : gate :=
  Gate now {| pending := ∅; reservations := ∅; global_starts := []; source_starts := ∅;
              setup_generation := generation |} [].

Lemma empty_gate_ok now generation : gate_ok (empty_gate now generation).
Proof.
  split; cbn.
  - rewrite !map_size_empty. unfold MAX_PENDING_AUTH. lia.
  - split; constructor.
  - intros source. rewrite lookup_empty. split; constructor.
  - intros t. cbn. lia.
  - intros source t. cbn. lia.
Qed.

Lemma gate_step_ok g g' : gate_step g g' -> gate_ok g -> gate_ok g'.
Proof.
  destruct 1 as [now now' s log Hle|id source now s log s' r Hr|id state p now s log Hp|id now s log
    |state p t now s log Ht|state now s log|gen now s log|now s log]; intros Hok.
  - destruct Hok as [H1 H2 H3 H4 H5]. split; cbn in *; eauto using tracks_tick.
  - by eapply gate_ok_reserve.
  - pose proof (gate_ok_cleanup now s log _ Hp Hok) as Hc. unfold commit_public.
    destruct (reservations (cleanup (pa_created_at p) s) !! id) eqn:Er; [|done].
    apply (gate_ok_requests _ _ _ _ Hc); [done|done|]. destruct Hc as [Hc _ _ _ _]. cbn in Hc |- *.
    cbn in Er. rewrite (map_size_delete_Some _ _ (mk_is_Some _ _ Er)).
    pose proof (map_size_ne_0_lookup_2 _ _ (mk_is_Some _ _ Er)).
    pose proof (size_insert_le (filter (fun kv => pa_created_at p - pa_created_at kv.2 < PENDING_AUTH_TTL_SECS) (pending s)) state p).
    lia.
  - apply (gate_ok_requests _ _ _ _ Hok); [done|done|]. destruct Hok as [Hc _ _ _ _]. cbn in Hc |- *.
    pose proof (size_delete_le (reservations s) id). lia.
  - pose proof (gate_ok_cleanup now s log _ Ht Hok) as Hc. unfold insert_setup. destruct (full _) eqn:Ef; [done|].
    apply (gate_ok_requests _ _ _ _ Hc); [done|done|]. unfold full in Ef. apply Nat.leb_gt in Ef.
    cbn [fst set_pending pending reservations].
    pose proof (size_insert_le (pending (cleanup t s)) state p). lia.
  - apply (gate_ok_requests _ _ _ _ Hok); [done|done|]. destruct Hok as [Hc _ _ _ _]. cbn in Hc |- *.
    pose proof (size_delete_le (pending s) state). lia.
  - apply (gate_ok_requests _ _ _ _ Hok); [done|done|]. destruct Hok as [Hc _ _ _ _]. cbn in Hc |- *.
    pose proof (size_filter_le (fun kv => pa_setup kv.2 = None) (pending s)). lia.
  - apply (empty_gate_ok now (setup_generation s)).
Qed.

Lemma gate_run_ok g g' : rtc gate_step g g' -> gate_ok g -> gate_ok g'.
Proof. induction 1; eauto using gate_step_ok. Qed.

(** What a refusal means. *)
Definition justified (now : Z) (source : IpAddr.t) (s : PendingAuthStore) (log : list (Z * IpAddr.t))
    (e : OidcAdmissionError) : Prop :=
  match e with
  | Capacity => (MAX_PENDING_AUTH <= size (pending s) + size (reservations s))%nat
  | GlobalRate => length (in_window now (times log)) = MAX_GLOBAL_OIDC_STARTS_PER_WINDOW
  | SourceRate => length (in_window now (times_of source log)) = MAX_SOURCE_OIDC_STARTS_PER_WINDOW
  | ReservationExpired => False
  end.

Lemma refusal_justified id source now s log s' e :
  gate_ok (Gate now s log) -> reserve_public id source now s = (s', Err e) -> justified now source s' log e.
Proof.
  intros [_ G1 G2 G3 G4] Hr. cbn [g_now g_store g_log] in *.
  pose proof (tracks_window _ _ _ G1) as Wg. pose proof (tracks_window _ _ _ (G2 source)) as Ws.
  rewrite <- (source_cleanup now s) in Ws. change (drop_old _ (global_starts s)) with (global_starts (cleanup now s)) in Wg.
  unfold reserve_public in Hr. cbv zeta in Hr. remember (cleanup now s) as c eqn:Ec. clear Ec.
  destruct (full c) eqn:Ef; [simplify_eq; by apply Nat.leb_le in Ef|].
  destruct (Nat.leb_spec MAX_GLOBAL_OIDC_STARTS_PER_WINDOW (length (global_starts c))) as [Hg|Hg].
  { simplify_eq. cbn. specialize (G3 now). rewrite Wg in Hg. lia. }
  match type of Hr with (if ?b then _ else _) = _ => destruct b eqn:Es end; [|done].
  simplify_eq. cbn. specialize (G4 source now). rewrite <- Ws in *.
  destruct (source_starts s' !! source); [|done]. apply Nat.leb_le in Es. cbn in *. lia.
Qed.

(** C34: OIDC sign-ins are limited.  However starts, commits, cancellations,
    setup sign-ins and callbacks follow one another under a clock that does not
    go back: never are more than 1000 requests under way, in no minute are more
    than 120 starts granted, nor more than 20 to one address; and a start is
    refused only when one of these limits is reached. *)
Theorem oidc_admission_limits now0 generation now s log :
  rtc gate_step (empty_gate now0 generation) (Gate now s log) ->
  (size (pending s) + size (reservations s) <= 1000)%nat /\
  (forall t, (length (in_window t (times log)) <= 120)%nat) /\
  (forall source t, (length (in_window t (times_of source log)) <= 20)%nat) /\
  (forall id source s' e, reserve_public id source now s = (s', Err e) -> justified now source s' log e).
Proof.
  intros Hok%gate_run_ok; [|apply empty_gate_ok]. split_and!; [apply Hok..|].
  intros id source s' e. by apply refusal_justified.
Qed.

End Admission.

(** ** Recovery capabilities *)

Module Capabilities.

Import Recovery.

Section Run.

Context (hash_token : string -> string) (drawn : string -> Prop).

(** What the handlers and the expiry tasks do to the capabilities, with the
    clock; [drawn] are the random parts that may be drawn. *)
Inductive caps_step : Z * caps -> Z * caps -> Prop :=
  | cs_tick now now' c : now <= now' -> caps_step (now, c) (now', c)
  | cs_mint uid email ttl id draw now c :
      drawn draw -> caps_step (now, c) (now, (mint hash_token uid email ttl id draw now c).1)
  | cs_expire h now c : caps_step (now, c) (now, expire h c)
  | cs_consume raw email now c : caps_step (now, c) (now, (consume hash_token raw email now c).1)
  | cs_clear now c : caps_step (now, c) (now, ∅).

(** At most [MAX_CAPABILITIES], none that outlives the longest lifetime. *)
Definition caps_ok (nc : Z * caps) : Prop :=
  (size nc.2 <= MAX_CAPABILITIES)%nat /\
  forall h cap, nc.2 !! h = Some cap -> rc_expires_at cap <= nc.1 + LOCAL_RECOVERY_MAX_TTL_SECS.

Lemma caps_ok_sub now c c' : caps_ok (now, c) -> c' ⊆ c -> caps_ok (now, c').
Proof.
  intros [H1 H2] Hs. split; cbn in *.
  - etrans; [by apply map_subseteq_size|done].
  - intros h cap Hh. eapply H2, lookup_weaken; eauto.
Qed.

Lemma live_sub now c : live now c ⊆ c.
Proof. apply map_filter_subseteq. Qed.

Lemma consume_sub raw email now c : (consume hash_token raw email now c).1 ⊆ c.
Proof.
  unfold consume. destruct (valid_capability_format raw); [|done].
  destruct (live now c !! hash_token raw); cbn; [|apply live_sub].
  etrans; [apply delete_subseteq|apply live_sub].
Qed.

Lemma caps_step_ok a b : caps_step a b -> caps_ok a -> caps_ok b.
Proof.
  destruct 1 as [now now' c Hle|uid email ttl id draw now c _|h now c|raw email now c|now c]; intros Hok.
  - destruct Hok as [H1 H2]. split; cbn in *; [done|]. intros h cap Hh. specialize (H2 _ _ Hh). lia.
  - unfold mint. destruct (_ && _) eqn:E; [|done]. apply andb_true_iff in E as [_ E].
    pose proof (caps_ok_sub _ _ _ Hok (live_sub now c)) as [H1 H2].
    destruct (Nat.leb_spec MAX_CAPABILITIES (size (live now c))); [done|]. split; cbn in *.
    + etrans; [apply Admission.size_insert_le|done].
    + intros h cap. rewrite lookup_insert. case_decide; [|by apply H2]. intros [= <-]. cbn. lia.
  - apply (caps_ok_sub _ _ _ Hok), delete_subseteq.
  - apply (caps_ok_sub _ _ _ Hok), consume_sub.
  - apply (caps_ok_sub _ _ _ Hok), map_empty_subseteq.
Qed.

(** A capability that is gone stays away. *)
Lemma caps_step_gone h a b :
  caps_step a b -> (forall draw, drawn draw -> hash_token (CAPABILITY_PREFIX +:+ draw) <> h) ->
  a.2 !! h = None -> b.2 !! h = None.
Proof.
  destruct 1 as [now now' c Hle|uid email ttl id draw now c Hd|h' now c|raw email now c|now c];
    intros Hfresh Hn; cbn in *; try done.
  - unfold mint. repeat case_match; cbn; try done; [by eapply lookup_weaken_None, live_sub|].
    rewrite lookup_insert_ne by (by apply Hfresh). by eapply lookup_weaken_None, live_sub.
  - eapply lookup_weaken_None; [exact Hn|apply delete_subseteq].
  - eapply lookup_weaken_None; [exact Hn|apply consume_sub].
Qed.

(** What a capability was used for. *)
Definition used (raw : string) (email : option string) (now : Z) (c : caps) (id uid : string) : Prop :=
  exists cap, c !! hash_token raw = Some cap /\ rc_id cap = id /\ rc_user_id cap = uid /\
    now < rc_expires_at cap /\
    forall e, email = Some e ->
      to_ascii_lowercase (trim e) = to_ascii_lowercase (rc_user_email cap).

Lemma consume_used raw email now c c' id uid :
  consume hash_token raw email now c = (c', Ok (id, uid)) ->
  used raw email now c id uid /\ c' !! hash_token raw = None.
Proof.
  unfold consume. destruct (valid_capability_format raw); [|done].
  destruct (live now c !! hash_token raw) as [cap|] eqn:El; [|done]. intros [= <- Hr].
  apply map_lookup_filter_Some in El as [Hl Hn]. cbn in Hn. split; [|apply lookup_delete_eq].
  exists cap. destruct email as [e|]; cbn in Hr; [|simplify_eq; split_and!; done].
  destruct (String.eqb_spec (to_ascii_lowercase (trim e)) (to_ascii_lowercase (rc_user_email cap)));
    simplify_eq. split_and!; try done. by intros ? [= ->].
Qed.

(** A recovery capability is used once.  Along every run of the store at
    most 32 capabilities exist and none lives longer than five minutes; one is
    accepted only before its end and for the account it was minted for, and
    once accepted it is never accepted again, whatever is minted, expires or is
    tried afterwards, unless the very same text is drawn again. *)
Theorem recovery_capability_once now0 now c raw email c' id uid :
  rtc caps_step (now0, ∅) (now, c) ->
  consume hash_token raw email now c = (c', Ok (id, uid)) ->
  (size c <= 32)%nat /\ (forall h cap, c !! h = Some cap -> rc_expires_at cap <= now + 300) /\
  used raw email now c id uid /\
  forall now2 c2 email2,
    (forall draw, drawn draw -> hash_token (CAPABILITY_PREFIX +:+ draw) <> hash_token raw) ->
    rtc caps_step (now, c') (now2, c2) ->
    exists e, (consume hash_token raw email2 now2 c2).2 = Err e.
Proof.
  intros Hrun Hc.
  assert (caps_ok (now, c)) as [H1 H2].
  { assert (caps_ok (now0, ∅)) as H0.
    { split; cbn; [rewrite map_size_empty; unfold MAX_CAPABILITIES; lia|]. intros ? ?. by rewrite lookup_empty. }
    revert H0 Hrun. generalize (now0, (∅ : caps)), (now, c). clear.
    intros a b H0. induction 1; eauto using caps_step_ok. }
  destruct (consume_used _ _ _ _ _ _ _ Hc) as [Hu Hgone]. split_and!; [done|done|done|].
  intros now2 c2 email2 Hfresh Hrun2.
  assert ((now2, c2).2 !! hash_token raw = None) as Hn.
  { change (c' !! hash_token raw = None) with ((now, c').2 !! hash_token raw = None) in Hgone.
    revert Hgone Hrun2. generalize (now, c'), (now2, c2). intros a b Hg. induction 1; eauto using caps_step_gone. }
  cbn in Hn. unfold consume. destruct (valid_capability_format raw); [|by eexists].
  rewrite (lookup_weaken_None _ _ _ Hn (live_sub now2 c2)). by eexists.
Qed.

End Run.

End Capabilities.

(** ** Claiming the owner by OIDC *)

Section Claim.

Context (hash_token : string -> string) (decrypt : string -> option string)
        (redirect_ok : string -> result api_error unit).

Ltac eqb_all :=
  repeat match goal with
  | H : _ && _ = true |- _ => apply andb_true_iff in H as [? ?]
  | H : String.eqb _ _ = true |- _ => apply String.eqb_eq in H
  | H : Bool.eqb _ _ = true |- _ => apply Bool.eqb_prop in H
  | H : (_ =? _) = true |- _ => apply Z.eqb_eq in H
  | H : bool_decide _ = true |- _ => apply bool_decide_eq_true in H
  | H : negb _ = true |- _ => apply negb_true_iff in H
  | H : bool_decide _ = false |- _ => apply bool_decide_eq_false in H
  | H : _ || _ = false |- _ => apply orb_false_iff in H as [? ?]
  | H : negb _ = false |- _ => apply negb_false_iff in H
  | H : (_ <? _) = false |- _ => apply Z.ltb_ge in H
  end.

(** [matches] compares everything [from_state] takes. *)
Lemma matches_from_state a sf generation rm ram uri :
  matches a sf generation rm ram uri = true ->
  from_state sf generation (sa_session_hash a) uri = Some a /\
  rm = RuntimeMode.Remote /\ ram = RemoteAuthMode.Oidc.
Proof.
  unfold matches, from_state. destruct (sf_oidc_config sf) as [oidc|]; [|done]. intros H. eqb_all.
  split; [|done]. cbn. f_equal. destruct a; cbn in *. by subst.
Qed.

Lemma from_state_inj sf sf' g g' h h' u u' a :
  from_state sf g h u = Some a -> from_state sf' g' h' u' = Some a ->
  sf_oidc_config sf' = sf_oidc_config sf /\ sf_oidc_secret sf' = sf_oidc_secret sf /\
  sf_instance_id sf' = sf_instance_id sf /\ g' = g /\ h' = h /\ u' = u.
Proof.
  unfold from_state.
  destruct (sf_oidc_config sf) as [[]|]; [|done]. destruct (sf_oidc_config sf') as [[]|]; [|done].
  destruct (sf_oidc_secret sf) as [[]|], (sf_oidc_secret sf') as [[]|]; cbn; intros [= <-] Hb;
    injection Hb; intros; subst; split_and!; done.
Qed.

Lemma session_hash_valid sf h now sf' :
  validate_session_hash sf h now = Ok sf' ->
  exists sx, sf_setup_session sf = Some sx /\ sx_hash sx = h /\ now <= sx_expires_at sx /\
    sf' = set_sf_session (Some {| sx_hash := sx_hash sx; sx_expires_at := now + SETUP_SESSION_TTL_SECS |}) sf.
Proof.
  unfold validate_session_hash. intros H. destruct (sf_setup_session sf) as [sx|]; [|done].
  destruct (String.eqb_spec h (sx_hash sx)); [|done]. cbn in H.
  destruct (Z.ltb_spec (sx_expires_at sx) now); [done|]. injection H as <-. by exists sx.
Qed.

(** The instance is as it was when [a] was made, setup waits for its owner, and
    the session that asked for the sign-in is still open. *)
Definition current (d : db) (a : SetupOidcAuthorization) (uri : string) (now : Z) (sf : SetupStateFile) : Prop :=
  setup_row d = Some sf /\ sf_setup_state sf = SetupState.IdpConfigured /\ sf_owner sf = None /\
  from_state sf (setup_generation (pending_auth (memory d))) (sa_session_hash a) uri = Some a /\
  runtime_mode_of (access d) = RuntimeMode.Remote /\ remote_auth_mode_of (access d) = RemoteAuthMode.Oidc /\
  exists sx, sf_setup_session sf = Some sx /\ sx_hash sx = sa_session_hash a /\ now <= sx_expires_at sx.

Lemma validate_authorization_current sf a g rm ram uri now sf' :
  validate_setup_oidc_authorization sf a g rm ram uri now = Ok sf' ->
  sf_setup_state sf = SetupState.IdpConfigured /\ sf_owner sf = None /\
  from_state sf g (sa_session_hash a) uri = Some a /\ rm = RuntimeMode.Remote /\ ram = RemoteAuthMode.Oidc /\
  exists sx, sf_setup_session sf = Some sx /\ sx_hash sx = sa_session_hash a /\ now <= sx_expires_at sx /\
    sf' = set_sf_session (Some {| sx_hash := sa_session_hash a;
                                  sx_expires_at := now + SETUP_SESSION_TTL_SECS |}) sf.
Proof.
  unfold validate_setup_oidc_authorization. intros H.
  destruct (bool_decide _); [done|]. destruct (negb _ || _) eqn:E; [done|]. eqb_all.
  destruct (validate_session_hash sf (sa_session_hash a) now) as [sf1|] eqn:Ev; [|done].
  apply session_hash_valid in Ev as (sx & Hsx & Hh & Ht & ->).
  destruct (matches _ _ _ _ _ _) eqn:Em; [|done]. injection H as <-.
  apply matches_from_state in Em as (Hf & -> & ->). split_and!; try done.
  - by apply eq_None_not_Some.
  - exists sx. rewrite Hh. by split_and!.
Qed.

Lemma wp_rechecked a uri now d Q :
  (forall e d', Q (Err e) d') ->
  (forall sf m sx, current d a uri now sf -> sf_setup_session sf = Some sx ->
     Q (Ok (set_sf_session (Some {| sx_hash := sa_session_hash a;
                                    sx_expires_at := now + SETUP_SESSION_TTL_SECS |}) sf)) (set_memory m d)) ->
  wp (recheck_setup_oidc redirect_ok a uri now) d Q.
Proof.
  intros H1 H2. unfold recheck_setup_oidc, load_setup_oidc_modes, current_generation. acc_walk; try (by apply H1).
  match goal with H : validate_setup_oidc_authorization _ _ _ _ _ _ _ = Ok _ |- _ =>
    apply validate_authorization_current in H as (Hs & Ho & Hf & Hrm & Hram & sx & Hsx & Hh & Ht & ->) end.
  eapply (H2 _ _ sx); [|done]. split_and!; try done. by exists sx.
Qed.

(** The request holds the token of the open setup session [sx]. *)
Definition holds_session (authz : option string) (sf : SetupStateFile) (now : Z) (sx : SetupSessionRecord) : Prop :=
  sf_setup_session sf = Some sx /\ now <= sx_expires_at sx /\
  exists token, extract_bearer authz = Some token /\ hash_token token = sx_hash sx.

Lemma begin_current authz uri now d :
  wp (setup_oidc_begin hash_token decrypt redirect_ok authz uri now) d (fun r _ =>
    forall a config, r = Ok (a, config) -> exists sf sx, setup_row d = Some sf /\
      sf_setup_state sf = SetupState.IdpConfigured /\
      holds_session authz sf now sx /\ sa_session_hash a = sx_hash sx /\
      from_state sf (setup_generation (pending_auth (memory d))) (sa_session_hash a) uri = Some a).
Proof.
  unfold setup_oidc_begin, validate_setup_session, load_setup_oidc_modes, current_generation. acc_walk; try done.
  apply wp_oidc_config. intros [config|e]; [|done]. acc_walk; try done.
  intros a' config' [= <- <-].
  match goal with H : validate_session_hash _ _ _ = Ok _ |- _ =>
    apply session_hash_valid in H as (sx & Hsx & Hh & Ht & ->) end.
  match goal with H : sx_hash <$> _ = Some _ |- _ => cbn in H; injection H as <- end.
  match goal with H : from_state _ _ _ _ = Some ?x |- _ => rename H into Hf; rename x into made end.
  assert (Ha : sa_session_hash made = sx_hash sx /\
    from_state sf (setup_generation (pending_auth (memory d))) (sx_hash sx) uri = Some made).
  { revert Hf. unfold from_state. cbn. destruct (sf_oidc_config sf); [|done]. by intros [= <-]. }
  destruct Ha as [Ha Hf']. exists sf, sx. rewrite Ha. split_and!; try done; [by eapply bool_decide_eq_true|].
  split_and!; [done|done|by eexists].
Qed.

Lemma claim_current a uri email subject generation now d :
  wp (commit_setup_oidc_owner redirect_ok a uri email subject generation now) d (fun r d' =>
    forall expires, r = Ok expires -> exists sf, current d a uri now sf /\
      setup_row d' = Some (owned email subject now (set_sf_session
        (Some {| sx_hash := sa_session_hash a; sx_expires_at := now + SETUP_SESSION_TTL_SECS |}) sf)) /\
      setup_generation (pending_auth (memory d')) = generation).
Proof.
  unfold commit_setup_oidc_owner, invalidate_setup. apply wp_bind, wp_rechecked; [done|].
  intros sf m sx Hc Hsx. cbv beta. apply wp_bind, wp_save_setup; [done|]. cbv beta.
  apply wp_bind, wp_in_memory. cbn. apply wp_ret. intros expires _. by exists sf.
Qed.

(** C20: The owner is claimed under the configuration the claim was started
    with.  Between [setup_oidc_start] handing out an authorization and the
    callback claiming the owner with it, other requests may change anything:
    the claim succeeds only if setup still waits for its owner under the same
    setup session, the one whose token the request that started the sign-in
    held, still open; in External Access with OIDC; with the very issuer, client,
    endpoints and client secret (its ciphertext and time) the sign-in was
    started with, and no other configuration was drawn a generation in between;
    and it then records exactly the claimed owner. *)
Theorem owner_claim_same_configuration authz uri started w w1 a config email subject generation now w2 w3 expires :
  setup_oidc_begin hash_token decrypt redirect_ok authz uri started w = (w1, Ok (a, config)) ->
  commit_setup_oidc_owner redirect_ok a uri email subject generation now w2 = (w3, Ok expires) ->
  exists sf sf2 sx sx2, setup_row (w_db w) = Some sf /\ current (w_db w2) a uri now sf2 /\
    holds_session authz sf started sx /\
    sf_setup_session sf2 = Some sx2 /\ sx_hash sx2 = sx_hash sx /\ now <= sx_expires_at sx2 /\
    sf_oidc_config sf2 = sf_oidc_config sf /\ sf_oidc_secret sf2 = sf_oidc_secret sf /\
    sf_instance_id sf2 = sf_instance_id sf /\
    setup_generation (pending_auth (memory (w_db w2))) = setup_generation (pending_auth (memory (w_db w))) /\
    exists sf3, setup_row (w_db w3) = Some sf3 /\ sf_setup_state sf3 = SetupState.OwnerCreated /\
      (ow_email <$> sf_owner sf3) = Some email /\ (sf_owner sf3 ≫= ow_oidc_subject) = Some subject /\
      sf_oidc_config sf3 = sf_oidc_config sf.
Proof.
  intros Hb Hc.
  destruct (wp_run _ _ _ _ _ (begin_current authz uri started (w_db w)) Hb a config eq_refl)
    as (sf & sx & Hsf & Hst & Hheld & Hhash & Hfs).
  destruct (wp_run _ _ _ _ _ (claim_current a uri email subject generation now (w_db w2)) Hc expires eq_refl)
    as (sf2 & Hcur & Hrow & _).
  pose proof Hcur as (_ & _ & _ & Hfs2 & _ & _ & sx2 & Hsx2 & Hh2 & Ht2).
  destruct (from_state_inj _ _ _ _ _ _ _ _ _ Hfs Hfs2) as (E1 & E2 & E3 & E4 & _).
  exists sf, sf2, sx, sx2. split_and!; try done; [congruence|]. eexists. split; [exact Hrow|]. by split_and!.
Qed.

End Claim.

(** ** Comparing secrets *)

Lemma constant_time_eq_true a b : Proxy.constant_time_eq a b = true <-> a = b.
Proof.
  unfold Proxy.constant_time_eq, str_len. rewrite <- !length_bytes. split.
  - destruct (Z.eqb_spec (Z.of_nat (length (bytes a))) (Z.of_nat (length (bytes b)))) as [Hl|]; [|done].
    intros H%Z.eqb_eq. apply differing_bits_zero in H; [by apply bytes_inj|lia].
  - intros <-. rewrite Z.eqb_refl. by apply Z.eqb_eq, differing_bits_zero.
Qed.

(** ** What a sign-in must have shown *)

Section Gate.

Context (hash_token to_lowercase : string -> string) (decrypt : string -> option string).

(** The session a sign-in opened: a request with its token acts for [resp]. *)
Definition signed_in (token : string) (now : Z) (d : db) (resp : LoginResponse) : Prop :=
  lr_session_token resp = token /\
  exists info, session_info (hash_token token) now d = Some info /\ user_id info = lr_user_id resp /\
    role info = lr_role resp /\ expires_at info = lr_expires_at resp.

(** [open_session] by its success. *)
Lemma wp_session_opened uid token now d Q :
  (forall e d', Q (Err e) d') ->
  (forall u info, users d !! uid = Some u -> u_status u = "active" -> user_id info = uid -> role info = u_role u ->
     let d' := set_sessions (<[hash_token token := SessionRow uid now (now + DEFAULT_SESSION_TTL)]> (sessions d)) d in
     session_info (hash_token token) now d' = Some info -> Q (Ok info) d') ->
  wp (open_session hash_token uid token now) d Q.
Proof.
  intros H1 H2. unfold open_session, create_session, validate_session. acc_walk; try apply H1.
  match goal with H : insert_session _ _ _ = Ok _ |- _ => apply insert_session_inv in H as (_ & _ & ->) end.
  match goal with H : session_info _ _ _ = Some _ |- _ => pose proof H as Hi; unfold session_info in Hi end.
  cbn in Hi. rewrite lookup_insert_eq in Hi. cbn in Hi. destruct (users d !! uid) as [u|] eqn:Hu; [|done].
  cbn in Hi. destruct (_ && active u) eqn:Ea; [|done]. injection Hi as <-.
  apply andb_true_iff in Ea as [_ Ea%String.eqb_eq]. by eapply H2.
Qed.

Lemma signed_in_response token now d info uid u subject avatar :
  session_info (hash_token token) now d = Some info -> user_id info = uid -> role info = u_role u ->
  signed_in token now d (login_response token info uid u subject avatar).
Proof. intros. split; [done|]. by exists info. Qed.

Definition ready_row (d : db) : Prop := sf_setup_state <$> setup_row d = Some SetupState.Ready.

(** The user whom the verified claims name: active under the subject, or
    invited under the verified email. *)
Definition claimed (c : Claims) (u : user) : Prop :=
  (u_status u = "active" /\ u_oidc_subject u = cl_subject c) \/
  (u_status u = "invited" /\ cl_email_verified c = Some true /\
   exists e, cl_email c = Some e /\ to_ascii_lowercase (u_email u) = to_ascii_lowercase e).

Lemma activate_user_ok id subject avatar now d d' u :
  activate_user id subject avatar now d = Ok d' -> users d !! id = Some u ->
  exists u', d' = set_users (<[id := u']> (users d)) d /\ u_role u' = u_role u.
Proof.
  unfold activate_user. intros H Hu. destruct (bool_decide _); [|done]. injection H as <-.
  rewrite (update_user_some _ _ _ _ Hu). by eexists.
Qed.

Lemma wp_claimed_user c e now d Q :
  cl_email c = Some e -> (forall x d', Q (Err x) d') ->
  (forall uid u a d' u', users d !! uid = Some u -> claimed c u -> sessions d' = sessions d ->
     memory d' = memory d -> users d' !! uid = Some u' -> u_role u' = u_role u -> Q (Ok (uid, u, a)) d') ->
  wp (resolve_oidc_user c e now) d Q.
Proof.
  intros Hce H1 H2. unfold resolve_oidc_user, require_verified_invitation_email. acc_walk; try apply H1;
    repeat match goal with
    | H : head (select_users _ _) = Some (_, _) |- _ => apply head_select in H as [Hu Hp]
    | H : _ && _ = true |- _ => apply andb_true_iff in H as [? ?]
    | H : active _ = true |- _ => apply String.eqb_eq in H
    | H : String.eqb _ _ = true |- _ => apply String.eqb_eq in H
    end.
  - eapply (H2 _ _ _ _ u); [done|by left|done..].
  - rewrite (update_user_some _ _ _ _ Hu). eapply H2; [done|by left|done|done|apply lookup_insert_eq|done].
  - eapply (H2 _ _ _ _ u); [done|by left|done..].
  - match goal with H : activate_user _ _ _ _ _ = Ok _ |- _ =>
      destruct (activate_user_ok _ _ _ _ _ _ _ H Hu) as (u' & -> & Hr) end.
    eapply H2; [exact Hu| |done|done|apply lookup_insert_eq|done].
    right. split; [done|]. split; [by eapply bool_decide_eq_true|by exists e].
Qed.

Lemma oidc_callback_gate exchange code state token now d :
  wp (oidc_callback hash_token decrypt exchange code state token now) d (fun r d' =>
    forall resp, r = Ok resp -> signed_in token now d' resp /\
      pending (pending_auth (memory d')) !! state = None /\
      exists p config claims u, pending (pending_auth (memory d)) !! state = Some p /\
        now - pa_created_at p < 600 /\ pa_setup p = None /\ exchange config p code = Ok claims /\
        users d !! lr_user_id resp = Some u /\ claimed claims u).
Proof.
  unfold oidc_callback. apply wp_bind, wp_in_memory. cbn. acc_walk; try done.
  apply wp_load_oidc_config. intros [config|e0]; [|done]. acc_walk; try done.
  eapply wp_claimed_user; [done|done|]. intros uid u avatar d1 u1 Hu Hc Hses Hmem Hu1 Hr1.
  apply wp_bind, wp_session_opened; [done|]. cbn. intros u2 info Hu2 Ha Hi Hr Hs. acc_walk.
  intros resp [= <-]. simplify_eq. split; [eapply signed_in_response; [done|done|congruence]|].
  cbn. rewrite Hmem. cbn. split; [apply lookup_delete_eq|].
  eexists _, config, _, u. split_and!; try done; [by apply Z.ltb_lt|by eapply bool_decide_eq_true].
Qed.

(** The recovery capability of a request. *)
Definition presented (req : LocalLoginRequest) : option string :=
  v ← ll_recovery_capability req; if is_empty (trim v) then None else Some (trim v).

(** In Local Only mode the client is on the machine; in External Access mode it
    has used up a capability for the account, which the audit log records. *)
Definition local_proof (ip : IpAddr.t) (req : LocalLoginRequest) (now : Z) (d d' : db) (uid : string) : Prop :=
  (runtime_mode_of (access d) = RuntimeMode.Local /\ IpAddr.is_loopback ip = true) \/
  (runtime_mode_of (access d) = RuntimeMode.Remote /\ ready_row d /\
   exists raw id, presented req = Some raw /\
     Capabilities.used hash_token raw (clean_email to_lowercase (ll_email req)) now
       (recovery_capabilities (memory d)) id uid /\
     recovery_capabilities (memory d') !! hash_token raw = None /\
     AuditLog (Some uid) "local_recovery_login_succeeded" "local_recovery_capability" (Some id)
       ∈ audit_logs d').

(** Finishing a sign-in for an account that was found. *)
Lemma wp_finish recovery_id uid u token now d Q :
  users d !! uid = Some u -> (forall e d', Q (Err e) d') ->
  (forall resp d', signed_in token now d' resp -> lr_user_id resp = uid -> memory d' = memory d ->
     (forall id, recovery_id = Some id ->
        AuditLog (Some uid) "local_recovery_login_succeeded" "local_recovery_capability" (Some id)
          ∈ audit_logs d') -> Q (Ok resp) d') ->
  wp (finish_local_login hash_token recovery_id (Some (uid, u)) token now) d Q.
Proof.
  intros Hu H1 H2. unfold finish_local_login, revoke_session. apply wp_bind. apply wp_from_option; [|done].
  intros ? [= <-]. apply wp_bind, wp_session_opened; [intros; apply H1|]. cbn. intros u2 info Hu2 Ha Hi Hr Hs.
  rewrite Hu2 in Hu. injection Hu as ->. unfold try_audit_log. destruct recovery_id as [id|]; acc_walk; try apply H1.
  - apply H2; [by apply signed_in_response|done|done|]. intros ? [= <-]. cbn. set_solver.
  - apply H2; [by apply signed_in_response|done|done|done].
Qed.

Lemma wp_account_found e d Q :
  (forall x, Q (Err x) d) ->
  (forall row, (forall uid u, row = Some (uid, u) -> users d !! uid = Some u) -> Q (Ok row) d) ->
  wp (local_account e) d Q.
Proof.
  intros H1 H2. unfold local_account. acc_walk; try apply H1; apply H2; intros uid u Hh;
    by apply head_select in Hh as [? _].
Qed.

Lemma wp_finish_row recovery_id row token now d Q :
  (forall uid u, row = Some (uid, u) -> users d !! uid = Some u) -> (forall e d', Q (Err e) d') ->
  (forall uid u resp d', row = Some (uid, u) -> signed_in token now d' resp -> lr_user_id resp = uid ->
     memory d' = memory d ->
     (forall id, recovery_id = Some id ->
        AuditLog (Some uid) "local_recovery_login_succeeded" "local_recovery_capability" (Some id)
          ∈ audit_logs d') -> Q (Ok resp) d') ->
  wp (finish_local_login hash_token recovery_id row token now) d Q.
Proof.
  intros Hrow H1 H2. destruct row as [[uid u]|].
  - apply wp_finish; [by apply Hrow|done|]. intros. by eapply H2.
  - unfold finish_local_login. apply wp_bind, wp_from_option; [done|]. intros _. apply H1.
Qed.

Lemma wp_recovered_account raw email now d Q :
  (forall e d', Q (Err e) d') ->
  (forall id uid row d', Capabilities.used hash_token raw email now (recovery_capabilities (memory d)) id uid ->
     recovery_capabilities (memory d') !! hash_token raw = None -> users d' = users d ->
     (forall uid' u, row = Some (uid', u) -> uid' = uid /\ users d' !! uid' = Some u) -> Q (Ok (id, row)) d') ->
  wp (recovery_account hash_token (Some raw) email now) d Q.
Proof.
  intros H1 H2. unfold recovery_account, audit_recovery_failure. apply wp_bind, wp_in_memory.
  destruct (Recovery.consume hash_token raw email now (recovery_capabilities (memory d))) as [c r] eqn:Ec. cbn.
  acc_walk; try apply H1. apply Capabilities.consume_used in Ec as [Hu Hn].
  eapply H2; [exact Hu|done|done|]. cbn. intros uid' u (u0 & Hu0 & Ha)%bind_Some.
  destruct (active u0); by simplify_eq.
Qed.

Lemma local_login_gate ip req id token now d :
  wp (local_login hash_token to_lowercase ip req id token now) d (fun r d' =>
    forall resp, r = Ok resp -> signed_in token now d' resp /\ local_proof ip req now d d' (lr_user_id resp)).
Proof.
  unfold local_login, login_account. cbv zeta. fold (presented req).
  apply wp_bind, wp_load_setup; [done|]. intros sf Hsf. apply wp_bind, wp_load_mode; [done|].
  apply wp_bind, wp_guard; [|done]. intros Hip%negb_true_iff.
  destruct (runtime_mode_of (access d)) eqn:Em; cbn in Hip |- *.
  - apply negb_false_iff in Hip.
    assert (forall d1, wp ('(recovery_id, row) ← (row ← local_account (clean_email to_lowercase (ll_email req));
       mret (None, row)); finish_local_login hash_token recovery_id row token now) d1 (fun r d' =>
         forall resp, r = Ok resp -> signed_in token now d' resp /\ local_proof ip req now d d' (lr_user_id resp))) as Hfin.
    { intros d1. apply wp_bind, wp_bind, wp_account_found; [done|]. intros row Hrow. apply wp_ret.
      apply wp_finish_row; [done|done|]. intros uid u resp d' Hr Hsi _ _ _ resp' [= <-]. split; [done|by left]. }
    apply wp_bind. destruct (bool_decide (sf_setup_state sf = SetupState.Ready)); [apply wp_ret, Hfin|].
    apply wp_bind, wp_guard; [intros _|done].
    eapply (wp_auto_complete hash_token (fun _ => True)); [done|]. intros [[]|e] d1 _; [apply Hfin|done].
  - apply wp_bind. destruct (bool_decide (sf_setup_state sf = SetupState.Ready)) eqn:Erd.
    2: { by apply wp_bind, wp_guard. }
    apply wp_ret, wp_bind, wp_bind. destruct (presented req) as [raw|] eqn:Ep.
    2: { unfold recovery_account, audit_recovery_failure. by acc_walk. }
    apply wp_recovered_account; [done|]. intros cid uid row d1 Hu Hn Hus Hrow. apply wp_ret.
    apply wp_finish_row; [by intros; apply Hrow|done|].
    intros uid' u resp d' Hr Hsi Hid Hmem Haud resp' [= <-]. split; [done|]. right.
    destruct (Hrow _ _ Hr) as [-> _]. split; [done|]. split.
    { unfold ready_row. rewrite Hsf. cbn. f_equal. by eapply bool_decide_eq_true. }
    exists raw, cid. rewrite Hid, Hmem. split_and!; try done. by apply Haud.
Qed.

(** The peer is the trusted proxy, has sent the shared secret, and names the
    account, which is not disabled. *)
Definition proxy_proof (header_name : string -> option string) (in_network : string -> IpAddr.t -> bool)
    (headers : string -> option string) (peer : IpAddr.t) (d : db) (uid : string) : Prop :=
  let s := Proxy.effective_settings to_lowercase header_name (as_trusted_proxy (access d)) in
  ready_row d /\ runtime_mode_of (access d) = RuntimeMode.Remote /\
  remote_auth_mode_of (access d) = RemoteAuthMode.TrustedProxy /\
  Proxy.is_trusted_proxy_peer in_network peer s = true /\
  (exists encrypted sent, Proxy.ep_encrypted_shared_secret s = Some encrypted /\
     headers Proxy.TRUSTED_PROXY_SHARED_SECRET_HEADER = Some sent /\ decrypt encrypted = Some (trim sent)) /\
  (exists name raw e u, header_name (Proxy.ep_user_email_header s) = Some name /\ headers name = Some raw /\
     Proxy.normalize_email_value to_lowercase raw = Some e /\
     users d !! uid = Some u /\ to_ascii_lowercase (u_email u) = to_ascii_lowercase e /\
     u_status u <> "disabled").

Lemma wp_secret_sent headers s d Q :
  (forall e, Q (Err e) d) ->
  (forall encrypted sent, Proxy.ep_encrypted_shared_secret s = Some encrypted ->
     headers Proxy.TRUSTED_PROXY_SHARED_SECRET_HEADER = Some sent -> decrypt encrypted = Some (trim sent) ->
     Q (Ok tt) d) ->
  wp (Proxy.verify_trusted_proxy_shared_secret decrypt headers s) d Q.
Proof.
  intros H1 H2. unfold Proxy.verify_trusted_proxy_shared_secret. acc_walk; try apply H1.
  match goal with H : Proxy.constant_time_eq _ _ = true |- _ => apply constant_time_eq_true in H as -> end.
  match goal with H : (_ ≫= _) = Some _ |- _ => apply bind_Some in H as (sent & Hs & Hv) end.
  destruct (is_empty (trim sent)); [done|]. injection Hv as <-. by eapply H2.
Qed.

Lemma wp_proxy_named header_name headers s d Q :
  (forall e, Q (Err e) d) ->
  (forall name raw e, header_name (Proxy.ep_user_email_header s) = Some name -> headers name = Some raw ->
     Proxy.normalize_email_value to_lowercase raw = Some e -> Q (Ok e) d) ->
  wp (Proxy.extract_trusted_proxy_email to_lowercase header_name headers s) d Q.
Proof.
  intros H1 H2. unfold Proxy.extract_trusted_proxy_email. acc_walk; try apply H1. by eapply H2.
Qed.

Lemma wp_settings_loaded header_name env d Q :
  (forall e, Q (Err e) d) ->
  Q (Ok (Proxy.effective_settings to_lowercase header_name (as_trusted_proxy (access d)))) d ->
  wp (Proxy.load_effective_trusted_proxy_settings to_lowercase header_name env) d Q.
Proof. intros H1 H2. unfold Proxy.load_effective_trusted_proxy_settings. acc_walk; (done || apply H1). Qed.

Lemma proxy_login_gate header_name env in_network headers peer token now d :
  wp (trusted_proxy_login hash_token to_lowercase decrypt header_name env in_network headers peer token now) d
    (fun r d' => forall resp, r = Ok resp ->
       signed_in token now d' resp /\
       proxy_proof header_name in_network headers peer d (lr_user_id resp)).
Proof.
  unfold trusted_proxy_login. cbv zeta. acc_walk; try done. apply wp_settings_loaded; [done|]. acc_walk; try done.
  apply wp_secret_sent; [done|]. intros encrypted sent He Hs Hd. acc_walk; try done.
  apply wp_proxy_named; [done|]. intros name raw email Hname Hraw Hem.
  apply wp_bind, wp_query; [done|]. apply wp_bind, wp_from_option; [|done].
  intros [uid u] [Hu Hmail%String.eqb_eq]%head_select. apply wp_bind, wp_guard; [|done].
  intros Hst%negb_true_iff%String.eqb_neq.
  assert (proxy_proof header_name in_network headers peer d uid) as Hproof.
  { unfold proxy_proof, ready_row.
    match goal with H : setup_row d = Some ?sf |- _ => rewrite H end. cbn.
    split_and!; try (by eapply bool_decide_eq_true).
    - f_equal. by eapply bool_decide_eq_true.
    - done.
    - by exists encrypted, sent.
    - by exists name, raw, email, u. }
  assert (forall subject d1 u1, users d1 !! uid = Some u1 -> u_role u1 = u_role u ->
    wp (info ← open_session hash_token uid token now;
        _ ← write_audit_log (Some uid) "trusted_proxy_login_succeeded" "auth" (Some uid);
        mret (login_response token info uid u subject (u_avatar_url u))) d1
      (fun r d' => forall resp, r = Ok resp -> signed_in token now d' resp /\
         proxy_proof header_name in_network headers peer d (lr_user_id resp))) as Hfin.
  { intros subject d1 u1 Hu1 Hr1. apply wp_bind, wp_session_opened; [done|]. cbn. intros u2 info Hu2 Ha Hi Hr Hsi.
    acc_walk. intros resp [= <-]. split; [|done]. apply signed_in_response; [done|done|congruence]. }
  apply wp_bind. destruct (String.eqb (u_status u) "invited").
  - apply wp_bind, wp_map_err, wp_checked; [done|]. intros d1 Hd1.
    destruct (activate_user_ok _ _ _ _ _ _ _ Hd1 Hu) as (u1 & -> & Hr1). cbn.
    apply wp_bind, wp_audit. intros l. apply wp_ret, (Hfin _ _ u1); [apply lookup_insert_eq|done].
  - apply wp_ret. by apply (Hfin _ _ u).
Qed.

(** C10: What a sign-in must have shown.  Whatever fails, each way to sign in
    answers with a session only when it authenticates exactly the user and role
    it answers, and: by OIDC, a request started here less than ten minutes ago,
    not for setup, is used up, and the provider's verified claims name the user
    - active under the subject, or invited under a verified email; locally, the
    client is on the machine in Local Only mode, or in External Access a
    recovery capability for that account is used up and the audit log says so;
    through a proxy, the peer is trusted and knows the shared secret, and the
    user it names is not disabled. *)
Theorem sign_in_gate token now w w' resp :
  (forall exchange code state,
     oidc_callback hash_token decrypt exchange code state token now w = (w', Ok resp) ->
     signed_in token now (w_db w') resp /\
     pending (pending_auth (memory (w_db w'))) !! state = None /\
     exists p config claims u, pending (pending_auth (memory (w_db w))) !! state = Some p /\
       now - pa_created_at p < 600 /\ pa_setup p = None /\ exchange config p code = Ok claims /\
       users (w_db w) !! lr_user_id resp = Some u /\ claimed claims u) /\
  (forall ip req id,
     local_login hash_token to_lowercase ip req id token now w = (w', Ok resp) ->
     signed_in token now (w_db w') resp /\
     local_proof ip req now (w_db w) (w_db w') (lr_user_id resp)) /\
  (forall header_name env in_network headers peer,
     trusted_proxy_login hash_token to_lowercase decrypt header_name env in_network headers peer token now w
       = (w', Ok resp) ->
     signed_in token now (w_db w') resp /\
     proxy_proof header_name in_network headers peer (w_db w) (lr_user_id resp)).
Proof.
  split_and!.
  - intros exchange code state H. exact (wp_run _ _ _ _ _ (oidc_callback_gate exchange code state token now _) H _ eq_refl).
  - intros ip req id H. exact (wp_run _ _ _ _ _ (local_login_gate ip req id token now _) H _ eq_refl).
  - intros header_name env in_network headers peer H.
    exact (wp_run _ _ _ _ _ (proxy_login_gate header_name env in_network headers peer token now _) H _ eq_refl).
Qed.

End Gate.

(** ** The client's address *)

Section ClientAddress.

Import Client.

Context (parse_ip : string -> option IpAddr.t) (headers : string -> option string).

(** [ip] is an address some forwarding header claims. *)
Inductive claims_address : IpAddr.t -> Prop :=
  | ca_single name ip :
      name ∈ ["cf-connecting-ip"; "x-real-ip"] -> parse_ip_from_header parse_ip headers name = Some ip ->
      claims_address ip
  | ca_forwarded_for raw hop ip :
      headers "x-forwarded-for" = Some raw -> hop ∈ split_char comma raw ->
      parse_ip_token parse_ip hop = Some ip -> claims_address ip
  | ca_forwarded raw element part node ip :
      headers "forwarded" = Some raw -> element ∈ split_char comma raw -> part ∈ split_char semicolon element ->
      strip_prefix "for=" (trim part) = Some node -> parse_ip_token parse_ip node = Some ip ->
      claims_address ip.

(** The loop returns an address of its list, or the one it was given, and a
    loopback one only when there is no other. *)
Lemma first_outside_in first ips ip :
  first_outside first ips = Some ip -> first = Some ip \/ Some ip ∈ ips.
Proof.
  revert first. induction ips as [|[a|] ips IH]; intros first; cbn; [by left|..].
  - destruct (IpAddr.is_loopback a).
    + intros [H|H]%IH; [|right; by right]. destruct first; simplify_eq; [by left|right; by left].
    + intros [= <-]. right. by left.
  - intros [H|H]%IH; [by left|right; by right].
Qed.

Lemma first_outside_loopback first ips a :
  Some a ∈ ips -> IpAddr.is_loopback a = false ->
  exists ip, first_outside first ips = Some ip /\ IpAddr.is_loopback ip = false.
Proof.
  revert first. induction ips as [|[b|] ips IH]; intros first Hin Ha; cbn; [by apply elem_of_nil in Hin|..].
  - destruct (IpAddr.is_loopback b) eqn:Eb; [|by exists b].
    apply elem_of_cons in Hin as [[= ->]|Hin]; [congruence|]. by apply IH.
  - apply elem_of_cons in Hin as [?|Hin]; [done|]. by apply IH.
Qed.

Lemma first_outside_some first ips : is_Some first -> is_Some (first_outside first ips).
Proof.
  revert first. induction ips as [|[a|] ips IH]; intros first Hf; cbn; [done|..].
  - destruct (IpAddr.is_loopback a); [|done]. apply IH. by destruct first.
  - by apply IH.
Qed.

Lemma elem_of_concat {A} (x : A) ls : x ∈ concat ls <-> exists l, x ∈ l /\ l ∈ ls.
Proof.
  rewrite list_elem_of_In, in_concat. split; intros (l & H1 & H2); exists l; rewrite !list_elem_of_In in *; done.
Qed.

Lemma candidates_claimed ip : ip ∈ forwarded_candidates parse_ip headers -> claims_address ip.
Proof.
  unfold forwarded_candidates. rewrite list_elem_of_omap. intros (o & Ho & ->).
  repeat (apply elem_of_cons in Ho as [Ho|Ho]); [..|by apply elem_of_nil in Ho].
  - eapply ca_single; [|done]. set_solver.
  - symmetry in Ho. apply bind_Some in Ho as (raw & Hraw & Hf).
    apply first_outside_in in Hf as [?|Hf]; [done|].
    apply list_elem_of_fmap in Hf as (part & Hp & Hin). symmetry in Hp. apply bind_Some in Hp as (node & Hn & Hip).
    apply elem_of_concat in Hin as (l & Hpart & Hl). apply list_elem_of_fmap in Hl as (element & -> & Hel).
    by eapply ca_forwarded.
  - symmetry in Ho. apply bind_Some in Ho as (raw & Hraw & Hf).
    apply first_outside_in in Hf as [?|Hf]; [done|]. apply list_elem_of_fmap in Hf as (hop & Hp & Hin).
    by eapply ca_forwarded_for.
  - eapply ca_single; [|done]. set_solver.
Qed.

(** A claimed address outside gives a candidate outside. *)
Lemma claimed_candidate ip :
  claims_address ip -> IpAddr.is_loopback ip = false ->
  exists ip', ip' ∈ forwarded_candidates parse_ip headers /\ IpAddr.is_loopback ip' = false.
Proof.
  intros Hc Hl.
  assert (forall o ip', o ∈ [parse_ip_from_header parse_ip headers "cf-connecting-ip"; parse_forwarded_for parse_ip headers;
     parse_x_forwarded_for parse_ip headers; parse_ip_from_header parse_ip headers "x-real-ip"] ->
     o = Some ip' -> ip' ∈ forwarded_candidates parse_ip headers) as Hcand.
  { intros o ip' Ho ->. apply list_elem_of_omap. by eexists. }
  destruct Hc as [name ip Hn Hp|raw hop ip Hraw Hin Hp|raw el part node ip Hraw Hel Hpart Hs Hp].
  - exists ip. split; [|done]. eapply Hcand; [|exact Hp]. set_solver.
  - destruct (first_outside_loopback None (map (parse_ip_token parse_ip) (split_char comma raw)) ip)
      as (ip' & Hf & Hl'); [by apply list_elem_of_fmap; eexists|done|].
    exists ip'. split; [|done]. eapply (Hcand (parse_x_forwarded_for parse_ip headers)); [set_solver|].
    unfold parse_x_forwarded_for. by rewrite Hraw.
  - destruct (first_outside_loopback None
      (map (fun part => strip_prefix "for=" (trim part) ≫= parse_ip_token parse_ip)
       (concat (map (split_char semicolon) (split_char comma raw)))) ip) as (ip' & Hf & Hl').
    + apply list_elem_of_fmap. exists part. rewrite Hs. split; [done|].
      apply elem_of_concat. exists (split_char semicolon el). split; [done|]. by apply list_elem_of_fmap_2.
    + done.
    + exists ip'. split; [|done]. eapply (Hcand (parse_forwarded_for parse_ip headers)); [set_solver|].
      unfold parse_forwarded_for. by rewrite Hraw.
Qed.

(** Who is local.  The address a request is judged by is a loopback address
    exactly when the peer is one and no forwarding header - of Cloudflare, of
    either standard for forwarding, or [X-Real-IP] - claims any address that is
    not; so a request that a local proxy passes on from outside, and says so,
    is never taken for one of this machine. *)
Theorem loopback_client peer :
  IpAddr.is_loopback (effective_client_ip parse_ip headers peer) = true <->
  IpAddr.is_loopback peer = true /\ forall ip, claims_address ip -> IpAddr.is_loopback ip = true.
Proof.
  unfold effective_client_ip. destruct (IpAddr.is_loopback peer) eqn:Ep; cbn [negb]; [|rewrite Ep; naive_solver].
  destruct (find _ _) as [ip|] eqn:Ef.
  - apply find_some in Ef as [Hin Hl%negb_true_iff]. apply list_elem_of_In, candidates_claimed in Hin. split.
    + congruence.
    + intros [_ H]. by apply H.
  - assert (forall ip, ip ∈ forwarded_candidates parse_ip headers -> IpAddr.is_loopback ip = true) as Hall.
    { intros ip Hin%list_elem_of_In. by apply negb_false_iff, (find_none _ _ Ef). }
    split; [intros _; split; [done|]|intros _].
    + intros ip Hc. destruct (IpAddr.is_loopback ip) eqn:El; [done|].
      destruct (claimed_candidate _ Hc El) as (ip' & Hin & Hl'). by rewrite Hall in Hl'.
    + destruct (forwarded_candidates parse_ip headers) as [|ip l]; [exact Ep|]. apply Hall. by left.
Qed.

End ClientAddress.

(** ** Changing the access policy *)

Section Policy.

Context (enforce : string -> string -> string -> bool)
        (preflight : RemoteAuthMode.t -> result api_error (option api_error)).

(** The modes in force. *)
Definition modes (d : db) : RuntimeMode.t * RemoteAuthMode.t :=
  (runtime_mode_of (access d), remote_auth_mode_of (access d)).

(** What is stored is what was asked for, where it was asked for. *)
Lemma store_preferences_modes req old_paused paused d :
  let mode := default (runtime_mode_of (access d)) (up_runtime_mode req) in
  let auth_mode := default (remote_auth_mode_of (access d)) (up_remote_auth_mode req) in
  let r := store_preferences req (runtime_mode_of (access d)) mode (remote_auth_mode_of (access d)) auth_mode
             old_paused paused d in
  r.2 = 1 -> modes r.1 = (mode, auth_mode).
Proof.
  cbv zeta. unfold store_preferences, modes, runtime_mode_of, remote_auth_mode_of.
  destruct (as_modes (access d)) as [[rt ra]|]; cbn [fst snd fmap option_fmap option_map].
  - destruct (_ && _); [|done]. intros _. cbn.
    destruct (up_runtime_mode req) as [[]|], (up_remote_auth_mode req) as [[]|]; done.
  - intros _. cbn. destruct (up_runtime_mode req) as [[]|], (up_remote_auth_mode req) as [[]|]; done.
Qed.

(** The modes stay, or an owner changed them, to External Access only after the
    checks passed. *)
Definition policy_gate (auth : SessionInfo) (d d' : db) : Prop :=
  modes d' = modes d \/
  (role auth = "owner" /\
   ((modes d').1 = RuntimeMode.Remote -> preflight (modes d').2 = Ok None)).

(** No session and no recovery capability is left. *)
Definition signed_out (d : db) : Prop := sessions d = ∅ /\ recovery_capabilities (memory d) = ∅.

Lemma delete_all_sessions d : sessions (delete_sessions (fun _ _ => true) d).1 = ∅.
Proof. apply map_eq. intros h. rewrite lookup_empty. apply map_lookup_filter_None. by right. Qed.

Definition policy_outcome (auth : SessionInfo) (d : db)
    (r : result api_error (RuntimeMode.t * RemoteAuthMode.t * bool)) (d' : db) : Prop :=
  policy_gate auth d d' /\
  forall stored, r = Ok stored -> modes d' = stored.1 /\ (modes d' <> modes d -> signed_out d').

Lemma policy_refused auth d e d' : modes d' = modes d -> policy_outcome auth d (Err e) d'.
Proof. intros H. split; [by left|done]. Qed.

Lemma store_preferences_refused req old_mode mode old_auth auth_mode old_paused paused d :
  (store_preferences req old_mode mode old_auth auth_mode old_paused paused d).2 <> 1 ->
  (store_preferences req old_mode mode old_auth auth_mode old_paused paused d).1 = d.
Proof. unfold store_preferences. destruct (as_modes (access d)) as [[rt ra]|]; [destruct (_ && _)|]; done. Qed.

Lemma wp_maybe_audit {E} (c : bool) actor action kind id d (Q : result E unit -> db -> Prop) :
  (forall l, Q (Ok tt) (set_audit_logs l d)) ->
  wp (if c then write_audit_log actor action kind id else mret tt) d Q.
Proof.
  intros H. destruct c; [by apply wp_audit|]. apply wp_ret.
  specialize (H (audit_logs d)). by destruct d.
Qed.

Lemma wp_owner_if (c : bool) auth msg d Q :
  (forall e, Q (Err e) d) -> ((c = true -> role auth = "owner") -> Q (Ok tt) d) ->
  wp (if c then owner_required auth msg else mret tt) d Q.
Proof.
  intros H1 H2. unfold owner_required. destruct c; acc_walk; try done; apply H2; [|done].
  intros _. by apply String.eqb_eq.
Qed.

Lemma wp_preflight_if (c : bool) actor auth_mode d Q :
  (forall e l, Q (Err e) (set_audit_logs l d)) ->
  (forall l, (c = true -> preflight auth_mode = Ok None) -> Q (Ok tt) (set_audit_logs l d)) ->
  wp (if c then
        blocked ← lift (preflight auth_mode);
        _ ← write_audit_log actor "external_access_preflight_checked" "instance_settings" (Some "external_access");
        match blocked with
        | Some e =>
            _ ← write_audit_log actor "external_access_enable_blocked" "instance_settings" (Some "external_access");
            throw e
        | None => mret tt
        end
      else mret tt) d Q.
Proof.
  intros H1 H2. assert (d = set_audit_logs (audit_logs d) d) as Hd by (by destruct d).
  destruct c; acc_walk; try (by apply H1).
  - by apply H2.
  - rewrite Hd. apply H1.
  - rewrite Hd. by apply H2.
Qed.

Lemma preferences_wp auth req now d :
  wp (update_instance_preferences enforce preflight auth req now) d (policy_outcome auth d).
Proof.
  unfold update_instance_preferences, revoke_all_sessions. cbv zeta.
  repeat (apply wp_bind; first
    [ apply wp_permission; [by intros; apply policy_refused|intros _]
    | apply wp_guard; [intros _|by intros; apply policy_refused]
    | apply wp_load_mode; [by intros; apply policy_refused|]
    | apply wp_load_auth_mode; [by intros; apply policy_refused|]
    | apply wp_query; [by apply policy_refused|] ]; cbv beta iota).
  set (mode := default (runtime_mode_of (access d)) (up_runtime_mode req)).
  set (auth_mode := default (remote_auth_mode_of (access d)) (up_remote_auth_mode req)).
  set (changed := negb (bool_decide (mode = _)) || negb (bool_decide (auth_mode = _))).
  assert (changed = false -> (mode, auth_mode) = modes d) as Hunchanged.
  { intros [H1%negb_false_iff H2%negb_false_iff]%orb_false_iff. apply bool_decide_eq_true in H1, H2.
    unfold modes. by rewrite H1, H2. }
  apply wp_bind, wp_owner_if; [by intros; apply policy_refused|]. intros Hown.
  apply wp_bind, wp_preflight_if; [by intros; apply policy_refused|]. intros l Hpre.
  assert (forall d2, modes d2 = (mode, auth_mode) -> policy_gate auth d d2) as Hgate.
  { intros d2 Hd2. unfold policy_gate. rewrite Hd2. destruct changed eqn:Ec; [right|left; auto].
    split; [auto|]. intros Hr. apply Hpre. by rewrite bool_decide_eq_true_2. }
  apply wp_bind, wp_exec; [by apply policy_refused|].
  pose proof (store_preferences_modes req (runner_paused d)
    (default (runner_paused d) (up_direct_macos_runner_paused req)) (set_audit_logs l d)) as Hst.
  pose proof (store_preferences_refused req (runtime_mode_of (access d)) mode (remote_auth_mode_of (access d))
    auth_mode (runner_paused d) (default (runner_paused d) (up_direct_macos_runner_paused req))
    (set_audit_logs l d)) as Hno.
  cbn [access set_audit_logs] in Hst. fold mode auth_mode in Hst. cbv zeta in Hst.
  destruct (store_preferences _ _ _ _ _ _ _ _) as [d2 n]. cbn [fst snd] in *.
  apply wp_bind, wp_guard; [intros Hn%Z.eqb_eq|intros Hn%Z.eqb_neq; rewrite (Hno Hn); by apply policy_refused].
  specialize (Hst Hn).
  assert (forall d3, access d3 = access d2 -> modes d3 = (mode, auth_mode)) as Hm
    by (intros d3 H; unfold modes; rewrite H; exact Hst).
  assert (forall e d3, access d3 = access d2 -> policy_outcome auth d (Err e) d3) as Herr
    by (intros e d3 H; split; [by apply Hgate, Hm|done]).
  apply wp_bind, wp_load_mode; [by intros; apply Herr|]. apply wp_bind, wp_load_auth_mode; [by intros; apply Herr|].
  apply wp_bind, wp_query; [by apply Herr|]. apply wp_bind, wp_audit. intros l1. apply wp_bind, wp_maybe_audit.
  intros l2. apply wp_bind. destruct changed eqn:Ec.
  - apply wp_bind, wp_in_memory. apply wp_bind, wp_map_err, wp_sql; [by intros; apply Herr|].
    apply wp_bind, wp_maybe_audit. intros l3. apply wp_bind, wp_maybe_audit. intros l4. apply wp_maybe_audit.
    intros l5. apply wp_ret. split; [by apply Hgate, Hm|]. intros stored [= <-]. split; [done|]. intros _.
    split; [apply delete_all_sessions|done].
  - apply wp_ret, wp_ret. split; [by apply Hgate, Hm|]. intros stored [= <-]. split; [done|].
    intros []. rewrite <- Hunchanged by done. by apply Hm.
Qed.

(** Changing how users sign in.  The modes change only for an owner, and to
    External Access only after the checks of the new method passed; when the
    request is answered, it answers the modes in force, and if they changed no
    session and no recovery capability from before is left. *)
Theorem access_policy_change auth req now w w' r :
  update_instance_preferences enforce preflight auth req now w = (w', r) ->
  policy_gate auth (w_db w) (w_db w') /\
  forall stored, r = Ok stored ->
    modes (w_db w') = stored.1 /\ (modes (w_db w') <> modes (w_db w) -> signed_out (w_db w')).
Proof. intros H. exact (wp_run _ _ _ _ _ (preferences_wp auth req now (w_db w)) H). Qed.

End Policy.

(** ** Runs *)

Module SignInSample.

Import AccountSample.

Definition outside : IpAddr.t := IpAddr.V4 (203 * 2 ^ 24 + 7).

(** A start from outside and one that is committed. *)
Definition g1 : Admission.gate :=
  Admission.Gate 5 (Pending.reserve_public "r1" outside 5 (pending_auth Sample.no_memory)).1 [(5, outside)].

Lemma oidc_admission_limits_witness :
  (size (pending (Admission.g_store g1)) + size (reservations (Admission.g_store g1)) <= 1000)%nat /\
  length (Admission.in_window 10 (Admission.times (Admission.g_log g1))) = 1%nat.
Proof.
  assert (rtc Admission.gate_step (Admission.empty_gate 5 "g0") g1) as Hrun.
  { apply rtc_once.
    exact (Admission.gs_reserve "r1" outside 5 (pending_auth Sample.no_memory) []
      (Pending.reserve_public "r1" outside 5 (pending_auth Sample.no_memory)).1 (Ok tt)
      ltac:(vm_compute; reflexivity)). }
  destruct (Admission.oidc_admission_limits 5 "g0" 5 _ _ Hrun) as [H _]. split; [exact H|]. by vm_compute.
Defined.

(** A capability that is minted and used. *)
Definition draw : string := "0123456789abcdef0123456789abcdef0123456789abcdef0123456789abcdef".
Definition raw : string := Recovery.CAPABILITY_PREFIX +:+ draw.
Definition minted : gmap string RecoveryCapability :=
  (Recovery.mint hash "u1" "owner@x.io" 60 "c1" draw 100 ∅).1.

Lemma recovery_capability_once_witness :
  Capabilities.used hash raw (Some "Owner@X.io ") 130 minted "c1" "u1" /\
  exists e, (Recovery.consume hash raw None 131
    (Recovery.consume hash raw (Some "Owner@X.io ") 130 minted).1).2 = Err e.
Proof.
  assert (rtc (Capabilities.caps_step hash (fun d => d = draw)) (100, ∅) (130, minted)) as Hrun.
  { apply (rtc_l _ _ (100, minted)); [by apply Capabilities.cs_mint|]. apply rtc_once.
    by apply Capabilities.cs_tick. }
  assert ((Recovery.consume hash raw (Some "Owner@X.io ") 130 minted).2 = Ok ("c1", "u1")) as Ec by (by vm_compute).
  destruct (Capabilities.recovery_capability_once hash (fun d => d = draw) 100 130 minted raw (Some "Owner@X.io ")
    (Recovery.consume hash raw (Some "Owner@X.io ") 130 minted).1 "c1" "u1" Hrun)
    as (_ & _ & Hu & _).
  { rewrite <- Ec. apply surjective_pairing. }
  split; [exact Hu|]. eexists. by vm_compute.
Defined.

(** The wizard configures OIDC and the owner signs in. *)
Definition request : OidcConfigureRequest :=
  {| cr_issuer_url := "https://id.x.io"; cr_client_id := "oore"; cr_client_secret := Some "s3cret";
     cr_clear_client_secret := false |}.
Definition provider (issuer : string) : option Discovered :=
  Some {| dp_issuer := issuer; dp_authorization_endpoint := "https://id.x.io/a";
          dp_token_endpoint := "https://id.x.io/t"; dp_userinfo_endpoint := None;
          dp_jwks_uri := "https://id.x.io/k" |}.
Definition any_redirect (uri : string) : result api_error unit := Ok tt.

Definition s1 : world :=
  after (setup_preferences hash (bearer "wizard") RuntimeMode.Remote (Some RemoteAuthMode.Oidc) "g1" 1002) w3.
Definition s2 : world :=
  after (configure_oidc hash keep (fun _ => true) provider (bearer "wizard") request "g2" 1003) s1.
Abbreviation begin := (setup_oidc_begin hash keep any_redirect (bearer "wizard") "https://ci.x.io/cb" 1004).
Abbreviation claim a :=
  (commit_setup_oidc_owner any_redirect a "https://ci.x.io/cb" "owner@x.io" "sub-1" "g3" 1005).

Lemma owner_claim_same_configuration_witness : exists a config expires sf sf2,
  (begin s2).2 = Ok (a, config) /\ (claim a (begin s2).1).2 = Ok expires /\
  setup_row (w_db s2) = Some sf /\ setup_row (w_db (begin s2).1) = Some sf2 /\
  sf_oidc_config sf2 = sf_oidc_config sf.
Proof.
  destruct (begin s2).2 as [[a config]|e] eqn:Eb; [|vm_compute in Eb; discriminate Eb].
  destruct (claim a (begin s2).1).2 as [expires|e] eqn:Ec.
  2: { vm_compute in Eb. injection Eb as <- <-. vm_compute in Ec. discriminate Ec. }
  assert (begin s2 = ((begin s2).1, Ok (a, config))) as Hb by (rewrite <- Eb; apply surjective_pairing).
  assert (claim a (begin s2).1 = ((claim a (begin s2).1).1, Ok expires)) as Hc
    by (rewrite <- Ec; apply surjective_pairing).
  destruct (owner_claim_same_configuration hash keep any_redirect (bearer "wizard") "https://ci.x.io/cb" 1004
    s2 (begin s2).1 a config "owner@x.io" "sub-1" "g3" 1005 (begin s2).1 (claim a (begin s2).1).1 expires Hb Hc)
    as (sf & sf2 & sx & sx2 & H1 & (H2 & _) & _ & _ & _ & _ & H3 & _).
  exists a, config, expires, sf, sf2. by split_and!.
Defined.

(** The owner signs in on the machine. *)
Lemma sign_in_gate_witness : exists resp,
  (local_login hash to_ascii_lowercase home (sign_in "owner@x.io") "u9" "tok1" 1004 w5).2 = Ok resp /\
  signed_in hash "tok1" 1004 (w_db w6) resp /\
  local_proof hash to_ascii_lowercase home (sign_in "owner@x.io") 1004 (w_db w5) (w_db w6) (lr_user_id resp).
Proof.
  destruct (local_login hash to_ascii_lowercase home (sign_in "owner@x.io") "u9" "tok1" 1004 w5).2 as [resp|e] eqn:E;
    [|vm_compute in E; discriminate E].
  exists resp. split; [done|].
  destruct (sign_in_gate hash to_ascii_lowercase keep "tok1" 1004 w5 w6 resp) as (_ & H & _).
  apply (H home (sign_in "owner@x.io") "u9"). rewrite <- E. unfold w6, after. apply surjective_pairing.
Defined.

(** The owner opens the instance to the outside. *)
Definition to_remote : UpdateInstancePreferencesRequest :=
  {| up_key_storage_mode := KeyStorageMode.File; up_runtime_mode := Some RuntimeMode.Remote;
     up_remote_auth_mode := None; up_direct_macos_runner_paused := None |}.

Lemma access_policy_change_witness :
  modes (w_db w6) = (RuntimeMode.Local, RemoteAuthMode.Oidc) /\
  signed_out (w_db (update_instance_preferences enforce (fun _ => Ok None) (as_user "u1" "owner") to_remote 1010 w6).1).
Proof.
  destruct (access_policy_change enforce (fun _ => Ok None) (as_user "u1" "owner") to_remote 1010 w6 _ _
    (surjective_pairing _)) as [_ H].
  split; [by vm_compute|].
  apply (H (RuntimeMode.Remote, RemoteAuthMode.Oidc, false)); [by vm_compute|].
  intros E. vm_compute in E. discriminate E.
Defined.

(** A local proxy passes on a request from outside. *)
Definition known_ips (s : string) : option IpAddr.t :=
  if String.eqb s "127.0.0.1" then Some home else if String.eqb s "203.0.0.7" then Some outside else None.
Definition forwarded (name : string) : option string :=
  if String.eqb name "x-forwarded-for" then Some "127.0.0.1, 203.0.0.7:4711" else None.

Lemma loopback_client_witness :
  IpAddr.is_loopback (Client.effective_client_ip known_ips forwarded home) = false /\
  IpAddr.is_loopback (Client.effective_client_ip known_ips (fun _ => None) home) = true.
Proof.
  split; [by vm_compute|]. apply loopback_client. split; [done|].
  intros ip [name ip' Hn Hp|raw hop ip' Hr Hi Hp|raw element part node ip' Hr He Hp Hs Hn]; discriminate.
Defined.

End SignInSample.
