(* ===== verification/Schedules.v ===== *)
(** * Scheduled builds

    The schedule monitor of [crates/oored/src/pipeline_schedules.rs]
    (validation, the checkpoint of [pipeline_schedule_runs], one tick) and the
    build it starts, [create_scheduled_build] of [builds.rs].

    The calendar is chrono's and the commit of a branch is the source host's
    answer: both are parameters.  [draw n] is the [n]-th identifier and clock
    reading of a tick.  A pipeline's JSON columns are held decoded, so the
    branches for undecodable JSON do not arise. *)

From stdpp Require Import pretty.
From S2P Require Import Prelude Contract RustStr Labels Sizes Triggers Cron Db Builds Runners Creation.
Import Cron.

Local Open Scope Z_scope.

(** ** Schedules *)

Definition MAX_SCHEDULES : Z := 10.
Definition CATCH_UP_SECS : Z := 5 * 60.

(** The errors of one entry of [trigger_config.schedules]. *)
Definition schedule_errors (index : nat) (s : ScheduleTrigger) : list string :=
  let at_ := "trigger_config.schedules[" +:+ pretty index +:+ "]" in
  match parse (sched_cron s) with Err error => [at_ +:+ ".cron " +:+ error] | Ok _ => [] end
  ++ match sched_branch s with
     | Some branch =>
         if is_empty (trim branch)
         then [at_ +:+ ".branch must not be empty when provided"] else []
     | None => []
     end.

(** [validate_schedules]. *)
Definition validate_schedules (schedules : list ScheduleTrigger) : list string :=
  (if MAX_SCHEDULES <? Z.of_nat (length schedules)
   then ["trigger_config.schedules has too many entries (max 10)"%string] else [])
  ++ concat (imap schedule_errors schedules).

(** [schedule_key]. *)
Definition schedule_key (s : ScheduleTrigger) : string :=
  trim (sched_cron s) +:+ "|" +:+ trim (default ""%string (sched_branch s)).

(** The conditional UPDATE of a checkpoint from [old] to [new], with the rows
    affected. *)
Definition move_checkpoint (key : string * string) (old new : Z) (d : db) : db * Z :=
  if bool_decide (schedule_runs d !! key = Some old)
  then (set_schedule_runs (<[key := new]> (schedule_runs d)) d, 1) else (d, 0).

(** A build the pipeline's schedules started since [since]. *)
Definition scheduled_since (pipeline_id : string) (since : Z) (b : build) : bool :=
  String.eqb (b_pipeline_id b) pipeline_id
  && bool_decide (bm_trigger_type (b_meta b) = TriggerType.Schedule)
  && (since <=? bm_created_at (b_meta b)).

(** [release_claim]. *)
Definition release_claim (pipeline_id : string) (s : ScheduleTrigger) (previous now : Z)
    : ME sqlx_error bool :=
  released ← sql (fun d =>
    if existsb (fun kv => scheduled_since pipeline_id now kv.2) (map_to_list (builds d))
    then (d, 0) else move_checkpoint (pipeline_id, schedule_key s) now previous d);
  mret (released =? 1).

(** Insert a build, then record its creation and, when it must be approved,
    ask for it.  [refused] answers an insert whose WHERE clause did not hold. *)
Definition queue_build (b : BuildInsertBinds) (reason : string) (refused : api_error) : M string :=
  inserted ← insert_build_with_retry b;
  if (inserted : bool) then
    _ ← record_created b reason;
    _ ← announce_if_gated b None;
    mret (bi_build_id b)
  else throw refused.

Section Monitor.
Context (from_timestamp : Z -> option DateTime)
  (resolve_branch_commit : string -> string -> M string).

(** [claim_due_run].  [i64] division truncates. *)
Definition claim_due_run (pipeline_id : string) (s : ScheduleTrigger) (cron : Cron) (now : Z)
    : ME sqlx_error (option Z) :=
  let key := (pipeline_id, schedule_key s) in
  last_checked ← sql (fun d => (d, schedule_runs d !! key));
  match last_checked with
  | None =>
      _ ← sql (fun d => (match schedule_runs d !! key with
                         | Some _ => d
                         | None => set_schedule_runs (<[key := now]> (schedule_runs d)) d
                         end, tt));
      mret None
  | Some last_checked =>
      if Z.quot now 60 <=? Z.quot last_checked 60 then mret None
      else
        n ← sql (move_checkpoint key last_checked now);
        mret (if (n =? 1)
                 && due_between from_timestamp cron (Z.max last_checked (now - CATCH_UP_SECS)) now
              then Some last_checked else None)
  end.

(** The row of an enabled pipeline and its project. *)
Definition enabled_pipeline (pipeline_id : string) (d : db) : option (pipeline * project) :=
  pl ← pipelines d !! pipeline_id;
  p ← projects d !! pl_project_id pl;
  if pl_enabled pl then Some (pl, p) else None.

(** The binds of the row [create_scheduled_build] inserts. *)
Definition scheduled_binds (pipeline_id : string) (s : ScheduleTrigger) (pl : pipeline)
    (repository_id repo_url branch commit_sha build_id : string) (now : Z) : BuildInsertBinds :=
  let '(timeout_minutes, approval_policy) := pipeline_gates pl in
  {| bi_build_id := build_id; bi_project_id := pl_project_id pl; bi_pipeline_id := pipeline_id;
     bi_actor := Some ("schedule: " +:+ trim (sched_cron s));
     bi_event_type := Some "schedule"%string; bi_trigger_ref := Some branch;
     bi_commit_sha := Some commit_sha; bi_branch := Some branch; bi_changelog := None;
     bi_config_snapshot := set_snapshot_workflow_name
       (create_config_snapshot (pl_runs_on pl) timeout_minutes (repository_id, repo_url))
       (pl_workflow pl);
     bi_webhook_id := None; bi_now := now; bi_trigger_type := TriggerType.Schedule;
     bi_source_build_id := None; bi_cancel_previous := cancel_previous (pl_concurrency pl);
     bi_approval_required := applies_to approval_policy "schedule" |}.

(** [create_scheduled_build]; [build_id] is drawn and [now] the clock when
    the row is written. *)
Definition create_scheduled_build (pipeline_id : string) (s : ScheduleTrigger) (build_id : string)
    (now : Z) : M string :=
  row ← query "Failed to fetch pipeline" (enabled_pipeline pipeline_id);
  '(pl, p) ← from_option (ApiErr 404 "not_found" "Pipeline not found or disabled") row;
  repository_id ← from_option (ApiErr 409 "source_not_configured"
                    "Project is not linked to a source repository") (pr_repository_id p);
  branch ← from_option (ApiErr 409 "invalid_input"
             "The schedule has no branch and the project has no default branch")
             (match normalize_optional (sched_branch s) with
              | Some b => Some b
              | None => normalize_optional (pr_default_branch p)
              end);
  repo_url ← resolve_repository_clone_url repository_id;
  repo_url ← from_option (ApiErr 409 "source_unresolvable"
               "Project source repository could not be resolved") repo_url;
  commit_sha ← resolve_branch_commit repository_id branch;
  queue_build (scheduled_binds pipeline_id s pl repository_id repo_url branch commit_sha build_id now)
    "scheduled" (ApiErr 409 "source_changed"
      "The project source changed while the scheduled build was being created").

(** One schedule of a tick: [acc] holds the builds started and the number of
    draws made. *)
Definition run_schedule (draw : nat -> string * Z) (now : Z) (pipeline_id : string)
    (s : ScheduleTrigger) (acc : list string * nat) : ME sqlx_error (list string * nat) :=
  let '(started, n) := acc in
  match parse (sched_cron s) with
  | Err _ => mret acc
  | Ok cron =>
      claimed ← claim_due_run pipeline_id s cron now;
      match claimed with
      | None => mret acc
      | Some previous =>
          let '(build_id, created_at) := draw n in
          catch (create_scheduled_build pipeline_id s build_id created_at) (fun r =>
            match r with
            | Ok id => mret (started ++ [id], S n)
            | Err e =>
                if (500 <=? err_status e) && (err_status e <? 600) then
                  _ ← release_claim pipeline_id s previous now;
                  mret (started, S n)
                else mret (started, S n)
            end)
      end
  end.

(** [run_schedule_tick]. *)
Definition run_schedule_tick (draw : nat -> string * Z) (now : Z) : ME sqlx_error (list string) :=
  rows ← sql (fun d => (d, filter (fun kv : string * pipeline =>
           (pl_enabled kv.2 && negb (bool_decide (schedules (pl_trigger_config kv.2) = []))) = true)
           (map_to_list (pipelines d))));
  acc ← for_each (fun row acc =>
          for_each (run_schedule draw now row.1) (schedules (pl_trigger_config row.2)) acc)
          rows ([], O);
  mret acc.1.

End Monitor.

(** ** Validation *)

(** Validation of schedules.  When it reports nothing there are at most
    ten, every expression parses, so that the monitor skips none, and no
    branch given is blank, so that each schedule has the branch it names. *)
Theorem valid_schedules_run (l : list ScheduleTrigger) :
  validate_schedules l = [] <->
  Z.of_nat (length l) <= MAX_SCHEDULES /\
  Forall (fun s => (exists c, parse (sched_cron s) = Ok c) /\
                   (forall b, sched_branch s = Some b ->
                      normalize_optional (sched_branch s) = Some (trim b))) l.
Proof.
  assert (Hone : forall i s, schedule_errors i s = [] <->
    (exists c, parse (sched_cron s) = Ok c) /\
    (forall b, sched_branch s = Some b -> normalize_optional (sched_branch s) = Some (trim b))).
  { intros i s. unfold schedule_errors. destruct (parse (sched_cron s)) as [c|e], (sched_branch s) as [b|];
      cbn; try destruct (is_empty (trim b)) eqn:Eb; cbn; naive_solver. }
  assert (Hall : forall f : nat -> ScheduleTrigger -> list string, (forall i s, f i s = [] <-> schedule_errors 0 s = []) ->
    concat (imap f l) = [] <-> Forall (fun s => schedule_errors 0 s = []) l).
  { induction l as [|s l IH]; intros f Hf; [by split|]. cbn. rewrite app_nil, Forall_cons, (Hf 0%nat s).
    specialize (IH (f ∘ S)). rewrite IH; [done|]. intros i s'. apply Hf. }
  unfold validate_schedules. rewrite app_nil, Hall.
  - rewrite Forall_forall, (Forall_forall _ l). setoid_rewrite (Hone 0%nat).
    destruct (Z.ltb_spec MAX_SCHEDULES (Z.of_nat (length l))); naive_solver lia.
  - intros i s. by rewrite !Hone.
Qed.

(** ** Claiming due runs *)

Section Claims.
Context (from_timestamp : Z -> option DateTime).

Lemma quot_minute a b : 0 <= a -> Z.quot b 60 <= Z.quot a 60 -> forall m, (60 | m) -> a < m -> b < m.
Proof.
  intros Ha Hq m [k ->] Hm. destruct (Z.le_gt_cases 0 b) as [Hb|Hb].
  - rewrite !Z.quot_div_nonneg in Hq by lia.
    pose proof (Z.div_mod a 60 ltac:(lia)). pose proof (Z.mod_pos_bound a 60 ltac:(lia)).
    pose proof (Z.div_mod b 60 ltac:(lia)). pose proof (Z.mod_pos_bound b 60 ltac:(lia)). lia.
  - lia.
Qed.

(** What a claim that answers [r] read and wrote. *)
Lemma claim_due_run_ok p s c now w w' r :
  claim_due_run from_timestamp p s c now w = (w', Ok r) ->
  let key := (p, schedule_key s) in
  match schedule_runs (w_db w) !! key with
  | None => r = None /\ w_db w' = set_schedule_runs (<[key := now]> (schedule_runs (w_db w))) (w_db w)
  | Some last =>
      if Z.quot now 60 <=? Z.quot last 60 then r = None /\ w_db w' = w_db w
      else r = (if due_between from_timestamp c (Z.max last (now - CATCH_UP_SECS)) now
                then Some last else None) /\
           w_db w' = set_schedule_runs (<[key := now]> (schedule_runs (w_db w))) (w_db w)
  end.
Proof.
  intros H key. unfold claim_due_run in H. fold key in H.
  apply M_bind_ok in H as (w1 & last & [H1 _]%sql_ok & H). injection H1 as Hd <-.
  destruct (schedule_runs (w_db w) !! key) as [last|] eqn:El.
  - destruct (_ <=? _); [injection H as <- <-; by rewrite Hd|].
    apply M_bind_ok in H as (w2 & n & [H2 _]%sql_ok & [= -> <-]).
    unfold move_checkpoint in H2. rewrite <- Hd, El, bool_decide_true in H2 by done.
    injection H2 as <- <-. done.
  - apply M_bind_ok in H as (w2 & n & [H2 _]%sql_ok & [= -> <-]).
    rewrite <- Hd, El in H2. by injection H2 as <- _.
Qed.

(** A due run is claimed exactly when it is due.  On a database that
    works, a schedule checked at [last] and again at [now] fires exactly when
    some minute after [last], up to [now] and within the five minutes of
    catch-up, matches it, and the checkpoint then stands at [now]. *)
Theorem schedule_claim_spec (p : string) (s : ScheduleTrigger) (c : Cron) (last now : Z) (w : world) :
  0 <= last -> w_faults w = [] -> schedule_runs (w_db w) !! (p, schedule_key s) = Some last ->
  exists w' r, claim_due_run from_timestamp p s c now w = (w', Ok r) /\
    (r = None \/ r = Some last) /\
    (r = Some last <-> exists m, (60 | m) /\ last < m <= now /\ now - CATCH_UP_SECS < m /\
                         fires from_timestamp c m = true) /\
    schedule_runs (w_db w') !! (p, schedule_key s)
      = Some (if Z.quot now 60 <=? Z.quot last 60 then last else now) /\
    builds (w_db w') = builds (w_db w).
Proof.
  intros Hlast Hf Hl. destruct w as [d fs ps]. cbn in Hf, Hl. subst fs.
  destruct (claim_due_run from_timestamp p s c now (World d [] ps)) as [w' [r|e]] eqn:E.
  2: { unfold claim_due_run in E. cbv [mbind M_bind sql] in E. cbn in E. rewrite Hl in E.
       destruct (_ <=? _); [done|]. cbn in E. by destruct (move_checkpoint _ _ _ _) in E. }
  exists w', r. split; [done|]. apply claim_due_run_ok in E. cbv zeta in E. cbn [w_db] in E |- *. rewrite Hl in E.
  assert (Hdue : due_between from_timestamp c (Z.max last (now - CATCH_UP_SECS)) now = true <->
    exists m, (60 | m) /\ last < m <= now /\ now - CATCH_UP_SECS < m /\ fires from_timestamp c m = true).
  { rewrite due_between_iff by lia. split; intros (m & ? & ? & ?); exists m; [|naive_solver lia].
    destruct_and?. split_and!; [done|lia|lia|lia|done]. }
  destruct (Z.leb_spec (Z.quot now 60) (Z.quot last 60)) as [Hq|Hq]; destruct E as [-> ->].
  - split_and!; [by left| |done|done]. split; [done|]. intros (m & Hm & Hr & _).
    pose proof (quot_minute last now Hlast Hq m Hm). lia.
  - split_and!; [case_match; auto| |by cbn; rewrite lookup_insert_eq|done].
    rewrite <- Hdue. by destruct (due_between _ _ _ _).
Qed.

(** no minute fires twice.  After a claim that fired at [now1], a later
    claim of the same schedule that finds the checkpoint where that one left
    it fires only for a minute after [now1]; one that still holds the old
    checkpoint moves nothing. *)
Theorem no_minute_fires_twice (p : string) (s : ScheduleTrigger) (c : Cron) (now1 now2 prev1 prev2 : Z)
    (w1 w1' w2 w2' : world) :
  0 <= now1 ->
  claim_due_run from_timestamp p s c now1 w1 = (w1', Ok (Some prev1)) ->
  schedule_runs (w_db w2) !! (p, schedule_key s) = schedule_runs (w_db w1') !! (p, schedule_key s) ->
  claim_due_run from_timestamp p s c now2 w2 = (w2', Ok (Some prev2)) ->
  prev2 = now1 /\
  (exists m, (60 | m) /\ now1 < m <= now2 /\ fires from_timestamp c m = true) /\
  (prev1 <> now1 -> move_checkpoint (p, schedule_key s) prev1 now2 (w_db w2) = (w_db w2, 0)).
Proof.
  intros Hn H1 Hk H2. apply claim_due_run_ok in H1, H2. cbv zeta in H1, H2.
  assert (Hk1 : schedule_runs (w_db w1') !! (p, schedule_key s) = Some now1).
  { repeat case_match; destruct H1 as [? ->]; try done; cbn; by rewrite lookup_insert_eq. }
  rewrite Hk, Hk1 in H2. destruct (_ <=? _); [by destruct H2|].
  destruct (due_between _ _ _ _) eqn:Hdue; destruct H2 as [[=] _]. subst prev2.
  apply due_between_iff in Hdue as (m & ? & ? & ?); [|lia].
  split_and!; [done| |].
  - exists m. split_and!; [done|lia|lia|done].
  - intros Hne. unfold move_checkpoint. rewrite Hk, Hk1. by rewrite bool_decide_false by congruence.
Qed.

End Claims.

(** A calendar and a schedule for the witnesses: the fields of a day that
    starts at time zero, and an expression that fires every fifth minute. *)
Definition day_clock (t : Z) : option DateTime :=
  Some {| at_minute := (t / 60) mod 60; at_hour := (t / 3600) mod 24; at_day := 1;
          at_month := 1; at_weekday := 4 |}.

Definition every_five : ScheduleTrigger := {| sched_cron := "*/5 * * * *"; sched_branch := None |}.

Definition every_five_cron : Cron :=
  match parse "*/5 * * * *" with
  | Ok c => c
  | Err _ => {| minutes := 0; hours := 0; days_of_month := 0; months := 0; days_of_week := 0;
                day_of_month_any := true; day_of_week_any := true |}
  end.

Definition checked_at (t : Z) : world :=
  World (set_schedule_runs {[ ("pl1"%string, schedule_key every_five) := t ]} Sample.database) [] [].

Lemma schedule_claim_spec_witness :
  exists w' r, claim_due_run day_clock "pl1" every_five every_five_cron 610 (checked_at 590) = (w', Ok r) /\
    r = Some 590.
Proof.
  destruct (schedule_claim_spec day_clock "pl1" every_five every_five_cron 590 610 (checked_at 590))
    as (w' & r & H & _ & Hr & _); [lia|reflexivity|vm_compute; reflexivity|].
  exists w', r. split; [exact H|]. apply Hr. exists 600.
  split_and!; [by exists 10|lia|lia|unfold CATCH_UP_SECS; lia|vm_compute; reflexivity].
Defined.

Lemma no_minute_fires_twice_witness :
  let w1 := fst (claim_due_run day_clock "pl1" every_five every_five_cron 610 (checked_at 590)) in
  let out := claim_due_run day_clock "pl1" every_five every_five_cron 905 w1 in
  snd out = Ok (Some 610) /\ exists m, 610 < m <= 905 /\ fires day_clock every_five_cron m = true.
Proof.
  intros w1 out. assert (H2 : snd out = Ok (Some 610)) by (vm_compute; reflexivity).
  split; [exact H2|].
  assert (H1 : claim_due_run day_clock "pl1" every_five every_five_cron 610 (checked_at 590)
    = (w1, Ok (Some 590))) by (vm_compute; reflexivity).
  destruct (no_minute_fires_twice day_clock "pl1" every_five every_five_cron 610 905 590 610
    (checked_at 590) w1 w1 (fst out)) as (_ & (m & _ & Hm & Hf) & _);
    [lia|exact H1|reflexivity|rewrite <- H2; apply surjective_pairing|].
  exists m. split; [exact Hm|exact Hf].
Defined.

(** ** Starting the build *)

(** What [queue_build] leaves: the build and its creation record, or nothing,
    or the build without the record. *)
Lemma queue_build_run b reason refused w w' r :
  queue_build b reason refused w = (w', r) ->
  match r with
  | Ok id => id = bi_build_id b /\ exists d1, insert_effect b (w_db w) d1 /\
      builds (w_db w') = builds d1 /\
      build_events (w_db w') = build_events d1 ++ [BuildEvent id None BuildStatus.Queued (bi_actor b)
        (Some (initial_event_reason reason (bi_approval_required b))) (bi_now b)]
  | Err e => w_db w' = w_db w \/
      insert_effect b (w_db w) (w_db w') /\ e = store_error "Failed to record build event"
  end.
Proof.
  unfold queue_build, record_created, announce_if_gated, mbind, M_bind.
  destruct (insert_build_with_retry b w) as [w1 [[]|e]] eqn:E; apply insert_attempts_result in E.
  - destruct (run _ _ w1) as [w2 [[]|e]] eqn:E2; intros H.
    + apply run_ok in E2 as [E2 _].
      assert (exists l, (w', r) = (w', Ok (bi_build_id b)) /\ (w_db w' = w_db w2 \/ w_db w' = set_audit_logs l (w_db w2)))
        as (l & [= ->] & Hd).
      { destruct (bi_approval_required b); [|cbv [mret M_ret] in H; injection H as <- <-; exists []; by auto].
        destruct (announce_pending_approval _ _ w2) as [w3 r3] eqn:E3.
        apply audit_run in E3 as (-> & [l Hl] & _). cbv [mret M_ret] in H. injection H as <- <-. exists l. by auto. }
      split; [done|]. exists (w_db w1). split; [done|].
      destruct Hd as [-> | ->]; rewrite E2; done.
    + apply exec_err in E2 as (E2 & _ & ->). simplify_eq. right. by rewrite E2.
  - intros [= <- <-]. by left.
  - destruct E as [E ->]. intros [= <- <-]. by left.
Qed.

Section Creation.
Context (resolve_branch_commit : string -> string -> M string).

(** Asking the source host for a commit leaves the builds alone. *)
Context (resolve_keeps_builds : forall repo branch, keeps builds (resolve_branch_commit repo branch)).
#[local] Hint Resolve resolve_keeps_builds : keeps.

(** How a scheduled build comes about: nothing is inserted before the
    pipeline, the repository, the branch and the commit are known. *)
Lemma create_scheduled_run p s id now w w' r :
  create_scheduled_build resolve_branch_commit p s id now w = (w', r) ->
  (builds (w_db w') = builds (w_db w) /\ exists e, r = Err e) \/
  exists pl pr repo url branch sha w1,
    enabled_pipeline p (w_db w) = Some (pl, pr) /\ pr_repository_id pr = Some repo /\
    branch <> ""%string /\ builds (w_db w1) = builds (w_db w) /\
    queue_build (scheduled_binds p s pl repo url branch sha id now) "scheduled"
      (ApiErr 409 "source_changed"
         "The project source changed while the scheduled build was being created") w1 = (w', r).
Proof.
  unfold create_scheduled_build. intros H.
  peel builds H w1 row H1 B1; [by eauto|].
  apply query_ok in H1 as (Hrow & _ & _).
  peel builds H w2 x H2 B2; [left; eauto using eq_trans|]. destruct x as [pl pr].
  peel builds H w3 repo H3 B3; [left; split; [congruence|eauto]|].
  peel builds H w4 branch H4 B4; [left; split; [congruence|eauto]|].
  peel builds H w5 url H5 B5; [left; split; [congruence|eauto]|].
  peel builds H w6 clone H6 B6; [left; split; [congruence|eauto]|].
  peel builds H w7 sha H7 B7; [left; split; [congruence|eauto]|].
  right. apply from_option_Ok in H2, H3, H4. exists pl, pr, repo, clone, branch, sha, w7.
  split_and!; [congruence|done| |congruence|done].
  destruct (normalize_optional (sched_branch s)) eqn:Eb; simplify_eq; by eapply normalize_optional_solid.
Qed.

(** The row a committed insert of scheduled binds leaves. *)
Lemma scheduled_row p s pl repo url branch sha id now d d' :
  let b := scheduled_binds p s pl repo url branch sha id now in
  insert_effect b d d' ->
  builds d !! id = None /\ exists nb, builds d' !! id = Some nb /\
    b_status nb = BuildStatus.Queued /\ b_runner_id nb = None /\
    bm_trigger_type (b_meta nb) = TriggerType.Schedule /\ b_pipeline_id nb = p /\
    b_branch nb = Some branch /\ bm_commit_sha (b_meta nb) = Some sha /\
    bm_created_at (b_meta nb) = now /\
    snap_repository_id (b_snapshot nb) = Some repo /\
    snap_runs_on (b_snapshot nb) = scheduling_labels (pl_runs_on pl) /\
    (b_approval_state nb = Some BuildApprovalState.Pending <->
       applies_to (pl_approval pl) "schedule" = true).
Proof.
  intros b Hi. apply insert_effect_builds in Hi as (Hn & Hb & _). split; [exact Hn|].
  exists (new_build b d). rewrite Hb. unfold after_insert.
  split; [apply (lookup_insert_eq (M := gmap string))|].
  unfold b, scheduled_binds, new_build. cbn. destruct (pl_workflow pl); cbn;
    split_and!; try done; by destruct (applies_to _ _).
Qed.

(** a due schedule starts its build.  When [create_scheduled_build]
    reports a build, the pipeline was enabled and linked to a repository, and
    the build is queued for that pipeline and repository, on a branch that is
    not blank and the commit the source host named, for runners with the
    pipeline's labels, waiting for approval exactly when the pipeline asks so
    for schedules.  When it reports an error, either no build changed, or the
    build exists and the error is a store error. *)
Theorem scheduled_build_spec (p : string) (s : ScheduleTrigger) (id : string) (now : Z)
    (w w' : world) (r : result api_error string) :
  create_scheduled_build resolve_branch_commit p s id now w = (w', r) ->
  match r with
  | Ok id' => id' = id /\ exists pl pr repo branch sha nb,
      enabled_pipeline p (w_db w) = Some (pl, pr) /\ pr_repository_id pr = Some repo /\
      builds (w_db w) !! id = None /\ builds (w_db w') !! id = Some nb /\
      b_status nb = BuildStatus.Queued /\ b_pipeline_id nb = p /\
      bm_trigger_type (b_meta nb) = TriggerType.Schedule /\
      b_branch nb = Some branch /\ branch <> ""%string /\
      bm_commit_sha (b_meta nb) = Some sha /\ bm_created_at (b_meta nb) = now /\
      snap_repository_id (b_snapshot nb) = Some repo /\
      snap_runs_on (b_snapshot nb) = scheduling_labels (pl_runs_on pl) /\
      (b_approval_state nb = Some BuildApprovalState.Pending <->
         applies_to (pl_approval pl) "schedule" = true)
  | Err e => builds (w_db w') = builds (w_db w) \/
      err_status e = 500 /\ exists nb, builds (w_db w') !! id = Some nb /\
        scheduled_since p now nb = true
  end.
Proof.
  intros [[B [e ->]]|(pl & pr & repo & url & branch & sha & w1 & Hpl & Hr & Hbr & B1 & H)]%create_scheduled_run;
    [by left|].
  apply queue_build_run in H. destruct r as [id'|e].
  - destruct H as (Hid & d1 & Hi & Hb & _). rewrite Hid. apply scheduled_row in Hi as (Hn & nb & Hnb & Hrow).
    destruct_and! Hrow. split; [unfold scheduled_binds; by destruct (pipeline_gates pl)|].
    exists pl, pr, repo, branch, sha, nb. rewrite Hb, <- B1. by split_and!.
  - destruct H as [H|[Hi ->]]; [left; congruence|right]. split; [done|].
    apply scheduled_row in Hi as (_ & nb & Hnb & Hrow). destruct_and! Hrow. exists nb. split; [done|].
    unfold scheduled_since. rewrite bool_decide_true by done.
    match goal with H : b_pipeline_id nb = p, H' : bm_created_at _ = now |- _ => rewrite H, H' end.
    by rewrite String.eqb_refl, Z.leb_refl.
Qed.

End Creation.

(** ** Handing a run back *)

(** a failed run is handed back only when it may run again.  The
    checkpoint is put back exactly when it still stands at this claim and the
    pipeline has no build a schedule started since; nothing else changes. *)
Theorem release_claim_spec (p : string) (s : ScheduleTrigger) (previous now : Z) (w w' : world)
    (released : bool) :
  release_claim p s previous now w = (w', Ok released) ->
  (released = true <->
     schedule_runs (w_db w) !! (p, schedule_key s) = Some now /\
     forall id b, builds (w_db w) !! id = Some b -> scheduled_since p now b = false) /\
  w_db w' = (if released
             then set_schedule_runs (<[(p, schedule_key s) := previous]> (schedule_runs (w_db w))) (w_db w)
             else w_db w).
Proof.
  unfold release_claim. intros H. apply M_bind_ok in H as (w1 & n & [H1 _]%sql_ok & [= -> <-]).
  destruct (existsb _ _) eqn:Ex.
  - injection H1 as <- <-. split; [|done]. split; [done|]. intros [_ Hall].
    apply existsb_exists in Ex as ([id b] & Hin & Hs). apply list_elem_of_In, elem_of_map_to_list in Hin.
    cbn in Hs. by rewrite (Hall _ _ Hin) in Hs.
  - unfold move_checkpoint in H1. case_bool_decide as Hk; injection H1 as <- <-; (split; [|done]).
    + split; [|done]. intros _. split; [done|]. intros id b Hb.
      destruct (scheduled_since p now b) eqn:Es; [|done]. exfalso.
      apply not_true_iff_false in Ex. apply Ex, existsb_exists. exists (id, b).
      split; [by apply list_elem_of_In, elem_of_map_to_list|done].
    + split; [done|]. naive_solver.
Qed.

(** a run whose build was created is not repeated.  Whenever the build of
    a due run is in the table, even when recording it then failed and the
    monitor tries to hand the run back, the checkpoint stays. *)
Theorem started_run_not_repeated (resolve_branch_commit : string -> string -> M string)
    (p : string) (s : ScheduleTrigger) (id : string) (previous now created : Z)
    (w w1 w2 : world) (r : result api_error string) (r2 : result sqlx_error bool) :
  (forall repo branch, keeps builds (resolve_branch_commit repo branch)) ->
  now <= created -> builds (w_db w) !! id = None ->
  create_scheduled_build resolve_branch_commit p s id created w = (w1, r) ->
  is_Some (builds (w_db w1) !! id) ->
  release_claim p s previous now w1 = (w2, r2) ->
  r2 <> Ok true /\ w_db w2 = w_db w1.
Proof.
  intros Hres Hle Hnone Hc Hin Hrel.
  assert (Hnb : exists nb, builds (w_db w1) !! id = Some nb /\ scheduled_since p created nb = true).
  { apply create_scheduled_run in Hc as [[B _]|(pl & pr & repo & url & br & sha & w0 & _ & _ & _ & B & H)];
      [rewrite B, Hnone in Hin; by destruct Hin| |done].
    assert (exists d1, insert_effect (scheduled_binds p s pl repo url br sha id created) (w_db w0) d1 /\
      builds (w_db w1) = builds d1) as (d1 & Hi & Hb).
    { apply queue_build_run in H. destruct r as [id'|e].
      - destruct H as (_ & d1 & Hi & Hb & _). by exists d1.
      - destruct H as [Hd|[Hi _]]; [|by eexists].
        rewrite Hd, B, Hnone in Hin. by destruct Hin. }
    apply scheduled_row in Hi as (_ & nb & Hnb & Hrow). destruct_and! Hrow. exists nb.
    rewrite Hb. split; [done|]. unfold scheduled_since. rewrite bool_decide_true by done.
    match goal with H : b_pipeline_id nb = p, H' : bm_created_at _ = created |- _ => rewrite H, H' end.
    by rewrite String.eqb_refl, Z.leb_refl. }
  destruct Hnb as (nb & Hnb & Hs). unfold release_claim in Hrel.
  assert (Hex : existsb (fun kv : string * build => scheduled_since p now kv.2)
                  (map_to_list (builds (w_db w1))) = true).
  { apply existsb_exists. exists (id, nb). split; [by apply list_elem_of_In, elem_of_map_to_list|].
    unfold scheduled_since in *. apply andb_true_iff in Hs as [Hs1 Hs2%Z.leb_le].
    apply andb_true_iff. split; [exact Hs1|]. apply Z.leb_le. cbn. lia. }
  unfold mbind, M_bind in Hrel. destruct (sql _ w1) as [w3 [n|e]] eqn:E.
  - apply sql_ok in E as [E _]. rewrite Hex in E. injection E as Hd <-.
    injection Hrel as <- <-. split; [done|congruence].
  - apply sql_err in E as [E _]. by simplify_eq.
Qed.

(** *** Witnesses *)

(** A source host that answers one commit. *)
Definition one_commit (repo branch : string) : M string := mret "c0ffee"%string.

Lemma one_commit_keeps repo branch : keeps builds (one_commit repo branch).
Proof. apply keeps_ret. Qed.

Lemma scheduled_build_spec_witness :
  let out := create_scheduled_build one_commit "pl1" every_five "b-cron" 610 (checked_at 590) in
  snd out = Ok "b-cron"%string /\
  exists nb, builds (w_db (fst out)) !! "b-cron"%string = Some nb /\
    b_branch nb = Some "main"%string /\ bm_commit_sha (b_meta nb) = Some "c0ffee"%string.
Proof.
  intros out. assert (Hr : snd out = Ok "b-cron"%string) by (vm_compute; reflexivity).
  split; [exact Hr|].
  pose proof (scheduled_build_spec one_commit one_commit_keeps "pl1" every_five "b-cron" 610
    (checked_at 590) (fst out) (snd out) (surjective_pairing out)) as H.
  rewrite Hr in H. destruct H as (_ & pl & pr & repo & br & sha & nb & _ & _ & _ & Hnb & _).
  exists nb. split; [exact Hnb|]. vm_compute in Hnb. injection Hnb as <-. by split.
Defined.

Lemma release_claim_spec_witness :
  let out := release_claim "pl1" every_five 590 610 (checked_at 610) in
  snd out = Ok true /\ schedule_runs (w_db (fst out)) !! ("pl1"%string, schedule_key every_five) = Some 590.
Proof.
  intros out. assert (Hr : snd out = Ok true) by (vm_compute; reflexivity). split; [exact Hr|].
  assert (H : release_claim "pl1" every_five 590 610 (checked_at 610) = (fst out, Ok true))
    by (rewrite <- Hr; apply surjective_pairing).
  destruct (release_claim_spec _ _ _ _ _ _ _ H) as [_ Hd]. rewrite Hd. cbn. apply lookup_insert_eq.
Defined.

(** The build is inserted, recording its creation fails, and the run is still
    not handed back. *)
Lemma started_run_not_repeated_witness :
  let w := World (set_schedule_runs {[ ("pl1"%string, schedule_key every_five) := 610 ]} Sample.database)
             [None; None; None; None; None; None; None; Some OtherSqlError] [] in
  let out := create_scheduled_build one_commit "pl1" every_five "b-cron" 610 w in
  snd out = Err (store_error "Failed to record build event") /\
  snd (release_claim "pl1" every_five 590 610 (fst out)) <> Ok true.
Proof.
  intros w out. split; [vm_compute; reflexivity|].
  refine (proj1 (started_run_not_repeated one_commit "pl1" every_five "b-cron" 590 610 610 w (fst out)
    _ (snd out) _ one_commit_keeps _ _ (surjective_pairing _) _ (surjective_pairing _))).
  - lia.
  - vm_compute. reflexivity.
  - vm_compute. eexists. reflexivity.
Defined.
