(* ===== verification/Reruns.v ===== *)
(** * Reruns and retries of single steps

    [queue_rerun] of [crates/oored/src/builds.rs] and
    [crates/oored/src/step_retry.rs]: a new build from a finished one, whole
    or only its store uploads.

    Decoding the stored step results is serde's: [parse_step_results] is a
    parameter. *)

From stdpp Require pretty.
From S2P Require Import Prelude Contract RustStr Labels Sizes Triggers Db Access Builds Runners Creation Stores Publishing.

Local Open Scope Z_scope.

(** [struct StepResult]. *)
Record StepResult := {
  sr_name : string;
  sr_status : string;
  sr_exit_code : option Z;
  sr_started_at : Z;
  sr_finished_at : Z;
  sr_duration_ms : Z;
  sr_publish_from_file : bool;
}.

Definition RETRYABLE_BUILD_STEPS : list string := [PUBLISH_PLAY_STEP; PUBLISH_APP_STORE_STEP].
Definition ARTIFACTS_STEP : string := "artifacts".

Definition succeeded_step (name : string) (results : list StepResult) : bool :=
  existsb (fun step => String.eqb (sr_name step) name && String.eqb (sr_status step) "succeeded")
    results.

(** ** Checks *)

Definition source_changed (message : string) : api_error := ApiErr 409 "source_changed" message.

Definition source_changed_since : string :=
  "The project source changed after this build was created. Trigger a new build from the current source.".

(** The source of a project: its repository and the clone URL of that. *)
Definition project_source (project_id : string) (d : db) : option (option string * option string) :=
  p ← projects d !! project_id;
  Some (pr_repository_id p, pr_repository_id p ≫= fun r => clone_url r d).

Definition set_snap_repository_id (v : option string) (s : snapshot) : snapshot :=
  Snapshot v (snap_runs_on s) (snap_retry_steps s) (snap_timeout_secs s) (snap_workflow s)
    (snap_file_size_budgets s) (snap_repo_url s) (snap_retry_publish_from_file s)
    (snap_selected_platforms s).

Definition set_snap_timeout_secs (v : option Z) (s : snapshot) : snapshot :=
  Snapshot (snap_repository_id s) (snap_runs_on s) (snap_retry_steps s) v (snap_workflow s)
    (snap_file_size_budgets s) (snap_repo_url s) (snap_retry_publish_from_file s)
    (snap_selected_platforms s).

Definition set_snap_retry (steps : list string) (from_file : bool) (s : snapshot) : snapshot :=
  Snapshot (snap_repository_id s) (snap_runs_on s) steps (snap_timeout_secs s) (snap_workflow s)
    (snap_file_size_budgets s) (snap_repo_url s) from_file (snap_selected_platforms s).

(** The snapshot must name the project's current repository; one from before
    the repository was recorded must have its clone URL, and is upgraded. *)
Definition bind_source (repository_id repo_url : string) (s : snapshot) : result api_error snapshot :=
  match snap_repository_id s with
  | Some r =>
      if String.eqb r repository_id then Ok s else Err (source_changed source_changed_since)
  | None =>
      if bool_decide (trim <$> snap_repo_url s = Some repo_url)
      then Ok (set_snap_repository_id (Some repository_id) s)
      else Err (source_changed source_changed_since)
  end.

(** [active_retry]. *)
Definition active_retry (source_build_id : string) (steps : list string)
    : ME sqlx_error (option (string * Z)) :=
  sql (fun d => (d, (fun kv : string * build => (kv.1, b_build_number kv.2)) <$>
    head (order_by (fun kv : string * build => b_build_number kv.2)
      (select_builds (fun _ b =>
         bool_decide (b_source_build_id b = Some source_build_id)
         && negb (BuildStatus.is_terminal (b_status b))
         && existsb (fun step => bool_decide (step ∈ steps)) (snap_retry_steps (b_snapshot b))) d)))).

(** [retry_in_progress]. *)
Definition retry_in_progress (step : string) (build_number : Z) : api_error :=
  ApiErr 409 "retry_in_progress"
    (step +:+ " is already being retried in build #" +:+ pretty.pretty build_number).

Section Rerun.
Context (parse_step_results : string -> option (list StepResult)).

(** [published_from_file]. *)
Definition published_from_file (step_results : option string) (steps : list string) : bool :=
  match step_results ≫= parse_step_results with
  | Some results =>
      existsb (fun step => sr_publish_from_file step
                 && (String.eqb (sr_name step) ARTIFACTS_STEP || bool_decide (sr_name step ∈ steps)))
        results
  | None => false
  end.

(** [set_retry_snapshot]. *)
Definition set_retry_snapshot (s : snapshot) (retry_steps : option (list string))
    (source_step_results : option string) : snapshot :=
  match retry_steps with
  | None => set_snap_retry [] false s
  | Some steps => set_snap_retry steps (published_from_file source_step_results steps) s
  end.

(** The rerun is gated by the current policy; a gated build stays gated. *)
Definition rerun_gated (policy : ApprovalPolicy) (source : build) : bool :=
  applies_to policy "manual"
  || (required policy && bool_decide (is_Some (bm_approval_requested_at (b_meta source)))).

(** The binds of the row a rerun inserts. *)
Definition rerun_binds (auth : SessionInfo) (build_id : string) (source : build) (s : snapshot)
    (pl : pipeline) (retry_steps : option (list string)) (new_build_id : string) (now : Z)
    : BuildInsertBinds :=
  let '(timeout_minutes, approval_policy) := pipeline_gates pl in
  {| bi_build_id := new_build_id; bi_project_id := b_project_id source;
     bi_pipeline_id := b_pipeline_id source; bi_actor := Some (email auth);
     bi_event_type := Some (if retry_steps is Some _ then "retry" else "rerun")%string;
     bi_trigger_ref := bm_trigger_ref (b_meta source);
     bi_commit_sha := bm_commit_sha (b_meta source); bi_branch := b_branch source;
     bi_changelog := bm_changelog (b_meta source);
     bi_config_snapshot := set_retry_snapshot
       (set_snap_timeout_secs (Some (timeout_minutes * 60)) s) retry_steps (b_step_results source);
     bi_webhook_id := None; bi_now := now; bi_trigger_type := TriggerType.Manual;
     bi_source_build_id := Some build_id; bi_cancel_previous := false;
     bi_approval_required := rerun_gated approval_policy source |}.

(** The answer to an insert that was refused. *)
Definition rerun_refused {A} (build_id : string) (retry_steps : option (list string)) : M A :=
  let changed := source_changed
    "The project source changed while this rerun was being created. Trigger a new build from the current source." in
  match retry_steps with
  | Some steps =>
      catch (active_retry build_id steps) (fun r =>
        match r with
        | Ok (Some (_, build_number)) => throw (retry_in_progress (join ", " steps) build_number)
        | _ => throw changed
        end)
  | None => throw changed
  end.

(** The statements after the insert; the answer is the new build and why no
    runner may take it yet. *)
Definition rerun_recorded (auth : SessionInfo) (source : build)
    (retry_steps : option (list string)) (b : BuildInsertBinds)
    : M (string * build * option RunnerPolicyBlockReason.t) :=
  build_number ← fetch_build_number (bi_build_id b);
  let number := pretty.pretty (b_build_number source) in
  _ ← record_created b (match retry_steps with
        | Some steps => "retry of " +:+ join ", " steps +:+ " from build #" +:+ number
        | None => "re-run of build #" +:+ number
        end);
  _ ← write_audit_log (Some (user_id auth))
        (if retry_steps is Some _ then "build_step_retry" else "build_rerun")%string
        "build" (Some (bi_build_id b));
  _ ← announce_if_gated b (Some (user_id auth));
  reason ← runner_policy_block_reason_for_project (bi_project_id b);
  mret (bi_build_id b, created_row b build_number, reason).

(** [queue_rerun]; [new_build_id] is drawn. *)
Definition queue_rerun (auth : SessionInfo) (build_id : string) (retry_steps : option (list string))
    (new_build_id : string) (now : Z) : M (string * build * option RunnerPolicyBlockReason.t) :=
  source ← query "Failed to fetch build" (fun d => builds d !! build_id);
  source ← from_option build_not_found source;
  _ ← guard (BuildStatus.is_terminal (b_status source))
        (ApiErr 409 "build_not_terminal" "Cannot re-run a build that is still in progress");
  effective ← resolve_effective_project_role (user_id auth) (role auth) (b_project_id source)
                (auth_source auth);
  _ ← require_project_permission effective TriggerBuild;
  current ← query "Failed to resolve project source" (project_source (b_project_id source));
  current ← from_option (ApiErr 404 "not_found" "Project no longer exists") current;
  repository_id ← from_option (source_changed
    "This build's source is no longer linked to the project. Choose the intended source, then trigger a new build.")
    (fst current);
  repo_url ← from_option (source_changed
    "This build's source can no longer be resolved. Repair the project source, then trigger a new build.")
    (normalize_optional (snd current));
  s ← match bind_source repository_id repo_url (b_snapshot source) with
      | Ok s => mret s
      | Err e => throw e
      end;
  pl ← query "Failed to fetch pipeline" (fun d => pipelines d !! b_pipeline_id source);
  pl ← from_option (ApiErr 404 "not_found" "Pipeline no longer exists") pl;
  let b := rerun_binds auth build_id source s pl retry_steps new_build_id now in
  inserted ← insert_build_with_retry b;
  if (inserted : bool) then rerun_recorded auth source retry_steps b
  else rerun_refused build_id retry_steps.

(** [rerun_build]. *)
Definition rerun_build (auth : SessionInfo) (build_id new_build_id : string) (now : Z)
    : M (string * build * option RunnerPolicyBlockReason.t) :=
  queue_rerun auth build_id None new_build_id now.

(** ** Retrying one upload *)

(** The uploads one build has taken over from its source: those it runs while
    it is unfinished, those it completed when it has finished. *)
Definition taken_by (b : build) : list string :=
  if negb (BuildStatus.is_terminal (b_status b))
  then default [] (retry_steps_from_snapshot (b_snapshot b))
  else map sr_name (filter (fun step => sr_status step = "succeeded"%string)
         (default [] (b_step_results b ≫= parse_step_results))).

(** [steps_taken_by_retries]. *)
Definition steps_taken_by_retries (source_build_id : string) : ME sqlx_error (list string) :=
  rows ← sql (fun d => (d, select_builds (fun _ b =>
           bool_decide (b_source_build_id b = Some source_build_id)) d));
  mret (flat_map (fun row => taken_by row.2) rows).

(** [retryable_steps]. *)
Definition retryable_steps (build_id : string) (b : build) (now : Z) : ME sqlx_error (list string) :=
  if negb (BuildStatus.is_terminal (b_status b)) then mret []
  else
    let results := default [] (b_step_results b ≫= parse_step_results) in
    if negb (succeeded_step ARTIFACTS_STEP results) then mret []
    else
      taken ← steps_taken_by_retries build_id;
      for_each (fun step steps =>
        if succeeded_step step results || existsb (fun name => String.eqb name step) taken
        then mret steps
        else
          ready ← upload_ready now step (b_pipeline_id b) build_id;
          mret (if (ready : bool) then steps ++ [step] else steps))
        RETRYABLE_BUILD_STEPS [].

(** [retryable.iter().position(..)] and [retryable[position..]]. *)
Fixpoint from_step (step : string) (l : list string) : option (list string) :=
  match l with
  | [] => None
  | candidate :: rest => if String.eqb candidate step then Some l else from_step step rest
  end.

(** [retry_build_step]; [step] is the request's. *)
Definition retry_build_step (auth : SessionInfo) (build_id step new_build_id : string) (now : Z)
    : M (string * build * option RunnerPolicyBlockReason.t) :=
  row ← query "Failed to fetch build" (fun d => builds d !! build_id);
  b ← from_option build_not_found row;
  effective ← resolve_effective_project_role (user_id auth) (role auth) (b_project_id b)
                (auth_source auth);
  _ ← require_project_permission effective TriggerBuild;
  _ ← guard (BuildStatus.is_terminal (b_status b))
        (ApiErr 409 "build_not_terminal" "Cannot retry a step of a build that is still in progress");
  let step := trim step in
  _ ← guard (existsb (String.eqb step) RETRYABLE_BUILD_STEPS)
        (ApiErr 400 "step_not_retryable"
           ("Only store uploads (" +:+ join ", " RETRYABLE_BUILD_STEPS
            +:+ ") can be retried on their own. Re-run the build to run other steps again."));
  in_progress ← map_errM (fun _ => store_error "Failed to check for a retry in progress")
                  (active_retry build_id [step]);
  _ ← match in_progress with
      | Some (_, build_number) => throw (retry_in_progress step build_number)
      | None => mret tt
      end;
  retryable ← map_errM (fun _ => store_error "Failed to check which steps can be retried")
                (retryable_steps build_id b now);
  steps ← from_option (ApiErr 409 "step_not_retryable"
    (step +:+ " cannot be retried for this build. It needs the build's stored artifacts, publishing turned on for that store, and an upload that has not already succeeded, here or in an earlier retry."))
    (from_step step retryable);
  queue_rerun auth build_id (Some steps) new_build_id now.

End Rerun.

(** ** What a rerun creates *)

Lemma keeps_active_retry id steps : keeps (fun d => d) (active_retry id steps).
Proof. by apply keeps_sql. Qed.

#[export] Hint Resolve keeps_active_retry : keeps.

Section RerunSpec.
Context (parse_step_results : string -> option (list StepResult)).

Lemma bind_source_ok repo url s s' :
  bind_source repo url s = Ok s' -> s' = set_snap_repository_id (Some repo) s.
Proof.
  unfold bind_source. destruct (snap_repository_id s) as [r|] eqn:Er.
  - destruct (String.eqb_spec r repo) as [->|]; [|done]. intros [= <-]. destruct s. by simplify_eq/=.
  - case_bool_decide; by intros [= <-].
Qed.

(** Without [cancel_previous], an insert touches no other row. *)
Lemma insert_alone b d d' :
  insert_effect b d d' -> bi_cancel_previous b = false ->
  builds d !! bi_build_id b = None /\ builds d' = <[bi_build_id b := new_build b d]> (builds d).
Proof.
  intros (Hn & Hb & _)%insert_effect_builds Hc. split; [done|]. rewrite Hb. unfold after_insert.
  f_equal. rewrite <- (map_fmap_id (builds d)) at 2. apply map_fmap_ext. intros ? o _.
  unfold supersedes. by rewrite Hc.
Qed.

(** The statements after the insert fail only in the store. *)
Lemma rerun_recorded_run auth source retry_steps b w w' r :
  rerun_recorded auth source retry_steps b w = (w', r) ->
  match r with
  | Ok (id, row, _) => id = bi_build_id b /\ exists nb, builds (w_db w) !! bi_build_id b = Some nb /\
      row = created_row b (b_build_number nb)
  | Err e => err_status e = 500
  end.
Proof.
  destruct r as [[[id row] reason]|e]; intros H.
  - unfold rerun_recorded, fetch_build_number in H.
    apply M_bind_ok in H as (w1 & n & H1 & H). inv_run. eauto.
  - assert (Hs : store_only (rerun_recorded auth source retry_steps b))
      by (unfold rerun_recorded; auto 12 with keeps).
    by eapply Hs.
Qed.

(** The prefix of [queue_rerun] reads only. *)
Lemma queue_rerun_run auth build_id retry_steps new_id now w w' r :
  queue_rerun parse_step_results auth build_id retry_steps new_id now w = (w', r) ->
  (builds (w_db w') = builds (w_db w) /\ exists e, r = Err e) \/
  exists source pl repo w1 w2,
    builds (w_db w) !! build_id = Some source /\ BuildStatus.is_terminal (b_status source) = true /\
    (projects (w_db w) !! b_project_id source ≫= pr_repository_id) = Some repo /\
    pipelines (w_db w) !! b_pipeline_id source = Some pl /\ w_db w1 = w_db w /\
    let b := rerun_binds parse_step_results auth build_id source
               (set_snap_repository_id (Some repo) (b_snapshot source)) pl retry_steps new_id now in
    insert_effect b (w_db w1) (w_db w2) /\ rerun_recorded auth source retry_steps b w2 = (w', r) /\
    builds (w_db w') = builds (w_db w2).
Proof.
  unfold queue_rerun. intros H.
  peel (fun d : db => d) H w1 row H1 B1; [left; split; [congruence|eauto]|].
  peel (fun d : db => d) H w2 source H2 B2; [left; split; [congruence|eauto]|].
  peel (fun d : db => d) H w3 u3 H3 B3; [left; split; [congruence|eauto]|].
  peel (fun d : db => d) H w4 eff H4 B4; [left; split; [congruence|eauto]|].
  peel (fun d : db => d) H w5 u5 H5 B5; [left; split; [congruence|eauto]|].
  peel (fun d : db => d) H w6 cur H6 B6; [left; split; [congruence|eauto]|].
  peel (fun d : db => d) H w7 cur' H7 B7; [left; split; [congruence|eauto]|].
  peel (fun d : db => d) H w8 repo H8 B8; [left; split; [congruence|eauto]|].
  peel (fun d : db => d) H w9 url H9 B9; [left; split; [congruence|eauto]|].
  peel (fun d : db => d) H w10 s H10 B10; [left; split; [congruence|eauto]|].
  peel (fun d : db => d) H w11 pl H11 B11; [left; split; [congruence|eauto]|].
  peel (fun d : db => d) H w12 pl' H12 B12; [left; split; [congruence|eauto]|].
  cbv beta in *. apply query_ok in H1 as (H1 & _), H6 as (H6 & _), H11 as (H11 & _).
  apply from_option_Ok in H2, H7, H8, H12. apply guard_Ok in H3.
  assert (Hd : w_db w12 = w_db w) by congruence.
  destruct (bind_source repo url (b_snapshot source)) as [s'|] eqn:Es; [|done].
  injection H10 as -> <-. apply bind_source_ok in Es as ->.
  apply insert_then in H; [|unfold rerun_recorded; by auto 12 with keeps
    |unfold rerun_refused; destruct retry_steps; [apply keeps_catch; [by apply keeps_sql|]|];
      by auto with keeps
    |unfold rerun_refused, catch; intros ??? Hx; repeat case_match; discriminate Hx].
  destruct H as [[Hb He]|(w13 & Hi & Hrest & Hb)]; [left; split; [congruence|done]|].
  right. exists source, pl', repo, w12, w13.
  split_and!; [congruence|done| |congruence|done|done|done|done].
  assert (w_db w5 = w_db w) as Hd5 by congruence. rewrite Hd5 in H6. subst cur.
  unfold project_source in H7. destruct (projects (w_db w) !! b_project_id source); [|done].
  cbn in *. by simplify_eq/=.
Qed.

(** reruns.  A rerun that succeeds adds exactly one build, the one it
    answers with, and changes no other: the source build had finished; the
    new build is queued, linked to it, for the same project, pipeline, commit
    and branch, bound to the project's current repository, under the
    pipeline's current timeout, and runs the retried steps only; it waits for
    approval exactly when the policy covers manual builds, or asks for
    approvals and the source build was gated.  A rerun that fails has changed
    no build, or failed in the store after adding that one build. *)
Theorem rerun_spec (auth : SessionInfo) (build_id : string) (retry_steps : option (list string))
    (new_id : string) (now : Z) (w w' : world)
    (r : result api_error (string * build * option RunnerPolicyBlockReason.t)) :
  queue_rerun parse_step_results auth build_id retry_steps new_id now w = (w', r) ->
  match r with
  | Ok (id, row, _) =>
      id = new_id /\ builds (w_db w) !! new_id = None /\
      builds (w_db w') = <[new_id := row]> (builds (w_db w)) /\
      exists source pl repo,
        builds (w_db w) !! build_id = Some source /\
        BuildStatus.is_terminal (b_status source) = true /\
        (projects (w_db w) !! b_project_id source ≫= pr_repository_id) = Some repo /\
        pipelines (w_db w) !! b_pipeline_id source = Some pl /\
        b_status row = BuildStatus.Queued /\ b_runner_id row = None /\
        b_source_build_id row = Some build_id /\
        b_project_id row = b_project_id source /\ b_pipeline_id row = b_pipeline_id source /\
        bm_commit_sha (b_meta row) = bm_commit_sha (b_meta source) /\
        b_branch row = b_branch source /\
        snap_repository_id (b_snapshot row) = Some repo /\
        snap_runs_on (b_snapshot row) = snap_runs_on (b_snapshot source) /\
        snap_timeout_secs (b_snapshot row) = Some (fst (pipeline_gates pl) * 60) /\
        snap_retry_steps (b_snapshot row) = default [] retry_steps /\
        (b_approval_state row = Some BuildApprovalState.Pending <->
           applies_to (pl_approval pl) "manual" = true \/
           required (pl_approval pl) = true /\ is_Some (bm_approval_requested_at (b_meta source)))
  | Err e =>
      builds (w_db w') = builds (w_db w) \/
      err_status e = 500 /\ exists row, builds (w_db w') = <[new_id := row]> (builds (w_db w))
  end.
Proof.
  intros [[Hb [e ->]]|(source & pl & repo & w1 & w2 & Hs & Ht & Hr & Hp & Hd & Hi & Hrec & Hb)]%queue_rerun_run;
    [by left|].
  set (b := rerun_binds _ _ _ _ _ _ _ _ _) in *.
  assert (Hid : bi_build_id b = new_id) by done.
  apply insert_alone in Hi as [Hn Hi]; [|done]. rewrite Hd, Hid in *.
  apply rerun_recorded_run in Hrec. destruct r as [[[id row] reason]|e].
  - destruct Hrec as (-> & nb & Hnb & ->). rewrite Hid, Hi, lookup_insert_eq in Hnb. injection Hnb as <-.
    split_and!; [done|done|by rewrite Hb, Hi|]. exists source, pl, repo.
    split_and!; [done..|by destruct retry_steps|by destruct retry_steps|by destruct retry_steps
      |by destruct retry_steps|]. cbn. unfold rerun_gated.
    destruct (applies_to _ _), (required _); case_bool_decide; naive_solver.
  - right. split; [done|]. exists (new_build b (w_db w)). congruence.
Qed.

End RerunSpec.

(** ** What a retry runs *)

Section RetrySpec.
Context (parse_step_results : string -> option (list StepResult)).

(** A [for] loop that keeps some of the elements, in order. *)
Lemma for_each_select {E} (skip : string -> bool) (ready : string -> ME E bool) l :
  (forall s, keeps (fun d => d) (ready s)) -> forall acc w w' r,
  for_each (fun step steps => if skip step then mret steps
              else ok ← ready step; mret (if (ok : bool) then steps ++ [step] else steps)) l acc w
    = (w', Ok r) ->
  exists k, r = acc ++ k /\ k `sublist_of` l /\
    Forall (fun s => skip s = false /\
      exists u u', w_db u = w_db w /\ ready s u = (u', Ok true)) k.
Proof.
  intros Hkeep. induction l as [|x l IH]; intros acc w w' r H; cbn in H.
  { injection H as _ <-. exists []. by rewrite app_nil_r. }
  apply M_bind_ok in H as (w1 & acc1 & H1 & H). apply IH in H as (k & -> & Hk & Hf).
  destruct (skip x) eqn:Ex.
  - injection H1 as -> <-. exists k. split_and!; [done|by constructor|done].
  - apply M_bind_ok in H1 as (w2 & ok & H1 & [= -> <-]). pose proof (Hkeep _ _ _ _ H1) as Hd.
    cbn in Hd. rewrite Hd in Hf. destruct ok.
    + exists (x :: k). rewrite <- app_assoc. split_and!; [done|by constructor|constructor; eauto].
    + exists k. split_and!; [done|by constructor|done].
Qed.

Lemma retryable_steps_ok id b now w w' l :
  retryable_steps parse_step_results id b now w = (w', Ok l) ->
  let results := default [] (b_step_results b ≫= parse_step_results) in
  l `sublist_of` RETRYABLE_BUILD_STEPS /\
  (l <> [] -> succeeded_step ARTIFACTS_STEP results = true) /\
  forall s, s ∈ l -> succeeded_step s results = false /\
    uploadable (w_db w) now s (b_pipeline_id b) id /\
    forall k o, builds (w_db w) !! k = Some o -> b_source_build_id o = Some id ->
      s ∉ taken_by parse_step_results o.
Proof.
  intros H results. unfold retryable_steps in H. fold results in H.
  assert (Hnil : [] `sublist_of` RETRYABLE_BUILD_STEPS) by apply sublist_nil_l.
  destruct (negb (BuildStatus.is_terminal _)); [injection H as _ <-; split_and!; [done|done|set_solver]|].
  destruct (succeeded_step ARTIFACTS_STEP results) eqn:Ea; cbn [negb] in H;
    [|injection H as _ <-; split_and!; [done|done|set_solver]].
  apply M_bind_ok in H as (w1 & taken & H1 & H).
  apply (for_each_select (fun step => succeeded_step step results || existsb (fun name => String.eqb name step) taken)
    (fun step => upload_ready now step (b_pipeline_id b) id)) in H as (k & -> & Hk & Hf);
    [cbn|auto with keeps].
  apply M_bind_ok in H1 as (w2 & rows & [H1 _]%sql_ok & [= -> <-]). injection H1 as D1 <-.
  split_and!; [done|done|]. intros s Hs. rewrite Forall_forall in Hf.
  apply Hf in Hs as ([Hs1 Hs2]%orb_false_iff & u & u' & Hu & Hready).
  split; [done|]. split; [apply upload_ready_ok in Hready; by rewrite Hu, <- D1 in Hready|].
  intros i o Ho Hsrc Hin.
  apply not_true_iff_false in Hs2. apply Hs2, existsb_exists. exists s. split; [|apply String.eqb_refl].
  apply in_flat_map. exists (i, o). split; [|by apply list_elem_of_In].
  apply list_elem_of_In, elem_of_select_builds. split; [done|]. by apply bool_decide_eq_true.
Qed.

Lemma from_step_ok step l k : from_step step l = Some k -> head k = Some step /\ exists p, l = p ++ k.
Proof.
  induction l as [|x l IH]; cbn; [done|]. destruct (String.eqb_spec x step) as [->|].
  - intros [= <-]. split; [done|]. by exists [].
  - intros (Hh & p & ->)%IH. split; [done|]. by exists (x :: p).
Qed.

Lemma keeps_retryable id b now : keeps (fun d => d) (retryable_steps parse_step_results id b now).
Proof.
  unfold retryable_steps, steps_taken_by_retries.
  repeat case_match; auto with keeps. apply keeps_bind; [apply keeps_bind; [by apply keeps_sql|]|];
    intros; auto with keeps.
Qed.

(** which uploads a retry runs.  A retry that succeeds adds a build whose
    steps start with the one asked for and are store uploads in run order;
    the source build had finished with its artifacts stored; and each of
    those uploads has what it needs (publishing to that store is on, and the
    artifact it sends is stored), had not succeeded in the build or in a
    finished retry of it, and is not under way in an unfinished one. *)
Theorem retry_step_spec (auth : SessionInfo) (build_id step new_id : string) (now : Z) (w w' : world)
    (id : string) (row : build) (reason : option RunnerPolicyBlockReason.t) :
  retry_build_step parse_step_results auth build_id step new_id now w = (w', Ok (id, row, reason)) ->
  builds (w_db w') = <[id := row]> (builds (w_db w)) /\
  head (snap_retry_steps (b_snapshot row)) = Some (trim step) /\
  snap_retry_steps (b_snapshot row) `sublist_of` RETRYABLE_BUILD_STEPS /\
  exists source, builds (w_db w) !! build_id = Some source /\
    let results := default [] (b_step_results source ≫= parse_step_results) in
    BuildStatus.is_terminal (b_status source) = true /\
    succeeded_step ARTIFACTS_STEP results = true /\
    forall s, s ∈ snap_retry_steps (b_snapshot row) ->
      succeeded_step s results = false /\
      uploadable (w_db w) now s (b_pipeline_id source) build_id /\
      forall k o, builds (w_db w) !! k = Some o -> b_source_build_id o = Some build_id ->
        s ∉ taken_by parse_step_results o.
Proof.
  intros H. pose proof keeps_retryable as Hkeep. unfold retry_build_step in H.
  peel_ok (fun d : db => d) H w1 o Ho D1. apply query_ok in Ho as (Ho & _).
  peel_ok (fun d : db => d) H w2 source H2 D2. apply from_option_Ok in H2.
  peel_ok (fun d : db => d) H w3 eff H3 D3. peel_ok (fun d : db => d) H w4 u4 H4 D4.
  peel_ok (fun d : db => d) H w5 u5 H5 D5. apply guard_Ok in H5.
  peel_ok (fun d : db => d) H w6 u6 H6 D6. peel_ok (fun d : db => d) H w7 prog H7 D7.
  peel_ok (fun d : db => d) H w8 u8 H8 D8. peel_ok (fun d : db => d) H w9 l H9 D9.
  unfold map_errM in H9. destruct (retryable_steps _ _ _ _ w8) as [w9' [l'|]] eqn:El; [|done].
  injection H9 as -> ->. apply retryable_steps_ok in El as (Hsub & Hart & Hall).
  peel_ok (fun d : db => d) H w10 steps H10 D10. apply from_option_Ok in H10.
  apply from_step_ok in H10 as (Hhead & p & ->).
  assert (Hd : w_db w10 = w_db w) by (cbv beta in *; congruence).
  assert (Hd8 : w_db w8 = w_db w) by (cbv beta in *; congruence).
  pose proof (rerun_spec _ _ _ _ _ _ _ _ _ H) as (Hid & _ & Hb & source' & pl & repo & Hs & _ & _ & _ & Hrow).
  destruct_and! Hrow.
  match goal with H : snap_retry_steps _ = _ |- _ => rewrite H; cbn [default] end.
  rewrite Hd in Hb. subst id. rewrite Hd8 in Hall.
  split_and!; [done|done|etrans; [|exact Hsub]; by apply sublist_inserts_l|].
  exists source. split_and!; [congruence|done|apply Hart; by destruct p, steps|].
  intros s Hin. apply Hall. apply elem_of_app. by right.
Qed.

End RetrySpec.

(** *** Witnesses *)

(** A finished build whose artifacts were stored and whose Play upload failed. *)
Definition done_build : build :=
  Build (Sample.meta 1 100) BuildStatus.Failed Sample.snap None (Some "rn1"%string)
    None (Some "results"%string) None None None None None (Some 110) (Some 150) 150 None None.

Definition done_world : world :=
  World (set_play_targets {[ "pl1"%string := {| gp_enabled := true; gp_service_account_secret := "KEY"; gp_package_name := None;
      gp_track := "internal"; gp_rollout_percent := None; gp_draft := false; gp_release_notes := NoNotes;
      gp_release_notes_locale := "en-US"; gp_release_notes_dir := None; gp_upload_mapping := true;
      gp_in_app_update_priority := None; gp_rollout_policy := None |} ]}
    (set_artifacts [Artifact "a1" "b-done" "app-release.aab" "aab" "k/a1" None (Json.Object []) 140 None true]
      (set_builds (<["b-done"%string := done_build]> (builds Sample.database)) Sample.database))) [] [].

Definition step_result (name status : string) : StepResult :=
  {| sr_name := name; sr_status := status; sr_exit_code := None; sr_started_at := 110;
     sr_finished_at := 120; sr_duration_ms := 10000; sr_publish_from_file := false |}.

Definition sample_results (_ : string) : option (list StepResult) :=
  Some [step_result "artifacts" "succeeded"; step_result "publish-play" "failed"].

(** The source build was gated, so its rerun waits for approval. *)
Lemma rerun_spec_witness :
  let out := queue_rerun sample_results sample_owner "b-done" None "b-again" 200 done_world in
  exists row reason, snd out = Ok ("b-again"%string, row, reason) /\
    b_source_build_id row = Some "b-done"%string /\
    b_approval_state row = Some BuildApprovalState.Pending.
Proof.
  intros out. destruct (snd out) as [[[id row] reason]|e] eqn:Er; [|vm_compute in Er; discriminate Er].
  assert (H : queue_rerun sample_results sample_owner "b-done" None "b-again" 200 done_world
              = (fst out, Ok (id, row, reason))) by (rewrite <- Er; apply surjective_pairing).
  destruct (rerun_spec _ _ _ _ _ _ _ _ _ H) as (-> & _ & _ & src & pl & repo & Hs & _ & _ & Hp & Hrow).
  exists row, reason. split; [reflexivity|]. destruct_and! Hrow. split; [assumption|].
  match goal with H : b_approval_state _ = _ <-> _ |- _ => apply H end. right.
  vm_compute in Hs. injection Hs as <-. vm_compute in Hp. injection Hp as <-.
  split; [reflexivity|]. eexists. reflexivity.
Defined.

Lemma retry_step_spec_witness :
  let out := retry_build_step sample_results sample_owner "b-done" " publish-play" "b-again"
               200 done_world in
  exists row reason, snd out = Ok ("b-again"%string, row, reason) /\
    snap_retry_steps (b_snapshot row) = [PUBLISH_PLAY_STEP] /\
    head (snap_retry_steps (b_snapshot row)) = Some PUBLISH_PLAY_STEP.
Proof.
  intros out. destruct (snd out) as [[[id row] reason]|e] eqn:Er; [|vm_compute in Er; discriminate Er].
  assert (H : retry_build_step sample_results sample_owner "b-done" " publish-play" "b-again"
    200 done_world = (fst out, Ok (id, row, reason))) by (rewrite <- Er; apply surjective_pairing).
  destruct (retry_step_spec _ _ _ _ _ _ _ _ _ _ _ H) as (_ & Hh & _).
  vm_compute in Er. injection Er as <- <- <-.
  eexists _, _. split; [reflexivity|]. split; [reflexivity|]. exact Hh.
Defined.
