(* ===== verification/Webhooks.v ===== *)
(** * Builds from webhooks

    [trigger_build_from_webhook] of [crates/oored/src/builds.rs]: from a
    delivery, normalized, to the builds of every pipeline it matches.

    What lies outside is a parameter: [file_at] is the repository file of a
    revision, fetched from the source host and parsed; [changed_files] asks the
    host what changed; [workflow_binding] resolves the signing identities and
    settings of a workflow, whose tables are not modelled; [to_lowercase] is
    Unicode's.  A file is read once per delivery, so it is one function of
    project, path and commit.  [draw n] is the [n]-th identifier drawn. *)

From S2P Require Import PipelineFile Lowering Prelude Contract RustStr Labels Sizes Triggers Db Access Builds Runners Creation.

Local Open Scope Z_scope.

(** ** Data *)

(** [enum ChangeSet]. *)
Inductive ChangeSet : Set :=
  | Unknown
  | Files (files : list string)
  | Compare (base head : string).

(** [struct WebhookBuildTrigger]. *)
Record WebhookBuildTrigger := {
  wt_webhook_id : string;
  wt_integration_id : string;
  wt_repo_full_name : string;
  wt_event_type : string;
  wt_branch : option string;
  wt_tag : option string;
  wt_target_branch : option string;
  wt_commit_sha : option string;
  wt_actor : option string;
  wt_changes : ChangeSet;
}.

(** [struct WorkflowBinding]. *)
Record WorkflowBinding := {
  wb_android_identity_id : option string;
  wb_ios_identity_id : option string;
  wb_publish_disabled : bool;
  wb_approval_required : option bool;
}.

Definition no_binding : WorkflowBinding :=
  {| wb_android_identity_id := None; wb_ios_identity_id := None; wb_publish_disabled := false;
     wb_approval_required := None |}.

(** A project linked to the repository of the delivery. *)
Record linked_project := Linked {
  lp_project_id : string;
  lp_repository_id : string;
  lp_repo_url : option string;
  lp_paused : bool;
}.

(** The SELECT of the linked projects. *)
Definition linked_projects (integration_id repo_full_name : string) (d : db) : list linked_project :=
  omap (fun kv : string * project =>
    r ← pr_repository_id kv.2;
    rp ← repositories d !! r;
    ig ← installations d !! rp_installation_id rp;
    _ ← integrations d !! ig;
    if String.eqb ig integration_id && String.eqb (rp_full_name rp) repo_full_name
    then Some (Linked kv.1 r (clone_url r d) (runner_paused d)) else None)
    (map_to_list (projects d)).

(** [SELECT ... FROM pipelines WHERE project_id = ?1 AND enabled = 1]. *)
Definition enabled_pipelines (project_id : string) (d : db) : list (string * pipeline) :=
  filter (fun kv : string * pipeline =>
    pl_project_id kv.2 = project_id /\ pl_enabled kv.2 = true) (map_to_list (pipelines d)).

(** What a pipeline may start: nothing, nothing until its file can be read, or
    each workflow with the [on] that decides. *)
Inductive selection : Type :=
  | Skip
  | Defer (e : api_error)
  | Candidates (l : list (option string * option TriggerSpec)).

(** The state of the loops: the builds created, the changed files once they
    were asked for, the error to answer with, and the identifiers drawn. *)
Record progress := Progress {
  pg_created : list (string * build * option RunnerPolicyBlockReason.t);
  pg_compared : option (option (list string));
  pg_deferred : option api_error;
  pg_drawn : nat;
}.

Section Webhook.
Context (to_lowercase : string -> string)
  (file_at : string -> string -> string -> result string (option RepositoryConfig))
  (changed_files : string -> string -> string -> option (list string))
  (workflow_binding : string -> string -> option RepositoryConfig -> option string ->
     ME string WorkflowBinding).

(** Tag pushes are stored and filtered as [tag_push]. *)
Definition stored_event (t : WebhookBuildTrigger) : string :=
  if wt_tag t is Some _ then "tag_push" else wt_event_type t.

Definition canonical_event (t : WebhookBuildTrigger) : string :=
  normalize_event to_lowercase (stored_event t).

(** The event as a file's [on] sees it. *)
Definition file_event (t : WebhookBuildTrigger) : option TriggerEvent :=
  match wt_tag t with
  | Some tag => Some (TagEvent tag)
  | None =>
      if String.eqb (canonical_event t) "push" then PushEvent <$> wt_branch t
      else if String.eqb (canonical_event t) "pull_request"
      then Some (PullRequestEvent (wt_target_branch t))
      else None
  end.

(** [commit_sha.filter(|sha| !sha.is_empty())]. *)
Definition solid_sha (t : WebhookBuildTrigger) : option string :=
  match wt_commit_sha t with Some sha => if is_empty sha then None else Some sha | None => None end.

(** The pipeline's file, when the delivery has a revision and an event a file
    can match. *)
Definition pipeline_file (t : WebhookBuildTrigger) (project_id : string) (pl : pipeline)
    : option (result string (option RepositoryConfig)) :=
  sha ← solid_sha t;
  _ ← file_event t;
  Some (file_at project_id (trim (pl_config_path pl)) sha).

(** The workflows of a pipeline this delivery may start. *)
Definition select_workflows (t : WebhookBuildTrigger) (project_id : string) (pl : pipeline)
    : selection :=
  match pipeline_file t project_id pl, pl_workflow pl with
  | None, workflow =>
      if bool_decide (is_Some (solid_sha t)) && bool_decide (is_Some workflow) then Skip
      else Candidates [(workflow, None)]
  | Some (Ok (Some config)), Some name => Candidates [(Some name, repository_triggers config (Some name))]
  | Some (Ok (Some config)), None =>
      if (1 <? length (repository_workflow_names config))%nat
      then Candidates (map (fun name => (Some name, repository_triggers config (Some name))) (repository_workflow_names config))
      else Candidates [(None, repository_triggers config None)]
  | Some (Ok None), workflow => Candidates [(workflow, None)]
  | Some (Err error), Some _ =>
      Defer (ApiErr 502 "source_unavailable"
               ("Could not read the pipeline file to match its triggers: " +:+ error))
  | Some (Err _), None => Candidates [(None, None)]
  end.

(** The event's kind and ref start this candidate. *)
Definition ref_matches (t : WebhookBuildTrigger) (pl : pipeline) (file_on : option TriggerSpec) : bool :=
  match file_on with
  | Some on => match file_event t with Some event => matches_ref on event | None => false end
  | None => should_trigger to_lowercase (pl_trigger_config pl) (stored_event t) (wt_branch t) (wt_tag t)
  end.

Definition filters_paths (t : WebhookBuildTrigger) (pl : pipeline) (file_on : option TriggerSpec) : bool :=
  bool_decide (wt_tag t = None)
  && match file_on with
     | Some on => on_has_path_filters on
     | None => has_path_filters (pl_trigger_config pl)
     end.

Definition candidate_paths_match (pl : pipeline) (file_on : option TriggerSpec)
    (files : option (list string)) : bool :=
  match file_on with
  | Some on => on_paths_match on files
  | None => paths_match (pl_trigger_config pl) files
  end.

(** The changed files, and what is remembered of them: a comparison is asked
    for at most once. *)
Definition changed_of (t : WebhookBuildTrigger) (repository_id : string)
    (compared : option (option (list string)))
    : option (list string) * option (option (list string)) :=
  match wt_changes t with
  | Unknown => (None, compared)
  | Files files => (Some files, compared)
  | Compare base head =>
      let files := match compared with
                   | Some files => files
                   | None => changed_files repository_id base head
                   end in
      (files, Some files)
  end.

(** The binds of the row one candidate inserts. *)
Definition webhook_binds (t : WebhookBuildTrigger) (lp : linked_project) (pipeline_id repo_url : string)
    (pl : pipeline) (workflow : option string) (binding : WorkflowBinding) (build_id : string) (now : Z)
    : BuildInsertBinds :=
  let '(timeout_minutes, approval_policy) := pipeline_gates pl in
  {| bi_build_id := build_id; bi_project_id := lp_project_id lp; bi_pipeline_id := pipeline_id;
     bi_actor := wt_actor t; bi_event_type := Some (stored_event t);
     bi_trigger_ref := (if wt_tag t is Some tag then Some tag else wt_branch t);
     bi_commit_sha := wt_commit_sha t; bi_branch := wt_branch t; bi_changelog := None;
     bi_config_snapshot := set_snapshot_workflow_name
       (create_config_snapshot (pl_runs_on pl) timeout_minutes (lp_repository_id lp, repo_url)) workflow;
     bi_webhook_id := Some (wt_webhook_id t); bi_now := now; bi_trigger_type := TriggerType.Webhook;
     bi_source_build_id := None; bi_cancel_previous := cancel_previous (pl_concurrency pl);
     bi_approval_required :=
       default (applies_to approval_policy (canonical_event t)) (wb_approval_required binding) |}.

(** The statements after a candidate's insert. *)
Definition webhook_recorded (t : WebhookBuildTrigger) (lp : linked_project) (b : BuildInsertBinds)
    (pg : progress) : M progress :=
  build_number ← fetch_build_number (bi_build_id b);
  _ ← record_created b ("webhook: " +:+ stored_event t);
  _ ← announce_if_gated b None;
  mret (Progress
    (pg_created pg ++ [(bi_build_id b, created_row b build_number,
       if lp_paused lp then Some RunnerPolicyBlockReason.InstancePaused else None)])
    (pg_compared pg) (pg_deferred pg) (pg_drawn pg)).

(** Start the build of a candidate the delivery matches. *)
Definition start_build (draw : nat -> string) (now : Z) (t : WebhookBuildTrigger)
    (lp : linked_project) (repo_url pipeline_id : string) (pl : pipeline) (workflow : option string)
    (pg : progress) : M progress :=
  let build_id := draw (pg_drawn pg) in
  let pg := Progress (pg_created pg) (pg_compared pg) (pg_deferred pg) (S (pg_drawn pg)) in
  let file := match pipeline_file t (lp_project_id lp) pl with
              | Some (Ok file) => file
              | _ => None
              end in
  catch (workflow_binding (lp_project_id lp) pipeline_id file workflow) (fun bound =>
    let binding := match bound with Ok binding => binding | Err _ => no_binding end in
    let b := webhook_binds t lp pipeline_id repo_url pl workflow binding build_id now in
    inserted ← insert_build_with_retry b;
    if (inserted : bool) then webhook_recorded t lp b pg else mret pg).

(** One candidate: the innermost loop body. *)
Definition run_candidate (draw : nat -> string) (now : Z) (t : WebhookBuildTrigger)
    (lp : linked_project) (repo_url pipeline_id : string) (pl : pipeline)
    (candidate : option string * option TriggerSpec) (pg : progress) : M progress :=
  let '(workflow, file_on) := candidate in
  if negb (ref_matches t pl file_on) then mret pg
  else if bool_decide (solid_sha t = None) then mret pg
  else if filters_paths t pl file_on then
    let '(files, compared) := changed_of t (lp_repository_id lp) (pg_compared pg) in
    let pg := Progress (pg_created pg) compared (pg_deferred pg) (pg_drawn pg) in
    if candidate_paths_match pl file_on files
    then start_build draw now t lp repo_url pipeline_id pl workflow pg else mret pg
  else start_build draw now t lp repo_url pipeline_id pl workflow pg.

(** One pipeline. *)
Definition run_pipeline (draw : nat -> string) (now : Z) (t : WebhookBuildTrigger)
    (lp : linked_project) (repo_url : string) (row : string * pipeline) (pg : progress) : M progress :=
  match select_workflows t (lp_project_id lp) row.2 with
  | Skip => mret pg
  | Defer e =>
      mret (Progress (pg_created pg) (pg_compared pg)
              (Some (default e (pg_deferred pg))) (pg_drawn pg))
  | Candidates l => for_each (run_candidate draw now t lp repo_url row.1 row.2) l pg
  end.

(** One project. *)
Definition run_project (draw : nat -> string) (now : Z) (t : WebhookBuildTrigger)
    (lp : linked_project) (pg : progress) : M progress :=
  match normalize_optional (lp_repo_url lp) with
  | None => mret pg
  | Some repo_url =>
      rows ← query "Failed to fetch pipelines" (enabled_pipelines (lp_project_id lp));
      for_each (run_pipeline draw now t lp repo_url) rows pg
  end.

(** [trigger_build_from_webhook]. *)
Definition trigger_build_from_webhook (draw : nat -> string) (now : Z) (t : WebhookBuildTrigger)
    : M (list (string * build * option RunnerPolicyBlockReason.t)) :=
  rows ← query "Failed to resolve project"
           (linked_projects (wt_integration_id t) (wt_repo_full_name t));
  pg ← for_each (run_project draw now t) rows (Progress [] None None O);
  match pg_deferred pg with
  | Some e => throw e
  | None => mret (pg_created pg)
  end.

End Webhook.

(** ** What a delivery creates *)

(** [w'] came after [w]: the catalog is the same, no claim and no build went,
    and no build changed what it is. *)
Definition later (w w' : world) : Prop :=
  catalog (w_db w') = catalog (w_db w) /\
  webhook_claims (w_db w) ⊆ webhook_claims (w_db w') /\
  forall id b, builds (w_db w) !! id = Some b ->
    exists b', builds (w_db w') !! id = Some b' /\ b_meta b' = b_meta b.

#[global] Instance later_preorder : PreOrder later.
Proof.
  split.
  - intros w. split_and!; [done..|]. eauto.
  - intros w1 w2 w3 (C1 & K1 & B1) (C2 & K2 & B2). split_and!; [congruence|by etransitivity|].
    intros id b (b2 & H2 & M2)%B1. destruct (B2 _ _ H2) as (b3 & H3 & M3). exists b3. split; congruence.
Qed.

Lemma same_db_later w w' : w_db w' = w_db w -> later w w'.
Proof. intros H. unfold later. rewrite H. split_and!; [done..|]. eauto. Qed.

Lemma insert_later b wh w w' :
  insert_effect b (w_db w) (w_db w') -> bi_webhook_id b = Some wh ->
  later w w' /\ webhook_claims (w_db w') !! claim_key b wh = Some (bi_build_id b).
Proof.
  intros Hi Hw. pose proof (insert_effect_catalog _ _ _ Hi) as [Hc Hk]. rewrite Hw in Hk.
  destruct Hk as [Hn Hk]. pose proof (insert_effect_builds _ _ _ Hi) as (Hnew & Hb & _).
  split; [|rewrite Hk; apply lookup_insert_eq].
  split_and!; [done|rewrite Hk; by apply insert_subseteq|].
  intros id o Ho. rewrite Hb. unfold after_insert.
  rewrite lookup_insert_ne by congruence. rewrite lookup_fmap, Ho. cbn. eexists. split; [done|].
  case_match; [|done]. unfold withdraw_pending_approval. by case_match.
Qed.

Section WebhookSpec.
Context (to_lowercase : string -> string)
  (file_at : string -> string -> string -> result string (option RepositoryConfig))
  (changed_files : string -> string -> string -> option (list string))
  (workflow_binding : string -> string -> option RepositoryConfig -> option string ->
     ME string WorkflowBinding).

(** Resolving a workflow's settings only reads. *)
Context (binding_reads : forall p pl file wf, keeps (fun d => d) (workflow_binding p pl file wf)).

Context (draw : nat -> string) (now : Z) (t : WebhookBuildTrigger).

(** The changed files, as the source host reports them for some repository. *)
Definition possible_changes (files : option (list string)) : Prop :=
  exists repository_id, files = fst (changed_of changed_files t repository_id None).

Definition paths_pass (pl : pipeline) (file_on : option TriggerSpec) (files : option (list string)) : Prop :=
  filters_paths t pl file_on = true -> candidate_paths_match pl file_on files = true.

(** The delivery matches this workflow of this pipeline, but for its paths. *)
Record starts (d : db) (lp : linked_project) (url pid : string) (pl : pipeline)
    (workflow : option string) (file_on : option TriggerSpec) : Prop := {
  st_linked : lp ∈ linked_projects (wt_integration_id t) (wt_repo_full_name t) d;
  st_url : normalize_optional (lp_repo_url lp) = Some url;
  st_pipeline : (pid, pl) ∈ enabled_pipelines (lp_project_id lp) d;
  st_candidate : exists l, select_workflows to_lowercase file_at t (lp_project_id lp) pl = Candidates l /\
                   (workflow, file_on) ∈ l;
  st_ref : ref_matches to_lowercase t pl file_on = true;
  st_sha : is_Some (solid_sha t);
}.

(** What a workflow was found to sign and publish with. *)
Definition bound (lp : linked_project) (pid : string) (pl : pipeline) (workflow : option string)
    (binding : WorkflowBinding) : Prop :=
  exists u u' r,
    workflow_binding (lp_project_id lp) pid
      (match pipeline_file to_lowercase file_at t (lp_project_id lp) pl with
       | Some (Ok file) => file | _ => None end) workflow u = (u', r) /\
    binding = match r with Ok binding => binding | Err _ => no_binding end.

(** A build answered for: it is one the delivery matches, and it is in the
    table. *)
Definition started (d0 d : db) (x : string * build * option RunnerPolicyBlockReason.t) : Prop :=
  exists lp url pid pl workflow file_on files binding number,
    starts d0 lp url pid pl workflow file_on /\ possible_changes files /\ paths_pass pl file_on files /\
    bound lp pid pl workflow binding /\
    x.1.2 = created_row (webhook_binds to_lowercase t lp pid url pl workflow binding x.1.1 now) number /\
    exists b, builds d !! x.1.1 = Some b /\ b_meta b = b_meta x.1.2.

Record loop_ok (d0 : db) (pg : progress) (w : world) : Prop := {
  lo_catalog : catalog (w_db w) = catalog d0;
  lo_created : forall x, x ∈ pg_created pg -> started d0 (w_db w) x;
  lo_compared : forall files, pg_compared pg = Some files -> possible_changes files;
}.

Lemma started_later d0 w w' x : later w w' -> started d0 (w_db w) x -> started d0 (w_db w') x.
Proof.
  intros (_ & _ & Hb) (lp & url & pid & pl & wf & on & files & bd & n & H1 & H2 & H3 & H4 & H5 & b & Hx & Hm).
  destruct (Hb _ _ Hx) as (b' & Hx' & Hm'). exists lp, url, pid, pl, wf, on, files, bd, n.
  split_and!; [done..|]. exists b'. split; congruence.
Qed.

Lemma loop_later d0 pg pg' w w' :
  loop_ok d0 pg w -> later w w' -> pg_created pg' = pg_created pg ->
  (forall files, pg_compared pg' = Some files -> possible_changes files) -> loop_ok d0 pg' w'.
Proof.
  intros [Hc Hs _] Hl Hcr Hcmp. split; [by rewrite <- Hc; apply Hl| |done].
  rewrite Hcr. intros x Hx. by eapply started_later, Hs.
Qed.

Lemma changed_of_possible repo compared :
  (forall files, compared = Some files -> possible_changes files) ->
  possible_changes (fst (changed_of changed_files t repo compared)) /\
  forall files, snd (changed_of changed_files t repo compared) = Some files -> possible_changes files.
Proof.
  intros Hc. unfold possible_changes, changed_of in *. destruct (wt_changes t); cbn in *; eauto.
  destruct compared as [files|]; cbn; [|split; [eauto|intros ? [= <-]; eauto]].
  destruct (Hc _ eq_refl) as [r ->]. split; [eauto|intros ? [= <-]; eauto].
Qed.

(** Every linked project's repository is the one its builds must name. *)
Lemma linked_source d0 d lp url runs_on minutes wf :
  lp ∈ linked_projects (wt_integration_id t) (wt_repo_full_name t) d0 -> catalog d = catalog d0 ->
  source_matches (lp_project_id lp) (set_snapshot_workflow_name
    (create_config_snapshot runs_on minutes (lp_repository_id lp, url)) wf) d = true.
Proof.
  intros Hl Hc. injection Hc as Hp Hr _ _ _. apply list_elem_of_omap in Hl as ([pid p] & Hin & Hl).
  apply elem_of_map_to_list in Hin. cbn in Hl.
  destruct (pr_repository_id p) as [r|] eqn:Er; cbn in Hl; [|done].
  destruct (repositories d0 !! r) as [rp|] eqn:Erp; cbn in Hl; [|done].
  destruct (installations d0 !! _) as [ig|]; cbn in Hl; [|done].
  destruct (integrations d0 !! ig); cbn in Hl; [|done]. case_match; [|done]. injection Hl as <-. cbn.
  unfold source_matches. rewrite Hp, Hin, Er, Hr, Erp.
  rewrite (bool_decide_true (is_Some (Some rp))) by eauto.
  apply bool_decide_eq_true. by destruct wf.
Qed.

(** The delivery is claimed for a workflow of a pipeline. *)
Definition claimed (pid : string) (workflow : option string) (w : world) : Prop :=
  is_Some (webhook_claims (w_db w) !! (wt_webhook_id t, pid, default ""%string workflow)).

Lemma claimed_later pid wf w w' : later w w' -> claimed pid wf w -> claimed pid wf w'.
Proof. intros (_ & Hk & _) [id Hid]. exists id. by eapply lookup_weaken. Qed.

(** The statements after an insert add the build to the answer. *)
Lemma webhook_recorded_ok lp b pg w w' pg' :
  webhook_recorded t lp b pg w = (w', Ok pg') ->
  later w w' /\ pg_compared pg' = pg_compared pg /\
  exists nb reason, builds (w_db w) !! bi_build_id b = Some nb /\
    pg_created pg' = pg_created pg ++ [(bi_build_id b, created_row b (b_build_number nb), reason)].
Proof.
  intros H. pose proof H as Hrun.
  assert (Hk : keeps (fun d => (catalog d, webhook_claims d, builds d)) (webhook_recorded t lp b pg)).
  { unfold webhook_recorded. apply keeps_bind; [auto with keeps|intros n].
    apply keeps_bind; [by apply keeps_map_err, keeps_sql|auto 10 with keeps]. }
  apply Hk in Hrun. injection Hrun as C1 C2 C3 C4 C5 K B. unfold webhook_recorded in H.
  apply M_bind_ok in H as (w1 & n & H1 & H). unfold fetch_build_number in H1. inv_run.
  split_and!; [split_and!; [unfold catalog; congruence|by rewrite K|rewrite B; eauto]|done|]. eauto.
Qed.


Lemma start_build_ok d0 lp url pid pl wf on files pg w w' pg' :
  starts d0 lp url pid pl wf on -> possible_changes files -> paths_pass pl on files -> loop_ok d0 pg w ->
  start_build to_lowercase file_at workflow_binding draw now t lp url pid pl wf pg w = (w', Ok pg') ->
  loop_ok d0 pg' w' /\ later w w' /\ claimed pid wf w'.
Proof.
  intros Hst Hposs Hpass Hok H. unfold start_build, catch in H.
  destruct (workflow_binding _ _ _ _ w) as [w1 bnd] eqn:Eb.
  pose proof (same_db_later _ _ (binding_reads _ _ _ _ _ _ _ Eb)) as L1.
  set (binding := match bnd with Ok b => b | Err _ => no_binding end) in H.
  set (b := webhook_binds _ _ _ _ _ _ _ _ _ _) in H.
  assert (Hkey : claim_key b (wt_webhook_id t) = (wt_webhook_id t, pid, default ""%string wf)) by (by destruct wf).
  apply M_bind_ok in H as (w2 & ins & Hi & H). destruct ins.
  - apply insert_attempts_result in Hi. pose proof (insert_later _ _ _ _ Hi eq_refl) as [L2 K2].
    apply webhook_recorded_ok in H as (L3 & Hc3 & nb & reason & Hnb & Hcr).
    assert (L : later w w') by (do 2 (etransitivity; [eassumption|]); done).
    split_and!; [|done|eapply claimed_later; [exact L3|]; unfold claimed; rewrite <- Hkey; eauto].
    split; [rewrite <- (lo_catalog _ _ _ Hok); apply L| |rewrite Hc3; apply (lo_compared _ _ _ Hok)].
    rewrite Hcr. intros y [Hy| ->%list_elem_of_singleton]%elem_of_app;
      [eapply started_later; [exact L|]; by apply (lo_created _ _ _ Hok)|].
    destruct (proj2 (proj2 L3) _ _ Hnb) as (b' & Hb' & Hm').
    exists lp, url, pid, pl, wf, on, files, binding, (b_build_number nb).
    split_and!; [done|done|done|by exists w, w1, bnd|done|]. exists b'. split; [done|]. rewrite Hm'.
    apply insert_effect_builds in Hi as (_ & Hbs & _). rewrite Hbs in Hnb. unfold after_insert in Hnb.
    rewrite lookup_insert_eq in Hnb. by injection Hnb as <-.
  - injection H as -> <-. pose proof (insert_refused _ _ _ _ Hi) as Hr. apply insert_attempts_result in Hi.
    assert (L : later w w') by (etransitivity; [exact L1|by apply same_db_later]).
    split_and!; [by eapply (loop_later _ pg); [..|apply (lo_compared _ _ _ Hok)]|done|].
    destruct Hr as [Hr|[Hr|(wh & [= <-] & Hr)]]; [|done|].
    + assert (Hs : source_matches (bi_project_id b) (bi_config_snapshot b) (w_db w1) = true);
        [|congruence]. refine (linked_source d0 _ lp url _ _ wf _ _); [apply Hst|].
      rewrite <- (lo_catalog _ _ _ Hok). apply L1.
    + unfold claimed. by rewrite Hi, <- Hkey.
Qed.

Lemma run_candidate_ok d0 lp url pid pl candidate pg w w' pg' :
  lp ∈ linked_projects (wt_integration_id t) (wt_repo_full_name t) d0 ->
  normalize_optional (lp_repo_url lp) = Some url ->
  (pid, pl) ∈ enabled_pipelines (lp_project_id lp) d0 ->
  (exists l, select_workflows to_lowercase file_at t (lp_project_id lp) pl = Candidates l /\ candidate ∈ l) ->
  loop_ok d0 pg w ->
  run_candidate to_lowercase file_at changed_files workflow_binding draw now t lp url pid pl candidate pg w
    = (w', Ok pg') ->
  loop_ok d0 pg' w' /\ later w w' /\
  (ref_matches to_lowercase t pl candidate.2 = true -> is_Some (solid_sha t) ->
   (forall files, possible_changes files -> paths_pass pl candidate.2 files) -> claimed pid candidate.1 w').
Proof.
  intros Hl Hurl Hpl Hsel Hok H. destruct candidate as [wf on]. cbn in *. unfold run_candidate in H.
  destruct (ref_matches to_lowercase t pl on) eqn:Href; cbn [negb] in H;
    [|injection H as <- <-; by split_and!].
  case_bool_decide as Hsha;
    [injection H as <- <-; split_and!; [done|reflexivity|rewrite Hsha; by intros _ [? [=]]]|].
  assert (Hst : starts d0 lp url pid pl wf on) by (split; [done..|by destruct (solid_sha t)]).
  destruct (filters_paths t pl on) eqn:Hf.
  - pose proof (changed_of_possible (lp_repository_id lp) _ (lo_compared _ _ _ Hok)) as [Hp Hc].
    destruct (changed_of _ _ _ _) as [files compared]. cbn in Hp, Hc.
    set (pg1 := Progress _ _ _ _) in H.
    assert (Hok1 : loop_ok d0 pg1 w) by (eapply (loop_later _ pg); [done|reflexivity|done|done]).
    destruct (candidate_paths_match pl on files) eqn:Hm.
    + eapply (start_build_ok d0 lp url pid pl wf on files) in H; [|done|done|by intros _|done].
      naive_solver.
    + injection H as <- <-. split_and!; [done|reflexivity|]. intros _ _ Hall.
      specialize (Hall _ Hp Hf). congruence.
  - eapply (start_build_ok d0 lp url pid pl wf on) in H; [naive_solver|done|by exists ""%string| |done].
    intros ?. congruence.
Qed.

(** A pipeline is served: every workflow the delivery matches is claimed. *)
Definition served (d0 : db) (lp : linked_project) (url : string) (row : string * pipeline)
    (w : world) : Prop :=
  forall wf on, starts d0 lp url row.1 row.2 wf on ->
    (forall files, possible_changes files -> paths_pass row.2 on files) -> claimed row.1 wf w.

Lemma run_pipeline_ok d0 lp url row pg w w' pg' :
  lp ∈ linked_projects (wt_integration_id t) (wt_repo_full_name t) d0 ->
  normalize_optional (lp_repo_url lp) = Some url ->
  row ∈ enabled_pipelines (lp_project_id lp) d0 -> loop_ok d0 pg w ->
  run_pipeline to_lowercase file_at changed_files workflow_binding draw now t lp url row pg w = (w', Ok pg') ->
  loop_ok d0 pg' w' /\ later w w' /\ served d0 lp url row w'.
Proof.
  intros Hl Hurl Hpl Hok H. destruct row as [pid pl]. unfold run_pipeline in H. cbn in H.
  destruct (select_workflows _ _ _ _ _) as [|e|l] eqn:Es.
  1, 2: injection H as <- <-; split_and!; [|reflexivity|];
    [eapply (loop_later _ pg); [done|reflexivity|done|apply (lo_compared _ _ _ Hok)]
    |intros wf on [_ _ _ (l & Hs & _) _ _]; cbn in Hs; congruence].
  apply (for_each_rec _ (loop_ok d0) (fun c w => ref_matches to_lowercase t pl c.2 = true ->
    is_Some (solid_sha t) -> (forall files, possible_changes files -> paths_pass pl c.2 files) ->
    claimed pid c.1 w) later) in H as (Hok' & L & Hall); [|eauto using claimed_later| |done].
  - split_and!; [done|done|]. intros wf on [_ _ _ (l' & Hs & Hin) Hr Hsha] Hp. cbn in *.
    rewrite Es in Hs. injection Hs as <-. by apply (Hall _ Hin).
  - intros c acc u u' acc' Hin Hacc Hrun. eapply run_candidate_ok; eauto.
Qed.

Lemma enabled_catalog project_id d d0 :
  catalog d = catalog d0 -> enabled_pipelines project_id d = enabled_pipelines project_id d0.
Proof. intros Hc. injection Hc as _ _ _ _ Hp. unfold enabled_pipelines. by rewrite Hp. Qed.

Lemma run_project_ok d0 lp pg w w' pg' :
  lp ∈ linked_projects (wt_integration_id t) (wt_repo_full_name t) d0 -> loop_ok d0 pg w ->
  run_project to_lowercase file_at changed_files workflow_binding draw now t lp pg w = (w', Ok pg') ->
  loop_ok d0 pg' w' /\ later w w' /\
  (forall url row, row ∈ enabled_pipelines (lp_project_id lp) d0 -> served d0 lp url row w').
Proof.
  intros Hl Hok H. unfold run_project in H. destruct (normalize_optional (lp_repo_url lp)) as [url|] eqn:Hu.
  2: { injection H as <- <-. split_and!; [done|reflexivity|]. intros url row _ wf on [_ Hx _ _ _ _]. congruence. }
  apply M_bind_ok in H as (w1 & rows & (Hr & D1 & _)%query_ok & H).
  rewrite (enabled_catalog _ _ d0) in Hr by apply (lo_catalog _ _ _ Hok). subst rows.
  apply same_db_later in D1 as L1.
  assert (Hok1 : loop_ok d0 pg w1) by (by eapply (loop_later _ pg); [..|apply (lo_compared _ _ _ Hok)]).
  apply (for_each_rec _ (loop_ok d0) (served d0 lp url) later) in H as (Hok' & L & Hall);
    [|intros row u u' HL Hsv wf on Hst Hp; eapply claimed_later; [done|by eapply Hsv]
     |intros; eapply run_pipeline_ok; eauto|done].
  split_and!; [done|by etransitivity|]. intros url' row Hrow wf on Hst Hp.
  pose proof (st_url _ _ _ _ _ _ _ Hst) as Hu'. rewrite Hu in Hu'. injection Hu' as <-. by eapply Hall.
Qed.

Lemma loops_store rows acc : store_only (for_each
  (run_project to_lowercase file_at changed_files workflow_binding draw now t) rows acc).
Proof.
  apply store_for_each. intros lp acc0. unfold run_project. destruct (normalize_optional _); [|auto with keeps].
  apply store_bind; [auto with keeps|intros pls]. apply store_for_each. intros row acc1.
  unfold run_pipeline. destruct (select_workflows _ _ _ _ _); [auto with keeps..|].
  apply store_for_each. intros [wf on] acc2. unfold run_candidate, start_build, webhook_recorded.
  repeat case_match; auto 20 with keeps.
Qed.

(** However the run ended, short of a store error, the loops ran to their end. *)
Lemma trigger_run w w' r :
  trigger_build_from_webhook to_lowercase file_at changed_files workflow_binding draw now t w = (w', r) ->
  (exists e, r = Err e /\ err_status e = 500) \/
  exists pg, loop_ok (w_db w) pg w' /\
    (forall lp url row, lp ∈ linked_projects (wt_integration_id t) (wt_repo_full_name t) (w_db w) ->
       row ∈ enabled_pipelines (lp_project_id lp) (w_db w) -> served (w_db w) lp url row w') /\
    r = match pg_deferred pg with Some e => Err e | None => Ok (pg_created pg) end.
Proof.
  unfold trigger_build_from_webhook. intros H. unfold mbind, M_bind in H.
  destruct (query _ _ w) as [w1 [rows|e]] eqn:E1.
  2: { apply exec_err in E1 as (_ & _ & ->). injection H as _ <-. left. by eexists. }
  apply query_ok in E1 as (<- & D1 & _).
  destruct (for_each _ _ _ w1) as [w2 [pg|e]] eqn:E2.
  - right. exists pg.
    apply (for_each_rec _ (loop_ok (w_db w)) (fun lp u => forall url row,
      row ∈ enabled_pipelines (lp_project_id lp) (w_db w) -> served (w_db w) lp url row u) later)
      in E2 as (Hok & _ & Hall);
      [|intros lp u u' HL Hsv url row Hrow wf on Hst Hp; eapply claimed_later; [done|by eapply Hsv]
       |intros; eapply run_project_ok; eauto
       |split; [by rewrite D1|intros x; by rewrite elem_of_nil|done]].
    assert (w' = w2) as -> by (by destruct (pg_deferred pg); injection H).
    split_and!; [done| |by destruct (pg_deferred pg); injection H].
    intros lp url row Hl Hrow. by apply Hall.
  - injection H as _ <-. left. exists e. split; [done|]. by eapply loops_store.
Qed.

(** a delivery starts only what it matches.  Every build a delivery is
    answered with was created for an enabled pipeline of a project linked to
    the delivery's repository, for a workflow whose triggers, the file's [on]
    or else the pipeline's settings, match the event and its ref and whose path
    filters the changed files pass, at a commit that is not blank; its row is
    the one those values determine, gated by the workflow's settings or else
    the pipeline's policy, and it is in the table. *)
Theorem webhook_builds_match (w w' : world) (created : list (string * build * option RunnerPolicyBlockReason.t)) :
  trigger_build_from_webhook to_lowercase file_at changed_files workflow_binding draw now t w
    = (w', Ok created) ->
  forall id row reason, (id, row, reason) ∈ created ->
  exists lp url pid pl workflow file_on files binding number,
    starts (w_db w) lp url pid pl workflow file_on /\
    possible_changes files /\ paths_pass pl file_on files /\ bound lp pid pl workflow binding /\
    row = created_row (webhook_binds to_lowercase t lp pid url pl workflow binding id now) number /\
    exists b, builds (w_db w') !! id = Some b /\ b_meta b = b_meta row.
Proof.
  intros H id row reason Hin. apply trigger_run in H as [(e & [=] & _)|(pg & Hok & _ & Hr)].
  destruct (pg_deferred pg); [done|]. injection Hr as ->. exact (lo_created _ _ _ Hok _ Hin).
Qed.

(** a delivery starts everything it matches.  However it is answered,
    short of a store error and even when the file of another pipeline could
    not be read: every workflow of every enabled pipeline that the delivery
    matches has been claimed for it, so that it has its build. *)
Theorem webhook_delivery_complete (w w' : world) (r : result api_error (list (string * build * option RunnerPolicyBlockReason.t))) :
  trigger_build_from_webhook to_lowercase file_at changed_files workflow_binding draw now t w = (w', r) ->
  (forall e, r = Err e -> err_status e <> 500) ->
  forall lp url pid pl workflow file_on,
    starts (w_db w) lp url pid pl workflow file_on ->
    (forall files, possible_changes files -> paths_pass pl file_on files) ->
    is_Some (webhook_claims (w_db w') !! (wt_webhook_id t, pid, default ""%string workflow)).
Proof.
  intros H Hne lp url pid pl wf on Hst Hp. apply trigger_run in H as [(e & -> & H5)|(pg & _ & Hall & _)].
  - by destruct (Hne e eq_refl).
  - apply (Hall lp url (pid, pl) (st_linked _ _ _ _ _ _ _ Hst) (st_pipeline _ _ _ _ _ _ _ Hst) wf on Hst Hp).
Qed.

(** builds of one delivery cancel each other.  In a pipeline that cancels
    previous builds, the build of a second workflow of the same delivery
    cancels the unfinished build of the first: they have the same pipeline,
    branch and repository, and nothing tells the workflows apart. *)
Theorem sibling_workflows_superseded (lp : linked_project) (pid url branch : string) (pl : pipeline)
    (wf1 wf2 : option string) (bd1 bd2 : WorkflowBinding) (id1 id2 : string) (d d1 d2 : db) :
  cancel_previous (pl_concurrency pl) = true -> wt_branch t = Some branch -> branch <> ""%string ->
  insert_effect (webhook_binds to_lowercase t lp pid url pl wf1 bd1 id1 now) d d1 ->
  insert_effect (webhook_binds to_lowercase t lp pid url pl wf2 bd2 id2 now) d1 d2 ->
  b_status <$> builds d2 !! id1 = Some BuildStatus.Canceled.
Proof.
  intros Hc Hbr Hne (_ & Hb1 & _)%insert_effect_builds (Hn2 & Hb2 & _)%insert_effect_builds.
  set (b1 := webhook_binds to_lowercase t lp pid url pl wf1 bd1 id1 now) in *.
  set (b2 := webhook_binds to_lowercase t lp pid url pl wf2 bd2 id2 now) in *.
  assert (H1 : builds d1 !! id1 = Some (new_build b1 d)).
  { rewrite Hb1. unfold after_insert. apply (lookup_insert_eq (M := gmap string)). }
  assert (id2 <> id1). { intros ->. change (bi_build_id b2) with id1 in Hn2. congruence. }
  rewrite Hb2. unfold after_insert. rewrite lookup_insert_ne, lookup_fmap, H1 by done. cbn [fmap option_fmap option_map].
  assert (Hs : supersedes b2 (next_build_number (bi_project_id b2) d1) (new_build b1 d) = true).
  { pose proof (next_build_number_above (lp_project_id lp) d1 id1 _ H1 eq_refl) as Hlt.
    unfold supersedes. change (bi_branch b2) with (wt_branch t). rewrite Hbr.
    repeat (apply andb_true_iff; split); try apply bool_decide_eq_true.
    - exact Hc.
    - by rewrite bool_decide_false by congruence.
    - eauto.
    - apply String.eqb_refl.
    - exact Hbr.
    - by apply Z.ltb_lt.
    - destruct wf2; eexists; reflexivity.
    - by destruct wf1, wf2.
    - reflexivity. }
  rewrite Hs. unfold withdraw_pending_approval. by case_match.
Qed.

End WebhookSpec.

(** *** Witnesses: a push to a pipeline that fans out to two workflows *)

Definition on_any_push : TriggerSpec :=
  {| on_push := Some AllBranches; on_pull_request := None; on_tag := []; on_paths := [] |}.

Definition plain_workflow (on : option TriggerSpec) : WorkflowSpec :=
  {| wf_on := on; wf_targets := None; wf_flavors := None; wf_steps := None; wf_env := []; wf_vars := [];
     wf_signing := None |}.

Definition two_workflows (_ _ _ : string) : result string (option RepositoryConfig) :=
  Ok (Some (V2
    {| v2_version := 2; v2_name := None; v2_app := {| app_flutter := None; app_flavors := [] |};
       v2_targets := [(Android, {| ts_build := Some "flutter build apk"%string; ts_artifacts := None;
                                   ts_publish := None; ts_budgets := None |})];
       v2_steps := None; v2_env := []; v2_vars := []; v2_on := Some on_any_push;
       v2_workflows := [("adhoc"%string, plain_workflow (Some on_any_push)); ("release"%string, plain_workflow None)];
       v2_signing := no_signing; v2_runs_on := []; v2_isolation := Host; v2_build_number_offset := 0 |})).

Definition unchanged (_ _ _ : string) : option (list string) := None.

Definition unbound (_ _ : string) (_ : option RepositoryConfig) (_ : option string)
    : ME string WorkflowBinding := mret no_binding.

Definition push_to_main : WebhookBuildTrigger :=
  {| wt_webhook_id := "wh9"; wt_integration_id := "ig1"; wt_repo_full_name := "acme/app";
     wt_event_type := "push"; wt_branch := Some "main"%string; wt_tag := None;
     wt_target_branch := None; wt_commit_sha := Some "c0ffee"%string; wt_actor := None;
     wt_changes := Unknown |}.

Definition drawn (n : nat) : string := match n with O => "b-w0" | _ => "b-w1" end.

Definition delivered : world * result api_error (list (string * build * option RunnerPolicyBlockReason.t)) :=
  trigger_build_from_webhook to_ascii_lowercase two_workflows unchanged unbound drawn 500 push_to_main
    Sample.start.

Lemma unbound_reads p pl file wf : keeps (fun d => d) (unbound p pl file wf).
Proof. apply keeps_ret. Qed.

Lemma webhook_builds_match_witness :
  exists created id row reason b, snd delivered = Ok created /\ length created = 2%nat /\
    (id, row, reason) ∈ created /\ builds (w_db (fst delivered)) !! id = Some b /\ b_meta b = b_meta row.
Proof.
  destruct (snd delivered) as [created|e] eqn:Er; [|vm_compute in Er; discriminate Er].
  assert (H : delivered = (fst delivered, Ok created)) by (rewrite <- Er; apply surjective_pairing).
  destruct created as [|[[id row] reason] rest] eqn:Ec; [vm_compute in Er; discriminate Er|].
  assert (Hin : (id, row, reason) ∈ (id, row, reason) :: rest) by (apply elem_of_cons; by left).
  destruct (webhook_builds_match _ _ _ _ unbound_reads _ _ _ _ _ _ H id row reason Hin)
    as (lp & url & pid & pl & wf & on & files & bd & n & _ & _ & _ & _ & _ & b & Hb & Hm).
  exists ((id, row, reason) :: rest), id, row, reason, b.
  split; [reflexivity|]. split; [vm_compute in Er; injection Er as <- <- <- <-; reflexivity|].
  split; [exact Hin|]. split; [exact Hb|exact Hm].
Defined.

Lemma webhook_delivery_complete_witness :
  is_Some (webhook_claims (w_db (fst delivered)) !! ("wh9", "pl1", "release")%string).
Proof.
  refine (webhook_delivery_complete to_ascii_lowercase two_workflows unchanged unbound unbound_reads
    drawn 500 push_to_main Sample.start (fst delivered) (snd delivered) (surjective_pairing _) _
    (Linked "p1" "r1" (Some "https://github.com/acme/app.git"%string) false)
    "https://github.com/acme/app.git" "pl1" Sample.pipe (Some "release"%string) (Some on_any_push) _ _).
  - intros e He. vm_compute in He. discriminate He.
  - split.
    + assert (Hl : linked_projects "ig1" "acme/app" Sample.database
        = [Linked "p1" "r1" (Some "https://github.com/acme/app.git"%string) false])
        by (vm_compute; reflexivity).
      cbn [wt_integration_id wt_repo_full_name push_to_main w_db Sample.start]. rewrite Hl.
      apply elem_of_cons. by left.
    + vm_compute. reflexivity.
    + apply list_elem_of_filter. split; [split; reflexivity|]. apply elem_of_map_to_list.
      vm_compute. reflexivity.
    + eexists. split; [reflexivity|]. apply elem_of_cons. right. apply elem_of_cons. by left.
    + vm_compute. reflexivity.
    + eexists. reflexivity.
  - intros files _ Hf. vm_compute in Hf. discriminate Hf.
Defined.

(** Of the two builds the push starts, the first is cancelled at once. *)
Lemma sibling_workflows_superseded_witness :
  let lp := Linked "p1" "r1" None false in
  let binds wf id := webhook_binds to_ascii_lowercase push_to_main lp "pl1" "url" Sample.pipe (Some wf)
                       no_binding id 500 in
  let w1 := fst (insert_build_with_retry (binds "adhoc" "b-w0")%string Sample.start) in
  let w2 := fst (insert_build_with_retry (binds "release" "b-w1")%string w1) in
  b_status <$> builds (w_db w2) !! "b-w0"%string = Some BuildStatus.Canceled /\
  b_status <$> builds (w_db (fst delivered)) !! "b-w0"%string = Some BuildStatus.Canceled.
Proof.
  intros lp binds w1 w2. split; [|vm_compute; reflexivity].
  refine (sibling_workflows_superseded to_ascii_lowercase 500 push_to_main lp "pl1" "url" "main" Sample.pipe
    (Some "adhoc"%string) (Some "release"%string) no_binding no_binding "b-w0" "b-w1" _ (w_db w1) (w_db w2)
    eq_refl eq_refl _ _ _); [discriminate| |].
  - apply (insert_attempts_result (pred BUILD_INSERT_MAX_RETRIES) _ Sample.start _ (Ok true)).
    vm_compute. reflexivity.
  - apply (insert_attempts_result (pred BUILD_INSERT_MAX_RETRIES) _ w1 _ (Ok true)).
    vm_compute. reflexivity.
Defined.
