(* ===== verification/Deliveries.v ===== *)
(** * Webhook deliveries

    [crates/oored/src/integrations/webhooks.rs]: the two receivers, which check
    that a delivery comes from the source host and store it; the queue of
    stored deliveries, with its leases, retries and recovery; and the worker,
    which reads a delivery, decides whether its revision may be built and hands
    it to [trigger_build_from_webhook].

    Outside ([WebhookOutside]): decryption, HMAC and SHA-256 in hex, serde's JSON
    and chrono's RFC 3339 parser, the texts of errors, and what
    [trigger_build_from_webhook] asks the source host.  A header is [None] when
    it is absent or not text; the time is an argument, one for each call of
    [now_unix]. *)

From stdpp Require Import pretty.
From S2P Require Import PipelineFile Lowering Prelude Contract RustStr Labels Triggers Db Access Builds Runners Creation Wp Accounts SignIn Webhooks.

Local Open Scope Z_scope.

(** ** What lies outside *)

Class WebhookOutside := {
  decrypt : string -> option string;
  hmac_sha256_hex : string -> string -> string;
  sha256_hex : string -> string;
  parse_json : string -> option Json.Value;
  print_json : Json.Value -> string;
  rfc3339_timestamp : string -> option Z;
  sql_text : sqlx_error -> string;
  json_error_text : string -> string;
  debug_text : api_error -> string;
  lowercase : string -> string;
  host_file : string -> string -> string -> result string (option RepositoryConfig);
  host_changes : string -> string -> string -> option (list string);
  binding : string -> string -> option RepositoryConfig -> option string -> ME string WorkflowBinding;
}.

Definition MAX_WEBHOOK_BODY_SIZE : Z := 1048576.
Definition MAX_WEBHOOK_AGE_SECS : Z := 300.
Definition WEBHOOK_SECRET_CACHE_TTL_SECS : Z := 60.
Definition WEBHOOK_RECOVERY_INTERVAL_SECS : Z := 30.
Definition WEBHOOK_PROCESSING_LEASE_SECS : Z := 5 * 60.
Definition MAX_WEBHOOK_PROCESSING_ATTEMPTS : Z := 5.

(** [enum WebhookProvider]. *)
Inductive WebhookProvider : Set := GithubHook | GitlabHook.

(** [struct WebhookResponse]; its [ok] is always true. *)
Record WebhookResponse := { wr_ok : bool; duplicate : option bool }.

(** What [try_send] on the wake channel, of capacity one, answered. *)
Inductive SendOutcome : Set := Sent | Full | Closed.

(** ** The cache of secrets *)

Definition provider_cache (p : WebhookProvider) (c : WebhookSecretCache) : ProviderSecretCache :=
  match p with GithubHook => cache_github c | GitlabHook => cache_gitlab c end.

(** [*cache.provider_mut(provider) = slot]. *)
Definition set_provider_cache (p : WebhookProvider) (slot : ProviderSecretCache) (c : WebhookSecretCache)
    : WebhookSecretCache :=
  match p with
  | GithubHook => {| cache_github := slot; cache_gitlab := cache_gitlab c |}
  | GitlabHook => {| cache_github := cache_github c; cache_gitlab := slot |}
  end.

Definition with_secrets {E A} (f : WebhookSecretCache -> WebhookSecretCache * A) : ME E A :=
  in_memory (fun m => let '(c, a) := f (webhook_secrets m) in
    (Memory (pending_auth m) (recovery_capabilities m) (bootstrap_failures m) c (streams m), a)).

(** [invalidate_webhook_secret_cache]. *)
Definition invalidate_webhook_secret_cache {E} (p : WebhookProvider) : ME E unit :=
  with_secrets (fun c => (set_provider_cache p {| refreshed_at := 0; entries := [] |} c, tt)).

Definition active_of (provider : ScmProvider.t) (i : integration) : bool :=
  bool_decide (ig_provider i = provider) && bool_decide (ig_status i = IntegrationStatus.Active).

(** The SELECT of the secrets of a provider: each entry with its secret still
    encrypted. *)
Definition encrypted_secrets (p : WebhookProvider) (d : db) : list CachedWebhookSecret :=
  match p with
  | GithubHook =>
      omap (fun kv : string * integration =>
        c ← credentials d !! (kv.1, "webhook_secret"%string);
        if active_of ScmProvider.Github kv.2
        then Some {| ws_integration_id := kv.1; ws_repository_id := None; ws_repository_external_id := None;
                     ws_repository_full_name := None; ws_secret := c |}
        else None) (map_to_list (integrations d))
  | GitlabHook =>
      omap (fun kv : string * string =>
        r ← repositories d !! kv.1;
        ig ← installations d !! rp_installation_id r;
        i ← integrations d !! ig;
        if active_of ScmProvider.Gitlab i
        then Some {| ws_integration_id := ig; ws_repository_id := Some kv.1;
                     ws_repository_external_id := Some (rp_external_id r);
                     ws_repository_full_name := Some (rp_full_name r); ws_secret := kv.2 |}
        else None) (map_to_list (repository_secrets d))
  end.

Definition set_ws_secret (secret : string) (s : CachedWebhookSecret) : CachedWebhookSecret :=
  {| ws_integration_id := ws_integration_id s; ws_repository_id := ws_repository_id s;
     ws_repository_external_id := ws_repository_external_id s;
     ws_repository_full_name := ws_repository_full_name s; ws_secret := secret |}.

(** ** JSON values *)

(** [json_id]. *)
Definition json_id (value : option Json.Value) : option string :=
  v ← value;
  id ← match v with
       | Json.Str id => Some id
       | Json.Number id => Some (pretty id)
       | Json.Float id => Some id
       | _ => None
       end;
  if is_empty (trim id) then None else Some (trim id).

(** [json_non_empty_string]. *)
Definition json_non_empty_string (value : option Json.Value) : option string :=
  s ← value ≫= Json.as_str;
  if is_empty (trim s) then None else Some (trim s).

(** The strings of [value.get(key)?.as_array()?], each [as_str()?]. *)
Definition string_array (key : string) (value : Json.Value) : option (list string) :=
  l ← Json.get key value ≫= Json.as_array;
  mapM Json.as_str l.

(** [push_changed_files]; a [BTreeSet] yields its elements in order, once. *)
Definition push_changed_files (payload : Json.Value) (total_commits : option Z) : option (list string) :=
  commits ← Json.get "commits" payload ≫= Json.as_array;
  let n := Z.of_nat (length commits) in
  if bool_decide (commits = []) || (2048 <=? n)
     || match total_commits with Some total => n <? total | None => false end
  then None
  else
    files ← mapM (fun commit => ls ← mapM (fun key => string_array key commit)
                                       ["added"; "modified"; "removed"]%string;
                                Some (concat ls)) commits;
    Some (dedup (sort (concat files))).

(** ** Normalized events *)

(** [struct NormalizedWebhookEvent]. *)
Record NormalizedWebhookEvent := {
  ne_provider : string;
  ne_event_type : string;
  ne_delivery_id : string;
  ne_integration_id : string;
  ne_repository_full_name : option string;
  ne_repository_external_id : option string;
  ne_source_repository_external_id : option string;
  ne_target_repository_external_id : option string;
  ne_action : option string;
  ne_change_number : option string;
  ne_branch : option string;
  ne_tag : option string;
  ne_commit_sha : option string;
  ne_previous_commit_sha : option string;
  ne_changed_files : option (list string);
  ne_compare_base : option string;
  ne_target_branch : option string;
  ne_actor : option string;
  ne_payload : Json.Value;
}.

(** [bool::then(..).flatten()]. *)
Definition when {A} (c : bool) (o : option A) : option A := if c then o else None.

(** The texts of the payload, [.and_then(|v| v.as_str()).map(String::from)]. *)
Definition text_at (keys : list string) (payload : Json.Value) : option string :=
  Json.pointer keys payload ≫= Json.as_str.

(** [normalize_github_event]. *)
Definition normalize_github_event (event_type delivery_id integration_id : string) (payload : Json.Value)
    : NormalizedWebhookEvent :=
  let git_ref := default ""%string (text_at ["ref"] payload) in
  let push := String.eqb event_type "push" in
  let pull := String.eqb event_type "pull_request" in
  {| ne_provider := "github"; ne_event_type := event_type; ne_delivery_id := delivery_id;
     ne_integration_id := integration_id;
     ne_repository_full_name := text_at ["repository"; "full_name"] payload;
     ne_repository_external_id := json_id (Json.pointer ["repository"; "id"] payload);
     ne_source_repository_external_id :=
       when pull (json_id (Json.pointer ["pull_request"; "head"; "repo"; "id"] payload));
     ne_target_repository_external_id :=
       when pull (json_id (Json.pointer ["pull_request"; "base"; "repo"; "id"] payload));
     ne_action := when pull (json_non_empty_string (Json.get "action" payload));
     ne_change_number := when pull (json_id (Json.get "number" payload));
     ne_branch := (if push then strip_prefix "refs/heads/" git_ref
                   else when pull (text_at ["pull_request"; "head"; "ref"] payload));
     ne_tag := when push (strip_prefix "refs/tags/" git_ref);
     ne_commit_sha := (if push then text_at ["after"] payload
                       else when pull (json_non_empty_string
                              (Json.pointer ["pull_request"; "head"; "sha"] payload)));
     ne_previous_commit_sha := None;
     ne_changed_files := when push (push_changed_files payload None);
     ne_compare_base := when pull (json_non_empty_string (Json.pointer ["pull_request"; "base"; "sha"] payload));
     ne_target_branch := when pull (json_non_empty_string (Json.pointer ["pull_request"; "base"; "ref"] payload));
     ne_actor := text_at ["sender"; "login"] payload;
     ne_payload := payload |}.

(** [normalize_gitlab_event]. *)
Definition normalize_gitlab_event (event_type delivery_id integration_id repository_full_name : string)
    (payload : Json.Value) : NormalizedWebhookEvent :=
  let git_ref := default ""%string (text_at ["ref"] payload) in
  let push := String.eqb event_type "Push Hook" in
  let tag_push := String.eqb event_type "Tag Push Hook" in
  let merge := String.eqb event_type "Merge Request Hook" in
  {| ne_provider := "gitlab"; ne_event_type := event_type; ne_delivery_id := delivery_id;
     ne_integration_id := integration_id;
     ne_repository_full_name := Some repository_full_name;
     ne_repository_external_id := json_id (Json.pointer ["project"; "id"] payload);
     ne_source_repository_external_id :=
       when merge (json_id (Json.pointer ["object_attributes"; "source_project_id"] payload));
     ne_target_repository_external_id :=
       when merge (json_id (Json.pointer ["object_attributes"; "target_project_id"] payload));
     ne_action := when merge (json_non_empty_string (Json.pointer ["object_attributes"; "action"] payload));
     ne_change_number := when merge (json_id (Json.pointer ["object_attributes"; "iid"] payload));
     ne_branch := (if push || tag_push then strip_prefix "refs/heads/" git_ref
                   else when merge (text_at ["object_attributes"; "source_branch"] payload));
     ne_tag := when tag_push (strip_prefix "refs/tags/" git_ref);
     ne_commit_sha := (if push || tag_push then text_at ["checkout_sha"] payload
                       else when merge (json_non_empty_string
                              (Json.pointer ["object_attributes"; "last_commit"; "id"] payload)));
     ne_previous_commit_sha :=
       when merge (json_non_empty_string (Json.pointer ["object_attributes"; "oldrev"] payload));
     ne_changed_files := when push (push_changed_files payload
       (Json.get "total_commits_count" payload ≫= Json.as_u64));
     ne_compare_base :=
       when merge (json_non_empty_string (Json.pointer ["object_attributes"; "target_branch"] payload));
     ne_target_branch :=
       when merge (json_non_empty_string (Json.pointer ["object_attributes"; "target_branch"] payload));
     ne_actor := match text_at ["user"; "username"] payload with
                 | Some name => Some name
                 | None => text_at ["user_username"] payload
                 end;
     ne_payload := payload |}.

(** ** Comparing secrets *)

(** [constant_time_eq]. *)
Definition constant_time_eq (a b : string) : bool :=
  if negb (str_len a =? str_len b) then false else differing_bits (bytes a) (bytes b) =? 0.

(** ** Receiving *)

Section Receiving.
Context {outside : WebhookOutside}.

(** [verify_github_signature]. *)
Definition verify_github_signature (signature_header body secret : string) : bool :=
  match strip_prefix "sha256=" signature_header with
  | None => false
  | Some expected =>
      let computed := hmac_sha256_hex secret body in
      (str_len computed =? str_len expected) && (differing_bits (bytes computed) (bytes expected) =? 0)
  end.

(** The loop that decrypts: a secret that cannot be decrypted is skipped. *)
Definition decrypted (rows : list CachedWebhookSecret) : list CachedWebhookSecret :=
  omap (fun row => secret ← decrypt (ws_secret row); Some (set_ws_secret secret row)) rows.

(** [get_webhook_secrets]. *)
Definition get_webhook_secrets (p : WebhookProvider) (force_refresh : bool) (now : Z)
    : M (list CachedWebhookSecret) :=
  cached ← (if force_refresh then mret None
            else with_secrets (fun c =>
              let slot := provider_cache p c in
              (c, if now - refreshed_at slot <=? WEBHOOK_SECRET_CACHE_TTL_SECS
                  then Some (entries slot) else None)));
  match cached with
  | Some l => mret l
  | None =>
      rows ← query "Internal error" (encrypted_secrets p);
      let l := decrypted rows in
      _ ← with_secrets (fun c => (set_provider_cache p {| refreshed_at := now; entries := l |} c, tt));
      mret l
  end.

(** [signal_webhook_processor]. *)
Definition signal_webhook_processor (sent : SendOutcome) : result unit unit :=
  match sent with Sent | Full => Ok tt | Closed => Err tt end.

(** [wake_webhook_processor]. *)
Definition wake_webhook_processor (sent : SendOutcome) : M unit :=
  match signal_webhook_processor sent with
  | Ok _ => mret tt
  | Err _ => throw (ApiErr 503 "webhook_queue_unavailable" "Webhook processing is unavailable")
  end.

(** [require_remote_mode] of [integrations/mod.rs]. *)
Definition require_remote_mode : M unit :=
  mode ← load_runtime_mode "Failed to determine runtime mode";
  guard (bool_decide (mode = RuntimeMode.Remote))
    (ApiErr 403 "mode_restricted" "Remote mode is required for GitHub/GitLab integrations").

(** [SELECT id FROM integration_webhooks WHERE integration_id = ?1 AND
    provider_delivery_id = ?2]. *)
Definition same_delivery (integration_id delivery_id : string) (h : webhook) : bool :=
  String.eqb (wm_integration_id (wh_meta h)) integration_id
  && String.eqb (wm_provider_delivery_id (wh_meta h)) delivery_id.

Definition find_delivery (integration_id delivery_id : string) (d : db) : option string :=
  fst <$> head (filter (fun kv : string * webhook => same_delivery integration_id delivery_id kv.2 = true)
                  (map_to_list (webhooks d))).

(** [INSERT INTO integration_webhooks]: the identifier and the pair of
    integration and delivery are unique, and the integration exists. *)
Definition insert_webhook (id : string) (h : webhook) (d : db) : result sqlx_error db :=
  if bool_decide (is_Some (webhooks d !! id))
     || bool_decide (is_Some (find_delivery (wm_integration_id (wh_meta h))
                                (wm_provider_delivery_id (wh_meta h)) d))
  then Err UniqueViolation
  else if negb (bool_decide (is_Some (integrations d !! wm_integration_id (wh_meta h))))
  then Err OtherSqlError
  else Ok (set_webhooks (<[id := h]> (webhooks d)) d).

Definition received (integration_id delivery_id event_type payload : string) (now : Z) : webhook :=
  {| wh_meta := WebhookMeta integration_id delivery_id event_type payload now;
     wh_status := WebhookStatus.Received; wh_processing_error := None; wh_processed_at := None;
     wh_processing_attempts := 0; wh_processing_started_at := None; wh_next_attempt_at := None |}.

Definition store_webhook (id : string) (h : webhook) : M unit :=
  map_errM (fun _ => store_error "Failed to store webhook") (checked (insert_webhook id h)).

(** The secret among [l] that [matches] accepts, or else one of those read
    afresh: a forced refresh returns a new [Arc], never the one held. *)
Definition match_secret (p : WebhookProvider) (matches : CachedWebhookSecret -> bool) (now now_refresh : Z)
    : M (option CachedWebhookSecret) :=
  secrets ← get_webhook_secrets p false now;
  match find matches secrets with
  | Some s => mret (Some s)
  | None => refreshed ← get_webhook_secrets p true now_refresh; mret (find matches refreshed)
  end.

(** The end of a receiver, for a delivery not stored before. *)
Definition accept (id integration_id delivery_id event_type : string) (payload : Json.Value)
    (sent : SendOutcome) (now : Z) : M WebhookResponse :=
  _ ← store_webhook id (received integration_id delivery_id event_type (print_json payload) now);
  _ ← wake_webhook_processor sent;
  mret {| wr_ok := true; duplicate := None |}.

(** The answer to a delivery already stored. *)
Definition answer_duplicate (sent : SendOutcome) : M WebhookResponse :=
  _ ← wake_webhook_processor sent;
  mret {| wr_ok := true; duplicate := Some true |}.

(** [github_webhook]; [id] is drawn. *)
Definition github_webhook (headers : string -> option string) (body id : string) (sent : SendOutcome)
    (now_cache now_refresh now : Z) : M WebhookResponse :=
  _ ← guard (negb (MAX_WEBHOOK_BODY_SIZE <? str_len body))
        (ApiErr 413 "payload_too_large" "Webhook payload exceeds size limit");
  signature ← from_option (ApiErr 401 "missing_signature" "X-Hub-Signature-256 header required")
                (headers "x-hub-signature-256");
  let delivery_id := default ""%string (headers "x-github-delivery") in
  let event_type := default "unknown"%string (headers "x-github-event") in
  payload ← from_option (ApiErr 400 "invalid_payload" "Invalid JSON payload") (parse_json body);
  _ ← require_remote_mode;
  matched ← match_secret GithubHook (fun s => verify_github_signature signature body (ws_secret s))
              now_cache now_refresh;
  s ← from_option (ApiErr 401 "invalid_signature" "Webhook signature verification failed") matched;
  existing ← (if is_empty delivery_id then mret None
              else query "Failed to check webhook delivery" (find_delivery (ws_integration_id s) delivery_id));
  match existing with
  | Some _ => answer_duplicate sent
  | None => accept id (ws_integration_id s) delivery_id event_type payload sent now
  end.

(** The text of [project.id]: [as_str], [as_i64] or [as_u64]. *)
Definition payload_repository_id (payload : Json.Value) : option string :=
  value ← Json.pointer ["project"; "id"] payload;
  match Json.as_str value with
  | Some id => Some id
  | None =>
      match Json.as_i64 value with
      | Some id => Some (pretty id)
      | None => pretty <$> Json.as_u64 value
      end
  end.

Definition gitlab_matches (repository_id token : string) (s : CachedWebhookSecret) : bool :=
  bool_decide (ws_repository_external_id s = Some repository_id) && constant_time_eq token (ws_secret s).

Definition invalid_token : api_error := ApiErr 401 "invalid_token" "Webhook token verification failed".

(** The delivery identifier of an event without one. *)
Definition derived_uuid (integration_id event_type body : string) : string :=
  "sha256:" +:+ sha256_hex (integration_id +:+ String (byte_of 0) "" +:+ event_type +:+ String (byte_of 0) "" +:+ body).

(** The event says it is older than the replay window. *)
Definition stale_event (payload : Json.Value) (now : Z) : bool :=
  match text_at ["created_at"] payload ≫= rfc3339_timestamp with
  | Some event_unix => MAX_WEBHOOK_AGE_SECS <? now - event_unix
  | None => false
  end.

(** [gitlab_webhook]; [id] is drawn. *)
Definition gitlab_webhook (headers : string -> option string) (body id : string) (sent : SendOutcome)
    (now_cache now_refresh now : Z) : M WebhookResponse :=
  _ ← guard (negb (MAX_WEBHOOK_BODY_SIZE <? str_len body))
        (ApiErr 413 "payload_too_large" "Webhook payload exceeds size limit");
  token ← from_option (ApiErr 401 "missing_token" "X-Gitlab-Token header required") (headers "x-gitlab-token");
  let event_uuid := default ""%string (headers "x-gitlab-event-uuid") in
  let event_type := default "unknown"%string (headers "x-gitlab-event") in
  payload ← from_option (ApiErr 400 "invalid_payload" "Invalid JSON payload") (parse_json body);
  _ ← require_remote_mode;
  repository ← from_option invalid_token (payload_repository_id payload);
  matched ← match_secret GitlabHook (gitlab_matches repository token) now_cache now_refresh;
  s ← from_option invalid_token matched;
  _ ← from_option invalid_token (ws_repository_id s);
  _ ← from_option invalid_token (ws_repository_full_name s);
  let event_uuid := if is_empty event_uuid then derived_uuid (ws_integration_id s) event_type body
                    else event_uuid in
  existing ← query "Failed to check webhook delivery" (find_delivery (ws_integration_id s) event_uuid);
  match existing with
  | Some _ => answer_duplicate sent
  | None =>
      _ ← guard (negb (stale_event payload now)) (ApiErr 400 "stale_event" "Webhook event is too old");
      accept id (ws_integration_id s) event_uuid event_type payload sent now
  end.

End Receiving.

(** ** The queue *)

(** Column updates. *)
Definition set_wh_claimed (now : Z) (h : webhook) : webhook :=
  {| wh_meta := wh_meta h; wh_status := wh_status h; wh_processing_error := wh_processing_error h;
     wh_processed_at := wh_processed_at h; wh_processing_attempts := wh_processing_attempts h + 1;
     wh_processing_started_at := Some now; wh_next_attempt_at := wh_next_attempt_at h |}.

(** A delivery that is done with: [SET status = ?, processing_error = ?,
    processing_started_at = NULL, next_attempt_at = NULL, processed_at = ?]. *)
Definition set_wh_done (status : WebhookStatus.t) (error : option string) (now : Z) (h : webhook) : webhook :=
  {| wh_meta := wh_meta h; wh_status := status; wh_processing_error := error; wh_processed_at := Some now;
     wh_processing_attempts := wh_processing_attempts h; wh_processing_started_at := None;
     wh_next_attempt_at := None |}.

(** A delivery to try again: the second branch of the CASEs. *)
Definition set_wh_retry (error : string) (next : Z) (h : webhook) : webhook :=
  {| wh_meta := wh_meta h; wh_status := WebhookStatus.Received; wh_processing_error := Some error;
     wh_processed_at := None; wh_processing_attempts := wh_processing_attempts h;
     wh_processing_started_at := None; wh_next_attempt_at := Some next |}.

Definition is_received (h : webhook) : bool := bool_decide (wh_status h = WebhookStatus.Received).

(** [UPDATE integration_webhooks SET <f> WHERE id = ? AND status = 'received']. *)
Definition update_received (id : string) (f : webhook -> webhook) (d : db) : db :=
  set_webhooks (alter (fun h => if is_received h then f h else h) id (webhooks d)) d.

(** [column IS NULL OR column <cmp> ?]. *)
Definition null_or (p : Z -> bool) (o : option Z) : bool := match o with Some t => p t | None => true end.

(** The WHERE of the claim. *)
Definition claimable (now : Z) (h : webhook) : bool :=
  is_received h && (wh_processing_attempts h <? MAX_WEBHOOK_PROCESSING_ATTEMPTS)
  && null_or (fun t => t <=? now) (wh_next_attempt_at h)
  && null_or (fun t => t <? now - WEBHOOK_PROCESSING_LEASE_SECS) (wh_processing_started_at h).

(** The SELECT of the claim: the delivery received first. *)
Definition next_claimable (now : Z) (d : db) : option string :=
  fst <$> head (order_by (fun kv : string * webhook => wm_received_at (wh_meta kv.2))
    (filter (fun kv : string * webhook => claimable now kv.2 = true) (map_to_list (webhooks d)))).

(** [claim_next_webhook]. *)
Definition claim_next_webhook (now : Z) : ME sqlx_error (option string) :=
  sql (fun d =>
    match next_claimable now d with
    | Some id => (set_webhooks (alter (set_wh_claimed now) id (webhooks d)) d, Some id)
    | None => (d, None)
    end).

(** The WHERE of the recovery: [processing_started_at < ?] is not true of NULL. *)
Definition exhausted (now : Z) (h : webhook) : bool :=
  is_received h && (MAX_WEBHOOK_PROCESSING_ATTEMPTS <=? wh_processing_attempts h)
  && match wh_processing_started_at h with
     | Some t => t <? now - WEBHOOK_PROCESSING_LEASE_SECS
     | None => false
     end.

(** [COALESCE(processing_error, 'processing lease expired')]. *)
Definition lease_error (h : webhook) : string :=
  default "processing lease expired"%string (wh_processing_error h).

(** [fail_exhausted_webhook_leases]. *)
Definition fail_exhausted_webhook_leases (now : Z) : ME sqlx_error Z :=
  sql (fun d =>
    (set_webhooks ((fun h => if exhausted now h
                             then set_wh_done WebhookStatus.Failed (Some (lease_error h)) now h else h)
                     <$> webhooks d) d,
     Z.of_nat (size (filter (fun kv : string * webhook => exhausted now kv.2 = true) (webhooks d))))).

(** [record_webhook_processing_error]. *)
Definition record_webhook_processing_error (id error : string) (now : Z) : ME sqlx_error unit :=
  sql (fun d => (update_received id (fun h =>
    if MAX_WEBHOOK_PROCESSING_ATTEMPTS <=? wh_processing_attempts h
    then set_wh_done WebhookStatus.Failed (Some error) now h
    else set_wh_retry error (now + WEBHOOK_RECOVERY_INTERVAL_SECS) h) d, tt)).

(** ** Deciding *)

(** [enum WebhookTriggerDecision]. *)
Inductive WebhookTriggerDecision : Set :=
  | Trigger
  | Ignore (reason : string)
  | NotActionable.

(** [is_ref_deletion]. *)
Definition is_ref_deletion (payload : Json.Value) : bool :=
  bool_decide (Json.get "deleted" payload ≫= Json.as_bool = Some true)
  || match text_at ["after"] payload with
     | Some after => negb (is_empty after) && all_bytes (fun c => byte_val c =? 48) after
     | None => false
     end.

(** [.is_none_or(str::is_empty)]. *)
Definition none_or_empty (o : option string) : bool := match o with Some s => is_empty s | None => true end.

Definition is_action (actions : list string) (o : option string) : bool :=
  match o with Some a => bool_decide (a ∈ actions) | None => false end.

(** The SELECT of [registered_target_repository_matches]. *)
Definition registered (integration_id external_id full_name : string) (d : db) : bool :=
  existsb (fun kv : string * repository =>
    bool_decide (installations d !! rp_installation_id kv.2 = Some integration_id)
    && String.eqb (rp_external_id kv.2) external_id && String.eqb (rp_full_name kv.2) full_name)
    (map_to_list (repositories d)).

(** The action of a merge request proves a new revision. *)
Definition revision_action (event : NormalizedWebhookEvent) : bool :=
  is_action ["open"; "reopen"]%string (ne_action event)
  || is_action ["update"%string] (ne_action event)
     && match ne_previous_commit_sha event, ne_commit_sha event with
        | Some previous, Some current =>
            negb (is_empty previous) && negb (is_empty current) && negb (String.eqb previous current)
        | _, _ => false
        end.

Section Processing.
Context {outside : WebhookOutside}.

(** A statement whose failure [?] turns into an [anyhow] error. *)
Definition attempt {A} (f : db -> db * A) : ME string A := map_errM sql_text (sql f).

(** [registered_target_repository_matches]. *)
Definition registered_target_repository_matches (integration_id external_id full_name : string)
    : ME string bool :=
  attempt (fun d => (d, registered integration_id external_id full_name d)).

(** The repositories of a pull or merge request, [kind], once its action and
    revision are accepted. *)
Definition change_decision (kind : string) (event : NormalizedWebhookEvent) : ME string WebhookTriggerDecision :=
  if bool_decide (ne_change_number event = None) || none_or_empty (ne_commit_sha event)
  then mret (Ignore (kind +:+ " request revision identity is incomplete"))
  else
    match ne_repository_external_id event, ne_source_repository_external_id event,
          ne_target_repository_external_id event with
    | Some repository_id, Some source_id, Some target_id =>
        if negb (String.eqb repository_id target_id)
        then mret (Ignore (kind +:+ " request target repository is ambiguous"))
        else if negb (String.eqb source_id target_id)
        then mret (Ignore ("external-fork " +:+ kind +:+ " request revisions are blocked by policy"))
        else
          match ne_repository_full_name event with
          | None => mret (Ignore (kind +:+ " request target repository name is missing"))
          | Some full_name =>
              matches ← registered_target_repository_matches (ne_integration_id event) target_id full_name;
              mret (if (matches : bool) then Trigger
                    else Ignore "target repository does not match the integration")
          end
    | _, _, _ => mret (Ignore (kind +:+ " request repository identity is incomplete"))
    end.

(** The branch of a push. *)
Definition push_decision (event : NormalizedWebhookEvent) : ME string WebhookTriggerDecision :=
  if is_ref_deletion (ne_payload event) then mret (Ignore "ref deletion does not introduce a revision")
  else if none_or_empty (ne_commit_sha event) then mret (Ignore "push has no revision to build")
  else
    match ne_repository_external_id event, ne_repository_full_name event with
    | Some external_id, Some full_name =>
        matches ← registered_target_repository_matches (ne_integration_id event) external_id full_name;
        mret (if (matches : bool) then Trigger
              else Ignore "target repository does not match the integration")
    | _, _ => mret Trigger
    end.

(** [webhook_trigger_decision]. *)
Definition webhook_trigger_decision (event : NormalizedWebhookEvent) : ME string WebhookTriggerDecision :=
  let is_type := String.eqb (ne_event_type event) in
  if is_type "push" || is_type "Push Hook" || is_type "Tag Push Hook" then push_decision event
  else if is_type "pull_request" then
    if is_action ["opened"; "reopened"; "synchronize"]%string (ne_action event)
    then change_decision "pull" event
    else mret (Ignore "pull request action does not introduce a revision")
  else if is_type "Merge Request Hook" then
    if revision_action event then change_decision "merge" event
    else mret (Ignore "merge request action does not prove a new revision")
  else mret NotActionable.

(** ** Processing *)

(** [is_candidate_path] of [repository_config_files.rs]. *)
Definition is_candidate_path (path : string) : bool :=
  (ends_with ".yaml" path || ends_with ".yml" path)
  && (starts_with ".oore." path && negb (contains_char (byte_of 47) path)
      || match strip_prefix ".oore/" path with
         | Some rest => (length (filter (fun c => c = byte_of 47) (bytes rest)) <=? 1)%nat
         | None => false
         end).

(** [push_touches_config_files] of [repository_config_files.rs]. *)
Definition push_touches_config_files (changed_files : option (list string)) : bool :=
  match changed_files with Some files => existsb is_candidate_path files | None => true end.

(** [spawn_config_file_refresh]: the refresh itself runs on its own. *)
Definition spawn_config_file_refresh {E} (event : NormalizedWebhookEvent) : ME E unit :=
  match ne_repository_full_name event, ne_branch event, ne_commit_sha event, ne_tag event with
  | Some repo, Some branch, Some sha, None =>
      if negb (String.eqb (normalize_event lowercase (ne_event_type event)) "push")
         || is_empty sha || all_bytes (fun c => byte_val c =? 48) sha
         || negb (push_touches_config_files (ne_changed_files event))
      then mret tt
      else emit (ConfigRefreshStarted (ne_integration_id event) repo branch sha)
  | _, _, _, _ => mret tt
  end.

Definition changes_of (event : NormalizedWebhookEvent) : ChangeSet :=
  match ne_changed_files event, ne_compare_base event, ne_commit_sha event with
  | Some files, _, _ => Files files
  | None, Some base, Some head => Compare base head
  | _, _, _ => Unknown
  end.

Definition build_trigger (webhook_id repo : string) (event : NormalizedWebhookEvent) : WebhookBuildTrigger :=
  {| wt_webhook_id := webhook_id; wt_integration_id := ne_integration_id event; wt_repo_full_name := repo;
     wt_event_type := ne_event_type event; wt_branch := ne_branch event; wt_tag := ne_tag event;
     wt_target_branch := ne_target_branch event; wt_commit_sha := ne_commit_sha event;
     wt_actor := ne_actor event; wt_changes := changes_of event |}.

(** [StatusCode::is_server_error]. *)
Definition is_server_error (e : api_error) : bool := (500 <=? err_status e) && (err_status e <? 600).

(** [UPDATE ... SET status = 'processed', ...]; the error of an earlier attempt
    stays. *)
Definition set_wh_processed (now : Z) (h : webhook) : webhook :=
  set_wh_done WebhookStatus.Processed (wh_processing_error h) now h.

Definition mark_processed (webhook_id : string) (now : Z) : ME string unit :=
  attempt (fun d => (update_received webhook_id (set_wh_processed now) d, tt)).

(** [process_webhook_event]; [draw] gives the identifiers of builds. *)
Definition process_webhook_event (draw : nat -> string) (webhook_id : string) (event : NormalizedWebhookEvent)
    (now_trigger now : Z) : ME string unit :=
  decision ← webhook_trigger_decision event;
  match decision with
  | Ignore reason =>
      attempt (fun d =>
        (update_received webhook_id (set_wh_done WebhookStatus.Ignored (Some reason) now) d, tt))
  | _ =>
      _ ← spawn_config_file_refresh event;
      match decision, ne_repository_full_name event with
      | Trigger, Some repo =>
          catch (trigger_build_from_webhook lowercase host_file host_changes binding draw now_trigger
                   (build_trigger webhook_id repo event))
            (fun r => match r with
             | Ok _ => mark_processed webhook_id now
             | Err e =>
                 if is_server_error e then throw ("failed to trigger builds: " +:+ err_message e)
                 else catch (sql (fun d => (update_received webhook_id
                        (set_wh_done WebhookStatus.Failed (Some (debug_text e)) now) d, tt)))
                        (fun _ => mret tt)
             end)
      | _, _ => mark_processed webhook_id now
      end
  end.

(** The SELECT of a claimed delivery with its integration's provider. *)
Definition claimed_delivery (webhook_id : string) (d : db) : option (webhook_meta * ScmProvider.t) :=
  h ← webhooks d !! webhook_id;
  i ← integrations d !! wm_integration_id (wh_meta h);
  if is_received h && bool_decide (is_Some (wh_processing_started_at h))
  then Some (wh_meta h, ig_provider i) else None.

(** The names of the repositories with an external identifier. *)
Definition names_of (integration_id external_id : string) (d : db) : list string :=
  omap (fun kv : string * repository =>
    if bool_decide (installations d !! rp_installation_id kv.2 = Some integration_id)
       && String.eqb (rp_external_id kv.2) external_id
    then Some (rp_full_name kv.2) else None) (map_to_list (repositories d)).

(** The event of a stored delivery. *)
Definition load_event (meta : webhook_meta) (provider : ScmProvider.t) : ME string NormalizedWebhookEvent :=
  payload ← from_option (json_error_text (wm_payload meta)) (parse_json (wm_payload meta));
  match provider with
  | ScmProvider.Github =>
      mret (normalize_github_event (wm_event_type meta) (wm_provider_delivery_id meta)
              (wm_integration_id meta) payload)
  | ScmProvider.Gitlab =>
      external_id ← from_option "GitLab webhook has no project ID"%string
                      (json_id (Json.pointer ["project"; "id"] payload));
      names ← attempt (fun d => (d, names_of (wm_integration_id meta) external_id d));
      full_name ← from_option
        "no rows returned by a query that expected to return at least one row"%string (head names);
      mret (normalize_gitlab_event (wm_event_type meta) (wm_provider_delivery_id meta)
              (wm_integration_id meta) full_name payload)
  | ScmProvider.LocalGit => throw ("unsupported webhook provider: " +:+ ScmProvider.fmt provider)
  end.

(** [process_claimed_webhook]. *)
Definition process_claimed_webhook (draw : nat -> string) (webhook_id : string) (now_trigger now : Z)
    : ME string unit :=
  row ← attempt (fun d => (d, claimed_delivery webhook_id d));
  match row with
  | None => mret tt
  | Some (meta, provider) =>
      event ← load_event meta provider;
      process_webhook_event draw webhook_id event now_trigger now
  end.

(** ** The worker *)

(** The readings of the clock in one turn of the worker, and the identifiers it
    draws. *)
Record turn := Turn {
  at_claim : Z;
  at_trigger : Z;
  at_end : Z;
  at_error : Z;
  draws : nat -> string;
}.

(** What the worker does with a delivery it claimed: an error is recorded, and
    a failure to record it only logged. *)
Definition handle_claimed (t : turn) (webhook_id : string) : ME sqlx_error unit :=
  catch (process_claimed_webhook (draws t) webhook_id (at_trigger t) (at_end t))
    (fun r => match r with
     | Ok _ => mret tt
     | Err error =>
         catch (record_webhook_processing_error webhook_id error (at_error t)) (fun _ => mret tt)
     end).

(** How the inner loop of [start_webhook_processor] ended: nothing left to
    claim, or the claim failed; [None] is out of fuel. *)
Inductive drained : Set := Idle | ClaimFailed (e : sqlx_error).

Fixpoint drain (fuel : nat) (turns : nat -> turn) (n : nat) (w : world) : world * option drained :=
  match fuel with
  | O => (w, None)
  | S fuel =>
      match claim_next_webhook (at_claim (turns n)) w with
      | (w', Ok None) => (w', Some Idle)
      | (w', Err e) => (w', Some (ClaimFailed e))
      | (w', Ok (Some id)) => drain fuel turns (S n) (fst (handle_claimed (turns n) id w'))
      end
  end.

(** One pass of the recovery task: a failure is logged; it goes on unless the
    worker is gone. *)
Definition recovery_pass (now : Z) (sent : SendOutcome) : ME sqlx_error bool :=
  catch (fail_exhausted_webhook_leases now) (fun _ => mret (is_ok (signal_webhook_processor sent))).

End Processing.
