(* ===== verification/Receipts.v ===== *)
(** * Only the source host's deliveries are stored

    What the two receivers of [Deliveries] do on every path: a delivery is
    stored only when it proves knowledge of a webhook secret in use, at most
    once, and nothing else of the database changes. *)

From S2P Require Import PipelineFile Lowering Prelude Contract RustStr Labels Db Access Runners Wp Accounts SignIn AccountRuns Webhooks Deliveries.

Local Open Scope Z_scope.

(** ** Comparing secrets *)

Lemma append_inj_l p s t : p +:+ s = p +:+ t -> s = t.
Proof. intros H%(f_equal bytes). rewrite !bytes_app in H. by apply app_inv_head, bytes_inj in H. Qed.

Lemma same_bytes a b : str_len a = str_len b -> differing_bits (bytes a) (bytes b) = 0 <-> a = b.
Proof.
  unfold str_len. rewrite <- !length_bytes. intros H%Nat2Z.inj. rewrite differing_bits_zero by done.
  split; [apply bytes_inj|by intros ->].
Qed.

(** The constant-time comparison is equality. *)
Lemma constant_time_eq_spec a b : constant_time_eq a b = true <-> a = b.
Proof.
  unfold constant_time_eq. destruct (Z.eqb_spec (str_len a) (str_len b)) as [H|H]; cbn.
  - rewrite Z.eqb_eq. by apply same_bytes.
  - split; [done|]. by intros ->.
Qed.

Section Receipts.
Context {outside : WebhookOutside}.

(** A signature is accepted exactly when it is the body's under the secret. *)
Lemma verify_github_signature_spec header body secret :
  verify_github_signature header body secret = true <-> header = "sha256=" +:+ hmac_sha256_hex secret body.
Proof.
  unfold verify_github_signature. destruct (strip_prefix _ _) as [expected|] eqn:E.
  - apply strip_prefix_Some in E as ->.
    destruct (Z.eqb_spec (str_len (hmac_sha256_hex secret body)) (str_len expected)) as [H|H]; cbn.
    + rewrite Z.eqb_eq, same_bytes by done. split; [by intros ->|].
      by intros ?%append_inj_l.
    + split; [done|]. by intros ->%append_inj_l.
  - split; [done|]. intros ->.
    assert (Hs : strip_prefix "sha256=" ("sha256=" +:+ hmac_sha256_hex secret body)
                 = Some (hmac_sha256_hex secret body)) by (by apply strip_prefix_Some).
    by rewrite Hs in E.
Qed.

(** ** Secrets in use *)

(** A secret the daemon may accept at [now]: one it read at most a minute ago,
    or one of an active integration. *)
Definition in_use (p : WebhookProvider) (now : Z) (d : db) (s : CachedWebhookSecret) : Prop :=
  (let slot := provider_cache p (webhook_secrets (memory d)) in
   now - refreshed_at slot <= WEBHOOK_SECRET_CACHE_TTL_SECS /\ s ∈ entries slot) \/
  s ∈ decrypted (encrypted_secrets p d).

(** The daemon's memory with the host's slot of the cache read again at [t]. *)
Definition refilled (p : WebhookProvider) (t : Z) (d : db) (m : daemon_memory) : daemon_memory :=
  Memory (pending_auth m) (recovery_capabilities m) (bootstrap_failures m)
    (set_provider_cache p {| refreshed_at := t; entries := decrypted (encrypted_secrets p d) |} (webhook_secrets m))
    (streams m).

(** All a receiver does to the memory: its slot is read again, or not. *)
Definition cache_read (p : WebhookProvider) (now now_refresh : Z) (d : db) (m : daemon_memory) : Prop :=
  m = memory d \/ m = refilled p now d (memory d) \/ m = refilled p now_refresh d (memory d).

Lemma same_memory d : set_memory (memory d) d = d.
Proof. by destruct d. Qed.

Lemma wp_get_secrets p force now d (Q : result api_error (list CachedWebhookSecret) -> db -> Prop) :
  Q (Err (store_error "Internal error")) d ->
  (force = false -> now - refreshed_at (provider_cache p (webhook_secrets (memory d))) <= WEBHOOK_SECRET_CACHE_TTL_SECS ->
     Q (Ok (entries (provider_cache p (webhook_secrets (memory d))))) d) ->
  Q (Ok (decrypted (encrypted_secrets p d))) (set_memory (refilled p now d (memory d)) d) ->
  wp (get_webhook_secrets p force now) d Q.
Proof.
  intros H1 H2 H3. unfold get_webhook_secrets, with_secrets.
  assert (Hread : wp (
      rows ← query "Internal error" (encrypted_secrets p);
      let l := decrypted rows in
      _ ← in_memory (fun m0 => let '(c, a) := (set_provider_cache p {| refreshed_at := now; entries := l |}
             (webhook_secrets m0), tt) in
           (Memory (pending_auth m0) (recovery_capabilities m0) (bootstrap_failures m0) c (streams m0), a));
      mret l) d Q).
  { apply wp_bind, wp_query; [apply H1|]. cbn zeta. apply wp_bind, wp_in_memory. cbn. apply wp_ret, H3. }
  apply wp_bind. destruct force; [by apply wp_ret|].
  apply wp_in_memory. cbn.
  assert (Hsame : set_memory (Memory (pending_auth (memory d)) (recovery_capabilities (memory d))
    (bootstrap_failures (memory d)) (webhook_secrets (memory d)) (streams (memory d))) d = d)
    by (destruct d as [? ? ? ? ? ? ? ? ? ? ? ? ? ? ? ? ? ? ? ? ? ? ? ? ? ? ? ? ? ? ? ? ? ? ? ? m]; by destruct m).
  rewrite Hsame. destruct (Z.leb_spec (now - refreshed_at (provider_cache p (webhook_secrets (memory d))))
                WEBHOOK_SECRET_CACHE_TTL_SECS); [|apply Hread].
  by apply wp_ret, H2.
Qed.

Lemma wp_match_secret p matches now now_refresh d (Q : result api_error (option CachedWebhookSecret) -> db -> Prop) :
  (forall m, cache_read p now now_refresh d m -> Q (Err (store_error "Internal error")) (set_memory m d)) ->
  (forall m, cache_read p now now_refresh d m -> Q (Ok None) (set_memory m d)) ->
  (forall m s, cache_read p now now_refresh d m -> in_use p now d s -> matches s = true -> Q (Ok (Some s)) (set_memory m d)) ->
  wp (match_secret p matches now now_refresh) d Q.
Proof.
  intros H1 H2 H3. unfold match_secret.
  assert (Hsecond : forall m l, m = memory d \/ m = refilled p now d (memory d) ->
    (forall s, s ∈ l -> in_use p now d s) ->
    wp match find matches l with
       | Some s => mret (Some s)
       | None => refreshed ← get_webhook_secrets p true now_refresh; mret (find matches refreshed)
       end (set_memory m d) Q).
  { intros m l Hm Hl.
    assert (Hmr : cache_read p now now_refresh d m) by (destruct Hm as [->| ->]; unfold cache_read; auto).
    assert (Hre : refilled p now_refresh (set_memory m d) m = refilled p now_refresh d (memory d))
      by (destruct Hm as [->| ->]; unfold refilled; by destruct p).
    assert (Hlast : cache_read p now now_refresh d (refilled p now_refresh d (memory d))) by (unfold cache_read; auto).
    destruct (find matches l) as [s|] eqn:E.
    - apply wp_ret. apply find_some in E as [Hin%list_elem_of_In Hs]. by apply H3; [|apply Hl|].
    - apply wp_bind, wp_get_secrets; [by apply H1|done|].
      cbn [memory set_memory]. rewrite Hre. apply wp_ret.
      assert (Hsame : encrypted_secrets p (set_memory m d) = encrypted_secrets p d) by (by destruct p).
      rewrite Hsame. destruct (find matches (decrypted (encrypted_secrets p d))) as [s|] eqn:E2; [|exact (H2 _ Hlast)].
      apply find_some in E2 as [Hin%list_elem_of_In Hs]. exact (H3 _ s Hlast (or_intror Hin) Hs). }
  apply wp_bind, wp_get_secrets.
  - rewrite <- (same_memory d). apply H1. by left.
  - intros _ Ht. rewrite <- (same_memory d) at 2. apply Hsecond; [by left|]. intros s Hs. by left.
  - apply Hsecond; [by right|]. intros s Hs. by right.
Qed.

(** ** The receivers *)

(** Either receiver. *)
Definition receive (p : WebhookProvider) :=
  match p with GithubHook => github_webhook | GitlabHook => gitlab_webhook end.

(** The identifier and the type a delivery is stored under. *)
Definition delivery_key (p : WebhookProvider) (headers : string -> option string) (body integration_id : string)
    : string :=
  match p with
  | GithubHook => default ""%string (headers "x-github-delivery")
  | GitlabHook =>
      let uuid := default ""%string (headers "x-gitlab-event-uuid") in
      if is_empty uuid then
        derived_uuid integration_id (default "unknown"%string (headers "x-gitlab-event")) body
      else uuid
  end.

Definition delivery_event (p : WebhookProvider) (headers : string -> option string) : string :=
  default "unknown"%string
    (headers match p with GithubHook => "x-github-event" | GitlabHook => "x-gitlab-event" end).

(** The request knows the secret: GitHub's header is the HMAC of the body under
    it; GitLab's is the secret, that of the project the payload names. *)
Definition knows (p : WebhookProvider) (headers : string -> option string) (body : string)
    (payload : Json.Value) (s : CachedWebhookSecret) : Prop :=
  match p with
  | GithubHook => headers "x-hub-signature-256" = Some ("sha256=" +:+ hmac_sha256_hex (ws_secret s) body)
  | GitlabHook => headers "x-gitlab-token" = Some (ws_secret s) /\
                  exists id, payload_repository_id payload = Some id /\ ws_repository_external_id s = Some id
  end.

(** The delivery is genuine: it knows a secret in use, the instance is open to
    source hosts, the body is JSON within the size limit. *)
Record genuine (p : WebhookProvider) (headers : string -> option string) (body : string) (now : Z) (d : db)
    (s : CachedWebhookSecret) (payload : Json.Value) : Prop := {
  gn_in_use : in_use p now d s;
  gn_knows : knows p headers body payload s;
  gn_size : str_len body <= MAX_WEBHOOK_BODY_SIZE;
  gn_payload : parse_json body = Some payload;
  gn_remote : runtime_mode_of (access d) = RuntimeMode.Remote;
}.

(** The payload does not say when it was made, or at most five minutes ago. *)
Definition recent (payload : Json.Value) (now : Z) : Prop :=
  forall made, text_at ["created_at"] payload ≫= rfc3339_timestamp = Some made -> now - made <= 5 * 60.

Lemma not_stale payload now : stale_event payload now = false -> recent payload now.
Proof. unfold stale_event, recent. intros H made Hm. rewrite Hm in H. by apply Z.ltb_ge in H. Qed.

(** What a receiver left behind: nothing but its slot of the cache, or the
    delivery too. *)
Inductive receipt (p : WebhookProvider) (headers : string -> option string) (body id : string)
    (sent : SendOutcome) (now_cache now_refresh now : Z) (d : db) : result api_error WebhookResponse -> db -> Prop :=
  | rc_refused e m :
      cache_read p now_cache now_refresh d m ->
      receipt p headers body id sent now_cache now_refresh now d (Err e) (set_memory m d)
  | rc_duplicate m s payload :
      cache_read p now_cache now_refresh d m ->
      genuine p headers body now_cache d s payload ->
      is_Some (find_delivery (ws_integration_id s) (delivery_key p headers body (ws_integration_id s)) d) ->
      sent <> Closed ->
      receipt p headers body id sent now_cache now_refresh now d (Ok {| wr_ok := true; duplicate := Some true |})
        (set_memory m d)
  | rc_stored m s payload r :
      cache_read p now_cache now_refresh d m ->
      genuine p headers body now_cache d s payload ->
      find_delivery (ws_integration_id s) (delivery_key p headers body (ws_integration_id s)) d = None ->
      is_Some (integrations d !! ws_integration_id s) -> webhooks d !! id = None ->
      (p = GitlabHook -> recent payload now) ->
      match sent with
      | Closed => exists e, r = Err e
      | _ => r = Ok {| wr_ok := true; duplicate := None |}
      end ->
      receipt p headers body id sent now_cache now_refresh now d r
        (set_webhooks (<[id := received (ws_integration_id s)
           (delivery_key p headers body (ws_integration_id s)) (delivery_event p headers) (print_json payload) now]>
           (webhooks d)) (set_memory m d)).

Lemma wp_accept p headers body id sent now_cache now_refresh now m s payload d :
  cache_read p now_cache now_refresh d m ->
  genuine p headers body now_cache d s payload ->
  (p = GitlabHook -> recent payload now) ->
  wp (accept id (ws_integration_id s) (delivery_key p headers body (ws_integration_id s))
        (delivery_event p headers) payload sent now) (set_memory m d)
     (receipt p headers body id sent now_cache now_refresh now d).
Proof.
  intros Hm Hg Hst. unfold accept, store_webhook. apply wp_bind, wp_map_err, wp_checked.
  { intros e. cbn. by constructor. }
  intros d' Hd'. cbn. unfold insert_webhook in Hd'. cbn in Hd'.
  destruct (bool_decide (is_Some (webhooks d !! id))) eqn:E1; [done|].
  destruct (bool_decide (is_Some (find_delivery _ _ _))) eqn:E2; [done|]. cbn in Hd'.
  destruct (bool_decide (is_Some (integrations d !! _))) eqn:E3; [|done]. injection Hd' as <-.
  apply bool_decide_eq_false in E1, E2. apply bool_decide_eq_true in E3. apply eq_None_not_Some in E1, E2.
  apply wp_bind. unfold wake_webhook_processor.
  destruct sent; cbn; [apply wp_ret, wp_ret..|apply wp_throw]; econstructor; try done; eexists; reflexivity.
Qed.

Lemma wp_answer_duplicate p headers body id sent now_cache now_refresh now m s payload d :
  cache_read p now_cache now_refresh d m ->
  genuine p headers body now_cache d s payload ->
  is_Some (find_delivery (ws_integration_id s) (delivery_key p headers body (ws_integration_id s)) d) ->
  wp (answer_duplicate sent) (set_memory m d) (receipt p headers body id sent now_cache now_refresh now d).
Proof.
  intros Hm Hg Hf. unfold answer_duplicate, wake_webhook_processor. apply wp_bind.
  destruct sent; cbn; [apply wp_ret, wp_ret..|apply wp_throw; by constructor]; by econstructor.
Qed.

Lemma receive_receipt p headers body id sent now_cache now_refresh now d :
  wp (receive p headers body id sent now_cache now_refresh now) d (receipt p headers body id sent now_cache now_refresh now d).
Proof.
  assert (Hno : forall e, receipt p headers body id sent now_cache now_refresh now d (Err e) d).
  { intros e. rewrite <- (same_memory d) at 2. constructor. by left. }
  destruct p; unfold receive, github_webhook, gitlab_webhook, require_remote_mode.
  - apply wp_bind, wp_guard; [|done]. intros Hsz%negb_true_iff. apply Z.ltb_ge in Hsz.
    apply wp_bind, wp_from_option; [|done]. intros signature Hsig.
    apply wp_bind, wp_from_option; [|done]. intros payload Hp.
    apply wp_bind, wp_bind, wp_load_mode; [done|].
    apply wp_guard; [|done]. intros Hmode%bool_decide_eq_true.
    apply wp_bind, wp_match_secret; [by constructor|intros m Hm; apply wp_bind, wp_throw; by constructor|].
    intros m s Hm Hs Hver. apply verify_github_signature_spec in Hver as ->.
    assert (Hg : genuine GithubHook headers body now_cache d s payload) by (by constructor).
    apply wp_bind, wp_ret. cbn beta iota. apply wp_bind.
    destruct (is_empty (default "" (headers "x-github-delivery"))) eqn:Ee.
    { apply wp_ret. exact (wp_accept GithubHook _ _ _ _ _ _ _ _ _ _ _ Hm Hg ltac:(done)). }
    apply wp_query; [by constructor|].
    destruct (find_delivery _ _ _) eqn:Ef.
    + eapply (wp_answer_duplicate GithubHook); [exact Hm|exact Hg|]. eexists. exact Ef.
    + exact (wp_accept GithubHook _ _ _ _ _ _ _ _ _ _ _ Hm Hg ltac:(done)).
  - apply wp_bind, wp_guard; [|done]. intros Hsz%negb_true_iff. apply Z.ltb_ge in Hsz.
    apply wp_bind, wp_from_option; [|done]. intros token Htok.
    apply wp_bind, wp_from_option; [|done]. intros payload Hp.
    apply wp_bind, wp_bind, wp_load_mode; [done|].
    apply wp_guard; [|done]. intros Hmode%bool_decide_eq_true.
    apply wp_bind, wp_from_option; [|done]. intros repo Hrepo.
    apply wp_bind, wp_match_secret; [by constructor|intros m Hm; apply wp_bind, wp_throw; by constructor|].
    intros m s Hm Hs Hver. unfold gitlab_matches in Hver.
    apply andb_true_iff in Hver as [Hext%bool_decide_eq_true Htk%constant_time_eq_spec]. subst token.
    assert (Hg : genuine GitlabHook headers body now_cache d s payload) by (constructor; cbn; eauto).
    apply wp_bind, wp_ret. cbn beta iota.
    apply wp_bind, wp_from_option; [|by constructor]. intros rid _.
    apply wp_bind, wp_from_option; [|by constructor]. intros name _.
    apply wp_bind, wp_query; [by constructor|].
    destruct (find_delivery _ _ _) eqn:Ef.
    + eapply (wp_answer_duplicate GitlabHook); [exact Hm|exact Hg|]. eexists. exact Ef.
    + apply wp_bind, wp_guard; [|by constructor]. intros Hst%negb_true_iff%not_stale.
      exact (wp_accept GitlabHook _ _ _ _ _ _ _ _ _ _ _ Hm Hg ltac:(done)).
Qed.

(** C22: only the source host's deliveries are stored, and each once.  Whatever a
    request holds and whatever statements fail, a receiver changes nothing but
    its host's slot of the cache of secrets, which it may read again from the
    active integrations, and, at most, adds the delivery: then the request
    proved knowledge of the webhook secret of an active integration (or of one
    read at most 60 seconds before), by the HMAC of the body or, from GitLab,
    by the secret of the very project its payload names; the instance was open
    to source hosts, the body was JSON of at most a mebibyte, a GitLab event
    that says when it was made says at most five minutes ago, and no row had the integration's
    delivery identifier.  It answers that a delivery is a duplicate only when
    such a row exists. *)
Theorem authenticated_deliveries (p : WebhookProvider) (headers : string -> option string) (body id : string)
    (sent : SendOutcome) (now_cache now_refresh now : Z) (w w' : world) (r : result api_error WebhookResponse) :
  receive p headers body id sent now_cache now_refresh now w = (w', r) ->
  receipt p headers body id sent now_cache now_refresh now (w_db w) r (w_db w').
Proof. apply wp_run, receive_receipt. Qed.

End Receipts.
