(* ===== verification/DeliveryQueue.v ===== *)
(** * The queue of deliveries

    Every change to [integration_webhooks] as the rules of one step relation,
    and that the receivers, the worker and the recovery of [Deliveries] follow
    it whatever statements fail.  Then, by rule induction: the queue's invariant,
    that a settled delivery stays as it is, that the worker's loop ends, and that
    every delivery is settled. *)

From stdpp Require Import relations.
From S2P Require Import PipelineFile Lowering Prelude Contract RustStr Labels Triggers Db Access Builds Runners Creation Wp Accounts SignIn AccountRuns Webhooks Deliveries Receipts.

Local Open Scope Z_scope.

Abbreviation table := (gmap string webhook).

(** ** Steps *)

Definition settled (h : webhook) : Prop := wh_status h <> WebhookStatus.Received.

(** The recovery's UPDATE. *)
Definition expire (now : Z) (h : webhook) : webhook :=
  if exhausted now h then set_wh_done WebhookStatus.Failed (Some (lease_error h)) now h else h.

Inductive queue_step : relation table :=
  | qs_receive id integration_id delivery_id event_type payload now m :
      m !! id = None ->
      (forall i h, m !! i = Some h -> same_delivery integration_id delivery_id h = false) ->
      queue_step m (<[id := received integration_id delivery_id event_type payload now]> m)
  | qs_claim id h now m :
      m !! id = Some h -> claimable now h = true -> queue_step m (<[id := set_wh_claimed now h]> m)
  | qs_settle id h status error now m :
      m !! id = Some h -> ~ settled h -> status <> WebhookStatus.Received ->
      queue_step m (<[id := set_wh_done status error now h]> m)
  | qs_retry id h error next m :
      m !! id = Some h -> ~ settled h -> wh_processing_attempts h < MAX_WEBHOOK_PROCESSING_ATTEMPTS ->
      queue_step m (<[id := set_wh_retry error next h]> m)
  | qs_expire now m : queue_step m (expire now <$> m).

Lemma is_received_spec h : is_received h = true <-> ~ settled h.
Proof. unfold is_received, settled. rewrite bool_decide_eq_true. destruct (wh_status h); naive_solver. Qed.

(** ** The handlers' steps *)

Lemma find_delivery_none ig did d :
  find_delivery ig did d = None -> forall i h, webhooks d !! i = Some h -> same_delivery ig did h = false.
Proof.
  unfold find_delivery. intros H i h Hi. destruct (same_delivery ig did h) eqn:E; [|done].
  assert (Hin : (i, h) ∈ filter (fun kv : string * webhook => same_delivery ig did kv.2 = true)
                           (map_to_list (webhooks d)))
    by (apply list_elem_of_filter; split; [done|by apply elem_of_map_to_list]).
  destruct (filter _ (map_to_list (webhooks d))); [by apply elem_of_nil in Hin|done].
Qed.

Lemma next_claimable_some now d id :
  next_claimable now d = Some id -> exists h, webhooks d !! id = Some h /\ claimable now h = true.
Proof.
  unfold next_claimable. destruct (order_by _ _) as [|[i h] l] eqn:E; [done|]. intros [= <-].
  assert (Hin : (i, h) ∈ order_by (fun kv : string * webhook => wm_received_at (wh_meta kv.2))
    (filter (fun kv : string * webhook => claimable now kv.2 = true) (map_to_list (webhooks d))))
    by (rewrite E; apply elem_of_cons; by left).
  apply elem_of_order_by, list_elem_of_filter in Hin as [Hc Hin%elem_of_map_to_list]. eauto.
Qed.

Lemma next_claimable_none now d :
  next_claimable now d = None -> forall id h, webhooks d !! id = Some h -> claimable now h = false.
Proof.
  unfold next_claimable. destruct (order_by _ _) as [|[i x] l] eqn:E; [|done]. intros _ id h Hid.
  destruct (claimable now h) eqn:Ec; [|done].
  assert (Hin : (id, h) ∈ order_by (fun kv : string * webhook => wm_received_at (wh_meta kv.2))
    (filter (fun kv : string * webhook => claimable now kv.2 = true) (map_to_list (webhooks d))))
    by (apply elem_of_order_by, list_elem_of_filter; split; [done|by apply elem_of_map_to_list]).
  rewrite E in Hin. by apply elem_of_nil in Hin.
Qed.

(** What the worker's claim did. *)
Lemma wp_claim now d (Q : result sqlx_error (option string) -> db -> Prop) :
  (forall e, Q (Err e) d) ->
  (next_claimable now d = None -> Q (Ok None) d) ->
  (forall id h, webhooks d !! id = Some h -> claimable now h = true ->
     Q (Ok (Some id)) (set_webhooks (<[id := set_wh_claimed now h]> (webhooks d)) d)) ->
  wp (claim_next_webhook now) d Q.
Proof.
  intros H1 H2 H3. apply wp_sql; [done|]. destruct (next_claimable now d) as [id|] eqn:E; [|by apply H2].
  cbn. apply next_claimable_some in E as (h & Hh & Hc). rewrite (alter_some _ _ _ h) by done. by apply H3.
Qed.

(** An UPDATE of one delivery that is still to be processed. *)
Lemma update_received_spec id f d :
  (exists h, webhooks d !! id = Some h /\ ~ settled h /\
     update_received id f d = set_webhooks (<[id := f h]> (webhooks d)) d) \/
  webhooks (update_received id f d) = webhooks d.
Proof.
  unfold update_received. destruct (webhooks d !! id) as [h|] eqn:E.
  - destruct (is_received h) eqn:Er.
    + left. exists h. split_and!; [done|by apply is_received_spec|].
      rewrite (alter_some _ _ _ h) by done. by rewrite Er.
    + right. cbn. rewrite (alter_some _ _ _ h) by done. rewrite Er. by apply insert_id.
  - right. cbn. apply map_eq. intros j. destruct (decide (j = id)) as [->|].
    + by rewrite lookup_alter_eq, E.
    + by rewrite lookup_alter_ne.
Qed.

(** What processing may do to the delivery it was given. *)
Definition touched (id : string) (m m' : table) : Prop :=
  m' = m \/ exists h, m !! id = Some h /\ ~ settled h /\
    (exists status error now, status <> WebhookStatus.Received /\ m' = <[id := set_wh_done status error now h]> m).

Lemma touched_update id status error now d :
  status <> WebhookStatus.Received ->
  touched id (webhooks d) (webhooks (update_received id (fun h => set_wh_done status (error h) now h) d)).
Proof.
  intros Hs. destruct (update_received_spec id (fun h => set_wh_done status (error h) now h) d)
    as [(h & Hh & Hr & ->)|E]; [|by left].
  right. exists h. split_and!; [done|done|]. by exists status, (error h), now.
Qed.

(** Resolving a workflow's settings only reads. *)
Class WebhookLaws {outside : WebhookOutside} : Prop :=
  binding_reads : forall p pl file wf, keeps (fun d => d) (binding p pl file wf).

Lemma keeps_insert_build b : keeps webhooks (insert_build_with_retry b).
Proof.
  intros w w' r H. apply insert_attempts_result in H. destruct r as [[]|e]; [|by rewrite H|by destruct H as [-> _]].
  destruct H as (d1 & d2 & (_ & _ & _ & ->)%insert_build_row_spec & Hc & ->).
  unfold claim_db, insert_webhook_claim, supersede_db in *. by repeat case_match; simplify_eq.
Qed.

Section Handlers.
Context {outside : WebhookOutside} {laws : WebhookLaws}.

Lemma binding_keeps_queue p pl file wf : keeps webhooks (binding p pl file wf).
Proof. intros w w' r H. by rewrite (binding_reads _ _ _ _ _ _ _ H). Qed.

Lemma keeps_recorded t lp b pg : keeps webhooks (webhook_recorded t lp b pg).
Proof.
  unfold webhook_recorded. apply keeps_bind; [auto with keeps|intros n].
  apply keeps_bind; [by apply keeps_map_err, keeps_sql|auto 10 with keeps].
Qed.

#[local] Hint Resolve keeps_insert_build binding_keeps_queue keeps_recorded : keeps.

(** Triggering builds leaves the queue alone. *)
Lemma trigger_keeps draw now t :
  keeps webhooks (trigger_build_from_webhook lowercase host_file host_changes binding draw now t).
Proof.
  unfold trigger_build_from_webhook. apply keeps_bind; [auto with keeps|intros rows].
  apply keeps_bind; [|auto with keeps]. apply keeps_for_each. intros lp pg. unfold run_project.
  destruct (normalize_optional _); [|auto with keeps].
  apply keeps_bind; [auto with keeps|intros pls]. apply keeps_for_each. intros row pg1. unfold run_pipeline.
  destruct (select_workflows _ _ _ _ _); [auto with keeps..|].
  apply keeps_for_each. intros [wf on] pg2. unfold run_candidate, start_build.
  repeat case_match; auto 12 with keeps.
Qed.

Lemma wp_keeps {E A X} (f : db -> X) (m : ME E A) d (Q : result E A -> db -> Prop) :
  keeps f m -> (forall r d', f d' = f d -> Q r d') -> wp m d Q.
Proof. intros Hk H w w' r <- Hm. by eapply H, Hk. Qed.

Lemma keeps_attempt_read {A} (q : db -> A) : keeps webhooks (attempt (fun d => (d, q d))).
Proof. by apply keeps_map_err, keeps_sql. Qed.

Lemma keeps_emit {E} e : keeps webhooks (emit e : ME E unit).
Proof. by intros w w' r [= <- _]. Qed.

#[local] Hint Resolve keeps_attempt_read keeps_emit : keeps.

Lemma keeps_decision event : keeps webhooks (webhook_trigger_decision event).
Proof.
  unfold webhook_trigger_decision, push_decision, change_decision, registered_target_repository_matches.
  repeat case_match; auto 12 with keeps.
Qed.

Lemma keeps_load meta provider : keeps webhooks (load_event meta provider).
Proof. unfold load_event. apply keeps_bind; [auto with keeps|intros payload]. destruct provider; auto 12 with keeps. Qed.

Lemma wp_settle id status error now d (Q : result string unit -> db -> Prop) :
  status <> WebhookStatus.Received -> (forall r d', touched id (webhooks d) (webhooks d') -> Q r d') ->
  wp (attempt (fun d => (update_received id (fun h => set_wh_done status (error h) now h) d, tt))) d Q.
Proof.
  intros Hs H. apply wp_map_err, wp_sql; [intros e; apply H; by left|]. by apply H, touched_update.
Qed.

Lemma touched_process_event draw id event now_trigger now d :
  wp (process_webhook_event draw id event now_trigger now) d (fun _ d' => touched id (webhooks d) (webhooks d')).
Proof.
  assert (Hmark : forall d0, webhooks d0 = webhooks d ->
    wp (mark_processed id now) d0 (fun _ d' => touched id (webhooks d) (webhooks d'))).
  { intros d0 <-. by apply (wp_settle id WebhookStatus.Processed wh_processing_error). }
  unfold process_webhook_event. apply wp_bind. apply (wp_keeps webhooks); [apply keeps_decision|].
  intros [decision|e] d1 H1; [|by left; rewrite H1]. destruct decision.
  2: { rewrite <- H1. by apply (wp_settle id WebhookStatus.Ignored (fun _ => Some reason)). }
  all: apply wp_bind; apply (wp_keeps webhooks); [unfold spawn_config_file_refresh; repeat case_match; auto with keeps|];
    intros [[]|e] d2 H2; [|by left; rewrite H2, H1].
  2: apply Hmark; by rewrite H2.
  destruct (ne_repository_full_name event) as [repo|]; [|apply Hmark; by rewrite H2].
  apply wp_catch. apply (wp_keeps webhooks); [apply trigger_keeps|]. intros [builds|e] d3 H3.
  { apply Hmark. by rewrite H3, H2. }
  destruct (is_server_error e); [apply wp_throw; left; by rewrite H3, H2|].
  apply wp_catch, wp_sql; [intros e'; apply wp_ret; left; by rewrite H3, H2|]. cbn. apply wp_ret.
  rewrite <- H1, <- H2, <- H3. by apply (touched_update id WebhookStatus.Failed (fun _ => Some (debug_text e))).
Qed.

Lemma touched_process draw id now_trigger now d :
  wp (process_claimed_webhook draw id now_trigger now) d (fun _ d' => touched id (webhooks d) (webhooks d')).
Proof.
  unfold process_claimed_webhook. apply wp_bind. apply (wp_keeps webhooks); [auto with keeps|].
  intros [[[meta provider]|]|e] d1 H1; [|apply wp_ret; by left; rewrite H1|by left; rewrite H1].
  apply wp_bind. apply (wp_keeps webhooks); [apply keeps_load|]. intros [event|e] d2 H2; [|by left; rewrite H2, H1].
  eapply wp_mono; [apply touched_process_event|]. cbn. intros _ d'. by rewrite H2, H1.
Qed.

(** What the worker did to the delivery it claimed: it settled it, put it back
    for a later attempt, or left it under its lease. *)
Definition handled (t : turn) (id : string) (m m' : table) : Prop :=
  touched id m m' \/
  exists h error, m !! id = Some h /\ ~ settled h /\
    wh_processing_attempts h < MAX_WEBHOOK_PROCESSING_ATTEMPTS /\
    m' = <[id := set_wh_retry error (at_error t + WEBHOOK_RECOVERY_INTERVAL_SECS) h]> m.

Lemma handled_claimed t id d :
  wp (handle_claimed t id) d (fun _ d' => handled t id (webhooks d) (webhooks d')).
Proof.
  unfold handle_claimed. apply wp_catch. eapply wp_mono; [apply touched_process|]. cbn.
  intros [[]|error] d1 H1; [apply wp_ret; by left|]. apply wp_catch.
  apply wp_sql; [intros e; apply wp_ret; by left|]. cbn. apply wp_ret.
  set (f := fun h : webhook => _). destruct (update_received_spec id f d1) as [(h & Hh & Hr & ->)|E];
    [|by left; rewrite E].
  cbn. destruct H1 as [H1|(h0 & Hh0 & Hr0 & st & er & now & Hst & H1)].
  - rewrite H1 in *. unfold f. destruct (Z.leb_spec MAX_WEBHOOK_PROCESSING_ATTEMPTS (wh_processing_attempts h)).
    + left. right. exists h. split_and!; [done|done|]. by eexists WebhookStatus.Failed, _, _.
    + right. by exists h, error.
  - rewrite H1 in Hh. rewrite lookup_insert_eq in Hh. injection Hh as <-. by destruct Hr.
Qed.

(** ** Runs of the daemon *)

(** What the daemon does: it receives a request, the worker claims or handles a
    delivery, the recovery passes, or something else runs that does not write
    the queue. *)
Inductive serves : relation world :=
  | sv_request p headers body id sent now_cache now_refresh now w w' r :
      receive p headers body id sent now_cache now_refresh now w = (w', r) -> serves w w'
  | sv_claim now w w' r : claim_next_webhook now w = (w', r) -> serves w w'
  | sv_handle t id w w' r : handle_claimed t id w = (w', r) -> serves w w'
  | sv_recovery now sent w w' r : recovery_pass now sent w = (w', r) -> serves w w'
  | sv_other w w' : webhooks (w_db w') = webhooks (w_db w) -> serves w w'.

Lemma handled_steps t id m m' : handled t id m m' -> rtc queue_step m m'.
Proof.
  intros [[->|(h & Hh & Hr & st & er & now & Hst & ->)]|(h & er & Hh & Hr & Ha & ->)]; [done|..];
    apply rtc_once; by econstructor.
Qed.

Lemma wp_recovery now sent d (Q : result sqlx_error bool -> db -> Prop) :
  (forall r, Q r d) -> (forall r, Q r (set_webhooks (expire now <$> webhooks d) d)) ->
  wp (recovery_pass now sent) d Q.
Proof. intros H1 H2. apply wp_catch, wp_sql; intros; by apply wp_ret. Qed.

(** Every event is a sequence of queue steps. *)
Lemma queue_served_steps w w' : serves w w' -> rtc queue_step (webhooks (w_db w)) (webhooks (w_db w')).
Proof.
  intros [p headers body id sent nc nr now u u' r H|now u u' r H|t id u u' r H|now sent u u' r H|u u' ->]; [..|done].
  - apply (wp_run _ _ _ _ _ (receive_receipt _ _ _ _ _ _ _ _ _)) in H. destruct H as [| |m s payload r _ Hg Hf Hi Hn Hst Hr]; [done..|].
    apply rtc_once. cbn. constructor; [done|]. by apply find_delivery_none.
  - refine (wp_run _ _ _ _ (fun _ d' => rtc queue_step _ (webhooks d')) _ H). apply wp_claim; [done..|]. intros id h Hh Hc. cbn. apply rtc_once. by constructor.
  - exact (handled_steps _ _ _ _ (wp_run _ _ _ _ _ (handled_claimed t id _) H)).
  - refine (wp_run _ _ _ _ (fun _ d' => rtc queue_step _ (webhooks d')) _ H). apply wp_recovery; [done|]. intros _. cbn. apply rtc_once. constructor.
Qed.

End Handlers.

(** ** The invariant *)

(** A delivery to be processed was tried at most five times, has no end, and
    after its fifth attempt is still under the lease of that attempt; a settled
    one has an end, no lease and no next attempt. *)
Record row_ok (h : webhook) : Prop := {
  ro_attempts : 0 <= wh_processing_attempts h <= MAX_WEBHOOK_PROCESSING_ATTEMPTS;
  ro_lease : is_Some (wh_processing_started_at h) -> ~ settled h /\ 1 <= wh_processing_attempts h;
  ro_ended : is_Some (wh_processed_at h) <-> settled h;
  ro_settled : settled h -> wh_next_attempt_at h = None;
  ro_exhausted : ~ settled h -> wh_processing_attempts h = MAX_WEBHOOK_PROCESSING_ATTEMPTS ->
                 is_Some (wh_processing_started_at h);
}.

Record queue_ok (m : table) : Prop := {
  qo_rows : map_Forall (fun _ => row_ok) m;
  qo_unique : forall i j h k, m !! i = Some h -> m !! j = Some k ->
    wm_integration_id (wh_meta h) = wm_integration_id (wh_meta k) ->
    wm_provider_delivery_id (wh_meta h) = wm_provider_delivery_id (wh_meta k) -> i = j;
}.

(** What a step may do to a row: what it is never changes, its attempts only
    grow, and once settled nothing of it changes. *)
Definition row_step (h h' : webhook) : Prop :=
  wh_meta h' = wh_meta h /\ wh_processing_attempts h <= wh_processing_attempts h' /\ (settled h -> h' = h).

#[global] Instance row_step_preorder : PreOrder row_step.
Proof.
  split; [by intros h|]. intros h1 h2 h3 (M1 & A1 & S1) (M2 & A2 & S2). split_and!; [congruence|lia|].
  intros H. pose proof (S1 H) as ->. by apply S2.
Qed.

Lemma row_ok_received ig did et pl now : row_ok (received ig did et pl now).
Proof.
  split; cbn; [unfold MAX_WEBHOOK_PROCESSING_ATTEMPTS; lia|by intros [? [=]]| |by intros []|done].
  split; [by intros [? [=]]|by intros []].
Qed.

Lemma claimable_spec now h :
  claimable now h = true <->
  ~ settled h /\ wh_processing_attempts h < MAX_WEBHOOK_PROCESSING_ATTEMPTS /\
  (forall t, wh_next_attempt_at h = Some t -> t <= now) /\
  (forall t, wh_processing_started_at h = Some t -> t < now - WEBHOOK_PROCESSING_LEASE_SECS).
Proof.
  unfold claimable. rewrite !andb_true_iff, is_received_spec, Z.ltb_lt.
  assert (Hn : forall p o, null_or p o = true <-> forall t, o = Some t -> p t = true)
    by (intros p [t|]; cbn; naive_solver).
  rewrite !Hn. setoid_rewrite Z.leb_le. setoid_rewrite Z.ltb_lt. tauto.
Qed.

Lemma row_ok_claimed now h : row_ok h -> claimable now h = true -> row_ok (set_wh_claimed now h).
Proof.
  intros [Ha Hl He Hn Hx] (Hr & Hlt & _)%claimable_spec. split; cbn; [lia|..].
  - intros _. split; [done|lia].
  - done.
  - intros Hs. by destruct Hr.
  - eauto.
Qed.

Lemma row_ok_done status error now h :
  status <> WebhookStatus.Received -> row_ok h -> row_ok (set_wh_done status error now h).
Proof.
  intros Hs [Ha Hl He Hn Hx]. split; unfold settled; cbn; [lia|by intros [? [=]]| |done|by intros Hc; destruct Hc].
  split; [done|eauto].
Qed.

Lemma row_ok_retry error next h :
  wh_processing_attempts h < MAX_WEBHOOK_PROCESSING_ATTEMPTS -> row_ok h -> row_ok (set_wh_retry error next h).
Proof.
  intros Hlt [Ha Hl He Hn Hx]. split; unfold settled; cbn; [lia|by intros [? [=]]| |by intros []|lia].
  split; [by intros [? [=]]|by intros []].
Qed.

Lemma exhausted_received now h : exhausted now h = true -> ~ settled h.
Proof. unfold exhausted. rewrite !andb_true_iff. by intros [[H%is_received_spec _] _]. Qed.

Lemma row_ok_expire now h : row_ok h -> row_ok (expire now h).
Proof. intros H. unfold expire. destruct (exhausted now h); [by apply row_ok_done|done]. Qed.

Lemma row_step_expire now h : row_step h (expire now h).
Proof.
  unfold expire. destruct (exhausted now h) eqn:E; [|done]. split_and!; cbn; [done|lia|].
  intros Hs. by apply exhausted_received in E.
Qed.

(** One lemma for the steps that write one row. *)
Lemma row_step_insert id h h' (m : table) :
  m !! id = Some h -> row_step h h' ->
  forall i k, m !! i = Some k -> exists k', <[id := h']> m !! i = Some k' /\ row_step k k'.
Proof.
  intros Hh Hs i k Hk. destruct (decide (i = id)) as [->|Hne].
  - rewrite lookup_insert_eq. rewrite Hh in Hk. injection Hk as <-. eauto.
  - rewrite lookup_insert_ne by done. exists k. by split.
Qed.

Lemma step_rows m m' :
  queue_step m m' -> forall i k, m !! i = Some k -> exists k', m' !! i = Some k' /\ row_step k k'.
Proof.
  intros [id ig did et pl now u Hn Hu|id h now u Hh Hc|id h st er now u Hh Hr Hst|id h er next u Hh Hr Ha|now u].
  - intros i k Hk. exists k. split; [|done]. rewrite lookup_insert_ne; [done|]. intros ->. congruence.
  - apply row_step_insert with h; [done|]. apply claimable_spec in Hc as [Hr _].
    split_and!; cbn; [done|lia|by intros].
  - apply row_step_insert with h; [done|]. split_and!; cbn; [done|lia|by intros].
  - apply row_step_insert with h; [done|]. split_and!; cbn; [done|lia|by intros].
  - intros i k Hk. exists (expire now k). rewrite lookup_fmap, Hk. split; [done|apply row_step_expire].
Qed.

Lemma steps_rows m m' :
  rtc queue_step m m' -> forall i k, m !! i = Some k -> exists k', m' !! i = Some k' /\ row_step k k'.
Proof.
  induction 1 as [m|m m1 m2 H1 _ IH]; intros i k Hk; [by exists k|].
  destruct (step_rows _ _ H1 _ _ Hk) as (k1 & Hk1 & S1). destruct (IH _ _ Hk1) as (k2 & Hk2 & S2).
  exists k2. split; [done|by etransitivity].
Qed.

Lemma queue_ok_insert id h h' (m : table) :
  m !! id = Some h -> wh_meta h' = wh_meta h -> row_ok h' -> queue_ok m -> queue_ok (<[id := h']> m).
Proof.
  intros Hh Hm Hok [Hr Hu]. split; [by apply map_Forall_insert_2|].
  assert (Hback : forall i k, <[id := h']> m !! i = Some k -> exists k0, m !! i = Some k0 /\ wh_meta k = wh_meta k0).
  { intros i k Hk. destruct (decide (i = id)) as [->|Hne].
    - rewrite lookup_insert_eq in Hk. injection Hk as <-. eauto.
    - rewrite lookup_insert_ne in Hk by done. eauto. }
  intros i j k1 k2 (a & Ha & Ma)%Hback (b & Hb & Mb)%Hback. rewrite Ma, Mb. by eapply Hu.
Qed.

Lemma same_delivery_false ig did h :
  same_delivery ig did h = false ->
  ~ (wm_integration_id (wh_meta h) = ig /\ wm_provider_delivery_id (wh_meta h) = did).
Proof. unfold same_delivery. intros H [<- <-]. by rewrite !String.eqb_refl in H. Qed.

Lemma queue_step_ok m m' : queue_step m m' -> queue_ok m -> queue_ok m'.
Proof.
  intros [id ig did et pl now u Hn Hd|id h now u Hh Hc|id h st er now u Hh Hr Hst|id h er next u Hh Hr Ha|now u] Hok.
  - destruct Hok as [Hr Hu]. split; [apply map_Forall_insert_2; [apply row_ok_received|done]|].
    intros i j h k [[<- <-]|[_ Hi]]%lookup_insert_Some [[<- <-]|[_ Hj]]%lookup_insert_Some Hig Hdid;
      cbn in *; [done|..].
    + destruct (same_delivery_false _ _ _ (Hd _ _ Hj)); by split.
    + destruct (same_delivery_false _ _ _ (Hd _ _ Hi)); by split.
    + by eapply Hu.
  - apply queue_ok_insert with h; [done|done| |done]. apply row_ok_claimed; [by eapply Hok|done].
  - apply queue_ok_insert with h; [done|done| |done]. apply row_ok_done; [done|by eapply Hok].
  - apply queue_ok_insert with h; [done|done| |done]. apply row_ok_retry; [done|by eapply Hok].
  - destruct Hok as [Hr Hu]. split.
    + intros i k. rewrite lookup_fmap_Some. intros (k0 & <- & Hk0). by eapply row_ok_expire, Hr.
    + intros i j h k. rewrite !lookup_fmap_Some. intros (h0 & <- & Hh0) (k0 & <- & Hk0).
      rewrite !(proj1 (row_step_expire _ _)). by eapply Hu.
Qed.

Lemma queue_steps_ok m m' : rtc queue_step m m' -> queue_ok m -> queue_ok m'.
Proof. induction 1; eauto using queue_step_ok. Qed.

Lemma queue_served_rtc {outside : WebhookOutside} {laws : WebhookLaws} w w' :
  rtc serves w w' -> rtc queue_step (webhooks (w_db w)) (webhooks (w_db w')).
Proof. induction 1 as [w|w w1 w2 H1 _ IH]; [done|]. etransitivity; [by apply queue_served_steps|done]. Qed.

Section QueueTheorems.
Context {outside : WebhookOutside} {laws : WebhookLaws}.

(** C27: the queue's invariant.  However requests, the worker, its recovery and
    the rest of the daemon take turns, and whatever statements fail: every
    delivery has been tried at most five times; a lease is held only on one
    still to be processed, and the fifth attempt leaves no delivery waiting
    without a lease, which nothing would pick up again; exactly the settled ones
    have an end, and no further attempt; and no two rows are the same delivery
    of an integration. *)
Theorem delivery_queue_invariant (w w' : world) :
  rtc serves w w' -> queue_ok (webhooks (w_db w)) -> queue_ok (webhooks (w_db w')).
Proof. intros H%queue_served_rtc. by apply queue_steps_ok. Qed.

(** a settled delivery stays as it is.  Once a delivery is processed, ignored
    or failed no run of the daemon changes its row; until then its attempts
    never go down, and what was received is never altered nor lost. *)
Theorem settled_is_final (w w' : world) (id : string) (h : webhook) :
  rtc serves w w' -> webhooks (w_db w) !! id = Some h ->
  exists h', webhooks (w_db w') !! id = Some h' /\ wh_meta h' = wh_meta h /\
  wh_processing_attempts h <= wh_processing_attempts h' /\ (settled h -> h' = h).
Proof. intros H%queue_served_rtc Hh. exact (steps_rows _ _ H _ _ Hh). Qed.

End QueueTheorems.

(** ** The worker's loop ends *)

(** The attempts a delivery has left, and all of them. *)
Definition attempts_left (h : webhook) : nat :=
  if is_received h then Z.to_nat (MAX_WEBHOOK_PROCESSING_ATTEMPTS - wh_processing_attempts h) else O.

Definition budget (m : table) : nat := sum_list ((fun kv : string * webhook => attempts_left kv.2) <$> map_to_list m).

Lemma budget_insert_new id h (m : table) : m !! id = None -> budget (<[id := h]> m) = (attempts_left h + budget m)%nat.
Proof. intros Hn. unfold budget. by rewrite map_to_list_insert. Qed.

Lemma budget_insert id h h' (m : table) :
  m !! id = Some h -> (budget (<[id := h']> m) + attempts_left h = budget m + attempts_left h')%nat.
Proof.
  intros Hh. rewrite <- (insert_delete_id m id h Hh) at 2. rewrite <- insert_delete_eq.
  rewrite !budget_insert_new by apply lookup_delete_eq. lia.
Qed.

Lemma claimed_attempts_left now h :
  claimable now h = true -> (attempts_left (set_wh_claimed now h) < attempts_left h)%nat.
Proof.
  intros (Hr & Hlt & _)%claimable_spec. apply is_received_spec in Hr. unfold attempts_left.
  change (is_received (set_wh_claimed now h)) with (is_received h). rewrite Hr. cbn. lia.
Qed.

Lemma budget_claimed id now h (m : table) :
  m !! id = Some h -> claimable now h = true -> (budget (<[id := set_wh_claimed now h]> m) < budget m)%nat.
Proof. intros Hh Hc. pose proof (budget_insert id h (set_wh_claimed now h) m Hh). pose proof (claimed_attempts_left _ _ Hc). lia. Qed.

Lemma attempts_left_done status error now h :
  status <> WebhookStatus.Received -> attempts_left (set_wh_done status error now h) = O.
Proof. intros Hs. unfold attempts_left, is_received. cbn. by rewrite bool_decide_false. Qed.

Lemma attempts_left_retry error next h : ~ settled h -> attempts_left (set_wh_retry error next h) = attempts_left h.
Proof. intros Hr%is_received_spec. unfold attempts_left. by rewrite Hr. Qed.

Lemma budget_handled t id m m' : handled t id m m' -> (budget m' <= budget m)%nat.
Proof.
  intros [[->|(h & Hh & Hr & st & er & now & Hst & ->)]|(h & er & Hh & Hr & Ha & ->)]; [done|..].
  - pose proof (budget_insert id h (set_wh_done st er now h) m Hh). rewrite (attempts_left_done st) in H by done. lia.
  - pose proof (budget_insert id h (set_wh_retry er (at_error t + WEBHOOK_RECOVERY_INTERVAL_SECS) h) m Hh).
    rewrite attempts_left_retry in H by done. lia.
Qed.

Lemma budget_bound (m : table) : map_Forall (fun _ => row_ok) m -> (budget m <= 5 * size m)%nat.
Proof.
  induction m as [|id h m Hn IH] using map_ind; [done|].
  intros [Hh Hm]%map_Forall_insert; [|done]. rewrite budget_insert_new, map_size_insert_None by done.
  specialize (IH Hm). pose proof (ro_attempts _ Hh). unfold attempts_left, MAX_WEBHOOK_PROCESSING_ATTEMPTS in *.
  destruct (is_received h); lia.
Qed.

(** ** Every delivery is settled *)

(** The lease of a row has run out at [t] and its next attempt is due. *)
Definition due (t : Z) (h : webhook) : Prop :=
  (forall s, wh_next_attempt_at h = Some s -> s <= t) /\
  (forall s, wh_processing_started_at h = Some s -> s < t - WEBHOOK_PROCESSING_LEASE_SECS).

(** The clock read between [t0] and [t1] in every turn. *)
Definition within (turns : nat -> turn) (t0 t1 : Z) : Prop :=
  forall n, t0 <= at_claim (turns n) <= t1 /\ t0 <= at_error (turns n) <= t1.

(** Meanwhile rows are added, or settled. *)
Definition undisturbed (m m' : table) : Prop :=
  forall id h, m !! id = Some h ->
    exists h', m' !! id = Some h' /\
      (h' = h \/ exists status error now, status <> WebhookStatus.Received /\ h' = set_wh_done status error now h).

(** After a pass of the worker that began at [t0] and ended by [t1]: the row is
    settled, or was tried again, and is due once the lease has run out. *)
Definition tried (k t1 : Z) (h : webhook) : Prop :=
  k < wh_processing_attempts h /\
  (forall s, wh_next_attempt_at h = Some s -> s <= t1 + WEBHOOK_RECOVERY_INTERVAL_SECS) /\
  (forall s, wh_processing_started_at h = Some s -> s <= t1).

(** A row during a pass: settled, tried, or still waiting. *)
Definition passing (k t0 t1 : Z) (meta : webhook_meta) (h : webhook) : Prop :=
  wh_meta h = meta /\ row_ok h /\ (settled h \/ tried k t1 h \/
    k = wh_processing_attempts h /\ k < MAX_WEBHOOK_PROCESSING_ATTEMPTS /\ due t0 h).

Section Passes.
Context {outside : WebhookOutside} {laws : WebhookLaws}.

(** A drain ends within the attempts left, and when it does so for want of work
    nothing is left to claim. *)
Lemma drain_ends fuel turns n w :
  (budget (webhooks (w_db w)) < fuel)%nat ->
  exists w' e, drain fuel turns n w = (w', Some e) /\
    (e = Idle -> exists last, next_claimable (at_claim (turns last)) (w_db w') = None).
Proof.
  revert n w. induction fuel as [|fuel IH]; intros n w Hf; [lia|]. cbn.
  destruct (claim_next_webhook _ w) as [w1 r] eqn:E.
  assert (Hc : match r with
               | Ok (Some id) => (budget (webhooks (w_db w1)) < budget (webhooks (w_db w)))%nat
               | Ok None => next_claimable (at_claim (turns n)) (w_db w1) = None
               | Err _ => True
               end).
  { refine (wp_run _ _ _ _ (fun r d' => match r with
      | Ok (Some id) => (budget (webhooks d') < budget (webhooks (w_db w)))%nat
      | Ok None => next_claimable (at_claim (turns n)) d' = None | Err _ => True end) _ E).
    apply wp_claim; [done..|]. intros id h Hh Hcl. by apply budget_claimed. }
  destruct r as [[id|]|e]; [|by eauto 6|by eexists _, _].
  destruct (handle_claimed (turns n) id w1) as [w2 r2] eqn:E2.
  pose proof (budget_handled _ _ _ _ (wp_run _ _ _ _ _ (handled_claimed (turns n) id _) E2)).
  apply IH. cbn. lia.
Qed.

Lemma passing_claim k t0 t1 meta now h :
  t0 <= now <= t1 -> claimable now h = true -> passing k t0 t1 meta h ->
  passing k t0 t1 meta (set_wh_claimed now h).
Proof.
  intros Ht Hc (Hm & Hok & H). split_and!; [done|by apply row_ok_claimed|].
  apply claimable_spec in Hc as (Hr & Hlt & Hn & _). right. left. destruct H as [H|[H|(-> & _ & Hd)]]; [done|..].
  - destruct H as (H1 & H2 & H3). split_and!; cbn; [lia|done|]. intros s [= <-]. lia.
  - split_and!; cbn; [lia| |intros s [= <-]; lia]. intros s Hs. apply Hn in Hs.
    unfold WEBHOOK_RECOVERY_INTERVAL_SECS. lia.
Qed.

Lemma passing_done k t0 t1 meta status error now h :
  status <> WebhookStatus.Received -> passing k t0 t1 meta h ->
  passing k t0 t1 meta (set_wh_done status error now h).
Proof. intros Hs (Hm & Hok & _). split_and!; [done|by apply row_ok_done|by left]. Qed.

Lemma passing_retry k t0 t1 meta error at_ h :
  at_ <= t1 -> wh_processing_attempts h < MAX_WEBHOOK_PROCESSING_ATTEMPTS -> ~ settled h ->
  k < wh_processing_attempts h -> passing k t0 t1 meta h ->
  passing k t0 t1 meta (set_wh_retry error (at_ + WEBHOOK_RECOVERY_INTERVAL_SECS) h).
Proof.
  intros Ht Hlt Hr Hk (Hm & Hok & H). split_and!; [done|by apply row_ok_retry|]. right. left.
  split_and!; cbn; [lia| |done]. intros s [= <-]. lia.
Qed.

(** The row keeps passing through the claim of some row and what the worker
    then does with it. *)
Lemma passing_turn k t0 t1 meta t id n now (m : table) h h0 m' :
  t0 <= now <= t1 -> at_error t <= t1 ->
  m !! id = Some h -> passing k t0 t1 meta h ->
  m !! n = Some h0 -> claimable now h0 = true -> handled t n (<[n := set_wh_claimed now h0]> m) m' ->
  exists h', m' !! id = Some h' /\ passing k t0 t1 meta h'.
Proof.
  intros Ht He Hh Hp Hn Hc Hd. destruct (decide (n = id)) as [->|Hne].
  - rewrite Hh in Hn. injection Hn as <-. pose proof (passing_claim _ _ _ _ _ _ Ht Hc Hp) as Hp1.
    assert (Hk : ~ settled (set_wh_claimed now h) -> k < wh_processing_attempts (set_wh_claimed now h)).
    { intros Hr. destruct Hp as (_ & _ & [Hs|[(Hk & _)|(-> & _ & _)]]); [done|cbn; lia..]. }
    destruct Hd as [[->|(h1 & Hh1 & Hr & st & er & now' & Hst & ->)]|(h1 & er & Hh1 & Hr & Ha & ->)];
      rewrite lookup_insert_eq in *; simplify_eq; eexists; (split; [done|]).
    + done.
    + by apply passing_done.
    + apply passing_retry; auto.
  - exists h. split; [|done].
    destruct Hd as [[->|(h1 & _ & _ & st & er & now' & _ & ->)]|(h1 & er & _ & _ & _ & ->)];
      rewrite !lookup_insert_ne by done; done.
Qed.

Lemma drain_passes fuel turns t0 t1 k meta id :
  within turns t0 t1 -> forall n w w' e h,
  drain fuel turns n w = (w', Some e) -> webhooks (w_db w) !! id = Some h -> passing k t0 t1 meta h ->
  exists h', webhooks (w_db w') !! id = Some h' /\ passing k t0 t1 meta h' /\
    (e = Idle -> settled h' \/ tried k t1 h').
Proof.
  intros Hw. induction fuel as [|fuel IH]; intros n w w' e h H Hh Hp; [done|]. cbn in H.
  destruct (Hw n) as [Hc He]. destruct (claim_next_webhook _ w) as [w1 r] eqn:E.
  assert (Hcl : match r with
    | Ok (Some i) => exists h0, webhooks (w_db w) !! i = Some h0 /\ claimable (at_claim (turns n)) h0 = true /\
                       webhooks (w_db w1) = <[i := set_wh_claimed (at_claim (turns n)) h0]> (webhooks (w_db w))
    | Ok None => w_db w1 = w_db w /\ next_claimable (at_claim (turns n)) (w_db w) = None
    | Err _ => w_db w1 = w_db w
    end).
  { refine (wp_run _ _ _ _ (fun r d' => match r with
      | Ok (Some i) => exists h0, webhooks (w_db w) !! i = Some h0 /\ claimable (at_claim (turns n)) h0 = true /\
                         webhooks d' = <[i := set_wh_claimed (at_claim (turns n)) h0]> (webhooks (w_db w))
      | Ok None => d' = w_db w /\ next_claimable (at_claim (turns n)) (w_db w) = None
      | Err _ => d' = w_db w end) _ E). apply wp_claim; [done..|]. eauto. }
  destruct r as [[i|]|er].
  - destruct Hcl as (h0 & Hi & Hci & Hm). destruct (handle_claimed (turns n) i w1) as [w2 r2] eqn:E2.
    pose proof (wp_run _ _ _ _ _ (handled_claimed (turns n) i _) E2) as Hd. cbn in Hd. rewrite Hm in Hd.
    destruct (passing_turn k t0 t1 meta (turns n) id _ _ _ _ _ _ Hc ltac:(lia) Hh Hp Hi Hci Hd) as (h2 & Hh2 & Hp2).
    by eapply IH.
  - destruct Hcl as [Hd Hn]. injection H as <- <-. exists h. rewrite Hd. split_and!; [done|done|]. intros _.
    destruct Hp as (_ & _ & [Hs|[Ht|(-> & Hlt & Hdue)]]); [by left|by right|].
    pose proof (next_claimable_none _ _ Hn _ _ Hh) as Hf.
    destruct (decide (wh_status h = WebhookStatus.Received)) as [Hr|Hr]; [|by left]. exfalso.
    assert (Ht : claimable (at_claim (turns n)) h = true); [|congruence].
    apply claimable_spec. destruct Hdue as [H1 H2]. split_and!; [by intros []|done| |].
    + intros s Hs. specialize (H1 s Hs). lia.
    + intros s Hs. specialize (H2 s Hs). lia.
  - injection H as <- <-. exists h. rewrite Hcl. by split_and!.
Qed.

(** [n] passes of the worker, each ending for want of work, the first from [t0]
    and the next once the leases of the one before have run out; the next could
    start at [t]. *)
Inductive passes : nat -> Z -> world -> Z -> world -> Prop :=
  | passes_none t w : passes O t w t w
  | passes_one n t0 t1 t2 t fuel turns first w w1 w2 w' :
      within turns t0 t1 -> drain fuel turns first w = (w1, Some Idle) ->
      undisturbed (webhooks (w_db w1)) (webhooks (w_db w2)) ->
      t1 + WEBHOOK_PROCESSING_LEASE_SECS < t2 -> passes n t2 w2 t w' -> passes (S n) t0 w t w'.

Lemma passes_try n t0 w t w' : passes n t0 w t w' ->
  forall k id h, webhooks (w_db w) !! id = Some h -> row_ok h ->
  (settled h \/ k <= wh_processing_attempts h /\ due t0 h) -> 0 <= k ->
  exists h', webhooks (w_db w') !! id = Some h' /\ wh_meta h' = wh_meta h /\ row_ok h' /\
    (settled h' \/ Z.min MAX_WEBHOOK_PROCESSING_ATTEMPTS (k + Z.of_nat n) <= wh_processing_attempts h' /\ due t h').
Proof.
  induction 1 as [t w|n t0 t1 t2 t fuel turns first w w1 w2 w' Hw Hd Hu Ht _ IH]; intros k id h Hh Hok Hst Hk.
  { exists h. split_and!; [done..|]. destruct Hst as [?|[? ?]]; [by left|]. right. split; [lia|done]. }
  assert (H01 : t0 <= t1) by (destruct (Hw O); lia).
  set (k0 := Z.min k (MAX_WEBHOOK_PROCESSING_ATTEMPTS - 1)).
  assert (Hp : passing k0 t0 t1 (wh_meta h) h).
  { split_and!; [done|done|]. destruct Hst as [Hs|[Ha Hdue]]; [by left|]. right.
    destruct (decide (k0 = wh_processing_attempts h)) as [He|Hne]; [right; split_and!; [done|lia|done]|].
    left. destruct Hdue as [D1 D2]. split_and!; [lia|intros s Hs; specialize (D1 s Hs)|intros s Hs; specialize (D2 s Hs)];
      unfold WEBHOOK_RECOVERY_INTERVAL_SECS, WEBHOOK_PROCESSING_LEASE_SECS in *; lia. }
  destruct (drain_passes _ _ _ _ _ _ _ Hw _ _ _ _ _ Hd Hh Hp) as (h1 & Hh1 & (Hm1 & Hok1 & _) & Hi).
  destruct (Hu _ _ Hh1) as (h2 & Hh2 & Hsame). specialize (Hi eq_refl).
  assert (Hgo : wh_meta h2 = wh_meta h1 /\ row_ok h2 /\ (settled h2 \/
    Z.min MAX_WEBHOOK_PROCESSING_ATTEMPTS (k + 1) <= wh_processing_attempts h2 /\ due t2 h2)).
  { destruct Hsame as [->|(st & er & now & Hst' & ->)];
      [|split_and!; [done|by apply row_ok_done|by left]]. split_and!; [done|done|].
    destruct Hi as [Hs|(Ha & N & L)]; [by left|]. right. split; [lia|].
    split; intros s Hs; [specialize (N s Hs)|specialize (L s Hs)];
      unfold WEBHOOK_RECOVERY_INTERVAL_SECS, WEBHOOK_PROCESSING_LEASE_SECS in *; lia. }
  destruct Hgo as (Hm2 & Hok2 & Hgo).
  destruct (IH (Z.min MAX_WEBHOOK_PROCESSING_ATTEMPTS (k + 1)) id h2 Hh2 Hok2 Hgo) as (h3 & Hh3 & Hm3 & Hok3 & H3);
    [unfold MAX_WEBHOOK_PROCESSING_ATTEMPTS; lia|].
  exists h3. split_and!; [done|congruence|done|]. destruct H3 as [|[H3 Hd3]]; [by left|]. right. split; [lia|done].
Qed.

Lemma expired_settles now w w' n id h :
  fail_exhausted_webhook_leases now w = (w', Ok n) -> webhooks (w_db w) !! id = Some h -> row_ok h ->
  (settled h \/ MAX_WEBHOOK_PROCESSING_ATTEMPTS <= wh_processing_attempts h /\ due now h) ->
  exists h', webhooks (w_db w') !! id = Some h' /\ wh_meta h' = wh_meta h /\ settled h'.
Proof.
  intros [H _]%sql_ok Hh Hok Hst. injection H as <- _. cbn. rewrite lookup_fmap, Hh.
  exists (expire now h). split_and!; [done|apply row_step_expire|]. unfold expire.
  destruct (exhausted now h) eqn:E; [done|]. destruct Hst as [Hs|[Ha [_ Hl]]]; [done|]. intros Hr.
  assert (Hns : ~ settled h) by (by intros []).
  destruct (ro_exhausted _ Hok Hns) as [s Hs]; [destruct Hok as [? _ _ _ _]; lia|]. specialize (Hl _ Hs).
  unfold exhausted in E. rewrite (proj2 (is_received_spec h) Hns), Hs in E.
  rewrite (proj2 (Z.leb_le _ _) Ha), (proj2 (Z.ltb_lt _ _) Hl) in E. done.
Qed.

(** the worker's loop ends.  In a queue that keeps its invariant, one run of
    the worker's inner loop takes at most five turns for each delivery, whatever
    the clock reads and whatever statements fail; when it stops for want of
    work, no delivery could be claimed. *)
Theorem worker_loop_ends (fuel : nat) (turns : nat -> turn) (n : nat) (w : world) :
  queue_ok (webhooks (w_db w)) -> (5 * size (webhooks (w_db w)) < fuel)%nat ->
  exists w' e, drain fuel turns n w = (w', Some e) /\
    (e = Idle -> exists last, forall id h, webhooks (w_db w') !! id = Some h ->
       claimable (at_claim (turns last)) h = false).
Proof.
  intros Hok Hf. destruct (drain_ends fuel turns n w) as (w' & e & H & Hi).
  - pose proof (budget_bound _ (qo_rows _ Hok)). lia.
  - exists w', e. split; [done|]. intros He. destruct (Hi He) as [last Hl]. exists last.
    exact (next_claimable_none _ _ Hl).
Qed.

(** C28: every delivery is settled.  A stored delivery whose lease has run out is
    processed, ignored or failed once the worker has emptied the queue five
    times, each time after the leases of the time before ran out, and the
    recovery has then passed: whatever statements of the processing fail,
    whatever it finds, and whatever arrives or is settled in between. *)
Theorem deliveries_settle (t0 t : Z) (w w1 w' : world) (id : string) (h : webhook) (n : Z) :
  webhooks (w_db w) !! id = Some h -> row_ok h -> due t0 h ->
  passes 5 t0 w t w1 -> fail_exhausted_webhook_leases t w1 = (w', Ok n) ->
  exists h', webhooks (w_db w') !! id = Some h' /\ wh_meta h' = wh_meta h /\ settled h'.
Proof.
  intros Hh Hok Hd Hp He.
  destruct (passes_try _ _ _ _ _ Hp 0 id h Hh Hok) as (h1 & Hh1 & Hm1 & Hok1 & H1); [|done|].
  { right. split; [apply Hok|done]. }
  destruct (expired_settles _ _ _ _ _ _ He Hh1 Hok1 H1) as (h2 & Hh2 & Hm2 & Hs2).
  exists h2. split_and!; [done|congruence|done].
Qed.

End Passes.
