(* ===== verification/DeliverySafety.v ===== *)
(** * What a delivery may build

    The revision trust policy of [webhook_trigger_decision] from end to end:
    processing a stored delivery creates builds only of the revision it names,
    only in projects linked to its repository, and never of a pull or merge
    request whose source is another repository. *)

From stdpp Require Import relations.
From S2P Require Import PipelineFile Lowering Prelude Contract RustStr Labels Triggers Db Access Builds Runners Creation Wp Accounts SignIn AccountRuns Webhooks Deliveries Receipts DeliveryQueue.

Local Open Scope Z_scope.

(** ** Runs along a relation *)

(** However [m] ends, [R] relates the databases before and after. *)
Definition along {E A} (R : relation db) (m : ME E A) : Prop :=
  forall w w' r, m w = (w', r) -> R (w_db w) (w_db w').

Section Along.
Context (R : relation db) `{!PreOrder R}.

Lemma along_keeps {E A} (m : ME E A) : keeps (fun d => d) m -> along R m.
Proof. intros H w w' r Hm. by rewrite (H _ _ _ Hm). Qed.

Lemma along_bind {E A B} (m : ME E A) (k : A -> ME E B) :
  along R m -> (forall a, along R (k a)) -> along R (m ≫= k).
Proof.
  intros Hm Hk w w' r. unfold mbind, M_bind. destruct (m w) as [w1 [a|e]] eqn:E1.
  - intros H. etransitivity; [by eapply Hm|by eapply Hk].
  - intros [= <- _]. by eapply Hm.
Qed.

Lemma along_catch {E F A B} (m : ME E A) (k : result E A -> ME F B) :
  along R m -> (forall r, along R (k r)) -> along R (catch m k).
Proof.
  intros Hm Hk w w' r. unfold catch. destruct (m w) as [w1 x] eqn:E1. intros H.
  etransitivity; [by eapply Hm|by eapply Hk].
Qed.

Lemma along_for_each {E A B} (f : A -> B -> ME E B) l :
  (forall x acc, x ∈ l -> along R (f x acc)) -> forall acc, along R (for_each f l acc).
Proof.
  induction l as [|x l IH]; intros Hf acc; cbn; [by apply along_keeps, keeps_ret|].
  apply along_bind; [apply Hf; by left|]. intros acc'. apply IH. intros y acc'' Hy. apply Hf. by right.
Qed.

Lemma along_ret {E A} (a : A) : along R (mret a : ME E A).
Proof. by apply along_keeps, keeps_ret. Qed.

End Along.

(** ** The builds a delivery creates *)

(** [row] is a build of the delivery: its revision, in a project linked to its
    repository in [d0]. *)
Definition build_of (t : WebhookBuildTrigger) (d0 : db) (row : build) : Prop :=
  (exists lp, lp ∈ linked_projects (wt_integration_id t) (wt_repo_full_name t) d0 /\
     b_project_id row = lp_project_id lp) /\
  bm_webhook_id (b_meta row) = Some (wt_webhook_id t) /\ bm_commit_sha (b_meta row) = wt_commit_sha t.

(** Builds keep what they are, and new ones are the delivery's. *)
Definition only_builds_of (t : WebhookBuildTrigger) (d0 : db) : relation db := fun d d' =>
  (forall id b, builds d !! id = Some b -> exists b', builds d' !! id = Some b' /\ b_meta b' = b_meta b) /\
  (forall id b, builds d !! id = None -> builds d' !! id = Some b -> build_of t d0 b).

#[global] Instance only_builds_of_preorder t d0 : PreOrder (only_builds_of t d0).
Proof.
  split; [intros d; split; [eauto|by intros; simplify_eq]|].
  intros d1 d2 d3 [K1 N1] [K2 N2]. split.
  - intros id b (b2 & H2 & M2)%K1. destruct (K2 _ _ H2) as (b3 & H3 & M3). exists b3. split; [done|congruence].
  - intros id b H1 H3. destruct (builds d2 !! id) as [b2|] eqn:H2; [|by eapply N2].
    destruct (K2 _ _ H2) as (b3 & H3' & M3). rewrite H3 in H3'. injection H3' as <-.
    destruct (N1 _ _ H1 H2) as ((lp & Hl & Hp) & Hw & Hc). unfold build_of, b_project_id. rewrite M3. eauto.
Qed.

Lemma only_builds_same t d0 d d' : builds d' = builds d -> only_builds_of t d0 d d'.
Proof. intros H. unfold only_builds_of. rewrite H. split; [eauto|by intros; simplify_eq]. Qed.

Lemma along_keeps_builds {E A} t d0 (m : ME E A) : keeps builds m -> along (only_builds_of t d0) m.
Proof. intros H w w' r Hm. by eapply only_builds_same, H. Qed.

Section Trusted.
Context {outside : WebhookOutside} {laws : WebhookLaws}.

Lemma along_insert t d0 lp pid url pl wf bd id now :
  lp ∈ linked_projects (wt_integration_id t) (wt_repo_full_name t) d0 ->
  along (only_builds_of t d0) (insert_build_with_retry (webhook_binds lowercase t lp pid url pl wf bd id now)).
Proof.
  intros Hl w w' r H. apply insert_attempts_result in H.
  destruct r as [[]|e]; [|by apply only_builds_same; rewrite H|by apply only_builds_same; destruct H as [-> _]].
  apply insert_effect_builds in H as (Hn & Hb & _). unfold after_insert in Hb.
  change (bi_build_id (webhook_binds lowercase t lp pid url pl wf bd id now)) with id in *. split.
  - intros i b Hi. rewrite Hb. destruct (decide (i = id)) as [->|Hne]; [congruence|].
    rewrite lookup_insert_ne, lookup_fmap, Hi by done. cbn [fmap option_fmap option_map]. eexists. split; [done|].
    case_match; [|done]. unfold withdraw_pending_approval. by case_match.
  - intros i b Hi. rewrite Hb. destruct (decide (i = id)) as [->|Hne].
    + rewrite lookup_insert_eq. intros [= <-]. split; [by exists lp|]. done.
    + by rewrite lookup_insert_ne, lookup_fmap, Hi.
Qed.

Lemma along_recorded t d0 t' lp b pg : along (only_builds_of t d0) (webhook_recorded t' lp b pg).
Proof.
  apply along_keeps_builds. unfold webhook_recorded. apply keeps_bind; [auto with keeps|intros n].
  apply keeps_bind; [apply keeps_record|auto 10 with keeps].
Qed.

(** Whatever its end, triggering creates builds of the delivery alone. *)
Lemma trigger_along draw now t w w' r :
  trigger_build_from_webhook lowercase host_file host_changes binding draw now t w = (w', r) ->
  only_builds_of t (w_db w) (w_db w) (w_db w').
Proof.
  unfold trigger_build_from_webhook. intros H. set (d0 := w_db w).
  apply (bind_keeps (fun d => d)) in H as [[Hd _]|(w1 & rows & E1 & Hd & H)]; [| |auto with keeps].
  { apply only_builds_same. by rewrite Hd. }
  cbn in Hd. apply query_ok in E1 as (Hrows & _ & _).
  enough (Ha : along (only_builds_of t d0)
    (pg ← for_each (run_project lowercase host_file host_changes binding draw now t) rows (Progress [] None None 0);
     match pg_deferred pg with Some e => throw e | None => mret (pg_created pg) end)).
  { unfold d0 at 2. rewrite <- Hd. apply (Ha w1 w' r). exact H. }
  subst rows. apply along_bind; [apply _| |intros pg; apply along_keeps_builds; auto with keeps].
  apply along_for_each; [apply _|]. intros lp pg Hlp. unfold run_project.
  destruct (normalize_optional _) as [url|]; [|apply along_ret, _].
  apply along_bind; [apply _|apply along_keeps_builds; auto with keeps|intros pls].
  apply along_for_each; [apply _|]. intros [pid pl] pg1 _. unfold run_pipeline.
  destruct (select_workflows _ _ _ _ _); [apply along_ret, _..|].
  apply along_for_each; [apply _|]. intros [wf on] pg2 _.
  assert (Hs : forall pg3, along (only_builds_of t d0)
    (start_build lowercase host_file binding draw now t lp url pid pl wf pg3)).
  { intros pg3. unfold start_build. apply along_catch; [apply _| |intros bnd].
    - apply along_keeps; [apply _|apply binding_reads].
    - apply along_bind; [apply _|by apply along_insert|]. intros []; [apply along_recorded|apply along_ret, _]. }
  unfold run_candidate. repeat case_match; first [apply Hs|apply along_ret, _].
Qed.

Lemma wp_trigger draw now t d :
  wp (trigger_build_from_webhook lowercase host_file host_changes binding draw now t) d
    (fun _ d' => only_builds_of t d d d').
Proof. intros w w' r <- H. by eapply trigger_along. Qed.

(** ** The policy *)

(** A repository of the integration has this identifier and this name. *)
Definition is_registered (integration_id external_id full_name : string) (d : db) : Prop :=
  exists rid rp, repositories d !! rid = Some rp /\ installations d !! rp_installation_id rp = Some integration_id /\
    rp_external_id rp = external_id /\ rp_full_name rp = full_name.

Lemma registered_spec ig ext name d : registered ig ext name d = true -> is_registered ig ext name d.
Proof.
  unfold registered. rewrite existsb_exists. intros ([rid rp] & Hin%list_elem_of_In%elem_of_map_to_list & H).
  apply andb_true_iff in H as [[Hi%bool_decide_eq_true He%String.eqb_eq]%andb_true_iff Hn%String.eqb_eq].
  by exists rid, rp.
Qed.

(** What the policy accepts of a normalized event. *)
Inductive trusted_event (e : NormalizedWebhookEvent) (d : db) : Prop :=
  | te_push :
      ne_event_type e ∈ ["push"; "Push Hook"; "Tag Push Hook"]%string ->
      is_ref_deletion (ne_payload e) = false -> none_or_empty (ne_commit_sha e) = false ->
      (forall ext name, ne_repository_external_id e = Some ext -> ne_repository_full_name e = Some name ->
         is_registered (ne_integration_id e) ext name d) -> trusted_event e d
  | te_change ext name :
      (ne_event_type e = "pull_request" /\ is_action ["opened"; "reopened"; "synchronize"]%string (ne_action e) = true
       \/ ne_event_type e = "Merge Request Hook" /\ revision_action e = true) ->
      none_or_empty (ne_commit_sha e) = false ->
      ne_repository_external_id e = Some ext -> ne_source_repository_external_id e = Some ext ->
      ne_target_repository_external_id e = Some ext -> ne_repository_full_name e = Some name ->
      is_registered (ne_integration_id e) ext name d -> trusted_event e d.

Lemma wp_attempt_read {A} (q : db -> A) d (Q : result string A -> db -> Prop) :
  (forall e, Q (Err e) d) -> Q (Ok (q d)) d -> wp (attempt (fun d => (d, q d))) d Q.
Proof. intros H1 H2. apply wp_map_err, wp_sql; [intros e; apply H1|done]. Qed.

Lemma wp_push_decision e d (Q : result string WebhookTriggerDecision -> db -> Prop) :
  ne_event_type e ∈ ["push"; "Push Hook"; "Tag Push Hook"]%string ->
  (forall x, Q (Err x) d) -> (forall x, (x = Trigger -> trusted_event e d) -> Q (Ok x) d) -> wp (push_decision e) d Q.
Proof.
  intros Ht H1 H2. unfold push_decision.
  destruct (is_ref_deletion _) eqn:Ed; [by apply wp_ret, H2|].
  destruct (none_or_empty _) eqn:Es; [by apply wp_ret, H2|].
  destruct (ne_repository_external_id e) as [ext|] eqn:E1, (ne_repository_full_name e) as [name|] eqn:E2.
  2-4: apply wp_ret, H2; intros _; apply te_push; [done..|intros; congruence].
  apply wp_bind, wp_attempt_read; [done|]. apply wp_ret, H2.
  destruct (registered _ _ _ _) eqn:Er; [|done]. intros _. apply te_push; [done..|].
  rewrite E1, E2. intros x y [= <-] [= <-]. by apply registered_spec.
Qed.

Lemma wp_change_decision kind e d (Q : result string WebhookTriggerDecision -> db -> Prop) :
  (ne_event_type e = "pull_request" /\ is_action ["opened"; "reopened"; "synchronize"]%string (ne_action e) = true
   \/ ne_event_type e = "Merge Request Hook" /\ revision_action e = true) ->
  (forall x, Q (Err x) d) -> (forall x, (x = Trigger -> trusted_event e d) -> Q (Ok x) d) ->
  wp (change_decision kind e) d Q.
Proof.
  intros Ht H1 H2. unfold change_decision.
  destruct (_ || _) eqn:Ei; [by apply wp_ret, H2|]. apply orb_false_iff in Ei as [_ Es].
  destruct (ne_repository_external_id e) as [ext|] eqn:E1; [|by apply wp_ret, H2].
  destruct (ne_source_repository_external_id e) as [src|] eqn:E2; [|by apply wp_ret, H2].
  destruct (ne_target_repository_external_id e) as [tgt|] eqn:E3; [|by apply wp_ret, H2].
  destruct (String.eqb_spec ext tgt) as [->|]; cbn; [|by apply wp_ret, H2].
  destruct (String.eqb_spec src tgt) as [->|]; cbn; [|by apply wp_ret, H2].
  destruct (ne_repository_full_name e) as [name|] eqn:E4; [|by apply wp_ret, H2].
  apply wp_bind, wp_attempt_read; [done|]. apply wp_ret, H2.
  destruct (registered _ _ _ _) eqn:Er; [|done]. intros _. apply te_change with tgt name; try done.
  by apply registered_spec.
Qed.

Lemma wp_decision e d (Q : result string WebhookTriggerDecision -> db -> Prop) :
  (forall x, Q (Err x) d) -> (forall x, (x = Trigger -> trusted_event e d) -> Q (Ok x) d) ->
  wp (webhook_trigger_decision e) d Q.
Proof.
  intros H1 H2. unfold webhook_trigger_decision.
  destruct (String.eqb (ne_event_type e) "push" || String.eqb (ne_event_type e) "Push Hook"
            || String.eqb (ne_event_type e) "Tag Push Hook") eqn:Ep.
  { apply wp_push_decision; [|done..]. rewrite !orb_true_iff, !String.eqb_eq in Ep. set_solver. }
  destruct (String.eqb_spec (ne_event_type e) "pull_request").
  { destruct (is_action _ _) eqn:Ea; [apply wp_change_decision; auto|by apply wp_ret, H2]. }
  destruct (String.eqb_spec (ne_event_type e) "Merge Request Hook").
  { destruct (revision_action e) eqn:Ea; [apply wp_change_decision; auto|by apply wp_ret, H2]. }
  by apply wp_ret, H2.
Qed.

(** What the payload of a delivery must say for its revision to be built. *)
Inductive trusted_payload (event_type integration_id : string) (payload : Json.Value) (d : db)
    : ScmProvider.t -> Prop :=
  | tp_github_push :
      event_type = "push" -> is_ref_deletion payload = false -> none_or_empty (text_at ["after"] payload) = false ->
      (forall ext name, json_id (Json.pointer ["repository"; "id"] payload) = Some ext ->
         text_at ["repository"; "full_name"] payload = Some name -> is_registered integration_id ext name d) ->
      trusted_payload event_type integration_id payload d ScmProvider.Github
  | tp_pull_request ext name :
      event_type = "pull_request" ->
      is_action ["opened"; "reopened"; "synchronize"]%string (json_non_empty_string (Json.get "action" payload)) = true ->
      json_id (Json.pointer ["repository"; "id"] payload) = Some ext ->
      json_id (Json.pointer ["pull_request"; "head"; "repo"; "id"] payload) = Some ext ->
      json_id (Json.pointer ["pull_request"; "base"; "repo"; "id"] payload) = Some ext ->
      text_at ["repository"; "full_name"] payload = Some name -> is_registered integration_id ext name d ->
      trusted_payload event_type integration_id payload d ScmProvider.Github
  | tp_gitlab_push ext name :
      event_type ∈ ["Push Hook"; "Tag Push Hook"]%string -> is_ref_deletion payload = false ->
      none_or_empty (text_at ["checkout_sha"] payload) = false ->
      json_id (Json.pointer ["project"; "id"] payload) = Some ext -> is_registered integration_id ext name d ->
      trusted_payload event_type integration_id payload d ScmProvider.Gitlab
  | tp_merge_request ext name :
      event_type = "Merge Request Hook" ->
      json_id (Json.pointer ["project"; "id"] payload) = Some ext ->
      json_id (Json.pointer ["object_attributes"; "source_project_id"] payload) = Some ext ->
      json_id (Json.pointer ["object_attributes"; "target_project_id"] payload) = Some ext ->
      is_registered integration_id ext name d ->
      trusted_payload event_type integration_id payload d ScmProvider.Gitlab.

(** The event of a stored delivery with this payload: GitLab's repository has the
    name registered for the identifier in the payload. *)
Inductive loads (d : db) (meta : webhook_meta) (payload : Json.Value)
    : ScmProvider.t -> NormalizedWebhookEvent -> Prop :=
  | ld_github :
      loads d meta payload ScmProvider.Github
        (normalize_github_event (wm_event_type meta) (wm_provider_delivery_id meta) (wm_integration_id meta) payload)
  | ld_gitlab ext name :
      json_id (Json.pointer ["project"; "id"] payload) = Some ext ->
      is_registered (wm_integration_id meta) ext name d ->
      loads d meta payload ScmProvider.Gitlab
        (normalize_gitlab_event (wm_event_type meta) (wm_provider_delivery_id meta) (wm_integration_id meta) name payload).

Lemma names_registered ig ext name d : head (names_of ig ext d) = Some name -> is_registered ig ext name d.
Proof.
  intros H. assert (Hin : name ∈ names_of ig ext d) by (destruct (names_of ig ext d); [done|]; injection H as ->; by left).
  apply list_elem_of_omap in Hin as ([rid rp] & Hin%elem_of_map_to_list & Hr). cbn in Hr.
  destruct (bool_decide _) eqn:Hi; cbn in Hr; [|done]. apply bool_decide_eq_true in Hi.
  destruct (String.eqb_spec (rp_external_id rp) ext); [|done]. injection Hr as <-. by exists rid, rp.
Qed.

Lemma wp_load_event meta provider d (Q : result string NormalizedWebhookEvent -> db -> Prop) :
  (forall x, Q (Err x) d) ->
  (forall payload e, parse_json (wm_payload meta) = Some payload -> loads d meta payload provider e -> Q (Ok e) d) ->
  wp (load_event meta provider) d Q.
Proof.
  intros H1 H2. unfold load_event. apply wp_bind, wp_from_option; [|done]. intros payload Hp. destruct provider.
  - apply wp_ret. eapply H2; [done|constructor].
  - apply wp_bind, wp_from_option; [|done]. intros ext Hext. apply wp_bind, wp_attempt_read; [done|].
    apply wp_bind, wp_from_option; [|done]. intros name Hn. apply wp_ret. eapply H2; [done|].
    by econstructor; [|apply names_registered].
  - apply wp_throw, H1.
Qed.

(** An event kind of the other host never passes the policy. *)
Lemma trusted_loaded meta payload provider e d :
  loads d meta payload provider e -> trusted_event e d ->
  trusted_payload (wm_event_type meta) (wm_integration_id meta) payload d provider.
Proof.
  intros [|ext name Hext Hnamed] [Ht Hdel Hsha Hreg|ext' name' Ht Hsha Hr Hs Hg Hn Hreg]; cbn in *.
  - destruct (String.eqb_spec (wm_event_type meta) "push") as [Hpush|]; [by apply tp_github_push|].
    destruct (String.eqb_spec (wm_event_type meta) "pull_request") as [Hpull|]; cbn in Hsha; [|done].
    rewrite Hpull in Ht. set_solver.
  - destruct Ht as [[Het Ha]|[Het Ha]]; rewrite Het in *; cbn in *; [|done].
    by apply tp_pull_request with ext' name'.
  - destruct (decide (wm_event_type meta ∈ ["Push Hook"; "Tag Push Hook"]%string)) as [Hin|Hnot].
    + apply tp_gitlab_push with ext name; [done|done| |done|by apply Hreg].
      destruct (String.eqb_spec (wm_event_type meta) "Push Hook"),
        (String.eqb_spec (wm_event_type meta) "Tag Push Hook"); try done. set_solver.
    + assert (He : wm_event_type meta = "push") by set_solver. rewrite He in Hsha. done.
  - destruct Ht as [[Het Ha]|[Het Ha]]; rewrite Het in *; cbn in *; [done|].
    rewrite Hext in Hr. injection Hr as <-. injection Hn as <-. by apply tp_merge_request with ext name.
Qed.

(** Only the builds of a trusted event. *)
Definition built (id : string) (e : NormalizedWebhookEvent) (d d' : db) : Prop :=
  builds d' = builds d \/
  trusted_event e d /\ exists repo, ne_repository_full_name e = Some repo /\
    forall b row, builds d !! b = None -> builds d' !! b = Some row -> build_of (build_trigger id repo e) d row.

Lemma built_process_event draw id e now_trigger now d :
  wp (process_webhook_event draw id e now_trigger now) d (fun _ d' => built id e d d').
Proof.
  assert (Hmark : forall d0, built id e d d0 -> wp (mark_processed id now) d0 (fun _ d' => built id e d d')).
  { intros d0 H. by apply wp_map_err, wp_sql. }
  unfold process_webhook_event. apply wp_bind, wp_decision; [by left|]. intros decision Ht.
  destruct decision; [|apply wp_map_err, wp_sql; by left|].
  all: apply wp_bind; apply (wp_keeps (fun d => d));
    [unfold spawn_config_file_refresh; repeat case_match; auto with keeps; by intros ? ? ? [= <- _]|];
    cbn; intros [[]|x] d1 ->; [|by left].
  2: apply Hmark; by left.
  destruct (ne_repository_full_name e) as [repo|] eqn:En; [|apply Hmark; by left].
  apply wp_catch. eapply wp_mono; [apply wp_trigger|]. cbn. intros r d1 [_ Hnew].
  assert (Hb : built id e d d1) by (right; split; [by apply Ht|]; eauto).
  destruct r as [l|x]; [by apply Hmark|]. destruct (is_server_error x); [by apply wp_throw|].
  apply wp_catch, wp_sql; intros; by apply wp_ret.
Qed.

Lemma built_process_claimed draw id now_trigger now d :
  wp (process_claimed_webhook draw id now_trigger now) d (fun _ d' =>
    builds d' = builds d \/
    exists h i payload event repo,
      webhooks d !! id = Some h /\ ~ settled h /\ integrations d !! wm_integration_id (wh_meta h) = Some i /\
      parse_json (wm_payload (wh_meta h)) = Some payload /\ loads d (wh_meta h) payload (ig_provider i) event /\
      trusted_payload (wm_event_type (wh_meta h)) (wm_integration_id (wh_meta h)) payload d (ig_provider i) /\
      ne_repository_full_name event = Some repo /\
      forall b row, builds d !! b = None -> builds d' !! b = Some row ->
        build_of (build_trigger id repo event) d row).
Proof.
  unfold process_claimed_webhook. apply wp_bind, wp_attempt_read; [by left|].
  destruct (claimed_delivery id d) as [[meta provider]|] eqn:Ec; [|apply wp_ret; by left].
  unfold claimed_delivery in Ec. destruct (webhooks d !! id) as [h|] eqn:Eh; cbn in Ec; [|done].
  destruct (integrations d !! _) as [i|] eqn:Ei; cbn in Ec; [|done].
  destruct (is_received h) eqn:Er; cbn in Ec; [|done]. case_bool_decide; [|done]. injection Ec as <- <-.
  apply wp_bind, wp_load_event; [by left|]. intros payload event Hp Hl.
  eapply wp_mono; [apply built_process_event|]. cbn. intros _ d' [Hb|(Ht & repo & Hr & Hn)]; [by left|].
  right. exists h, i, payload, event, repo. pose proof (trusted_loaded _ _ _ _ _ Hl Ht).
  split_and!; [done|by apply is_received_spec|done..].
Qed.

(** C21: only trusted revisions are built.  Whatever the payload of a stored
    delivery says and whatever statements fail, processing it changes no build
    unless the payload names a revision the policy trusts: a push, not of a
    deletion, whose repository, when it is identified, is one registered with
    the integration under that name; or a pull or merge request that brings a
    new revision, whose source repository is its target, the one registered:
    never one from a fork.  The builds then created are of the revision and the
    delivery, in projects linked to that repository: by the name in a payload of
    GitHub, which must be the registered one of the identifier there, and by the
    name registered for the project's identifier in one of GitLab. *)
Theorem trusted_revisions_only (draw : nat -> string) (id : string) (now_trigger now : Z) (w w' : world)
    (r : result string unit) :
  process_claimed_webhook draw id now_trigger now w = (w', r) ->
  builds (w_db w') = builds (w_db w) \/
  exists h i payload event repo,
    webhooks (w_db w) !! id = Some h /\ ~ settled h /\
    integrations (w_db w) !! wm_integration_id (wh_meta h) = Some i /\
    parse_json (wm_payload (wh_meta h)) = Some payload /\ loads (w_db w) (wh_meta h) payload (ig_provider i) event /\
    trusted_payload (wm_event_type (wh_meta h)) (wm_integration_id (wh_meta h)) payload (w_db w) (ig_provider i) /\
    ne_repository_full_name event = Some repo /\
    forall b row, builds (w_db w) !! b = None -> builds (w_db w') !! b = Some row ->
      build_of (build_trigger id repo event) (w_db w) row.
Proof. apply (wp_run _ _ _ _ _ (built_process_claimed draw id now_trigger now _)). Qed.

End Trusted.

(** ** A push and a pull request from a fork *)

Module DeliverySample.

Definition repository_part : string * Json.Value :=
  ("repository"%string, Json.Object [("id"%string, Json.Number 101); ("full_name"%string, Json.Str "acme/app")]).

Definition push_payload : Json.Value :=
  Json.Object [("ref"%string, Json.Str "refs/heads/main"); ("after"%string, Json.Str "c0ffee"); repository_part].

Definition repo_id (n : Z) : Json.Value := Json.Object [("repo"%string, Json.Object [("id"%string, Json.Number n)]);
  ("sha"%string, Json.Str "bad"); ("ref"%string, Json.Str "patch")].

Definition fork_payload : Json.Value :=
  Json.Object [("action"%string, Json.Str "opened"); ("number"%string, Json.Number 7); repository_part;
    ("pull_request"%string, Json.Object [("head"%string, repo_id 666); ("base"%string, repo_id 101)])].

Definition parse (body : string) : option Json.Value :=
  if String.eqb body "P" then Some push_payload else if String.eqb body "F" then Some fork_payload else None.

#[global] Instance outside : WebhookOutside := {|
  decrypt := strip_prefix "enc:";
  hmac_sha256_hex secret body := secret +:+ "/" +:+ body;
  sha256_hex s := s;
  parse_json := parse;
  print_json v := match v with Json.Object (("ref"%string, _) :: _) => "P" | _ => "F" end;
  rfc3339_timestamp _ := None;
  sql_text _ := "error";
  json_error_text _ := "not JSON";
  debug_text := err_message;
  lowercase := to_ascii_lowercase;
  host_file := two_workflows;
  host_changes := unchanged;
  binding := unbound |}.

#[global] Instance laws : WebhookLaws.
Proof. exact unbound_reads. Qed.

Definition start : world :=
  World (set_credentials {[ ("ig1", "webhook_secret")%string := "enc:s3"%string ]}
    (set_access (AccessSettings (Some ("remote", "oidc")%string) None) Sample.database)) [] [].

Definition headers (event signature name : string) : option string :=
  if String.eqb name "x-hub-signature-256" then Some signature
  else if String.eqb name "x-github-event" then Some event
  else if String.eqb name "x-github-delivery" then Some "d-1"%string else None.

Definition request (event signature body : string) : M WebhookResponse :=
  receive GithubHook (headers event signature) body "wh9" Sent 500 500 500.

Definition pushed : world := fst (request "push" "sha256=s3/P" "P" start).
Definition claimed_world : world := fst (claim_next_webhook 501 pushed).

Definition tick (t : Z) (n : nat) : turn := Turn t t t t (fun k => match k with O => "b-w0" | _ => "b-w1" end).

Definition built_world : world := fst (handle_claimed (tick 502 0) "wh9" claimed_world).

Definition status_of (w : world) : option WebhookStatus.t := wh_status <$> webhooks (w_db w) !! "wh9"%string.

(** The pull request from a fork is stored, ignored, and builds nothing. *)
Example fork_ignored :
  let w1 := fst (request "pull_request" "sha256=s3/F" "F" start) in
  let w2 := fst (drain 10 (tick 501) 0 w1) in
  status_of w2 = Some WebhookStatus.Ignored /\ size (builds (w_db w2)) = size (builds (w_db start)).
Proof. vm_compute. split; reflexivity. Qed.

(** A request signed with another secret is refused. *)
Example forged_refused :
  snd (request "push" "sha256=s4/P" "P" start)
  = Err (ApiErr 401 "invalid_signature" "Webhook signature verification failed").
Proof. vm_compute. reflexivity. Qed.

(** Of two deliveries without an identifier the second is refused by the table. *)
Example unnamed_delivery_refused :
  let unnamed name := if String.eqb name "x-github-delivery" then None else headers "push" "sha256=s3/P" name in
  let w1 := fst (receive GithubHook unnamed "P" "wh1" Sent 500 500 500 start) in
  snd (receive GithubHook unnamed "P" "wh2" Sent 500 500 500 w1) = Err (store_error "Failed to store webhook").
Proof. vm_compute. reflexivity. Qed.

Lemma authenticated_deliveries_witness :
  status_of pushed = Some WebhookStatus.Received /\
  receipt GithubHook (headers "push" "sha256=s3/P") "P" "wh9" Sent 500 500 500 (w_db start)
    (snd (request "push" "sha256=s3/P" "P" start)) (w_db pushed).
Proof.
  split; [vm_compute; reflexivity|].
  exact (authenticated_deliveries GithubHook (headers "push" "sha256=s3/P") "P" "wh9" Sent 500 500 500 start pushed
    (snd (request "push" "sha256=s3/P" "P" start)) (surjective_pairing _)).
Defined.

Lemma empty_queue_ok : queue_ok ∅.
Proof. split; [apply map_Forall_empty|]. intros i j h k. by rewrite lookup_empty. Qed.

Lemma push_served : rtc serves start built_world.
Proof.
  apply rtc_l with pushed.
  { exact (sv_request GithubHook (headers "push" "sha256=s3/P") "P" "wh9" Sent 500 500 500 start pushed _ (surjective_pairing _)). }
  apply rtc_l with claimed_world; [exact (sv_claim 501 pushed claimed_world _ (surjective_pairing _))|].
  apply rtc_once. exact (sv_handle (tick 502 0) "wh9" claimed_world built_world _ (surjective_pairing _)).
Qed.

Lemma delivery_queue_invariant_witness :
  status_of built_world = Some WebhookStatus.Processed /\ queue_ok (webhooks (w_db built_world)).
Proof.
  split; [vm_compute; reflexivity|].
  exact (delivery_queue_invariant start built_world push_served empty_queue_ok).
Defined.

(** A recovery pass long after leaves the processed delivery as it is. *)
Lemma settled_is_final_witness : exists h h',
  webhooks (w_db built_world) !! "wh9"%string = Some h /\ wh_status h = WebhookStatus.Processed /\
  webhooks (w_db (fst (recovery_pass 9000 Sent built_world))) !! "wh9"%string = Some h' /\ h' = h.
Proof.
  destruct (webhooks (w_db built_world) !! "wh9"%string) as [h|] eqn:E; [|vm_compute in E; discriminate E].
  assert (Hs : wh_status h = WebhookStatus.Processed).
  { assert (E2 : wh_status <$> webhooks (w_db built_world) !! "wh9"%string = Some WebhookStatus.Processed)
      by (vm_compute; reflexivity). rewrite E in E2. injection E2 as H1. exact H1. }
  destruct (settled_is_final built_world (fst (recovery_pass 9000 Sent built_world)) "wh9" h) as (h' & H & _ & _ & Hf).
  - apply rtc_once. exact (sv_recovery 9000 Sent built_world _ _ (surjective_pairing _)).
  - exact E.
  - exists h, h'. split; [reflexivity|]. split; [exact Hs|]. split; [exact H|]. apply Hf. unfold settled. by rewrite Hs.
Defined.

Lemma pushed_queue_ok : queue_ok (webhooks (w_db pushed)).
Proof.
  refine (queue_steps_ok _ _ (queue_served_steps start pushed _) empty_queue_ok).
  exact (sv_request GithubHook (headers "push" "sha256=s3/P") "P" "wh9" Sent 500 500 500 start pushed _ (surjective_pairing _)).
Qed.

Lemma worker_loop_ends_witness : exists w' e, drain 6 (tick 501) 0 pushed = (w', Some e).
Proof.
  destruct (worker_loop_ends 6 (tick 501) 0 pushed pushed_queue_ok) as (w' & e & H & _).
  - vm_compute. repeat constructor.
  - exists w', e. exact H.
Defined.

(** The five passes and the recovery. *)
Definition after (n : nat) : world :=
  nat_rect (fun _ => world) pushed (fun k w => fst (drain 6 (tick (501 + 400 * Z.of_nat k)) 0 w)) n.

Lemma undisturbed_refl (m : table) : undisturbed m m.
Proof. intros id h H. exists h. by split; [|left]. Qed.

Lemma one_pass n k t w :
  snd (drain 6 (tick (501 + 400 * Z.of_nat k)) 0 (after k)) = Some Idle ->
  passes n (501 + 400 * Z.of_nat (S k)) (after (S k)) t w ->
  passes (S n) (501 + 400 * Z.of_nat k) (after k) t w.
Proof.
  intros Hd Hp. eapply (passes_one n _ (501 + 400 * Z.of_nat k) (501 + 400 * Z.of_nat (S k)) t 6
    (tick (501 + 400 * Z.of_nat k)) 0 (after k) (after (S k)) (after (S k)) w).
  - intros m. cbn. lia.
  - rewrite <- Hd. apply surjective_pairing.
  - apply undisturbed_refl.
  - unfold WEBHOOK_PROCESSING_LEASE_SECS. lia.
  - exact Hp.
Qed.

Lemma five_passes : passes 5 501 pushed (501 + 400 * 5) (after 5).
Proof.
  apply (one_pass 4 0); [vm_compute; reflexivity|]. apply (one_pass 3 1); [vm_compute; reflexivity|].
  apply (one_pass 2 2); [vm_compute; reflexivity|]. apply (one_pass 1 3); [vm_compute; reflexivity|].
  apply (one_pass 0 4); [vm_compute; reflexivity|]. constructor.
Qed.

Lemma deliveries_settle_witness : exists h',
  webhooks (w_db (fst (fail_exhausted_webhook_leases 2501 (after 5)))) !! "wh9"%string = Some h' /\ settled h'.
Proof.
  destruct (webhooks (w_db pushed) !! "wh9"%string) as [h|] eqn:E; [|vm_compute in E; discriminate E].
  assert (Hn : wh_next_attempt_at h = None /\ wh_processing_started_at h = None).
  { assert (E2 : (fun h => (wh_next_attempt_at h, wh_processing_started_at h)) <$> webhooks (w_db pushed) !! "wh9"%string
                 = Some (None, None)) by (vm_compute; reflexivity).
    rewrite E in E2. injection E2 as H1 H2. split; [exact H1|exact H2]. }
  destruct (deliveries_settle 501 2501 pushed (after 5) (fst (fail_exhausted_webhook_leases 2501 (after 5))) "wh9" h 0)
    as (h' & H & _ & Hs).
  - exact E.
  - exact (qo_rows _ pushed_queue_ok "wh9"%string h E).
  - destruct Hn as [H1 H2]. split; intros s Hs; rewrite ?H1, ?H2 in Hs; discriminate Hs.
  - exact five_passes.
  - assert (Hr : snd (fail_exhausted_webhook_leases 2501 (after 5)) = Ok 0) by (vm_compute; reflexivity).
    rewrite <- Hr. apply surjective_pairing.
  - exists h'. split; [exact H|exact Hs].
Defined.

(** The push is built, and the payload says why it may be. *)
Lemma trusted_revisions_only_witness : exists event_type integration_id payload,
  trusted_payload event_type integration_id payload (w_db claimed_world) ScmProvider.Github \/
  trusted_payload event_type integration_id payload (w_db claimed_world) ScmProvider.Gitlab.
Proof.
  destruct (trusted_revisions_only (draws (tick 502 0)) "wh9" 502 502 claimed_world
    (fst (process_claimed_webhook (draws (tick 502 0)) "wh9" 502 502 claimed_world))
    (snd (process_claimed_webhook (draws (tick 502 0)) "wh9" 502 502 claimed_world)) (surjective_pairing _))
    as [H|(h & i & payload & event & repo & _ & _ & _ & _ & Hl & Ht & _)].
  - apply (f_equal size) in H. vm_compute in H. discriminate H.
  - eexists _, _, payload. destruct Hl; [left|right]; exact Ht.
Defined.

End DeliverySample.
