(* ===== verification/ManualBuilds.v ===== *)
(** * Builds a user starts

    [create_build] of [crates/oored/src/builds.rs], with the checks it makes of
    the publishing secret ([require_google_play_secret]) and of the workflow
    ([check_build_workflow] of [pipelines.rs]).

    Parameters: [resolve_branch_commit] and [load_pipeline_file] are answers of
    the source host; [workflow_binding] reads the signing tables, which are not
    modelled. *)

From S2P Require Import PipelineFile Lowering Prelude Contract RustStr Labels Sizes Triggers Stores Db Access Builds Runners Creation Reruns Webhooks Publishing.
From Stdlib Require Import Ascii.

Local Open Scope Z_scope.

(** ** Data *)

(** [struct CreateBuildRequest]. *)
Record CreateBuildRequest := {
  cb_pipeline_id : string;
  cb_platforms : option (list BuildPlatform);
  cb_branch : option string;
  cb_commit_sha : option string;
  cb_trigger_ref : option string;
  cb_changelog : option string;
  cb_workflow : option string;
}.

(** [enum PipelineFile]. *)
Inductive PipelineFile : Type :=
  | Missing
  | Invalid (path error : string)
  | Parsed (path : string) (config : RepositoryConfig).

Definition MAX_CHANGELOG_LENGTH : Z := 4000.

(** ** Workflow names *)

(** [normalize_workflow_name]. *)
Definition normalize_workflow_name (name : string) : result api_error string :=
  if is_valid_identifier (trim name) then Ok (trim name)
  else Err (ApiErr 400 "invalid_workflow"
    "workflow must start with a letter or digit and use only letters, digits, '-' and '_' (max 64 chars)").

(** [workflow_error]. *)
Definition workflow_error (path : string) (config : RepositoryConfig) (workflow : string) : option string :=
  let names := repository_workflow_names config in
  if existsb (String.eqb workflow) names then None
  else Some (match config with
             | V1 _ => path +:+ " is a version 1 file; workflows need `version: 2`"
             | V2 _ =>
                 if bool_decide (names = [])
                 then "workflow '" +:+ workflow +:+ "' is not defined; " +:+ path +:+ " defines no workflows"
                 else "workflow '" +:+ workflow +:+ "' is not defined; " +:+ path +:+ " defines ["
                      +:+ join ", " names +:+ "]"
             end).

Definition is_ascii_hexdigit (c : ascii) : bool :=
  is_ascii_digit c || byte_in 97 102 c || byte_in 65 70 c.

(** [short_reference]. *)
Definition short_reference (reference : string) : string :=
  if (str_len reference =? 40) && all_bytes is_ascii_hexdigit reference
  then String.substring 0 12 reference else reference.

Definition set_snap_selected_platforms (v : option (list BuildPlatform)) (s : snapshot) : snapshot :=
  Snapshot (snap_repository_id s) (snap_runs_on s) (snap_retry_steps s) (snap_timeout_secs s)
    (snap_workflow s) (snap_file_size_budgets s) (snap_repo_url s) (snap_retry_publish_from_file s) v.

Section Manual.
Context (resolve_branch_commit : string -> string -> M string)
  (load_pipeline_file : string -> string -> string -> result api_error (option PipelineFile))
  (workflow_binding : string -> string -> option RepositoryConfig -> option string ->
     ME string WorkflowBinding).

(** [require_google_play_secret]. *)
Definition require_google_play_secret (project_id pipeline_id : string) : M unit :=
  let failed := fun _ : sqlx_error => store_error "Failed to check Google Play publishing" in
  config ← map_errM failed (load_google_play pipeline_id);
  match config with
  | None => mret tt
  | Some config =>
      if negb (gp_enabled config) then mret tt
      else
        visible ← map_errM failed
          (secret_name_visible project_id (Some pipeline_id) (gp_service_account_secret config));
        guard visible (ApiErr 409 "publish_secret_missing"
          ("Google Play publishing needs the secret " +:+ gp_service_account_secret config
           +:+ ", which is not set. Add it or turn off Google Play publishing before running this build."))
  end.

(** [check_build_workflow]. *)
Definition check_build_workflow (project_id config_path reference : string) (workflow : option string)
    : result api_error (option RepositoryConfig) :=
  match load_pipeline_file project_id config_path reference with
  | Ok (Some (Parsed path config)) =>
      let message :=
        match workflow with
        | Some workflow => workflow_error path config workflow
        | None =>
            let names := repository_workflow_names config in
            if (1 <? length names)%nat
            then Some (path +:+ " defines workflows [" +:+ join ", " names
                       +:+ "]; name one when starting the build, or set a default workflow on the pipeline")
            else None
        end in
      match message with
      | Some message =>
          Err (ApiErr 400 "invalid_workflow"
                 (message +:+ " (read at " +:+ short_reference reference +:+ ")"))
      | None => Ok (Some config)
      end
  | _ => Ok None
  end.

Definition lift_api {A} (r : result api_error A) : M A :=
  match r with Ok a => mret a | Err e => throw e end.

(** The branch a request builds: its own, or the project's default when it
    names no commit either. *)
Definition manual_branch (req : CreateBuildRequest) (p : project) : option string :=
  match normalize_optional (cb_branch req) with
  | Some branch => Some branch
  | None =>
      if bool_decide (normalize_optional (cb_commit_sha req) = None)
      then normalize_optional (pr_default_branch p) else None
  end.

(** The request's workflow, else the pipeline's default. *)
Definition manual_workflow (req : CreateBuildRequest) (pl : pipeline) : result api_error (option string) :=
  match normalize_optional (cb_workflow req) with
  | Some name =>
      match normalize_workflow_name name with Ok name => Ok (Some name) | Err e => Err e end
  | None => Ok (pl_workflow pl)
  end.

(** The binds of the row a request inserts. *)
Definition manual_binds (auth : SessionInfo) (project_id : string) (req : CreateBuildRequest)
    (p : project) (pl : pipeline) (repository_id repo_url commit_sha : string)
    (workflow : option string) (selected : option (list BuildPlatform)) (binding : WorkflowBinding)
    (build_id : string) (now : Z) : BuildInsertBinds :=
  let '(timeout_minutes, approval_policy) := pipeline_gates pl in
  let branch := manual_branch req p in
  {| bi_build_id := build_id; bi_project_id := project_id; bi_pipeline_id := cb_pipeline_id req;
     bi_actor := Some (email auth); bi_event_type := None;
     bi_trigger_ref := (if normalize_optional (cb_trigger_ref req) is Some r then Some r else branch);
     bi_commit_sha := Some commit_sha; bi_branch := branch;
     bi_changelog := normalize_optional (cb_changelog req);
     bi_config_snapshot := set_snapshot_workflow_name (set_snap_selected_platforms selected
       (create_config_snapshot (pl_runs_on pl) timeout_minutes (repository_id, repo_url))) workflow;
     bi_webhook_id := None; bi_now := now; bi_trigger_type := TriggerType.Manual;
     bi_source_build_id := None; bi_cancel_previous := cancel_previous (pl_concurrency pl);
     bi_approval_required :=
       default (applies_to approval_policy "manual") (wb_approval_required binding) |}.

(** The statements after the insert. *)
Definition manual_recorded (auth : SessionInfo) (b : BuildInsertBinds)
    : M (string * build * option RunnerPolicyBlockReason.t) :=
  build_number ← fetch_build_number (bi_build_id b);
  _ ← record_created b "build created";
  _ ← write_audit_log (Some (user_id auth)) "build_created" "build" (Some (bi_build_id b));
  _ ← announce_if_gated b (Some (user_id auth));
  reason ← runner_policy_block_reason_for_project (bi_project_id b);
  mret (bi_build_id b, created_row b build_number, reason).

(** [create_build]; [build_id] is drawn.  Without a commit the branch is there,
    so the text that stands for a missing one is never read. *)
Definition create_build (auth : SessionInfo) (project_id : string) (req : CreateBuildRequest)
    (build_id : string) (now : Z) : M (string * build * option RunnerPolicyBlockReason.t) :=
  effective ← resolve_effective_project_role (user_id auth) (role auth) project_id (auth_source auth);
  _ ← require_project_permission effective TriggerBuild;
  let commit_sha := normalize_optional (cb_commit_sha req) in
  _ ← guard (match normalize_optional (cb_changelog req) with
             | Some changelog => str_len changelog <=? MAX_CHANGELOG_LENGTH
             | None => true
             end) (ApiErr 400 "invalid_input" "Changelog must be 4,000 characters or fewer");
  row ← query "Failed to fetch project" (fun d => projects d !! project_id);
  p ← from_option (ApiErr 404 "not_found" "Project not found") row;
  repository_id ← from_option (ApiErr 409 "source_not_configured"
    "Project is not linked to a source repository. Link a repository before triggering builds.")
    (pr_repository_id p);
  let branch := manual_branch req p in
  _ ← guard (bool_decide (is_Some commit_sha) || bool_decide (is_Some branch))
        (ApiErr 400 "invalid_input"
           "Provide branch or commit_sha, or set a project default_branch before triggering builds.");
  row ← query "Failed to fetch pipeline" (fun d =>
          pl ← pipelines d !! cb_pipeline_id req;
          if String.eqb (pl_project_id pl) project_id then Some pl else None);
  pl ← from_option (ApiErr 404 "not_found" "Pipeline not found in this project") row;
  selected ← lift_api (validate_selected_platforms (cb_platforms req) (pl_platforms pl));
  _ ← (if bool_decide (Android ∈ default (pl_platforms pl) selected)
       then require_google_play_secret project_id (cb_pipeline_id req) else mret tt);
  sha ← match commit_sha with
        | Some sha => mret sha
        | None => resolve_branch_commit repository_id (default ""%string branch)
        end;
  workflow ← lift_api (manual_workflow req pl);
  file ← lift_api (check_build_workflow project_id (pl_config_path pl) sha workflow);
  binding ← map_errM (ApiErr 400 "invalid_signing")
              (workflow_binding project_id (cb_pipeline_id req) file workflow);
  repo_url ← resolve_repository_clone_url repository_id;
  repo_url ← from_option (ApiErr 409 "source_unresolvable"
    "Project source repository could not be resolved. Reconnect the source integration and repository mapping.")
    repo_url;
  let b := manual_binds auth project_id req p pl repository_id repo_url sha workflow selected binding
             build_id now in
  inserted ← insert_build_with_retry b;
  if (inserted : bool) then manual_recorded auth b
  else throw (ApiErr 409 "source_changed"
    "The project source changed while this build was being created. Review the source and trigger the build again.").

End Manual.

(** ** What a request creates *)

Section ManualSpec.
Context (resolve_branch_commit : string -> string -> M string)
  (load_pipeline_file : string -> string -> string -> result api_error (option PipelineFile))
  (workflow_binding : string -> string -> option RepositoryConfig -> option string ->
     ME string WorkflowBinding).

(** What is looked up elsewhere leaves the builds alone. *)
Context (resolve_keeps : forall repo branch, keeps builds (resolve_branch_commit repo branch))
  (binding_keeps : forall p pl file wf, keeps builds (workflow_binding p pl file wf)).

Let create_build := create_build resolve_branch_commit load_pipeline_file workflow_binding.
Let check_build_workflow := check_build_workflow load_pipeline_file.

Lemma keeps_lift {X A} (f : db -> X) (r : result api_error A) : keeps f (lift_api r).
Proof. destruct r; [apply keeps_ret|apply keeps_throw]. Qed.

Lemma lift_api_Ok {A} (r : result api_error A) w w' a : lift_api r w = (w', Ok a) -> r = Ok a.
Proof. destruct r; by intros [= _ <-]. Qed.

Lemma keeps_play p pl :
  keeps (fun d => d) (require_google_play_secret p pl).
Proof. unfold require_google_play_secret. auto 10 with keeps. Qed.

#[local] Hint Resolve keeps_lift keeps_play resolve_keeps binding_keeps : keeps.

(** A row [create_build] may insert for a request. *)
Definition requested (d : db) (auth : SessionInfo) (project_id : string) (req : CreateBuildRequest)
    (build_id : string) (now : Z) (b : BuildInsertBinds) : Prop :=
  exists p pl repository_id repo_url sha workflow selected file binding,
    authorized d auth project_id TriggerBuild /\
    projects d !! project_id = Some p /\ pr_repository_id p = Some repository_id /\
    pipelines d !! cb_pipeline_id req = Some pl /\ pl_project_id pl = project_id /\
    match normalize_optional (cb_commit_sha req) with
    | Some named => sha = named
    | None => is_Some (manual_branch req p)
    end /\
    validate_selected_platforms (cb_platforms req) (pl_platforms pl) = Ok selected /\
    manual_workflow req pl = Ok workflow /\
    check_build_workflow project_id (pl_config_path pl) sha workflow = Ok file /\
    (exists u u', workflow_binding project_id (cb_pipeline_id req) file workflow u = (u', Ok binding)) /\
    b = manual_binds auth project_id req p pl repository_id repo_url sha workflow selected binding
          build_id now.

Lemma create_build_run auth project_id req build_id now w w' r :
  create_build auth project_id req build_id now w = (w', r) ->
  (builds (w_db w') = builds (w_db w) /\ exists e, r = Err e) \/
  exists b w1 w2, requested (w_db w) auth project_id req build_id now b /\
    builds (w_db w1) = builds (w_db w) /\ insert_effect b (w_db w1) (w_db w2) /\
    manual_recorded auth b w2 = (w', r) /\ builds (w_db w') = builds (w_db w2).
Proof.
  unfold create_build, ManualBuilds.create_build. intros H.
  peel (fun d : db => d) H w1 eff H1 B1; [left; split; [congruence|eauto]|].
  peel (fun d : db => d) H w2 u2 H2 B2; [left; split; [congruence|eauto]|].
  peel (fun d : db => d) H w3 u3 H3 B3; [left; split; [congruence|eauto]|].
  peel (fun d : db => d) H w4 row H4 B4; [left; split; [congruence|eauto]|].
  peel (fun d : db => d) H w5 p H5 B5; [left; split; [congruence|eauto]|].
  peel (fun d : db => d) H w6 repo H6 B6; [left; split; [congruence|eauto]|].
  peel (fun d : db => d) H w7 u7 H7 B7; [left; split; [congruence|eauto]|].
  peel (fun d : db => d) H w8 plrow H8 B8; [left; split; [congruence|eauto]|].
  peel (fun d : db => d) H w9 pl H9 B9; [left; split; [congruence|eauto]|].
  peel (fun d : db => d) H w10 selected H10 B10; [left; split; [congruence|eauto]|].
  peel (fun d : db => d) H w11 u11 H11 B11; [left; split; [congruence|eauto]|].
  peel builds H w12 sha H12 B12; [left; split; [congruence|eauto]|].
  peel builds H w13 workflow H13 B13; [left; split; [congruence|eauto]|].
  peel builds H w14 file H14 B14; [left; split; [congruence|eauto]|].
  peel builds H w15 binding H15 B15; [left; split; [congruence|eauto]|].
  peel builds H w16 clone H16 B16; [left; split; [congruence|eauto]|].
  peel builds H w17 url H17 B17; [left; split; [congruence|eauto]|].
  cbv beta in *. apply insert_then in H;
    [|unfold manual_recorded; by auto 12 with keeps|auto with keeps|done].
  destruct H as [[Hb He]|(w18 & Hi & Hrest & Hb)]; [left; split; [congruence|done]|].
  right. eexists _, w17, w18. split_and!; [|congruence|exact Hi|exact Hrest|exact Hb].
  apply query_ok in H4 as (H4 & _), H8 as (H8 & _). apply from_option_Ok in H5, H6, H9.
  apply lift_api_Ok in H10, H13, H14. apply guard_Ok in H7.
  assert (D3 : w_db w3 = w_db w) by congruence. assert (D7 : w_db w7 = w_db w) by congruence.
  rewrite D3 in H4. rewrite D7 in H8. subst row plrow.
  destruct (pipelines (w_db w) !! cb_pipeline_id req) as [pl0|] eqn:Epl; [|done]. cbn in H9.
  destruct (String.eqb_spec (pl_project_id pl0) project_id); [|done]. injection H9 as ->.
  exists p, pl, repo, url, sha, workflow, selected, file, binding.
  split_and!; [|done..| |done|done|done| |done].
  - exists eff. split; [by eapply resolve_role_ok|by eapply require_permission_ok].
  - destruct (normalize_optional (cb_commit_sha req)) as [named|]; [by injection H12|].
    apply orb_true_iff in H7 as [H7|H7]; [|by apply bool_decide_eq_true in H7].
    apply bool_decide_eq_true in H7 as [? [=]].
  - unfold map_errM in H15. destruct (workflow_binding _ _ _ _ w14) as [u [bd|]] eqn:E; [|done].
    injection H15 as _ <-. eauto.
Qed.
Lemma manual_recorded_run auth b w w' r :
  manual_recorded auth b w = (w', r) ->
  match r with
  | Ok (id, row, _) => id = bi_build_id b /\ exists nb, builds (w_db w) !! bi_build_id b = Some nb /\
      row = created_row b (b_build_number nb)
  | Err e => err_status e = 500
  end.
Proof.
  destruct r as [[[id row] reason]|e]; intros H.
  - unfold manual_recorded, fetch_build_number in H.
    apply M_bind_ok in H as (w1 & n & H1 & H). inv_run. eauto.
  - assert (Hs : store_only (manual_recorded auth b)) by (unfold manual_recorded; auto 12 with keeps).
    by eapply Hs.
Qed.

(** builds users start.  A request that succeeds was made by someone who may
    trigger builds, for a pipeline of a project linked to a repository; it adds
    one build, the one it answers with, numbered after every build of the
    project, for the commit named or else the one the source host named for
    the branch, the platforms selected and the workflow named or else the
    pipeline's, checked against the file at that commit, gated by that
    workflow's settings or else the pipeline's policy for manual builds; and
    it cancels exactly the builds the new one supersedes.  A request that
    fails has changed no build, or failed in the store after adding it. *)
Theorem create_build_spec (auth : SessionInfo) (project_id : string) (req : CreateBuildRequest)
    (build_id : string) (now : Z) (w w' : world)
    (r : result api_error (string * build * option RunnerPolicyBlockReason.t)) :
  create_build auth project_id req build_id now w = (w', r) ->
  match r with
  | Ok (id, row, _) =>
      id = build_id /\ builds (w_db w) !! build_id = None /\
      exists b, requested (w_db w) auth project_id req build_id now b /\
        let number := next_build_number project_id (w_db w) in
        row = created_row b number /\ builds (w_db w') !! build_id = Some row /\
        (b_approval_state row = Some BuildApprovalState.Pending <-> bi_approval_required b = true) /\
        forall k o, builds (w_db w) !! k = Some o ->
          builds (w_db w') !! k = Some (if supersedes b number o
            then withdraw_pending_approval (cancel_row now o) else o)
  | Err e =>
      builds (w_db w') = builds (w_db w) \/
      err_status e = 500 /\ is_Some (builds (w_db w') !! build_id)
  end.
Proof.
  intros [[Hb [e ->]]|(b & w1 & w2 & Hreq & B1 & Hi & Hrec & Hb)]%create_build_run; [by left|].
  apply insert_effect_builds in Hi as (Hn & Hi & _).
  assert (Hid : bi_build_id b = build_id /\ bi_project_id b = project_id /\ bi_now b = now).
  { destruct Hreq as (p & pl & repo & url & sha & wf & sel & file & bd & Hx). destruct_and! Hx. by subst b. }
  destruct Hid as (Hid & Hpid & Hnow).
  assert (Hnum : next_build_number project_id (w_db w1) = next_build_number project_id (w_db w))
    by (unfold next_build_number; by rewrite B1).
  rewrite Hid, B1 in Hn. unfold after_insert, new_build in Hi. rewrite Hid, Hpid, Hnum, Hnow, B1 in Hi.
  apply manual_recorded_run in Hrec. destruct r as [[[id row] reason]|e].
  - destruct Hrec as (-> & nb & Hnb & ->). rewrite Hid, Hi, lookup_insert_eq in Hnb. injection Hnb as <-.
    split_and!; [done|done|]. exists b. cbv zeta. split_and!; [done|done| | |].
    + by rewrite Hb, Hi, lookup_insert_eq.
    + cbn. by destruct (bi_approval_required b).
    + intros k o Hk. rewrite Hb, Hi, lookup_insert_ne, lookup_fmap, Hk by congruence. done.
  - right. split; [done|]. rewrite Hb, Hi, lookup_insert_eq. eauto.
Qed.

End ManualSpec.

(** *** Witness *)

Definition no_file (_ _ _ : string) : result api_error (option PipelineFile) := Ok (Some Missing).
Definition head_commit (_ _ : string) : M string := mret "c0ffee"%string.

Definition run_on_main : CreateBuildRequest :=
  {| cb_pipeline_id := "pl1"; cb_platforms := Some [Ios]; cb_branch := None; cb_commit_sha := None;
     cb_trigger_ref := None; cb_changelog := None; cb_workflow := None |}.

(** A run of the default branch, for iOS only, supersedes the running build. *)
Lemma create_build_spec_witness :
  let out := create_build head_commit no_file unbound sample_owner "p1" run_on_main
               "b-user" 600 Sample.start in
  exists row reason, snd out = Ok ("b-user"%string, row, reason) /\
    builds (w_db (fst out)) !! "b-user"%string = Some row /\
    b_branch row = Some "main"%string /\ snap_selected_platforms (b_snapshot row) = Some [Ios] /\
    b_status <$> builds (w_db (fst out)) !! "b-run"%string = Some BuildStatus.Canceled.
Proof.
  intros out. destruct (snd out) as [[[id row] reason]|e] eqn:Er; [|vm_compute in Er; discriminate Er].
  assert (H : out = (fst out, Ok (id, row, reason))) by (rewrite <- Er; apply surjective_pairing).
  destruct (create_build_spec head_commit no_file unbound (fun _ _ => keeps_ret _ _)
    (fun _ _ _ _ => keeps_ret _ _) _ _ _ _ _ _ _ _ H) as (-> & _ & b & _ & Hrow & Hb & _).
  exists row, reason. split; [reflexivity|]. split; [exact Hb|].
  vm_compute in Er. injection Er as <- <-. split; [reflexivity|]. split; [reflexivity|].
  vm_compute. reflexivity.
Defined.
