(* ===== verification/Retention.v ===== *)
(** * Build retention

    Retention policies and their per-project overrides ([retention.rs]), and
    the cleanup run of [background.rs]: which builds of a project are
    candidates, deleting their files from storage and then their rows.

    [deletable] says which objects the storage backend deletes without an
    error, [over_budget n] whether the [n]-th look at the clock is past the
    run's budget.  A candidate set is a list without duplicates, as the source
    iterates over a hash set in no particular order.  [i64] arithmetic wraps,
    as release builds do. *)

From S2P Require Import Prelude Contract RustStr Db Access Builds Runners.

Local Open Scope Z_scope.

(** [i64] wrap-around. *)
Definition i64 (z : Z) : Z := (z + 2 ^ 63) mod 2 ^ 64 - 2 ^ 63.

(** ** Policies *)

(** [default_policy]. *)
Definition default_policy : RetentionPolicy :=
  {| rp_enabled := false; max_age_days := None; max_builds_per_project := None;
     max_artifact_size_bytes := None; cleanup_target := RetentionCleanupTarget.ArtifactsOnly;
     keep_statuses := []; dry_run := false; cleanup_interval_secs := 3600;
     artifact_ttl_days := None |}.

(** [Option::or]. *)
Definition or_else {A} (a b : option A) : option A := match a with Some _ => a | None => b end.

(** [merge_override]. *)
Definition merge_override (global : RetentionPolicy) (ovr : ProjectRetentionOverride)
    : RetentionPolicy :=
  {| rp_enabled := default (rp_enabled global) (ov_enabled ovr);
     max_age_days := or_else (ov_max_age_days ovr) (max_age_days global);
     max_builds_per_project :=
       or_else (ov_max_builds_per_project ovr) (max_builds_per_project global);
     max_artifact_size_bytes :=
       or_else (ov_max_artifact_size_bytes ovr) (max_artifact_size_bytes global);
     cleanup_target := default (cleanup_target global) (ov_cleanup_target ovr);
     keep_statuses := default (keep_statuses global) (ov_keep_statuses ovr);
     dry_run := dry_run global;
     cleanup_interval_secs := cleanup_interval_secs global;
     artifact_ttl_days := or_else (ov_artifact_ttl_days ovr) (artifact_ttl_days global) |}.

(** [load_global_policy]. *)
Definition load_global_policy : ME sqlx_error RetentionPolicy :=
  row ← sql (fun d => (d, retention_policy d));
  mret (default default_policy row).

(** [load_effective_policy]. *)
Definition load_effective_policy (project_id : string) : ME sqlx_error RetentionPolicy :=
  global ← load_global_policy;
  row ← sql (fun d => (d, retention_overrides d !! project_id));
  mret (match row with Some ovr => merge_override global ovr | None => global end).

(** [validate_retention_limits]: the first field below one. *)
Definition validate_retention_limits (fields : list (string * option Z)) : M unit :=
  match find (fun f => match f.2 with Some v => v <? 1 | None => false end) fields with
  | Some f => throw (ApiErr 400 "validation_error" (f.1 +:+ " must be at least 1"))
  | None => mret tt
  end.

Definition policy_limits (p : RetentionPolicy) : list (string * option Z) :=
  [("max_age_days", max_age_days p); ("max_builds_per_project", max_builds_per_project p);
   ("max_artifact_size_bytes", max_artifact_size_bytes p);
   ("artifact_ttl_days", artifact_ttl_days p)]%string.

Definition override_limits (o : ProjectRetentionOverride) : list (string * option Z) :=
  [("max_age_days", ov_max_age_days o); ("max_builds_per_project", ov_max_builds_per_project o);
   ("max_artifact_size_bytes", ov_max_artifact_size_bytes o);
   ("artifact_ttl_days", ov_artifact_ttl_days o)]%string.

(** A statement whose failure is answered with [internal_error]. *)
Definition try_sql {A} (message : string) (m : ME sqlx_error A) : M A :=
  map_errM (fun _ => ApiErr 500 "internal_error" message) m.

(** [update_retention_policy]; the request has the fields of a policy. *)
Definition update_retention_policy (enforce : string -> string -> string -> bool)
    (auth : SessionInfo) (req : RetentionPolicy) : M RetentionPolicy :=
  _ ← check_permission enforce (role auth) "instance_settings" "write";
  _ ← guard (60 <=? cleanup_interval_secs req)
        (ApiErr 400 "validation_error" "cleanup_interval_secs must be at least 60");
  _ ← validate_retention_limits (policy_limits req);
  _ ← try_sql "Failed to update retention policy"
        (sql (fun d => (set_retention_policy (Some req) d, tt)));
  _ ← write_audit_log (Some (user_id auth)) "update_retention_policy" "retention_policy"
        (Some "global"%string);
  try_sql "Failed to reload retention policy" load_global_policy.

(** [project_pool_with_permission]. *)
Definition project_with_permission (auth : SessionInfo) (project_id : string)
    (permission : ProjectPermission) : M unit :=
  effective ← resolve_effective_project_role (user_id auth) (role auth) project_id (auth_source auth);
  _ ← require_project_permission effective permission;
  exists_ ← query "Failed to verify project" (fun d => bool_decide (is_Some (projects d !! project_id)));
  guard exists_ (ApiErr 404 "not_found" "Project not found").

(** [get_project_retention]: the effective policy and whether it has an
    override. *)
Definition get_project_retention (auth : SessionInfo) (project_id : string)
    : M (RetentionPolicy * bool) :=
  _ ← project_with_permission auth project_id Read;
  global ← try_sql "Failed to load retention policy" load_global_policy;
  row ← try_sql "Failed to load project retention override"
          (sql (fun d => (d, retention_overrides d !! project_id)));
  mret (match row with
        | Some ovr => (merge_override global ovr, true)
        | None => (global, false)
        end).

(** [update_project_retention]. *)
Definition update_project_retention (auth : SessionInfo) (project_id : string)
    (req : ProjectRetentionOverride) : M (RetentionPolicy * bool) :=
  _ ← project_with_permission auth project_id Write;
  _ ← validate_retention_limits (override_limits req);
  _ ← try_sql "Failed to update project retention override"
        (sql (fun d => (set_retention_overrides (<[project_id := req]> (retention_overrides d)) d, tt)));
  _ ← write_audit_log (Some (user_id auth)) "update_project_retention" "project_retention"
        (Some project_id);
  get_project_retention auth project_id.

(** [delete_project_retention]. *)
Definition delete_project_retention (auth : SessionInfo) (project_id : string)
    : M (RetentionPolicy * bool) :=
  _ ← project_with_permission auth project_id Write;
  _ ← try_sql "Failed to delete project retention override"
        (sql (fun d => (set_retention_overrides (delete project_id (retention_overrides d)) d, tt)));
  _ ← write_audit_log (Some (user_id auth)) "delete_project_retention" "project_retention"
        (Some project_id);
  get_project_retention auth project_id.

(** ** Candidates *)

Definition RETENTION_BATCH_SIZE : nat := 100.
Definition RETENTION_BACKLOG_RETRY_SECS : Z := 60.
Definition TERMINAL_BUILD_STATUSES : list string := ["succeeded"; "failed"; "canceled"; "timed_out"]%string.

Definition listed (l : list string) (s : string) : bool := existsb (String.eqb s) l.

(** [struct Eligible]. *)
Record Eligible := {
  el_statuses : list string;
  el_outcomes : list string;
}.

(** [Eligible::new]. *)
Definition Eligible_new (policy : RetentionPolicy) : Eligible :=
  let outcomes := List.filter (fun s => negb (listed (keep_statuses policy) s))
                    (TERMINAL_BUILD_STATUSES ++ ["expired"%string]) in
  let statuses := List.filter (listed outcomes) TERMINAL_BUILD_STATUSES in
  {| el_statuses := statuses ++ (if bool_decide (cleanup_target policy = RetentionCleanupTarget.Full)
                                 then ["expired"%string] else []);
     el_outcomes := outcomes |}.

(** The release is over: [state IN ('complete', 'failed')]. *)
Definition release_over (s : ReleaseState.t) : bool :=
  match s with ReleaseState.Complete | ReleaseState.Failed => true | _ => false end.

(** [COALESCE(b.expired_from, b.status)]. *)
Definition outcome (b : build) : BuildStatus.t := default (b_status b) (b_expired_from b).

(** [Eligible::push_filter]. *)
Definition el_filter (e : Eligible) (d : db) (id : string) (b : build) : bool :=
  listed (el_statuses e) (BuildStatus.fmt (b_status b))
  && listed (el_outcomes e) (BuildStatus.fmt (outcome b))
  && negb (existsb (fun kv : string * release =>
       String.eqb (rl_build_id kv.2) id
       && (negb (release_over (rl_state kv.2)) || bool_decide (b_status b = BuildStatus.Expired)))
       (map_to_list (releases d))).

Definition project_candidates (e : Eligible) (project_id : string) (more : build -> bool) (d : db)
    : list (string * build) :=
  select_builds (fun id b => String.eqb (b_project_id b) project_id && el_filter e d id b && more b) d.

(** [ORDER BY b.finished_at]: NULL comes first. *)
Definition by_finished (x y : string * build) : Prop :=
  match b_finished_at x.2, b_finished_at y.2 with
  | None, _ => True
  | Some _, None => False
  | Some a, Some b => a <= b
  end.

#[global] Instance by_finished_dec : RelDecision by_finished.
Proof. intros x y. unfold by_finished. repeat case_match; apply _. Defined.

(** [load_expired_build_ids]. *)
Definition load_expired_build_ids (project_id : string) (e : Eligible) (age_cutoff : Z) (limit : nat)
    (d : db) : list string :=
  take limit (map fst (merge_sort by_finished
    (project_candidates e project_id (fun b =>
       match b_finished_at b with Some t => t <? age_cutoff | None => false end) d))).

(** [load_excess_build_ids]. *)
Definition load_excess_build_ids (project_id : string) (e : Eligible) (keep_count : Z) (limit : nat)
    (d : db) : list string :=
  take limit (drop (Z.to_nat keep_count) (map fst (merge_sort (flip by_finished)
    (project_candidates e project_id (fun _ => true) d)))).

Definition sum_sizes (l : list artifact) : Z := foldr (fun a n => default 0 (ar_file_size a) + n) 0 l.

(** The available artifacts of a build. *)
Definition available_of (id : string) (d : db) : list artifact :=
  List.filter (fun a => String.eqb (ar_build_id a) id && ar_available a) (artifacts d).

Definition build_size (id : string) (d : db) : Z := sum_sizes (available_of id d).

(** [available_size]. *)
Definition available_size (ids : list string) (d : db) : Z :=
  sum_sizes (List.filter (fun a => listed ids (ar_build_id a) && ar_available a) (artifacts d)).

(** [SUM(a.file_size)] over the available artifacts of the builds that [p]
    selects. *)
Definition total_size (p : string -> build -> bool) (d : db) : Z :=
  sum_sizes (List.filter (fun a => ar_available a &&
    match builds d !! ar_build_id a with Some b => p (ar_build_id a) b | None => false end) (artifacts d)).

(** [load_oldest_build_sizes]. *)
Definition load_oldest_build_sizes (project_id : string) (e : Eligible) (limit : nat) (d : db)
    : list (string * Z) :=
  take limit (map (fun kv => (kv.1, build_size kv.1 d)) (merge_sort by_finished
    (List.filter (fun kv => 0 <? build_size kv.1 d)
       (project_candidates e project_id (fun _ => true) d)))).

(** [HashSet::extend] and [HashSet::insert]. *)
Definition set_insert (s : list string) (x : string) : list string :=
  if listed s x then s else s ++ [x].

(** The loop of [add_size_limit_candidates]: builds are added while
    [remaining] is over the limit. *)
Fixpoint add_until (max_size : Z) (candidates : list (string * Z)) (set : list string) (remaining : Z)
    : list string :=
  match candidates with
  | [] => set
  | (id, size) :: rest =>
      if remaining <=? max_size then set
      else if listed set id then add_until max_size rest set remaining
      else add_until max_size rest (set ++ [id]) (remaining - size)
  end.

(** [add_size_limit_candidates]. *)
Definition add_size_limit_candidates (project_id : string) (e : Eligible) (max_size : Z)
    (candidate_ids : list string) : ME sqlx_error (list string) :=
  total ← sql (fun d => (d, total_size (fun _ b => String.eqb (b_project_id b) project_id) d));
  if total <=? max_size then mret candidate_ids
  else
    eligible_size ← sql (fun d => (d, total_size (fun id b =>
                      String.eqb (b_project_id b) project_id && el_filter e d id b) d));
    let protected_size := total - eligible_size in
    if max_size <? protected_size then mret candidate_ids
    else
      picked ← (if bool_decide (candidate_ids = []) then mret 0
                else sql (fun d => (d, available_size candidate_ids d)));
      let remaining := total - picked in
      if remaining <=? max_size then mret candidate_ids
      else
        candidates ← sql (fun d => (d, load_oldest_build_sizes project_id e
                       (RETENTION_BATCH_SIZE - length candidate_ids) d));
        mret (add_until max_size candidates candidate_ids remaining).

(** The cutoff [now - max_age_days * 86400]. *)
Definition age_cutoff (now days : Z) : Z := i64 (now - i64 (days * 86400)).

(** [collect_retention_candidates]. *)
Definition collect_retention_candidates (project_id : string) (policy : RetentionPolicy) (now : Z)
    : ME sqlx_error (list string) :=
  let e := Eligible_new policy in
  if bool_decide (el_statuses e = []) then mret []
  else
    ids ← match max_age_days policy with
          | Some days => sql (fun d => (d, load_expired_build_ids project_id e (age_cutoff now days)
                                             RETENTION_BATCH_SIZE d))
          | None => mret []
          end;
    ids ← match max_builds_per_project policy with
          | Some max_count =>
              if Nat.ltb (length ids) RETENTION_BATCH_SIZE then
                more ← sql (fun d => (d, load_excess_build_ids project_id e max_count
                         (RETENTION_BATCH_SIZE - length ids) d));
                mret (foldl set_insert ids more)
              else mret ids
          | None => mret ids
          end;
    match max_artifact_size_bytes policy with
    | Some max_size =>
        if Nat.ltb (length ids) RETENTION_BATCH_SIZE
        then add_size_limit_candidates project_id e max_size ids
        else mret ids
    | None => mret ids
    end.

(** ** Cleaning up *)

(** [struct CleanupTotals]. *)
Record CleanupTotals := Totals {
  builds_expired : Z;
  artifacts_deleted : Z;
  bytes_reclaimed : Z;
}.

(** Deleting a row deletes what references it [ON DELETE CASCADE] and clears
    the [source_build_id] of its reruns ([ON DELETE SET NULL]). *)
Definition delete_build_row (id : string) (d : db) : db :=
  let kept_release (k : string) : bool :=
    match releases d !! k with Some rl => negb (bool_decide (rl_build_id rl = id)) | None => true end in
  set_build_logs (delete id (build_logs d))
  (set_app_store_links (filter (fun kv : string * app_store_link => kept_release kv.1 = true) (app_store_links d))
  (set_environment_promotions
    (filter (fun kv : string * promotion => pm_build_id kv.2 <> id) (environment_promotions d))
  (set_release_history (filter (fun h => kept_release (rh_release_id h) = true) (release_history d))
  (set_feedback_screenshots (List.filter (fun s => negb (String.eqb s.1 id)) (feedback_screenshots d))
    (set_releases (filter (fun kv : string * release => rl_build_id kv.2 <> id) (releases d))
      (set_artifacts (List.filter (fun a => negb (String.eqb (ar_build_id a) id)) (artifacts d))
        (set_build_events (filter (fun e => ev_build_id e <> id) (build_events d))
          (set_builds ((fun b => if bool_decide (b_source_build_id b = Some id)
                                 then set_source_build_id None b else b) <$> delete id (builds d)) d)))))))).

Definition has_release (id : string) (d : db) : bool :=
  existsb (fun kv : string * release => String.eqb (rl_build_id kv.2) id) (map_to_list (releases d)).

(** [UPDATE builds SET expired_from = status WHERE status <> 'expired']. *)
Definition mark_expired (b : build) : build :=
  if bool_decide (b_status b = BuildStatus.Expired) then b
  else set_expired_from (Some (b_status b)) b.

(** Errors of the cleanup are only logged. *)
Definition soft {E A} (m : ME E A) : ME string A := map_errM (fun _ => "cleanup failed"%string) m.

(** [expire_build_artifacts]. *)
Definition expire_build_artifacts (build_id : string) (now : Z) : ME string unit :=
  _ ← soft (sql (fun d => (set_artifacts
        (List.filter (fun a => negb (String.eqb (ar_build_id a) build_id)) (artifacts d)) d, tt)));
  _ ← soft (sql (fun d => (touch_build build_id mark_expired d, tt)));
  _ ← soft (transition_build build_id BuildStatus.Expired None (Some "retention policy cleanup"%string) now);
  mret tt.

(** [cleanup_build_record]. *)
Definition cleanup_build_record (build_id : string) (target : RetentionCleanupTarget.t) (now : Z)
    : ME sqlx_error bool :=
  catch match target with
        | RetentionCleanupTarget.ArtifactsOnly => expire_build_artifacts build_id now
        | RetentionCleanupTarget.Full =>
            n ← soft (sql (fun d =>
                  if has_release build_id d then (d, 0)
                  else match builds d !! build_id with
                       | Some _ => (delete_build_row build_id d, 1)
                       | None => (d, 0)
                       end));
            if n =? 0 then expire_build_artifacts build_id now else mret tt
        end
    (fun r => mret (is_ok r)).

(** [build_exists]: a failed read answers yes. *)
Definition build_exists (build_id : string) : ME sqlx_error bool :=
  catch (sql (fun d => (d, bool_decide (is_Some (builds d !! build_id)))))
    (fun r => mret match r with Ok b => b | Err _ => true end).

(** [screenshot_keys_for_build] ([build_feedback.rs]). *)
Definition screenshot_keys_for_build (build_id : string) : ME sqlx_error (list string) :=
  sql (fun d => (d, map snd (List.filter (fun s => String.eqb s.1 build_id) (feedback_screenshots d)))).

Section Cleanup.
Context (deletable : string -> bool).

(** [StorageBackend::delete_object]: whether it worked. *)
Definition delete_object (path : string) : ME sqlx_error bool := fun w =>
  if deletable path
  then (set_w_db (set_objects (objects (w_db w) ∖ {[path]}) (w_db w)) w, Ok true)
  else (w, Ok false).

(** [delete_artifact_files]. *)
Fixpoint delete_artifact_files (l : list artifact) (totals : CleanupTotals)
    : ME sqlx_error (bool * CleanupTotals) :=
  match l with
  | [] => mret (true, totals)
  | a :: rest =>
      deleted ← delete_object (ar_file_path a);
      if (deleted : bool) then
        delete_artifact_files rest
          (Totals (builds_expired totals) (artifacts_deleted totals + 1)
             (bytes_reclaimed totals + default 0 (ar_file_size a)))
      else mret (false, totals)
  end.

(** [delete_screenshots]. *)
Definition delete_screenshots (keys : list string) : ME sqlx_error unit :=
  for_each (fun key _ => _ ← delete_object key; mret tt) keys tt.

(** The loop body of [cleanup_project]; [by_build] are the artifacts loaded
    with the candidates. *)
Definition cleanup_candidate (policy : RetentionPolicy) (now : Z) (by_build : string -> list artifact)
    (build_id : string) (acc : CleanupTotals * nat) : ME sqlx_error (CleanupTotals * nat) :=
  let '(totals, cleaned) := acc in
  let files := by_build build_id in
  if dry_run policy then
    mret (Totals (builds_expired totals + 1) (artifacts_deleted totals + Z.of_nat (length files))
            (bytes_reclaimed totals + sum_sizes files), cleaned)
  else
    '(deleted, totals) ← delete_artifact_files files totals;
    if negb deleted then mret (totals, cleaned)
    else
      let clean (keys : list string) :=
        done ← cleanup_build_record build_id (cleanup_target policy) now;
        if negb done then mret (totals, cleaned)
        else
          _ ← (if bool_decide (keys = []) then mret tt
               else
                 kept ← build_exists build_id;
                 if (kept : bool) then mret tt else delete_screenshots keys);
          mret (Totals (builds_expired totals + 1) (artifacts_deleted totals) (bytes_reclaimed totals),
                S cleaned) in
      match cleanup_target policy with
      | RetentionCleanupTarget.Full =>
          catch (screenshot_keys_for_build build_id) (fun r =>
            match r with
            | Ok keys => clean keys
            | Err _ => mret (totals, cleaned)
            end)
      | RetentionCleanupTarget.ArtifactsOnly => clean []
      end.

(** [load_artifacts_for_builds]: at most [RETENTION_BATCH_SIZE] builds fit in
    one chunk of bind parameters. *)
Definition load_artifacts_for_builds (ids : list string) : ME sqlx_error (string -> list artifact) :=
  if bool_decide (ids = []) then mret (fun _ => [])
  else sql (fun d => (d, fun id => List.filter (fun a => String.eqb (ar_build_id a) id) (artifacts d))).

(** [cleanup_project]: candidates and builds cleaned. *)
Definition cleanup_project (project_id : string) (now : Z) (totals : CleanupTotals)
    : ME sqlx_error (nat * nat * CleanupTotals) :=
  policy ← load_effective_policy project_id;
  if negb (rp_enabled policy) then mret (0%nat, 0%nat, totals)
  else
    ids ← collect_retention_candidates project_id policy now;
    by_build ← load_artifacts_for_builds ids;
    '(totals, cleaned) ← for_each (cleanup_candidate policy now by_build) ids (totals, 0%nat);
    mret (length ids, cleaned, totals).

(** What one pass over the projects saw. *)
Record pass := Pass {
  full_batch_seen : bool;
  made_progress : bool;
  failed_cleanup : bool;
  budget_exhausted : bool;
  clock_reads : nat;
  pass_totals : CleanupTotals;
}.

(** One project of a pass; nothing more is done once the budget is spent. *)
Definition pass_project (over_budget : nat -> bool) (now : Z) (project_id : string) (p : pass)
    : ME sqlx_error pass :=
  if budget_exhausted p then mret p
  else
    '(candidates, cleaned, totals) ← cleanup_project project_id now (pass_totals p);
    mret (Pass (full_batch_seen p || Nat.eqb candidates RETENTION_BATCH_SIZE)
               (made_progress p || Nat.ltb 0 cleaned)
               (failed_cleanup p || Nat.ltb cleaned candidates)
               (over_budget (clock_reads p)) (S (clock_reads p)) totals).

(** The passes of [run_retention_cleanup]; [None] when [fuel] runs out. *)
Fixpoint cleanup_passes (fuel : nat) (over_budget : nat -> bool) (now : Z) (is_dry_run : bool)
    (project_ids : list string) (clock : nat) (totals : CleanupTotals)
    : ME sqlx_error (option (bool * CleanupTotals)) :=
  match fuel with
  | O => mret None
  | S fuel' =>
      p ← for_each (pass_project over_budget now) project_ids
            (Pass false false false false clock totals);
      if is_dry_run then mret (Some (false, pass_totals p))
      else if budget_exhausted p || full_batch_seen p && negb (made_progress p)
      then mret (Some (true, pass_totals p))
      else if negb (full_batch_seen p) then mret (Some (failed_cleanup p, pass_totals p))
      else cleanup_passes fuel' over_budget now is_dry_run project_ids (clock_reads p) (pass_totals p)
  end.

(** [run_retention_cleanup]: the interval until the next run. *)
Definition run_retention_cleanup (fuel : nat) (over_budget : nat -> bool) (now : Z)
    : ME sqlx_error (option Z) :=
  policy ← load_global_policy;
  if negb (rp_enabled policy) then mret (Some (cleanup_interval_secs policy))
  else
    project_ids ← sql (fun d => (d, map fst (map_to_list (projects d))));
    r ← cleanup_passes fuel over_budget now (dry_run policy) project_ids 0 (Totals 0 0 0);
    match r with
    | None => mret None
    | Some (retry_soon, totals) =>
        _ ← (if (0 <? builds_expired totals) || dry_run policy
             then write_audit_log None "retention_cleanup_completed" "retention_policy"
                    (Some "global"%string)
             else mret tt);
        mret (Some (if (retry_soon : bool)
                    then Z.min (cleanup_interval_secs policy) RETENTION_BACKLOG_RETRY_SECS
                    else cleanup_interval_secs policy))
    end.

End Cleanup.

(** ** What is a candidate *)

Lemma listed_In l s : listed l s = true <-> s ∈ l.
Proof.
  unfold listed. rewrite existsb_exists, list_elem_of_In. split.
  - by intros (x & Hx & ->%String.eqb_eq).
  - intros H. exists s. by rewrite String.eqb_refl.
Qed.

(** A read. *)
Lemma read_ok {A} (f : db -> A) w w' a :
  sql (fun d => (d, f d)) w = (w', Ok a) -> w_db w' = w_db w /\ a = f (w_db w).
Proof. intros [H _]%sql_ok. by simplify_eq. Qed.

(** A build the policy may clean up. *)
Definition candidate (e : Eligible) (project_id : string) (d : db) (id : string) : Prop :=
  exists b, builds d !! id = Some b /\ b_project_id b = project_id /\ el_filter e d id b = true.

Lemma project_candidates_elem e pid more d id b :
  (id, b) ∈ project_candidates e pid more d -> candidate e pid d id.
Proof.
  intros [Hb H]%elem_of_select_builds. exists b.
  apply andb_true_iff in H as [[Hp%String.eqb_eq Hf]%andb_true_iff _]. done.
Qed.

Lemma take_map_elem {A} (f : A -> string) n (l : list A) id :
  id ∈ take n (map f l) -> exists x, x ∈ l /\ f x = id.
Proof.
  intros (i & H & _)%elem_of_take. apply list_elem_of_lookup_2, list_elem_of_In, in_map_iff in H
    as (x & <- & Hx). exists x. by rewrite list_elem_of_In.
Qed.

Lemma expired_candidates pid e cutoff n d id :
  id ∈ load_expired_build_ids pid e cutoff n d -> candidate e pid d id.
Proof.
  intros ([k b] & Hin & <-)%take_map_elem. rewrite merge_sort_Permutation in Hin.
  by eapply project_candidates_elem.
Qed.

Lemma excess_candidates pid e keep n d id :
  id ∈ load_excess_build_ids pid e keep n d -> candidate e pid d id.
Proof.
  unfold load_excess_build_ids. rewrite skipn_map. intros ([k b] & Hin & <-)%take_map_elem.
  apply (subseteq_drop (Z.to_nat keep)) in Hin.
  rewrite merge_sort_Permutation in Hin. by eapply project_candidates_elem.
Qed.

Lemma oldest_candidates pid e n d x :
  x ∈ load_oldest_build_sizes pid e n d -> candidate e pid d x.1 /\ x.2 = build_size x.1 d.
Proof.
  intros (i & H & _)%elem_of_take.
  apply list_elem_of_lookup_2, list_elem_of_In, in_map_iff in H as ([k b] & <- & H).
  apply list_elem_of_In in H. rewrite merge_sort_Permutation in H.
  apply list_elem_of_In, filter_In in H as [H _]. apply list_elem_of_In in H. cbn.
  split; [by eapply project_candidates_elem|done].
Qed.

Lemma set_insert_spec (P : string -> Prop) more ids :
  (forall id, id ∈ ids -> P id) -> (forall id, id ∈ more -> P id) ->
  (forall id, id ∈ foldl set_insert ids more -> P id) /\
  (length (foldl set_insert ids more) <= length ids + length more)%nat.
Proof.
  revert ids. induction more as [|x more IH]; intros ids Hi Hm; cbn; [split; [done|lia]|].
  destruct (IH (set_insert ids x)) as [H1 H2].
  - intros id. unfold set_insert. case_match; [apply Hi|].
    rewrite elem_of_app, list_elem_of_singleton. intros [?| ->]; [auto|apply Hm; set_solver].
  - intros id ?. apply Hm. set_solver.
  - split; [done|]. assert (length (set_insert ids x) <= S (length ids))%nat; [|lia].
    unfold set_insert. case_match; [lia|]. rewrite length_app. cbn. lia.
Qed.

Lemma add_until_spec (P : string -> Prop) max l : forall set remaining,
  (forall id, id ∈ set -> P id) -> (forall x, x ∈ l -> P x.1) ->
  (forall id, id ∈ add_until max l set remaining -> P id) /\
  (length (add_until max l set remaining) <= length set + length l)%nat.
Proof.
  induction l as [|[k size] l IH]; intros set remaining Hs Hl; cbn; [split; [done|lia]|].
  case_match; [split; [done|lia]|]. case_match.
  - destruct (IH set remaining) as [H1 H2]; [done|intros x ?; apply Hl; set_solver|].
    split; [done|lia].
  - destruct (IH (set ++ [k]) (remaining - size)) as [H1 H2].
    + intros id. rewrite elem_of_app, list_elem_of_singleton.
      intros [?| ->]; [auto|apply (Hl (k, size)); set_solver].
    + intros x ?. apply Hl. set_solver.
    + split; [done|]. rewrite length_app in H2. cbn in H2. lia.
Qed.

Lemma size_limit_candidates pid e max ids w w' r :
  add_size_limit_candidates pid e max ids w = (w', Ok r) ->
  (forall id, id ∈ ids -> candidate e pid (w_db w) id) -> (length ids <= RETENTION_BATCH_SIZE)%nat ->
  w_db w' = w_db w /\ (forall id, id ∈ r -> candidate e pid (w_db w) id) /\
  (length r <= RETENTION_BATCH_SIZE)%nat.
Proof.
  unfold add_size_limit_candidates. intros H Hids Hlen.
  apply M_bind_ok in H as (w1 & total & [D1 _]%read_ok & H).
  destruct (_ <=? _); [by injection H as <- <-; rewrite D1|].
  apply M_bind_ok in H as (w2 & el & [D2 _]%read_ok & H).
  destruct (_ <? _); [by injection H as <- <-; rewrite D2, D1|].
  apply M_bind_ok in H as (w3 & picked & H3 & H).
  assert (D3 : w_db w3 = w_db w).
  { case_bool_decide; [by injection H3 as <- _; rewrite D2|].
    apply read_ok in H3 as [-> _]. by rewrite D2. }
  destruct (_ <=? _); [by injection H as <- <-|].
  apply M_bind_ok in H as (w4 & l & [D4 ->]%read_ok & [= -> <-]).
  split; [congruence|]. rewrite D3.
  destruct (add_until_spec (candidate e pid (w_db w)) max
    (load_oldest_build_sizes pid e (RETENTION_BATCH_SIZE - length ids) (w_db w)) ids (total - picked))
    as [H1 H2]; [done|by intros x [? _]%oldest_candidates|].
  split; [done|]. etrans; [exact H2|]. unfold load_oldest_build_sizes. rewrite length_take. lia.
Qed.

(** Every candidate is a build of the project that the policy may clean up;
    a batch holds at most [RETENTION_BATCH_SIZE]. *)
Lemma collect_candidates pid policy now w w' ids :
  collect_retention_candidates pid policy now w = (w', Ok ids) ->
  w_db w' = w_db w /\ (forall id, id ∈ ids -> candidate (Eligible_new policy) pid (w_db w) id) /\
  (length ids <= RETENTION_BATCH_SIZE)%nat.
Proof.
  unfold collect_retention_candidates. set (e := Eligible_new policy). intros H.
  case_bool_decide; [injection H as <- <-; split_and!; [done|by intros ? ?%elem_of_nil|cbn; lia]|].
  apply M_bind_ok in H as (w1 & ids1 & H1 & H).
  assert (S1 : w_db w1 = w_db w /\ (forall id, id ∈ ids1 -> candidate e pid (w_db w) id) /\
    (length ids1 <= RETENTION_BATCH_SIZE)%nat).
  { destruct (max_age_days policy); [apply read_ok in H1 as [D ->]; split_and!;
      [done|by intros; eapply expired_candidates|unfold load_expired_build_ids; rewrite length_take; lia]|].
    injection H1 as <- <-. split_and!; [done|by intros ? ?%elem_of_nil|cbn; lia]. }
  destruct S1 as (D1 & C1 & L1). apply M_bind_ok in H as (w2 & ids2 & H2 & H).
  assert (S2 : w_db w2 = w_db w /\ (forall id, id ∈ ids2 -> candidate e pid (w_db w) id) /\
    (length ids2 <= RETENTION_BATCH_SIZE)%nat).
  { destruct (max_builds_per_project policy); [|by injection H2 as <- <-].
    destruct (Nat.ltb _ _); [|by injection H2 as <- <-].
    apply M_bind_ok in H2 as (w3 & more & [D3 ->]%read_ok & [= -> <-]). split; [congruence|].
    rewrite D1 in *. match goal with |- context [load_excess_build_ids pid e ?k ?n ?d] =>
      destruct (set_insert_spec (candidate e pid (w_db w)) (load_excess_build_ids pid e k n d) ids1)
        as [C2 L2]; [done|by intros; eapply excess_candidates|] end.
    split; [done|]. etrans; [exact L2|]. unfold load_excess_build_ids. rewrite length_take. lia. }
  destruct S2 as (D2 & C2 & L2). destruct (max_artifact_size_bytes policy); [|by injection H as <- <-].
  clear H2. destruct (Nat.ltb _ _); [|by injection H as <- <-]. rewrite <- D2 in C2 |- *. by eapply size_limit_candidates.
Qed.

(** ** What a cleanup changes *)

(** The row is what it was, but for the link to a deleted source build. *)
Definition kept (b b' : build) : Prop := b' = b \/ b' = set_source_build_id None b.

(** Only builds of [ids] are expired, or deleted when [full] and without a
    release. *)
Record cleaned_up (ids : list string) (full : bool) (d d' : db) : Prop := {
  cu_releases : releases d' = releases d;
  cu_new : forall id, builds d !! id = None -> builds d' !! id = None;
  cu_gone : forall id b, builds d !! id = Some b -> builds d' !! id = None ->
    id ∈ ids /\ full = true /\ has_release id d = false;
  cu_rows : forall id b b', builds d !! id = Some b -> builds d' !! id = Some b' ->
    kept b b' \/
    id ∈ ids /\ (b_status b' = b_status b \/ b_status b' = BuildStatus.Expired) /\ b_meta b' = b_meta b;
}.

Lemma kept_fields b b' : kept b b' -> b_status b' = b_status b /\ b_meta b' = b_meta b.
Proof. by intros [-> | ->]. Qed.

Lemma cleaned_same ids full d d' :
  builds d' = builds d -> releases d' = releases d -> cleaned_up ids full d d'.
Proof.
  intros Hb Hr. split; [done|rewrite Hb; congruence..|].
  intros id b b' H1 H2. rewrite Hb in H2. simplify_eq. by left; left.
Qed.

Lemma cleaned_trans ids full d1 d2 d3 :
  cleaned_up ids full d1 d2 -> cleaned_up ids full d2 d3 -> cleaned_up ids full d1 d3.
Proof.
  intros [R1 N1 G1 W1] [R2 N2 G2 W2]. split; [congruence|auto|..].
  - intros id b Hb Hn. destruct (builds d2 !! id) as [b2|] eqn:E; [|eauto].
    destruct (G2 _ _ E Hn) as (? & ? & Hr). unfold has_release in *. rewrite R1 in Hr. auto.
  - intros id b b3 Hb Hb3. destruct (builds d2 !! id) as [b2|] eqn:E; [|by rewrite (N2 _ E) in Hb3].
    destruct (W1 _ _ _ Hb E) as [K1|(I1 & S1 & M1)], (W2 _ _ _ E Hb3) as [K2|(I2 & S2 & M2)].
    + left. destruct K1 as [-> | ->], K2 as [-> | ->]; unfold kept; auto.
    + right. destruct (kept_fields _ _ K1). split_and!; [done|destruct S2; [left|right]; congruence|congruence].
    + right. destruct (kept_fields _ _ K2). split_and!; [done|destruct S1; [left|right]; congruence|congruence].
    + right. split_and!; [done|destruct S2; [|by right]; destruct S1; [left|right]; congruence|congruence].
Qed.

(** [m] only cleans up builds of [ids], however it ends. *)
Definition Cleans (ids : list string) (full : bool) {E A} (m : ME E A) : Prop :=
  forall w w' r, m w = (w', r) -> cleaned_up ids full (w_db w) (w_db w').

Section Combine.
Context (ids : list string) (full : bool) {E F A B : Type}.

Lemma cleans_ret (a : A) : Cleans ids full (E := E) (mret a).
Proof. intros w w' r [= <- _]. by apply cleaned_same. Qed.

Lemma cleans_sql (f : db -> db * A) :
  (forall d, cleaned_up ids full d (fst (f d))) -> Cleans ids full (sql f).
Proof.
  intros Hf w w' [a|e] H.
  - apply sql_ok in H as [H _]. specialize (Hf (w_db w)). by rewrite H in Hf.
  - apply sql_err in H as [-> _]. by apply cleaned_same.
Qed.

Lemma cleans_map_err (f : E -> F) (m : ME E A) : Cleans ids full m -> Cleans ids full (map_errM f m).
Proof.
  intros Hm w w' r. unfold map_errM. destruct (m w) as [w1 r1] eqn:E1. intros [= <- _]. by eapply Hm.
Qed.

Lemma cleans_bind (m : ME E A) (f : A -> ME E B) :
  Cleans ids full m -> (forall a, Cleans ids full (f a)) -> Cleans ids full (m ≫= f).
Proof.
  intros Hm Hf w w' r. unfold mbind, M_bind. destruct (m w) as [w1 [a|e]] eqn:E1; intros H.
  - eapply cleaned_trans; [by eapply Hm|by eapply Hf].
  - simplify_eq. by eapply Hm.
Qed.

Lemma cleans_catch (m : ME E A) (f : result E A -> ME F B) :
  Cleans ids full m -> (forall r, Cleans ids full (f r)) -> Cleans ids full (catch m f).
Proof.
  intros Hm Hf w w' r. unfold catch. destruct (m w) as [w1 r1] eqn:E1. intros H.
  eapply cleaned_trans; [by eapply Hm|by eapply Hf].
Qed.

End Combine.

Lemma cleaned_touch id full d : cleaned_up [id] full d (touch_build id mark_expired d).
Proof.
  split; [done|..]; cbn; intros k; rewrite lookup_alter; case_decide as Hk; try subst k.
  - by intros ->.
  - done.
  - by intros b ->.
  - by intros b ->.
  - intros b b' -> [= <-]. right. split; [set_solver|]. unfold mark_expired. case_match; auto.
  - intros b b' -> [= <-]. by left; left.
Qed.

Lemma cleans_expire id full now : Cleans [id] full (expire_build_artifacts id now).
Proof.
  unfold expire_build_artifacts, soft.
  apply cleans_bind; [apply cleans_map_err, cleans_sql; intros d; by apply cleaned_same|intros _].
  apply cleans_bind; [apply cleans_map_err, cleans_sql; intros d; apply cleaned_touch|intros _].
  apply cleans_bind; [apply cleans_map_err|intros _; apply cleans_ret].
  intros w w' [b|e] H; [|apply transition_err in H as ->; by apply cleaned_same].
  apply transition_ok in H as (b0 & Hb0 & _ & Hd & _).
  destruct (transition_db_lookup id (b_status b0) BuildStatus.Expired None
    (Some "retention policy cleanup"%string) None now (w_db w) b0 Hb0 eq_refl)
    as (b1 & Hb1 & Hs1 & Hm1 & _). rewrite <- Hd in Hb1.
  split; [rewrite Hd; unfold transition_db, update_build; cbn; by repeat case_match|..];
    intros k; rewrite Hb1.
  - intros Hn. rewrite lookup_insert_ne; [done|]. intros ->. congruence.
  - intros o Ho Hn. apply lookup_insert_None in Hn as [? ?]. congruence.
  - intros o o' Ho Ho'. apply lookup_insert_Some in Ho' as [[-> <-]|[_ ?]]; simplify_eq; [right|by left; left].
    split; [set_solver|auto].
Qed.

Lemma has_release_false id d :
  has_release id d = false <-> forall k rl, releases d !! k = Some rl -> rl_build_id rl <> id.
Proof.
  unfold has_release. rewrite <- not_true_iff_false, existsb_exists. split.
  - intros H k rl Hk Heq. apply H. exists (k, rl).
    split; [by apply list_elem_of_In, elem_of_map_to_list|by apply String.eqb_eq].
  - intros H ([k rl] & Hin & Heq%String.eqb_eq).
    apply list_elem_of_In, elem_of_map_to_list in Hin. by apply (H k rl).
Qed.

Lemma cleaned_delete id d :
  has_release id d = false -> cleaned_up [id] true d (delete_build_row id d).
Proof.
  intros Hr. split; cbn.
  - apply map_eq. intros k. rewrite has_release_false in Hr. apply option_eq. intros rl.
    rewrite map_lookup_filter_Some. naive_solver.
  - intros k Hk. by rewrite lookup_fmap, lookup_delete, Hk; case_decide.
  - intros k b Hb. rewrite lookup_fmap, lookup_delete, Hb. case_decide; [|done]. subst.
    intros _. split_and!; [set_solver|done|done].
  - intros k b b' Hb. rewrite lookup_fmap, lookup_delete, Hb. case_decide; [done|].
    intros [= <-]. left. unfold kept. case_match; auto.
Qed.

Lemma cleans_record id target now :
  Cleans [id] (bool_decide (target = RetentionCleanupTarget.Full)) (cleanup_build_record id target now).
Proof.
  unfold cleanup_build_record. apply cleans_catch; [|intros; apply cleans_ret].
  destruct target; [apply cleans_expire|]. cbn.
  apply cleans_bind; [|intros n; case_match; [apply cleans_expire|apply cleans_ret]].
  apply cleans_map_err, cleans_sql. intros d. destruct (has_release id d) eqn:Hr; [by apply cleaned_same|].
  case_match; [by apply cleaned_delete|by apply cleaned_same].
Qed.

(** Reading leaves the database as it is, however it ends. *)
Definition Reads {E A} (m : ME E A) : Prop := forall w w' r, m w = (w', r) -> w_db w' = w_db w.

Lemma reads_ret {E A} (a : A) : Reads (E := E) (mret a).
Proof. by intros w w' r [= <- _]. Qed.

Lemma reads_sql {A} (f : db -> A) : Reads (sql (fun d => (d, f d))).
Proof. intros w w' [a|e] H; [by apply read_ok in H as [? _]|by apply sql_err in H as [? _]]. Qed.

Lemma reads_bind {E A B} (m : ME E A) (f : A -> ME E B) :
  Reads m -> (forall a, Reads (f a)) -> Reads (m ≫= f).
Proof.
  intros Hm Hf w w' r. unfold mbind, M_bind. destruct (m w) as [w1 [a|e]] eqn:E1; intros H.
  - rewrite (Hf _ _ _ _ H). by eapply Hm.
  - simplify_eq. by eapply Hm.
Qed.

Ltac reads_tac :=
  repeat first [apply reads_ret | apply reads_sql | apply reads_bind; [|intros ?] | case_match].

Lemma reads_collect pid policy now : Reads (collect_retention_candidates pid policy now).
Proof. unfold collect_retention_candidates, add_size_limit_candidates. reads_tac. Qed.

Lemma reads_effective pid : Reads (load_effective_policy pid).
Proof. unfold load_effective_policy, load_global_policy. reads_tac. Qed.

Section Project.
Context (deletable : string -> bool).

Lemma cleans_object ids full path : Cleans ids full (delete_object deletable path).
Proof.
  intros w w' r. unfold delete_object. case_match; intros [= <- _]; by apply cleaned_same.
Qed.

Lemma cleans_files ids full l : forall totals, Cleans ids full (delete_artifact_files deletable l totals).
Proof.
  induction l as [|a l IH]; intros totals; [apply cleans_ret|]. cbn.
  apply cleans_bind; [apply cleans_object|]. intros []; [apply IH|apply cleans_ret].
Qed.

Lemma cleans_screenshots ids full keys : Cleans ids full (delete_screenshots deletable keys).
Proof.
  unfold delete_screenshots. induction keys as [|k keys IH]; [apply cleans_ret|].
  cbn. apply cleans_bind; [|intros []; apply IH].
  apply cleans_bind; [apply cleans_object|intros; apply cleans_ret].
Qed.

Lemma cleans_read ids full {A} (f : db -> A) : Cleans ids full (sql (fun d => (d, f d))).
Proof. apply cleans_sql. intros d. by apply cleaned_same. Qed.

Definition is_full (policy : RetentionPolicy) : bool :=
  bool_decide (cleanup_target policy = RetentionCleanupTarget.Full).

Lemma cleans_candidate policy now by_build id acc :
  Cleans [id] (is_full policy) (cleanup_candidate deletable policy now by_build id acc).
Proof.
  unfold cleanup_candidate. destruct acc as [totals cleaned].
  destruct (dry_run policy); [apply cleans_ret|].
  apply cleans_bind; [apply cleans_files|]. intros [[] t]; cbn [negb]; [|apply cleans_ret].
  assert (Hclean : forall keys, Cleans [id] (is_full policy)
    (done ← cleanup_build_record id (cleanup_target policy) now;
     if negb done then mret (t, cleaned)
     else
       _ ← (if bool_decide (keys = []) then mret tt
            else kept ← build_exists id;
                 if (kept : bool) then mret tt else delete_screenshots deletable keys);
       mret (Totals (builds_expired t + 1) (artifacts_deleted t) (bytes_reclaimed t), S cleaned))).
  { intros keys. apply cleans_bind; [apply cleans_record|]. intros []; cbn; [|apply cleans_ret].
    apply cleans_bind; [|intros; apply cleans_ret]. case_match; [apply cleans_ret|].
    apply cleans_bind; [apply cleans_catch; [apply cleans_read|intros; apply cleans_ret]|].
    intros []; [apply cleans_ret|apply cleans_screenshots]. }
  destruct (cleanup_target policy) eqn:Et; [exact (Hclean [])|].
  apply cleans_catch; [apply cleans_read|]. intros [keys|e]; [apply Hclean|apply cleans_ret].
Qed.

Lemma cleaned_more ids ids' full d d' :
  (forall id, id ∈ ids -> id ∈ ids') -> cleaned_up ids full d d' -> cleaned_up ids' full d d'.
Proof.
  intros Hs [R N G W]. split; [done|done|..].
  - intros id b Hb Hn. destruct (G _ _ Hb Hn) as (? & ? & ?). auto.
  - intros id b b' Hb Hb'. destruct (W _ _ _ Hb Hb') as [?|(? & ? & ?)]; [by left|right; auto].
Qed.

Lemma cleans_candidates policy now by_build ids : forall acc,
  Cleans ids (is_full policy) (for_each (cleanup_candidate deletable policy now by_build) ids acc).
Proof.
  induction ids as [|id ids IH]; intros acc; [apply cleans_ret|]. cbn [for_each].
  apply cleans_bind.
  - intros w w' r H. eapply cleaned_more; [|by eapply cleans_candidate]. set_solver.
  - intros a w w' r H. eapply cleaned_more; [|by eapply IH]. set_solver.
Qed.

(** The policy [load_effective_policy] reads. *)
Definition effective_policy (project_id : string) (d : db) : RetentionPolicy :=
  let global := default default_policy (retention_policy d) in
  match retention_overrides d !! project_id with
  | Some ovr => merge_override global ovr
  | None => global
  end.

Lemma load_effective_ok pid w w' p :
  load_effective_policy pid w = (w', Ok p) -> w_db w' = w_db w /\ p = effective_policy pid (w_db w).
Proof.
  unfold load_effective_policy, load_global_policy. intros H.
  apply M_bind_ok in H as (w1 & g & H1 & H). apply M_bind_ok in H1 as (w0 & row & [D0 ->]%read_ok & [= -> <-]).
  apply M_bind_ok in H as (w2 & o & [D2 ->]%read_ok & [= -> <-]).
  unfold effective_policy. rewrite D2, D0. done.
Qed.

(** How a run over a project goes: nothing changes, or the candidates of its
    policy are cleaned up. *)
Lemma cleanup_project_run pid now totals w w' r :
  cleanup_project deletable pid now totals w = (w', r) ->
  w_db w' = w_db w /\ (forall n c t, r = Ok (n, c, t) -> c = 0%nat) \/
  exists ids w1 r1, let policy := effective_policy pid (w_db w) in
    rp_enabled policy = true /\ w_db w1 = w_db w /\
    (forall id, id ∈ ids -> candidate (Eligible_new policy) pid (w_db w) id) /\
    for_each (cleanup_candidate deletable policy now
      (fun id => List.filter (fun a => String.eqb (ar_build_id a) id) (artifacts (w_db w)))) ids
      (totals, 0%nat) w1 = (w', r1) /\
    match r1 with
    | Ok (t, cleaned) => r = Ok (length ids, cleaned, t)
    | Err e => r = Err e
    end.
Proof.
  unfold cleanup_project, mbind at 1, M_bind at 1. intros H.
  destruct (load_effective_policy pid w) as [w1 [p|e]] eqn:E1.
  2: { left. injection H as <- <-. by apply reads_effective in E1. }
  apply load_effective_ok in E1 as [D1 ->]. destruct (rp_enabled _) eqn:En; cbn in H;
    [|left; injection H as <- <-; split; [done|by intros ? ? ? [= _ <- _]]].
  unfold mbind at 1, M_bind at 1 in H.
  destruct (collect_retention_candidates _ _ _ w1) as [w2 [ids|e]] eqn:E2.
  2: { left. injection H as <- <-. rewrite <- D1. by apply reads_collect in E2. }
  apply collect_candidates in E2 as (D2 & C2 & _). rewrite D1 in D2, C2.
  unfold mbind at 1, M_bind at 1 in H.
  destruct (load_artifacts_for_builds ids w2) as [w3 [by_build|e]] eqn:E3.
  2: { left. injection H as <- <-. unfold load_artifacts_for_builds in E3.
       case_bool_decide; [done|]. apply sql_err in E3 as [-> _]. done. }
  unfold mbind, M_bind in H.
  destruct (for_each _ ids (totals, 0%nat) w3) as [w4 r4] eqn:E4.
  right. exists ids, w3, r4. unfold load_artifacts_for_builds in E3.
  case_bool_decide as Hn.
  - subst ids. injection E3 as -> _. cbn in E4. injection E4 as <- <-. cbn in H. injection H as <- <-.
    split_and!; [done|done|done|done|done].
  - apply read_ok in E3 as [D3 ->]. rewrite D2 in E4, D3. destruct r4 as [[t c]|e]; injection H as <- <-;
      by split_and!.
Qed.

End Project.

Lemma dry_run_reads deletable policy now by_build ids : forall acc w w' r,
  dry_run policy = true ->
  for_each (cleanup_candidate deletable policy now by_build) ids acc w = (w', r) -> w_db w' = w_db w.
Proof.
  induction ids as [|id ids IH]; intros [t c] w w' r Hd H; [by injection H as <- _|].
  cbn [for_each] in H. unfold mbind, M_bind in H.
  destruct (cleanup_candidate _ _ _ _ id _ w) as [w1 r1] eqn:E.
  unfold cleanup_candidate in E. rewrite Hd in E. injection E as <- <-. by eapply IH.
Qed.

(** ** What retention promises *)

Lemma eligible_statuses policy b :
  listed (el_statuses (Eligible_new policy)) (BuildStatus.fmt (b_status b)) = true ->
  BuildStatus.is_terminal (b_status b) = true.
Proof.
  rewrite listed_In. unfold Eligible_new. cbn [el_statuses]. rewrite elem_of_app. intros [H|H].
  - apply list_elem_of_In, filter_In in H as [H _].
    destruct (b_status b); [exfalso..| | | | |]; try done; cbn in H; naive_solver.
  - case_bool_decide; [|by apply elem_of_nil in H]. apply list_elem_of_singleton in H.
    destruct (b_status b); cbn in H; try discriminate H; done.
Qed.

Lemma candidate_protected policy pid d id b :
  builds d !! id = Some b -> candidate (Eligible_new policy) pid d id ->
  b_project_id b = pid /\ BuildStatus.is_terminal (b_status b) = true /\
  BuildStatus.fmt (outcome b) ∉ keep_statuses policy /\
  forall k rl, releases d !! k = Some rl -> rl_build_id rl = id -> release_over (rl_state rl) = true.
Proof.
  intros Hb (b0 & Hb0 & Hp & Hf). simplify_eq. unfold el_filter in Hf.
  apply andb_true_iff in Hf as [[Hs Ho]%andb_true_iff Hr%negb_true_iff].
  split_and!; [done|by eapply eligible_statuses|..].
  - apply listed_In, list_elem_of_In, filter_In in Ho as [_ Ho%negb_true_iff].
    intros Hin. apply listed_In in Hin. congruence.
  - intros k rl Hk Heq. destruct (release_over (rl_state rl)) eqn:Er; [done|].
    apply not_true_iff_false in Hr. exfalso. apply Hr, existsb_exists. exists (k, rl).
    split; [by apply list_elem_of_In, elem_of_map_to_list|]. cbn. by rewrite Heq, String.eqb_refl, Er.
Qed.

(** retention spares what is protected.  Whatever fails, a cleanup of a
    project leaves every build as it was (but for the link to a deleted source
    build), unless the project's policy is enabled and not a dry run and the
    build belongs to the project, is finished, has an outcome the policy does
    not keep and no release in progress.  Such a build is at most marked
    expired; its row goes only in a full cleanup and when it has no release. *)
Theorem cleanup_spares_protected (deletable : string -> bool) (pid : string) (now : Z)
    (totals : CleanupTotals) (w w' : world) (r : result sqlx_error (nat * nat * CleanupTotals)) :
  cleanup_project deletable pid now totals w = (w', r) ->
  forall id b, builds (w_db w) !! id = Some b ->
  (exists b', builds (w_db w') !! id = Some b' /\ kept b b') \/
  let policy := effective_policy pid (w_db w) in
  rp_enabled policy = true /\ dry_run policy = false /\ b_project_id b = pid /\
  BuildStatus.is_terminal (b_status b) = true /\
  BuildStatus.fmt (outcome b) ∉ keep_statuses policy /\
  (forall k rl, releases (w_db w) !! k = Some rl -> rl_build_id rl = id ->
     release_over (rl_state rl) = true) /\
  match builds (w_db w') !! id with
  | Some b' => (b_status b' = b_status b \/ b_status b' = BuildStatus.Expired) /\ b_meta b' = b_meta b
  | None => cleanup_target policy = RetentionCleanupTarget.Full /\ has_release id (w_db w) = false
  end.
Proof.
  intros H id b Hb. apply cleanup_project_run in H as [[Hd _]|(ids & w1 & r1 & Hen & D1 & Hc & Hloop & _)].
  { left. exists b. rewrite Hd. split; [done|by left]. }
  set (policy := effective_policy pid (w_db w)) in *. cbv zeta.
  destruct (dry_run policy) eqn:Hdry.
  { left. exists b. split; [|by left]. rewrite <- Hb, <- D1. f_equal. f_equal.
    eapply dry_run_reads; [exact Hdry|exact Hloop]. }
  pose proof (cleans_candidates deletable _ _ _ _ _ _ _ _ Hloop) as [_ _ G W]. rewrite D1 in G, W.
  destruct (builds (w_db w') !! id) as [b'|] eqn:Hb'.
  - destruct (W _ _ _ Hb Hb') as [Hk|(Hin & Hs & Hm)]; [left; eauto|right].
    destruct (candidate_protected _ _ _ _ _ Hb (Hc _ Hin)) as (? & ? & ? & ?). by split_and!.
  - right. destruct (G _ _ Hb Hb') as (Hin & Hf%bool_decide_eq_true & Hr).
    destruct (candidate_protected _ _ _ _ _ Hb (Hc _ Hin)) as (? & ? & ? & ?). by split_and!.
Qed.

(** ** The run ends *)

(** Builds left to clean, counted twice until they are expired. *)
Definition unexpired (m : gmap string build) : gmap string build :=
  filter (fun kv => b_status kv.2 <> BuildStatus.Expired) m.

Definition backlog (d : db) : nat := size (builds d) + size (unexpired (builds d)).

Lemma cleaned_doms ids full d d' :
  cleaned_up ids full d d' ->
  dom (builds d') ⊆ dom (builds d) /\ dom (unexpired (builds d')) ⊆ dom (unexpired (builds d)).
Proof.
  intros [_ N _ W]. split; intros id; rewrite !elem_of_dom.
  - intros [b' Hb']. destruct (builds d !! id) eqn:E; [eauto|by rewrite (N _ E) in Hb'].
  - intros [b' [Hb' Hs]%map_lookup_filter_Some]. cbn in Hs.
    destruct (builds d !! id) as [b|] eqn:E; [|by rewrite (N _ E) in Hb'].
    exists b. apply map_lookup_filter_Some. split; [done|]. cbn.
    destruct (W _ _ _ E Hb') as [K|(_ & [S|S] & _)]; [destruct (kept_fields _ _ K)|..]; congruence.
Qed.

Lemma cleaned_backlog ids full d d' : cleaned_up ids full d d' -> (backlog d' <= backlog d)%nat.
Proof.
  intros [H1 H2]%cleaned_doms. unfold backlog. rewrite <- !(size_dom (D := gset string)).
  apply subseteq_size in H1, H2. lia.
Qed.

(** Expiring a build takes it off the backlog once. *)
Lemma expire_backlog id now w w' :
  expire_build_artifacts id now w = (w', Ok tt) -> (backlog (w_db w') < backlog (w_db w))%nat.
Proof.
  intros H. unfold expire_build_artifacts in H.
  apply M_bind_ok in H as (w1 & [] & H1 & H). apply M_bind_ok in H as (w2 & [] & H2 & H).
  apply M_bind_ok in H as (w3 & b & H3 & [= -> ]).
  assert (Hle : (backlog (w_db w2) <= backlog (w_db w))%nat).
  { assert (Hc1 : (backlog (w_db w1) <= backlog (w_db w))%nat).
    { eapply (cleaned_backlog [id] true), cleans_map_err, H1. apply cleans_sql. intros d. by apply cleaned_same. }
    etrans; [|exact Hc1]. eapply (cleaned_backlog [id] true), cleans_map_err, H2.
    apply cleans_sql. intros d. apply cleaned_touch. }
  unfold soft, map_errM in H3.
  destruct (transition_build _ _ _ _ _ w2) as [w4 [b4|e]] eqn:E4; [|done]. injection H3 as <- _.
  apply transition_ok in E4 as (b0 & Hb0 & Hcan & Hd & _).
  destruct (transition_db_lookup id (b_status b0) BuildStatus.Expired None
    (Some "retention policy cleanup"%string) None now (w_db w2) b0 Hb0 eq_refl)
    as (b1 & Hb1 & Hs1 & _). rewrite <- Hd in Hb1.
  assert (Hlt : (size (unexpired (builds (w_db w4))) < size (unexpired (builds (w_db w2))))%nat).
  { rewrite <- !(size_dom (D := gset string)). apply subset_size. split.
    - intros k. rewrite !elem_of_dom. intros [b' [Hb' Hn]%map_lookup_filter_Some]. rewrite Hb1 in Hb'.
      apply lookup_insert_Some in Hb' as [[-> <-]|[_ Hb']]; [done|].
      exists b'. by apply map_lookup_filter_Some.
    - intros Hsub. assert (Hin : id ∈ dom (unexpired (builds (w_db w2)))).
      { apply elem_of_dom. exists b0. apply map_lookup_filter_Some. split; [done|]. cbn.
        by destruct (b_status b0). }
      apply Hsub, elem_of_dom in Hin as [b' [Hb' Hn]%map_lookup_filter_Some].
      rewrite Hb1, lookup_insert_eq in Hb'. by simplify_eq. }
  assert (Hsz : size (builds (w_db w4)) = size (builds (w_db w2))).
  { rewrite Hb1. by apply map_size_insert_Some. }
  unfold backlog in *. lia.
Qed.

Lemma delete_backlog id d : is_Some (builds d !! id) -> (backlog (delete_build_row id d) < backlog d)%nat.
Proof.
  intros [b Eb]. unfold backlog. cbn.
  assert (Hd : size (delete id (builds d)) = pred (size (builds d))).
  { apply map_size_delete_Some. by rewrite Eb. }
  assert (size (builds d) <> 0%nat) by (intros Hz%map_size_empty_inv; by rewrite Hz in Eb).
  rewrite map_size_fmap, Hd.
  assert (size (unexpired ((fun b0 => if bool_decide (b_source_build_id b0 = Some id)
    then set_source_build_id None b0 else b0) <$> delete id (builds d)))
    <= size (unexpired (builds d)))%nat; [|lia].
  rewrite <- !(size_dom (D := gset string)). apply subseteq_size. intros k. rewrite !elem_of_dom.
  intros [b' [Hb' Hn]%map_lookup_filter_Some]. rewrite lookup_fmap, lookup_delete in Hb'.
  case_decide; [done|]. destruct (builds d !! k) as [o|] eqn:Ek; [|done]. injection Hb' as <-.
  exists o. apply map_lookup_filter_Some. split; [done|]. cbn in *. by case_match.
Qed.

(** A record that is reported as cleaned up was expired or deleted. *)
Lemma record_backlog id target now w w' :
  cleanup_build_record id target now w = (w', Ok true) -> (backlog (w_db w') < backlog (w_db w))%nat.
Proof.
  unfold cleanup_build_record, catch. intros H.
  destruct target; [destruct (expire_build_artifacts id now w) as [w1 [[]|e]] eqn:E1;
    [injection H as <-; by eapply expire_backlog|done]|].
  destruct ((soft _ ≫= _) w) as [w1 [[]|e]] eqn:E1; [|done]. injection H as <-.
  apply M_bind_ok in E1 as (w2 & n & E2 & E1). unfold soft, map_errM in E2.
  destruct (sql _ w) as [w3 [n3|e]] eqn:E3; [|done]. injection E2 as <- <-.
  apply sql_ok in E3 as [E3 _]. destruct (has_release id (w_db w)).
  { injection E3 as D3 <-. cbn in E1. rewrite D3. by eapply expire_backlog. }
  destruct (builds (w_db w) !! id) as [b|] eqn:Eb; injection E3 as D3 <-; cbn in E1.
  - injection E1 as <-. rewrite <- D3. apply delete_backlog. eauto.
  - rewrite D3. by eapply expire_backlog.
Qed.

Section Passes.
Context (deletable : string -> bool).

Lemma candidate_backlog policy now by_build id t c w w' t' c' :
  cleanup_candidate deletable policy now by_build id (t, c) w = (w', Ok (t', c')) ->
  (backlog (w_db w') + c' <= backlog (w_db w) + c)%nat.
Proof.
  intros H. pose proof (cleaned_backlog _ _ _ _ (cleans_candidate _ _ _ _ _ _ _ _ _ H)) as Hle.
  unfold cleanup_candidate in H. destruct (dry_run policy); [by injection H as <- <- <-|].
  apply M_bind_ok in H as (w1 & [deleted t1] & H1 & H).
  pose proof (cleaned_backlog _ _ _ _ (cleans_files deletable [id] true _ _ _ _ _ H1)) as Hle1.
  destruct deleted; cbn [negb] in H; [|by injection H as <- <- <-; lia].
  assert (Hclean : forall keys w2 w3 x,
    (done ← cleanup_build_record id (cleanup_target policy) now;
     if negb done then mret (t1, c)
     else
       _ ← (if bool_decide (keys = []) then mret tt
            else kept ← build_exists id;
                 if (kept : bool) then mret tt else delete_screenshots deletable keys);
       mret (Totals (builds_expired t1 + 1) (artifacts_deleted t1) (bytes_reclaimed t1), S c)) w2
      = (w3, Ok x) -> x.2 = c \/ x.2 = S c /\ (backlog (w_db w3) < backlog (w_db w2))%nat).
  { clear. intros keys w2 w3 x H. apply M_bind_ok in H as (w4 & [] & H4 & H); cbn [negb] in H;
      [|injection H as _ <-; by left].
    right. apply record_backlog in H4. apply M_bind_ok in H as (w5 & u & H5 & [= -> <-]).
    split; [done|]. enough (backlog (w_db w3) <= backlog (w_db w4))%nat by lia.
    apply (cleaned_backlog [] false). revert H5. case_bool_decide; [apply cleans_ret|].
    intros H5. eapply cleans_bind, H5; [apply cleans_catch; [apply cleans_read|intros; apply cleans_ret]|].
    intros []; [apply cleans_ret|apply cleans_screenshots]. }
  destruct (cleanup_target policy).
  - apply (Hclean []) in H as [Hx|[Hx ?]]; cbn in Hx; lia.
  - unfold catch in H. destruct (screenshot_keys_for_build id w1) as [w2 [keys|e]] eqn:E2.
    + apply read_ok in E2 as [D2 _]. rewrite <- D2 in Hle1.
      apply Hclean in H as [Hx|[Hx ?]]; cbn in Hx; lia.
    + injection H as <- <- <-. lia.
Qed.

Lemma candidates_backlog policy now by_build ids : forall t c w w' t' c',
  for_each (cleanup_candidate deletable policy now by_build) ids (t, c) w = (w', Ok (t', c')) ->
  (backlog (w_db w') + c' <= backlog (w_db w) + c)%nat.
Proof.
  induction ids as [|id ids IH]; intros t c w w' t' c' H; [by injection H as <- <- <-|].
  cbn [for_each] in H. apply M_bind_ok in H as (w1 & [t1 c1] & H1%candidate_backlog & H%IH). lia.
Qed.

Lemma project_backlog pid now t w w' n c t' :
  cleanup_project deletable pid now t w = (w', Ok (n, c, t')) ->
  (backlog (w_db w') + c <= backlog (w_db w))%nat.
Proof.
  intros [[Hd Hc]|(ids & w1 & r1 & _ & D1 & _ & Hl & Hr)]%cleanup_project_run.
  - rewrite Hd, (Hc _ _ _ eq_refl). lia.
  - destruct r1 as [[t1 c1]|e]; [|done]. simplify_eq. apply candidates_backlog in Hl. rewrite D1 in Hl. lia.
Qed.

(** A pass that made progress left a smaller backlog. *)
Lemma pass_backlog over now ids : forall p w w' p',
  for_each (pass_project deletable over now) ids p w = (w', Ok p') ->
  (backlog (w_db w') <= backlog (w_db w))%nat /\
  (made_progress p' = true -> made_progress p = true \/ (backlog (w_db w') < backlog (w_db w))%nat).
Proof.
  induction ids as [|id ids IH]; intros p w w' p' H; [injection H as <- <-; auto|].
  cbn [for_each] in H. apply M_bind_ok in H as (w1 & p1 & H1 & H). apply IH in H as [Hle Hpr].
  unfold pass_project in H1. destruct (budget_exhausted p); [by injection H1 as -> ->|].
  apply M_bind_ok in H1 as (w2 & [[n c] t] & H2%project_backlog & [= -> <-]). cbn [made_progress] in Hpr.
  split; [lia|]. intros Hp. destruct (Hpr Hp) as [[?|?%Nat.ltb_lt]%orb_true_iff|?]; [by left|right; lia..].
Qed.

(** a cleanup run ends.  With more fuel than there are builds, each
    counted twice, no run gives up for lack of it: as long as the run goes on
    each pass expires or deletes some build. *)
Theorem retention_run_ends (over_budget : nat -> bool) (now : Z) (fuel : nat) (w : world) :
  (backlog (w_db w) < fuel)%nat ->
  snd (run_retention_cleanup deletable fuel over_budget now w) <> Ok None.
Proof.
  assert (Hpasses : forall fuel w dry ids clock t, (backlog (w_db w) < fuel)%nat ->
    snd (cleanup_passes deletable fuel over_budget now dry ids clock t w) <> Ok None).
  { clear. induction fuel as [|fuel IH]; intros w dry ids clock t Hf; [lia|]. cbn [cleanup_passes].
    unfold mbind, M_bind. destruct (for_each _ ids _ w) as [w1 [p|e]] eqn:E; [|done].
    apply pass_backlog in E as [Hle Hp]. cbn in Hp.
    destruct dry; [done|]. destruct (budget_exhausted p); [done|]. cbn.
    destruct (full_batch_seen p); cbn; [|done]. destruct (made_progress p); cbn; [|done].
    apply IH. destruct (Hp eq_refl); [done|lia]. }
  intros Hf. unfold run_retention_cleanup, mbind, M_bind.
  destruct (load_global_policy w) as [w0 [policy|e]] eqn:E0; [|done].
  assert (D0 : w_db w0 = w_db w) by (revert E0; unfold load_global_policy; apply reads_bind;
    [apply reads_sql|intros; apply reads_ret]).
  destruct (negb _); [done|].
  destruct (sql _ w0) as [w1 [ids|e]] eqn:E1; [|done]. apply read_ok in E1 as [D1 ->].
  specialize (Hpasses fuel w1 (dry_run policy) (map fst (map_to_list (projects (w_db w0)))) 0%nat (Totals 0 0 0)).
  destruct (cleanup_passes _ _ _ _ _ _ _ _ w1) as [w2 [[[rs t]|]|e]]; [|exfalso; apply Hpasses; [congruence|done]|done].
  destruct (_ || _); [|done]. destruct (write_audit_log _ _ _ _ w2) as [w3 r3] eqn:E3.
  by apply audit_run in E3 as (-> & _).
Qed.

End Passes.

(** ** The limits *)

Lemma i64_id z : - 2 ^ 63 <= z < 2 ^ 63 -> i64 z = z.
Proof. intros H. unfold i64. rewrite Z.mod_small; lia. Qed.

(** the age limit.  For every age limit up to 10^14 days (beyond, the
    multiplication by 86400 overflows) the age limit only selects builds of
    the project that finished more than that many days ago and that the
    policy may clean up, and all of them when they fit in the batch. *)
Theorem age_limit_exact (pid : string) (e : Eligible) (now days : Z) (n : nat) (d : db) :
  0 <= now < 2 ^ 60 -> 1 <= days <= 10 ^ 14 ->
  let ids := load_expired_build_ids pid e (age_cutoff now days) n d in
  let old (b : build) := exists t, b_finished_at b = Some t /\ t < now - days * 86400 in
  (forall id, id ∈ ids -> exists b, builds d !! id = Some b /\ b_project_id b = pid /\
     el_filter e d id b = true /\ old b) /\
  ((length ids < n)%nat -> forall id b, builds d !! id = Some b -> b_project_id b = pid ->
     el_filter e d id b = true -> old b -> id ∈ ids).
Proof.
  intros Hnow Hdays ids old.
  assert (Hcut : age_cutoff now days = now - days * 86400).
  { unfold age_cutoff. rewrite (i64_id (days * 86400)) by lia. apply i64_id. lia. }
  unfold ids, load_expired_build_ids. rewrite Hcut.
  set (more := fun b : build => match b_finished_at b with Some t => t <? now - days * 86400 | None => false end).
  assert (Hmore : forall b, more b = true <-> old b).
  { intros b. unfold more, old. destruct (b_finished_at b) as [t|]; [rewrite Z.ltb_lt|]; naive_solver. }
  assert (Hsel : forall id b, (id, b) ∈ merge_sort by_finished (project_candidates e pid more d) <->
    builds d !! id = Some b /\ b_project_id b = pid /\ el_filter e d id b = true /\ old b).
  { intros id b. rewrite merge_sort_Permutation. unfold project_candidates.
    rewrite elem_of_select_builds, !andb_true_iff, String.eqb_eq, Hmore. naive_solver. }
  split.
  - intros id ([k b] & Hin & <-)%take_map_elem. apply Hsel in Hin. exists b. done.
  - intros Hlen id b Hb Hp Hf Ho. rewrite take_ge.
    + apply list_elem_of_In. change id with (fst (id, b)). apply in_map, list_elem_of_In. by apply Hsel.
    + rewrite length_take in Hlen. lia.
Qed.

(** Beyond that the cutoff can lie in the future: a policy that means to keep
    builds for 1.5 * 10^14 days selects every finished build. *)
Example age_cutoff_overflow : 1700000000 < age_cutoff 1700000000 (15 * 10 ^ 13).
Proof. vm_compute. reflexivity. Qed.

#[local] Instance newest_first_trans : Transitive (flip by_finished).
Proof.
  intros x y z. unfold flip, by_finished. repeat case_match; try done; lia.
Qed.

#[local] Instance newest_first_total : Total (flip by_finished).
Proof. intros x y. unfold flip, by_finished. repeat case_match; auto; lia. Qed.

(** the count limit keeps the newest.  For every build it selects there
    are [keep_count] other builds the policy could clean up that finished no
    earlier and are not selected. *)
Theorem count_limit_keeps_newest (pid : string) (e : Eligible) (keep_count : Z) (n : nat) (d : db)
    (id : string) (b : build) :
  id ∈ load_excess_build_ids pid e keep_count n d -> builds d !! id = Some b ->
  exists newer : list (string * build),
    length newer = Z.to_nat keep_count /\ NoDup (map fst newer) /\
    forall k o, (k, o) ∈ newer -> builds d !! k = Some o /\ candidate e pid d k /\
      by_finished (id, b) (k, o) /\ k ∉ load_excess_build_ids pid e keep_count n d.
Proof.
  intros Hin Hb. set (l := merge_sort (flip by_finished) (project_candidates e pid (fun _ => true) d)).
  set (m := Z.to_nat keep_count).
  assert (Hnd : NoDup (map fst l)).
  { unfold l. rewrite merge_sort_Permutation. eapply sublist_NoDup;
      [apply (NoDup_fst_map_to_list (builds d))|]. apply sublist_map, sublist_filter. }
  assert (Hl : forall k o, (k, o) ∈ l -> builds d !! k = Some o /\ candidate e pid d k).
  { intros k o H. unfold l in H. rewrite merge_sort_Permutation in H.
    split; [by apply elem_of_select_builds in H as [? _]|by eapply project_candidates_elem]. }
  assert (Hs : StronglySorted (flip by_finished) (take m l ++ drop m l)).
  { rewrite take_drop. apply StronglySorted_merge_sort; apply _. }
  assert (Hout : forall k, k ∈ load_excess_build_ids pid e keep_count n d -> k ∈ map fst (drop m l)).
  { intros k H. unfold load_excess_build_ids in H. fold l m in H. rewrite skipn_map in H.
    apply take_map_elem in H as (x & Hx & <-). by apply list_elem_of_In, in_map, list_elem_of_In. }
  apply Hout in Hin as Hdrop. apply list_elem_of_In, in_map_iff in Hdrop as ([k0 b0] & Hk0 & Hdrop).
  cbn in Hk0. subst k0. apply list_elem_of_In in Hdrop.
  assert (b0 = b) as ->.
  { apply subseteq_drop in Hdrop. destruct (Hl _ _ Hdrop). congruence. }
  exists (take m l). split; [|split].
  - rewrite length_take. apply Nat.min_l. apply list_elem_of_lookup_1 in Hdrop as [i Hi].
    apply lookup_lt_Some in Hi. rewrite length_drop in Hi. lia.
  - eapply sublist_NoDup; [exact Hnd|]. apply sublist_map, sublist_take.
  - intros k o Hk. assert (Hkl : (k, o) ∈ l) by (by eapply subseteq_take). destruct (Hl _ _ Hkl) as [Hko Hc].
    split_and!; [done|done|exact (StronglySorted_app_1_elem_of _ _ _ _ _ Hs Hk Hdrop)|].
    intros Hex%Hout. rewrite <- (take_drop m l), map_app in Hnd. apply NoDup_app in Hnd as (_ & Hdis & _).
    apply (Hdis k); [|done]. apply list_elem_of_In. change k with (fst (k, o)). by apply in_map, list_elem_of_In.
Qed.

(** *** Witnesses: a project with an old failed and a newer successful build *)

Definition finished_build (n at_ : Z) (s : BuildStatus.t) : build :=
  set_finished_at (Some at_) (set_status s
    (set_approval_state None (Build (Sample.meta n at_) s Sample.snap None None None None None None
       None None None None None at_ None None))).

Definition sample_policy : RetentionPolicy :=
  {| rp_enabled := true; max_age_days := Some 10; max_builds_per_project := None;
     max_artifact_size_bytes := None; cleanup_target := RetentionCleanupTarget.Full;
     keep_statuses := ["succeeded"%string]; dry_run := false; cleanup_interval_secs := 3600;
     artifact_ttl_days := None |}.

Definition two_builds : db :=
  set_builds {[ "b-old"%string := finished_build 1 1000 BuildStatus.Failed;
                "b-good"%string := finished_build 2 2000 BuildStatus.Succeeded ]}
    (set_retention_policy (Some sample_policy) Sample.database).

Lemma cleanup_spares_protected_witness :
  let out := cleanup_project (fun _ => true) "p1" 1000000 (Totals 0 0 0) (World two_builds [] []) in
  snd out = Ok (1%nat, 1%nat, Totals 1 0 0) /\
  builds (w_db (fst out)) !! "b-old"%string = None /\
  exists b, builds (w_db (fst out)) !! "b-good"%string = Some b /\ b_status b = BuildStatus.Succeeded.
Proof.
  intros out. split_and!; [vm_compute; reflexivity..|].
  destruct (cleanup_spares_protected (fun _ => true) "p1" 1000000 (Totals 0 0 0) (World two_builds [] [])
    (fst out) (snd out) (surjective_pairing _) "b-good" (finished_build 2 2000 BuildStatus.Succeeded))
    as [(b & Hb & Hk)|(_ & _ & _ & _ & Hkeep & _)]; [vm_compute; reflexivity|..].
  - exists b. split; [exact Hb|]. destruct (kept_fields _ _ Hk) as [-> _]. reflexivity.
  - exfalso. apply Hkeep. vm_compute. left.
Defined.

Lemma retention_run_ends_witness :
  (backlog two_builds < 5)%nat /\
  snd (run_retention_cleanup (fun _ => true) 5 (fun _ => false) 1000000 (World two_builds [] [])) <> Ok None.
Proof.
  assert (H : (backlog two_builds < 5)%nat) by (vm_compute; lia).
  split; [exact H|]. exact (retention_run_ends (fun _ => true) (fun _ => false) 1000000 5 (World two_builds [] []) H).
Defined.

Lemma age_limit_exact_witness :
  "b-old"%string ∈ load_expired_build_ids "p1" (Eligible_new sample_policy) (age_cutoff 1000000 10) 100 two_builds.
Proof.
  destruct (age_limit_exact "p1" (Eligible_new sample_policy) 1000000 10 100 two_builds) as [_ H]; [lia..|].
  apply (H ltac:(vm_compute; lia) "b-old" (finished_build 1 1000 BuildStatus.Failed)%string);
    [vm_compute; reflexivity..|]. exists 1000. split; [reflexivity|lia].
Defined.

Lemma count_limit_keeps_newest_witness :
  exists newer : list (string * build), length newer = 1%nat /\
    forall k o, (k, o) ∈ newer -> k ∉ load_excess_build_ids "p1"
      (Eligible_new (merge_override sample_policy {| ov_enabled := None; ov_max_age_days := None;
         ov_max_builds_per_project := Some 1; ov_max_artifact_size_bytes := None;
         ov_cleanup_target := None; ov_keep_statuses := Some []; ov_artifact_ttl_days := None |}))
      1 100 two_builds.
Proof.
  edestruct (count_limit_keeps_newest "p1"
    (Eligible_new (merge_override sample_policy {| ov_enabled := None; ov_max_age_days := None;
       ov_max_builds_per_project := Some 1; ov_max_artifact_size_bytes := None;
       ov_cleanup_target := None; ov_keep_statuses := Some []; ov_artifact_ttl_days := None |}))
    1 100 two_builds "b-old" (finished_build 1 1000 BuildStatus.Failed)) as (newer & Hlen & _ & H).
  - vm_compute. left.
  - vm_compute. reflexivity.
  - exists newer. split; [exact Hlen|]. intros k o Hk. apply (H k o Hk).
Defined.
