(* ===== verification/Lifecycle.v ===== *)
(** * The build lifecycle: one state machine

    [step] is one committed change of the [builds] table by any part of the
    daemon, with arbitrary parameters: what a handler read before it wrote may
    be out of date.  [inv] is the invariant of the table and its event log,
    which every step preserves.  That the daemon only takes such steps is
    shown in [Daemon.v]. *)

From stdpp Require Import relations.
From S2P Require Import Prelude Contract RustStr Labels Sizes Triggers Db Incidents Access Builds Runners Monitors Creation Schedules Retention.

Local Open Scope Z_scope.

(** ** Specification *)

(** The daemon records two kinds of events outside the contract's transition
    table.  The approval of a build keeps it queued: *)
Definition approval_event (e : build_event) : bool :=
  bool_decide (ev_from_status e = Some BuildStatus.Queued)
  && bool_decide (ev_to_status e = BuildStatus.Queued)
  && match ev_actor e, ev_reason e with
     | Some actor, Some reason => starts_with ("approved by " +:+ actor) reason
     | _, _ => false
     end.

(** The credential preflight fails a queued build, which
    [BuildStatus::valid_transitions] does not allow: *)
Definition preflight_event (e : build_event) : bool :=
  bool_decide (ev_from_status e = Some BuildStatus.Queued)
  && bool_decide (ev_to_status e = BuildStatus.Failed)
  && bool_decide (ev_actor e = Some "system:credential-preflight"%string)
  && match ev_reason e with
     | Some reason => starts_with "Source credentials require action. Repair: " reason
     | None => false
     end.

(** A status change of the transition table. *)
Definition table_event (e : build_event) : bool :=
  match ev_from_status e with
  | Some s => BuildStatus.can_transition_to s (ev_to_status e)
  | None => false
  end.

Definition legal (e : build_event) : bool :=
  table_event e || approval_event e || preflight_event e.

(** Replay events from a status; [None] when one does not start where the
    previous one ended or is not legal. *)
Definition replay_one (s : option BuildStatus.t) (e : build_event) : option BuildStatus.t :=
  match s with
  | Some s =>
      if bool_decide (ev_from_status e = Some s) && legal e
      then Some (ev_to_status e) else None
  | None => None
  end.

Definition replay_from (s : option BuildStatus.t) (l : list build_event) : option BuildStatus.t :=
  foldl replay_one s l.

(** The status changes of a build: its events but the creation record, which
    has no previous status and is written after the build is visible. *)
Definition events_of (id : string) (l : list build_event) : list build_event :=
  filter (fun e => ev_build_id e = id /\ is_Some (ev_from_status e)) l.

(** The status a build's log says it has; a new build is queued. *)
Definition replay (id : string) (l : list build_event) : option BuildStatus.t :=
  replay_from (Some BuildStatus.Queued) (events_of id l).

(** What every row satisfies: who holds it, when it started and ended. *)
Definition row_ok (b : build) : Prop :=
  match b_status b with
  | BuildStatus.Queued | BuildStatus.Scheduled =>
      b_runner_id b = None /\ b_signing_token_hash b = None /\ b_finished_at b = None
  | BuildStatus.Assigned =>
      is_Some (b_runner_id b) /\ is_Some (b_signing_token_hash b) /\ b_finished_at b = None
      /\ b_ran_on_runner_id b = b_runner_id b
  | BuildStatus.Running =>
      is_Some (b_runner_id b) /\ is_Some (b_signing_token_hash b) /\ b_finished_at b = None
      /\ b_ran_on_runner_id b = b_runner_id b /\ is_Some (b_started_at b)
  | _ => b_runner_id b = None /\ b_signing_token_hash b = None /\ is_Some (b_finished_at b)
  end /\
  (b_approval_state b = Some BuildApprovalState.Pending -> b_status b = BuildStatus.Queued).

(** The invariant of the builds and their log. *)
Record inv (d : db) : Prop := {
  inv_rows : forall id b, builds d !! id = Some b -> row_ok b;
  inv_log : forall id b, builds d !! id = Some b ->
              replay id (build_events d) = Some (b_status b);
  inv_owned : forall e, e ∈ build_events d -> is_Some (builds d !! ev_build_id e);
  inv_numbers : forall id1 id2 b1 b2,
    builds d !! id1 = Some b1 -> builds d !! id2 = Some b2 ->
    b_project_id b1 = b_project_id b2 -> b_build_number b1 = b_build_number b2 -> id1 = id2;
}.

(** One committed change. *)
Inductive step (d : db) : db -> Prop :=
  | step_transition id cur target actor reason results now b :
      builds d !! id = Some b -> b_status b = cur ->
      BuildStatus.can_transition_to cur target = true ->
      target <> BuildStatus.Scheduled -> target <> BuildStatus.Assigned ->
      step d (transition_db id cur target actor reason results now d)
  | step_insert binds d' : insert_effect binds d d' -> step d d'
  | step_claim id rid actor hash now b :
      builds d !! id = Some b -> eligible d rid b = true ->
      step d (claim_effect id rid actor hash now b d)
  | step_approval id decision to word actor reason now rest b :
      builds d !! id = Some b -> awaiting b = true ->
      approval_target decision = Some (to, word) ->
      step d (add_event (BuildEvent id (Some BuildStatus.Queued) to (Some actor)
                          (Some (word +:+ " by " +:+ actor +:+ rest)) now)
        (set_builds (<[id := withdraw_pending_approval
           (approval_row to decision actor reason now b)]> (builds d)) d))
  | step_preflight id now url b :
      builds d !! id = Some b -> b_status b = BuildStatus.Queued ->
      step d (add_event (BuildEvent id (Some BuildStatus.Queued) BuildStatus.Failed
                          (Some "system:credential-preflight"%string)
                          (Some ("Source credentials require action. Repair: " +:+ url)) now)
        (set_builds (<[id := withdraw_pending_approval (fail_row now b)]> (builds d)) d))
  | step_barrier lease now :
      step d (update_builds (fun _ => unclaimed_scheduled) (requeue_row now)
        (set_build_events (build_events d ++
           map (fun kv => BuildEvent kv.1 (Some BuildStatus.Scheduled) BuildStatus.Queued
                  (Some "system"%string) (Some drain_reason) now)
             (select_builds (fun _ => unclaimed_scheduled) (set_transition_lease lease d)))
           (set_transition_lease lease d)))
  | step_cancel_unclaimed (p : db -> build -> bool) actor reason now :
      (forall d1 d2, builds d1 = builds d2 -> projects d1 = projects d2 -> p d1 = p d2) ->
      step d (cancel_rows p now (cancel_events p actor reason now d))
  | step_mark_expired id : step d (touch_build id mark_expired d)
  | step_delete id b :
      builds d !! id = Some b -> BuildStatus.is_terminal (b_status b) = true ->
      step d (delete_build_row id d)
  | step_created id actor reason now :
      is_Some (builds d !! id) ->
      step d (add_event (BuildEvent id None BuildStatus.Queued actor reason now) d)
  | step_other d' : builds d' = builds d -> build_events d' = build_events d -> step d d'.

(** ** Preservation *)

Lemma replay_from_app s l k : replay_from s (l ++ k) = replay_from (replay_from s l) k.
Proof. apply foldl_app. Qed.

Lemma events_of_app id l k : events_of id (l ++ k) = events_of id l ++ events_of id k.
Proof. apply filter_app. Qed.

Lemma replay_app id l k :
  replay id (l ++ k) = replay_from (replay id l) (events_of id k).
Proof. unfold replay. by rewrite events_of_app, replay_from_app. Qed.

(** [d'] extends the log of [d] and moves each row along the new events. *)
Record advance (d d' : db) (evs : list build_event) : Prop := {
  adv_events : build_events d' = build_events d ++ evs;
  adv_dom : forall id, is_Some (builds d !! id) <-> is_Some (builds d' !! id);
  adv_rows : forall id b b', builds d !! id = Some b -> builds d' !! id = Some b' ->
    row_ok b' /\ b_meta b' = b_meta b /\
    replay_from (Some (b_status b)) (events_of id evs) = Some (b_status b');
  adv_owned : forall e, e ∈ evs -> is_Some (builds d !! ev_build_id e);
}.

Lemma advance_inv d d' evs : inv d -> advance d d' evs -> inv d'.
Proof.
  intros [Hr Hl Ho Hn] [Ae Ad Ar Ao].
  assert (Hback : forall id b', builds d' !! id = Some b' -> exists b, builds d !! id = Some b).
  { intros id b' Hb'. apply Ad. eauto. }
  split.
  - intros id b' Hb'. destruct (Hback _ _ Hb') as [b Hb]. by destruct (Ar _ _ _ Hb Hb').
  - intros id b' Hb'. destruct (Hback _ _ Hb') as [b Hb].
    rewrite Ae, replay_app, (Hl _ _ Hb). by destruct (Ar _ _ _ Hb Hb') as (_ & _ & ->).
  - intros e He. apply Ad. rewrite Ae in He. apply elem_of_app in He as [?|?]; auto.
  - intros id1 id2 b1' b2' H1 H2 Hp Hnum.
    destruct (Hback _ _ H1) as [b1 Hb1], (Hback _ _ H2) as [b2 Hb2].
    destruct (Ar _ _ _ Hb1 H1) as (_ & M1 & _), (Ar _ _ _ Hb2 H2) as (_ & M2 & _).
    apply (Hn id1 id2 b1 b2 Hb1 Hb2); unfold b_project_id, b_build_number in *; congruence.
Qed.

(** One row changes, with the events [evs] of that build. *)
Lemma advance_one d d' id b b' evs :
  inv d ->
  builds d !! id = Some b -> builds d' = <[id := b']> (builds d) ->
  build_events d' = build_events d ++ evs ->
  Forall (fun e => ev_build_id e = id /\ is_Some (ev_from_status e)) evs ->
  row_ok b' -> b_meta b' = b_meta b ->
  replay_from (Some (b_status b)) evs = Some (b_status b') ->
  advance d d' evs.
Proof.
  intros Hi Hb Hbs He Hall Hok Hm Hrep. split; [done|..].
  - intros id0. rewrite Hbs. destruct (decide (id = id0)) as [<-|Hne].
    + rewrite Hb, lookup_insert_eq. split; eauto.
    + by rewrite lookup_insert_ne.
  - intros id0 b0 b0' H0 H0'. rewrite Hbs in H0'. destruct (decide (id = id0)) as [<-|Hne].
    + rewrite lookup_insert_eq in H0'. simplify_eq. split_and!; [done..|].
      unfold events_of. by rewrite list_filter_all.
    + rewrite lookup_insert_ne in H0' by done. simplify_eq.
      split_and!; [by eapply inv_rows|done|].
      unfold events_of. rewrite list_filter_none; [done|].
      eapply Forall_impl; [exact Hall|]. cbn. naive_solver.
  - intros e Hin. rewrite Forall_forall in Hall. destruct (Hall _ Hin) as [-> _]. eauto.
Qed.

(** A statement that records one event for each selected row. *)
Lemma events_of_list (p : string -> build -> bool) (ev : string -> build -> build_event) id
    (l : list (string * build)) :
  (forall k b, ev_build_id (ev k b) = k /\ is_Some (ev_from_status (ev k b))) -> NoDup (l.*1) ->
  events_of id (map (fun kv => ev kv.1 kv.2) (filter (fun kv => p kv.1 kv.2 = true) l)) =
  match list_to_map (M := gmap string build) l !! id with
  | Some b => if p id b then [ev id b] else []
  | None => []
  end.
Proof.
  intros Hev. induction l as [|[k b] l IH]; intros Hnd; [done|]. cbn in Hnd.
  apply NoDup_cons in Hnd as [Hk Hnd]. specialize (IH Hnd). rewrite list_to_map_cons.
  assert (Hkn : list_to_map (M := gmap string build) l !! k = None) by (by apply not_elem_of_list_to_map).
  destruct (decide (k = id)) as [->|Hne].
  - rewrite lookup_insert_eq. rewrite Hkn in IH. destruct (p id b) eqn:Ep.
    + rewrite filter_cons_True by done. cbn [map fst snd]. unfold events_of in *.
      rewrite filter_cons_True by apply Hev. by rewrite IH.
    + rewrite filter_cons_False by (cbn; congruence). done.
  - rewrite lookup_insert_ne by done. rewrite <- IH. destruct (p k b) eqn:Ep.
    + rewrite filter_cons_True by done. cbn [map fst snd]. unfold events_of.
      rewrite filter_cons_False; [done|]. destruct (Hev k b) as [-> _]. naive_solver.
    + by rewrite filter_cons_False by (cbn; congruence).
Qed.

Lemma events_of_batch (p : string -> build -> bool) (ev : string -> build -> build_event) id d :
  (forall k b, ev_build_id (ev k b) = k /\ is_Some (ev_from_status (ev k b))) ->
  events_of id (map (fun kv => ev kv.1 kv.2) (select_builds p d)) =
  match builds d !! id with Some b => if p id b then [ev id b] else [] | None => [] end.
Proof.
  intros Hev. unfold select_builds. rewrite events_of_list; [|done|apply NoDup_fst_map_to_list].
  by rewrite list_to_map_to_list.
Qed.

(** Every selected row changes, with one event each. *)
Lemma advance_batch d d' p f ev :
  inv d ->
  builds d' = builds (update_builds p f d) ->
  build_events d' = build_events d ++ map (fun kv => ev kv.1 kv.2) (select_builds p d) ->
  (forall k b, ev_build_id (ev k b) = k /\ is_Some (ev_from_status (ev k b))) ->
  (forall id b, builds d !! id = Some b -> p id b = true ->
     let b' := withdraw_pending_approval (f b) in
     row_ok b' /\ b_meta b' = b_meta b /\
     replay_from (Some (b_status b)) [ev id b] = Some (b_status b')) ->
  advance d d' (map (fun kv => ev kv.1 kv.2) (select_builds p d)).
Proof.
  intros Hi Hb He Hev Hrow.
  assert (Hlk : forall id, builds d' !! id =
    (fun b => if p id b then withdraw_pending_approval (f b) else b) <$> builds d !! id).
  { intros id. rewrite Hb. cbn. rewrite map_lookup_imap. by destruct (builds d !! id). }
  split; [done|..].
  - intros id. rewrite Hlk, fmap_is_Some. done.
  - intros id b b' H0 H0'. rewrite Hlk, H0 in H0'. injection H0' as <-.
    rewrite events_of_batch, H0 by done. destruct (p id b) eqn:Ep; [by apply Hrow|].
    split_and!; [by eapply inv_rows|done|done].
  - intros e Hin. apply list_elem_of_In, in_map_iff in Hin as ([k b] & <- & Hin).
    apply list_elem_of_In, elem_of_select_builds in Hin as [Hk _].
    cbn. destruct (Hev k b) as [-> _]. eauto.
Qed.

(** ** Rows *)

(** Unfold a row's record updates in the goal. *)
Ltac row_simpl := cbn in *; unfold row_ok in *; cbn in *.

Lemma withdraw_row_ok b :
  match b_status b with
  | BuildStatus.Queued | BuildStatus.Scheduled =>
      b_runner_id b = None /\ b_signing_token_hash b = None /\ b_finished_at b = None
  | BuildStatus.Assigned =>
      is_Some (b_runner_id b) /\ is_Some (b_signing_token_hash b) /\ b_finished_at b = None
      /\ b_ran_on_runner_id b = b_runner_id b
  | BuildStatus.Running =>
      is_Some (b_runner_id b) /\ is_Some (b_signing_token_hash b) /\ b_finished_at b = None
      /\ b_ran_on_runner_id b = b_runner_id b /\ is_Some (b_started_at b)
  | _ => b_runner_id b = None /\ b_signing_token_hash b = None /\ is_Some (b_finished_at b)
  end -> row_ok (withdraw_pending_approval b).
Proof.
  intros H. unfold withdraw_pending_approval. case_bool_decide as Ha; cbn.
  - case_bool_decide as Hq; cbn; [by split|]. split; [exact H|done].
  - split; [done|by intros ?].
Qed.

(** The status of a row does not depend on its approval columns. *)
Lemma withdraw_status b :
  b_status (withdraw_pending_approval b) = b_status b /\
  b_meta (withdraw_pending_approval b) = b_meta b.
Proof. unfold withdraw_pending_approval. by case_match. Qed.

Lemma replay_legal s e t :
  ev_from_status e = Some s -> ev_to_status e = t -> legal e = true ->
  replay_from (Some s) [e] = Some t.
Proof.
  intros Hf Ht Hl. cbn. rewrite Hf, Ht, Hl. by rewrite bool_decide_true.
Qed.

Lemma replay_single s e t :
  ev_from_status e = Some s -> ev_to_status e = t -> BuildStatus.can_transition_to s t = true ->
  replay_from (Some s) [e] = Some t.
Proof.
  intros Hf Ht Hl. apply replay_legal; [done..|]. unfold legal, table_event. by rewrite Hf, Ht, Hl.
Qed.

(** Every status change of a log that replays is legal. *)
Lemma replay_from_legal l : forall s t, replay_from s l = Some t -> Forall (fun e => legal e = true) l.
Proof.
  induction l as [|e l IH]; intros s t Hr; [done|]. cbn in Hr. apply Forall_cons. split; [|by eapply IH].
  assert (Hnone : foldl replay_one None l = None) by (clear; by induction l).
  destruct s as [s|]; cbn in Hr; [|by rewrite Hnone in Hr].
  destruct (legal e); [done|]. by rewrite andb_false_r, Hnone in Hr.
Qed.

Lemma starts_with_app p s : starts_with p (p +:+ s) = true.
Proof. unfold starts_with. by rewrite (proj2 (strip_prefix_Some p _ s) eq_refl). Qed.

Lemma approval_event_ok id actor rest now :
  approval_event (BuildEvent id (Some BuildStatus.Queued) BuildStatus.Queued (Some actor)
    (Some ("approved" +:+ " by " +:+ actor +:+ rest)) now) = true.
Proof. exact (starts_with_app ("approved by " +:+ actor) rest). Qed.

Lemma preflight_event_ok id url now :
  preflight_event (BuildEvent id (Some BuildStatus.Queued) BuildStatus.Failed
    (Some "system:credential-preflight"%string)
    (Some ("Source credentials require action. Repair: " +:+ url)) now) = true.
Proof. exact (starts_with_app "Source credentials require action. Repair: " url). Qed.

Lemma transition_events id cur target actor reason results now d b :
  builds d !! id = Some b ->
  build_events (transition_db id cur target actor reason results now d) =
  build_events d ++ [BuildEvent id (Some cur) target actor reason now].
Proof.
  intros Hb. unfold transition_db, results_db, update_build. rewrite Hb. by repeat case_match.
Qed.

Lemma step_transition_inv id cur target actor reason results now b d :
  inv d -> builds d !! id = Some b -> b_status b = cur ->
  BuildStatus.can_transition_to cur target = true ->
  target <> BuildStatus.Scheduled -> target <> BuildStatus.Assigned ->
  inv (transition_db id cur target actor reason results now d).
Proof.
  intros Hi Hb Hs Hcan Hn1 Hn2.
  destruct (transition_db_lookup id cur target actor reason results now d b Hb Hs)
    as (b1 & Hbs & Hs1 & Hm & Hr & Ht & Hst & Hf & Hran & _ & _ & Ha & _).
  eapply advance_inv; [done|]. eapply (advance_one d _ id b b1); [done..| | | | |].
  - by apply transition_events with b.
  - by apply Forall_singleton.
  - pose proof (inv_rows _ Hi _ _ Hb) as [Hok Hpend]. rewrite Hs in Hok, Hpend.
    unfold row_ok. rewrite Hs1, Hr, Ht, Hst, Hf, Hran, Ha.
    unfold transition_row, withdraw_pending_approval.
    destruct cur, target; try done; cbn in *; destruct_and?; split_and?; try done; eauto;
      intros; repeat case_bool_decide; by simplify_eq/=.
  - done.
  - rewrite Hs, Hs1. by apply replay_single.
Qed.

Lemma step_claim_inv id rid actor hash now b d :
  inv d -> builds d !! id = Some b -> eligible d rid b = true ->
  inv (claim_effect id rid actor hash now b d).
Proof.
  intros Hi Hb He. apply eligible_inv in He as (Hs & Ha & _).
  pose proof (inv_rows _ Hi _ _ Hb) as [Hok _]. rewrite Hs in Hok. destruct_and! Hok.
  eapply advance_inv; [done|].
  eapply (advance_one d _ id b (claimed_row rid hash now b)); [done..| | |done|].
  - by apply Forall_cons; split; [|apply Forall_singleton].
  - split; cbn; [by eauto 10|done].
  - by rewrite Hs.
Qed.

Lemma step_approval_inv id decision to word actor reason now rest b d :
  inv d -> builds d !! id = Some b -> awaiting b = true ->
  approval_target decision = Some (to, word) ->
  inv (add_event (BuildEvent id (Some BuildStatus.Queued) to (Some actor)
                   (Some (word +:+ " by " +:+ actor +:+ rest)) now)
    (set_builds (<[id := withdraw_pending_approval
       (approval_row to decision actor reason now b)]> (builds d)) d)).
Proof.
  intros Hi Hb Haw Ht. apply andb_true_iff in Haw as [Hs%bool_decide_eq_true _].
  pose proof (inv_rows _ Hi _ _ Hb) as [Hok _]. rewrite Hs in Hok. destruct_and! Hok.
  eapply advance_inv; [done|]. eapply (advance_one d _ id b); [done..| | | |].
  - by apply Forall_singleton.
  - apply withdraw_row_ok. destruct decision; simplify_eq/=; by eauto.
  - by destruct decision; simplify_eq/=.
  - rewrite Hs. destruct decision; simplify_eq/=; [|done]. unfold legal.
    by rewrite approval_event_ok, orb_true_r.
Qed.

Lemma step_preflight_inv id now url b d :
  inv d -> builds d !! id = Some b -> b_status b = BuildStatus.Queued ->
  inv (add_event (BuildEvent id (Some BuildStatus.Queued) BuildStatus.Failed
                   (Some "system:credential-preflight"%string)
                   (Some ("Source credentials require action. Repair: " +:+ url)) now)
    (set_builds (<[id := withdraw_pending_approval (fail_row now b)]> (builds d)) d)).
Proof.
  intros Hi Hb Hs. pose proof (inv_rows _ Hi _ _ Hb) as [Hok _]. rewrite Hs in Hok. destruct_and! Hok.
  eapply advance_inv; [done|]. eapply (advance_one d _ id b); [done..| | | |].
  - by apply Forall_singleton.
  - apply withdraw_row_ok. cbn. by eauto.
  - by destruct (withdraw_status (fail_row now b)) as [_ ->].
  - rewrite Hs, (proj1 (withdraw_status _)). apply replay_legal; [done..|].
    unfold legal. by rewrite preflight_event_ok, orb_true_r.
Qed.

(** An unfinished build may be cancelled. *)
Lemma cancel_row_step now b actor reason id :
  row_ok b -> BuildStatus.is_terminal (b_status b) = false ->
  let b' := withdraw_pending_approval (cancel_row now b) in
  row_ok b' /\ b_meta b' = b_meta b /\
  replay_from (Some (b_status b))
    [BuildEvent id (Some (b_status b)) BuildStatus.Canceled actor reason now] = Some (b_status b').
Proof.
  intros Hok Hnt b'. split; [apply withdraw_row_ok; cbn; eauto|].
  destruct (withdraw_status (cancel_row now b)) as [H1 H2]. fold b' in H1, H2.
  split; [by rewrite H2|]. rewrite H1. apply replay_single; [done..|].
  by destruct (b_status b).
Qed.

Lemma step_cancel_inv p actor reason now d :
  (forall d1 d2, builds d1 = builds d2 -> projects d1 = projects d2 -> p d1 = p d2) ->
  inv d -> inv (cancel_rows p now (cancel_events p actor reason now d)).
Proof.
  intros Hp Hi. eapply advance_inv; [done|].
  eapply (advance_batch d _ (fun _ b => p d b && unclaimed (b_status b)) (cancel_row now)
    (fun k b => BuildEvent k (Some (b_status b)) BuildStatus.Canceled (Some actor) (Some reason) now));
    [done| |done|done|].
  - cbn. by rewrite (Hp (cancel_events p actor reason now d) d).
  - intros id b Hb [_ Hu]%andb_true_iff. apply cancel_row_step; [by eapply inv_rows|].
    by destruct (b_status b).
Qed.

Lemma step_barrier_inv lease now d :
  inv d ->
  inv (update_builds (fun _ => unclaimed_scheduled) (requeue_row now)
        (set_build_events (build_events d ++
           map (fun kv => BuildEvent kv.1 (Some BuildStatus.Scheduled) BuildStatus.Queued
                  (Some "system"%string) (Some drain_reason) now)
             (select_builds (fun _ => unclaimed_scheduled) (set_transition_lease lease d)))
           (set_transition_lease lease d))).
Proof.
  intros Hi. eapply advance_inv; [done|].
  eapply (advance_batch d _ (fun _ => unclaimed_scheduled) (requeue_row now)
    (fun k b => BuildEvent k (Some BuildStatus.Scheduled) BuildStatus.Queued
                  (Some "system"%string) (Some drain_reason) now)); [done..|].
  intros id b Hb [Hs%bool_decide_eq_true _]%andb_true_iff.
  pose proof (inv_rows _ Hi _ _ Hb) as [Hok _]. rewrite Hs in Hok. split_and!.
  - by apply withdraw_row_ok.
  - by rewrite (proj2 (withdraw_status _)).
  - rewrite Hs, (proj1 (withdraw_status _)). by apply replay_single.
Qed.

(** A new row with a fresh identifier and number. *)
Lemma insert_row_inv id nb d :
  inv d -> builds d !! id = None -> row_ok nb -> b_status nb = BuildStatus.Queued ->
  (forall k o, builds d !! k = Some o -> b_project_id o = b_project_id nb ->
     b_build_number o < b_build_number nb) ->
  inv (set_builds (<[id := nb]> (builds d)) d).
Proof.
  intros [Hr Hl Ho Hn] Hid Hok Hs Hnum.
  assert (Hlk : forall k o, <[id := nb]> (builds d) !! k = Some o ->
    (k = id /\ o = nb) \/ (k <> id /\ builds d !! k = Some o)).
  { intros k o Hk. apply lookup_insert_Some in Hk. naive_solver. }
  split; cbn.
  - intros k o [[-> ->]|[_ Hk]]%Hlk; eauto.
  - intros k o [[-> ->]|[_ Hk]]%Hlk; [|by apply Hl].
    unfold replay, events_of. rewrite list_filter_none; [by rewrite Hs|].
    apply Forall_forall. intros e He [<- _]. apply Ho in He as [? ?]. congruence.
  - intros e He. apply lookup_insert_is_Some. destruct (decide (id = ev_build_id e)); auto.
  - intros k1 k2 o1 o2 [[-> ->]|[Hk1 H1]]%Hlk [[-> ->]|[Hk2 H2]]%Hlk Hp Hnm.
    + done.
    + specialize (Hnum _ _ H2 (eq_sym Hp)). lia.
    + specialize (Hnum _ _ H1 Hp). lia.
    + by eapply Hn.
Qed.

Lemma supersede_inv b d : inv d -> inv (supersede_db b d).
Proof.
  intros Hi. unfold supersede_db. destruct (bi_branch b) as [br|]; [|done].
  destruct (bi_cancel_previous b && negb (is_empty br)); [|done].
  eapply advance_inv; [done|].
  eapply (advance_batch d _ (superseded b br d) (cancel_row (bi_now b))
    (fun k o => BuildEvent k (Some (b_status o)) BuildStatus.Canceled (bi_actor b)
                  (Some "superseded by new build"%string) (bi_now b))); [done..|].
  intros id o Ho Hsup. apply cancel_row_step; [by eapply inv_rows|].
  unfold superseded in Hsup. apply andb_true_iff in Hsup as [_ Hsup%negb_true_iff]. done.
Qed.

Lemma inv_other d d' : builds d' = builds d -> build_events d' = build_events d -> inv d -> inv d'.
Proof. intros Hb He [H1 H2 H3 H4]. split; rewrite ?Hb, ?He; auto. Qed.

Lemma step_insert_inv b d d' : inv d -> insert_effect b d d' -> inv d'.
Proof.
  intros Hi (d1 & d2 & (_ & _ & Hn & ->)%insert_build_row_spec & Hc & ->).
  apply claim_db_spec in Hc as (Hb & He & _). apply supersede_inv.
  eapply inv_other; [exact Hb|exact He|].
  apply insert_row_inv; [done..| |done|].
  - split; [done|]. done.
  - intros k o Ho Hp. by eapply next_build_number_above.
Qed.

(** What is left of a row when another build is deleted. *)
Lemma delete_build_row_lookup id d k o :
  builds (delete_build_row id d) !! k = Some o ->
  k <> id /\ exists o0, builds d !! k = Some o0 /\ kept o0 o.
Proof.
  cbn. rewrite lookup_fmap, lookup_delete. case_decide; [done|].
  destruct (builds d !! k) as [o0|]; [|done]. intros [= <-]. split; [done|]. exists o0.
  split; [done|]. unfold kept. case_match; auto.
Qed.

Lemma kept_row_ok b b' : kept b b' -> row_ok b -> row_ok b'.
Proof. by intros [-> | ->]. Qed.

Lemma step_delete_inv id d : inv d -> inv (delete_build_row id d).
Proof.
  intros [Hr Hl Ho Hn]. split.
  - intros k o (_ & o0 & Hk & Hkept)%delete_build_row_lookup. eapply kept_row_ok; eauto.
  - intros k o (Hne & o0 & Hk & Hkept)%delete_build_row_lookup.
    destruct (kept_fields _ _ Hkept) as [-> _]. rewrite <- (Hl _ _ Hk). unfold replay, events_of.
    f_equal. cbn. rewrite list_filter_filter. apply list_filter_iff_in. naive_solver.
  - cbn. intros e [Hne He]%list_elem_of_filter. rewrite lookup_fmap, lookup_delete.
    case_decide; [congruence|]. apply fmap_is_Some. auto.
  - intros k1 k2 o1 o2 (_ & p1 & H1 & K1)%delete_build_row_lookup (_ & p2 & H2 & K2)%delete_build_row_lookup.
    destruct (kept_fields _ _ K1) as [_ M1], (kept_fields _ _ K2) as [_ M2].
    unfold b_project_id, b_build_number in *. rewrite M1, M2. by apply Hn.
Qed.

Lemma mark_expired_inv id d : inv d -> inv (touch_build id mark_expired d).
Proof.
  intros Hi. destruct (builds d !! id) as [b|] eqn:Hb.
  - assert (Hsame : b_status (mark_expired b) = b_status b /\ b_meta (mark_expired b) = b_meta b)
      by (unfold mark_expired; by case_match).
    eapply advance_inv; [done|].
    eapply (advance_one d _ id b (mark_expired b) []); [done|done| | |done| |by destruct Hsame|].
    + cbn. apply map_eq. intros k. rewrite lookup_alter. case_decide as Hk; subst;
        [by rewrite lookup_insert_eq, Hb|by rewrite lookup_insert_ne].
    + cbn. by rewrite app_nil_r.
    + pose proof (inv_rows _ Hi _ _ Hb) as Hok. unfold mark_expired. by case_match.
    + cbn. by destruct Hsame as [-> _].
  - apply (inv_other d); [|done|done]. cbn. apply map_eq. intros k. rewrite lookup_alter.
    case_decide as Hk; [subst; by rewrite Hb|done].
Qed.

(** A creation record changes no build's status changes. *)
Lemma step_created_inv id actor reason now d :
  inv d -> is_Some (builds d !! id) ->
  inv (add_event (BuildEvent id None BuildStatus.Queued actor reason now) d).
Proof.
  intros [Hr Hl Ho Hn] Hid. split; [done| | |done].
  - intros k o Hk. cbn [add_event set_build_events build_events]. rewrite replay_app, (Hl _ _ Hk). unfold events_of.
    rewrite list_filter_none; [done|]. apply Forall_singleton. intros [_ [? [=]]].
  - intros e [He| ->%list_elem_of_singleton]%elem_of_app; [by apply Ho|done].
Qed.

Lemma step_inv d d' : inv d -> step d d' -> inv d'.
Proof.
  intros Hi Hst. destruct Hst.
  - by eapply step_transition_inv.
  - by eapply step_insert_inv.
  - by apply step_claim_inv.
  - by eapply step_approval_inv.
  - by apply step_preflight_inv.
  - by apply step_barrier_inv.
  - by apply step_cancel_inv.
  - by apply mark_expired_inv.
  - by apply step_delete_inv.
  - by apply step_created_inv.
  - by eapply inv_other.
Qed.

(** Every status change of the log is legal. *)
Lemma inv_legal d e : inv d -> e ∈ build_events d -> is_Some (ev_from_status e) -> legal e = true.
Proof.
  intros Hi He Hf. destruct (inv_owned _ Hi _ He) as [b Hb].
  pose proof (replay_from_legal _ _ _ (inv_log _ Hi _ _ Hb)) as Hall. rewrite Forall_forall in Hall.
  apply Hall, list_elem_of_filter. by split.
Qed.

Lemma steps_inv d d' : rtc step d d' -> inv d -> inv d'.
Proof. induction 1; [done|]. intros. by eauto using step_inv. Qed.

(** A database without builds. *)
Definition empty_database : db :=
  set_builds ∅ (set_build_events [] Sample.database).

(** ** What a step does to one row *)

(** The build runs the same uploads of the same build, if that still exists. *)
Definition same_retry (b b' : build) : Prop :=
  (b_source_build_id b' = b_source_build_id b \/ b_source_build_id b' = None) /\
  snap_retry_steps (b_snapshot b') = snap_retry_steps (b_snapshot b).

(** A change that takes no slot, gives no runner and respects the end of the
    build: everything but a claim. *)
Definition quiet_move (b b' : build) : Prop :=
  b_meta b' = b_meta b /\
  (takes_slot (b_status b') = true -> takes_slot (b_status b) = true) /\
  (forall rid, held_by rid b' = true -> held_by rid b = true) /\
  (BuildStatus.is_terminal (b_status b) = true ->
     (b_status b' = b_status b \/ b_status b' = BuildStatus.Expired) /\
     b_finished_at b' = b_finished_at b) /\
  same_retry b b'.

Lemma quiet_move_refl b : quiet_move b b.
Proof. unfold quiet_move, same_retry. by split_and!; auto. Qed.

Lemma quiet_move_kept b b' : kept b b' -> quiet_move b b'.
Proof.
  intros [-> | ->]; [apply quiet_move_refl|]. unfold quiet_move, held_by, same_retry. cbn.
  split_and!; auto.
Qed.

Lemma quiet_move_withdraw b b' : quiet_move b b' -> quiet_move b (withdraw_pending_approval b').
Proof. unfold withdraw_pending_approval. by case_match. Qed.

(** A build that leaves the active states holds nothing. *)
Lemma quiet_move_inactive b b' :
  b_meta b' = b_meta b -> takes_slot (b_status b') = false ->
  BuildStatus.is_terminal (b_status b) = false -> b_source_build_id b' = b_source_build_id b ->
  b_snapshot b' = b_snapshot b -> quiet_move b b'.
Proof.
  intros Hm Hs Ht Hsrc Hsn. unfold quiet_move, held_by, same_retry. rewrite Hs, Ht, Hsrc, Hsn.
  split_and!; [done..| |done|by left|done].
  intros rid [_ Hh]%andb_true_iff. by destruct (b_status b').
Qed.

Lemma transition_quiet cur target b b1 :
  b_status b = cur -> BuildStatus.can_transition_to cur target = true ->
  target <> BuildStatus.Scheduled -> target <> BuildStatus.Assigned ->
  b_status b1 = target -> b_meta b1 = b_meta b ->
  (target = BuildStatus.Running -> b_runner_id b1 = b_runner_id b) ->
  (BuildStatus.is_terminal cur = true -> b_finished_at b1 = b_finished_at b) ->
  same_retry b b1 -> quiet_move b b1.
Proof.
  intros Hs Hc H1 H2 Hs1 Hm Hr Hf Hsame. unfold quiet_move, held_by. rewrite Hs, Hs1.
  split_and!; [done| | | |done].
  - by destruct cur, target.
  - intros rid [Hh Ht]%andb_true_iff. destruct target; try done. rewrite Hr in Hh by done.
    rewrite Hh. by destruct cur.
  - intros Ht. split; [|by apply Hf]. destruct cur, target; auto; done.
Qed.

(** Everything but a claim moves rows quietly; new rows are queued. *)
Definition quiet_rows (d d' : db) : Prop :=
  forall id b', builds d' !! id = Some b' ->
    match builds d !! id with
    | Some b => quiet_move b b'
    | None => b_status b' = BuildStatus.Queued
    end.

Lemma quiet_rows_insert d d' id b b' :
  builds d !! id = Some b -> builds d' = <[id := b']> (builds d) -> quiet_move b b' ->
  quiet_rows d d'.
Proof.
  intros Hb Hbs Hq k o Ho. rewrite Hbs in Ho.
  destruct (decide (id = k)) as [<-|Hne].
  - rewrite lookup_insert_eq in Ho. simplify_eq. by rewrite Hb.
  - rewrite lookup_insert_ne in Ho by done. rewrite Ho. apply quiet_move_refl.
Qed.

Lemma quiet_rows_batch d d' p f :
  builds d' = builds (update_builds p f d) ->
  (forall id b, builds d !! id = Some b -> p id b = true -> quiet_move b (f b)) ->
  quiet_rows d d'.
Proof.
  intros Hbs Hq k o Ho. rewrite Hbs in Ho. cbn in Ho. rewrite map_lookup_imap in Ho.
  destruct (builds d !! k) as [b|] eqn:Hb; [|done]. cbn in Ho. injection Ho as <-.
  destruct (p k b) eqn:Ep; [|apply quiet_move_refl]. apply quiet_move_withdraw. by apply (Hq k).
Qed.

Lemma cancel_quiet now b : BuildStatus.is_terminal (b_status b) = false -> quiet_move b (cancel_row now b).
Proof. intros H. by apply quiet_move_inactive. Qed.

Lemma insert_quiet binds d d' : insert_effect binds d d' -> quiet_rows d d'.
Proof.
  intros H k o Ho. apply insert_effect_builds in H as (Hn & Hb & _).
  rewrite Hb in Ho. unfold after_insert in Ho.
  destruct (decide (bi_build_id binds = k)) as [<-|Hne].
  - rewrite lookup_insert_eq in Ho. injection Ho as <-. by rewrite Hn.
  - rewrite lookup_insert_ne, lookup_fmap in Ho by done.
    destruct (builds d !! k) as [b|]; [|done]. injection Ho as <-.
    destruct (supersedes binds _ b) eqn:Es; [|apply quiet_move_refl].
    apply quiet_move_withdraw, cancel_quiet. unfold supersedes in Es.
    by apply andb_true_iff in Es as [_ Es%negb_true_iff].
Qed.

Lemma step_quiet d d' :
  step d d' ->
  quiet_rows d d' \/
  exists id rid actor hash now b, builds d !! id = Some b /\ eligible d rid b = true /\
    d' = claim_effect id rid actor hash now b d.
Proof.
  destruct 1 as [id cur target actor reason results now b Hb Hs Hc Hn1 Hn2|binds d' H
    |id rid actor hash now b Hb He|id decision to word actor reason now rest b Hb Ha Ht
    |id now url b Hb Hs|lease now|p actor reason now Hp|id|id b Hb Ht|id actor reason now Hid|d' Hb He].
  - left. destruct (transition_db_lookup id cur target actor reason results now d b Hb Hs)
      as (b1 & Hbs & Hs1 & Hm & Hr & _ & _ & Hf & _ & _ & _ & _ & Hsrc & Hsteps).
    apply (quiet_rows_insert d _ id b b1 Hb Hbs). apply (transition_quiet cur target); try done.
    + intros ->. rewrite Hr. unfold transition_row. by repeat case_match.
    + intros Hterm. rewrite Hf. unfold transition_row. rewrite Hterm, andb_false_r. by repeat case_match.
    + split; [by left|done].
  - left. by eapply insert_quiet.
  - right. eauto 10.
  - left. eapply (quiet_rows_insert d _ id b); [done..|]. apply quiet_move_withdraw.
    apply andb_true_iff in Ha as [Hs%bool_decide_eq_true _].
    destruct decision; simplify_eq/=; apply quiet_move_inactive; by rewrite ?Hs.
  - left. eapply (quiet_rows_insert d _ id b); [done..|]. apply quiet_move_withdraw.
    apply quiet_move_inactive; by rewrite ?Hs.
  - left. eapply (quiet_rows_batch d _ (fun _ => unclaimed_scheduled) (requeue_row now)); [done|].
    intros id b Hb [Hs%bool_decide_eq_true _]%andb_true_iff. apply quiet_move_inactive; by rewrite ?Hs.
  - left. eapply (quiet_rows_batch d _ (fun _ b => p d b && unclaimed (b_status b)) (cancel_row now)).
    + cbn. by rewrite (Hp (cancel_events p actor reason now d) d).
    + intros id b Hb [_ Hu]%andb_true_iff. apply cancel_quiet. by destruct (b_status b).
  - left. intros k o Ho. cbn in Ho. rewrite lookup_alter in Ho.
    case_decide as Hk; [subst k|rewrite Ho; apply quiet_move_refl].
    destruct (builds d !! id) as [b|]; [|done]. injection Ho as <-.
    unfold mark_expired. case_match; [apply quiet_move_refl|]. unfold quiet_move, same_retry. by split_and!; auto.
  - left. intros k o (_ & o0 & -> & Hk)%delete_build_row_lookup. by apply quiet_move_kept.
  - left. intros k o Ho. cbn in Ho. rewrite Ho. apply quiet_move_refl.
  - left. intros k o Ho. rewrite Hb in Ho. rewrite Ho. apply quiet_move_refl.
Qed.

(** finished builds stay finished.  No committed change, by any handler
    and whatever it was based on, moves a finished build anywhere but to
    expired, gives it a slot or a runner, or changes when it finished; it can
    only be deleted. *)
Theorem finished_is_final (d d' : db) (id : string) (b : build) :
  inv d -> step d d' -> builds d !! id = Some b -> BuildStatus.is_terminal (b_status b) = true ->
  builds d' !! id = None \/
  exists b', builds d' !! id = Some b' /\
    (b_status b' = b_status b \/ b_status b' = BuildStatus.Expired) /\
    b_meta b' = b_meta b /\ b_finished_at b' = b_finished_at b /\ b_runner_id b' = None.
Proof.
  intros Hi Hst Hb Ht. destruct (builds d' !! id) as [b'|] eqn:Hb'; [right|by left].
  exists b'. split; [done|].
  assert (Hr : BuildStatus.is_terminal (b_status b') = true -> b_runner_id b' = None).
  { intros Ht'. pose proof (inv_rows _ (step_inv _ _ Hi Hst) _ _ Hb') as [Hok _].
    destruct (b_status b'); naive_solver. }
  apply step_quiet in Hst as [Hq|(k & rid & actor & hash & now & o & Ho & He & ->)].
  - specialize (Hq _ _ Hb'). rewrite Hb in Hq. destruct Hq as (Hm & _ & _ & Hq & _).
    destruct (Hq Ht) as [Hs Hf]. split_and!; [done..|]. apply Hr. by destruct Hs as [-> | ->].
  - assert (k <> id). { intros ->. apply eligible_inv in He as (Hs & _). simplify_eq. by rewrite Hs in Ht. }
    cbn in Hb'. rewrite lookup_insert_ne in Hb' by done. simplify_eq. split_and!; auto.
Qed.

(** ** Retried uploads *)

(** No two unfinished retries of one build share an upload. *)
Definition retries_disjoint (d : db) : Prop :=
  forall id1 id2 b1 b2 src step,
    builds d !! id1 = Some b1 -> builds d !! id2 = Some b2 ->
    b_source_build_id b1 = Some src -> b_source_build_id b2 = Some src ->
    BuildStatus.is_terminal (b_status b1) = false -> BuildStatus.is_terminal (b_status b2) = false ->
    step ∈ snap_retry_steps (b_snapshot b1) -> step ∈ snap_retry_steps (b_snapshot b2) ->
    id1 = id2.

(** An unfinished row was unfinished before, or is new. *)
Lemma unfinished_before d d' id b' :
  step d d' -> builds d' !! id = Some b' -> BuildStatus.is_terminal (b_status b') = false ->
  match builds d !! id with
  | Some b => BuildStatus.is_terminal (b_status b) = false /\ same_retry b b'
  | None => True
  end.
Proof.
  intros Hst Hb' Ht. apply step_quiet in Hst as [Hq|(k & rid & actor & hash & now & o & Ho & He & ->)].
  - specialize (Hq _ _ Hb'). destruct (builds d !! id) as [b|]; [|done].
    destruct Hq as (_ & _ & _ & Hfin & Hsame). split; [|done].
    destruct (BuildStatus.is_terminal (b_status b)) eqn:Eb; [|done].
    destruct Hfin as [[Hs|Hs] _]; [done|rewrite Hs in Ht; congruence|by rewrite Hs in Ht].
  - cbn in Hb'. destruct (decide (k = id)) as [->|Hne].
    + rewrite Ho. rewrite lookup_insert_eq in Hb'. injection Hb' as <-.
      apply eligible_inv in He as (Hs & _). split; [by rewrite Hs|]. split; [by left|done].
    + rewrite lookup_insert_ne in Hb' by done. rewrite Hb'. split; [done|]. split; [by left|done].
Qed.

Lemma new_rows d d' id :
  step d d' -> builds d !! id = None -> is_Some (builds d' !! id) ->
  exists binds, insert_effect binds d d' /\ id = bi_build_id binds.
Proof.
  intros Hst Hn [b' Hb'].
  assert (Hins : forall (k : string) (b b1 : build), builds d !! k = Some b ->
    <[k := b1]> (builds d) !! id = Some b' -> False).
  { intros k b b1 Hk. rewrite lookup_insert_ne by congruence. congruence. }
  destruct Hst as [k cur target actor reason results now b Hb Hs|binds d' Hi
    |k rid actor hash now b Hb|k decision to word actor reason now rest b Hb|k now url b Hb
    |lease now|p actor reason now Hp|k|k b Hb Ht|k actor reason now Hk|d' Hb].
  2: { exists binds. split; [done|]. apply insert_effect_builds in Hi as (_ & Hb & _).
       rewrite Hb in Hb'. unfold after_insert in Hb'. destruct (decide (bi_build_id binds = id)); [done|].
       by rewrite lookup_insert_ne, lookup_fmap, Hn in Hb'. }
  all: exfalso.
  - destruct (transition_db_lookup k cur target actor reason results now d b Hb Hs) as (b1 & Hbs & _).
    rewrite Hbs in Hb'. exact (Hins _ _ _ Hb Hb').
  - exact (Hins _ _ _ Hb Hb').
  - exact (Hins _ _ _ Hb Hb').
  - exact (Hins _ _ _ Hb Hb').
  - cbn in Hb'. by rewrite map_lookup_imap, Hn in Hb'.
  - cbn in Hb'. by rewrite map_lookup_imap, Hn in Hb'.
  - cbn in Hb'. rewrite lookup_alter in Hb'. case_decide; subst; by rewrite Hn in Hb'.
  - apply delete_build_row_lookup in Hb' as (_ & o & Ho & _). congruence.
  - cbn in Hb'. congruence.
  - congruence.
Qed.

Lemma step_retries d d' : step d d' -> retries_disjoint d -> retries_disjoint d'.
Proof.
  intros Hst Hd.
  assert (Hnew : forall id1 id2 b1 b2 src stp, builds d !! id1 = None ->
    builds d' !! id1 = Some b1 -> builds d' !! id2 = Some b2 ->
    b_source_build_id b1 = Some src -> b_source_build_id b2 = Some src ->
    BuildStatus.is_terminal (b_status b2) = false ->
    stp ∈ snap_retry_steps (b_snapshot b1) -> stp ∈ snap_retry_steps (b_snapshot b2) -> id1 = id2).
  { intros id1 id2 b1 b2 src stp Hn H1 H2 S1 S2 T2 P1 P2.
    destruct (new_rows _ _ _ Hst Hn ltac:(eauto)) as (binds & Hi & ->).
    pose proof (unfinished_before _ _ _ _ Hst H2 T2) as Hold.
    destruct (builds d !! id2) as [o|] eqn:Ho.
    2: { destruct (new_rows _ _ _ Hst Ho ltac:(eauto)) as (binds2 & Hi2 & ->).
         pose proof (insert_effect_builds _ _ _ Hi) as (_ & Hb & _). rewrite Hb in H2.
         unfold after_insert in H2. destruct (decide (bi_build_id binds = bi_build_id binds2)); [done|].
         by rewrite lookup_insert_ne, lookup_fmap, Ho in H2. }
    exfalso. destruct Hold as [To [[So|So] Po]]; [|congruence].
    pose proof (insert_effect_builds _ _ _ Hi) as (_ & Hb & _). rewrite Hb in H1.
    unfold after_insert in H1. rewrite lookup_insert_eq in H1. injection H1 as <-.
    destruct Hi as (d1 & d2 & (_ & Hr & _)%insert_build_row_spec & _). cbn in S1, P1. rewrite S1 in Hr.
    apply not_true_iff_false in Hr. apply Hr, existsb_exists. exists (id2, o).
    split; [by apply list_elem_of_In, elem_of_map_to_list|]. cbn.
    rewrite bool_decide_true, To by congruence. cbn. apply existsb_exists. exists stp.
    split; [apply list_elem_of_In; congruence|by apply bool_decide_eq_true]. }
  intros id1 id2 b1 b2 src stp H1 H2 S1 S2 T1 T2 P1 P2.
  destruct (builds d !! id1) as [o1|] eqn:O1; [|by eapply (Hnew id1 id2)].
  destruct (builds d !! id2) as [o2|] eqn:O2; [|symmetry; by eapply (Hnew id2 id1)].
  pose proof (unfinished_before _ _ _ _ Hst H1 T1) as U1. rewrite O1 in U1.
  pose proof (unfinished_before _ _ _ _ Hst H2 T2) as U2. rewrite O2 in U2.
  destruct U1 as [T1' [[S1'|S1'] P1']], U2 as [T2' [[S2'|S2'] P2']]; try congruence.
  apply (Hd id1 id2 o1 o2 src stp); congruence.
Qed.

Lemma count_mono p d d' :
  (forall id b', builds d' !! id = Some b' -> p b' = true ->
     exists b, builds d !! id = Some b /\ p b = true) ->
  count_builds p d' <= count_builds p d.
Proof.
  intros H. unfold count_builds. apply inj_le. rewrite <- !size_dom. apply subseteq_size.
  intros id. rewrite !elem_of_dom. intros [b' [Hb' Hp]%map_lookup_filter_Some].
  destruct (H _ _ Hb' Hp) as (b & Hb & Hpb). exists b. by apply map_lookup_filter_Some.
Qed.

Lemma quiet_rows_counts d d' :
  quiet_rows d d' ->
  (forall pid, count_builds (active_in pid) d' <= count_builds (active_in pid) d) /\
  (forall rid, count_builds (held_by rid) d' <= count_builds (held_by rid) d).
Proof.
  intros Hq. split; intros k; apply count_mono; intros id b' Hb' Hp; specialize (Hq _ _ Hb').
  - destruct (builds d !! id) as [b|].
    + exists b. split; [done|]. destruct Hq as (Hm & Hs & _). unfold active_in, b_pipeline_id in *.
      apply andb_true_iff in Hp as [Hp1 Hp2]. rewrite <- Hm, Hp1. by apply Hs.
    + apply andb_true_iff in Hp as [_ Hp]. by rewrite Hq in Hp.
  - destruct (builds d !! id) as [b|].
    + exists b. split; [done|]. by apply Hq.
    + apply andb_true_iff in Hp as [_ Hp]. by rewrite Hq in Hp.
Qed.

(** The limits in force: [max_concurrent] of a pipeline when it is positive,
    and the build limit of a runner. *)
Definition pipeline_limit (d : db) (pid : string) : option Z :=
  match pipelines d !! pid with
  | Some pl =>
      match max_concurrent (pl_concurrency pl) with
      | Some n => if 0 <? n then Some n else None
      | None => None
      end
  | None => None
  end.

Definition runner_limit (d : db) (rid : string) : Z :=
  match runners d !! rid with
  | Some rn => Z.max (r_max_concurrent_builds rn) 1
  | None => 0
  end.

(** The pipeline has a limit, of at most [n]. *)
Definition pipeline_limited (pid : string) (n : Z) (d : db) : Prop :=
  exists m, pipeline_limit d pid = Some m /\ m <= n.

Lemma claim_counts id rid actor hash now b d :
  inv d -> builds d !! id = Some b -> eligible d rid b = true ->
  let d' := claim_effect id rid actor hash now b d in
  (forall pid, count_builds (active_in pid) d' = count_builds (active_in pid) d
     + (if String.eqb (b_pipeline_id b) pid then 1 else 0)) /\
  (forall k, count_builds (held_by k) d' = count_builds (held_by k) d
     + (if bool_decide (rid = k) then 1 else 0)).
Proof.
  intros Hi Hb He d'. pose proof (eligible_inv _ _ _ He) as (Hs & _).
  pose proof (inv_rows _ Hi _ _ Hb) as [Hok _]. rewrite Hs in Hok. destruct Hok as (Hr & _).
  assert (Hc : forall p, count_builds p d' =
    count_builds p d - (if p b then 1 else 0) + (if p (claimed_row rid hash now b) then 1 else 0)).
  { intros p. rewrite <- (count_builds_insert p id (claimed_row rid hash now b) b d Hb). done. }
  split; intros k; rewrite Hc; unfold active_in, held_by; rewrite Hs, ?Hr; cbn.
  - change (b_pipeline_id (claimed_row rid hash now b)) with (b_pipeline_id b).
    destruct (String.eqb (b_pipeline_id b) k); cbn; lia.
  - rewrite (bool_decide_false (None = Some k)) by done.
    rewrite (bool_decide_ext (Some rid = Some k) (rid = k)) by naive_solver.
    case_bool_decide; cbn; lia.
Qed.

Lemma step_limits d d' :
  inv d -> step d d' ->
  (forall pid n, pipeline_limit d pid = Some n ->
     count_builds (active_in pid) d' <= Z.max n (count_builds (active_in pid) d)) /\
  (forall rid, count_builds (held_by rid) d' <=
     Z.max (runner_limit d rid) (count_builds (held_by rid) d)).
Proof.
  intros Hi Hst.
  apply step_quiet in Hst as [Hq|(id & rid & actor & hash & now & b & Hb & He & ->)].
  - apply quiet_rows_counts in Hq as [Hp Hr].
    split; [intros pid n _; specialize (Hp pid)|intros rid; specialize (Hr rid)]; lia.
  - destruct (claim_counts id rid actor hash now b d Hi Hb He) as [Ca Ch].
    apply eligible_inv in He as (_ & _ & Hfree & Htake & _). split.
    + intros pid n. rewrite Ca. destruct (String.eqb_spec (b_pipeline_id b) pid) as [<-|]; [|lia].
      unfold pipeline_limit, pipeline_has_free_slot in *. destruct (pipelines d !! b_pipeline_id b) as [pl|]; [|done].
      destruct (max_concurrent _) as [m|]; [|done]. destruct (0 <? m); [|done]. intros [= ->].
      apply negb_true_iff, andb_false_iff in Hfree as [?|Hfree]; [done|]. apply Z.leb_gt in Hfree. lia.
    + intros k. rewrite Ch. case_bool_decide; [subst k|lia].
      unfold runner_can_take, runner_limit in *. destruct (runners d !! rid); [|done].
      apply andb_true_iff in Htake as [_ ?%Z.ltb_lt]. lia.
Qed.

(** A measure no step raises above [n] while [P] holds stays below it. *)
Lemma bounded_run (P : db -> Prop) (f : db -> Z) n d d' :
  (forall d1 d2, inv d1 -> step d1 d2 -> P d1 -> f d2 <= Z.max n (f d1)) ->
  rtc (fun d1 d2 => step d1 d2 /\ P d1) d d' -> inv d -> f d' <= Z.max n (f d).
Proof.
  intros Hf. induction 1 as [|d1 d2 d3 [Hst Hp] _ IH]; intros Hi; [lia|].
  specialize (Hf _ _ Hi Hst Hp). specialize (IH (step_inv _ _ Hi Hst)). lia.
Qed.

(** C8: the limits under any interleaving.  No committed change, by any
    runner, handler or monitor and whatever it read earlier, raises the number
    of builds a limited pipeline runs, or a runner holds, above the limit in
    force: after a limit is lowered the builds above it may go on, and none is
    added.  So along any sequence of changes during which the limit, however
    it is changed, is never above [n], a count that starts within [n] stays
    within it, and one that starts above it does not grow. *)
Theorem limits_invariant (d d' : db) :
  inv d ->
  (step d d' ->
   (forall pid n, pipeline_limit d pid = Some n ->
      count_builds (active_in pid) d' <= Z.max n (count_builds (active_in pid) d)) /\
   (forall rid, count_builds (held_by rid) d' <=
      Z.max (runner_limit d rid) (count_builds (held_by rid) d))) /\
  (forall pid n, rtc (fun d1 d2 => step d1 d2 /\ pipeline_limited pid n d1) d d' ->
     count_builds (active_in pid) d' <= Z.max n (count_builds (active_in pid) d)) /\
  (forall rid n, rtc (fun d1 d2 => step d1 d2 /\ runner_limit d1 rid <= n) d d' ->
     count_builds (held_by rid) d' <= Z.max n (count_builds (held_by rid) d)).
Proof.
  intros Hi. split; [by apply step_limits|]. split; intros k n Hrun.
  - refine (bounded_run (pipeline_limited k n) _ n d d' _ Hrun Hi). intros d1 d2 H1 Hst (m & Hm & ?).
    pose proof (proj1 (step_limits _ _ H1 Hst) _ _ Hm). lia.
  - refine (bounded_run (fun d1 => runner_limit d1 k <= n) _ n d d' _ Hrun Hi). intros d1 d2 H1 Hst ?.
    pose proof (proj2 (step_limits _ _ H1 Hst) k). lia.
Qed.

(** *** Witnesses: a build from its creation to retention *)

Lemma empty_inv : inv empty_database.
Proof. split; intros *; cbn; by rewrite ?lookup_empty, ?elem_of_nil. Qed.

Definition created : db := w_db (fst (insert_build_with_retry sample_binds (World empty_database [] []))).

Lemma created_inv : inv created.
Proof.
  refine (step_inv _ _ empty_inv (step_insert _ sample_binds _ _)).
  apply (insert_attempts_result (pred BUILD_INSERT_MAX_RETRIES) sample_binds (World empty_database [] [])
    _ (Ok true)). vm_compute. reflexivity.
Qed.

Definition cancelled : db :=
  transition_db "b-new" BuildStatus.Queued BuildStatus.Canceled None None None 300 created.

Lemma finished_is_final_witness :
  exists b d', builds cancelled !! "b-new"%string = Some b /\ step cancelled d' /\
    exists b', builds d' !! "b-new"%string = Some b' /\ b_finished_at b' = b_finished_at b.
Proof.
  destruct (builds cancelled !! "b-new"%string) as [b|] eqn:Hb; [|vm_compute in Hb; discriminate Hb].
  assert (Hs : b_status b = BuildStatus.Canceled) by (vm_compute in Hb; injection Hb as <-; reflexivity).
  pose (d' := transition_db "b-new" BuildStatus.Canceled BuildStatus.Expired None None None 900 cancelled).
  assert (Hst : step cancelled d') by (by apply (step_transition _ _ _ _ _ _ _ _ b)).
  assert (Hi : inv cancelled).
  { destruct (builds created !! "b-new"%string) as [b0|] eqn:Hb0; [|vm_compute in Hb0; discriminate Hb0].
    apply (step_inv created); [exact created_inv|]. apply (step_transition _ _ _ _ _ _ _ _ b0); [exact Hb0| |done..].
    vm_compute in Hb0. injection Hb0 as <-. reflexivity. }
  exists b, d'. split; [reflexivity|]. split; [exact Hst|].
  assert (Ht : BuildStatus.is_terminal (b_status b) = true) by (by rewrite Hs).
  destruct (finished_is_final cancelled d' "b-new" b Hi Hst Hb Ht) as [H|(b' & Hb' & _ & _ & Hf & _)];
    [vm_compute in H; discriminate H|]. exists b'. by split.
Defined.

Lemma limits_invariant_witness :
  exists b, builds created !! "b-new"%string = Some b /\
    let d' := claim_effect "b-new" "rn1" "runner:rn1" "h" 250 b created in
    count_builds (active_in (b_pipeline_id b)) d' <= 2 /\ count_builds (held_by "rn1") d' <= 2.
Proof.
  destruct (builds created !! "b-new"%string) as [b|] eqn:Hb; [|vm_compute in Hb; discriminate Hb].
  exists b. split; [reflexivity|]. intros d'.
  assert (Hst : step created d').
  { apply step_claim; [exact Hb|]. vm_compute in Hb. injection Hb as <-. vm_compute. reflexivity. }
  destruct (limits_invariant created d' created_inv) as (_ & Hp & Hr). split.
  - etransitivity; [apply (Hp _ 2); apply rtc_once; split; [exact Hst|]|].
    + vm_compute in Hb. injection Hb as <-. exists 2. split; [vm_compute; reflexivity|lia].
    + vm_compute in Hb. injection Hb as <-. apply Z.leb_le; vm_compute; reflexivity.
  - etransitivity; [apply (Hr _ 2); apply rtc_once; split; [exact Hst|]|].
    + apply Z.leb_le; vm_compute; reflexivity.
    + apply Z.leb_le; vm_compute; reflexivity.
Defined.
