(* ===== verification/Removals.v ===== *)
(** * Sources that change or disappear, pipelines and projects that are deleted

    The requests that cancel or delete builds as a whole: a project that gets
    another source and its deletion ([projects.rs]), the deletion of a pipeline
    ([pipelines.rs]), the removal of an integration and of the repositories a
    synchronisation no longer finds ([integrations/mod.rs], [github.rs],
    [gitlab.rs], [local_git.rs]).

    A [DELETE] takes what references the row with [ON DELETE CASCADE] along and
    fails when a row without such a clause still refers to it: [builds] refers
    that way to its project, its pipeline and its webhook.  Only the tables of
    [Db.v] are followed.  [deletable] says which objects the storage backend
    deletes without an error, [storage_disabled] that there is none. *)

From stdpp Require Import relations.
From S2P Require Import Prelude Contract RustStr Labels Triggers Db Access Builds Runners Monitors Environments Accounts SignIn Retention Lifecycle.

Local Open Scope Z_scope.

(** [fetch_one(...).await.unwrap_or(default)]. *)
Definition read_or {A} (fallback : A) (q : db -> A) : M A :=
  catch (sql (fun d => (d, q d))) (fun r => mret match r with Ok a => a | Err _ => fallback end).

(** ** Deleting builds *)

(** [DELETE FROM builds WHERE <p> AND status IN (...)], the finished ones. *)
Definition delete_finished_builds (p : build -> bool) (d : db) : db :=
  foldr delete_build_row d
    (map fst (select_builds (fun _ b => p b && BuildStatus.is_terminal (b_status b)) d)).

(** [SELECT COUNT(...) FROM builds WHERE <p> AND status NOT IN (...)]. *)
Definition active_builds (p : build -> bool) (d : db) : Z :=
  count_builds (fun b => p b && negb (BuildStatus.is_terminal (b_status b))) d.

(** The artifacts and the feedback screenshots of the builds in [p]. *)
Definition artifact_paths (p : build -> bool) (d : db) : list string :=
  map ar_file_path (List.filter (fun a =>
    match builds d !! ar_build_id a with Some b => p b | None => false end) (artifacts d)).

(** [screenshot_keys_for_pipeline], [screenshot_keys_for_project]. *)
Definition screenshot_keys (p : build -> bool) (d : db) : list string :=
  map snd (List.filter (fun s =>
    match builds d !! s.1 with
    | Some b => p b && BuildStatus.is_terminal (b_status b)
    | None => false
    end) (feedback_screenshots d)).

(** ** [delete_pipeline] *)

Definition in_pipeline (pipeline_id : string) (b : build) : bool :=
  String.eqb (b_pipeline_id b) pipeline_id.

(** [state NOT IN ('complete', 'failed', 'halted')]. *)
Definition in_progress (s : ReleaseState.t) : bool :=
  match s with ReleaseState.Complete | ReleaseState.Failed | ReleaseState.Halted => false | _ => true end.

(** The releases of a pipeline the daemon is still driving. *)
Definition releases_in_progress (pipeline_id : string) (d : db) : Z :=
  Z.of_nat (length (filter (fun kv : string * release =>
    match builds d !! rl_build_id kv.2 with
    | Some b => in_pipeline pipeline_id b && in_progress (rl_state kv.2)
    | None => false
    end = true) (map_to_list (releases d)))).

(** What goes with a row of [pipelines]. *)
Definition cascade_pipeline (pipeline_id : string) (d : db) : db :=
  set_pipelines (delete pipeline_id (pipelines d))
  (set_webhook_claims (filter (fun kv : (string * string * string) * string => kv.1.1.2 <> pipeline_id) (webhook_claims d))
  (set_schedule_runs (filter (fun kv : (string * string) * Z => kv.1.1 <> pipeline_id) (schedule_runs d))
  (set_play_targets (delete pipeline_id (play_targets d))
  (set_app_store_targets (delete pipeline_id (app_store_targets d))
  (set_ios_signing (delete pipeline_id (ios_signing d))
  (set_app_store_links (filter (fun kv : string * app_store_link => al_pipeline_id kv.2 <> pipeline_id) (app_store_links d))
  (set_secrets (List.filter (fun s => match sc_scope s with
                                      | PipelineScope _ pl => negb (String.eqb pl pipeline_id)
                                      | _ => true
                                      end) (secrets d)) d))))))).

(** [DELETE FROM pipelines WHERE id = ?]: refused while a build refers to it. *)
Definition delete_pipeline_row (pipeline_id : string) (d : db) : result sqlx_error db :=
  if existsb (fun kv => in_pipeline pipeline_id kv.2) (map_to_list (builds d)) then Err OtherSqlError
  else Ok (cascade_pipeline pipeline_id d).

(** [delete_pipeline_rows]: the files of the deleted builds. *)
Definition delete_pipeline_rows (pipeline_id : string) : M (list string * list string) :=
  let failed := "Failed to delete pipeline"%string in
  transaction failed (
    exists_ ← read_or false (fun d => bool_decide (is_Some (pipelines d !! pipeline_id)));
    _ ← guard exists_ (ApiErr 404 "not_found" "Pipeline not found");
    active ← read_or 0 (active_builds (in_pipeline pipeline_id));
    _ ← guard (active <=? 0) (ApiErr 409 "active_builds" "Cannot delete pipeline with active builds");
    driven ← query failed (releases_in_progress pipeline_id);
    _ ← guard (driven <=? 0) (ApiErr 409 "releases_in_progress"
          "Cannot delete a pipeline while one of its releases is in progress. Halt or complete the release, or wait for the store to finish, first.");
    paths ← query failed (artifact_paths (in_pipeline pipeline_id));
    keys ← query failed (screenshot_keys (in_pipeline pipeline_id));
    _ ← run failed (delete_finished_builds (in_pipeline pipeline_id));
    _ ← run failed (fun d => set_schedule_runs
          (filter (fun kv : (string * string) * Z => kv.1.1 <> pipeline_id) (schedule_runs d)) d);
    _ ← map_errM (fun _ => store_error failed) (checked (delete_pipeline_row pipeline_id));
    mret (Commit (paths, keys))).

Section Storage.
Context (deletable : string -> bool) (storage_disabled : bool).

(** [storage.delete_object], whether it worked. *)
Definition remove_object (path : string) : M bool :=
  map_errM (fun _ => store_error ""%string) (delete_object deletable path).

Definition remove_screenshots (keys : list string) : M unit :=
  map_errM (fun _ => store_error ""%string) (delete_screenshots deletable keys).

(** [delete_pipeline]: how many artifacts were deleted and how many are left,
    as the audit entry says. *)
Definition delete_pipeline (enforce : string -> string -> string -> bool) (auth : SessionInfo)
    (pipeline_id : string) : M (nat * nat) :=
  _ ← check_permission enforce (role auth) "pipelines" "delete";
  '(paths, keys) ← delete_pipeline_rows pipeline_id;
  _ ← remove_screenshots keys;
  left ← for_each (fun path left => ok ← remove_object path; mret (if ok : bool then left else S left))
           paths 0%nat;
  _ ← write_audit_log (Some (user_id auth)) "pipeline_deleted" "pipeline" (Some pipeline_id);
  mret ((length paths - left)%nat, left).

(** ** [delete_project] *)

Definition in_project (project_id : string) (b : build) : bool :=
  String.eqb (b_project_id b) project_id.

Definition pipelines_of (project_id : string) (d : db) : list string :=
  map fst (filter (fun kv : string * pipeline => pl_project_id kv.2 = project_id) (map_to_list (pipelines d))).

Definition environments_of (project_id : string) (d : db) : list string :=
  map fst (filter (fun kv : string * environment => pe_project_id kv.2 = project_id)
    (map_to_list (project_environments d))).

Definition of_project (project_id : string) (s : secret_scope) : bool :=
  match s with
  | ProjectScope p | PipelineScope p _ => String.eqb p project_id
  | InstanceScope => false
  end.

Definition set_pm_release_id (v : option string) (p : promotion) : promotion :=
  PromotionRow (pm_project_id p) (pm_build_id p) (pm_environment_id p) (pm_source_release_id p) v
    (pm_state p) (pm_reason p) (pm_decision_reason p) (pm_error p) (pm_requested_by p)
    (pm_decided_by p) (pm_decided_at p) (pm_created_at p) (pm_updated_at p).

(** The releases of a project, with their history, links and the promotions
    that start from them; what refers to them otherwise is cleared. *)
Definition cascade_releases (project_id : string) (d : db) : db :=
  let gone (k : string) : bool :=
    match releases d !! k with Some r => String.eqb (rl_project_id r) project_id | None => false end in
  let clear (o : option string) : option string :=
    match o with Some k => if gone k then None else Some k | None => None end in
  set_app_store_links (filter (fun kv : string * app_store_link => gone kv.1 = false) (app_store_links d))
  (set_release_history (filter (fun h => gone (rh_release_id h) = false) (release_history d))
  (set_environment_promotions
    ((fun p => set_pm_release_id (clear (pm_release_id p)) p) <$>
       filter (fun kv : string * promotion => pm_project_id kv.2 <> project_id /\ gone (pm_source_release_id kv.2) = false)
         (environment_promotions d))
  (set_releases
    ((fun r => set_rl_promoted_from_release_id (clear (rl_promoted_from_release_id r)) r) <$>
       filter (fun kv : string * release => gone kv.1 = false) (releases d)) d))).

(** What goes with a row of [projects]. *)
Definition cascade_project (project_id : string) (d : db) : db :=
  let d := foldr cascade_pipeline d (pipelines_of project_id d) in
  let d := cascade_releases project_id d in
  let d := foldr (delete_environment_row project_id) d (environments_of project_id d) in
  set_projects (delete project_id (projects d))
  (set_members (filter (fun kv : (string * string) * string => kv.1.1 <> project_id) (members d))
  (set_retention_overrides (delete project_id (retention_overrides d))
  (set_secrets (List.filter (fun s => negb (of_project project_id (sc_scope s))) (secrets d)) d))).

(** [DELETE FROM projects WHERE id = ?]: refused while a build refers to it or
    to one of its pipelines. *)
Definition delete_project_row (project_id : string) (d : db) : result sqlx_error db :=
  if existsb (fun kv => in_project project_id kv.2 || listed (pipelines_of project_id d) (b_pipeline_id kv.2))
       (map_to_list (builds d)) then Err OtherSqlError
  else Ok (cascade_project project_id d).

(** A transaction whose body deletes objects from storage: they stay deleted
    when it does not commit. *)
Definition transaction_over_storage {A} (message : string) (body : M A) : M A := fun w =>
  let undo (w' : world) := set_w_db (set_objects (objects (w_db w')) (w_db w)) w' in
  match (run message (fun d => d) ≫= fun _ => body) w with
  | (w', Err e) => (undo w', Err e)
  | (w', Ok a) =>
      match run message (fun d => d) w' with
      | (w'', Err e) => (undo w'', Err e)
      | (w'', Ok _) => (w'', Ok a)
      end
  end.

(** [delete_project]. *)
Definition delete_project (auth : SessionInfo) (project_id : string) : M unit :=
  let failed := "Failed to delete project"%string in
  effective ← resolve_effective_project_role (user_id auth) (role auth) project_id (auth_source auth);
  _ ← require_project_permission effective Delete;
  keys ← transaction_over_storage failed (
    exists_ ← read_or false (fun d => bool_decide (is_Some (projects d !! project_id)));
    _ ← guard exists_ (ApiErr 404 "not_found" "Project not found");
    active ← read_or 0 (active_builds (in_project project_id));
    _ ← guard (active <=? 0) (ApiErr 409 "active_builds" "Cannot delete project with active builds");
    paths ← query failed (fun d => remove_dups (artifact_paths (in_project project_id) d));
    _ ← guard (bool_decide (paths = []) || negb storage_disabled)
          (ApiErr 500 "storage_error" "Artifact storage must be available to delete this project");
    _ ← for_each (fun path _ =>
          ok ← remove_object path;
          guard ok (ApiErr 500 "storage_error" "Failed to delete project artifacts")) paths tt;
    keys ← query failed (screenshot_keys (in_project project_id));
    _ ← run failed (delete_finished_builds (in_project project_id));
    _ ← map_errM (fun _ => store_error failed) (checked (delete_project_row project_id));
    mret keys);
  _ ← remove_screenshots keys;
  write_audit_log (Some (user_id auth)) "project_deleted" "project" (Some project_id).

End Storage.

(** ** [update_project] *)

(** [struct UpdateProjectRequest]. *)
Record UpdateProjectRequest := {
  up_name : option string;
  up_description : option string;
  up_repository_id : option string;
  up_default_branch : option string;
  up_settings : option Json.Value;
  up_auto_add_pipelines : option bool;
}.

(** No field is given. *)
Definition nothing_to_update (req : UpdateProjectRequest) : bool :=
  match req with
  | {| up_name := None; up_description := None; up_repository_id := None;
       up_default_branch := None; up_settings := None; up_auto_add_pipelines := None |} => true
  | _ => false
  end.

(** [require_repository_attachable]: the repository's name. *)
Definition require_repository_attachable (repository_id : string) : M string :=
  row ← query "Failed to validate repository" (fun d =>
    r ← repositories d !! repository_id;
    integration_id ← installations d !! rp_installation_id r;
    i ← integrations d !! integration_id;
    mret (rp_full_name r, ig_provider i));
  '(full_name, provider) ← from_option (ApiErr 400 "invalid_repository" "Repository not found") row;
  if bool_decide (provider = ScmProvider.LocalGit) then
    mode ← load_runtime_mode "Failed to determine runtime mode";
    _ ← guard (bool_decide (mode = RuntimeMode.Local))
          (ApiErr 403 "mode_restricted" "Local repositories are only available in local mode");
    mret full_name
  else mret full_name.

(** The project has another source than [repository_id]. *)
Definition source_differs (project_id repository_id : string) (d : db) : bool :=
  match projects d !! project_id with
  | Some p => negb (bool_decide (pr_repository_id p = Some repository_id))
  | None => false
  end.

(** [INSERT INTO audit_logs ... SELECT ... WHERE p.repository_id IS NOT ?]: the
    number of rows. *)
Definition audit_source_change (actor_id project_id repository_id : string) (d : db) : db * Z :=
  if source_differs project_id repository_id d
  then (set_audit_logs (audit_logs d ++ [AuditLog (Some actor_id) "project_source_link_updated"
          "project" (Some project_id)]) d, 1)
  else (d, 0).

(** [UPDATE projects SET ... WHERE id = ?]: [repository_id] must be a
    repository; the name, the description and the settings are not columns of
    the model. *)
Definition update_project_row (project_id : string) (req : UpdateProjectRequest) (d : db)
    : db * (option sqlx_error * Z) :=
  match projects d !! project_id with
  | Some p =>
      match up_repository_id req with
      | Some r =>
          match repositories d !! r with
          | Some _ => (set_projects (<[project_id := Project (Some r)
                         (or_else (up_default_branch req) (pr_default_branch p))]> (projects d)) d, (None, 1))
          | None => (d, (Some OtherSqlError, 0))
          end
      | None => (set_projects (<[project_id := Project (pr_repository_id p)
                   (or_else (up_default_branch req) (pr_default_branch p))]> (projects d)) d, (None, 1))
      end
  | None => (d, (None, 0))
  end.

(** [update_project]; the cache of configuration files, which a new source
    empties, and the refresh that follows are not modelled. *)
Definition update_project (auth : SessionInfo) (project_id : string) (req : UpdateProjectRequest)
    (now : Z) : M project :=
  let failed := "Failed to update project"%string in
  let source_failed := "Failed to update project source"%string in
  let reload message :=
    row ← query message (fun d => projects d !! project_id);
    from_option (store_error message) row in
  effective ← resolve_effective_project_role (user_id auth) (role auth) project_id (auth_source auth);
  _ ← require_project_permission effective Write;
  exists_ ← read_or false (fun d => bool_decide (is_Some (projects d !! project_id)));
  _ ← guard exists_ (ApiErr 404 "not_found" "Project not found");
  _ ← guard (match up_name req with Some n => negb (is_empty (trim n)) | None => true end)
        (ApiErr 400 "invalid_input" "Project name must not be empty");
  _ ← match up_repository_id req with
      | Some repository_id =>
          _ ← require_admin_or_above auth;
          _ ← require_repository_attachable repository_id;
          mret tt
      | None => mret tt
      end;
  if nothing_to_update req then reload "Failed to fetch project"%string
  else
    _ ← transaction failed (
      source_changed ← match up_repository_id req with
        | Some repository_id =>
            n ← exec source_failed (audit_source_change (user_id auth) project_id repository_id);
            mret (n =? 1)
        | None => mret false
        end;
      _ ← (if source_changed : bool
           then map_errM (fun _ => store_error source_failed)
                  (cancel_for_source_change project_id (email auth) now)
           else mret tt);
      '(refused, n) ← exec failed (update_project_row project_id req);
      _ ← guard (bool_decide (refused = None)) (store_error failed);
      _ ← guard (n =? 1) (ApiErr 404 "not_found" "Project not found");
      mret (Commit tt));
    _ ← write_audit_log (Some (user_id auth)) "project_updated" "project" (Some project_id);
    reload "Failed to reload project"%string.

(** ** Repositories that disappear *)

Definition repositories_of (integration_id : string) (d : db) : list string :=
  map fst (filter (fun kv : string * repository =>
    installations d !! rp_installation_id kv.2 = Some integration_id) (map_to_list (repositories d))).

(** [UPDATE projects SET repository_id = NULL WHERE repository_id IN (...)]. *)
Definition unlink_projects (ids : list string) (d : db) : db :=
  set_projects ((fun p => match pr_repository_id p with
                          | Some r => if listed ids r then Project None (pr_default_branch p) else p
                          | None => p
                          end) <$> projects d) d.

(** The build was made from a delivery of the integration. *)
Definition from_delivery (integration_id : string) (d : db) (b : build) : bool :=
  match bm_webhook_id (b_meta b) ≫= fun k => webhooks d !! k with
  | Some h => String.eqb (wm_integration_id (wh_meta h)) integration_id
  | None => false
  end.

(** What goes with a row of [integrations]. *)
Definition cascade_integration (integration_id : string) (d : db) : db :=
  let gone_repositories := repositories_of integration_id d in
  let gone_webhook (k : string) : bool :=
    match webhooks d !! k with
    | Some h => String.eqb (wm_integration_id (wh_meta h)) integration_id
    | None => false
    end in
  set_integrations (delete integration_id (integrations d))
  (set_installations (filter (fun kv : string * string => kv.2 <> integration_id) (installations d))
  (set_repositories (filter (fun kv : string * repository => listed gone_repositories kv.1 = false) (repositories d))
  (set_repository_secrets (filter (fun kv : string * string => listed gone_repositories kv.1 = false) (repository_secrets d))
  (set_credentials (filter (fun kv : (string * string) * string => kv.1.1 <> integration_id) (credentials d))
  (set_webhooks (filter (fun kv : string * webhook => gone_webhook kv.1 = false) (webhooks d))
  (set_webhook_claims (filter (fun kv : (string * string * string) * string => gone_webhook kv.1.1.1 = false)
    (webhook_claims d)) d)))))).

(** [DELETE FROM integrations WHERE id = ?]: refused while a build refers to
    one of its deliveries or a project to one of its repositories. *)
Definition delete_integration_row (integration_id : string) (d : db) : db * (option sqlx_error * Z) :=
  match integrations d !! integration_id with
  | None => (d, (None, 0))
  | Some _ =>
      if existsb (fun kv => from_delivery integration_id d kv.2) (map_to_list (builds d))
         || existsb (fun kv : string * project => match pr_repository_id kv.2 with
                                                  | Some r => listed (repositories_of integration_id d) r
                                                  | None => false
                                                  end) (map_to_list (projects d))
      then (d, (Some OtherSqlError, 0))
      else (cascade_integration integration_id d, (None, 1))
  end.

(** [delete_integration_records]: the statements of its transaction, and it. *)
Definition remove_integration_rows (id : string) (now : Z) : ME sqlx_error (tx_end bool) :=
  repository_ids ← sql (fun d => (d, repositories_of id d));
  _ ← cancel_unassigned_builds_for_removed_repositories repository_ids now;
  _ ← sql (fun d => (unlink_projects (repositories_of id d) d, tt));
  '(refused, deleted) ← sql (delete_integration_row id);
  match refused : option sqlx_error with
  | Some e => throw e
  | None => mret (Commit (0 <? deleted))
  end.

Definition delete_integration_records (id : string) (now : Z) : ME sqlx_error bool :=
  transaction_with (fun e => e) (remove_integration_rows id now).

(** [count_active_builds_for_integration]. *)
Definition active_builds_of_integration (id : string) (d : db) : Z :=
  count_builds (fun b => held_status (b_status b)
    && match snap_repository_id (b_snapshot b) with
       | Some r => listed (repositories_of id d) r
       | None => false
       end) d.

(** [delete_integration]. *)
Definition delete_integration (enforce : string -> string -> string -> bool) (auth : SessionInfo)
    (id : string) (now : Z) : M unit :=
  _ ← check_permission enforce (role auth) "integrations" "delete";
  row ← query "Failed to fetch integration" (fun d => integrations d !! id);
  _ ← from_option (ApiErr 404 "not_found" "Integration not found") row;
  active ← query "Failed to check whether the source is in use" (active_builds_of_integration id);
  _ ← guard (active <=? 0) (ApiErr 409 "integration_has_active_builds"
        "This source has assigned or running builds. Let them finish, then disconnect it.");
  _ ← map_errM (fun _ => store_error "Failed to delete integration") (delete_integration_records id now);
  write_audit_log (Some (user_id auth)) "integration_deleted" "integration" (Some id).

(** [delete_local_git_integration]. *)
Definition delete_local_git_integration (enforce : string -> string -> string -> bool)
    (auth : SessionInfo) (id : string) (now : Z) : M unit :=
  _ ← check_permission enforce (role auth) "integrations" "delete";
  row ← query "Failed to query integration" (fun d =>
    i ← integrations d !! id;
    if bool_decide (ig_provider i = ScmProvider.LocalGit) then Some i else None);
  _ ← from_option (ApiErr 404 "not_found" "Local git integration not found") row;
  _ ← map_errM (fun _ => store_error "Failed to delete integration") (delete_integration_records id now);
  write_audit_log (Some (user_id auth)) "integration_deleted" "integration" (Some id).

(** The end of a synchronisation, inside its transaction: the repositories in
    [stale] are gone at the provider.  Their unclaimed builds are cancelled,
    their projects unlinked, and those no running build uses deleted. *)
Definition remove_stale_repositories (stale : db -> string -> repository -> bool) (now : Z)
    : ME sqlx_error unit :=
  let ids d := map fst (filter (fun kv : string * repository => stale d kv.1 kv.2 = true)
                  (map_to_list (repositories d))) in
  let unused d k := negb (existsb (fun kv => held_status (b_status kv.2)
                      && bool_decide (snap_repository_id (b_snapshot kv.2) = Some k)) (map_to_list (builds d))) in
  repository_ids ← sql (fun d => (d, ids d));
  _ ← cancel_unassigned_builds_for_removed_repositories repository_ids now;
  _ ← sql (fun d => (unlink_projects (ids d) d, tt));
  sql (fun d => let gone := List.filter (unused d) (ids d) in
    (set_repositories (filter (fun kv : string * repository => listed gone kv.1 = false) (repositories d))
    (set_repository_secrets (filter (fun kv : string * string => listed gone kv.1 = false) (repository_secrets d)) d), tt)).

(** ** Deleting builds, one row at a time *)

Lemma kept_trans b1 b2 b3 : kept b1 b2 -> kept b2 b3 -> kept b1 b3.
Proof. unfold kept. intros [-> | ->] [-> | ->]; auto. Qed.

Lemma kept_finished b b' : kept b b' -> BuildStatus.is_terminal (b_status b') = BuildStatus.is_terminal (b_status b).
Proof. by intros [-> | ->]. Qed.

Lemma kept_pipeline b b' pid : kept b b' -> in_pipeline pid b' = in_pipeline pid b.
Proof. by intros [-> | ->]. Qed.

Lemma delete_build_row_other id d k o :
  k <> id -> builds d !! k = Some o -> exists o', builds (delete_build_row id d) !! k = Some o' /\ kept o o'.
Proof.
  intros Hk Ho. cbn. rewrite lookup_fmap, lookup_delete_ne, Ho by done. eexists. split; [reflexivity|].
  unfold kept. case_match; auto.
Qed.

Lemma delete_rows_lookup l d k o :
  builds (foldr delete_build_row d l) !! k = Some o ->
  k ∉ l /\ exists o0, builds d !! k = Some o0 /\ kept o0 o.
Proof.
  revert o. induction l as [|id l IH]; intros o H; cbn in H.
  - split; [apply not_elem_of_nil|]. exists o. split; [done|by left].
  - apply delete_build_row_lookup in H as (Hne & o1 & (Hk & o0 & Ho & K1)%IH & K2).
    split; [by apply not_elem_of_cons|]. exists o0. eauto using kept_trans.
Qed.

Lemma delete_rows_other l d k o :
  k ∉ l -> builds d !! k = Some o ->
  exists o', builds (foldr delete_build_row d l) !! k = Some o' /\ kept o o'.
Proof.
  induction l as [|id l IH]; intros Hk Ho; cbn; [exists o; split; [done|by left]|].
  apply not_elem_of_cons in Hk as [Hne Hk]. destruct (IH Hk Ho) as (o1 & H1 & K1).
  destruct (delete_build_row_other id _ _ _ Hne H1) as (o2 & H2 & K2). eauto using kept_trans.
Qed.

(** Deleting finished builds is a sequence of steps. *)
Lemma delete_rows_steps l d :
  NoDup l ->
  (forall k, k ∈ l -> exists b, builds d !! k = Some b /\ BuildStatus.is_terminal (b_status b) = true) ->
  rtc step d (foldr delete_build_row d l).
Proof.
  induction l as [|id l IH]; intros Hnd Hall; cbn; [done|]. apply NoDup_cons in Hnd as [Hid Hnd].
  eapply rtc_r; [apply IH; [done|]; intros; apply Hall; by apply list_elem_of_further|].
  destruct (Hall id) as (b & Hb & Ht); [by left|].
  destruct (delete_rows_other l d id b Hid Hb) as (b' & Hb' & Hk).
  apply (step_delete _ id b'); [done|]. by rewrite (kept_finished _ _ Hk).
Qed.

Lemma elem_of_finished p d k :
  k ∈ map fst (select_builds (fun _ b => p b && BuildStatus.is_terminal (b_status b)) d) <->
  exists b, builds d !! k = Some b /\ p b = true /\ BuildStatus.is_terminal (b_status b) = true.
Proof.
  rewrite list_elem_of_fmap. split.
  - intros ([k' b] & -> & [Hb [Hp Ht]%andb_true_iff]%elem_of_select_builds). eauto.
  - intros (b & Hb & Hp & Ht). exists (k, b). split; [done|].
    apply elem_of_select_builds. split; [done|]. cbn. by rewrite Hp, Ht.
Qed.

Lemma delete_finished_steps p d : rtc step d (delete_finished_builds p d).
Proof.
  apply delete_rows_steps.
  - eapply sublist_NoDup; [apply (NoDup_fst_map_to_list (builds d))|]. apply sublist_map, sublist_filter.
  - intros k (b & Hb & _ & Ht)%elem_of_finished. eauto.
Qed.

(** What is left after the finished builds in [p] are deleted. *)
Lemma delete_finished_lookup p d k b :
  builds d !! k = Some b ->
  (p b && BuildStatus.is_terminal (b_status b) = true -> builds (delete_finished_builds p d) !! k = None) /\
  (p b && BuildStatus.is_terminal (b_status b) = false ->
     exists b', builds (delete_finished_builds p d) !! k = Some b' /\ kept b b').
Proof.
  intros Hb. split; intros Hp.
  - apply eq_None_not_Some. intros [o (Hk & _)%delete_rows_lookup]. apply Hk, elem_of_finished.
    apply andb_true_iff in Hp. naive_solver.
  - apply delete_rows_other; [|done]. intros (b' & Hb' & Hp' & Ht)%elem_of_finished.
    simplify_eq. by rewrite Hp', Ht in Hp.
Qed.

Lemma delete_finished_new p d k : builds d !! k = None -> builds (delete_finished_builds p d) !! k = None.
Proof. intros Hn. apply eq_None_not_Some. intros [o (_ & o0 & Ho & _)%delete_rows_lookup]. congruence. Qed.

(** Deleting builds leaves the pipelines alone. *)
Lemma delete_finished_pipelines p d : pipelines (delete_finished_builds p d) = pipelines d.
Proof. unfold delete_finished_builds. generalize (map fst (select_builds (fun _ b => p b && BuildStatus.is_terminal (b_status b)) d)). intros l. by induction l. Qed.

(** ** Running deletions *)

Lemma read_or_ok {A} (x : A) q w w' a : read_or x q w = (w', Ok a) -> w_db w' = w_db w /\ (a = q (w_db w) \/ a = x).
Proof.
  unfold read_or, catch. destruct (sql _ w) as [w1 [y|e]] eqn:E; intros [= <- <-].
  - apply sql_ok in E as [[= E1 E2] _]. auto.
  - apply sql_err in E as [? _]. auto.
Qed.

Lemma checked_ok {E} (g : sqlx_error -> E) f w w' u :
  map_errM g (checked f) w = (w', Ok u) -> f (w_db w) = Ok (w_db w').
Proof.
  unfold map_errM. destruct (checked f w) as [w1 [x|e]] eqn:E1; cbn; [|done]. intros [= <- _].
  apply M_bind_ok in E1 as (w2 & o & [Hs _]%sql_ok & H).
  destruct (f (w_db w)) as [d|e]; simplify_eq/=; by inv_run.
Qed.

Ltac inv_removal :=
  repeat match goal with
  | H : read_or _ _ _ = (_, Ok _) |- _ => apply read_or_ok in H as [? ?]
  | H : guard _ _ _ = (_, Ok _) |- _ => apply guard_ok in H as [? ->]
  | H : map_errM _ (checked _) _ = (_, Ok _) |- _ => apply checked_ok in H
  end.

Lemma no_references (p : build -> bool) d k b :
  existsb (fun kv : string * build => p kv.2) (map_to_list (builds d)) = false -> builds d !! k = Some b -> p b = false.
Proof.
  intros He Hb. apply not_true_iff_false. intros Hp. apply not_true_iff_false in He. apply He, existsb_exists.
  exists (k, b). split; [by apply list_elem_of_In, elem_of_map_to_list|done].
Qed.

(** No release of the pipeline's builds is in progress. *)
Lemma none_in_progress pid d k r b :
  releases_in_progress pid d <= 0 -> releases d !! k = Some r -> builds d !! rl_build_id r = Some b ->
  in_pipeline pid b = true -> in_progress (rl_state r) = false.
Proof.
  intros Hle Hr Hb Hp. apply not_true_iff_false. intros Hi. unfold releases_in_progress in Hle.
  assert (Hin : (k, r) ∈ filter (fun kv : string * release =>
    match builds d !! rl_build_id kv.2 with
    | Some b => in_pipeline pid b && in_progress (rl_state kv.2)
    | None => false
    end = true) (map_to_list (releases d))).
  { apply list_elem_of_filter. split; [cbn; by rewrite Hb, Hp|by apply elem_of_map_to_list]. }
  apply list_elem_of_lookup in Hin as [i Hi']. apply lookup_lt_Some in Hi'. lia.
Qed.

Lemma delete_pipeline_row_ok pid d d' :
  delete_pipeline_row pid d = Ok d' ->
  builds d' = builds d /\ pipelines d' = delete pid (pipelines d) /\
  forall k b, builds d !! k = Some b -> in_pipeline pid b = false.
Proof.
  unfold delete_pipeline_row. case_match eqn:Href; [done|]. intros [= <-]. split_and!; [done..|].
  intros k b. by apply no_references.
Qed.

(** What a deletion that went through has done. *)
Lemma deleted_pipeline pid w w' paths keys :
  delete_pipeline_rows pid w = (w', Ok (paths, keys)) ->
  is_Some (pipelines (w_db w) !! pid) /\
  pipelines (w_db w') = delete pid (pipelines (w_db w)) /\
  (forall k b, builds (w_db w) !! k = Some b ->
     if in_pipeline pid b
     then BuildStatus.is_terminal (b_status b) = true /\ builds (w_db w') !! k = None
     else exists b', builds (w_db w') !! k = Some b' /\ kept b b') /\
  (forall k, builds (w_db w) !! k = None -> builds (w_db w') !! k = None) /\
  (forall k rl b, releases (w_db w) !! k = Some rl -> builds (w_db w) !! rl_build_id rl = Some b ->
     in_pipeline pid b = true -> in_progress (rl_state rl) = false) /\
  paths = artifact_paths (in_pipeline pid) (w_db w) /\ keys = screenshot_keys (in_pipeline pid) (w_db w).
Proof.
  intros H.
  apply transaction_with_ok in H as (w0 & w1 & Hd0 & _ & _ & [[H Hd]|[[H|H] _]]); [|by inv_run; inv_removal; inv_run..].
  inv_run. inv_removal. inv_run. subst_db.
  match goal with H : delete_pipeline_row _ _ = Ok _ |- _ => apply delete_pipeline_row_ok in H as (-> & -> & Hfree) end.
  cbn in Hfree |- *. rewrite delete_finished_pipelines. split_and!; [|done| | | |done|done].
  - match goal with H : _ \/ true = false |- _ => destruct H as [H|H]; [|done]; symmetry in H; by apply bool_decide_eq_true in H end.
  - intros k b Hb. destruct (delete_finished_lookup (in_pipeline pid) _ k b Hb) as [Hgone Hleft].
    destruct (in_pipeline pid b) eqn:Hp; [|by apply Hleft].
    destruct (BuildStatus.is_terminal (b_status b)); [by split; [|apply Hgone]|].
    destruct Hleft as (b' & Hb' & Hk); [done|]. apply Hfree in Hb'. rewrite (kept_pipeline _ _ _ Hk) in Hb'. congruence.
  - intros k. apply delete_finished_new.
  - intros k rl b. apply none_in_progress. by apply Z.leb_le.
Qed.

Lemma none_active p d :
  (forall k b, builds d !! k = Some b -> p b = true -> BuildStatus.is_terminal (b_status b) = true) ->
  active_builds p d = 0.
Proof.
  intros Hp. unfold active_builds, count_builds. rewrite map_empty_filter_2; [by rewrite map_size_empty|].
  intros k b Hb [Hpb Ht]%andb_true_iff. cbn in *. by rewrite (Hp _ _ Hb Hpb) in Ht.
Qed.

Lemma none_driven pid d :
  (forall k r b, releases d !! k = Some r -> builds d !! rl_build_id r = Some b -> in_pipeline pid b = true ->
     in_progress (rl_state r) = false) ->
  releases_in_progress pid d = 0.
Proof.
  intros Hp. unfold releases_in_progress.
  match goal with |- context [filter ?P ?l] => destruct (filter P l) as [|[k r] l'] eqn:E; [done|] end.
  assert (Hin : (k, r) ∈ (k, r) :: l') by left. rewrite <- E in Hin.
  apply list_elem_of_filter in Hin as [Hc Hr%elem_of_map_to_list]. cbn in Hc.
  destruct (builds d !! rl_build_id r) as [b|] eqn:Hb; [|done]. apply andb_true_iff in Hc as [Hi Hs].
  by rewrite (Hp _ _ _ Hr Hb Hi) in Hs.
Qed.

(** Once its builds are gone nothing refers to a pipeline. *)
Lemma finished_free pid d :
  (forall k b, builds d !! k = Some b -> in_pipeline pid b = true -> BuildStatus.is_terminal (b_status b) = true) ->
  existsb (fun kv : string * build => in_pipeline pid kv.2)
    (map_to_list (builds (delete_finished_builds (in_pipeline pid) d))) = false.
Proof.
  intros Hp. apply not_true_iff_false. intros ([k b'] & Hin%list_elem_of_In%elem_of_map_to_list & Hb)%existsb_exists.
  cbn in Hb. destruct (builds d !! k) as [b|] eqn:E; [|by rewrite delete_finished_new in Hin].
  destruct (delete_finished_lookup (in_pipeline pid) d k b E) as [Hgone Hleft].
  destruct (in_pipeline pid b) eqn:Hi.
  - rewrite (Hp _ _ E Hi) in Hgone. by rewrite Hgone in Hin.
  - destruct Hleft as (b2 & Hb2 & Hk); [done|]. simplify_eq. rewrite (kept_pipeline _ _ _ Hk) in Hb. congruence.
Qed.

(** Without faults a pipeline whose builds have finished goes. *)
Lemma clean_read {A B} (x : A) q d p (k : A -> M B) : (read_or x q ≫= k) (World d [] p) = k (q d) (World d [] p).
Proof. done. Qed.

Lemma clean_exec {A B} message (f : db -> db * A) d p (k : A -> M B) :
  (exec message f ≫= k) (World d [] p) = k (f d).2 (World (f d).1 [] p).
Proof. apply clean_bind. unfold exec, map_errM. by rewrite clean_sql. Qed.

Lemma delete_pipeline_goes pid d p :
  is_Some (pipelines d !! pid) -> active_builds (in_pipeline pid) d = 0 -> releases_in_progress pid d = 0 ->
  existsb (fun kv : string * build => in_pipeline pid kv.2)
    (map_to_list (builds (delete_finished_builds (in_pipeline pid) d))) = false ->
  is_ok (snd (delete_pipeline_rows pid (World d [] p))) = true.
Proof.
  intros Hs Ha Hr Hf. unfold delete_pipeline_rows, transaction, transaction_with.
  rewrite (clean_bind (map_errM _ (sql _)) _ (World d [] p) (World d [] p) tt) by done. rewrite clean_read, clean_guard by by apply bool_decide_eq_true.
  rewrite clean_read, clean_guard by by rewrite Ha. unfold query, run.
  rewrite clean_exec. cbn [fst snd]. rewrite clean_guard by by rewrite Hr.
  rewrite !clean_exec. cbn [fst snd].
  assert (Hd : forall d0, existsb (fun kv : string * build => in_pipeline pid kv.2) (map_to_list (builds d0)) = false ->
    map_errM (fun _ => store_error "Failed to delete pipeline") (checked (delete_pipeline_row pid)) (World d0 [] p)
    = (World (cascade_pipeline pid d0) [] p, Ok tt)).
  { intros d0 H0. unfold map_errM, checked. rewrite (clean_bind _ _ _ _ _ (clean_sql _ _ _)).
    unfold delete_pipeline_row. by rewrite H0. }
  by rewrite (clean_bind _ _ _ _ _ (Hd (set_schedule_runs _ (delete_finished_builds (in_pipeline pid) d)) Hf)).
Qed.

(** What the deletion of a pipeline leaves of [d]. *)
Record pipeline_deleted (pid : string) (d d' : db) (paths keys : list string) : Prop := {
  pd_there : is_Some (pipelines d !! pid);
  pd_gone : pipelines d' = delete pid (pipelines d);
  pd_finished : forall k b, builds d !! k = Some b -> b_pipeline_id b = pid ->
    BuildStatus.is_terminal (b_status b) = true /\ builds d' !! k = None;
  pd_kept : forall k b, builds d !! k = Some b -> b_pipeline_id b <> pid ->
    exists b', builds d' !! k = Some b' /\ kept b b';
  pd_new : forall k, builds d !! k = None -> builds d' !! k = None;
  pd_releases : forall k r b, releases d !! k = Some r -> builds d !! rl_build_id r = Some b ->
    b_pipeline_id b = pid -> rl_state r ∈ [ReleaseState.Complete; ReleaseState.Failed; ReleaseState.Halted];
  pd_paths : forall path, path ∈ paths <-> exists a b, a ∈ artifacts d /\ builds d !! ar_build_id a = Some b /\
    b_pipeline_id b = pid /\ path = ar_file_path a;
  pd_keys : forall key, key ∈ keys <-> exists k b, (k, key) ∈ feedback_screenshots d /\ builds d !! k = Some b /\
    b_pipeline_id b = pid;
}.

Lemma in_pipeline_true pid b : in_pipeline pid b = true <-> b_pipeline_id b = pid.
Proof. apply String.eqb_eq. Qed.

Lemma not_in_progress s :
  in_progress s = false <-> s ∈ [ReleaseState.Complete; ReleaseState.Failed; ReleaseState.Halted].
Proof. destruct s; set_solver. Qed.

Lemma elem_of_artifact_paths p d path :
  path ∈ artifact_paths p d <-> exists a b, a ∈ artifacts d /\ builds d !! ar_build_id a = Some b /\
    p b = true /\ path = ar_file_path a.
Proof.
  unfold artifact_paths. rewrite list_elem_of_fmap. split.
  - intros (a & -> & [Ha Hp]%list_elem_of_In%filter_In).
    destruct (builds d !! ar_build_id a) as [b|] eqn:Hb; [|done]. exists a, b. by rewrite list_elem_of_In.
  - intros (a & b & Ha & Hb & Hp & ->). exists a. split; [done|].
    apply list_elem_of_In, filter_In. by rewrite <- list_elem_of_In, Hb.
Qed.

Lemma elem_of_screenshot_keys p d key :
  key ∈ screenshot_keys p d <-> exists k b, (k, key) ∈ feedback_screenshots d /\ builds d !! k = Some b /\
    p b = true /\ BuildStatus.is_terminal (b_status b) = true.
Proof.
  unfold screenshot_keys. rewrite list_elem_of_fmap. split.
  - intros ([k key'] & -> & [Ha Hp]%list_elem_of_In%filter_In). cbn in Hp.
    destruct (builds d !! k) as [b|] eqn:Hb; [|done]. apply andb_true_iff in Hp as [? ?].
    exists k, b. by rewrite list_elem_of_In.
  - intros (k & b & Ha & Hb & Hp & Ht). exists (k, key). split; [done|].
    apply list_elem_of_In, filter_In. cbn. by rewrite <- list_elem_of_In, Hb, Hp, Ht.
Qed.

(** C15: functional.  The deletion of a pipeline.  Whatever statements fail, it
    is refused and nothing changes, or: the pipeline was there and is gone; all
    its builds had finished, although the count of the active ones is taken for
    zero when it cannot be read, and are gone; every release of one was
    complete, failed or halted; every other build is as it was, but for the
    reference to a deleted build it reruns; and the files to remove are the
    artifacts and the screenshots of the deleted builds.  When nothing fails, a
    pipeline that is there, whose builds have finished and whose releases are
    complete, failed or halted, is deleted. *)
Theorem delete_pipeline_spec (pid : string) (w w' : world) (r : result api_error (list string * list string)) :
  delete_pipeline_rows pid w = (w', r) ->
  match r with
  | Err _ => w_db w' = w_db w
  | Ok (paths, keys) => pipeline_deleted pid (w_db w) (w_db w') paths keys
  end /\
  (w_faults w = [] -> is_Some (pipelines (w_db w) !! pid) ->
   (forall k b, builds (w_db w) !! k = Some b -> b_pipeline_id b = pid ->
      BuildStatus.is_terminal (b_status b) = true) ->
   (forall k rl b, releases (w_db w) !! k = Some rl -> builds (w_db w) !! rl_build_id rl = Some b ->
      b_pipeline_id b = pid -> rl_state rl ∈ [ReleaseState.Complete; ReleaseState.Failed; ReleaseState.Halted]) ->
   is_ok r = true).
Proof.
  intros H. split.
  - destruct r as [[paths keys]|e]; [|by apply transaction_with_err in H].
    apply deleted_pipeline in H as (Hs & Hg & Hb & Hn & Hr & -> & ->).
    assert (Hf : forall k b, builds (w_db w) !! k = Some b -> b_pipeline_id b = pid ->
      BuildStatus.is_terminal (b_status b) = true /\ builds (w_db w') !! k = None).
    { intros k b Hk Hp%in_pipeline_true. specialize (Hb _ _ Hk). by rewrite Hp in Hb. }
    split; [done|done|exact Hf| |done| |intros path|intros key].
    + intros k b Hk Hp. specialize (Hb _ _ Hk). destruct (in_pipeline pid b) eqn:E; [by apply in_pipeline_true in E|done].
    + intros k rl b H1 H2 H3%in_pipeline_true. eapply not_in_progress; eauto.
    + rewrite elem_of_artifact_paths. by setoid_rewrite in_pipeline_true.
    + rewrite elem_of_screenshot_keys. setoid_rewrite in_pipeline_true. split; [naive_solver|].
      intros (k & b & ? & Hk & Hp). destruct (Hf _ _ Hk Hp). eauto 10.
  - intros Hf Hs Hb Hr. destruct w as [d faults p]. cbn in *. subst faults.
    change r with (snd (w', r)). rewrite <- H. setoid_rewrite <- in_pipeline_true in Hb.
    apply delete_pipeline_goes; [done|by apply none_active| |by apply finished_free].
    apply none_driven. intros k rl b H1 H2 H3%in_pipeline_true. eapply not_in_progress; eauto.
Qed.

Lemma delete_pipeline_spec_witness :
  let w := World cancelled [] [] in
  let w' := fst (delete_pipeline_rows (bi_pipeline_id sample_binds) w) in
  is_ok (snd (delete_pipeline_rows (bi_pipeline_id sample_binds) w)) = true /\
  pipelines (w_db w') = delete (bi_pipeline_id sample_binds) (pipelines cancelled).
Proof.
  intros w w'. destruct (delete_pipeline_rows (bi_pipeline_id sample_binds) w) as [w1 [[paths keys]|e]] eqn:E.
  - split; [reflexivity|]. unfold w'.
    exact (pd_gone _ _ _ _ _ (proj1 (delete_pipeline_spec _ _ _ _ E))).
  - vm_compute in E. discriminate E.
Defined.

Lemma cancel_keeps ids now w w' u k b :
  cancel_unassigned_builds_for_removed_repositories ids now w = (w', Ok u) -> builds (w_db w) !! k = Some b ->
  webhooks (w_db w') = webhooks (w_db w) /\ integrations (w_db w') = integrations (w_db w) /\
  exists b', builds (w_db w') !! k = Some b' /\ b_meta b' = b_meta b.
Proof.
  intros H Hb. destruct ids as [|i ids]; cbn in H; [injection H as <- _; eauto|].
  unfold cancel_unclaimed in H. inv_run.
  repeat match goal with H : sql _ _ = (_, Ok _) |- _ => apply sql_ok in H as [[= H] _] end.
  rewrite <- H. cbn. rewrite map_lookup_imap. rewrite <- H0. cbn. rewrite Hb. split_and!; [done..|].
  cbn. eexists. split; [reflexivity|]. case_match; [|done]. exact (proj2 (withdraw_status (cancel_row now b))).
Qed.

Lemma delete_integration_row_refused id d k b :
  builds d !! k = Some b -> from_delivery id d b = true -> is_Some (integrations d !! id) ->
  delete_integration_row id d = (d, (Some OtherSqlError, 0)).
Proof.
  intros Hb Hf [i Hi]. unfold delete_integration_row. rewrite Hi.
  rewrite (proj2 (existsb_exists (fun kv => from_delivery id d kv.2) (map_to_list (builds d)))); [done|].
  exists (k, b). split; [by apply list_elem_of_In, elem_of_map_to_list|done].
Qed.

(** A delivery's builds hold the integration: [builds.webhook_id] has no
    [ON DELETE] clause, so as long as one build made from a delivery of the
    integration is kept, finished or not, deleting the integration fails and
    nothing changes. *)
Lemma delivered_builds_hold_integration id now w w' r k b :
  builds (w_db w) !! k = Some b -> from_delivery id (w_db w) b = true -> is_Some (integrations (w_db w) !! id) ->
  delete_integration_records id now w = (w', r) -> (exists e, r = Err e) /\ w_db w' = w_db w.
Proof.
  intros Hb Hf Hi H. destruct r as [x|e]; [|split; [by exists e|by apply transaction_with_err in H]].
  exfalso. apply transaction_with_ok in H as (w0 & w1 & Hd0 & _ & _ & Hbody). rewrite <- Hd0 in *. clear Hd0 w.
  assert (Hrun : exists y, remove_integration_rows id now w0 = (w1, Ok y))
    by (destruct Hbody as [[H _]|[[H|H] _]]; eauto).
  destruct Hrun as [y H]. unfold remove_integration_rows in H. inv_run. case_match. inv_run.
  repeat match goal with H : sql _ _ = (_, Ok _) |- _ => apply sql_ok in H as [H _] end. simplify_eq.
  match goal with H : cancel_unassigned_builds_for_removed_repositories _ _ _ = _ |- _ =>
    destruct (cancel_keeps _ _ _ _ _ k b H) as (Hw & Hg & b' & Hb' & Hm); [congruence|] end.
  match goal with H : delete_integration_row _ (w_db ?x) = _, U : _ = w_db ?x |- _ =>
    rewrite <- U, (delete_integration_row_refused id _ k b') in H; [by simplify_eq/=|done| |by cbn; congruence] end.
  unfold from_delivery in *. cbn. by rewrite Hm, Hw, <- H0.
Qed.
