(* ===== verification/Daemon.v ===== *)
(** * The daemon: every handler and monitor refines the lifecycle

    Every request handler, monitor, startup and operator request that can
    touch builds, as a sequence of the steps of [Lifecycle.v], whatever
    statements fail; and what therefore holds of every database the daemon
    produces. *)

From stdpp Require Import relations.
From S2P Require Import Vars PipelineFile Lowering Prelude Contract RustStr Labels Sizes Triggers Db Incidents Access Builds Runners Monitors Creation Publishing Releases Environments AppStore Promotions AppStoreRuns ReleaseSafety Schedules Reruns Webhooks Deliveries ManualBuilds Retention Accounts SignIn Lifecycle Removals.

Local Open Scope Z_scope.

(** ** Handlers are sequences of steps *)

(** Every run of [m], however it ends, is a sequence of committed changes. *)
Class Steps {E A} (m : ME E A) : Prop :=
  steps_of : forall w w' r, m w = (w', r) -> rtc step (w_db w) (w_db w').

(** [m] leaves builds and their log alone. *)
Class Quiet {E A} (m : ME E A) : Prop :=
  quiet_of : forall w w' r, m w = (w', r) ->
    builds (w_db w') = builds (w_db w) /\ build_events (w_db w') = build_events (w_db w).

Lemma quiet_steps {E A} (m : ME E A) : Quiet m -> Steps m.
Proof. intros Hq w w' r H. apply Hq in H as [? ?]. apply rtc_once. by apply step_other. Qed.

Section Combinators.
Context {E F A B : Type}.

Lemma quiet_ret (a : A) : Quiet (E := E) (mret a).
Proof. by intros w w' r [= <- _]. Qed.

Lemma quiet_throw (e : E) : Quiet (A := A) (throw e).
Proof. by intros w w' r [= <- _]. Qed.

Lemma quiet_publish (e : BuildStateEvent) : Quiet (E := E) (publish_event e).
Proof. by intros w w' r [= <- _]. Qed.

Lemma quiet_sql (f : db -> db * A) :
  (forall d, builds (fst (f d)) = builds d /\ build_events (fst (f d)) = build_events d) ->
  Quiet (sql f).
Proof.
  intros Hf w w' r. unfold sql. specialize (Hf (w_db w)).
  destruct (w_faults w) as [|[e|] fs], (f (w_db w)) as [d a]; intros [= <- _]; done.
Qed.

Lemma quiet_map_err (g : E -> F) (m : ME E A) : Quiet m -> Quiet (map_errM g m).
Proof.
  intros Hm w w' r. unfold map_errM. destruct (m w) as [w1 r1] eqn:E1. intros [= <- _].
  by eapply Hm.
Qed.

Lemma steps_map_err (g : E -> F) (m : ME E A) : Steps m -> Steps (map_errM g m).
Proof.
  intros Hm w w' r. unfold map_errM. destruct (m w) as [w1 r1] eqn:E1. intros [= <- _].
  by eapply Hm.
Qed.

Lemma quiet_bind (m : ME E A) (f : A -> ME E B) :
  Quiet m -> (forall a, Quiet (f a)) -> Quiet (m ≫= f).
Proof.
  intros Hm Hf w w' r. unfold mbind, M_bind. destruct (m w) as [w1 [a|e]] eqn:E1;
    apply Hm in E1 as [H1 H2]; [|by intros [= <- _]].
  intros [H3 H4]%Hf. by rewrite H3, H4.
Qed.

Lemma steps_bind (m : ME E A) (f : A -> ME E B) :
  Steps m -> (forall a, Steps (f a)) -> Steps (m ≫= f).
Proof.
  intros Hm Hf w w' r. unfold mbind, M_bind. destruct (m w) as [w1 [a|e]] eqn:E1;
    apply Hm in E1; [|by intros [= <- _]].
  intros H2%Hf. by etransitivity.
Qed.

Lemma steps_catch (m : ME E A) (f : result E A -> ME F B) :
  Steps m -> (forall r, Steps (f r)) -> Steps (catch m f).
Proof.
  intros Hm Hf w w' r. unfold catch. destruct (m w) as [w1 r1] eqn:E1. apply Hm in E1.
  intros H2%Hf. by etransitivity.
Qed.

Lemma quiet_catch (m : ME E A) (f : result E A -> ME F B) :
  Quiet m -> (forall r, Quiet (f r)) -> Quiet (catch m f).
Proof.
  intros Hm Hf w w' r. unfold catch. destruct (m w) as [w1 r1] eqn:E1. apply Hm in E1 as [H1 H2].
  intros [H3 H4]%Hf. by rewrite H3, H4.
Qed.

End Combinators.

Lemma steps_for_each {E A B} (f : A -> B -> ME E B) l acc :
  (forall x acc, Steps (f x acc)) -> Steps (for_each f l acc).
Proof.
  intros Hf. revert acc. induction l as [|x l IH]; intros acc; cbn.
  - apply quiet_steps. by intros w w' r [= <- _].
  - apply steps_bind; auto.
Qed.

Lemma quiet_for_each {E A B} (f : A -> B -> ME E B) l acc :
  (forall x acc, Quiet (f x acc)) -> Quiet (for_each f l acc).
Proof.
  intros Hf. revert acc. induction l as [|x l IH]; intros acc; cbn.
  - by intros w w' r [= <- _].
  - apply quiet_bind; auto.
Qed.

Lemma quiet_transaction {E A} (on_err : sqlx_error -> E) (body : ME E (tx_end A)) :
  Quiet body -> Quiet (transaction_with on_err body).
Proof.
  intros Hb w w' [a|e] H; [|by apply transaction_with_err in H as ->].
  apply transaction_with_ok in H as (w0 & w1 & Hd0 & _ & _ & [[H Hd]|[_ Hd]]); rewrite Hd; [|done].
  apply Hb in H. by rewrite Hd0 in H.
Qed.

(** *** Transactions *)

Lemma steps_transition_commit id cur target actor reason results now :
  BuildStatus.can_transition_to cur target = true ->
  target <> BuildStatus.Scheduled -> target <> BuildStatus.Assigned ->
  Steps (transition_commit id cur target actor reason results now).
Proof.
  intros Hc Hs Ha w w' [b|e] H; [|by apply transition_commit_err in H as ->].
  apply transition_commit_ok in H as ((b0 & Hb & Hst) & -> & _).
  apply rtc_once. by eapply step_transition.
Qed.

Lemma steps_transition id target actor reason results now :
  target <> BuildStatus.Scheduled -> target <> BuildStatus.Assigned ->
  Steps (transition_build_with_results id target actor reason results now).
Proof.
  intros Hs Ha w w' [b|e] H; [|by apply transition_err in H as ->].
  apply transition_ok in H as (b0 & Hb & Hc & -> & _). apply rtc_once. by eapply step_transition.
Qed.

Lemma steps_claim id rid actor hash now :
  Steps (claim_eligible_direct_runner_build id rid actor hash now).
Proof.
  intros w w' [r|e] H; [|by apply claim_err in H as ->].
  apply claim_ok in H as [_ H]. destruct r; [|by rewrite H].
  destruct H as (b & Hb & He & _ & _ & ->). apply rtc_once. by apply step_claim.
Qed.

Lemma steps_insert_attempts n b : Steps (insert_attempts n b).
Proof.
  intros w w' r H. apply insert_attempts_result in H. destruct r as [[]|e].
  - apply rtc_once. by eapply step_insert.
  - by rewrite H.
  - by destruct H as [-> _].
Qed.

Lemma update_awaiting_db id to decision actor reason now d d' n :
  update_build id awaiting (approval_row to decision actor reason now) d = (d', n) ->
  (exists b, builds d !! id = Some b /\ awaiting b = true /\
     d' = set_builds (<[id := withdraw_pending_approval
       (approval_row to decision actor reason now b)]> (builds d)) d) \/ n = 0.
Proof. intros H. apply update_build_inv in H as [(b & ? & ? & ? & ?)|[? ?]]; eauto. Qed.

(** What the event of a decision says. *)
Lemma approval_text (word actor : string) (reason : option string) :
  exists rest, match reason with
               | Some reason => word +:+ " by " +:+ actor +:+ ": " +:+ reason
               | None => word +:+ " by " +:+ actor
               end = word +:+ " by " +:+ actor +:+ rest.
Proof. destruct reason as [r|]; [by exists (": " +:+ r)|]. exists ""%string. by rewrite Vars.append_nil_r. Qed.

Lemma steps_approval id actor decision reason now :
  Steps (record_build_approval id actor decision reason now).
Proof.
  intros w w' [x|e] H; [|by apply record_approval_err in H as ->].
  unfold record_build_approval in H.
  destruct (approval_target decision) as [[to word]|] eqn:Et; [|done].
  apply transaction_with_ok in H as (w0 & w1 & Hd0 & _ & _ & [[H Hd]|[[H|H] _]]);
    [|by inv_run; case_match; inv_run..].
  inv_run. case_match; inv_run.
  match goal with H : update_build _ _ _ _ = _ |- _ => apply update_awaiting_db in H end.
  match goal with H : _ \/ _ |- _ => destruct H as [(b & Hb & Ha & ?)|]; [|by subst] end.
  subst_db. apply rtc_once. destruct (approval_text word actor reason) as [rest ->]. by eapply step_approval.
Qed.

Lemma steps_fail_blocked id url now : Steps (fail_blocked_build id url now).
Proof.
  intros w w' [x|e] H; [|by apply transaction_with_err in H as ->]. unfold fail_blocked_build in H.
  apply transaction_with_ok in H as (w0 & w1 & Hd0 & _ & _ & [[H Hd]|[[H|H] _]]);
    [|by inv_run; case_match; inv_run..].
  inv_run. match goal with H : update_build _ _ _ _ = _ |- _ => apply update_build_inv in H end.
  match goal with H : _ \/ _ |- _ =>
    destruct H as [(b & Hb & Ha & ? & ?)|[? ?]] end; subst; cbn in *; inv_run; subst_db; [|done].
  apply bool_decide_eq_true in Ha.
  apply rtc_once. by apply step_preflight.
Qed.

Lemma steps_acquire_barrier token now : Steps (acquire_barrier token now).
Proof.
  intros w w' [x|e] H; [|by apply transaction_with_err in H as ->]. unfold acquire_barrier in H.
  apply transaction_with_ok in H as (w0 & w1 & Hd0 & _ & _ & [[H Hd]|[_ ->]]); [|done].
  rewrite Hd, <- Hd0. clear Hd Hd0. inv_op. simplify_eq/=.
  repeat match goal with H : _ = w_db _ |- _ => rewrite <- H; clear H end.
  apply rtc_once. exact (step_barrier (w_db w0) (Some (x, now + BARRIER_LEASE_SECS)) now).
Qed.


(** *** Handlers and monitors *)

Lemma steps_query {A} msg (f : db -> A) : Steps (query msg f).
Proof. apply quiet_steps, quiet_map_err, quiet_sql. by intros d. Qed.

Lemma steps_from_option {E A} (e : E) (o : option A) : Steps (from_option e o).
Proof. destruct o; apply quiet_steps; [apply quiet_ret|apply quiet_throw]. Qed.

Lemma steps_guard {E} c (e : E) : Steps (guard c e).
Proof. destruct c; apply quiet_steps; [apply quiet_ret|apply quiet_throw]. Qed.

Lemma steps_resolve uid irole pid src : Steps (resolve_effective_project_role uid irole pid src).
Proof. intros w w' r H. by apply resolve_role_pure in H as [-> _]. Qed.

Lemma steps_require eff perm : Steps (require_project_permission eff perm).
Proof. intros w w' r H. by apply require_permission_pure in H as ->. Qed.

(** A failed check ends the handler. *)
Lemma steps_guard_bind {E A} c (e : E) (f : unit -> ME E A) :
  (c = true -> Steps (f tt)) -> Steps (guard c e ≫= f).
Proof.
  intros Hf w w' r. unfold guard. destruct c; [by apply Hf|by intros [= <- _]].
Qed.

Lemma steps_audit {E} actor action kind id : Steps (E := E) (write_audit_log actor action kind id).
Proof.
  apply quiet_steps. intros w w' r H. apply audit_run in H as (_ & [l ->] & _). done.
Qed.

Ltac destruct_status :=
  repeat match goal with H : runner_settable ?t = true |- _ => destruct t; try discriminate H; clear H end.

(** Decompose a handler into its statements and transactions. *)
Ltac steps_step :=
  lazymatch goal with
  | |- Steps (query _ _) => apply steps_query
  | |- Steps (from_option _ _) => apply steps_from_option
  | |- Steps (guard _ _) => apply steps_guard
  | |- Steps (resolve_effective_project_role _ _ _ _) => apply steps_resolve
  | |- Steps (require_project_permission _ _) => apply steps_require
  | |- Steps (write_audit_log _ _ _ _) => apply steps_audit
  | |- Steps (transition_build_with_results _ _ _ _ _ _) => apply steps_transition; by repeat case_match; destruct_status
  | |- Steps (transition_build _ _ _ _ _) => apply steps_transition; by repeat case_match; destruct_status
  | |- Steps (claim_eligible_direct_runner_build _ _ _ _ _) => apply steps_claim
  | |- Steps (record_build_approval _ _ _ _ _) => apply steps_approval
  | |- Steps (insert_attempts _ _) => apply steps_insert_attempts
  | |- Steps (fail_blocked_build _ _ _) => apply steps_fail_blocked
  | |- Steps (for_each _ _ _) => apply steps_for_each
  | |- Steps (catch _ _) => apply steps_catch
  | |- Steps (map_errM _ _) => apply steps_map_err
  | |- Steps (guard _ _ ≫= _) => apply steps_guard_bind
  | |- Steps (_ ≫= _) => apply steps_bind
  | |- Steps (mret _) => apply quiet_steps, quiet_ret
  | |- Steps (throw _) => apply quiet_steps, quiet_throw
  | |- Steps (publish_event _) => apply quiet_steps, quiet_publish
  | |- Steps (sql _) => apply quiet_steps, quiet_sql; intros ?; cbn; repeat case_match; by split
  | |- forall _, _ => intros
  | |- Steps _ => case_match
  end.

Ltac handler_tac := repeat steps_step.

Lemma steps_cancel_build auth id now : Steps (cancel_build auth id now).
Proof. unfold cancel_build, transition_build. handler_tac. Qed.

Lemma steps_decide auth id reason decision now :
  Steps (decide_build_approval auth id reason decision now).
Proof. unfold decide_build_approval. handler_tac. Qed.

Lemma steps_release rid active reason now :
  Steps (release_runner_builds_except rid active reason now).
Proof.
  unfold release_runner_builds_except, release_one, transition_build. handler_tac.
Qed.

Lemma steps_claim_job hash encode auth rid req token now :
  Steps (claim_job hash encode auth rid req token now).
Proof.
  unfold claim_job, fail_credential_blocked_builds.
  repeat first [apply steps_release | steps_step].
Qed.

Lemma steps_update_job_status auth rid id req now : Steps (update_job_status auth rid id req now).
Proof. unfold update_job_status, fetch_build_events. handler_tac. Qed.

Lemma steps_move id target actor reason announce now acc :
  target <> BuildStatus.Scheduled -> target <> BuildStatus.Assigned ->
  Steps (move_build id target actor reason announce now acc).
Proof. intros ? ?. unfold move_build. handler_tac. Qed.

Lemma steps_requeue now : Steps (requeue_expired_claims now).
Proof.
  unfold requeue_expired_claims.
  repeat first [apply steps_move; [done|done] | steps_step].
Qed.

Lemma steps_expire_approvals now : Steps (expire_pending_approvals now).
Proof.
  unfold expire_pending_approvals. repeat first [apply steps_move; [done|done] | steps_step].
Qed.

Lemma steps_time_out now : Steps (time_out_overdue_builds now).
Proof.
  unfold time_out_overdue_builds. repeat first [apply steps_move; [done|done] | steps_step].
Qed.

Lemma steps_lost_runners now : Steps (fail_builds_of_lost_runners now).
Proof.
  unfold fail_builds_of_lost_runners, release_runner_builds.
  repeat first [apply steps_release | steps_step].
Qed.

Lemma steps_heartbeat_tick up now : Steps (runner_heartbeat_tick up now).
Proof.
  unfold runner_heartbeat_tick. repeat first [apply steps_lost_runners | steps_step].
Qed.

Lemma steps_reload now : Steps (reload_pending now).
Proof. unfold reload_pending. repeat first [apply steps_move; [done|done] | steps_step]. Qed.

(** Statements that leave builds alone. *)
Lemma quiet_exec {A} msg (f : db -> db * A) :
  (forall d, builds (fst (f d)) = builds d /\ build_events (fst (f d)) = build_events d) ->
  Quiet (exec msg f).
Proof. intros Hf. by apply quiet_map_err, quiet_sql. Qed.

Lemma update_runner_row_quiet id f d :
  builds (fst (update_runner_row id f d)) = builds d /\
  build_events (fst (update_runner_row id f d)) = build_events d.
Proof. unfold update_runner_row. by case_match. Qed.

Lemma steps_update_runner_row msg id f : Steps (exec msg (update_runner_row id f)).
Proof. apply quiet_steps, quiet_exec, update_runner_row_quiet. Qed.

Lemma steps_record_disk_pressure new_id rid pressure now :
  Steps (record_disk_pressure new_id rid pressure now).
Proof. unfold record_disk_pressure, resolve_incident, open_incident. handler_tac. Qed.

Ltac exec_tac :=
  lazymatch goal with
  | |- Steps (exec _ (update_runner_row _ _)) => apply steps_update_runner_row
  | |- Steps (record_disk_pressure _ _ _ _) => apply steps_record_disk_pressure
  | |- Steps (check_permission _ _ _ _) => apply steps_guard
  | |- Steps (exec _ _) => apply quiet_steps, quiet_exec; intros ?; cbn; repeat case_match; by split
  | |- _ => steps_step
  end.

Lemma steps_runner_heartbeat auth rid req new_id now : Steps (runner_heartbeat auth rid req new_id now).
Proof. unfold runner_heartbeat, settle_cache_purge_request. repeat exec_tac. Qed.

Lemma steps_register hash enforce auth req token rid now :
  Steps (register_runner hash enforce auth req token rid now).
Proof. unfold register_runner. repeat exec_tac. Qed.

Lemma steps_purge enforce auth rid now : Steps (purge_runner_caches enforce auth rid now).
Proof. unfold purge_runner_caches. repeat exec_tac. Qed.

Lemma steps_update_runner enforce auth rid req now : Steps (update_runner enforce auth rid req now).
Proof. unfold update_runner. repeat exec_tac. Qed.

Lemma steps_delete_runner enforce auth rid now : Steps (delete_runner enforce auth rid now).
Proof.
  unfold delete_runner, resolve_incident. apply steps_bind; [apply steps_guard|intros _].
  apply steps_bind; [|intros; repeat exec_tac].
  apply quiet_steps, quiet_transaction, quiet_bind.
  - apply quiet_exec. intros d. unfold delete_runner_row. repeat case_match; done.
  - intros n. case_match; (apply quiet_bind; [apply quiet_exec; by intros|intros; apply quiet_ret]).
Qed.

(** *** Removals *)

(** Every successful run of [m] is a sequence of committed changes, as a part of
    a transaction that commits. *)
Class StepsOk {E A} (m : ME E A) : Prop :=
  steps_ok_of : forall w w' a, m w = (w', Ok a) -> rtc step (w_db w) (w_db w').

Lemma steps_steps_ok {E A} (m : ME E A) : Steps m -> StepsOk m.
Proof. intros Hm w w' a H. by eapply Hm. Qed.

Lemma steps_ok_bind {E A B} (m : ME E A) (f : A -> ME E B) :
  StepsOk m -> (forall a, StepsOk (f a)) -> StepsOk (m ≫= f).
Proof.
  intros Hm Hf w w' b H. apply M_bind_ok in H as (w1 & a & H1%Hm & H2%Hf). by etransitivity.
Qed.

Lemma steps_ok_map_err {E F A} (g : E -> F) (m : ME E A) : StepsOk m -> StepsOk (map_errM g m).
Proof.
  intros Hm w w' a. unfold map_errM. destruct (m w) as [w1 [x|e]] eqn:E1; cbn; [|done].
  intros [= <- _]. by eapply Hm.
Qed.

Lemma steps_transaction {E A} (on_err : sqlx_error -> E) (body : ME E (tx_end A)) :
  StepsOk body -> Steps (transaction_with on_err body).
Proof.
  intros Hb w w' [x|e] H; [|by apply transaction_with_err in H as ->].
  apply transaction_with_ok in H as (w0 & w1 & Hd0 & _ & _ & [[H Hd]|[_ ->]]); [|done].
  rewrite Hd, <- Hd0. by eapply Hb.
Qed.

(** The cancellations run inside their callers' transactions. *)
Lemma steps_cancel_unclaimed p actor reason now :
  (forall d1 d2, builds d1 = builds d2 -> projects d1 = projects d2 -> p d1 = p d2) ->
  StepsOk (cancel_unclaimed p actor reason now).
Proof.
  intros Hp w w' u H. unfold cancel_unclaimed in H.
  apply M_bind_ok in H as (w4 & [] & H1%sql_ok & H2%sql_ok). destruct H1 as [H1 _], H2 as [H2 _].
  repeat match goal with H : (_, _) = (w_db _, _) |- _ => injection H as H; rewrite <- H end.
  apply rtc_once. by apply step_cancel_unclaimed.
Qed.

Lemma steps_cancel_source_change pid who now : StepsOk (cancel_for_source_change pid who now).
Proof. by apply steps_cancel_unclaimed. Qed.

Lemma steps_cancel_removed ids now : StepsOk (cancel_unassigned_builds_for_removed_repositories ids now).
Proof.
  destruct ids as [|i ids]; [apply steps_steps_ok, quiet_steps, quiet_ret|]. apply steps_cancel_unclaimed.
  intros d1 d2 _ Hp. unfold from_repositories. by rewrite Hp.
Qed.

Lemma quiet_read_or {A} (x : A) q : Quiet (read_or x q).
Proof. apply quiet_catch; [apply quiet_sql; by split|]. intros. apply quiet_ret. Qed.

(** A change of other tables. *)
Definition aside (f : db -> db) : Prop :=
  forall d, builds (f d) = builds d /\ build_events (f d) = build_events d.

Lemma aside_foldr {A} (f : A -> db -> db) l : (forall x, aside (f x)) -> aside (fun d => foldr f d l).
Proof.
  intros Hf d. induction l as [|x l [H1 H2]]; cbn; [done|]. destruct (Hf x (foldr f d l)) as [-> ->]. done.
Qed.

Lemma aside_environment pid id : aside (delete_environment_row pid id).
Proof. intros d. unfold delete_environment_row. repeat case_match; by split. Qed.

Lemma aside_project pid : aside (cascade_project pid).
Proof.
  intros d. unfold cascade_project. cbn.
  destruct (aside_foldr (delete_environment_row pid)
    (environments_of pid (cascade_releases pid (foldr cascade_pipeline d (pipelines_of pid d))))
    (aside_environment pid) (cascade_releases pid (foldr cascade_pipeline d (pipelines_of pid d)))) as [-> ->].
  cbn. apply (aside_foldr cascade_pipeline). by split.
Qed.

Lemma quiet_checked {E} (g : sqlx_error -> E) f :
  (forall d d', f d = Ok d' -> builds d' = builds d /\ build_events d' = build_events d) ->
  Quiet (map_errM g (checked f)).
Proof.
  intros Hf. apply quiet_map_err, quiet_bind.
  - apply quiet_sql. intros d. specialize (Hf d). destruct (f d); [by apply Hf|done].
  - intros [e|]; [apply quiet_throw|apply quiet_ret].
Qed.

Lemma quiet_pipeline_row {E} (g : sqlx_error -> E) pid : Quiet (map_errM g (checked (delete_pipeline_row pid))).
Proof. apply quiet_checked. intros d d'. unfold delete_pipeline_row. case_match; by intros [= <-]. Qed.

Lemma quiet_project_row {E} (g : sqlx_error -> E) pid : Quiet (map_errM g (checked (delete_project_row pid))).
Proof.
  apply quiet_checked. intros d d'. unfold delete_project_row. case_match; [done|]. intros [= <-]. apply aside_project.
Qed.

Lemma quiet_integration_row id : Quiet (sql (delete_integration_row id)).
Proof. apply quiet_sql. intros d. unfold delete_integration_row. repeat case_match; by split. Qed.

Lemma quiet_project_update msg pid req : Quiet (exec msg (update_project_row pid req)).
Proof. apply quiet_exec. intros d. unfold update_project_row. repeat case_match; by split. Qed.

Lemma quiet_source_audit msg actor pid rid : Quiet (exec msg (audit_source_change actor pid rid)).
Proof. apply quiet_exec. intros d. unfold audit_source_change. case_match; by split. Qed.

Lemma steps_delete_finished msg p : Steps (run msg (delete_finished_builds p)).
Proof.
  intros w w' [u|e] H; [apply run_ok in H as [-> _]; apply delete_finished_steps|].
  apply exec_err in H as [-> _]. done.
Qed.

Lemma quiet_remove_object deletable path : Quiet (remove_object deletable path).
Proof. apply quiet_map_err. intros w w' r. unfold delete_object. case_match; by intros [= <- _]. Qed.

Lemma quiet_remove_screenshots deletable keys : Quiet (remove_screenshots deletable keys).
Proof.
  apply quiet_map_err, quiet_for_each. intros. apply quiet_bind; [|intros; apply quiet_ret].
  intros w w' r. unfold delete_object. case_match; by intros [= <- _].
Qed.

(** Decompose the part of a transaction that deletes or cancels. *)
Ltac removal_step :=
  lazymatch goal with
  | |- StepsOk (_ ≫= _) => apply steps_ok_bind
  | |- StepsOk (cancel_unassigned_builds_for_removed_repositories _ _) => apply steps_cancel_removed
  | |- StepsOk (map_errM _ (cancel_for_source_change _ _ _)) => apply steps_ok_map_err, steps_cancel_source_change
  | |- StepsOk (match _ with _ => _ end) => case_match
  | |- StepsOk _ => apply steps_steps_ok
  | |- Steps (transaction _ _) => apply steps_transaction
  | |- Steps (transaction_with _ _) => apply steps_transaction
  | |- Steps (read_or _ _) => apply quiet_steps, quiet_read_or
  | |- Steps (run _ (delete_finished_builds _)) => apply steps_delete_finished
  | |- Steps (map_errM _ (checked (delete_pipeline_row _))) => apply quiet_steps, quiet_pipeline_row
  | |- Steps (map_errM _ (checked (delete_project_row _))) => apply quiet_steps, quiet_project_row
  | |- Steps (sql (delete_integration_row _)) => apply quiet_steps, quiet_integration_row
  | |- Steps (exec _ (update_project_row _ _)) => apply quiet_steps, quiet_project_update
  | |- Steps (exec _ (audit_source_change _ _ _)) => apply quiet_steps, quiet_source_audit
  | |- Steps (remove_object _ _) => apply quiet_steps, quiet_remove_object
  | |- Steps (remove_screenshots _ _) => apply quiet_steps, quiet_remove_screenshots
  | |- Steps (run _ _) => apply quiet_steps, quiet_exec; intros ?; by split
  | |- Steps (load_runtime_mode _) => apply steps_query
  | |- Steps (require_admin_or_above _) => apply steps_guard
  | |- _ => exec_tac
  end.

Lemma steps_delete_pipeline_rows pid : Steps (delete_pipeline_rows pid).
Proof. unfold delete_pipeline_rows. repeat removal_step. Qed.

Lemma steps_delete_pipeline deletable enforce auth pid : Steps (delete_pipeline deletable enforce auth pid).
Proof.
  unfold delete_pipeline. repeat first [apply steps_delete_pipeline_rows | removal_step].
Qed.

Lemma steps_over_storage {A} message (body : M A) :
  StepsOk body -> Steps (transaction_over_storage message body).
Proof.
  intros Hb w w' r. unfold transaction_over_storage.
  destruct ((run message (fun d => d) ≫= fun _ => body) w) as [w1 [a|e]] eqn:E1.
  - destruct (run message _ w1) as [w2 [[]|e]] eqn:E2; intros [= <- _]; [|apply rtc_once, step_other; done].
    apply run_ok in E2 as [-> _]. apply M_bind_ok in E1 as (w3 & [] & [H _]%run_ok & H1%Hb). by rewrite H in H1.
  - intros [= <- _]. apply rtc_once, step_other; done.
Qed.

Lemma steps_delete_project deletable off auth pid : Steps (delete_project deletable off auth pid).
Proof. unfold delete_project. repeat first [apply steps_over_storage | removal_step]. Qed.

Lemma steps_update_project auth pid req now : Steps (update_project auth pid req now).
Proof. unfold update_project, require_repository_attachable. repeat removal_step. Qed.

Lemma steps_delete_integration_records id now : Steps (delete_integration_records id now).
Proof. unfold delete_integration_records, remove_integration_rows. repeat removal_step. Qed.

Lemma steps_delete_integration enforce auth id now : Steps (delete_integration enforce auth id now).
Proof. unfold delete_integration. repeat first [apply steps_delete_integration_records | removal_step]. Qed.

Lemma steps_delete_local enforce auth id now : Steps (delete_local_git_integration enforce auth id now).
Proof. unfold delete_local_git_integration. repeat first [apply steps_delete_integration_records | removal_step]. Qed.

Lemma steps_synchronisation {E A} (on_err : sqlx_error -> E) (before : ME E unit) stale now (after : ME E A) :
  Quiet before -> Quiet after ->
  Steps (transaction_with on_err
    (_ ← before; _ ← map_errM on_err (remove_stale_repositories stale now); a ← after; mret (Commit a))).
Proof.
  intros Hb Ha. apply steps_transaction, steps_ok_bind; [by apply steps_steps_ok, quiet_steps|intros _].
  apply steps_ok_bind; [|intros; apply steps_ok_bind; [by apply steps_steps_ok, quiet_steps|];
    intros; apply steps_steps_ok, quiet_steps, quiet_ret].
  apply steps_ok_map_err. unfold remove_stale_repositories. repeat removal_step.
Qed.

(** *** Creating builds: the creation record follows the insert it belongs to *)

(** Every run of [m] that starts with the build [id] in the table is a sequence
    of steps, and keeps it there. *)
Definition StepsOn {E A} (id : string) (m : ME E A) : Prop :=
  forall w w' r, is_Some (builds (w_db w) !! id) -> m w = (w', r) ->
    rtc step (w_db w) (w_db w') /\ is_Some (builds (w_db w') !! id).

Definition build_tables (d : db) : gmap string build * list build_event := (builds d, build_events d).

Lemma keeps_quiet {E A} (m : ME E A) : keeps build_tables m -> Quiet m.
Proof. intros Hk w w' r H. apply Hk in H. by injection H as -> ->. Qed.

Lemma quiet_on {E A} id (m : ME E A) : Quiet m -> StepsOn id m.
Proof.
  intros Hq w w' r Hid H. split; [by eapply quiet_steps|]. apply Hq in H as [-> _]. done.
Qed.

Lemma on_bind {E A B} id (m : ME E A) (k : A -> ME E B) :
  StepsOn id m -> (forall a, StepsOn id (k a)) -> StepsOn id (m ≫= k).
Proof.
  intros Hm Hk w w' r Hid. unfold mbind, M_bind. destruct (m w) as [w1 [a|e]] eqn:E1;
    apply Hm in E1 as [S1 Hid1]; [|done|by intros [= <- _]|done].
  intros H. apply Hk in H as [S2 Hid2]; [|done]. split; [by etransitivity|done].
Qed.

Lemma record_on b reason : StepsOn (bi_build_id b) (record_created b reason).
Proof.
  intros w w' [u|e] Hid H; [apply run_ok in H as [H _]|apply exec_err in H as [H _]]; rewrite H;
    [|done]. split; [by apply rtc_once, step_created|done].
Qed.

Lemma steps_insert_then {A} b (rest refuse : M A) :
  StepsOn (bi_build_id b) rest -> Steps refuse ->
  Steps (inserted ← insert_build_with_retry b; if (inserted : bool) then rest else refuse).
Proof.
  intros Hrest Href w w' r H. unfold mbind, M_bind in H.
  destruct (insert_build_with_retry b w) as [w1 i] eqn:E.
  transitivity (w_db w1); [by apply (steps_insert_attempts _ _ _ _ _ E)|].
  apply insert_attempts_result in E. destruct i as [[]|e]; [|by eapply Href|by injection H as <- _].
  apply insert_effect_builds in E as (_ & Hb & _). eapply Hrest; [|done].
  rewrite Hb. unfold after_insert. rewrite lookup_insert_eq. eauto.
Qed.

(** Decompose what follows an insert. *)
Ltac on_tac :=
  repeat first [apply record_on | apply on_bind; [|intros ?]];
  try (apply quiet_on, keeps_quiet; by auto 12 with keeps).

Lemma steps_queue_build b reason refused : Steps (queue_build b reason refused).
Proof. apply steps_insert_then; [on_tac|apply quiet_steps, quiet_throw]. Qed.

Lemma steps_queue_rerun parse auth id steps new_id now :
  Steps (queue_rerun parse auth id steps new_id now).
Proof.
  unfold queue_rerun. repeat first [apply steps_insert_then | steps_step].
  - unfold rerun_recorded. on_tac.
  - unfold rerun_refused, active_retry. handler_tac.
Qed.

Lemma steps_retry_build_step parse auth id step new_id now :
  Steps (retry_build_step parse auth id step new_id now).
Proof.
  unfold retry_build_step, retryable_steps, steps_taken_by_retries, active_retry, upload_ready,
    publishing_enabled, load_google_play, stored_artifacts, uploaded_ipa_artifact_id, load_config,
    load_signing_key_row, find_uploaded_ipa.
  repeat first [apply steps_queue_rerun | steps_step].
Qed.

Lemma steps_webhook lower file changed binding draw now t :
  (forall p pl f wf, Quiet (binding p pl f wf)) ->
  Steps (trigger_build_from_webhook lower file changed binding draw now t).
Proof.
  intros Hq. unfold trigger_build_from_webhook, run_project, run_pipeline, run_candidate, start_build.
  repeat first [apply steps_insert_then | apply quiet_steps, Hq | steps_step].
  all: unfold webhook_recorded; on_tac.
Qed.

Lemma steps_lift {A} (r : result api_error A) : Steps (lift_api r).
Proof. destruct r; apply quiet_steps; [apply quiet_ret|apply quiet_throw]. Qed.

Lemma steps_create_build resolve file binding auth pid req id now :
  (forall repo branch, Quiet (resolve repo branch)) -> (forall p pl f wf, Quiet (binding p pl f wf)) ->
  Steps (create_build resolve file binding auth pid req id now).
Proof.
  intros Hr Hb. unfold create_build, require_google_play_secret, load_google_play, secret_name_visible,
    resolve_repository_clone_url.
  repeat first [apply steps_insert_then | apply steps_lift
    | apply quiet_steps; first [apply Hr | apply Hb] | steps_step].
  unfold manual_recorded. on_tac.
Qed.

Lemma steps_create_scheduled resolve p s id now :
  (forall repo branch, Quiet (resolve repo branch)) ->
  Steps (create_scheduled_build resolve p s id now).
Proof.
  intros Hq. unfold create_scheduled_build, resolve_repository_clone_url.
  repeat first [apply steps_queue_build | apply quiet_steps, Hq | steps_step].
Qed.

Lemma steps_schedule_tick ft resolve draw now :
  (forall repo branch, Quiet (resolve repo branch)) ->
  Steps (run_schedule_tick ft resolve draw now).
Proof.
  intros Hq. unfold run_schedule_tick, run_schedule, claim_due_run, release_claim, move_checkpoint.
  repeat first [by apply steps_create_scheduled | steps_step].
Qed.

(** Retention: the rows it expires or deletes are finished and stay so until
    their turn comes. *)
Definition finished_in (ids : list string) (d : db) : Prop :=
  forall id b, id ∈ ids -> builds d !! id = Some b -> BuildStatus.is_terminal (b_status b) = true.

Lemma finished_in_cleaned ids ids' full d d' :
  cleaned_up ids' full d d' -> finished_in ids d -> finished_in ids d'.
Proof.
  intros [_ N _ W] Hf id b' Hin Hb'.
  destruct (builds d !! id) as [b|] eqn:Hb; [|by rewrite (N _ Hb) in Hb'].
  specialize (Hf _ _ Hin Hb).
  destruct (W _ _ _ Hb Hb') as [K|(_ & [-> | ->] & _)]; [|done|done].
  by destruct (kept_fields _ _ K) as [-> _].
Qed.

Lemma steps_expire id now : Steps (expire_build_artifacts id now).
Proof.
  unfold expire_build_artifacts, soft. apply steps_bind; [handler_tac|intros _].
  apply steps_bind; [apply steps_map_err|intros _; handler_tac].
  intros w w' [[]|e] H; [|by apply sql_err in H as [-> _]].
  apply sql_ok in H as [H _]. injection H as <-. apply rtc_once, step_mark_expired.
Qed.

Lemma delete_row_steps id d b :
  builds d !! id = Some b -> BuildStatus.is_terminal (b_status b) = true ->
  rtc step d (delete_build_row id d).
Proof. intros. apply rtc_once. by eapply step_delete. Qed.

Lemma record_steps id target now w w' r :
  finished_in [id] (w_db w) -> cleanup_build_record id target now w = (w', r) ->
  rtc step (w_db w) (w_db w').
Proof.
  intros Hf. unfold cleanup_build_record, catch. destruct target; cbn.
  { destruct (expire_build_artifacts id now w) as [w1 r1] eqn:E. intros [= <- _]. by eapply steps_expire. }
  unfold mbind, M_bind, soft, map_errM. destruct (sql _ w) as [w1 [n|e]] eqn:E1; cbn.
  - apply sql_ok in E1 as [E1 _].
    assert (Hd : rtc step (w_db w) (w_db w1)).
    { destruct (has_release id (w_db w)); [by injection E1 as -> _|].
      destruct (builds (w_db w) !! id) as [b|] eqn:Hb; injection E1 as <- _; [|done].
      eapply delete_row_steps; [done|]. apply (Hf id); [set_solver|done]. }
    destruct (n =? 0); [|by intros [= <- _]].
    destruct (expire_build_artifacts id now w1) as [w2 r2] eqn:E2. intros [= <- _].
    etrans; [exact Hd|]. by eapply steps_expire.
  - apply sql_err in E1 as [E1 _]. intros [= <- _]. by rewrite E1.
Qed.

(** Everything around the record leaves builds and their log alone. *)
Lemma quiet_object deletable path : Quiet (delete_object deletable path).
Proof. intros w w' r. unfold delete_object. case_match; intros [= <- _]; done. Qed.

Lemma steps_files deletable l : forall t, Steps (delete_artifact_files deletable l t).
Proof.
  induction l as [|a l IH]; intros t; cbn; [apply quiet_steps, quiet_ret|].
  apply steps_bind; [apply quiet_steps, quiet_object|]. intros []; [apply IH|apply quiet_steps, quiet_ret].
Qed.

Lemma steps_screenshots deletable keys : Steps (delete_screenshots deletable keys).
Proof.
  unfold delete_screenshots. apply steps_for_each. intros key u.
  apply steps_bind; [apply quiet_steps, quiet_object|intros; apply quiet_steps, quiet_ret].
Qed.

Lemma candidate_steps deletable policy now by_build id acc w w' r :
  finished_in [id] (w_db w) -> cleanup_candidate deletable policy now by_build id acc w = (w', r) ->
  rtc step (w_db w) (w_db w').
Proof.
  intros Hf H. unfold cleanup_candidate in H. destruct acc as [t c].
  destruct (dry_run policy); [by injection H as <- _|].
  unfold mbind at 1, M_bind at 1 in H.
  destruct (delete_artifact_files deletable _ t w) as [w1 [[deleted t1]|e]] eqn:E1;
    pose proof (steps_files _ _ _ _ _ _ E1) as S1; [|by injection H as <- _].
  apply (cleans_files deletable [id] true) in E1 as C1.
  apply (finished_in_cleaned [id]) in C1; [|done].
  destruct deleted; cbn [negb] in H; [|by injection H as <- _].
  etrans; [exact S1|]. clear S1 E1 Hf w.
  assert (Hclean : forall keys w2 w3 x, finished_in [id] (w_db w2) ->
    (done ← cleanup_build_record id (cleanup_target policy) now;
     if negb done then mret (t1, c)
     else
       _ ← (if bool_decide (keys = []) then mret tt
            else kept ← build_exists id;
                 if (kept : bool) then mret tt else delete_screenshots deletable keys);
       mret (Totals (builds_expired t1 + 1) (artifacts_deleted t1) (bytes_reclaimed t1), S c)) w2
      = (w3, x) -> rtc step (w_db w2) (w_db w3)).
  { clear. intros keys w2 w3 x Hf H. unfold mbind at 1, M_bind at 1 in H.
    destruct (cleanup_build_record _ _ _ w2) as [w4 [ok|e]] eqn:E4;
      (apply record_steps in E4; [|done]); [|by injection H as <- _].
    etrans; [exact E4|]. destruct ok; cbn [negb] in H; [|by injection H as <- _].
    assert (Hrest : Steps (_ ← (if bool_decide (keys = []) then mret tt
        else kept ← build_exists id;
             if (kept : bool) then mret tt else delete_screenshots deletable keys);
      mret (Totals (builds_expired t1 + 1) (artifacts_deleted t1) (bytes_reclaimed t1), S c)))
      by (unfold build_exists; repeat first [apply steps_screenshots | steps_step]).
    exact (Hrest _ _ _ H). }
  destruct (cleanup_target policy); [by apply (Hclean []) in H|].
  unfold catch in H. destruct (screenshot_keys_for_build id w1) as [w2 r2] eqn:E2.
  apply reads_sql in E2. rewrite <- E2 in C1 |- *.
  destruct r2 as [keys|e]; [by apply Hclean in H|by injection H as <- _].
Qed.

Lemma candidates_steps deletable policy now by_build ids : forall acc w w' r,
  finished_in ids (w_db w) ->
  for_each (cleanup_candidate deletable policy now by_build) ids acc w = (w', r) ->
  rtc step (w_db w) (w_db w').
Proof.
  induction ids as [|id ids IH]; intros acc w w' r Hf H; [by injection H as <- _|].
  cbn [for_each] in H. unfold mbind, M_bind in H.
  destruct (cleanup_candidate _ _ _ _ id acc w) as [w1 r1] eqn:E1.
  assert (S1 : rtc step (w_db w) (w_db w1)).
  { eapply candidate_steps, E1. intros k b Hk. apply Hf. set_solver. }
  destruct r1 as [a|e]; [|by injection H as <- _]. etrans; [exact S1|]. eapply IH, H.
  eapply finished_in_cleaned; [by eapply cleans_candidate|]. intros k b Hk. apply Hf. set_solver.
Qed.

Lemma steps_cleanup_project deletable pid now t : Steps (cleanup_project deletable pid now t).
Proof.
  intros w w' r [[-> _]|(ids & w1 & r1 & _ & D1 & Hc & Hl & _)]%cleanup_project_run; [done|].
  rewrite <- D1. eapply candidates_steps, Hl. intros id b Hin Hb. rewrite D1 in Hb.
  by destruct (candidate_protected _ _ _ _ _ Hb (Hc _ Hin)) as (_ & ? & _).
Qed.

Lemma steps_retention deletable fuel over now : Steps (run_retention_cleanup deletable fuel over now).
Proof.
  assert (Hp : forall dry ids clock t, Steps (cleanup_passes deletable fuel over now dry ids clock t)).
  { induction fuel as [|n IH]; intros dry ids clock t; cbn [cleanup_passes]; [apply quiet_steps, quiet_ret|].
    unfold pass_project.
    repeat first [apply steps_cleanup_project | apply IH | steps_step]. }
  unfold run_retention_cleanup, load_global_policy. repeat first [apply Hp | steps_step].
Qed.

Lemma steps_project_retention auth pid : Steps (get_project_retention auth pid).
Proof. unfold get_project_retention, project_with_permission, load_global_policy, try_sql. handler_tac. Qed.

Lemma steps_limits_check l : Steps (validate_retention_limits l).
Proof. unfold validate_retention_limits. handler_tac. Qed.

(** ** The daemon *)

(** *** Releases

    No handler of releases, environments or promotions touches a build. *)

Create HintDb quiet.

Lemma quiet_emit {E} (e : effect) : Quiet (E := E) (emit e).
Proof. by intros w w' r [= <- _]. Qed.

Lemma quiet_client {E A} (m : ME E A) : client_op m -> Quiet m.
Proof. intros Hm w w' r H. destruct (Hm _ _ _ H) as [[links ->] _ _]. done. Qed.

Lemma quiet_call {E A} (e : effect) (m : ME E A) : client_op m -> Quiet (call e m).
Proof. intros Hm. apply quiet_bind; [apply quiet_emit|]. intros _. by apply quiet_client. Qed.

Lemma quiet_guard {E} c (e : E) : Quiet (guard c e).
Proof. destruct c; [apply quiet_ret|apply quiet_throw]. Qed.

Lemma quiet_from_option {E A} (e : E) (o : option A) : Quiet (from_option e o).
Proof. destruct o; [apply quiet_ret|apply quiet_throw]. Qed.

Lemma quiet_resolve uid irole pid src : Quiet (resolve_effective_project_role uid irole pid src).
Proof. intros w w' r H. by apply resolve_role_pure in H as [-> _]. Qed.

Lemma quiet_require eff perm : Quiet (require_project_permission eff perm).
Proof. intros w w' r H. by apply require_permission_pure in H as ->. Qed.

Lemma quiet_audit {E} actor action kind id : Quiet (E := E) (write_audit_log actor action kind id).
Proof. intros w w' r H. apply audit_run in H as (_ & [l ->] & _). done. Qed.

Ltac head_of t := lazymatch t with ?f _ => head_of f | _ => t end.

(** Decompose an operation into statements that touch no build. *)
Ltac quiet_step :=
  lazymatch goal with
  | |- forall _, _ => intros
  | |- Quiet (sql _) => apply quiet_sql; intros ?; cbn; repeat case_match; by split
  | |- Quiet (emit _) => apply quiet_emit
  | |- Quiet (call _ _) =>
      by apply quiet_call; auto using observe_law, apply_law, crash_rate_law, promote_law
  | |- Quiet (guard _ _) => apply quiet_guard
  | |- Quiet (from_option _ _) => apply quiet_from_option
  | |- Quiet (resolve_effective_project_role _ _ _ _) => apply quiet_resolve
  | |- Quiet (require_project_permission _ _) => apply quiet_require
  | |- Quiet (write_audit_log _ _ _ _) => apply quiet_audit
  | |- Quiet (for_each _ _ _) => apply quiet_for_each
  | |- Quiet (catch _ _) => apply quiet_catch
  | |- Quiet (map_errM _ _) => apply quiet_map_err
  | |- Quiet (transaction_with _ _) => apply quiet_transaction
  | |- Quiet (_ ≫= _) => apply quiet_bind
  | |- Quiet (mret _) => apply quiet_ret
  | |- Quiet (throw _) => apply quiet_throw
  | |- Quiet (match _ with _ => _ end) => case_match
  | |- Quiet ?m => let h := head_of m in unfold h
  end.

Ltac quiet_tac := repeat first [solve [auto with quiet nocore] | quiet_step].

Section Quiet.
Context {outside : AppStoreOutside} {client : ReleaseStoreClient} {laws : ReleaseStoreLaws}.

Lemma quiet_load id : Quiet (load_release id).
Proof. unfold load_release. quiet_tac. Qed.

Lemma quiet_insert_history h : Quiet (insert_history h).
Proof. unfold insert_history. quiet_tac. Qed.

#[local] Hint Resolve quiet_load quiet_insert_history : quiet.

Lemma quiet_touch id p f : Quiet (sql (update_release id p f)).
Proof. apply quiet_sql. intros d. unfold update_release. repeat case_match; by split. Qed.

#[local] Hint Resolve quiet_touch : quiet.

Lemma quiet_transition id ch actor reason now : Quiet (transition_release id ch actor reason now).
Proof. unfold transition_release, record_change, audit, publish. quiet_tac. Qed.

Lemma quiet_note rel reason now : Quiet (note_rollout_hold rel reason now).
Proof. unfold note_rollout_hold. quiet_tac. Qed.

#[local] Hint Resolve quiet_transition quiet_note : quiet.

Lemma quiet_sync rel now : Quiet (sync_release_with_store rel now).
Proof. unfold sync_release_with_store. quiet_tac. Qed.

Lemma quiet_insert_release input actor reason id now : Quiet (insert_release input actor reason id now).
Proof. unfold insert_release. quiet_tac. Qed.

Lemma quiet_finish {E} created actor now : Quiet (E := E) (finish_create created actor now).
Proof. unfold finish_create, audit, publish. destruct created. quiet_tac. Qed.

#[local] Hint Resolve quiet_sync quiet_insert_release quiet_finish : quiet.

Lemma quiet_promotion id p f : Quiet (sql (update_promotion id p f)).
Proof. apply quiet_sql. intros d. unfold update_promotion. repeat case_match; by split. Qed.

Lemma quiet_drop pid id : Quiet (sql (fun d => (delete_environment_row pid id d, tt))).
Proof. apply quiet_sql. intros d. cbn. unfold delete_environment_row. repeat case_match; by split. Qed.

#[local] Hint Resolve quiet_promotion quiet_drop : quiet.

Lemma quiet_mark_failed id message now : Quiet (mark_failed id message now).
Proof. unfold mark_failed. quiet_tac. Qed.

Lemma quiet_read {A} (q : db -> A) : Quiet (stmt (fun d => (d, q d))).
Proof. apply quiet_map_err, quiet_sql. by split. Qed.

#[local] Hint Resolve quiet_mark_failed quiet_read : quiet.

Lemma quiet_load_environment pid id : Quiet (load_environment pid id).
Proof. unfold load_environment. quiet_tac. Qed.

Lemma quiet_ensure b env skip now : Quiet (ensure_not_promoted b env skip now).
Proof. unfold ensure_not_promoted. quiet_tac. Qed.

#[local] Hint Resolve quiet_load_environment quiet_ensure : quiet.

Lemma quiet_load_promotion pid id viewer : Quiet (load_promotion_with_environment pid id viewer).
Proof. unfold load_promotion_with_environment. quiet_tac. Qed.

Lemma quiet_execute id env source actor reason new_id now :
  Quiet (execute_promotion id env source actor reason new_id now).
Proof. unfold execute_promotion. quiet_tac. Qed.

#[local] Hint Resolve quiet_load_promotion quiet_execute : quiet.

Lemma quiet_update_link id f : Quiet (sql (update_link id f)).
Proof. apply quiet_sql. intros d. unfold update_link. repeat case_match; by split. Qed.

Lemma quiet_hop link target fraction reason now path :
  forall expect, Quiet (hop link target fraction reason now path expect).
Proof. induction path; intros; cbn; quiet_tac. Qed.

#[local] Hint Resolve quiet_update_link quiet_hop : quiet.

Lemma quiet_poll_error id message now : Quiet (record_poll_error id message now).
Proof. unfold record_poll_error, try_record_poll_error, note_failure. quiet_tac. Qed.

#[local] Hint Resolve quiet_poll_error : quiet.

Lemma quiet_poll_link creds rounds now : forall link, Quiet (poll_link creds rounds link now).
Proof.
  induction rounds; intros; cbn; [apply quiet_ret|].
  apply quiet_catch; [apply quiet_client, client_advance|]. unfold apply_step. quiet_tac.
Qed.

Lemma quiet_credentials pipeline_id : Quiet (load_credentials pipeline_id).
Proof. apply quiet_client, client_credentials. Qed.

#[local] Hint Resolve quiet_poll_link quiet_credentials : quiet.

Lemma quiet_poll now : Quiet (poll_releases now).
Proof. unfold poll_releases. quiet_tac. Qed.

Lemma quiet_rhandler {E A} (m : ME E A) : rhandler m -> Quiet m.
Proof.
  destruct 1; first [apply quiet_poll | quiet_tac].
Qed.

End Quiet.

(** Retention deletes a build only when it has no release; then no release,
    history entry or promotion goes with it. *)
Lemma delete_build_keeps_releases id d :
  rinv d -> pinv d -> has_release id d = false ->
  releases (delete_build_row id d) = releases d /\
  release_history (delete_build_row id d) = release_history d /\
  project_environments (delete_build_row id d) = project_environments d /\
  environment_promotions (delete_build_row id d) = environment_promotions d.
Proof.
  intros [_ _ Hh] [Hp _] Hr. rewrite has_release_false in Hr. cbn. split_and!; [|..|done|].
  - apply map_filter_id. naive_solver.
  - apply list_filter_all, Forall_forall. intros h Hin. destruct (Hh h Hin) as [r Hl].
    rewrite Hl, bool_decide_false; [done|]. naive_solver.
  - apply map_filter_id. intros k p Hk Hb. destruct (Hp k p Hk) as [_ (r & Hs & Hrb) _ _].
    apply (Hr _ _ Hs). by rewrite Hrb.
Qed.

(** Everything the daemon runs on its own or for a request that writes builds
    or their events: requests about builds, runners, releases, pipelines,
    projects and integrations, the monitors, the delivery worker, startup and
    operator requests.  What is outside the repository (a host's answers, a
    store) may read and report, but not write builds.  [h_synchronise] is the
    transaction of the three synchronisations: whatever else they write before
    and after, the removal of the repositories that are gone is in it. *)
Inductive handler : forall {E A : Type}, ME E A -> Prop :=
  | h_insert b : handler (insert_build_with_retry b)
  | h_cancel auth id now : handler (cancel_build auth id now)
  | h_approve auth id reason now : handler (approve_build auth id reason now)
  | h_reject auth id reason now : handler (reject_build auth id reason now)
  | h_claim hash encode auth rid req token now :
      handler (claim_job hash encode auth rid req token now)
  | h_report auth rid id req now : handler (update_job_status auth rid id req now)
  | h_heartbeat auth rid req new_id now : handler (runner_heartbeat auth rid req new_id now)
  | h_register hash enforce auth req token rid now :
      handler (register_runner hash enforce auth req token rid now)
  | h_purge enforce auth rid now : handler (purge_runner_caches enforce auth rid now)
  | h_update_runner enforce auth rid req now : handler (update_runner enforce auth rid req now)
  | h_delete_runner enforce auth rid now : handler (delete_runner enforce auth rid now)
  | h_requeue now : handler (requeue_expired_claims now)
  | h_expire now : handler (expire_pending_approvals now)
  | h_time_out now : handler (time_out_overdue_builds now)
  | h_heartbeats up now : handler (runner_heartbeat_tick up now)
  | h_reload now : handler (reload_pending now)
  | h_barrier token now : handler (acquire_barrier token now)
  | h_schedules from_timestamp resolve_branch_commit draw now :
      (forall repo branch, Quiet (resolve_branch_commit repo branch)) ->
      handler (run_schedule_tick from_timestamp resolve_branch_commit draw now)
  | h_rerun parse auth id new_id now : handler (rerun_build parse auth id new_id now)
  | h_retry parse auth id step new_id now : handler (retry_build_step parse auth id step new_id now)
  | h_webhook to_lowercase file_at changed_files workflow_binding draw now t :
      (forall p pl file wf, Quiet (workflow_binding p pl file wf)) ->
      handler (trigger_build_from_webhook to_lowercase file_at changed_files workflow_binding draw now t)
  | h_manual resolve_branch_commit load_pipeline_file workflow_binding auth project_id req build_id now :
      (forall repo branch, Quiet (resolve_branch_commit repo branch)) ->
      (forall p pl file wf, Quiet (workflow_binding p pl file wf)) ->
      handler (create_build resolve_branch_commit load_pipeline_file workflow_binding auth project_id
        req build_id now)
  | h_retention deletable fuel over_budget now :
      handler (run_retention_cleanup deletable fuel over_budget now)
  | h_retention_policy enforce auth req : handler (update_retention_policy enforce auth req)
  | h_set_override auth pid req : handler (update_project_retention auth pid req)
  | h_drop_override auth pid : handler (delete_project_retention auth pid)
  | h_update_project auth pid req now : handler (update_project auth pid req now)
  | h_delete_project deletable off auth pid : handler (delete_project deletable off auth pid)
  | h_delete_pipeline deletable enforce auth pid : handler (delete_pipeline deletable enforce auth pid)
  | h_delete_integration enforce auth id now : handler (delete_integration enforce auth id now)
  | h_delete_local_git enforce auth id now : handler (delete_local_git_integration enforce auth id now)
  | h_synchronise E A (on_err : sqlx_error -> E) (before : ME E unit) stale now (after : ME E A) :
      Quiet before -> Quiet after ->
      handler (transaction_with on_err
        (_ ← before; _ ← map_errM on_err (remove_stale_repositories stale now); a ← after; mret (Commit a)))
  | h_worker_claim now : handler (claim_next_webhook now)
  | h_worker_turn (outside : WebhookOutside) t id :
      (forall p pl file wf, Quiet (binding p pl file wf)) -> handler (handle_claimed t id)
  | h_worker_recovery now sent : handler (recovery_pass now sent)
  | h_release (outside : AppStoreOutside) (client : ReleaseStoreClient) (laws : ReleaseStoreLaws) E A (m : ME E A) :
      rhandler m -> handler m.

(** The delivery worker. *)
Lemma steps_worker_claim now : Steps (claim_next_webhook now).
Proof. unfold claim_next_webhook. handler_tac. Qed.

Lemma steps_recovery now sent : Steps (recovery_pass now sent).
Proof. unfold recovery_pass, fail_exhausted_webhook_leases. handler_tac. Qed.

Lemma quiet_decision (outside : WebhookOutside) event : Quiet (webhook_trigger_decision event).
Proof.
  assert (Hr : forall i e f, Quiet (registered_target_repository_matches i e f))
    by (intros; apply quiet_map_err, quiet_sql; by split).
  unfold webhook_trigger_decision, push_decision, change_decision. cbv zeta.
  repeat case_match; try apply quiet_ret; apply quiet_bind; try apply Hr; intros; apply quiet_ret.
Qed.

Lemma steps_worker_turn (outside : WebhookOutside) t id :
  (forall p pl file wf, Quiet (binding p pl file wf)) -> Steps (handle_claimed t id).
Proof.
  intros Hq. unfold handle_claimed, process_claimed_webhook, load_event, process_webhook_event, mark_processed,
    record_webhook_processing_error, attempt, spawn_config_file_refresh.
  repeat first [by apply steps_webhook | apply quiet_steps, quiet_decision | apply quiet_steps, quiet_emit | steps_step].
Qed.

Lemma handler_steps {E A} (m : ME E A) : handler m -> Steps m.
Proof.
  destruct 1; [apply steps_insert_attempts|apply steps_cancel_build|apply steps_decide
    |apply steps_decide|apply steps_claim_job|apply steps_update_job_status
    |apply steps_runner_heartbeat|apply steps_register|apply steps_purge|apply steps_update_runner
    |apply steps_delete_runner|apply steps_requeue|apply steps_expire_approvals|apply steps_time_out
    |apply steps_heartbeat_tick|apply steps_reload|apply steps_acquire_barrier
    |by apply steps_schedule_tick|apply steps_queue_rerun|apply steps_retry_build_step
    |by apply steps_webhook|by apply steps_create_build|apply steps_retention| | |
    |apply steps_update_project|apply steps_delete_project|apply steps_delete_pipeline
    |apply steps_delete_integration|apply steps_delete_local|by apply steps_synchronisation
    |apply steps_worker_claim|by apply steps_worker_turn|apply steps_recovery
    |by apply quiet_steps, quiet_rhandler].
  all: unfold update_retention_policy, update_project_retention, delete_project_retention,
    project_with_permission, load_global_policy, try_sql.
  all: repeat first [apply steps_project_retention | apply steps_limits_check | apply steps_guard
    | steps_step].
Qed.

(** The daemon works on [d] and leaves [d']. *)
Definition serves (d d' : db) : Prop :=
  exists (E A : Type) (m : ME E A) (w w' : world) (r : result E A),
    handler m /\ m w = (w', r) /\ w_db w = d /\ w_db w' = d'.

(** C1: refinement.  Every run of everything in [handler], whatever statements
    of it fail and however it ends, is a sequence of the steps of the build
    state machine.  [handler] has every writer of the build table and its
    events, but for the columns of commit reports and notifications: creation by hand, schedule, rerun, retry and delivery (with the
    worker that processes deliveries); cancellation and approval; the runners'
    claims, reports and heartbeats; the monitors, startup and the operator's
    barrier; retention; a project that gets another source; the deletion of
    projects, pipelines and integrations and the repositories a synchronisation
    removes; and the release handlers, which leave builds alone. *)
Theorem handlers_refine {E A : Type} (m : ME E A) (w w' : world) (r : result E A) :
  handler m -> m w = (w', r) -> rtc step (w_db w) (w_db w').
Proof. intros Hm. by apply handler_steps. Qed.

Lemma handlers_refine_witness :
  rtc step Sample.database
    (w_db (fst (cancel_build sample_owner "b-run" 300 Sample.start))) /\
  is_ok (snd (cancel_build sample_owner "b-run" 300 Sample.start)) = true.
Proof.
  split; [|vm_compute; reflexivity].
  exact (handlers_refine (cancel_build sample_owner "b-run" 300) Sample.start _ _
    (h_cancel sample_owner "b-run" 300) (surjective_pairing _)).
Defined.

Lemma serves_steps d d' : serves d d' -> rtc step d d'.
Proof.
  intros (E & A & m & w & w' & r & Hm & Hrun & <- & <-). by apply (handler_steps m Hm w w' r).
Qed.

Lemma serves_rtc d d' : rtc serves d d' -> rtc step d d'.
Proof. induction 1 as [|x y z Hxy _ IH]; [done|]. transitivity y; [by apply serves_steps|done]. Qed.

(** C2: the invariant of the build table.  Starting from no builds, after any
    sequence of handlers and monitors: a build has a runner and a signing
    grant exactly while it is assigned or running, an end time exactly when it
    is finished, a start time while it runs, and waits for approval only in
    the queue; its event log replays from queued to its current status; every
    status change in the log is one of [BuildStatus::valid_transitions], except
    that the approval of a build is recorded as queued to queued and that the
    credential preflight fails a queued build, which the table does not allow;
    and no two builds of a project share a number. *)
Theorem build_table_invariant (d0 d : db) :
  builds d0 = ∅ -> build_events d0 = [] -> rtc serves d0 d ->
  (forall id b, builds d !! id = Some b ->
     row_ok b /\ replay id (build_events d) = Some (b_status b)) /\
  (forall e from, e ∈ build_events d -> ev_from_status e = Some from ->
     BuildStatus.can_transition_to from (ev_to_status e) = true \/
     approval_event e = true \/ preflight_event e = true) /\
  (forall id1 id2 b1 b2, builds d !! id1 = Some b1 -> builds d !! id2 = Some b2 ->
     b_project_id b1 = b_project_id b2 -> b_build_number b1 = b_build_number b2 -> id1 = id2).
Proof.
  intros Hb He Hrun. assert (Hi : inv d).
  { apply serves_rtc in Hrun. apply (steps_inv d0); [done|].
    split; rewrite ?Hb, ?He; intros *; by rewrite ?lookup_empty, ?elem_of_nil. }
  split_and!; [|intros e from Hin Hf|]; [intros id b Hid; split; destruct Hi; by eauto| |by destruct Hi; eauto].
  pose proof (inv_legal _ _ Hi Hin) as Hl. unfold legal, table_event in Hl. rewrite Hf in Hl.
  rewrite !orb_true_iff in Hl. destruct Hl as [[?|?]|?]; eauto.
Qed.

Lemma build_table_invariant_witness :
  let w := World empty_database [] [] in
  let w' := fst (insert_build_with_retry sample_binds w) in
  exists b, builds (w_db w') !! "b-new"%string = Some b /\ row_ok b.
Proof.
  intros w w'.
  destruct (builds (w_db w') !! "b-new"%string) as [b|] eqn:E; [|vm_compute in E; discriminate E].
  exists b. split; [reflexivity|].
  refine (proj1 (proj1 (build_table_invariant empty_database (w_db w') eq_refl eq_refl _) _ _ E)).
  apply rtc_once. eexists _, _, _, w, w', _. split; [exact (h_insert sample_binds)|].
  split; [apply surjective_pairing|]. by split.
Defined.

(** one upload, one retry.  Starting from no builds, after any sequence of
    handlers and monitors, however requests were based on what they read
    earlier: two unfinished retries of the same build have no upload in
    common. *)
Theorem uploads_retried_once (d0 d : db) (id1 id2 : string) (b1 b2 : build) (src : string) :
  builds d0 = ∅ -> rtc serves d0 d -> id1 <> id2 ->
  builds d !! id1 = Some b1 -> builds d !! id2 = Some b2 ->
  b_source_build_id b1 = Some src -> b_source_build_id b2 = Some src ->
  BuildStatus.is_terminal (b_status b1) = false -> BuildStatus.is_terminal (b_status b2) = false ->
  snap_retry_steps (b_snapshot b1) ## snap_retry_steps (b_snapshot b2).
Proof.
  intros H0 Hrun Hne H1 H2 S1 S2 T1 T2 upload P1 P2. apply Hne.
  enough (Hr : retries_disjoint d) by by apply (Hr id1 id2 b1 b2 src upload).
  assert (Hd0 : retries_disjoint d0). { intros ??????. by rewrite H0, lookup_empty. }
  apply serves_rtc in Hrun. clear H0 H1 H2. induction Hrun as [|x y z Hst _ IH]; [exact Hd0|].
  apply IH. by eapply step_retries.
Qed.

(** A build is created and cancelled; each of its uploads is retried. *)
Lemma uploads_retried_once_witness :
  let w0 := World empty_database [] [] in
  let w1 := fst (insert_build_with_retry sample_binds w0) in
  let w2 := fst (cancel_build sample_owner "b-new" 300 w1) in
  let binds id step := rerun_binds (fun _ => None) sample_owner "b-new" done_build Sample.snap
                         Sample.pipe (Some [step]) id 400 in
  let w3 := fst (insert_build_with_retry (binds "b-play" PUBLISH_PLAY_STEP)%string w2) in
  let w4 := fst (insert_build_with_retry (binds "b-apple" PUBLISH_APP_STORE_STEP)%string w3) in
  exists b1 b2, builds (w_db w4) !! "b-play"%string = Some b1 /\
    builds (w_db w4) !! "b-apple"%string = Some b2 /\
    snap_retry_steps (b_snapshot b1) ## snap_retry_steps (b_snapshot b2).
Proof.
  intros w0 w1 w2 binds w3 w4.
  destruct (builds (w_db w4) !! "b-play"%string) as [b1|] eqn:H1; [|vm_compute in H1; discriminate H1].
  destruct (builds (w_db w4) !! "b-apple"%string) as [b2|] eqn:H2; [|vm_compute in H2; discriminate H2].
  exists b1, b2. split; [reflexivity|]. split; [reflexivity|].
  assert (Hs : forall {E A} (m : ME E A) w, handler m -> serves (w_db w) (w_db (fst (m w)))).
  { intros E A m w Hm. exists E, A, m, w, (fst (m w)), (snd (m w)).
    split; [exact Hm|]. split; [apply surjective_pairing|]. by split. }
  refine (uploads_retried_once (w_db w0) (w_db w4) "b-play" "b-apple" b1 b2 "b-new" eq_refl
    (rtc_l _ _ _ _ (Hs _ _ _ w0 (h_insert sample_binds))
      (rtc_l _ _ _ _ (Hs _ _ _ w1 (h_cancel sample_owner "b-new" 300))
        (rtc_l _ _ _ _ (Hs _ _ _ w2 (h_insert _)) (rtc_once _ _ (Hs _ _ _ w3 (h_insert _))))))
    _ H1 H2 _ _ _ _); [done|..].
  all: vm_compute in H1, H2; injection H1 as <-; injection H2 as <-; reflexivity.
Defined.
